(* ===== verification/_CoqProject ===== *)
-Q . S2P
Prelude.v
ListFacts.v
Stateful.v
RustOrd.v
BTree.v
RustStr.v
Decimal.v
Domain.v
Base58.v
External.v
PumpModel.v
BorshReader.v
PumpDecoder.v
PumpWire.v
SnapshotArith.v
Snapshot.v
SnapshotSpec.v
SnapshotTheorems.v
Qualification.v
WindowToken.v
WindowTokenProofs.v
WindowRegistry.v
WindowRegistryInv.v
WindowRegistryTheorems.v
ApiContracts.v
Projection.v
ProjectionProofs.v
PersistenceModel.v
Config.v
SettingsStore.v
Finalization.v
FinalizeTx.v
Store.v
StoreProofs.v
FinalizationProofs.v
FinalizationTheorems.v
StoreTheorems.v
StoreLiveness.v
DiscoveryValidation.v
DiscoveryDb.v
Retention.v
DiscoveryDbProofs.v
DiscoveryDbOps.v
DiscoveryDbHistory.v
DiscoveryDbTheorems.v
DiscoveryDbReads.v
DiscoveryDbApproval.v
DiscoveryDbSample.v
DiscoveryWorker.v
DiscoveryWorkerProofs.v
Finalizer.v
FinalizerProofs.v
FinalizerTheorems.v
RpcModel.v
Recovery.v
RpcHttp.v
DiscoveryRpc.v
Normalization.v
NormalizationProofs.v
Intake.v
IntakeScope.v
IntakeCoverage.v
IntakeProofs.v
IntakeTheorems.v
Collector.v
CollectorProofs.v
PendingActivity.v
PipelineDecode.v
Pipeline.v
PipelineProofs.v
PipelineTheorems.v
PipelineErrors.v
StreamControl.v
Supervisor.v
SupervisorProofs.v
ProcessorLoop.v
SourceLoop.v
SourceLoopProofs.v
Server.v
Registers.v
