(* ===== verification/Prelude.v ===== *)
(** * Soldisco verification library

    Soldisco watches the logs of the Pump and PumpSwap programs on Solana,
    opens one bounded observation window per newly created market, collects
    the activity of that market while its window is open, and qualifies the
    market from the immutable snapshot of the closed window.  The library
    models the server (apps/server) and its crates, from the notification of a
    provider to the tables of the database and the answers to the browser.

    ** The parts and how they interact

    - Start-up reads the environment ([Config.v], config.rs), seeds the settings
      ([SettingsStore.v]) and restores the supervisor ([Server.v], state.rs).
      The supervisor ([Supervisor.v], supervisor.rs) starts and stops pipelines
      on the commands of the routes ([Server.v], http/), refuses to change the
      settings of a running one and publishes its status.
    - A pipeline ([StreamControl.v], jobs/pipeline.rs) verifies the network,
      hydrates the market registry, launches its tasks, watches them and is
      restarted with a growing delay.
    - Each of its two sources ([SourceLoop.v], jobs/collector.rs) subscribes to a
      program.  A notification is classified ([Intake.v], intake.rs): its logs are
      scoped to the top-level instructions, corroborated against the silent event
      self-calls, decoded ([PumpDecoder.v]) and admitted to the open windows.  The
      collector ([Collector.v]) turns it into batches, for a discovery by reading
      the transaction ([RpcHttp.v]) under the pacing of [DiscoveryRpc.v].  Each
      admission is owed a settlement.
    - The processor ([ProcessorLoop.v], jobs/pipeline.rs) takes the batches; one
      waits in [PendingActivity.v] while its window is provisional, and is then
      processed ([PipelineDecode.v], [Pipeline.v]): its events are decoded,
      normalized ([Normalization.v]) and stored ([Store.v]), and its admissions
      settled; a discovery confirms its window.
    - Windows are tokens with shared atomic cells ([WindowToken.v]) kept by a
      registry ([WindowRegistry.v], discovery-engine lib.rs).  A closed, settled
      window is claimed by the finalizer ([Finalizer.v], jobs/qualification.rs),
      which builds the canonical payload of its stored observations
      ([Finalization.v]) from the snapshot ([Snapshot.v]) and the rules
      ([Qualification.v]); the database rebuilds it before committing it
      ([FinalizeTx.v], [Store.v], discovery_windows.rs).
    - Stored facts are queued and leased to the worker ([DiscoveryWorker.v],
      jobs/discovery.rs), which commits candidates, market activity and counters
      ([DiscoveryDb.v], [DiscoveryValidation.v]; work.rs, discovery*.rs).
      Expired history is pruned ([Retention.v]).  Pool identities, quarantined
      evidence, collection gaps, checkpoints and audits are in [Registers.v].
    - The browser reads snapshots and follows the live events ([Server.v]);
      [Projection.v] is the in-memory projection of crates/projections.

    ** Files

    - [Prelude.v], [ListFacts.v], [Stateful.v], [RustOrd.v], [BTree.v],
      [RustStr.v], [Decimal.v]: [Result] with its monad, list sums and extremes,
      stateful computations with the relations and invariants they preserve and
      database transactions, Rust's [Ord] as a class with laws,
      [BTreeMap]/[BTreeSet], [str] and decimal text.
    - [External.v]: the third-party codecs as classes ([Base64], [Sha256],
      [ToJson], [SerdeJson]); the laws a theorem needs are a separate class.
    - [Domain.v] (crates/domain, risk-engine, source-raydium);
      [PumpModel.v], [BorshReader.v], [Base58.v], [PumpDecoder.v], [PumpWire.v]
      (crates/source-pump).
    - [SnapshotArith.v], [Snapshot.v], [Qualification.v]: operations of
      discovery-engine/src/snapshot.rs and qualification.rs; [SnapshotSpec.v],
      [SnapshotTheorems.v]: the declarative reference and the agreement with it.
    - [WindowToken.v], [WindowTokenProofs.v], [WindowRegistry.v],
      [WindowRegistryInv.v], [WindowRegistryTheorems.v]: discovery-engine/src/lib.rs.
    - [ApiContracts.v]: crates/api-contracts; [Projection.v],
      [ProjectionProofs.v]: crates/projections.
    - crates/persistence: [PersistenceModel.v] (errors, stored names, checks),
      [SettingsStore.v], [Finalization.v], [FinalizeTx.v], [Store.v] with
      [StoreProofs.v], [StoreTheorems.v], [StoreLiveness.v],
      [FinalizationProofs.v] and [FinalizationTheorems.v] (facts and windows);
      [DiscoveryValidation.v], [DiscoveryDb.v] with [DiscoveryDbProofs.v],
      [DiscoveryDbOps.v], [DiscoveryDbHistory.v], [DiscoveryDbTheorems.v],
      [DiscoveryDbReads.v], [DiscoveryDbApproval.v], [DiscoveryDbSample.v] (work
      and candidates); [Retention.v]; [Registers.v].
    - crates/solana-rpc: [RpcModel.v] (model.rs, pubsub.rs), [Recovery.v],
      [RpcHttp.v].
    - apps/server/src/jobs: [DiscoveryRpc.v]; [Normalization.v],
      [NormalizationProofs.v]; [Intake.v], [IntakeScope.v], [IntakeCoverage.v],
      [IntakeProofs.v], [IntakeTheorems.v]; [Collector.v], [CollectorProofs.v],
      [SourceLoop.v], [SourceLoopProofs.v]; [PendingActivity.v],
      [PipelineDecode.v], [Pipeline.v], [PipelineProofs.v],
      [PipelineTheorems.v], [PipelineErrors.v], [ProcessorLoop.v],
      [StreamControl.v]; [Finalizer.v], [FinalizerProofs.v],
      [FinalizerTheorems.v]; [DiscoveryWorker.v], [DiscoveryWorkerProofs.v].
    - The rest of apps/server: [Config.v], [Supervisor.v], [SupervisorProofs.v],
      [Server.v].

    Each operation keeps its name; a method whose name is taken carries the
    type's prefix.  Record fields carry a prefix of two or three letters.

    ** How the code is read

    - Machine integers are [Z] with the width at each operation ([checked_add_u],
      [try_from_u], saturation); [usize] is 64 bits.  Sums proved exact assume
      inputs typed at their width ([observations_typed]) and say so.
    - [Result] is [result], [?] its bind, a panic or unreachable arm an error
      the theorems exclude or a total default that no input reaches.
    - Clocks and identifiers drawn from the environment are arguments.
    - A registry call holds one mutex: it is one step on the registry and the
      heap of cells.  The cells are also used without it, so [WindowToken.v]
      gives each method as a program of atomic accesses and proves the accounts
      under every interleaving; the registry theorems let any number of token
      steps of other threads happen between two calls.
    - An [await] returns the world other tasks left.  The collector is a sequence
      of phases between its awaits, with drop at each of them; in the pipeline
      and the finalizer every database call is an await whose answer comes with
      the new registry, and the theorems state what they need of the others.
    - A loop over [select!] is a function of the branches it takes; the
      supervisor, the sources and the bus of live events are labelled steps, and
      their theorems hold of every sequence of labels.
    - A table is a finite map by its unique key; a transaction is a function on
      the tables, a failing one writes nothing but its place in a sequence.
      Transactions are serial; rows that other clients hold locked, where the
      statement skips them, are an argument.
    - [HashMap] iteration is [map_to_list] of a [gmap]; what depends on it is
      sorted by the code, and proved independent of the order.

    Recursion that is not structural has fuel, with a proof that it suffices: 257
    rounds for the [u128] gcd and 129 for the scaled search ([SnapshotArith.v]),
    the carry itself for [push_carry] and [push_carry256], for the recovery loop
    one page more than the history holds, for the pruning loop one round more
    than there are expired rows, and for the finalizer's drain 81 looks.  The
    worker and the restarts are given the length of their run.  No theorem is
    about runs that stop for lack of fuel.

    ** What is proved

    - Snapshots and qualification: the builder equals a declarative reference
      and fails in three cases only; it is independent of the order of the
      observations, conserves amounts, and the rules decide exactly what the
      policy says, from exact arithmetic.
    - Windows: accounting of admissions and settlements, monotone cells,
      bounded disjoint windows, admission only while open, exclusive claims that
      are complete only when the source progressed past the close.
    - Evidence: decoding is the inverse of the wire format; scoping succeeds on
      exactly the logs of well-nested transactions; activity that is not proved
      complete leaves its window incomplete; a window that stays complete has
      every event of its batches stored.
    - Errors: a batch fails only for an error of the database, too many calls, an
      event that does not serialize, or a window that another task closed or
      numbered while its row was awaited.
    - Settlement: whatever the sources, the processor and the other tasks do, an
      unsettled admission is being collected, sent, held or queued by one of them,
      once; each received batch is processed, dropped or held.
    - Durable evidence: stored facts are kept and numbered once; the canonical
      finalization of a window whose members were received inside it is refused
      only for its candidate, when that is not projected yet or cannot be
      updated; what is committed is canonical and justified, and cancellation
      ends the finalizer.
    - Candidates: leases exclude, facts are counted once, the counters are those
      of the tables, snapshots load unless a candidate was evaluated before its
      window opened, only an approval approves; the worker commits every due
      fact it leases.
    - The stream: one pipeline with the stored settings, a stop that is final,
      statuses that reach subscribers and tell the history, tasks only on the
      verified network, the schedule of the reconnections.
    - Settings and routes: bounds of the configuration, one chain of revisions,
      the status of each route, live events that no change escapes.
    - Registers: the mints of a pool, active gaps, best checkpoints, counted
      quarantine, immutable audits.  Pruning takes only what expired and is
      not locked, and counts it.
    - Providers: recovery against a growing history ends with exactly the missed
      records or a decided error; pages and instructions keep their order; a log
      subscription delivers its notifications in order, once, to its first error.
    - The projection: counters, and a snapshot that restores exactly when the
      approved counter is exact, as it is unless an approved token is qualified
      again.

    What the theorems take for granted is in their statements or in the class or
    record of the interface: the laws of the codecs and of the broadcast channel,
    schedules and clocks that are given, numbers that fit a [BIGINT], one server
    process that writes the settings, and requests that are not dropped where a
    theorem on the supervisor says so.

    Four defects are stated as theorems:
    [ProjectionProofs.requalifying_approved_breaks_restore],
    [StoreTheorems.early_receipt_strands_window],
    [SupervisorProofs.dropped_stop_runs_two_streams] and, as the case in which a
    snapshot fails, [DiscoveryDbReads.snapshots_load_in_time].

    ** Not modelled

    The checks, triggers and migrations of the schema, the collation of texts and
    the isolation of concurrent transactions, which belong to the database server;
    the queries of the projection readiness of a window and of the size of the
    database.  Sockets, TLS, the parsing of JSON, the router of Axum and its CORS layer, the
    binding of the listener in main.rs, tracing, and the inside of tokio's
    channels, semaphores and task spawning: libraries, or calls of modelled parts
    in order.  The remaining files of jobs/ (projection.rs, raydium.rs,
    screening.rs, recovery.rs) hold no logic yet. *)
From stdpp Require Export base tactics list strings gmap sorting pretty.
From Stdlib Require Export ZArith Lia.
#[global] Open Scope Z_scope.

(** ** Fallible computations

    Rust's [Result<A, E>].  The [?] operator is stdpp's monadic bind. *)
Inductive result (E A : Type) : Type :=
| Ok (a : A)
| Err (e : E).
Arguments Ok {E A} a.
Arguments Err {E A} e.

#[export] Instance result_ret {E} : MRet (result E) := fun A a => Ok a.
#[export] Instance result_bind {E} : MBind (result E) :=
  fun A B k r => match r with Ok a => k a | Err e => Err e end.
#[export] Instance result_fmap {E} : FMap (result E) :=
  fun A B f r => match r with Ok a => Ok (f a) | Err e => Err e end.

(** [Option::ok_or]. *)
Definition ok_or {E A} (o : option A) (e : E) : result E A :=
  match o with Some a => Ok a | None => Err e end.

(** [Result::ok]. *)
Definition result_ok {E A} (r : result E A) : option A :=
  match r with Ok a => Some a | Err _ => None end.

(** [Result::map_err]. *)
Definition map_err {E F A} (f : E -> F) (r : result E A) : result F A :=
  match r with Ok a => Ok a | Err e => Err (f e) end.

(** [if c { return Err(e) }]: the guard of an early return. *)
Definition guard_err {E} (c : bool) (e : E) : result E unit :=
  if c then Err e else Ok tt.

Lemma bind_Ok {E A B} (r : result E A) (k : A -> result E B) b :
  (r ≫= k) = Ok b <-> exists a, r = Ok a /\ k a = Ok b.
Proof. destruct r; simpl; naive_solver. Qed.

Lemma bind_Err {E A B} (r : result E A) (k : A -> result E B) e :
  (r ≫= k) = Err e <-> r = Err e \/ exists a, r = Ok a /\ k a = Err e.
Proof. destruct r; simpl; naive_solver. Qed.

Lemma ok_or_Ok {E A} (o : option A) (e : E) a : ok_or o e = Ok a <-> o = Some a.
Proof. destruct o; simpl; naive_solver. Qed.

Lemma ok_or_Err {E A} (o : option A) (e e' : E) :
  ok_or o e = Err e' <-> o = None /\ e = e'.
Proof. destruct o; simpl; naive_solver. Qed.

(** Opens every [?] of a successful computation, leaving one equation per
    fallible call. *)
Ltac simp_ok :=
  repeat match goal with
  | H : (_ ≫= _) = Ok _ |- _ =>
      apply bind_Ok in H; destruct H as (? & ? & H); simpl in H
  | H : ok_or _ _ = Ok _ |- _ => apply ok_or_Ok in H
  | H : Ok _ = Ok _ |- _ => injection H as H
  | H : Some _ = Some _ |- _ => injection H as H
  | H : Err _ = Ok _ |- _ => discriminate H
  | H : Ok _ = Err _ |- _ => discriminate H
  | H : None = Some _ |- _ => discriminate H
  | H : (if ?c then Err _ else _) = Ok _ |- _ =>
      let C := fresh "Hc" in destruct c eqn:C; [discriminate H|]
  | H : _ /\ _ |- _ => destruct H
  end.

(** Splits one [match]/[if] discriminee anywhere in the goal. *)
Ltac split_match :=
  match goal with
  | |- context [match ?x with _ => _ end] => let E := fresh "E" in destruct x eqn:E
  end.

(** Turns boolean comparisons in hypotheses and goal into propositions. *)
Ltac bprop :=
  repeat match goal with
  | H : context [bool_decide] |- _ => rewrite bool_decide_eq_true in H
  | H : (_ && _) = true |- _ => apply andb_true_iff in H; destruct H
  | H : (_ || _) = false |- _ => apply orb_false_iff in H; destruct H
  | H : negb _ = true |- _ => apply negb_true_iff in H
  | H : negb _ = false |- _ => apply negb_false_iff in H
  | H : (_ <=? _) = true |- _ => apply Z.leb_le in H
  | H : (_ <=? _) = false |- _ => apply Z.leb_gt in H
  | H : (_ <? _) = true |- _ => apply Z.ltb_lt in H
  | H : (_ <? _) = false |- _ => apply Z.ltb_ge in H
  | H : (_ >? _) = true |- _ => rewrite Z.gtb_ltb in H; apply Z.ltb_lt in H
  | H : (_ >? _) = false |- _ => rewrite Z.gtb_ltb in H; apply Z.ltb_ge in H
  | H : (_ =? _) = true |- _ => apply Z.eqb_eq in H
  | H : (_ =? _) = false |- _ => apply Z.eqb_neq in H
  end.

(** ** Machine integers

    A Rust integer of width [w] is a [Z]; the predicates say that it is in
    range, the operations say what the checked, saturating and wrapping
    arithmetic of the standard library does. *)
Definition uint_max (w : Z) : Z := 2 ^ w - 1.
Definition sint_max (w : Z) : Z := 2 ^ (w - 1) - 1.
Definition sint_min (w : Z) : Z := - 2 ^ (w - 1).

Abbreviation u8_max := (uint_max 8).
Abbreviation u16_max := (uint_max 16).
Abbreviation u32_max := (uint_max 32).
Abbreviation u64_max := (uint_max 64).
Abbreviation u128_max := (uint_max 128).
Abbreviation i64_max := (sint_max 64).
Abbreviation i64_min := (sint_min 64).
Abbreviation i128_max := (sint_max 128).
Abbreviation i128_min := (sint_min 128).

Definition in_uint (w z : Z) : Prop := 0 <= z <= uint_max w.
Definition in_sint (w z : Z) : Prop := sint_min w <= z <= sint_max w.

#[export] Instance in_uint_dec w z : Decision (in_uint w z).
Proof. unfold in_uint. apply _. Defined.
#[export] Instance in_sint_dec w z : Decision (in_sint w z).
Proof. unfold in_sint. apply _. Defined.

(** Unsigned [checked_add], [checked_mul], [saturating_add], [saturating_sub],
    [wrapping_add] and narrowing [try_from]. *)
Definition checked_add_u (w a b : Z) : option Z :=
  if a + b <=? uint_max w then Some (a + b) else None.
Definition checked_mul_u (w a b : Z) : option Z :=
  if a * b <=? uint_max w then Some (a * b) else None.
Definition saturating_add_u (w a b : Z) : Z := Z.min (a + b) (uint_max w).
Definition saturating_sub_u (a b : Z) : Z := Z.max (a - b) 0.
Definition wrapping_add_u (w a b : Z) : Z := (a + b) mod 2 ^ w.
Definition try_from_u (w a : Z) : option Z :=
  if (0 <=? a) && (a <=? uint_max w) then Some a else None.

(** Signed [checked_mul], [checked_sub], [saturating_*] and [try_from]. *)
Definition clamp_s (w z : Z) : Z := Z.max (sint_min w) (Z.min z (sint_max w)).
Definition in_sintb (w z : Z) : bool := (sint_min w <=? z) && (z <=? sint_max w).
Definition checked_mul_s (w a b : Z) : option Z :=
  if in_sintb w (a * b) then Some (a * b) else None.
Definition checked_sub_s (w a b : Z) : option Z :=
  if in_sintb w (a - b) then Some (a - b) else None.
Definition saturating_add_s (w a b : Z) : Z := clamp_s w (a + b).
Definition saturating_sub_s (w a b : Z) : Z := clamp_s w (a - b).
Definition saturating_mul_s (w a b : Z) : Z := clamp_s w (a * b).
Definition try_from_s (w a : Z) : option Z := if in_sintb w a then Some a else None.

Create Rewrite HintDb rust_int.

Lemma checked_add_u_Some w a b c :
  checked_add_u w a b = Some c <-> c = a + b /\ a + b <= uint_max w.
Proof. unfold checked_add_u. destruct (Z.leb_spec (a + b) (uint_max w)); naive_solver lia. Qed.

Lemma checked_add_u_None w a b :
  checked_add_u w a b = None <-> uint_max w < a + b.
Proof. unfold checked_add_u. destruct (Z.leb_spec (a + b) (uint_max w)); naive_solver lia. Qed.

Lemma checked_mul_u_Some w a b c :
  checked_mul_u w a b = Some c <-> c = a * b /\ a * b <= uint_max w.
Proof. unfold checked_mul_u. destruct (Z.leb_spec (a * b) (uint_max w)); naive_solver lia. Qed.

Lemma checked_mul_u_None w a b :
  checked_mul_u w a b = None <-> uint_max w < a * b.
Proof. unfold checked_mul_u. destruct (Z.leb_spec (a * b) (uint_max w)); naive_solver lia. Qed.

Lemma try_from_u_Some w a b :
  try_from_u w a = Some b <-> b = a /\ in_uint w a.
Proof.
  unfold try_from_u, in_uint.
  destruct (Z.leb_spec 0 a), (Z.leb_spec a (uint_max w)); simpl; naive_solver lia.
Qed.

Lemma in_sintb_iff w z : in_sintb w z = true <-> in_sint w z.
Proof. unfold in_sintb, in_sint. rewrite andb_true_iff, !Z.leb_le. done. Qed.

Lemma try_from_s_Some w a b : try_from_s w a = Some b <-> b = a /\ in_sint w a.
Proof.
  unfold try_from_s. rewrite <- in_sintb_iff.
  destruct (in_sintb w a); naive_solver.
Qed.

#[export] Hint Rewrite checked_add_u_Some checked_add_u_None checked_mul_u_Some
  checked_mul_u_None try_from_u_Some try_from_s_Some : rust_int.

#[global] Arguments uint_max : simpl never.
#[global] Arguments sint_max : simpl never.
#[global] Arguments sint_min : simpl never.

Lemma gtb_false a b : a <= b -> (a >? b) = false.
Proof. rewrite Z.gtb_ltb, Z.ltb_ge. done. Qed.
Lemma gtb_true a b : b < a -> (a >? b) = true.
Proof. rewrite Z.gtb_ltb, Z.ltb_lt. done. Qed.

(** Linear arithmetic with the widths written out. *)
Ltac unfold_ints :=
  autorewrite with rust_int in *;
  unfold in_uint, in_sint, clamp_s in *;
  change (uint_max 8) with 255 in *;
  change (uint_max 16) with 65535 in *;
  change (uint_max 32) with 4294967295 in *;
  change (uint_max 64) with 18446744073709551615 in *;
  change (uint_max 128) with 340282366920938463463374607431768211455 in *;
  change (sint_max 64) with 9223372036854775807 in *;
  change (sint_min 64) with (-9223372036854775808) in *;
  change (sint_max 128) with 170141183460469231731687303715884105727 in *;
  change (sint_min 128) with (-170141183460469231731687303715884105728) in *.
Ltac int_lia := unfold_ints; lia.
