(* ===== verification/ListFacts.v ===== *)
(** Generic lists facts the components share: sums over a list, and the
    running minimum kept by a loop that replaces its candidate only when a
    later element is strictly better. *)
From S2P Require Import Prelude.

(** ** Sums *)
Section Sums.
Context {A : Type} (f : A -> Z).

Definition sum_of (l : list A) : Z := foldr (fun x acc => f x + acc) 0 l.

Lemma sum_of_cons x l : sum_of (x :: l) = f x + sum_of l.
Proof. done. Qed.

Lemma sum_of_app l1 l2 : sum_of (l1 ++ l2) = sum_of l1 + sum_of l2.
Proof. induction l1; simpl; rewrite ?IHl1; lia. Qed.

Lemma sum_of_perm l1 l2 : l1 ≡ₚ l2 -> sum_of l1 = sum_of l2.
Proof. induction 1; simpl in *; lia. Qed.

Lemma sum_of_bounds b l :
  Forall (fun x => 0 <= f x <= b) l -> 0 <= sum_of l <= Z.of_nat (length l) * b.
Proof.
  induction 1 as [|x l Hx _ IH]; [simpl; lia|]. rewrite sum_of_cons. cbn [length]. nia.
Qed.

Lemma sum_of_filter_split (p : A -> bool) l :
  sum_of l = sum_of (List.filter p l) + sum_of (List.filter (fun x => negb (p x)) l).
Proof. induction l as [|x l IH]; simpl; [done|]. destruct (p x); simpl; lia. Qed.

Lemma sum_of_filter_le (p : A -> bool) l :
  Forall (fun x => 0 <= f x) l -> 0 <= sum_of (List.filter p l) <= sum_of l.
Proof. induction 1; simpl; [lia|]. destruct (p x); simpl; lia. Qed.
End Sums.

Lemma sum_of_ext {A} (f g : A -> Z) l :
  (forall x, x ∈ l -> f x = g x) -> sum_of f l = sum_of g l.
Proof.
  induction l as [|x l IH]; intros H; simpl; [done|].
  rewrite H, IH; [done| |left]. intros. apply H. by right.
Qed.

Lemma sum_of_plus {A} (f g : A -> Z) l :
  sum_of (fun x => f x + g x) l = sum_of f l + sum_of g l.
Proof. induction l; simpl; lia. Qed.

Lemma sum_of_zero {A} (f : A -> Z) l : (forall x, x ∈ l -> f x = 0) -> sum_of f l = 0.
Proof.
  induction l as [|x l IH]; intros H; simpl; [done|].
  rewrite H, IH; [done| |left]. intros. apply H. by right.
Qed.

Lemma sum_of_fmap {A B} (h : A -> B) (f : B -> Z) l :
  sum_of f (h <$> l) = sum_of (fun x => f (h x)) l.
Proof. induction l as [|x l IH]; [done|]. rewrite fmap_cons, !sum_of_cons. lia. Qed.

(** Grouping by a key: summing per group over all keys gives the whole sum. *)
Lemma sum_of_groups {A K} `{EqDecision K} (g : A -> K) (f : A -> Z) (ks : list K) (l : list A) :
  NoDup ks -> (forall x, x ∈ l -> g x ∈ ks) ->
  sum_of (fun k => sum_of f (List.filter (fun x => bool_decide (g x = k)) l)) ks = sum_of f l.
Proof.
  intros Hnd. induction l as [|x l IH]; intros Hin; simpl.
  { apply sum_of_zero. done. }
  rewrite <- IH by (intros; apply Hin; by right).
  assert (g x ∈ ks) as Hx by (apply Hin; left). clear IH Hin.
  induction Hnd as [|k ks Hk Hnd IHk]; [by apply elem_of_nil in Hx|].
  simpl. apply elem_of_cons in Hx as [Hx|Hx].
  - rewrite <- Hx. rewrite bool_decide_eq_true_2 by done. simpl.
    rewrite <- (sum_of_ext (fun k => sum_of f (List.filter (fun x => bool_decide (g x = k)) l))
      (fun k => sum_of f (if bool_decide (g x = k) then x :: List.filter (fun x => bool_decide (g x = k)) l
                          else List.filter (fun x => bool_decide (g x = k)) l))).
    + simpl. lia.
    + intros k' Hk'. rewrite bool_decide_eq_false_2; [done|]. congruence.
  - rewrite bool_decide_eq_false_2 by congruence. specialize (IHk Hx). simpl in IHk. lia.
Qed.

(** ** Filters *)
Lemma filter_subset {A} (p : A -> bool) l x : x ∈ List.filter p l <-> p x = true /\ x ∈ l.
Proof. rewrite !list_elem_of_In, filter_In. tauto. Qed.

Lemma filter_sublist {A} (p : A -> bool) l : List.filter p l `sublist_of` l.
Proof. induction l as [|x l IH]; simpl; [done|]. by destruct (p x); constructor. Qed.

Lemma length_filter_le {A} (p : A -> bool) l : (length (List.filter p l) <= length l)%nat.
Proof. induction l; simpl; [lia|]. destruct (p a); simpl; lia. Qed.

Lemma Forall_filter_b {A} (P : A -> Prop) p l : Forall P l -> Forall P (List.filter p l).
Proof. induction 1; simpl; [constructor|]. destruct (p x); [by constructor|done]. Qed.

Lemma filter_perm {A} (p : A -> bool) l1 l2 :
  l1 ≡ₚ l2 -> List.filter p l1 ≡ₚ List.filter p l2.
Proof.
  induction 1; simpl.
  - done.
  - by destruct (p x); [constructor|].
  - destruct (p x), (p y); try done. constructor.
  - etrans; eassumption.
Qed.

(** ** The first best element *)
Section Best.
Context {A : Type} (lt : A -> A -> bool).

(** [x] is strictly better than everything before it in [l], and nothing
    after it is better. *)
Definition first_best (x : A) (l : list A) : Prop :=
  exists pre post, l = pre ++ x :: post /\
    Forall (fun p => lt x p = true) pre /\ Forall (fun p => lt p x = false) post.

Definition fold_best (cur : A) (l : list A) : A :=
  fold_left (fun cur x => if lt x cur then x else cur) l cur.

(** The [Option] accumulator of a loop over a possibly empty list. *)
Definition fold_best_opt (l : list A) : option A :=
  fold_left (fun cur x => if match cur with None => true | Some c => lt x c end
                          then Some x else cur) l None.

Lemma first_best_elem x l : first_best x l -> x ∈ l.
Proof. intros (pre & post & -> & _). set_solver. Qed.

Context (P : A -> Prop).
Hypothesis lt_trans : forall x y z, P x -> P y -> P z ->
  lt x y = true -> lt y z = true -> lt x z = true.
Hypothesis lt_cotrans : forall x y z, P x -> P y -> P z ->
  lt x z = true -> lt y z = false -> lt x y = true.

Lemma fold_best_first c l : Forall P (c :: l) -> first_best (fold_best c l) (c :: l).
Proof.
  unfold fold_best. induction l as [|x l IH] using rev_ind; intros HP.
  { exists [], []. repeat constructor. }
  rewrite fold_left_app. simpl.
  change (c :: l ++ [x]) with ((c :: l) ++ [x]) in *.
  apply Forall_app in HP as [HP Hx]. apply Forall_cons in Hx as [Hx _].
  destruct (IH HP) as (pre & post & Hl & Hpre & Hpost).
  set (b := fold_left _ l c) in *. rewrite Hl in HP |- *.
  apply Forall_app in HP as [HP1 HP2]. apply Forall_cons in HP2 as [Hb HP2].
  destruct (lt x b) eqn:E.
  - exists (pre ++ b :: post), []. split; [done|]. split; [|constructor].
    apply Forall_app. split; [|constructor; [done|]]; rewrite Forall_forall in *; eauto.
  - exists pre, (post ++ [x]). rewrite <- app_assoc. split; [done|]. split; [done|].
    apply Forall_app. auto.
Qed.

Lemma fold_best_opt_cons c l : fold_best_opt (c :: l) = Some (fold_best c l).
Proof.
  unfold fold_best_opt, fold_best. simpl. revert c.
  induction l as [|x l IH]; intros c; simpl; [done|]. destruct (lt x c); apply IH.
Qed.

Lemma fold_best_opt_first l :
  Forall P l ->
  match fold_best_opt l with None => l = [] | Some x => first_best x l end.
Proof.
  destruct l as [|c l]; intros HP; [done|]. rewrite fold_best_opt_cons.
  by apply fold_best_first.
Qed.
End Best.

(** Orders by an integer key are suitable for [fold_best_first]. *)
Section BestKey.
Context {A : Type} (k : A -> Z).

Lemma fold_best_min_first l :
  match fold_best_opt (fun x y => k x <? k y) l with
  | None => l = []
  | Some x => first_best (fun x y => k x <? k y) x l
  end.
Proof.
  apply (fold_best_opt_first _ (fun _ => True)); [| |by apply Forall_true];
    intros x y z _ _ _; rewrite ?Z.ltb_lt, ?Z.ltb_ge; lia.
Qed.

Lemma fold_best_max_first l :
  match fold_best_opt (fun x y => k x >? k y) l with
  | None => l = []
  | Some x => first_best (fun x y => k x >? k y) x l
  end.
Proof.
  apply (fold_best_opt_first _ (fun _ => True)); [| |by apply Forall_true];
    intros x y z _ _ _; rewrite !Z.gtb_ltb, ?Z.ltb_lt, ?Z.ltb_ge; lia.
Qed.
End BestKey.

(** Sums over finite maps: what a [COUNT] or a [SUM] of a table is, and how it
    moves when a row is inserted or changed. *)
Section MapSum.
Context {K} `{Countable K} {A : Type}.
Implicit Types (m : gmap K A) (f : A -> Z).

Definition map_sum (f : A -> Z) (m : gmap K A) : Z := map_fold (fun _ a n => f a + n) 0 m.

Lemma map_sum_empty f : map_sum f ∅ = 0.
Proof. apply map_fold_empty. Qed.
Lemma map_sum_fresh f k a m : m !! k = None -> map_sum f (<[k:=a]> m) = f a + map_sum f m.
Proof. intros Hk. unfold map_sum. rewrite map_fold_insert_L; [done|intros; lia|done]. Qed.
Lemma map_sum_delete f k a m : m !! k = Some a -> map_sum f m = f a + map_sum f (delete k m).
Proof.
  intros Hk. rewrite <- (insert_delete_id m k a Hk) at 1. by rewrite map_sum_fresh by apply lookup_delete_eq.
Qed.
Lemma map_sum_update f k a b m : m !! k = Some a -> map_sum f (<[k:=b]> m) = map_sum f m - f a + f b.
Proof.
  intros Hk. rewrite (map_sum_delete f k a m Hk), <- insert_delete_eq.
  rewrite map_sum_fresh by apply lookup_delete_eq. lia.
Qed.
Lemma alter_insert g k a m : m !! k = Some a -> alter g k m = <[k:=g a]> m.
Proof.
  intros Hk. apply map_eq. intros j. destruct (decide (k = j)) as [<-|Hne].
  - by rewrite lookup_alter_eq, lookup_insert_eq, Hk.
  - by rewrite lookup_alter_ne, lookup_insert_ne.
Qed.
Lemma alter_none g k m : m !! k = None -> alter g k m = m.
Proof.
  intros Hk. apply map_eq. intros j. destruct (decide (k = j)) as [<-|Hne].
  - by rewrite lookup_alter_eq, Hk.
  - by rewrite lookup_alter_ne.
Qed.
Lemma map_sum_alter f g k a m : m !! k = Some a -> map_sum f (alter g k m) = map_sum f m - f a + f (g a).
Proof. intros Hk. rewrite (alter_insert g k a m Hk). by apply map_sum_update. Qed.
Lemma map_sum_alter_same f g k m : (forall a, m !! k = Some a -> f (g a) = f a) -> map_sum f (alter g k m) = map_sum f m.
Proof.
  intros Hg. destruct (m !! k) as [a|] eqn:Hk.
  - rewrite (map_sum_alter f g k a m Hk), (Hg a eq_refl). lia.
  - by rewrite alter_none.
Qed.
Lemma map_sum_nonneg f m : (forall k a, m !! k = Some a -> 0 <= f a) -> 0 <= map_sum f m.
Proof.
  induction m as [|k a m Hk IH] using map_ind; intros Hf; [by rewrite map_sum_empty|].
  rewrite map_sum_fresh by done. assert (0 <= f a) by (apply (Hf k), lookup_insert_eq).
  assert (0 <= map_sum f m); [|lia]. apply IH. intros j b Hj. apply (Hf j).
  rewrite lookup_insert_ne; [done|congruence].
Qed.
Lemma map_sum_le f g m : (forall a, f a <= g a) -> map_sum f m <= map_sum g m.
Proof.
  intros Hfg. induction m as [|k a m Hk IH] using map_ind; [by rewrite !map_sum_empty|].
  rewrite !map_sum_fresh by done. specialize (Hfg a). lia.
Qed.
Lemma map_sum_ext f g m : (forall k a, m !! k = Some a -> f a = g a) -> map_sum f m = map_sum g m.
Proof.
  induction m as [|k a m Hk IH] using map_ind; intros Hf; [by rewrite !map_sum_empty|].
  rewrite !map_sum_fresh, (Hf k a) by (done || apply lookup_insert_eq). f_equal. apply IH.
  intros j b Hj. apply (Hf j). rewrite lookup_insert_ne; [done|congruence].
Qed.
Lemma map_sum_size m : map_sum (fun _ => 1) m = Z.of_nat (size m).
Proof.
  induction m as [|k a m Hk IH] using map_ind; [by rewrite map_sum_empty, map_size_empty|].
  rewrite map_sum_fresh, map_size_insert_None by done. lia.
Qed.
End MapSum.

(** The rows a condition holds of. *)
Definition one_if (b : bool) : Z := if b then 1 else 0.
Definition map_count {K} `{Countable K} {A} (p : A -> bool) (m : gmap K A) : Z :=
  map_sum (fun a => one_if (p a)) m.
Lemma map_count_nonneg {K} `{Countable K} {A} (p : A -> bool) (m : gmap K A) : 0 <= map_count p m.
Proof. apply map_sum_nonneg. intros k a _. unfold one_if. destruct (p a); lia. Qed.
Lemma map_count_size {K} `{Countable K} {A} (p : A -> bool) (m : gmap K A) :
  map_count p m <= Z.of_nat (size m).
Proof. rewrite <- map_sum_size. apply map_sum_le. intros a. unfold one_if. destruct (p a); lia. Qed.

Lemma map_count_length {K} `{Countable K} {A} (p : A -> bool) (m : gmap K A) :
  Z.of_nat (length (List.filter (fun q : K * A => p q.2) (map_to_list m))) = map_count p m.
Proof.
  induction m as [|k a m Hk IH] using map_ind; [by rewrite map_to_list_empty|].
  unfold map_count. rewrite map_sum_fresh by done. unfold map_count in IH. rewrite <- IH.
  assert (List.filter (fun q : K * A => p q.2) (map_to_list (<[k:=a]> m)) ≡ₚ
    List.filter (fun q : K * A => p q.2) ((k, a) :: map_to_list m)) as ->.
  { generalize (map_to_list_insert m k a Hk). generalize (map_to_list (<[k:=a]> m)), ((k, a) :: map_to_list m).
    induction 1; simpl; repeat case_match; eauto using perm_skip, perm_swap, perm_trans. }
  simpl. destruct (p a); simpl; lia.
Qed.

(** The members of a set of pairs with a given first part. *)
Section FstCount.
Context {K A} `{Countable K} `{Countable A}.
Implicit Types (k : K) (a : A) (s : gset (K * A)).

Definition fst_count k s : Z := Z.of_nat (size (filter (fun p : K * A => p.1 = k) s)).

Lemma filter_fst_union k k' a s :
  filter (fun p : K * A => p.1 = k') ({[ (k, a) ]} ∪ s) =
  (if decide (k = k') then {[ (k, a) ]} else ∅ : gset (K * A)) ∪ filter (fun p => p.1 = k') s.
Proof.
  apply set_eq. intros p. destruct (decide (k = k')) as [->|Hne];
    rewrite ?elem_of_union, !elem_of_filter, ?elem_of_union, ?elem_of_singleton, ?elem_of_empty; naive_solver.
Qed.
Lemma fst_count_add k a s : fst_count k ({[ (k, a) ]} ∪ s) <= fst_count k s + 1.
Proof.
  unfold fst_count. rewrite filter_fst_union, decide_True by reflexivity.
  rewrite size_union_alt, size_singleton.
  assert (size (filter (fun p : K * A => p.1 = k) s ∖ {[ (k, a) ]}) <=
    size (filter (fun p : K * A => p.1 = k) s))%nat by (apply subseteq_size; set_solver).
  lia.
Qed.
Lemma fst_count_other k k' a s : k' <> k -> fst_count k' ({[ (k, a) ]} ∪ s) = fst_count k' s.
Proof.
  intros Hne. unfold fst_count. rewrite filter_fst_union, decide_False by congruence. by rewrite union_empty_l_L.
Qed.
Lemma fst_count_none k s : (forall a, (k, a) ∉ s) -> fst_count k s = 0.
Proof.
  intros Hn. unfold fst_count. assert (filter (fun p : K * A => p.1 = k) s = ∅) as ->; [|done].
  apply elem_of_equiv_empty_L. intros [k' a] [Hk Hin]%elem_of_filter. simpl in Hk. subst. by apply (Hn a).
Qed.
End FstCount.
