(* ===== verification/Stateful.v ===== *)
(** Computations that change a state and may fail, in the order the code runs
    them: what was done before an error stays done.  The jobs of the server that
    await the database are such computations; what a computation preserves is
    proved step by step. *)
From S2P Require Import Prelude.

Definition stateful (S E A : Type) : Type := S -> result E A * S.

#[export] Instance stateful_ret {S E} : MRet (stateful S E) := fun A a st => (Ok a, st).
#[export] Instance stateful_bind {S E} : MBind (stateful S E) :=
  fun A B k m st => match m st with (Ok a, st) => k a st | (Err e, st) => (Err e, st) end.

Section Operations.
Context {S E : Type}.

Definition st_fail {A} (e : E) : stateful S E A := fun st => (Err e, st).
(** [?] on a pure computation. *)
Definition st_lift {A} (r : result E A) : stateful S E A := fun st => (r, st).
Definition read_state {A} (f : S -> A) : stateful S E A := fun st => (Ok (f st), st).
Definition modify_state (f : S -> S) : stateful S E unit := fun st => (Ok tt, f st).

Lemma bind_eq {A B} (m : stateful S E A) (k : A -> stateful S E B) st :
  (m ≫= k) st = match m st with (Ok a, st') => k a st' | (Err e, st') => (Err e, st') end.
Proof. done. Qed.

(** A bind that succeeded went through both parts. *)
Lemma stateful_bind_Ok {A B} (m : stateful S E A) (k : A -> stateful S E B) st b st' :
  (m ≫= k) st = (Ok b, st') <-> exists a st1, m st = (Ok a, st1) /\ k a st1 = (Ok b, st').
Proof.
  rewrite bind_eq. destruct (m st) as [[a|e] st1]; split; try naive_solver.
Qed.
End Operations.

(** ** Relations every run respects *)
Section Preserves.
Context {S E : Type} (R : S -> S -> Prop) `{!Reflexive R} `{!Transitive R}.

Definition preserves {A} (m : stateful S E A) : Prop := forall st, R st (m st).2.

Lemma preserves_ret {A} (a : A) : preserves (mret a).
Proof. intros st. reflexivity. Qed.
Lemma preserves_fail {A} e : preserves (A:=A) (st_fail e).
Proof. intros st. reflexivity. Qed.
Lemma preserves_lift {A} r : preserves (A:=A) (st_lift r).
Proof. intros st. reflexivity. Qed.
Lemma preserves_read {A} f : preserves (A:=A) (read_state f).
Proof. intros st. reflexivity. Qed.
Lemma preserves_bind {A B} (m : stateful S E A) (k : A -> stateful S E B) :
  preserves m -> (forall a, preserves (k a)) -> preserves (m ≫= k).
Proof.
  intros Hm Hk st. specialize (Hm st). rewrite bind_eq.
  destruct (m st) as [[a|e] st']; simpl in *; [|done]. etrans; [exact Hm|apply Hk].
Qed.
End Preserves.

(** The step to the parts of a bind; the other computations by [auto]. *)
Ltac preserves_bind := apply preserves_bind; [apply _|..].
Create HintDb stateful.
#[export] Hint Extern 1 (preserves _ (mret _)) => apply preserves_ret; apply _ : stateful.
#[export] Hint Extern 1 (preserves _ (st_fail _)) => apply preserves_fail; apply _ : stateful.
#[export] Hint Extern 1 (preserves _ (st_lift _)) => apply preserves_lift; apply _ : stateful.
#[export] Hint Extern 1 (preserves _ (read_state _)) => apply preserves_read; apply _ : stateful.
#[export] Hint Extern 5 (preserves _ (mbind _ _)) => preserves_bind : stateful.

(** ** Invariants, with what is known of an error *)
Section Triple.
Context {S E : Type} (I : S -> Prop) (failed : E -> S -> Prop).

Definition maintains {A} (m : stateful S E A) : Prop := forall st, I st ->
  match m st with
  | (Ok _, st') => I st'
  | (Err e, st') => failed e st'
  end.

Lemma maintains_ret {A} (a : A) : maintains (mret a).
Proof. by intros st H. Qed.
Lemma maintains_read {A} (f : S -> A) : maintains (read_state f).
Proof. by intros st H. Qed.
Lemma maintains_modify (f : S -> S) : (forall st, I st -> I (f st)) -> maintains (modify_state f).
Proof. intros Hf st H. by apply Hf. Qed.
Lemma maintains_fail {A} e : (forall st, I st -> failed e st) -> maintains (A:=A) (st_fail e).
Proof. intros He st H. by apply He. Qed.
Lemma maintains_bind {A B} (m : stateful S E A) (k : A -> stateful S E B) :
  maintains m -> (forall a, maintains (k a)) -> maintains (m ≫= k).
Proof.
  intros Hm Hk st H. specialize (Hm st H). rewrite bind_eq.
  destruct (m st) as [[a|e] st']; [by apply Hk|done].
Qed.
End Triple.
#[export] Hint Resolve maintains_ret maintains_read : stateful.
#[export] Hint Extern 5 (maintains _ _ (mbind _ _)) => apply maintains_bind : stateful.

(** ** Transactions
    The body of a database transaction runs on the state; what it did is kept
    when it commits and undone when it rolls back or fails. *)
Inductive TxEnd (A : Type) := Commit (a : A) | Rollback (a : A).
#[global] Arguments Commit {A} a.
#[global] Arguments Rollback {A} a.
Definition transaction {S E A} (body : stateful S E (TxEnd A)) : stateful S E A := fun st =>
  match body st with
  | (Ok (Commit a), st') => (Ok a, st')
  | (Ok (Rollback a), _) => (Ok a, st)
  | (Err e, _) => (Err e, st)
  end.

Lemma transaction_inv {S E A} (body : stateful S E (TxEnd A)) st :
  (transaction body st).2 = st \/
  exists a st', body st = (Ok (Commit a), st') /\ transaction body st = (Ok a, st').
Proof.
  unfold transaction. destruct (body st) as [[[a|a]|e] st'] eqn:Ebody; simpl; [right|by left..].
  by exists a, st'.
Qed.

(** A transaction that succeeded committed, or rolled back on purpose. *)
Lemma transaction_Ok {S E A} (body : stateful S E (TxEnd A)) st a st' :
  transaction body st = (Ok a, st') ->
  body st = (Ok (Commit a), st') \/ (st' = st /\ exists st1, body st = (Ok (Rollback a), st1)).
Proof.
  unfold transaction. destruct (body st) as [[[b|b]|e] st1] eqn:Ebody; [|intros [= -> <-]; right; eauto|done].
  intros [= -> <-]. by left.
Qed.
