(* ===== verification/RustOrd.v ===== *)
(** Ordered standard-library collections: Rust's [Ord] as an interface with
    its laws, the instances the source derives, [BTreeMap]/[BTreeSet] as key
    sorted association lists, and the stable [sort_by]. *)
From S2P Require Import Prelude.

(** ** The [Ord] interface *)
Class RustOrd (A : Type) := {
  cmp : A -> A -> comparison;
  cmp_eq a b : cmp a b = Eq <-> a = b;
  cmp_antisym a b : cmp b a = CompOpp (cmp a b);
  cmp_trans a b c : cmp a b = Lt -> cmp b c = Lt -> cmp a c = Lt;
}.

(** [Ordering::then_with]. *)
Definition then_with (c d : comparison) : comparison :=
  match c with Eq => d | _ => c end.

Section OrdFacts.
Context `{RustOrd A}.

Lemma cmp_refl a : cmp a a = Eq.
Proof. by apply cmp_eq. Qed.

Lemma cmp_gt_lt a b : cmp a b = Gt <-> cmp b a = Lt.
Proof. rewrite (cmp_antisym a b). destruct (cmp a b); naive_solver. Qed.

Lemma cmp_irrefl a : cmp a a <> Lt.
Proof. by rewrite cmp_refl. Qed.

Lemma cmp_trichotomy a b : {cmp a b = Lt} + {a = b} + {cmp b a = Lt}.
Proof.
  destruct (cmp a b) eqn:E.
  - left; right. by apply cmp_eq.
  - by left; left.
  - right. by apply cmp_gt_lt.
Defined.

#[export] Instance ord_eq_dec : EqDecision A.
Proof.
  intros a b. destruct (cmp a b) eqn:E.
  - left. by apply cmp_eq.
  - right. intros ->. by rewrite cmp_refl in E.
  - right. intros ->. by rewrite cmp_refl in E.
Defined.
End OrdFacts.
#[global] Remove Hints ord_eq_dec : typeclass_instances.

#[export, refine] Instance ord_Z : RustOrd Z := {| cmp := Z.compare |}.
Proof.
  - apply Z.compare_eq_iff.
  - intros. apply Z.compare_antisym.
  - intros a b c. rewrite !Z.compare_lt_iff. lia.
Defined.

Lemma ascii_compare_trans (a b c : Ascii.ascii) :
  Ascii.compare a b = Lt -> Ascii.compare b c = Lt -> Ascii.compare a c = Lt.
Proof. unfold Ascii.compare. rewrite !N.compare_lt_iff. lia. Qed.

Lemma string_compare_trans s1 s2 s3 :
  String.compare s1 s2 = Lt -> String.compare s2 s3 = Lt -> String.compare s1 s3 = Lt.
Proof.
  revert s2 s3. induction s1 as [|a s1 IH]; intros [|b s2] [|c s3]; simpl; try done.
  destruct (Ascii.compare a b) eqn:Eab; try done;
    destruct (Ascii.compare b c) eqn:Ebc; try done; intros H1 H2.
  - apply Ascii.compare_eq_iff in Eab as ->. rewrite Ebc. eauto.
  - apply Ascii.compare_eq_iff in Eab as ->. by rewrite Ebc.
  - apply Ascii.compare_eq_iff in Ebc as ->. by rewrite Eab.
  - by rewrite (ascii_compare_trans _ _ _ Eab Ebc).
Qed.

(** [str] compares bytewise. *)
#[export, refine] Instance ord_string : RustOrd string := {| cmp := String.compare |}.
Proof.
  - intros a b. split; [apply String.compare_eq_iff|].
    intros ->. pose proof (String.compare_antisym b b) as Hb.
    by destruct (String.compare b b).
  - intros. apply String.compare_antisym.
  - apply string_compare_trans.
Defined.

Section Compound.
Context `{RustOrd A} `{RustOrd B}.

Lemma then_with_lt c d : then_with c d = Lt <-> c = Lt \/ c = Eq /\ d = Lt.
Proof. destruct c; simpl; naive_solver. Qed.

(** Lexicographic order of tuples and of derived [Ord]. *)
#[export, refine] Instance ord_pair : RustOrd (A * B) :=
  {| cmp p q := then_with (cmp p.1 q.1) (cmp p.2 q.2) |}.
Proof.
  - intros [a b] [a' b']; simpl. destruct (cmp a a') eqn:E; simpl.
    + apply cmp_eq in E as ->. rewrite cmp_eq. naive_solver.
    + split; [done|]. intros [= -> ->]. by rewrite cmp_refl in E.
    + split; [done|]. intros [= -> ->]. by rewrite cmp_refl in E.
  - intros [a b] [a' b']; simpl. rewrite (cmp_antisym a a'), (cmp_antisym b b').
    by destruct (cmp a a').
  - intros [a b] [a' b'] [a'' b'']; simpl. rewrite !then_with_lt, !cmp_eq.
    intros [H1|[-> H1]] [H2|[-> H2]]; eauto using cmp_trans.
Defined.

(** [None] is below every [Some]. *)
#[export, refine] Instance ord_option : RustOrd (option A) :=
  {| cmp p q := match p, q with
                | None, None => Eq
                | None, Some _ => Lt
                | Some _, None => Gt
                | Some a, Some b => cmp a b
                end |}.
Proof.
  - intros [a|] [b|]; rewrite ?cmp_eq; naive_solver.
  - intros [a|] [b|]; try done. apply cmp_antisym.
  - intros [a|] [b|] [c|]; try done. apply cmp_trans.
Defined.
End Compound.

(** ** [sort_by]

    The standard library's sort is stable; every stable sort by a total
    preorder computes the same list, here by insertion. *)
Section SortBy.
Context {A : Type} (f : A -> A -> comparison).

Fixpoint insert_by (x : A) (l : list A) : list A :=
  match l with
  | [] => [x]
  | y :: l' => match f x y with Gt => y :: insert_by x l' | _ => x :: l end
  end.

Definition sort_by (l : list A) : list A := foldr insert_by [] l.

Lemma insert_by_perm x l : insert_by x l ≡ₚ x :: l.
Proof.
  induction l as [|y l IH]; simpl; [done|].
  destruct (f x y); [done|done|]. rewrite IH. apply Permutation_swap.
Qed.

Lemma sort_by_perm l : sort_by l ≡ₚ l.
Proof. induction l; simpl; [done|]. by rewrite insert_by_perm, IHl. Qed.

Lemma sort_by_length l : length (sort_by l) = length l.
Proof. apply Permutation_length, sort_by_perm. Qed.

Lemma elem_of_sort_by x l : x ∈ sort_by l <-> x ∈ l.
Proof. by rewrite sort_by_perm. Qed.
End SortBy.

(** Sorting by a key: the comparator compares the keys [g] in an [Ord] type. *)
Section SortByKey.
Context {A K : Type} `{RustOrd K} (g : A -> K).

Definition key_cmp (x y : A) : comparison := cmp (g x) (g y).
Definition key_le (x y : A) : Prop := cmp (g x) (g y) <> Gt.

Lemma key_le_trans : Transitive key_le.
Proof.
  unfold key_le. intros x y z Hxy Hyz Hxz.
  apply cmp_gt_lt in Hxz.
  destruct (cmp_trichotomy (g x) (g y)) as [[Hlt|He]|Hgt].
  - pose proof (cmp_trans _ _ _ Hxz Hlt) as Hzy. by apply Hyz, cmp_gt_lt.
  - rewrite He in Hxz. by apply Hyz, cmp_gt_lt.
  - by apply Hxy, cmp_gt_lt.
Qed.

Lemma insert_by_sorted x l :
  StronglySorted key_le l -> StronglySorted key_le (insert_by key_cmp x l).
Proof.
  induction 1 as [|y l Hs IH Hy]; simpl.
  { repeat constructor. }
  unfold key_cmp at 1. destruct (cmp (g x) (g y)) eqn:E.
  - assert (key_le x y) by (unfold key_le; by rewrite E).
    repeat constructor; eauto using Forall_impl, key_le_trans.
  - assert (key_le x y) by (unfold key_le; by rewrite E).
    repeat constructor; eauto using Forall_impl, key_le_trans.
  - constructor; [done|]. rewrite insert_by_perm. constructor; [|done].
    unfold key_le. apply cmp_gt_lt in E. by rewrite E.
Qed.

Lemma sort_by_sorted l : StronglySorted key_le (sort_by key_cmp l).
Proof. induction l; simpl; [constructor|by apply insert_by_sorted]. Qed.

(** Two key-sorted lists with the same keys up to order have the same keys. *)
Lemma sorted_keys_unique l1 l2 :
  StronglySorted key_le l1 -> StronglySorted key_le l2 -> g <$> l1 ≡ₚ g <$> l2 ->
  g <$> l1 = g <$> l2.
Proof.
  intros H1. revert l2. induction H1 as [|x l1 Hs IH Hx]; intros l2 H2 Hp.
  { simpl in Hp. by apply Permutation_nil_l in Hp. }
  destruct H2 as [|y l2 Hs2 Hy]; simpl in *.
  { by apply Permutation_nil_r in Hp. }
  assert (g x = g y) as Hxy.
  { assert (g y ∈ g x :: (g <$> l1)) as Hin1 by (rewrite Hp; left).
    assert (g x ∈ g y :: (g <$> l2)) as Hin2 by (rewrite <- Hp; left).
    apply elem_of_cons in Hin1 as [?|Hin1]; [done|].
    apply elem_of_cons in Hin2 as [?|Hin2]; [done|].
    apply list_elem_of_fmap in Hin1 as (z & Hz & Hin1).
    apply list_elem_of_fmap in Hin2 as (w & Hw & Hin2).
    rewrite Forall_forall in Hx, Hy. specialize (Hx _ Hin1). specialize (Hy _ Hin2).
    unfold key_le in Hx, Hy. rewrite <- Hz in Hx. rewrite <- Hw in Hy.
    destruct (cmp_trichotomy (g x) (g y)) as [[Hlt|He]|Hgt]; [|done|].
    - by destruct Hy; apply cmp_gt_lt.
    - by destruct Hx; apply cmp_gt_lt. }
  rewrite Hxy in Hp. apply Permutation_cons_inv in Hp.
  rewrite Hxy. f_equal. by apply IH.
Qed.

(** The sort does not depend on the input order when keys are distinct. *)
Lemma sort_by_perm_invariant l1 l2 :
  l1 ≡ₚ l2 -> NoDup (g <$> l1) -> sort_by key_cmp l1 = sort_by key_cmp l2.
Proof.
  intros Hp Hnd.
  assert (g <$> sort_by key_cmp l1 = g <$> sort_by key_cmp l2) as Hk.
  { apply sorted_keys_unique; try apply sort_by_sorted.
    by rewrite !sort_by_perm, Hp. }
  assert (sort_by key_cmp l1 ≡ₚ sort_by key_cmp l2) as Hs by (by rewrite !sort_by_perm).
  assert (NoDup (g <$> sort_by key_cmp l1)) as Hnd1 by (by rewrite sort_by_perm).
  revert Hk Hs Hnd1. generalize (sort_by key_cmp l1) (sort_by key_cmp l2).
  intros s1. induction s1 as [|x s1 IH]; intros [|y s2]; simpl; try done.
  intros [= Hxy Hk] Hs Hnd1. apply NoDup_cons in Hnd1 as [Hx Hnd1].
  assert (x = y) as ->.
  { assert (x ∈ y :: s2) as Hin by (rewrite <- Hs; left).
    apply elem_of_cons in Hin as [?|Hin]; [done|]. destruct Hx. rewrite Hk.
    by apply list_elem_of_fmap_2. }
  f_equal. apply Permutation_cons_inv in Hs. eauto.
Qed.

Lemma sort_by_keys_perm l1 l2 :
  l1 ≡ₚ l2 -> g <$> sort_by key_cmp l1 = g <$> sort_by key_cmp l2.
Proof.
  intros Hp. apply sorted_keys_unique; try apply sort_by_sorted.
  by rewrite !sort_by_perm, Hp.
Qed.
End SortByKey.
