(* ===== verification/BTree.v ===== *)
(** [BTreeMap] and [BTreeSet] as key-sorted association lists: iteration in
    key order is the list itself. *)
From S2P Require Import Prelude.
From S2P Require Import RustOrd.

Section BTree.
Context {K V : Type} `{RustOrd K}.

Definition btree : Type := list (K * V).

Fixpoint bt_get (k : K) (m : btree) : option V :=
  match m with
  | [] => None
  | (k', v) :: m' => match cmp k k' with Eq => Some v | _ => bt_get k m' end
  end.

Fixpoint bt_insert (k : K) (v : V) (m : btree) : btree :=
  match m with
  | [] => [(k, v)]
  | (k', v') :: m' =>
      match cmp k k' with
      | Lt => (k, v) :: m
      | Eq => (k, v) :: m'
      | Gt => (k', v') :: bt_insert k v m'
      end
  end.

Fixpoint bt_remove (k : K) (m : btree) : btree :=
  match m with
  | [] => []
  | (k', v') :: m' =>
      match cmp k k' with Eq => m' | _ => (k', v') :: bt_remove k m' end
  end.

(** [entry(k).or_default()] followed by an update through the reference. *)
Definition bt_update (k : K) (d : V) (f : V -> V) (m : btree) : btree :=
  bt_insert k (f (default d (bt_get k m))) m.

Definition bt_values (m : btree) : list V := m.*2.
Definition bt_keys (m : btree) : list K := m.*1.

Definition bt_wf (m : btree) : Prop :=
  StronglySorted (fun p q => cmp p.1 q.1 = Lt) m.

Lemma bt_get_insert_eq k v m : bt_get k (bt_insert k v m) = Some v.
Proof.
  induction m as [|[k' v'] m IH]; simpl; [by rewrite cmp_refl|].
  destruct (cmp k k') eqn:E; simpl; rewrite ?cmp_refl, ?E; done.
Qed.

Lemma bt_get_insert_ne k k' v m : k' <> k -> bt_get k' (bt_insert k v m) = bt_get k' m.
Proof.
  intros Hne. assert (cmp k' k <> Eq) as Hc by (by rewrite cmp_eq).
  induction m as [|[k2 v2] m IH]; simpl.
  { by destruct (cmp k' k). }
  destruct (cmp k k2) eqn:E; simpl.
  - apply cmp_eq in E as ->. by destruct (cmp k' k2).
  - by destruct (cmp k' k).
  - by rewrite IH.
Qed.

Lemma bt_wf_nil : bt_wf [].
Proof. constructor. Qed.

Lemma bt_insert_elem k v m p : p ∈ bt_insert k v m -> p = (k, v) \/ p ∈ m.
Proof.
  induction m as [|[k' v'] m IH]; simpl.
  { rewrite list_elem_of_singleton. auto. }
  destruct (cmp k k'); rewrite !elem_of_cons; naive_solver.
Qed.

Lemma bt_wf_insert k v m : bt_wf m -> bt_wf (bt_insert k v m).
Proof.
  unfold bt_wf. induction 1 as [|[k' v'] m Hs IH Hm]; simpl.
  { repeat constructor. }
  destruct (cmp k k') eqn:E.
  - apply cmp_eq in E as ->. by constructor.
  - constructor; [by constructor|]. constructor; [done|].
    eapply Forall_impl; [done|]. intros q Hq; simpl in *. eauto using cmp_trans.
  - constructor; [done|]. rewrite Forall_forall in *. intros p Hp.
    apply bt_insert_elem in Hp as [->|Hp]; [by apply cmp_gt_lt|by apply Hm].
Qed.

Lemma bt_remove_elem k m p : p ∈ bt_remove k m -> p ∈ m.
Proof.
  induction m as [|[k' v'] m IH]; simpl; [done|].
  destruct (cmp k k'); rewrite ?elem_of_cons; naive_solver.
Qed.

Lemma bt_wf_remove k m : bt_wf m -> bt_wf (bt_remove k m).
Proof.
  unfold bt_wf. induction 1 as [|[k' v'] m Hs IH Hm]; simpl; [constructor|].
  destruct (cmp k k'); [done| |]; (constructor; [done|]);
    rewrite Forall_forall in *; eauto using bt_remove_elem.
Qed.

Lemma bt_get_elem k v m : bt_wf m -> bt_get k m = Some v <-> (k, v) ∈ m.
Proof.
  unfold bt_wf. induction 1 as [|[k' v'] m Hs IH Hm]; simpl.
  { split; [done|by intros ?%elem_of_nil]. }
  rewrite elem_of_cons. destruct (cmp k k') eqn:E.
  - apply cmp_eq in E as ->. split; [intros [= ->]; auto|].
    intros [[= ->]|Hin]; [done|]. rewrite Forall_forall in Hm.
    apply Hm in Hin. simpl in Hin. by rewrite cmp_refl in Hin.
  - rewrite IH. split; [auto|]. intros [[= -> ->]|?]; [|done].
    by rewrite cmp_refl in E.
  - rewrite IH. split; [auto|]. intros [[= -> ->]|?]; [|done].
    by rewrite cmp_refl in E.
Qed.

Lemma bt_get_lt_None k k' v m :
  bt_wf ((k', v) :: m) -> cmp k k' = Lt -> bt_get k m = None.
Proof.
  intros Hwf Hlt. apply StronglySorted_inv in Hwf as [Hs Hm].
  destruct (bt_get k m) as [w|] eqn:E; [|done].
  apply bt_get_elem in E; [|done]. rewrite Forall_forall in Hm.
  apply Hm in E. simpl in E. by rewrite (cmp_antisym k k'), Hlt in E.
Qed.

Lemma bt_remove_None k m : bt_get k m = None -> bt_remove k m = m.
Proof.
  induction m as [|[k' v'] m IH]; simpl; [done|].
  destruct (cmp k k'); [done| |]; intros; by rewrite IH.
Qed.

Lemma bt_get_remove_eq k m : bt_wf m -> bt_get k (bt_remove k m) = None.
Proof.
  unfold bt_wf. induction 1 as [|[k' v'] m Hs IH Hm]; simpl; [done|].
  destruct (cmp k k') eqn:E; simpl; rewrite ?E; try done.
  apply cmp_eq in E as ->. destruct (bt_get k' m) as [w|] eqn:Eg; [|done].
  apply bt_get_elem in Eg; [|done]. rewrite Forall_forall in Hm.
  apply Hm in Eg. simpl in Eg. by rewrite cmp_refl in Eg.
Qed.

Lemma bt_get_remove_ne k k' m : k' <> k -> bt_get k' (bt_remove k m) = bt_get k' m.
Proof.
  intros Hne. induction m as [|[k2 v2] m IH]; simpl; [done|].
  destruct (cmp k k2) eqn:E; simpl.
  - apply cmp_eq in E as ->. destruct (cmp k' k2) eqn:E2; try done.
    by apply cmp_eq in E2.
  - by rewrite IH.
  - by rewrite IH.
Qed.

Lemma bt_insert_perm k v m : bt_wf m -> bt_insert k v m ≡ₚ (k, v) :: bt_remove k m.
Proof.
  induction m as [|[k' v'] m IH]; simpl; [done|]. intros Hwf.
  destruct (cmp k k') eqn:E; [done| |].
  - rewrite bt_remove_None; [done|]. eauto using bt_get_lt_None.
  - apply StronglySorted_inv in Hwf as [Hs _]. rewrite IH by done. apply Permutation_swap.
Qed.

Lemma bt_get_perm k v m : bt_get k m = Some v -> m ≡ₚ (k, v) :: bt_remove k m.
Proof.
  induction m as [|[k' v'] m IH]; simpl; [done|].
  destruct (cmp k k') eqn:E; intros Hg.
  - apply cmp_eq in E as ->. by simplify_eq.
  - rewrite IH at 1 by done. apply Permutation_swap.
  - rewrite IH at 1 by done. apply Permutation_swap.
Qed.

Lemma bt_keys_NoDup m : bt_wf m -> NoDup (bt_keys m).
Proof.
  unfold bt_wf, bt_keys.
  induction 1 as [|[k' v'] m Hs IH Hm]; simpl; constructor; [|done].
  intros Hin. apply list_elem_of_fmap in Hin as ([k2 v2] & Hk & Hin). simpl in Hk. subst.
  rewrite Forall_forall in Hm. apply Hm in Hin. simpl in Hin.
  by rewrite cmp_refl in Hin.
Qed.

Lemma bt_length_insert_le k v m : (length (bt_insert k v m) <= S (length m))%nat.
Proof.
  induction m as [|[k' v'] m IH]; simpl; [lia|]. destruct (cmp k k'); simpl; lia.
Qed.

Lemma bt_wf_ext m1 m2 :
  bt_wf m1 -> bt_wf m2 -> (forall k, bt_get k m1 = bt_get k m2) -> m1 = m2.
Proof.
  intros H1 H2 Hext.
  assert (m1 ≡ₚ m2) as Hp.
  { apply NoDup_Permutation.
    - by apply (NoDup_fmap_1 fst), bt_keys_NoDup.
    - by apply (NoDup_fmap_1 fst), bt_keys_NoDup.
    - intros [k v]. rewrite <- !bt_get_elem by done. by rewrite Hext. }
  clear Hext. revert m2 H2 Hp. induction H1 as [|[k v] m1 Hs1 IH Hm1]; intros m2 H2 Hp.
  { by apply Permutation_nil_l in Hp. }
  destruct H2 as [|[k2 v2] m2 Hs2 Hm2]; [by apply Permutation_nil_r in Hp|].
  assert ((k, v) = (k2, v2)) as Heq.
  { assert ((k, v) ∈ (k2, v2) :: m2) as Hin1 by (rewrite <- Hp; left).
    assert ((k2, v2) ∈ (k, v) :: m1) as Hin2 by (rewrite Hp; left).
    apply elem_of_cons in Hin1 as [?|Hin1]; [done|].
    apply elem_of_cons in Hin2 as [?|Hin2]; [done|].
    rewrite Forall_forall in Hm1, Hm2. apply Hm1 in Hin2. apply Hm2 in Hin1.
    simpl in *. by rewrite (cmp_antisym k k2), Hin2 in Hin1. }
  rewrite Heq in Hp |- *. f_equal. apply IH; [done|].
  by apply Permutation_cons_inv in Hp.
Qed.
End BTree.
#[global] Arguments btree K V : clear implicits.

(** [collect::<BTreeMap<_, _>>()] and [collect::<BTreeSet<_>>()]. *)
Definition bt_of_list {K V} `{RustOrd K} (l : list (K * V)) : btree K V :=
  fold_left (fun m p => bt_insert p.1 p.2 m) l [].

Definition btree_set (K : Type) : Type := btree K unit.
Definition bset_insert {K} `{RustOrd K} (k : K) (s : btree_set K) : btree_set K :=
  bt_insert k tt s.
Definition bset_of_list {K} `{RustOrd K} (l : list K) : btree_set K :=
  fold_left (fun s k => bset_insert k s) l [].
Definition bset_elements {K} (s : btree_set K) : list K := s.*1.

Section BTreeSet.
Context {K : Type} `{RustOrd K}.

Lemma bset_fold_wf (l : list K) s :
  bt_wf s -> bt_wf (fold_left (fun s k => bset_insert k s) l s).
Proof. revert s. induction l; simpl; eauto using bt_wf_insert. Qed.

Lemma bset_of_list_wf (l : list K) : bt_wf (bset_of_list l).
Proof. apply bset_fold_wf, bt_wf_nil. Qed.

Lemma bset_get_fold (l : list K) s k :
  bt_get k (fold_left (fun s k => bset_insert k s) l s) = Some tt <->
  k ∈ l \/ bt_get k s = Some tt.
Proof.
  revert s. induction l as [|x l IH]; intros s; simpl.
  { rewrite elem_of_nil. tauto. }
  rewrite IH, elem_of_cons. unfold bset_insert.
  destruct (cmp_trichotomy k x) as [[Hlt|He]|Hgt]; [|subst x|].
  - rewrite bt_get_insert_ne; [|intros ->; by apply cmp_irrefl in Hlt].
    split; [tauto|]. intros [[He|?]|?]; [subst; by apply cmp_irrefl in Hlt|tauto|tauto].
  - rewrite bt_get_insert_eq. tauto.
  - rewrite bt_get_insert_ne; [|intros ->; by apply cmp_irrefl in Hgt].
    split; [tauto|]. intros [[He|?]|?]; [subst; by apply cmp_irrefl in Hgt|tauto|tauto].
Qed.

Lemma bset_elem (l : list K) k : k ∈ bset_elements (bset_of_list l) <-> k ∈ l.
Proof.
  unfold bset_elements. split.
  - intros ([k' u] & -> & Hin)%list_elem_of_fmap. destruct u. simpl.
    apply bt_get_elem, bset_get_fold in Hin as [?|?]; [done|done|apply bset_of_list_wf].
  - intros Hin. apply list_elem_of_fmap. exists (k, tt). split; [done|].
    apply bt_get_elem; [apply bset_of_list_wf|]. apply bset_get_fold. by left.
Qed.

Lemma bset_NoDup (l : list K) : NoDup (bset_elements (bset_of_list l)).
Proof. apply bt_keys_NoDup, bset_of_list_wf. Qed.
End BTreeSet.
