(* ===== verification/RustStr.v ===== *)
(** Rust strings: a [str] is its UTF-8 bytes, held in a [string].  The parts of
    [core::str] the source uses: [trim], prefix and suffix tests, UTF-8
    validation and decimal formatting. *)
From S2P Require Import Prelude.
From S2P Require Import RustOrd.

Notation byte := Byte.byte.

Definition byte_val (b : byte) : Z := Z.of_N (Byte.to_N b).
Definition ascii_val (a : Ascii.ascii) : Z := Z.of_N (Ascii.N_of_ascii a).

Lemma byte_val_range b : 0 <= byte_val b <= 255.
Proof.
  unfold byte_val. pose proof (Byte.to_N_bounded b) as Hb. lia.
Qed.

Lemma byte_val_inj b1 b2 : byte_val b1 = byte_val b2 -> b1 = b2.
Proof.
  unfold byte_val. intros H%N2Z.inj.
  assert (Some b1 = Some b2) as [=]; [|done].
  by rewrite <- !Byte.of_to_N, H.
Qed.

(** The byte of value [z mod 256]. *)
Definition byte_of_Z (z : Z) : byte :=
  match Byte.of_N (Z.to_N (z mod 256)) with Some b => b | None => Byte.x00 end.

Lemma byte_val_of_Z z : byte_val (byte_of_Z z) = z mod 256.
Proof.
  unfold byte_of_Z, byte_val. pose proof (Z.mod_pos_bound z 256).
  destruct (Byte.of_N _) as [b|] eqn:E.
  - apply Byte.to_of_N in E. rewrite E. lia.
  - apply Byte.of_N_None_iff in E. lia.
Qed.

Lemma byte_of_Z_val b : byte_of_Z (byte_val b) = b.
Proof.
  apply byte_val_inj. rewrite byte_val_of_Z.
  pose proof (byte_val_range b). apply Z.mod_small. lia.
Qed.

#[export] Instance byte_eq_dec : EqDecision byte := Byte.byte_eq_dec.

(** ** Whitespace *)
Section Whitespace.
Let between (lo hi : Z) (a : Ascii.ascii) : bool :=
  (lo <=? ascii_val a) && (ascii_val a <=? hi).
Let chr (z : Z) (a : Ascii.ascii) : bool := ascii_val a =? z.

(** [char::is_whitespace] for the one, two and three byte encodings. *)
Definition ws1 (a : Ascii.ascii) : bool := between 9 13 a || chr 32 a.
Definition ws2 (a b : Ascii.ascii) : bool := chr 194 a && (chr 133 b || chr 160 b).
Definition ws3 (a b c : Ascii.ascii) : bool :=
  (chr 225 a && chr 154 b && chr 128 c)
  || (chr 226 a && chr 128 b
      && (between 128 138 c || chr 168 c || chr 169 c || chr 175 c))
  || (chr 226 a && chr 129 b && chr 159 c)
  || (chr 227 a && chr 128 b && chr 128 c).
End Whitespace.

Fixpoint trim_start (s : string) : string :=
  match s with
  | EmptyString => EmptyString
  | String a s1 =>
      if ws1 a then trim_start s1 else
      match s1 with
      | EmptyString => s
      | String b s2 =>
          if ws2 a b then trim_start s2 else
          match s2 with
          | EmptyString => s
          | String c s3 => if ws3 a b c then trim_start s3 else s
          end
      end
  end.

(** The same on the reversed bytes. *)
Fixpoint trim_start_rev (s : string) : string :=
  match s with
  | EmptyString => EmptyString
  | String a s1 =>
      if ws1 a then trim_start_rev s1 else
      match s1 with
      | EmptyString => s
      | String b s2 =>
          if ws2 b a then trim_start_rev s2 else
          match s2 with
          | EmptyString => s
          | String c s3 => if ws3 c b a then trim_start_rev s3 else s
          end
      end
  end.

Fixpoint str_rev_app (s acc : string) : string :=
  match s with EmptyString => acc | String a s' => str_rev_app s' (String a acc) end.
Definition str_rev (s : string) : string := str_rev_app s EmptyString.

Definition trim_end (s : string) : string := str_rev (trim_start_rev (str_rev s)).
Definition trim (s : string) : string := trim_end (trim_start s).

Definition is_empty (s : string) : bool := String.eqb s "".

(** [s.trim().is_empty()]. *)
Definition is_blank (s : string) : bool := is_empty (trim s).

Example trim_spaces : trim "  Token " = "Token".
Proof. vm_compute. reflexivity. Qed.

(** ** UTF-8 validation: [core::str::from_utf8]. *)
Section Utf8.
Let btw (lo hi : Z) (b : byte) : bool := (lo <=? byte_val b) && (byte_val b <=? hi).
Let cont (b : byte) : bool := btw 128 191 b.

Fixpoint utf8_valid (l : list byte) : bool :=
  match l with
  | [] => true
  | a :: l1 =>
      if btw 0 127 a then utf8_valid l1 else
      match l1 with
      | [] => false
      | b :: l2 =>
          if btw 194 223 a then cont b && utf8_valid l2 else
          match l2 with
          | [] => false
          | c :: l3 =>
              if btw 224 239 a then
                (if btw 224 224 a then btw 160 191 b
                 else if btw 237 237 a then btw 128 159 b
                 else cont b) && cont c && utf8_valid l3
              else
              match l3 with
              | [] => false
              | d :: l4 =>
                  if btw 240 244 a then
                    (if btw 240 240 a then btw 144 191 b
                     else if btw 244 244 a then btw 128 143 b
                     else cont b) && cont c && cont d && utf8_valid l4
                  else false
              end
          end
      end
  end.
End Utf8.

(** [String::from_utf8]. *)
Definition from_utf8 (l : list byte) : option string :=
  if utf8_valid l then Some (String.string_of_list_byte l) else None.

Definition str_bytes (s : string) : list byte := String.list_byte_of_string s.

Lemma from_utf8_Some l s : from_utf8 l = Some s <-> l = str_bytes s /\ utf8_valid l = true.
Proof.
  unfold from_utf8, str_bytes. destruct (utf8_valid l).
  - split.
    + intros [= <-]. by rewrite String.list_byte_of_string_of_list_byte.
    + intros [-> _]. by rewrite String.string_of_list_byte_of_string.
  - naive_solver.
Qed.

Lemma str_bytes_inj s1 s2 : str_bytes s1 = str_bytes s2 -> s1 = s2.
Proof.
  intros H. rewrite <- (String.string_of_list_byte_of_string s1).
  rewrite <- (String.string_of_list_byte_of_string s2). by f_equal.
Qed.

(** ** Prefixes and suffixes *)
Fixpoint strip_prefix (p s : string) : option string :=
  match p, s with
  | EmptyString, _ => Some s
  | String a p', String b s' => if Ascii.eqb a b then strip_prefix p' s' else None
  | String _ _, EmptyString => None
  end.
Definition starts_with (p s : string) : bool :=
  match strip_prefix p s with Some _ => true | None => false end.
Definition strip_suffix (p s : string) : option string :=
  str_rev <$> strip_prefix (str_rev p) (str_rev s).
Definition ends_with (p s : string) : bool :=
  match strip_suffix p s with Some _ => true | None => false end.

(** [split_once]: the text before and after the first occurrence. *)
Fixpoint split_once (p s : string) : option (string * string) :=
  match strip_prefix p s with
  | Some r => Some (EmptyString, r)
  | None =>
      match s with
      | EmptyString => None
      | String a s' =>
          match split_once p s' with
          | Some (l, r) => Some (String a l, r)
          | None => None
          end
      end
  end.

Lemma strip_prefix_Some p s r : strip_prefix p s = Some r <-> s = (p +:+ r)%string.
Proof.
  revert s. induction p as [|a p IH]; intros s; simpl.
  { split; [by intros [= ->]|by intros ->]. }
  destruct s as [|b s]; [done|].
  destruct (Ascii.eqb_spec a b) as [->|Hne].
  - rewrite IH. split; [by intros ->|by intros [= ->]].
  - split; [done|by intros [= ->]].
Qed.

(** [format!("{n}")]. *)
Definition dec (n : Z) : string := pretty n.
Example dec_1500 : dec 1500 = "1500".
Proof. vm_compute. reflexivity. Qed.

(** [str::trim]: trimming twice is trimming once, so what a trim leaves is blank
    only if it is empty. *)
Lemma string_ind_length (P : string -> Prop) :
  (forall s, (forall s', (String.length s' < String.length s)%nat -> P s') -> P s) -> forall s, P s.
Proof.
  intros H s. apply (well_founded_induction (Wf_nat.well_founded_ltof _ String.length)).
  intros x IH. apply H. intros y Hy. by apply IH.
Qed.

(** The bytes of a text that a trim of its start may remove. *)
Lemma trim_start_length s : (String.length (trim_start s) <= String.length s)%nat.
Proof.
  induction s as [s IH] using string_ind_length. destruct s as [|a s1]; [done|]. simpl.
  destruct (ws1 a); [specialize (IH s1); simpl in IH; lia|]. destruct s1 as [|b s2]; [done|].
  destruct (ws2 a b); [specialize (IH s2); simpl in IH |- *; lia|]. destruct s2 as [|c s3]; [done|].
  destruct (ws3 a b c); [specialize (IH s3); simpl in IH |- *; lia|done].
Qed.
Lemma trim_start_idem s : trim_start (trim_start s) = trim_start s.
Proof.
  induction s as [s IH] using string_ind_length. destruct s as [|a s1]; [done|]. simpl.
  destruct (ws1 a) eqn:E1; [apply IH; simpl; lia|]. destruct s1 as [|b s2]; [simpl; by rewrite E1|].
  destruct (ws2 a b) eqn:E2; [apply IH; simpl; lia|]. destruct s2 as [|c s3]; [simpl; by rewrite E1, E2|].
  destruct (ws3 a b c) eqn:E3; [apply IH; simpl; lia|]. simpl. by rewrite E1, E2, E3.
Qed.
Lemma trim_start_rev_idem s : trim_start_rev (trim_start_rev s) = trim_start_rev s.
Proof.
  induction s as [s IH] using string_ind_length. destruct s as [|a s1]; [done|]. simpl.
  destruct (ws1 a) eqn:E1; [apply IH; simpl; lia|]. destruct s1 as [|b s2]; [simpl; by rewrite E1|].
  destruct (ws2 b a) eqn:E2; [apply IH; simpl; lia|]. destruct s2 as [|c s3]; [simpl; by rewrite E1, E2|].
  destruct (ws3 c b a) eqn:E3; [apply IH; simpl; lia|]. simpl. by rewrite E1, E2, E3.
Qed.

(** A prefix of a text that starts with no whitespace starts with none. *)
Lemma trim_start_prefix p q : trim_start (p +:+ q) = p +:+ q -> trim_start p = p.
Proof.
  destruct p as [|a p1]; [done|]. simpl.
  destruct (ws1 a) eqn:E1.
  { intros H. pose proof (trim_start_length (p1 +:+ q)) as Hl. rewrite H in Hl. simpl in Hl. lia. }
  destruct p1 as [|b p2]; [done|]. simpl. destruct (ws2 a b) eqn:E2.
  { intros H. pose proof (trim_start_length (p2 +:+ q)) as Hl. rewrite H in Hl. simpl in Hl. lia. }
  destruct p2 as [|c p3]; [done|]. simpl. destruct (ws3 a b c) eqn:E3; [|done].
  intros H. pose proof (trim_start_length (p3 +:+ q)) as Hl. rewrite H in Hl. simpl in Hl. lia.
Qed.

(** ** Reversal *)
Lemma str_app_nil s : s +:+ "" = s.
Proof. induction s as [|a s IH]; [done|]. change (String a (s +:+ "") = String a s). by rewrite IH. Qed.
Lemma str_app_assoc a b c : (a +:+ b) +:+ c = a +:+ (b +:+ c).
Proof.
  induction a as [|x a IH]; [done|]. change (String x ((a +:+ b) +:+ c) = String x (a +:+ (b +:+ c))). by rewrite IH.
Qed.
Lemma str_rev_app_spec s acc : str_rev_app s acc = str_rev s +:+ acc.
Proof.
  unfold str_rev. revert acc. induction s as [|a s IH]; intros acc; [done|].
  change (str_rev_app s (String a acc) = str_rev_app s (String a "") +:+ acc).
  rewrite IH, (IH (String a "")). by rewrite str_app_assoc.
Qed.
Lemma str_rev_cons a s : str_rev (String a s) = str_rev s +:+ String a "".
Proof. unfold str_rev at 1. simpl. apply str_rev_app_spec. Qed.
Lemma str_rev_app_distr a b : str_rev (a +:+ b) = str_rev b +:+ str_rev a.
Proof.
  induction a as [|x a IH]; [change (str_rev b = str_rev b +:+ ""); by rewrite str_app_nil|].
  change (str_rev (String x (a +:+ b)) = str_rev b +:+ str_rev (String x a)).
  by rewrite !str_rev_cons, IH, str_app_assoc.
Qed.
Lemma str_rev_involutive s : str_rev (str_rev s) = s.
Proof.
  induction s as [|a s IH]; [done|]. rewrite str_rev_cons, str_rev_app_distr, IH. done.
Qed.

Lemma trim_start_rev_suffix s : exists r, s = r +:+ trim_start_rev s.
Proof.
  induction s as [s IH] using string_ind_length. destruct s as [|a s1]; [by exists ""%string|]. simpl.
  destruct (ws1 a).
  { destruct (IH s1) as [r Hr]; [simpl; lia|]. exists (String a r). exact (f_equal (String a) Hr). }
  destruct s1 as [|b s2]; [by exists ""%string|]. destruct (ws2 b a).
  { destruct (IH s2) as [r Hr]; [simpl; lia|]. exists (String a (String b r)). exact (f_equal (fun x => String a (String b x)) Hr). }
  destruct s2 as [|c s3]; [by exists ""%string|]. destruct (ws3 c b a); [|by exists ""%string].
  destruct (IH s3) as [r Hr]; [simpl; lia|]. exists (String a (String b (String c r))). exact (f_equal (fun x => String a (String b (String c x))) Hr).
Qed.
Lemma trim_end_prefix s : exists r, s = trim_end s +:+ r.
Proof.
  destruct (trim_start_rev_suffix (str_rev s)) as [r Hr]. exists (str_rev r). unfold trim_end.
  by rewrite <- str_rev_app_distr, <- Hr, str_rev_involutive.
Qed.
Lemma trim_end_idem s : trim_end (trim_end s) = trim_end s.
Proof. unfold trim_end. by rewrite str_rev_involutive, trim_start_rev_idem. Qed.

Lemma trim_idem s : trim (trim s) = trim s.
Proof.
  unfold trim. destruct (trim_end_prefix (trim_start s)) as [r Hr].
  assert (trim_start (trim_end (trim_start s)) = trim_end (trim_start s)) as ->.
  { apply (trim_start_prefix _ r). rewrite <- Hr. apply trim_start_idem. }
  apply trim_end_idem.
Qed.
Lemma trim_not_blank s : is_empty (trim s) = false -> is_blank (trim s) = false.
Proof. unfold is_blank. by rewrite trim_idem. Qed.
