(* ===== verification/Decimal.v ===== *)
(** Decimal text of unsigned integers: what [format!("{n}")] writes and
    [str::parse] of an unsigned type reads back. *)
From S2P Require Import Prelude.
From S2P Require Import RustStr.

Definition digit_value (a : Ascii.ascii) : option Z :=
  let d := ascii_val a - 48 in if (0 <=? d) && (d <=? 9) then Some d else None.
Fixpoint parse_digits (w acc : Z) (s : string) : option Z :=
  match s with
  | EmptyString => Some acc
  | String a s' =>
      d ← digit_value a; m ← checked_mul_u w acc 10; acc' ← checked_add_u w m d;
      parse_digits w acc' s'
  end.

(** [str::parse] at a [w]-bit unsigned type: an optional plus sign, then at
    least one digit. *)
Definition parse_uint (w : Z) (s : string) : option Z :=
  let digits := match strip_prefix "+" s with Some s' => s' | None => s end in
  if is_empty digits then None else parse_digits w 0 digits.

(** A property of digits holds if it holds of the ten of them. *)
Lemma digits_forall (P : N -> Prop) n : Forall P (N.of_nat <$> seq 0 10) -> (n < 10)%N -> P n.
Proof.
  intros H Hn. apply (proj1 (Forall_forall _ _) H n), list_elem_of_fmap. exists (N.to_nat n).
  split; [by rewrite N2Nat.id|]. apply elem_of_seq. lia.
Qed.

Lemma digit_value_char n : (n < 10)%N -> digit_value (pretty_N_char n) = Some (Z.of_N n).
Proof. apply (digits_forall (fun n => digit_value (pretty_N_char n) = Some (Z.of_N n))). repeat constructor. Qed.

(** Reading what is written digit by digit from the right. *)
Lemma parse_digits_go w x s :
  Z.of_N x <= uint_max w -> parse_digits w 0 (pretty_N_go x s) = parse_digits w (Z.of_N x) s.
Proof.
  revert s. induction (N.lt_wf_0 x) as [x _ IH]; intros s Hx.
  assert (x = 0 \/ 0 < x)%N as [->|Hpos] by lia; [by rewrite pretty_N_go_0|].
  pose proof (N.div_mod x 10 ltac:(lia)) as Hdm. pose proof (N.mod_lt x 10 ltac:(lia)) as Hlt.
  assert (x / 10 < x)%N as Hd by by apply N.div_lt.
  revert Hdm Hlt Hd. rewrite pretty_N_go_step by done. generalize (x / 10)%N, (x mod 10)%N.
  intros q r Hdm Hlt Hd. rewrite IH by lia. simpl.
  rewrite digit_value_char by done. simpl.
  unfold checked_mul_u. rewrite (proj2 (Z.leb_le _ _)) by lia. simpl.
  unfold checked_add_u. rewrite (proj2 (Z.leb_le _ _)) by lia. simpl. f_equal. lia.
Qed.

Lemma dec_digits n : 0 < n -> dec n = pretty_N_go (Z.to_N n) "".
Proof.
  intros Hn. unfold dec, pretty, pretty_Z, pretty, pretty_N. destruct n as [|p|p]; try lia.
  done.
Qed.

Lemma go_first_digit x s : (0 < x)%N -> exists n s', pretty_N_go x s = String (pretty_N_char n) s' /\ (n < 10)%N.
Proof.
  revert s. induction (N.lt_wf_0 x) as [x _ IH]; intros s Hx. rewrite pretty_N_go_step by done.
  destruct (decide (x / 10 = 0)%N) as [->|Hne].
  - rewrite pretty_N_go_0. eexists _, _. split; [done|]. by apply N.mod_lt.
  - apply IH; [by apply N.div_lt|]. by apply N.neq_0_lt_0.
Qed.

(** An integer in range is read back from its decimal text. *)
Lemma parse_dec w n : 0 <= n <= uint_max w -> parse_uint w (dec n) = Some n.
Proof.
  intros [H0 Hm]. unfold parse_uint. destruct (decide (n = 0)) as [->|Hne].
  { change (strip_prefix "+" (dec 0)) with (@None string). change (is_empty (dec 0)) with false.
    change (dec 0) with (String (pretty_N_char 0) "")%string. cbn [parse_digits].
    rewrite digit_value_char by done. simpl. unfold checked_mul_u. rewrite (proj2 (Z.leb_le _ _)) by lia.
    simpl. unfold checked_add_u. rewrite (proj2 (Z.leb_le _ _)) by lia. done. }
  rewrite dec_digits by lia.
  destruct (go_first_digit (Z.to_N n) "" ltac:(lia)) as (d & s' & Hs & Hd).
  assert (strip_prefix "+" (pretty_N_go (Z.to_N n) "") = None) as ->.
  { rewrite Hs. apply (digits_forall (fun d => strip_prefix "+" (String (pretty_N_char d) s') = None));
      [repeat constructor|done]. }
  assert (is_empty (pretty_N_go (Z.to_N n) "") = false) as -> by by rewrite Hs.
  rewrite parse_digits_go by lia. simpl. f_equal. lia.
Qed.
