(* ===== verification/Domain.v ===== *)
(** [crates/domain]: provider-independent facts (networks, markets,
    observations), deterministic decisions and the bounded score; together
    with the two small crates built directly on them, [crates/risk-engine] and
    [crates/source-raydium]. *)
From S2P Require Import Prelude.
From S2P Require Import RustOrd.
From S2P Require Import RustStr.

(** ** [market.rs] *)
Inductive Network := SolanaMainnet | SolanaDevnet.
#[export] Instance Network_eq_dec : EqDecision Network.
Proof. solve_decision. Defined.

Inductive Venue := PumpBondingCurve | PumpSwapVenue | RaydiumCpmmVenue | RaydiumClmmVenue
  | RaydiumAmmV4Venue.
#[export] Instance Venue_eq_dec : EqDecision Venue.
Proof. solve_decision. Defined.

Record MarketIdentity := {
  mi_network : Network;
  mi_mint : string;
  mi_venue : Venue;
  mi_market_address : string;
  mi_quote_mint : option string;
}.
#[export] Instance MarketIdentity_eq_dec : EqDecision MarketIdentity.
Proof. solve_decision. Defined.

Definition is_raydium (m : MarketIdentity) : bool :=
  match mi_venue m with
  | RaydiumCpmmVenue | RaydiumClmmVenue | RaydiumAmmV4Venue => true
  | _ => false
  end.

(** ** [observation.rs] *)
Inductive Commitment := Processed | Confirmed | Finalized.
Inductive SourceProgram := Pump | PumpSwap | RaydiumCpmm | RaydiumClmm | RaydiumAmmV4.
#[export] Instance Commitment_eq_dec : EqDecision Commitment.
Proof. solve_decision. Defined.
#[export] Instance SourceProgram_eq_dec : EqDecision SourceProgram.
Proof. solve_decision. Defined.

Inductive TradeSide := Buy | Sell.
#[export] Instance TradeSide_eq_dec : EqDecision TradeSide.
Proof. solve_decision. Defined.

Record ChainCoordinate := {
  slot : Z;
  transaction_index : option Z;
  signature : string;
  instruction_index : Z;
  event_index : Z;
}.
#[export] Instance ChainCoordinate_eq_dec : EqDecision ChainCoordinate.
Proof. solve_decision. Defined.

Record ObservationKey := {
  ok_network : Network;
  ok_program : SourceProgram;
  coordinate : ChainCoordinate;
}.
#[export] Instance ObservationKey_eq_dec : EqDecision ObservationKey.
Proof. solve_decision. Defined.

Inductive ObservationPayload :=
| TokenCreated (name symbol uri creator user : string)
| MarketCreated (creator : string) (base_amount_units quote_amount_units : Z)
| Trade (side : TradeSide) (wallet : string)
    (base_amount_units quote_amount_units : Z)
    (base_reserve_units quote_reserve_units : option Z)
| LiquidityDeposited (provider : string)
    (base_amount_units quote_amount_units base_reserve_units quote_reserve_units
     lp_token_amount_units lp_token_supply_units : Z)
| LiquidityWithdrawn (provider : string)
    (base_amount_units quote_amount_units base_reserve_units quote_reserve_units
     lp_token_amount_units lp_token_supply_units : Z)
| MarketCompleted (user : string)
| MarketMigrated (user destination_market : string)
    (base_amount_units legacy_sol_amount_units : Z).

(** [source_details] is a [serde_json::Value]: the model is parametric in the
    type [J] of JSON values, which no modelled operation inspects. *)
Record NormalizedObservation {J : Type} := {
  key : ObservationKey;
  commitment : Commitment;
  schema_version : Z;
  decoder_version : string;
  event_kind : string;
  market : MarketIdentity;
  source_event_time_unix_ms : option Z;
  received_time_unix_ms : Z;
  raw_evidence_hash : string;
  source_evidence_base64 : string;
  source_details : J;
  payload : ObservationPayload;
}.
#[global] Arguments NormalizedObservation J : clear implicits.

(** ** [assessment.rs] *)
Inductive AssessmentDecision := Pass | Reject | Unknown.
#[export] Instance AssessmentDecision_eq_dec : EqDecision AssessmentDecision.
Proof. solve_decision. Defined.

Record RuleResult := {
  rule_id : string;
  rule_version : string;
  decision : AssessmentDecision;
  reason_code : string;
  evidence_reference : option string;
  observed_slot : option Z;
}.

(** [RuleResult::unknown]. *)
Definition rule_unknown (rule_id rule_version reason_code : string) : RuleResult := {|
  rule_id := rule_id; rule_version := rule_version; decision := Unknown;
  reason_code := reason_code; evidence_reference := None; observed_slot := None |}.

Definition has_decision (d : AssessmentDecision) (rules : list RuleResult) : bool :=
  existsb (fun r => bool_decide (decision r = d)) rules.

Lemma has_decision_iff d rules :
  has_decision d rules = true <-> exists r, r ∈ rules /\ decision r = d.
Proof.
  unfold has_decision. rewrite existsb_exists.
  setoid_rewrite bool_decide_eq_true. setoid_rewrite <- list_elem_of_In. done.
Qed.

Lemma has_decision_false d rules :
  has_decision d rules = false <-> Forall (fun r => decision r <> d) rules.
Proof.
  rewrite Forall_forall, <- not_true_iff_false, has_decision_iff. naive_solver.
Qed.

(** ** [score.rs] *)
Record Score := { score_value : Z }.
Record ScoreOutOfRange := { out_of_range_value : Z }.

(** [Score::new]. *)
Definition score_new (value : Z) : result ScoreOutOfRange Score :=
  if value <=? 100 then Ok {| score_value := value |}
  else Err {| out_of_range_value := value |}.

(** [Display for ScoreOutOfRange]. *)
Definition score_error_text (e : ScoreOutOfRange) : string :=
  ("score " +:+ dec (out_of_range_value e)
   +:+ " is outside the inclusive 0..=100 range")%string.

(** [Serialize for Score] writes the raw [u8]. *)
Definition score_serialize (s : Score) : Z := score_value s.

(** [Deserialize for Score]: serde first reads a [u8] ([decoded], a value or
    serde's own error), then the constructor's range check applies. *)
Definition score_deserialize (decoded : result string Z) : result string Score :=
  value ← decoded; map_err score_error_text (score_new value).

(** ** [crates/risk-engine] *)
Inductive EvidenceAvailability := Available | Missing | Stale | Invalid.

Record RiskAssessment := {
  ra_decision : AssessmentDecision;
  ra_risk_score : option Score;
  ra_opportunity_score : option Score;
  ra_rules : list RuleResult;
}.

(** [RiskAssessment::from_rules]. *)
Definition from_rules (rules : list RuleResult) (risk_score opportunity_score : option Score)
    : RiskAssessment :=
  let decision :=
    if has_decision Reject rules then Reject
    else if has_decision Unknown rules || bool_decide (rules = []) then Unknown
    else Pass in
  {| ra_decision := decision; ra_risk_score := risk_score;
     ra_opportunity_score := opportunity_score; ra_rules := rules |}.

Definition required_evidence_rule (rule_id : string) (availability : EvidenceAvailability)
    : RuleResult :=
  let '(decision, reason_code) :=
    match availability with
    | Available => (Pass, "EVIDENCE_AVAILABLE")
    | Missing => (Unknown, "EVIDENCE_MISSING")
    | Stale => (Unknown, "EVIDENCE_STALE")
    | Invalid => (Reject, "EVIDENCE_INVALID")
    end in
  {| rule_id := rule_id; rule_version := "1"; decision := decision;
     reason_code := reason_code; evidence_reference := None; observed_slot := None |}.

(** ** [crates/source-raydium] *)
Definition RAYDIUM_AMM_V4_PROGRAM_ID := "675kPX9MHTjS2zt1qfr1NYHuzeLXfQM9H24wFSUt1Mp8".
Definition RAYDIUM_CPMM_PROGRAM_ID := "CPMMoo8L3F4NbTegBCKVNunggL7H1ZpdTHKxQB5qKP1C".
Definition RAYDIUM_CLMM_PROGRAM_ID := "CAMMCzo5YL8w4VFF8KVHrK22GGUsp5VTaW7grrKgrWqK".

Inductive RaydiumProgram := Cpmm | Clmm | AmmV4.

Definition raydium_program_id (p : RaydiumProgram) : string :=
  match p with
  | Cpmm => RAYDIUM_CPMM_PROGRAM_ID
  | Clmm => RAYDIUM_CLMM_PROGRAM_ID
  | AmmV4 => RAYDIUM_AMM_V4_PROGRAM_ID
  end.
Definition raydium_venue (p : RaydiumProgram) : Venue :=
  match p with
  | Cpmm => RaydiumCpmmVenue | Clmm => RaydiumClmmVenue | AmmV4 => RaydiumAmmV4Venue
  end.
Definition raydium_source_program (p : RaydiumProgram) : SourceProgram :=
  match p with Cpmm => RaydiumCpmm | Clmm => RaydiumClmm | AmmV4 => RaydiumAmmV4 end.

Record RaydiumPoolEvidence := {
  rpe_program : RaydiumProgram;
  rpe_market : MarketIdentity;
  rpe_observed_slot : Z;
  rpe_liquidity_quote_units : option Z;
  rpe_recent_volume_quote_units : option Z;
}.

Inductive RaydiumEnrichment :=
| NotChecked
| NoSupportedPool
| Pools (pools : list RaydiumPoolEvidence)
| Unavailable (reason_code : string).

Definition is_rejection (e : RaydiumEnrichment) : bool := false.

Definition raydium_supported_program (program_id : string) : option RaydiumProgram :=
  if String.eqb program_id RAYDIUM_CPMM_PROGRAM_ID then Some Cpmm
  else if String.eqb program_id RAYDIUM_CLMM_PROGRAM_ID then Some Clmm
  else if String.eqb program_id RAYDIUM_AMM_V4_PROGRAM_ID then Some AmmV4
  else None.

(** ** Theorems *)

(** risk decisions fail closed.  An
    assessment passes exactly when it has at least one rule and every rule
    passed; a single rejecting rule dominates missing evidence. *)
Theorem from_rules_fail_closed rules risk opportunity :
  let d := ra_decision (from_rules rules risk opportunity) in
  (d = Pass <-> rules <> [] /\ Forall (fun r => decision r = Pass) rules) /\
  (d = Reject <-> exists r, r ∈ rules /\ decision r = Reject) /\
  (d = Unknown <->
     (forall r, r ∈ rules -> decision r <> Reject) /\
     (rules = [] \/ exists r, r ∈ rules /\ decision r = Unknown)).
Proof.
  simpl. setoid_rewrite <- has_decision_iff. rewrite <- !Forall_forall, <- has_decision_false.
  destruct (has_decision Reject rules) eqn:ER; simpl.
  { split_and!; split; try done; [|by intros [? _]]. intros [_ Hall].
    apply has_decision_iff in ER as (r & Hin & Hd).
    rewrite Forall_forall in Hall. by rewrite (Hall _ Hin) in Hd. }
  destruct (has_decision Unknown rules) eqn:EU; simpl.
  { split_and!; split; try done; [|by auto]. intros [_ Hall].
    apply has_decision_iff in EU as (r & Hin & Hd).
    rewrite Forall_forall in Hall. by rewrite (Hall _ Hin) in Hd. }
  case_bool_decide as He.
  { split_and!; split; try done; [|by auto]. by intros [? _]. }
  split_and!; split; try done; [|by intros [_ [?|?]]]. intros _. split; [done|].
  apply has_decision_false in ER, EU. rewrite Forall_forall in ER, EU |- *.
  intros r Hin. specialize (ER _ Hin). specialize (EU _ Hin). by destruct (decision r).
Qed.
