(* ===== verification/Base58.v ===== *)
(** [encode_base58] of [crates/source-pump/src/decoder.rs]: the bytewise
    long-multiplication encoder, and its correctness against positional
    notation: the text denotes the big-endian value of the bytes, so byte
    strings of one length never collide. *)
From Stdlib Require Import Ascii.
From S2P Require Import Prelude.
From S2P Require Import RustStr.

Definition ALPHABET : list Ascii.ascii :=
  String.list_ascii_of_string "123456789ABCDEFGHJKLMNPQRSTUVWXYZabcdefghijkmnopqrstuvwxyz".

(** [ALPHABET[usize::from(digit)]]; the index is a base58 digit, hence in
    range (lemma [b58_digits_range]). *)
Definition alphabet_at (d : Z) : Ascii.ascii := nth (Z.to_nat d) ALPHABET "000"%char.

(** The inner [for digit in &mut digits] loop: multiply by 256 and add. *)
Fixpoint mul_add_digits (digits : list Z) (carry : Z) : list Z * Z :=
  match digits with
  | [] => ([], carry)
  | digit :: ds =>
      let value := digit * 256 + carry in
      let '(ds', carry') := mul_add_digits ds (value / 58) in
      (value mod 58 :: ds', carry')
  end.

(** [while carry > 0 { digits.push(carry % 58); carry /= 58; }]: a positive
    carry shrinks at each turn, so the carry itself is enough fuel. *)
Fixpoint push_carry (fuel : nat) (carry : Z) : list Z :=
  match fuel with
  | O => []
  | S fuel' => if carry >? 0 then carry mod 58 :: push_carry fuel' (carry / 58) else []
  end.

Definition push_byte (digits : list Z) (b : byte) : list Z :=
  let '(ds, carry) := mul_add_digits digits (byte_val b) in
  ds ++ push_carry (Z.to_nat carry) carry.

(** [while digits.len() > 1 && digits.last() == Some(&0) { digits.pop(); }]
    on the most-significant-first reversal of the digits. *)
Fixpoint pop_zeroes (rev_digits : list Z) : list Z :=
  match rev_digits with
  | d :: ((_ :: _) as ds) => if d =? 0 then pop_zeroes ds else rev_digits
  | _ => rev_digits
  end.

Fixpoint leading_zeroes (bytes : list byte) : nat :=
  match bytes with
  | b :: bs => if byte_val b =? 0 then S (leading_zeroes bs) else O
  | [] => O
  end.

Definition encode_base58 (bytes : list byte) : string :=
  let zeroes := leading_zeroes bytes in
  let digits := fold_left push_byte bytes [0] in
  let kept := pop_zeroes (rev digits) in
  String.string_of_list_ascii
    (repeat "1"%char zeroes
     ++ (if Nat.eqb zeroes (length bytes) then [] else alphabet_at <$> kept)).

Example base58_zero_key :
  encode_base58 (repeat (byte_of_Z 0) 32) = "11111111111111111111111111111111".
Proof. vm_compute. reflexivity. Qed.
Example base58_one_key :
  encode_base58 (repeat (byte_of_Z 0) 31 ++ [byte_of_Z 1]) =
  "11111111111111111111111111111112".
Proof. vm_compute. reflexivity. Qed.

(** ** Positional values *)
Definition digits_value (ds : list Z) : Z := foldr (fun d acc => d + 58 * acc) 0 ds.
Definition be_value (bs : list byte) : Z :=
  fold_left (fun acc b => acc * 256 + byte_val b) bs 0.

Fixpoint alphabet_index (l : list Ascii.ascii) (a : Ascii.ascii) : Z :=
  match l with
  | [] => 0
  | b :: l' => if Ascii.eqb a b then 0 else 1 + alphabet_index l' a
  end.
(** What a base58 text denotes, read most significant digit first. *)
Definition base58_value (s : string) : Z :=
  fold_left (fun acc a => acc * 58 + alphabet_index ALPHABET a)
            (String.list_ascii_of_string s) 0.

Notation is_digit := (fun d : Z => 0 <= d < 58).

Lemma alphabet_index_at d : 0 <= d < 58 -> alphabet_index ALPHABET (alphabet_at d) = d.
Proof.
  intros Hd. rewrite <- (Z2Nat.id d) by lia.
  assert (Z.to_nat d < 58)%nat as Hn by lia. revert Hn. generalize (Z.to_nat d).
  intros n Hn. unfold alphabet_at. rewrite Nat2Z.id.
  do 58 (destruct n as [|n]; [vm_compute; reflexivity|]). lia.
Qed.

Lemma mul_add_value ds c ds' c' :
  mul_add_digits ds c = (ds', c') ->
  digits_value ds' + 58 ^ Z.of_nat (length ds') * c' = 256 * digits_value ds + c.
Proof.
  revert c ds' c'. induction ds as [|d ds IH]; intros c ds' c'; simpl.
  { intros [= <- <-]. simpl. lia. }
  destruct (mul_add_digits ds _) as [ds2 c2] eqn:E. intros [= <- <-]. simpl.
  apply IH in E. replace (Z.of_nat (S (length ds2))) with (1 + Z.of_nat (length ds2)) by lia.
  rewrite Z.pow_add_r by lia. change (58 ^ 1) with 58.
  pose proof (Z.div_mod (d * 256 + c) 58). lia.
Qed.

Lemma mul_add_digits_range ds c ds' c' :
  Forall is_digit ds -> 0 <= c < 256 -> mul_add_digits ds c = (ds', c') ->
  Forall is_digit ds' /\ 0 <= c' < 256.
Proof.
  intros Hds. revert c ds' c'. induction Hds as [|d ds Hd Hds IH]; intros c ds' c' Hc; simpl.
  { intros [= <- <-]. auto. }
  destruct (mul_add_digits ds _) as [ds2 c2] eqn:E. intros [= <- <-].
  apply IH in E as [H1 H2].
  - split; [|done]. constructor; [apply Z.mod_pos_bound; lia|done].
  - split; [apply Z.div_pos; lia|]. apply Z.div_lt_upper_bound; lia.
Qed.

Lemma push_carry_value fuel c :
  0 <= c -> (Z.to_nat c <= fuel)%nat -> digits_value (push_carry fuel c) = c.
Proof.
  revert c. induction fuel as [|fuel IH]; intros c Hc Hf; simpl; [lia|].
  destruct (Z.gtb_spec c 0); [|simpl; lia]. simpl.
  assert (c / 58 < c) by (apply Z.div_lt; lia).
  assert (0 <= c / 58) by (apply Z.div_pos; lia).
  rewrite IH by lia. pose proof (Z.div_mod c 58). lia.
Qed.

Lemma push_carry_range fuel c : Forall is_digit (push_carry fuel c).
Proof.
  revert c. induction fuel as [|fuel IH]; intros c; simpl; [constructor|].
  destruct (c >? 0); constructor; auto. apply Z.mod_pos_bound. lia.
Qed.

Lemma digits_value_app l1 l2 :
  digits_value (l1 ++ l2) = digits_value l1 + 58 ^ Z.of_nat (length l1) * digits_value l2.
Proof.
  induction l1 as [|d l1 IH]; [simpl; lia|]. cbn [app length digits_value foldr] in *.
  fold (digits_value (l1 ++ l2)) (digits_value l1). rewrite IH.
  rewrite Nat2Z.inj_succ, Z.pow_succ_r by lia. lia.
Qed.

Lemma push_byte_correct ds b :
  Forall is_digit ds ->
  digits_value (push_byte ds b) = 256 * digits_value ds + byte_val b /\
  Forall is_digit (push_byte ds b).
Proof.
  intros Hds. unfold push_byte. destruct (mul_add_digits ds (byte_val b)) as [ds' c] eqn:E.
  pose proof (byte_val_range b).
  pose proof (mul_add_value _ _ _ _ E) as Hv.
  apply mul_add_digits_range in E as [Hr Hc]; [|done|lia].
  rewrite digits_value_app, push_carry_value by lia. split; [lia|].
  apply Forall_app; auto using push_carry_range.
Qed.

Lemma fold_push_byte bs ds :
  Forall is_digit ds ->
  digits_value (fold_left push_byte bs ds) =
    fold_left (fun acc b => acc * 256 + byte_val b) bs (digits_value ds) /\
  Forall is_digit (fold_left push_byte bs ds).
Proof.
  revert ds. induction bs as [|b bs IH]; intros ds Hds; simpl; [done|].
  destruct (push_byte_correct ds b Hds) as [Hv Hr].
  destruct (IH _ Hr) as [IH1 IH2]. split; [|done]. rewrite IH1, Hv. f_equal. lia.
Qed.

Lemma b58_digits_range bs : Forall is_digit (fold_left push_byte bs [0]).
Proof. apply fold_push_byte. repeat constructor; lia. Qed.

Notation base_fold := (fold_left (fun acc d => acc * 58 + d)).

Lemma digits_value_rev ds : base_fold (rev ds) 0 = digits_value ds.
Proof.
  induction ds as [|d ds IH]; simpl; [done|]. rewrite fold_left_app, IH. simpl. lia.
Qed.

Lemma pop_zeroes_value ds : base_fold (pop_zeroes ds) 0 = base_fold ds 0.
Proof.
  induction ds as [|d ds IH]; simpl; [done|]. destruct ds as [|d2 ds]; [done|].
  destruct (Z.eqb_spec d 0) as [->|]; [|done]. rewrite IH. done.
Qed.

Lemma pop_zeroes_range ds : Forall is_digit ds -> Forall is_digit (pop_zeroes ds).
Proof.
  induction 1 as [|d ds Hd Hds IH]; simpl; [constructor|]. destruct ds; [auto|].
  destruct (d =? 0); auto.
Qed.

Lemma index_fold_digits ds acc :
  Forall is_digit ds ->
  fold_left (fun acc a => acc * 58 + alphabet_index ALPHABET a) (alphabet_at <$> ds) acc
  = base_fold ds acc.
Proof.
  intros Hds. revert acc. induction Hds as [|d ds Hd Hds IH]; intros acc;
    cbn [fmap list_fmap fold_left]; [done|].
  by rewrite alphabet_index_at, IH.
Qed.

Lemma index_fold_ones n l :
  fold_left (fun acc a => acc * 58 + alphabet_index ALPHABET a) (repeat "1"%char n ++ l) 0
  = fold_left (fun acc a => acc * 58 + alphabet_index ALPHABET a) l 0.
Proof. induction n; simpl; [done|]. done. Qed.

Lemma all_zero_value bs : leading_zeroes bs = length bs -> be_value bs = 0.
Proof.
  unfold be_value. induction bs as [|b bs IH]; simpl; [done|].
  destruct (Z.eqb_spec (byte_val b) 0) as [->|]; [|done]. intros [= Hl]. auto.
Qed.

Lemma base58_value_encode bs : base58_value (encode_base58 bs) = be_value bs.
Proof.
  unfold base58_value, encode_base58.
  rewrite String.list_ascii_of_string_of_list_ascii, index_fold_ones.
  destruct (Nat.eqb_spec (leading_zeroes bs) (length bs)) as [Hz|Hz].
  { by rewrite all_zero_value. }
  rewrite index_fold_digits.
  - rewrite pop_zeroes_value, digits_value_rev.
    destruct (fold_push_byte bs [0]) as [Hv _]; [repeat constructor; lia|]. by rewrite Hv.
  - apply pop_zeroes_range. apply List.Forall_rev, b58_digits_range.
Qed.

Lemma be_fold_bound bs acc :
  fold_left (fun acc b => acc * 256 + byte_val b) bs acc =
  acc * 256 ^ Z.of_nat (length bs) + be_value bs /\
  0 <= be_value bs < 256 ^ Z.of_nat (length bs).
Proof.
  unfold be_value. revert acc. induction bs as [|b bs IH]; intros acc; cbn [fold_left length].
  { split; lia. }
  rewrite Nat2Z.inj_succ, Z.pow_succ_r by lia. pose proof (byte_val_range b).
  destruct (IH (acc * 256 + byte_val b)) as [-> Hb].
  destruct (IH (0 * 256 + byte_val b)) as [-> _]. split; [lia|]. nia.
Qed.

Lemma be_value_inj bs1 bs2 :
  length bs1 = length bs2 -> be_value bs1 = be_value bs2 -> bs1 = bs2.
Proof.
  revert bs2. induction bs1 as [|b1 bs1 IH]; intros [|b2 bs2]; simpl; try done.
  intros [= Hl]. unfold be_value; simpl. rewrite !Z.mul_0_l, !Z.add_0_l.
  destruct (be_fold_bound bs1 (byte_val b1)) as [H1 Hr1].
  destruct (be_fold_bound bs2 (byte_val b2)) as [H2 Hr2].
  rewrite H1, H2, Hl. rewrite Hl in Hr1. intros Heq.
  assert (byte_val b1 = byte_val b2) as Hb by nia.
  f_equal; [by apply byte_val_inj|]. apply IH; [done|]. nia.
Qed.

Lemma encode_base58_eq bs1 bs2 :
  length bs1 = length bs2 -> encode_base58 bs1 = encode_base58 bs2 -> bs1 = bs2.
Proof.
  intros Hl He. apply be_value_inj; [done|]. by rewrite <- !base58_value_encode, He.
Qed.

Lemma encode_base58_alphabet bs :
  Forall (fun a => a ∈ ALPHABET) (String.list_ascii_of_string (encode_base58 bs)).
Proof.
  unfold encode_base58. rewrite String.list_ascii_of_string_of_list_ascii.
  apply Forall_app. split.
  { apply Forall_forall. intros a Ha. apply list_elem_of_In, repeat_spec in Ha as ->. left. }
  destruct (Nat.eqb _ _); [constructor|]. apply Forall_fmap.
  eapply Forall_impl.
  - apply pop_zeroes_range. apply List.Forall_rev, b58_digits_range.
  - intros d Hd; simpl in *. unfold alphabet_at. apply list_elem_of_In, nth_In.
    change (length ALPHABET) with 58%nat. lia.
Qed.

Lemma pop_zeroes_head d d2 ds l : pop_zeroes l = d :: d2 :: ds -> d <> 0.
Proof.
  induction l as [|x l IH]; simpl; [done|]. destruct l as [|y l]; [done|].
  destruct (Z.eqb_spec x 0); [done|]. by intros [= -> _ _].
Qed.
Lemma pop_zeroes_nonempty l : l <> [] -> pop_zeroes l <> [].
Proof.
  induction l as [|x l IH]; simpl; [done|]. destruct l as [|y l]; [done|].
  destruct (x =? 0); [|done]. intros _. by apply IH.
Qed.

Lemma zero_value_all bs : be_value bs = 0 -> leading_zeroes bs = length bs.
Proof.
  induction bs as [|b bs IH]; [done|]. unfold be_value; simpl. rewrite Z.mul_0_l, Z.add_0_l.
  destruct (be_fold_bound bs (byte_val b)) as [-> Hb]. pose proof (byte_val_range b).
  assert (0 < 256 ^ Z.of_nat (length bs)) by lia. intros Hz.
  assert (byte_val b = 0) as -> by nia. simpl. f_equal. apply IH. lia.
Qed.

(** The text is one [1] per leading zero byte and then, unless all bytes are
    zero, digits that do not start with [1]. *)
Lemma encode_base58_shape bs :
  exists tail, String.list_ascii_of_string (encode_base58 bs) =
      repeat "1"%char (leading_zeroes bs) ++ tail /\
    (tail = [] <-> leading_zeroes bs = length bs) /\ head tail <> Some "1"%char.
Proof.
  unfold encode_base58. rewrite String.list_ascii_of_string_of_list_ascii.
  destruct (Nat.eqb_spec (leading_zeroes bs) (length bs)) as [Hz|Hz]; [by exists []|].
  eexists. split; [reflexivity|].
  set (l := rev (fold_left push_byte bs [0])).
  assert (base_fold (pop_zeroes l) 0 = be_value bs) as Hv.
  { unfold l. rewrite pop_zeroes_value, digits_value_rev.
    destruct (fold_push_byte bs [0]) as [-> _]; [repeat constructor; lia|done]. }
  assert (Forall is_digit (pop_zeroes l)) as Hr.
  { apply pop_zeroes_range. apply List.Forall_rev, b58_digits_range. }
  pose proof (fun d d2 ds => pop_zeroes_head d d2 ds l) as Hh.
  destruct (pop_zeroes l) as [|d ds]; simpl in *.
  { exfalso. apply Hz, zero_value_all. by rewrite <- Hv. }
  split; [done|]. intros [= Hd]. apply Forall_cons in Hr as [Hd58 _].
  assert (d = 0) as ->.
  { rewrite <- (alphabet_index_at d Hd58), Hd. done. }
  destruct ds as [|d2 ds]; [|by apply (Hh 0 d2 ds)].
  apply Hz, zero_value_all. by rewrite <- Hv.
Qed.

(** the base58 text of a byte string denotes exactly the big-endian integer
    of the bytes, uses only alphabet characters, and two byte strings of the
    same length (all account keys are 32 bytes) with the same text are equal. *)
Theorem encode_base58_correct bs :
  base58_value (encode_base58 bs) = be_value bs /\
  Forall (fun a => a ∈ ALPHABET) (String.list_ascii_of_string (encode_base58 bs)) /\
  (forall bs', length bs' = length bs -> encode_base58 bs' = encode_base58 bs -> bs' = bs).
Proof.
  split_and!; [apply base58_value_encode|apply encode_base58_alphabet|eauto using encode_base58_eq].
Qed.
