(* ===== verification/External.v ===== *)
(** Interfaces of the third-party code the modelled crates call: the [base64]
    codec, the SHA-256 digest and the JSON serializer.  The development is parametric in an instance; what a theorem needs
    of it is a named law. *)
From S2P Require Import Prelude.
From S2P Require Import RustStr.

(** [base64::engine::general_purpose::STANDARD]. *)
Class Base64 := {
  Base64Error : Type;
  base64_decode : string -> result Base64Error (list byte);
  base64_encode : list byte -> string;
}.

(** Documented behaviour: decoding inverts encoding. *)
Class Base64Laws (B : Base64) : Prop := {
  base64_roundtrip bs : base64_decode (base64_encode bs) = Ok bs;
}.

(** [sha2::Sha256::digest]: some function from the evidence bytes to the digest
    bytes. *)
Class Sha256 := { sha256_digest : list byte -> list byte }.

(** [serde_json::to_value] on a value of type [A]: a JSON value of type [J], or
    a serialization error. *)
Class ToJson (A J : Type) := {
  JsonError : Type;
  json_to_value : A -> result JsonError J;
}.
#[global] Arguments JsonError A J {_}.

(** [serde_json::to_value] and [serde_json::from_value] at a type [A], with one
    error type [E]. *)
Class SerdeJson (A J E : Type) := {
  to_value : A -> result E J;
  from_value : J -> result E A;
}.
(** Documented behaviour of the derived implementations: what was written is
    read back. *)
Class SerdeLaws {A J E} (S : SerdeJson A J E) : Prop := {
  serde_roundtrip (a : A) j : to_value a = Ok j -> from_value j = Ok a;
}.

(** A concrete codec for the witnesses: two letters [a]..[p] per byte. *)
Module Hexish.
Definition nibble (z : Z) : Ascii.ascii := Ascii.ascii_of_N (Z.to_N (97 + z)).
Definition unnibble (a : Ascii.ascii) : option Z :=
  let z := ascii_val a - 97 in if (0 <=? z) && (z <=? 15) then Some z else None.

Fixpoint encode (bs : list byte) : string :=
  match bs with
  | [] => EmptyString
  | b :: bs => String (nibble (byte_val b / 16)) (String (nibble (byte_val b mod 16)) (encode bs))
  end.

Fixpoint decode (s : string) : result unit (list byte) :=
  match s with
  | EmptyString => Ok []
  | String a (String b s') =>
      match unnibble a, unnibble b with
      | Some x, Some y => rest ← decode s'; Ok (byte_of_Z (16 * x + y) :: rest)
      | _, _ => Err tt
      end
  | String _ EmptyString => Err tt
  end.

#[export] Instance codec : Base64 :=
  {| Base64Error := unit; base64_decode := decode; base64_encode := encode |}.

Lemma unnibble_nibble z : 0 <= z < 16 -> unnibble (nibble z) = Some z.
Proof.
  intros Hz. rewrite <- (Z2Nat.id z) by lia.
  assert (Z.to_nat z < 16)%nat as Hn by lia. revert Hn. generalize (Z.to_nat z).
  intros n Hn. do 16 (destruct n as [|n]; [vm_compute; reflexivity|]). lia.
Qed.

#[export] Instance codec_laws : Base64Laws codec.
Proof.
  constructor. simpl. intros bs. induction bs as [|b bs IH]; [done|]. simpl.
  pose proof (byte_val_range b).
  rewrite !unnibble_nibble, IH; simpl.
  - do 2 f_equal. rewrite <- Z.div_mod by lia. apply byte_of_Z_val.
  - apply Z.mod_pos_bound. lia.
  - split; [apply Z.div_pos; lia|apply Z.div_lt_upper_bound; lia].
Qed.
End Hexish.
