(* ===== verification/PumpModel.v ===== *)
(** [crates/source-pump/src/model.rs], [idl.rs] and [lib.rs]: the decoded
    event types, the pinned program ids and the event discriminators. *)
From S2P Require Import Prelude.
From S2P Require Import RustStr.
From S2P Require Import Domain.

(** ** [model.rs] *)
Inductive PumpProgram := PumpP | PumpSwapP.
#[export] Instance PumpProgram_eq_dec : EqDecision PumpProgram.
Proof. solve_decision. Defined.

Inductive PumpEventKind :=
| KCreate | KTrade | KLiquidityDeposit | KLiquidityWithdraw | KComplete
| KCompletePumpAmmMigration | KCreatePool.

Inductive TradeDirection := DirBuy | DirSell.

Record PumpShareholder := {
  sh_address : string;
  sh_share_basis_points : Z;
}.

Record PumpCreateEvent := {
  ce_name : string;
  ce_symbol : string;
  ce_uri : string;
  ce_mint : string;
  ce_bonding_curve : string;
  ce_user : string;
  ce_creator : string;
  ce_timestamp : Z;
  ce_virtual_token_reserves : Z;
  ce_virtual_sol_reserves : Z;
  ce_real_token_reserves : Z;
  ce_token_total_supply : Z;
  ce_token_program : string;
  ce_is_mayhem_mode : bool;
  ce_is_cashback_enabled : bool;
  ce_quote_mint : string;
  ce_virtual_quote_reserves : Z;
}.

Record PumpTradeEvent := {
  te_mint : string;
  te_legacy_sol_amount : Z;
  te_token_amount : Z;
  te_direction : TradeDirection;
  te_user : string;
  te_timestamp : Z;
  te_virtual_sol_reserves : Z;
  te_virtual_token_reserves : Z;
  te_real_sol_reserves : Z;
  te_real_token_reserves : Z;
  te_fee_recipient : string;
  te_fee_basis_points : Z;
  te_fee_amount : Z;
  te_creator : string;
  te_creator_fee_basis_points : Z;
  te_creator_fee_amount : Z;
  te_track_volume : bool;
  te_total_unclaimed_tokens : Z;
  te_total_claimed_tokens : Z;
  te_current_sol_volume : Z;
  te_last_update_timestamp : Z;
  te_instruction_name : string;
  te_mayhem_mode : bool;
  te_cashback_fee_basis_points : Z;
  te_cashback_amount : Z;
  te_buyback_fee_basis_points : Z;
  te_buyback_fee_amount : Z;
  te_shareholders : list PumpShareholder;
  te_quote_mint : string;
  te_quote_amount : Z;
  te_virtual_quote_reserves : Z;
  te_real_quote_reserves : Z;
}.

Record PumpCompleteEvent := {
  co_user : string;
  co_mint : string;
  co_bonding_curve : string;
  co_timestamp : Z;
  co_quote_mint : string;
}.

Record PumpMigrationEvent := {
  me_user : string;
  me_mint : string;
  me_mint_amount : Z;
  me_legacy_sol_amount : Z;
  me_pool_migration_fee : Z;
  me_bonding_curve : string;
  me_timestamp : Z;
  me_pool : string;
  me_quote_mint : string;
}.

Record PumpSwapCreatePoolEvent := {
  cp_timestamp : Z;
  cp_index : Z;
  cp_creator : string;
  cp_base_mint : string;
  cp_quote_mint : string;
  cp_base_mint_decimals : Z;
  cp_quote_mint_decimals : Z;
  cp_base_amount_in : Z;
  cp_quote_amount_in : Z;
  cp_pool_base_amount : Z;
  cp_pool_quote_amount : Z;
  cp_minimum_liquidity : Z;
  cp_initial_liquidity : Z;
  cp_lp_token_amount_out : Z;
  cp_pool_bump : Z;
  cp_pool : string;
  cp_lp_mint : string;
  cp_user_base_token_account : string;
  cp_user_quote_token_account : string;
  cp_coin_creator : string;
  cp_is_mayhem_mode : bool;
}.

Record PumpSwapBuyEvent := {
  be_timestamp : Z;
  be_base_amount_out : Z;
  be_max_quote_amount_in : Z;
  be_user_base_token_reserves : Z;
  be_user_quote_token_reserves : Z;
  be_pool_base_token_reserves : Z;
  be_pool_quote_token_reserves : Z;
  be_quote_amount_in : Z;
  be_lp_fee_basis_points : Z;
  be_lp_fee_amount : Z;
  be_protocol_fee_basis_points : Z;
  be_protocol_fee_amount : Z;
  be_quote_amount_in_with_lp_fee : Z;
  be_user_quote_amount_in : Z;
  be_pool : string;
  be_user : string;
  be_user_base_token_account : string;
  be_user_quote_token_account : string;
  be_protocol_fee_recipient : string;
  be_protocol_fee_recipient_token_account : string;
  be_coin_creator : string;
  be_coin_creator_fee_basis_points : Z;
  be_coin_creator_fee_amount : Z;
  be_track_volume : bool;
  be_total_unclaimed_tokens : Z;
  be_total_claimed_tokens : Z;
  be_current_sol_volume : Z;
  be_last_update_timestamp : Z;
  be_min_base_amount_out : Z;
  be_instruction_name : string;
  be_cashback_fee_basis_points : Z;
  be_cashback_amount : Z;
  be_buyback_fee_basis_points : Z;
  be_buyback_fee_amount : Z;
  be_virtual_quote_reserves : Z;
  be_can_boost : bool;
  be_base_supply : Z;
}.

Record PumpSwapSellEvent := {
  se_timestamp : Z;
  se_base_amount_in : Z;
  se_min_quote_amount_out : Z;
  se_user_base_token_reserves : Z;
  se_user_quote_token_reserves : Z;
  se_pool_base_token_reserves : Z;
  se_pool_quote_token_reserves : Z;
  se_quote_amount_out : Z;
  se_lp_fee_basis_points : Z;
  se_lp_fee_amount : Z;
  se_protocol_fee_basis_points : Z;
  se_protocol_fee_amount : Z;
  se_quote_amount_out_without_lp_fee : Z;
  se_user_quote_amount_out : Z;
  se_pool : string;
  se_user : string;
  se_user_base_token_account : string;
  se_user_quote_token_account : string;
  se_protocol_fee_recipient : string;
  se_protocol_fee_recipient_token_account : string;
  se_coin_creator : string;
  se_coin_creator_fee_basis_points : Z;
  se_coin_creator_fee_amount : Z;
  se_cashback_fee_basis_points : Z;
  se_cashback_amount : Z;
  se_buyback_fee_basis_points : Z;
  se_buyback_fee_amount : Z;
  se_virtual_quote_reserves : Z;
  se_can_boost : bool;
  se_base_supply : Z;
}.

Record PumpSwapDepositEvent := {
  de_timestamp : Z;
  de_lp_token_amount_out : Z;
  de_max_base_amount_in : Z;
  de_max_quote_amount_in : Z;
  de_user_base_token_reserves : Z;
  de_user_quote_token_reserves : Z;
  de_pool_base_token_reserves : Z;
  de_pool_quote_token_reserves : Z;
  de_base_amount_in : Z;
  de_quote_amount_in : Z;
  de_lp_mint_supply : Z;
  de_pool : string;
  de_user : string;
  de_user_base_token_account : string;
  de_user_quote_token_account : string;
  de_user_pool_token_account : string;
}.

Record PumpSwapWithdrawEvent := {
  we_timestamp : Z;
  we_lp_token_amount_in : Z;
  we_min_base_amount_out : Z;
  we_min_quote_amount_out : Z;
  we_user_base_token_reserves : Z;
  we_user_quote_token_reserves : Z;
  we_pool_base_token_reserves : Z;
  we_pool_quote_token_reserves : Z;
  we_base_amount_out : Z;
  we_quote_amount_out : Z;
  we_lp_mint_supply : Z;
  we_pool : string;
  we_user : string;
  we_user_base_token_account : string;
  we_user_quote_token_account : string;
  we_user_pool_token_account : string;
}.

Inductive PumpEvent :=
| EvCreate (event : PumpCreateEvent)
| EvTrade (event : PumpTradeEvent)
| EvComplete (event : PumpCompleteEvent)
| EvCompletePumpAmmMigration (event : PumpMigrationEvent)
| EvPumpSwapCreatePool (event : PumpSwapCreatePoolEvent)
| EvPumpSwapBuy (event : PumpSwapBuyEvent)
| EvPumpSwapSell (event : PumpSwapSellEvent)
| EvPumpSwapDeposit (event : PumpSwapDepositEvent)
| EvPumpSwapWithdraw (event : PumpSwapWithdrawEvent).

(** The derived [PartialEq]. *)
#[export] Instance TradeDirection_eq_dec : EqDecision TradeDirection.
Proof. solve_decision. Defined.
#[export] Instance PumpShareholder_eq_dec : EqDecision PumpShareholder.
Proof. solve_decision. Defined.
#[export] Instance PumpCreateEvent_eq_dec : EqDecision PumpCreateEvent.
Proof. solve_decision. Defined.
#[export] Instance PumpTradeEvent_eq_dec : EqDecision PumpTradeEvent.
Proof. solve_decision. Defined.
#[export] Instance PumpCompleteEvent_eq_dec : EqDecision PumpCompleteEvent.
Proof. solve_decision. Defined.
#[export] Instance PumpMigrationEvent_eq_dec : EqDecision PumpMigrationEvent.
Proof. solve_decision. Defined.
#[export] Instance PumpSwapCreatePoolEvent_eq_dec : EqDecision PumpSwapCreatePoolEvent.
Proof. solve_decision. Defined.
#[export] Instance PumpSwapBuyEvent_eq_dec : EqDecision PumpSwapBuyEvent.
Proof. solve_decision. Defined.
#[export] Instance PumpSwapSellEvent_eq_dec : EqDecision PumpSwapSellEvent.
Proof. solve_decision. Defined.
#[export] Instance PumpSwapDepositEvent_eq_dec : EqDecision PumpSwapDepositEvent.
Proof. solve_decision. Defined.
#[export] Instance PumpSwapWithdrawEvent_eq_dec : EqDecision PumpSwapWithdrawEvent.
Proof. solve_decision. Defined.
#[export] Instance PumpEvent_eq_dec : EqDecision PumpEvent.
Proof. solve_decision. Defined.

(** [PumpEvent::kind]. *)
Definition event_kind_of (e : PumpEvent) : PumpEventKind :=
  match e with
  | EvCreate _ => KCreate
  | EvTrade _ | EvPumpSwapBuy _ | EvPumpSwapSell _ => KTrade
  | EvPumpSwapDeposit _ => KLiquidityDeposit
  | EvPumpSwapWithdraw _ => KLiquidityWithdraw
  | EvComplete _ => KComplete
  | EvCompletePumpAmmMigration _ => KCompletePumpAmmMigration
  | EvPumpSwapCreatePool _ => KCreatePool
  end.

(** [PumpEvent::timestamp], in seconds. *)
Definition event_timestamp (e : PumpEvent) : Z :=
  match e with
  | EvCreate event => ce_timestamp event
  | EvTrade event => te_timestamp event
  | EvComplete event => co_timestamp event
  | EvCompletePumpAmmMigration event => me_timestamp event
  | EvPumpSwapCreatePool event => cp_timestamp event
  | EvPumpSwapBuy event => be_timestamp event
  | EvPumpSwapSell event => se_timestamp event
  | EvPumpSwapDeposit event => de_timestamp event
  | EvPumpSwapWithdraw event => we_timestamp event
  end.

Record DecodedPumpEvent := {
  dp_program : PumpProgram;
  dp_coordinate : ChainCoordinate;
  dp_event : PumpEvent;
}.
Definition decoded_event_kind (d : DecodedPumpEvent) : PumpEventKind :=
  event_kind_of (dp_event d).
Definition source_event_time_unix_seconds (d : DecodedPumpEvent) : Z :=
  event_timestamp (dp_event d).

(** ** [idl.rs] *)
Definition PUMP_PROGRAM_ID := "6EF8rrecthR5Dkzon8Nwu78hRvfCKubJ14M5uBEwF6P".
Definition PUMP_SWAP_PROGRAM_ID := "pAMMBay6oceH9fJKBRHGP5D4bD4sWpmSwMn52FMfXEA".
Definition DECODER_SCHEMA_VERSION : Z := 1.
Definition IDL_SOURCE_REVISION := "9c82f61cb711b044a17f770ab8ce9f9bdf78f333".
(** [concat!("pump-idl-<revision>-soldisco-", env!("CARGO_PKG_VERSION"))], with
    the workspace version. *)
Definition DECODER_VERSION : string :=
  "pump-idl-9c82f61cb711b044a17f770ab8ce9f9bdf78f333-soldisco-0.1.0".

(** Eight-byte Anchor discriminators. *)
Definition bytes_of (l : list Z) : list byte := byte_of_Z <$> l.
Definition ANCHOR_EVENT_CPI_DISCRIMINATOR : list byte :=
  bytes_of [228; 69; 165; 46; 81; 203; 154; 29].
Definition COMPLETE_EVENT_DISCRIMINATOR : list byte :=
  bytes_of [95; 114; 97; 156; 212; 46; 152; 8].
Definition COMPLETE_PUMP_AMM_MIGRATION_EVENT_DISCRIMINATOR : list byte :=
  bytes_of [189; 233; 93; 185; 92; 148; 234; 148].
Definition CREATE_EVENT_DISCRIMINATOR : list byte :=
  bytes_of [27; 114; 169; 77; 222; 235; 99; 118].
Definition TRADE_EVENT_DISCRIMINATOR : list byte :=
  bytes_of [189; 219; 127; 211; 78; 230; 97; 238].
Definition CREATE_POOL_EVENT_DISCRIMINATOR : list byte :=
  bytes_of [177; 49; 12; 210; 160; 118; 167; 116].
Definition PUMP_SWAP_BUY_EVENT_DISCRIMINATOR : list byte :=
  bytes_of [103; 244; 82; 31; 44; 245; 119; 119].
Definition PUMP_SWAP_SELL_EVENT_DISCRIMINATOR : list byte :=
  bytes_of [62; 47; 55; 10; 165; 3; 220; 42].
(** [decoder.rs] *)
Definition PUMP_SWAP_DEPOSIT_EVENT_DISCRIMINATOR : list byte :=
  bytes_of [120; 248; 61; 83; 31; 142; 107; 144].
(** [decoder.rs] *)
Definition PUMP_SWAP_WITHDRAW_EVENT_DISCRIMINATOR : list byte :=
  bytes_of [22; 9; 133; 26; 160; 44; 71; 192].

Definition PUMP_EVENT_DISCRIMINATORS : list (list byte) := [
  bytes_of [64; 69; 192; 104; 29; 30; 25; 107];
  bytes_of [245; 59; 70; 34; 75; 185; 109; 92];
  bytes_of [147; 250; 108; 120; 247; 29; 67; 222];
  bytes_of [226; 214; 246; 33; 7; 242; 147; 229];
  bytes_of [79; 172; 246; 49; 205; 91; 206; 232];
  bytes_of [146; 159; 189; 172; 146; 88; 56; 244];
  bytes_of [122; 2; 127; 1; 14; 191; 12; 175];
  COMPLETE_EVENT_DISCRIMINATOR;
  COMPLETE_PUMP_AMM_MIGRATION_EVENT_DISCRIMINATOR;
  CREATE_EVENT_DISCRIMINATOR;
  bytes_of [165; 55; 129; 112; 4; 179; 202; 40];
  bytes_of [97; 97; 215; 144; 93; 146; 22; 124];
  bytes_of [134; 36; 13; 72; 232; 101; 130; 216];
  bytes_of [155; 167; 104; 220; 213; 108; 243; 3];
  bytes_of [168; 216; 132; 239; 235; 182; 49; 52];
  bytes_of [43; 188; 250; 18; 221; 75; 187; 95];
  bytes_of [237; 52; 123; 37; 245; 251; 72; 210];
  bytes_of [142; 203; 6; 32; 127; 105; 191; 162];
  bytes_of [223; 195; 159; 246; 62; 48; 143; 131];
  bytes_of [197; 122; 167; 124; 116; 81; 91; 255];
  TRADE_EVENT_DISCRIMINATOR;
  bytes_of [182; 195; 137; 42; 35; 206; 207; 247];
  bytes_of [117; 123; 228; 182; 161; 168; 220; 214]].

Definition PUMP_SWAP_EVENT_DISCRIMINATORS : list (list byte) := [
  bytes_of [45; 220; 93; 24; 25; 97; 172; 104];
  bytes_of [147; 250; 108; 120; 247; 29; 67; 222];
  bytes_of [63; 69; 28; 22; 48; 92; 194; 185];
  PUMP_SWAP_BUY_EVENT_DISCRIMINATOR;
  bytes_of [226; 214; 246; 33; 7; 242; 147; 229];
  bytes_of [79; 172; 246; 49; 205; 91; 206; 232];
  bytes_of [146; 159; 189; 172; 146; 88; 56; 244];
  bytes_of [232; 245; 194; 238; 234; 218; 58; 89];
  bytes_of [107; 52; 89; 129; 55; 226; 81; 22];
  CREATE_POOL_EVENT_DISCRIMINATOR;
  bytes_of [120; 248; 61; 83; 31; 142; 107; 144];
  bytes_of [107; 253; 193; 76; 228; 202; 27; 104];
  bytes_of [97; 97; 215; 144; 93; 146; 22; 124];
  bytes_of [174; 124; 74; 249; 4; 81; 246; 17];
  bytes_of [134; 36; 13; 72; 232; 101; 130; 216];
  bytes_of [170; 221; 82; 199; 147; 165; 247; 46];
  bytes_of [43; 188; 250; 18; 221; 75; 187; 95];
  PUMP_SWAP_SELL_EVENT_DISCRIMINATOR;
  bytes_of [242; 231; 235; 102; 65; 99; 189; 211];
  bytes_of [89; 128; 240; 141; 91; 202; 71; 105];
  bytes_of [150; 107; 199; 123; 124; 207; 102; 228];
  bytes_of [197; 122; 167; 124; 116; 81; 91; 255];
  bytes_of [225; 152; 171; 87; 246; 63; 66; 234];
  bytes_of [90; 23; 65; 35; 62; 244; 188; 208];
  bytes_of [22; 9; 133; 26; 160; 44; 71; 192]].

Definition is_pinned_event_discriminator (program : PumpProgram) (discriminator : list byte)
    : bool :=
  match program with
  | PumpP => bool_decide (discriminator ∈ PUMP_EVENT_DISCRIMINATORS)
  | PumpSwapP => bool_decide (discriminator ∈ PUMP_SWAP_EVENT_DISCRIMINATORS)
  end.

(** ** [lib.rs] *)
Definition pump_program_id (p : PumpProgram) : string :=
  match p with PumpP => PUMP_PROGRAM_ID | PumpSwapP => PUMP_SWAP_PROGRAM_ID end.
Definition pump_source_program (p : PumpProgram) : SourceProgram :=
  match p with PumpP => Pump | PumpSwapP => PumpSwap end.
Definition supported_program (program_id : string) : option PumpProgram :=
  if String.eqb program_id PUMP_PROGRAM_ID then Some PumpP
  else if String.eqb program_id PUMP_SWAP_PROGRAM_ID then Some PumpSwapP
  else None.

Lemma supported_program_Some s p : supported_program s = Some p <-> s = pump_program_id p.
Proof.
  unfold supported_program. destruct (String.eqb_spec s PUMP_PROGRAM_ID) as [->|H1].
  { destruct p; simpl; split; try done. }
  destruct (String.eqb_spec s PUMP_SWAP_PROGRAM_ID) as [->|H2];
    destruct p; simpl; naive_solver.
Qed.

(** Every discriminator the decoder understands is in the pinned IDL set. *)
Example pinned_contains_decoded :
  forallb (is_pinned_event_discriminator PumpP)
    [CREATE_EVENT_DISCRIMINATOR; TRADE_EVENT_DISCRIMINATOR; COMPLETE_EVENT_DISCRIMINATOR;
     COMPLETE_PUMP_AMM_MIGRATION_EVENT_DISCRIMINATOR] = true /\
  forallb (is_pinned_event_discriminator PumpSwapP)
    [CREATE_POOL_EVENT_DISCRIMINATOR; PUMP_SWAP_BUY_EVENT_DISCRIMINATOR;
     PUMP_SWAP_SELL_EVENT_DISCRIMINATOR; PUMP_SWAP_DEPOSIT_EVENT_DISCRIMINATOR;
     PUMP_SWAP_WITHDRAW_EVENT_DISCRIMINATOR] = true.
Proof. vm_compute. done. Qed.
