(* ===== verification/BorshReader.v ===== *)
(** [BorshReader] of [crates/source-pump/src/decoder.rs]: a cursor over the
    event bytes whose primitives read fixed-width little-endian integers,
    booleans, base58 account keys, bounded UTF-8 strings and the bounded
    shareholder list.

    [enc_field] gives the wire format of each primitive independently of the
    reader; [decodes] says that a reader accepts exactly the encodings of the
    field lists its result determines. *)
From S2P Require Import Prelude.
From S2P Require Import RustStr.
From S2P Require Import Base58.
From S2P Require Import External.
From S2P Require Import PumpModel.

Definition MAX_NAME_BYTES : Z := 256.
Definition MAX_SYMBOL_BYTES : Z := 64.
Definition MAX_URI_BYTES : Z := 4096.
Definition MAX_INSTRUCTION_NAME_BYTES : Z := 96.
Definition MAX_SHAREHOLDERS : Z := 64.

Section Reader.
Context {B64 : Base64}.

(** [DecodeError]; the payload of [InvalidBase64] is the codec's own error. *)
Inductive DecodeError :=
| UnsupportedProgram (program_id : string)
| EmptySignature
| MissingDiscriminator
| MissingCpiDiscriminator
| UnknownDiscriminator (program : PumpProgram) (discriminator : list byte)
| Truncated (field : string) (needed remaining : nat)
| InvalidUtf8 (field : string)
| InvalidBoolean (field : string) (value : Z)
| LimitExceeded (field : string) (limit actual : Z)
| TrailingBytes (count : nat)
| InvalidProgramDataLog
| InvalidBase64 (source : Base64Error)
| TooManyEvents (limit : Z).

Record BorshReader := { rd_data : list byte; rd_position : nat }.

Definition Reader (A : Type) : Type := BorshReader -> result DecodeError (A * BorshReader).
#[export] Instance reader_ret : MRet Reader := fun A a r => Ok (a, r).
#[export] Instance reader_bind : MBind Reader :=
  fun A B k p r => match p r with Ok (a, r') => k a r' | Err e => Err e end.
Definition reader_fail {A} (e : DecodeError) : Reader A := fun _ => Err e.
Definition reader_lift {A} (x : result DecodeError A) : Reader A :=
  fun r => match x with Ok a => Ok (a, r) | Err e => Err e end.

Definition reader_new (data : list byte) : BorshReader :=
  {| rd_data := data; rd_position := 0 |}.

Definition finish (r : BorshReader) : result DecodeError unit :=
  let remaining := (length (rd_data r) - rd_position r)%nat in
  if Nat.eqb remaining 0 then Ok tt else Err (TrailingBytes remaining).

(** [&self.data[start..self.position]] after the length check. *)
Definition take (field : string) (len : nat) : Reader (list byte) := fun r =>
  let remaining := (length (rd_data r) - rd_position r)%nat in
  if (remaining <? len)%nat then Err (Truncated field len remaining)
  else Ok (firstn len (drop (rd_position r) (rd_data r)),
           {| rd_data := rd_data r; rd_position := rd_position r + len |}).

(** [uN::from_le_bytes] and [iN::from_le_bytes]. *)
Definition from_le (bs : list byte) : Z := foldr (fun b acc => byte_val b + 256 * acc) 0 bs.
Definition from_le_signed (w : Z) (bs : list byte) : Z :=
  let v := from_le bs in if v <? 2 ^ (w - 1) then v else v - 2 ^ w.

Definition read_u8 (field : string) : Reader Z := bs ← take field 1; mret (from_le bs).
Definition read_u16 (field : string) : Reader Z := bs ← take field 2; mret (from_le bs).
Definition read_u32 (field : string) : Reader Z := bs ← take field 4; mret (from_le bs).
Definition read_u64 (field : string) : Reader Z := bs ← take field 8; mret (from_le bs).
Definition read_i64 (field : string) : Reader Z :=
  bs ← take field 8; mret (from_le_signed 64 bs).
Definition read_i128 (field : string) : Reader Z :=
  bs ← take field 16; mret (from_le_signed 128 bs).

Definition read_boolean (field : string) : Reader bool :=
  v ← read_u8 field;
  if v =? 0 then mret false
  else if v =? 1 then mret true
  else reader_fail (InvalidBoolean field v).

Definition read_pubkey (field : string) : Reader string :=
  bs ← take field 32; mret (encode_base58 bs).

(** [usize::try_from(u32)]; [usize] is 64 bits wide. *)
Definition usize_of_u32 (field : string) (limit v : Z) : Reader Z :=
  reader_lift (ok_or (try_from_u 64 v) (LimitExceeded field limit u64_max)).

Definition read_string (field : string) (limit : Z) : Reader string :=
  v ← read_u32 field;
  len ← usize_of_u32 field limit v;
  if len >? limit then reader_fail (LimitExceeded field limit len)
  else
    bs ← take field (Z.to_nat len);
    reader_lift (ok_or (from_utf8 bs) (InvalidUtf8 field)).

Definition read_shareholder : Reader PumpShareholder :=
  address ← read_pubkey "shareholder.address";
  share ← read_u16 "shareholder.share_bps";
  mret {| sh_address := address; sh_share_basis_points := share |}.

Fixpoint read_shareholder_list (count : nat) : Reader (list PumpShareholder) :=
  match count with
  | O => mret []
  | S n => s ← read_shareholder; rest ← read_shareholder_list n; mret (s :: rest)
  end.

Definition read_shareholders : Reader (list PumpShareholder) :=
  v ← read_u32 "shareholders";
  count ← usize_of_u32 "shareholders" MAX_SHAREHOLDERS v;
  if count >? MAX_SHAREHOLDERS
  then reader_fail (LimitExceeded "shareholders" MAX_SHAREHOLDERS count)
  else read_shareholder_list (Z.to_nat count).

(** ** Wire format *)
Fixpoint le_bytes (n : nat) (z : Z) : list byte :=
  match n with O => [] | S n' => byte_of_Z z :: le_bytes n' (z / 256) end.

Inductive field :=
| FU8 (z : Z) | FU16 (z : Z) | FU64 (z : Z) | FI64 (z : Z) | FI128 (z : Z)
| FBool (b : bool) | FPubkey (s : string) | FString (limit : Z) (s : string)
| FShareholders (l : list PumpShareholder).

Definition enc_uint (n : nat) (z : Z) (bs : list byte) : Prop :=
  in_uint (8 * Z.of_nat n) z /\ bs = le_bytes n z.
Definition enc_sint (n : nat) (z : Z) (bs : list byte) : Prop :=
  in_sint (8 * Z.of_nat n) z /\ bs = le_bytes n (z mod 2 ^ (8 * Z.of_nat n)).
Definition enc_pubkey (s : string) (bs : list byte) : Prop :=
  length bs = 32%nat /\ s = encode_base58 bs.
Definition enc_string (limit : Z) (s : string) (bs : list byte) : Prop :=
  let len := Z.of_nat (length (str_bytes s)) in
  len <= limit /\ in_uint 32 len /\ utf8_valid (str_bytes s) = true /\
  bs = le_bytes 4 len ++ str_bytes s.
Fixpoint enc_shareholder_list (l : list PumpShareholder) (bs : list byte) : Prop :=
  match l with
  | [] => bs = []
  | s :: l' => exists key share rest,
      enc_pubkey (sh_address s) key /\ enc_uint 2 (sh_share_basis_points s) share /\
      enc_shareholder_list l' rest /\ bs = key ++ share ++ rest
  end.

Definition enc_field (f : field) (bs : list byte) : Prop :=
  match f with
  | FU8 z => enc_uint 1 z bs
  | FU16 z => enc_uint 2 z bs
  | FU64 z => enc_uint 8 z bs
  | FI64 z => enc_sint 8 z bs
  | FI128 z => enc_sint 16 z bs
  | FBool b => enc_uint 1 (if b then 1 else 0) bs
  | FPubkey s => enc_pubkey s bs
  | FString limit s => enc_string limit s bs
  | FShareholders l => exists body,
      Z.of_nat (length l) <= MAX_SHAREHOLDERS /\
      enc_shareholder_list l body /\ bs = le_bytes 4 (Z.of_nat (length l)) ++ body
  end.

Fixpoint enc_fields (fs : list field) (bs : list byte) : Prop :=
  match fs with
  | [] => bs = []
  | f :: fs' => exists b1 b2, enc_field f b1 /\ enc_fields fs' b2 /\ bs = b1 ++ b2
  end.

(** ** Readers against the wire format *)
Definition rd_rest (r : BorshReader) : list byte := drop (rd_position r) (rd_data r).
Definition rd_wf (r : BorshReader) : Prop := (rd_position r <= length (rd_data r))%nat.
Definition rd_advance (n : nat) (r : BorshReader) : BorshReader :=
  {| rd_data := rd_data r; rd_position := rd_position r + n |}.

(** [parses p R]: from a well-formed cursor, [p] succeeds with [a] exactly when
    the remaining input starts with bytes related to [a] by [R], which it
    consumes. *)
Definition parses {A} (p : Reader A) (R : A -> list byte -> Prop) : Prop :=
  forall r, rd_wf r -> forall a r',
    p r = Ok (a, r') <->
    exists bs tail, R a bs /\ rd_rest r = bs ++ tail /\ r' = rd_advance (length bs) r.

(** The same against lists of fields. *)
Definition decodes {A} (p : Reader A) (R : A -> list field -> Prop) : Prop :=
  parses p (fun a bs => exists fs, R a fs /\ enc_fields fs bs).

Lemma rd_advance_rest r bs tail :
  rd_wf r -> rd_rest r = bs ++ tail ->
  rd_wf (rd_advance (length bs) r) /\ rd_rest (rd_advance (length bs) r) = tail.
Proof.
  unfold rd_wf, rd_rest, rd_advance; simpl. intros Hwf Hr.
  assert (length (drop (rd_position r) (rd_data r)) = length (bs ++ tail)) as Hl by (by rewrite Hr).
  rewrite length_drop, length_app in Hl. split; [lia|].
  by rewrite <- drop_drop, Hr, drop_app_length.
Qed.

Lemma rd_advance_advance m n r : rd_advance n (rd_advance m r) = rd_advance (m + n) r.
Proof. unfold rd_advance; simpl. f_equal. lia. Qed.

Lemma rd_advance_0 r : rd_advance 0 r = r.
Proof. destruct r. unfold rd_advance; simpl. f_equal. lia. Qed.

Lemma parses_iff {A} (p : Reader A) R R' :
  (forall a bs, R a bs <-> R' a bs) -> parses p R -> parses p R'.
Proof. intros HR Hp r Hr a r'. rewrite (Hp r Hr). setoid_rewrite HR. done. Qed.

Lemma parses_ret {A} (a : A) : parses (mret a) (fun b bs => b = a /\ bs = []).
Proof.
  intros r Hr b r'. unfold mret, reader_ret. split.
  - intros [= <- <-]. exists [], (rd_rest r). by rewrite rd_advance_0.
  - intros (bs & tail & [-> ->] & _ & ->). by rewrite rd_advance_0.
Qed.

Lemma parses_fail {A} e : parses (@reader_fail A e) (fun _ _ => False).
Proof. intros r Hr a r'. split; [done|]. by intros (? & ? & [] & _). Qed.

Lemma parses_lift {A} (x : result DecodeError A) :
  parses (reader_lift x) (fun a bs => x = Ok a /\ bs = []).
Proof. destruct x as [a|e]; [|by intros r Hr b r'; simpl; naive_solver].
  eapply parses_iff; [|apply (parses_ret a)]. simpl. naive_solver.
Qed.

Lemma parses_bind {A B} (p : Reader A) (k : A -> Reader B) RA RB :
  parses p RA -> (forall a bs, RA a bs -> parses (k a) (RB a)) ->
  parses (p ≫= k) (fun b bs => exists a b1 b2, RA a b1 /\ RB a b b2 /\ bs = b1 ++ b2).
Proof.
  intros Hp Hk r Hr b r'. unfold mbind, reader_bind. split.
  - destruct (p r) as [[a r1]|] eqn:E; [|done]. intros Hb.
    apply Hp in E as (b1 & t1 & HA & Hrest & ->); [|done].
    destruct (rd_advance_rest _ _ _ Hr Hrest) as [Hr1 Hrest1].
    apply (Hk a b1 HA) in Hb as (b2 & t2 & HB & Hrest2 & ->); [|done].
    exists (b1 ++ b2), t2. split; [eauto 10|]. split.
    + rewrite Hrest, <- app_assoc. f_equal. congruence.
    + by rewrite rd_advance_advance, length_app.
  - intros (bs & tail & (a & b1 & b2 & HA & HB & ->) & Hrest & ->).
    rewrite <- app_assoc in Hrest.
    assert (p r = Ok (a, rd_advance (length b1) r)) as -> by (apply Hp; eauto).
    destruct (rd_advance_rest _ _ _ Hr Hrest) as [Hr1 Hrest1].
    apply (Hk a b1 HA); [done|]. exists b2, tail. split_and!; [done|done|].
    by rewrite rd_advance_advance, length_app.
Qed.

Lemma parses_take f n : parses (take f n) (fun a bs => a = bs /\ length bs = n).
Proof.
  intros r Hr a r'. unfold take, rd_wf, rd_rest, rd_advance in *.
  destruct (Nat.ltb_spec (length (rd_data r) - rd_position r) n) as [Hlt|Hge].
  - split; [done|]. intros (bs & tail & [-> Hl] & Hrest & _).
    apply (f_equal length) in Hrest. rewrite length_drop, length_app in Hrest. lia.
  - split.
    + intros [= <- <-]. exists (firstn n (drop (rd_position r) (rd_data r))),
        (drop n (drop (rd_position r) (rd_data r))).
      assert (length (firstn n (drop (rd_position r) (rd_data r))) = n) as Hl.
      { rewrite length_firstn, length_drop. lia. }
      split_and!; [done|done|by rewrite firstn_skipn|by rewrite Hl].
    + intros (bs & tail & [-> <-] & -> & ->). by rewrite take_app_length.
Qed.

(** *** Little-endian integers *)
Lemma length_le_bytes n z : length (le_bytes n z) = n.
Proof. revert z. induction n; intros; simpl; auto. Qed.

Lemma from_le_range bs : 0 <= from_le bs < 2 ^ (8 * Z.of_nat (length bs)).
Proof.
  unfold from_le. induction bs as [|b bs IH]; [simpl; lia|]. cbn [length foldr].
  replace (8 * Z.of_nat (S (length bs))) with (8 + 8 * Z.of_nat (length bs)) by lia.
  rewrite Z.pow_add_r by lia. change (2 ^ 8) with 256. pose proof (byte_val_range b). lia.
Qed.

Lemma le_bytes_from_le bs : le_bytes (length bs) (from_le bs) = bs.
Proof.
  unfold from_le. induction bs as [|b bs IH]; [done|]. cbn [length le_bytes foldr].
  pose proof (byte_val_range b). f_equal.
  - apply byte_val_inj. rewrite byte_val_of_Z.
    rewrite (Z.mul_comm 256), Z.mod_add by lia. apply Z.mod_small. lia.
  - rewrite (Z.mul_comm 256), Z.div_add by lia.
    rewrite Z.div_small by lia. by rewrite Z.add_0_l.
Qed.

Lemma from_le_le_bytes n z : from_le (le_bytes n z) = z mod 2 ^ (8 * Z.of_nat n).
Proof.
  revert z. unfold from_le. induction n as [|n IH]; intros z; cbn [le_bytes foldr].
  { by rewrite Z.mul_0_r, Z.mod_1_r. }
  rewrite byte_val_of_Z, IH.
  replace (8 * Z.of_nat (S n)) with (8 + 8 * Z.of_nat n) by lia.
  rewrite Z.pow_add_r by lia. change (2 ^ 8) with 256.
  rewrite Z.rem_mul_r by lia. lia.
Qed.

Lemma parses_uint f n :
  parses (bs ← take f n; mret (from_le bs)) (enc_uint n).
Proof.
  eapply parses_iff; [|apply parses_bind; [apply parses_take|intros; apply parses_ret]].
  intros z bs; cbv beta. unfold enc_uint, in_uint, uint_max. split.
  - intros (a & b1 & b2 & [-> <-] & [-> ->] & ->).
    rewrite app_nil_r, le_bytes_from_le. pose proof (from_le_range b1). split; [lia|done].
  - intros [Hz ->]. exists (le_bytes n z), (le_bytes n z), [].
    rewrite length_le_bytes, app_nil_r, from_le_le_bytes, Z.mod_small by lia. done.
Qed.

Lemma parses_sint f n :
  (0 < n)%nat ->
  parses (bs ← take f n; mret (from_le_signed (8 * Z.of_nat n) bs)) (enc_sint n).
Proof.
  intros Hn.
  eapply parses_iff; [|apply parses_bind; [apply parses_take|intros; apply parses_ret]].
  intros z bs; cbv beta. unfold enc_sint, in_sint, sint_max, sint_min, from_le_signed.
  assert (2 ^ (8 * Z.of_nat n) = 2 * 2 ^ (8 * Z.of_nat n - 1)) as Hpow.
  { rewrite <- Z.pow_succ_r by lia. f_equal. lia. }
  assert (0 < 2 ^ (8 * Z.of_nat n - 1)) by lia.
  split.
  - intros (a & b1 & b2 & [-> <-] & [-> ->] & ->). rewrite app_nil_r.
    pose proof (from_le_range b1) as Hr. destruct (Z.ltb_spec (from_le b1) (2 ^ (8 * Z.of_nat (length b1) - 1))).
    + rewrite Z.mod_small, le_bytes_from_le by lia. split; [lia|done].
    + rewrite <- (Z.mod_unique_pos _ (2 ^ (8 * Z.of_nat (length b1))) (-1) (from_le b1)) by lia.
      rewrite le_bytes_from_le. split; [lia|done].
  - intros [Hz ->]. eexists _, (le_bytes n _), [].
    rewrite length_le_bytes, app_nil_r. split_and!; [done|done| |done|done].
    rewrite from_le_le_bytes, Z.mod_mod by lia.
    destruct (Z.ltb_spec z 0).
    + rewrite <- (Z.mod_unique_pos z (2 ^ (8 * Z.of_nat n)) (-1) (z + 2 ^ (8 * Z.of_nat n))) by lia.
      destruct (Z.ltb_spec (z + 2 ^ (8 * Z.of_nat n)) (2 ^ (8 * Z.of_nat n - 1))); lia.
    + rewrite Z.mod_small by lia. destruct (Z.ltb_spec z (2 ^ (8 * Z.of_nat n - 1))); lia.
Qed.

Lemma parses_u8 f : parses (read_u8 f) (enc_uint 1).
Proof. apply parses_uint. Qed.
Lemma parses_u16 f : parses (read_u16 f) (enc_uint 2).
Proof. apply parses_uint. Qed.
Lemma parses_u32 f : parses (read_u32 f) (enc_uint 4).
Proof. apply parses_uint. Qed.
Lemma parses_u64 f : parses (read_u64 f) (enc_uint 8).
Proof. apply parses_uint. Qed.
Lemma parses_i64 f : parses (read_i64 f) (enc_sint 8).
Proof. apply (parses_sint f 8). lia. Qed.
Lemma parses_i128 f : parses (read_i128 f) (enc_sint 16).
Proof. apply (parses_sint f 16). lia. Qed.

Lemma parses_boolean f : parses (read_boolean f) (fun b => enc_uint 1 (if b then 1 else 0)).
Proof.
  eapply parses_iff;
    [|apply (parses_bind _ _ (enc_uint 1) (fun v (b : bool) bs => bs = [] /\ v = if b then 1 else 0));
      [apply parses_u8|]].
  - intros b bs. split.
    + intros (v & b1 & b2 & Hv & [-> ->] & ->). by rewrite app_nil_r.
    + intros Hb. eexists _, bs, []. rewrite app_nil_r. eauto.
  - intros v _ _. destruct (Z.eqb_spec v 0) as [->|H0]; [|destruct (Z.eqb_spec v 1) as [->|H1]].
    + eapply parses_iff; [|apply parses_ret]. intros [] bs; naive_solver.
    + eapply parses_iff; [|apply parses_ret]. intros [] bs; naive_solver.
    + eapply parses_iff; [|apply parses_fail]. intros [] bs; naive_solver.
Qed.

Lemma parses_pubkey f : parses (read_pubkey f) enc_pubkey.
Proof.
  eapply parses_iff; [|apply parses_bind; [apply parses_take|intros; apply parses_ret]].
  intros z bs; cbv beta. unfold enc_pubkey. split.
  - intros (a & b1 & b2 & [-> <-] & [-> ->] & ->). by rewrite app_nil_r.
  - intros [Hl ->]. exists bs, bs, []. by rewrite app_nil_r.
Qed.

Lemma usize_of_u32_id f limit v :
  in_uint 32 v -> usize_of_u32 f limit v = mret v.
Proof.
  intros Hv. unfold usize_of_u32, try_from_u.
  destruct (Z.leb_spec 0 v); [|int_lia]. by destruct (Z.leb_spec v u64_max); [|int_lia].
Qed.

(** A length prefix and the payload it announces. *)
Lemma parses_prefixed {A} f limit (p : Z -> Reader A) R :
  (forall v, in_uint 32 v -> parses (p v) (R v)) ->
  parses (v ← read_u32 f; len ← usize_of_u32 f limit v; p len)
    (fun a bs => exists v body, in_uint 32 v /\ R v a body /\ bs = le_bytes 4 v ++ body).
Proof.
  intros Hp.
  eapply parses_iff; [|apply (parses_bind _ _ (enc_uint 4) R); [apply parses_u32|]].
  - intros a bs. split.
    + intros (v & b1 & b2 & [Hv ->] & HR & ->). eauto.
    + intros (v & body & Hv & HR & ->). exists v, (le_bytes 4 v), body. by split_and!.
  - intros v bs [Hv _]. rewrite usize_of_u32_id by done. intros r Hr a r'.
    apply (Hp v Hv r Hr).
Qed.

Lemma parses_string f limit : parses (read_string f limit) (enc_string limit).
Proof.
  eapply parses_iff;
    [|apply (parses_prefixed f limit _
        (fun v s bs => v <= limit /\ v = Z.of_nat (length (str_bytes s)) /\
                       utf8_valid (str_bytes s) = true /\ bs = str_bytes s))].
  - intros s bs. unfold enc_string. split.
    + intros (v & body & Hv & (Hl & -> & Hu & ->) & ->). auto.
    + intros (Hl & Hr & Hu & ->). eexists _, _. eauto 10.
  - intros v Hv. destruct (Z.gtb_spec v limit) as [Hgt|Hle].
    { eapply parses_iff; [|apply parses_fail]. simpl. intros; split; [done|]. lia. }
    eapply parses_iff;
      [|apply parses_bind; [apply parses_take|intros; apply parses_lift]].
    intros s bs; cbv beta. split.
    + intros (a & b1 & b2 & [-> Hlen] & [Hs ->] & ->). rewrite app_nil_r.
      apply ok_or_Ok, from_utf8_Some in Hs as [-> Hu].
      unfold in_uint in Hv. split_and!; [lia|lia|done|done].
    + intros (_ & -> & Hu & ->). exists (str_bytes s), (str_bytes s), [].
      rewrite app_nil_r, Nat2Z.id. split_and!; [done|done| |done|done].
      apply ok_or_Ok, from_utf8_Some. done.
Qed.

Lemma parses_shareholder_list n :
  parses (read_shareholder_list n) (fun l bs => length l = n /\ enc_shareholder_list l bs).
Proof.
  induction n as [|n IH]; simpl.
  { eapply parses_iff; [|apply parses_ret]. intros l bs. simpl. split.
    - by intros [-> ->].
    - by intros [->%nil_length_inv ->]. }
  eapply parses_iff;
    [|apply parses_bind;
      [apply parses_bind; [apply parses_pubkey|];
       intros; apply parses_bind; [apply parses_u16|intros; apply parses_ret]
      |intros; apply parses_bind; [apply IH|intros; apply parses_ret]]].
  intros l bs; cbv beta. split.
  - intros (s & b1 & b2 & (key & k1 & k2 & Hk & (share & s1 & s2 & Hs & [-> ->] & ->) & ->)
            & (rest & r1 & r2 & [Hl Hr] & [-> ->] & ->) & ->).
    simpl. split; [by rewrite Hl|]. exists k1, s1, r1.
    rewrite !app_nil_r, <- app_assoc. by split_and!.
  - destruct l as [|[addr share] l]; intros [Hlen Henc]; simpl in *; [done|].
    destruct Henc as (key & sb & rest & Hk & Hs & Hr & ->). injection Hlen as Hlen.
    exists {| sh_address := addr; sh_share_basis_points := share |}, (key ++ sb), rest.
    rewrite <- app_assoc. split_and!; [|exists l, rest, []|done].
    + exists addr, key, sb. split_and!; [done| |done]. exists share, sb, [].
      by rewrite app_nil_r.
    + by rewrite app_nil_r.
Qed.

Lemma parses_shareholders :
  parses read_shareholders (fun l => enc_field (FShareholders l)).
Proof.
  eapply parses_iff;
    [|apply (parses_prefixed "shareholders" MAX_SHAREHOLDERS _
        (fun v l bs => v <= MAX_SHAREHOLDERS /\ v = Z.of_nat (length l) /\
                       enc_shareholder_list l bs))].
  - intros l bs. simpl. split.
    + intros (v & body & Hv & (Hl & -> & Henc) & ->). eauto.
    + intros (body & Hl & Henc & ->). eexists _, _. split_and!; eauto.
      unfold MAX_SHAREHOLDERS in Hl. split; [lia|]. unfold uint_max. lia.
  - intros v Hv. destruct (Z.gtb_spec v MAX_SHAREHOLDERS) as [Hgt|Hle].
    { eapply parses_iff; [|apply parses_fail]. simpl. intros; split; [done|]. lia. }
    eapply parses_iff; [|apply parses_shareholder_list].
    intros l bs; cbv beta. unfold in_uint in Hv. split.
    + intros [Hl Henc]. split_and!; [lia|lia|done].
    + intros (_ & -> & Henc). by rewrite Nat2Z.id.
Qed.

(** *** Uniqueness of encodings *)
Lemma enc_shareholder_list_fun l bs1 bs2 :
  enc_shareholder_list l bs1 -> enc_shareholder_list l bs2 -> bs1 = bs2.
Proof.
  revert bs1 bs2. induction l as [|s l IH]; intros bs1 bs2; simpl; [congruence|].
  intros (k1 & s1 & r1 & [Hk1 E1] & [_ ->] & Hr1 & ->)
         (k2 & s2 & r2 & [Hk2 E2] & [_ ->] & Hr2 & ->).
  rewrite (IH _ _ Hr1 Hr2). f_equal. apply encode_base58_eq; congruence.
Qed.

Lemma enc_field_fun f bs1 bs2 : enc_field f bs1 -> enc_field f bs2 -> bs1 = bs2.
Proof.
  destruct f; simpl.
  1-6: by intros [_ ->] [_ ->].
  - intros [H1 E1] [H2 E2]. apply encode_base58_eq; congruence.
  - by intros (_ & _ & _ & ->) (_ & _ & _ & ->).
  - intros (b1 & _ & H1 & ->) (b2 & _ & H2 & ->).
    by rewrite (enc_shareholder_list_fun _ _ _ H1 H2).
Qed.

Lemma enc_fields_fun fs bs1 bs2 : enc_fields fs bs1 -> enc_fields fs bs2 -> bs1 = bs2.
Proof.
  revert bs1 bs2. induction fs as [|f fs IH]; intros bs1 bs2; simpl; [congruence|].
  intros (a1 & r1 & Ha1 & Hr1 & ->) (a2 & r2 & Ha2 & Hr2 & ->).
  by rewrite (enc_field_fun _ _ _ Ha1 Ha2), (IH _ _ Hr1 Hr2).
Qed.

(** *** Sequencing field readers *)
Lemma decodes_iff {A} (p : Reader A) R R' :
  (forall a fs, R a fs <-> R' a fs) -> decodes p R -> decodes p R'.
Proof. intros HR. apply parses_iff. intros a bs. by setoid_rewrite HR. Qed.

Lemma decodes_ret {A} (a : A) : decodes (mret a) (fun b fs => b = a /\ fs = []).
Proof.
  eapply parses_iff; [|apply parses_ret]. intros b bs; cbv beta. split.
  - intros [-> ->]. exists []. done.
  - by intros (fs & [-> ->] & ->).
Qed.

(** A reader of one field followed by the rest of the layout. *)
Lemma decodes_bind {A B} (p : Reader A) (mk : A -> field) (k : A -> Reader B) R :
  parses p (fun a => enc_field (mk a)) -> (forall a, decodes (k a) (R a)) ->
  decodes (p ≫= k) (fun b fs => exists a fs', fs = mk a :: fs' /\ R a b fs').
Proof.
  intros Hp Hk.
  eapply parses_iff; [|apply parses_bind; [apply Hp|intros a bs _; apply Hk]].
  intros b bs; cbv beta. split.
  - intros (a & b1 & b2 & Ha & (fs & HR & Hfs) & ->). exists (mk a :: fs).
    split; [eauto|]. simpl. eauto.
  - intros (fs & (a & fs' & -> & HR) & Henc). simpl in Henc.
    destruct Henc as (b1 & b2 & Ha & Hfs & ->). eauto 10.
Qed.
End Reader.

#[global] Arguments DecodeError B64 : clear implicits.
#[global] Arguments Reader B64 A : clear implicits.

Create Rewrite HintDb layout.

(** Runs the field readers of an event layout one after the other, leaving the
    final equation between the result and the field list. *)
Ltac decode_layout :=
  eapply decodes_iff;
  [|repeat (first
     [ eapply (decodes_bind (read_u8 _) FU8); [exact (parses_u8 _)|intros; cbv zeta]
     | eapply (decodes_bind (read_u16 _) FU16); [exact (parses_u16 _)|intros; cbv zeta]
     | eapply (decodes_bind (read_u64 _) FU64); [exact (parses_u64 _)|intros; cbv zeta]
     | eapply (decodes_bind (read_i64 _) FI64); [exact (parses_i64 _)|intros; cbv zeta]
     | eapply (decodes_bind (read_i128 _) FI128); [exact (parses_i128 _)|intros; cbv zeta]
     | eapply (decodes_bind (read_boolean _) FBool); [exact (parses_boolean _)|intros; cbv zeta]
     | eapply (decodes_bind (read_pubkey _) FPubkey); [exact (parses_pubkey _)|intros; cbv zeta]
     | eapply (decodes_bind (read_string _ _) (FString _)); [exact (parses_string _ _)|intros; cbv zeta]
     | eapply (decodes_bind read_shareholders FShareholders); [exact parses_shareholders|intros; cbv zeta]
     | eapply decodes_ret ])];
  cbv beta;
  let e := fresh "e" in
  let H := fresh "H" in
  intros e ?; split;
  [ intros H;
    repeat match type of H with ex _ => destruct H as (? & ? & -> & H) end;
    destruct H as [-> ->]; simpl; autorewrite with layout; reflexivity
  | intros ->; destruct e; repeat (eexists _, _; split; [reflexivity|]);
    simpl; autorewrite with layout; done ].
