(* ===== verification/PumpDecoder.v ===== *)
(** [crates/source-pump/src/decoder.rs]: the event decoders and their entry
    points.  Each layout below is the IDL field table of one event; the decoder
    of that event accepts exactly the wire encodings of its table. *)
From S2P Require Import Prelude.
From S2P Require Import RustStr.
From S2P Require Import Domain.
From S2P Require Import Base58.
From S2P Require Import External.
From S2P Require Import PumpModel.
From S2P Require Import BorshReader.

Section Decoder.
Context {B64 : Base64}.

(** ** Field readers of the nine events *)
Definition decode_pump_create : Reader B64 PumpCreateEvent :=
  name ← read_string "name" MAX_NAME_BYTES;
  symbol ← read_string "symbol" MAX_SYMBOL_BYTES;
  uri ← read_string "uri" MAX_URI_BYTES;
  mint ← read_pubkey "mint";
  bonding_curve ← read_pubkey "bonding_curve";
  user ← read_pubkey "user";
  creator ← read_pubkey "creator";
  timestamp ← read_i64 "timestamp";
  virtual_token_reserves ← read_u64 "virtual_token_reserves";
  virtual_sol_reserves ← read_u64 "virtual_sol_reserves";
  real_token_reserves ← read_u64 "real_token_reserves";
  token_total_supply ← read_u64 "token_total_supply";
  token_program ← read_pubkey "token_program";
  is_mayhem_mode ← read_boolean "is_mayhem_mode";
  is_cashback_enabled ← read_boolean "is_cashback_enabled";
  quote_mint ← read_pubkey "quote_mint";
  virtual_quote_reserves ← read_u64 "virtual_quote_reserves";
  mret {| ce_name := name; ce_symbol := symbol; ce_uri := uri; ce_mint := mint;
    ce_bonding_curve := bonding_curve; ce_user := user; ce_creator := creator;
    ce_timestamp := timestamp; ce_virtual_token_reserves := virtual_token_reserves;
    ce_virtual_sol_reserves := virtual_sol_reserves; ce_real_token_reserves :=
    real_token_reserves; ce_token_total_supply := token_total_supply; ce_token_program :=
    token_program; ce_is_mayhem_mode := is_mayhem_mode; ce_is_cashback_enabled :=
    is_cashback_enabled; ce_quote_mint := quote_mint; ce_virtual_quote_reserves :=
    virtual_quote_reserves |}.

Definition decode_pump_trade : Reader B64 PumpTradeEvent :=
  mint ← read_pubkey "mint";
  legacy_sol_amount ← read_u64 "sol_amount";
  token_amount ← read_u64 "token_amount";
  is_buy ← read_boolean "is_buy";
  let direction := if is_buy : bool then DirBuy else DirSell in
  user ← read_pubkey "user";
  timestamp ← read_i64 "timestamp";
  virtual_sol_reserves ← read_u64 "virtual_sol_reserves";
  virtual_token_reserves ← read_u64 "virtual_token_reserves";
  real_sol_reserves ← read_u64 "real_sol_reserves";
  real_token_reserves ← read_u64 "real_token_reserves";
  fee_recipient ← read_pubkey "fee_recipient";
  fee_basis_points ← read_u64 "fee_basis_points";
  fee_amount ← read_u64 "fee";
  creator ← read_pubkey "creator";
  creator_fee_basis_points ← read_u64 "creator_fee_basis_points";
  creator_fee_amount ← read_u64 "creator_fee";
  track_volume ← read_boolean "track_volume";
  total_unclaimed_tokens ← read_u64 "total_unclaimed_tokens";
  total_claimed_tokens ← read_u64 "total_claimed_tokens";
  current_sol_volume ← read_u64 "current_sol_volume";
  last_update_timestamp ← read_i64 "last_update_timestamp";
  instruction_name ← read_string "ix_name" MAX_INSTRUCTION_NAME_BYTES;
  mayhem_mode ← read_boolean "mayhem_mode";
  cashback_fee_basis_points ← read_u64 "cashback_fee_basis_points";
  cashback_amount ← read_u64 "cashback";
  buyback_fee_basis_points ← read_u64 "buyback_fee_basis_points";
  buyback_fee_amount ← read_u64 "buyback_fee";
  shareholders ← read_shareholders;
  quote_mint ← read_pubkey "quote_mint";
  quote_amount ← read_u64 "quote_amount";
  virtual_quote_reserves ← read_u64 "virtual_quote_reserves";
  real_quote_reserves ← read_u64 "real_quote_reserves";
  mret {| te_mint := mint; te_legacy_sol_amount := legacy_sol_amount; te_token_amount :=
    token_amount; te_direction := direction; te_user := user; te_timestamp := timestamp;
    te_virtual_sol_reserves := virtual_sol_reserves; te_virtual_token_reserves :=
    virtual_token_reserves; te_real_sol_reserves := real_sol_reserves;
    te_real_token_reserves := real_token_reserves; te_fee_recipient := fee_recipient;
    te_fee_basis_points := fee_basis_points; te_fee_amount := fee_amount; te_creator :=
    creator; te_creator_fee_basis_points := creator_fee_basis_points;
    te_creator_fee_amount := creator_fee_amount; te_track_volume := track_volume;
    te_total_unclaimed_tokens := total_unclaimed_tokens; te_total_claimed_tokens :=
    total_claimed_tokens; te_current_sol_volume := current_sol_volume;
    te_last_update_timestamp := last_update_timestamp; te_instruction_name :=
    instruction_name; te_mayhem_mode := mayhem_mode; te_cashback_fee_basis_points :=
    cashback_fee_basis_points; te_cashback_amount := cashback_amount;
    te_buyback_fee_basis_points := buyback_fee_basis_points; te_buyback_fee_amount :=
    buyback_fee_amount; te_shareholders := shareholders; te_quote_mint := quote_mint;
    te_quote_amount := quote_amount; te_virtual_quote_reserves := virtual_quote_reserves;
    te_real_quote_reserves := real_quote_reserves |}.

Definition decode_pump_complete : Reader B64 PumpCompleteEvent :=
  user ← read_pubkey "user";
  mint ← read_pubkey "mint";
  bonding_curve ← read_pubkey "bonding_curve";
  timestamp ← read_i64 "timestamp";
  quote_mint ← read_pubkey "quote_mint";
  mret {| co_user := user; co_mint := mint; co_bonding_curve := bonding_curve;
    co_timestamp := timestamp; co_quote_mint := quote_mint |}.

Definition decode_pump_migration : Reader B64 PumpMigrationEvent :=
  user ← read_pubkey "user";
  mint ← read_pubkey "mint";
  mint_amount ← read_u64 "mint_amount";
  legacy_sol_amount ← read_u64 "sol_amount";
  pool_migration_fee ← read_u64 "pool_migration_fee";
  bonding_curve ← read_pubkey "bonding_curve";
  timestamp ← read_i64 "timestamp";
  pool ← read_pubkey "pool";
  quote_mint ← read_pubkey "quote_mint";
  mret {| me_user := user; me_mint := mint; me_mint_amount := mint_amount;
    me_legacy_sol_amount := legacy_sol_amount; me_pool_migration_fee :=
    pool_migration_fee; me_bonding_curve := bonding_curve; me_timestamp := timestamp;
    me_pool := pool; me_quote_mint := quote_mint |}.

Definition decode_pump_swap_create_pool : Reader B64 PumpSwapCreatePoolEvent :=
  timestamp ← read_i64 "timestamp";
  index ← read_u16 "index";
  creator ← read_pubkey "creator";
  base_mint ← read_pubkey "base_mint";
  quote_mint ← read_pubkey "quote_mint";
  base_mint_decimals ← read_u8 "base_mint_decimals";
  quote_mint_decimals ← read_u8 "quote_mint_decimals";
  base_amount_in ← read_u64 "base_amount_in";
  quote_amount_in ← read_u64 "quote_amount_in";
  pool_base_amount ← read_u64 "pool_base_amount";
  pool_quote_amount ← read_u64 "pool_quote_amount";
  minimum_liquidity ← read_u64 "minimum_liquidity";
  initial_liquidity ← read_u64 "initial_liquidity";
  lp_token_amount_out ← read_u64 "lp_token_amount_out";
  pool_bump ← read_u8 "pool_bump";
  pool ← read_pubkey "pool";
  lp_mint ← read_pubkey "lp_mint";
  user_base_token_account ← read_pubkey "user_base_token_account";
  user_quote_token_account ← read_pubkey "user_quote_token_account";
  coin_creator ← read_pubkey "coin_creator";
  is_mayhem_mode ← read_boolean "is_mayhem_mode";
  mret {| cp_timestamp := timestamp; cp_index := index; cp_creator := creator;
    cp_base_mint := base_mint; cp_quote_mint := quote_mint; cp_base_mint_decimals :=
    base_mint_decimals; cp_quote_mint_decimals := quote_mint_decimals; cp_base_amount_in
    := base_amount_in; cp_quote_amount_in := quote_amount_in; cp_pool_base_amount :=
    pool_base_amount; cp_pool_quote_amount := pool_quote_amount; cp_minimum_liquidity :=
    minimum_liquidity; cp_initial_liquidity := initial_liquidity; cp_lp_token_amount_out
    := lp_token_amount_out; cp_pool_bump := pool_bump; cp_pool := pool; cp_lp_mint :=
    lp_mint; cp_user_base_token_account := user_base_token_account;
    cp_user_quote_token_account := user_quote_token_account; cp_coin_creator :=
    coin_creator; cp_is_mayhem_mode := is_mayhem_mode |}.

Definition decode_pump_swap_buy : Reader B64 PumpSwapBuyEvent :=
  timestamp ← read_i64 "timestamp";
  base_amount_out ← read_u64 "base_amount_out";
  max_quote_amount_in ← read_u64 "max_quote_amount_in";
  user_base_token_reserves ← read_u64 "user_base_token_reserves";
  user_quote_token_reserves ← read_u64 "user_quote_token_reserves";
  pool_base_token_reserves ← read_u64 "pool_base_token_reserves";
  pool_quote_token_reserves ← read_u64 "pool_quote_token_reserves";
  quote_amount_in ← read_u64 "quote_amount_in";
  lp_fee_basis_points ← read_u64 "lp_fee_basis_points";
  lp_fee_amount ← read_u64 "lp_fee";
  protocol_fee_basis_points ← read_u64 "protocol_fee_basis_points";
  protocol_fee_amount ← read_u64 "protocol_fee";
  quote_amount_in_with_lp_fee ← read_u64 "quote_amount_in_with_lp_fee";
  user_quote_amount_in ← read_u64 "user_quote_amount_in";
  pool ← read_pubkey "pool";
  user ← read_pubkey "user";
  user_base_token_account ← read_pubkey "user_base_token_account";
  user_quote_token_account ← read_pubkey "user_quote_token_account";
  protocol_fee_recipient ← read_pubkey "protocol_fee_recipient";
  protocol_fee_recipient_token_account ← read_pubkey "protocol_fee_recipient_token_account";
  coin_creator ← read_pubkey "coin_creator";
  coin_creator_fee_basis_points ← read_u64 "coin_creator_fee_basis_points";
  coin_creator_fee_amount ← read_u64 "coin_creator_fee";
  track_volume ← read_boolean "track_volume";
  total_unclaimed_tokens ← read_u64 "total_unclaimed_tokens";
  total_claimed_tokens ← read_u64 "total_claimed_tokens";
  current_sol_volume ← read_u64 "current_sol_volume";
  last_update_timestamp ← read_i64 "last_update_timestamp";
  min_base_amount_out ← read_u64 "min_base_amount_out";
  instruction_name ← read_string "ix_name" MAX_INSTRUCTION_NAME_BYTES;
  cashback_fee_basis_points ← read_u64 "cashback_fee_basis_points";
  cashback_amount ← read_u64 "cashback";
  buyback_fee_basis_points ← read_u64 "buyback_fee_basis_points";
  buyback_fee_amount ← read_u64 "buyback_fee";
  virtual_quote_reserves ← read_i128 "virtual_quote_reserves";
  can_boost ← read_boolean "can_boost";
  base_supply ← read_u64 "base_supply";
  mret {| be_timestamp := timestamp; be_base_amount_out := base_amount_out;
    be_max_quote_amount_in := max_quote_amount_in; be_user_base_token_reserves :=
    user_base_token_reserves; be_user_quote_token_reserves := user_quote_token_reserves;
    be_pool_base_token_reserves := pool_base_token_reserves; be_pool_quote_token_reserves
    := pool_quote_token_reserves; be_quote_amount_in := quote_amount_in;
    be_lp_fee_basis_points := lp_fee_basis_points; be_lp_fee_amount := lp_fee_amount;
    be_protocol_fee_basis_points := protocol_fee_basis_points; be_protocol_fee_amount :=
    protocol_fee_amount; be_quote_amount_in_with_lp_fee := quote_amount_in_with_lp_fee;
    be_user_quote_amount_in := user_quote_amount_in; be_pool := pool; be_user := user;
    be_user_base_token_account := user_base_token_account; be_user_quote_token_account :=
    user_quote_token_account; be_protocol_fee_recipient := protocol_fee_recipient;
    be_protocol_fee_recipient_token_account := protocol_fee_recipient_token_account;
    be_coin_creator := coin_creator; be_coin_creator_fee_basis_points :=
    coin_creator_fee_basis_points; be_coin_creator_fee_amount := coin_creator_fee_amount;
    be_track_volume := track_volume; be_total_unclaimed_tokens := total_unclaimed_tokens;
    be_total_claimed_tokens := total_claimed_tokens; be_current_sol_volume :=
    current_sol_volume; be_last_update_timestamp := last_update_timestamp;
    be_min_base_amount_out := min_base_amount_out; be_instruction_name :=
    instruction_name; be_cashback_fee_basis_points := cashback_fee_basis_points;
    be_cashback_amount := cashback_amount; be_buyback_fee_basis_points :=
    buyback_fee_basis_points; be_buyback_fee_amount := buyback_fee_amount;
    be_virtual_quote_reserves := virtual_quote_reserves; be_can_boost := can_boost;
    be_base_supply := base_supply |}.

Definition decode_pump_swap_sell : Reader B64 PumpSwapSellEvent :=
  timestamp ← read_i64 "timestamp";
  base_amount_in ← read_u64 "base_amount_in";
  min_quote_amount_out ← read_u64 "min_quote_amount_out";
  user_base_token_reserves ← read_u64 "user_base_token_reserves";
  user_quote_token_reserves ← read_u64 "user_quote_token_reserves";
  pool_base_token_reserves ← read_u64 "pool_base_token_reserves";
  pool_quote_token_reserves ← read_u64 "pool_quote_token_reserves";
  quote_amount_out ← read_u64 "quote_amount_out";
  lp_fee_basis_points ← read_u64 "lp_fee_basis_points";
  lp_fee_amount ← read_u64 "lp_fee";
  protocol_fee_basis_points ← read_u64 "protocol_fee_basis_points";
  protocol_fee_amount ← read_u64 "protocol_fee";
  quote_amount_out_without_lp_fee ← read_u64 "quote_amount_out_without_lp_fee";
  user_quote_amount_out ← read_u64 "user_quote_amount_out";
  pool ← read_pubkey "pool";
  user ← read_pubkey "user";
  user_base_token_account ← read_pubkey "user_base_token_account";
  user_quote_token_account ← read_pubkey "user_quote_token_account";
  protocol_fee_recipient ← read_pubkey "protocol_fee_recipient";
  protocol_fee_recipient_token_account ← read_pubkey "protocol_fee_recipient_token_account";
  coin_creator ← read_pubkey "coin_creator";
  coin_creator_fee_basis_points ← read_u64 "coin_creator_fee_basis_points";
  coin_creator_fee_amount ← read_u64 "coin_creator_fee";
  cashback_fee_basis_points ← read_u64 "cashback_fee_basis_points";
  cashback_amount ← read_u64 "cashback";
  buyback_fee_basis_points ← read_u64 "buyback_fee_basis_points";
  buyback_fee_amount ← read_u64 "buyback_fee";
  virtual_quote_reserves ← read_i128 "virtual_quote_reserves";
  can_boost ← read_boolean "can_boost";
  base_supply ← read_u64 "base_supply";
  mret {| se_timestamp := timestamp; se_base_amount_in := base_amount_in;
    se_min_quote_amount_out := min_quote_amount_out; se_user_base_token_reserves :=
    user_base_token_reserves; se_user_quote_token_reserves := user_quote_token_reserves;
    se_pool_base_token_reserves := pool_base_token_reserves; se_pool_quote_token_reserves
    := pool_quote_token_reserves; se_quote_amount_out := quote_amount_out;
    se_lp_fee_basis_points := lp_fee_basis_points; se_lp_fee_amount := lp_fee_amount;
    se_protocol_fee_basis_points := protocol_fee_basis_points; se_protocol_fee_amount :=
    protocol_fee_amount; se_quote_amount_out_without_lp_fee :=
    quote_amount_out_without_lp_fee; se_user_quote_amount_out := user_quote_amount_out;
    se_pool := pool; se_user := user; se_user_base_token_account :=
    user_base_token_account; se_user_quote_token_account := user_quote_token_account;
    se_protocol_fee_recipient := protocol_fee_recipient;
    se_protocol_fee_recipient_token_account := protocol_fee_recipient_token_account;
    se_coin_creator := coin_creator; se_coin_creator_fee_basis_points :=
    coin_creator_fee_basis_points; se_coin_creator_fee_amount := coin_creator_fee_amount;
    se_cashback_fee_basis_points := cashback_fee_basis_points; se_cashback_amount :=
    cashback_amount; se_buyback_fee_basis_points := buyback_fee_basis_points;
    se_buyback_fee_amount := buyback_fee_amount; se_virtual_quote_reserves :=
    virtual_quote_reserves; se_can_boost := can_boost; se_base_supply := base_supply |}.

Definition decode_pump_swap_deposit : Reader B64 PumpSwapDepositEvent :=
  timestamp ← read_i64 "timestamp";
  lp_token_amount_out ← read_u64 "lp_token_amount_out";
  max_base_amount_in ← read_u64 "max_base_amount_in";
  max_quote_amount_in ← read_u64 "max_quote_amount_in";
  user_base_token_reserves ← read_u64 "user_base_token_reserves";
  user_quote_token_reserves ← read_u64 "user_quote_token_reserves";
  pool_base_token_reserves ← read_u64 "pool_base_token_reserves";
  pool_quote_token_reserves ← read_u64 "pool_quote_token_reserves";
  base_amount_in ← read_u64 "base_amount_in";
  quote_amount_in ← read_u64 "quote_amount_in";
  lp_mint_supply ← read_u64 "lp_mint_supply";
  pool ← read_pubkey "pool";
  user ← read_pubkey "user";
  user_base_token_account ← read_pubkey "user_base_token_account";
  user_quote_token_account ← read_pubkey "user_quote_token_account";
  user_pool_token_account ← read_pubkey "user_pool_token_account";
  mret {| de_timestamp := timestamp; de_lp_token_amount_out := lp_token_amount_out;
    de_max_base_amount_in := max_base_amount_in; de_max_quote_amount_in :=
    max_quote_amount_in; de_user_base_token_reserves := user_base_token_reserves;
    de_user_quote_token_reserves := user_quote_token_reserves; de_pool_base_token_reserves
    := pool_base_token_reserves; de_pool_quote_token_reserves :=
    pool_quote_token_reserves; de_base_amount_in := base_amount_in; de_quote_amount_in :=
    quote_amount_in; de_lp_mint_supply := lp_mint_supply; de_pool := pool; de_user :=
    user; de_user_base_token_account := user_base_token_account;
    de_user_quote_token_account := user_quote_token_account; de_user_pool_token_account :=
    user_pool_token_account |}.

Definition decode_pump_swap_withdraw : Reader B64 PumpSwapWithdrawEvent :=
  timestamp ← read_i64 "timestamp";
  lp_token_amount_in ← read_u64 "lp_token_amount_in";
  min_base_amount_out ← read_u64 "min_base_amount_out";
  min_quote_amount_out ← read_u64 "min_quote_amount_out";
  user_base_token_reserves ← read_u64 "user_base_token_reserves";
  user_quote_token_reserves ← read_u64 "user_quote_token_reserves";
  pool_base_token_reserves ← read_u64 "pool_base_token_reserves";
  pool_quote_token_reserves ← read_u64 "pool_quote_token_reserves";
  base_amount_out ← read_u64 "base_amount_out";
  quote_amount_out ← read_u64 "quote_amount_out";
  lp_mint_supply ← read_u64 "lp_mint_supply";
  pool ← read_pubkey "pool";
  user ← read_pubkey "user";
  user_base_token_account ← read_pubkey "user_base_token_account";
  user_quote_token_account ← read_pubkey "user_quote_token_account";
  user_pool_token_account ← read_pubkey "user_pool_token_account";
  mret {| we_timestamp := timestamp; we_lp_token_amount_in := lp_token_amount_in;
    we_min_base_amount_out := min_base_amount_out; we_min_quote_amount_out :=
    min_quote_amount_out; we_user_base_token_reserves := user_base_token_reserves;
    we_user_quote_token_reserves := user_quote_token_reserves; we_pool_base_token_reserves
    := pool_base_token_reserves; we_pool_quote_token_reserves :=
    pool_quote_token_reserves; we_base_amount_out := base_amount_out; we_quote_amount_out
    := quote_amount_out; we_lp_mint_supply := lp_mint_supply; we_pool := pool; we_user :=
    user; we_user_base_token_account := user_base_token_account;
    we_user_quote_token_account := user_quote_token_account; we_user_pool_token_account :=
    user_pool_token_account |}.

(** ** IDL field tables *)
Definition is_buy_of (d : TradeDirection) : bool :=
  match d with DirBuy => true | DirSell => false end.

Definition create_layout (e : PumpCreateEvent) : list field :=
  [FString MAX_NAME_BYTES (ce_name e); FString MAX_SYMBOL_BYTES (ce_symbol e); FString
   MAX_URI_BYTES (ce_uri e); FPubkey (ce_mint e); FPubkey (ce_bonding_curve e); FPubkey
   (ce_user e); FPubkey (ce_creator e); FI64 (ce_timestamp e); FU64
   (ce_virtual_token_reserves e); FU64 (ce_virtual_sol_reserves e); FU64
   (ce_real_token_reserves e); FU64 (ce_token_total_supply e); FPubkey (ce_token_program
   e); FBool (ce_is_mayhem_mode e); FBool (ce_is_cashback_enabled e); FPubkey
   (ce_quote_mint e); FU64 (ce_virtual_quote_reserves e)].

Definition trade_layout (e : PumpTradeEvent) : list field :=
  [FPubkey (te_mint e); FU64 (te_legacy_sol_amount e); FU64 (te_token_amount e); FBool
   (is_buy_of (te_direction e)); FPubkey (te_user e); FI64 (te_timestamp e); FU64
   (te_virtual_sol_reserves e); FU64 (te_virtual_token_reserves e); FU64
   (te_real_sol_reserves e); FU64 (te_real_token_reserves e); FPubkey (te_fee_recipient
   e); FU64 (te_fee_basis_points e); FU64 (te_fee_amount e); FPubkey (te_creator e); FU64
   (te_creator_fee_basis_points e); FU64 (te_creator_fee_amount e); FBool (te_track_volume
   e); FU64 (te_total_unclaimed_tokens e); FU64 (te_total_claimed_tokens e); FU64
   (te_current_sol_volume e); FI64 (te_last_update_timestamp e); FString
   MAX_INSTRUCTION_NAME_BYTES (te_instruction_name e); FBool (te_mayhem_mode e); FU64
   (te_cashback_fee_basis_points e); FU64 (te_cashback_amount e); FU64
   (te_buyback_fee_basis_points e); FU64 (te_buyback_fee_amount e); FShareholders
   (te_shareholders e); FPubkey (te_quote_mint e); FU64 (te_quote_amount e); FU64
   (te_virtual_quote_reserves e); FU64 (te_real_quote_reserves e)].

Definition complete_layout (e : PumpCompleteEvent) : list field :=
  [FPubkey (co_user e); FPubkey (co_mint e); FPubkey (co_bonding_curve e); FI64
   (co_timestamp e); FPubkey (co_quote_mint e)].

Definition migration_layout (e : PumpMigrationEvent) : list field :=
  [FPubkey (me_user e); FPubkey (me_mint e); FU64 (me_mint_amount e); FU64
   (me_legacy_sol_amount e); FU64 (me_pool_migration_fee e); FPubkey (me_bonding_curve e);
   FI64 (me_timestamp e); FPubkey (me_pool e); FPubkey (me_quote_mint e)].

Definition swap_create_pool_layout (e : PumpSwapCreatePoolEvent) : list field :=
  [FI64 (cp_timestamp e); FU16 (cp_index e); FPubkey (cp_creator e); FPubkey (cp_base_mint
   e); FPubkey (cp_quote_mint e); FU8 (cp_base_mint_decimals e); FU8
   (cp_quote_mint_decimals e); FU64 (cp_base_amount_in e); FU64 (cp_quote_amount_in e);
   FU64 (cp_pool_base_amount e); FU64 (cp_pool_quote_amount e); FU64 (cp_minimum_liquidity
   e); FU64 (cp_initial_liquidity e); FU64 (cp_lp_token_amount_out e); FU8 (cp_pool_bump
   e); FPubkey (cp_pool e); FPubkey (cp_lp_mint e); FPubkey (cp_user_base_token_account
   e); FPubkey (cp_user_quote_token_account e); FPubkey (cp_coin_creator e); FBool
   (cp_is_mayhem_mode e)].

Definition swap_buy_layout (e : PumpSwapBuyEvent) : list field :=
  [FI64 (be_timestamp e); FU64 (be_base_amount_out e); FU64 (be_max_quote_amount_in e);
   FU64 (be_user_base_token_reserves e); FU64 (be_user_quote_token_reserves e); FU64
   (be_pool_base_token_reserves e); FU64 (be_pool_quote_token_reserves e); FU64
   (be_quote_amount_in e); FU64 (be_lp_fee_basis_points e); FU64 (be_lp_fee_amount e);
   FU64 (be_protocol_fee_basis_points e); FU64 (be_protocol_fee_amount e); FU64
   (be_quote_amount_in_with_lp_fee e); FU64 (be_user_quote_amount_in e); FPubkey (be_pool
   e); FPubkey (be_user e); FPubkey (be_user_base_token_account e); FPubkey
   (be_user_quote_token_account e); FPubkey (be_protocol_fee_recipient e); FPubkey
   (be_protocol_fee_recipient_token_account e); FPubkey (be_coin_creator e); FU64
   (be_coin_creator_fee_basis_points e); FU64 (be_coin_creator_fee_amount e); FBool
   (be_track_volume e); FU64 (be_total_unclaimed_tokens e); FU64 (be_total_claimed_tokens
   e); FU64 (be_current_sol_volume e); FI64 (be_last_update_timestamp e); FU64
   (be_min_base_amount_out e); FString MAX_INSTRUCTION_NAME_BYTES (be_instruction_name e);
   FU64 (be_cashback_fee_basis_points e); FU64 (be_cashback_amount e); FU64
   (be_buyback_fee_basis_points e); FU64 (be_buyback_fee_amount e); FI128
   (be_virtual_quote_reserves e); FBool (be_can_boost e); FU64 (be_base_supply e)].

Definition swap_sell_layout (e : PumpSwapSellEvent) : list field :=
  [FI64 (se_timestamp e); FU64 (se_base_amount_in e); FU64 (se_min_quote_amount_out e);
   FU64 (se_user_base_token_reserves e); FU64 (se_user_quote_token_reserves e); FU64
   (se_pool_base_token_reserves e); FU64 (se_pool_quote_token_reserves e); FU64
   (se_quote_amount_out e); FU64 (se_lp_fee_basis_points e); FU64 (se_lp_fee_amount e);
   FU64 (se_protocol_fee_basis_points e); FU64 (se_protocol_fee_amount e); FU64
   (se_quote_amount_out_without_lp_fee e); FU64 (se_user_quote_amount_out e); FPubkey
   (se_pool e); FPubkey (se_user e); FPubkey (se_user_base_token_account e); FPubkey
   (se_user_quote_token_account e); FPubkey (se_protocol_fee_recipient e); FPubkey
   (se_protocol_fee_recipient_token_account e); FPubkey (se_coin_creator e); FU64
   (se_coin_creator_fee_basis_points e); FU64 (se_coin_creator_fee_amount e); FU64
   (se_cashback_fee_basis_points e); FU64 (se_cashback_amount e); FU64
   (se_buyback_fee_basis_points e); FU64 (se_buyback_fee_amount e); FI128
   (se_virtual_quote_reserves e); FBool (se_can_boost e); FU64 (se_base_supply e)].

Definition swap_deposit_layout (e : PumpSwapDepositEvent) : list field :=
  [FI64 (de_timestamp e); FU64 (de_lp_token_amount_out e); FU64 (de_max_base_amount_in e);
   FU64 (de_max_quote_amount_in e); FU64 (de_user_base_token_reserves e); FU64
   (de_user_quote_token_reserves e); FU64 (de_pool_base_token_reserves e); FU64
   (de_pool_quote_token_reserves e); FU64 (de_base_amount_in e); FU64 (de_quote_amount_in
   e); FU64 (de_lp_mint_supply e); FPubkey (de_pool e); FPubkey (de_user e); FPubkey
   (de_user_base_token_account e); FPubkey (de_user_quote_token_account e); FPubkey
   (de_user_pool_token_account e)].

Definition swap_withdraw_layout (e : PumpSwapWithdrawEvent) : list field :=
  [FI64 (we_timestamp e); FU64 (we_lp_token_amount_in e); FU64 (we_min_base_amount_out e);
   FU64 (we_min_quote_amount_out e); FU64 (we_user_base_token_reserves e); FU64
   (we_user_quote_token_reserves e); FU64 (we_pool_base_token_reserves e); FU64
   (we_pool_quote_token_reserves e); FU64 (we_base_amount_out e); FU64
   (we_quote_amount_out e); FU64 (we_lp_mint_supply e); FPubkey (we_pool e); FPubkey
   (we_user e); FPubkey (we_user_base_token_account e); FPubkey
   (we_user_quote_token_account e); FPubkey (we_user_pool_token_account e)].

Lemma is_buy_of_if (b : bool) : is_buy_of (if b then DirBuy else DirSell) = b.
Proof. by destruct b. Qed.
Lemma if_is_buy_of d : (if is_buy_of d then DirBuy else DirSell) = d.
Proof. by destruct d. Qed.
#[local] Hint Rewrite is_buy_of_if if_is_buy_of : layout.

Lemma decodes_create : decodes decode_pump_create (fun e fs => fs = create_layout e).
Proof. unfold decode_pump_create, create_layout. decode_layout. Qed.

Lemma decodes_trade : decodes decode_pump_trade (fun e fs => fs = trade_layout e).
Proof. unfold decode_pump_trade, trade_layout. decode_layout. Qed.

Lemma decodes_complete : decodes decode_pump_complete (fun e fs => fs = complete_layout e).
Proof. unfold decode_pump_complete, complete_layout. decode_layout. Qed.

Lemma decodes_migration : decodes decode_pump_migration (fun e fs => fs = migration_layout e).
Proof. unfold decode_pump_migration, migration_layout. decode_layout. Qed.

Lemma decodes_swap_create_pool : decodes decode_pump_swap_create_pool (fun e fs => fs = swap_create_pool_layout e).
Proof. unfold decode_pump_swap_create_pool, swap_create_pool_layout. decode_layout. Qed.

Lemma decodes_swap_buy : decodes decode_pump_swap_buy (fun e fs => fs = swap_buy_layout e).
Proof. unfold decode_pump_swap_buy, swap_buy_layout. decode_layout. Qed.

Lemma decodes_swap_sell : decodes decode_pump_swap_sell (fun e fs => fs = swap_sell_layout e).
Proof. unfold decode_pump_swap_sell, swap_sell_layout. decode_layout. Qed.

Lemma decodes_swap_deposit : decodes decode_pump_swap_deposit (fun e fs => fs = swap_deposit_layout e).
Proof. unfold decode_pump_swap_deposit, swap_deposit_layout. decode_layout. Qed.

Lemma decodes_swap_withdraw : decodes decode_pump_swap_withdraw (fun e fs => fs = swap_withdraw_layout e).
Proof. unfold decode_pump_swap_withdraw, swap_withdraw_layout. decode_layout. Qed.

(** ** Entry points *)
Fixpoint strip_prefix_bytes (p l : list byte) : option (list byte) :=
  match p, l with
  | [], _ => Some l
  | a :: p', b :: l' => if bool_decide (a = b) then strip_prefix_bytes p' l' else None
  | _ :: _, [] => None
  end.

Definition is_anchor_event_cpi (data : list byte) : bool :=
  match strip_prefix_bytes ANCHOR_EVENT_CPI_DISCRIMINATOR data with
  | Some _ => true
  | None => false
  end.

(** The [match (program, discriminator)] of [decode_anchor_event]. *)
Definition decode_event (program : PumpProgram) (discriminator : list byte) : Reader B64 PumpEvent :=
  let matches d := bool_decide (discriminator = d) in
  match program with
  | PumpP =>
      if matches CREATE_EVENT_DISCRIMINATOR then e ← decode_pump_create; mret (EvCreate e)
      else if matches TRADE_EVENT_DISCRIMINATOR then e ← decode_pump_trade; mret (EvTrade e)
      else if matches COMPLETE_EVENT_DISCRIMINATOR then
        e ← decode_pump_complete; mret (EvComplete e)
      else if matches COMPLETE_PUMP_AMM_MIGRATION_EVENT_DISCRIMINATOR then
        e ← decode_pump_migration; mret (EvCompletePumpAmmMigration e)
      else reader_fail (UnknownDiscriminator program discriminator)
  | PumpSwapP =>
      if matches CREATE_POOL_EVENT_DISCRIMINATOR then
        e ← decode_pump_swap_create_pool; mret (EvPumpSwapCreatePool e)
      else if matches PUMP_SWAP_BUY_EVENT_DISCRIMINATOR then
        e ← decode_pump_swap_buy; mret (EvPumpSwapBuy e)
      else if matches PUMP_SWAP_SELL_EVENT_DISCRIMINATOR then
        e ← decode_pump_swap_sell; mret (EvPumpSwapSell e)
      else if matches PUMP_SWAP_DEPOSIT_EVENT_DISCRIMINATOR then
        e ← decode_pump_swap_deposit; mret (EvPumpSwapDeposit e)
      else if matches PUMP_SWAP_WITHDRAW_EVENT_DISCRIMINATOR then
        e ← decode_pump_swap_withdraw; mret (EvPumpSwapWithdraw e)
      else reader_fail (UnknownDiscriminator program discriminator)
  end.

Definition decode_anchor_event (program_id : string) (coordinate : ChainCoordinate)
    (data : list byte) : result (DecodeError B64) DecodedPumpEvent :=
  program ← ok_or (supported_program program_id) (UnsupportedProgram program_id);
  if is_empty (signature coordinate) then Err EmptySignature else
  let event_data := default data (strip_prefix_bytes ANCHOR_EVENT_CPI_DISCRIMINATOR data) in
  if (length event_data <? 8)%nat then Err MissingDiscriminator else
  let discriminator := firstn 8 event_data in
  let reader := reader_new (drop 8 event_data) in
  '(event, reader) ← decode_event program discriminator reader;
  _ ← finish reader;
  Ok {| dp_program := program; dp_coordinate := coordinate; dp_event := event |}.

Definition decode_cpi_event (program_id : string) (coordinate : ChainCoordinate)
    (data : list byte) : result (DecodeError B64) DecodedPumpEvent :=
  if negb (is_anchor_event_cpi data) then Err MissingCpiDiscriminator
  else decode_anchor_event program_id coordinate data.

Definition PROGRAM_DATA_PREFIX : string := "Program data: ".

Definition decode_program_data_bytes (log : string) : result (DecodeError B64) (list byte) :=
  encoded ← ok_or (strip_prefix PROGRAM_DATA_PREFIX log) InvalidProgramDataLog;
  map_err InvalidBase64 (base64_decode encoded).

Definition decode_program_data_log (program_id : string) (coordinate : ChainCoordinate)
    (log : string) : result (DecodeError B64) DecodedPumpEvent :=
  data ← decode_program_data_bytes log;
  decode_anchor_event program_id coordinate data.

(** The coordinate of the [event_index]-th event of one instruction. *)
Definition event_coordinate (slot_ : Z) (sig : string) (instruction event : Z)
    : ChainCoordinate :=
  {| slot := slot_; transaction_index := None; signature := sig;
     instruction_index := instruction; event_index := event |}.

Fixpoint decode_instruction_events_from (program_id : string) (slot_ : Z) (sig : string)
    (instruction : Z) (n : nat) (payloads : list (list byte))
    : result (DecodeError B64) (list DecodedPumpEvent) :=
  match payloads with
  | [] => Ok []
  | payload :: rest =>
      event ← ok_or (try_from_u 16 (Z.of_nat n)) (TooManyEvents u16_max);
      d ← decode_anchor_event program_id (event_coordinate slot_ sig instruction event) payload;
      ds ← decode_instruction_events_from program_id slot_ sig instruction (S n) rest;
      Ok (d :: ds)
  end.
Definition decode_instruction_events program_id slot_ sig instruction payloads :=
  decode_instruction_events_from program_id slot_ sig instruction 0 payloads.

(** The loop of [decode_instruction_program_data_logs]: [events] is the vector
    built so far. *)
Fixpoint decode_program_data_logs_from (program_id : string) (slot_ : Z) (sig : string)
    (instruction : Z) (events : list DecodedPumpEvent) (logs : list string)
    : result (DecodeError B64) (list DecodedPumpEvent) :=
  match logs with
  | [] => Ok events
  | log :: rest =>
      if negb (starts_with PROGRAM_DATA_PREFIX log) then
        decode_program_data_logs_from program_id slot_ sig instruction events rest
      else
        event ← ok_or (try_from_u 16 (Z.of_nat (length events))) (TooManyEvents u16_max);
        d ← decode_program_data_log program_id (event_coordinate slot_ sig instruction event) log;
        decode_program_data_logs_from program_id slot_ sig instruction (events ++ [d]) rest
  end.
Definition decode_instruction_program_data_logs program_id slot_ sig instruction logs :=
  decode_program_data_logs_from program_id slot_ sig instruction [] logs.

End Decoder.
