(* ===== verification/PumpWire.v ===== *)
(** The wire format [decoder.rs] accepts: which byte payloads decode to which
    events, and how the logs of one instruction become an indexed sequence of
    events. *)
From S2P Require Import Prelude.
From S2P Require Import RustStr.
From S2P Require Import Domain.
From S2P Require Import Base58.
From S2P Require Import External.
From S2P Require Import PumpModel.
From S2P Require Import BorshReader.
From S2P Require Import PumpDecoder.

(** ** The payload of an event *)
Definition event_program (e : PumpEvent) : PumpProgram :=
  match e with
  | EvCreate _ | EvTrade _ | EvComplete _ | EvCompletePumpAmmMigration _ => PumpP
  | _ => PumpSwapP
  end.

Definition event_discriminator (e : PumpEvent) : list byte :=
  match e with
  | EvCreate _ => CREATE_EVENT_DISCRIMINATOR
  | EvTrade _ => TRADE_EVENT_DISCRIMINATOR
  | EvComplete _ => COMPLETE_EVENT_DISCRIMINATOR
  | EvCompletePumpAmmMigration _ => COMPLETE_PUMP_AMM_MIGRATION_EVENT_DISCRIMINATOR
  | EvPumpSwapCreatePool _ => CREATE_POOL_EVENT_DISCRIMINATOR
  | EvPumpSwapBuy _ => PUMP_SWAP_BUY_EVENT_DISCRIMINATOR
  | EvPumpSwapSell _ => PUMP_SWAP_SELL_EVENT_DISCRIMINATOR
  | EvPumpSwapDeposit _ => PUMP_SWAP_DEPOSIT_EVENT_DISCRIMINATOR
  | EvPumpSwapWithdraw _ => PUMP_SWAP_WITHDRAW_EVENT_DISCRIMINATOR
  end.

Definition event_layout (e : PumpEvent) : list field :=
  match e with
  | EvCreate e => create_layout e
  | EvTrade e => trade_layout e
  | EvComplete e => complete_layout e
  | EvCompletePumpAmmMigration e => migration_layout e
  | EvPumpSwapCreatePool e => swap_create_pool_layout e
  | EvPumpSwapBuy e => swap_buy_layout e
  | EvPumpSwapSell e => swap_sell_layout e
  | EvPumpSwapDeposit e => swap_deposit_layout e
  | EvPumpSwapWithdraw e => swap_withdraw_layout e
  end.

(** [payload] is the discriminator of [e] followed by its encoded fields. *)
Definition encodes_event (e : PumpEvent) (payload : list byte) : Prop :=
  exists body, enc_fields (event_layout e) body /\ payload = event_discriminator e ++ body.

Lemma encodes_event_fun e p1 p2 : encodes_event e p1 -> encodes_event e p2 -> p1 = p2.
Proof.
  intros (b1 & H1 & ->) (b2 & H2 & ->). by rewrite (enc_fields_fun _ _ _ H1 H2).
Qed.

Lemma strip_prefix_bytes_Some p l r : strip_prefix_bytes p l = Some r <-> l = p ++ r.
Proof.
  revert l. induction p as [|a p IH]; intros l; simpl.
  { split; [by intros [= ->]|by intros ->]. }
  destruct l as [|b l]; [done|]. case_bool_decide as Hab.
  - subst. rewrite IH. split; [by intros ->|by intros [= ->]].
  - split; [done|]. by intros [= -> ->].
Qed.

Lemma length_event_discriminator e : length (event_discriminator e) = 8%nat.
Proof. by destruct e. Qed.

(** No event payload can be mistaken for one with the CPI envelope. *)
Lemma event_payload_not_cpi e body :
  strip_prefix_bytes ANCHOR_EVENT_CPI_DISCRIMINATOR (event_discriminator e ++ body) = None.
Proof. by destruct e. Qed.

Section Wire.
Context {B64 : Base64}.
Implicit Types (r : BorshReader) (d : DecodedPumpEvent).

Lemma decodes_fmap_inv {A} (p : Reader B64 A) (mk : A -> PumpEvent) (lay : A -> list field) :
  decodes p (fun a fs => fs = lay a) ->
  decodes (a ← p; mret (mk a)) (fun e fs => exists a, e = mk a /\ fs = lay a).
Proof.
  intros Hp. eapply parses_iff; [|apply parses_bind; [apply Hp|intros; apply parses_ret]].
  intros e bs; cbv beta. split.
  - intros (a & b1 & b2 & (fs & -> & Hfs) & [-> ->] & ->). rewrite app_nil_r. eauto.
  - intros (fs & (a & -> & ->) & Hfs). exists a, bs, []. rewrite app_nil_r. eauto 10.
Qed.

Lemma decodes_event program disc :
  decodes (decode_event program disc)
    (fun e fs => event_program e = program /\ event_discriminator e = disc /\
                 fs = event_layout e).
Proof.
  unfold decode_event. destruct program;
  repeat match goal with
  | |- decodes (if bool_decide ?P then _ else _) _ => destruct (bool_decide_reflect P) as [->|?]
  | |- decodes (reader_fail _) _ =>
      eapply parses_iff; [|apply parses_fail]; intros e bs; cbv beta; split; [done|];
      intros (fs & (? & ? & ?) & ?); destruct e; simpl in *; congruence
  | |- decodes (_ ← _; mret (?mk _)) _ =>
      eapply decodes_iff;
      [|apply (decodes_fmap_inv _ mk); first
          [ apply decodes_create | apply decodes_trade | apply decodes_complete
          | apply decodes_migration | apply decodes_swap_create_pool
          | apply decodes_swap_buy | apply decodes_swap_sell
          | apply decodes_swap_deposit | apply decodes_swap_withdraw ]];
      intros e fs; cbv beta; split;
      [intros (a & -> & ->); done
      |intros (? & Hd & ->); destruct e; try discriminate; eauto]
  end.
Qed.

Lemma finish_Ok r u : finish (B64:=B64) r = Ok u <-> (length (rd_data r) <= rd_position r)%nat.
Proof.
  unfold finish. destruct (Nat.eqb_spec (length (rd_data r) - rd_position r) 0) as [E|E]; destruct u.
  - split; [lia|done].
  - split; [done|lia].
Qed.

(** A whole payload: the discriminator selects the reader, which must consume
    exactly the rest. *)
Lemma decode_payload_iff program payload e :
  (8 <= length payload)%nat ->
  (exists r', decode_event (B64:=B64) program (firstn 8 payload) (reader_new (drop 8 payload))
                = Ok (e, r') /\ (length (rd_data r') <= rd_position r')%nat) <->
  event_program e = program /\ encodes_event e payload.
Proof.
  intros Hlen. assert (rd_wf (reader_new (drop 8 payload))) as Hwf by (unfold rd_wf; simpl; lia).
  assert (rd_rest (reader_new (drop 8 payload)) = drop 8 payload) as Hrest by done.
  split.
  - intros (r' & Hr & Hfin). apply (decodes_event program _ _ Hwf) in Hr
      as (bs & tail & (fs & (Hp & Hd & ->) & Henc) & Hbs & ->).
    rewrite Hrest in Hbs. simpl in Hfin.
    rewrite Hbs, length_app in Hfin. destruct tail; [|simpl in Hfin; lia].
    rewrite app_nil_r in Hbs. split; [done|]. exists bs. split; [done|].
    by rewrite <- Hbs, Hd, firstn_skipn.
  - intros (Hp & body & Henc & ->). pose proof (length_event_discriminator e) as Hl.
    eexists. split.
    + apply (decodes_event program _ _ Hwf). exists body, []. split_and!; [|by rewrite Hrest, drop_app_length', app_nil_r|done].
      exists (event_layout e). rewrite take_app_length' by done. done.
    + simpl. rewrite drop_app_length' by done. lia.
Qed.

Lemma anchor_event_spec program_id coordinate data d :
  decode_anchor_event program_id coordinate data = Ok (E:=DecodeError B64) d <->
  program_id = pump_program_id (dp_program d) /\
  signature coordinate <> ""%string /\
  dp_coordinate d = coordinate /\
  event_program (dp_event d) = dp_program d /\
  exists payload, encodes_event (dp_event d) payload /\
    (data = payload \/ data = ANCHOR_EVENT_CPI_DISCRIMINATOR ++ payload).
Proof.
  unfold decode_anchor_event. set (stripped := default data _).
  assert (forall e payload, encodes_event e payload ->
            (data = payload \/ data = ANCHOR_EVENT_CPI_DISCRIMINATOR ++ payload) ->
            stripped = payload) as Hst.
  { intros e payload (body & _ & ->) [Hd | Hd]; subst stripped; rewrite Hd.
    - by rewrite event_payload_not_cpi.
    - by rewrite (proj2 (strip_prefix_bytes_Some _ _ _) eq_refl). }
  assert (data = stripped \/ data = ANCHOR_EVENT_CPI_DISCRIMINATOR ++ stripped) as Hdata.
  { subst stripped. destruct (strip_prefix_bytes _ data) as [l|] eqn:E; [|by left].
    apply strip_prefix_bytes_Some in E. by right. }
  clearbody stripped. split.
  - intros H. simp_ok. match goal with H : supported_program _ = _ |- _ =>
      apply supported_program_Some in H end.
    destruct (length stripped <? 8)%nat eqn:Hlen; [done|].
    apply Nat.ltb_ge in Hlen. simp_ok. destruct x0 as [e r']. simp_ok. subst. simpl.
    match goal with H : finish _ = _ |- _ => apply finish_Ok in H end.
    destruct (proj1 (decode_payload_iff x stripped e Hlen)) as [Hp He]; [eauto|].
    split_and!; eauto. intros Hs. by rewrite Hs in *.
  - destruct d as [program c e]; simpl. intros (-> & Hs & -> & Hp & payload & He & Hd).
    rewrite (proj2 (supported_program_Some _ _) eq_refl). simpl.
    rewrite <- (Hst e payload) in He by done.
    destruct (is_empty (signature coordinate)) eqn:Hemp.
    { destruct (signature coordinate); done. }
    assert (8 <= length stripped)%nat as Hlen.
    { destruct He as (body & _ & ->). rewrite length_app, length_event_discriminator. lia. }
    rewrite (proj2 (Nat.ltb_ge _ _) Hlen).
    destruct (proj2 (decode_payload_iff program stripped e Hlen)) as (r' & -> & Hf); [done|].
    simpl. by rewrite (proj2 (finish_Ok r' tt) Hf).
Qed.

(** C26: the event decoder accepts exactly the wire format.  A payload decodes
    to [d] if and only if the program id is the one of the two supported
    programs that owns the event, the signature is not empty, the coordinate is
    passed through, and the bytes are the event's discriminator followed by its
    Borsh-encoded fields and nothing else, with or without the Anchor CPI
    envelope. *)
Theorem decode_anchor_event_iff program_id coordinate data d :
  decode_anchor_event program_id coordinate data = Ok (E:=DecodeError B64) d <->
  program_id = pump_program_id (dp_program d) /\
  signature coordinate <> ""%string /\
  dp_coordinate d = coordinate /\
  event_program (dp_event d) = dp_program d /\
  exists payload, encodes_event (dp_event d) payload /\
    (data = payload \/ data = ANCHOR_EVENT_CPI_DISCRIMINATOR ++ payload).
Proof. apply anchor_event_spec. Qed.

(** decoding loses nothing: two payloads that decode to the same event
    differ at most in the CPI envelope. *)
Theorem decode_anchor_event_injective pid1 pid2 c1 c2 data1 data2 d :
  decode_anchor_event pid1 c1 data1 = Ok (E:=DecodeError B64) d ->
  decode_anchor_event pid2 c2 data2 = Ok (E:=DecodeError B64) d ->
  is_anchor_event_cpi data1 = is_anchor_event_cpi data2 ->
  data1 = data2 /\ pid1 = pid2 /\ c1 = c2.
Proof.
  intros (-> & _ & <- & _ & p1 & H1 & D1)%anchor_event_spec
         (-> & _ & <- & _ & p2 & H2 & D2)%anchor_event_spec Hcpi.
  rewrite <- (encodes_event_fun _ _ _ H1 H2) in D2. split_and!; [|done|done].
  destruct H1 as (body & _ & ->). unfold is_anchor_event_cpi in Hcpi.
  destruct D1 as [-> | ->], D2 as [-> | ->]; try done;
    rewrite event_payload_not_cpi, (proj2 (strip_prefix_bytes_Some _ _ _) eq_refl) in Hcpi; done.
Qed.

(** ** The logs of one instruction *)
Implicit Types (logs : list string) (ds : list DecodedPumpEvent).

(** The events of the [Program data:] logs, each decoded at its own index. *)
Definition indexed_events program_id slot_ sig instruction (k : nat) logs ds : Prop :=
  Forall2 (fun '(n, log) d =>
      decode_program_data_log program_id (event_coordinate slot_ sig instruction (Z.of_nat n)) log
        = Ok (E:=DecodeError B64) d)
    (zip (seq k (length logs)) logs) ds.

Lemma decode_program_data_logs_from_spec program_id slot_ sig instruction logs events ds :
  (Z.of_nat (length events) <= 65536) ->
  decode_program_data_logs_from program_id slot_ sig instruction events logs
    = Ok (E:=DecodeError B64) ds <->
  exists new, ds = events ++ new /\ Z.of_nat (length ds) <= 65536 /\
    indexed_events program_id slot_ sig instruction (length events)
      (List.filter (starts_with PROGRAM_DATA_PREFIX) logs) new.
Proof.
  revert events. induction logs as [|log logs IH]; intros events Hev; simpl.
  { unfold indexed_events. simpl. split.
    - intros [= <-]. exists []. rewrite app_nil_r. auto.
    - intros (new & -> & _ & Hnew). inversion Hnew. by rewrite app_nil_r. }
  destruct (starts_with PROGRAM_DATA_PREFIX log) eqn:Hlog; simpl; [|by apply IH].
  rewrite bind_Ok. setoid_rewrite ok_or_Ok. split.
  - intros (ev & [-> Hin]%try_from_u_Some & H).
    apply bind_Ok in H as (d & Hd & H). unfold in_uint in Hin. change u16_max with 65535 in Hin.
    apply IH in H as (new & -> & Hlen & Hnew);
      [|rewrite length_app; simpl; lia].
    exists (d :: new). rewrite <- app_assoc in *. split_and!; [done|done|].
    unfold indexed_events in *. simpl. constructor; [done|].
    rewrite length_app, Nat.add_comm in Hnew. done.
  - intros (new & -> & Hlen & Hnew). unfold indexed_events in Hnew. simpl in Hnew.
    inversion Hnew as [|? d ? new' Hd Hrest]; subst. rewrite length_app in Hlen. simpl in Hlen.
    exists (Z.of_nat (length events)). split.
    { apply try_from_u_Some. split; [done|]. unfold in_uint. change u16_max with 65535. lia. }
    rewrite Hd. simpl. apply IH; [rewrite length_app; simpl; lia|].
    exists new'. rewrite <- app_assoc. split_and!; [done|rewrite !length_app; simpl; lia|].
    unfold indexed_events. by rewrite length_app, Nat.add_comm.
Qed.

Lemma decode_program_data_log_coordinate program_id c log d :
  decode_program_data_log program_id c log = Ok (E:=DecodeError B64) d -> dp_coordinate d = c.
Proof.
  unfold decode_program_data_log. intros H. simp_ok.
  apply anchor_event_spec in H. naive_solver.
Qed.

(** the logs of one instruction decode all or nothing, in order: the
    result has one event per [Program data:] log, the [n]-th decoded from the
    [n]-th such log with event index [n]; other logs are skipped, a malformed
    one fails the instruction, and so does a 65537th event. *)
Theorem instruction_logs_decode_in_order program_id slot_ sig instruction logs ds :
  decode_instruction_program_data_logs program_id slot_ sig instruction logs
    = Ok (E:=DecodeError B64) ds <->
  let data_logs := List.filter (starts_with PROGRAM_DATA_PREFIX) logs in
  Z.of_nat (length data_logs) <= 65536 /\
  Forall2 (fun '(n, log) d =>
      decode_program_data_log program_id (event_coordinate slot_ sig instruction (Z.of_nat n)) log
        = Ok d)
    (zip (seq 0 (length data_logs)) data_logs) ds.
Proof.
  unfold decode_instruction_program_data_logs.
  rewrite decode_program_data_logs_from_spec by (simpl; lia). simpl. unfold indexed_events.
  set (dl := List.filter _ logs).
  assert (forall new, Forall2 (fun '(n, log) d =>
      decode_program_data_log program_id (event_coordinate slot_ sig instruction (Z.of_nat n)) log
        = Ok (E:=DecodeError B64) d) (zip (seq 0 (length dl)) dl) new -> length dl = length new) as Hl.
  { intros new H%Forall2_length. rewrite length_zip_with, length_seq in H. lia. }
  split.
  - intros (new & -> & Hlen & H). rewrite <- (Hl _ H) in Hlen. split; [lia|done].
  - intros [Hlen H]. exists ds. rewrite <- (Hl _ H). split_and!; [done|lia|done].
Qed.

(** the events of one instruction get the indices 0, 1, 2, ... in order, so
    their coordinates never collide. *)
Theorem instruction_event_indices program_id slot_ sig instruction logs ds :
  decode_instruction_program_data_logs program_id slot_ sig instruction logs
    = Ok (E:=DecodeError B64) ds ->
  dp_coordinate <$> ds =
    (fun n => event_coordinate slot_ sig instruction (Z.of_nat n)) <$> seq 0 (length ds) /\
  NoDup (dp_coordinate <$> ds).
Proof.
  intros (new & -> & Hlen & H)%decode_program_data_logs_from_spec; [|simpl; lia].
  simpl in *. assert (dp_coordinate <$> new =
    (fun n => event_coordinate slot_ sig instruction (Z.of_nat n)) <$> seq 0 (length new)) as E.
  { unfold indexed_events in H. revert H. generalize 0%nat.
    generalize (List.filter (starts_with PROGRAM_DATA_PREFIX) logs). clear Hlen.
    induction new as [|d new IH]; intros [|l logs'] k H; inversion H; subst; simpl; [done|].
    f_equal; [by eapply decode_program_data_log_coordinate|by apply IH with logs']. }
  split; [done|]. rewrite E. apply NoDup_fmap_2_strong; [|apply NoDup_seq].
  intros x y _ _ [=]. lia.
Qed.
End Wire.

(** ** A concrete payload *)
Module Sample.
Definition key : string := "11111111111111111111111111111111".
Definition coordinate : ChainCoordinate := event_coordinate 7 "sig" 2 0.
Definition complete : PumpCompleteEvent :=
  {| co_user := key; co_mint := key; co_bonding_curve := key; co_timestamp := 5;
     co_quote_mint := key |}.
Definition decoded : DecodedPumpEvent :=
  {| dp_program := PumpP; dp_coordinate := coordinate; dp_event := EvComplete complete |}.
Definition payload : list byte :=
  COMPLETE_EVENT_DISCRIMINATOR ++ replicate 96 (byte_of_Z 0) ++ bytes_of [5; 0; 0; 0; 0; 0; 0; 0]
    ++ replicate 32 (byte_of_Z 0).
Definition log : string := ("Program data: " +:+ Hexish.encode payload)%string.
End Sample.

Lemma decode_anchor_event_injective_witness :
  Sample.payload = Sample.payload /\ PUMP_PROGRAM_ID = PUMP_PROGRAM_ID /\
  Sample.coordinate = Sample.coordinate.
Proof.
  apply (decode_anchor_event_injective (B64:=Hexish.codec) PUMP_PROGRAM_ID PUMP_PROGRAM_ID
    Sample.coordinate Sample.coordinate Sample.payload Sample.payload Sample.decoded);
    vm_compute; reflexivity.
Defined.

Lemma instruction_event_indices_witness :
  exists ds, decode_instruction_program_data_logs (B64:=Hexish.codec) PUMP_PROGRAM_ID 7 "sig" 2
      ["Program log: hi"; Sample.log; Sample.log]%string = Ok ds /\
    length ds = 2%nat /\ NoDup (dp_coordinate <$> ds).
Proof.
  eexists. split; [vm_compute; reflexivity|]. split; [reflexivity|].
  eapply (instruction_event_indices (B64:=Hexish.codec) PUMP_PROGRAM_ID 7 "sig" 2
    ["Program log: hi"; Sample.log; Sample.log]%string). vm_compute. reflexivity.
Defined.
