(* ===== verification/SnapshotArith.v ===== *)
(** The checked arithmetic of [crates/discovery-engine/src/snapshot.rs]: exact
    price ratios, floor and ceiling scaling that never forms an overflowing
    intermediate product, and basis-point shares, each proved equal to the
    rational number it stands for. *)
From S2P Require Import Prelude.
From S2P Require Import Domain.

Definition BASIS_POINTS_SCALE : Z := 10000.

Inductive SnapshotError :=
| InvalidWindowBounds
| MissingIncompleteReason
| DuplicateObservation (key : ObservationKey)
| ZeroTradeAmount
| EmptyWallet
| ArithmeticOverflow.

Notation checked T := (result SnapshotError T).
Definition overflow {A} (o : option A) : checked A := ok_or o ArithmeticOverflow.

(** [checked_add] at the width of its operands ([CheckedAdd for u64], [u128]). *)
Definition checked_add (w left right : Z) : checked Z := overflow (checked_add_u w left right).

(** [greatest_common_divisor]: the loop, with fuel for its iterations. *)
Fixpoint gcd_loop (fuel : nat) (left right : Z) : Z :=
  match fuel with
  | O => left
  | S n => if right =? 0 then left else gcd_loop n right (left mod right)
  end.
Definition greatest_common_divisor (left right : Z) : Z := gcd_loop 257 left right.

Record PriceRatio := { pr_quote_units : Z; pr_base_units : Z }.

(** [PriceRatio::new]. *)
Definition price_ratio_new (quote_units base_units : Z) : checked PriceRatio :=
  if (quote_units =? 0) || (base_units =? 0) then Err ZeroTradeAmount
  else
    let divisor := greatest_common_divisor quote_units base_units in
    Ok {| pr_quote_units := quote_units / divisor; pr_base_units := base_units / divisor |}.

(** [PriceRatio::checked_cmp]. *)
Definition price_checked_cmp (self other : PriceRatio) : checked comparison :=
  left ← overflow (checked_mul_u 128 (pr_quote_units self) (pr_base_units other));
  right ← overflow (checked_mul_u 128 (pr_quote_units other) (pr_base_units self));
  Ok (left ?= right).

Definition ceil_scaled_denominator (multiplier value divisor : Z) : checked Z :=
  if (divisor =? 0) || (multiplier >? divisor) then Err ArithmeticOverflow
  else
    let quotient := value / divisor in
    let remainder := value mod divisor in
    whole ← overflow (checked_mul_u 128 quotient multiplier);
    remainder_product ← overflow (checked_mul_u 128 remainder multiplier);
    let rounded_fraction :=
      remainder_product / divisor + (if remainder_product mod divisor =? 0 then 0 else 1) in
    overflow (checked_add_u 128 whole rounded_fraction).

Definition div_ceil (a b : Z) : Z := if a mod b =? 0 then a / b else a / b + 1.

(** The binary search of [scaled_proper_fraction], with fuel for its iterations. *)
Fixpoint scaled_search (fuel : nat) (numerator denominator scale low high : Z) : checked Z :=
  match fuel with
  | O => Ok low
  | S n =>
      if low <? high then
        let midpoint := low + div_ceil (high - low) 2 in
        c ← ceil_scaled_denominator midpoint denominator scale;
        if c <=? numerator then scaled_search n numerator denominator scale midpoint high
        else scaled_search n numerator denominator scale low (midpoint - 1)
      else Ok low
  end.
Definition scaled_proper_fraction (numerator denominator scale : Z) : checked Z :=
  if (numerator =? 0) || (scale =? 0) then Ok 0
  else scaled_search 129 numerator denominator scale 0 scale.

Definition checked_scaled_ratio (numerator denominator scale : Z) : checked Z :=
  if denominator =? 0 then Err ArithmeticOverflow
  else
    let whole := numerator / denominator in
    let remainder := numerator mod denominator in
    whole_scaled ← overflow (checked_mul_u 128 whole scale);
    fractional ← scaled_proper_fraction remainder denominator scale;
    overflow (checked_add_u 128 whole_scaled fractional).

Definition fraction_within_basis_point_limit (numerator denominator maximum_bps : Z)
    : checked bool :=
  if (denominator =? 0) || (maximum_bps >? BASIS_POINTS_SCALE) then Err ArithmeticOverflow
  else
    maximum_numerator ← checked_scaled_ratio denominator BASIS_POINTS_SCALE maximum_bps;
    Ok (numerator <=? maximum_numerator).

Definition fraction_to_basis_points (numerator denominator : Z) : checked Z :=
  if (denominator =? 0) || (numerator >? denominator) then Err ArithmeticOverflow
  else
    floor ← checked_scaled_ratio numerator denominator BASIS_POINTS_SCALE;
    floor16 ← overflow (try_from_u 16 floor);
    within ← fraction_within_basis_point_limit numerator denominator floor16;
    value ← (if within : bool then Ok floor else overflow (checked_add_u 128 floor 1));
    overflow (try_from_u 16 value).

Definition signed_magnitude (magnitude : Z) (negative : bool) : checked Z :=
  if negative && (magnitude =? i128_max + 1) then Ok i128_min
  else
    m ← overflow (try_from_s 128 magnitude);
    Ok (if negative then - m else m).

Definition price_change_basis_points (first last : PriceRatio) : checked Z :=
  last_cross ← overflow (checked_mul_u 128 (pr_quote_units last) (pr_base_units first));
  first_cross ← overflow (checked_mul_u 128 (pr_quote_units first) (pr_base_units last));
  let '(negative, difference) :=
    if last_cross >=? first_cross then (false, last_cross - first_cross)
    else (true, first_cross - last_cross) in
  magnitude ← checked_scaled_ratio difference first_cross BASIS_POINTS_SCALE;
  signed_magnitude magnitude negative.

#[global] Arguments gcd_loop : simpl never.
#[global] Arguments scaled_search : simpl never.

(** ** Lemmas *)
Lemma overflow_Ok {A} (o : option A) a : overflow o = Ok a <-> o = Some a.
Proof. apply ok_or_Ok. Qed.

Lemma checked_add_Ok w a b : a + b <= uint_max w -> checked_add w a b = Ok (a + b).
Proof. intros H. apply overflow_Ok, checked_add_u_Some. auto. Qed.

Lemma checked_add_inv w a b c : checked_add w a b = Ok c <-> c = a + b /\ a + b <= uint_max w.
Proof. unfold checked_add. by rewrite overflow_Ok, checked_add_u_Some. Qed.

Lemma mul_Ok a b : a * b <= u128_max -> overflow (checked_mul_u 128 a b) = Ok (a * b).
Proof. intros H. apply overflow_Ok, checked_mul_u_Some. auto. Qed.

Lemma add_Ok a b : a + b <= u128_max -> overflow (checked_add_u 128 a b) = Ok (a + b).
Proof. intros H. apply overflow_Ok, checked_add_u_Some. auto. Qed.

(** *** Greatest common divisor *)
Lemma gcd_loop_S n l r : gcd_loop (S n) l r = if r =? 0 then l else gcd_loop n r (l mod r).
Proof. done. Qed.

Lemma gcd_loop_correct k l r :
  0 <= l -> 0 <= r < 2 ^ Z.of_nat k -> gcd_loop (S (2 * k)) l r = Z.gcd l r.
Proof.
  revert l r. induction k as [|k IH]; intros l r Hl Hr.
  { change (2 ^ Z.of_nat 0) with 1 in Hr. assert (r = 0) as -> by lia.
    rewrite gcd_loop_S, Z.gcd_0_r. simpl. lia. }
  replace (S (2 * S k)) with (S (S (S (2 * k)))) by lia.
  rewrite (gcd_loop_S (S (S (2 * k)))). destruct (Z.eqb_spec r 0) as [->|Hr0].
  { rewrite Z.gcd_0_r. lia. }
  pose proof (Z.mod_pos_bound l r).
  rewrite (Z.gcd_comm l r), <- (Z.gcd_mod l r), (Z.gcd_comm (l mod r)), gcd_loop_S by lia.
  destruct (Z.eqb_spec (l mod r) 0) as [->|Hm0].
  { rewrite Z.gcd_0_r. lia. }
  rewrite IH; [by rewrite Z.gcd_comm, Z.gcd_mod, Z.gcd_comm|lia|].
  rewrite Nat2Z.inj_succ, Z.pow_succ_r in Hr by lia.
  pose proof (Z.mod_pos_bound r (l mod r)). pose proof (Z.div_mod r (l mod r)).
  assert (1 <= r / (l mod r)) by (apply Z.div_le_lower_bound; lia). nia.
Qed.

Lemma greatest_common_divisor_gcd l r :
  0 <= l -> in_uint 128 r -> greatest_common_divisor l r = Z.gcd l r.
Proof.
  intros Hl Hr. apply (gcd_loop_correct 128); [done|].
  unfold in_uint, uint_max in Hr. change (Z.of_nat 128) with 128. lia.
Qed.

(** *** Scaling *)
Lemma ceil_scaled_denominator_le m v s n :
  0 <= m <= s -> 0 < s <= u64_max -> in_uint 128 v -> 0 <= n ->
  exists c, ceil_scaled_denominator m v s = Ok c /\ (c <= n <-> m * v <= n * s).
Proof.
  intros Hm Hs Hv Hn. unfold ceil_scaled_denominator.
  rewrite (proj2 (Z.eqb_neq s 0)), (gtb_false m s) by lia; simpl.
  pose proof (Z.mod_pos_bound v s). pose proof (Z.div_mod v s).
  assert (0 <= v / s) by (apply Z.div_pos; unfold in_uint in Hv; lia).
  set (q := v / s) in *. set (r := v mod s) in *.
  assert (q * m <= v) by nia.
  assert (0 <= r * m) by nia.
  assert (r * m <= u64_max * u64_max) by (apply Z.mul_le_mono_nonneg; lia).
  rewrite !mul_Ok; simpl; [|int_lia|int_lia].
  pose proof (Z.mod_pos_bound (r * m) s). pose proof (Z.div_mod (r * m) s).
  assert (0 <= r * m / s) by (apply Z.div_pos; lia).
  set (p := r * m / s) in *. set (t := (r * m) mod s) in *.
  assert (p <= m) by (apply Z.div_le_upper_bound; nia).
  set (b := if t =? 0 then 0 else 1).
  assert (0 <= b <= 1 /\ (t = 0 /\ b = 0 \/ 0 < t /\ b = 1)) as [Hb Hbt].
  { unfold b. destruct (Z.eqb_spec t 0); lia. }
  exists (q * m + (p + b)). split.
  - apply add_Ok. assert (p + b <= m).
    { destruct Hbt as [[? ->]|[? ->]]; [lia|]. nia. }
    assert (q * m + (p + b) <= v + 1) as Hle.
    { destruct (Z.eq_dec q 0); nia. }
    destruct (Z.eq_dec v u128_max) as [->|]; [|unfold in_uint in Hv; int_lia].
    assert (1 <= q) by (unfold q; apply Z.div_le_lower_bound; int_lia).
    assert (q * m + (p + b) <= q * s + r) by nia. lia.
  - assert (m * v = (q * m + p) * s + t) by nia.
    destruct Hbt as [[Ht ->]|[Ht ->]]; split; intros; nia.
Qed.

Lemma div_ceil_2 d : 0 < d -> 1 <= div_ceil d 2 <= d /\ 2 * div_ceil d 2 <= d + 1 /\ d <= 2 * div_ceil d 2.
Proof.
  intros Hd. unfold div_ceil. pose proof (Z.div_mod d 2). pose proof (Z.mod_pos_bound d 2).
  destruct (Z.eqb_spec (d mod 2) 0); lia.
Qed.

Lemma scaled_search_S k n d s low high :
  scaled_search (S k) n d s low high =
    if low <? high then
      c ← ceil_scaled_denominator (low + div_ceil (high - low) 2) d s;
      if c <=? n then scaled_search k n d s (low + div_ceil (high - low) 2) high
      else scaled_search k n d s low (low + div_ceil (high - low) 2 - 1)
    else Ok low.
Proof. done. Qed.

Lemma scaled_search_correct k n d s low high :
  0 <= n -> 0 < s <= u64_max -> in_uint 128 d -> 0 < d ->
  0 <= low -> high <= s -> low <= n * s / d <= high -> high - low < 2 ^ Z.of_nat k ->
  scaled_search (S k) n d s low high = Ok (n * s / d).
Proof.
  intros Hn Hs Hd Hd0. revert low high. induction k as [|k IH]; intros low high Hlow Hhigh Ht Hk.
  { change (2 ^ Z.of_nat 0) with 1 in Hk.
    rewrite scaled_search_S, (proj2 (Z.ltb_ge low high)) by lia. f_equal. lia. }
  rewrite scaled_search_S.
  destruct (Z.ltb_spec low high) as [Hlt|]; [|f_equal; lia].
  rewrite Nat2Z.inj_succ, Z.pow_succ_r in Hk by lia.
  destruct (div_ceil_2 (high - low)) as (? & ? & ?); [lia|].
  assert (low < low + div_ceil (high - low) 2 <= high /\
    high - (low + div_ceil (high - low) 2) < 2 ^ Z.of_nat k /\
    low + div_ceil (high - low) 2 - 1 - low < 2 ^ Z.of_nat k) as (? & ? & ?) by lia.
  generalize dependent (low + div_ceil (high - low) 2). intros mid Hmid1 Hmid2 Hmid3.
  destruct (ceil_scaled_denominator_le mid d s n) as (c & -> & Hc);
    [lia|lia|done|lia|]. simpl.
  assert (mid * d <= n * s <-> mid <= n * s / d) as Hmid.
  { split; intros.
    - apply Z.div_le_lower_bound; lia.
    - pose proof (Z.mul_div_le (n * s) d). nia. }
  destruct (Z.leb_spec c n) as [Hle|Hgt]; apply IH; lia.
Qed.

Lemma scaled_proper_fraction_correct n d s :
  0 <= n < d -> in_uint 128 d -> 0 <= s <= u64_max ->
  scaled_proper_fraction n d s = Ok (n * s / d).
Proof.
  intros Hn Hd Hs. unfold scaled_proper_fraction.
  destruct (Z.eqb_spec n 0) as [->|]; simpl; [by rewrite Z.div_0_l by lia|].
  destruct (Z.eqb_spec s 0) as [->|]; simpl; [by rewrite Z.mul_0_r, Z.div_0_l by lia|].
  apply (scaled_search_correct 128); try done; try lia.
  - split; [apply Z.div_pos; nia|apply Z.div_le_upper_bound; nia].
  - change (Z.of_nat 128) with 128. int_lia.
Qed.

Lemma checked_scaled_ratio_spec n d s :
  in_uint 128 n -> in_uint 128 d -> 0 < d -> 0 <= s <= u64_max ->
  checked_scaled_ratio n d s =
    if n * s / d <=? u128_max then Ok (n * s / d) else Err ArithmeticOverflow.
Proof.
  intros Hn Hd Hd0 Hs. unfold checked_scaled_ratio.
  rewrite (proj2 (Z.eqb_neq d 0)) by lia. cbv zeta.
  pose proof (Z.mod_pos_bound n d). pose proof (Z.div_mod n d).
  rewrite scaled_proper_fraction_correct by (done || lia).
  assert (n * s / d = n / d * s + n mod d * s / d) as ->.
  { rewrite <- Z.div_add_l by lia. f_equal. nia. }
  assert (0 <= n mod d * s / d) by (apply Z.div_pos; nia).
  unfold overflow, checked_mul_u, checked_add_u.
  destruct (Z.leb_spec (n / d * s) u128_max); simpl.
  - by destruct (Z.leb_spec (n / d * s + n mod d * s / d) u128_max).
  - rewrite (proj2 (Z.leb_gt _ _)); [done|lia].
Qed.

Lemma checked_scaled_ratio_Ok n d s :
  in_uint 128 n -> in_uint 128 d -> 0 < d -> 0 <= s <= u64_max -> n * s / d <= u128_max ->
  checked_scaled_ratio n d s = Ok (n * s / d).
Proof. intros. rewrite checked_scaled_ratio_spec by done. by rewrite (proj2 (Z.leb_le _ _)). Qed.

(** *** Basis points *)

(** [n/d <= m/10000], decided exactly: multiplied out, without rounding. *)
Lemma fraction_within_spec n d m :
  in_uint 128 n -> in_uint 128 d -> 0 < d -> 0 <= m <= BASIS_POINTS_SCALE ->
  fraction_within_basis_point_limit n d m = Ok (bool_decide (n * 10000 <= d * m)).
Proof.
  intros Hn Hd Hd0 Hm. unfold fraction_within_basis_point_limit.
  change BASIS_POINTS_SCALE with 10000 in *.
  rewrite (proj2 (Z.eqb_neq d 0)), (gtb_false m 10000) by lia; simpl.
  assert (0 <= d * m <= d * 10000) by nia.
  rewrite checked_scaled_ratio_Ok;
    [|done|int_lia|lia|int_lia|apply Z.div_le_upper_bound; int_lia].
  simpl. f_equal. apply eq_true_iff_eq. rewrite bool_decide_eq_true, Z.leb_le.
  pose proof (Z.mod_pos_bound (d * m) 10000). pose proof (Z.div_mod (d * m) 10000). lia.
Qed.

(** The ceiling of [10000 * n / d]. *)
Definition ceil_bps (n d : Z) : Z := (10000 * n + d - 1) / d.

Lemma fraction_to_basis_points_spec n d :
  0 <= n <= d -> 0 < d -> in_uint 128 d ->
  fraction_to_basis_points n d = Ok (ceil_bps n d).
Proof.
  intros Hn Hd0 Hd. unfold fraction_to_basis_points, ceil_bps.
  rewrite (proj2 (Z.eqb_neq d 0)), (gtb_false n d) by lia; simpl.
  change BASIS_POINTS_SCALE with 10000.
  assert (0 <= n * 10000 / d <= 10000) as Hf.
  { split; [apply Z.div_pos; lia|apply Z.div_le_upper_bound; lia]. }
  assert (in_uint 128 n) by (unfold in_uint in *; lia).
  rewrite checked_scaled_ratio_Ok by (try done; int_lia). simpl.
  assert (forall v, 0 <= v <= 10000 -> overflow (try_from_u 16 v) = Ok v) as H16.
  { intros v Hv. apply overflow_Ok, try_from_u_Some. split; [done|int_lia]. }
  rewrite H16 by done. simpl.
  rewrite fraction_within_spec by (try done; change BASIS_POINTS_SCALE with 10000; lia). simpl.
  set (f := n * 10000 / d) in *.
  pose proof (Z.div_mod (n * 10000) d). pose proof (Z.mod_pos_bound (n * 10000) d).
  fold f in H0. case_bool_decide as Hw; simpl.
  - rewrite H16 by done. f_equal. apply Z.div_unique with (d - 1); lia.
  - assert (f < 10000) by nia. rewrite add_Ok by int_lia. simpl. rewrite H16 by lia.
    f_equal. apply Z.div_unique with ((n * 10000) mod d - 1); lia.
Qed.

(** *** Prices *)
Definition ratio_in_u64 (r : PriceRatio) : Prop :=
  0 < pr_quote_units r <= u64_max /\ 0 < pr_base_units r <= u64_max.

(** [r] is the fraction [q/b] in lowest terms. *)
Definition reduced_ratio (q b : Z) (r : PriceRatio) : Prop :=
  pr_quote_units r * b = pr_base_units r * q /\
  Z.gcd (pr_quote_units r) (pr_base_units r) = 1.

Lemma price_ratio_new_Ok q b :
  0 < q <= u64_max -> 0 < b <= u64_max ->
  exists r, price_ratio_new q b = Ok r /\ ratio_in_u64 r /\ reduced_ratio q b r.
Proof.
  intros Hq Hb. unfold price_ratio_new.
  rewrite (proj2 (Z.eqb_neq q 0)), (proj2 (Z.eqb_neq b 0)) by lia; simpl.
  rewrite greatest_common_divisor_gcd by int_lia.
  pose proof (Z.gcd_nonneg q b). pose proof (Z.gcd_eq_0 q b).
  assert (0 < Z.gcd q b) as Hg by lia. clear H H0.
  destruct (Z.gcd_divide_l q b) as [q' Hq'], (Z.gcd_divide_r q b) as [b' Hb'].
  pose proof (Z.gcd_div_gcd q b (Z.gcd q b)) as Hcop.
  set (g := Z.gcd q b) in *. rewrite Hq', Hb' in *.
  rewrite !Z.div_mul in * by lia.
  eexists. split; [done|]. unfold ratio_in_u64, reduced_ratio; simpl. split.
  - nia.
  - split; [ring|]. apply Hcop; [lia|done].
Qed.

Lemma price_checked_cmp_u64 r1 r2 :
  ratio_in_u64 r1 -> ratio_in_u64 r2 ->
  price_checked_cmp r1 r2 =
    Ok (pr_quote_units r1 * pr_base_units r2 ?= pr_quote_units r2 * pr_base_units r1).
Proof.
  intros [? ?] [? ?]. unfold price_checked_cmp.
  assert (u64_max * u64_max <= u128_max) by int_lia.
  rewrite !mul_Ok; [done|nia|nia].
Qed.

(** ** Theorems *)

(** a reported basis-point share is the exact ceiling of the fraction, so
    it agrees with the exact comparison at every limit: a share that exceeds
    the limit by any amount is reported above it, never rounded down into it. *)
Theorem share_bps_agrees_with_limit n d m :
  0 <= n <= d -> 0 < d -> in_uint 128 d -> 0 <= m <= BASIS_POINTS_SCALE ->
  exists b, fraction_to_basis_points n d = Ok b /\ 0 <= b <= BASIS_POINTS_SCALE /\
    (b - 1) * d < n * 10000 <= b * d /\
    fraction_within_basis_point_limit n d m = Ok (bool_decide (b <= m)).
Proof.
  intros Hn Hd0 Hd Hm. exists (ceil_bps n d).
  rewrite fraction_to_basis_points_spec, fraction_within_spec by (unfold in_uint in *; lia).
  change BASIS_POINTS_SCALE with 10000 in *. unfold ceil_bps.
  pose proof (Z.div_mod (10000 * n + d - 1) d). pose proof (Z.mod_pos_bound (10000 * n + d - 1) d).
  set (b := (10000 * n + d - 1) / d) in *.
  split; [done|]. split; [|split].
  - split; [apply Z.div_pos; lia|]. unfold b. apply Z.lt_succ_r, Z.div_lt_upper_bound; nia.
  - nia.
  - f_equal. apply bool_decide_ext. nia.
Qed.

Lemma share_bps_agrees_with_limit_witness :
  exists b, fraction_to_basis_points 30001 100000 = Ok b /\ b = 3001 /\
    fraction_within_basis_point_limit 30001 100000 3000 = Ok false.
Proof.
  destruct (share_bps_agrees_with_limit 30001 100000 3000) as (b & Hb & _ & _ & Hw);
    [lia|lia|vm_compute; done|vm_compute; done|].
  exists b. split; [done|]. vm_compute in Hb. injection Hb as <-.
  split; [reflexivity|exact Hw].
Defined.

(** the signed price change between two trade prices is exact: when the
    computation succeeds it is [10000 * (last - first) / first] truncated
    towards zero, and it fails exactly when that does not fit an [i128]. *)
Theorem price_change_exact first last :
  ratio_in_u64 first -> ratio_in_u64 last ->
  let lc := pr_quote_units last * pr_base_units first in
  let fc := pr_quote_units first * pr_base_units last in
  let exact := Z.quot ((lc - fc) * 10000) fc in
  price_change_basis_points first last =
    if bool_decide (in_sint 128 exact) then Ok exact else Err ArithmeticOverflow.
Proof.
  intros [Hfq Hfb] [Hlq Hlb]. cbv zeta. unfold price_change_basis_points.
  assert (u64_max * u64_max <= u128_max) by int_lia.
  rewrite !mul_Ok by nia. simpl.
  set (lc := pr_quote_units last * pr_base_units first).
  set (fc := pr_quote_units first * pr_base_units last).
  assert (0 < lc <= u128_max /\ 0 < fc <= u128_max) as [Hl Hf] by (unfold lc, fc; nia).
  clearbody lc fc. clear - Hl Hf. change BASIS_POINTS_SCALE with 10000.
  assert (forall dif, 0 <= dif <= u128_max -> checked_scaled_ratio dif fc 10000 =
    if dif * 10000 / fc <=? u128_max then Ok (dif * 10000 / fc) else Err ArithmeticOverflow) as Hs.
  { intros dif Hd. apply checked_scaled_ratio_spec; [int_lia..|lia|int_lia]. }
  destruct (Z.geb_spec lc fc); simpl; rewrite Hs by int_lia.
  - rewrite Z.quot_div_nonneg by lia.
    assert (0 <= (lc - fc) * 10000 / fc) by (apply Z.div_pos; lia).
    generalize dependent ((lc - fc) * 10000 / fc). intros v Hv.
    destruct (Z.leb_spec v u128_max); simpl.
    + unfold signed_magnitude, try_from_s. simpl.
      case_bool_decide as Hb; [rewrite (proj2 (in_sintb_iff _ _) Hb); done|].
      destruct (in_sintb 128 v) eqn:E; [|done]. by apply in_sintb_iff in E.
    + case_bool_decide; [int_lia|done].
  - replace ((lc - fc) * 10000) with (- ((fc - lc) * 10000)) by ring.
    rewrite Z.quot_opp_l, Z.quot_div_nonneg by lia.
    assert (0 <= (fc - lc) * 10000 / fc) by (apply Z.div_pos; lia).
    generalize dependent ((fc - lc) * 10000 / fc). intros v Hv.
    destruct (Z.leb_spec v u128_max); simpl; [|case_bool_decide; [int_lia|done]].
    unfold signed_magnitude, try_from_s. simpl.
    destruct (Z.eqb_spec v (i128_max + 1)) as [->|].
    { by rewrite bool_decide_eq_true_2 by int_lia. }
    destruct (in_sintb 128 v) eqn:E; simpl.
    + apply in_sintb_iff in E. by rewrite bool_decide_eq_true_2 by int_lia.
    + rewrite bool_decide_eq_false_2; [done|]. intros Hb.
      assert (in_sintb 128 v = true) as Hc by (apply in_sintb_iff; int_lia). congruence.
Qed.

Lemma price_change_exact_witness :
  price_change_basis_points {| pr_quote_units := 3; pr_base_units := 1 |}
    {| pr_quote_units := 2; pr_base_units := 1 |} = Ok (-3333).
Proof.
  rewrite price_change_exact; [vm_compute; reflexivity|split; vm_compute; split; congruence..].
Defined.
