(* ===== verification/Snapshot.v ===== *)
(** [crates/discovery-engine/src/snapshot.rs]: the deterministic view of one
    market over one half-open receipt-time window.  This file holds the data
    and the operations; [SnapshotSpec.v] relates them to a declarative
    reference. *)
From S2P Require Import Prelude.
From S2P Require Import RustOrd.
From S2P Require Import BTree.
From S2P Require Import RustStr.
From S2P Require Import Domain.
From S2P Require Import SnapshotArith.

Definition INVALID_TRADE_AMOUNT_REASON : string := "INVALID_TRADE_AMOUNT".
Definition INVALID_TRADE_WALLET_REASON : string := "INVALID_TRADE_WALLET".

Inductive SnapshotCompleteness := Complete | Incomplete (reason_code : string).
Definition is_complete (c : SnapshotCompleteness) : bool :=
  match c with Complete => true | Incomplete _ => false end.
Definition completeness_reason (c : SnapshotCompleteness) : option string :=
  match c with Complete => None | Incomplete reason => Some reason end.

Record WalletMetrics := {
  wm_trades : Z; wm_buys : Z; wm_sells : Z;
  wm_buy_base_units : Z; wm_sell_base_units : Z;
  wm_buy_quote_units : Z; wm_sell_quote_units : Z;
}.
Definition wallet_metrics_default : WalletMetrics := {|
  wm_trades := 0; wm_buys := 0; wm_sells := 0; wm_buy_base_units := 0;
  wm_sell_base_units := 0; wm_buy_quote_units := 0; wm_sell_quote_units := 0 |}.

(** [WalletMetrics::checked_record]. *)
Definition wallet_checked_record (m : WalletMetrics) (side : TradeSide)
    (base_units quote_units : Z) : checked WalletMetrics :=
  trades ← checked_add 64 (wm_trades m) 1;
  match side with
  | Buy =>
      buys ← checked_add 64 (wm_buys m) 1;
      buy_base ← checked_add 128 (wm_buy_base_units m) base_units;
      buy_quote ← checked_add 128 (wm_buy_quote_units m) quote_units;
      Ok {| wm_trades := trades; wm_buys := buys; wm_sells := wm_sells m;
            wm_buy_base_units := buy_base; wm_sell_base_units := wm_sell_base_units m;
            wm_buy_quote_units := buy_quote; wm_sell_quote_units := wm_sell_quote_units m |}
  | Sell =>
      sells ← checked_add 64 (wm_sells m) 1;
      sell_base ← checked_add 128 (wm_sell_base_units m) base_units;
      sell_quote ← checked_add 128 (wm_sell_quote_units m) quote_units;
      Ok {| wm_trades := trades; wm_buys := wm_buys m; wm_sells := sells;
            wm_buy_base_units := wm_buy_base_units m; wm_sell_base_units := sell_base;
            wm_buy_quote_units := wm_buy_quote_units m; wm_sell_quote_units := sell_quote |}
  end.
Definition total_quote_units (m : WalletMetrics) : checked Z :=
  checked_add 128 (wm_buy_quote_units m) (wm_sell_quote_units m).

Record WalletVolumeShare := {
  wvs_wallet : string; wvs_quote_volume_units : Z; wvs_share_bps : Z;
}.
Record CreatorVolumeShare := {
  cvs_creator_wallets : list string; cvs_quote_volume_units : Z; cvs_share_bps : option Z;
}.

Record TradeSample := {
  ts_observation_key : ObservationKey;
  ts_received_time_unix_ms : Z;
  ts_source_event_time_unix_ms : option Z;
  ts_side : TradeSide;
  ts_wallet : string;
  ts_base_amount_units : Z;
  ts_quote_amount_units : Z;
  ts_base_reserve_units : option Z;
  ts_quote_reserve_units : option Z;
}.

Inductive LiquidityDirection := Deposit | Withdraw.
Record LiquiditySample := {
  ls_observation_key : ObservationKey;
  ls_received_time_unix_ms : Z;
  ls_source_event_time_unix_ms : option Z;
  ls_direction : LiquidityDirection;
  ls_provider : string;
  ls_base_amount_units : Z; ls_quote_amount_units : Z;
  ls_base_reserve_units : Z; ls_quote_reserve_units : Z;
  ls_lp_token_amount_units : Z; ls_lp_token_supply_units : Z;
}.

Record ReserveSample := {
  rs_observation_key : ObservationKey;
  rs_received_time_unix_ms : Z;
  rs_base_units : option Z;
  rs_quote_units : option Z;
}.
Record ReserveExtremum := {
  re_observation_key : ObservationKey; re_received_time_unix_ms : Z; re_units : Z;
}.
Record ReserveSummary := {
  rsum_first : ReserveSample;
  rsum_latest : ReserveSample;
  rsum_minimum_base : option ReserveExtremum;
  rsum_maximum_base : option ReserveExtremum;
  rsum_minimum_quote : option ReserveExtremum;
  rsum_maximum_quote : option ReserveExtremum;
  rsum_samples : list ReserveSample;
}.

Record PricePoint := {
  pp_observation_key : ObservationKey; pp_received_time_unix_ms : Z; pp_ratio : PriceRatio;
}.
Record PriceSummary := {
  ps_first : PricePoint; ps_last : PricePoint; ps_low : PricePoint; ps_high : PricePoint;
  ps_change_bps : option Z;
}.

Record MarketWindowMetrics := {
  mm_observations : Z; mm_trades : Z; mm_buys : Z; mm_sells : Z;
  mm_buy_base_units : Z; mm_sell_base_units : Z;
  mm_buy_quote_units : Z; mm_sell_quote_units : Z;
  mm_unique_traders : Z; mm_unique_buyers : Z; mm_unique_sellers : Z;
  mm_wallets : btree string WalletMetrics;
  mm_largest_wallet_quote_volume : option WalletVolumeShare;
  mm_creator_quote_volume : option CreatorVolumeShare;
  mm_first_trade_received_at_unix_ms : option Z;
  mm_last_trade_received_at_unix_ms : option Z;
  mm_first_trade_slot : option Z;
  mm_last_trade_slot : option Z;
}.
Definition total_quote_volume_units (m : MarketWindowMetrics) : checked Z :=
  checked_add 128 (mm_buy_quote_units m) (mm_sell_quote_units m).

Record MarketWindowSnapshot := {
  ms_market : MarketIdentity;
  ms_opened_at_unix_ms : Z;
  ms_closes_at_unix_ms : Z;
  ms_completeness : SnapshotCompleteness;
  ms_observation_keys : list ObservationKey;
  ms_trade_samples : list TradeSample;
  ms_liquidity_samples : list LiquiditySample;
  ms_metrics : MarketWindowMetrics;
  ms_reserves : option ReserveSummary;
  ms_prices : option PriceSummary;
  ms_completion_observed : bool;
  ms_migration_observed : bool;
  ms_completion_observation_keys : list ObservationKey;
  ms_migration_observation_keys : list ObservationKey;
  ms_latest_observed_slot : option Z;
}.

(** ** [MetricsAccumulator] *)
Record MetricsAccumulator := {
  acc_totals : WalletMetrics;
  acc_wallets : btree string WalletMetrics;
}.
Definition accumulator_default : MetricsAccumulator :=
  {| acc_totals := wallet_metrics_default; acc_wallets := [] |}.

(** [MetricsAccumulator::checked_record].  The seven totals of the accumulator
    are fields of the same shape as [WalletMetrics] and are stored as one. *)
Definition acc_checked_record (acc : MetricsAccumulator) (side : TradeSide)
    (wallet : string) (base_units quote_units : Z) : checked MetricsAccumulator :=
  let t := acc_totals acc in
  next_trades ← checked_add 64 (wm_trades t) 1;
  let current_wallet := default wallet_metrics_default (bt_get wallet (acc_wallets acc)) in
  next_wallet ← wallet_checked_record current_wallet side base_units quote_units;
  next ← match side with
         | Buy =>
             buys ← checked_add 64 (wm_buys t) 1;
             buy_base ← checked_add 128 (wm_buy_base_units t) base_units;
             buy_quote ← checked_add 128 (wm_buy_quote_units t) quote_units;
             Ok {| wm_trades := next_trades; wm_buys := buys; wm_sells := wm_sells t;
                   wm_buy_base_units := buy_base;
                   wm_sell_base_units := wm_sell_base_units t;
                   wm_buy_quote_units := buy_quote;
                   wm_sell_quote_units := wm_sell_quote_units t |}
         | Sell =>
             sells ← checked_add 64 (wm_sells t) 1;
             sell_base ← checked_add 128 (wm_sell_base_units t) base_units;
             sell_quote ← checked_add 128 (wm_sell_quote_units t) quote_units;
             Ok {| wm_trades := next_trades; wm_buys := wm_buys t; wm_sells := sells;
                   wm_buy_base_units := wm_buy_base_units t;
                   wm_sell_base_units := sell_base;
                   wm_buy_quote_units := wm_buy_quote_units t;
                   wm_sell_quote_units := sell_quote |}
         end;
  Ok {| acc_totals := next; acc_wallets := bt_insert wallet next_wallet (acc_wallets acc) |}.

(** The loop over the wallets that keeps the largest quote volume. *)
Fixpoint largest_wallet_loop (total : Z) (largest : option WalletVolumeShare)
    (wallets : btree string WalletMetrics) : checked (option WalletVolumeShare) :=
  match wallets with
  | [] => Ok largest
  | (wallet, metrics) :: rest =>
      volume ← total_quote_units metrics;
      let replace :=
        match largest with
        | None => true
        | Some l => volume >? wvs_quote_volume_units l
        end in
      largest' ← (if replace : bool then
                    share ← fraction_to_basis_points volume total;
                    Ok (Some {| wvs_wallet := wallet; wvs_quote_volume_units := volume;
                                wvs_share_bps := share |})
                  else Ok largest);
      largest_wallet_loop total largest' rest
  end.

Fixpoint creator_volume_loop (wallets : btree string WalletMetrics) (volume : Z)
    (creators : list string) : checked Z :=
  match creators with
  | [] => Ok volume
  | creator :: rest =>
      volume' ← match bt_get creator wallets with
                | Some metrics => q ← total_quote_units metrics; checked_add 128 volume q
                | None => Ok volume
                end;
      creator_volume_loop wallets volume' rest
  end.

Definition usize_to_u64 (n : nat) : checked Z := overflow (try_from_u 64 (Z.of_nat n)).

(** [MetricsAccumulator::finish]. *)
Definition acc_finish (acc : MetricsAccumulator) (observations : Z)
    (creator_wallets : btree_set string) (first_trade last_trade : option TradeSample)
    : checked MarketWindowMetrics :=
  let t := acc_totals acc in
  let wallets := acc_wallets acc in
  total_quote_volume ← checked_add 128 (wm_buy_quote_units t) (wm_sell_quote_units t);
  unique_traders ← usize_to_u64 (length wallets);
  unique_buyers ← usize_to_u64 (length (List.filter (fun m => wm_buys m >? 0) (bt_values wallets)));
  unique_sellers ← usize_to_u64 (length (List.filter (fun m => wm_sells m >? 0) (bt_values wallets)));
  largest ← largest_wallet_loop total_quote_volume None wallets;
  creator ← (if bool_decide (creator_wallets = []) then Ok None
             else
               volume ← creator_volume_loop wallets 0 (bset_elements creator_wallets);
               share ← (if total_quote_volume >? 0 then
                          s ← fraction_to_basis_points volume total_quote_volume; Ok (Some s)
                        else Ok None);
               Ok (Some {| cvs_creator_wallets := bset_elements creator_wallets;
                           cvs_quote_volume_units := volume; cvs_share_bps := share |}));
  Ok {| mm_observations := observations; mm_trades := wm_trades t; mm_buys := wm_buys t;
        mm_sells := wm_sells t; mm_buy_base_units := wm_buy_base_units t;
        mm_sell_base_units := wm_sell_base_units t;
        mm_buy_quote_units := wm_buy_quote_units t;
        mm_sell_quote_units := wm_sell_quote_units t;
        mm_unique_traders := unique_traders; mm_unique_buyers := unique_buyers;
        mm_unique_sellers := unique_sellers; mm_wallets := wallets;
        mm_largest_wallet_quote_volume := largest; mm_creator_quote_volume := creator;
        mm_first_trade_received_at_unix_ms := ts_received_time_unix_ms <$> first_trade;
        mm_last_trade_received_at_unix_ms := ts_received_time_unix_ms <$> last_trade;
        mm_first_trade_slot :=
          (fun s => slot (coordinate (ts_observation_key s))) <$> first_trade;
        mm_last_trade_slot :=
          (fun s => slot (coordinate (ts_observation_key s))) <$> last_trade |}.

(** ** Reserve and price summaries *)
Definition none_or {A} (f : A -> bool) (o : option A) : bool :=
  match o with None => true | Some a => f a end.

Definition update_extrema (extrema : option ReserveExtremum * option ReserveExtremum)
    (sample : ReserveSample) (units : option Z)
    : option ReserveExtremum * option ReserveExtremum :=
  match units with
  | None => extrema
  | Some units =>
      let candidate :=
        {| re_observation_key := rs_observation_key sample;
           re_received_time_unix_ms := rs_received_time_unix_ms sample;
           re_units := units |} in
      let '(minimum, maximum) := extrema in
      (if none_or (fun current => units <? re_units current) minimum
       then Some candidate else minimum,
       if none_or (fun current => units >? re_units current) maximum
       then Some candidate else maximum)
  end.

Definition summarize_reserves (samples : list ReserveSample) : option ReserveSummary :=
  first ← head samples;
  latest ← last samples;
  let step '(base, quote) sample :=
    (update_extrema base sample (rs_base_units sample),
     update_extrema quote sample (rs_quote_units sample)) in
  let '((minimum_base, maximum_base), (minimum_quote, maximum_quote)) :=
    fold_left step samples ((None, None), (None, None)) in
  Some {| rsum_first := first; rsum_latest := latest;
          rsum_minimum_base := minimum_base; rsum_maximum_base := maximum_base;
          rsum_minimum_quote := minimum_quote; rsum_maximum_quote := maximum_quote;
          rsum_samples := samples |}.

Fixpoint price_extremes (low high : PricePoint) (points : list PricePoint)
    : checked (PricePoint * PricePoint) :=
  match points with
  | [] => Ok (low, high)
  | point :: rest =>
      cl ← price_checked_cmp (pp_ratio point) (pp_ratio low);
      let low' := match cl with Lt => point | _ => low end in
      ch ← price_checked_cmp (pp_ratio point) (pp_ratio high);
      let high' := match ch with Gt => point | _ => high end in
      price_extremes low' high' rest
  end.

(** The source's [expect] on the last point cannot fail: the list is not empty. *)
Definition summarize_prices (points : list PricePoint) : checked (option PriceSummary) :=
  match points with
  | [] => Ok None
  | first :: rest =>
      let last_point := List.last points first in
      '(low, high) ← price_extremes first first rest;
      Ok (Some {| ps_first := first; ps_last := last_point; ps_low := low; ps_high := high;
                  ps_change_bps :=
                    result_ok (price_change_basis_points (pp_ratio first) (pp_ratio last_point)) |})
  end.

(** ** The snapshot *)
Definition source_program_rank (program : SourceProgram) : Z :=
  match program with
  | Pump => 0 | PumpSwap => 1 | RaydiumCpmm => 2 | RaydiumClmm => 3 | RaydiumAmmV4 => 4
  end.

Section Build.
Context {J : Type}.
Implicit Types (o : NormalizedObservation J).

Definition observation_order o1 o2 : comparison :=
  let c1 := coordinate (key o1) in
  let c2 := coordinate (key o2) in
  then_with (then_with (then_with (then_with (then_with (then_with
    (cmp (received_time_unix_ms o1) (received_time_unix_ms o2))
    (cmp (slot c1) (slot c2)))
    (cmp (transaction_index c1) (transaction_index c2)))
    (cmp (signature c1) (signature c2)))
    (cmp (instruction_index c1) (instruction_index c2)))
    (cmp (event_index c1) (event_index c2)))
    (cmp (source_program_rank (ok_program (key o1))) (source_program_rank (ok_program (key o2)))).

Definition mark_incomplete_if_complete (c : SnapshotCompleteness) (reason : string)
    : SnapshotCompleteness :=
  if is_complete c then Incomplete reason else c.

(** The local variables of the loop in [build_market_window_snapshot]. *)
Record BuildState := {
  b_completeness : SnapshotCompleteness;
  b_accumulator : MetricsAccumulator;
  b_trade_samples : list TradeSample;
  b_liquidity_samples : list LiquiditySample;
  b_reserve_samples : list ReserveSample;
  b_price_points : list PricePoint;
  b_completion_keys : list ObservationKey;
  b_migration_keys : list ObservationKey;
  b_observation_keys : list ObservationKey;
  b_latest_observed_slot : option Z;
}.

Definition build_init (c : SnapshotCompleteness) : BuildState := {|
  b_completeness := c; b_accumulator := accumulator_default; b_trade_samples := [];
  b_liquidity_samples := []; b_reserve_samples := []; b_price_points := [];
  b_completion_keys := []; b_migration_keys := []; b_observation_keys := [];
  b_latest_observed_slot := None |}.

(** The first two statements of the loop body. *)
Definition build_seen (st : BuildState) o : BuildState :=
  let s := slot (coordinate (key o)) in {|
  b_completeness := b_completeness st; b_accumulator := b_accumulator st;
  b_trade_samples := b_trade_samples st; b_liquidity_samples := b_liquidity_samples st;
  b_reserve_samples := b_reserve_samples st; b_price_points := b_price_points st;
  b_completion_keys := b_completion_keys st; b_migration_keys := b_migration_keys st;
  b_observation_keys := b_observation_keys st ++ [key o];
  b_latest_observed_slot :=
    Some (match b_latest_observed_slot st with None => s | Some old => Z.max old s end) |}.

Definition build_malformed (st : BuildState) (reason : string) : BuildState := {|
  b_completeness := mark_incomplete_if_complete (b_completeness st) reason;
  b_accumulator := b_accumulator st;
  b_trade_samples := b_trade_samples st; b_liquidity_samples := b_liquidity_samples st;
  b_reserve_samples := b_reserve_samples st; b_price_points := b_price_points st;
  b_completion_keys := b_completion_keys st; b_migration_keys := b_migration_keys st;
  b_observation_keys := b_observation_keys st;
  b_latest_observed_slot := b_latest_observed_slot st |}.

(** The [Trade] arm. *)
Definition build_trade (st : BuildState) o (side : TradeSide) (wallet : string)
    (base_amount_units quote_amount_units : Z)
    (base_reserve_units quote_reserve_units : option Z) : checked BuildState :=
  if is_empty (trim wallet) then Ok (build_malformed st INVALID_TRADE_WALLET_REASON)
  else if (base_amount_units =? 0) || (quote_amount_units =? 0)
  then Ok (build_malformed st INVALID_TRADE_AMOUNT_REASON)
  else
    ratio ← price_ratio_new quote_amount_units base_amount_units;
    accumulator ← acc_checked_record (b_accumulator st) side wallet
                    base_amount_units quote_amount_units;
    let sample := {|
      ts_observation_key := key o; ts_received_time_unix_ms := received_time_unix_ms o;
      ts_source_event_time_unix_ms := source_event_time_unix_ms o;
      ts_side := side; ts_wallet := wallet;
      ts_base_amount_units := base_amount_units;
      ts_quote_amount_units := quote_amount_units;
      ts_base_reserve_units := base_reserve_units;
      ts_quote_reserve_units := quote_reserve_units |} in
    let reserves :=
      if bool_decide (is_Some base_reserve_units) || bool_decide (is_Some quote_reserve_units)
      then [{| rs_observation_key := key o;
               rs_received_time_unix_ms := received_time_unix_ms o;
               rs_base_units := base_reserve_units;
               rs_quote_units := quote_reserve_units |}]
      else [] in
    Ok {|
      b_completeness := b_completeness st; b_accumulator := accumulator;
      b_trade_samples := b_trade_samples st ++ [sample];
      b_liquidity_samples := b_liquidity_samples st;
      b_reserve_samples := b_reserve_samples st ++ reserves;
      b_price_points := b_price_points st ++
        [{| pp_observation_key := key o;
            pp_received_time_unix_ms := received_time_unix_ms o; pp_ratio := ratio |}];
      b_completion_keys := b_completion_keys st; b_migration_keys := b_migration_keys st;
      b_observation_keys := b_observation_keys st;
      b_latest_observed_slot := b_latest_observed_slot st |}.

(** The [MarketCompleted] and [MarketMigrated] arms. *)
Definition build_completed (st : BuildState) o : BuildState := {|
  b_completeness := b_completeness st; b_accumulator := b_accumulator st;
  b_trade_samples := b_trade_samples st; b_liquidity_samples := b_liquidity_samples st;
  b_reserve_samples := b_reserve_samples st; b_price_points := b_price_points st;
  b_completion_keys := b_completion_keys st ++ [key o];
  b_migration_keys := b_migration_keys st;
  b_observation_keys := b_observation_keys st;
  b_latest_observed_slot := b_latest_observed_slot st |}.
Definition build_migrated (st : BuildState) o : BuildState := {|
  b_completeness := b_completeness st; b_accumulator := b_accumulator st;
  b_trade_samples := b_trade_samples st; b_liquidity_samples := b_liquidity_samples st;
  b_reserve_samples := b_reserve_samples st; b_price_points := b_price_points st;
  b_completion_keys := b_completion_keys st;
  b_migration_keys := b_migration_keys st ++ [key o];
  b_observation_keys := b_observation_keys st;
  b_latest_observed_slot := b_latest_observed_slot st |}.

(** The [LiquidityDeposited] and [LiquidityWithdrawn] arms. *)
Definition build_liquidity (st : BuildState) o (direction : LiquidityDirection)
    (provider : string)
    (base_amount quote_amount base_reserve quote_reserve lp_amount lp_supply : Z)
    : BuildState := {|
  b_completeness := b_completeness st; b_accumulator := b_accumulator st;
  b_trade_samples := b_trade_samples st;
  b_liquidity_samples := b_liquidity_samples st ++
    [{| ls_observation_key := key o; ls_received_time_unix_ms := received_time_unix_ms o;
        ls_source_event_time_unix_ms := source_event_time_unix_ms o;
        ls_direction := direction; ls_provider := provider;
        ls_base_amount_units := base_amount; ls_quote_amount_units := quote_amount;
        ls_base_reserve_units := base_reserve; ls_quote_reserve_units := quote_reserve;
        ls_lp_token_amount_units := lp_amount; ls_lp_token_supply_units := lp_supply |}];
  b_reserve_samples := b_reserve_samples st ++
    [{| rs_observation_key := key o; rs_received_time_unix_ms := received_time_unix_ms o;
        rs_base_units := Some base_reserve; rs_quote_units := Some quote_reserve |}];
  b_price_points := b_price_points st;
  b_completion_keys := b_completion_keys st; b_migration_keys := b_migration_keys st;
  b_observation_keys := b_observation_keys st;
  b_latest_observed_slot := b_latest_observed_slot st |}.

Definition build_step (st : BuildState) o : checked BuildState :=
  let st := build_seen st o in
  match payload o with
  | Trade side wallet base quote base_reserve quote_reserve =>
      build_trade st o side wallet base quote base_reserve quote_reserve
  | MarketCompleted _ => Ok (build_completed st o)
  | MarketMigrated _ _ _ _ => Ok (build_migrated st o)
  | LiquidityDeposited provider ba qa br qr la ls =>
      Ok (build_liquidity st o Deposit provider ba qa br qr la ls)
  | LiquidityWithdrawn provider ba qa br qr la ls =>
      Ok (build_liquidity st o Withdraw provider ba qa br qr la ls)
  | TokenCreated _ _ _ _ _ | MarketCreated _ _ _ => Ok st
  end.

Fixpoint build_loop (st : BuildState) (matching : list (NormalizedObservation J))
    : checked BuildState :=
  match matching with
  | [] => Ok st
  | o :: rest => st' ← build_step st o; build_loop st' rest
  end.

(** The [HashSet] loop: fails on the first key already seen. *)
Fixpoint check_duplicates (seen : list ObservationKey) (keys : list ObservationKey)
    : checked unit :=
  match keys with
  | [] => Ok tt
  | k :: rest =>
      if bool_decide (k ∈ seen) then Err (DuplicateObservation k)
      else check_duplicates (k :: seen) rest
  end.

Definition in_window (market_ : MarketIdentity) (opened closes : Z) o : bool :=
  bool_decide (market o = market_) && (opened <=? received_time_unix_ms o) &&
  (received_time_unix_ms o <? closes).

Definition payload_creator (p : ObservationPayload) : option string :=
  match p with
  | TokenCreated _ _ _ creator _ | MarketCreated creator _ _ => Some creator
  | _ => None
  end.

Definition build_market_window_snapshot (market_ : MarketIdentity)
    (opened_at_unix_ms closes_at_unix_ms : Z) (completeness : SnapshotCompleteness)
    (observations : list (NormalizedObservation J)) : checked MarketWindowSnapshot :=
  if closes_at_unix_ms <=? opened_at_unix_ms then Err InvalidWindowBounds else
  if match completeness with
     | Incomplete reason => is_empty (trim reason)
     | Complete => false
     end then Err MissingIncompleteReason else
  let matching := sort_by observation_order
    (List.filter (in_window market_ opened_at_unix_ms closes_at_unix_ms) observations) in
  _ ← check_duplicates [] (key <$> matching);
  let creator_wallets := bset_of_list
    (List.filter (fun c => negb (is_empty c)) (omap (fun o => payload_creator (payload o)) matching)) in
  st ← build_loop (build_init completeness) matching;
  observations ← usize_to_u64 (length (b_observation_keys st));
  metrics ← acc_finish (b_accumulator st) observations creator_wallets
              (head (b_trade_samples st)) (last (b_trade_samples st));
  let reserves := summarize_reserves (b_reserve_samples st) in
  prices ← summarize_prices (b_price_points st);
  Ok {| ms_market := market_;
        ms_opened_at_unix_ms := opened_at_unix_ms;
        ms_closes_at_unix_ms := closes_at_unix_ms;
        ms_completeness := b_completeness st;
        ms_observation_keys := b_observation_keys st;
        ms_trade_samples := b_trade_samples st;
        ms_liquidity_samples := b_liquidity_samples st;
        ms_metrics := metrics; ms_reserves := reserves; ms_prices := prices;
        ms_completion_observed := negb (bool_decide (b_completion_keys st = []));
        ms_migration_observed := negb (bool_decide (b_migration_keys st = []));
        ms_completion_observation_keys := b_completion_keys st;
        ms_migration_observation_keys := b_migration_keys st;
        ms_latest_observed_slot := b_latest_observed_slot st |}.
End Build.
