(* ===== verification/SnapshotSpec.v ===== *)
(** A declarative reference for the snapshot: what each accumulated vector
    holds as a function of the ordered observations, the metrics as sums over
    the accepted trades, and the proof that the loop of
    [build_market_window_snapshot] computes it without overflow. *)
From S2P Require Import Prelude.
From S2P Require Import ListFacts.
From S2P Require Import RustOrd.
From S2P Require Import BTree.
From S2P Require Import RustStr.
From S2P Require Import Domain.
From S2P Require Import SnapshotArith.
From S2P Require Import Snapshot.

(** ** Metrics of a list of trades *)
Definition side_samples (s : TradeSide) (l : list TradeSample) : list TradeSample :=
  List.filter (fun t => bool_decide (ts_side t = s)) l.
Definition wallet_samples (w : string) (l : list TradeSample) : list TradeSample :=
  List.filter (fun t => bool_decide (ts_wallet t = w)) l.

Definition metrics_of (l : list TradeSample) : WalletMetrics := {|
  wm_trades := Z.of_nat (length l);
  wm_buys := Z.of_nat (length (side_samples Buy l));
  wm_sells := Z.of_nat (length (side_samples Sell l));
  wm_buy_base_units := sum_of ts_base_amount_units (side_samples Buy l);
  wm_sell_base_units := sum_of ts_base_amount_units (side_samples Sell l);
  wm_buy_quote_units := sum_of ts_quote_amount_units (side_samples Buy l);
  wm_sell_quote_units := sum_of ts_quote_amount_units (side_samples Sell l) |}.

Definition wallets_of (l : list TradeSample) : btree string WalletMetrics :=
  (fun w => (w, metrics_of (wallet_samples w l))) <$>
    bset_elements (bset_of_list (ts_wallet <$> l)).

Definition accumulator_of (l : list TradeSample) : MetricsAccumulator :=
  {| acc_totals := metrics_of l; acc_wallets := wallets_of l |}.

(** The quote volume of a list of trades, both sides together. *)
Definition volume_of (l : list TradeSample) : Z := sum_of ts_quote_amount_units l.

Definition sample_ok (t : TradeSample) : Prop :=
  0 < ts_base_amount_units t <= u64_max /\ 0 < ts_quote_amount_units t <= u64_max.
Definition samples_ok (l : list TradeSample) : Prop :=
  Forall sample_ok l /\ Z.of_nat (length l) <= u64_max.

Lemma side_split (f : TradeSample -> Z) l :
  sum_of f (side_samples Buy l) + sum_of f (side_samples Sell l) = sum_of f l.
Proof.
  induction l as [|t l IH]; simpl; [done|]. destruct (ts_side t) eqn:E; simpl;
    fold (side_samples Buy l) (side_samples Sell l) in *; lia.
Qed.

Lemma side_length_split l :
  Z.of_nat (length (side_samples Buy l)) + Z.of_nat (length (side_samples Sell l)) =
  Z.of_nat (length l).
Proof.
  induction l as [|t l IH]; simpl; [done|]. destruct (ts_side t) eqn:E; simpl;
    fold (side_samples Buy l) (side_samples Sell l) in *; lia.
Qed.

Lemma samples_ok_filter p l : samples_ok l -> samples_ok (List.filter p l).
Proof.
  intros [H1 H2]. split; [by apply Forall_filter_b|]. pose proof (length_filter_le p l). lia.
Qed.

Lemma samples_ok_volume l :
  samples_ok l ->
  0 <= sum_of ts_base_amount_units l <= u64_max * u64_max /\
  0 <= sum_of ts_quote_amount_units l <= u64_max * u64_max.
Proof.
  intros [H1 H2].
  pose proof (sum_of_bounds ts_base_amount_units u64_max l) as Hb.
  pose proof (sum_of_bounds ts_quote_amount_units u64_max l) as Hq.
  assert (Z.of_nat (length l) * u64_max <= u64_max * u64_max).
  { apply Z.mul_le_mono_nonneg_r; [int_lia|done]. }
  assert (Forall (fun t => 0 <= ts_base_amount_units t <= u64_max) l /\
          Forall (fun t => 0 <= ts_quote_amount_units t <= u64_max) l) as [Hb' Hq'].
  { split; (eapply Forall_impl; [exact H1|]); unfold sample_ok; intros; lia. }
  specialize (Hb Hb'). specialize (Hq Hq'). lia.
Qed.

Lemma square_fits : u64_max * u64_max <= u128_max.
Proof. int_lia. Qed.

Lemma side_samples_snoc s l t :
  side_samples s (l ++ [t]) =
    if bool_decide (ts_side t = s) then side_samples s l ++ [t] else side_samples s l.
Proof.
  unfold side_samples. rewrite List.filter_app. simpl. case_bool_decide; [done|].
  by rewrite app_nil_r.
Qed.

(** Recording one more trade extends the metrics, without overflow. *)
Lemma wallet_checked_record_snoc l t :
  samples_ok (l ++ [t]) ->
  wallet_checked_record (metrics_of l) (ts_side t) (ts_base_amount_units t)
    (ts_quote_amount_units t) = Ok (metrics_of (l ++ [t])).
Proof.
  intros Hok. pose proof square_fits as Hsq. pose proof Hok as [_ Hlen].
  assert (samples_ok (side_samples (ts_side t) (l ++ [t]))) as Hside by (by apply samples_ok_filter).
  pose proof (samples_ok_volume _ Hside) as [Hb Hq]. pose proof (proj2 Hside) as Hc. clear Hside.
  unfold wallet_checked_record, metrics_of.
  rewrite !side_samples_snoc in *. rewrite bool_decide_eq_true_2 in Hb, Hq, Hc by done.
  rewrite length_app in *. simpl length in *.
  rewrite sum_of_app in *. simpl in Hb, Hq.
  destruct (ts_side t); simpl;
    rewrite !checked_add_Ok by lia; simpl; rewrite !sum_of_app, !length_app; simpl;
    do 2 f_equal; lia.
Qed.

Lemma wallet_record_bounds l t : samples_ok (l ++ [t]) -> samples_ok l.
Proof.
  intros [H1 H2]. rewrite length_app in H2. apply Forall_app in H1 as [H1 _].
  simpl in H2. split; [done|lia].
Qed.

(** *** The wallet map *)
Lemma wallets_of_keys l : bt_keys (wallets_of l) = bset_elements (bset_of_list (ts_wallet <$> l)).
Proof.
  unfold bt_keys, wallets_of. rewrite <- list_fmap_compose. simpl. apply list_fmap_id.
Qed.

Lemma wallets_of_wf l : bt_wf (wallets_of l).
Proof.
  pose proof (bset_of_list_wf (ts_wallet <$> l)) as H. unfold bt_wf, wallets_of, bset_elements in *.
  induction H as [|[w u] s Hs IH Hw]; simpl; constructor; [done|].
  rewrite !Forall_fmap. eapply Forall_impl; [done|]. done.
Qed.

Lemma wallets_of_elem l w m :
  (w, m) ∈ wallets_of l <-> w ∈ ts_wallet <$> l /\ m = metrics_of (wallet_samples w l).
Proof.
  unfold wallets_of. split.
  - intros H. apply list_elem_of_fmap in H as (w' & Hp & Hw). injection Hp as -> ->. split; [|done]. by apply bset_elem.
  - intros [Hw ->]. apply list_elem_of_fmap. exists w. split; [done|]. by apply bset_elem.
Qed.

Lemma wallet_samples_nil w l : wallet_samples w l = [] <-> ~ w ∈ ts_wallet <$> l.
Proof.
  induction l as [|t l IH]; simpl.
  { split; [intros _; by intros ?%elem_of_nil|done]. }
  unfold wallet_samples in *. simpl. rewrite elem_of_cons.
  case_bool_decide as Hw; [subst; naive_solver|]. rewrite IH. naive_solver.
Qed.

Lemma wallets_of_get l w :
  bt_get w (wallets_of l) =
    if bool_decide (w ∈ ts_wallet <$> l) then Some (metrics_of (wallet_samples w l)) else None.
Proof.
  case_bool_decide as Hw.
  - apply bt_get_elem; [apply wallets_of_wf|]. by apply wallets_of_elem.
  - destruct (bt_get w (wallets_of l)) as [m|] eqn:E; [|done].
    apply bt_get_elem in E; [|apply wallets_of_wf]. by apply wallets_of_elem in E as [? _].
Qed.

Lemma wallets_of_default l w :
  default wallet_metrics_default (bt_get w (wallets_of l)) = metrics_of (wallet_samples w l).
Proof.
  rewrite wallets_of_get. case_bool_decide as Hw; [done|].
  by rewrite (proj2 (wallet_samples_nil w l) Hw).
Qed.

Lemma wallets_of_snoc l t :
  wallets_of (l ++ [t]) =
    bt_insert (ts_wallet t) (metrics_of (wallet_samples (ts_wallet t) (l ++ [t]))) (wallets_of l).
Proof.
  apply bt_wf_ext; [apply wallets_of_wf|apply bt_wf_insert, wallets_of_wf|].
  intros w. rewrite wallets_of_get, fmap_app. simpl.
  destruct (decide (w = ts_wallet t)) as [->|Hne].
  - rewrite bt_get_insert_eq, bool_decide_eq_true_2; [done|set_solver].
  - rewrite bt_get_insert_ne, wallets_of_get by done.
    unfold wallet_samples. rewrite List.filter_app. simpl.
    rewrite (bool_decide_eq_false_2 (ts_wallet t = w)), app_nil_r by congruence.
    apply (f_equal (fun b : bool => if b then _ else _)). apply bool_decide_ext. set_solver.
Qed.

(** [MetricsAccumulator::checked_record] extends the reference. *)
Lemma acc_checked_record_snoc l t :
  samples_ok (l ++ [t]) ->
  acc_checked_record (accumulator_of l) (ts_side t) (ts_wallet t) (ts_base_amount_units t)
    (ts_quote_amount_units t) = Ok (accumulator_of (l ++ [t])).
Proof.
  intros Hok. pose proof (wallet_checked_record_snoc l t Hok) as Ht.
  assert (wallet_checked_record (metrics_of (wallet_samples (ts_wallet t) l)) (ts_side t)
    (ts_base_amount_units t) (ts_quote_amount_units t) =
    Ok (metrics_of (wallet_samples (ts_wallet t) (l ++ [t])))) as Hw.
  { assert (wallet_samples (ts_wallet t) (l ++ [t]) = wallet_samples (ts_wallet t) l ++ [t]) as E.
    { unfold wallet_samples. rewrite List.filter_app. simpl. by rewrite bool_decide_eq_true_2. }
    pose proof (samples_ok_filter (fun t' => bool_decide (ts_wallet t' = ts_wallet t)) _ Hok) as Hf.
    fold (wallet_samples (ts_wallet t) (l ++ [t])) in Hf. rewrite E in Hf |- *.
    by apply wallet_checked_record_snoc. }
  unfold acc_checked_record, accumulator_of. cbn [acc_totals acc_wallets].
  rewrite wallets_of_default, Hw, wallets_of_snoc.
  unfold wallet_checked_record in Ht.
  apply bind_Ok in Ht as (n & -> & Ht).
  destruct (ts_side t); simpl in Ht |- *; by rewrite Ht.
Qed.

(** ** The accumulated vectors *)
Section Vectors.
Context {J : Type}.
Implicit Types (o : NormalizedObservation J).

Definition malformed_reason o : option string :=
  match payload o with
  | Trade _ wallet base quote _ _ =>
      if is_empty (trim wallet) then Some INVALID_TRADE_WALLET_REASON
      else if (base =? 0) || (quote =? 0) then Some INVALID_TRADE_AMOUNT_REASON
      else None
  | _ => None
  end.

(** The sample of a well-formed trade. *)
Definition accepted_trade o : option TradeSample :=
  match payload o, malformed_reason o with
  | Trade side wallet base quote base_reserve quote_reserve, None => Some {|
      ts_observation_key := key o; ts_received_time_unix_ms := received_time_unix_ms o;
      ts_source_event_time_unix_ms := source_event_time_unix_ms o;
      ts_side := side; ts_wallet := wallet; ts_base_amount_units := base;
      ts_quote_amount_units := quote; ts_base_reserve_units := base_reserve;
      ts_quote_reserve_units := quote_reserve |}
  | _, _ => None
  end.

Definition liquidity_of o : option LiquiditySample :=
  let sample d p ba qa br qr la ls := Some {|
    ls_observation_key := key o; ls_received_time_unix_ms := received_time_unix_ms o;
    ls_source_event_time_unix_ms := source_event_time_unix_ms o;
    ls_direction := d; ls_provider := p; ls_base_amount_units := ba;
    ls_quote_amount_units := qa; ls_base_reserve_units := br; ls_quote_reserve_units := qr;
    ls_lp_token_amount_units := la; ls_lp_token_supply_units := ls |} in
  match payload o with
  | LiquidityDeposited p ba qa br qr la ls => sample Deposit p ba qa br qr la ls
  | LiquidityWithdrawn p ba qa br qr la ls => sample Withdraw p ba qa br qr la ls
  | _ => None
  end.

(** Reserves are sampled at accepted trades that report any, and at every
    liquidity change. *)
Definition reserve_of o : option ReserveSample :=
  let sample b q := Some {|
    rs_observation_key := key o; rs_received_time_unix_ms := received_time_unix_ms o;
    rs_base_units := b; rs_quote_units := q |} in
  match payload o with
  | Trade _ _ _ _ base_reserve quote_reserve =>
      match malformed_reason o, base_reserve, quote_reserve with
      | None, Some _, _ | None, _, Some _ => sample base_reserve quote_reserve
      | _, _, _ => None
      end
  | LiquidityDeposited _ _ _ br qr _ _ | LiquidityWithdrawn _ _ _ br qr _ _ =>
      sample (Some br) (Some qr)
  | _ => None
  end.

(** The price point of an accepted trade: its exact quote/base ratio. *)
Definition price_of o : option PricePoint :=
  t ← accepted_trade o;
  ratio ← result_ok (price_ratio_new (ts_quote_amount_units t) (ts_base_amount_units t));
  Some {| pp_observation_key := key o; pp_received_time_unix_ms := received_time_unix_ms o;
          pp_ratio := ratio |}.

Definition completed_key o : option ObservationKey :=
  match payload o with MarketCompleted _ => Some (key o) | _ => None end.
Definition migrated_key o : option ObservationKey :=
  match payload o with MarketMigrated _ _ _ _ => Some (key o) | _ => None end.

(** The first cause of incompleteness wins. *)
Definition completeness_of (c : SnapshotCompleteness) (l : list (NormalizedObservation J))
    : SnapshotCompleteness :=
  match c, head (omap malformed_reason l) with
  | Complete, Some reason => Incomplete reason
  | _, _ => c
  end.

Definition max_slot (l : list (NormalizedObservation J)) : option Z :=
  fold_left (fun acc o => let s := slot (coordinate (key o)) in
    Some (match acc with None => s | Some old => Z.max old s end)) l None.

Definition state_of (c : SnapshotCompleteness) (l : list (NormalizedObservation J))
    : BuildState := {|
  b_completeness := completeness_of c l;
  b_accumulator := accumulator_of (omap accepted_trade l);
  b_trade_samples := omap accepted_trade l;
  b_liquidity_samples := omap liquidity_of l;
  b_reserve_samples := omap reserve_of l;
  b_price_points := omap price_of l;
  b_completion_keys := omap completed_key l;
  b_migration_keys := omap migrated_key l;
  b_observation_keys := key <$> l;
  b_latest_observed_slot := max_slot l |}.

(** The amounts of an observation are [u64] values. *)
Definition observation_typed o : Prop :=
  match payload o with
  | Trade _ _ base quote _ _ => in_uint 64 base /\ in_uint 64 quote
  | _ => True
  end.

Lemma accepted_trade_ok o t : observation_typed o -> accepted_trade o = Some t -> sample_ok t.
Proof.
  unfold accepted_trade, malformed_reason, observation_typed, sample_ok, in_uint.
  destruct (payload o); try done. intros [Hb Hq].
  destruct (is_empty (trim wallet)); [done|].
  destruct (Z.eqb_spec base_amount_units 0); [done|].
  destruct (Z.eqb_spec quote_amount_units 0); [done|].
  simpl. intros [= <-]. simpl. lia.
Qed.

Lemma omap_length {A B} (f : A -> option B) l : (length (omap f l) <= length l)%nat.
Proof. induction l as [|x l IH]; csimpl; [lia|]. destruct (f x); csimpl; lia. Qed.

Lemma accepted_samples_ok (l : list (NormalizedObservation J)) :
  Forall observation_typed l -> Z.of_nat (length l) <= u64_max ->
  samples_ok (omap accepted_trade l).
Proof.
  intros Ht Hlen. split.
  - rewrite Forall_forall. intros t Hin. apply list_elem_of_omap in Hin as (o & Hin & Ho).
    rewrite Forall_forall in Ht. eauto using accepted_trade_ok.
  - pose proof (omap_length accepted_trade l). lia.
Qed.

Lemma completeness_of_snoc c l o :
  completeness_of c (l ++ [o]) =
    match malformed_reason o with
    | Some r => mark_incomplete_if_complete (completeness_of c l) r
    | None => completeness_of c l
    end.
Proof.
  unfold completeness_of, mark_incomplete_if_complete. rewrite omap_app. simpl.
  destruct c; [|by destruct (malformed_reason o)].
  destruct (omap malformed_reason l) as [|r rs]; simpl; [|by destruct (malformed_reason o)].
  by destruct (malformed_reason o).
Qed.

Lemma max_slot_snoc l o :
  max_slot (l ++ [o]) =
    Some (match max_slot l with
          | None => slot (coordinate (key o))
          | Some old => Z.max old (slot (coordinate (key o)))
          end).
Proof. unfold max_slot. by rewrite fold_left_app. Qed.

Lemma state_of_nil c : state_of c [] = build_init c.
Proof. by destruct c. Qed.

(** The state reached by processing [l ++ [o]] differs from that of [l] by one
    loop iteration. *)
Lemma build_step_snoc c l o :
  samples_ok (omap accepted_trade (l ++ [o])) ->
  build_step (state_of c l) o = Ok (state_of c (l ++ [o])).
Proof.
  intros Hok. unfold state_of at 2.
  rewrite completeness_of_snoc, max_slot_snoc, !omap_app, fmap_app in *. csimpl in *.
  unfold build_step, build_seen, malformed_reason, accepted_trade, liquidity_of, reserve_of,
    price_of, completed_key, migrated_key in *. cbn [state_of b_completeness b_accumulator
    b_trade_samples b_liquidity_samples b_reserve_samples b_price_points b_completion_keys
    b_migration_keys b_observation_keys b_latest_observed_slot].
  unfold accepted_trade, malformed_reason in *.
  destruct (payload o) as [| |side wallet base quote br qr| | | |] eqn:E; csimpl in *;
    rewrite ?app_nil_r; try done.
  unfold build_trade. destruct (is_empty (trim wallet)); csimpl in *.
  { by rewrite !app_nil_r. }
  destruct ((base =? 0) || (quote =? 0)) eqn:Ez; csimpl in *.
  { by rewrite !app_nil_r. }
  pose proof (acc_checked_record_snoc _ _ Hok) as Hacc. simpl in Hacc.
  apply proj1 in Hok. apply Forall_app in Hok as [_ Hok]. apply Forall_cons in Hok as [[Hb Hq] _].
  simpl in Hb, Hq.
  destruct (price_ratio_new_Ok quote base) as (r & -> & _); [lia..|]. csimpl.
  rewrite Hacc. csimpl. by destruct br, qr.
Qed.

Lemma build_loop_state c l1 l2 :
  samples_ok (omap accepted_trade (l1 ++ l2)) ->
  build_loop (state_of c l1) l2 = Ok (state_of c (l1 ++ l2)).
Proof.
  revert l1. induction l2 as [|o l2 IH]; intros l1 Hok; simpl; [by rewrite app_nil_r|].
  change (o :: l2) with ([o] ++ l2) in *. rewrite app_assoc in *.
  rewrite build_step_snoc; simpl; [by apply IH|].
  rewrite omap_app in Hok. destruct Hok as [Hok Hlen]. apply Forall_app in Hok as [Hok _].
  split; [done|]. rewrite length_app in Hlen. lia.
Qed.

(** The whole loop computes the reference state. *)
Lemma build_loop_reference c (l : list (NormalizedObservation J)) :
  Forall observation_typed l -> Z.of_nat (length l) <= u64_max ->
  build_loop (build_init c) l = Ok (state_of c l).
Proof.
  intros Ht Hlen. rewrite <- state_of_nil. apply build_loop_state.
  by apply accepted_samples_ok.
Qed.
End Vectors.

(** ** [finish] *)
Lemma total_quote_units_volume l :
  samples_ok l -> total_quote_units (metrics_of l) = Ok (volume_of l).
Proof.
  intros Hok. pose proof square_fits. pose proof (samples_ok_volume _ Hok) as [_ Hv].
  unfold total_quote_units, metrics_of, volume_of. simpl.
  rewrite checked_add_Ok; rewrite side_split; [done|lia].
Qed.

Lemma wallet_volume_le w l :
  samples_ok l -> 0 <= volume_of (wallet_samples w l) <= volume_of l.
Proof.
  intros [Hok _]. apply sum_of_filter_le. eapply Forall_impl; [exact Hok|].
  unfold sample_ok. intros; lia.
Qed.

(** The candidate a wallet offers to the largest-wallet loop. *)
Definition wallet_share (l : list TradeSample) (w : string) : WalletVolumeShare :=
  let v := volume_of (wallet_samples w l) in
  {| wvs_wallet := w; wvs_quote_volume_units := v; wvs_share_bps := ceil_bps v (volume_of l) |}.

Definition larger_wallet (x y : WalletVolumeShare) : bool :=
  wvs_quote_volume_units x >? wvs_quote_volume_units y.

Lemma largest_wallet_loop_spec l cur ws :
  samples_ok l -> 0 < volume_of l ->
  largest_wallet_loop (volume_of l) cur ((fun w => (w, metrics_of (wallet_samples w l))) <$> ws) =
    Ok (fold_left (fun cur x => if match cur with None => true | Some c => larger_wallet x c end
                                then Some x else cur) (wallet_share l <$> ws) cur).
Proof.
  intros Hok Hv. revert cur. induction ws as [|w ws IH]; intros cur; simpl; [done|].
  rewrite total_quote_units_volume by (by apply samples_ok_filter). simpl.
  unfold larger_wallet at 2. simpl.
  pose proof (wallet_volume_le w l Hok). pose proof (samples_ok_volume _ Hok) as [_ Hb].
  pose proof square_fits. unfold volume_of in *.
  rewrite fraction_to_basis_points_spec; [|lia|lia|unfold in_uint; lia].
  destruct cur as [c|]; [|apply IH].
  destruct (_ >? wvs_quote_volume_units c); apply IH.
Qed.

Definition largest_wallet (l : list TradeSample) : option WalletVolumeShare :=
  fold_best_opt larger_wallet (wallet_share l <$> bset_elements (bset_of_list (ts_wallet <$> l))).

Lemma volume_pos l : samples_ok l -> l <> [] -> 0 < volume_of l.
Proof.
  intros [Hok _] Hne. destruct l as [|t l]; [done|]. apply Forall_cons in Hok as [[_ Ht] Hok].
  unfold volume_of. rewrite sum_of_cons.
  pose proof (sum_of_bounds ts_quote_amount_units u64_max l).
  assert (Forall (fun t => 0 <= ts_quote_amount_units t <= u64_max) l).
  { eapply Forall_impl; [exact Hok|]. unfold sample_ok. intros; lia. }
  specialize (H H0). lia.
Qed.

Lemma largest_wallet_Ok l :
  samples_ok l -> largest_wallet_loop (volume_of l) None (wallets_of l) = Ok (largest_wallet l).
Proof.
  intros Hok. destruct (decide (l = [])) as [->|Hne]; [done|].
  apply largest_wallet_loop_spec; [done|]. by apply volume_pos.
Qed.

(** *** Creators *)
Definition creators_volume (l : list TradeSample) (creators : list string) : Z :=
  sum_of (fun c => volume_of (wallet_samples c l)) creators.

Lemma creators_volume_le l creators :
  samples_ok l -> NoDup creators -> 0 <= creators_volume l creators <= volume_of l.
Proof.
  intros Hok Hnd.
  assert (forall l', samples_ok l' -> 0 <= volume_of l') as Hpos.
  { intros l' Hl'. pose proof (samples_ok_volume _ Hl') as [_ ?]. unfold volume_of. lia. }
  split.
  { unfold creators_volume. clear Hnd. induction creators as [|c cs IH]; [done|].
    rewrite sum_of_cons. pose proof (wallet_volume_le c l Hok). lia. }
  set (p := fun t => bool_decide (ts_wallet t ∈ creators)).
  transitivity (volume_of (List.filter p l)).
  - unfold creators_volume, volume_of, wallet_samples. apply Z.eq_le_incl.
    rewrite <- (sum_of_groups ts_wallet ts_quote_amount_units creators (List.filter p l)); [|done|].
    + apply sum_of_ext. intros c Hc. f_equal. unfold p. clear -Hc.
      induction l as [|t l IH]; simpl; [done|].
      case_bool_decide as Hw; case_bool_decide as Hp; simpl.
      * rewrite bool_decide_eq_true_2 by done. by rewrite IH.
      * destruct Hp. by rewrite Hw.
      * by rewrite bool_decide_eq_false_2.
      * done.
    + intros t [Ht _]%filter_subset. unfold p in Ht. by rewrite bool_decide_eq_true in Ht.
  - apply sum_of_filter_le. destruct Hok as [Hok _]. eapply Forall_impl; [exact Hok|].
    unfold sample_ok. intros; lia.
Qed.

Lemma creator_volume_loop_spec l volume creators :
  samples_ok l -> 0 <= volume -> volume + creators_volume l creators <= u128_max ->
  creator_volume_loop (wallets_of l) volume creators = Ok (volume + creators_volume l creators).
Proof.
  intros Hok. revert volume. induction creators as [|c cs IH]; intros volume Hv Hb; simpl.
  { f_equal. unfold creators_volume. simpl. lia. }
  unfold creators_volume in *. rewrite sum_of_cons in *.
  pose proof (wallet_volume_le c l Hok) as Hw.
  assert (0 <= sum_of (fun c => volume_of (wallet_samples c l)) cs) as Hcs.
  { clear -Hok. induction cs as [|c' cs IH]; [done|]. rewrite sum_of_cons.
    pose proof (wallet_volume_le c' l Hok). lia. }
  rewrite wallets_of_get. case_bool_decide as Hin; simpl.
  - rewrite total_quote_units_volume by (by apply samples_ok_filter). simpl.
    rewrite checked_add_Ok by lia. simpl. rewrite IH by lia. f_equal. lia.
  - rewrite (proj2 (wallet_samples_nil c l) Hin) in *.
    change (volume_of []) with 0 in *. by rewrite IH by lia.
Qed.

(** The snapshot as a function of its window: totality with the exact error
    cases, equality with the declarative reference, and the consequences
    consumers rely on (conservation, order independence, fail-closed
    completeness, exact extremes). *)
(** ** [finish] and the summaries *)
Definition creator_share (l : list TradeSample) (creators : btree_set string)
    : option CreatorVolumeShare :=
  if bool_decide (creators = []) then None
  else
    let v := creators_volume l (bset_elements creators) in
    Some {| cvs_creator_wallets := bset_elements creators; cvs_quote_volume_units := v;
            cvs_share_bps :=
              if volume_of l >? 0 then Some (ceil_bps v (volume_of l)) else None |}.

Definition count_wallets (p : WalletMetrics -> bool) (l : list TradeSample) : Z :=
  Z.of_nat (length (List.filter p (bt_values (wallets_of l)))).

Definition window_metrics (n : Z) (creators : btree_set string) (l : list TradeSample)
    : MarketWindowMetrics :=
  let t := metrics_of l in {|
  mm_observations := n; mm_trades := wm_trades t; mm_buys := wm_buys t; mm_sells := wm_sells t;
  mm_buy_base_units := wm_buy_base_units t; mm_sell_base_units := wm_sell_base_units t;
  mm_buy_quote_units := wm_buy_quote_units t; mm_sell_quote_units := wm_sell_quote_units t;
  mm_unique_traders := Z.of_nat (length (wallets_of l));
  mm_unique_buyers := count_wallets (fun m => wm_buys m >? 0) l;
  mm_unique_sellers := count_wallets (fun m => wm_sells m >? 0) l;
  mm_wallets := wallets_of l;
  mm_largest_wallet_quote_volume := largest_wallet l;
  mm_creator_quote_volume := creator_share l creators;
  mm_first_trade_received_at_unix_ms := ts_received_time_unix_ms <$> head l;
  mm_last_trade_received_at_unix_ms := ts_received_time_unix_ms <$> last l;
  mm_first_trade_slot := (fun s => slot (coordinate (ts_observation_key s))) <$> head l;
  mm_last_trade_slot := (fun s => slot (coordinate (ts_observation_key s))) <$> last l |}.

Lemma bset_length_le {K} `{RustOrd K} (l : list K) :
  (length (bset_elements (bset_of_list l)) <= length l)%nat.
Proof.
  assert (forall s, (length (fold_left (fun s k => bset_insert k s) l s) <= length l + length s)%nat)
    as Hf.
  { induction l as [|k l IH]; intros s; simpl; [lia|].
    specialize (IH (bset_insert k s)). unfold bset_insert in *.
    pose proof (bt_length_insert_le k tt s). lia. }
  specialize (Hf []). unfold bset_elements, bset_of_list. rewrite length_fmap.
  simpl in Hf. lia.
Qed.

Lemma length_wallets_le l : (length (wallets_of l) <= length l)%nat.
Proof.
  unfold wallets_of. rewrite length_fmap. pose proof (bset_length_le (ts_wallet <$> l)) as H.
  by rewrite length_fmap in H.
Qed.

Lemma usize_to_u64_Ok n : Z.of_nat n <= u64_max -> usize_to_u64 n = Ok (Z.of_nat n).
Proof.
  intros H. apply overflow_Ok, try_from_u_Some. split; [done|]. unfold in_uint. lia.
Qed.

Lemma acc_finish_reference n creators l :
  samples_ok l -> bt_wf creators ->
  acc_finish (accumulator_of l) n creators (head l) (last l) = Ok (window_metrics n creators l).
Proof.
  intros Hok Hwf. unfold acc_finish, accumulator_of. cbn [acc_totals acc_wallets].
  change (checked_add 128 _ _) with (total_quote_units (metrics_of l)).
  pose proof (length_wallets_le l) as Hlen. pose proof (proj2 Hok).
  rewrite total_quote_units_volume by done. cbn [mbind result_bind].
  assert (forall p, usize_to_u64 (length (List.filter p (bt_values (wallets_of l)))) =
    Ok (count_wallets p l)) as Hcount.
  { intros p. apply usize_to_u64_Ok. pose proof (length_filter_le p (bt_values (wallets_of l))) as Hp.
    unfold bt_values in Hp at 2. rewrite length_fmap in Hp. lia. }
  rewrite (usize_to_u64_Ok (length (wallets_of l))) by lia. cbn [mbind result_bind].
  rewrite !Hcount. cbn [mbind result_bind]. rewrite largest_wallet_Ok by done.
  cbn [mbind result_bind].
  pose proof (samples_ok_volume _ Hok) as [_ Hb]. pose proof square_fits.
  pose proof (creators_volume_le l (bset_elements creators) Hok (bt_keys_NoDup _ Hwf)) as Hc.
  fold (volume_of l) in Hb. unfold window_metrics, creator_share.
  case_bool_decide; cbn [mbind result_bind]; [done|].
  rewrite creator_volume_loop_spec, Z.add_0_l by (done || lia). cbn [mbind result_bind].
  destruct (Z.gtb_spec (volume_of l) 0); cbn [mbind result_bind]; [|done].
  rewrite fraction_to_basis_points_spec; [done|lia|lia|unfold in_uint; lia].
Qed.

(** *** Prices *)
Definition cheaper (p q : PricePoint) : bool :=
  pr_quote_units (pp_ratio p) * pr_base_units (pp_ratio q) <?
  pr_quote_units (pp_ratio q) * pr_base_units (pp_ratio p).
Definition dearer (p q : PricePoint) : bool := cheaper q p.
Definition point_ok (p : PricePoint) : Prop := ratio_in_u64 (pp_ratio p).

Lemma cheaper_trans x y z :
  point_ok x -> point_ok y -> point_ok z ->
  cheaper x y = true -> cheaper y z = true -> cheaper x z = true.
Proof. unfold cheaper, point_ok, ratio_in_u64. rewrite !Z.ltb_lt. intros. nia. Qed.

Lemma cheaper_cotrans x y z :
  point_ok x -> point_ok y -> point_ok z ->
  cheaper x z = true -> cheaper y z = false -> cheaper x y = true.
Proof. unfold cheaper, point_ok, ratio_in_u64. rewrite !Z.ltb_lt, Z.ltb_ge. intros. nia. Qed.

Lemma price_extremes_spec low high pts :
  Forall point_ok (low :: high :: pts) ->
  price_extremes low high pts = Ok (fold_best cheaper low pts, fold_best dearer high pts).
Proof.
  revert low high. induction pts as [|p pts IH]; intros low high Hok; [done|].
  apply Forall_cons in Hok as [Hl Hok]. apply Forall_cons in Hok as [Hh Hok].
  apply Forall_cons in Hok as [Hp Hok]. unfold point_ok in *.
  cbn [price_extremes]. rewrite !price_checked_cmp_u64 by done. cbn [mbind result_bind].
  unfold fold_best. cbn [fold_left].
  set (cl := _ ?= _). set (ch := _ ?= _).
  assert (match cl with Lt => p | _ => low end = if cheaper p low then p else low) as ->.
  { unfold cl, cheaper, Z.ltb. by destruct (_ ?= _). }
  assert (match ch with Gt => p | _ => high end = if dearer p high then p else high) as ->.
  { unfold ch, dearer, cheaper. generalize (pr_quote_units (pp_ratio p) * pr_base_units (pp_ratio high)).
    intros a. generalize (pr_quote_units (pp_ratio high) * pr_base_units (pp_ratio p)). intros b.
    destruct (Z.compare_spec a b), (Z.ltb_spec b a); done || lia. }
  apply IH. destruct (cheaper p low), (dearer p high);
    by repeat (apply Forall_cons_2; [done|]).
Qed.

Definition price_summary (pts : list PricePoint) : option PriceSummary :=
  match pts with
  | [] => None
  | first :: rest => Some {|
      ps_first := first; ps_last := List.last pts first;
      ps_low := fold_best cheaper first rest; ps_high := fold_best dearer first rest;
      ps_change_bps :=
        result_ok (price_change_basis_points (pp_ratio first) (pp_ratio (List.last pts first))) |}
  end.

Lemma summarize_prices_reference pts :
  Forall point_ok pts -> summarize_prices pts = Ok (price_summary pts).
Proof.
  destruct pts as [|p pts]; [done|]. intros Hok. unfold summarize_prices.
  rewrite price_extremes_spec; [done|]. apply Forall_cons in Hok as [? ?].
  by repeat (apply Forall_cons_2; [done|]).
Qed.

(** *** Duplicate detection *)
Lemma check_duplicates_spec seen ks :
  match check_duplicates seen ks with
  | Ok _ => NoDup ks /\ forall k, k ∈ ks -> ~ k ∈ seen
  | Err e => exists k pre post, e = DuplicateObservation k /\ ks = pre ++ k :: post /\
      NoDup pre /\ (forall k', k' ∈ pre -> ~ k' ∈ seen) /\ (k ∈ seen \/ k ∈ pre)
  end.
Proof.
  revert seen. induction ks as [|k ks IH]; intros seen; simpl.
  { split; [constructor|]. by intros ? ?%elem_of_nil. }
  case_bool_decide as Hk.
  { exists k, [], ks. split_and!; [done|done|constructor|by intros ? ?%elem_of_nil|by left]. }
  specialize (IH (k :: seen)). destruct (check_duplicates (k :: seen) ks) as [|e].
  - destruct IH as [Hnd Hs]. split.
    + constructor; [|done]. intros Hin. apply (Hs _ Hin). left.
    + intros k' [->|Hin]%elem_of_cons; [done|]. intros Hk'. apply (Hs _ Hin). by right.
  - destruct IH as (k0 & pre & post & -> & -> & Hnd & Hs & Hin).
    exists k0, (k :: pre), post. split_and!; try done.
    + constructor; [|done]. intros Hin'. apply (Hs _ Hin'). left.
    + intros k' [->|Hin']%elem_of_cons; [done|]. intros Hk'. apply (Hs _ Hin'). by right.
    + destruct Hin as [[->|?]%elem_of_cons|?]; [right; left|by left|right; by right].
Qed.

(** ** The whole snapshot *)
Section Reference.
Context {J : Type}.
Implicit Types (o : NormalizedObservation J) (l obs : list (NormalizedObservation J)).

(** The observations of the window, in canonical order. *)
Definition window_observations (m : MarketIdentity) (opened closes : Z) obs :=
  sort_by observation_order (List.filter (in_window m opened closes) obs).

Definition window_creators l : btree_set string :=
  bset_of_list (List.filter (fun c => negb (is_empty c))
    (omap (fun o => payload_creator (payload o)) l)).

Definition snapshot_of (m : MarketIdentity) (opened closes : Z) (c : SnapshotCompleteness) l
    : MarketWindowSnapshot := {|
  ms_market := m; ms_opened_at_unix_ms := opened; ms_closes_at_unix_ms := closes;
  ms_completeness := completeness_of c l;
  ms_observation_keys := key <$> l;
  ms_trade_samples := omap accepted_trade l;
  ms_liquidity_samples := omap liquidity_of l;
  ms_metrics := window_metrics (Z.of_nat (length l)) (window_creators l) (omap accepted_trade l);
  ms_reserves := summarize_reserves (omap reserve_of l);
  ms_prices := price_summary (omap price_of l);
  ms_completion_observed := negb (bool_decide (omap completed_key l = []));
  ms_migration_observed := negb (bool_decide (omap migrated_key l = []));
  ms_completion_observation_keys := omap completed_key l;
  ms_migration_observation_keys := omap migrated_key l;
  ms_latest_observed_slot := max_slot l |}.

Lemma prices_ok l : Forall observation_typed l -> Forall point_ok (omap price_of l).
Proof.
  rewrite !Forall_forall. intros Ht p Hp.
  apply list_elem_of_omap in Hp as (o & Ho & Hp). unfold price_of in Hp.
  destruct (accepted_trade o) as [t|] eqn:Et; [|done]. csimpl in *.
  destruct (accepted_trade_ok o t (Ht _ Ho) Et) as [Hb Hq].
  destruct (price_ratio_new_Ok _ _ Hq Hb) as (r & Hr & Hok & _). rewrite Hr in Hp.
  simpl in Hp. injection Hp as <-. done.
Qed.

Definition blank_reason (c : SnapshotCompleteness) : bool :=
  match c with Incomplete reason => is_empty (trim reason) | Complete => false end.

Lemma build_eq m opened closes c obs :
  Forall observation_typed obs -> Z.of_nat (length obs) <= u64_max ->
  build_market_window_snapshot m opened closes c obs =
    if closes <=? opened then Err InvalidWindowBounds
    else if blank_reason c then Err MissingIncompleteReason
    else
      let l := window_observations m opened closes obs in
      _ ← check_duplicates [] (key <$> l); Ok (snapshot_of m opened closes c l).
Proof.
  intros Ht Hlen. unfold build_market_window_snapshot, blank_reason.
  destruct (closes <=? opened); [done|].
  destruct (match c with Complete => _ | Incomplete _ => _ end); [done|]. cbv zeta.
  fold (window_observations m opened closes obs).
  set (l := window_observations m opened closes obs).
  destruct (check_duplicates [] (key <$> l)) as [[]|e]; [|done]. cbn [mbind result_bind].
  assert (Forall observation_typed l) as Htl.
  { unfold l, window_observations. rewrite sort_by_perm. by apply Forall_filter_b. }
  assert (Z.of_nat (length l) <= u64_max) as Hl.
  { unfold l, window_observations. rewrite sort_by_length.
    pose proof (length_filter_le (in_window m opened closes) obs). lia. }
  rewrite build_loop_reference by done. cbn [mbind result_bind state_of b_observation_keys
    b_accumulator b_trade_samples b_price_points b_completeness b_liquidity_samples
    b_reserve_samples b_completion_keys b_migration_keys b_latest_observed_slot].
  rewrite usize_to_u64_Ok by (by rewrite length_fmap). cbn [mbind result_bind].
  rewrite acc_finish_reference;
    [|by apply accepted_samples_ok|apply bset_of_list_wf]. cbn [mbind result_bind].
  rewrite summarize_prices_reference by (by apply prices_ok). cbn [mbind result_bind].
  unfold snapshot_of. by rewrite length_fmap.
Qed.
End Reference.
