(* ===== verification/SnapshotTheorems.v ===== *)
(** What consumers of a snapshot rely on. *)
From S2P Require Import Prelude.
From S2P Require Import ListFacts.
From S2P Require Import RustOrd.
From S2P Require Import BTree.
From S2P Require Import RustStr.
From S2P Require Import Domain.
From S2P Require Import SnapshotArith.
From S2P Require Import Snapshot.
From S2P Require Import SnapshotSpec.

Section Theorems.
Context {J : Type}.
Implicit Types (o : NormalizedObservation J) (l obs : list (NormalizedObservation J)).

(** The inputs the program can be given: [u64] amounts, fewer than 2^64 of them. *)
Definition observations_typed obs : Prop :=
  Forall observation_typed obs /\ Z.of_nat (length obs) <= u64_max.

Lemma build_Ok m opened closes c obs snap :
  observations_typed obs ->
  build_market_window_snapshot m opened closes c obs = Ok snap ->
  let l := window_observations m opened closes obs in
  snap = snapshot_of m opened closes c l /\ opened < closes /\ blank_reason c = false /\
  NoDup (key <$> l) /\ samples_ok (omap accepted_trade l).
Proof.
  intros [Ht Hlen]. rewrite build_eq by done. cbv zeta.
  destruct (Z.leb_spec closes opened); [done|].
  destruct (blank_reason c) eqn:Hb; [done|]. intros Hk.
  apply bind_Ok in Hk as (u & Hd & Hs). injection Hs as <-.
  pose proof (check_duplicates_spec [] (key <$> window_observations m opened closes obs)) as Hdup.
  rewrite Hd in Hdup. destruct Hdup as [Hnd _]. split_and!; try done.
  apply accepted_samples_ok; unfold window_observations.
  - rewrite sort_by_perm. by apply Forall_filter_b.
  - rewrite sort_by_length. pose proof (length_filter_le (in_window m opened closes) obs). lia.
Qed.

(** C1: the snapshot is total and exact.  On [u64] inputs the builder fails in
    exactly three cases (an empty interval, an incomplete window without a
    reason, a duplicate key in the slice, reported as the first repeated key in
    canonical order) and never with an arithmetic error; otherwise its result
    is the declarative reference of the observations of exactly that market
    and half-open interval. *)
Theorem build_snapshot_exact m opened closes c obs :
  observations_typed obs ->
  let l := window_observations m opened closes obs in
  match build_market_window_snapshot m opened closes c obs with
  | Ok snap => opened < closes /\ blank_reason c = false /\ NoDup (key <$> l) /\
      snap = snapshot_of m opened closes c l
  | Err InvalidWindowBounds => closes <= opened
  | Err MissingIncompleteReason => opened < closes /\ blank_reason c = true
  | Err (DuplicateObservation k) => opened < closes /\ blank_reason c = false /\
      exists before after, key <$> l = before ++ k :: after /\ NoDup before /\ k ∈ before
  | Err _ => False
  end.
Proof.
  intros [Ht Hlen]. rewrite build_eq by done. cbv zeta.
  destruct (Z.leb_spec closes opened); [done|].
  destruct (blank_reason c) eqn:Hb; [done|].
  set (l := window_observations m opened closes obs).
  pose proof (check_duplicates_spec [] (key <$> l)) as Hdup.
  destruct (check_duplicates [] (key <$> l)) as [u|e]; simpl.
  - destruct Hdup. done.
  - destruct Hdup as (k & before & after & -> & Hl & Hnd & _ & Hin).
    split_and!; [done|done|]. exists before, after. split_and!; [done|done|].
    destruct Hin as [Hin|]; [by apply elem_of_nil in Hin|done].
Qed.

Lemma elem_of_window m opened closes obs o :
  o ∈ window_observations m opened closes obs <->
  o ∈ obs /\ market o = m /\ opened <= received_time_unix_ms o < closes.
Proof.
  unfold window_observations. rewrite elem_of_sort_by, filter_subset.
  unfold in_window. rewrite !andb_true_iff, bool_decide_eq_true, Z.leb_le, Z.ltb_lt. naive_solver.
Qed.

(** *** Order independence *)
Definition obs_sort_key o : Z * Z * option Z * string * Z * Z * Z :=
  let c := coordinate (key o) in
  (received_time_unix_ms o, slot c, transaction_index c, signature c, instruction_index c,
   event_index c, source_program_rank (ok_program (key o))).

Lemma observation_order_key_cmp : observation_order (J:=J) = key_cmp obs_sort_key.
Proof. done. Qed.

Definition rank_program (r : Z) : SourceProgram :=
  if r =? 0 then Pump else if r =? 1 then PumpSwap else if r =? 2 then RaydiumCpmm
  else if r =? 3 then RaydiumClmm else RaydiumAmmV4.

(** On one network the sort key determines the observation key. *)
Definition key_of_sort_key (n : Network) (k : Z * Z * option Z * string * Z * Z * Z)
    : ObservationKey :=
  let '(_, s, t, sig, i, e, r) := k in
  {| ok_network := n; ok_program := rank_program r;
     coordinate := {| slot := s; transaction_index := t; signature := sig;
                      instruction_index := i; event_index := e |} |}.

Lemma key_of_obs_sort_key n o : ok_network (key o) = n -> key_of_sort_key n (obs_sort_key o) = key o.
Proof. intros <-. destruct o as [[? [] []]]; done. Qed.

Lemma keys_of_sort_keys n l :
  Forall (fun o => ok_network (key o) = n) l ->
  key <$> l = key_of_sort_key n <$> (obs_sort_key <$> l).
Proof.
  intros H. rewrite <- list_fmap_compose. apply list_fmap_ext. intros i o Ho.
  symmetry. apply key_of_obs_sort_key. rewrite Forall_forall in H.
  apply H. by eapply list_elem_of_lookup_2.
Qed.

(** a snapshot does not depend on the order in which the observations were
    collected: permuting the input gives the same snapshot, or the same error. *)
Theorem build_snapshot_order_independent m opened closes c obs obs' :
  observations_typed obs -> obs ≡ₚ obs' ->
  Forall (fun o => ok_network (key o) = mi_network (market o)) obs ->
  build_market_window_snapshot m opened closes c obs =
  build_market_window_snapshot m opened closes c obs'.
Proof.
  intros [Ht Hlen] Hp Hnet.
  assert (Forall observation_typed obs') by (by rewrite <- Hp).
  assert (Z.of_nat (length obs') <= u64_max) by (by rewrite <- Hp).
  rewrite !build_eq by done.
  destruct (closes <=? opened); [done|]. destruct (blank_reason c); [done|]. cbv zeta.
  set (f := List.filter (in_window (J:=J) m opened closes)).
  assert (f obs ≡ₚ f obs') as Hf by (by apply filter_perm).
  assert (forall l, Forall (fun o => ok_network (key o) = mi_network (market o)) l ->
    Forall (fun o => ok_network (key o) = mi_network m) (sort_by observation_order (f l))) as Hn.
  { intros l Hl. rewrite sort_by_perm. rewrite Forall_forall in Hl |- *.
    intros o [Hw Ho]%filter_subset. rewrite (Hl _ Ho). unfold in_window in Hw.
    rewrite !andb_true_iff, bool_decide_eq_true in Hw. destruct Hw as [[-> _] _]. done. }
  assert (key <$> window_observations m opened closes obs =
          key <$> window_observations m opened closes obs') as Hk.
  { unfold window_observations. fold (f obs) (f obs').
    rewrite !(keys_of_sort_keys (mi_network m)) by (apply Hn; by rewrite <- ?Hp).
    rewrite observation_order_key_cmp. f_equal. by apply sort_by_keys_perm. }
  rewrite <- Hk.
  pose proof (check_duplicates_spec [] (key <$> window_observations m opened closes obs)) as Hdup.
  destruct (check_duplicates _ _); [|done]. destruct Hdup as [Hnd _]. simpl.
  unfold window_observations in *. fold (f obs) (f obs') in *.
  rewrite (keys_of_sort_keys (mi_network m)) in Hnd by (by apply Hn).
  apply NoDup_fmap_1 in Hnd. rewrite observation_order_key_cmp in *.
  rewrite (sort_by_perm_invariant obs_sort_key (f obs) (f obs')); [done|done|].
  by rewrite sort_by_perm in Hnd.
Qed.

(** completeness fails closed.  The snapshot is complete exactly when the
    caller said so and every trade of the window had a wallet and non-zero
    amounts; an incomplete input keeps its own reason; and the reported first
    reason comes from the earliest malformed trade. *)
Theorem build_snapshot_completeness m opened closes c obs snap :
  observations_typed obs ->
  build_market_window_snapshot m opened closes c obs = Ok snap ->
  let l := window_observations m opened closes obs in
  (ms_completeness snap = Complete <->
     c = Complete /\ Forall (fun o => malformed_reason o = None) l) /\
  (forall reason, c = Incomplete reason -> ms_completeness snap = c) /\
  (forall before o after reason, c = Complete -> l = before ++ o :: after ->
     Forall (fun o => malformed_reason o = None) before -> malformed_reason o = Some reason ->
     ms_completeness snap = Incomplete reason).
Proof.
  intros Ht Hb. apply build_Ok in Hb as (-> & _); [|done]. cbv zeta. simpl.
  set (l := window_observations m opened closes obs).
  unfold completeness_of. split_and!.
  - assert (omap malformed_reason l = [] <-> Forall (fun o => malformed_reason o = None) l) as Hm.
    { clearbody l. induction l as [|o l IH]; [split; [constructor|done]|]. csimpl.
      rewrite Forall_cons, <- IH. destruct (malformed_reason o); naive_solver. }
    rewrite <- Hm. destruct c; [|naive_solver].
    destruct (omap malformed_reason l); simpl; naive_solver.
  - by intros reason ->.
  - intros before o after reason -> Hl Hbef Ho. rewrite Hl, omap_app.
    assert (omap malformed_reason before = []) as ->.
    { clear -Hbef. induction Hbef as [|x b Hx Hb IH]; [done|]. csimpl. by rewrite Hx. }
    csimpl. by rewrite Ho.
Qed.
End Theorems.

Section Aggregates.
Context {J : Type}.
Implicit Types (obs : list (NormalizedObservation J)).

(** *** Conservation *)

(** A metric that adds up over trades adds up over wallets. *)
Lemma wallets_sum (f : WalletMetrics -> Z) (g : TradeSample -> Z) (ts : list TradeSample) :
  (forall l, f (metrics_of l) = sum_of g l) ->
  sum_of f (bt_values (wallets_of ts)) = f (metrics_of ts).
Proof.
  intros Hf. unfold bt_values, wallets_of. rewrite <- list_fmap_compose, sum_of_fmap, Hf.
  rewrite <- (sum_of_groups ts_wallet g (bset_elements (bset_of_list (ts_wallet <$> ts))) ts).
  - apply sum_of_ext. intros w _. simpl. by rewrite Hf.
  - apply bset_NoDup.
  - intros t Ht. apply bset_elem. by apply list_elem_of_fmap_2.
Qed.

Definition on_side (s : TradeSide) (f : TradeSample -> Z) (t : TradeSample) : Z :=
  if bool_decide (ts_side t = s) then f t else 0.

Lemma sum_on_side s f l : sum_of f (side_samples s l) = sum_of (on_side s f) l.
Proof.
  unfold side_samples, on_side. induction l as [|t l IH]; simpl; [done|].
  case_bool_decide; simpl; lia.
Qed.

Lemma length_sum {A} (l : list A) : Z.of_nat (length l) = sum_of (fun _ => 1) l.
Proof. induction l as [|x l IH]; [done|]. rewrite sum_of_cons. cbn [length]. lia. Qed.

(** nothing is lost or counted twice.  The totals of a snapshot are those
    of its trade samples, buys and sells partition them, each wallet's metrics
    are exactly those of its own trades, and every metric summed over the
    wallets gives back the total. *)
Theorem build_snapshot_conservation m opened closes c obs snap :
  observations_typed obs ->
  build_market_window_snapshot m opened closes c obs = Ok snap ->
  let mm := ms_metrics snap in
  let ts := ms_trade_samples snap in
  let sum f := sum_of f (bt_values (mm_wallets mm)) in
  mm_trades mm = Z.of_nat (length ts) /\ mm_trades mm = mm_buys mm + mm_sells mm /\
  total_quote_volume_units mm = Ok (volume_of ts) /\
  (forall w wm, bt_get w (mm_wallets mm) = Some wm <->
     w ∈ ts_wallet <$> ts /\ wm = metrics_of (wallet_samples w ts)) /\
  sum wm_trades = mm_trades mm /\ sum wm_buys = mm_buys mm /\ sum wm_sells = mm_sells mm /\
  sum wm_buy_base_units = mm_buy_base_units mm /\
  sum wm_sell_base_units = mm_sell_base_units mm /\
  sum wm_buy_quote_units = mm_buy_quote_units mm /\
  sum wm_sell_quote_units = mm_sell_quote_units mm.
Proof.
  intros Ht Hb. apply build_Ok in Hb as (-> & _ & _ & _ & Hok); [|done]. cbv zeta.
  cbn [snapshot_of ms_metrics ms_trade_samples window_metrics mm_wallets].
  set (ts := omap accepted_trade _) in *. split_and!.
  - done.
  - simpl. symmetry. apply side_length_split.
  - by apply (total_quote_units_volume ts).
  - intros w wm. rewrite bt_get_elem by apply wallets_of_wf. apply wallets_of_elem.
  - apply (wallets_sum wm_trades (fun _ => 1)). intros l. apply length_sum.
  - apply (wallets_sum wm_buys (on_side Buy (fun _ => 1))). intros l.
    rewrite <- sum_on_side. apply length_sum.
  - apply (wallets_sum wm_sells (on_side Sell (fun _ => 1))). intros l.
    rewrite <- sum_on_side. apply length_sum.
  - eapply wallets_sum. intros l. apply sum_on_side.
  - eapply wallets_sum. intros l. apply sum_on_side.
  - eapply wallets_sum. intros l. apply sum_on_side.
  - eapply wallets_sum. intros l. apply sum_on_side.
Qed.

(** *** Concentration *)
Lemma sorted_app_after {A} (R : A -> A -> Prop) pre x post :
  StronglySorted R (pre ++ x :: post) -> Forall (R x) post.
Proof. induction pre; simpl; intros H; apply StronglySorted_inv in H as [? ?]; auto. Qed.

Lemma bset_elements_sorted {K} `{RustOrd K} (ks : list K) :
  StronglySorted (fun a b => cmp a b = Lt) (bset_elements (bset_of_list ks)).
Proof.
  pose proof (bset_of_list_wf ks) as Hwf. unfold bt_wf, bset_elements in *.
  induction Hwf as [|[k u] s Hs IH Hk]; simpl; constructor; [done|].
  rewrite Forall_fmap. exact Hk.
Qed.

Lemma largest_wallet_spec (ts : list TradeSample) :
  samples_ok ts ->
  let volume w := volume_of (wallet_samples w ts) in
  match largest_wallet ts with
  | None => ts = []
  | Some s =>
      wvs_wallet s ∈ ts_wallet <$> ts /\ wvs_quote_volume_units s = volume (wvs_wallet s) /\
      (wvs_share_bps s - 1) * volume_of ts < 10000 * volume (wvs_wallet s)
        <= wvs_share_bps s * volume_of ts /\
      forall w, w ∈ ts_wallet <$> ts ->
        volume w < volume (wvs_wallet s) \/
        volume w = volume (wvs_wallet s) /\ (w = wvs_wallet s \/ cmp (wvs_wallet s) w = Lt)
  end.
Proof.
  intros Hok. cbv zeta. unfold largest_wallet.
  set (ws := bset_elements (bset_of_list (ts_wallet <$> ts))).
  pose proof (fold_best_max_first wvs_quote_volume_units (wallet_share ts <$> ws)) as Hbest.
  fold larger_wallet in Hbest. unfold larger_wallet in Hbest |- *.
  destruct (fold_best_opt _ _) as [s|].
  2:{ apply fmap_nil_inv in Hbest. destruct ts as [|t ts']; [done|].
      assert (ts_wallet t ∈ ws) as Hin by (apply bset_elem; set_solver).
      rewrite Hbest in Hin. by apply elem_of_nil in Hin. }
  destruct Hbest as (pre & post & Hl & Hpre & Hpost).
  apply fmap_app_inv in Hl as (wpre & wrest & -> & Hrest & Hws).
  symmetry in Hrest. apply fmap_cons_inv in Hrest as (w0 & wpost & -> & -> & ->).
  assert (w0 ∈ ts_wallet <$> ts) as Hw0.
  { apply bset_elem. fold ws. rewrite Hws. set_solver. }
  cbn [wallet_share wvs_wallet wvs_quote_volume_units wvs_share_bps].
  assert (0 < volume_of ts) as Hpos by (apply volume_pos; [done|by intros ->; apply elem_of_nil in Hw0]).
  split_and!; [done|done| | |].
  - unfold ceil_bps. pose proof (Z.div_mod (10000 * volume_of (wallet_samples w0 ts) + volume_of ts - 1) (volume_of ts)).
    pose proof (Z.mod_pos_bound (10000 * volume_of (wallet_samples w0 ts) + volume_of ts - 1) (volume_of ts)). lia.
  - unfold ceil_bps. pose proof (Z.div_mod (10000 * volume_of (wallet_samples w0 ts) + volume_of ts - 1) (volume_of ts)).
    pose proof (Z.mod_pos_bound (10000 * volume_of (wallet_samples w0 ts) + volume_of ts - 1) (volume_of ts)). lia.
  - intros w Hw. apply bset_elem in Hw. fold ws in Hw. rewrite Hws in Hw.
    rewrite Forall_fmap, Forall_forall in Hpre, Hpost.
    apply elem_of_app in Hw as [Hw|[->|Hw]%elem_of_cons].
    + apply Hpre in Hw. simpl in Hw. rewrite Z.gtb_ltb, Z.ltb_lt in Hw. by left.
    + right. auto.
    + pose proof (Hpost _ Hw) as Hle. simpl in Hle. rewrite Z.gtb_ltb, Z.ltb_ge in Hle.
      pose proof (bset_elements_sorted (ts_wallet <$> ts)) as Hs. fold ws in Hs. rewrite Hws in Hs.
      apply sorted_app_after in Hs. rewrite Forall_forall in Hs. specialize (Hs _ Hw).
      destruct (Z.lt_ge_cases (volume_of (wallet_samples w ts)) (volume_of (wallet_samples w0 ts)));
        [by left|right; split; [lia|by right]].
Qed.

(** the largest-wallet share names a wallet of maximal quote volume, the
    smallest address among ties, with the exact ceiling of its share in basis
    points; it is absent only when the window has no trade. *)
Theorem build_snapshot_largest_wallet m opened closes c obs snap :
  observations_typed obs ->
  build_market_window_snapshot m opened closes c obs = Ok snap ->
  let ts := ms_trade_samples snap in
  let volume w := volume_of (wallet_samples w ts) in
  match mm_largest_wallet_quote_volume (ms_metrics snap) with
  | None => ts = []
  | Some s =>
      wvs_wallet s ∈ ts_wallet <$> ts /\ wvs_quote_volume_units s = volume (wvs_wallet s) /\
      (wvs_share_bps s - 1) * volume_of ts < 10000 * volume (wvs_wallet s)
        <= wvs_share_bps s * volume_of ts /\
      forall w, w ∈ ts_wallet <$> ts ->
        volume w < volume (wvs_wallet s) \/
        volume w = volume (wvs_wallet s) /\ (w = wvs_wallet s \/ cmp (wvs_wallet s) w = Lt)
  end.
Proof.
  intros Ht Hb. apply build_Ok in Hb as (-> & _ & _ & _ & Hok); [|done]. cbv zeta.
  cbn [snapshot_of ms_metrics ms_trade_samples window_metrics mm_largest_wallet_quote_volume].
  by apply largest_wallet_spec.
Qed.

(** *** Extremes *)

(** The price point of an accepted trade carries its key, its receipt time and
    its exact price in lowest terms. *)
Definition trade_point (t : TradeSample) (p : PricePoint) : Prop :=
  pp_observation_key p = ts_observation_key t /\
  pp_received_time_unix_ms p = ts_received_time_unix_ms t /\
  reduced_ratio (ts_quote_amount_units t) (ts_base_amount_units t) (pp_ratio p) /\
  point_ok p.

Lemma trade_points obs :
  Forall observation_typed obs ->
  Forall2 trade_point (omap accepted_trade obs) (omap price_of obs).
Proof.
  induction 1 as [|o obs Ho _ IH]; csimpl; [constructor|].
  unfold price_of at 1. destruct (accepted_trade o) as [t|] eqn:Et; csimpl; [|done].
  destruct (accepted_trade_ok o t Ho Et) as [Hb Hq].
  destruct (price_ratio_new_Ok _ _ Hq Hb) as (r & -> & Hok & Hred). csimpl.
  constructor; [|done]. unfold accepted_trade in Et.
  destruct (payload o); try done. destruct (malformed_reason o); [done|].
  injection Et as <-. by split_and!.
Qed.

(** prices are exact.  There is one price point per trade, its reduced
    quote/base ratio; the summary is absent only without trades, its first and
    last points are those of the first and last trade, and its low and high are
    the earliest trades at the exact minimum and maximum price. *)
Theorem build_snapshot_price_extremes m opened closes c obs snap :
  observations_typed obs ->
  build_market_window_snapshot m opened closes c obs = Ok snap ->
  exists points, Forall2 trade_point (ms_trade_samples snap) points /\
  match ms_prices snap with
  | None => points = []
  | Some s => head points = Some (ps_first s) /\ last points = Some (ps_last s) /\
      first_best cheaper (ps_low s) points /\ first_best dearer (ps_high s) points
  end.
Proof.
  intros Ht Hb. pose proof Ht as [Htyped _].
  apply build_Ok in Hb as (-> & _); [|done]. cbn [snapshot_of ms_trade_samples ms_prices].
  set (l := window_observations m opened closes obs).
  assert (Forall observation_typed l) as Hl.
  { unfold l, window_observations. rewrite sort_by_perm. by apply Forall_filter_b. }
  pose proof (trade_points l Hl) as Hp. pose proof (prices_ok l Hl) as Hok.
  exists (omap price_of l). split; [done|]. revert Hok. generalize (omap price_of l).
  intros points Hok. destruct points as [|p points]; [done|].
  cbn [price_summary ps_first ps_last ps_low ps_high]. split_and!.
  - done.
  - rewrite last_cons. destruct (last points) as [x|] eqn:E.
    + apply last_Some in E as [l' ->]. rewrite app_comm_cons, List.last_last. done.
    + apply last_None in E as ->. done.
  - apply (fold_best_first cheaper point_ok); eauto using cheaper_trans, cheaper_cotrans.
  - apply (fold_best_first dearer point_ok); [| |done]; unfold dearer; intros x y z Hx Hy Hz.
    + eauto using cheaper_trans.
    + unfold cheaper, point_ok, ratio_in_u64 in *. rewrite !Z.ltb_lt, Z.ltb_ge. nia.
Qed.

(** The extremum candidate a reserve sample offers on one side. *)
Definition extremum_of (units : ReserveSample -> option Z) (s : ReserveSample)
    : option ReserveExtremum :=
  u ← units s;
  Some {| re_observation_key := rs_observation_key s;
          re_received_time_unix_ms := rs_received_time_unix_ms s; re_units := u |}.
Definition fewer_units (x y : ReserveExtremum) : bool := re_units x <? re_units y.
Definition more_units (x y : ReserveExtremum) : bool := re_units x >? re_units y.

Lemma fold_best_opt_snoc {A} (lt : A -> A -> bool) l x :
  fold_best_opt lt (l ++ [x]) =
    match fold_best_opt lt l with
    | None => Some x
    | Some c => if lt x c then Some x else Some c
    end.
Proof. unfold fold_best_opt. rewrite fold_left_app. simpl. by destruct (fold_left _ l None). Qed.

Lemma update_extrema_fold units samples :
  fold_left (fun e s => update_extrema e s (units s)) samples (None, None) =
    (fold_best_opt fewer_units (omap (extremum_of units) samples),
     fold_best_opt more_units (omap (extremum_of units) samples)).
Proof.
  induction samples as [|s samples IH] using rev_ind; [done|].
  rewrite fold_left_app, omap_app. cbn [fold_left]. rewrite IH. clear IH.
  destruct (units s) as [u|] eqn:E.
  - assert (omap (extremum_of units) [s] = [{| re_observation_key := rs_observation_key s;
      re_received_time_unix_ms := rs_received_time_unix_ms s; re_units := u |}]) as ->.
    { csimpl. unfold extremum_of. by rewrite E. }
    rewrite !fold_best_opt_snoc. cbn [update_extrema].
    f_equal; destruct (fold_best_opt _ _); done.
  - assert (omap (extremum_of units) [s] = []) as ->.
    { csimpl. unfold extremum_of. by rewrite E. }
    by rewrite app_nil_r.
Qed.

Lemma fold_left_pair {A B C} (f : A -> C -> A) (g : B -> C -> B) (l : list C) a b :
  fold_left (fun '(x, y) c => (f x c, g y c)) l (a, b) = (fold_left f l a, fold_left g l b).
Proof. revert a b. induction l as [|c l IH]; intros a b; simpl; [done|apply IH]. Qed.

Definition extremum_ok (lt : ReserveExtremum -> ReserveExtremum -> bool)
    (candidates : list ReserveExtremum) (o : option ReserveExtremum) : Prop :=
  match o with None => candidates = [] | Some x => first_best lt x candidates end.

(** reserve extremes are those of the samples: for each side the earliest
    sample with the smallest, respectively largest, reported reserve, and
    absent only when no sample reports that side. *)
Theorem summarize_reserves_extremes samples :
  match summarize_reserves samples with
  | None => samples = []
  | Some s =>
      head samples = Some (rsum_first s) /\ last samples = Some (rsum_latest s) /\
      rsum_samples s = samples /\
      extremum_ok fewer_units (omap (extremum_of rs_base_units) samples) (rsum_minimum_base s) /\
      extremum_ok more_units (omap (extremum_of rs_base_units) samples) (rsum_maximum_base s) /\
      extremum_ok fewer_units (omap (extremum_of rs_quote_units) samples) (rsum_minimum_quote s) /\
      extremum_ok more_units (omap (extremum_of rs_quote_units) samples) (rsum_maximum_quote s)
  end.
Proof.
  unfold summarize_reserves. destruct (head samples) as [first|] eqn:Eh.
  2:{ by apply head_None in Eh. }
  destruct (last samples) as [latest|] eqn:El.
  2:{ apply last_None in El. by subst. }
  csimpl. rewrite fold_left_pair, !update_extrema_fold.
  cbn [rsum_first rsum_latest rsum_samples rsum_minimum_base rsum_maximum_base
       rsum_minimum_quote rsum_maximum_quote].
  split_and!; [done..| | | |];
    first [apply (fold_best_min_first re_units) | apply (fold_best_max_first re_units)].
Qed.
End Aggregates.

(** ** A concrete window *)
Module SampleWindow.
Definition the_market : MarketIdentity := {|
  mi_network := SolanaMainnet; mi_mint := "mint"; mi_venue := PumpBondingCurve;
  mi_market_address := "curve"; mi_quote_mint := None |}.
Definition observe (index time : Z) (p : ObservationPayload) : NormalizedObservation unit := {|
  key := {| ok_network := SolanaMainnet; ok_program := Pump;
            coordinate := {| slot := 10 + index; transaction_index := None; signature := "s";
                             instruction_index := 0; event_index := index |} |};
  commitment := Confirmed; schema_version := 1; decoder_version := "1"; event_kind := "TRADE";
  market := the_market; source_event_time_unix_ms := None; received_time_unix_ms := time;
  raw_evidence_hash := "h"; source_evidence_base64 := "e"; source_details := tt;
  payload := p |}.
Definition buy : NormalizedObservation unit :=
  observe 0 100 (Trade Buy "alice" 2 6 (Some 50) (Some 70)).
Definition sell : NormalizedObservation unit :=
  observe 1 101 (Trade Sell "bob" 1 2 (Some 40) None).
Definition malformed : NormalizedObservation unit := observe 2 102 (Trade Buy " " 1 1 None None).
Definition window : list (NormalizedObservation unit) := [sell; buy].
Definition snapshot : checked MarketWindowSnapshot :=
  build_market_window_snapshot the_market 100 200 Complete window.
Definition value : MarketWindowSnapshot :=
  snapshot_of the_market 100 200 Complete [buy; sell].

Lemma window_typed : observations_typed window.
Proof. split; [repeat constructor; vm_compute; congruence|vm_compute; congruence]. Defined.
Lemma window_value : snapshot = Ok value.
Proof. vm_compute. reflexivity. Defined.
End SampleWindow.

Lemma build_snapshot_exact_witness :
  match build_market_window_snapshot SampleWindow.the_market 100 200 Complete SampleWindow.window with
  | Ok snap => ms_observation_keys snap = [key SampleWindow.buy; key SampleWindow.sell]
  | Err _ => False
  end.
Proof.
  pose proof (build_snapshot_exact SampleWindow.the_market 100 200 Complete SampleWindow.window
    SampleWindow.window_typed) as H.
  pose proof SampleWindow.window_value as Hv. unfold SampleWindow.snapshot in Hv.
  cbv zeta in H. rewrite Hv in H |- *. destruct H as (_ & _ & _ & _). reflexivity.
Defined.

Lemma build_snapshot_order_independent_witness :
  build_market_window_snapshot SampleWindow.the_market 100 200 Complete
    [SampleWindow.sell; SampleWindow.buy] =
  build_market_window_snapshot SampleWindow.the_market 100 200 Complete
    [SampleWindow.buy; SampleWindow.sell].
Proof.
  apply build_snapshot_order_independent;
    [apply SampleWindow.window_typed|constructor|repeat constructor].
Defined.

Lemma build_snapshot_completeness_witness :
  ms_completeness SampleWindow.value = Complete.
Proof.
  apply (build_snapshot_completeness SampleWindow.the_market 100 200 Complete
    SampleWindow.window SampleWindow.value SampleWindow.window_typed SampleWindow.window_value).
  split; [reflexivity|]. vm_compute. repeat constructor.
Defined.

Lemma build_snapshot_conservation_witness :
  mm_trades (ms_metrics SampleWindow.value) = 2 /\
  mm_trades (ms_metrics SampleWindow.value) =
    Z.of_nat (length (ms_trade_samples SampleWindow.value)).
Proof.
  split; [vm_compute; reflexivity|].
  apply (build_snapshot_conservation SampleWindow.the_market 100 200 Complete
    SampleWindow.window SampleWindow.value SampleWindow.window_typed SampleWindow.window_value).
Defined.

Lemma build_snapshot_largest_wallet_witness :
  exists s, mm_largest_wallet_quote_volume (ms_metrics SampleWindow.value) = Some s /\
    wvs_wallet s = "alice"%string /\ wvs_share_bps s = 7500 /\
    wvs_wallet s ∈ ts_wallet <$> ms_trade_samples SampleWindow.value.
Proof.
  pose proof (build_snapshot_largest_wallet SampleWindow.the_market 100 200 Complete
    SampleWindow.window SampleWindow.value SampleWindow.window_typed SampleWindow.window_value) as H.
  eexists. split; [vm_compute; reflexivity|]. split; [reflexivity|]. split; [reflexivity|].
  cbv zeta in H.
  assert (mm_largest_wallet_quote_volume (ms_metrics SampleWindow.value) =
    Some {| wvs_wallet := "alice"; wvs_quote_volume_units := 6; wvs_share_bps := 7500 |}) as E
    by (vm_compute; reflexivity).
  rewrite E in H. exact (proj1 H).
Defined.

Lemma build_snapshot_price_extremes_witness :
  exists points, Forall2 trade_point (ms_trade_samples SampleWindow.value) points /\
    length points = 2%nat.
Proof.
  destruct (build_snapshot_price_extremes SampleWindow.the_market 100 200 Complete
    SampleWindow.window SampleWindow.value SampleWindow.window_typed SampleWindow.window_value)
    as (points & Hp & _).
  exists points. split; [exact Hp|]. apply Forall2_length in Hp. rewrite <- Hp. reflexivity.
Defined.
