(* ===== verification/Qualification.v ===== *)
(** [crates/discovery-engine/src/qualification.rs]: the versioned admission
    policy evaluated over one completed snapshot. *)
From S2P Require Import Prelude.
From S2P Require Import ListFacts.
From S2P Require Import RustOrd.
From S2P Require Import BTree.
From S2P Require Import RustStr.
From S2P Require Import Domain.
From S2P Require Import SnapshotArith.
From S2P Require Import Snapshot.
From S2P Require Import SnapshotSpec.
From S2P Require Import SnapshotTheorems.

Definition NATIVE_SOL_MINT : string := "11111111111111111111111111111111".
Definition WRAPPED_SOL_MINT : string := "So11111111111111111111111111111111111111112".
Definition CANONICAL_USDC_MINT : string := "EPjFWdd5AufqSSqeM2qN1xzybapC8G4wEGGkZwyTDt1v".
Definition RULE_VERSION : string := "1".

Inductive QuoteAssetClass := Native | Stable | Unsupported.

Definition classify_quote_asset (snapshot : MarketWindowSnapshot) : QuoteAssetClass :=
  match mi_quote_mint (ms_market snapshot) with
  | Some mint =>
      if String.eqb mint NATIVE_SOL_MINT || String.eqb mint WRAPPED_SOL_MINT then Native
      else if String.eqb mint CANONICAL_USDC_MINT &&
              bool_decide (mi_network (ms_market snapshot) = SolanaMainnet) then Stable
      else Unsupported
  | None => Unsupported
  end.

Record QualificationPolicy := {
  ruleset_version : string;
  minimum_trades : Z;
  minimum_unique_traders : Z;
  minimum_buys : Z;
  minimum_sells : Z;
  minimum_native_quote_volume_units : Z;
  minimum_stable_quote_volume_units : Z;
  maximum_single_wallet_quote_volume_bps : Z;
}.

Definition policy_default : QualificationPolicy := {|
  ruleset_version := "initial-qualification-v1";
  minimum_trades := 5; minimum_unique_traders := 3; minimum_buys := 1; minimum_sells := 1;
  minimum_native_quote_volume_units := 50000000;
  minimum_stable_quote_volume_units := 5000000;
  maximum_single_wallet_quote_volume_bps := 9000 |}.

Inductive QualificationPolicyError :=
| MissingRulesetVersion
| InvalidMaximumWalletShare (actual_bps : Z)
| MinimumUniqueTradersExceedTrades
| MinimumBuysExceedTrades
| MinimumSellsExceedTrades
| SnapshotFailure (e : SnapshotError).

(** [QualificationPolicy::validate]. *)
Definition policy_validate (p : QualificationPolicy) : result QualificationPolicyError unit :=
  if is_empty (trim (ruleset_version p)) then Err MissingRulesetVersion
  else if maximum_single_wallet_quote_volume_bps p >? BASIS_POINTS_SCALE
  then Err (InvalidMaximumWalletShare (maximum_single_wallet_quote_volume_bps p))
  else if minimum_unique_traders p >? minimum_trades p
  then Err MinimumUniqueTradersExceedTrades
  else if minimum_buys p >? minimum_trades p then Err MinimumBuysExceedTrades
  else if minimum_sells p >? minimum_trades p then Err MinimumSellsExceedTrades
  else Ok tt.

Inductive QualificationRuleId :=
| CompleteWindow | SupportedQuoteAsset | MinimumTrades | MinimumUniqueTraders | MinimumBuys
| MinimumSells | MinimumQuoteVolume | MaximumWalletConcentration.

Definition rule_id_str (r : QualificationRuleId) : string :=
  match r with
  | CompleteWindow => "qualification.window-complete"
  | SupportedQuoteAsset => "qualification.supported-quote-asset"
  | MinimumTrades => "qualification.minimum-trades"
  | MinimumUniqueTraders => "qualification.minimum-unique-traders"
  | MinimumBuys => "qualification.minimum-buys"
  | MinimumSells => "qualification.minimum-sells"
  | MinimumQuoteVolume => "qualification.minimum-quote-volume"
  | MaximumWalletConcentration => "qualification.maximum-single-wallet-quote-volume"
  end.

Record QualificationAssessment := {
  qa_ruleset_version : string;
  qa_decision : AssessmentDecision;
  qa_rules : list RuleResult;
}.

Definition all_rule_ids : list QualificationRuleId := [
  CompleteWindow; SupportedQuoteAsset; MinimumTrades; MinimumUniqueTraders; MinimumBuys;
  MinimumSells; MinimumQuoteVolume; MaximumWalletConcentration].

Definition rule (id : QualificationRuleId) (d : AssessmentDecision) (reason : string)
    (evidence : option string) (slot_ : option Z) : RuleResult := {|
  rule_id := rule_id_str id; rule_version := RULE_VERSION; decision := d;
  reason_code := reason; evidence_reference := evidence; observed_slot := slot_ |}.

Definition minimum_reason_code (id : QualificationRuleId) (passes : bool) : string :=
  match id, passes with
  | MinimumTrades, true => "MINIMUM_TRADES_MET"
  | MinimumTrades, false => "TRADES_BELOW_MINIMUM"
  | MinimumUniqueTraders, true => "MINIMUM_UNIQUE_TRADERS_MET"
  | MinimumUniqueTraders, false => "UNIQUE_TRADERS_BELOW_MINIMUM"
  | MinimumBuys, true => "MINIMUM_BUYS_MET"
  | MinimumBuys, false => "BUYS_BELOW_MINIMUM"
  | MinimumSells, true => "MINIMUM_SELLS_MET"
  | MinimumSells, false => "SELLS_BELOW_MINIMUM"
  | MinimumQuoteVolume, true => "MINIMUM_QUOTE_VOLUME_MET"
  | MinimumQuoteVolume, false => "QUOTE_VOLUME_BELOW_MINIMUM"
  | _, true => "MINIMUM_MET"
  | _, false => "BELOW_MINIMUM"
  end.

Definition minimum_rule (id : QualificationRuleId) (actual minimum : Z) (slot_ : option Z)
    : RuleResult :=
  let passes := minimum <=? actual in
  rule id (if passes then Pass else Reject) (minimum_reason_code id passes)
    (Some ("actual=" +:+ dec actual +:+ ";minimum=" +:+ dec minimum)%string) slot_.

Definition aggregate (rules : list RuleResult) : AssessmentDecision :=
  if has_decision Reject rules then Reject
  else if has_decision Unknown rules then Unknown
  else Pass.

Definition window_evidence (s : MarketWindowSnapshot) : string :=
  ("market=" +:+ mi_market_address (ms_market s)
   +:+ ";opened_at_unix_ms=" +:+ dec (ms_opened_at_unix_ms s)
   +:+ ";closes_at_unix_ms=" +:+ dec (ms_closes_at_unix_ms s)
   +:+ ";observations=" +:+ dec (mm_observations (ms_metrics s)))%string.

(** The [SupportedQuoteAsset], [MinimumQuoteVolume] and
    [MaximumWalletConcentration] rules of a complete window. *)
Definition quote_asset_rule (s : MarketWindowSnapshot) (c : QuoteAssetClass) : RuleResult :=
  let quote := mi_quote_mint (ms_market s) in
  match c with
  | Native => rule SupportedQuoteAsset Pass "SUPPORTED_NATIVE_QUOTE_ASSET" quote
                (ms_latest_observed_slot s)
  | Stable => rule SupportedQuoteAsset Pass "SUPPORTED_STABLE_QUOTE_ASSET" quote
                (ms_latest_observed_slot s)
  | Unsupported => rule SupportedQuoteAsset Reject "UNSUPPORTED_QUOTE_ASSET"
                     (Some (default "NONE"%string quote)) (ms_latest_observed_slot s)
  end.

Definition quote_volume_rule (s : MarketWindowSnapshot) (p : QualificationPolicy)
    (c : QuoteAssetClass) (total : Z) : RuleResult :=
  match c with
  | Native => minimum_rule MinimumQuoteVolume total (minimum_native_quote_volume_units p)
                (ms_latest_observed_slot s)
  | Stable => minimum_rule MinimumQuoteVolume total (minimum_stable_quote_volume_units p)
                (ms_latest_observed_slot s)
  | Unsupported => rule MinimumQuoteVolume Unknown "QUOTE_VOLUME_THRESHOLD_UNAVAILABLE"
                     (Some ("observed_units=" +:+ dec total)%string) (ms_latest_observed_slot s)
  end.

Definition wallet_concentration_rule (s : MarketWindowSnapshot) (p : QualificationPolicy)
    (total : Z) : RuleResult :=
  match mm_largest_wallet_quote_volume (ms_metrics s) with
  | Some largest =>
      let passes := wvs_share_bps largest <=? maximum_single_wallet_quote_volume_bps p in
      rule MaximumWalletConcentration (if passes then Pass else Reject)
        (if passes then "WALLET_CONCENTRATION_WITHIN_LIMIT"
         else "WALLET_CONCENTRATION_EXCEEDS_LIMIT")
        (Some ("wallet=" +:+ wvs_wallet largest +:+ ";actual_bps=" +:+ dec (wvs_share_bps largest)
               +:+ ";maximum_bps=" +:+ dec (maximum_single_wallet_quote_volume_bps p))%string)
        (ms_latest_observed_slot s)
  | None =>
      rule MaximumWalletConcentration Unknown "WALLET_CONCENTRATION_UNAVAILABLE"
        (Some ("observed_quote_units=" +:+ dec total)%string) (ms_latest_observed_slot s)
  end.

Definition evaluate_qualification (s : MarketWindowSnapshot) (p : QualificationPolicy)
    : result QualificationPolicyError QualificationAssessment :=
  _ ← policy_validate p;
  if negb (is_complete (ms_completeness s)) then
    let reason := default "WINDOW_INCOMPLETE"%string (completeness_reason (ms_completeness s)) in
    let rules := (fun id => rule id Unknown reason (Some (window_evidence s))
                              (ms_latest_observed_slot s)) <$> all_rule_ids in
    Ok {| qa_ruleset_version := ruleset_version p; qa_decision := Unknown; qa_rules := rules |}
  else
    let quote_asset := classify_quote_asset s in
    let m := ms_metrics s in
    let slot_ := ms_latest_observed_slot s in
    total ← map_err SnapshotFailure (total_quote_volume_units m);
    let rules := [
      rule CompleteWindow Pass "WINDOW_COMPLETE" (Some (window_evidence s)) slot_;
      quote_asset_rule s quote_asset;
      minimum_rule MinimumTrades (mm_trades m) (minimum_trades p) slot_;
      minimum_rule MinimumUniqueTraders (mm_unique_traders m) (minimum_unique_traders p) slot_;
      minimum_rule MinimumBuys (mm_buys m) (minimum_buys p) slot_;
      minimum_rule MinimumSells (mm_sells m) (minimum_sells p) slot_;
      quote_volume_rule s p quote_asset total;
      wallet_concentration_rule s p total] in
    Ok {| qa_ruleset_version := ruleset_version p; qa_decision := aggregate rules;
          qa_rules := rules |}.

(** ** Lemmas *)
Lemma aggregate_Pass rules :
  aggregate rules = Pass <-> Forall (fun r => decision r = Pass) rules.
Proof.
  unfold aggregate. destruct (has_decision Reject rules) eqn:ER.
  { split; [done|]. intros H. apply has_decision_iff in ER as (r & Hin & Hr).
    rewrite Forall_forall in H. by rewrite (H _ Hin) in Hr. }
  destruct (has_decision Unknown rules) eqn:EU.
  { split; [done|]. intros H. apply has_decision_iff in EU as (r & Hin & Hr).
    rewrite Forall_forall in H. by rewrite (H _ Hin) in Hr. }
  split; [intros _|done]. apply has_decision_false in ER, EU.
  rewrite Forall_forall in ER, EU |- *. intros r Hin. specialize (ER _ Hin). specialize (EU _ Hin).
  by destruct (decision r).
Qed.

Lemma policy_validate_Ok p :
  policy_validate p = Ok tt <->
  is_empty (trim (ruleset_version p)) = false /\
  maximum_single_wallet_quote_volume_bps p <= BASIS_POINTS_SCALE /\
  minimum_unique_traders p <= minimum_trades p /\ minimum_buys p <= minimum_trades p /\
  minimum_sells p <= minimum_trades p.
Proof.
  unfold policy_validate. destruct (is_empty _); [naive_solver|].
  destruct (Z.gtb_spec (maximum_single_wallet_quote_volume_bps p) BASIS_POINTS_SCALE); [naive_solver lia|].
  destruct (Z.gtb_spec (minimum_unique_traders p) (minimum_trades p)); [naive_solver lia|].
  destruct (Z.gtb_spec (minimum_buys p) (minimum_trades p)); [naive_solver lia|].
  destruct (Z.gtb_spec (minimum_sells p) (minimum_trades p)); naive_solver lia.
Qed.

Lemma minimum_rule_Pass id actual minimum s :
  decision (minimum_rule id actual minimum s) = Pass <-> minimum <= actual.
Proof. unfold minimum_rule; simpl. destruct (Z.leb_spec minimum actual); naive_solver lia. Qed.

(** The minimum quote volume of a supported quote asset. *)
Definition volume_threshold (s : MarketWindowSnapshot) (p : QualificationPolicy) : option Z :=
  match classify_quote_asset s with
  | Native => Some (minimum_native_quote_volume_units p)
  | Stable => Some (minimum_stable_quote_volume_units p)
  | Unsupported => None
  end.

Lemma quote_rules_Pass s p total :
  decision (quote_asset_rule s (classify_quote_asset s)) = Pass /\
  decision (quote_volume_rule s p (classify_quote_asset s) total) = Pass <->
  exists threshold, volume_threshold s p = Some threshold /\ threshold <= total.
Proof.
  unfold volume_threshold, quote_asset_rule, quote_volume_rule.
  destruct (classify_quote_asset s); rewrite ?minimum_rule_Pass; simpl; naive_solver.
Qed.

(** The concentration rule passes on the rounded share exactly when no wallet
    exceeds the limit. *)
Lemma concentration_Pass s p ts :
  samples_ok ts -> mm_largest_wallet_quote_volume (ms_metrics s) = largest_wallet ts ->
  0 <= maximum_single_wallet_quote_volume_bps p ->
  decision (wallet_concentration_rule s p (volume_of ts)) = Pass <->
  ts <> [] /\ forall w, 10000 * volume_of (wallet_samples w ts)
                 <= maximum_single_wallet_quote_volume_bps p * volume_of ts.
Proof.
  intros Hok Hl Hmax. unfold wallet_concentration_rule. rewrite Hl.
  pose proof (largest_wallet_spec ts Hok) as Hs. cbv zeta in Hs.
  destruct (largest_wallet ts) as [x|]; [|simpl; naive_solver].
  destruct Hs as (Hin & Hv & [Hlo Hhi] & Hmx).
  assert (ts <> []) as Hne by (intros ->; by apply elem_of_nil in Hin).
  pose proof (volume_pos ts Hok Hne). set (mx := maximum_single_wallet_quote_volume_bps p) in *.
  simpl. destruct (Z.leb_spec (wvs_share_bps x) mx) as [Hle|Hgt].
  - split; [|done]. intros _. split; [done|]. intros w.
    destruct (decide (w ∈ ts_wallet <$> ts)) as [Hw|Hw].
    + assert (volume_of (wallet_samples w ts) <= volume_of (wallet_samples (wvs_wallet x) ts)).
      { destruct (Hmx _ Hw) as [?|[? _]]; lia. }
      nia.
    + rewrite (proj2 (wallet_samples_nil w ts) Hw). change (volume_of []) with 0. nia.
  - split; [done|]. intros [_ Hw]. specialize (Hw (wvs_wallet x)). nia.
Qed.

Section Theorems.
Context {J : Type}.
Implicit Types (obs : list (NormalizedObservation J)).

(** C3: qualification of a built snapshot is decided by the raw window.  With a
    valid policy the evaluation always succeeds, and the decision is [Pass]
    exactly when the window is complete, its quote asset is supported, the
    accepted trades reach every minimum, and no wallet's quote volume exceeds
    the permitted share of the total (compared exactly, without rounding). *)
Theorem qualification_decides_window m opened closes c obs snap p :
  observations_typed obs ->
  build_market_window_snapshot m opened closes c obs = Ok snap ->
  policy_validate p = Ok tt -> 0 <= maximum_single_wallet_quote_volume_bps p ->
  let ts := ms_trade_samples snap in
  exists a, evaluate_qualification snap p = Ok a /\
  (qa_decision a = Pass <->
     ms_completeness snap = Complete /\
     (exists threshold, volume_threshold snap p = Some threshold /\ threshold <= volume_of ts) /\
     minimum_trades p <= Z.of_nat (length ts) /\
     minimum_unique_traders p <= Z.of_nat (length (mm_wallets (ms_metrics snap))) /\
     minimum_buys p <= Z.of_nat (length (side_samples Buy ts)) /\
     minimum_sells p <= Z.of_nat (length (side_samples Sell ts)) /\
     ts <> [] /\
     (forall w, 10000 * volume_of (wallet_samples w ts)
        <= maximum_single_wallet_quote_volume_bps p * volume_of ts)).
Proof.
  intros Ht Hb Hp Hmax. cbv zeta. unfold evaluate_qualification. rewrite Hp. cbn [mbind result_bind].
  destruct (ms_completeness snap) eqn:Hc; cbn [is_complete negb];
    [|eexists; split; [done|]; naive_solver].
  apply build_Ok in Hb as (-> & _ & _ & _ & Hok); [|done].
  cbn [snapshot_of ms_trade_samples ms_metrics] in *. set (ts := omap accepted_trade _) in *.
  assert (total_quote_volume_units (window_metrics (Z.of_nat (length
    (window_observations m opened closes obs))) (window_creators (window_observations m opened closes obs)) ts)
    = Ok (volume_of ts)) as -> by (by apply (total_quote_units_volume ts)).
  cbn [mbind result_bind map_err]. eexists. split; [done|]. cbn [qa_decision].
  rewrite aggregate_Pass, !Forall_cons, !minimum_rule_Pass.
  pose proof (quote_rules_Pass (snapshot_of m opened closes c (window_observations m opened closes obs))
    p (volume_of ts)) as Hq.
  set (snap := snapshot_of _ _ _ _ _) in *.
  pose proof (concentration_Pass snap p ts Hok eq_refl Hmax) as Hw.
  split.
  - intros (_ & H1 & H2 & H3 & H4 & H5 & H6 & H7 & _). apply Hw in H7 as [H7 H8].
    split_and!; try done. by apply Hq.
  - intros (_ & H1 & H2 & H3 & H4 & H5 & H6 & H7). apply Hq in H1 as [H1 H1'].
    split_and!; try done. by apply Hw.
Qed.
End Theorems.

(** every evaluation reports the same eight rules in the canonical order
    under the policy's own version.  An incomplete window yields only
    [Unknown], rule by rule, with the window's own reason; a complete window
    is rejected exactly when some rule rejects. *)
Theorem qualification_rules_canonical s p a :
  evaluate_qualification s p = Ok a ->
  qa_ruleset_version a = ruleset_version p /\
  rule_id <$> qa_rules a = rule_id_str <$> all_rule_ids /\
  match ms_completeness s with
  | Incomplete reason =>
      qa_decision a = Unknown /\
      Forall (fun r => decision r = Unknown /\ reason_code r = reason) (qa_rules a)
  | Complete => qa_decision a = Reject <-> exists r, r ∈ qa_rules a /\ decision r = Reject
  end.
Proof.
  unfold evaluate_qualification. intros H. apply bind_Ok in H as (u & Hp & H).
  destruct (ms_completeness s) as [|reason]; cbn [is_complete negb] in H.
  - apply bind_Ok in H as (total & _ & H). injection H as <-. cbn [qa_ruleset_version qa_rules qa_decision].
    split; [done|]. split.
    + unfold quote_asset_rule, quote_volume_rule, wallet_concentration_rule.
      destruct (classify_quote_asset s), (mm_largest_wallet_quote_volume _); reflexivity.
    + rewrite <- has_decision_iff. unfold aggregate.
      destruct (has_decision Reject _); [done|]. destruct (has_decision Unknown _); done.
  - injection H as <-. simpl. split_and!; [done|done|done|]. repeat constructor.
Qed.

(** evaluation fails only for an invalid policy, and says which clause is
    violated first; on a built snapshot the arithmetic never fails. *)
Theorem qualification_errors {J} m opened closes c (obs : list (NormalizedObservation J)) snap p :
  observations_typed obs ->
  build_market_window_snapshot m opened closes c obs = Ok snap ->
  match evaluate_qualification snap p with
  | Ok _ => policy_validate p = Ok tt
  | Err MissingRulesetVersion => is_empty (trim (ruleset_version p)) = true
  | Err (InvalidMaximumWalletShare actual) =>
      actual = maximum_single_wallet_quote_volume_bps p /\ 10000 < actual
  | Err MinimumUniqueTradersExceedTrades => minimum_trades p < minimum_unique_traders p
  | Err MinimumBuysExceedTrades => minimum_trades p < minimum_buys p
  | Err MinimumSellsExceedTrades => minimum_trades p < minimum_sells p
  | Err (SnapshotFailure _) => False
  end.
Proof.
  intros Ht Hb. apply build_Ok in Hb as (-> & _ & _ & _ & Hok); [|done].
  unfold evaluate_qualification. set (snap := snapshot_of _ _ _ _ _).
  destruct (policy_validate p) as [[]|e] eqn:Hp.
  - cbn [mbind result_bind]. destruct (negb _); [done|].
    change (total_quote_volume_units (ms_metrics snap)) with
      (total_quote_units (metrics_of (omap accepted_trade (window_observations m opened closes obs)))).
    by rewrite total_quote_units_volume.
  - cbn [mbind result_bind]. revert Hp. unfold policy_validate.
    change BASIS_POINTS_SCALE with 10000.
    destruct (is_empty _) eqn:?; [by intros [= <-]|].
    destruct (Z.gtb_spec (maximum_single_wallet_quote_volume_bps p) 10000); [by intros [= <-]|].
    destruct (Z.gtb_spec (minimum_unique_traders p) (minimum_trades p)); [by intros [= <-]|].
    destruct (Z.gtb_spec (minimum_buys p) (minimum_trades p)); [by intros [= <-]|].
    destruct (Z.gtb_spec (minimum_sells p) (minimum_trades p)); [by intros [= <-]|done].
Qed.

(** ** Witnesses *)
Lemma qualification_decides_window_witness :
  exists a, evaluate_qualification SampleWindow.value policy_default = Ok a /\
    qa_decision a <> Pass.
Proof.
  destruct (qualification_decides_window SampleWindow.the_market 100 200 Complete
    SampleWindow.window SampleWindow.value policy_default SampleWindow.window_typed
    SampleWindow.window_value) as (a & Ha & Hd); [reflexivity|vm_compute; congruence|].
  exists a. split; [exact Ha|]. intros Hpass. apply Hd in Hpass as (_ & (t & Ht & _) & _).
  vm_compute in Ht. discriminate.
Defined.

Lemma qualification_rules_canonical_witness :
  exists a, evaluate_qualification SampleWindow.value policy_default = Ok a /\
    length (qa_rules a) = 8%nat.
Proof.
  eexists. split; [vm_compute; reflexivity|].
  match goal with |- length (qa_rules ?a) = _ =>
    pose proof (qualification_rules_canonical SampleWindow.value policy_default a) as H end.
  destruct H as (_ & H & _); [vm_compute; reflexivity|].
  apply (f_equal length) in H. rewrite !length_fmap in H. exact H.
Defined.

Lemma qualification_errors_witness :
  match evaluate_qualification SampleWindow.value policy_default with
  | Ok _ => policy_validate policy_default = Ok tt
  | Err _ => False
  end.
Proof.
  pose proof (qualification_errors SampleWindow.the_market 100 200 Complete
    SampleWindow.window SampleWindow.value policy_default SampleWindow.window_typed
    SampleWindow.window_value) as H.
  destruct (evaluate_qualification SampleWindow.value policy_default) as [|e] eqn:E; [exact H|].
  vm_compute in E. discriminate.
Defined.
