(* ===== verification/WindowToken.v ===== *)
(** [ObservationWindowToken] of [crates/discovery-engine/src/lib.rs]: the seven
    shared atomic cells of one observation window.

    Every method is given twice: as a function on the cells (what one call does
    when nothing interferes, used by the registry model), and as a program of
    atomic memory operations, so that any number of concurrent calls on the
    same token can be interleaved. *)
From S2P Require Import Prelude.

(** ** States and reasons *)
Definition WINDOW_PENDING : Z := 0.
Definition WINDOW_CONFIRMED : Z := 1.
Definition WINDOW_CANCELLED_PENDING : Z := 2.
Definition WINDOW_CANCELLED_CONFIRMED : Z := 3.
Definition WINDOW_COMPLETE : Z := 0.

Inductive WindowIncompleteReason :=
| CapacityEvicted | QueueOverflow | SourceDisconnected | StreamStopped | PipelineRestarted
| DecodeGap | ProcessingFailed | CpiInstructionDataUnavailable.
#[export] Instance WindowIncompleteReason_eq_dec : EqDecision WindowIncompleteReason.
Proof. solve_decision. Defined.

Definition reason_to_code (r : WindowIncompleteReason) : Z :=
  match r with
  | CapacityEvicted => 1 | QueueOverflow => 2 | SourceDisconnected => 3 | StreamStopped => 4
  | PipelineRestarted => 5 | DecodeGap => 6 | ProcessingFailed => 7
  | CpiInstructionDataUnavailable => 8
  end.

Definition reason_from_code (code : Z) : option WindowIncompleteReason :=
  if code =? 1 then Some CapacityEvicted
  else if code =? 2 then Some QueueOverflow
  else if code =? 3 then Some SourceDisconnected
  else if code =? 4 then Some StreamStopped
  else if code =? 5 then Some PipelineRestarted
  else if code =? 6 then Some DecodeGap
  else if code =? 7 then Some ProcessingFailed
  else if code =? 8 then Some CpiInstructionDataUnavailable
  else None.

Definition reason_str (r : WindowIncompleteReason) : string :=
  match r with
  | CapacityEvicted => "CAPACITY_EVICTED" | QueueOverflow => "QUEUE_OVERFLOW"
  | SourceDisconnected => "SOURCE_DISCONNECTED" | StreamStopped => "STREAM_STOPPED"
  | PipelineRestarted => "PIPELINE_RESTARTED" | DecodeGap => "DECODE_GAP"
  | ProcessingFailed => "PROCESSING_FAILED"
  | CpiInstructionDataUnavailable => "CPI_INSTRUCTION_DATA_UNAVAILABLE"
  end.

Lemma reason_roundtrip r : reason_from_code (reason_to_code r) = Some r.
Proof. by destruct r. Qed.

Lemma reason_code_range r : 1 <= reason_to_code r <= 8.
Proof. destruct r; simpl; lia. Qed.

(** The mutable cells behind the [Arc]s of one token. *)
Record TokenCells := {
  tc_state : Z;
  tc_durable_window_id : option Z;
  tc_admitted : Z;
  tc_settled : Z;
  tc_incomplete_reason : Z;
  tc_finalization_claimed : bool;
  tc_finalized : bool;
}.
Definition fresh_cells : TokenCells := {|
  tc_state := WINDOW_PENDING; tc_durable_window_id := None; tc_admitted := 0; tc_settled := 0;
  tc_incomplete_reason := WINDOW_COMPLETE; tc_finalization_claimed := false;
  tc_finalized := false |}.
#[export] Instance TokenCells_eq_dec : EqDecision TokenCells.
Proof. solve_decision. Defined.
#[export] Instance TokenCells_inhabited : Inhabited TokenCells := populate fresh_cells.

Definition set_state (s : Z) (c : TokenCells) : TokenCells := {|
  tc_state := s; tc_durable_window_id := tc_durable_window_id c; tc_admitted := tc_admitted c;
  tc_settled := tc_settled c; tc_incomplete_reason := tc_incomplete_reason c;
  tc_finalization_claimed := tc_finalization_claimed c; tc_finalized := tc_finalized c |}.
Definition set_durable (id : option Z) (c : TokenCells) : TokenCells := {|
  tc_state := tc_state c; tc_durable_window_id := id; tc_admitted := tc_admitted c;
  tc_settled := tc_settled c; tc_incomplete_reason := tc_incomplete_reason c;
  tc_finalization_claimed := tc_finalization_claimed c; tc_finalized := tc_finalized c |}.
Definition set_admitted (n : Z) (c : TokenCells) : TokenCells := {|
  tc_state := tc_state c; tc_durable_window_id := tc_durable_window_id c; tc_admitted := n;
  tc_settled := tc_settled c; tc_incomplete_reason := tc_incomplete_reason c;
  tc_finalization_claimed := tc_finalization_claimed c; tc_finalized := tc_finalized c |}.
Definition set_settled (n : Z) (c : TokenCells) : TokenCells := {|
  tc_state := tc_state c; tc_durable_window_id := tc_durable_window_id c;
  tc_admitted := tc_admitted c; tc_settled := n;
  tc_incomplete_reason := tc_incomplete_reason c;
  tc_finalization_claimed := tc_finalization_claimed c; tc_finalized := tc_finalized c |}.
Definition set_incomplete (code : Z) (c : TokenCells) : TokenCells := {|
  tc_state := tc_state c; tc_durable_window_id := tc_durable_window_id c;
  tc_admitted := tc_admitted c; tc_settled := tc_settled c; tc_incomplete_reason := code;
  tc_finalization_claimed := tc_finalization_claimed c; tc_finalized := tc_finalized c |}.
Definition set_claimed (b : bool) (c : TokenCells) : TokenCells := {|
  tc_state := tc_state c; tc_durable_window_id := tc_durable_window_id c;
  tc_admitted := tc_admitted c; tc_settled := tc_settled c;
  tc_incomplete_reason := tc_incomplete_reason c;
  tc_finalization_claimed := b; tc_finalized := tc_finalized c |}.
Definition set_finalized (b : bool) (c : TokenCells) : TokenCells := {|
  tc_state := tc_state c; tc_durable_window_id := tc_durable_window_id c;
  tc_admitted := tc_admitted c; tc_settled := tc_settled c;
  tc_incomplete_reason := tc_incomplete_reason c;
  tc_finalization_claimed := tc_finalization_claimed c; tc_finalized := b |}.

(** ** One call at a time *)
Inductive ObservationWindowStatus := StatusPending | StatusConfirmed | StatusCancelled.

(** [status]; the source's [unreachable!] arm is [None]. *)
Definition status (c : TokenCells) : option ObservationWindowStatus :=
  if tc_state c =? WINDOW_PENDING then Some StatusPending
  else if tc_state c =? WINDOW_CONFIRMED then Some StatusConfirmed
  else if (tc_state c =? WINDOW_CANCELLED_PENDING) || (tc_state c =? WINDOW_CANCELLED_CONFIRMED)
  then Some StatusCancelled
  else None.

Definition state_open (c : TokenCells) : bool :=
  (tc_state c =? WINDOW_PENDING) || (tc_state c =? WINDOW_CONFIRMED).
Definition was_confirmed (c : TokenCells) : bool :=
  (tc_state c =? WINDOW_CONFIRMED) || (tc_state c =? WINDOW_CANCELLED_CONFIRMED).
Definition incomplete_reason (c : TokenCells) : option WindowIncompleteReason :=
  reason_from_code (tc_incomplete_reason c).
Definition is_settled (c : TokenCells) : bool := tc_admitted c =? tc_settled c.

Definition confirm (c : TokenCells) : bool * TokenCells :=
  if tc_state c =? WINDOW_PENDING then (true, set_state WINDOW_CONFIRMED c)
  else (tc_state c =? WINDOW_CONFIRMED, c).

Definition cancel_if_pending (c : TokenCells) : TokenCells :=
  if tc_state c =? WINDOW_PENDING then set_state WINDOW_CANCELLED_PENDING c else c.

Definition mark_incomplete (r : WindowIncompleteReason) (c : TokenCells) : bool * TokenCells :=
  if tc_incomplete_reason c =? WINDOW_COMPLETE then (true, set_incomplete (reason_to_code r) c)
  else (false, c).

Definition cancel_with_reason (r : WindowIncompleteReason) (c : TokenCells) : TokenCells :=
  if tc_state c =? WINDOW_PENDING then set_state WINDOW_CANCELLED_PENDING c
  else if tc_state c =? WINDOW_CONFIRMED then
    set_state WINDOW_CANCELLED_CONFIRMED (mark_incomplete r c).2
  else c.

Definition set_durable_window_id (id : Z) (c : TokenCells) : bool * TokenCells :=
  if (id <=? 0) || negb (was_confirmed c) then (false, c)
  else
    match tc_durable_window_id c with
    | Some existing => (existing =? id, c)
    | None => (true, set_durable (Some id) c)
    end.

Definition mark_admitted (c : TokenCells) : bool * TokenCells :=
  if tc_finalized c then (false, c)
  else
    match checked_add_u 64 (tc_admitted c) 1 with
    | Some n => (true, set_admitted n c)
    | None => (false, c)
    end.

Definition mark_settled (c : TokenCells) : bool * TokenCells :=
  if tc_settled c >=? tc_admitted c then (false, c)
  else (true, set_settled (tc_settled c + 1) c).

Definition try_claim_finalization (c : TokenCells) : bool * TokenCells :=
  if tc_finalization_claimed c then (false, c) else (true, set_claimed true c).
Definition release_finalization (c : TokenCells) : TokenCells := set_claimed false c.
Definition mark_finalized (c : TokenCells) : bool * TokenCells :=
  if tc_finalized c then (false, c) else (true, set_finalized true c).

(** ** Concurrent calls *)

(** A call, and a finalization claim with what its owner does with it:
    [mark_committed] (commit then drop) or just a drop. *)
Inductive TokenCall :=
| CallConfirm | CallCancelIfPending
| CallMarkIncomplete (r : WindowIncompleteReason)
| CallCancelWithReason (r : WindowIncompleteReason)
| CallSetDurable (id : Z)
| CallMarkAdmitted | CallMarkSettled
| CallClaim (commit : bool).

(** The control point of a call: between any two of these lies one atomic
    operation. *)
Inductive TokenPc :=
| Start (call : TokenCall)
| CancelPending (r : WindowIncompleteReason)
| CancelMark (r : WindowIncompleteReason)
| CancelConfirmed (r : WindowIncompleteReason)
| DurableGet (id : Z)
| DurableSet (id : Z)
| DurableReread (id : Z)
| AdmitUpdate
| SettleLoad (admitted : Z)
| SettleExchange (settled : Z)
| ClaimHeld (commit : bool)
| ClaimDrop (commit committed : bool)
| Done (call : TokenCall) (returned : bool).

(** One atomic operation of one call. *)
Inductive token_step : TokenPc -> TokenCells -> TokenPc -> TokenCells -> Prop :=
| step_confirm c :
    token_step (Start CallConfirm) c (Done CallConfirm (confirm c).1) (confirm c).2
| step_cancel_if_pending c :
    token_step (Start CallCancelIfPending) c (Done CallCancelIfPending true) (cancel_if_pending c)
| step_mark_incomplete r c :
    token_step (Start (CallMarkIncomplete r)) c
      (Done (CallMarkIncomplete r) (mark_incomplete r c).1) (mark_incomplete r c).2
(* [cancel_with_reason]: the loop loads the state and branches on it *)
| step_cancel_load r c :
    token_step (Start (CallCancelWithReason r)) c
      (if tc_state c =? WINDOW_PENDING then CancelPending r
       else if tc_state c =? WINDOW_CONFIRMED then CancelMark r
       else Done (CallCancelWithReason r) true) c
| step_cancel_pending r c :
    token_step (CancelPending r) c
      (if tc_state c =? WINDOW_PENDING then Done (CallCancelWithReason r) true
       else Start (CallCancelWithReason r))
      (if tc_state c =? WINDOW_PENDING then set_state WINDOW_CANCELLED_PENDING c else c)
| step_cancel_mark r c :
    token_step (CancelMark r) c (CancelConfirmed r) (mark_incomplete r c).2
| step_cancel_confirmed r c :
    token_step (CancelConfirmed r) c
      (if tc_state c =? WINDOW_CONFIRMED then Done (CallCancelWithReason r) true
       else Start (CallCancelWithReason r))
      (if tc_state c =? WINDOW_CONFIRMED then set_state WINDOW_CANCELLED_CONFIRMED c else c)
(* [set_durable_window_id] *)
| step_durable_check id c :
    token_step (Start (CallSetDurable id)) c
      (if (id <=? 0) || negb (was_confirmed c) then Done (CallSetDurable id) false
       else DurableGet id) c
| step_durable_get id c :
    token_step (DurableGet id) c
      (match tc_durable_window_id c with
       | Some existing => Done (CallSetDurable id) (existing =? id)
       | None => DurableSet id
       end) c
| step_durable_set id c :
    token_step (DurableSet id) c
      (match tc_durable_window_id c with
       | Some _ => DurableReread id
       | None => Done (CallSetDurable id) true
       end)
      (match tc_durable_window_id c with
       | Some _ => c
       | None => set_durable (Some id) c
       end)
| step_durable_reread id c :
    token_step (DurableReread id) c
      (Done (CallSetDurable id) (bool_decide (tc_durable_window_id c = Some id))) c
(* [mark_admitted]: the load of [finalized], then one [fetch_update] *)
| step_admit_check c :
    token_step (Start CallMarkAdmitted) c
      (if tc_finalized c then Done CallMarkAdmitted false else AdmitUpdate) c
| step_admit_update c :
    token_step AdmitUpdate c
      (Done CallMarkAdmitted
         (match checked_add_u 64 (tc_admitted c) 1 with Some _ => true | None => false end))
      (match checked_add_u 64 (tc_admitted c) 1 with Some n => set_admitted n c | None => c end)
(* [mark_settled]: two loads and a weak exchange that may fail spuriously *)
| step_settle_load c :
    token_step (Start CallMarkSettled) c (SettleLoad (tc_admitted c)) c
| step_settle_compare admitted c :
    token_step (SettleLoad admitted) c
      (if tc_settled c >=? admitted then Done CallMarkSettled false
       else SettleExchange (tc_settled c)) c
| step_settle_exchange c :
    token_step (SettleExchange (tc_settled c)) c (Done CallMarkSettled true)
      (set_settled (tc_settled c + 1) c)
| step_settle_retry settled c :
    token_step (SettleExchange settled) c (Start CallMarkSettled) c
(* a finalization claim and its drop *)
| step_claim commit c :
    token_step (Start (CallClaim commit)) c
      (if tc_finalization_claimed c then Done (CallClaim commit) false else ClaimHeld commit)
      (try_claim_finalization c).2
| step_claim_commit c :
    token_step (ClaimHeld true) c (ClaimDrop true (mark_finalized c).1) (mark_finalized c).2
| step_claim_abandon c :
    token_step (ClaimHeld false) c (ClaimDrop false false) c
| step_claim_drop commit committed c :
    token_step (ClaimDrop commit committed) c (Done (CallClaim commit) committed)
      (release_finalization c).

(** Any number of calls on one token: a step of one of them, or a new call. *)
Record TokenSystem := { ts_calls : list TokenPc; ts_cells : TokenCells }.

Inductive system_step : TokenSystem -> TokenSystem -> Prop :=
| system_call calls c call :
    system_step {| ts_calls := calls; ts_cells := c |}
                {| ts_calls := Start call :: calls; ts_cells := c |}
| system_run before after pc pc' c c' :
    token_step pc c pc' c' ->
    system_step {| ts_calls := before ++ pc :: after; ts_cells := c |}
                {| ts_calls := before ++ pc' :: after; ts_cells := c' |}.

Definition system_init : TokenSystem := {| ts_calls := []; ts_cells := fresh_cells |}.
Definition reachable (s : TokenSystem) : Prop := rtc system_step system_init s.
