(* ===== verification/WindowTokenProofs.v ===== *)
(** Safety of concurrent use of one observation-window token: the invariant of
    its cells and of every in-flight call, monotonicity, exact accounting of
    admissions, settlements, claims and commits, and agreement of the
    interleaved programs with the atomic functions when a call runs alone. *)
From S2P Require Import Prelude.
From S2P Require Import ListFacts.
From S2P Require Import WindowToken.

(** ** Monotonicity *)
Definition state_le (s s' : Z) : Prop :=
  s = s' \/ s = WINDOW_PENDING \/ (s = WINDOW_CONFIRMED /\ s' = WINDOW_CANCELLED_CONFIRMED).

Record cells_le (c c' : TokenCells) : Prop := {
  le_state : state_le (tc_state c) (tc_state c');
  le_durable id : tc_durable_window_id c = Some id -> tc_durable_window_id c' = Some id;
  le_admitted : tc_admitted c <= tc_admitted c';
  le_settled : tc_settled c <= tc_settled c';
  le_incomplete : tc_incomplete_reason c <> WINDOW_COMPLETE ->
    tc_incomplete_reason c' = tc_incomplete_reason c;
  le_finalized : tc_finalized c = true -> tc_finalized c' = true;
}.

#[export] Instance cells_le_refl : Reflexive cells_le.
Proof. intros c. constructor; try done; try lia. by left. Qed.

#[export] Instance cells_le_trans : Transitive cells_le.
Proof.
  intros x y z [S1 D1 A1 T1 I1 F1] [S2 D2 A2 T2 I2 F2]. constructor; auto; try lia.
  - unfold state_le, WINDOW_PENDING, WINDOW_CONFIRMED, WINDOW_CANCELLED_CONFIRMED in *. lia.
Qed.

(** ** Invariants *)
Record cells_ok (c : TokenCells) : Prop := {
  ok_state : 0 <= tc_state c <= 3;
  ok_reason : 0 <= tc_incomplete_reason c <= 8;
  ok_counts : 0 <= tc_settled c <= tc_admitted c;
  ok_admitted : tc_admitted c <= u64_max;
  ok_cancelled : tc_state c = WINDOW_CANCELLED_CONFIRMED -> tc_incomplete_reason c <> WINDOW_COMPLETE;
  ok_durable id : tc_durable_window_id c = Some id -> 0 < id /\ was_confirmed c = true;
}.

Definition pc_ok (c : TokenCells) (pc : TokenPc) : Prop :=
  match pc with
  | CancelMark _ => was_confirmed c = true
  | CancelConfirmed _ => was_confirmed c = true /\ tc_incomplete_reason c <> WINDOW_COMPLETE
  | DurableGet id | DurableSet id | DurableReread id => 0 < id /\ was_confirmed c = true
  | SettleLoad admitted => admitted <= tc_admitted c
  | SettleExchange settled => settled < tc_admitted c
  | Done (CallSetDurable id) true => tc_durable_window_id c = Some id
  | _ => True
  end.

Lemma was_confirmed_iff c :
  was_confirmed c = true <-> tc_state c = WINDOW_CONFIRMED \/ tc_state c = WINDOW_CANCELLED_CONFIRMED.
Proof. unfold was_confirmed. by rewrite orb_true_iff, !Z.eqb_eq. Qed.

Lemma was_confirmed_mono c c' : cells_le c c' -> was_confirmed c = true -> was_confirmed c' = true.
Proof.
  intros [Hs _ _ _ _ _]. rewrite !was_confirmed_iff.
  unfold state_le, WINDOW_PENDING, WINDOW_CONFIRMED, WINDOW_CANCELLED_CONFIRMED in *. lia.
Qed.

Lemma pc_ok_mono c c' pc : cells_le c c' -> pc_ok c pc -> pc_ok c' pc.
Proof.
  intros Hle. pose proof (was_confirmed_mono c c' Hle). destruct Hle as [_ D A _ I _].
  destruct pc as [call| | | | | | | | | | | |call returned]; simpl; try done; try naive_solver lia.
  destruct call, returned; try done. auto.
Qed.

Ltac cell_cases :=
  repeat match goal with
  | |- context [if ?b then _ else _] => let E := fresh "E" in destruct b eqn:E
  | |- context [match tc_durable_window_id ?c with _ => _ end] =>
      let E := fresh "E" in destruct (tc_durable_window_id c) eqn:E
  | |- context [match checked_add_u ?w ?a ?b with _ => _ end] =>
      let E := fresh "E" in destruct (checked_add_u w a b) eqn:E
  end.

Lemma token_step_le pc c pc' c' : cells_ok c -> token_step pc c pc' c' -> cells_le c c'.
Proof.
  intros Hok Hstep.
  assert (forall x, x = c -> cells_le c x) as Hrefl by (by intros x ->).
  destruct Hstep; unfold confirm, cancel_if_pending, mark_incomplete, try_claim_finalization,
    mark_finalized, release_finalization; cell_cases; try by apply Hrefl.
  all: constructor; simpl; try done; try lia; try by left.
  all: try (right; left; by apply Z.eqb_eq).
  all: try (right; right; split; [by apply Z.eqb_eq|done]).
  - congruence.
  - apply checked_add_u_Some in E as [-> _]. lia.
Qed.

(** Facts about the current cells after the case analysis of a step. *)
Ltac cell_facts :=
  repeat match goal with
  | H : (_ =? _) = true |- _ => apply Z.eqb_eq in H
  | H : (_ =? _) = false |- _ => apply Z.eqb_neq in H
  | H : (_ >=? _) = true |- _ => rewrite Z.geb_leb in H; apply Z.leb_le in H
  | H : (_ >=? _) = false |- _ => rewrite Z.geb_leb in H; apply Z.leb_gt in H
  | H : checked_add_u _ _ _ = Some _ |- _ => apply checked_add_u_Some in H as [-> ?]
  | H : (_ || _) = false |- _ => apply orb_false_iff in H as [? ?]
  | H : (_ <=? _) = false |- _ => apply Z.leb_gt in H
  | H : negb _ = false |- _ => apply negb_false_iff in H
  end.

Ltac unfold_states :=
  unfold WINDOW_PENDING, WINDOW_CONFIRMED, WINDOW_CANCELLED_PENDING, WINDOW_CANCELLED_CONFIRMED,
    WINDOW_COMPLETE in *.

Lemma token_step_cells_ok pc c pc' c' :
  cells_ok c -> pc_ok c pc -> token_step pc c pc' c' -> cells_ok c'.
Proof.
  intros Hok Hpc Hstep. pose proof Hok as [S R C A X D].
  assert (forall id, tc_durable_window_id c = Some id -> tc_state c = 1 \/ tc_state c = 3) as D'.
  { intros id Hid. apply D in Hid as [_ Hw]. by apply was_confirmed_iff in Hw. }
  destruct Hstep; unfold confirm, cancel_if_pending, mark_incomplete, try_claim_finalization,
    mark_finalized, release_finalization; cell_cases; try done; simpl in Hpc; cell_facts;
    constructor; simpl; try done; unfold_states; try lia;
    try (intros id0 Hid; destruct (D id0 Hid) as [? _]; split; [done|];
         apply was_confirmed_iff; simpl; unfold_states; destruct (D' id0 Hid); lia).
  - pose proof (reason_code_range r). lia.
  - pose proof (reason_code_range r). lia.
  - intros id0 [= <-]. exact Hpc.
Qed.

Lemma token_step_pc_ok pc c pc' c' :
  cells_ok c -> pc_ok c pc -> token_step pc c pc' c' -> pc_ok c' pc'.
Proof.
  intros [S R C A X D] Hpc Hstep.
  destruct Hstep; unfold confirm, cancel_if_pending, mark_incomplete, try_claim_finalization,
    mark_finalized, release_finalization; cell_cases; simpl in *; try done; cell_facts; try done;
    try lia.
  - apply was_confirmed_iff. unfold_states. auto.
  - split; [done|]. unfold_states. pose proof (reason_code_range r). lia.
  - destruct (Z.eqb_spec z id); [by subst|done].
  - case_bool_decide; done.
Qed.

(** ** Accounting *)
Definition settle_credit (pc : TokenPc) : Z :=
  match pc with Done CallMarkSettled true => 1 | _ => 0 end.
Definition admit_credit (pc : TokenPc) : Z :=
  match pc with Done CallMarkAdmitted true => 1 | _ => 0 end.
Definition claim_held (pc : TokenPc) : Z :=
  match pc with ClaimHeld _ | ClaimDrop _ _ => 1 | _ => 0 end.
(** A claim whose [mark_committed] won. *)
Definition commit_credit (pc : TokenPc) : Z :=
  match pc with ClaimDrop _ true | Done (CallClaim _) true => 1 | _ => 0 end.
Definition flag (b : bool) : Z := if b then 1 else 0.

(** Each step moves every counter by what it does to the cells. *)
Lemma token_step_credits pc c pc' c' :
  (claim_held pc = 1 -> tc_finalization_claimed c = true) ->
  token_step pc c pc' c' ->
  settle_credit pc' - settle_credit pc = tc_settled c' - tc_settled c /\
  admit_credit pc' - admit_credit pc = tc_admitted c' - tc_admitted c /\
  claim_held pc' - claim_held pc =
    flag (tc_finalization_claimed c') - flag (tc_finalization_claimed c) /\
  commit_credit pc' - commit_credit pc = flag (tc_finalized c') - flag (tc_finalized c).
Proof.
  intros Hheld Hstep.
  destruct Hstep; unfold confirm, cancel_if_pending, mark_incomplete, try_claim_finalization,
    mark_finalized, release_finalization; cell_cases; simpl in *; cell_facts;
    try (split_and!; lia).
  all: rewrite ?Hheld by done; try rewrite E; simpl; try (split_and!; lia).
Qed.

Record system_ok (s : TokenSystem) : Prop := {
  so_cells : cells_ok (ts_cells s);
  so_calls : Forall (pc_ok (ts_cells s)) (ts_calls s);
  so_settled : tc_settled (ts_cells s) = sum_of settle_credit (ts_calls s);
  so_admitted : tc_admitted (ts_cells s) = sum_of admit_credit (ts_calls s);
  so_claimed : flag (tc_finalization_claimed (ts_cells s)) = sum_of claim_held (ts_calls s);
  so_finalized : flag (tc_finalized (ts_cells s)) = sum_of commit_credit (ts_calls s);
}.

Lemma claim_held_range pc : 0 <= claim_held pc <= 1.
Proof. destruct pc; simpl; lia. Qed.

Lemma claim_held_sum calls : 0 <= sum_of claim_held calls.
Proof.
  induction calls as [|pc calls IH]; [done|]. rewrite sum_of_cons.
  pose proof (claim_held_range pc). lia.
Qed.

Lemma system_ok_step s s' : system_ok s -> system_step s s' -> system_ok s' /\
  cells_le (ts_cells s) (ts_cells s').
Proof.
  intros [Hc Hp H1 H2 H3 H4] Hstep.
  destruct Hstep as [calls c call|before after pc pc' c c' Hstep]; simpl in *.
  { split; [|done]. constructor; simpl; try done. by constructor. }
  apply Forall_app in Hp as [Hp1 Hp2]. apply Forall_cons in Hp2 as [Hpc Hp2].
  pose proof (token_step_le _ _ _ _ Hc Hstep) as Hle.
  rewrite !sum_of_app, !sum_of_cons in *.
  destruct (token_step_credits pc c pc' c') as (D1 & D2 & D3 & D4); [|done|].
  { intros Hh. pose proof (claim_held_sum before). pose proof (claim_held_sum after).
    destruct (tc_finalization_claimed c); [done|]. simpl in H3. lia. }
  split; [|done]. constructor; simpl.
  - by eapply token_step_cells_ok.
  - apply Forall_app. split; [|constructor].
    + eapply Forall_impl; [exact Hp1|]. intros x. by apply pc_ok_mono.
    + by eapply token_step_pc_ok.
    + eapply Forall_impl; [exact Hp2|]. intros x. by apply pc_ok_mono.
  - rewrite sum_of_app, sum_of_cons. lia.
  - rewrite sum_of_app, sum_of_cons. lia.
  - rewrite sum_of_app, sum_of_cons. lia.
  - rewrite sum_of_app, sum_of_cons. lia.
Qed.

Lemma system_ok_init : system_ok system_init.
Proof.
  by constructor.
Qed.

Lemma system_ok_rtc s s' : system_ok s -> rtc system_step s s' ->
  system_ok s' /\ cells_le (ts_cells s) (ts_cells s').
Proof.
  intros Hok Hr. induction Hr as [s|s s1 s' Hstep _ IH]; [done|].
  destruct (system_ok_step _ _ Hok Hstep) as [H1 Hle]. destruct (IH H1) as [H2 Hle2].
  split; [done|]. by etrans.
Qed.

Lemma reachable_ok s : reachable s -> system_ok s.
Proof. intros H. by apply (system_ok_rtc _ _ system_ok_init). Qed.

(** ** A call that runs alone *)

(** What the whole call returns and leaves behind without interference. *)
Definition call_alone (call : TokenCall) (c : TokenCells) : bool * TokenCells :=
  match call with
  | CallConfirm => confirm c
  | CallCancelIfPending => (true, cancel_if_pending c)
  | CallMarkIncomplete r => mark_incomplete r c
  | CallCancelWithReason r => (true, cancel_with_reason r c)
  | CallSetDurable id => set_durable_window_id id c
  | CallMarkAdmitted => mark_admitted c
  | CallMarkSettled => mark_settled c
  | CallClaim commit =>
      let '(won, c1) := try_claim_finalization c in
      if won then
        let '(committed, c2) := if commit then mark_finalized c1 else (false, c1) in
        (committed, release_finalization c2)
      else (false, c1)
  end.

Definition solo_step (p q : TokenPc * TokenCells) : Prop := token_step p.1 p.2 q.1 q.2.

Lemma solo_once pc c pc' c' q :
  token_step pc c pc' c' -> rtc solo_step (pc', c') q -> rtc solo_step (pc, c) q.
Proof. intros. by apply rtc_l with (pc', c'). Qed.

Lemma call_alone_run call c :
  rtc solo_step (Start call, c) (Done call (call_alone call c).1, (call_alone call c).2).
Proof.
  destruct call as [| |r|r|id| | |commit]; simpl.
  - eapply solo_once; [constructor|done].
  - eapply solo_once; [constructor|done].
  - eapply solo_once; [constructor|done].
  - eapply solo_once; [constructor|]. unfold cancel_with_reason.
    destruct (Z.eqb_spec (tc_state c) WINDOW_PENDING) as [E0|E0].
    + eapply solo_once; [constructor|]. by rewrite E0.
    + destruct (Z.eqb_spec (tc_state c) WINDOW_CONFIRMED) as [E1|E1]; [|done].
      eapply solo_once; [constructor|]. eapply solo_once; [constructor|].
      assert (tc_state (mark_incomplete r c).2 = WINDOW_CONFIRMED) as ->.
      { unfold mark_incomplete. by destruct (_ =? _). }
      done.
  - eapply solo_once; [constructor|]. unfold set_durable_window_id.
    destruct (_ || _); [done|]. eapply solo_once; [constructor|].
    destruct (tc_durable_window_id c) eqn:E; [done|].
    eapply solo_once; [constructor|]. by rewrite E.
  - eapply solo_once; [constructor|]. unfold mark_admitted.
    destruct (tc_finalized c); [done|]. eapply solo_once; [constructor|].
    by destruct (checked_add_u _ _ _).
  - eapply solo_once; [constructor|]. eapply solo_once; [constructor|]. unfold mark_settled.
    destruct (_ >=? _); [done|]. eapply solo_once; [constructor|done].
  - eapply solo_once; [constructor|]. unfold try_claim_finalization.
    destruct (tc_finalization_claimed c); [done|]. simpl.
    destruct commit; (eapply solo_once; [constructor|]); (eapply solo_once; [constructor|]); [|done].
    by destruct (mark_finalized _).
Qed.

(** Every call keeps the cell invariant and moves the cells forward. *)
Lemma call_alone_ok call c :
  cells_ok c -> cells_ok (call_alone call c).2 /\ cells_le c (call_alone call c).2.
Proof.
  intros Hc. pose proof (call_alone_run call c) as Hr.
  assert (forall p q, rtc solo_step p q -> cells_ok p.2 -> pc_ok p.2 p.1 ->
    cells_ok q.2 /\ cells_le p.2 q.2) as Hgen.
  { clear. intros p q. induction 1 as [p|p p1 q Hs _ IH]; intros Hok Hpc; [done|].
    destruct IH as [H1 H2]; [by eapply token_step_cells_ok|by eapply token_step_pc_ok|].
    split; [done|]. etrans; [by eapply token_step_le|done]. }
  apply (Hgen _ _ Hr); [done|]. by destruct call.
Qed.

(** ** Theorems *)

(** no interleaving of calls on a shared window token loses or duplicates
    work.  In every reachable state the settled count never exceeds the
    admitted count and neither overflows; each equals the number of calls that
    reported success; at most one finalization claim is held, exactly when the
    flag is set; and at most one commit ever wins, exactly when the token is
    finalized. *)
Theorem token_accounting s :
  reachable s ->
  0 <= tc_settled (ts_cells s) <= tc_admitted (ts_cells s) /\
  tc_admitted (ts_cells s) <= u64_max /\
  tc_settled (ts_cells s) = sum_of settle_credit (ts_calls s) /\
  tc_admitted (ts_cells s) = sum_of admit_credit (ts_calls s) /\
  sum_of claim_held (ts_calls s) = flag (tc_finalization_claimed (ts_cells s)) /\
  sum_of commit_credit (ts_calls s) = flag (tc_finalized (ts_cells s)).
Proof. intros [[? ? ? ? ? ?] ? ? ? ? ?]%reachable_ok. split_and!; lia. Qed.

(** a token's cells only ever move forward.  Across any interleaving the
    state follows pending -> confirmed | cancelled-pending and confirmed ->
    cancelled-confirmed, the first durable id and the first incomplete reason
    are kept for ever, the counters never decrease and finalization is final. *)
Theorem token_monotone s s' :
  reachable s -> rtc system_step s s' -> cells_le (ts_cells s) (ts_cells s').
Proof. intros Hs Hr. by apply (system_ok_rtc _ _ (reachable_ok _ Hs) Hr). Qed.

(** reachable tokens are explainable.  The source's [unreachable!] arms are
    unreachable; a window cancelled after confirmation has a recorded reason;
    a durable id is positive, belongs to a window that was confirmed, and is
    the one every successful setter was given. *)
Theorem token_explained s :
  reachable s ->
  let c := ts_cells s in
  status c <> None /\
  (tc_state c = WINDOW_CANCELLED_CONFIRMED -> incomplete_reason c <> None) /\
  (forall id, tc_durable_window_id c = Some id -> 0 < id /\ was_confirmed c = true) /\
  (forall id, Done (CallSetDurable id) true ∈ ts_calls s -> tc_durable_window_id c = Some id).
Proof.
  intros [[S R C A X D] Hp _ _ _ _]%reachable_ok. cbv zeta. split_and!.
  - unfold status. unfold_states.
    destruct (Z.eqb_spec (tc_state (ts_cells s)) 0); [done|].
    destruct (Z.eqb_spec (tc_state (ts_cells s)) 1); [done|].
    destruct (Z.eqb_spec (tc_state (ts_cells s)) 2); [done|].
    destruct (Z.eqb_spec (tc_state (ts_cells s)) 3); [done|lia].
  - intros H3. specialize (X H3). unfold incomplete_reason, reason_from_code. unfold_states.
    generalize dependent (tc_incomplete_reason (ts_cells s)). intros code Hr Hne.
    assert (code = 1 \/ code = 2 \/ code = 3 \/ code = 4 \/ code = 5 \/ code = 6 \/ code = 7 \/
      code = 8) as Hc by lia.
    by repeat destruct Hc as [->|Hc]; subst.
  - done.
  - intros id Hin. rewrite Forall_forall in Hp. by apply (Hp _ Hin).
Qed.

(** every call terminates when it runs without interference, and then does
    what its atomic description says: the retry loops of [mark_settled] and
    [cancel_with_reason] end, returning the described result and cells. *)
Theorem token_call_alone call c :
  rtc solo_step (Start call, c) (Done call (call_alone call c).1, (call_alone call c).2).
Proof. apply call_alone_run. Qed.

(** ** Witnesses: two workers settle one admitted observation *)
Module SampleRace.
Definition one_admitted : TokenCells := set_admitted 1 fresh_cells.
Definition raced : TokenSystem := {|
  ts_calls := [Done CallMarkSettled false; Done CallMarkSettled true; Done CallMarkAdmitted true];
  ts_cells := set_settled 1 one_admitted |}.

Lemma call_step calls c call s :
  rtc system_step {| ts_calls := Start call :: calls; ts_cells := c |} s ->
  rtc system_step {| ts_calls := calls; ts_cells := c |} s.
Proof. intros. eapply rtc_l; [constructor|done]. Defined.
Lemma run_step calls before after pc pc' c c' s :
  calls = before ++ pc :: after -> token_step pc c pc' c' ->
  rtc system_step {| ts_calls := before ++ pc' :: after; ts_cells := c' |} s ->
  rtc system_step {| ts_calls := calls; ts_cells := c |} s.
Proof. intros -> ? ?. eapply rtc_l; [by constructor|done]. Defined.

Lemma raced_reachable : reachable raced.
Proof.
  unfold reachable, system_init.
  apply (call_step _ _ CallMarkAdmitted).
  eapply (run_step _ [] []); [reflexivity|constructor|]. simpl.
  eapply (run_step _ [] []); [reflexivity|constructor|]. simpl.
  apply (call_step _ _ CallMarkSettled). apply (call_step _ _ CallMarkSettled).
  (* both load the admitted count; the second worker wins the exchange *)
  eapply (run_step _ [] [_; _]); [reflexivity|constructor|]. simpl.
  eapply (run_step _ [_] [_]); [reflexivity|constructor|]. simpl.
  eapply (run_step _ [_] [_]); [reflexivity|constructor|]. simpl.
  eapply (run_step _ [] [_; _]); [reflexivity|constructor|]. simpl.
  eapply (run_step _ [_] [_]); [reflexivity|apply (step_settle_exchange one_admitted)|]. simpl.
  eapply (run_step _ [] [_; _]); [reflexivity|apply step_settle_retry|]. simpl.
  eapply (run_step _ [] [_; _]); [reflexivity|constructor|]. simpl.
  eapply (run_step _ [] [_; _]); [reflexivity|constructor|]. simpl.
  apply rtc_refl.
Defined.
End SampleRace.

Lemma token_accounting_witness :
  tc_settled (ts_cells SampleRace.raced) = 1 /\
  tc_settled (ts_cells SampleRace.raced) = sum_of settle_credit (ts_calls SampleRace.raced).
Proof.
  split; [reflexivity|]. apply (token_accounting SampleRace.raced SampleRace.raced_reachable).
Defined.

Lemma token_monotone_witness : cells_le (ts_cells SampleRace.raced) (ts_cells SampleRace.raced).
Proof. exact (token_monotone _ _ SampleRace.raced_reachable (rtc_refl _ _)). Defined.

Lemma token_explained_witness : status (ts_cells SampleRace.raced) <> None.
Proof. exact (proj1 (token_explained _ SampleRace.raced_reachable)). Defined.
