(* ===== verification/WindowRegistry.v ===== *)
(** [ObservationWindowRegistry] of [crates/discovery-engine/src/lib.rs]: the
    windows currently open, the closed ones kept until their durable
    finalization, and the per-source watermarks.

    Tokens are values that share cells through [Arc]s: a token holds the
    address of its cells, the cells live in a heap, and the registry, the
    queues and the claims of the workers alias them.  The registry mutex makes
    each registry call one atomic step between the steps other threads take on
    the cells; [WindowToken] covers what happens inside those. *)
From S2P Require Import Prelude.
From S2P Require Import ListFacts.
From S2P Require Import RustOrd.
From S2P Require Import Domain.
From S2P Require Import WindowToken.

(** ** Targets *)
Inductive ObservationTarget := PumpMint (mint : string) | PumpSwapPool (pool : string).
#[export] Instance ObservationTarget_eq_dec : EqDecision ObservationTarget.
Proof. solve_decision. Defined.
#[export] Instance ObservationTarget_countable : Countable ObservationTarget.
Proof.
  apply (inj_countable'
    (fun t => match t with PumpMint s => inl s | PumpSwapPool s => inr s end)
    (fun s => match s with inl s => PumpMint s | inr s => PumpSwapPool s end)).
  by intros [].
Defined.
#[export] Instance SourceProgram_countable : Countable SourceProgram.
Proof.
  apply (inj_countable'
    (fun p => match p with Pump => 0%nat | PumpSwap => 1%nat | RaydiumCpmm => 2%nat
              | RaydiumClmm => 3%nat | RaydiumAmmV4 => 4%nat end)
    (fun n => match n with 0%nat => Pump | 1%nat => PumpSwap | 2%nat => RaydiumCpmm
              | 3%nat => RaydiumClmm | _ => RaydiumAmmV4 end)).
  by intros [].
Defined.

(** The derived [Ord]: variants in declaration order, then the string. *)
Definition target_key (t : ObservationTarget) : Z * string :=
  match t with PumpMint s => (0, s) | PumpSwapPool s => (1, s) end.
Lemma target_key_inj t1 t2 : target_key t1 = target_key t2 -> t1 = t2.
Proof. destruct t1, t2; naive_solver. Qed.
#[export, refine] Instance ord_target : RustOrd ObservationTarget :=
  {| cmp t1 t2 := cmp (target_key t1) (target_key t2) |}.
Proof.
  - intros a b. rewrite cmp_eq. split; [apply target_key_inj|by intros ->].
  - intros. apply cmp_antisym.
  - intros a b c. apply cmp_trans.
Defined.

(** [ObservationTarget::for_market]. *)
Definition for_market (m : MarketIdentity) : option ObservationTarget :=
  match mi_venue m with
  | PumpBondingCurve => Some (PumpMint (mi_mint m))
  | PumpSwapVenue => Some (PumpSwapPool (mi_market_address m))
  | RaydiumCpmmVenue | RaydiumClmmVenue | RaydiumAmmV4Venue => None
  end.

Definition target_source_program (t : ObservationTarget) : SourceProgram :=
  match t with PumpMint _ => Pump | PumpSwapPool _ => PumpSwap end.

(** ** State *)
Record ObservationWindow := {
  ow_target : ObservationTarget;
  ow_mint : string;
  ow_opened_at_unix_ms : Z;
  ow_closes_at_unix_ms : Z;
}.
#[export] Instance ObservationWindow_eq_dec : EqDecision ObservationWindow.
Proof. solve_decision. Defined.

(** [tok_cells] is the address of the cells behind the token's [Arc]s. *)
Record Token := {
  tok_generation : Z;
  tok_window : ObservationWindow;
  tok_cells : nat;
}.
#[export] Instance Token_eq_dec : EqDecision Token.
Proof. solve_decision. Defined.
Definition tok_target (t : Token) : ObservationTarget := ow_target (tok_window t).
Definition tok_opened (t : Token) : Z := ow_opened_at_unix_ms (tok_window t).
Definition tok_closes (t : Token) : Z := ow_closes_at_unix_ms (tok_window t).

(** [PartialEq for ObservationWindowToken]: generation and window. *)
Definition token_eq (a b : Token) : bool :=
  (tok_generation a =? tok_generation b) && bool_decide (tok_window a = tok_window b).

Record SourceCoverageGap := { gap_observed_at : Z; gap_reason : WindowIncompleteReason }.

Record RegistryState := {
  next_generation : Z;
  windows : gmap ObservationTarget Token;
  retained : list Token;
  latest_source_coverage_gap : gmap SourceProgram SourceCoverageGap;
  latest_source_progress : gmap SourceProgram Z;
}.

Notation Heap := (gmap nat TokenCells).
Record World := { heap : Heap; next_cell : nat; reg : RegistryState }.

Definition world_init : World := {|
  heap := ∅; next_cell := 0;
  reg := {| next_generation := 0; windows := ∅; retained := [];
            latest_source_coverage_gap := ∅; latest_source_progress := ∅ |} |}.

Definition cells_of (h : Heap) (t : Token) : TokenCells := h !!! tok_cells t.
Definition update_cells (f : TokenCells -> TokenCells) (t : Token) (h : Heap) : Heap :=
  <[tok_cells t := f (cells_of h t)]> h.

Definition with_heap (h : Heap) (w : World) : World :=
  {| heap := h; next_cell := next_cell w; reg := reg w |}.
Definition with_reg (r : RegistryState) (w : World) : World :=
  {| heap := heap w; next_cell := next_cell w; reg := r |}.

(** [is_open_at] and [is_confirmed_at]. *)
Definition in_interval (t : Token) (at_ : Z) : bool := (tok_opened t <=? at_) && (at_ <? tok_closes t).
Definition is_open_at (h : Heap) (t : Token) (at_ : Z) : bool :=
  state_open (cells_of h t) && in_interval t at_.
Definition is_confirmed_at (h : Heap) (t : Token) (at_ : Z) : bool :=
  (tc_state (cells_of h t) =? WINDOW_CONFIRMED) && in_interval t at_.

(** ** Closing *)
Definition retain_if_durable (h : Heap) (kept : list Token) (t : Token) : list Token :=
  if was_confirmed (cells_of h t) && negb (tc_finalized (cells_of h t)) then kept ++ [t] else kept.

Definition set_windows (ws : gmap ObservationTarget Token) (kept : list Token)
    (r : RegistryState) : RegistryState := {|
  next_generation := next_generation r; windows := ws; retained := kept;
  latest_source_coverage_gap := latest_source_coverage_gap r;
  latest_source_progress := latest_source_progress r |}.

Definition rotate_one (h : Heap) (r : RegistryState) (target : ObservationTarget)
    : RegistryState :=
  match windows r !! target with
  | Some t => set_windows (delete target (windows r)) (retain_if_durable h (retained r) t) r
  | None => r
  end.

Definition rotate_closed_windows (h : Heap) (now : Z) (r : RegistryState) : RegistryState :=
  let closed := fst <$> List.filter
    (fun p => negb (is_open_at h p.2 now) || (tok_closes p.2 <=? now))
    (map_to_list (windows r)) in
  fold_left (rotate_one h) closed r.

(** ** Opening *)
Record Provision := { pv_token : Token; pv_newly_opened : bool }.

(** The key of [min_by_key]. *)
Definition evict_key (p : ObservationTarget * Token) : Z * ObservationTarget :=
  (tok_closes p.2, p.1).
Definition evict_lt (p q : ObservationTarget * Token) : bool :=
  match cmp (evict_key p) (evict_key q) with Lt => true | _ => false end.
Definition eviction_choice (ws : gmap ObservationTarget Token) : option ObservationTarget :=
  fst <$> fold_best_opt evict_lt (map_to_list ws).

Definition evict_if_full (maximum_active : nat) (w : World) : World :=
  if (maximum_active <=? size (windows (reg w)))%nat then
    match eviction_choice (windows (reg w)) with
    | None => w
    | Some evicted =>
        match windows (reg w) !! evicted with
        | None => w
        | Some t =>
            let h := update_cells (cancel_with_reason CapacityEvicted) t (heap w) in
            with_reg (set_windows (delete evicted (windows (reg w)))
                        (retain_if_durable h (retained (reg w)) t) (reg w)) (with_heap h w)
        end
    end
  else w.

(** [opened_at.saturating_add(i64::try_from(duration.as_millis()).unwrap_or(i64::MAX))]. *)
Definition closes_at (opened_at duration_ms : Z) : Z :=
  saturating_add_s 64 opened_at (default i64_max (try_from_s 64 duration_ms)).

Definition initial_cells (r : RegistryState) (target : ObservationTarget) (opened closes : Z)
    : TokenCells :=
  match latest_source_coverage_gap r !! target_source_program target with
  | Some gap =>
      if (opened <=? gap_observed_at gap) && (gap_observed_at gap <? closes)
      then (mark_incomplete (gap_reason gap) fresh_cells).2 else fresh_cells
  | None => fresh_cells
  end.

(** The allocation of a new token and its insertion in the active map. *)
Definition open_window (w : World) (target : ObservationTarget) (mint : string)
    (opened closes : Z) : Provision * World :=
  let r := reg w in
  let t := {| tok_generation := next_generation r;
              tok_window := {| ow_target := target; ow_mint := mint;
                               ow_opened_at_unix_ms := opened; ow_closes_at_unix_ms := closes |};
              tok_cells := next_cell w |} in
  ({| pv_token := t; pv_newly_opened := true |},
   {| heap := <[next_cell w := initial_cells r target opened closes]> (heap w);
      next_cell := S (next_cell w);
      reg := {| next_generation := wrapping_add_u 64 (next_generation r) 1;
                windows := <[target := t]> (windows r); retained := retained r;
                latest_source_coverage_gap := latest_source_coverage_gap r;
                latest_source_progress := latest_source_progress r |} |}).

Definition provision_target (maximum_active : nat) (w : World) (target : ObservationTarget)
    (mint : string) (opened_at duration_ms : Z) : Provision * World :=
  let closes := closes_at opened_at duration_ms in
  let w := with_reg (rotate_closed_windows (heap w) opened_at (reg w)) w in
  match windows (reg w) !! target with
  | Some existing =>
      if is_open_at (heap w) existing opened_at
      then ({| pv_token := existing; pv_newly_opened := false |}, w)
      else open_window (evict_if_full maximum_active w) target mint opened_at closes
  | None => open_window (evict_if_full maximum_active w) target mint opened_at closes
  end.

Definition open_market (maximum_active : nat) (w : World) (m : MarketIdentity)
    (opened_at duration_ms : Z) : option ObservationWindow * World :=
  match for_market m with
  | None => (None, w)
  | Some target =>
      let '(p, w') := provision_target maximum_active w target (mi_mint m) opened_at duration_ms in
      (Some (tok_window (pv_token p)),
       with_heap (update_cells (fun c => (confirm c).2) (pv_token p) (heap w')) w')
  end.

(** ** Admission *)
Definition matching_token (w : World) (target : ObservationTarget) (at_ : Z) : option Token :=
  match windows (reg w) !! target with
  | Some t => if is_open_at (heap w) t at_ then Some t else None
  | None => None
  end.

Definition admit_matching_token (w : World) (target : ObservationTarget) (at_ : Z)
    : option Token * World :=
  match matching_token w target at_ with
  | None => (None, w)
  | Some t =>
      if (mark_admitted (cells_of (heap w) t)).1
      then (Some t, with_heap (update_cells (fun c => (mark_admitted c).2) t (heap w)) w)
      else (None, with_heap (update_cells (fun c => (mark_incomplete QueueOverflow c).2) t (heap w)) w)
  end.

Definition is_active (w : World) (target : ObservationTarget) (now : Z) : bool :=
  match matching_token w target now with Some _ => true | None => false end.

Definition active_count (w : World) (now : Z) : nat * World :=
  let r := rotate_closed_windows (heap w) now (reg w) in
  (size (windows r), with_reg r w).

(** ** Sources *)
Definition record_source_progress (w : World) (p : SourceProgram) (at_ : Z) : World :=
  let r := reg w in
  let latest := match latest_source_progress r !! p with
                | Some old => Z.max old at_
                | None => at_
                end in
  with_reg {| next_generation := next_generation r; windows := windows r;
              retained := retained r;
              latest_source_coverage_gap := latest_source_coverage_gap r;
              latest_source_progress := <[p := latest]> (latest_source_progress r) |} w.

(** Marks the tokens of a list one after the other, counting those whose first
    failure this is. *)
Definition mark_all (reason : WindowIncompleteReason) (h : Heap) (ts : list Token) : nat * Heap :=
  fold_left (fun '(n, h) t =>
    let '(marked, c) := mark_incomplete reason (cells_of h t) in
    ((if marked then S n else n), <[tok_cells t := c]> h)) ts (0%nat, h).

Definition gap_affects (h : Heap) (p : SourceProgram) (at_ : Z) (t : Token) : bool :=
  bool_decide (target_source_program (tok_target t) = p) &&
  negb (tc_finalized (cells_of h t)) && in_interval t at_.

Definition registry_tokens (r : RegistryState) : list Token :=
  (map_to_list (windows r)).*2 ++ retained r.

Definition record_source_coverage_gap (w : World) (p : SourceProgram) (at_ : Z)
    (reason : WindowIncompleteReason) : nat * World :=
  let r := reg w in
  let gap := {| gap_observed_at := at_; gap_reason := reason |} in
  let latest := match latest_source_coverage_gap r !! p with
                | Some old => if at_ >? gap_observed_at old then gap else old
                | None => gap
                end in
  let '(n, h) := mark_all reason (heap w)
    (List.filter (gap_affects (heap w) p at_) (registry_tokens r)) in
  (n, {| heap := h; next_cell := next_cell w;
         reg := {| next_generation := next_generation r; windows := windows r;
                   retained := retained r;
                   latest_source_coverage_gap := <[p := latest]> (latest_source_coverage_gap r);
                   latest_source_progress := latest_source_progress r |} |}).

(** ** Finalization *)
Definition is_candidate (h : Heap) (t : Token) : bool :=
  let c := cells_of h t in
  was_confirmed c && bool_decide (is_Some (tc_durable_window_id c)) && is_settled c &&
  negb (tc_finalization_claimed c) && negb (tc_finalized c).

Definition candidate_key (t : Token) : Z * ObservationTarget * Z :=
  (tok_closes t, tok_target t, tok_generation t).

Definition finalization_candidates (w : World) (now : Z) : list Token * World :=
  let r := rotate_closed_windows (heap w) now (reg w) in
  (sort_by (fun a b => cmp (candidate_key a) (candidate_key b))
     (List.filter (is_candidate (heap w)) (retained r)),
   with_reg r w).

Record FinalizationClaim := { cl_token : Token; cl_reason : option WindowIncompleteReason }.

Definition claimable (h : Heap) (candidate t : Token) : bool :=
  let c := cells_of h t in
  token_eq t candidate && bool_decide (tok_cells t = tok_cells candidate) && was_confirmed c &&
  bool_decide (is_Some (tc_durable_window_id c)) && is_settled c && negb (tc_finalized c).

Definition claim_finalization (w : World) (candidate : Token)
    : option FinalizationClaim * World :=
  match List.find (claimable (heap w) candidate) (retained (reg w)) with
  | None => (None, w)
  | Some t =>
      let c := cells_of (heap w) t in
      let behind := match latest_source_progress (reg w) !! target_source_program (tok_target t) with
                    | None => true
                    | Some watermark => watermark <? tok_closes t
                    end in
      if bool_decide (incomplete_reason c = None) && behind then (None, w)
      else
        let '(won, c') := try_claim_finalization c in
        if won then
          (Some {| cl_token := t; cl_reason := incomplete_reason c' |},
           with_heap (<[tok_cells t := c']> (heap w)) w)
        else (None, w)
  end.

(** [mark_committed] consumes the claim, so its [Drop] runs right after. *)
Definition claim_drop (w : World) (cl : FinalizationClaim) : World :=
  with_heap (update_cells release_finalization (cl_token cl) (heap w)) w.
Definition claim_mark_committed (w : World) (cl : FinalizationClaim) : bool * World :=
  let '(committed, c) := mark_finalized (cells_of (heap w) (cl_token cl)) in
  (committed, claim_drop (with_heap (<[tok_cells (cl_token cl) := c]> (heap w)) w) cl).

Definition cleanup_finalized (w : World) : nat * World :=
  let r := reg w in
  let kept := List.filter (fun t => negb (tc_finalized (cells_of (heap w) t))) (retained r) in
  ((length (retained r) - length kept)%nat, with_reg (set_windows (windows r) kept r) w).

(** ** Cancellation *)
Definition cancel_active (reason : WindowIncompleteReason) (st : nat * World)
    (target : ObservationTarget) : nat * World :=
  let '(n, w) := st in
  let r := reg w in
  match windows r !! target with
  | None => (n, w)
  | Some t =>
      let ws := delete target (windows r) in
      if was_confirmed (cells_of (heap w) t) then
        let h := update_cells (cancel_with_reason reason) t (heap w) in
        (S n, with_reg (set_windows ws (retain_if_durable h (retained r) t) r) (with_heap h w))
      else
        (n, with_reg (set_windows ws (retained r) r)
              (with_heap (update_cells cancel_if_pending t (heap w)) w))
  end.

Definition cancel_retained (reason : WindowIncompleteReason)
    (matches_target : ObservationTarget -> bool) (st : nat * Heap) (t : Token) : nat * Heap :=
  let '(n, h) := st in
  let c := cells_of h t in
  if matches_target (tok_target t) && negb (tc_finalized c) &&
     negb (tc_finalization_claimed c) && (tc_state c =? WINDOW_CONFIRMED)
  then (S n, update_cells (cancel_with_reason reason) t h)
  else (n, h).

Definition cancel_confirmed_matching (w : World) (reason : WindowIncompleteReason)
    (matches_target : ObservationTarget -> bool) : nat * World :=
  let targets := List.filter matches_target (fst <$> map_to_list (windows (reg w))) in
  let '(n, w1) := fold_left (cancel_active reason) targets (0%nat, w) in
  let '(n2, h) := fold_left (cancel_retained reason matches_target) (retained (reg w1)) (n, heap w1) in
  (n2, with_heap h w1).

Definition cancel_all_confirmed (w : World) (reason : WindowIncompleteReason) : nat * World :=
  cancel_confirmed_matching w reason (fun _ => true).
Definition cancel_source_confirmed (w : World) (p : SourceProgram)
    (reason : WindowIncompleteReason) : nat * World :=
  cancel_confirmed_matching w reason
    (fun target => bool_decide (target_source_program target = p)).
