(* ===== verification/WindowRegistryInv.v ===== *)
(** The invariant of the observation-window registry, preserved by every
    registry call and by every interference of other threads on the tokens'
    cells. *)
From S2P Require Import Prelude.
From S2P Require Import ListFacts.
From S2P Require Import RustOrd.
From S2P Require Import Domain.
From S2P Require Import WindowToken.
From S2P Require Import WindowTokenProofs.
From S2P Require Import WindowRegistry.

(** ** The invariant *)
Record world_ok (maximum_active : nat) (w : World) : Prop := {
  wf_target k t : windows (reg w) !! k = Some t -> tok_target t = k;
  wf_distinct : NoDup (tok_cells <$> registry_tokens (reg w));
  wf_alloc t : t ∈ registry_tokens (reg w) -> is_Some (heap w !! tok_cells t);
  wf_capacity : (size (windows (reg w)) <= maximum_active)%nat;
  wf_retained t : t ∈ retained (reg w) -> was_confirmed (cells_of (heap w) t) = true;
  wf_cells i c : heap w !! i = Some c -> cells_ok c /\ (i < next_cell w)%nat;
  wf_generation t : t ∈ registry_tokens (reg w) ->
    tok_generation t = Z.of_nat (tok_cells t) mod 2 ^ 64;
  wf_next : next_generation (reg w) = Z.of_nat (next_cell w) mod 2 ^ 64;
}.

(** What other threads may do to the cells: by [token_monotone], nothing but
    move them forward. *)
Definition heap_le (h h' : Heap) : Prop :=
  dom h' = dom h /\
  forall i c c', h !! i = Some c -> h' !! i = Some c' -> cells_ok c' /\ cells_le c c'.

(** A cell update a token method can make. *)
Definition cell_op (f : TokenCells -> TokenCells) : Prop :=
  forall c, cells_ok c -> cells_ok (f c) /\ cells_le c (f c).

Lemma cell_op_call call : cell_op (fun c => (call_alone call c).2).
Proof. intros c. apply call_alone_ok. Qed.

Lemma cell_op_confirm : cell_op (fun c => (confirm c).2).
Proof. apply (cell_op_call CallConfirm). Qed.
Lemma cell_op_cancel_pending : cell_op cancel_if_pending.
Proof. apply (cell_op_call CallCancelIfPending). Qed.
Lemma cell_op_incomplete r : cell_op (fun c => (mark_incomplete r c).2).
Proof. apply (cell_op_call (CallMarkIncomplete r)). Qed.
Lemma cell_op_cancel r : cell_op (cancel_with_reason r).
Proof. apply (cell_op_call (CallCancelWithReason r)). Qed.
Lemma cell_op_admitted : cell_op (fun c => (mark_admitted c).2).
Proof. apply (cell_op_call CallMarkAdmitted). Qed.
Lemma cell_op_claim : cell_op (fun c => (try_claim_finalization c).2).
Proof.
  intros c Hc. unfold try_claim_finalization. destruct (tc_finalization_claimed c); [done|].
  destruct Hc as [S R C A X D]. split; constructor; simpl; try done; try lia. by left.
Qed.
Lemma cell_op_release : cell_op release_finalization.
Proof.
  intros c [S R C A X D]. split; constructor; simpl; try done; try lia. by left.
Qed.
Lemma cell_op_finalized : cell_op (fun c => (mark_finalized c).2).
Proof.
  intros c Hc. unfold mark_finalized. destruct (tc_finalized c); [done|].
  destruct Hc as [S R C A X D]. split; constructor; simpl; try done; try lia. by left.
Qed.
Lemma cell_op_id : cell_op (fun c => c).
Proof. done. Qed.

Create HintDb cells.
#[export] Hint Resolve cell_op_confirm cell_op_cancel_pending cell_op_incomplete cell_op_cancel
  cell_op_admitted cell_op_claim cell_op_release cell_op_finalized cell_op_id : cells.

Lemma fresh_cells_ok : cells_ok fresh_cells.
Proof. by constructor. Qed.

(** ** Heaps *)
Lemma heap_le_refl h : (forall i c, h !! i = Some c -> cells_ok c) -> heap_le h h.
Proof. intros Hok. split; [done|]. intros i c c' H1 H2. simplify_eq. split; [eauto|done]. Qed.

Lemma cells_of_lookup h t c : h !! tok_cells t = Some c -> cells_of h t = c.
Proof. intros H. unfold cells_of. by rewrite lookup_total_alt, H. Qed.

Lemma cells_of_update_eq f t h : cells_of (update_cells f t h) t = f (cells_of h t).
Proof. unfold cells_of, update_cells. by rewrite lookup_total_insert_eq. Qed.

Lemma cells_of_update_ne f t t' h :
  tok_cells t' <> tok_cells t -> cells_of (update_cells f t h) t' = cells_of h t'.
Proof. intros. unfold cells_of, update_cells. by rewrite lookup_total_insert_ne. Qed.

Lemma heap_le_update f t h :
  cell_op f -> (forall i c, h !! i = Some c -> cells_ok c) -> is_Some (h !! tok_cells t) ->
  heap_le h (update_cells f t h).
Proof.
  intros Hf Hok [c0 Hc0]. unfold update_cells. rewrite (cells_of_lookup _ _ _ Hc0). split.
  - rewrite dom_insert_L. assert (tok_cells t ∈ dom h) by (by apply elem_of_dom_2 in Hc0).
    set_solver.
  - intros i c c' H1 H2. destruct (decide (i = tok_cells t)) as [->|Hne].
    + rewrite lookup_insert_eq in H2. simplify_eq. eauto.
    + rewrite lookup_insert_ne in H2 by done. simplify_eq. split; [eauto|done].
Qed.

Lemma heap_le_cells h h' t :
  heap_le h h' -> is_Some (h !! tok_cells t) -> cells_le (cells_of h t) (cells_of h' t).
Proof.
  intros [Hdom Hle] [c Hc]. assert (is_Some (h' !! tok_cells t)) as [c' Hc'].
  { apply elem_of_dom. rewrite Hdom. by apply elem_of_dom_2 in Hc. }
  rewrite (cells_of_lookup _ _ _ Hc), (cells_of_lookup _ _ _ Hc'). by eapply Hle.
Qed.

Lemma heap_le_trans h1 h2 h3 : heap_le h1 h2 -> heap_le h2 h3 -> heap_le h1 h3.
Proof.
  intros [D1 L1] [D2 L2]. split; [congruence|]. intros i c c' H1 H3.
  assert (is_Some (h2 !! i)) as [c2 H2].
  { apply elem_of_dom. rewrite D1. by apply elem_of_dom_2 in H1. }
  destruct (L1 _ _ _ H1 H2), (L2 _ _ _ H2 H3). split; [done|]. by etrans.
Qed.

Section Ok.
Context (maximum_active : nat).
Notation ok := (world_ok maximum_active).

Lemma ok_heap_cells w : ok w -> forall i c, heap w !! i = Some c -> cells_ok c.
Proof. intros Hw i c Hc. by destruct (wf_cells _ _ Hw _ _ Hc). Qed.

Lemma ok_with_heap w h : ok w -> heap_le (heap w) h -> ok (with_heap h w).
Proof.
  intros Hw Hle. pose proof Hle as [Hdom Hcells].
  constructor; simpl; try apply Hw.
  - intros t Ht. apply (wf_alloc _ _ Hw) in Ht. apply elem_of_dom. rewrite Hdom.
    by rewrite elem_of_dom.
  - intros t Ht. pose proof (wf_retained _ _ Hw t Ht) as Hc.
    eapply was_confirmed_mono; [|exact Hc]. apply heap_le_cells; [done|].
    apply (wf_alloc _ _ Hw). unfold registry_tokens. set_solver.
  - intros i c' Hc'. assert (is_Some (heap w !! i)) as [c Hc].
    { apply elem_of_dom. rewrite <- Hdom. by apply elem_of_dom_2 in Hc'. }
    destruct (wf_cells _ _ Hw _ _ Hc) as [_ Hi]. split; [|done]. by destruct (Hcells _ _ _ Hc Hc').
Qed.

Lemma ok_update w f t :
  ok w -> cell_op f -> is_Some (heap w !! tok_cells t) -> ok (with_heap (update_cells f t (heap w)) w).
Proof.
  intros Hw Hf Ht. apply ok_with_heap; [done|]. apply heap_le_update; [done| |done].
  by apply ok_heap_cells.
Qed.

(** Dropping or moving tokens out of the active map. *)
Lemma ok_with_reg w r rest :
  ok w -> (forall k t, windows r !! k = Some t -> windows (reg w) !! k = Some t) ->
  registry_tokens (reg w) ≡ₚ registry_tokens r ++ rest ->
  (forall t, t ∈ retained r -> was_confirmed (cells_of (heap w) t) = true) ->
  next_generation r = next_generation (reg w) ->
  ok (with_reg r w).
Proof.
  intros Hw Hsub Hperm Hret Hgen.
  assert (forall t, t ∈ registry_tokens r -> t ∈ registry_tokens (reg w)) as Hin.
  { intros t Ht. rewrite Hperm. set_solver. }
  constructor; simpl.
  - intros k t Ht. by apply (wf_target _ _ Hw), Hsub.
  - pose proof (wf_distinct _ _ Hw) as Hnd. rewrite Hperm, fmap_app in Hnd.
    by apply NoDup_app in Hnd as (? & _ & _).
  - intros t Ht. by apply (wf_alloc _ _ Hw), Hin.
  - etrans; [|apply (wf_capacity _ _ Hw)]. apply map_subseteq_size, map_subseteq_spec. done.
  - done.
  - apply (wf_cells _ _ Hw).
  - intros t Ht. by apply (wf_generation _ _ Hw), Hin.
  - rewrite Hgen. apply (wf_next _ _ Hw).
Qed.

(** Closing one active window, with or without keeping its token. *)
Lemma ok_close w k t kept :
  ok w -> windows (reg w) !! k = Some t ->
  kept = retained (reg w) \/
    kept = retained (reg w) ++ [t] /\ was_confirmed (cells_of (heap w) t) = true ->
  ok (with_reg (set_windows (delete k (windows (reg w))) kept (reg w)) w).
Proof.
  intros Hw Hk Hkept.
  assert (registry_tokens (reg w) ≡ₚ
    t :: (map_to_list (delete k (windows (reg w)))).*2 ++ retained (reg w)) as Hperm.
  { unfold registry_tokens. by rewrite <- (map_to_list_delete _ _ _ Hk). }
  assert (forall k' t', delete k (windows (reg w)) !! k' = Some t' -> windows (reg w) !! k' = Some t').
  { intros k' t' H. by apply lookup_delete_Some in H as [_ ?]. }
  destruct Hkept as [->|[-> Hc]].
  - apply (ok_with_reg _ _ [t]); [done|done| |by apply (wf_retained _ _ Hw)|done].
    rewrite Hperm. unfold registry_tokens; simpl. by rewrite (Permutation_app_comm _ [t]).
  - apply (ok_with_reg _ _ []); [done|done| | |done].
    + rewrite Hperm, app_nil_r. unfold registry_tokens; simpl.
      rewrite app_assoc. by rewrite (Permutation_app_comm _ [t]).
    + simpl. intros t' [Ht'|Ht']%elem_of_app; [by apply (wf_retained _ _ Hw)|].
      apply list_elem_of_singleton in Ht' as ->. done.
Qed.

Lemma retain_if_durable_cases h kept t :
  retain_if_durable h kept t = kept \/
  retain_if_durable h kept t = kept ++ [t] /\ was_confirmed (cells_of h t) = true.
Proof.
  unfold retain_if_durable. destruct (was_confirmed _) eqn:E; simpl; [|auto].
  destruct (tc_finalized _); simpl; auto.
Qed.

Lemma ok_close_with w k t f kept :
  ok w -> windows (reg w) !! k = Some t -> cell_op f ->
  kept = retained (reg w) \/
    kept = retained (reg w) ++ [t] /\ was_confirmed (f (cells_of (heap w) t)) = true ->
  ok (with_reg (set_windows (delete k (windows (reg w))) kept (reg w))
       (with_heap (update_cells f t (heap w)) w)).
Proof.
  intros Hw Hk Hf Hkept.
  assert (t ∈ registry_tokens (reg w)) as Hin.
  { unfold registry_tokens. apply elem_of_app. left. apply list_elem_of_fmap.
    exists (k, t). split; [done|]. by apply elem_of_map_to_list. }
  pose proof (ok_update _ _ _ Hw Hf (wf_alloc _ _ Hw _ Hin)) as Hw'.
  apply (ok_close _ k t kept Hw'); [done|]. simpl. by rewrite cells_of_update_eq.
Qed.

(** ** Rotation *)
Lemma ok_rotate_one w k : ok w -> ok (with_reg (rotate_one (heap w) (reg w) k) w).
Proof.
  intros Hw. unfold rotate_one. destruct (windows (reg w) !! k) as [t|] eqn:E.
  - apply ok_close with t; [done|done|]. apply retain_if_durable_cases.
  - by destruct w.
Qed.

Lemma ok_rotate_fold w ks :
  ok w -> ok (with_reg (fold_left (rotate_one (heap w)) ks (reg w)) w).
Proof.
  revert w. induction ks as [|k ks IH]; intros w Hw; simpl; [by destruct w|].
  apply (IH (with_reg (rotate_one (heap w) (reg w) k) w)). by apply ok_rotate_one.
Qed.

Lemma ok_rotate w now : ok w -> ok (with_reg (rotate_closed_windows (heap w) now (reg w)) w).
Proof. apply ok_rotate_fold. Qed.

(** ** Eviction *)
Lemma evict_lt_trans p q r : evict_lt p q = true -> evict_lt q r = true -> evict_lt p r = true.
Proof.
  unfold evict_lt. destruct (cmp (evict_key p) _) eqn:E1; try done.
  destruct (cmp (evict_key q) _) eqn:E2; try done. by rewrite (cmp_trans _ _ _ E1 E2).
Qed.

Lemma evict_lt_cotrans p q r : evict_lt p r = true -> evict_lt q r = false -> evict_lt p q = true.
Proof.
  unfold evict_lt. destruct (cmp (evict_key p) (evict_key r)) eqn:E1; try done. intros _ H.
  destruct (cmp_trichotomy (evict_key q) (evict_key r)) as [[Hlt|He]|Hgt].
  - by rewrite Hlt in H.
  - by rewrite He, E1.
  - by rewrite (cmp_trans _ _ _ E1 Hgt).
Qed.

Lemma eviction_choice_spec ws :
  match eviction_choice ws with
  | None => ws = ∅
  | Some k => exists t, ws !! k = Some t /\
      forall k' t', ws !! k' = Some t' -> evict_lt (k', t') (k, t) = false
  end.
Proof.
  unfold eviction_choice.
  pose proof (fold_best_opt_first evict_lt (fun _ => True)
    (fun x y z _ _ _ => evict_lt_trans x y z) (fun x y z _ _ _ => evict_lt_cotrans x y z)
    (map_to_list ws)) as H.
  destruct (fold_best_opt evict_lt (map_to_list ws)) as [[k t]|]; csimpl.
  - specialize (H ltac:(by apply Forall_true)). exists t. split.
    + apply elem_of_map_to_list. by apply (first_best_elem evict_lt).
    + intros k' t' Hin%elem_of_map_to_list. destruct H as (pre & post & Hl & Hpre & Hpost).
      rewrite Hl in Hin. rewrite Forall_forall in Hpre, Hpost.
      apply elem_of_app in Hin as [Hin|[->|Hin]%elem_of_cons]; [|unfold evict_lt; by rewrite cmp_refl|by apply Hpost].
      apply Hpre in Hin. destruct (evict_lt (k', t') (k, t)) eqn:E; [|done].
      pose proof (evict_lt_trans _ _ _ E Hin) as Hirr. unfold evict_lt in Hirr.
      by rewrite cmp_refl in Hirr.
  - apply map_to_list_empty_iff. apply H. by apply Forall_true.
Qed.

Lemma ok_evict w : ok w -> ok (evict_if_full maximum_active w).
Proof.
  intros Hw. unfold evict_if_full. destruct (_ <=? _)%nat; [|done].
  destruct (eviction_choice _) as [k|]; [|done].
  destruct (windows (reg w) !! k) as [t|] eqn:E; [|done].
  apply (ok_close_with w k t); [done|done|auto with cells|].
  rewrite <- (cells_of_update_eq (cancel_with_reason CapacityEvicted)).
  apply retain_if_durable_cases.
Qed.

Lemma evict_room w :
  (0 < maximum_active)%nat -> (size (windows (reg w)) <= maximum_active)%nat ->
  (size (windows (reg (evict_if_full maximum_active w))) < maximum_active)%nat.
Proof.
  intros Hmax Hsize. unfold evict_if_full.
  destruct (Nat.leb_spec maximum_active (size (windows (reg w)))); [|done].
  pose proof (eviction_choice_spec (windows (reg w))) as H1.
  destruct (eviction_choice _) as [k|].
  - destruct H1 as (t & Ht & _). rewrite Ht. simpl.
    rewrite map_size_delete_Some by done. lia.
  - rewrite H1 in *. rewrite map_size_empty in *. lia.
Qed.

Lemma evict_windows_sub w k t :
  windows (reg (evict_if_full maximum_active w)) !! k = Some t -> windows (reg w) !! k = Some t.
Proof.
  unfold evict_if_full. destruct (_ <=? _)%nat; [|done].
  destruct (eviction_choice _) as [k'|]; [|done].
  destruct (windows (reg w) !! k') as [t'|]; [|done]. simpl.
  intros H. by apply lookup_delete_Some in H as [_ ?].
Qed.

(** ** Opening *)
Lemma initial_cells_ok r target opened closes : cells_ok (initial_cells r target opened closes).
Proof.
  unfold initial_cells. destruct (_ !! _); [|apply fresh_cells_ok].
  destruct (_ && _); [|apply fresh_cells_ok].
  apply (cell_op_incomplete (gap_reason s) fresh_cells), fresh_cells_ok.
Qed.

Lemma registry_tokens_open w target mint opened closes :
  windows (reg w) !! target = None ->
  registry_tokens (reg (open_window w target mint opened closes).2) ≡ₚ
    pv_token (open_window w target mint opened closes).1 :: registry_tokens (reg w).
Proof. intros H. unfold registry_tokens; simpl. by rewrite map_to_list_insert. Qed.

Lemma ok_open w target mint opened closes :
  ok w -> windows (reg w) !! target = None -> (size (windows (reg w)) < maximum_active)%nat ->
  ok (open_window w target mint opened closes).2.
Proof.
  intros Hw Hnone Hsize. pose proof (registry_tokens_open w target mint opened closes Hnone) as Hp.
  assert (forall t, t ∈ registry_tokens (reg w) -> tok_cells t <> next_cell w) as Hne.
  { intros t Ht. apply (wf_alloc _ _ Hw) in Ht as [c Hc]. apply (wf_cells _ _ Hw) in Hc as [_ ?]. lia. }
  constructor.
  - simpl. intros k t. rewrite lookup_insert_Some. intros [[<- <-]|[_ Hk]]; [done|].
    by apply (wf_target _ _ Hw).
  - rewrite Hp. simpl. constructor; [|apply (wf_distinct _ _ Hw)].
    intros Hin. apply list_elem_of_fmap in Hin as (t & Ht & Hin). by apply (Hne t Hin).
  - intros t. rewrite Hp. simpl. intros [->|Ht]%elem_of_cons; simpl.
    + rewrite lookup_insert_eq. eauto.
    + rewrite lookup_insert_ne by (by apply not_eq_sym, Hne). by apply (wf_alloc _ _ Hw).
  - simpl. rewrite map_size_insert_None by done. lia.
  - simpl. intros t Ht. assert (t ∈ registry_tokens (reg w)) as Hin by (unfold registry_tokens; set_solver).
    unfold cells_of. rewrite lookup_total_insert_ne by (by apply not_eq_sym, Hne).
    by apply (wf_retained _ _ Hw).
  - simpl. intros i c. rewrite lookup_insert_Some. intros [[<- <-]|[_ Hc]].
    + split; [apply initial_cells_ok|lia].
    + apply (wf_cells _ _ Hw) in Hc as [? ?]. split; [done|lia].
  - intros t. rewrite Hp. simpl. intros [->|Ht]%elem_of_cons; simpl.
    + apply (wf_next _ _ Hw).
    + by apply (wf_generation _ _ Hw).
  - simpl. unfold wrapping_add_u. rewrite (wf_next _ _ Hw).
    rewrite Z.add_mod_idemp_l by lia. f_equal. lia.
Qed.

Lemma rotate_fold_windows h ks r k t :
  windows (fold_left (rotate_one h) ks r) !! k = Some t <->
  windows r !! k = Some t /\ ~ k ∈ ks.
Proof.
  revert r. induction ks as [|k0 ks IH]; intros r; simpl.
  { split; [intros ?; split; [done|by intros ?%elem_of_nil]|by intros [? _]]. }
  rewrite IH, not_elem_of_cons. unfold rotate_one.
  destruct (windows r !! k0) as [t0|] eqn:E; simpl.
  - rewrite lookup_delete_Some. naive_solver.
  - split; [|naive_solver]. intros [Hk ?]. split_and!; [done| |done]. intros ->. congruence.
Qed.

(** After rotation exactly the windows open at [now] are active. *)
Lemma rotate_windows h now r k t :
  windows (rotate_closed_windows h now r) !! k = Some t <->
  windows r !! k = Some t /\ is_open_at h t now = true.
Proof.
  unfold rotate_closed_windows. rewrite rotate_fold_windows.
  assert (forall t, windows r !! k = Some t ->
    k ∈ (fst <$> List.filter (fun p => negb (is_open_at h p.2 now) || (tok_closes p.2 <=? now))
                   (map_to_list (windows r))) <-> is_open_at h t now = false) as Hclosed.
  { intros t' Ht'. rewrite list_elem_of_fmap. split.
    - intros ([k' t2] & -> & Hin). apply filter_subset in Hin as [Hc Hin].
      apply elem_of_map_to_list in Hin. simpl in *. simplify_eq.
      apply orb_true_iff in Hc as [Hc|Hc]; [by apply negb_true_iff in Hc|].
      unfold is_open_at, in_interval. apply Z.leb_le in Hc.
      rewrite (proj2 (Z.ltb_ge _ _)) by done. by rewrite !andb_false_r.
    - intros Hop. exists (k, t'). split; [done|]. apply filter_subset. simpl. rewrite Hop.
      split; [done|]. by apply elem_of_map_to_list. }
  split.
  - intros [Hk Hn]. split; [done|]. rewrite (Hclosed _ Hk) in Hn. by destruct (is_open_at h t now).
  - intros [Hk Ho]. split; [done|]. rewrite (Hclosed _ Hk). by rewrite Ho.
Qed.

Lemma ok_provision w target mint opened duration :
  (0 < maximum_active)%nat -> ok w -> ok (provision_target maximum_active w target mint opened duration).2.
Proof.
  intros Hmax Hw. unfold provision_target. cbv zeta.
  set (w1 := with_reg (rotate_closed_windows (heap w) opened (reg w)) w).
  assert (ok w1) as Hw1 by (by apply ok_rotate).
  assert (windows (reg w1) !! target = None ->
    ok (open_window (evict_if_full maximum_active w1) target mint opened (closes_at opened duration)).2) as Hopen.
  { intros Hn. apply ok_open; [by apply ok_evict| |apply evict_room; [done|apply Hw1]].
    destruct (windows (reg (evict_if_full maximum_active w1)) !! target) eqn:E; [|done].
    apply evict_windows_sub in E. congruence. }
  destruct (windows (reg w1) !! target) as [t|] eqn:E; [|by apply Hopen].
  pose proof (proj1 (rotate_windows (heap w) opened (reg w) target t) E) as [_ Ho].
  change (heap w1) with (heap w). rewrite Ho. done.
Qed.

(** Whatever it returns, [provision_target] leaves its token active. *)
Lemma provision_active w target mint opened duration :
  let '(pv, w') := provision_target maximum_active w target mint opened duration in
  windows (reg w') !! target = Some (pv_token pv).
Proof.
  unfold provision_target. cbv zeta.
  destruct (windows _ !! target) as [t|] eqn:E; simpl.
  - destruct (is_open_at _ _ _); [done|]. simpl. apply lookup_insert_eq.
  - apply lookup_insert_eq.
Qed.
End Ok.

(** Reachable registries: every interleaving of registry calls with the other
    threads' token operations keeps the invariant, and what the calls promise:
    bounded non-extending windows, admission only while open, complete and
    exclusive finalization claims, and cancellation confined to its source. *)
Lemma cancel_with_reason_claimed r c :
  tc_finalization_claimed (cancel_with_reason r c) = tc_finalization_claimed c /\
  tc_finalized (cancel_with_reason r c) = tc_finalized c.
Proof.
  unfold cancel_with_reason, mark_incomplete.
  destruct (tc_state c =? WINDOW_PENDING); [done|].
  destruct (tc_state c =? WINDOW_CONFIRMED); [|done].
  by destruct (tc_incomplete_reason c =? WINDOW_COMPLETE).
Qed.

Lemma active_token_in r k t : windows r !! k = Some t -> t ∈ registry_tokens r.
Proof.
  intros H. unfold registry_tokens. apply elem_of_app. left. apply list_elem_of_fmap.
  exists (k, t). split; [done|]. by apply elem_of_map_to_list.
Qed.

Lemma registry_token_cases r t :
  t ∈ registry_tokens r <-> (exists k, windows r !! k = Some t) \/ t ∈ retained r.
Proof.
  unfold registry_tokens. rewrite elem_of_app, list_elem_of_fmap. split.
  - intros [([k t'] & -> & Hin%elem_of_map_to_list)|?]; eauto.
  - intros [[k Hk]|?]; [left|by right]. exists (k, t). split; [done|]. by apply elem_of_map_to_list.
Qed.

Section Calls.
Context (maximum_active : nat).
Notation ok := (world_ok maximum_active).

(** Two registry tokens with the same cells are the same token. *)
Lemma token_unique w t1 t2 :
  ok w -> t1 ∈ registry_tokens (reg w) -> t2 ∈ registry_tokens (reg w) ->
  tok_cells t1 = tok_cells t2 -> t1 = t2.
Proof.
  intros Hw H1 H2 Heq. pose proof (wf_distinct _ _ Hw) as Hnd.
  revert Hnd H1 H2. generalize (registry_tokens (reg w)). intros l. induction l as [|t l IH].
  { by intros _ ?%elem_of_nil. }
  csimpl. intros [Hnin Hnd]%NoDup_cons H1 H2.
  apply elem_of_cons in H1 as [->|H1], H2 as [->|H2]; auto.
  - destruct Hnin. rewrite Heq. by apply list_elem_of_fmap_2.
  - destruct Hnin. rewrite <- Heq. by apply list_elem_of_fmap_2.
Qed.

(** The active windows and the retained ones have different cells. *)
Lemma active_retained_disjoint w k t t' :
  ok w -> windows (reg w) !! k = Some t -> t' ∈ retained (reg w) -> tok_cells t <> tok_cells t'.
Proof.
  intros Hw Hk Hr Heq. pose proof (wf_distinct _ _ Hw) as Hnd.
  unfold registry_tokens in Hnd. rewrite fmap_app in Hnd.
  apply NoDup_app in Hnd as (_ & Hdis & _). apply (Hdis (tok_cells t)).
  - apply list_elem_of_fmap. exists t. split; [done|]. apply list_elem_of_fmap.
    exists (k, t). split; [done|]. by apply elem_of_map_to_list.
  - rewrite Heq. by apply list_elem_of_fmap_2.
Qed.

(** ** Marking *)
Lemma mark_all_le reason ts n h :
  (forall i c, h !! i = Some c -> cells_ok c) -> (forall t, t ∈ ts -> is_Some (h !! tok_cells t)) ->
  heap_le h (fold_left (fun '(n, h) t =>
    let '(marked, c) := mark_incomplete reason (cells_of h t) in
    ((if marked then S n else n), <[tok_cells t := c]> h)) ts (n, h)).2.
Proof.
  revert n h. induction ts as [|t ts IH]; intros n h Hok Hall; simpl; [by apply heap_le_refl|].
  destruct (mark_incomplete reason (cells_of h t)) as [b c] eqn:E.
  assert (<[tok_cells t := c]> h = update_cells (fun c => (mark_incomplete reason c).2) t h) as ->.
  { unfold update_cells. by rewrite E. }
  assert (heap_le h (update_cells (fun c => (mark_incomplete reason c).2) t h)) as Hle.
  { apply heap_le_update; [auto with cells|done|apply Hall; left]. }
  eapply heap_le_trans; [exact Hle|]. apply IH.
  - intros i c' Hc'. assert (is_Some (h !! i)) as [c0 Hc0].
    { apply elem_of_dom. destruct Hle as [<- _]. by apply elem_of_dom_2 in Hc'. }
    by apply (proj2 Hle i c0 c').
  - intros t' Ht'. apply elem_of_dom. destruct Hle as [-> _]. apply elem_of_dom. apply Hall.
    by right.
Qed.

(** The effect on a token: exactly the listed tokens are marked. *)
Lemma mark_all_cells reason ts n h t :
  NoDup (tok_cells <$> ts) ->
  cells_of (fold_left (fun '(n, h) t =>
    let '(marked, c) := mark_incomplete reason (cells_of h t) in
    ((if marked then S n else n), <[tok_cells t := c]> h)) ts (n, h)).2 t =
  if bool_decide (tok_cells t ∈ tok_cells <$> ts)
  then (mark_incomplete reason (cells_of h t)).2 else cells_of h t.
Proof.
  revert n h. induction ts as [|t0 ts IH]; intros n h; simpl; [done|].
  intros [Hnin Hnd]%NoDup_cons.
  destruct (mark_incomplete reason (cells_of h t0)) as [b c] eqn:E. rewrite IH by done.
  destruct (decide (tok_cells t = tok_cells t0)) as [Heq|Hne].
  - rewrite (bool_decide_eq_false_2 (_ ∈ tok_cells <$> ts)) by (by rewrite Heq).
    rewrite bool_decide_eq_true_2 by (rewrite Heq; left).
    unfold cells_of in *. rewrite Heq, lookup_total_insert_eq. by rewrite E.
  - assert (cells_of (<[tok_cells t0 := c]> h) t = cells_of h t) as ->.
    { unfold cells_of. by rewrite lookup_total_insert_ne. }
    apply (f_equal (fun b : bool => if b then _ else _)). apply bool_decide_ext.
    rewrite elem_of_cons. naive_solver.
Qed.

Lemma ok_gap w p at_ reason : ok w -> ok (record_source_coverage_gap w p at_ reason).2.
Proof.
  intros Hw. unfold record_source_coverage_gap.
  set (ts := List.filter (gap_affects (heap w) p at_) (registry_tokens (reg w))).
  pose proof (mark_all_le reason ts 0 (heap w) (ok_heap_cells _ _ Hw)) as Hle.
  unfold mark_all. destruct (fold_left _ ts _) as [n h]. simpl in *.
  assert (ok (with_heap h w)) as Hw'.
  { apply ok_with_heap; [done|]. apply Hle. intros t [_ Ht]%filter_subset.
    by apply (wf_alloc _ _ Hw). }
  destruct Hw' as [? ? ? ? ? ? ? ?]. by constructor.
Qed.

(** ** Cancelling *)
Lemma ok_cancel_active reason st k : ok st.2 -> ok (cancel_active reason st k).2.
Proof.
  destruct st as [n w]. simpl. intros Hw.
  destruct (windows (reg w) !! k) as [t|] eqn:E; [|done].
  destruct (was_confirmed (cells_of (heap w) t)) eqn:Hc; simpl.
  - apply (ok_close_with maximum_active w k t); [done|done|auto with cells|].
    rewrite <- (cells_of_update_eq (cancel_with_reason reason)). apply retain_if_durable_cases.
  - apply (ok_close_with maximum_active w k t); [done|done|auto with cells|by left].
Qed.

Lemma ok_cancel_active_fold reason ks st : ok st.2 -> ok (fold_left (cancel_active reason) ks st).2.
Proof. revert st. induction ks as [|k ks IH]; intros st Hw; simpl; auto using ok_cancel_active. Qed.

Lemma cancel_retained_le reason m st t :
  (forall i c, st.2 !! i = Some c -> cells_ok c) -> is_Some (st.2 !! tok_cells t) ->
  heap_le st.2 (cancel_retained reason m st t).2.
Proof.
  destruct st as [n h]. simpl. intros Hok Ht. destruct (_ && _); simpl.
  - apply heap_le_update; auto with cells.
  - by apply heap_le_refl.
Qed.

Lemma cancel_retained_fold_le reason m ts st :
  (forall i c, st.2 !! i = Some c -> cells_ok c) ->
  (forall t, t ∈ ts -> is_Some (st.2 !! tok_cells t)) ->
  heap_le st.2 (fold_left (cancel_retained reason m) ts st).2.
Proof.
  revert st. induction ts as [|t ts IH]; intros st Hok Hall; simpl; [by apply heap_le_refl|].
  pose proof (cancel_retained_le reason m st t Hok (Hall t ltac:(left))) as Hle.
  eapply heap_le_trans; [exact Hle|]. apply IH.
  - intros i c' Hc'. assert (is_Some (st.2 !! i)) as [c0 Hc0].
    { apply elem_of_dom. destruct Hle as [<- _]. by apply elem_of_dom_2 in Hc'. }
    by apply (proj2 Hle i c0 c').
  - intros t' Ht'. apply elem_of_dom. destruct Hle as [-> _]. apply elem_of_dom, Hall. by right.
Qed.

Lemma ok_cancel w reason m : ok w -> ok (cancel_confirmed_matching w reason m).2.
Proof.
  intros Hw. unfold cancel_confirmed_matching.
  pose proof (ok_cancel_active_fold reason
    (List.filter m (fst <$> map_to_list (windows (reg w)))) (0%nat, w) Hw) as Hw1.
  destruct (fold_left (cancel_active reason) _ _) as [n w1]. simpl in Hw1.
  pose proof (cancel_retained_fold_le reason m (retained (reg w1)) (n, heap w1)) as Hle.
  destruct (fold_left (cancel_retained reason m) _ _) as [n2 h]. simpl in *.
  apply ok_with_heap; [done|]. apply Hle; [exact (ok_heap_cells _ _ Hw1)|].
  intros t Ht. apply (wf_alloc _ _ Hw1). apply registry_token_cases. by right.
Qed.

(** ** The other calls *)
Lemma matching_token_active w target at_ t :
  matching_token w target at_ = Some t <->
  windows (reg w) !! target = Some t /\ is_open_at (heap w) t at_ = true.
Proof.
  unfold matching_token. destruct (windows (reg w) !! target) as [t'|];
    [|by split; [|intros [? _]]].
  destruct (is_open_at (heap w) t' at_) eqn:E; split.
  - by intros [= <-].
  - by intros [[= <-] _].
  - done.
  - intros [[= <-] Ho]. congruence.
Qed.

Lemma ok_admit w target at_ : ok w -> ok (admit_matching_token w target at_).2.
Proof.
  intros Hw. unfold admit_matching_token. destruct (matching_token w target at_) as [t|] eqn:E; [|done].
  apply matching_token_active in E as [Hk _]. apply active_token_in, (wf_alloc _ _ Hw) in Hk.
  destruct (mark_admitted _).1; simpl.
  - apply (ok_update _ w (fun c => (mark_admitted c).2)); auto with cells.
  - apply (ok_update _ w (fun c => (mark_incomplete QueueOverflow c).2)); auto with cells.
Qed.

Lemma ok_progress w p at_ : ok w -> ok (record_source_progress w p at_).
Proof. intros [? ? ? ? ? ? ? ?]. by constructor. Qed.

Lemma find_retained w f t : List.find f (retained (reg w)) = Some t -> t ∈ retained (reg w) /\ f t = true.
Proof. intros H%find_some. by rewrite <- list_elem_of_In in H. Qed.

Lemma ok_claim w candidate : ok w -> ok (claim_finalization w candidate).2.
Proof.
  intros Hw. unfold claim_finalization. destruct (List.find _ _) as [t|] eqn:E; [|done].
  destruct (bool_decide _ && _); [|].
  { done. }
  destruct (try_claim_finalization (cells_of (heap w) t)) as [won c] eqn:Ec.
  destruct won; [|done]. simpl.
  assert (<[tok_cells t := c]> (heap w) = update_cells (fun c => (try_claim_finalization c).2) t (heap w)) as ->.
  { unfold update_cells. by rewrite Ec. }
  apply find_retained in E as [E _]. apply ok_update; [done|auto with cells|].
  apply (wf_alloc _ _ Hw), registry_token_cases. by right.
Qed.

Lemma ok_drop w cl : ok w -> is_Some (heap w !! tok_cells (cl_token cl)) -> ok (claim_drop w cl).
Proof. intros. apply ok_update; auto with cells. Qed.

Lemma ok_commit w cl :
  ok w -> is_Some (heap w !! tok_cells (cl_token cl)) -> ok (claim_mark_committed w cl).2.
Proof.
  intros Hw Hs. unfold claim_mark_committed.
  destruct (mark_finalized (cells_of (heap w) (cl_token cl))) as [b c] eqn:E. simpl.
  assert (<[tok_cells (cl_token cl) := c]> (heap w) =
    update_cells (fun c => (mark_finalized c).2) (cl_token cl) (heap w)) as ->.
  { unfold update_cells. by rewrite E. }
  apply ok_drop; [apply ok_update; auto with cells|]. simpl. unfold update_cells.
  rewrite lookup_insert_eq. eauto.
Qed.

Lemma filter_complement {A} (p : A -> bool) l :
  l ≡ₚ List.filter p l ++ List.filter (fun x => negb (p x)) l.
Proof.
  induction l as [|x l IH]; [done|]. simpl. destruct (p x); simpl.
  - by constructor.
  - rewrite IH at 1. by rewrite Permutation_middle.
Qed.

Lemma ok_cleanup w : ok w -> ok (cleanup_finalized w).2.
Proof.
  intros Hw. unfold cleanup_finalized. simpl.
  set (p := fun t => negb (tc_finalized (cells_of (heap w) t))).
  apply (ok_with_reg _ _ _ (List.filter (fun t => negb (p t)) (retained (reg w)))); [done|done| | |done].
  - unfold registry_tokens; simpl. rewrite <- app_assoc. by rewrite <- (filter_complement p).
  - simpl. intros t [_ Ht]%filter_subset. by apply (wf_retained _ _ Hw).
Qed.

Lemma ok_open_market w m opened duration :
  (0 < maximum_active)%nat -> ok w -> ok (open_market maximum_active w m opened duration).2.
Proof.
  intros Hmax Hw. unfold open_market. destruct (for_market m) as [target|]; [|done].
  pose proof (ok_provision maximum_active w target (mi_mint m) opened duration Hmax Hw) as Hw'.
  pose proof (provision_active maximum_active w target (mi_mint m) opened duration) as Hact.
  destruct (provision_target _ _ _ _ _ _) as [pv w']. simpl in *.
  apply (ok_update _ w' (fun c => (confirm c).2)); [done|auto with cells|].
  by apply (wf_alloc _ _ Hw'), (active_token_in _ target).
Qed.
End Calls.
