(* ===== verification/WindowRegistryTheorems.v ===== *)
(** The registry as a step relation, and what its callers rely on. *)
From S2P Require Import Prelude.
From S2P Require Import ListFacts.
From S2P Require Import RustOrd.
From S2P Require Import Domain.
From S2P Require Import WindowToken.
From S2P Require Import WindowTokenProofs.
From S2P Require Import WindowRegistry.
From S2P Require Import WindowRegistryInv.

(** One registry call, or any progress other threads make on the cells. *)
Inductive registry_step (maximum_active : nat) (w : World) : World -> Prop :=
| rs_cells h : heap_le (heap w) h -> registry_step maximum_active w (with_heap h w)
| rs_provision target mint opened duration :
    registry_step maximum_active w (provision_target maximum_active w target mint opened duration).2
| rs_open_market m opened duration :
    registry_step maximum_active w (open_market maximum_active w m opened duration).2
| rs_admit target at_ : registry_step maximum_active w (admit_matching_token w target at_).2
| rs_active_count now : registry_step maximum_active w (active_count w now).2
| rs_progress p at_ : registry_step maximum_active w (record_source_progress w p at_)
| rs_gap p at_ reason :
    registry_step maximum_active w (record_source_coverage_gap w p at_ reason).2
| rs_candidates now : registry_step maximum_active w (finalization_candidates w now).2
| rs_claim candidate : registry_step maximum_active w (claim_finalization w candidate).2
| rs_drop cl : is_Some (heap w !! tok_cells (cl_token cl)) ->
    registry_step maximum_active w (claim_drop w cl)
| rs_commit cl : is_Some (heap w !! tok_cells (cl_token cl)) ->
    registry_step maximum_active w (claim_mark_committed w cl).2
| rs_cleanup : registry_step maximum_active w (cleanup_finalized w).2
| rs_cancel_all reason : registry_step maximum_active w (cancel_all_confirmed w reason).2
| rs_cancel_source p reason :
    registry_step maximum_active w (cancel_source_confirmed w p reason).2.

Definition registry_reachable (maximum_active : nat) (w : World) : Prop :=
  rtc (registry_step maximum_active) world_init w.

Lemma world_init_ok n : world_ok n world_init.
Proof.
  constructor; simpl; try done.
  - constructor.
  - intros t ?%elem_of_nil. done.
  - rewrite map_size_empty. lia.
  - intros t ?%elem_of_nil. done.
  - intros t ?%elem_of_nil. done.
Qed.

Lemma registry_step_ok n w w' :
  (0 < n)%nat -> world_ok n w -> registry_step n w w' -> world_ok n w'.
Proof.
  intros Hn Hw Hstep. destruct Hstep.
  - by apply ok_with_heap.
  - by apply ok_provision.
  - by apply ok_open_market.
  - by apply ok_admit.
  - by apply ok_rotate.
  - by apply ok_progress.
  - by apply ok_gap.
  - by apply ok_rotate.
  - by apply ok_claim.
  - by apply ok_drop.
  - by apply ok_commit.
  - by apply ok_cleanup.
  - by apply ok_cancel.
  - by apply ok_cancel.
Qed.

Lemma registry_reachable_ok n w : (0 < n)%nat -> registry_reachable n w -> world_ok n w.
Proof.
  intros Hn Hr. pose proof (world_init_ok n) as Hi. revert Hi.
  induction Hr; eauto using registry_step_ok.
Qed.

(** in every reachable registry the active windows respect the capacity,
    are filed under their own target, and share no cells with each other or
    with the retained windows; every retained window was confirmed; and every
    cell satisfies the token invariant. *)
Theorem registry_invariant n w :
  (0 < n)%nat -> registry_reachable n w ->
  (size (windows (reg w)) <= n)%nat /\
  (forall k t, windows (reg w) !! k = Some t -> tok_target t = k) /\
  NoDup (tok_cells <$> registry_tokens (reg w)) /\
  (forall t, t ∈ retained (reg w) -> was_confirmed (cells_of (heap w) t) = true) /\
  (forall t, t ∈ registry_tokens (reg w) -> cells_ok (cells_of (heap w) t)).
Proof.
  intros Hn Hr. pose proof (registry_reachable_ok n w Hn Hr) as Hw. split_and!; try apply Hw.
  intros t Ht. apply (wf_alloc _ _ Hw) in Ht as [c Hc]. rewrite (cells_of_lookup _ _ _ Hc).
  by apply (wf_cells _ _ Hw) in Hc as [? _].
Qed.

(** ** Opening *)
Lemma evict_spec n w :
  evict_if_full n w = w \/
  (n <= size (windows (reg w)))%nat /\ exists k t, windows (reg w) !! k = Some t /\
    (forall k' t', windows (reg w) !! k' = Some t' -> evict_lt (k', t') (k, t) = false) /\
    windows (reg (evict_if_full n w)) = delete k (windows (reg w)) /\
    heap (evict_if_full n w) = update_cells (cancel_with_reason CapacityEvicted) t (heap w) /\
    latest_source_coverage_gap (reg (evict_if_full n w)) = latest_source_coverage_gap (reg w).
Proof.
  unfold evict_if_full. destruct (Nat.leb_spec n (size (windows (reg w)))); [|by left].
  pose proof (eviction_choice_spec (windows (reg w))) as Hc.
  destruct (eviction_choice (windows (reg w))) as [k|]; [|by left].
  destruct Hc as (t & Ht & Hmin). rewrite Ht. right. split; [done|]. exists k, t. by split_and!.
Qed.

(** discovery windows never extend and are bounded.  Provisioning a target
    whose window is open at that time returns that window, unchanged, and
    touches no cells; otherwise it opens one fresh provisional window with the
    requested mint, opening time and saturated close, already incomplete
    exactly if a recorded source gap falls inside it.  Another window open at
    that time survives, unless the registry is full and it closes soonest. *)
Theorem provision_non_extending n w target mint opened duration :
  (0 < n)%nat -> registry_reachable n w ->
  let '(pv, w') := provision_target n w target mint opened duration in
  windows (reg w') !! target = Some (pv_token pv) /\
  (forall t, windows (reg w) !! target = Some t -> is_open_at (heap w) t opened = true ->
     pv = {| pv_token := t; pv_newly_opened := false |} /\ heap w' = heap w) /\
  (pv_newly_opened pv = true ->
     tok_window (pv_token pv) = {| ow_target := target; ow_mint := mint;
       ow_opened_at_unix_ms := opened; ow_closes_at_unix_ms := closes_at opened duration |} /\
     cells_of (heap w') (pv_token pv) =
       initial_cells (reg w) target opened (closes_at opened duration)) /\
  (forall k t, k <> target -> windows (reg w) !! k = Some t -> is_open_at (heap w) t opened = true ->
     windows (reg w') !! k = Some t \/
     forall k' t', windows (reg w) !! k' = Some t' -> is_open_at (heap w) t' opened = true ->
       evict_lt (k', t') (k, t) = false).
Proof.
  intros Hn Hr. pose proof (registry_reachable_ok n w Hn Hr) as Hw.
  pose proof (provision_active n w target mint opened duration) as Hact.
  unfold provision_target in *. cbv zeta in *.
  set (w1 := with_reg (rotate_closed_windows (heap w) opened (reg w)) w) in *.
  assert (forall k t, windows (reg w1) !! k = Some t <->
    windows (reg w) !! k = Some t /\ is_open_at (heap w) t opened = true) as Hrot
    by (intros; apply rotate_windows).
  assert (latest_source_coverage_gap (reg w1) = latest_source_coverage_gap (reg w)) as Hgap.
  { subst w1. simpl. unfold rotate_closed_windows. generalize (fst <$> List.filter (fun p =>
      negb (is_open_at (heap w) p.2 opened) || (tok_closes p.2 <=? opened))
      (map_to_list (windows (reg w)))). clear. intros ks. generalize (reg w).
    induction ks as [|k ks IH]; intros r; simpl; [done|]. rewrite IH. unfold rotate_one.
    by destruct (windows r !! k). }
  destruct (windows (reg w1) !! target) as [t0|] eqn:E.
  - pose proof (proj1 (Hrot _ _) E) as [Ht0 Ho]. change (heap w1) with (heap w) in *.
    rewrite Ho in Hact |- *. split_and!; [done| |done|].
    + intros t Ht _. split; [|done]. by simplify_eq.
    + intros k t _ Hk Hko. left. by apply Hrot.
  - simpl in Hact |- *. split_and!; [done| | |].
    + intros t Ht Ho. assert (windows (reg w1) !! target = Some t) by (by apply Hrot). congruence.
    + intros _. split; [done|]. unfold cells_of. simpl. rewrite lookup_total_insert_eq.
      unfold initial_cells. destruct (evict_spec n w1) as [->|(_ & k & t & _ & _ & _ & _ & ->)];
        by rewrite Hgap.
    + intros k t Hne Hk Ho. rewrite lookup_insert_ne by done.
      assert (windows (reg w1) !! k = Some t) as Hk1 by (by apply Hrot).
      destruct (evict_spec n w1) as [->|(_ & k0 & t0 & Hk0 & Hmin & -> & _)]; [by left|].
      destruct (decide (k = k0)) as [->|Hk0ne].
      * right. simplify_eq. intros k' t' Hk' Ho'. apply Hmin. by apply Hrot.
      * left. by rewrite lookup_delete_ne.
Qed.

(** ** Admission *)

(** an observation is admitted only to the open window of its target, and
    counted exactly once there: the token returned is active, was received
    inside its half-open interval, its admitted count grows by one and no other
    window changes.  In particular a window that has been closed, and may be
    awaiting finalization, admits nothing. *)
Theorem admission_only_while_open n w target at_ t w' :
  (0 < n)%nat -> registry_reachable n w ->
  admit_matching_token w target at_ = (Some t, w') ->
  windows (reg w) !! target = Some t /\ tok_opened t <= at_ < tok_closes t /\
  reg w' = reg w /\
  tc_admitted (cells_of (heap w') t) = tc_admitted (cells_of (heap w) t) + 1 /\
  (forall t', tok_cells t' <> tok_cells t -> cells_of (heap w') t' = cells_of (heap w) t') /\
  (forall t', t' ∈ retained (reg w) -> cells_of (heap w') t' = cells_of (heap w) t').
Proof.
  intros Hn Hr. pose proof (registry_reachable_ok n w Hn Hr) as Hw.
  unfold admit_matching_token. destruct (matching_token w target at_) as [t0|] eqn:E; [|done].
  apply matching_token_active in E as [Hk Ho].
  destruct (mark_admitted (cells_of (heap w) t0)) as [b c] eqn:Em. simpl. destruct b; [|done].
  intros [= <- <-]. unfold is_open_at, in_interval in Ho. bprop.
  assert (tc_admitted c = tc_admitted (cells_of (heap w) t0) + 1) as Hc.
  { unfold mark_admitted in Em. destruct (tc_finalized _); [done|].
    destruct (checked_add_u _ _ _) eqn:Ea; [|done]. apply checked_add_u_Some in Ea as [-> _].
    by injection Em as <-. }
  split_and!; [done|done|done|done| | |].
  - rewrite <- Hc. simpl. rewrite cells_of_update_eq. by rewrite Em.
  - intros t' Ht'. by apply cells_of_update_ne.
  - intros t' Ht'. apply cells_of_update_ne. apply not_eq_sym.
    by apply (active_retained_disjoint n w target).
Qed.

(** ** Finalization *)
Lemma rotate_fold_retained h ks r t :
  t ∈ retained (fold_left (rotate_one h) ks r) <->
  t ∈ retained r \/ exists k, k ∈ ks /\ windows r !! k = Some t /\
    was_confirmed (cells_of h t) = true /\ tc_finalized (cells_of h t) = false.
Proof.
  revert r. induction ks as [|k0 ks IH]; intros r; simpl.
  { split; [by left|]. intros [?|(k & ?%elem_of_nil & _)]; done. }
  rewrite IH. unfold rotate_one. destruct (windows r !! k0) as [t0|] eqn:E; simpl.
  - assert (t ∈ retain_if_durable h (retained r) t0 <-> t ∈ retained r \/
      (t = t0 /\ was_confirmed (cells_of h t) = true /\ tc_finalized (cells_of h t) = false)) as ->.
    { unfold retain_if_durable. destruct (was_confirmed (cells_of h t0)) eqn:E1,
        (tc_finalized (cells_of h t0)) eqn:E2; simpl; try (split; [by left|]; intros [?|(-> & ? & ?)]; congruence).
      rewrite elem_of_app, list_elem_of_singleton. naive_solver. }
    setoid_rewrite lookup_delete_Some. setoid_rewrite elem_of_cons. split.
    + intros [[?|(-> & ? & ?)]|(k & ? & [? ?] & ? & ?)]; eauto 10.
    + intros [?|(k & [->|Hk] & Ht & ? & ?)]; [auto| |].
      * simplify_eq. auto.
      * destruct (decide (k0 = k)) as [->|Hne]; [simplify_eq; auto|]. right. eauto 10.
  - setoid_rewrite elem_of_cons. split; [naive_solver|].
    intros [?|(k & [->|Hk] & Ht & ? & ?)]; [auto|congruence|eauto 10].
Qed.

Lemma rotate_retained h now r t :
  t ∈ retained (rotate_closed_windows h now r) <->
  t ∈ retained r \/ exists k, windows r !! k = Some t /\ is_open_at h t now = false /\
    was_confirmed (cells_of h t) = true /\ tc_finalized (cells_of h t) = false.
Proof.
  unfold rotate_closed_windows. rewrite rotate_fold_retained. split.
  - intros [?|(k & Hk & Ht & Hc & Hf)]; [by left|]. right. exists k. split_and!; try done.
    destruct (is_open_at h t now) eqn:Ho; [|done].
    assert (windows (rotate_closed_windows h now r) !! k = Some t) as Hrot by (by apply rotate_windows).
    unfold rotate_closed_windows in Hrot. by apply rotate_fold_windows in Hrot as [_ ?].
  - intros [?|(k & Ht & Ho & Hc & Hf)]; [by left|]. right. exists k. split_and!; try done.
    apply list_elem_of_fmap. exists (k, t). split; [done|]. apply filter_subset. simpl.
    rewrite Ho. split; [done|]. by apply elem_of_map_to_list.
Qed.

Lemma candidate_keys_distinct n w l :
  world_ok n w -> Z.of_nat (next_cell w) <= 2 ^ 64 -> l ≡ₚ retained (reg w) ->
  NoDup (candidate_key <$> l).
Proof.
  intros Hw Hfew Hl. apply (NoDup_fmap_1 snd). rewrite <- list_fmap_compose.
  assert (NoDup (tok_cells <$> l)) as Hnd.
  { rewrite Hl. pose proof (wf_distinct _ _ Hw) as Hd. unfold registry_tokens in Hd.
    rewrite fmap_app in Hd. by apply NoDup_app in Hd as (_ & _ & ?). }
  assert (forall t, t ∈ l -> tok_generation t = Z.of_nat (tok_cells t)) as Hg.
  { intros t Ht. rewrite Hl in Ht. assert (t ∈ registry_tokens (reg w)) as Hin
      by (apply registry_token_cases; by right).
    rewrite (wf_generation _ _ Hw _ Hin). apply Z.mod_small.
    apply (wf_alloc _ _ Hw) in Hin as [c Hc]. apply (wf_cells _ _ Hw) in Hc as [_ ?]. lia. }
  assert ((snd ∘ candidate_key) <$> l = Z.of_nat <$> (tok_cells <$> l)) as ->.
  { rewrite <- list_fmap_compose. apply list_fmap_ext. intros i t Ht.
    apply Hg. by eapply list_elem_of_lookup_2. }
  by apply NoDup_fmap_2; [intros ? ? ?; lia|].
Qed.

(** the finalization candidates are exactly the closed windows that are
    ready: confirmed, with a durable id, every admitted observation settled,
    not claimed and not finalized; a closed window is no longer active.  The
    list is sorted and does not depend on the order in which the hash map
    yielded the windows it closed. *)
Theorem candidates_ready_and_ordered n w now cs w' :
  (0 < n)%nat -> registry_reachable n w -> Z.of_nat (next_cell w) <= 2 ^ 64 ->
  finalization_candidates w now = (cs, w') ->
  (forall t, t ∈ cs <->
     (t ∈ retained (reg w) \/
      exists k, windows (reg w) !! k = Some t /\ is_open_at (heap w) t now = false) /\
     is_candidate (heap w) t = true) /\
  (forall t k, t ∈ cs -> windows (reg w') !! k <> Some t) /\
  StronglySorted (key_le candidate_key) cs /\
  (forall order, order ≡ₚ retained (reg w') ->
     sort_by (fun a b => cmp (candidate_key a) (candidate_key b))
       (List.filter (is_candidate (heap w)) order) = cs).
Proof.
  intros Hn Hr Hfew Hfc. unfold finalization_candidates in Hfc.
  apply pair_equal_spec in Hfc as [<- <-]. pose proof (registry_reachable_ok n w Hn Hr) as Hw.
  pose proof (ok_rotate n w now Hw) as Hw'.
  assert (forall t, t ∈ sort_by (fun a b => cmp (candidate_key a) (candidate_key b))
     (List.filter (is_candidate (heap w)) (retained (rotate_closed_windows (heap w) now (reg w)))) <->
     (t ∈ retained (reg w) \/
      exists k, windows (reg w) !! k = Some t /\ is_open_at (heap w) t now = false) /\
     is_candidate (heap w) t = true) as Hin.
  { intros t. rewrite elem_of_sort_by, filter_subset, rotate_retained.
    assert (is_candidate (heap w) t = true -> was_confirmed (cells_of (heap w) t) = true /\
      tc_finalized (cells_of (heap w) t) = false) as Hcand.
    { unfold is_candidate. rewrite !andb_true_iff, !negb_true_iff. tauto. }
    naive_solver. }
  split_and!.
  - done.
  - intros t k Ht Hk. rewrite elem_of_sort_by, filter_subset in Ht. destruct Ht as [_ Ht].
    by apply (active_retained_disjoint n _ k t t Hw').
  - apply (sort_by_sorted candidate_key).
  - intros order Ho. apply (sort_by_perm_invariant candidate_key); [by apply filter_perm|].
    pose proof (candidate_keys_distinct n _ order Hw' Hfew Ho) as Hnd. clear -Hnd.
    induction order as [|t l IH]; [constructor|]. csimpl in *. apply NoDup_cons in Hnd as [Hnin Hnd].
    destruct (is_candidate (heap w) t); [|by apply IH]. csimpl. constructor; [|by apply IH].
    intros Hin. apply Hnin. apply list_elem_of_fmap in Hin as (t' & Hk & Hin).
    apply filter_subset in Hin as [_ Hin]. apply list_elem_of_fmap. eauto.
Qed.

Lemma token_eq_same a b :
  token_eq a b = true -> tok_cells a = tok_cells b -> a = b.
Proof.
  unfold token_eq. intros H Hc. bprop.
  destruct a, b; simpl in *. repeat match goal with H : _ /\ _ |- _ => destruct H end. by subst.
Qed.

Lemma claimable_spec h candidate t :
  claimable h candidate t = true ->
  t = candidate /\ was_confirmed (cells_of h t) = true /\
  is_Some (tc_durable_window_id (cells_of h t)) /\
  tc_admitted (cells_of h t) = tc_settled (cells_of h t) /\ tc_finalized (cells_of h t) = false.
Proof.
  unfold claimable, is_settled. rewrite !andb_true_iff, !bool_decide_eq_true, Z.eqb_eq, negb_true_iff.
  intros (((((He & Hc) & ?) & ?) & ?) & ?). split_and!; try done. by apply token_eq_same.
Qed.

(** One active window at a time: other cells are untouched, and tokens only
    leave the active map, possibly into the retained list. *)
Lemma cancel_active_windows reason k st k' t :
  windows (reg (cancel_active reason st k).2) !! k' = Some t <->
  windows (reg st.2) !! k' = Some t /\ k' <> k.
Proof.
  destruct st as [m w]. simpl. destruct (windows (reg w) !! k) as [t0|] eqn:E.
  - assert (windows (reg (if was_confirmed (cells_of (heap w) t0)
      then (S m, with_reg (set_windows (delete k (windows (reg w))) (retain_if_durable
              (update_cells (cancel_with_reason reason) t0 (heap w)) (retained (reg w)) t0) (reg w))
              (with_heap (update_cells (cancel_with_reason reason) t0 (heap w)) w))
      else (m, with_reg (set_windows (delete k (windows (reg w))) (retained (reg w)) (reg w))
              (with_heap (update_cells cancel_if_pending t0 (heap w)) w))).2)
      = delete k (windows (reg w))) as -> by (by destruct (was_confirmed _)).
    rewrite lookup_delete_Some. naive_solver.
  - simpl. split; [|naive_solver]. intros H. split; [done|]. intros ->. congruence.
Qed.

Lemma cancel_active_retained_one reason k st t :
  t ∈ retained (reg (cancel_active reason st k).2) ->
  t ∈ retained (reg st.2) \/ windows (reg st.2) !! k = Some t.
Proof.
  destruct st as [m w]. simpl. destruct (windows (reg w) !! k) as [t0|] eqn:E; [|by left].
  destruct (was_confirmed _); simpl; [|by left]. unfold retain_if_durable.
  destruct (_ && _); [|by left]. rewrite elem_of_app, list_elem_of_singleton. naive_solver.
Qed.

Lemma cancel_active_fold_windows reason ks st k t :
  windows (reg (fold_left (cancel_active reason) ks st).2) !! k = Some t <->
  windows (reg st.2) !! k = Some t /\ ~ k ∈ ks.
Proof.
  revert st. induction ks as [|k0 ks IH]; intros st; simpl.
  { split; [intros ?; split; [done|by intros ?%elem_of_nil]|by intros [? _]]. }
  rewrite IH, cancel_active_windows, not_elem_of_cons. tauto.
Qed.

Lemma cancel_active_cells reason ks st t :
  (forall k t', windows (reg st.2) !! k = Some t' -> tok_cells t' = tok_cells t -> ~ k ∈ ks) ->
  cells_of (heap (fold_left (cancel_active reason) ks st).2) t = cells_of (heap st.2) t.
Proof.
  revert st. induction ks as [|k ks IH]; intros st Hne; simpl; [done|].
  rewrite IH.
  - destruct st as [m w]. simpl in *. destruct (windows (reg w) !! k) as [t0|] eqn:E; [|done].
    assert (tok_cells t <> tok_cells t0) as Ht by (intros Heq; eapply Hne; [exact E|done|left]).
    destruct (was_confirmed _); simpl; by apply cells_of_update_ne.
  - intros k' t' [Hk' _]%cancel_active_windows Heq Hin. eapply Hne; [exact Hk'|done|by right].
Qed.

Lemma cancel_active_fold_retained reason ks st t :
  t ∈ retained (reg (fold_left (cancel_active reason) ks st).2) ->
  t ∈ retained (reg st.2) \/ exists k, k ∈ ks /\ windows (reg st.2) !! k = Some t.
Proof.
  revert st. induction ks as [|k ks IH]; intros st; simpl; [by left|].
  intros H. apply IH in H as [H|(k' & Hk' & Hl)].
  - apply cancel_active_retained_one in H as [?|?]; [by left|]. right. exists k. split; [left|done].
  - apply cancel_active_windows in Hl as [? _]. right. exists k'. split; [by right|done].
Qed.

Lemma cancel_retained_cells reason m ts st t :
  (forall t', t' ∈ ts -> tok_cells t' = tok_cells t -> m (tok_target t') = false \/
     tc_finalization_claimed (cells_of st.2 t) = true) ->
  cells_of (fold_left (cancel_retained reason m) ts st).2 t = cells_of st.2 t.
Proof.
  revert st. induction ts as [|t0 ts IH]; intros [n h] Hcl; cbn [fold_left]; [done|].
  assert (cells_of (cancel_retained reason m (n, h) t0).2 t = cells_of h t) as He.
  { simpl. destruct (decide (tok_cells t0 = tok_cells t)) as [Heq|Hne].
    - assert (cells_of h t0 = cells_of h t) as -> by (unfold cells_of; by rewrite Heq).
      destruct (Hcl t0 ltac:(left) Heq) as [->|Hc]; [done|]. simpl in Hc. rewrite Hc.
      by rewrite andb_false_r.
    - destruct (_ && _); [|done]. by apply cells_of_update_ne, not_eq_sym. }
  rewrite IH; [exact He|]. intros t' Ht' Heq.
  destruct (Hcl t' ltac:(by right) Heq) as [?|Hc]; [by left|right]. by rewrite He.
Qed.

(** C2: a finalization claim is justified, exclusive and frozen.  It is granted
    only to a closed, confirmed, durable and fully settled window; a claim of
    complete evidence only after its source progressed to the close.  While it
    is held no second claim is granted, and no cancellation, whatever its
    reason, changes the window's cells. *)
Theorem claim_justified_exclusive_frozen n w candidate cl w' :
  (0 < n)%nat -> registry_reachable n w ->
  claim_finalization w candidate = (Some cl, w') ->
  let c := cells_of (heap w) candidate in
  cl_token cl = candidate /\ candidate ∈ retained (reg w) /\
  was_confirmed c = true /\ is_Some (tc_durable_window_id c) /\
  tc_admitted c = tc_settled c /\ tc_finalized c = false /\
  cl_reason cl = incomplete_reason c /\
  (cl_reason cl = None -> exists watermark,
     latest_source_progress (reg w) !! target_source_program (tok_target candidate) = Some watermark /\
     tok_closes candidate <= watermark) /\
  claim_finalization w' candidate = (None, w') /\
  (forall reason m, cells_of (heap (cancel_confirmed_matching w' reason m).2) candidate =
     cells_of (heap w') candidate).
Proof.
  intros Hn Hr. pose proof (registry_reachable_ok n w Hn Hr) as Hw.
  unfold claim_finalization at 1. destruct (List.find _ _) as [t|] eqn:Ef; [|done].
  pose proof (find_retained _ _ _ Ef) as [Hin Hcl].
  apply claimable_spec in Hcl as (-> & Hconf & Hdur & Hset & Hfin).
  destruct (bool_decide _ && _) eqn:Eb; [done|].
  destruct (try_claim_finalization (cells_of (heap w) candidate)) as [won c'] eqn:Ec.
  destruct won; [|done]. intros [= <- <-].
  unfold try_claim_finalization in Ec.
  destruct (tc_finalization_claimed (cells_of (heap w) candidate)) eqn:Eclaimed; [done|].
  injection Ec as <-. simpl.
  assert (cells_of (<[tok_cells candidate := set_claimed true (cells_of (heap w) candidate)]> (heap w))
    candidate = set_claimed true (cells_of (heap w) candidate)) as Hcells.
  { unfold cells_of. by rewrite lookup_total_insert_eq. }
  assert (forall t', t' ∈ retained (reg w) -> tok_cells t' = tok_cells candidate -> t' = candidate) as Huniq.
  { intros t' Ht' Heq. apply (token_unique n w); [done| | |done];
      apply registry_token_cases; by right. }
  split_and!; try done.
  - intros Hnone. apply andb_false_iff in Eb as [Eb|Eb].
    + apply bool_decide_eq_false in Eb. done.
    + destruct (latest_source_progress (reg w) !! _) as [wm|]; [|done].
      apply Z.ltb_ge in Eb. eauto.
  - unfold claim_finalization. simpl.
    match goal with |- context [List.find ?p ?l] => destruct (List.find p l) as [t|] eqn:Ef2 end;
      [|done].
    apply find_some in Ef2 as [Hin2 Hcl2]. rewrite <- list_elem_of_In in Hin2.
    apply claimable_spec in Hcl2 as (-> & _). rewrite Hcells.
    match goal with |- context [if ?b then _ else _] => by destruct b end.
  - intros reason m. unfold cancel_confirmed_matching.
    set (w1 := with_heap _ w). set (ks := List.filter m _).
    pose proof (cancel_active_cells reason ks (0%nat, w1) candidate) as Ha.
    specialize (Ha ltac:(simpl; intros k t' Hk Heq; by destruct (active_retained_disjoint n w k t' candidate Hw Hk Hin))).
    destruct (fold_left (cancel_active reason) ks (0%nat, w1)) as [n1 w2] eqn:Ew2. simpl in Ha.
    pose proof (cancel_retained_cells reason m (retained (reg w2)) (n1, heap w2) candidate) as Hb.
    destruct (fold_left (cancel_retained reason m) _ _) as [n2 h]. simpl in *.
    rewrite Hb; [by rewrite Ha|]. intros t' _ _. right. rewrite Ha. unfold cells_of at 1. simpl.
    by rewrite lookup_total_insert_eq.
Qed.

(** ** Cancellation and coverage gaps *)
Lemma closed_stays_closed c c' : cells_le c c' -> cells_ok c -> state_open c = false -> state_open c' = false.
Proof.
  intros [Hs _ _ _ _ _] [S _ _ _ _ _]. unfold state_open, state_le in *. unfold_states.
  rewrite !orb_false_iff, !Z.eqb_neq. lia.
Qed.

Lemma cancel_with_reason_closes r c : state_open (cancel_with_reason r c) = false.
Proof.
  unfold cancel_with_reason. destruct (tc_state c =? WINDOW_PENDING) eqn:E; [done|].
  destruct (tc_state c =? WINDOW_CONFIRMED) eqn:E1; [done|]. unfold state_open. by rewrite E, E1.
Qed.

Lemma cancel_if_pending_closes c : was_confirmed c = false -> state_open (cancel_if_pending c) = false.
Proof.
  unfold was_confirmed, cancel_if_pending, state_open. rewrite orb_false_iff. intros [Hc _].
  destruct (tc_state c =? WINDOW_PENDING) eqn:E; [done|]. by rewrite E, Hc.
Qed.

Section Cancel.
Context (n : nat).
Notation ok := (world_ok n).

Lemma cancel_active_le reason st k :
  ok st.2 -> heap_le (heap st.2) (heap (cancel_active reason st k).2).
Proof.
  destruct st as [m w]. simpl. intros Hw.
  destruct (windows (reg w) !! k) as [t|] eqn:E; [|apply heap_le_refl, (ok_heap_cells _ _ Hw)].
  pose proof (wf_alloc _ _ Hw _ (active_token_in _ _ _ E)).
  destruct (was_confirmed _); simpl; apply heap_le_update; auto with cells;
    exact (ok_heap_cells _ _ Hw).
Qed.

Lemma cancel_active_fold_le reason ks st :
  ok st.2 -> heap_le (heap st.2) (heap (fold_left (cancel_active reason) ks st).2).
Proof.
  revert st. induction ks as [|k ks IH]; intros st Hw; cbn [fold_left].
  { apply heap_le_refl, (ok_heap_cells _ _ Hw). }
  eapply heap_le_trans; [by apply cancel_active_le|]. apply IH. by apply ok_cancel_active.
Qed.

Lemma cancel_active_fold_closes reason ks st k t :
  ok st.2 -> k ∈ ks -> windows (reg st.2) !! k = Some t ->
  state_open (cells_of (heap (fold_left (cancel_active reason) ks st).2) t) = false.
Proof.
  revert st. induction ks as [|k0 ks IH]; intros st Hw; [by intros ?%elem_of_nil|].
  intros Hin Hk. cbn [fold_left]. destruct (decide (k = k0)) as [->|Hne].
  - pose proof (ok_cancel_active n reason st k0 Hw) as Hw1.
    pose proof (cancel_active_fold_le reason ks _ Hw1) as Hle.
    pose proof (wf_alloc _ _ Hw _ (active_token_in _ _ _ Hk)) as Hal.
    assert (is_Some (heap (cancel_active reason st k0).2 !! tok_cells t)) as Hal1.
    { apply elem_of_dom. rewrite (proj1 (cancel_active_le reason st k0 Hw)). by apply elem_of_dom. }
    eapply closed_stays_closed; [by apply heap_le_cells| |].
    { destruct Hal1 as [c Hc]. rewrite (cells_of_lookup _ _ _ Hc). by apply (ok_heap_cells _ _ Hw1 _ _ Hc). }
    destruct st as [m w]. simpl in *. rewrite Hk.
    destruct (was_confirmed (cells_of (heap w) t)) eqn:Hc; simpl; rewrite cells_of_update_eq.
    + apply cancel_with_reason_closes.
    + by apply cancel_if_pending_closes.
  - apply elem_of_cons in Hin as [->|Hin]; [done|]. apply IH; [by apply ok_cancel_active|done|].
    by apply cancel_active_windows.
Qed.

Lemma cancel_retained_one reason m st t0 t :
  cells_of (cancel_retained reason m st t0).2 t = cells_of st.2 t \/
  state_open (cells_of (cancel_retained reason m st t0).2 t) = false.
Proof.
  destruct st as [k h]. simpl. destruct (_ && _); [|by left]. simpl.
  destruct (decide (tok_cells t = tok_cells t0)) as [Heq|Hne].
  - right. assert (cells_of (update_cells (cancel_with_reason reason) t0 h) t =
      cancel_with_reason reason (cells_of h t0)) as ->.
    { rewrite <- (cells_of_update_eq (cancel_with_reason reason)). unfold cells_of. by rewrite Heq. }
    apply cancel_with_reason_closes.
  - left. by apply cells_of_update_ne.
Qed.

Lemma cancel_retained_self reason m st t :
  m (tok_target t) = true -> tc_finalized (cells_of st.2 t) = false ->
  tc_finalization_claimed (cells_of st.2 t) = false -> was_confirmed (cells_of st.2 t) = true ->
  state_open (cells_of (cancel_retained reason m st t).2 t) = false.
Proof.
  destruct st as [k h]. simpl. intros -> -> -> Hc. simpl.
  destruct (tc_state (cells_of h t) =? WINDOW_CONFIRMED) eqn:E; simpl.
  - rewrite cells_of_update_eq. apply cancel_with_reason_closes.
  - apply was_confirmed_iff in Hc as [Hc|Hc]; [by rewrite Hc in E|].
    unfold state_open. by rewrite Hc.
Qed.

Lemma cancel_retained_fold_closes reason m ts st t :
  (forall i c, st.2 !! i = Some c -> cells_ok c) ->
  (forall t', t' ∈ ts -> is_Some (st.2 !! tok_cells t')) ->
  t ∈ ts -> m (tok_target t) = true ->
  tc_finalized (cells_of st.2 t) = false -> tc_finalization_claimed (cells_of st.2 t) = false ->
  was_confirmed (cells_of st.2 t) = true ->
  state_open (cells_of (fold_left (cancel_retained reason m) ts st).2 t) = false.
Proof.
  revert st. induction ts as [|t0 ts IH]; intros st Hok Hal; [by intros ?%elem_of_nil|].
  intros Hin Hm Hf Hcl Hconf. cbn [fold_left].
  pose proof (cancel_retained_le reason m st t0 Hok (Hal t0 ltac:(left))) as Hle.
  assert (forall i c, (cancel_retained reason m st t0).2 !! i = Some c -> cells_ok c) as Hok1.
  { intros i c Hc. assert (is_Some (st.2 !! i)) as [c0 Hc0].
    { apply elem_of_dom. rewrite <- (proj1 Hle). by apply elem_of_dom_2 in Hc. }
    by apply (proj2 Hle i c0 c). }
  assert (forall t', t' ∈ ts -> is_Some ((cancel_retained reason m st t0).2 !! tok_cells t')) as Hal1.
  { intros t' Ht'. apply elem_of_dom. rewrite (proj1 Hle). apply elem_of_dom, Hal. by right. }
  assert (is_Some ((cancel_retained reason m st t0).2 !! tok_cells t)) as Halt.
  { apply elem_of_dom. rewrite (proj1 Hle). by apply elem_of_dom, Hal. }
  assert (state_open (cells_of (cancel_retained reason m st t0).2 t) = false ->
    state_open (cells_of (fold_left (cancel_retained reason m) ts (cancel_retained reason m st t0)).2 t) = false) as Hstay.
  { intros Hc. eapply closed_stays_closed; [|shelve|exact Hc].
    apply heap_le_cells; [|done]. by apply cancel_retained_fold_le.
    Unshelve. destruct Halt as [c Hcc]. rewrite (cells_of_lookup _ _ _ Hcc). by eapply Hok1. }
  destruct (decide (t = t0)) as [->|Hne].
  - apply Hstay. by apply cancel_retained_self.
  - apply elem_of_cons in Hin as [->|Hin]; [done|].
    destruct (cancel_retained_one reason m st t0 t) as [Heq|Hc]; [|by apply Hstay].
    apply IH; rewrite ?Heq; done.
Qed.
End Cancel.

Lemma cancel_active_keeps reason ks st t :
  t ∈ retained (reg st.2) -> t ∈ retained (reg (fold_left (cancel_active reason) ks st).2).
Proof.
  revert st. induction ks as [|k ks IH]; intros [m w] Ht; cbn [fold_left]; [done|].
  apply IH. simpl in *. destruct (windows (reg w) !! k) as [t0|]; [|done].
  destruct (was_confirmed _); simpl; [|done]. unfold retain_if_durable.
  destruct (_ && _); [|done]. set_solver.
Qed.

Lemma cells_ok_token n w t :
  world_ok n w -> t ∈ registry_tokens (reg w) -> cells_ok (cells_of (heap w) t).
Proof.
  intros Hw Ht. apply (wf_alloc _ _ Hw) in Ht as [c Hc]. rewrite (cells_of_lookup _ _ _ Hc).
  by destruct (wf_cells _ _ Hw _ _ Hc).
Qed.

Lemma reason_from_code_Some code : 1 <= code <= 8 -> reason_from_code code <> None.
Proof.
  intros H. assert (code = 1 \/ code = 2 \/ code = 3 \/ code = 4 \/ code = 5 \/ code = 6 \/
    code = 7 \/ code = 8) as Hc by lia.
  by repeat destruct Hc as [->|Hc]; subst.
Qed.

Lemma closed_confirmed_explained c :
  cells_ok c -> state_open c = false -> was_confirmed c = true -> incomplete_reason c <> None.
Proof.
  intros [S R _ _ X _] Hop Hc. apply was_confirmed_iff in Hc as [Hc|Hc].
  - unfold state_open in Hop. by rewrite Hc in Hop.
  - apply reason_from_code_Some. specialize (X Hc). unfold_states. lia.
Qed.

(** a source disconnect invalidates exactly that source's windows.  The
    windows of every other source keep their place and their cells; no window
    of the disconnected source stays active; and each of its windows that was
    active, or closed but neither claimed nor finalized, is closed and, if it
    was ever confirmed, carries a recorded reason, so it cannot be finalized
    as complete. *)
Theorem source_cancellation_scope n w p reason :
  (0 < n)%nat -> registry_reachable n w ->
  let w' := (cancel_source_confirmed w p reason).2 in
  (forall k t, windows (reg w') !! k = Some t <->
     windows (reg w) !! k = Some t /\ target_source_program k <> p) /\
  (forall t, t ∈ registry_tokens (reg w) -> target_source_program (tok_target t) <> p ->
     cells_of (heap w') t = cells_of (heap w) t) /\
  (forall t, t ∈ registry_tokens (reg w) -> target_source_program (tok_target t) = p ->
     (exists k, windows (reg w) !! k = Some t) \/
       tc_finalized (cells_of (heap w) t) = false /\
       tc_finalization_claimed (cells_of (heap w) t) = false ->
     state_open (cells_of (heap w') t) = false /\
     (was_confirmed (cells_of (heap w') t) = true ->
      incomplete_reason (cells_of (heap w') t) <> None)).
Proof.
  intros Hn Hr. pose proof (registry_reachable_ok n w Hn Hr) as Hw. cbv zeta.
  unfold cancel_source_confirmed, cancel_confirmed_matching.
  set (m := fun target => bool_decide (target_source_program target = p)).
  set (ks := List.filter m (fst <$> map_to_list (windows (reg w)))).
  assert (forall k t, windows (reg w) !! k = Some t ->
    (k ∈ ks <-> target_source_program k = p)) as Hks.
  { intros k t Hk. unfold ks. rewrite filter_subset. unfold m. rewrite bool_decide_eq_true.
    split; [tauto|]. intros Hp. split; [done|]. apply list_elem_of_fmap. exists (k, t).
    split; [done|]. by apply elem_of_map_to_list. }
  pose proof (ok_cancel_active_fold n reason ks (0%nat, w) Hw) as Hw1.
  pose proof (cancel_active_fold_le n reason ks (0%nat, w) Hw) as Hle1.
  pose proof (cancel_active_fold_windows reason ks (0%nat, w)) as Hwin.
  pose proof (cancel_active_fold_retained reason ks (0%nat, w)) as Hret.
  pose proof (cancel_active_cells reason ks (0%nat, w)) as Hcells.
  pose proof (cancel_active_keeps reason ks (0%nat, w)) as Hkeep.
  pose proof (cancel_active_fold_closes n reason ks (0%nat, w)) as Hcloses.
  destruct (fold_left (cancel_active reason) ks (0%nat, w)) as [n1 w1]. simpl in *.
  assert (forall t, t ∈ retained (reg w1) -> is_Some (heap w1 !! tok_cells t)) as Hal1.
  { intros t Ht. apply (wf_alloc _ _ Hw1), registry_token_cases. by right. }
  pose proof (cancel_retained_fold_le reason m (retained (reg w1)) (n1, heap w1)
    (ok_heap_cells _ _ Hw1) Hal1) as Hle2.
  pose proof (ok_with_heap n w1 _ Hw1 Hle2) as Hw2.
  pose proof (cancel_retained_cells reason m (retained (reg w1)) (n1, heap w1)) as Hc2.
  pose proof (cancel_retained_fold_closes reason m (retained (reg w1)) (n1, heap w1)) as Hcl2.
  destruct (fold_left (cancel_retained reason m) _ _) as [n2 h]. simpl in *.
  assert (forall t, t ∈ registry_tokens (reg w) -> is_Some (heap w !! tok_cells t)) as Hal
    by apply Hw.
  split_and!.
  - intros k t. rewrite Hwin. split.
    + intros [Hk Hnin]. split; [done|]. by rewrite <- (Hks k t Hk).
    + intros [Hk Hne]. split; [done|]. by rewrite (Hks k t Hk).
  - intros t Ht Hne. rewrite Hc2, Hcells; [done| |].
    + intros k t' Hk Heq. rewrite (Hks k t' Hk).
      assert (t' = t) as -> by (by apply (token_unique n w); [|eapply active_token_in| |]).
      by rewrite <- (wf_target _ _ Hw k t Hk).
    + intros t' Ht' Heq. left. unfold m. apply bool_decide_eq_false.
      assert (t' ∈ registry_tokens (reg w)) as Hin.
      { apply registry_token_cases. apply Hret in Ht' as [?|(k & _ & ?)]; eauto. }
      assert (t' = t) as -> by (by apply (token_unique n w)). done.
  - intros t Ht Hp Hcase.
    assert (state_open (cells_of h t) = false) as Hop.
    { assert (forall c, cells_of (heap w1) t = c -> state_open c = false ->
        state_open (cells_of h t) = false) as Hstay.
      { intros c <- Hc. assert (is_Some (heap w1 !! tok_cells t)) as Ha.
        { apply elem_of_dom. rewrite (proj1 Hle1). by apply elem_of_dom, Hal. }
        eapply closed_stays_closed; [by apply heap_le_cells| |exact Hc].
        destruct Ha as [c Hcc]. rewrite (cells_of_lookup _ _ _ Hcc). by apply (ok_heap_cells _ _ Hw1 _ _ Hcc). }
      apply registry_token_cases in Ht as [[k Hk]|Htr].
      - eapply Hstay; [done|]. apply (Hcloses k); [done| |done].
        apply (Hks k t Hk). by rewrite <- (wf_target _ _ Hw k t Hk).
      - destruct Hcase as [[k Hk]|[Hf Hcl]].
        { by destruct (active_retained_disjoint n w k t t Hw Hk Htr). }
        destruct (state_open (cells_of (heap w1) t)) eqn:E; [|by eapply Hstay].
        assert (cells_of (heap w1) t = cells_of (heap w) t) as Hsame.
        { apply Hcells. intros k t' Hk Heq. by destruct (active_retained_disjoint n w k t' t Hw Hk Htr). }
        apply Hcl2; try done.
        + exact (ok_heap_cells _ _ Hw1).
        + by apply Hkeep.
        + unfold m. by apply bool_decide_eq_true.
        + by rewrite Hsame.
        + by rewrite Hsame.
        + rewrite Hsame. by apply (wf_retained _ _ Hw). }
    split; [done|]. apply closed_confirmed_explained; [|done].
    assert (is_Some (h !! tok_cells t)) as [c Hc].
    { apply elem_of_dom. rewrite (proj1 Hle2), (proj1 Hle1). by apply elem_of_dom, Hal. }
    rewrite (cells_of_lookup _ _ _ Hc). by apply (ok_heap_cells _ _ Hw2 _ _ Hc).
Qed.

Lemma mark_all_count reason ts k h :
  NoDup (tok_cells <$> ts) ->
  (fold_left (fun '(n, h) t =>
    let '(marked, c) := mark_incomplete reason (cells_of h t) in
    ((if marked then S n else n), <[tok_cells t := c]> h)) ts (k, h)).1 =
  (k + length (List.filter (fun t => Z.eqb (tc_incomplete_reason (cells_of h t)) WINDOW_COMPLETE) ts))%nat.
Proof.
  revert k h. induction ts as [|t ts IH]; intros k h; cbn [fold_left List.filter]; [simpl; lia|].
  csimpl. intros [Hnin Hnd]%NoDup_cons.
  destruct (mark_incomplete reason (cells_of h t)) as [b c] eqn:E. rewrite IH by done.
  assert (List.filter (fun t0 => tc_incomplete_reason (cells_of (<[tok_cells t:=c]> h) t0) =? WINDOW_COMPLETE) ts =
          List.filter (fun t0 => tc_incomplete_reason (cells_of h t0) =? WINDOW_COMPLETE) ts) as ->.
  { apply filter_ext_in. intros t' Ht'. rewrite <- list_elem_of_In in Ht'. unfold cells_of.
    rewrite lookup_total_insert_ne; [done|]. intros Heq. apply Hnin. rewrite Heq.
    by apply list_elem_of_fmap_2. }
  unfold mark_incomplete in E. destruct (tc_incomplete_reason (cells_of h t) =? WINDOW_COMPLETE);
    injection E as <- _; simpl; lia.
Qed.

Lemma gap_marks_spec n w p at_ reason :
  world_ok n w ->
  let '(count, w') := record_source_coverage_gap w p at_ reason in
  (forall t, t ∈ registry_tokens (reg w) ->
     cells_of (heap w') t =
       if gap_affects (heap w) p at_ t then (mark_incomplete reason (cells_of (heap w) t)).2
       else cells_of (heap w) t) /\
  (forall t, t ∈ registry_tokens (reg w) -> gap_affects (heap w) p at_ t = true ->
     incomplete_reason (cells_of (heap w') t) <> None) /\
  count = length (List.filter (fun t => gap_affects (heap w) p at_ t &&
            (tc_incomplete_reason (cells_of (heap w) t) =? WINDOW_COMPLETE))
          (registry_tokens (reg w))) /\
  windows (reg w') = windows (reg w) /\ retained (reg w') = retained (reg w).
Proof.
  intros Hw.
  unfold record_source_coverage_gap, mark_all.
  set (ts := List.filter (gap_affects (heap w) p at_) (registry_tokens (reg w))).
  assert (NoDup (tok_cells <$> ts)) as Hnd.
  { pose proof (wf_distinct _ _ Hw) as Hd. unfold ts. clear -Hd.
    induction (registry_tokens (reg w)) as [|t l IH]; [constructor|]. csimpl in *.
    apply NoDup_cons in Hd as [Hnin Hd]. destruct (gap_affects (heap w) p at_ t); [|by apply IH].
    csimpl. constructor; [|by apply IH]. intros (t' & Heq & [_ Hin]%filter_subset)%list_elem_of_fmap.
    apply Hnin. rewrite Heq. by apply list_elem_of_fmap_2. }
  pose proof (mark_all_count reason ts 0 (heap w) Hnd) as Hcount.
  pose proof (fun t => mark_all_cells reason ts 0%nat (heap w) t Hnd) as Hcells.
  destruct (fold_left _ ts _) as [k h]. simpl in *.
  assert (forall t, t ∈ registry_tokens (reg w) -> cells_of h t =
    if gap_affects (heap w) p at_ t then (mark_incomplete reason (cells_of (heap w) t)).2
    else cells_of (heap w) t) as Heff.
  { intros t Ht. rewrite Hcells. assert (tok_cells t ∈ tok_cells <$> ts <-> gap_affects (heap w) p at_ t = true) as Hiff.
    { rewrite list_elem_of_fmap. unfold ts. split.
      - intros (t' & Heq & [Hg Hin]%filter_subset).
        by assert (t = t') as -> by (by apply (token_unique n w)).
      - intros Hg. exists t. split; [done|]. by apply filter_subset. }
    destruct (gap_affects (heap w) p at_ t).
    - by rewrite bool_decide_eq_true_2 by (by apply Hiff).
    - rewrite bool_decide_eq_false_2; [done|]. intros H. by apply Hiff in H. }
  split_and!; try done.
  - intros t Ht Hg. rewrite Heff, Hg by done.
    pose proof (cells_ok_token n w t Hw Ht) as [_ R _ _ _ _].
    unfold mark_incomplete. destruct (Z.eqb_spec (tc_incomplete_reason (cells_of (heap w) t)) WINDOW_COMPLETE); simpl.
    + unfold incomplete_reason. simpl. by rewrite reason_roundtrip.
    + apply reason_from_code_Some. unfold_states. lia.
  - rewrite Hcount. f_equal. unfold ts. clear.
    induction (registry_tokens (reg w)) as [|t l IH]; [done|]. simpl.
    destruct (gap_affects (heap w) p at_ t); simpl; [|done].
    destruct (_ =? _); simpl; by rewrite IH.
Qed.

(** an unattributable coverage gap marks every window that depends on the
    source and was open at that instant, closed but unfinalized ones included,
    and no other window; an earlier cause is kept; the returned count is the
    number of windows whose first cause this is. *)
Theorem source_gap_marks n w p at_ reason :
  (0 < n)%nat -> registry_reachable n w ->
  let '(count, w') := record_source_coverage_gap w p at_ reason in
  (forall t, t ∈ registry_tokens (reg w) ->
     cells_of (heap w') t =
       if gap_affects (heap w) p at_ t then (mark_incomplete reason (cells_of (heap w) t)).2
       else cells_of (heap w) t) /\
  (forall t, t ∈ registry_tokens (reg w) -> gap_affects (heap w) p at_ t = true ->
     incomplete_reason (cells_of (heap w') t) <> None) /\
  count = length (List.filter (fun t => gap_affects (heap w) p at_ t &&
            (tc_incomplete_reason (cells_of (heap w) t) =? WINDOW_COMPLETE))
          (registry_tokens (reg w))) /\
  windows (reg w') = windows (reg w) /\ retained (reg w') = retained (reg w).
Proof. intros Hn Hr. apply (gap_marks_spec n), registry_reachable_ok; done. Qed.

(** ** A concrete history: a window opens, admits and settles one trade, closes
    and is claimed *)
Module SampleRegistry.
Definition target : ObservationTarget := PumpMint "mint".
Definition opened : World := (provision_target 2 world_init target "mint" 100 50).2.
Definition token : Token := (provision_target 2 world_init target "mint" 100 50).1.(pv_token).
Definition admitted : World := (admit_matching_token opened target 120).2.
(** What the workers did to the cells meanwhile. *)
Definition done_cells : TokenCells := {|
  tc_state := 1; tc_durable_window_id := Some 7; tc_admitted := 1; tc_settled := 1;
  tc_incomplete_reason := 0; tc_finalization_claimed := false; tc_finalized := false |}.
Definition settled : World := with_heap (<[0%nat := done_cells]> (heap admitted)) admitted.
Definition progressed : World := record_source_progress settled Pump 150.
Definition closed : World := (finalization_candidates progressed 150).2.

Lemma opened_reachable : registry_reachable 2 opened.
Proof. eapply rtc_once. apply rs_provision. Defined.
Lemma admitted_reachable : registry_reachable 2 admitted.
Proof. eapply rtc_r; [apply opened_reachable|]. apply rs_admit. Defined.
Lemma settled_reachable : registry_reachable 2 settled.
Proof.
  eapply rtc_r; [apply admitted_reachable|]. apply rs_cells. split; [vm_compute; reflexivity|].
  intros i c c' Hc Hc'.
  assert (heap admitted = {[ 0%nat := set_admitted 1 fresh_cells ]}) as Hh by (vm_compute; reflexivity).
  rewrite Hh in Hc, Hc'. rewrite insert_singleton_eq in Hc'.
  apply lookup_singleton_Some in Hc as [<- <-]. apply lookup_singleton_Some in Hc' as [_ <-].
  split; constructor; simpl; try done; try lia; try (by right; left).
  by intros id [= <-].
Defined.
Lemma progressed_reachable : registry_reachable 2 progressed.
Proof. eapply rtc_r; [apply settled_reachable|]. apply rs_progress. Defined.
Lemma closed_reachable : registry_reachable 2 closed.
Proof. eapply rtc_r; [apply progressed_reachable|]. apply rs_candidates. Defined.
End SampleRegistry.

Lemma registry_invariant_witness :
  (size (windows (reg SampleRegistry.opened)) <= 2)%nat.
Proof. exact (proj1 (registry_invariant 2 _ ltac:(lia) SampleRegistry.opened_reachable)). Defined.

Lemma provision_non_extending_witness :
  pv_newly_opened (provision_target 2 SampleRegistry.opened SampleRegistry.target "mint" 120 50).1 = false.
Proof.
  pose proof (provision_non_extending 2 SampleRegistry.opened SampleRegistry.target "mint" 120 50
    ltac:(lia) SampleRegistry.opened_reachable) as H.
  destruct (provision_target 2 SampleRegistry.opened SampleRegistry.target "mint" 120 50) as [pv w'].
  destruct H as (_ & H & _). destruct (H SampleRegistry.token) as [-> _]; vm_compute; reflexivity.
Defined.

Lemma admission_only_while_open_witness :
  tc_admitted (cells_of (heap SampleRegistry.admitted) SampleRegistry.token) =
  tc_admitted (cells_of (heap SampleRegistry.opened) SampleRegistry.token) + 1.
Proof.
  apply (admission_only_while_open 2 SampleRegistry.opened SampleRegistry.target 120
    SampleRegistry.token SampleRegistry.admitted);
    [lia|apply SampleRegistry.opened_reachable|vm_compute; reflexivity].
Defined.

Lemma candidates_ready_and_ordered_witness :
  SampleRegistry.token ∈ (finalization_candidates SampleRegistry.progressed 150).1.
Proof.
  destruct (candidates_ready_and_ordered 2 SampleRegistry.progressed 150
    (finalization_candidates SampleRegistry.progressed 150).1 SampleRegistry.closed) as [H _];
    [lia|apply SampleRegistry.progressed_reachable|vm_compute; congruence|reflexivity|].
  apply H. split; [right; exists SampleRegistry.target; split; vm_compute; reflexivity|].
  vm_compute. reflexivity.
Defined.

Lemma claim_justified_exclusive_frozen_witness :
  exists cl w', claim_finalization SampleRegistry.closed SampleRegistry.token = (Some cl, w') /\
    claim_finalization w' SampleRegistry.token = (None, w').
Proof.
  eexists _, _. split; [vm_compute; reflexivity|].
  eapply (claim_justified_exclusive_frozen 2 SampleRegistry.closed SampleRegistry.token);
    [lia|apply SampleRegistry.closed_reachable|vm_compute; reflexivity].
Defined.

Lemma source_cancellation_scope_witness :
  state_open (cells_of (heap (cancel_source_confirmed SampleRegistry.opened Pump StreamStopped).2)
    SampleRegistry.token) = false.
Proof.
  destruct (source_cancellation_scope 2 SampleRegistry.opened Pump StreamStopped ltac:(lia)
    SampleRegistry.opened_reachable) as (_ & _ & H).
  apply H; [|reflexivity|left; exists SampleRegistry.target; vm_compute; reflexivity].
  apply (active_token_in _ SampleRegistry.target). vm_compute. reflexivity.
Defined.

Lemma source_gap_marks_witness :
  (record_source_coverage_gap SampleRegistry.opened Pump 120 DecodeGap).1 = 1%nat.
Proof.
  pose proof (source_gap_marks 2 SampleRegistry.opened Pump 120 DecodeGap ltac:(lia)
    SampleRegistry.opened_reachable) as H.
  destruct (record_source_coverage_gap SampleRegistry.opened Pump 120 DecodeGap) as [k w'].
  destruct H as (_ & _ & -> & _). vm_compute. reflexivity.
Defined.
