(* ===== verification/ApiContracts.v ===== *)
(** [crates/api-contracts/src/lib.rs]: the data exchanged with the browser that
    the projection keeps. *)
From S2P Require Import Prelude.
From S2P Require Import RustStr.
From S2P Require Import Domain.

Inductive StreamStatus := Stopped | Starting | Running | Degraded | ErrorStatus | Stopping.
#[export] Instance StreamStatus_eq_dec : EqDecision StreamStatus.
Proof. solve_decision. Defined.

Inductive DiscoveryMode := ObserveAll | QualifiedOnly | ApprovedOnly.
#[export] Instance DiscoveryMode_eq_dec : EqDecision DiscoveryMode.
Proof. solve_decision. Defined.

Inductive DiscoveryStage := Observed | Qualified | Approved.
#[export] Instance DiscoveryStage_eq_dec : EqDecision DiscoveryStage.
Proof. solve_decision. Defined.

Record DiscoveryCounters := {
  dc_observed : Z;
  dc_pending : Z;
  dc_qualified : Z;
  dc_qualification_pending : Z;
  dc_qualification_rejected : Z;
  dc_qualification_unknown : Z;
  dc_processing_failures : Z;
  dc_approved : Z;
  dc_rejected : Z;
  dc_flow_per_minute : option Z;
}.
Definition counters_default : DiscoveryCounters := {|
  dc_observed := 0; dc_pending := 0; dc_qualified := 0; dc_qualification_pending := 0;
  dc_qualification_rejected := 0; dc_qualification_unknown := 0; dc_processing_failures := 0;
  dc_approved := 0; dc_rejected := 0; dc_flow_per_minute := None |}.

Record DiscoveryActivity := {
  da_trades : Z; da_buys : Z; da_sells : Z; da_unique_traders : Z;
  da_base_volume_units : string;
  da_quote_volume_units : string;
}.

Inductive QualificationDecision := QdPass | QdReject | QdUnknown.
Inductive WindowCompleteness := WcComplete | WcIncomplete.

Record DiscoveryWindowSummary := {
  dw_window_revision : Z;
  dw_ruleset_revision : Z;
  dw_opened_unix_ms : Z;
  dw_closed_unix_ms : Z;
  dw_evaluated_unix_ms : Z;
  dw_decision : QualificationDecision;
  dw_completeness : WindowCompleteness;
  dw_reason_codes : list string;
  dw_trades : Z; dw_buys : Z; dw_sells : Z;
  dw_unique_traders : Z; dw_unique_buyers : Z; dw_unique_sellers : Z;
  dw_buy_base_volume_units : string;
  dw_sell_base_volume_units : string;
  dw_buy_quote_volume_units : string;
  dw_sell_quote_volume_units : string;
  dw_maximum_single_wallet_quote_share_bps : option Z;
  dw_price_change_bps : option Z;
  dw_first_base_reserve_units : option string;
  dw_first_quote_reserve_units : option string;
  dw_latest_base_reserve_units : option string;
  dw_latest_quote_reserve_units : option string;
}.

Record DiscoveryToken := {
  dt_mint : string;
  dt_name : option string;
  dt_symbol : option string;
  dt_primary_venue : Venue;
  dt_market_address : string;
  dt_quote_mint : option string;
  dt_source_program : SourceProgram;
  dt_stage : DiscoveryStage;
  dt_last_event_kind : string;
  dt_observed_slot : Z;
  dt_first_observed_unix_ms : Z;
  dt_last_observed_unix_ms : Z;
  dt_latest_signature : string;
  dt_activity : DiscoveryActivity;
  dt_qualification : option DiscoveryWindowSummary;
  dt_risk_score : option Score;
  dt_opportunity_score : option Score;
}.

Record RejectionSummary := {
  rj_reason_code : string;
  rj_count : Z;
  rj_last_seen_unix_ms : Z;
}.

Record DiscoverySnapshot := {
  ds_sequence : Z;
  ds_mode : DiscoveryMode;
  ds_tokens : list DiscoveryToken;
  ds_tokens_total : Z;
  ds_tokens_truncated : bool;
  ds_counters : DiscoveryCounters;
  ds_rejection_reasons : list RejectionSummary;
}.

(** [crates/api-contracts/src/lib.rs]: the operator settings of the collector
    and of qualification, with their supported ranges. *)
Inductive SettingsApplyRequirement := StreamRestart | NewWindows.

Record IntegerBounds := { ib_minimum : Z; ib_maximum : Z }.
Definition within_bounds (b : IntegerBounds) (v : Z) : bool := (ib_minimum b <=? v) && (v <=? ib_maximum b).

(** [Display] of an out-of-bounds error. *)
Definition out_of_bounds_text (field : string) (value : Z) (b : IntegerBounds) : string :=
  (field +:+ " value " +:+ dec value +:+ " is outside " +:+ dec (ib_minimum b) +:+ " through " +:+
   dec (ib_maximum b))%string.

(** ** Prefilter *)
Record PrefilterDefaultsBounds := {
  pb_max_event_age_ms : IntegerBounds;
  pb_observation_window_ms : IntegerBounds;
  pb_max_active_windows : IntegerBounds;
  pb_rpc_requests_per_second : IntegerBounds;
  pb_rpc_max_in_flight : IntegerBounds;
  pb_rpc_request_timeout_ms : IntegerBounds;
  pb_rpc_rate_limit_cooldown_ms : IntegerBounds;
}.
Definition prefilter_supported : PrefilterDefaultsBounds := {|
  pb_max_event_age_ms := {| ib_minimum := 1000; ib_maximum := 300000 |};
  pb_observation_window_ms := {| ib_minimum := 1000; ib_maximum := 3600000 |};
  pb_max_active_windows := {| ib_minimum := 1; ib_maximum := 100000 |};
  pb_rpc_requests_per_second := {| ib_minimum := 1; ib_maximum := 1000 |};
  pb_rpc_max_in_flight := {| ib_minimum := 1; ib_maximum := 128 |};
  pb_rpc_request_timeout_ms := {| ib_minimum := 1; ib_maximum := 300000 |};
  pb_rpc_rate_limit_cooldown_ms := {| ib_minimum := 100; ib_maximum := 300000 |};
|}.

Record PrefilterDefaults := {
  pd_max_event_age_ms : Z;
  pd_observation_window_ms : Z;
  pd_max_active_windows : Z;
  pd_rpc_requests_per_second : Z;
  pd_rpc_max_in_flight : Z;
  pd_rpc_request_timeout_ms : Z;
  pd_rpc_rate_limit_cooldown_ms : Z;
}.

Inductive PrefilterDefaultsValidationError :=
| PrefilterOutOfBounds (field : string) (value : Z) (bounds : IntegerBounds)
| RpcTimeoutExceedsMaximumEventAge
| ObservationWindowShorterThanRpcTimeout.

Definition prefilter_error_field (e : PrefilterDefaultsValidationError) : string :=
  match e with
  | PrefilterOutOfBounds field _ _ => field
  | RpcTimeoutExceedsMaximumEventAge => "rpc_request_timeout_ms"
  | ObservationWindowShorterThanRpcTimeout => "observation_window_ms"
  end.
Definition prefilter_error_text (e : PrefilterDefaultsValidationError) : string :=
  match e with
  | PrefilterOutOfBounds field value bounds => out_of_bounds_text field value bounds
  | RpcTimeoutExceedsMaximumEventAge => "rpc_request_timeout_ms cannot exceed max_event_age_ms"
  | ObservationWindowShorterThanRpcTimeout =>
      "observation_window_ms cannot be shorter than rpc_request_timeout_ms"
  end.

Definition validate_integer (field : string) (value : Z) (bounds : IntegerBounds)
    : result PrefilterDefaultsValidationError unit :=
  guard_err (negb (within_bounds bounds value)) (PrefilterOutOfBounds field value bounds).

Definition prefilter_validate (d : PrefilterDefaults)
    : result PrefilterDefaultsValidationError unit :=
  let bounds := prefilter_supported in
  _ ← validate_integer "max_event_age_ms" (pd_max_event_age_ms d) (pb_max_event_age_ms bounds);
  _ ← validate_integer "observation_window_ms" (pd_observation_window_ms d)
        (pb_observation_window_ms bounds);
  _ ← validate_integer "max_active_windows" (pd_max_active_windows d) (pb_max_active_windows bounds);
  _ ← validate_integer "rpc_requests_per_second" (pd_rpc_requests_per_second d)
        (pb_rpc_requests_per_second bounds);
  _ ← validate_integer "rpc_max_in_flight" (pd_rpc_max_in_flight d) (pb_rpc_max_in_flight bounds);
  _ ← validate_integer "rpc_request_timeout_ms" (pd_rpc_request_timeout_ms d)
        (pb_rpc_request_timeout_ms bounds);
  _ ← validate_integer "rpc_rate_limit_cooldown_ms" (pd_rpc_rate_limit_cooldown_ms d)
        (pb_rpc_rate_limit_cooldown_ms bounds);
  _ ← guard_err (pd_rpc_request_timeout_ms d >? pd_max_event_age_ms d)
        RpcTimeoutExceedsMaximumEventAge;
  guard_err (pd_observation_window_ms d <? pd_rpc_request_timeout_ms d)
    ObservationWindowShorterThanRpcTimeout.

(** ** Qualification *)
Record QualificationDefaultsBounds := {
  qb_minimum_trades : IntegerBounds;
  qb_minimum_unique_traders : IntegerBounds;
  qb_minimum_buys : IntegerBounds;
  qb_minimum_sells : IntegerBounds;
  qb_minimum_native_quote_volume_units : IntegerBounds;
  qb_minimum_stable_quote_volume_units : IntegerBounds;
  qb_maximum_single_wallet_quote_share_bps : IntegerBounds;
}.
Definition qualification_supported : QualificationDefaultsBounds := {|
  qb_minimum_trades := {| ib_minimum := 1; ib_maximum := 10000 |};
  qb_minimum_unique_traders := {| ib_minimum := 1; ib_maximum := 10000 |};
  qb_minimum_buys := {| ib_minimum := 0; ib_maximum := 10000 |};
  qb_minimum_sells := {| ib_minimum := 0; ib_maximum := 10000 |};
  qb_minimum_native_quote_volume_units := {| ib_minimum := 0; ib_maximum := 9007199254740991 |};
  qb_minimum_stable_quote_volume_units := {| ib_minimum := 0; ib_maximum := 9007199254740991 |};
  qb_maximum_single_wallet_quote_share_bps := {| ib_minimum := 1000; ib_maximum := 10000 |};
|}.

Record QualificationDefaults := {
  qd_minimum_trades : Z;
  qd_minimum_unique_traders : Z;
  qd_minimum_buys : Z;
  qd_minimum_sells : Z;
  qd_minimum_native_quote_volume_units : Z;
  qd_minimum_stable_quote_volume_units : Z;
  qd_maximum_single_wallet_quote_share_bps : Z;
}.
Definition SAFE_INITIAL : QualificationDefaults := {|
  qd_minimum_trades := 5; qd_minimum_unique_traders := 3; qd_minimum_buys := 1;
  qd_minimum_sells := 1; qd_minimum_native_quote_volume_units := 50000000;
  qd_minimum_stable_quote_volume_units := 5000000;
  qd_maximum_single_wallet_quote_share_bps := 9000 |}.

Inductive QualificationDefaultsValidationError :=
| QualificationOutOfBounds (field : string) (value : Z) (bounds : IntegerBounds)
| MinimumUniqueTradersExceedMinimumTrades
| MinimumBuysExceedMinimumTrades
| MinimumSellsExceedMinimumTrades.

Definition qualification_error_field (e : QualificationDefaultsValidationError) : string :=
  match e with
  | QualificationOutOfBounds field _ _ => field
  | MinimumUniqueTradersExceedMinimumTrades => "minimum_unique_traders"
  | MinimumBuysExceedMinimumTrades => "minimum_buys"
  | MinimumSellsExceedMinimumTrades => "minimum_sells"
  end.
Definition qualification_error_text (e : QualificationDefaultsValidationError) : string :=
  match e with
  | QualificationOutOfBounds field value bounds => out_of_bounds_text field value bounds
  | MinimumUniqueTradersExceedMinimumTrades => "minimum_unique_traders cannot exceed minimum_trades"
  | MinimumBuysExceedMinimumTrades => "minimum_buys cannot exceed minimum_trades"
  | MinimumSellsExceedMinimumTrades => "minimum_sells cannot exceed minimum_trades"
  end.

Definition validate_qualification_integer (field : string) (value : Z) (bounds : IntegerBounds)
    : result QualificationDefaultsValidationError unit :=
  guard_err (negb (within_bounds bounds value)) (QualificationOutOfBounds field value bounds).

Definition qualification_validate (d : QualificationDefaults)
    : result QualificationDefaultsValidationError unit :=
  let bounds := qualification_supported in
  _ ← validate_qualification_integer "minimum_trades" (qd_minimum_trades d) (qb_minimum_trades bounds);
  _ ← validate_qualification_integer "minimum_unique_traders" (qd_minimum_unique_traders d)
        (qb_minimum_unique_traders bounds);
  _ ← validate_qualification_integer "minimum_buys" (qd_minimum_buys d) (qb_minimum_buys bounds);
  _ ← validate_qualification_integer "minimum_sells" (qd_minimum_sells d) (qb_minimum_sells bounds);
  _ ← validate_qualification_integer "minimum_native_quote_volume_units"
        (qd_minimum_native_quote_volume_units d) (qb_minimum_native_quote_volume_units bounds);
  _ ← validate_qualification_integer "minimum_stable_quote_volume_units"
        (qd_minimum_stable_quote_volume_units d) (qb_minimum_stable_quote_volume_units bounds);
  _ ← validate_qualification_integer "maximum_single_wallet_quote_share_bps"
        (qd_maximum_single_wallet_quote_share_bps d)
        (qb_maximum_single_wallet_quote_share_bps bounds);
  _ ← guard_err (qd_minimum_unique_traders d >? qd_minimum_trades d)
        MinimumUniqueTradersExceedMinimumTrades;
  _ ← guard_err (qd_minimum_buys d >? qd_minimum_trades d) MinimumBuysExceedMinimumTrades;
  guard_err (qd_minimum_sells d >? qd_minimum_trades d) MinimumSellsExceedMinimumTrades.

(** ** What validation guarantees *)
Lemma guard_err_Ok {E} (c : bool) (e : E) : guard_err c e = Ok tt <-> c = false.
Proof. by destruct c. Qed.

Lemma within_bounds_iff b v : within_bounds b v = true <-> ib_minimum b <= v <= ib_maximum b.
Proof. unfold within_bounds. rewrite andb_true_iff, !Z.leb_le. done. Qed.

Lemma bind_unit_Ok {E} (r : result E unit) (k : result E unit) :
  (_ ← r; k) = Ok tt <-> r = Ok tt /\ k = Ok tt.
Proof. destruct r as [[]|]; simpl; naive_solver. Qed.

Definition bounded (b : IntegerBounds) (v : Z) : Prop := ib_minimum b <= v <= ib_maximum b.

Lemma qualification_validate_Ok d :
  qualification_validate d = Ok tt <->
  bounded (qb_minimum_trades qualification_supported) (qd_minimum_trades d) /\
  bounded (qb_minimum_unique_traders qualification_supported) (qd_minimum_unique_traders d) /\
  bounded (qb_minimum_buys qualification_supported) (qd_minimum_buys d) /\
  bounded (qb_minimum_sells qualification_supported) (qd_minimum_sells d) /\
  bounded (qb_minimum_native_quote_volume_units qualification_supported)
    (qd_minimum_native_quote_volume_units d) /\
  bounded (qb_minimum_stable_quote_volume_units qualification_supported)
    (qd_minimum_stable_quote_volume_units d) /\
  bounded (qb_maximum_single_wallet_quote_share_bps qualification_supported)
    (qd_maximum_single_wallet_quote_share_bps d) /\
  qd_minimum_unique_traders d <= qd_minimum_trades d /\
  qd_minimum_buys d <= qd_minimum_trades d /\
  qd_minimum_sells d <= qd_minimum_trades d.
Proof.
  unfold qualification_validate, validate_qualification_integer, bounded. cbv zeta.
  rewrite !bind_unit_Ok, !guard_err_Ok, !negb_false_iff, !within_bounds_iff, !Z.gtb_ltb, !Z.ltb_ge.
  tauto.
Qed.

Lemma prefilter_validate_Ok d :
  prefilter_validate d = Ok tt <->
  bounded (pb_max_event_age_ms prefilter_supported) (pd_max_event_age_ms d) /\
  bounded (pb_observation_window_ms prefilter_supported) (pd_observation_window_ms d) /\
  bounded (pb_max_active_windows prefilter_supported) (pd_max_active_windows d) /\
  bounded (pb_rpc_requests_per_second prefilter_supported) (pd_rpc_requests_per_second d) /\
  bounded (pb_rpc_max_in_flight prefilter_supported) (pd_rpc_max_in_flight d) /\
  bounded (pb_rpc_request_timeout_ms prefilter_supported) (pd_rpc_request_timeout_ms d) /\
  bounded (pb_rpc_rate_limit_cooldown_ms prefilter_supported) (pd_rpc_rate_limit_cooldown_ms d) /\
  pd_rpc_request_timeout_ms d <= pd_max_event_age_ms d /\
  pd_rpc_request_timeout_ms d <= pd_observation_window_ms d.
Proof.
  unfold prefilter_validate, validate_integer, bounded. cbv zeta.
  rewrite !bind_unit_Ok, !guard_err_Ok, !negb_false_iff, !within_bounds_iff, !Z.gtb_ltb, !Z.ltb_ge.
  tauto.
Qed.
