(* ===== verification/Projection.v ===== *)
(** [crates/projections/src/lib.rs]: the in-memory discovery projection, its
    transitions, and its snapshot and restore. *)
From S2P Require Import Prelude.
From S2P Require Import RustOrd.
From S2P Require Import BTree.
From S2P Require Import RustStr.
From S2P Require Import Domain.
From S2P Require Import ApiContracts.

Inductive ProjectionError :=
| EmptyField (field : string)
| InvalidUnsignedDecimal (field : string)
| InvalidTradeTotals
| InvalidUniqueTraderTotal
| InvalidObservationTimes
| SourceVenueMismatch (source_program : SourceProgram) (venue : Venue)
| ObserveRequiresObservedStage
| QualifyRequiresQualifiedStage
| ApproveRequiresApprovedStage
| CandidateNotObserved (mint : string)
| CandidateNotQualified (mint : string)
| ApprovalMarketMismatch (mint : string)
| ApprovedCounterMismatch
| QualifiedCounterMismatch
| TruncatedSnapshot
| TokenHiddenBySnapshotMode
| EmptyRejectionReason
| EmptyRejectionSummary
| DuplicateMint (mint : string)
| DuplicateRejectionReason (reason_code : string).

Record DiscoveryProjection := {
  p_sequence : Z;
  p_mode : DiscoveryMode;
  p_counters : DiscoveryCounters;
  p_tokens : btree string DiscoveryToken;
  p_rejection_reasons : btree string RejectionSummary;
}.
Definition projection_default : DiscoveryProjection := {|
  p_sequence := 0; p_mode := ObserveAll; p_counters := counters_default;
  p_tokens := []; p_rejection_reasons := [] |}.

(** ** Validation *)
Definition validate_non_empty (value field : string) : result ProjectionError unit :=
  guard_err (is_empty (trim value)) (EmptyField field).
Definition validate_optional_non_empty (value : option string) (field : string)
    : result ProjectionError unit :=
  guard_err (match value with Some v => is_empty (trim v) | None => false end) (EmptyField field).
Definition is_ascii_digit (b : byte) : bool := (48 <=? byte_val b) && (byte_val b <=? 57).
Definition validate_unsigned_decimal (value field : string) : result ProjectionError unit :=
  guard_err (is_empty value || negb (forallb is_ascii_digit (str_bytes value)))
    (InvalidUnsignedDecimal field).

Definition source_matches_venue (p : SourceProgram) (v : Venue) : bool :=
  match p, v with
  | Pump, PumpBondingCurve | PumpSwap, PumpSwapVenue | RaydiumCpmm, RaydiumCpmmVenue
  | RaydiumClmm, RaydiumClmmVenue | RaydiumAmmV4, RaydiumAmmV4Venue => true
  | _, _ => false
  end.

Definition same_market (existing incoming : DiscoveryToken) : bool :=
  bool_decide (dt_primary_venue existing = dt_primary_venue incoming) &&
  bool_decide (dt_market_address existing = dt_market_address incoming) &&
  bool_decide (dt_quote_mint existing = dt_quote_mint incoming) &&
  bool_decide (dt_source_program existing = dt_source_program incoming).

Definition validate_token (t : DiscoveryToken) : result ProjectionError unit :=
  _ ← validate_non_empty (dt_mint t) "mint";
  _ ← validate_non_empty (dt_market_address t) "market_address";
  _ ← validate_non_empty (dt_last_event_kind t) "last_event_kind";
  _ ← validate_non_empty (dt_latest_signature t) "latest_signature";
  _ ← validate_optional_non_empty (dt_name t) "name";
  _ ← validate_optional_non_empty (dt_symbol t) "symbol";
  _ ← validate_optional_non_empty (dt_quote_mint t) "quote_mint";
  let a := dt_activity t in
  _ ← validate_unsigned_decimal (da_base_volume_units a) "activity.base_volume_units";
  _ ← validate_unsigned_decimal (da_quote_volume_units a) "activity.quote_volume_units";
  _ ← guard_err (negb (bool_decide (checked_add_u 64 (da_buys a) (da_sells a) = Some (da_trades a))))
        InvalidTradeTotals;
  _ ← guard_err (da_unique_traders a >? da_trades a) InvalidUniqueTraderTotal;
  _ ← guard_err (dt_first_observed_unix_ms t >? dt_last_observed_unix_ms t) InvalidObservationTimes;
  guard_err (negb (source_matches_venue (dt_source_program t) (dt_primary_venue t)))
    (SourceVenueMismatch (dt_source_program t) (dt_primary_venue t)).

Definition is_approved (t : DiscoveryToken) : bool := bool_decide (dt_stage t = Approved).
(** [matches!(stage, Qualified | Approved)]. *)
Definition is_qualified (t : DiscoveryToken) : bool :=
  match dt_stage t with Qualified | Approved => true | Observed => false end.

Definition token_is_visible (mode : DiscoveryMode) (stage : DiscoveryStage) : bool :=
  match mode with
  | ObserveAll => true
  | QualifiedOnly => match stage with Qualified | Approved => true | Observed => false end
  | ApprovedOnly => bool_decide (stage = Approved)
  end.

(** ** Updating counters and tokens *)
Definition set_pending (n : Z) (c : DiscoveryCounters) : DiscoveryCounters := {|
  dc_observed := dc_observed c; dc_pending := n; dc_qualified := dc_qualified c;
  dc_qualification_pending := dc_qualification_pending c;
  dc_qualification_rejected := dc_qualification_rejected c;
  dc_qualification_unknown := dc_qualification_unknown c;
  dc_processing_failures := dc_processing_failures c; dc_approved := dc_approved c;
  dc_rejected := dc_rejected c; dc_flow_per_minute := dc_flow_per_minute c |}.
Definition set_observed (n : Z) (c : DiscoveryCounters) : DiscoveryCounters := {|
  dc_observed := n; dc_pending := dc_pending c; dc_qualified := dc_qualified c;
  dc_qualification_pending := dc_qualification_pending c;
  dc_qualification_rejected := dc_qualification_rejected c;
  dc_qualification_unknown := dc_qualification_unknown c;
  dc_processing_failures := dc_processing_failures c; dc_approved := dc_approved c;
  dc_rejected := dc_rejected c; dc_flow_per_minute := dc_flow_per_minute c |}.
Definition set_qualified (n : Z) (c : DiscoveryCounters) : DiscoveryCounters := {|
  dc_observed := dc_observed c; dc_pending := dc_pending c; dc_qualified := n;
  dc_qualification_pending := dc_qualification_pending c;
  dc_qualification_rejected := dc_qualification_rejected c;
  dc_qualification_unknown := dc_qualification_unknown c;
  dc_processing_failures := dc_processing_failures c; dc_approved := dc_approved c;
  dc_rejected := dc_rejected c; dc_flow_per_minute := dc_flow_per_minute c |}.
Definition set_approved (n : Z) (c : DiscoveryCounters) : DiscoveryCounters := {|
  dc_observed := dc_observed c; dc_pending := dc_pending c; dc_qualified := dc_qualified c;
  dc_qualification_pending := dc_qualification_pending c;
  dc_qualification_rejected := dc_qualification_rejected c;
  dc_qualification_unknown := dc_qualification_unknown c;
  dc_processing_failures := dc_processing_failures c; dc_approved := n;
  dc_rejected := dc_rejected c; dc_flow_per_minute := dc_flow_per_minute c |}.
Definition set_rejected (n : Z) (c : DiscoveryCounters) : DiscoveryCounters := {|
  dc_observed := dc_observed c; dc_pending := dc_pending c; dc_qualified := dc_qualified c;
  dc_qualification_pending := dc_qualification_pending c;
  dc_qualification_rejected := dc_qualification_rejected c;
  dc_qualification_unknown := dc_qualification_unknown c;
  dc_processing_failures := dc_processing_failures c; dc_approved := dc_approved c;
  dc_rejected := n; dc_flow_per_minute := dc_flow_per_minute c |}.
Definition set_flow (n : option Z) (c : DiscoveryCounters) : DiscoveryCounters := {|
  dc_observed := dc_observed c; dc_pending := dc_pending c; dc_qualified := dc_qualified c;
  dc_qualification_pending := dc_qualification_pending c;
  dc_qualification_rejected := dc_qualification_rejected c;
  dc_qualification_unknown := dc_qualification_unknown c;
  dc_processing_failures := dc_processing_failures c; dc_approved := dc_approved c;
  dc_rejected := dc_rejected c; dc_flow_per_minute := n |}.

(** [saturating_add(1)] and [saturating_sub(1)], conditionally. *)
Definition incr (b : bool) (n : Z) : Z := if b then saturating_add_u 64 n 1 else n.
Definition decr (b : bool) (n : Z) : Z := if b then saturating_sub_u n 1 else n.

Definition with_stage (t : DiscoveryToken) (stage : DiscoveryStage)
    (qualification : option DiscoveryWindowSummary) (risk opportunity : option Score)
    : DiscoveryToken := {|
  dt_mint := dt_mint t; dt_name := dt_name t; dt_symbol := dt_symbol t;
  dt_primary_venue := dt_primary_venue t; dt_market_address := dt_market_address t;
  dt_quote_mint := dt_quote_mint t; dt_source_program := dt_source_program t;
  dt_stage := stage; dt_last_event_kind := dt_last_event_kind t;
  dt_observed_slot := dt_observed_slot t;
  dt_first_observed_unix_ms := dt_first_observed_unix_ms t;
  dt_last_observed_unix_ms := dt_last_observed_unix_ms t;
  dt_latest_signature := dt_latest_signature t; dt_activity := dt_activity t;
  dt_qualification := qualification; dt_risk_score := risk; dt_opportunity_score := opportunity |}.

(** [Option::or]. *)
Definition opt_or {A} (a b : option A) : option A := match a with Some _ => a | None => b end.

(** The new projection after a transition, with [advance]. *)
Definition advanced (p : DiscoveryProjection) (c : DiscoveryCounters)
    (tokens : btree string DiscoveryToken) (reasons : btree string RejectionSummary)
    : DiscoveryProjection := {|
  p_sequence := saturating_add_u 64 (p_sequence p) 1; p_mode := p_mode p; p_counters := c;
  p_tokens := tokens; p_rejection_reasons := reasons |}.

(** ** Transitions

    Every error return of the source precedes the first mutation, so a failing
    transition leaves the projection as it was. *)
Definition mark_pending (p : DiscoveryProjection) : DiscoveryProjection :=
  let c := p_counters p in
  advanced p (set_pending (incr true (dc_pending c)) c) (p_tokens p) (p_rejection_reasons p).

Definition observe (p : DiscoveryProjection) (token : DiscoveryToken)
    : result ProjectionError DiscoveryProjection :=
  _ ← validate_token token;
  _ ← guard_err (negb (bool_decide (dt_stage token = Observed))) ObserveRequiresObservedStage;
  let c := p_counters p in
  let c := set_pending (decr true (dc_pending c)) c in
  match bt_get (dt_mint token) (p_tokens p) with
  | Some existing =>
      if dt_observed_slot existing >? dt_observed_slot token
      then Ok (advanced p c (p_tokens p) (p_rejection_reasons p))
      else
        let was_approved := is_approved existing in
        let was_qualified := is_qualified existing in
        let token :=
          if same_market existing token then
            with_stage token
              (if was_approved then Approved else if was_qualified then Qualified
               else dt_stage token)
              (opt_or (dt_qualification token) (dt_qualification existing))
              (opt_or (dt_risk_score token) (dt_risk_score existing))
              (opt_or (dt_opportunity_score token) (dt_opportunity_score existing))
          else token in
        let c := set_approved (decr (was_approved && negb (is_approved token)) (dc_approved c)) c in
        let c := set_qualified (decr (was_qualified && negb (is_qualified token)) (dc_qualified c)) c in
        Ok (advanced p c (bt_insert (dt_mint token) token (p_tokens p)) (p_rejection_reasons p))
  | None =>
      let c := set_observed (incr true (dc_observed c)) c in
      Ok (advanced p c (bt_insert (dt_mint token) token (p_tokens p)) (p_rejection_reasons p))
  end.

Definition qualify (p : DiscoveryProjection) (token : DiscoveryToken)
    : result ProjectionError DiscoveryProjection :=
  _ ← validate_token token;
  _ ← guard_err (negb (bool_decide (dt_stage token = Qualified))) QualifyRequiresQualifiedStage;
  existing ← ok_or (bt_get (dt_mint token) (p_tokens p)) (CandidateNotObserved (dt_mint token));
  _ ← guard_err (negb (same_market existing token)) (ApprovalMarketMismatch (dt_mint token));
  let was_qualified := is_qualified existing in
  let c := p_counters p in
  let c := set_qualified (incr (negb was_qualified) (dc_qualified c)) c in
  Ok (advanced p c (bt_insert (dt_mint token) token (p_tokens p)) (p_rejection_reasons p)).

Definition approve (p : DiscoveryProjection) (token : DiscoveryToken)
    : result ProjectionError DiscoveryProjection :=
  _ ← validate_token token;
  _ ← guard_err (negb (bool_decide (dt_stage token = Approved))) ApproveRequiresApprovedStage;
  existing ← ok_or (bt_get (dt_mint token) (p_tokens p)) (CandidateNotObserved (dt_mint token));
  _ ← guard_err (negb (same_market existing token)) (ApprovalMarketMismatch (dt_mint token));
  _ ← guard_err (negb (is_qualified existing)) (CandidateNotQualified (dt_mint token));
  let was_approved := is_approved existing in
  let was_qualified := is_qualified existing in
  let token := with_stage token (dt_stage token)
                 (opt_or (dt_qualification token) (dt_qualification existing))
                 (dt_risk_score token) (dt_opportunity_score token) in
  let c := p_counters p in
  let c := set_pending (decr true (dc_pending c)) c in
  let c := set_approved (incr (negb was_approved) (dc_approved c)) c in
  let c := set_qualified (incr (negb was_qualified) (dc_qualified c)) c in
  Ok (advanced p c (bt_insert (dt_mint token) token (p_tokens p)) (p_rejection_reasons p)).

Definition reject (p : DiscoveryProjection) (mint reason_code_ : string) (seen_at : Z)
    : result ProjectionError DiscoveryProjection :=
  _ ← guard_err (is_empty (trim reason_code_)) EmptyRejectionReason;
  let c := p_counters p in
  let c := set_pending (decr true (dc_pending c)) c in
  let c := set_rejected (incr true (dc_rejected c)) c in
  let '(c, tokens) :=
    match bt_get mint (p_tokens p) with
    | Some token =>
        let c := set_approved (decr (is_approved token) (dc_approved c)) c in
        let c := set_qualified (decr (is_qualified token) (dc_qualified c)) c in
        (c, bt_remove mint (p_tokens p))
    | None => (c, p_tokens p)
    end in
  let reasons :=
    bt_update reason_code_
      {| rj_reason_code := reason_code_; rj_count := 0; rj_last_seen_unix_ms := seen_at |}
      (fun s => {| rj_reason_code := rj_reason_code s; rj_count := incr true (rj_count s);
                   rj_last_seen_unix_ms := Z.max (rj_last_seen_unix_ms s) seen_at |})
      (p_rejection_reasons p) in
  Ok (advanced p c tokens reasons).

Definition set_mode (p : DiscoveryProjection) (mode : DiscoveryMode) : DiscoveryProjection :=
  if bool_decide (p_mode p = mode) then p
  else {| p_sequence := saturating_add_u 64 (p_sequence p) 1; p_mode := mode;
          p_counters := p_counters p; p_tokens := p_tokens p;
          p_rejection_reasons := p_rejection_reasons p |}.

Definition set_flow_per_minute (p : DiscoveryProjection) (flow : option Z) : DiscoveryProjection :=
  if bool_decide (dc_flow_per_minute (p_counters p) = flow) then p
  else advanced p (set_flow flow (p_counters p)) (p_tokens p) (p_rejection_reasons p).

(** ** Snapshot and restore *)
Definition snapshot (p : DiscoveryProjection) : DiscoverySnapshot :=
  let tokens := List.filter (fun t => token_is_visible (p_mode p) (dt_stage t))
                  (bt_values (p_tokens p)) in {|
  ds_sequence := p_sequence p; ds_mode := p_mode p; ds_tokens := tokens;
  ds_tokens_total := default u64_max (try_from_u 64 (Z.of_nat (length tokens)));
  ds_tokens_truncated := false; ds_counters := p_counters p;
  ds_rejection_reasons := bt_values (p_rejection_reasons p) |}.

Fixpoint restore_tokens (mode : DiscoveryMode) (tokens : btree string DiscoveryToken)
    (approved qualified : Z) (l : list DiscoveryToken)
    : result ProjectionError (btree string DiscoveryToken * Z * Z) :=
  match l with
  | [] => Ok (tokens, approved, qualified)
  | token :: rest =>
      _ ← validate_token token;
      _ ← guard_err (negb (token_is_visible mode (dt_stage token))) TokenHiddenBySnapshotMode;
      let approved := incr (is_approved token) approved in
      let qualified := incr (is_qualified token) qualified in
      match bt_get (dt_mint token) tokens with
      | Some _ => Err (DuplicateMint (dt_mint token))
      | None =>
          restore_tokens mode (bt_insert (dt_mint token) token tokens) approved qualified rest
      end
  end.

Fixpoint restore_reasons (reasons : btree string RejectionSummary) (l : list RejectionSummary)
    : result ProjectionError (btree string RejectionSummary) :=
  match l with
  | [] => Ok reasons
  | summary :: rest =>
      _ ← map_err (fun _ => EmptyRejectionReason)
            (validate_non_empty (rj_reason_code summary) "reason_code");
      _ ← guard_err (rj_count summary =? 0) EmptyRejectionSummary;
      match bt_get (rj_reason_code summary) reasons with
      | Some _ => Err (DuplicateRejectionReason (rj_reason_code summary))
      | None => restore_reasons (bt_insert (rj_reason_code summary) summary reasons) rest
      end
  end.

Definition try_from_snapshot (s : DiscoverySnapshot) : result ProjectionError DiscoveryProjection :=
  _ ← guard_err (ds_tokens_truncated s) TruncatedSnapshot;
  '(tokens, approved_count, qualified_count) ← restore_tokens (ds_mode s) [] 0 0 (ds_tokens s);
  _ ← guard_err (negb (approved_count =? dc_approved (ds_counters s))) ApprovedCounterMismatch;
  _ ← guard_err (negb (bool_decide (ds_mode s = ApprovedOnly)) &&
                 negb (qualified_count =? dc_qualified (ds_counters s))) QualifiedCounterMismatch;
  reasons ← restore_reasons [] (ds_rejection_reasons s);
  Ok {| p_sequence := ds_sequence s; p_mode := ds_mode s; p_counters := ds_counters s;
        p_tokens := tokens; p_rejection_reasons := reasons |}.
