(* ===== verification/ProjectionProofs.v ===== *)
(** The projection's counters describe its tokens unless an approved token was
    qualified again, and then a snapshot restores to the projection it was taken
    from. *)
From S2P Require Import Prelude.
From S2P Require Import ListFacts.
From S2P Require Import RustOrd.
From S2P Require Import BTree.
From S2P Require Import RustStr.
From S2P Require Import Domain.
From S2P Require Import ApiContracts.
From S2P Require Import Projection.

(** ** Counting tokens *)
Definition one_if (f : DiscoveryToken -> bool) (t : DiscoveryToken) : Z := if f t then 1 else 0.
Definition count_tokens (f : DiscoveryToken -> bool) (m : btree string DiscoveryToken) : Z :=
  sum_of (one_if f) (bt_values m).

Lemma count_perm f m1 m2 : m1 ≡ₚ m2 -> count_tokens f m1 = count_tokens f m2.
Proof. intros H. apply sum_of_perm. unfold bt_values. by rewrite H. Qed.

Lemma count_nonneg f m : 0 <= count_tokens f m <= Z.of_nat (length m).
Proof.
  unfold count_tokens, bt_values. rewrite <- (length_fmap snd m).
  pose proof (sum_of_bounds (one_if f) 1 (snd <$> m)) as H. rewrite Z.mul_1_r in H. apply H.
  apply Forall_forall. intros t _. unfold one_if. destruct (f t); lia.
Qed.

Lemma count_get f k old m :
  bt_get k m = Some old -> count_tokens f m = one_if f old + count_tokens f (bt_remove k m).
Proof. intros H. rewrite (count_perm f _ _ (bt_get_perm _ _ _ H)). done. Qed.

Lemma count_insert f k v m :
  bt_wf m -> count_tokens f (bt_insert k v m) = one_if f v + count_tokens f (bt_remove k m).
Proof. intros H. rewrite (count_perm f _ _ (bt_insert_perm k v m H)). done. Qed.

Lemma count_replace f k v old m :
  bt_wf m -> bt_get k m = Some old ->
  count_tokens f (bt_insert k v m) = count_tokens f m - one_if f old + one_if f v.
Proof. intros Hwf Hg. rewrite count_insert, (count_get f k old m) by done. lia. Qed.

Lemma count_new f k v m :
  bt_wf m -> bt_get k m = None -> count_tokens f (bt_insert k v m) = count_tokens f m + one_if f v.
Proof. intros Hwf Hg. rewrite count_insert, bt_remove_None by done. lia. Qed.

Lemma length_replace {V} k (v old : V) (m : btree string V) :
  bt_wf m -> bt_get k m = Some old -> length (bt_insert k v m) = length m.
Proof.
  intros Hwf Hg. rewrite (Permutation_length (bt_insert_perm k v m Hwf)).
  by rewrite (Permutation_length (bt_get_perm k old m Hg)).
Qed.

(** ** The invariant
    A counter is exact, or (loosely) at least the number of its tokens: a
    qualification of an approved token leaves the approved counter above it. *)
Definition counts (strict : bool) (f : DiscoveryToken -> bool) (n : Z) (m : btree string DiscoveryToken) : Prop :=
  if strict then n = count_tokens f m else count_tokens f m <= n <= u64_max.

Record projection_ok (strict : bool) (p : DiscoveryProjection) : Prop := {
  po_wf : bt_wf (p_tokens p);
  po_tokens k t : bt_get k (p_tokens p) = Some t -> dt_mint t = k /\ validate_token t = Ok tt;
  po_reasons_wf : bt_wf (p_rejection_reasons p);
  po_reasons k s : bt_get k (p_rejection_reasons p) = Some s ->
    rj_reason_code s = k /\ is_empty (trim k) = false /\ 0 < rj_count s;
  po_size : Z.of_nat (length (p_tokens p)) <= u64_max;
  po_approved : counts strict is_approved (dc_approved (p_counters p)) (p_tokens p);
  po_qualified : counts true is_qualified (dc_qualified (p_counters p)) (p_tokens p);
}.

Lemma projection_default_ok strict : projection_ok strict projection_default.
Proof. constructor; simpl; try done; [constructor..|]. by destruct strict. Qed.

Lemma validate_with_stage t stage q r o :
  validate_token (with_stage t stage q r o) = validate_token t.
Proof. done. Qed.

Lemma one_if_cases f t : one_if f t = if f t then 1 else 0.
Proof. done. Qed.

(** The counter after a token of the map is replaced, added or removed. *)
Lemma counts_decr strict f n m k old new :
  counts strict f n m -> bt_wf m -> bt_get k m = Some old -> (f new = true -> f old = true) ->
  counts strict f (decr (f old && negb (f new)) n) (bt_insert k new m).
Proof.
  intros Hn Hwf Hg Hnew. pose proof (count_get f k old m Hg) as Hc. pose proof (count_nonneg f (bt_remove k m)).
  unfold counts in *. rewrite (count_replace f k new old m Hwf Hg). rewrite !one_if_cases in *.
  unfold decr, saturating_sub_u. destruct (f old), (f new); simpl; try specialize (Hnew eq_refl);
    try done; destruct strict; lia.
Qed.

Lemma counts_incr strict f n m k old new :
  counts strict f n m -> bt_wf m -> Z.of_nat (length m) <= u64_max -> bt_get k m = Some old -> f new = true ->
  counts strict f (incr (negb (f old)) n) (bt_insert k new m).
Proof.
  intros Hn Hwf Hsize Hg Hnew. pose proof (count_nonneg f (bt_insert k new m)) as Hb.
  rewrite (length_replace k new old m Hwf Hg) in Hb.
  unfold counts in *. rewrite (count_replace f k new old m Hwf Hg) in *. rewrite !one_if_cases, Hnew in *.
  unfold incr, saturating_add_u. destruct (f old); simpl; destruct strict; lia.
Qed.

Lemma counts_new strict f n m k new :
  counts strict f n m -> bt_wf m -> bt_get k m = None -> f new = false -> counts strict f n (bt_insert k new m).
Proof.
  intros Hn Hwf Hg Hnew. unfold counts in *. rewrite count_new, one_if_cases, Hnew, Z.add_0_r by done. done.
Qed.

Lemma counts_remove strict f n m k old :
  counts strict f n m -> bt_get k m = Some old -> counts strict f (decr (f old) n) (bt_remove k m).
Proof.
  intros Hn Hg. pose proof (count_get f k old m Hg) as Hc. pose proof (count_nonneg f (bt_remove k m)).
  unfold counts in *. rewrite one_if_cases in *. unfold decr, saturating_sub_u. destruct (f old), strict; lia.
Qed.

(** Replacing or adding a valid token with the right counters. *)
Lemma ok_insert strict p c t :
  projection_ok strict p -> validate_token t = Ok tt ->
  Z.of_nat (length (bt_insert (dt_mint t) t (p_tokens p))) <= u64_max ->
  counts strict is_approved (dc_approved c) (bt_insert (dt_mint t) t (p_tokens p)) ->
  counts true is_qualified (dc_qualified c) (bt_insert (dt_mint t) t (p_tokens p)) ->
  projection_ok strict (advanced p c (bt_insert (dt_mint t) t (p_tokens p)) (p_rejection_reasons p)).
Proof.
  intros [W T RW R S A Q] Hv Hsize Ha Hq. constructor; simpl; try done.
  - by apply bt_wf_insert.
  - intros k t' Hk. destruct (decide (k = dt_mint t)) as [->|Hne].
    + rewrite bt_get_insert_eq in Hk. by simplify_eq.
    + rewrite bt_get_insert_ne in Hk by done. by apply T.
Qed.

Lemma observe_ok strict p t p' :
  projection_ok strict p -> Z.of_nat (length (p_tokens p)) < u64_max ->
  observe p t = Ok p' -> projection_ok strict p'.
Proof.
  intros Hok Hsize Ho. pose proof Hok as [W T RW R S A Q]. unfold observe in Ho.
  apply bind_Ok in Ho as ([] & Hv & Ho). apply bind_Ok in Ho as ([] & Hst & Ho).
  destruct (bool_decide_reflect (dt_stage t = Observed)) as [Hst'|]; [clear Hst|done].
  assert (is_approved t = false) as Hta by (unfold is_approved; rewrite Hst'; done).
  assert (is_qualified t = false) as Htq by (unfold is_qualified; by rewrite Hst').
  destruct (bt_get (dt_mint t) (p_tokens p)) as [old|] eqn:Eg.
  - destruct (dt_observed_slot old >? dt_observed_slot t).
    { injection Ho as <-. by constructor. }
    injection Ho as <-.
    set (t' := if same_market old t then _ else t).
    assert (dt_mint t' = dt_mint t /\ validate_token t' = Ok tt) as [Hm Hv'].
    { subst t'. by destruct (same_market old t). }
    assert (is_approved t' = true -> is_approved old = true) as Happ.
    { subst t'. destruct (same_market old t); [|by rewrite Hta]. unfold is_approved; simpl.
      destruct (bool_decide (dt_stage old = Approved)); [done|].
      destruct (is_qualified old); [done|]. by rewrite Hst'. }
    assert (is_qualified t' = true -> is_qualified old = true) as Hqual.
    { subst t'. destruct (same_market old t); [|by rewrite Htq].
      unfold is_approved, is_qualified; simpl. by destruct (dt_stage old); rewrite ?Hst'. }
    apply ok_insert; [done|done| | |]; rewrite ?Hm; [|by apply counts_decr..].
    rewrite (length_replace _ t' old) by done. lia.
  - injection Ho as <-. apply ok_insert; [done|done| |by apply counts_new..].
    pose proof (bt_length_insert_le (dt_mint t) t (p_tokens p)). lia.
Qed.

Lemma qualify_ok strict p t p' :
  projection_ok strict p ->
  (strict = true -> forall old, bt_get (dt_mint t) (p_tokens p) = Some old -> is_approved old = false) ->
  qualify p t = Ok p' -> projection_ok strict p'.
Proof.
  intros Hok Hna Ho. pose proof Hok as [W T RW R S A Q]. unfold qualify in Ho.
  apply bind_Ok in Ho as ([] & Hv & Ho). apply bind_Ok in Ho as ([] & Hst & Ho).
  destruct (bool_decide_reflect (dt_stage t = Qualified)) as [Hst'|]; [clear Hst|done].
  apply bind_Ok in Ho as (old & Eg%ok_or_Ok & Ho). apply bind_Ok in Ho as ([] & _ & Ho).
  injection Ho as <-.
  assert (is_approved t = false) as Hta by (unfold is_approved; by rewrite Hst').
  apply ok_insert; [done|done| | |].
  - by rewrite (length_replace _ t old).
  - simpl. unfold counts in *. rewrite (count_replace _ _ t old), !one_if_cases, Hta by done.
    destruct strict; [|destruct (is_approved old); lia]. rewrite (Hna eq_refl _ Eg). lia.
  - apply counts_incr; [done..|]. unfold is_qualified. by rewrite Hst'.
Qed.

Lemma approve_ok strict p t p' : projection_ok strict p -> approve p t = Ok p' -> projection_ok strict p'.
Proof.
  intros Hok Ho. pose proof Hok as [W T RW R S A Q]. unfold approve in Ho.
  apply bind_Ok in Ho as ([] & Hv & Ho). apply bind_Ok in Ho as ([] & Hst & Ho).
  destruct (bool_decide_reflect (dt_stage t = Approved)) as [Hst'|]; [clear Hst|done].
  apply bind_Ok in Ho as (old & Eg%ok_or_Ok & Ho). apply bind_Ok in Ho as ([] & _ & Ho).
  apply bind_Ok in Ho as ([] & Hq & Ho). injection Ho as <-.
  set (t' := with_stage t _ _ _ _). change (dt_mint t) with (dt_mint t') in *.
  apply ok_insert; [done|done| |apply counts_incr; [done..|]|apply counts_incr; [done..|]].
  - by rewrite (length_replace _ t' old).
  - unfold is_approved, t'; simpl. by rewrite Hst'.
  - unfold is_qualified, t'; simpl. by rewrite Hst'.
Qed.

Lemma reject_ok strict p mint reason at_ p' :
  projection_ok strict p -> reject p mint reason at_ = Ok p' -> projection_ok strict p'.
Proof.
  intros Hok Ho. pose proof Hok as [W T RW R S A Q]. unfold reject in Ho.
  apply bind_Ok in Ho as ([] & Hr & Ho).
  destruct (is_empty (trim reason)) eqn:Er; [done|]. clear Hr.
  set (reasons := bt_update _ _ _ _) in Ho.
  assert (bt_wf reasons) as Hrw by (by apply bt_wf_insert).
  assert (forall k s, bt_get k reasons = Some s ->
    rj_reason_code s = k /\ is_empty (trim k) = false /\ 0 < rj_count s) as Hrs.
  { intros k s Hk. unfold reasons, bt_update in Hk. destruct (decide (k = reason)) as [->|Hne].
    - rewrite bt_get_insert_eq in Hk. injection Hk as <-. simpl.
      unfold saturating_add_u. destruct (bt_get reason (p_rejection_reasons p)) as [s|] eqn:Es; simpl.
      + destruct (R _ _ Es) as (-> & _ & ?). split_and!; [done|done|int_lia].
      + split_and!; [done|done|int_lia].
    - rewrite bt_get_insert_ne in Hk by done. by apply R. }
  destruct (bt_get mint (p_tokens p)) as [old|] eqn:Eg; injection Ho as <-; constructor; simpl; try done.
  - by apply bt_wf_remove.
  - intros k t Hk. destruct (decide (k = mint)) as [->|Hne].
    + by rewrite bt_get_remove_eq in Hk.
    + rewrite bt_get_remove_ne in Hk by done. by apply T.
  - rewrite (Permutation_length (bt_get_perm _ _ _ Eg)) in S. simpl in S. lia.
  - by apply counts_remove.
  - by apply (counts_remove true).
Qed.

(** ** Restoring *)
Section Append.
Context {K V : Type} `{RustOrd K}.
Implicit Types (m rest : btree K V).

Lemma bt_append_get k v m rest : bt_wf (m ++ (k, v) :: rest) -> bt_get k m = None.
Proof.
  induction m as [|[k' v'] m IH]; simpl; [done|]. intros Hwf.
  apply StronglySorted_inv in Hwf as [Hs Hall].
  assert (cmp k' k = Lt) as Hlt.
  { rewrite Forall_forall in Hall. apply (Hall (k, v)). set_solver. }
  rewrite (cmp_antisym k' k), Hlt. simpl. by apply IH.
Qed.

Lemma bt_append_insert k v m rest : bt_wf (m ++ (k, v) :: rest) -> bt_insert k v m = m ++ [(k, v)].
Proof.
  induction m as [|[k' v'] m IH]; simpl; [done|]. intros Hwf.
  apply StronglySorted_inv in Hwf as [Hs Hall].
  assert (cmp k' k = Lt) as Hlt.
  { rewrite Forall_forall in Hall. apply (Hall (k, v)). set_solver. }
  rewrite (cmp_antisym k' k), Hlt. simpl. by rewrite IH.
Qed.

Lemma bt_wf_filter p m : bt_wf m -> bt_wf (List.filter p m).
Proof.
  unfold bt_wf. induction 1 as [|x m Hs IH Hall]; simpl; [constructor|].
  destruct (p x); [|done]. constructor; [done|]. by apply Forall_filter_b.
Qed.
End Append.

Lemma filter_values (p : DiscoveryToken -> bool) (m : btree string DiscoveryToken) :
  List.filter p (bt_values m) = bt_values (List.filter (fun e => p e.2) m).
Proof.
  unfold bt_values. induction m as [|[k t] m IH]; csimpl; [done|]. rewrite IH. by destruct (p t).
Qed.

Lemma restore_tokens_append mode m rest a q :
  bt_wf (m ++ rest) ->
  Forall (fun e => dt_mint e.2 = e.1 /\ validate_token e.2 = Ok tt /\
                   token_is_visible mode (dt_stage e.2) = true) rest ->
  0 <= a -> 0 <= q ->
  a + count_tokens is_approved rest <= u64_max -> q + count_tokens is_qualified rest <= u64_max ->
  restore_tokens mode m a q (bt_values rest) =
    Ok (m ++ rest, a + count_tokens is_approved rest, q + count_tokens is_qualified rest).
Proof.
  revert m a q. induction rest as [|[k t] rest IH]; intros m a q Hwf Hall Ha Hq Hsa Hsq.
  { unfold count_tokens. simpl. by rewrite app_nil_r, !Z.add_0_r. }
  apply Forall_cons in Hall as [(Hm & Hv & Hvis) Hall]. cbn [snd fst] in Hm, Hv, Hvis. subst k.
  cbn [bt_values fmap list_fmap restore_tokens snd]. fold (bt_values rest).
  rewrite Hv. cbn [mbind result_bind]. rewrite Hvis. cbn [negb guard_err mbind result_bind].
  rewrite (bt_append_get _ _ _ _ Hwf), (bt_append_insert _ _ _ _ Hwf).
  unfold count_tokens in Hsa, Hsq |- *. cbn [bt_values fmap list_fmap snd] in Hsa, Hsq |- *.
  fold (bt_values rest) in *. rewrite sum_of_cons in Hsa, Hsq. rewrite !sum_of_cons.
  fold (count_tokens is_approved rest) (count_tokens is_qualified rest) in *.
  pose proof (count_nonneg is_approved rest). pose proof (count_nonneg is_qualified rest).
  assert (forall f n c, 0 <= n -> 0 <= c -> n + (one_if f t + c) <= u64_max ->
    incr (f t) n = n + one_if f t) as Hincr.
  { intros f n c Hn Hc Hs. unfold one_if, incr, saturating_add_u in *. destruct (f t); lia. }
  assert (forall f, 0 <= one_if f t) as Hone by (intros f; unfold one_if; destruct (f t); lia).
  pose proof (Hone is_approved). pose proof (Hone is_qualified).
  rewrite (Hincr is_approved a (count_tokens is_approved rest)) by lia.
  rewrite (Hincr is_qualified q (count_tokens is_qualified rest)) by lia.
  rewrite IH; [|by rewrite <- app_assoc|done|lia..].
  rewrite <- app_assoc, !Z.add_assoc. done.
Qed.

Lemma restore_reasons_append m rest :
  bt_wf (m ++ rest) ->
  Forall (fun e => rj_reason_code e.2 = e.1 /\ is_empty (trim e.1) = false /\ 0 < rj_count e.2) rest ->
  restore_reasons m (bt_values rest) = Ok (m ++ rest).
Proof.
  revert m. induction rest as [|[k s] rest IH]; intros m Hwf Hall.
  { simpl. by rewrite app_nil_r. }
  apply Forall_cons in Hall as [(Hk & Hb & Hc) Hall]. cbn [fst snd] in Hk, Hb, Hc. subst k.
  cbn [bt_values fmap list_fmap restore_reasons snd]. fold (bt_values rest).
  unfold validate_non_empty. rewrite Hb. cbn [guard_err map_err mbind result_bind].
  rewrite (proj2 (Z.eqb_neq _ _)) by lia. cbn [guard_err mbind result_bind].
  rewrite (bt_append_get _ _ _ _ Hwf), (bt_append_insert _ _ _ _ Hwf).
  rewrite IH; [by rewrite <- app_assoc|by rewrite <- app_assoc|done].
Qed.

Lemma bt_wf_Forall {V} (P : string -> V -> Prop) (m : btree string V) :
  bt_wf m -> (forall k v, bt_get k m = Some v -> P k v) -> Forall (fun e => P e.1 e.2) m.
Proof.
  intros Hwf HP. apply Forall_forall. intros [k v] Hin. apply HP. by apply bt_get_elem.
Qed.

(** Counting only the visible tokens loses nothing the mode keeps. *)
Lemma count_visible f mode m :
  (forall t, f t = true -> token_is_visible mode (dt_stage t) = true) ->
  count_tokens f (List.filter (fun e => token_is_visible mode (dt_stage e.2)) m) = count_tokens f m.
Proof.
  intros Hf. unfold count_tokens, bt_values. induction m as [|[k t] m IH]; [done|].
  simpl List.filter. destruct (token_is_visible mode (dt_stage t)) eqn:E;
    cbn [fmap list_fmap snd]; rewrite !sum_of_cons, <- IH; [done|].
  unfold one_if at 2. destruct (f t) eqn:Et; [|done]. apply Hf in Et. congruence.
Qed.

Lemma approved_visible mode t : is_approved t = true -> token_is_visible mode (dt_stage t) = true.
Proof. unfold is_approved. rewrite bool_decide_eq_true. intros ->. by destruct mode. Qed.

Lemma qualified_visible mode t :
  mode <> ApprovedOnly -> is_qualified t = true -> token_is_visible mode (dt_stage t) = true.
Proof. unfold is_qualified. by destruct mode, (dt_stage t). Qed.

(** The part of a projection that its own mode shows. *)
Definition visible_part (p : DiscoveryProjection) : DiscoveryProjection := {|
  p_sequence := p_sequence p; p_mode := p_mode p; p_counters := p_counters p;
  p_tokens := List.filter (fun e => token_is_visible (p_mode p) (dt_stage e.2)) (p_tokens p);
  p_rejection_reasons := p_rejection_reasons p |}.

(** A projection accepts its own snapshot exactly when its approved counter is exact. *)
Lemma restore_snapshot p : projection_ok false p ->
  try_from_snapshot (snapshot p) =
    if dc_approved (p_counters p) =? count_tokens is_approved (p_tokens p) then Ok (visible_part p)
    else Err ApprovedCounterMismatch.
Proof.
  intros [W T RW R S A Q]. simpl in Q. unfold try_from_snapshot, snapshot.
  cbn [ds_tokens_truncated guard_err mbind result_bind ds_mode ds_tokens ds_counters
       ds_rejection_reasons ds_sequence].
  rewrite filter_values.
  set (vis := List.filter (fun e => token_is_visible (p_mode p) (dt_stage e.2)) (p_tokens p)).
  assert (count_tokens is_approved vis = count_tokens is_approved (p_tokens p)) as Ha.
  { apply count_visible. apply approved_visible. }
  assert (forall f, count_tokens f vis <= u64_max) as Hb.
  { intros f. pose proof (count_nonneg f vis). pose proof (length_filter_le
      (fun e => token_is_visible (p_mode p) (dt_stage e.2)) (p_tokens p)). fold vis in H0. lia. }
  rewrite (restore_tokens_append (p_mode p) [] vis 0 0); [|by apply bt_wf_filter| |lia|lia|apply Hb|apply Hb].
  2:{ rewrite Forall_forall. intros [k t] [Hvis Hin]%filter_subset.
      apply bt_get_elem, T in Hin as [Hm Hv]; [|done]. done. }
  cbn [mbind result_bind]. rewrite !Z.add_0_l, Ha, (Z.eqb_sym (dc_approved _)).
  destruct (count_tokens is_approved (p_tokens p) =? dc_approved (p_counters p)); [|done].
  cbn [negb guard_err mbind result_bind].
  assert (negb (bool_decide (p_mode p = ApprovedOnly)) &&
    negb (count_tokens is_qualified vis =? dc_qualified (p_counters p)) = false) as ->.
  { case_bool_decide as Hm; [done|]. simpl. rewrite Q. unfold vis.
    rewrite count_visible by (intros t; by apply qualified_visible). by rewrite Z.eqb_refl. }
  cbn [guard_err mbind result_bind].
  rewrite (restore_reasons_append [] (p_rejection_reasons p)); [done|done|].
  apply (bt_wf_Forall (fun k s => rj_reason_code s = k /\ is_empty (trim k) = false /\ 0 < rj_count s)); done.
Qed.

(** ** Histories
    The calls that change a projection; one that fails leaves it as it was. *)
Inductive projection_op :=
| OpMarkPending
| OpObserve (token : DiscoveryToken)
| OpQualify (token : DiscoveryToken)
| OpApprove (token : DiscoveryToken)
| OpReject (mint reason_code : string) (seen_at : Z)
| OpSetMode (mode : DiscoveryMode)
| OpSetFlow (flow : option Z).

Definition apply_op (op : projection_op) (p : DiscoveryProjection) : result ProjectionError DiscoveryProjection :=
  match op with
  | OpMarkPending => Ok (mark_pending p)
  | OpObserve token => observe p token
  | OpQualify token => qualify p token
  | OpApprove token => approve p token
  | OpReject mint reason at_ => reject p mint reason at_
  | OpSetMode mode => Ok (set_mode p mode)
  | OpSetFlow flow => Ok (set_flow_per_minute p flow)
  end.

(** A call that qualifies a token that is approved. *)
Definition requalifies_approved (op : projection_op) (p : DiscoveryProjection) : bool :=
  match op with
  | OpQualify token => match bt_get (dt_mint token) (p_tokens p) with Some old => is_approved old | None => false end
  | _ => false
  end.

(** Any call, on a projection with fewer tokens than a [u64] counts; and the calls
    but those that qualify an approved token. *)
Definition projection_step (p p' : DiscoveryProjection) : Prop :=
  exists op, Z.of_nat (length (p_tokens p)) < u64_max /\ apply_op op p = Ok p'.
Definition careful_step (p p' : DiscoveryProjection) : Prop :=
  exists op, Z.of_nat (length (p_tokens p)) < u64_max /\ requalifies_approved op p = false /\ apply_op op p = Ok p'.

Definition projection_reachable (p : DiscoveryProjection) : Prop :=
  rtc projection_step projection_default p.
Definition reachable_without_requalifying (p : DiscoveryProjection) : Prop :=
  rtc careful_step projection_default p.

Lemma apply_op_ok strict op p p' : projection_ok strict p -> Z.of_nat (length (p_tokens p)) < u64_max ->
  (strict = true -> requalifies_approved op p = false) -> apply_op op p = Ok p' -> projection_ok strict p'.
Proof.
  intros Hok Hsize Hna Hop. destruct op; simpl in Hop; eauto using observe_ok, approve_ok, reject_ok.
  - injection Hop as <-. destruct Hok. by constructor.
  - eapply qualify_ok; [done| |done]. intros Hs old Hold. specialize (Hna Hs). simpl in Hna. by rewrite Hold in Hna.
  - injection Hop as <-. unfold set_mode. case_bool_decide; [done|]. destruct Hok. by constructor.
  - injection Hop as <-. unfold set_flow_per_minute. case_bool_decide; [done|]. destruct Hok. by constructor.
Qed.

Lemma projection_reachable_ok p : projection_reachable p -> projection_ok false p.
Proof.
  intros Hr. pose proof (projection_default_ok false) as Hd. revert Hd.
  induction Hr as [|p1 p2 p3 (op & Hsize & Hop)]; [done|]. intros Hd. apply IHHr. by eapply apply_op_ok.
Qed.
Lemma careful_reachable_ok p : reachable_without_requalifying p -> projection_ok true p.
Proof.
  intros Hr. pose proof (projection_default_ok true) as Hd. revert Hd.
  induction Hr as [|p1 p2 p3 (op & Hsize & Hna & Hop)]; [done|]. intros Hd. apply IHHr. by eapply apply_op_ok.
Qed.
Lemma careful_reachable p : reachable_without_requalifying p -> projection_reachable p.
Proof. apply rtc_subrel. intros p1 p2 (op & Hsize & _ & Hop). by exists op. Qed.

(** ** Theorems *)

(** the counters describe the tokens.  In every projection reached without
    re-qualifying an approved token, the approved and qualified counters are
    exactly the numbers of approved, and of qualified or approved, tokens;
    every token is valid and filed under its mint, and every rejection summary
    has a reason and a positive count. *)
Theorem projection_counters_exact p :
  reachable_without_requalifying p ->
  dc_approved (p_counters p) = count_tokens is_approved (p_tokens p) /\
  dc_qualified (p_counters p) = count_tokens is_qualified (p_tokens p) /\
  (forall k t, bt_get k (p_tokens p) = Some t -> dt_mint t = k /\ validate_token t = Ok tt) /\
  (forall k s, bt_get k (p_rejection_reasons p) = Some s ->
     rj_reason_code s = k /\ is_empty (trim k) = false /\ 0 < rj_count s).
Proof. intros [W T RW R S A Q]%careful_reachable_ok. done. Qed.

(** C28: a snapshot restores, and exactly when.  Take the snapshot of a projection
    reached from the empty one by any calls, those that qualify an approved token
    included.  If its approved counter is the number of its approved tokens,
    restoring gives back the projection itself, restricted to the tokens its mode
    shows; otherwise it fails with the counter mismatch and with nothing else.
    Without a call that qualifies an approved token the counter is that number, so
    the snapshot restores.  In [ObserveAll] what is restored is the whole
    projection. *)
Theorem projection_snapshot_roundtrip p :
  projection_reachable p ->
  try_from_snapshot (snapshot p) =
    (if dc_approved (p_counters p) =? count_tokens is_approved (p_tokens p) then Ok (visible_part p)
     else Err ApprovedCounterMismatch) /\
  (reachable_without_requalifying p -> try_from_snapshot (snapshot p) = Ok (visible_part p)) /\
  (p_mode p = ObserveAll -> visible_part p = p).
Proof.
  intros Hr%projection_reachable_ok. pose proof (restore_snapshot p Hr) as He. split; [done|]. split.
  - intros Hc%careful_reachable_ok. rewrite He, (po_approved _ _ Hc : _ = _). by rewrite Z.eqb_refl.
  - intros Hm. destruct p as [s m c ts rs]. simpl in Hm. subst m. unfold visible_part. simpl. f_equal.
    clear. induction ts as [|e ts IH]; [done|]. simpl. by rewrite IH.
Qed.

(** observing never loses standing.  A later observation of the same market
    keeps the token's stage and never drops its qualification or scores; an
    observation older than the recorded slot changes no token; an observation
    of a different market starts over at [Observed]; and other mints are not
    touched. *)
Theorem observe_preserves_standing p t p' :
  projection_reachable p -> observe p t = Ok p' ->
  dt_stage t = Observed /\
  (forall mint, mint <> dt_mint t -> bt_get mint (p_tokens p') = bt_get mint (p_tokens p)) /\
  match bt_get (dt_mint t) (p_tokens p) with
  | None => bt_get (dt_mint t) (p_tokens p') = Some t
  | Some old =>
      exists new, bt_get (dt_mint t) (p_tokens p') = Some new /\
      if dt_observed_slot old >? dt_observed_slot t then new = old
      else if same_market old t then
        dt_stage new = dt_stage old /\
        (is_Some (dt_qualification old) -> is_Some (dt_qualification new)) /\
        (is_Some (dt_risk_score old) -> is_Some (dt_risk_score new)) /\
        (is_Some (dt_opportunity_score old) -> is_Some (dt_opportunity_score new))
      else new = t
  end.
Proof.
  intros [W T RW R S A Q]%projection_reachable_ok Ho. unfold observe in Ho.
  apply bind_Ok in Ho as ([] & Hv & Ho). apply bind_Ok in Ho as ([] & Hst & Ho).
  destruct (bool_decide_reflect (dt_stage t = Observed)) as [Hst'|]; [clear Hst|done].
  split; [done|]. destruct (bt_get (dt_mint t) (p_tokens p)) as [old|] eqn:Eg.
  - destruct (dt_observed_slot old >? dt_observed_slot t); injection Ho as <-; simpl.
    { split; [done|]. exists old. done. }
    set (t' := if same_market old t then _ else t).
    assert (dt_mint t' = dt_mint t) as Hm by (subst t'; by destruct (same_market old t)).
    rewrite Hm. split; [intros mint Hne; by apply bt_get_insert_ne|].
    exists t'. split; [apply bt_get_insert_eq|]. subst t'.
    destruct (same_market old t); [|done]. unfold with_stage, opt_or, is_approved, is_qualified; simpl.
    split_and!.
    + by destruct (dt_stage old).
    + by destruct (dt_qualification t).
    + by destruct (dt_risk_score t).
    + by destruct (dt_opportunity_score t).
  - injection Ho as <-; simpl. split; [intros mint Hne; by apply bt_get_insert_ne|].
    apply bt_get_insert_eq.
Qed.

(** *** Restoring untrusted snapshots *)
Lemma restore_tokens_sound mode m a q l m' a' q' :
  bt_wf m -> 0 <= a -> 0 <= q -> a + Z.of_nat (length l) <= u64_max -> q + Z.of_nat (length l) <= u64_max ->
  restore_tokens mode m a q l = Ok (m', a', q') ->
  bt_wf m' /\ a' - a = count_tokens is_approved m' - count_tokens is_approved m /\
  q' - q = count_tokens is_qualified m' - count_tokens is_qualified m /\
  bt_values m' ≡ₚ bt_values m ++ l /\
  (forall k t, bt_get k m' = Some t -> bt_get k m = Some t \/
     dt_mint t = k /\ validate_token t = Ok tt /\ token_is_visible mode (dt_stage t) = true).
Proof.
  revert m a q. induction l as [|t l IH]; intros m a q Hwf Ha Hq Hsa Hsq Hr.
  { injection Hr as <- <- <-. rewrite app_nil_r. split_and!; auto; lia. }
  cbn [restore_tokens] in Hr. apply bind_Ok in Hr as ([] & Hv & Hr).
  apply bind_Ok in Hr as ([] & Hvis & Hr).
  destruct (token_is_visible mode (dt_stage t)) eqn:Ev; [|done]. clear Hvis.
  destruct (bt_get (dt_mint t) m) as [|] eqn:Eg; [done|]. cbn [length] in Hsa, Hsq.
  assert (forall f n, n + Z.of_nat (S (length l)) <= u64_max -> 0 <= n -> incr (f t) n = n + one_if f t) as Hincr.
  { intros f n Hn H0. unfold incr, one_if, saturating_add_u. destruct (f t); lia. }
  rewrite !Hincr in Hr by lia.
  assert (forall f, 0 <= one_if f t <= 1) as Hone by (intros f; unfold one_if; destruct (f t); lia).
  pose proof (Hone is_approved). pose proof (Hone is_qualified).
  apply IH in Hr as (Hwf' & Ha' & Hq' & Hp & Hg); [|by apply bt_wf_insert|lia..].
  rewrite count_new in Ha', Hq' by done. split_and!; [done|lia|lia| |].
  - rewrite Hp. unfold bt_values. rewrite (bt_insert_perm _ _ _ Hwf), bt_remove_None by done.
    simpl. by rewrite Permutation_middle.
  - intros k t' Hk. destruct (Hg _ _ Hk) as [Hin|?]; [|by right].
    destruct (decide (k = dt_mint t)) as [->|Hne].
    + rewrite bt_get_insert_eq in Hin. right. by simplify_eq.
    + rewrite bt_get_insert_ne in Hin by done. by left.
Qed.

Lemma restore_reasons_sound m l m' :
  bt_wf m -> restore_reasons m l = Ok m' ->
  bt_wf m' /\ bt_values m' ≡ₚ bt_values m ++ l.
Proof.
  revert m. induction l as [|s l IH]; intros m Hwf Hr.
  { injection Hr as <-. by rewrite app_nil_r. }
  cbn [restore_reasons] in Hr. apply bind_Ok in Hr as ([] & _ & Hr).
  apply bind_Ok in Hr as ([] & _ & Hr).
  destruct (bt_get (rj_reason_code s) m) eqn:Eg; [done|].
  apply IH in Hr as [Hwf' Hp]; [|by apply bt_wf_insert]. split; [done|].
  rewrite Hp. unfold bt_values. rewrite (bt_insert_perm _ _ _ Hwf), bt_remove_None by done.
  simpl. by rewrite Permutation_middle.
Qed.

(** an accepted snapshot is trustworthy.  A restored projection holds
    exactly the snapshot's tokens and rejection summaries, each token valid,
    visible in the snapshot's mode and filed under its own mint, and the
    counters equal the numbers of its tokens (the qualified one except in
    [ApprovedOnly], whose snapshots hide qualified tokens). *)
Theorem restore_is_sound s p :
  Z.of_nat (length (ds_tokens s)) <= u64_max ->
  try_from_snapshot s = Ok p ->
  ds_tokens_truncated s = false /\
  bt_values (p_tokens p) ≡ₚ ds_tokens s /\
  bt_values (p_rejection_reasons p) ≡ₚ ds_rejection_reasons s /\
  p_counters p = ds_counters s /\ p_mode p = ds_mode s /\ p_sequence p = ds_sequence s /\
  (forall k t, bt_get k (p_tokens p) = Some t ->
     dt_mint t = k /\ validate_token t = Ok tt /\ token_is_visible (ds_mode s) (dt_stage t) = true) /\
  dc_approved (ds_counters s) = count_tokens is_approved (p_tokens p) /\
  (ds_mode s <> ApprovedOnly ->
     dc_qualified (ds_counters s) = count_tokens is_qualified (p_tokens p)).
Proof.
  intros Hlen Hr. unfold try_from_snapshot in Hr.
  apply bind_Ok in Hr as ([] & Htr & Hr). destruct (ds_tokens_truncated s); [done|].
  apply bind_Ok in Hr as ([[ts a] q] & Hts & Hr).
  apply restore_tokens_sound in Hts as (Hwf & Ha & Hq & Hp & Hg); [|constructor|lia..].
  change (count_tokens is_approved []) with 0 in Ha.
  change (count_tokens is_qualified []) with 0 in Hq.
  apply bind_Ok in Hr as ([] & Hca & Hr). apply bind_Ok in Hr as ([] & Hcq & Hr).
  apply bind_Ok in Hr as (rs & Hrs & Hr). injection Hr as <-. cbn [p_tokens p_rejection_reasons
    p_counters p_mode p_sequence].
  apply restore_reasons_sound in Hrs as [_ Hrs]; [|constructor].
  destruct (Z.eqb_spec a (dc_approved (ds_counters s))) as [<-|]; [|done].
  split_and!; try done.
  - intros k t Hk. destruct (Hg _ _ Hk) as [?|?]; [done|done].
  - lia.
  - intros Hm. rewrite bool_decide_eq_false_2 in Hcq by done. simpl in Hcq.
    destruct (Z.eqb_spec q (dc_qualified (ds_counters s))) as [<-|]; [lia|done].
Qed.

(** ** A concrete history *)
Module SampleProjection.
Definition token (stage : DiscoveryStage) : DiscoveryToken := {|
  dt_mint := "mint"; dt_name := None; dt_symbol := None; dt_primary_venue := PumpBondingCurve;
  dt_market_address := "curve"; dt_quote_mint := None; dt_source_program := Pump;
  dt_stage := stage; dt_last_event_kind := "TRADE"; dt_observed_slot := 5;
  dt_first_observed_unix_ms := 1; dt_last_observed_unix_ms := 2; dt_latest_signature := "sig";
  dt_activity := {| da_trades := 2; da_buys := 1; da_sells := 1; da_unique_traders := 2;
                    da_base_volume_units := "10"; da_quote_volume_units := "20" |};
  dt_qualification := None; dt_risk_score := None; dt_opportunity_score := None |}.

Definition get (r : result ProjectionError DiscoveryProjection) : DiscoveryProjection :=
  match r with Ok p => p | Err _ => projection_default end.
Definition observed : DiscoveryProjection := get (observe projection_default (token Observed)).
Definition qualified : DiscoveryProjection := get (qualify observed (token Qualified)).
Definition approved : DiscoveryProjection := get (approve qualified (token Approved)).
Definition requalified : DiscoveryProjection := get (qualify approved (token Qualified)).

Lemma observed_reachable : reachable_without_requalifying observed.
Proof. eapply rtc_once. exists (OpObserve (token Observed)). split_and!; vm_compute; reflexivity. Defined.
Lemma approved_reachable : reachable_without_requalifying approved.
Proof.
  eapply rtc_r; [eapply rtc_r; [apply observed_reachable|]|].
  - exists (OpQualify (token Qualified)). split_and!; vm_compute; reflexivity.
  - exists (OpApprove (token Approved)). split_and!; vm_compute; reflexivity.
Defined.
Lemma requalified_reachable : projection_reachable requalified.
Proof.
  eapply rtc_r; [apply careful_reachable, approved_reachable|].
  exists (OpQualify (token Qualified)). split; vm_compute; reflexivity.
Defined.
End SampleProjection.

(** C31: re-qualifying an approved token corrupts the approved counter.  From a
    projection reached without any such call, [qualify] accepts a new qualification
    of a token that is already approved, replaces it by a qualified one, but leaves
    [counters.approved] as it was; the projection then refuses its own
    snapshot. *)
Theorem requalifying_approved_breaks_restore :
  exists p t p', reachable_without_requalifying p /\ projection_reachable p /\ qualify p t = Ok p' /\
    dc_approved (p_counters p') = 1 /\ count_tokens is_approved (p_tokens p') = 0 /\
    try_from_snapshot (snapshot p') = Err ApprovedCounterMismatch.
Proof.
  exists SampleProjection.approved, (SampleProjection.token Qualified), SampleProjection.requalified.
  split; [apply SampleProjection.approved_reachable|].
  split; [apply careful_reachable, SampleProjection.approved_reachable|].
  split; [reflexivity|]. vm_compute. auto.
Qed.

Lemma projection_counters_exact_witness :
  dc_approved (p_counters SampleProjection.approved) = 1 /\
  dc_approved (p_counters SampleProjection.approved) =
    count_tokens is_approved (p_tokens SampleProjection.approved).
Proof.
  split; [reflexivity|].
  apply (projection_counters_exact _ SampleProjection.approved_reachable).
Defined.

Lemma projection_snapshot_roundtrip_witness :
  try_from_snapshot (snapshot SampleProjection.approved) = Ok (visible_part SampleProjection.approved) /\
  try_from_snapshot (snapshot SampleProjection.requalified) = Err ApprovedCounterMismatch.
Proof.
  split.
  - apply (projection_snapshot_roundtrip SampleProjection.approved); [apply careful_reachable|];
      apply SampleProjection.approved_reachable.
  - exact (proj1 (projection_snapshot_roundtrip _ SampleProjection.requalified_reachable)).
Defined.

Lemma observe_preserves_standing_witness :
  exists p', observe SampleProjection.approved (SampleProjection.token Observed) = Ok p' /\
    exists new, bt_get "mint"%string (p_tokens p') = Some new /\ dt_stage new = Approved.
Proof.
  eexists. split; [reflexivity|].
  edestruct (observe_preserves_standing SampleProjection.approved (SampleProjection.token Observed))
    as (_ & _ & H); [apply careful_reachable, SampleProjection.approved_reachable|reflexivity|].
  destruct H as (new & Hnew & Hst). exists new. split; [exact Hnew|]. exact (proj1 Hst).
Defined.

Lemma restore_is_sound_witness :
  exists p, try_from_snapshot (snapshot SampleProjection.approved) = Ok p /\
    p_sequence p = ds_sequence (snapshot SampleProjection.approved).
Proof.
  eexists. split; [reflexivity|].
  eapply (restore_is_sound (snapshot SampleProjection.approved)); [vm_compute; congruence|reflexivity].
Defined.
