(* ===== verification/PersistenceModel.v ===== *)
(** The pure part of [crates/persistence]: the value encodings of [values.rs],
    the quarantine records of [quarantine.rs], and the window records of
    [discovery_windows.rs] with everything that is checked about them outside
    the database.  [XE] stands for the errors of the database driver, [JE] for
    those of the JSON library. *)
From S2P Require Import Prelude.
From S2P Require Import RustStr.
From S2P Require Import Domain.
From S2P Require Import External.
From S2P Require Import SnapshotArith.
From S2P Require Import Snapshot.
From S2P Require Import Qualification.
From S2P Require Import ApiContracts.

(** ** Errors *)
Inductive PersistenceError {XE JE : Type} :=
| PeDatabase (e : XE)
| PeMigration (e : XE)
| PeSerialization (e : JE)
| PeNetworkMismatch
| PeObservationEvidenceConflict (network source_program signature_ : string)
    (instruction_index_ event_index_ : Z)
| PeDatabaseNetworkMismatch (bound requested : Network)
| PeValueOutOfRange (field : string)
| PeEmptyField (field : string)
| PeMustBePositive (field : string)
| PeLimitTooLarge (field : string) (maximum : Z)
| PeInvalidPrefilterDefaults (e : PrefilterDefaultsValidationError)
| PePrefilterDefaultsRevisionConflict (expected : Z) (actual : option Z)
| PeInvalidQualificationDefaults (e : QualificationDefaultsValidationError)
| PeInvalidDiscoveryWindowSnapshot (e : SnapshotError)
| PeInvalidQualificationPolicy (e : QualificationPolicyError)
| PeQualificationDefaultsRevisionConflict (expected : Z) (actual : option Z)
| PeInvalidBase64 (field : string)
| PeFieldTooLong (field : string) (maximum : Z)
| PeWorkLeaseLost (work_id : Z) (worker_id : string)
| PeDiscoveryOutcomeRequired (work_id : Z)
| PeUnexpectedWorkKind (work_id : Z) (expected actual : string)
| PeInvalidStoredValue (field value : string)
| PeDiscoverySourceMismatch (field : string)
| PeObservationMustBeUnapproved
| PeApprovalMustBeExplicit
| PeCandidateNotObserved (mint : string)
| PeCandidateNotQualified (mint : string)
| PeInvalidActivityTotals
| PeInvalidUnsignedDecimal (field : string)
| PeScreeningDecisionMismatch
| PeEmptyPassingRules
| PeScreeningRunConflict (work_id : Z)
| PeInvalidDiscoveryWindowBounds
| PeDiscoveryWindowIdentityConflict (window_id : Z)
| PeDiscoveryWindowObservationMismatch (window_id : Z) (field : string)
| PeDiscoveryWindowNotActive (window_id : Z)
| PeDiscoveryWindowFinalizationConflict (window_id : Z)
| PeDiscoveryWindowFinalizationEvidenceMismatch (window_id : Z)
| PeDiscoveryWindowEvidenceChanged (window_id : Z)
| PeDiscoveryWindowProjectionMissing (window_id : Z)
| PeIdenticalPoolMints
| PePumpSwapPoolIdentityConflict (pool_address : string)
| PeInvalidGapResolution.
#[global] Arguments PersistenceError : clear implicits.

Section Values.
Context {XE JE : Type}.
Abbreviation persistence A := (result (PersistenceError XE JE) A).

(** ** [values.rs] *)
Definition to_i64 (value : Z) (field : string) : persistence Z :=
  ok_or (try_from_s 64 value) (PeValueOutOfRange field).
Definition to_u64 (value : Z) (field : string) : persistence Z :=
  ok_or (try_from_u 64 value) (PeInvalidStoredValue field (dec value)).
Definition duration_millis (duration_ms : Z) (field : string) (allow_zero : bool) : persistence Z :=
  if negb allow_zero && (duration_ms =? 0) then Err (PeMustBePositive field)
  else ok_or (try_from_s 64 duration_ms) (PeValueOutOfRange field).
Definition require_non_empty (value field : string) : persistence unit :=
  guard_err (is_empty (trim value)) (PeEmptyField field).

Definition network_name (n : Network) : string :=
  match n with SolanaMainnet => "SOLANA_MAINNET" | SolanaDevnet => "SOLANA_DEVNET" end.
Definition parse_network (value : string) : persistence Network :=
  if String.eqb value "SOLANA_MAINNET" then Ok SolanaMainnet
  else if String.eqb value "SOLANA_DEVNET" then Ok SolanaDevnet
  else Err (PeInvalidStoredValue "network" value).

Definition source_program_name (p : SourceProgram) : string :=
  match p with
  | Pump => "PUMP" | PumpSwap => "PUMP_SWAP" | RaydiumCpmm => "RAYDIUM_CPMM"
  | RaydiumClmm => "RAYDIUM_CLMM" | RaydiumAmmV4 => "RAYDIUM_AMM_V4"
  end.
Definition parse_source_program (value : string) : persistence SourceProgram :=
  if String.eqb value "PUMP" then Ok Pump
  else if String.eqb value "PUMP_SWAP" then Ok PumpSwap
  else if String.eqb value "RAYDIUM_CPMM" then Ok RaydiumCpmm
  else if String.eqb value "RAYDIUM_CLMM" then Ok RaydiumClmm
  else if String.eqb value "RAYDIUM_AMM_V4" then Ok RaydiumAmmV4
  else Err (PeInvalidStoredValue "source_program" value).

Definition venue_name (v : Venue) : string :=
  match v with
  | PumpBondingCurve => "PUMP_BONDING_CURVE" | PumpSwapVenue => "PUMP_SWAP"
  | RaydiumCpmmVenue => "RAYDIUM_CPMM" | RaydiumClmmVenue => "RAYDIUM_CLMM"
  | RaydiumAmmV4Venue => "RAYDIUM_AMM_V4"
  end.
Definition parse_venue (value : string) : persistence Venue :=
  if String.eqb value "PUMP_BONDING_CURVE" then Ok PumpBondingCurve
  else if String.eqb value "PUMP_SWAP" then Ok PumpSwapVenue
  else if String.eqb value "RAYDIUM_CPMM" then Ok RaydiumCpmmVenue
  else if String.eqb value "RAYDIUM_CLMM" then Ok RaydiumClmmVenue
  else if String.eqb value "RAYDIUM_AMM_V4" then Ok RaydiumAmmV4Venue
  else Err (PeInvalidStoredValue "venue" value).

Definition assessment_decision_name (d : AssessmentDecision) : string :=
  match d with Pass => "PASS" | Reject => "REJECT" | Unknown => "UNKNOWN" end.
Definition discovery_stage_name (s : DiscoveryStage) : string :=
  match s with Observed => "OBSERVED" | Qualified => "QUALIFIED" | Approved => "APPROVED" end.

(** ** [quarantine.rs] *)
Definition MAX_QUARANTINE_EVIDENCE_BASE64_BYTES : Z := 16384.
Definition MAX_DECODER_VERSION_BYTES : Z := 128.
Definition MAX_REASON_CODE_BYTES : Z := 128.
Definition MAX_REASON_DETAIL_BYTES : Z := 2048.

Record IntakeQuarantineRecord := {
  iq_key : ObservationKey;
  iq_decoder_version : string;
  iq_reason_code : string;
  iq_reason_detail : string;
  iq_evidence_base64 : string;
}.

Definition validate_length (value field : string) (maximum : Z) : persistence unit :=
  guard_err (Z.of_nat (String.length value) >? maximum) (PeFieldTooLong field maximum).

Definition validate_evidence_base64 {B64 : Base64} (value field : string) : persistence unit :=
  _ ← require_non_empty value field;
  _ ← validate_length value field MAX_QUARANTINE_EVIDENCE_BASE64_BYTES;
  match base64_decode value with Ok _ => Ok tt | Err _ => Err (PeInvalidBase64 field) end.

Definition validate_record {B64 : Base64} (r : IntakeQuarantineRecord) : persistence unit :=
  _ ← require_non_empty (signature (coordinate (iq_key r))) "quarantine signature";
  _ ← require_non_empty (iq_decoder_version r) "decoder_version";
  _ ← require_non_empty (iq_reason_code r) "reason_code";
  _ ← require_non_empty (iq_evidence_base64 r) "evidence_base64";
  _ ← validate_length (iq_decoder_version r) "decoder_version" MAX_DECODER_VERSION_BYTES;
  _ ← validate_length (iq_reason_code r) "reason_code" MAX_REASON_CODE_BYTES;
  _ ← validate_length (iq_reason_detail r) "reason_detail" MAX_REASON_DETAIL_BYTES;
  _ ← validate_length (iq_evidence_base64 r) "evidence_base64" MAX_QUARANTINE_EVIDENCE_BASE64_BYTES;
  validate_evidence_base64 (iq_evidence_base64 r) "evidence_base64".

(** ** [discovery_windows.rs] *)
Inductive WindowTargetKind := TargetPumpMint | TargetPumpSwapPool.
#[export] Instance WindowTargetKind_eq_dec : EqDecision WindowTargetKind.
Proof. solve_decision. Defined.
Definition database_name (k : WindowTargetKind) : string :=
  match k with TargetPumpMint => "PUMP_MINT" | TargetPumpSwapPool => "PUMP_SWAP_POOL" end.

Record StoredQualificationDefaults := { sq_values : QualificationDefaults; sq_revision : Z }.

Record NewDiscoveryWindow := {
  nw_target_kind : WindowTargetKind;
  nw_target_address : string;
  nw_opened_at_unix_ms : Z;
  nw_closes_at_unix_ms : Z;
  nw_collector_run_id : string;
  nw_prefilter_revision : Z;
  nw_prefilter_values : PrefilterDefaults;
  nw_qualification : StoredQualificationDefaults;
}.

Record OpenedDiscoveryWindow := {
  od_window_id : Z;
  od_observation_inserted : bool;
  od_window_created : bool;
  od_replayed : bool;
}.

(** [crates/persistence/src/pump_swap.rs]. *)
Record StoredPumpSwapPool := {
  pp_network : Network;
  pp_pool_address : string;
  pp_base_mint : string;
  pp_quote_mint : string;
  pp_observed_slot : Z;
  pp_observed_signature : string;
}.

Definition opening_target_matches {J} (observation : NormalizedObservation J)
    (w : NewDiscoveryWindow) : bool :=
  let m := market observation in
  if String.eqb (event_kind observation) "CREATE" then
    bool_decide (ok_program (key observation) = Pump) &&
    bool_decide (mi_venue m = PumpBondingCurve) &&
    bool_decide (nw_target_kind w = TargetPumpMint) &&
    String.eqb (nw_target_address w) (mi_mint m)
  else if String.eqb (event_kind observation) "CREATE_POOL" then
    bool_decide (ok_program (key observation) = PumpSwap) &&
    bool_decide (mi_venue m = PumpSwapVenue) &&
    bool_decide (nw_target_kind w = TargetPumpSwapPool) &&
    String.eqb (nw_target_address w) (mi_market_address m)
  else false.

Definition validate_new_window {J} (observation : NormalizedObservation J) (w : NewDiscoveryWindow)
    : persistence unit :=
  _ ← guard_err (nw_closes_at_unix_ms w <=? nw_opened_at_unix_ms w) PeInvalidDiscoveryWindowBounds;
  _ ← guard_err (is_empty (trim (nw_target_address w))) (PeEmptyField "window target_address");
  _ ← guard_err (is_empty (trim (nw_collector_run_id w))) (PeEmptyField "collector_run_id");
  _ ← guard_err (negb (opening_target_matches observation w))
        (PeDiscoveryWindowObservationMismatch 0 "opening target");
  guard_err (negb (received_time_unix_ms observation =? nw_opened_at_unix_ms w))
    (PeDiscoveryWindowObservationMismatch 0 "opened_at_unix_ms").
End Values.

Lemma parse_network_name {XE JE} n : parse_network (XE:=XE) (JE:=JE) (network_name n) = Ok n.
Proof. by destruct n. Qed.
