(* ===== verification/SettingsStore.v ===== *)
(** [crates/persistence/src/prefilter_defaults.rs] and
    [qualification_defaults.rs]: the two settings with their revisions.

    The prefilter settings are one row replaced under an optimistic check of its
    revision; the qualification settings are an append-only table of revisions
    with a pointer to the current one.  Each statement or transaction is one
    step on the tables; between two of them the tables are what other clients
    left ([others]).  A failing step writes nothing but the sequence, which is
    never rolled back. *)
From S2P Require Import Prelude.
From S2P Require Import Stateful.
From S2P Require Import RustStr.
From S2P Require Import Decimal.
From S2P Require Import ApiContracts.
From S2P Require Import PersistenceModel.

(** ** The tables *)
Record PrefilterDefaultsRow := {
  pr_revision : Z; pr_max_event_age_ms : Z; pr_observation_window_ms : Z; pr_max_active_windows : Z;
  pr_rpc_requests_per_second : Z; pr_rpc_max_in_flight : Z; pr_rpc_request_timeout_ms : Z;
  pr_rpc_rate_limit_cooldown_ms : Z;
}.
Record QualificationDefaultsRow := {
  qr_minimum_trades : Z; qr_minimum_unique_traders : Z; qr_minimum_buys : Z; qr_minimum_sells : Z;
  (** The text of the two [NUMERIC] columns. *)
  qr_minimum_native_quote_volume_units : string; qr_minimum_stable_quote_volume_units : string;
  qr_maximum_single_wallet_quote_share_bps : Z;
}.
Record SettingsDb := {
  (** [prefilter_defaults]. *)
  sd_prefilter : option PrefilterDefaultsRow;
  (** [qualification_defaults_revisions] with its sequence, and
      [qualification_defaults_current]. *)
  sd_next_revision : Z;
  sd_revisions : gmap Z QualificationDefaultsRow;
  sd_current : option Z;
}.

Record StoredPrefilterDefaults := { sp_values : PrefilterDefaults; sp_revision : Z }.

Definition set_prefilter (row : PrefilterDefaultsRow) (db : SettingsDb) : SettingsDb := {|
  sd_prefilter := Some row; sd_next_revision := sd_next_revision db; sd_revisions := sd_revisions db;
  sd_current := sd_current db |}.
Definition append_revision (revision : Z) (row : QualificationDefaultsRow) (db : SettingsDb) : SettingsDb := {|
  sd_prefilter := sd_prefilter db; sd_next_revision := revision + 1;
  sd_revisions := <[revision := row]> (sd_revisions db); sd_current := sd_current db |}.
Definition set_current (revision : Z) (db : SettingsDb) : SettingsDb := {|
  sd_prefilter := sd_prefilter db; sd_next_revision := sd_next_revision db; sd_revisions := sd_revisions db;
  sd_current := Some revision |}.

Section Store.
Context {XE JE : Type}.
(** The driver's [RowNotFound], and the server's out-of-range error of a
    [BIGINT]. *)
Context (row_not_found out_of_range : XE).
Abbreviation persistence A := (result (PersistenceError XE JE) A).
Abbreviation SettingsM := (stateful SettingsDb (PersistenceError XE JE)).

(** Both files declare it. *)
Definition to_u32 (value : Z) (field : string) : persistence Z :=
  ok_or (try_from_u 32 value) (PeInvalidStoredValue field (dec value)).

(** ** [prefilter_defaults.rs] *)
Definition prefilter_of_row (row : PrefilterDefaultsRow) : persistence StoredPrefilterDefaults :=
  max_event_age_ms ← to_u64 (pr_max_event_age_ms row) "prefilter_defaults.max_event_age_ms";
  observation_window_ms ← to_u64 (pr_observation_window_ms row) "prefilter_defaults.observation_window_ms";
  max_active_windows ← to_u32 (pr_max_active_windows row) "prefilter_defaults.max_active_windows";
  rpc_requests_per_second ← to_u32 (pr_rpc_requests_per_second row) "prefilter_defaults.rpc_requests_per_second";
  rpc_max_in_flight ← to_u32 (pr_rpc_max_in_flight row) "prefilter_defaults.rpc_max_in_flight";
  rpc_request_timeout_ms ← to_u64 (pr_rpc_request_timeout_ms row) "prefilter_defaults.rpc_request_timeout_ms";
  rpc_rate_limit_cooldown_ms ← to_u64 (pr_rpc_rate_limit_cooldown_ms row)
    "prefilter_defaults.rpc_rate_limit_cooldown_ms";
  let values := {|
    pd_max_event_age_ms := max_event_age_ms; pd_observation_window_ms := observation_window_ms;
    pd_max_active_windows := max_active_windows; pd_rpc_requests_per_second := rpc_requests_per_second;
    pd_rpc_max_in_flight := rpc_max_in_flight; pd_rpc_request_timeout_ms := rpc_request_timeout_ms;
    pd_rpc_rate_limit_cooldown_ms := rpc_rate_limit_cooldown_ms |} in
  _ ← map_err PeInvalidPrefilterDefaults (prefilter_validate values);
  revision ← to_u64 (pr_revision row) "prefilter_defaults.revision";
  Ok {| sp_values := values; sp_revision := revision |}.

(** The values bound to the columns. *)
Definition prefilter_row (revision : Z) (v : PrefilterDefaults) : persistence PrefilterDefaultsRow :=
  max_event_age_ms ← to_i64 (pd_max_event_age_ms v) "max_event_age_ms";
  observation_window_ms ← to_i64 (pd_observation_window_ms v) "observation_window_ms";
  rpc_request_timeout_ms ← to_i64 (pd_rpc_request_timeout_ms v) "rpc_request_timeout_ms";
  rpc_rate_limit_cooldown_ms ← to_i64 (pd_rpc_rate_limit_cooldown_ms v) "rpc_rate_limit_cooldown_ms";
  Ok {| pr_revision := revision; pr_max_event_age_ms := max_event_age_ms;
        pr_observation_window_ms := observation_window_ms; pr_max_active_windows := pd_max_active_windows v;
        pr_rpc_requests_per_second := pd_rpc_requests_per_second v;
        pr_rpc_max_in_flight := pd_rpc_max_in_flight v; pr_rpc_request_timeout_ms := rpc_request_timeout_ms;
        pr_rpc_rate_limit_cooldown_ms := rpc_rate_limit_cooldown_ms |}.

Definition load_prefilter_defaults : SettingsM StoredPrefilterDefaults :=
  row ← read_state sd_prefilter;
  row ← st_lift (ok_or row (PeDatabase row_not_found));
  st_lift (prefilter_of_row row).

(** [INSERT .. ON CONFLICT (singleton) DO NOTHING]. *)
Definition insert_prefilter (row : PrefilterDefaultsRow) (db : SettingsDb) : SettingsDb :=
  match sd_prefilter db with None => set_prefilter row db | Some _ => db end.
Definition seed_prefilter_defaults (values : PrefilterDefaults) : SettingsM unit :=
  _ ← st_lift (map_err PeInvalidPrefilterDefaults (prefilter_validate values));
  row ← st_lift (prefilter_row 1 values);
  modify_state (insert_prefilter row).
Definition initialize_prefilter_defaults (others : SettingsDb -> SettingsDb) (values : PrefilterDefaults)
    : SettingsM StoredPrefilterDefaults :=
  _ ← seed_prefilter_defaults values;
  _ ← modify_state others;
  load_prefilter_defaults.

(** The [UPDATE .. WHERE revision = $1 RETURNING ..]. *)
Definition replace_prefilter (expected : Z) (row : PrefilterDefaultsRow) : SettingsM (option PrefilterDefaultsRow) :=
  fun db =>
  match sd_prefilter db with
  | Some stored =>
      if pr_revision stored =? expected then
        if in_sintb 64 (pr_revision stored + 1) then (Ok (Some row), set_prefilter row db)
        else (Err (PeDatabase out_of_range), db)
      else (Ok None, db)
  | None => (Ok None, db)
  end.
Definition prefilter_conflict (expected : Z) : SettingsM StoredPrefilterDefaults :=
  stored ← read_state sd_prefilter;
  actual ← st_lift (match stored with
                    | Some row => Some <$> to_u64 (pr_revision row) "prefilter_defaults.revision"
                    | None => Ok None
                    end);
  expected ← st_lift (to_u64 expected "prefilter expected_revision");
  st_fail (PePrefilterDefaultsRevisionConflict expected actual).
(** The update statement with what precedes it. *)
Definition try_update_prefilter (expected_revision : Z) (values : PrefilterDefaults)
    : SettingsM (Z * option PrefilterDefaultsRow) :=
  _ ← st_lift (guard_err (expected_revision =? 0) (PeMustBePositive "prefilter expected_revision"));
  _ ← st_lift (map_err PeInvalidPrefilterDefaults (prefilter_validate values));
  expected ← st_lift (to_i64 expected_revision "prefilter expected_revision");
  row ← st_lift (prefilter_row (expected + 1) values);
  updated ← replace_prefilter expected row;
  mret (expected, updated).
Definition update_prefilter_defaults (others : SettingsDb -> SettingsDb) (expected_revision : Z)
    (values : PrefilterDefaults) : SettingsM StoredPrefilterDefaults :=
  '(expected, updated) ← try_update_prefilter expected_revision values;
  match updated with
  | Some row => st_lift (prefilter_of_row row)
  | None => _ ← modify_state others; prefilter_conflict expected
  end.

(** ** [qualification_defaults.rs] *)
Definition parse_u64_decimal (value field : string) : persistence Z :=
  ok_or (parse_uint 64 value) (PeInvalidStoredValue field value).

Definition qualification_of_row (revision : Z) (row : QualificationDefaultsRow)
    : persistence StoredQualificationDefaults :=
  minimum_trades ← to_u32 (qr_minimum_trades row) "minimum_trades";
  minimum_unique_traders ← to_u32 (qr_minimum_unique_traders row) "minimum_unique_traders";
  minimum_buys ← to_u32 (qr_minimum_buys row) "minimum_buys";
  minimum_sells ← to_u32 (qr_minimum_sells row) "minimum_sells";
  native ← parse_u64_decimal (qr_minimum_native_quote_volume_units row) "minimum_native_quote_volume_units";
  stable ← parse_u64_decimal (qr_minimum_stable_quote_volume_units row) "minimum_stable_quote_volume_units";
  share ← ok_or (try_from_u 16 (qr_maximum_single_wallet_quote_share_bps row))
    (PeInvalidStoredValue "maximum_single_wallet_quote_share_bps"
       (dec (qr_maximum_single_wallet_quote_share_bps row)));
  let values := {|
    qd_minimum_trades := minimum_trades; qd_minimum_unique_traders := minimum_unique_traders;
    qd_minimum_buys := minimum_buys; qd_minimum_sells := minimum_sells;
    qd_minimum_native_quote_volume_units := native; qd_minimum_stable_quote_volume_units := stable;
    qd_maximum_single_wallet_quote_share_bps := share |} in
  _ ← map_err PeInvalidQualificationDefaults (qualification_validate values);
  revision ← to_u64 revision "qualification_defaults.revision";
  Ok {| sq_values := values; sq_revision := revision |}.

Definition qualification_row (v : QualificationDefaults) : QualificationDefaultsRow := {|
  qr_minimum_trades := qd_minimum_trades v; qr_minimum_unique_traders := qd_minimum_unique_traders v;
  qr_minimum_buys := qd_minimum_buys v; qr_minimum_sells := qd_minimum_sells v;
  qr_minimum_native_quote_volume_units := dec (qd_minimum_native_quote_volume_units v);
  qr_minimum_stable_quote_volume_units := dec (qd_minimum_stable_quote_volume_units v);
  qr_maximum_single_wallet_quote_share_bps := qd_maximum_single_wallet_quote_share_bps v |}.

(** The next value of the sequence and the row under it. *)
Definition insert_revision (values : QualificationDefaults) : SettingsM Z := fun db =>
  let revision := sd_next_revision db in
  if in_sintb 64 revision then (Ok revision, append_revision revision (qualification_row values) db)
  else (Err (PeDatabase out_of_range), db).

(** [load_current]: the current revision joined with its row. *)
Definition load_qualification_defaults : SettingsM StoredQualificationDefaults :=
  joined ← read_state (fun db => revision ← sd_current db; row ← sd_revisions db !! revision; Some (revision, row));
  '(revision, row) ← st_lift (ok_or joined (PeDatabase row_not_found));
  st_lift (qualification_of_row revision row).

Definition seed_qualification_defaults (values : QualificationDefaults) : SettingsM unit :=
  _ ← st_lift (map_err PeInvalidQualificationDefaults (qualification_validate values));
  current ← read_state sd_current;
  match current with
  | Some _ => mret tt
  | None => revision ← insert_revision values; modify_state (set_current revision)
  end.
Definition initialize_qualification_defaults (others : SettingsDb -> SettingsDb) (values : QualificationDefaults)
    : SettingsM StoredQualificationDefaults :=
  _ ← seed_qualification_defaults values;
  _ ← modify_state others;
  load_qualification_defaults.

(** The transaction of the update: the new revision. *)
Definition commit_qualification_update (expected_revision : Z) (values : QualificationDefaults) : SettingsM Z :=
  _ ← st_lift (guard_err (expected_revision =? 0) (PeMustBePositive "qualification expected_revision"));
  _ ← st_lift (map_err PeInvalidQualificationDefaults (qualification_validate values));
  expected ← st_lift (to_i64 expected_revision "qualification expected_revision");
  actual ← read_state sd_current;
  if bool_decide (actual = Some expected) then
    revision ← insert_revision values;
    _ ← modify_state (set_current revision);
    mret revision
  else
    actual ← st_lift (match actual with
                      | Some revision => Some <$> to_u64 revision "qualification_defaults_current.revision"
                      | None => Ok None
                      end);
    st_fail (PeQualificationDefaultsRevisionConflict expected_revision actual).
Definition update_qualification_defaults (others : SettingsDb -> SettingsDb) (expected_revision : Z)
    (values : QualificationDefaults) : SettingsM StoredQualificationDefaults :=
  _ ← commit_qualification_update expected_revision values;
  _ ← modify_state others;
  load_qualification_defaults.
End Store.

(** ** Histories *)
Inductive SettingsOp :=
| SeedPrefilter (values : PrefilterDefaults)
| UpdatePrefilter (expected : Z) (values : PrefilterDefaults)
| SeedQualification (values : QualificationDefaults)
| UpdateQualification (expected : Z) (values : QualificationDefaults).

(** What was accepted: the first values and then, for each accepted update, the
    revision it was made on and its values; for the qualification settings also
    the revision it created. *)
Record SettingsLog := {
  lg_prefilter : list (Z * PrefilterDefaults);
  lg_qualification : list (Z * Z * QualificationDefaults);
}.
Definition log_prefilter (expected : Z) (v : PrefilterDefaults) (l : SettingsLog) : SettingsLog := {|
  lg_prefilter := lg_prefilter l ++ [(expected, v)]; lg_qualification := lg_qualification l |}.
Definition log_qualification (expected revision : Z) (v : QualificationDefaults) (l : SettingsLog) : SettingsLog := {|
  lg_prefilter := lg_prefilter l; lg_qualification := lg_qualification l ++ [(expected, revision, v)] |}.

Section History.
Context {XE JE : Type} (row_not_found out_of_range : XE).

Definition settings_step (op : SettingsOp) (st : SettingsDb * SettingsLog) : SettingsDb * SettingsLog :=
  let '(db, log) := st in
  match op with
  | SeedPrefilter v =>
      match seed_prefilter_defaults (XE:=XE) (JE:=JE) v db with
      | (Ok _, db') => (db', if sd_prefilter db then log else log_prefilter 0 v log)
      | (Err _, db') => (db', log)
      end
  | UpdatePrefilter e v =>
      match try_update_prefilter (JE:=JE) out_of_range e v db with
      | (Ok (_, Some _), db') => (db', log_prefilter e v log)
      | (_, db') => (db', log)
      end
  | SeedQualification v =>
      match seed_qualification_defaults (JE:=JE) out_of_range v db with
      | (Ok _, db') => (db', if sd_current db then log
                             else log_qualification 0 (sd_next_revision db) v log)
      | (Err _, db') => (db', log)
      end
  | UpdateQualification e v =>
      match commit_qualification_update (JE:=JE) out_of_range e v db with
      | (Ok revision, db') => (db', log_qualification e revision v log)
      | (Err _, db') => (db', log)
      end
  end.

Definition settings_init : SettingsDb :=
  {| sd_prefilter := None; sd_next_revision := 1; sd_revisions := ∅; sd_current := None |}.
Definition run_settings (ops : list SettingsOp) : SettingsDb * SettingsLog :=
  fold_left (fun st op => settings_step op st) ops
    (settings_init, {| lg_prefilter := []; lg_qualification := [] |}).

(** The revision an update was made on is the one the previous update created. *)
Fixpoint linked (previous : Z) (log : list (Z * Z * QualificationDefaults)) : Prop :=
  match log with
  | [] => True
  | (expected, revision, _) :: log => expected = previous /\ previous < revision /\ linked revision log
  end.
Definition last_revision (log : list (Z * Z * QualificationDefaults)) : Z :=
  match last log with Some (_, revision, _) => revision | None => 0 end.

Lemma linked_snoc previous log expected revision v :
  linked previous log -> expected = match last log with Some (_, r, _) => r | None => previous end ->
  expected < revision -> linked previous (log ++ [(expected, revision, v)]).
Proof.
  revert previous. induction log as [|[[e r] w] log IH]; intros previous; [by intros _ -> Hr|].
  intros (-> & Hlt & Hl) Hlast Hr. change (linked previous ((previous, r, w) :: (log ++ [(expected, revision, v)]))).
  split; [done|]. split; [done|]. apply IH; [done| |done].
  rewrite Hlast. destruct log as [|[[e' r'] w'] log]; [done|].
  change (last ((previous, r, w) :: (e', r', w') :: log)) with (last ((e', r', w') :: log)).
  by destruct (last ((e', r', w') :: log)) as [[[? ?] ?]|] eqn:E; [|apply last_None in E].
Qed.

(** ** What a row holds *)
Lemma to_i64_id z field : in_sint 64 z -> to_i64 (XE:=XE) (JE:=JE) z field = Ok z.
Proof. intros H. unfold to_i64. rewrite (proj2 (try_from_s_Some 64 z z)); done. Qed.
Lemma to_u64_id z field : in_uint 64 z -> to_u64 (XE:=XE) (JE:=JE) z field = Ok z.
Proof. intros H. unfold to_u64. rewrite (proj2 (try_from_u_Some 64 z z)); done. Qed.
Lemma to_u32_id z field : in_uint 32 z -> to_u32 (XE:=XE) (JE:=JE) z field = Ok z.
Proof. intros H. unfold to_u32. rewrite (proj2 (try_from_u_Some 32 z z)); done. Qed.

(** The columns of valid prefilter settings. *)
Definition prefilter_columns (revision : Z) (v : PrefilterDefaults) : PrefilterDefaultsRow := {|
  pr_revision := revision; pr_max_event_age_ms := pd_max_event_age_ms v;
  pr_observation_window_ms := pd_observation_window_ms v; pr_max_active_windows := pd_max_active_windows v;
  pr_rpc_requests_per_second := pd_rpc_requests_per_second v; pr_rpc_max_in_flight := pd_rpc_max_in_flight v;
  pr_rpc_request_timeout_ms := pd_rpc_request_timeout_ms v;
  pr_rpc_rate_limit_cooldown_ms := pd_rpc_rate_limit_cooldown_ms v |}.

Lemma prefilter_row_valid revision v :
  prefilter_validate v = Ok tt -> prefilter_row (XE:=XE) (JE:=JE) revision v = Ok (prefilter_columns revision v).
Proof.
  intros H. apply prefilter_validate_Ok in H. unfold bounded, prefilter_supported in H. cbn in H.
  unfold prefilter_row. rewrite !to_i64_id; [done|int_lia..].
Qed.

(** What is written is what is read back. *)
Lemma prefilter_columns_read revision v :
  prefilter_validate v = Ok tt -> in_uint 64 revision ->
  prefilter_of_row (XE:=XE) (JE:=JE) (prefilter_columns revision v) = Ok {| sp_values := v; sp_revision := revision |}.
Proof.
  intros Hv Hr. pose proof Hv as H. apply prefilter_validate_Ok in H. unfold bounded, prefilter_supported in H. cbn in H.
  unfold prefilter_of_row. cbn [pr_revision pr_max_event_age_ms pr_observation_window_ms pr_max_active_windows
    pr_rpc_requests_per_second pr_rpc_max_in_flight pr_rpc_request_timeout_ms pr_rpc_rate_limit_cooldown_ms
    prefilter_columns].
  rewrite !to_u64_id, !to_u32_id; [|int_lia..]. cbn [mbind result_bind]. destruct v. cbn in *. rewrite Hv. done.
Qed.

Lemma qualification_row_read revision v :
  qualification_validate v = Ok tt -> in_uint 64 revision ->
  qualification_of_row (XE:=XE) (JE:=JE) revision (qualification_row v) =
    Ok {| sq_values := v; sq_revision := revision |}.
Proof.
  intros Hv Hr. pose proof Hv as H. apply qualification_validate_Ok in H.
  unfold bounded, qualification_supported in H. cbn in H.
  unfold qualification_of_row, parse_u64_decimal, qualification_row.
  cbn [qr_minimum_trades qr_minimum_unique_traders qr_minimum_buys qr_minimum_sells
    qr_minimum_native_quote_volume_units qr_minimum_stable_quote_volume_units
    qr_maximum_single_wallet_quote_share_bps].
  rewrite !parse_dec by (unfold_ints; lia).
  rewrite !to_u32_id by int_lia. rewrite to_u64_id by done. cbn [ok_or mbind result_bind].
  assert (try_from_u 16 (qd_maximum_single_wallet_quote_share_bps v) = Some (qd_maximum_single_wallet_quote_share_bps v))
    as -> by (apply try_from_u_Some; split; [done|int_lia]). cbn [ok_or mbind result_bind].
  destruct v. cbn in *. rewrite Hv. done.
Qed.

(** ** The invariant *)
Record settings_ok (db : SettingsDb) (log : SettingsLog) : Prop := {
  so_prefilter : match sd_prefilter db with
    | None => lg_prefilter log = []
    | Some row => exists v e, last (lg_prefilter log) = Some (e, v) /\ prefilter_validate v = Ok tt /\
        row = prefilter_columns (Z.of_nat (length (lg_prefilter log))) v /\
        Z.of_nat (length (lg_prefilter log)) <= i64_max
    end;
  so_prefilter_serial : forall i e v, lg_prefilter log !! i = Some (e, v) -> e = Z.of_nat i;
  so_next : 1 <= sd_next_revision db /\ sd_next_revision db <= i64_max + 1;
  so_revisions : forall r row, sd_revisions db !! r = Some row ->
    1 <= r < sd_next_revision db /\ exists v, qualification_validate v = Ok tt /\ row = qualification_row v;
  so_current : match sd_current db with
    | None => lg_qualification log = []
    | Some r => last_revision (lg_qualification log) = r /\ lg_qualification log <> []
    end;
  so_linked : linked 0 (lg_qualification log);
  so_kept : forall e r v, (e, r, v) ∈ lg_qualification log ->
    r < sd_next_revision db /\ sd_revisions db !! r = Some (qualification_row v) /\ qualification_validate v = Ok tt;
}.

Lemma settings_init_ok : settings_ok settings_init {| lg_prefilter := []; lg_qualification := [] |}.
Proof.
  split; try done.
  intros e r v H. by apply not_elem_of_nil in H.
Qed.

(** A prefilter write: the seed of an empty table, or the update of the current
    revision. *)
Lemma prefilter_written db log v e :
  settings_ok db log -> prefilter_validate v = Ok tt -> e = Z.of_nat (length (lg_prefilter log)) -> e + 1 <= i64_max ->
  settings_ok (set_prefilter (prefilter_columns (e + 1) v) db) (log_prefilter e v log).
Proof.
  intros [Hp Hs Hn Hr Hc Hl Hk] Hv He Hmax. split; simpl; try done.
  - exists v, e. rewrite last_snoc, length_app. simpl. split; [done|]. split; [done|].
    replace (Z.of_nat (length (lg_prefilter log) + 1)) with (e + 1) by lia. done.
  - intros i e' v'. rewrite lookup_app. destruct (lg_prefilter log !! i) as [[e1 v1]|] eqn:E.
    + intros [= <- <-]. by apply (Hs i e1 v1).
    + apply lookup_ge_None in E. destruct (i - length (lg_prefilter log))%nat as [|k] eqn:Ei; simpl; [|done].
      intros [= <- <-]. lia.
Qed.

(** A qualification write: a new revision that becomes the current one. *)
Lemma qualification_written db log v e :
  settings_ok db log -> qualification_validate v = Ok tt -> sd_next_revision db <= i64_max ->
  e = last_revision (lg_qualification log) ->
  settings_ok (set_current (sd_next_revision db) (append_revision (sd_next_revision db) (qualification_row v) db))
    (log_qualification e (sd_next_revision db) v log).
Proof.
  intros [Hp Hs [Hn1 Hn2] Hr Hc Hl Hk] Hv Hmax He. split; simpl; try done; try lia.
  - intros r row. rewrite lookup_insert_Some. intros [[<- <-]|[Hne Hrow]].
    + split; [lia|]. by exists v.
    + destruct (Hr r row Hrow) as [Hb Hw]. split; [lia|done].
  - unfold last_revision. rewrite last_snoc. split; [done|]. by destruct (lg_qualification log).
  - apply linked_snoc; [done|done|]. rewrite He. unfold last_revision.
    destruct (last (lg_qualification log)) as [[[e' r'] v']|] eqn:E; [|lia].
    apply last_Some_elem_of in E. by apply Hk in E as [E _].
  - intros e' r v'. rewrite elem_of_app, list_elem_of_singleton. intros [Hin|[= -> -> ->]].
    + apply Hk in Hin as (Hlt & Hrow & Hw). split; [lia|]. rewrite lookup_insert_ne; [done|lia].
    + split; [lia|]. by rewrite lookup_insert_eq.
Qed.

Lemma prefilter_revision db log row :
  settings_ok db log -> sd_prefilter db = Some row ->
  pr_revision row = Z.of_nat (length (lg_prefilter log)) /\ 1 <= pr_revision row <= i64_max /\
  exists v, prefilter_validate v = Ok tt /\ row = prefilter_columns (pr_revision row) v.
Proof.
  intros [Hp _ _ _ _ _ _] Hrow. rewrite Hrow in Hp. destruct Hp as (v & e & Hlast & Hv & -> & Hmax). simpl.
  split; [done|]. split; [|by exists v]. destruct (lg_prefilter log); [done|]. simpl in *. lia.
Qed.

Lemma seed_prefilter_step v db log :
  settings_ok db log -> let st := settings_step (SeedPrefilter v) (db, log) in settings_ok st.1 st.2.
Proof.
  intros Hok. cbn [settings_step]. unfold seed_prefilter_defaults. rewrite bind_eq. unfold st_lift at 1.
  destruct (prefilter_validate v) as [[]|e] eqn:Hv; simpl; [|done].
  rewrite bind_eq. unfold st_lift. rewrite prefilter_row_valid by done. simpl. unfold insert_prefilter.
  destruct (sd_prefilter db) as [row|] eqn:Erow; [done|].
  assert (lg_prefilter log = []) as Hlog by (pose proof (so_prefilter _ _ Hok) as Hp; by rewrite Erow in Hp).
  apply (prefilter_written db log v 0); [done|done|by rewrite Hlog|done].
Qed.

(** The update of the prefilter settings, decided. *)
Lemma try_update_decided e v db :
  try_update_prefilter (XE:=XE) (JE:=JE) out_of_range e v db =
  if e =? 0 then (Err (PeMustBePositive "prefilter expected_revision"), db) else
  match prefilter_validate v with
  | Err x => (Err (PeInvalidPrefilterDefaults x), db)
  | Ok _ =>
      match to_i64 e "prefilter expected_revision" with
      | Err x => (Err x, db)
      | Ok e =>
          match replace_prefilter out_of_range e (prefilter_columns (e + 1) v) db with
          | (Ok updated, db') => (Ok (e, updated), db')
          | (Err x, db') => (Err x, db')
          end
      end
  end.
Proof.
  unfold try_update_prefilter. rewrite bind_eq. unfold st_lift at 1. destruct (e =? 0); simpl; [done|].
  rewrite bind_eq. unfold st_lift at 1. destruct (prefilter_validate v) as [[]|x] eqn:Hv; simpl; [|done].
  rewrite bind_eq. unfold st_lift at 1. destruct (to_i64 e _) as [e'|x]; simpl; [|done].
  rewrite bind_eq. unfold st_lift at 1. rewrite prefilter_row_valid by done. simpl. rewrite bind_eq.
  by destruct (replace_prefilter _ _ _ db) as [[u|x] db'].
Qed.

Lemma to_i64_exact z field z' : to_i64 (XE:=XE) (JE:=JE) z field = Ok z' -> z' = z /\ in_sint 64 z.
Proof. unfold to_i64. intros H. apply ok_or_Ok in H. by apply try_from_s_Some. Qed.

Lemma update_prefilter_step e v db log :
  settings_ok db log -> let st := settings_step (UpdatePrefilter e v) (db, log) in settings_ok st.1 st.2.
Proof.
  intros Hok. cbn [settings_step]. rewrite try_update_decided. destruct (e =? 0); [done|].
  destruct (prefilter_validate v) as [[]|x] eqn:Hv; [|done].
  destruct (to_i64 e _) as [e'|x] eqn:He; [|done]. apply to_i64_exact in He as [-> _].
  unfold replace_prefilter. destruct (sd_prefilter db) as [row|] eqn:Erow; [|done].
  destruct (Z.eqb_spec (pr_revision row) e) as [<-|]; [|done].
  destruct (in_sintb 64 (pr_revision row + 1)) eqn:Hin; [|done]. apply in_sintb_iff in Hin.
  destruct (prefilter_revision _ _ _ Hok Erow) as (Hlen & Hr & _).
  apply prefilter_written; [done|done|done|]. unfold in_sint in Hin. lia.
Qed.

Lemma insert_revision_decided v db :
  insert_revision (XE:=XE) (JE:=JE) out_of_range v db =
  if in_sintb 64 (sd_next_revision db)
  then (Ok (sd_next_revision db), append_revision (sd_next_revision db) (qualification_row v) db)
  else (Err (PeDatabase out_of_range), db).
Proof. done. Qed.

Lemma next_in_range db log :
  settings_ok db log -> in_sintb 64 (sd_next_revision db) = true -> sd_next_revision db <= i64_max.
Proof. intros _ H. apply in_sintb_iff in H. unfold in_sint in H. lia. Qed.

Lemma seed_qualification_step v db log :
  settings_ok db log -> let st := settings_step (SeedQualification v) (db, log) in settings_ok st.1 st.2.
Proof.
  intros Hok. cbn [settings_step]. unfold seed_qualification_defaults. rewrite bind_eq. unfold st_lift at 1.
  destruct (qualification_validate v) as [[]|e] eqn:Hv; simpl; [|done].
  rewrite bind_eq. unfold read_state. destruct (sd_current db) as [r|] eqn:Ec; [done|].
  rewrite bind_eq, insert_revision_decided. destruct (in_sintb 64 (sd_next_revision db)) eqn:Hin; [|done].
  assert (lg_qualification log = []) as Hlog by (pose proof (so_current _ _ Hok) as Hc; by rewrite Ec in Hc).
  apply qualification_written; [done|done|by eapply next_in_range|by rewrite Hlog].
Qed.

Lemma update_qualification_step e v db log :
  settings_ok db log -> let st := settings_step (UpdateQualification e v) (db, log) in settings_ok st.1 st.2.
Proof.
  intros Hok. cbn [settings_step]. unfold commit_qualification_update. rewrite bind_eq. unfold st_lift at 1.
  destruct (e =? 0); simpl; [done|]. rewrite bind_eq. unfold st_lift at 1.
  destruct (qualification_validate v) as [[]|x] eqn:Hv; simpl; [|done]. rewrite bind_eq. unfold st_lift at 1.
  destruct (to_i64 e _) as [e'|x] eqn:He; simpl; [|done]. apply to_i64_exact in He as [-> _].
  rewrite bind_eq. unfold read_state. case_bool_decide as Hcur.
  - rewrite bind_eq, insert_revision_decided. destruct (in_sintb 64 (sd_next_revision db)) eqn:Hin; [|done].
    apply qualification_written; [done|done|by eapply next_in_range|].
    pose proof (so_current _ _ Hok) as Hc. rewrite Hcur in Hc. by destruct Hc.
  - rewrite bind_eq. unfold st_lift at 1. destruct (sd_current db); simpl; [|done].
    by destruct (to_u64 _ _).
Qed.

Lemma run_settings_ok ops : settings_ok (run_settings ops).1 (run_settings ops).2.
Proof.
  unfold run_settings. induction ops as [|op ops IH] using rev_ind; [apply settings_init_ok|].
  rewrite fold_left_app. cbn [fold_left]. destruct (fold_left _ ops _) as [db log]. cbn [fst snd] in IH.
  destruct op; [by apply seed_prefilter_step|by apply update_prefilter_step|by apply seed_qualification_step|
    by apply update_qualification_step].
Qed.

(** C37: Settings updates are serial.  Along any history of the two settings, in
    whatever order the clients run, no accepted update is lost or overwritten
    unseen: the [i]-th accepted prefilter values were made on revision [i] and
    the row holds the last of them; each accepted qualification update was made
    on the revision that the one before it created, the current revision is the
    last created, and every revision ever created keeps its values. *)
Theorem settings_updates_are_serial ops :
  let '(db, log) := run_settings ops in
  (forall i e v, lg_prefilter log !! i = Some (e, v) -> e = Z.of_nat i) /\
  sd_prefilter db = ((fun ev => prefilter_columns (ev.1 + 1) ev.2) <$> last (lg_prefilter log)) /\
  linked 0 (lg_qualification log) /\
  sd_current db = (fun erv => erv.1.2) <$> last (lg_qualification log) /\
  (forall e r v, (e, r, v) ∈ lg_qualification log -> sd_revisions db !! r = Some (qualification_row v)).
Proof.
  pose proof (run_settings_ok ops) as Hok. destruct (run_settings ops) as [db log]. cbn [fst snd] in Hok.
  destruct Hok as [Hp Hs _ _ Hc Hl Hk]. split; [done|]. split; [|split; [done|split]].
  - destruct (sd_prefilter db) as [row|].
    + destruct Hp as (v & e & Hlast & _ & -> & _). rewrite Hlast. simpl. f_equal. f_equal.
      rewrite last_lookup in Hlast. apply Hs in Hlast as He.
      destruct (lg_prefilter log); [done|]. simpl in *. lia.
    + by rewrite Hp.
  - destruct (sd_current db) as [r|].
    + destruct Hc as [Hlast Hne]. unfold last_revision in Hlast.
      destruct (last (lg_qualification log)) as [[[e r'] v]|] eqn:E; [simpl; by rewrite Hlast|].
      by apply last_None in E.
    + by rewrite Hc.
  - intros e r v Hin. by apply Hk in Hin as (_ & Hin & _).
Qed.

(** What is saved is what is loaded.  After any history, loading either
    settings never fails once they were seeded, and returns exactly the values
    accepted last under their revision; an update made on a stale revision is
    refused with the revision that is stored and writes nothing. *)
Theorem settings_load_what_was_saved ops :
  let '(db, log) := run_settings ops in
  load_prefilter_defaults (JE:=JE) row_not_found db =
    (match last (lg_prefilter log) with
     | Some (e, v) => Ok {| sp_values := v; sp_revision := e + 1 |}
     | None => Err (PeDatabase row_not_found)
     end, db) /\
  load_qualification_defaults (JE:=JE) row_not_found db =
    (match last (lg_qualification log) with
     | Some (_, r, v) => Ok {| sq_values := v; sq_revision := r |}
     | None => Err (PeDatabase row_not_found)
     end, db) /\
  (forall e v row, sd_prefilter db = Some row -> prefilter_validate v = Ok tt -> 1 <= e <= i64_max ->
     e <> pr_revision row ->
     update_prefilter_defaults (JE:=JE) out_of_range id e v db =
       (Err (PePrefilterDefaultsRevisionConflict e (Some (pr_revision row))), db)).
Proof.
  pose proof (run_settings_ok ops) as Hok. destruct (run_settings ops) as [db log]. cbn [fst snd] in Hok.
  split; [|split].
  - unfold load_prefilter_defaults. rewrite bind_eq. unfold read_state. rewrite bind_eq. unfold st_lift at 1.
    destruct (sd_prefilter db) as [row|] eqn:Erow.
    + destruct (prefilter_revision _ _ _ Hok Erow) as (Hlen & Hr & _).
      pose proof (so_prefilter _ _ Hok) as Hp. rewrite Erow in Hp.
      destruct Hp as (v & e & Hlast & Hv & -> & Hmax). rewrite Hlast. simpl in *. unfold st_lift.
      rewrite prefilter_columns_read by (done || (unfold in_uint; int_lia)).
      rewrite last_lookup in Hlast. apply (so_prefilter_serial _ _ Hok) in Hlast as He.
      destruct (lg_prefilter log); [done|]. simpl in *. do 3 f_equal. lia.
    + pose proof (so_prefilter _ _ Hok) as Hp. rewrite Erow in Hp. by rewrite Hp.
  - unfold load_qualification_defaults. rewrite bind_eq. unfold read_state. rewrite bind_eq. unfold st_lift at 1.
    pose proof (so_current _ _ Hok) as Hc. destruct (sd_current db) as [r|] eqn:Ec; cbn [mbind option_bind].
    + destruct Hc as [Hlast Hne]. unfold last_revision in Hlast.
      destruct (last (lg_qualification log)) as [[[e r'] v]|] eqn:E; [subst r'|by apply last_None in E].
      apply last_Some_elem_of in E. destruct (so_kept _ _ Hok _ _ _ E) as (Hlt & Hrow & Hv). rewrite Hrow. simpl.
      destruct (so_revisions _ _ Hok _ _ Hrow) as [Hb _]. destruct (so_next _ _ Hok) as [_ Hn].
      unfold st_lift. rewrite qualification_row_read by (done || (unfold in_uint; int_lia)). done.
    + by rewrite Hc.
  - intros e v row Hrow Hv He Hne. destruct (prefilter_revision _ _ _ Hok Hrow) as (_ & Hr & _).
    unfold update_prefilter_defaults. rewrite bind_eq, try_update_decided.
    rewrite (proj2 (Z.eqb_neq e 0)) by lia. rewrite Hv, to_i64_id by (unfold in_sint; int_lia).
    unfold replace_prefilter. rewrite Hrow, (proj2 (Z.eqb_neq (pr_revision row) e)) by done.
    rewrite bind_eq. cbn [modify_state id]. unfold prefilter_conflict. rewrite bind_eq. unfold read_state.
    rewrite Hrow, bind_eq. unfold st_lift. rewrite to_u64_id by (unfold in_uint; int_lia). cbn [fmap result_fmap].
    rewrite bind_eq, to_u64_id by (unfold in_uint; int_lia). done.
Qed.
End History.

(** Two clients update revision 1; the second is refused. *)
Definition sample_prefilter (age : Z) : PrefilterDefaults := {|
  pd_max_event_age_ms := age; pd_observation_window_ms := 60000; pd_max_active_windows := 128;
  pd_rpc_requests_per_second := 1; pd_rpc_max_in_flight := 4; pd_rpc_request_timeout_ms := 5000;
  pd_rpc_rate_limit_cooldown_ms := 5000 |}.
Example sample_race :
  let st := run_settings (XE:=unit) (JE:=unit) tt
    [SeedPrefilter (sample_prefilter 15000); SeedQualification SAFE_INITIAL; UpdatePrefilter 1 (sample_prefilter 20000);
     UpdatePrefilter 1 (sample_prefilter 30000); UpdatePrefilter 2 (sample_prefilter 1000);
     UpdateQualification 1 SAFE_INITIAL; UpdateQualification 1 SAFE_INITIAL] in
  lg_prefilter st.2 = [(0, sample_prefilter 15000); (1, sample_prefilter 20000)] /\
  lg_qualification st.2 = [(0, 1, SAFE_INITIAL); (1, 2, SAFE_INITIAL)] /\ sd_current st.1 = Some 2.
Proof. vm_compute. done. Qed.
