(* ===== verification/Finalization.v ===== *)
(** [crates/persistence/src/discovery_windows.rs]: the rows of durable windows,
    the canonical finalization of a window, and everything that is checked about
    a finalization. *)
From S2P Require Import Prelude.
From S2P Require Import RustOrd.
From S2P Require Import BTree.
From S2P Require Import RustStr.
From S2P Require Import Decimal.
From S2P Require Import Domain.
From S2P Require Import External.
From S2P Require Import SnapshotArith.
From S2P Require Import Snapshot.
From S2P Require Import Qualification.
From S2P Require Import WindowToken.
From S2P Require Import ApiContracts.
From S2P Require Import PersistenceModel.

Definition MARKET_WINDOW_FEATURE_VERSION : string := "market-window-features-v1".

#[export] Instance QualificationDecision_eq_dec : EqDecision QualificationDecision.
Proof. solve_decision. Defined.
#[export] Instance WindowCompleteness_eq_dec : EqDecision WindowCompleteness.
Proof. solve_decision. Defined.
#[export] Instance DiscoveryWindowSummary_eq_dec : EqDecision DiscoveryWindowSummary.
Proof. solve_decision. Defined.
#[export] Instance RuleResult_eq_dec : EqDecision RuleResult.
Proof. solve_decision. Defined.

Record DiscoveryWindowRecord {J : Type} := {
  wr_window_id : Z;
  wr_market : MarketIdentity;
  wr_source_program : SourceProgram;
  wr_opened_at_unix_ms : Z;
  wr_closes_at_unix_ms : Z;
  wr_collector_run_id : string;
  wr_prefilter_revision : Z;
  wr_prefilter_values : PrefilterDefaults;
  wr_qualification_revision : Z;
  wr_qualification_values : QualificationDefaults;
  wr_observations : list (NormalizedObservation J);
}.
#[global] Arguments DiscoveryWindowRecord : clear implicits.

Inductive DiscoveryWindowProjectionReadiness :=
| ReadinessPending | ReadinessReady | OpeningProjectionUnavailable.
#[export] Instance Readiness_eq_dec : EqDecision DiscoveryWindowProjectionReadiness.
Proof. solve_decision. Defined.

Record FinalizeDiscoveryWindow {J : Type} := {
  fz_window_id : Z;
  fz_finalized_at_unix_ms : Z;
  fz_completeness : WindowCompleteness;
  fz_completeness_reason : option string;
  fz_feature_version : string;
  fz_snapshot : J;
  fz_observation_count : Z;
  fz_decision : AssessmentDecision;
  fz_assessment : J;
  fz_rules : list RuleResult;
  fz_summary : DiscoveryWindowSummary;
}.
#[global] Arguments FinalizeDiscoveryWindow : clear implicits.
#[export] Instance FinalizeDiscoveryWindow_eq_dec `{EqDecision J} : EqDecision (FinalizeDiscoveryWindow J).
Proof. solve_decision. Defined.

(** ** Rows *)
Record WindowIdentityRow {J : Type} := {
  wi_id : Z;
  wi_network : string;
  wi_source_program : string;
  wi_venue : string;
  wi_market_address : string;
  wi_mint : string;
  wi_quote_mint : string;
  wi_target_kind : string;
  wi_target_address : string;
  wi_opened_at_unix_ms : Z;
  wi_closes_at_unix_ms : Z;
  wi_collector_run_id : string;
  wi_prefilter_revision : Z;
  wi_prefilter_values : J;
  wi_qualification_revision : Z;
  wi_qualification_values : J;
  wi_status : string;
}.
#[global] Arguments WindowIdentityRow : clear implicits.

Record CurrentProjectionRow {J : Type} := { cu_token : J; cu_belongs_to_window : bool }.
#[global] Arguments CurrentProjectionRow : clear implicits.

Record ProjectionReadinessRow := {
  pr_opening_work_status : option string;
  pr_projection_work_pending : bool;
  pr_candidate_projection_present : bool;
}.

Record StoredFinalizationRow {J : Type} := {
  sf_feature_version : string;
  sf_observation_count : Z;
  sf_snapshot : J;
  sf_decision : string;
  sf_assessment : J;
  sf_summary : J;
  sf_completeness : string;
  sf_completeness_reason : option string;
}.
#[global] Arguments StoredFinalizationRow : clear implicits.

Definition quote_or_empty (o : option string) : string := default ""%string o.
Definition completeness_name (c : WindowCompleteness) : string :=
  match c with WcComplete => "COMPLETE" | WcIncomplete => "INCOMPLETE" end.

Definition projection_readiness (row : ProjectionReadinessRow) : DiscoveryWindowProjectionReadiness :=
  if pr_projection_work_pending row then ReadinessPending
  else if bool_decide (pr_opening_work_status row = Some "COMPLETE"%string) &&
          pr_candidate_projection_present row then ReadinessReady
  else OpeningProjectionUnavailable.

Section Finalization.
Context {J XE E : Type} `{EqDecision J}.
Context `{SP : !SerdeJson PrefilterDefaults J E} `{SQ : !SerdeJson QualificationDefaults J E}
  `{SS : !SerdeJson MarketWindowSnapshot J E} `{SA : !SerdeJson QualificationAssessment J E}
  `{SW : !SerdeJson DiscoveryWindowSummary J E} `{ST : !SerdeJson DiscoveryToken J E}.
Abbreviation persistence A := (result (PersistenceError XE E) A).

(** [serde_json::to_value(..)?] and [from_value(..)?]. *)
Definition encode_json {A} `{!SerdeJson A J E} (a : A) : persistence J :=
  map_err PeSerialization (to_value a).
Definition decode_json {A} `{!SerdeJson A J E} (j : J) : persistence A :=
  map_err PeSerialization (from_value j).

(** ** The canonical payload *)
Definition qualification_policy (window : DiscoveryWindowRecord J) : QualificationPolicy :=
  let d := wr_qualification_values window in {|
  ruleset_version := "qualification-revision-" +:+ dec (wr_qualification_revision window);
  minimum_trades := qd_minimum_trades d;
  minimum_unique_traders := qd_minimum_unique_traders d;
  minimum_buys := qd_minimum_buys d;
  minimum_sells := qd_minimum_sells d;
  minimum_native_quote_volume_units := qd_minimum_native_quote_volume_units d;
  minimum_stable_quote_volume_units := qd_minimum_stable_quote_volume_units d;
  maximum_single_wallet_quote_volume_bps := qd_maximum_single_wallet_quote_share_bps d |}.

(** The reasons of the rules that decided, in order and without repetition. *)
Definition deciding_reasons (decided : AssessmentDecision) (rules : list RuleResult) : btree_set string :=
  bset_of_list (reason_code <$> List.filter (fun r => bool_decide (decision r = decided)) rules).

Definition qualification_decision (d : AssessmentDecision) : QualificationDecision :=
  match d with Pass => QdPass | Reject => QdReject | Unknown => QdUnknown end.
Definition snapshot_completeness (s : MarketWindowSnapshot) : WindowCompleteness :=
  if is_complete (ms_completeness s) then WcComplete else WcIncomplete.

Definition canonical_discovery_summary (window : DiscoveryWindowRecord J)
    (snapshot : MarketWindowSnapshot) (assessment : QualificationAssessment) (evaluated_unix_ms : Z)
    : persistence DiscoveryWindowSummary :=
  let m := ms_metrics snapshot in
  let first := rsum_first <$> ms_reserves snapshot in
  let latest := rsum_latest <$> ms_reserves snapshot in
  window_revision ← ok_or (try_from_u 64 (wr_window_id window)) (PeValueOutOfRange "window id");
  Ok {|
    dw_window_revision := window_revision;
    dw_ruleset_revision := wr_qualification_revision window;
    dw_opened_unix_ms := wr_opened_at_unix_ms window;
    dw_closed_unix_ms := wr_closes_at_unix_ms window;
    dw_evaluated_unix_ms := evaluated_unix_ms;
    dw_decision := qualification_decision (qa_decision assessment);
    dw_completeness := snapshot_completeness snapshot;
    dw_reason_codes := bset_elements (deciding_reasons (qa_decision assessment) (qa_rules assessment));
    dw_trades := mm_trades m; dw_buys := mm_buys m; dw_sells := mm_sells m;
    dw_unique_traders := mm_unique_traders m; dw_unique_buyers := mm_unique_buyers m;
    dw_unique_sellers := mm_unique_sellers m;
    dw_buy_base_volume_units := dec (mm_buy_base_units m);
    dw_sell_base_volume_units := dec (mm_sell_base_units m);
    dw_buy_quote_volume_units := dec (mm_buy_quote_units m);
    dw_sell_quote_volume_units := dec (mm_sell_quote_units m);
    dw_maximum_single_wallet_quote_share_bps := wvs_share_bps <$> mm_largest_wallet_quote_volume m;
    dw_price_change_bps :=
      prices ← ms_prices snapshot; change_bps ← ps_change_bps prices; try_from_s 64 change_bps;
    dw_first_base_reserve_units := r ← first; dec <$> rs_base_units r;
    dw_first_quote_reserve_units := r ← first; dec <$> rs_quote_units r;
    dw_latest_base_reserve_units := r ← latest; dec <$> rs_base_units r;
    dw_latest_quote_reserve_units := r ← latest; dec <$> rs_quote_units r |}.

Definition build_discovery_window_finalization (window : DiscoveryWindowRecord J)
    (finalized_at_unix_ms : Z) (incomplete_reason : option string)
    : persistence (FinalizeDiscoveryWindow J) :=
  let requested_completeness :=
    match incomplete_reason with Some reason_code => Incomplete reason_code | None => Complete end in
  snapshot ← map_err PeInvalidDiscoveryWindowSnapshot
    (build_market_window_snapshot (wr_market window) (wr_opened_at_unix_ms window)
       (wr_closes_at_unix_ms window) requested_completeness (wr_observations window));
  assessment ← map_err PeInvalidQualificationPolicy
    (evaluate_qualification snapshot (qualification_policy window));
  summary ← canonical_discovery_summary window snapshot assessment finalized_at_unix_ms;
  snapshot_value ← encode_json snapshot;
  assessment_value ← encode_json assessment;
  Ok {|
    fz_window_id := wr_window_id window;
    fz_finalized_at_unix_ms := finalized_at_unix_ms;
    fz_completeness := snapshot_completeness snapshot;
    fz_completeness_reason := completeness_reason (ms_completeness snapshot);
    fz_feature_version := MARKET_WINDOW_FEATURE_VERSION;
    fz_snapshot := snapshot_value;
    fz_observation_count := mm_observations (ms_metrics snapshot);
    fz_decision := qa_decision assessment;
    fz_assessment := assessment_value;
    fz_rules := qa_rules assessment;
    fz_summary := summary |}.

(** ** Checks *)
Definition checked_decimal_sum (left right field : string) : persistence string :=
  left ← ok_or (parse_uint 128 left) (PeInvalidUnsignedDecimal field);
  right ← ok_or (parse_uint 128 right) (PeInvalidUnsignedDecimal field);
  ok_or (dec <$> checked_add_u 128 left right) (PeValueOutOfRange field).

Definition validate_projection_matches_window (token : DiscoveryToken) (window : WindowIdentityRow J)
    : persistence unit :=
  guard_err (negb (String.eqb (dt_mint token) (wi_mint window))
    || negb (String.eqb (source_program_name (dt_source_program token)) (wi_source_program window))
    || negb (String.eqb (venue_name (dt_primary_venue token)) (wi_venue window))
    || negb (String.eqb (dt_market_address token) (wi_market_address window))
    || negb (String.eqb (quote_or_empty (dt_quote_mint token)) (wi_quote_mint window)))
    (PeDiscoveryWindowIdentityConflict (wi_id window)).

Definition unevaluated (s : DiscoveryWindowSummary) : DiscoveryWindowSummary := {|
  dw_window_revision := dw_window_revision s; dw_ruleset_revision := dw_ruleset_revision s;
  dw_opened_unix_ms := dw_opened_unix_ms s; dw_closed_unix_ms := dw_closed_unix_ms s;
  dw_evaluated_unix_ms := 0; dw_decision := dw_decision s; dw_completeness := dw_completeness s;
  dw_reason_codes := dw_reason_codes s; dw_trades := dw_trades s; dw_buys := dw_buys s;
  dw_sells := dw_sells s; dw_unique_traders := dw_unique_traders s;
  dw_unique_buyers := dw_unique_buyers s; dw_unique_sellers := dw_unique_sellers s;
  dw_buy_base_volume_units := dw_buy_base_volume_units s;
  dw_sell_base_volume_units := dw_sell_base_volume_units s;
  dw_buy_quote_volume_units := dw_buy_quote_volume_units s;
  dw_sell_quote_volume_units := dw_sell_quote_volume_units s;
  dw_maximum_single_wallet_quote_share_bps := dw_maximum_single_wallet_quote_share_bps s;
  dw_price_change_bps := dw_price_change_bps s;
  dw_first_base_reserve_units := dw_first_base_reserve_units s;
  dw_first_quote_reserve_units := dw_first_quote_reserve_units s;
  dw_latest_base_reserve_units := dw_latest_base_reserve_units s;
  dw_latest_quote_reserve_units := dw_latest_quote_reserve_units s |}.

(** Everything but the time of evaluation. *)
Definition finalization_matches (stored : StoredFinalizationRow J) (finalized : FinalizeDiscoveryWindow J)
    : bool :=
  match from_value (A:=DiscoveryWindowSummary) (E:=E) (sf_summary stored) with
  | Err _ => false
  | Ok stored_summary =>
      String.eqb (sf_feature_version stored) (fz_feature_version finalized)
      && (sf_observation_count stored =?
            default (sint_min 64) (try_from_s 64 (fz_observation_count finalized)))
      && bool_decide (sf_snapshot stored = fz_snapshot finalized)
      && String.eqb (sf_decision stored) (assessment_decision_name (fz_decision finalized))
      && bool_decide (sf_assessment stored = fz_assessment finalized)
      && bool_decide (unevaluated stored_summary = unevaluated (fz_summary finalized))
      && String.eqb (sf_completeness stored) (completeness_name (fz_completeness finalized))
      && bool_decide (sf_completeness_reason stored = fz_completeness_reason finalized)
  end.

Definition summary_counts_ok (s : DiscoveryWindowSummary) : bool :=
  bool_decide (checked_add_u 64 (dw_buys s) (dw_sells s) = Some (dw_trades s))
  && (dw_unique_traders s <=? dw_trades s)
  && (dw_unique_buyers s <=? dw_buys s)
  && (dw_unique_sellers s <=? dw_sells s)
  && match dw_maximum_single_wallet_quote_share_bps s with Some share => share <=? 10000 | None => true end.

Definition validate_finalization_for_window (window : WindowIdentityRow J)
    (finalized : FinalizeDiscoveryWindow J) : persistence unit :=
  let s := fz_summary finalized in
  expected_window_revision ← ok_or (try_from_u 64 (wi_id window)) (PeValueOutOfRange "window id");
  expected_ruleset_revision ← to_u64 (wi_qualification_revision window) "qualification_revision";
  _ ← guard_err (negb ((dw_window_revision s =? expected_window_revision)
        && (dw_ruleset_revision s =? expected_ruleset_revision)
        && (dw_opened_unix_ms s =? wi_opened_at_unix_ms window)
        && (dw_closed_unix_ms s =? wi_closes_at_unix_ms window)
        && (dw_evaluated_unix_ms s =? fz_finalized_at_unix_ms finalized)
        && bool_decide (dw_completeness s = fz_completeness finalized)))
        (PeDiscoveryWindowIdentityConflict (wi_id window));
  let expected_reasons := deciding_reasons (fz_decision finalized) (fz_rules finalized) in
  let submitted_reasons := bset_of_list (dw_reason_codes s) in
  _ ← guard_err (negb (bool_decide (expected_reasons = submitted_reasons)
        && Nat.eqb (length submitted_reasons) (length (dw_reason_codes s))
        && summary_counts_ok s)) PeScreeningDecisionMismatch;
  _ ← checked_decimal_sum (dw_buy_base_volume_units s) (dw_sell_base_volume_units s)
        "qualification base volume";
  _ ← checked_decimal_sum (dw_buy_quote_volume_units s) (dw_sell_quote_volume_units s)
        "qualification quote volume";
  Ok tt.

(** The loop over the rules, with the ids seen so far. *)
Fixpoint validate_rules (rule_ids : btree_set string) (rules : list RuleResult) : persistence unit :=
  match rules with
  | [] => Ok tt
  | r :: rest =>
      _ ← guard_err (is_blank (rule_id r) || is_blank (rule_version r) || is_blank (reason_code r))
            (PeEmptyField "qualification rule");
      _ ← guard_err (match bt_get (rule_id r) rule_ids with Some _ => true | None => false end)
            (PeInvalidStoredValue "qualification rule_id" (rule_id r));
      validate_rules (bset_insert (rule_id r) rule_ids) rest
  end.

Definition expected_decision (d : QualificationDecision) : AssessmentDecision :=
  match d with QdPass => Pass | QdReject => Reject | QdUnknown => Unknown end.
Definition aggregate_decision (rules : list RuleResult) : AssessmentDecision :=
  if has_decision Reject rules then Reject
  else if match rules with [] => true | _ => false end || has_decision Unknown rules then Unknown
  else Pass.

Definition validate_finalization (finalized : FinalizeDiscoveryWindow J) : persistence unit :=
  let s := fz_summary finalized in
  _ ← guard_err (is_blank (fz_feature_version finalized)) (PeEmptyField "feature_version");
  _ ← guard_err (bool_decide (fz_completeness finalized = WcComplete) &&
                 (fz_finalized_at_unix_ms finalized <? dw_closed_unix_ms s))
        (PeInvalidStoredValue "window finalized_at_unix_ms" (dec (fz_finalized_at_unix_ms finalized)));
  _ ← validate_rules [] (fz_rules finalized);
  _ ← guard_err (negb (bool_decide (expected_decision (dw_decision s) = fz_decision finalized)))
        PeScreeningDecisionMismatch;
  _ ← match fz_completeness finalized, fz_completeness_reason finalized with
      | WcComplete, Some _ =>
          Err (PeInvalidStoredValue "window completeness_reason" "present for COMPLETE")
      | WcIncomplete, None => Err (PeEmptyField "window completeness_reason")
      | WcIncomplete, Some reason => guard_err (is_blank reason) (PeEmptyField "window completeness_reason")
      | WcComplete, None => Ok tt
      end;
  guard_err (negb (bool_decide (aggregate_decision (fz_rules finalized) = fz_decision finalized)))
    PeScreeningDecisionMismatch.
End Finalization.
