(* ===== verification/FinalizeTx.v ===== *)
(** [crates/persistence/src/discovery_windows.rs]: the rows of a durable window
    and the transaction of [finalize_discovery_window].

    A transaction is a function from what its queries return, the rows, to the
    rows it writes; a failing query ends it with the driver's error and writes
    nothing. *)
From S2P Require Import Prelude.
From S2P Require Import RustOrd.
From S2P Require Import BTree.
From S2P Require Import RustStr.
From S2P Require Import Domain.
From S2P Require Import External.
From S2P Require Import SnapshotArith.
From S2P Require Import Snapshot.
From S2P Require Import Qualification.
From S2P Require Import WindowToken.
From S2P Require Import ApiContracts.
From S2P Require Import PersistenceModel.
From S2P Require Import Finalization.

(** ** What a transaction reads and writes *)
Record FinalizationRows {J : Type} := {
  fr_locked_network : string;
  fr_locked_mint : string;
  fr_window : WindowIdentityRow J;
  fr_existing : option (StoredFinalizationRow J);
  fr_readiness : ProjectionReadinessRow;
  fr_durable_observation_count : Z;
  fr_observations : list J;
  fr_current_projection : option (CurrentProjectionRow J);
  fr_newer_window_exists : bool;
}.
#[global] Arguments FinalizationRows : clear implicits.

(** A row of [qualification_rule_results]. *)
Record RuleRow := {
  rr_rule_id : string; rr_rule_version : string; rr_decision : string; rr_reason_code : string;
  rr_evidence_reference : option string; rr_observed_slot : option Z;
}.
(** The update of a row of [discovery_tokens]. *)
Record TokenUpdate {J : Type} := {
  tu_mint : string; tu_stage : string; tu_decision_version : string; tu_token : J;
}.
#[global] Arguments TokenUpdate : clear implicits.
Inductive SummaryTable := RejectionSummaries | UnknownSummaries.

Record FinalizationWrites {J : Type} := {
  fw_snapshot : string * Z * J;
  fw_assessment : Z * string * J * J;
  fw_rules : list RuleRow;
  fw_token : option (TokenUpdate J);
  fw_status : string * string * option string * Z;
  fw_qualified_delta : Z;
  fw_rejected : Z;
  fw_unknown : Z;
  fw_approval_removed : Z;
  fw_summaries : list (SummaryTable * string);
  fw_projection_applied : bool;
}.
#[global] Arguments FinalizationWrites : clear implicits.

Definition bool_to_i64 (b : bool) : Z := if b then 1 else 0.
Definition stage_qualified (s : DiscoveryStage) : bool :=
  match s with Qualified | Approved => true | Observed => false end.

(** The counters of [discovery_projection_state] a finalization updates, and
    the statement that updates them. *)
Record ProjectionCounters := {
  pc_qualification_pending : Z; pc_qualified : Z; pc_qualification_rejected : Z;
  pc_qualification_unknown : Z; pc_approved : Z; pc_sequence : Z;
}.
Definition update_counters {J} (w : FinalizationWrites J) (c : ProjectionCounters) : ProjectionCounters := {|
  pc_qualification_pending := Z.max (pc_qualification_pending c - 1) 0;
  pc_qualified := Z.max (pc_qualified c + fw_qualified_delta w) 0;
  pc_qualification_rejected := pc_qualification_rejected c + fw_rejected w;
  pc_qualification_unknown := pc_qualification_unknown c + fw_unknown w;
  pc_approved := Z.max (pc_approved c - fw_approval_removed w) 0;
  pc_sequence := pc_sequence c + 1 |}.

Section Transaction.
Context {J XE E : Type} `{EqDecision J}.
Context `{SP : !SerdeJson PrefilterDefaults J E} `{SQ : !SerdeJson QualificationDefaults J E}
  `{SS : !SerdeJson MarketWindowSnapshot J E} `{SA : !SerdeJson QualificationAssessment J E}
  `{SW : !SerdeJson DiscoveryWindowSummary J E} `{ST : !SerdeJson DiscoveryToken J E}
  `{SO : !SerdeJson (NormalizedObservation J) J E}.
Abbreviation persistence A := (result (PersistenceError XE E) A).

Fixpoint map_result {A B} (f : A -> persistence B) (l : list A) : persistence (list B) :=
  match l with
  | [] => Ok []
  | a :: l => b ← f a; bs ← map_result f l; Ok (b :: bs)
  end.

(** [WindowIdentityRow::into_record]. *)
Definition into_record (row : WindowIdentityRow J) (observations : list (NormalizedObservation J))
    : persistence (DiscoveryWindowRecord J) :=
  network ← parse_network (wi_network row);
  source_program ← parse_source_program (wi_source_program row);
  venue ← parse_venue (wi_venue row);
  prefilter_values ← decode_json (wi_prefilter_values row);
  _ ← map_err PeInvalidPrefilterDefaults (prefilter_validate prefilter_values);
  qualification_values ← decode_json (wi_qualification_values row);
  _ ← map_err PeInvalidQualificationDefaults (qualification_validate qualification_values);
  prefilter_revision ← to_u64 (wi_prefilter_revision row) "prefilter_revision";
  qualification_revision ← to_u64 (wi_qualification_revision row) "qualification_revision";
  Ok {|
    wr_window_id := wi_id row;
    wr_market := {| mi_network := network; mi_mint := wi_mint row; mi_venue := venue;
                    mi_market_address := wi_market_address row;
                    mi_quote_mint := if is_empty (wi_quote_mint row) then None
                                     else Some (wi_quote_mint row) |};
    wr_source_program := source_program;
    wr_opened_at_unix_ms := wi_opened_at_unix_ms row;
    wr_closes_at_unix_ms := wi_closes_at_unix_ms row;
    wr_collector_run_id := wi_collector_run_id row;
    wr_prefilter_revision := prefilter_revision;
    wr_prefilter_values := prefilter_values;
    wr_qualification_revision := qualification_revision;
    wr_qualification_values := qualification_values;
    wr_observations := observations |}.

(** [load_window_observations]: decoding the rows in the order of the query. *)
Definition load_window_observations (rows : list J) : persistence (list (NormalizedObservation J)) :=
  map_result decode_json rows.

(** [load_discovery_window], from its two queries. *)
Definition load_discovery_window (row : WindowIdentityRow J) (rows : list J)
    : persistence (DiscoveryWindowRecord J) :=
  observations ← load_window_observations rows;
  into_record row observations.

(** [validate_existing_window]. *)
Definition validate_existing_window (existing : WindowIdentityRow J)
    (observation : NormalizedObservation J) (window : NewDiscoveryWindow) : persistence unit :=
  let m := market observation in
  guard_err (negb (String.eqb (wi_network existing) (network_name (ok_network (key observation))))
    || negb (String.eqb (wi_source_program existing) (source_program_name (ok_program (key observation))))
    || negb (String.eqb (wi_venue existing) (venue_name (mi_venue m)))
    || negb (String.eqb (wi_market_address existing) (mi_market_address m))
    || negb (String.eqb (wi_mint existing) (mi_mint m))
    || negb (String.eqb (wi_quote_mint existing) (quote_or_empty (mi_quote_mint m)))
    || negb (String.eqb (wi_target_kind existing) (database_name (nw_target_kind window)))
    || negb (String.eqb (wi_target_address existing) (nw_target_address window)))
    (PeDiscoveryWindowIdentityConflict (wi_id existing)).

(** [validate_window_membership]: the first field that differs is reported. *)
Fixpoint first_mismatch (id : Z) (checks : list (bool * string)) : persistence unit :=
  match checks with
  | [] => Ok tt
  | (matches, field) :: rest =>
      if negb matches then Err (PeDiscoveryWindowObservationMismatch id field)
      else first_mismatch id rest
  end.
Definition validate_window_membership (window : WindowIdentityRow J)
    (observation : NormalizedObservation J) : persistence unit :=
  let m := market observation in
  if negb (String.eqb (wi_status window) "ACTIVE") then Err (PeDiscoveryWindowNotActive (wi_id window))
  else first_mismatch (wi_id window) [
    (String.eqb (wi_network window) (network_name (ok_network (key observation))), "network"%string);
    (String.eqb (wi_source_program window) (source_program_name (ok_program (key observation))),
     "source_program"%string);
    (String.eqb (wi_venue window) (venue_name (mi_venue m)), "venue"%string);
    (String.eqb (wi_market_address window) (mi_market_address m), "market_address"%string);
    (String.eqb (wi_mint window) (mi_mint m), "mint"%string);
    (String.eqb (wi_quote_mint window) (quote_or_empty (mi_quote_mint m)), "quote_mint"%string);
    ((received_time_unix_ms observation >=? wi_opened_at_unix_ms window) &&
     (received_time_unix_ms observation <? wi_closes_at_unix_ms window), "received_time_unix_ms"%string)].

(** The stage of the token after the decision. *)
Definition stage_after (decided : AssessmentDecision) (stage : DiscoveryStage) : DiscoveryStage :=
  if bool_decide (decided = Pass) then
    if bool_decide (stage = Approved) then Approved else Qualified
  else Observed.

Definition token_after (token : DiscoveryToken) (finalized : FinalizeDiscoveryWindow J)
    : persistence DiscoveryToken :=
  let s := fz_summary finalized in
  base ← checked_decimal_sum (dw_buy_base_volume_units s) (dw_sell_base_volume_units s)
           "qualification base volume";
  quote ← checked_decimal_sum (dw_buy_quote_volume_units s) (dw_sell_quote_volume_units s)
            "qualification quote volume";
  Ok {|
    dt_mint := dt_mint token; dt_name := dt_name token; dt_symbol := dt_symbol token;
    dt_primary_venue := dt_primary_venue token; dt_market_address := dt_market_address token;
    dt_quote_mint := dt_quote_mint token; dt_source_program := dt_source_program token;
    dt_stage := stage_after (fz_decision finalized) (dt_stage token);
    dt_last_event_kind := dt_last_event_kind token; dt_observed_slot := dt_observed_slot token;
    dt_first_observed_unix_ms := dt_first_observed_unix_ms token;
    dt_last_observed_unix_ms := dt_last_observed_unix_ms token;
    dt_latest_signature := dt_latest_signature token;
    dt_activity := {| da_trades := dw_trades s; da_buys := dw_buys s; da_sells := dw_sells s;
                      da_unique_traders := dw_unique_traders s;
                      da_base_volume_units := base; da_quote_volume_units := quote |};
    dt_qualification := Some s;
    dt_risk_score := dt_risk_score token; dt_opportunity_score := dt_opportunity_score token |}.

Definition rule_row (r : RuleResult) : persistence RuleRow :=
  observed ← match observed_slot r with
             | Some slot_ => Some <$> to_i64 slot_ "qualification observed_slot"
             | None => Ok None
             end;
  Ok {| rr_rule_id := rule_id r; rr_rule_version := rule_version r;
        rr_decision := assessment_decision_name (decision r); rr_reason_code := reason_code r;
        rr_evidence_reference := evidence_reference r; rr_observed_slot := observed |}.

(** The update of the current candidate with the deltas of its stage. *)
Definition update_candidate (window : WindowIdentityRow J) (finalized : FinalizeDiscoveryWindow J)
    (row : CurrentProjectionRow J) : persistence (TokenUpdate J * Z * Z) :=
  token ← decode_json (A:=DiscoveryToken) (cu_token row);
  _ ← validate_projection_matches_window token window;
  after ← token_after token finalized;
  value ← encode_json after;
  let now_qualified := bool_decide (fz_decision finalized = Pass) in
  Ok ({| tu_mint := dt_mint after; tu_stage := discovery_stage_name (dt_stage after);
         tu_decision_version := dec (wi_qualification_revision window); tu_token := value |},
      bool_to_i64 now_qualified - bool_to_i64 (stage_qualified (dt_stage token)),
      bool_to_i64 (bool_decide (dt_stage token = Approved) && negb now_qualified)).

Definition summary_updates (finalized : FinalizeDiscoveryWindow J) : list (SummaryTable * string) :=
  let reasons := bset_elements (deciding_reasons (fz_decision finalized) (fz_rules finalized)) in
  match fz_decision finalized with
  | Reject => (fun r => (RejectionSummaries, r)) <$> reasons
  | Unknown => (fun r => (UnknownSummaries, r)) <$> reasons
  | Pass => []
  end.

Definition rebuild (rows : FinalizationRows J) (finalized : FinalizeDiscoveryWindow J)
    : persistence (FinalizeDiscoveryWindow J) :=
  observations ← load_window_observations (fr_observations rows);
  canonical_window ← into_record (fr_window rows) observations;
  build_discovery_window_finalization canonical_window (fz_finalized_at_unix_ms finalized)
    (fz_completeness_reason finalized).

(** The rows of a window that is still active. *)
Definition commit_finalization (rows : FinalizationRows J) (finalized : FinalizeDiscoveryWindow J)
    : persistence (FinalizationWrites J) :=
  let window := fr_window rows in
  let projection_is_current :=
    match fr_current_projection rows with Some p => cu_belongs_to_window p | None => false end
    && negb (fr_newer_window_exists rows) in
  count ← to_i64 (fz_observation_count finalized) "window observation_count";
  summary_value ← encode_json (fz_summary finalized);
  rules ← map_result rule_row (fz_rules finalized);
  update ← (match fr_current_projection rows with
            | Some row => if projection_is_current
                          then u ← update_candidate window finalized row; Ok (Some u) else Ok None
            | None => Ok None
            end);
  Ok {|
    fw_snapshot := (fz_feature_version finalized, count, fz_snapshot finalized);
    fw_assessment := (wi_qualification_revision window,
                      assessment_decision_name (fz_decision finalized),
                      fz_assessment finalized, summary_value);
    fw_rules := rules;
    fw_token := (fun u : TokenUpdate J * Z * Z => u.1.1) <$> update;
    fw_status := ("FINALIZED"%string, completeness_name (fz_completeness finalized),
                  fz_completeness_reason finalized, fz_finalized_at_unix_ms finalized);
    fw_qualified_delta := match update with Some u => u.1.2 | None => 0 end;
    fw_rejected := bool_to_i64 (bool_decide (fz_decision finalized = Reject));
    fw_unknown := bool_to_i64 (bool_decide (fz_decision finalized = Unknown));
    fw_approval_removed := match update with Some u => u.2 | None => 0 end;
    fw_summaries := summary_updates finalized;
    fw_projection_applied := projection_is_current |}.

(** [finalize_discovery_window]: [None] is [Ok(false)], the window had this
    finalization already; [Some writes] is the committed [Ok(true)]. *)
Definition finalize_discovery_window (rows : FinalizationRows J) (finalized : FinalizeDiscoveryWindow J)
    : persistence (option (FinalizationWrites J)) :=
  let window := fr_window rows in
  let id := fz_window_id finalized in
  _ ← validate_finalization finalized;
  _ ← guard_err (negb (String.eqb (wi_network window) (fr_locked_network rows))
                 || negb (String.eqb (wi_mint window) (fr_locked_mint rows)))
        (PeDiscoveryWindowIdentityConflict id);
  _ ← validate_finalization_for_window window finalized;
  if String.eqb (wi_status window) "FINALIZED" then
    match fr_existing rows with
    | Some existing =>
        if finalization_matches (E:=E) existing finalized then Ok None
        else Err (PeDiscoveryWindowFinalizationConflict id)
    | None => Err (PeDiscoveryWindowFinalizationConflict id)
    end
  else
    let readiness := projection_readiness (fr_readiness rows) in
    _ ← guard_err (bool_decide (readiness = ReadinessPending)) (PeDiscoveryWindowProjectionMissing id);
    _ ← guard_err (bool_decide (readiness = OpeningProjectionUnavailable) &&
          negb (bool_decide (fz_completeness_reason finalized = Some (reason_str ProcessingFailed))))
          (PeDiscoveryWindowFinalizationEvidenceMismatch id);
    count ← to_i64 (fz_observation_count finalized) "window observation_count";
    _ ← guard_err (negb (fr_durable_observation_count rows =? count)) (PeDiscoveryWindowEvidenceChanged id);
    canonical ← rebuild rows finalized;
    _ ← guard_err (negb (bool_decide (canonical = finalized)))
          (PeDiscoveryWindowFinalizationEvidenceMismatch id);
    writes ← commit_finalization rows finalized;
    Ok (Some writes).

(** The row a commit leaves for the next attempt. *)
Definition stored_row (w : FinalizationWrites J) : StoredFinalizationRow J :=
  let '(feature_version, count, snapshot) := fw_snapshot w in
  let '(_, decided, assessment, summary) := fw_assessment w in
  let '(_, completeness, reason, _) := fw_status w in {|
    sf_feature_version := feature_version; sf_observation_count := count; sf_snapshot := snapshot;
    sf_decision := decided; sf_assessment := assessment; sf_summary := summary;
    sf_completeness := completeness; sf_completeness_reason := reason |}.
End Transaction.
