(* ===== verification/Store.v ===== *)
(** The tables of observations and windows, and the transactions of
    [crates/persistence/src/observations.rs] and [discovery_windows.rs] that fill
    them.

    A table is a finite map by its key; each statement is the change it makes to
    the tables, [ON CONFLICT] included.  A transaction that fails or rolls back
    leaves the tables as they were.  Work items and projection events are kept as
    lists of what was inserted; the gaps a [BIGSERIAL] leaves are not modelled. *)
From S2P Require Import Prelude.
From S2P Require Import Stateful.
From S2P Require Import RustOrd.
From S2P Require Import RustStr.
From S2P Require Import Domain.
From S2P Require Import External.
From S2P Require Import Snapshot.
From S2P Require Import Qualification.
From S2P Require Import ApiContracts.
From S2P Require Import PersistenceModel.
From S2P Require Import Finalization.
From S2P Require Import FinalizeTx.

#[export] Instance ObservationPayload_eq_dec : EqDecision ObservationPayload.
Proof. solve_decision. Defined.
#[export] Instance NormalizedObservation_eq_dec {J} `{EqDecision J} : EqDecision (NormalizedObservation J).
Proof. solve_decision. Defined.

(** ** Rows *)

(** The columns of the unique constraint of [chain_observations]. *)
Definition ObservationIdentity : Type := string * string * string * Z * Z.
Definition observation_identity (k : ObservationKey) : ObservationIdentity :=
  (network_name (ok_network k), source_program_name (ok_program k), signature (coordinate k),
   instruction_index (coordinate k), event_index (coordinate k)).

(** A row of [chain_observations]: its id, the columns observations are ordered
    by, and the normalized observation. *)
Record ObservationRow {J : Type} := {
  or_id : Z; or_slot : Z; or_received_time_unix_ms : Z; or_normalized_observation : J;
}.
#[global] Arguments ObservationRow : clear implicits.

(** A row of [discovery_windows] with the columns of its opening. *)
Record WindowRow {J : Type} := {
  ow_identity : WindowIdentityRow J;
  ow_opening_observation_id : Z;
  ow_opening : string * Z * Z;
}.
#[global] Arguments WindowRow : clear implicits.

Record Store {J : Type} := {
  so_next_observation_id : Z;
  so_observations : gmap ObservationIdentity (ObservationRow J);
  so_next_window_id : Z;
  so_windows : gmap Z (WindowRow J);
  (** [discovery_window_observations]: the time of admission by window and observation. *)
  so_members : gmap (Z * Z) Z;
  (** The snapshot and the assessment of each finalized window. *)
  so_finalizations : gmap Z (StoredFinalizationRow J);
  so_work : list Z;
  so_queued_facts : Z;
  so_qualification_pending : Z;
  so_sequence : Z;
  so_events : list string;
}.
#[global] Arguments Store : clear implicits.

(** ** [observations.rs] *)
Section Replay.
Context {J : Type} `{EqDecision J}.

Definition set_received (at_ : Z) (o : NormalizedObservation J) : NormalizedObservation J := {|
  key := key o; commitment := commitment o; schema_version := schema_version o;
  decoder_version := decoder_version o; event_kind := event_kind o; market := market o;
  source_event_time_unix_ms := source_event_time_unix_ms o; received_time_unix_ms := at_;
  raw_evidence_hash := raw_evidence_hash o; source_evidence_base64 := source_evidence_base64 o;
  source_details := source_details o; payload := payload o |}.
(** [canonical_incoming]: the delivery metadata is that of the stored fact. *)
Definition canonical_incoming (stored incoming : NormalizedObservation J) : NormalizedObservation J := {|
  key := {| ok_network := ok_network (key incoming); ok_program := ok_program (key incoming);
            coordinate := {| slot := slot (coordinate (key incoming));
              transaction_index := transaction_index (coordinate (key stored));
              signature := signature (coordinate (key incoming));
              instruction_index := instruction_index (coordinate (key incoming));
              event_index := event_index (coordinate (key incoming)) |} |};
  commitment := commitment stored; schema_version := schema_version incoming;
  decoder_version := decoder_version incoming; event_kind := event_kind incoming;
  market := market incoming; source_event_time_unix_ms := source_event_time_unix_ms incoming;
  received_time_unix_ms := received_time_unix_ms stored;
  raw_evidence_hash := raw_evidence_hash incoming;
  source_evidence_base64 := source_evidence_base64 incoming;
  source_details := source_details incoming; payload := payload incoming |}.
Definition compatible_replay (stored incoming : NormalizedObservation J) : bool :=
  match transaction_index (coordinate (key stored)), transaction_index (coordinate (key incoming)) with
  | Some s, Some i => s =? i
  | _, _ => true
  end && bool_decide (canonical_incoming stored incoming = stored).
End Replay.

Record ObservationInsert := { oi_id : Z; oi_is_new : bool }.

Section Transactions.
Context {B64 : Base64} {J XE E : Type} `{EqDecision J}.
(** The driver's [RowNotFound]. *)
Context (row_not_found : XE).
Context `{SP : !SerdeJson PrefilterDefaults J E} `{SQ : !SerdeJson QualificationDefaults J E}
  `{SO : !SerdeJson (NormalizedObservation J) J E}.
Abbreviation persistence A := (result (PersistenceError XE E) A).
Abbreviation StoreM := (stateful (Store J) (PersistenceError XE E)).

(** *** Changes to the tables *)
Definition put_observation (i : ObservationIdentity) (row : ObservationRow J) (st : Store J) : Store J := {|
  so_next_observation_id := so_next_observation_id st;
  so_observations := <[i := row]> (so_observations st);
  so_next_window_id := so_next_window_id st; so_windows := so_windows st; so_members := so_members st; so_finalizations := so_finalizations st;
  so_work := so_work st; so_queued_facts := so_queued_facts st;
  so_qualification_pending := so_qualification_pending st; so_sequence := so_sequence st;
  so_events := so_events st |}.
(** The [BIGSERIAL] column. *)
Definition next_observation (st : Store J) : Store J := {|
  so_next_observation_id := so_next_observation_id st + 1; so_observations := so_observations st;
  so_next_window_id := so_next_window_id st; so_windows := so_windows st; so_members := so_members st; so_finalizations := so_finalizations st;
  so_work := so_work st; so_queued_facts := so_queued_facts st;
  so_qualification_pending := so_qualification_pending st; so_sequence := so_sequence st;
  so_events := so_events st |}.
Definition put_window (id : Z) (row : WindowRow J) (st : Store J) : Store J := {|
  so_next_observation_id := so_next_observation_id st; so_observations := so_observations st;
  so_next_window_id := so_next_window_id st + 1; so_windows := <[id := row]> (so_windows st);
  so_members := so_members st; so_finalizations := so_finalizations st; so_work := so_work st; so_queued_facts := so_queued_facts st;
  so_qualification_pending := so_qualification_pending st; so_sequence := so_sequence st;
  so_events := so_events st |}.
Definition set_members (m : gmap (Z * Z) Z) (st : Store J) : Store J := {|
  so_next_observation_id := so_next_observation_id st; so_observations := so_observations st;
  so_next_window_id := so_next_window_id st; so_windows := so_windows st; so_members := m; so_finalizations := so_finalizations st;
  so_work := so_work st; so_queued_facts := so_queued_facts st;
  so_qualification_pending := so_qualification_pending st; so_sequence := so_sequence st;
  so_events := so_events st |}.
Definition queue_work (id : Z) (st : Store J) : Store J := {|
  so_next_observation_id := so_next_observation_id st; so_observations := so_observations st;
  so_next_window_id := so_next_window_id st; so_windows := so_windows st; so_members := so_members st; so_finalizations := so_finalizations st;
  so_work := so_work st ++ [id]; so_queued_facts := so_queued_facts st + 1;
  so_qualification_pending := so_qualification_pending st; so_sequence := so_sequence st + 1;
  so_events := so_events st ++ ["DISCOVERY_QUEUED_FACTS_CHANGED"%string] |}.
Definition announce_window (st : Store J) : Store J := {|
  so_next_observation_id := so_next_observation_id st; so_observations := so_observations st;
  so_next_window_id := so_next_window_id st; so_windows := so_windows st; so_members := so_members st; so_finalizations := so_finalizations st;
  so_work := so_work st; so_queued_facts := so_queued_facts st;
  so_qualification_pending := so_qualification_pending st + 1; so_sequence := so_sequence st + 1;
  so_events := so_events st ++ ["QUALIFICATION_WINDOW_OPENED"%string] |}.

(** *** Inserting a fact *)
Record PreparedObservation := { po_slot : Z; po_transaction_index : option Z; po_normalized : J }.

(** What is checked and encoded before the fact is inserted. *)
Definition prepare_observation (o : NormalizedObservation J) : persistence PreparedObservation :=
  _ ← guard_err (negb (bool_decide (ok_network (key o) = mi_network (market o)))) PeNetworkMismatch;
  _ ← validate_evidence_base64 (source_evidence_base64 o) "source_evidence_base64";
  slot_ ← to_i64 (slot (coordinate (key o))) "slot";
  transaction_index_ ← match transaction_index (coordinate (key o)) with
                       | Some value => Some <$> to_i64 value "transaction_index"
                       | None => Ok None
                       end;
  normalized ← encode_json o;
  Ok {| po_slot := slot_; po_transaction_index := transaction_index_; po_normalized := normalized |}.

Definition opens_window (st : Store J) (id : Z) : bool :=
  existsb (fun p => ow_opening_observation_id p.2 =? id) (map_to_list (so_windows st)).

(** The receipt of a stored fact moves to an earlier one. *)
Definition lower_admissions (id at_ : Z) (m : gmap (Z * Z) Z) : gmap (Z * Z) Z :=
  map_imap (fun p t => Some (if p.2 =? id then Z.min t at_ else t)) m.

Definition replay_observation (o : NormalizedObservation J) (row : ObservationRow J)
    : StoreM ObservationInsert :=
  stored ← st_lift (decode_json (A:=NormalizedObservation J) (or_normalized_observation row));
  if negb (compatible_replay stored o) then
    st_fail (PeObservationEvidenceConflict (network_name (ok_network (key o)))
      (source_program_name (ok_program (key o))) (signature (coordinate (key o)))
      (instruction_index (coordinate (key o))) (event_index (coordinate (key o))))
  else
    opens ← read_state (fun st => opens_window st (or_id row));
    _ ← (if (received_time_unix_ms o <? received_time_unix_ms stored) && negb opens then
           let at_ := received_time_unix_ms o in
           value ← st_lift (encode_json (set_received at_ stored));
           modify_state (fun st =>
             set_members (lower_admissions (or_id row) at_ (so_members st))
               (put_observation (observation_identity (key o))
                  {| or_id := or_id row; or_slot := or_slot row;
                     or_received_time_unix_ms := at_; or_normalized_observation := value |} st))
         else mret tt);
    mret {| oi_id := or_id row; oi_is_new := false |}.

Definition insert_chain_observation (o : NormalizedObservation J) (prepared : PreparedObservation)
    : StoreM ObservationInsert :=
  existing ← read_state (fun st => so_observations st !! observation_identity (key o));
  match existing with
  | Some row => replay_observation o row
  | None =>
      id ← read_state so_next_observation_id;
      _ ← modify_state (fun st => next_observation
            (put_observation (observation_identity (key o))
               {| or_id := id; or_slot := po_slot prepared;
                  or_received_time_unix_ms := received_time_unix_ms o;
                  or_normalized_observation := po_normalized prepared |} st));
      mret {| oi_id := id; oi_is_new := true |}
  end.

Definition insert_chain_observation_unprepared (o : NormalizedObservation J) : StoreM ObservationInsert :=
  prepared ← st_lift (prepare_observation o);
  insert_chain_observation o prepared.

(** [enqueue_discovery_work]. *)
Definition enqueue_discovery_work (id : Z) : StoreM unit := modify_state (queue_work id).

(** [Database::insert_observation]. *)
Definition store_insert_observation (o : NormalizedObservation J) : StoreM bool :=
  prepared ← st_lift (prepare_observation o);
  transaction
    (inserted ← insert_chain_observation o prepared;
     _ ← (if oi_is_new inserted then enqueue_discovery_work (oi_id inserted) else mret tt);
     mret (Commit (oi_is_new inserted))).

(** *** Windows *)

(** [ON CONFLICT ... DO UPDATE SET admitted_at_unix_ms = LEAST(..)]. *)
Definition insert_membership (window_id id admitted_at : Z) : StoreM unit :=
  modify_state (fun st => set_members
    (<[(window_id, id) := match so_members st !! (window_id, id) with
                          | Some old => Z.min old admitted_at
                          | None => admitted_at
                          end]> (so_members st)) st).

(** The unique constraint of [discovery_windows]. *)
Definition same_opening (o : NormalizedObservation J) (kind : WindowTargetKind) (address : string)
    (row : WindowRow J) : bool :=
  let r := ow_identity row in
  let '(s, i, e) := ow_opening row in
  String.eqb (wi_network r) (network_name (ok_network (key o))) &&
  String.eqb (wi_source_program r) (source_program_name (ok_program (key o))) &&
  String.eqb s (signature (coordinate (key o))) &&
  (i =? instruction_index (coordinate (key o))) && (e =? event_index (coordinate (key o))) &&
  String.eqb (wi_target_kind r) (database_name kind) && String.eqb (wi_target_address r) address.
Definition window_by_opening (st : Store J) (o : NormalizedObservation J) (kind : WindowTargetKind)
    (address : string) : option (WindowRow J) :=
  List.find (same_opening o kind address) ((map_to_list (so_windows st)).*2).

(** The row of a new window; its encodings are evaluated first. *)
Definition new_window_row (o : NormalizedObservation J) (window : NewDiscoveryWindow)
    : persistence (Z -> WindowIdentityRow J) :=
  prefilter_revision ← to_i64 (nw_prefilter_revision window) "prefilter_revision";
  prefilter_values ← encode_json (nw_prefilter_values window);
  qualification_revision ← to_i64 (sq_revision (nw_qualification window)) "qualification_revision";
  qualification_values ← encode_json (sq_values (nw_qualification window));
  Ok (fun id => {|
    wi_id := id;
    wi_network := network_name (ok_network (key o));
    wi_source_program := source_program_name (ok_program (key o));
    wi_venue := venue_name (mi_venue (market o));
    wi_market_address := mi_market_address (market o);
    wi_mint := mi_mint (market o);
    wi_quote_mint := quote_or_empty (mi_quote_mint (market o));
    wi_target_kind := database_name (nw_target_kind window);
    wi_target_address := nw_target_address window;
    wi_opened_at_unix_ms := nw_opened_at_unix_ms window;
    wi_closes_at_unix_ms := nw_closes_at_unix_ms window;
    wi_collector_run_id := nw_collector_run_id window;
    wi_prefilter_revision := prefilter_revision;
    wi_prefilter_values := prefilter_values;
    wi_qualification_revision := qualification_revision;
    wi_qualification_values := qualification_values;
    wi_status := "ACTIVE" |}).

(** [Database::open_discovery_window]. *)
Definition store_open_window (o : NormalizedObservation J) (window : NewDiscoveryWindow)
    : StoreM OpenedDiscoveryWindow :=
  _ ← st_lift (validate_new_window o window);
  transaction
    (inserted ← insert_chain_observation_unprepared o;
     _ ← (if oi_is_new inserted then enqueue_discovery_work (oi_id inserted) else mret tt);
     row ← st_lift (new_window_row o window);
     conflicting ← read_state (fun st =>
       window_by_opening st o (nw_target_kind window) (nw_target_address window));
     match conflicting with
     | Some existing =>
         _ ← st_lift (validate_existing_window (ow_identity existing) o window);
         mret (Rollback {| od_window_id := wi_id (ow_identity existing); od_observation_inserted := false;
                           od_window_created := false; od_replayed := true |})
     | None =>
         window_id ← read_state so_next_window_id;
         _ ← modify_state (put_window window_id {| ow_identity := row window_id;
               ow_opening_observation_id := oi_id inserted;
               ow_opening := (signature (coordinate (key o)), instruction_index (coordinate (key o)),
                              event_index (coordinate (key o))) |});
         _ ← insert_membership window_id (oi_id inserted) (received_time_unix_ms o);
         _ ← modify_state announce_window;
         mret (Commit {| od_window_id := window_id; od_observation_inserted := oi_is_new inserted;
                         od_window_created := true; od_replayed := false |})
     end).

Definition row_by_id (st : Store J) (id : Z) : option (ObservationRow J) :=
  List.find (fun row => or_id row =? id) ((map_to_list (so_observations st)).*2).

(** [Database::insert_window_observation]. *)
Definition store_insert_window_observation (window_id : Z) (o : NormalizedObservation J) : StoreM bool :=
  transaction
    (found ← read_state (fun st => so_windows st !! window_id);
     window ← st_lift (ok_or (ow_identity <$> found) (PeDiscoveryWindowNotActive window_id));
     inserted ← insert_chain_observation_unprepared o;
     already ← read_state (fun st => bool_decide (is_Some (so_members st !! (window_id, oi_id inserted))));
     if negb (oi_is_new inserted) && already then mret (Commit false)
     else
       admitted ← (if oi_is_new inserted then mret o
                   else found ← read_state (fun st => row_by_id st (oi_id inserted));
                        match found with
                        | Some row => st_lift (decode_json (or_normalized_observation row))
                        | None => st_fail (PeDatabase row_not_found)
                        end);
       _ ← st_lift (validate_window_membership window admitted);
       _ ← (if oi_is_new inserted then enqueue_discovery_work (oi_id inserted) else mret tt);
       _ ← insert_membership window_id (oi_id inserted) (received_time_unix_ms admitted);
       mret (Commit (oi_is_new inserted))).

(** *** What a finalization reads *)
Definition members_of (st : Store J) (window_id : Z) : list (ObservationIdentity * ObservationRow J) :=
  List.filter (fun p => bool_decide (is_Some (so_members st !! (window_id, or_id p.2))))
    (map_to_list (so_observations st)).
(** [ORDER BY received_time_unix_ms, slot, signature, instruction_index, event_index]. *)
Definition member_order (p : ObservationIdentity * ObservationRow J) : Z * Z * string * Z * Z :=
  let '(_, _, s, i, e) := p.1 in (or_received_time_unix_ms p.2, or_slot p.2, s, i, e).
Definition member_values (st : Store J) (window_id : Z) : list J :=
  (fun p => or_normalized_observation p.2) <$>
    sort_by (fun p q => cmp (member_order p) (member_order q)) (members_of st window_id).
(** [SELECT COUNT] over the memberships. *)
Definition member_count (st : Store J) (window_id : Z) : Z :=
  Z.of_nat (length (List.filter (fun p => p.1.1 =? window_id) (map_to_list (so_members st)))).

(** *** Finalizing a window *)
Context `{SS : !SerdeJson MarketWindowSnapshot J E} `{SA : !SerdeJson QualificationAssessment J E}
  `{SW : !SerdeJson DiscoveryWindowSummary J E} `{ST : !SerdeJson DiscoveryToken J E}.

(** [newer_window_exists]. *)
Definition newer_window (st : Store J) (window : WindowIdentityRow J) : bool :=
  existsb (fun p =>
    let newer := ow_identity p.2 in
    String.eqb (wi_mint newer) (wi_mint window) && negb (wi_id newer =? wi_id window) &&
    ((wi_opened_at_unix_ms newer >? wi_opened_at_unix_ms window) ||
     ((wi_opened_at_unix_ms newer =? wi_opened_at_unix_ms window) && (wi_id newer >? wi_id window))))
    (map_to_list (so_windows st)).

(** The rows [finalize_discovery_window] reads; the candidate and the readiness
    of its projection come from other tables. *)
Definition finalization_rows (st : Store J) (readiness : ProjectionReadinessRow)
    (current : option (CurrentProjectionRow J)) (window : WindowIdentityRow J) : FinalizationRows J := {|
  fr_locked_network := wi_network window;
  fr_locked_mint := wi_mint window;
  fr_window := window;
  fr_existing := so_finalizations st !! wi_id window;
  fr_readiness := readiness;
  fr_durable_observation_count := member_count st (wi_id window);
  fr_observations := member_values st (wi_id window);
  fr_current_projection := current;
  fr_newer_window_exists := newer_window st window |}.

Definition set_status (status : string) (r : WindowIdentityRow J) : WindowIdentityRow J := {|
  wi_id := wi_id r; wi_network := wi_network r; wi_source_program := wi_source_program r;
  wi_venue := wi_venue r; wi_market_address := wi_market_address r; wi_mint := wi_mint r;
  wi_quote_mint := wi_quote_mint r; wi_target_kind := wi_target_kind r;
  wi_target_address := wi_target_address r; wi_opened_at_unix_ms := wi_opened_at_unix_ms r;
  wi_closes_at_unix_ms := wi_closes_at_unix_ms r; wi_collector_run_id := wi_collector_run_id r;
  wi_prefilter_revision := wi_prefilter_revision r; wi_prefilter_values := wi_prefilter_values r;
  wi_qualification_revision := wi_qualification_revision r;
  wi_qualification_values := wi_qualification_values r; wi_status := status |}.

(** The rows a finalization writes to these tables. *)
Definition put_finalization (row : WindowRow J) (writes : FinalizationWrites J) (st : Store J) : Store J := {|
  so_next_observation_id := so_next_observation_id st; so_observations := so_observations st;
  so_next_window_id := so_next_window_id st;
  so_windows := <[wi_id (ow_identity row) := {|
    ow_identity := set_status (fw_status writes).1.1.1 (ow_identity row);
    ow_opening_observation_id := ow_opening_observation_id row; ow_opening := ow_opening row |}]> (so_windows st);
  so_members := so_members st;
  so_finalizations := <[wi_id (ow_identity row) := stored_row writes]> (so_finalizations st);
  so_work := so_work st; so_queued_facts := so_queued_facts st;
  so_qualification_pending := Z.max (so_qualification_pending st - 1) 0; so_sequence := so_sequence st + 1;
  so_events := so_events st ++ ["QUALIFICATION_WINDOW_FINALIZED"%string] |}.

Definition store_finalize (readiness : ProjectionReadinessRow) (current : option (CurrentProjectionRow J))
    (finalized : FinalizeDiscoveryWindow J) : StoreM bool :=
  _ ← st_lift (validate_finalization finalized);
  transaction
    (found ← read_state (fun st => so_windows st !! fz_window_id finalized);
     row ← st_lift (ok_or found (PeDiscoveryWindowNotActive (fz_window_id finalized)));
     rows ← read_state (fun st => finalization_rows st readiness current (ow_identity row));
     outcome ← st_lift (finalize_discovery_window rows finalized);
     match outcome with
     | None => mret (Rollback false)
     | Some writes => _ ← modify_state (put_finalization row writes); mret (Commit true)
     end).
End Transactions.
