(* ===== verification/StoreProofs.v ===== *)
(** The tables of observations and windows: what every transaction keeps, and
    what a window's members have in common with it. *)
From S2P Require Import Prelude.
From S2P Require Import Stateful.
From S2P Require Import RustOrd.
From S2P Require Import RustStr.
From S2P Require Import Domain.
From S2P Require Import External.
From S2P Require Import SnapshotArith.
From S2P Require Import Snapshot.
From S2P Require Import Qualification.
From S2P Require Import ApiContracts.
From S2P Require Import PersistenceModel.
From S2P Require Import Finalization.
From S2P Require Import FinalizeTx.
From S2P Require Import Store.

(** ** Replays *)
Section Replay.
Context {J : Type} `{EqDecision J}.
Implicit Types (o stored incoming : NormalizedObservation J).

(** What a replay may not change. *)
Definition evidence (o : NormalizedObservation J) :=
  (ok_network (key o), ok_program (key o), slot (coordinate (key o)), signature (coordinate (key o)),
   instruction_index (coordinate (key o)), event_index (coordinate (key o)), schema_version o,
   decoder_version o, event_kind o, market o, source_event_time_unix_ms o, raw_evidence_hash o,
   source_evidence_base64 o, source_details o, payload o).

Lemma compatible_replay_evidence stored incoming :
  compatible_replay stored incoming = true -> evidence incoming = evidence stored.
Proof.
  unfold compatible_replay. intros [_ H%bool_decide_eq_true]%andb_true_iff.
  destruct stored as [[n p [sl ti sg ii ei]] c sv dv ek m st rt rh se sd pl].
  destruct incoming as [[n' p' [sl' ti' sg' ii' ei']] c' sv' dv' ek' m' st' rt' rh' se' sd' pl'].
  unfold canonical_incoming in H. cbn in H. unfold evidence. simpl. congruence.
Qed.

Lemma evidence_identity o o' : evidence o = evidence o' ->
  observation_identity (key o) = observation_identity (key o').
Proof. unfold evidence, observation_identity. intros [=]. congruence. Qed.
Lemma evidence_market o o' : evidence o = evidence o' -> market o = market o'.
Proof. by intros [=]. Qed.
Lemma set_received_evidence at_ o : evidence (set_received at_ o) = evidence o.
Proof. done. Qed.
Lemma set_received_self o : set_received (received_time_unix_ms o) o = o.
Proof. by destruct o. Qed.
End Replay.

(** ** The invariant of the tables *)
Section Proofs.
Context {B64 : Base64} {J XE E : Type} `{EqDecision J}.
Context (row_not_found : XE).
Context `{SP : !SerdeJson PrefilterDefaults J E} `{SQ : !SerdeJson QualificationDefaults J E}
  `{SO : !SerdeJson (NormalizedObservation J) J E} (laws : SerdeLaws SO).
Abbreviation StoreM := (stateful (Store J) (PersistenceError XE E)).
Implicit Types (st : Store J) (o : NormalizedObservation J).

Definition decodes_to (row : ObservationRow J) o : Prop :=
  from_value (E:=E) (or_normalized_observation row) = Ok o.

Record row_ok (next : Z) (i : ObservationIdentity) (row : ObservationRow J) o : Prop := {
  row_decodes : decodes_to row o;
  row_identity : observation_identity (key o) = i;
  row_network : ok_network (key o) = mi_network (market o);
  row_received : or_received_time_unix_ms row = received_time_unix_ms o;
  row_slot : or_slot row = slot (coordinate (key o));
  row_slot_range : in_sint 64 (slot (coordinate (key o)));
  row_id : or_id row < next;
}.

(** The columns of a window agree with an observation; the receipt is apart. *)
Record belongs (row : WindowIdentityRow J) o : Prop := {
  belongs_network : wi_network row = network_name (ok_network (key o));
  belongs_program : wi_source_program row = source_program_name (ok_program (key o));
  belongs_venue : wi_venue row = venue_name (mi_venue (market o));
  belongs_address : wi_market_address row = mi_market_address (market o);
  belongs_mint : wi_mint row = mi_mint (market o);
  belongs_quote : wi_quote_mint row = quote_or_empty (mi_quote_mint (market o));
}.

Record store_ok st : Prop := {
  ok_rows i row : so_observations st !! i = Some row -> exists o, row_ok (so_next_observation_id st) i row o;
  ok_ids i j r r' : so_observations st !! i = Some r -> so_observations st !! j = Some r' ->
    or_id r = or_id r' -> i = j;
  ok_windows w x : so_windows st !! w = Some x ->
    wi_id (ow_identity x) = w /\ w < so_next_window_id st /\
    wi_opened_at_unix_ms (ow_identity x) < wi_closes_at_unix_ms (ow_identity x);
  ok_members w i t : so_members st !! (w, i) = Some t -> exists x k row o,
    so_windows st !! w = Some x /\ so_observations st !! k = Some row /\ or_id row = i /\
    decodes_to row o /\ belongs (ow_identity x) o;
}.

Lemma belongs_evidence row o o' : evidence o' = evidence o -> belongs row o -> belongs row o'.
Proof.
  intros He [H1 H2 H3 H4 H5 H6]. pose proof (evidence_market _ _ He) as Hm.
  assert (ok_network (key o') = ok_network (key o) /\ ok_program (key o') = ok_program (key o)) as [Hn Hp]
    by (unfold evidence in He; split; congruence).
  split; by rewrite ?Hm, ?Hn, ?Hp.
Qed.

Lemma membership_belongs row o : validate_window_membership (XE:=XE) (E:=E) row o = Ok tt ->
  belongs row o /\ wi_status row = "ACTIVE"%string /\
  wi_opened_at_unix_ms row <= received_time_unix_ms o < wi_closes_at_unix_ms row.
Proof.
  unfold validate_window_membership. destruct (String.eqb_spec (wi_status row) "ACTIVE"); [|done]. simpl.
  repeat (match goal with |- context [String.eqb ?a ?b] => destruct (String.eqb_spec a b) end; [|done]; simpl).
  destruct (_ && _) eqn:Er; [|done]. apply andb_true_iff in Er as [Ho Hc]. intros _. split_and!; [done|done|lia|lia].
Qed.

(** ** Growth *)

(** Rows are never lost: they keep their id and their evidence, receipts only
    move to earlier ones, and the opening fact of a window does not move. *)
Definition row_grows st (row row' : ObservationRow J) : Prop :=
  or_id row' = or_id row /\ or_slot row' = or_slot row /\
  forall o, decodes_to row o -> exists at_, decodes_to row' (set_received at_ o) /\
    at_ <= received_time_unix_ms o /\
    (opens_window st (or_id row) = true -> at_ = received_time_unix_ms o).
(** Windows are related by [Rw]: the same row, or the same but for its status. *)
Record grows_by (Rw : WindowRow J -> WindowRow J -> Prop) st st' : Prop := {
  grows_rows i row : so_observations st !! i = Some row -> exists row',
    so_observations st' !! i = Some row' /\ row_grows st row row';
  grows_windows w x : so_windows st !! w = Some x -> exists x', so_windows st' !! w = Some x' /\ Rw x x';
  grows_members p : is_Some (so_members st !! p) -> is_Some (so_members st' !! p);
}.
Definition same_but_status (x x' : WindowRow J) : Prop :=
  x' = {| ow_identity := set_status (wi_status (ow_identity x')) (ow_identity x);
          ow_opening_observation_id := ow_opening_observation_id x; ow_opening := ow_opening x |}.
Definition grows := grows_by eq.
Definition evolves := grows_by same_but_status.

Lemma set_status_self (r : WindowIdentityRow J) : set_status (wi_status r) r = r.
Proof. by destruct r. Qed.
#[export] Instance same_but_status_refl : Reflexive same_but_status.
Proof. intros x. unfold same_but_status. rewrite set_status_self. by destruct x. Qed.
#[export] Instance same_but_status_trans : Transitive same_but_status.
Proof. intros x y z Hy Hz. unfold same_but_status in *. rewrite Hy in Hz. exact Hz. Qed.
Lemma belongs_status status (r : WindowIdentityRow J) o : belongs (set_status status r) o <-> belongs r o.
Proof. split; intros []; by split. Qed.

Lemma row_grows_refl st row : row_grows st row row.
Proof.
  split_and!; [done..|]. intros o Ho. exists (received_time_unix_ms o). rewrite set_received_self. by split_and!.
Qed.
Lemma grows_by_refl Rw `{!Reflexive Rw} st : grows_by Rw st st.
Proof.
  split; [|by eauto|done]. intros i row Hr. exists row. split; [done|apply row_grows_refl].
Qed.

Lemma opens_window_In st id :
  opens_window st id = true <-> exists w x, so_windows st !! w = Some x /\ ow_opening_observation_id x = id.
Proof.
  unfold opens_window. rewrite existsb_exists. split.
  - intros ([w x] & Hin & He). exists w, x. rewrite <- list_elem_of_In in Hin.
    apply elem_of_map_to_list in Hin. split; [done|by apply Z.eqb_eq].
  - intros (w & x & Hx & He). exists (w, x). split; [|by apply Z.eqb_eq].
    by rewrite <- list_elem_of_In, elem_of_map_to_list.
Qed.

Lemma grows_by_trans Rw `{!Transitive Rw} :
  (forall x x', Rw x x' -> ow_opening_observation_id x' = ow_opening_observation_id x) ->
  forall a b c, grows_by Rw a b -> grows_by Rw b c -> grows_by Rw a c.
Proof.
  intros Hop a b c [R1 W1 M1] [R2 W2 M2]. split.
  - intros i row Hr. destruct (R1 i row Hr) as (row1 & Hr1 & Hi1 & Hs1 & Hg1).
    destruct (R2 i row1 Hr1) as (row2 & Hr2 & Hi2 & Hs2 & Hg2). exists row2.
    split; [done|]. split_and!; [congruence..|]. intros o Ho.
    destruct (Hg1 o Ho) as (t1 & Ho1 & Hle1 & He1). destruct (Hg2 _ Ho1) as (t2 & Ho2 & Hle2 & He2).
    exists t2. split_and!; [by destruct o|simpl in Hle2; lia|]. intros Hopens. rewrite He2.
    + by apply He1.
    + rewrite Hi1. apply opens_window_In in Hopens as (w & x & Hx & Hid). apply opens_window_In.
      destruct (W1 w x Hx) as (x' & Hx' & Hw). exists w, x'. split; [done|]. rewrite (Hop _ _ Hw). done.
  - intros w x Hx. destruct (W1 w x Hx) as (x1 & Hx1 & Hw1). destruct (W2 w x1 Hx1) as (x2 & Hx2 & Hw2).
    exists x2. split; [done|by etrans].
  - auto.
Qed.
#[export] Instance grows_refl : Reflexive grows.
Proof. intros st. apply grows_by_refl, _. Qed.
#[export] Instance grows_trans : Transitive grows.
Proof. intros a b c. apply grows_by_trans; [apply _|by intros x x' <-]. Qed.
#[export] Instance evolves_refl : Reflexive evolves.
Proof. intros st. apply grows_by_refl, _. Qed.
#[export] Instance evolves_trans : Transitive evolves.
Proof. intros a b c. apply grows_by_trans; [apply _|by intros x x' ->]. Qed.
Lemma grows_evolves st st' : grows st st' -> evolves st st'.
Proof.
  intros [R W M]. split; [done| |done]. intros w x Hx. destruct (W w x Hx) as (x' & Hx' & <-). by exists x.
Qed.

(** ** Steps that touch neither facts nor windows *)
Definition same_tables st st' : Prop :=
  so_next_observation_id st' = so_next_observation_id st /\ so_observations st' = so_observations st /\
  so_next_window_id st' = so_next_window_id st /\ so_windows st' = so_windows st /\
  so_members st' = so_members st.

Lemma same_tables_ok st st' : same_tables st st' -> store_ok st -> store_ok st'.
Proof.
  intros (H1 & H2 & H3 & H4 & H5) [R I W M]. split.
  - intros i row. rewrite H1, H2. apply R.
  - intros i j r r'. rewrite H2. apply I.
  - intros w x. rewrite H3, H4. apply W.
  - intros w i t. rewrite H2, H4, H5. apply M.
Qed.
Lemma same_tables_grows st st' : same_tables st st' -> grows st st'.
Proof.
  intros (_ & H2 & _ & H4 & H5). split.
  - intros i row Hr. exists row. rewrite H2. split; [done|apply row_grows_refl].
  - intros w x Hx. exists x. by rewrite H4.
  - intros q. by rewrite H5.
Qed.

(** ** Inserting a fact *)

(** The row of an inserted fact. *)
Record inserted st' o (ins : ObservationInsert) (row : ObservationRow J) (o' : NormalizedObservation J) : Prop := {
  inserted_row : so_observations st' !! observation_identity (key o) = Some row;
  inserted_id : or_id row = oi_id ins;
  inserted_decodes : decodes_to row o';
  inserted_evidence : evidence o' = evidence o;
  inserted_new : oi_is_new ins = true -> o' = o;
}.

Lemma prepare_Ok o prepared : prepare_observation (XE:=XE) (E:=E) o = Ok prepared ->
  ok_network (key o) = mi_network (market o) /\ po_slot prepared = slot (coordinate (key o)) /\
  in_sint 64 (slot (coordinate (key o))) /\ to_value (E:=E) o = Ok (po_normalized prepared).
Proof.
  unfold prepare_observation. intros H0. apply bind_Ok in H0 as ([] & Hn & H0).
  apply guard_err_Ok, negb_false_iff, bool_decide_eq_true in Hn.
  apply bind_Ok in H0 as ([] & _ & H0). apply bind_Ok in H0 as (slot_ & Hs & H0).
  apply ok_or_Ok, try_from_s_Some in Hs as [-> Hs]. apply bind_Ok in H0 as (ti & _ & H0).
  apply bind_Ok in H0 as (j & Hj & H0). unfold encode_json in Hj.
  destruct (to_value o) as [v|e]; [|done]. injection Hj as ->. injection H0 as <-. by split_and!.
Qed.

Lemma put_new_ok st o (v : J) :
  store_ok st -> so_observations st !! observation_identity (key o) = None ->
  ok_network (key o) = mi_network (market o) -> in_sint 64 (slot (coordinate (key o))) ->
  to_value (E:=E) o = Ok v ->
  let row := {| or_id := so_next_observation_id st; or_slot := slot (coordinate (key o));
                or_received_time_unix_ms := received_time_unix_ms o; or_normalized_observation := v |} in
  let st' := next_observation (put_observation (observation_identity (key o)) row st) in
  store_ok st' /\ grows st st'.
Proof.
  intros [R I W M] Hnone Hn Hs Hv row st'.
  assert (decodes_to row o) as Hd by (by apply serde_roundtrip).
  assert (forall i r, so_observations st !! i = Some r -> so_observations st' !! i = Some r) as Hkeep.
  { intros i r Hi. simpl. rewrite lookup_insert_ne; [done|]. intros <-. congruence. }
  split; split.
  - intros i r. simpl. rewrite lookup_insert_Some. intros [[<- <-]|[_ Hr]].
    + exists o. split; try done. simpl. lia.
    + destruct (R _ _ Hr) as (o0 & [? ? ? ? ? ? ?]). exists o0. split; try done. lia.
  - intros i j r r'. simpl. rewrite !lookup_insert_Some. intros [[<- <-]|[Hi Hr]] [[<- <-]|[Hj Hr']] He; try done.
    + destruct (R _ _ Hr') as (o0 & [? ? ? ? ? ? ?]). simpl in He. lia.
    + destruct (R _ _ Hr) as (o0 & [? ? ? ? ? ? ?]). simpl in He. lia.
    + by eapply I.
  - exact W.
  - intros w i t Ht. destruct (M w i t Ht) as (x & k & r & o0 & Hx & Hr & H0). exists x, k, r, o0. split_and!; eauto; apply H0.
  - intros i r Hr. exists r. split; [by apply Hkeep|apply row_grows_refl].
  - simpl. eauto.
  - done.
Qed.

(** A receipt that moves to an earlier one. *)
Lemma lower_admissions_Some id at_ m q t :
  lower_admissions id at_ m !! q = Some t -> exists t0, m !! q = Some t0.
Proof. unfold lower_admissions. rewrite map_lookup_imap. destruct (m !! q) as [t0|]; [eauto|done]. Qed.
Lemma lower_admissions_is_Some id at_ m q : is_Some (m !! q) -> is_Some (lower_admissions id at_ m !! q).
Proof. unfold lower_admissions. rewrite map_lookup_imap. intros [t ->]. eauto. Qed.

Lemma put_lowered_ok st i row o0 at_ (v : J) :
  store_ok st -> so_observations st !! i = Some row -> row_ok (so_next_observation_id st) i row o0 ->
  at_ < received_time_unix_ms o0 -> opens_window st (or_id row) = false ->
  to_value (E:=E) (set_received at_ o0) = Ok v ->
  let row' := {| or_id := or_id row; or_slot := or_slot row; or_received_time_unix_ms := at_;
                 or_normalized_observation := v |} in
  let st' := set_members (lower_admissions (or_id row) at_ (so_members st)) (put_observation i row' st) in
  store_ok st' /\ grows st st' /\ decodes_to row' (set_received at_ o0).
Proof.
  intros [R I W M] Hi Hrow Hat Hop Hv row' st'.
  assert (decodes_to row' (set_received at_ o0)) as Hd by (by apply serde_roundtrip).
  split_and!; [split|split|done].
  - intros j r. simpl. rewrite lookup_insert_Some. intros [[<- <-]|[_ Hr]]; [|by apply R].
    destruct Hrow. exists (set_received at_ o0). by split.
  - intros j k r r'. simpl. rewrite !lookup_insert_Some. intros [[<- <-]|[Hj Hr]] [[<- <-]|[Hk Hr']] He; try done.
    + by eapply I.
    + by eapply I.
    + by eapply I.
  - exact W.
  - intros w k t Ht. simpl in Ht. apply lower_admissions_Some in Ht as [t0 Ht].
    destruct (M w k t0 Ht) as (x & j & r & o1 & Hx & Hr & Hid & Ho & Hb).
    destruct (decide (j = i)) as [->|Hne].
    + rewrite Hi in Hr. injection Hr as <-. exists x, i, row', (set_received at_ o0). simpl.
      rewrite lookup_insert_eq. split_and!; try done. apply (belongs_evidence _ o1); [|done].
      pose proof (row_decodes _ _ _ _ Hrow) as Hd0. unfold decodes_to in Hd0, Ho. rewrite Hd0 in Ho.
      injection Ho as <-. done.
    + exists x, j, r, o1. simpl. rewrite lookup_insert_ne by done. by split_and!.
  - intros j r Hr. simpl. destruct (decide (j = i)) as [->|Hne].
    + rewrite Hi in Hr. injection Hr as <-. exists row'. rewrite lookup_insert_eq. split; [done|].
      split_and!; [done..|]. intros o Ho. pose proof (row_decodes _ _ _ _ Hrow) as Hd0.
      unfold decodes_to in Hd0, Ho. rewrite Hd0 in Ho. injection Ho as <-. exists at_.
      split_and!; [done|lia|congruence].
    + exists r. rewrite lookup_insert_ne by done. split; [done|apply row_grows_refl].
  - simpl. eauto.
  - intros q Hq. simpl. by apply lower_admissions_is_Some.
Qed.

Lemma insert_chain_ok o st ins st' :
  store_ok st -> insert_chain_observation_unprepared (XE:=XE) (E:=E) o st = (Ok ins, st') ->
  store_ok st' /\ grows st st' /\ so_windows st' = so_windows st /\
  so_next_window_id st' = so_next_window_id st /\ exists row o', inserted st' o ins row o'.
Proof.
  intros Hok H0. apply stateful_bind_Ok in H0 as (prepared & st0 & Hp & H0). injection Hp as Hp <-.
  apply prepare_Ok in Hp as (Hn & Hslot & Hs & Hv). unfold insert_chain_observation in H0.
  apply stateful_bind_Ok in H0 as (existing & st1 & He & H0). injection He as <- <-.
  destruct (so_observations st !! observation_identity (key o)) as [row|] eqn:Hrow.
  - destruct (ok_rows _ Hok _ _ Hrow) as (o0 & Hr). unfold replay_observation in H0.
    apply stateful_bind_Ok in H0 as (stored & st1 & Hd & H0). injection Hd as Hd <-.
    unfold decode_json in Hd. rewrite (row_decodes _ _ _ _ Hr) in Hd. cbn [map_err] in Hd. injection Hd as <-.
    destruct (compatible_replay o0 o) eqn:Hc; cbn [negb] in H0; [|done].
    apply compatible_replay_evidence in Hc.
    apply stateful_bind_Ok in H0 as (opens & st1 & Ho & H0). injection Ho as <- <-.
    apply stateful_bind_Ok in H0 as ([] & st1 & Hl & H0). injection H0 as <- <-.
    destruct (_ && _) eqn:Eb.
    + apply andb_true_iff in Eb as [Hlt Hop]. apply negb_true_iff in Hop.
      apply stateful_bind_Ok in Hl as (v & st2 & Henc & Hl). injection Henc as Henc <-. injection Hl as <-.
      unfold encode_json in Henc. destruct (to_value (set_received _ _)) as [v'|] eqn:Ev; [|done].
      injection Henc as ->.
      destruct (put_lowered_ok st _ row o0 _ v Hok Hrow Hr (proj1 (Z.ltb_lt _ _) Hlt) Hop Ev) as (A & B & C).
      split_and!; [exact A|exact B|done|done|]. eexists _, _.
      split; [simpl; by rewrite lookup_insert_eq|reflexivity|exact C| |done].
      rewrite set_received_evidence. by symmetry.
    + injection Hl as <-. split_and!; [done|reflexivity|done|done|]. exists row, o0.
      split; [done|done|apply Hr|by symmetry|done].
  - apply stateful_bind_Ok in H0 as (id & st1 & Hid & H0). injection Hid as <- <-.
    apply stateful_bind_Ok in H0 as ([] & st1 & Hm & H0). injection Hm as <-. injection H0 as <- <-.
    rewrite Hslot. destruct (put_new_ok st o (po_normalized prepared) Hok Hrow Hn Hs Hv) as (A & B).
    split_and!; [exact A|exact B|done|done|]. eexists _, o.
    split; [simpl; by rewrite lookup_insert_eq|reflexivity|by apply serde_roundtrip|done|done].
Qed.

(** ** The transactions *)
Definition sound_step st st' : Prop := store_ok st' /\ grows st st'.

Lemma transaction_ok {A} (body : StoreM (TxEnd A)) st :
  store_ok st -> (forall a st', body st = (Ok (Commit a), st') -> sound_step st st') ->
  sound_step st (transaction body st).2.
Proof.
  intros Hok Hb. destruct (transaction_inv body st) as [->|(a & st' & Hbody & ->)];
    [split; [done|reflexivity]|by apply (Hb a)].
Qed.

Lemma same_tables_step st st1 st2 : sound_step st st1 -> same_tables st1 st2 -> sound_step st st2.
Proof.
  intros [Hok Hg] Hs. split; [by eapply same_tables_ok|]. etrans; [exact Hg|by apply same_tables_grows].
Qed.

(** Queued work is not part of the facts. *)
Lemma enqueue_same_tables ins st a st' :
  (if oi_is_new ins then enqueue_discovery_work (XE:=XE) (E:=E) (oi_id ins) else mret tt) st = (Ok a, st') ->
  same_tables st st'.
Proof. destruct (oi_is_new ins); by intros [= _ <-]. Qed.

Lemma insert_observation_step o st :
  store_ok st -> sound_step st (store_insert_observation (XE:=XE) (E:=E) o st).2.
Proof.
  intros Hok. unfold store_insert_observation. rewrite bind_eq. unfold st_lift at 1.
  destruct (prepare_observation o) as [prepared|e] eqn:Ep; simpl; [|split; [done|reflexivity]].
  apply transaction_ok; [done|]. intros a st' H0. apply stateful_bind_Ok in H0 as (ins & st1 & Hi & H0).
  assert (insert_chain_observation_unprepared (XE:=XE) (E:=E) o st = (Ok ins, st1)) as Hu.
  { unfold insert_chain_observation_unprepared. rewrite bind_eq. unfold st_lift. by rewrite Ep. }
  apply insert_chain_ok in Hu as (Hok1 & Hg1 & _); [|done].
  apply stateful_bind_Ok in H0 as ([] & st2 & He & H0). injection H0 as _ <-.
  apply enqueue_same_tables in He. by eapply same_tables_step.
Qed.

(** A membership of a fact that belongs to the window. *)
Lemma put_member_ok st w x k row o id t :
  store_ok st -> so_windows st !! w = Some x -> so_observations st !! k = Some row -> or_id row = id ->
  decodes_to row o -> belongs (ow_identity x) o ->
  sound_step st (set_members (<[(w, id) := t]> (so_members st)) st).
Proof.
  intros Hok Hx Hr Hid Ho Hb. split.
  - split; try apply Hok. intros w' i' t' Ht. simpl in Ht. apply lookup_insert_Some in Ht as [[[= <- <-] _]|[_ Ht]].
    + exists x, k, row, o. by split_and!.
    + exact (ok_members _ Hok _ _ _ Ht).
  - split; [|simpl; eauto|].
    + intros i r Hi. exists r. split; [done|apply row_grows_refl].
    + intros q [t0 Ht]. simpl. destruct (decide (q = (w, id))) as [->|Hne].
      * by rewrite lookup_insert_eq.
      * rewrite lookup_insert_ne by done. by eexists.
Qed.

Lemma insert_membership_step st w x k row o id at_ st' :
  store_ok st -> so_windows st !! w = Some x -> so_observations st !! k = Some row -> or_id row = id ->
  decodes_to row o -> belongs (ow_identity x) o ->
  insert_membership (XE:=XE) (E:=E) w id at_ st = (Ok tt, st') -> sound_step st st'.
Proof. intros Hok Hx Hr Hid Ho Hb [= <-]. by eapply put_member_ok. Qed.

Lemma put_window_ok st x :
  store_ok st -> wi_id (ow_identity x) = so_next_window_id st ->
  wi_opened_at_unix_ms (ow_identity x) < wi_closes_at_unix_ms (ow_identity x) ->
  sound_step st (put_window (so_next_window_id st) x st).
Proof.
  intros Hok Hid Hop.
  assert (forall w y, so_windows st !! w = Some y ->
    <[so_next_window_id st := x]> (so_windows st) !! w = Some y) as Hkeep.
  { intros w y Hy. rewrite lookup_insert_ne; [done|]. intros <-.
    destruct (ok_windows _ Hok _ _ Hy) as (_ & Hlt & _). lia. }
  split; split; simpl; try apply Hok.
  - intros w y. rewrite lookup_insert_Some. intros [[<- <-]|[_ Hy]]; [split_and!; [done|lia|done]|].
    destruct (ok_windows _ Hok _ _ Hy) as (H1 & H2 & H3). split_and!; [done|lia|done].
  - intros w i t Ht. destruct (ok_members _ Hok _ _ _ Ht) as (y & k & row & o & Hy & H1).
    exists y, k, row, o. split; [by apply Hkeep|done].
  - intros i r Hi. exists r. split; [done|apply row_grows_refl].
  - intros w y Hy. exists y. split; [by apply Hkeep|done].
  - done.
Qed.

Lemma new_window_row_Ok o window row : new_window_row (XE:=XE) (E:=E) o window = Ok row ->
  forall id, wi_id (row id) = id /\ wi_status (row id) = "ACTIVE"%string /\ belongs (row id) o /\
    wi_opened_at_unix_ms (row id) = nw_opened_at_unix_ms window /\
    wi_closes_at_unix_ms (row id) = nw_closes_at_unix_ms window.
Proof.
  unfold new_window_row. intros H0. apply bind_Ok in H0 as (a & _ & H0). apply bind_Ok in H0 as (b & _ & H0).
  apply bind_Ok in H0 as (c & _ & H0). apply bind_Ok in H0 as (d & _ & H0). injection H0 as <-.
  intros id. split_and!; try done.
Qed.

Lemma open_window_step o window st :
  store_ok st -> sound_step st (store_open_window (XE:=XE) (E:=E) o window st).2.
Proof.
  intros Hok. unfold store_open_window. rewrite bind_eq. unfold st_lift at 1.
  destruct (validate_new_window o window) as [[]|e] eqn:Ev; [|split; [done|reflexivity]].
  assert (nw_opened_at_unix_ms window < nw_closes_at_unix_ms window) as Hbounds.
  { unfold validate_new_window in Ev. apply bind_Ok in Ev as ([] & Ev & _). apply guard_err_Ok in Ev. lia. }
  apply transaction_ok; [done|]. intros a st' H0.
  apply stateful_bind_Ok in H0 as (ins & st1 & Hi & H0).
  apply insert_chain_ok in Hi as (Hok1 & Hg1 & Hw1 & Hnw1 & row & o' & [Hrow Hid Hd He _]); [|done].
  apply stateful_bind_Ok in H0 as ([] & st2 & Hq & H0). apply enqueue_same_tables in Hq.
  assert (sound_step st st2) as Hs2 by (eapply same_tables_step; [by split|done]).
  destruct Hq as (_ & Hobs & _ & _ & _).
  apply stateful_bind_Ok in H0 as (mk & st3 & Hm & H0). injection Hm as Hm <-.
  apply stateful_bind_Ok in H0 as (conflicting & st3 & Hc & H0). injection Hc as _ <-.
  destruct conflicting as [existing|].
  { apply stateful_bind_Ok in H0 as ([] & st3 & _ & H0). by injection H0. }
  apply stateful_bind_Ok in H0 as (wid & st3 & Hwid & H0). injection Hwid as <- <-.
  apply stateful_bind_Ok in H0 as ([] & st3 & Hput & H0). injection Hput as <-.
  apply stateful_bind_Ok in H0 as ([] & st4 & Hmem & H0).
  apply stateful_bind_Ok in H0 as ([] & st5 & Hann & H0). injection Hann as <-. injection H0 as _ <-.
  pose proof (new_window_row_Ok _ _ _ Hm (so_next_window_id st2)) as (N1 & _ & N3 & N4 & N5).
  set (x := {| ow_identity := mk (so_next_window_id st2) |}) in *.
  destruct (put_window_ok st2 x (proj1 Hs2) N1 ltac:(simpl; lia)) as [Hok3 Hg3].
  set (st3 := put_window (so_next_window_id st2) x st2) in *.
  apply (same_tables_step _ st4); [|by split_and!].
  apply (insert_membership_step _ _ x (observation_identity (key o)) row o') in Hmem as [Hok4 Hg4]; try done.
  - split; [exact Hok4|]. etrans; [apply Hs2|]. etrans; [exact Hg3|exact Hg4].
  - simpl. by rewrite lookup_insert_eq.
  - simpl. by rewrite Hobs.
  - eapply belongs_evidence; [exact He|exact N3].
Qed.

Lemma row_by_id_Some st id row : row_by_id st id = Some row ->
  exists k, so_observations st !! k = Some row /\ or_id row = id.
Proof.
  unfold row_by_id. intros [Hin Hid]%find_some. rewrite <- list_elem_of_In in Hin.
  apply list_elem_of_fmap in Hin as ([k r] & -> & Hin). apply elem_of_map_to_list in Hin.
  exists k. split; [done|by apply Z.eqb_eq].
Qed.

Lemma insert_window_observation_step w o st :
  store_ok st -> sound_step st (store_insert_window_observation row_not_found (E:=E) w o st).2.
Proof.
  intros Hok. apply transaction_ok; [done|]. intros a st' H0.
  apply stateful_bind_Ok in H0 as (found & st1 & Hf & H0). injection Hf as <- <-.
  apply stateful_bind_Ok in H0 as (window & st1 & Hw & H0). injection Hw as Hw <-.
  apply ok_or_Ok in Hw. destruct (so_windows st !! w) as [x|] eqn:Hx; [|done]. injection Hw as <-.
  apply stateful_bind_Ok in H0 as (ins & st1 & Hi & H0).
  apply insert_chain_ok in Hi as (Hok1 & Hg1 & Hw1 & _ & row & o' & [Hrow Hid Hd He Hnew]); [|done].
  apply stateful_bind_Ok in H0 as (already & st2 & Ha & H0). injection Ha as _ <-.
  destruct (_ && _); [injection H0 as _ <-; by split|].
  apply stateful_bind_Ok in H0 as (admitted & st2 & Had & H0).
  assert (st2 = st1 /\ exists k r, so_observations st1 !! k = Some r /\ or_id r = oi_id ins /\
    decodes_to r admitted) as [-> (k & r & Hk & Hkid & Hkd)].
  { destruct (oi_is_new ins).
    - injection Had as <- <-. rewrite Hnew in Hd by done. eauto 6.
    - apply stateful_bind_Ok in Had as (fr & st3 & Hfr & Had). injection Hfr as <- <-.
      destruct (row_by_id st1 (oi_id ins)) as [r|] eqn:Hr; [|done]. apply row_by_id_Some in Hr as (k & Hk & Hkid).
      injection Had as Had <-. unfold decode_json in Had.
      destruct (from_value (or_normalized_observation r)) as [o1|] eqn:Eo; [|done]. injection Had as <-.
      split; [done|]. exists k, r. by split_and!. }
  apply stateful_bind_Ok in H0 as ([] & st2 & Hv & H0). injection Hv as Hv <-.
  apply membership_belongs in Hv as (Hb & _).
  apply stateful_bind_Ok in H0 as ([] & st2 & Hq & H0). apply enqueue_same_tables in Hq.
  assert (sound_step st st2) as Hs2 by (eapply same_tables_step; [by split|done]).
  destruct Hq as (_ & Hobs & _ & Hwin & _).
  apply stateful_bind_Ok in H0 as ([] & st3 & Hmem & H0). injection H0 as _ <-.
  apply (insert_membership_step _ _ x k r admitted) in Hmem as [Hok4 Hg4]; try done.
  - split; [exact Hok4|]. etrans; [apply Hs2|exact Hg4].
  - apply Hs2.
  - by rewrite Hwin, Hw1.
  - by rewrite Hobs.
Qed.

(** A finalization changes the status of its window. *)
Lemma put_finalization_ok st x (writes : FinalizationWrites J) :
  store_ok st -> so_windows st !! wi_id (ow_identity x) = Some x ->
  store_ok (put_finalization x writes st) /\ evolves st (put_finalization x writes st).
Proof.
  intros Hok Hx. split; split; simpl; try apply Hok.
  - intros w y. rewrite lookup_insert_Some. intros [[<- <-]|[_ Hy]].
    + destruct (ok_windows _ Hok _ _ Hx) as (_ & H2 & H3). by split_and!.
    + by apply (ok_windows _ Hok).
  - intros w i t Ht. destruct (ok_members _ Hok _ _ _ Ht) as (y & k & row & o & Hy & Hr & Hid & Ho & Hb).
    destruct (decide (w = wi_id (ow_identity x))) as [->|Hne].
    + rewrite Hx in Hy. injection Hy as <-. eexists _, k, row, o. rewrite lookup_insert_eq.
      split_and!; [done..|]. simpl. by apply belongs_status.
    + exists y, k, row, o. rewrite lookup_insert_ne by done. by split_and!.
  - intros i r Hi. exists r. split; [done|apply row_grows_refl].
  - intros w y Hy. destruct (decide (w = wi_id (ow_identity x))) as [->|Hne].
    + rewrite Hx in Hy. injection Hy as <-. eexists. by rewrite lookup_insert_eq.
    + exists y. rewrite lookup_insert_ne by done. split; [done|reflexivity].
  - done.
Qed.
End Proofs.
