(* ===== verification/FinalizationProofs.v ===== *)
(** The canonical finalization of a durable window passes every check that is
    made of a finalization, and its construction fails only on its inputs. *)
From S2P Require Import Prelude.
From S2P Require Import ListFacts.
From S2P Require Import RustOrd.
From S2P Require Import BTree.
From S2P Require Import RustStr.
From S2P Require Import Decimal.
From S2P Require Import Domain.
From S2P Require Import External.
From S2P Require Import SnapshotArith.
From S2P Require Import Snapshot.
From S2P Require Import SnapshotSpec.
From S2P Require Import SnapshotTheorems.
From S2P Require Import Qualification.
From S2P Require Import ApiContracts.
From S2P Require Import PersistenceModel.
From S2P Require Import Finalization.
From S2P Require Import FinalizeTx.

(** ** Text that is not blank *)
Fixpoint has (a : Ascii.ascii) (s : string) : Prop :=
  match s with EmptyString => False | String b s' => b = a \/ has a s' end.
Definition visible (a : Ascii.ascii) : Prop := 33 <= ascii_val a <= 127.

Lemma visible_ws a b c : visible a ->
  ws1 a = false /\ ws2 a b = false /\ ws2 b a = false /\
  ws3 a b c = false /\ ws3 b a c = false /\ ws3 b c a = false.
Proof.
  unfold visible, ws1, ws2, ws3. intros H.
  assert (forall z, (z < 33 \/ 127 < z) -> (ascii_val a =? z) = false) as E.
  { intros z Hz. apply Z.eqb_neq. lia. }
  assert (forall lo hi, (127 < lo \/ hi < 33) -> (lo <=? ascii_val a) && (ascii_val a <=? hi) = false) as B.
  { intros lo hi Hz. apply andb_false_iff. rewrite !Z.leb_gt. lia. }
  rewrite ?E, ?B by lia. simpl. rewrite ?andb_false_r. done.
Qed.

Lemma string_ind_len (P : string -> Prop) :
  (forall s, (forall s', (String.length s' < String.length s)%nat -> P s') -> P s) -> forall s, P s.
Proof.
  intros H s. apply (well_founded_induction (Wf_nat.well_founded_ltof _ String.length)).
  intros x IH. apply H. intros y Hy. by apply IH.
Qed.

Lemma trim_start_has a s : visible a -> has a s -> has a (trim_start s).
Proof.
  intros Hv. induction s as [s IH] using string_ind_len. intros Hs.
  destruct s as [|x s1]; [done|]. simpl. destruct (visible_ws a x x Hv) as (W1 & _).
  destruct (ws1 x) eqn:E1.
  { apply IH; [simpl; lia|]. destruct Hs as [->|Hs]; [congruence|done]. }
  destruct s1 as [|y s2]; [done|]. destruct (ws2 x y) eqn:E2.
  { apply IH; [simpl; lia|]. destruct (visible_ws a y y Hv) as (_ & A1 & _).
    destruct (visible_ws a x x Hv) as (_ & _ & A2 & _).
    destruct Hs as [->|[->|Hs]]; [congruence|congruence|done]. }
  destruct s2 as [|z s3]; [done|]. destruct (ws3 x y z) eqn:E3; [|done].
  apply IH; [simpl; lia|]. destruct (visible_ws a y z Hv) as (_ & _ & _ & A1 & _).
  destruct (visible_ws a x z Hv) as (_ & _ & _ & _ & A2 & _).
  destruct (visible_ws a x y Hv) as (_ & _ & _ & _ & _ & A3).
  destruct Hs as [->|[->|[->|Hs]]]; [congruence|congruence|congruence|done].
Qed.

Lemma trim_start_rev_has a s : visible a -> has a s -> has a (trim_start_rev s).
Proof.
  intros Hv. induction s as [s IH] using string_ind_len. intros Hs.
  destruct s as [|x s1]; [done|]. simpl. destruct (visible_ws a x x Hv) as (W1 & _).
  destruct (ws1 x) eqn:E1.
  { apply IH; [simpl; lia|]. destruct Hs as [->|Hs]; [congruence|done]. }
  destruct s1 as [|y s2]; [done|]. destruct (ws2 y x) eqn:E2.
  { apply IH; [simpl; lia|]. destruct (visible_ws a y y Hv) as (_ & _ & A1 & _).
    destruct (visible_ws a x x Hv) as (_ & A2 & _).
    destruct Hs as [->|[->|Hs]]; [congruence|congruence|done]. }
  destruct s2 as [|z s3]; [done|]. destruct (ws3 z y x) eqn:E3; [|done].
  apply IH; [simpl; lia|]. destruct (visible_ws a z y Hv) as (_ & _ & _ & _ & _ & A1).
  destruct (visible_ws a z x Hv) as (_ & _ & _ & _ & A2 & _).
  destruct (visible_ws a y x Hv) as (_ & _ & _ & A3 & _).
  destruct Hs as [->|[->|[->|Hs]]]; [congruence|congruence|congruence|done].
Qed.

Lemma str_rev_app_has a s acc : has a (str_rev_app s acc) <-> has a s \/ has a acc.
Proof. revert acc. induction s as [|b s IH]; intros acc; simpl; [tauto|]. rewrite IH. simpl. tauto. Qed.

Lemma not_blank a s : visible a -> has a s -> is_blank s = false.
Proof.
  intros Hv Hs. unfold is_blank, trim, trim_end, str_rev, is_empty.
  assert (has a (str_rev_app (trim_start_rev (str_rev_app (trim_start s) "")) "")) as H.
  { apply str_rev_app_has. left. apply trim_start_rev_has; [done|]. apply str_rev_app_has. left.
    by apply trim_start_has. }
  by destruct (str_rev_app _ _).
Qed.

(** ** Sets of reasons *)
Lemma bset_elements_idem (l : list string) :
  bset_of_list (bset_elements (bset_of_list l)) = bset_of_list l.
Proof.
  apply bt_wf_ext; [apply bset_of_list_wf..|]. intros k.
  assert (forall l : list string, bt_get k (bset_of_list l) = Some tt <-> k ∈ l) as E.
  { intros l'. unfold bset_of_list. rewrite bset_get_fold. simpl. naive_solver. }
  pose proof (E l) as E1. pose proof (E (bset_elements (bset_of_list l))) as E2.
  rewrite bset_elem, <- E1 in E2.
  destruct (bt_get k (bset_of_list l)) as [[]|], (bt_get k (bset_of_list (bset_elements _))) as [[]|];
    naive_solver.
Qed.

(** ** The loop over the rules *)
Lemma validate_rules_Ok {XE E} seen rules :
  bt_wf seen -> validate_rules (XE:=XE) (E:=E) seen rules = Ok tt <->
  Forall (fun r => is_blank (rule_id r) = false /\ is_blank (rule_version r) = false /\
                   is_blank (reason_code r) = false) rules /\
  NoDup (rule_id <$> rules) /\ Forall (fun r => bt_get (rule_id r) seen = None) rules.
Proof.
  revert seen. induction rules as [|r rules IH]; intros seen Hwf; csimpl.
  { split; [repeat constructor|done]. }
  rewrite !bind_unit_Ok, !guard_err_Ok, !orb_false_iff, NoDup_cons, !Forall_cons.
  rewrite IH by by apply bt_wf_insert. unfold bset_insert.
  assert (Forall (fun r0 => bt_get (rule_id r0) (bt_insert (rule_id r) tt seen) = None) rules <->
    rule_id r ∉ rule_id <$> rules /\ Forall (fun r0 => bt_get (rule_id r0) seen = None) rules) as ->.
  { rewrite list_elem_of_fmap, !Forall_forall. split.
    - intros H. split.
      + intros (r' & He & Hin). specialize (H _ Hin). rewrite He, bt_get_insert_eq in H. done.
      + intros r' Hin. specialize (H _ Hin). destruct (decide (rule_id r' = rule_id r)) as [He|Hne].
        * rewrite He, bt_get_insert_eq in H. done.
        * by rewrite bt_get_insert_ne in H.
    - intros [Hnin H] r' Hin. rewrite bt_get_insert_ne; [by apply H|]. intros He. apply Hnin. eauto. }
  destruct (bt_get (rule_id r) seen); naive_solver.
Qed.

(** ** Settings *)
Lemma settings_policy_valid {J} (window : DiscoveryWindowRecord J) :
  qualification_validate (wr_qualification_values window) = Ok tt ->
  policy_validate (qualification_policy window) = Ok tt /\
  0 <= maximum_single_wallet_quote_volume_bps (qualification_policy window).
Proof.
  intros (_ & _ & _ & _ & _ & _ & Hmax & H1 & H2 & H3)%qualification_validate_Ok.
  unfold bounded in Hmax. simpl in Hmax. split; [|simpl; lia].
  apply policy_validate_Ok. unfold qualification_policy. simpl.
  split_and!; try done; [|change BASIS_POINTS_SCALE with 10000; lia].
  apply (not_blank (Ascii.ascii_of_nat 113)); [vm_compute; split; congruence|]. by left.
Qed.

Lemma into_record_Ok {J XE E} `{SP : !SerdeJson PrefilterDefaults J E}
    `{SQ : !SerdeJson QualificationDefaults J E} (row : WindowIdentityRow J) obs record :
  into_record (XE:=XE) (E:=E) row obs = Ok record ->
  wr_window_id record = wi_id row /\ wr_observations record = obs /\
  wr_opened_at_unix_ms record = wi_opened_at_unix_ms row /\
  wr_closes_at_unix_ms record = wi_closes_at_unix_ms row /\
  wr_qualification_revision record = wi_qualification_revision row /\
  in_uint 64 (wi_qualification_revision row) /\
  mi_mint (wr_market record) = wi_mint row /\
  qualification_validate (wr_qualification_values record) = Ok tt.
Proof.
  unfold into_record. intros H.
  apply bind_Ok in H as (network & _ & H). apply bind_Ok in H as (source & _ & H).
  apply bind_Ok in H as (venue & _ & H). apply bind_Ok in H as (pv & _ & H).
  apply bind_Ok in H as (u & _ & H). apply bind_Ok in H as (qv & _ & H).
  apply bind_Ok in H as (u' & Hq & H). apply bind_Ok in H as (pr & _ & H).
  apply bind_Ok in H as (qr & Hqr & H). injection H as <-. simpl.
  unfold to_u64 in Hqr. apply ok_or_Ok, try_from_u_Some in Hqr as [-> Hqr].
  split_and!; try done. destruct (qualification_validate qv) as [[]|]; [done|discriminate Hq].
Qed.

(** The policy of validated settings evaluates every snapshot of typed
    observations. *)
Lemma evaluation_succeeds {J} (window : DiscoveryWindowRecord J) m opened closes c
    (l : list (NormalizedObservation J)) :
  qualification_validate (wr_qualification_values window) = Ok tt ->
  Forall observation_typed l -> Z.of_nat (length l) <= u64_max ->
  exists a, evaluate_qualification (snapshot_of m opened closes c l) (qualification_policy window) = Ok a.
Proof.
  intros Hset Ht Hlen. destruct (settings_policy_valid _ Hset) as [Hp _]. unfold evaluate_qualification.
  rewrite Hp. cbn [mbind result_bind]. destruct (negb _); [by eexists|].
  change (total_quote_volume_units (ms_metrics (snapshot_of m opened closes c l))) with
    (total_quote_units (metrics_of (omap accepted_trade l))).
  rewrite total_quote_units_volume by by apply accepted_samples_ok. by eexists.
Qed.

(** Every rule reports the latest slot of the snapshot. *)
Lemma evaluated_slots s p a :
  evaluate_qualification s p = Ok a -> Forall (fun r => observed_slot r = ms_latest_observed_slot s) (qa_rules a).
Proof.
  unfold evaluate_qualification. intros H. apply bind_Ok in H as (u & _ & H).
  destruct (negb _). { injection H as <-. simpl. repeat constructor. }
  apply bind_Ok in H as (total & _ & H). injection H as <-. simpl.
  repeat apply List.Forall_cons; try apply List.Forall_nil; try done.
  - unfold quote_asset_rule. by destruct (classify_quote_asset s).
  - unfold quote_volume_rule. by destruct (classify_quote_asset s).
  - unfold wallet_concentration_rule. by destruct (mm_largest_wallet_quote_volume _).
Qed.

Lemma max_slot_range {J} (P : Z -> Prop) (l : list (NormalizedObservation J)) s :
  Forall (fun o => P (slot (coordinate (key o)))) l -> max_slot l = Some s -> P s.
Proof.
  revert s. induction l as [|o l IH] using rev_ind; intros s Hf Hs; [done|].
  rewrite max_slot_snoc in Hs. injection Hs as <-. apply Forall_app in Hf as [Hf Ho].
  apply Forall_cons in Ho as [Ho _]. destruct (max_slot l) as [m|]; [|done].
  destruct (Z.max_spec m (slot (coordinate (key o)))) as [[_ ->]|[_ ->]]; [done|]. by apply IH.
Qed.

(** ** What the snapshot gives the summary *)
Lemma positive_count {A} (f : A -> Z) (l : list A) :
  (forall x, x ∈ l -> 0 <= f x) -> Z.of_nat (length (List.filter (fun x => f x >? 0) l)) <= sum_of f l.
Proof.
  induction l as [|x l IH]; intros H; simpl; [lia|].
  assert (0 <= f x) by (apply H; left). specialize (IH ltac:(intros y Hy; apply H; by right)).
  destruct (Z.gtb_spec (f x) 0); simpl length; lia.
Qed.

Lemma wallet_values_nonneg ts v : v ∈ bt_values (wallets_of ts) -> 0 <= wm_buys v /\ 0 <= wm_sells v.
Proof.
  unfold bt_values, wallets_of. rewrite <- list_fmap_compose.
  intros (w & -> & _)%list_elem_of_fmap. simpl. lia.
Qed.

Lemma largest_share_bound ts s : samples_ok ts -> largest_wallet ts = Some s -> wvs_share_bps s <= 10000.
Proof.
  intros Hok Hs. pose proof (largest_wallet_spec ts Hok) as H. cbv zeta in H. rewrite Hs in H.
  destruct H as (Hin & _ & [Hlo _] & _).
  assert (ts <> []) as Hne by (intros ->; by apply elem_of_nil in Hin).
  pose proof (volume_pos ts Hok Hne).
  assert (volume_of (wallet_samples (wvs_wallet s) ts) <= volume_of ts); [|nia].
  apply sum_of_filter_le. destruct Hok as [Hok _]. eapply Forall_impl; [exact Hok|].
  intros t [_ ?]. lia.
Qed.

Lemma window_counts n creators ts :
  samples_ok ts ->
  let m := window_metrics n creators ts in
  checked_add_u 64 (mm_buys m) (mm_sells m) = Some (mm_trades m) /\
  mm_unique_traders m <= mm_trades m /\ mm_unique_buyers m <= mm_buys m /\
  mm_unique_sellers m <= mm_sells m /\
  (forall s, mm_largest_wallet_quote_volume m = Some s -> wvs_share_bps s <= 10000).
Proof.
  intros Hok. cbv zeta. simpl. pose proof (side_length_split ts). destruct Hok as [Hs Hlen].
  split_and!.
  - apply checked_add_u_Some. rewrite side_length_split. split; [done|exact Hlen].
  - pose proof (length_wallets_le ts). lia.
  - unfold count_wallets. pose proof (wallets_sum wm_buys (on_side Buy (fun _ => 1)) ts
      ltac:(intros l; rewrite <- sum_on_side; apply length_sum)) as Hsum. simpl in Hsum. rewrite <- Hsum.
    apply positive_count. intros v Hv. by destruct (wallet_values_nonneg ts v Hv).
  - unfold count_wallets. pose proof (wallets_sum wm_sells (on_side Sell (fun _ => 1)) ts
      ltac:(intros l; rewrite <- sum_on_side; apply length_sum)) as Hsum. simpl in Hsum. rewrite <- Hsum.
    apply positive_count. intros v Hv. by destruct (wallet_values_nonneg ts v Hv).
  - intros s. by apply largest_share_bound.
Qed.

Lemma checked_decimal_sum_dec {XE E} a b field :
  0 <= a -> 0 <= b -> a + b <= u128_max ->
  checked_decimal_sum (XE:=XE) (E:=E) (dec a) (dec b) field = Ok (dec (a + b)).
Proof.
  intros Ha Hb Hab. change u128_max with (uint_max 128) in Hab.
  unfold checked_decimal_sum. rewrite !parse_dec by lia. cbn [ok_or mbind result_bind].
  assert (checked_add_u 128 a b = Some (a + b)) as -> by by apply checked_add_u_Some. done.
Qed.

Lemma window_volumes {XE E} n creators ts :
  samples_ok ts ->
  let m := window_metrics n creators ts in
  (exists base, checked_decimal_sum (XE:=XE) (E:=E) (dec (mm_buy_base_units m))
     (dec (mm_sell_base_units m)) "qualification base volume" = Ok base) /\
  (exists quote, checked_decimal_sum (XE:=XE) (E:=E) (dec (mm_buy_quote_units m))
     (dec (mm_sell_quote_units m)) "qualification quote volume" = Ok quote).
Proof.
  intros Hok. cbv zeta. simpl. pose proof square_fits.
  assert (forall f side, (forall l, samples_ok l -> 0 <= sum_of f l) -> 0 <= sum_of f (side_samples side ts)) as Hn.
  { intros f side Hf. apply Hf. by apply samples_ok_filter. }
  split; eexists; apply checked_decimal_sum_dec.
  all: rewrite ?side_split; try (apply Hn; intros l Hl; destruct (samples_ok_volume l Hl); lia).
  all: destruct (samples_ok_volume ts Hok); lia.
Qed.

(** ** What the evaluation gives the rules *)
Lemma aggregate_decision_aggregate rules : rules <> [] -> aggregate_decision rules = aggregate rules.
Proof. unfold aggregate_decision, aggregate. by destruct rules. Qed.

Definition nonblank_reason (c : SnapshotCompleteness) : Prop :=
  match c with Complete => True | Incomplete reason => is_blank reason = false end.

Lemma evaluated_rules_valid {XE E} s p a :
  evaluate_qualification s p = Ok a -> nonblank_reason (ms_completeness s) ->
  validate_rules (XE:=XE) (E:=E) [] (qa_rules a) = Ok tt /\
  aggregate_decision (qa_rules a) = qa_decision a.
Proof.
  intros H Hr. assert (rule_id <$> qa_rules a = rule_id_str <$> all_rule_ids) as Hids.
  { by destruct (qualification_rules_canonical _ _ _ H) as (_ & Hids & _). }
  rewrite validate_rules_Ok by constructor. rewrite Hids.
  assert (NoDup (rule_id_str <$> all_rule_ids)) as Hnd by (apply (bool_decide_eq_true_1 _); vm_compute; reflexivity).
  assert (Forall (fun r => bt_get (rule_id r) ([] : btree_set string) = None) (qa_rules a)) as Hg
    by by apply Forall_true.
  unfold evaluate_qualification in H. apply bind_Ok in H as (u & _ & H).
  destruct (ms_completeness s) as [|reason]; cbn [is_complete negb] in H.
  - apply bind_Ok in H as (total & _ & H). injection H as <-. cbn [qa_rules qa_decision] in *.
    split; [split_and!; [|done|done]|by apply aggregate_decision_aggregate].
    unfold quote_asset_rule, quote_volume_rule, wallet_concentration_rule, minimum_rule, rule.
    rewrite !Forall_cons, Forall_nil. split_and!; try done.
    all: repeat case_match; vm_compute; reflexivity.
  - injection H as <-. cbn [qa_rules qa_decision] in *. split; [split_and!; [|done|done]|done].
    rewrite !Forall_cons, Forall_nil. split_and!; first [exact Hr|vm_compute; reflexivity|done].
Qed.

Lemma built_reason_nonblank {J} c (l : list (NormalizedObservation J)) :
  blank_reason c = false -> nonblank_reason (completeness_of c l).
Proof.
  unfold completeness_of, nonblank_reason, blank_reason. destruct c as [|reason]; [|done].
  intros _. induction l as [|o l IH]; csimpl; [done|].
  unfold malformed_reason at 1. destruct (payload o); try exact IH.
  destruct (is_empty _); [vm_compute; reflexivity|]. destruct (_ || _); [vm_compute; reflexivity|exact IH].
Qed.

(** ** The canonical finalization *)
Section Canonical.
Context {J XE E : Type} `{EqDecision J}.
Context `{SP : !SerdeJson PrefilterDefaults J E} `{SQ : !SerdeJson QualificationDefaults J E}
  `{SS : !SerdeJson MarketWindowSnapshot J E} `{SA : !SerdeJson QualificationAssessment J E}
  `{SW : !SerdeJson DiscoveryWindowSummary J E} `{ST : !SerdeJson DiscoveryToken J E}.

Definition requested (reason : option string) : SnapshotCompleteness :=
  match reason with Some r => Incomplete r | None => Complete end.

(** The parts of a built finalization. *)
Lemma build_finalization_inv (record : DiscoveryWindowRecord J) at_ reason f :
  build_discovery_window_finalization (XE:=XE) record at_ reason = Ok f ->
  exists snapshot a, build_market_window_snapshot (wr_market record) (wr_opened_at_unix_ms record)
      (wr_closes_at_unix_ms record) (requested reason) (wr_observations record) = Ok snapshot /\
    evaluate_qualification snapshot (qualification_policy record) = Ok a /\
    canonical_discovery_summary (XE:=XE) (E:=E) record snapshot a at_ = Ok (fz_summary f) /\
    to_value (E:=E) snapshot = Ok (fz_snapshot f) /\ to_value (E:=E) a = Ok (fz_assessment f) /\
    fz_window_id f = wr_window_id record /\ fz_finalized_at_unix_ms f = at_ /\
    fz_completeness f = snapshot_completeness snapshot /\
    fz_completeness_reason f = completeness_reason (ms_completeness snapshot) /\
    fz_feature_version f = MARKET_WINDOW_FEATURE_VERSION /\
    fz_observation_count f = mm_observations (ms_metrics snapshot) /\
    fz_decision f = qa_decision a /\ fz_rules f = qa_rules a.
Proof.
  unfold build_discovery_window_finalization, encode_json. intros H. fold (requested reason) in H.
  destruct (build_market_window_snapshot _ _ _ _ _) as [snapshot|x]; [|done]. cbn [map_err mbind result_bind] in H.
  destruct (evaluate_qualification _ _) as [a|x] eqn:Ea; [|done]. cbn [map_err mbind result_bind] in H.
  destruct (canonical_discovery_summary _ _ _ _) as [summary|x] eqn:Es; [|done].
  cbn [mbind result_bind] in H. destruct (to_value snapshot) as [sv|x] eqn:Esv; [|done].
  cbn [map_err mbind result_bind] in H. destruct (to_value a) as [av|x] eqn:Eav; [|done].
  cbn [map_err mbind result_bind] in H. injection H as <-. exists snapshot, a. simpl. split_and!; done.
Qed.

(** A snapshot asked for as incomplete is incomplete. *)
Lemma build_loop_incomplete reason (l : list (NormalizedObservation J)) st st' :
  build_loop st l = Ok st' -> b_completeness st = Incomplete reason -> b_completeness st' = Incomplete reason.
Proof.
  revert st. induction l as [|o l IH]; intros st; [by intros [= <-]|]. simpl. intros H Hc.
  apply bind_Ok in H as (st1 & H1 & H). apply (IH st1 H). revert H1. unfold build_step.
  destruct (payload o) as [| |side wallet ba qa br qr| | | |]; try (intros [= <-]; exact Hc).
  unfold build_trade. destruct (is_empty _).
  { intros [= <-]. cbn [build_malformed b_completeness build_seen]. by rewrite Hc. }
  destruct (_ || _). { intros [= <-]. cbn [build_malformed b_completeness build_seen]. by rewrite Hc. }
  intros H1. apply bind_Ok in H1 as (ratio & _ & H1). apply bind_Ok in H1 as (acc & _ & H1).
  by injection H1 as <-.
Qed.

Lemma requested_incomplete m opened closes reason (obs : list (NormalizedObservation J)) snapshot :
  build_market_window_snapshot m opened closes (Incomplete reason) obs = Ok snapshot ->
  ms_completeness snapshot = Incomplete reason.
Proof.
  unfold build_market_window_snapshot. destruct (_ <=? _); [done|]. destruct (is_empty _); [done|].
  intros H. cbv zeta in H. apply bind_Ok in H as ([] & _ & H). apply bind_Ok in H as (st & Hl & H).
  apply bind_Ok in H as (n & _ & H). apply bind_Ok in H as (metrics & _ & H).
  apply bind_Ok in H as (prices & _ & H). injection H as <-. simpl. by eapply build_loop_incomplete.
Qed.

Lemma built_complete (record : DiscoveryWindowRecord J) at_ reason f :
  build_discovery_window_finalization (XE:=XE) record at_ reason = Ok f ->
  fz_completeness f = WcComplete -> reason = None.
Proof.
  intros H Hc. apply build_finalization_inv in H as (snapshot & a & Hs & _ & _ & _ & _ & _ & _ & Hf & _).
  destruct reason as [r|]; [|done]. apply requested_incomplete in Hs. rewrite Hf in Hc.
  unfold snapshot_completeness in Hc. by rewrite Hs in Hc.
Qed.

(** The finalization rebuilt with the reason it records is the same. *)
Lemma build_again (record : DiscoveryWindowRecord J) at_ reason f :
  observations_typed (wr_observations record) ->
  build_discovery_window_finalization (XE:=XE) record at_ reason = Ok f ->
  build_discovery_window_finalization (XE:=XE) record at_ (fz_completeness_reason f) = Ok f.
Proof.
  intros Ht H. pose proof (build_finalization_inv _ _ _ _ H) as
    (snapshot & a & Hs & _ & _ & _ & _ & _ & _ & _ & Hr & _).
  assert (build_market_window_snapshot (wr_market record) (wr_opened_at_unix_ms record)
    (wr_closes_at_unix_ms record) (requested (fz_completeness_reason f)) (wr_observations record) = Ok snapshot) as Hs'.
  { rewrite Hr. destruct Ht as [Ht Hlen]. rewrite build_eq in Hs |- * by done. cbv zeta in *.
    destruct (_ <=? _); [done|]. destruct (blank_reason (requested reason)) eqn:Hb; [done|].
    set (l := window_observations _ _ _ _) in *. destruct (check_duplicates [] (key <$> l)) as [[]|]; [|done].
    injection Hs as <-. cbn [snapshot_of ms_completeness].
    pose proof (built_reason_nonblank _ l Hb) as Hn.
    assert (requested (completeness_reason (completeness_of (requested reason) l)) =
      completeness_of (requested reason) l) as ->
      by (by destruct (completeness_of (requested reason) l)).
    assert (blank_reason (completeness_of (requested reason) l) = false) as ->
      by (by destruct (completeness_of (requested reason) l)).
    cbn [mbind result_bind]. unfold snapshot_of. do 2 f_equal. unfold completeness_of at 1.
    unfold completeness_of. destruct (requested reason); [|done].
    by destruct (head (omap malformed_reason l)) eqn:Eh; rewrite ?Eh. }
  revert H. unfold build_discovery_window_finalization. fold (requested reason).
  fold (requested (fz_completeness_reason f)). by rewrite Hs, Hs'.
Qed.

Lemma built_finalization_valid (record : DiscoveryWindowRecord J) at_ reason f :
  observations_typed (wr_observations record) ->
  build_discovery_window_finalization (XE:=XE) record at_ reason = Ok f ->
  (fz_completeness f = WcComplete -> wr_closes_at_unix_ms record <= at_) ->
  validate_finalization (XE:=XE) (E:=E) f = Ok tt.
Proof.
  intros Ht H Hat. apply build_finalization_inv in H as
    (snapshot & a & Hb & Ha & Hs & _ & _ & Hid & Hf & Hc & Hr & Hv & Hn & Hd & Hrules).
  apply build_Ok in Hb as (-> & _ & Hblank & _ & Hok); [|done].
  assert (nonblank_reason (ms_completeness (snapshot_of (wr_market record) (wr_opened_at_unix_ms record)
    (wr_closes_at_unix_ms record) (requested reason) (window_observations (wr_market record)
    (wr_opened_at_unix_ms record) (wr_closes_at_unix_ms record) (wr_observations record))))) as Hnb
    by by apply built_reason_nonblank.
  destruct (evaluated_rules_valid (XE:=XE) (E:=E) _ _ _ Ha Hnb) as [Hvr Hag].
  unfold canonical_discovery_summary in Hs.
  destruct (try_from_u 64 _) as [wid|]; cbn [ok_or mbind result_bind] in Hs; [|done]. injection Hs as Hs.
  unfold validate_finalization. rewrite Hv, Hrules, Hvr, Hag, Hd, Hf, Hr.
  assert (expected_decision (dw_decision (fz_summary f)) = qa_decision a) as ->.
  { rewrite <- Hs. simpl. by destruct (qa_decision a). }
  assert (dw_closed_unix_ms (fz_summary f) = wr_closes_at_unix_ms record) as -> by by rewrite <- Hs.
  assert (is_blank MARKET_WINDOW_FEATURE_VERSION = false) as -> by (vm_compute; reflexivity).
  rewrite !bool_decide_true by done. cbn [guard_err mbind result_bind negb].
  assert (bool_decide (fz_completeness f = WcComplete) && (at_ <? wr_closes_at_unix_ms record) = false) as ->.
  { case_bool_decide as Hcc; [|done]. simpl. apply Z.ltb_ge. auto. }
  cbn [guard_err mbind result_bind]. rewrite Hc. unfold snapshot_completeness.
  destruct (ms_completeness _) as [|r]; simpl in Hnb |- *; [done|]. by rewrite Hnb.
Qed.

Lemma validate_for_window_intro (row : WindowIdentityRow J) (f : FinalizeDiscoveryWindow J) wid base quote :
  let s := fz_summary f in
  try_from_u 64 (wi_id row) = Some wid -> in_uint 64 (wi_qualification_revision row) ->
  dw_window_revision s = wid -> dw_ruleset_revision s = wi_qualification_revision row ->
  dw_opened_unix_ms s = wi_opened_at_unix_ms row -> dw_closed_unix_ms s = wi_closes_at_unix_ms row ->
  dw_evaluated_unix_ms s = fz_finalized_at_unix_ms f -> dw_completeness s = fz_completeness f ->
  dw_reason_codes s = bset_elements (deciding_reasons (fz_decision f) (fz_rules f)) ->
  summary_counts_ok s = true ->
  checked_decimal_sum (XE:=XE) (E:=E) (dw_buy_base_volume_units s) (dw_sell_base_volume_units s)
    "qualification base volume" = Ok base ->
  checked_decimal_sum (XE:=XE) (E:=E) (dw_buy_quote_volume_units s) (dw_sell_quote_volume_units s)
    "qualification quote volume" = Ok quote ->
  validate_finalization_for_window (XE:=XE) (E:=E) row f = Ok tt.
Proof.
  cbv zeta. intros Hw Hrev E1 E2 E3 E4 E5 E6 E7 Hc V1 V2. unfold validate_finalization_for_window.
  rewrite Hw. unfold to_u64. rewrite (proj2 (try_from_u_Some 64 _ _) (conj eq_refl Hrev)).
  cbn [ok_or mbind result_bind]. rewrite E1, E2, E3, E4, E5, E6, E7, !Z.eqb_refl, Hc.
  assert (bset_of_list (bset_elements (deciding_reasons (fz_decision f) (fz_rules f))) =
    deciding_reasons (fz_decision f) (fz_rules f)) as -> by apply bset_elements_idem.
  unfold bset_elements. rewrite length_fmap, Nat.eqb_refl, !(bool_decide_true (_ = _)) by reflexivity.
  cbn [guard_err mbind result_bind negb andb]. by rewrite V1, V2.
Qed.

(** The counts of the summary of a snapshot. *)
Lemma summary_of_counts record m opened closes c l a at_ summary :
  samples_ok (omap (accepted_trade (J:=J)) l) ->
  canonical_discovery_summary (J:=J) (XE:=XE) (E:=E) record (snapshot_of m opened closes c l) a at_ = Ok summary ->
  summary_counts_ok summary = true /\
  (exists base, checked_decimal_sum (XE:=XE) (E:=E) (dw_buy_base_volume_units summary)
     (dw_sell_base_volume_units summary) "qualification base volume" = Ok base) /\
  (exists quote, checked_decimal_sum (XE:=XE) (E:=E) (dw_buy_quote_volume_units summary)
     (dw_sell_quote_volume_units summary) "qualification quote volume" = Ok quote).
Proof.
  intros Hok Hs. unfold canonical_discovery_summary in Hs.
  destruct (try_from_u 64 _) as [wid|]; cbn [ok_or mbind result_bind] in Hs; [|done]. injection Hs as <-.
  destruct (window_counts (Z.of_nat (length l)) (window_creators l) _ Hok) as (C1 & C2 & C3 & C4 & C5).
  split; [|apply (window_volumes (Z.of_nat (length l)) (window_creators l) _ Hok)].
  unfold summary_counts_ok. rewrite !andb_true_iff, bool_decide_eq_true, !Z.leb_le. split_and!; [exact C1|exact C2|exact C3|exact C4|].
  simpl in C5 |- *. destruct (largest_wallet _) as [s|]; [|done]. apply Z.leb_le. by apply C5.
Qed.

Lemma built_finalization_for_window (row : WindowIdentityRow J) (record : DiscoveryWindowRecord J) at_ reason f obs :
  into_record (XE:=XE) (E:=E) row obs = Ok record -> observations_typed obs ->
  build_discovery_window_finalization (XE:=XE) record at_ reason = Ok f ->
  validate_finalization_for_window (XE:=XE) (E:=E) row f = Ok tt.
Proof.
  intros Hrow Ht H. apply into_record_Ok in Hrow as (Hid & Hobs & Hop & Hcl & Hrev & Hrange & _ & _).
  apply build_finalization_inv in H as
    (snapshot & a & Hb & Ha & Hs & _ & _ & _ & Hf & Hc & _ & _ & _ & Hd & Hrules).
  rewrite Hobs in Hb. apply build_Ok in Hb as (-> & _ & _ & _ & Hok); [|done].
  destruct (summary_of_counts _ _ _ _ _ _ _ _ _ Hok Hs) as (Hcounts & [base V1] & [quote V2]).
  unfold canonical_discovery_summary in Hs. rewrite Hid in Hs.
  destruct (try_from_u 64 (wi_id row)) as [wid|] eqn:Ewid; cbn [ok_or mbind result_bind] in Hs; [|done].
  injection Hs as Hs. eapply validate_for_window_intro; [exact Ewid|exact Hrange| | | | | | | |exact Hcounts|exact V1|exact V2].
  all: rewrite <- Hs; simpl; try congruence.
Qed.
End Canonical.
