(* ===== verification/FinalizationTheorems.v ===== *)
(** What the finalization of durable windows guarantees. *)
From S2P Require Import Prelude.
From S2P Require Import ListFacts.
From S2P Require Import RustOrd.
From S2P Require Import BTree.
From S2P Require Import RustStr.
From S2P Require Import Domain.
From S2P Require Import External.
From S2P Require Import SnapshotArith.
From S2P Require Import Snapshot.
From S2P Require Import SnapshotSpec.
From S2P Require Import SnapshotTheorems.
From S2P Require Import Qualification.
From S2P Require Import WindowToken.
From S2P Require Import ApiContracts.
From S2P Require Import PersistenceModel.
From S2P Require Import Finalization.
From S2P Require Import FinalizeTx.
From S2P Require Import FinalizationProofs.

Section Theorems.
Context {J XE E : Type} `{EqDecision J}.
Context `{SP : !SerdeJson PrefilterDefaults J E} `{SQ : !SerdeJson QualificationDefaults J E}
  `{SS : !SerdeJson MarketWindowSnapshot J E} `{SA : !SerdeJson QualificationAssessment J E}
  `{SW : !SerdeJson DiscoveryWindowSummary J E} `{ST : !SerdeJson DiscoveryToken J E}
  `{SO : !SerdeJson (NormalizedObservation J) J E}.
Abbreviation finalize := (finalize_discovery_window (J:=J) (XE:=XE) (E:=E)).
Abbreviation build := (build_discovery_window_finalization (J:=J) (XE:=XE) (E:=E)).

(** The canonical finalization is always accepted.  From a window row whose
    settings validate, on [u64] amounts, the builder fails only for an empty
    interval, a blank reason, a repeated observation, a window id out of range
    or a serialization error, never because of the policy derived from the
    settings or of arithmetic; and what it builds passes both validations of
    the finalizing transaction, provided a complete window is not finalized
    before it closes. *)
Theorem canonical_finalization_accepted (row : WindowIdentityRow J) obs record at_ reason :
  into_record (XE:=XE) (E:=E) row obs = Ok record -> observations_typed obs ->
  match build record at_ reason with
  | Ok f =>
      (fz_completeness f = WcComplete -> wi_closes_at_unix_ms row <= at_) ->
      validate_finalization (XE:=XE) (E:=E) f = Ok tt /\
      validate_finalization_for_window (XE:=XE) (E:=E) row f = Ok tt
  | Err (PeInvalidDiscoveryWindowSnapshot InvalidWindowBounds) =>
      wi_closes_at_unix_ms row <= wi_opened_at_unix_ms row
  | Err (PeInvalidDiscoveryWindowSnapshot MissingIncompleteReason) =>
      exists r, reason = Some r /\ is_blank r = true
  | Err (PeInvalidDiscoveryWindowSnapshot (DuplicateObservation k)) =>
      ~ NoDup (key <$> window_observations (wr_market record) (wi_opened_at_unix_ms row)
                 (wi_closes_at_unix_ms row) obs)
  | Err (PeValueOutOfRange field) => field = "window id"%string /\ ~ in_uint 64 (wi_id row)
  | Err (PeSerialization _) => True
  | Err _ => False
  end.
Proof.
  intros Hrow Ht. destruct (build record at_ reason) as [f|e] eqn:Hf.
  { intros Hat. pose proof (into_record_Ok _ _ _ Hrow) as (_ & Hobs & _ & Hcl & _).
    split; [|by eapply built_finalization_for_window].
    eapply built_finalization_valid; [by rewrite Hobs|exact Hf|by rewrite Hcl]. }
  apply into_record_Ok in Hrow as (Hid & Hobs & Hop & Hcl & _ & _ & _ & Hset).
  unfold build_discovery_window_finalization in Hf. fold (requested reason) in Hf.
  rewrite Hobs, Hop, Hcl in Hf. destruct Ht as [Ht Hlen].
  rewrite build_eq in Hf by done.
  destruct (Z.leb_spec (wi_closes_at_unix_ms row) (wi_opened_at_unix_ms row)); [by injection Hf as <-|].
  destruct (blank_reason (requested reason)) eqn:Hblank.
  { injection Hf as <-. destruct reason as [r|]; [|done]. by exists r. }
  cbv zeta in Hf. set (l := window_observations _ _ _ _) in *.
  pose proof (check_duplicates_spec [] (key <$> l)) as Hdup.
  destruct (check_duplicates [] (key <$> l)) as [[]|de]; cbn [mbind result_bind map_err] in Hf.
  - destruct (settings_policy_valid _ Hset) as [Hp Hmax].
    assert (samples_ok (omap accepted_trade l)) as Hok.
    { apply accepted_samples_ok; unfold l, window_observations.
      - rewrite sort_by_perm. by apply Forall_filter_b.
      - rewrite sort_by_length. pose proof (length_filter_le (in_window (wr_market record)
          (wi_opened_at_unix_ms row) (wi_closes_at_unix_ms row)) obs). lia. }
    set (snapshot := snapshot_of _ _ _ _ l) in *.
    destruct (evaluate_qualification snapshot (qualification_policy record)) as [a|qe] eqn:Ea.
    + cbn [mbind result_bind map_err] in Hf. unfold canonical_discovery_summary in Hf. rewrite Hid in Hf.
      destruct (try_from_u 64 (wi_id row)) as [wid|] eqn:Ew; cbn [ok_or mbind result_bind] in Hf.
      * unfold encode_json in Hf. destruct (to_value snapshot); cbn [mbind result_bind map_err] in Hf;
          [|by injection Hf as <-].
        destruct (to_value a); cbn [mbind result_bind map_err] in Hf; [done|by injection Hf as <-].
      * injection Hf as <-. split; [done|]. intros Hin.
        by rewrite (proj2 (try_from_u_Some 64 _ _) (conj eq_refl Hin)) in Ew.
    + exfalso. unfold evaluate_qualification in Ea. rewrite Hp in Ea. cbn [mbind result_bind] in Ea.
      destruct (negb _); [done|].
      change (total_quote_volume_units (ms_metrics snapshot)) with
        (total_quote_units (metrics_of (omap accepted_trade l))) in Ea.
      by rewrite total_quote_units_volume in Ea.
  - destruct Hdup as (k & before & after & -> & Hl & _ & _ & Hin). injection Hf as <-.
    rewrite Hl. intros Hn. apply NoDup_app in Hn as (_ & Hn & _).
    destruct Hin as [Hin|Hin]; [by apply elem_of_nil in Hin|]. apply (Hn k Hin). left.
Qed.

(** ** Commits *)

(** What a commit has checked and written. *)
Lemma finalize_commit_inv rows f w :
  finalize rows f = Ok (Some w) ->
  validate_finalization_for_window (XE:=XE) (E:=E) (fr_window rows) f = Ok tt /\
  wi_status (fr_window rows) <> "FINALIZED"%string /\
  projection_readiness (fr_readiness rows) <> ReadinessPending /\
  (projection_readiness (fr_readiness rows) = OpeningProjectionUnavailable ->
     fz_completeness_reason f = Some (reason_str ProcessingFailed)) /\
  fr_durable_observation_count rows = fz_observation_count f /\
  rebuild (XE:=XE) rows f = Ok f /\ commit_finalization (XE:=XE) (E:=E) rows f = Ok w.
Proof.
  unfold finalize_discovery_window. intros H0.
  apply bind_Ok in H0 as ([] & _ & H0). apply bind_Ok in H0 as ([] & _ & H0).
  apply bind_Ok in H0 as ([] & Hv & H0). split; [done|].
  destruct (String.eqb_spec (wi_status (fr_window rows)) "FINALIZED"%string) as [|Hs].
  { destruct (fr_existing rows); [|done]. by destruct (finalization_matches _ _). }
  split; [done|]. apply bind_Ok in H0 as ([] & Hp & H0). apply guard_err_Ok, bool_decide_eq_false in Hp.
  split; [done|]. apply bind_Ok in H0 as ([] & Hu & H0). apply guard_err_Ok in Hu.
  split. { intros Hr. rewrite Hr, bool_decide_true, andb_true_l in Hu by done.
    by apply negb_false_iff, bool_decide_eq_true in Hu. }
  apply bind_Ok in H0 as (count & Hcount & H0). apply ok_or_Ok, try_from_s_Some in Hcount as [-> _].
  apply bind_Ok in H0 as ([] & Hc & H0). apply guard_err_Ok, negb_false_iff, Z.eqb_eq in Hc.
  split; [done|]. apply bind_Ok in H0 as (canonical & Hb & H0).
  apply bind_Ok in H0 as ([] & He & H0). apply guard_err_Ok, negb_false_iff, bool_decide_eq_true in He.
  subst canonical. split; [done|]. apply bind_Ok in H0 as (w' & Hw & H0). by injection H0 as <-.
Qed.

Lemma commit_inv rows f w :
  commit_finalization (XE:=XE) (E:=E) rows f = Ok w ->
  exists update summary,
    (match fr_current_projection rows with
     | Some row => if cu_belongs_to_window row && negb (fr_newer_window_exists rows)
                   then update_candidate (XE:=XE) (E:=E) (fr_window rows) f row = Ok update /\
                        fw_token w = Some update.1.1 /\ fw_qualified_delta w = update.1.2 /\
                        fw_approval_removed w = update.2
                   else fw_token w = None /\ fw_qualified_delta w = 0 /\ fw_approval_removed w = 0
     | None => fw_token w = None /\ fw_qualified_delta w = 0 /\ fw_approval_removed w = 0
     end) /\
    to_value (E:=E) (fz_summary f) = Ok summary /\
    in_sint 64 (fz_observation_count f) /\
    stored_row w = {| sf_feature_version := fz_feature_version f;
      sf_observation_count := fz_observation_count f; sf_snapshot := fz_snapshot f;
      sf_decision := assessment_decision_name (fz_decision f); sf_assessment := fz_assessment f;
      sf_summary := summary; sf_completeness := completeness_name (fz_completeness f);
      sf_completeness_reason := fz_completeness_reason f |}.
Proof.
  unfold commit_finalization. intros H0. apply bind_Ok in H0 as (count & Hc & H0).
  apply ok_or_Ok, try_from_s_Some in Hc as [-> Hc]. apply bind_Ok in H0 as (sv & Hs & H0).
  apply bind_Ok in H0 as (rules & _ & H0). apply bind_Ok in H0 as (update & Hu & H0).
  unfold encode_json in Hs. destruct (to_value (fz_summary f)) as [j|]; [|done]. injection Hs as ->.
  injection H0 as <-. cbn [fw_token fw_qualified_delta fw_approval_removed]. unfold stored_row.
  cbn [fw_snapshot fw_assessment fw_status].
  destruct (fr_current_projection rows) as [row|];
    [destruct (cu_belongs_to_window row && negb (fr_newer_window_exists rows))|].
  - apply bind_Ok in Hu as (u & Hu & Hs). injection Hs as <-. exists u, sv. by split_and!.
  - injection Hu as <-. eexists (_, 0, 0), sv. by split_and!.
  - injection Hu as <-. eexists (_, 0, 0), sv. by split_and!.
  Unshelve. all: exact {| tu_mint := ""; tu_stage := ""; tu_decision_version := ""; tu_token := sv |}.
Qed.

Lemma update_candidate_inv window f row tu dq da :
  update_candidate (XE:=XE) (E:=E) window f row = Ok (tu, dq, da) ->
  exists token after, from_value (E:=E) (cu_token row) = Ok token /\ dt_mint token = wi_mint window /\
    to_value (E:=E) after = Ok (tu_token tu) /\ tu_mint tu = wi_mint window /\
    dt_stage after = stage_after (fz_decision f) (dt_stage token) /\
    dt_qualification after = Some (fz_summary f) /\
    tu_stage tu = discovery_stage_name (dt_stage after) /\
    dq = bool_to_i64 (bool_decide (fz_decision f = Pass)) - bool_to_i64 (stage_qualified (dt_stage token)) /\
    da = bool_to_i64 (bool_decide (dt_stage token = Approved) && negb (bool_decide (fz_decision f = Pass))).
Proof.
  unfold update_candidate, decode_json, encode_json. intros H0.
  apply bind_Ok in H0 as (token & Ht & H0). destruct (from_value (cu_token row)) as [t|] eqn:Et; [|done].
  injection Ht as ->. apply bind_Ok in H0 as ([] & Hv & H0). apply bind_Ok in H0 as (after & Ha & H0).
  apply bind_Ok in H0 as (value & Hval & H0). destruct (to_value after) as [j|] eqn:Ej; [|done].
  injection Hval as ->. injection H0 as <- <- <-.
  unfold validate_projection_matches_window in Hv. apply guard_err_Ok in Hv.
  rewrite !orb_false_iff, !negb_false_iff in Hv. destruct Hv as ((((Hm & _) & _) & _) & _).
  apply String.eqb_eq in Hm. exists token, after. unfold token_after in Ha.
  apply bind_Ok in Ha as (base & _ & Ha). apply bind_Ok in Ha as (quote & _ & Ha). injection Ha as <-.
  simpl. split_and!; done.
Qed.

(** C14: Only durable evidence is published.  A committed finalization is the
    canonical one of the observations stored with the window, all of them, and
    of its own settings; a passing one is of a complete window whose snapshot
    the pinned policy passes; the candidate it updates is that of the window,
    ends qualified or approved exactly when the decision is a pass, and is
    approved only if it was. *)
Theorem finalization_commits_durable_evidence rows f w :
  finalize rows f = Ok (Some w) ->
  (exists obs record snapshot a,
     load_window_observations (XE:=XE) (E:=E) (fr_observations rows) = Ok obs /\
     into_record (XE:=XE) (E:=E) (fr_window rows) obs = Ok record /\
     build record (fz_finalized_at_unix_ms f) (fz_completeness_reason f) = Ok f /\
     build_market_window_snapshot (wr_market record) (wi_opened_at_unix_ms (fr_window rows))
       (wi_closes_at_unix_ms (fr_window rows)) (requested (fz_completeness_reason f)) obs = Ok snapshot /\
     evaluate_qualification snapshot (qualification_policy record) = Ok a /\
     fz_decision f = qa_decision a /\
     fr_durable_observation_count rows = mm_observations (ms_metrics snapshot) /\
     (fz_decision f = Pass -> fz_completeness f = WcComplete /\ fz_completeness_reason f = None)) /\
  projection_readiness (fr_readiness rows) <> ReadinessPending /\
  (forall tu, fw_token w = Some tu -> exists row token after,
     fr_current_projection rows = Some row /\ cu_belongs_to_window row = true /\
     fr_newer_window_exists rows = false /\
     from_value (E:=E) (cu_token row) = Ok token /\ to_value (E:=E) after = Ok (tu_token tu) /\
     tu_mint tu = wi_mint (fr_window rows) /\ dt_qualification after = Some (fz_summary f) /\
     (stage_qualified (dt_stage after) = true <-> fz_decision f = Pass) /\
     (dt_stage after = Approved -> dt_stage token = Approved)).
Proof.
  intros H0. apply finalize_commit_inv in H0 as (_ & _ & Hr & _ & Hc & Hb & Hw). split_and!; [|done|].
  - unfold rebuild in Hb. apply bind_Ok in Hb as (obs & Hobs & Hb). apply bind_Ok in Hb as (record & Hrec & Hb).
    pose proof (build_finalization_inv _ _ _ _ Hb) as
      (snapshot & a & Hs & Ha & _ & _ & _ & _ & _ & Hcc & Hcr & _ & Hn & Hd & _).
    apply into_record_Ok in Hrec as Hi. destruct Hi as (_ & Ho & Hop & Hcl & _).
    rewrite Ho, Hop, Hcl in Hs. exists obs, record, snapshot, a. split_and!; try done; [congruence|].
    intros Hp. rewrite Hcc, Hcr. unfold snapshot_completeness.
    pose proof (qualification_rules_canonical _ _ _ Ha) as (_ & _ & Hk).
    destruct (ms_completeness snapshot) as [|reason]; [done|]. destruct Hk as [Hk _]. congruence.
  - intros tu Htu. apply commit_inv in Hw as (update & summary & Hw & _).
    destruct (fr_current_projection rows) as [row|]; [|by destruct Hw as [Hw _]; rewrite Hw in Htu].
    destruct (cu_belongs_to_window row) eqn:Eb; simpl in Hw;
      [|by destruct Hw as [Hw _]; rewrite Hw in Htu].
    destruct (fr_newer_window_exists rows) eqn:En; simpl in Hw;
      [by destruct Hw as [Hw _]; rewrite Hw in Htu|].
    destruct Hw as (Hu & Hw & _). rewrite Hw in Htu. injection Htu as <-. destruct update as [[tu dq] da].
    apply update_candidate_inv in Hu as (token & after & Ht & _ & Ha & Hm & Hst & Hq & _).
    exists row, token, after. split_and!; try done; rewrite Hst; unfold stage_after.
    + case_bool_decide as Hp; [|split; [done|congruence]]. case_bool_decide; done.
    + case_bool_decide; [|done]. by case_bool_decide.
Qed.

(** A window is finalized once.  After a commit, submitting the same
    finalization again is accepted without writing anything, and whatever else
    is submitted writes nothing: it is accepted only if it equals the committed
    one in everything but the time of evaluation. *)
Theorem finalization_happens_once (laws : SerdeLaws SW) rows f w rows' f' :
  finalize rows f = Ok (Some w) ->
  fr_locked_network rows' = fr_locked_network rows -> fr_locked_mint rows' = fr_locked_mint rows ->
  fr_existing rows' = Some (stored_row w) -> wi_status (fr_window rows') = "FINALIZED"%string ->
  (forall g : WindowIdentityRow J -> Z, g = wi_id \/ g = wi_qualification_revision \/
     g = wi_opened_at_unix_ms \/ g = wi_closes_at_unix_ms -> g (fr_window rows') = g (fr_window rows)) ->
  wi_network (fr_window rows') = wi_network (fr_window rows) ->
  wi_mint (fr_window rows') = wi_mint (fr_window rows) ->
  finalize rows' f = Ok None /\
  match finalize rows' f' with
  | Ok (Some _) => False
  | Ok None => fz_snapshot f' = fz_snapshot f /\ fz_assessment f' = fz_assessment f /\
      fz_decision f' = fz_decision f /\ fz_completeness f' = fz_completeness f /\
      fz_completeness_reason f' = fz_completeness_reason f /\
      unevaluated (fz_summary f') = unevaluated (fz_summary f)
  | Err _ => True
  end.
Proof.
  intros H0 Hn Hm Hex Hst Hg Hwn Hwm. pose proof (finalize_commit_inv _ _ _ H0) as (Hv & _ & _ & _ & _ & _ & Hw).
  apply commit_inv in Hw as (update & summary & _ & Hs & Hcount & Hrow).
  pose proof (serde_roundtrip (fz_summary f) summary Hs) as Hback. split.
  - unfold finalize_discovery_window in H0 |- *.
    apply bind_Ok in H0 as ([] & Hvf & H0). apply bind_Ok in H0 as ([] & Hl & H0). rewrite Hvf.
    rewrite Hwn, Hn, Hwm, Hm, Hl. cbn [mbind result_bind].
    assert (validate_finalization_for_window (XE:=XE) (E:=E) (fr_window rows') f = Ok tt) as ->.
    { unfold validate_finalization_for_window in Hv |- *.
      rewrite (Hg wi_id), (Hg wi_qualification_revision), (Hg wi_opened_at_unix_ms),
        (Hg wi_closes_at_unix_ms) by auto. done. }
    cbn [mbind result_bind]. rewrite Hst, Hex, Hrow. cbn [String.eqb].
    unfold finalization_matches. cbn [sf_summary sf_feature_version sf_observation_count sf_snapshot
      sf_decision sf_assessment sf_completeness sf_completeness_reason]. rewrite Hback.
    rewrite (proj2 (try_from_s_Some 64 _ _) (conj eq_refl Hcount)).
    rewrite !bool_decide_true, !String.eqb_refl by done. cbn [default]. by rewrite Z.eqb_refl.
  - unfold finalize_discovery_window.
    destruct (validate_finalization f'); [|done]. cbn [mbind result_bind].
    destruct (guard_err (negb _ || negb _) _); [|done]. cbn [mbind result_bind].
    destruct (validate_finalization_for_window _ f'); [|done]. cbn [mbind result_bind].
    rewrite Hst, Hex, Hrow. cbn [String.eqb].
    destruct (finalization_matches _ f') eqn:Em; [|done]. unfold finalization_matches in Em.
    cbn [sf_summary sf_feature_version sf_observation_count sf_snapshot
      sf_decision sf_assessment sf_completeness sf_completeness_reason] in Em. rewrite Hback in Em.
    rewrite !andb_true_iff, !bool_decide_eq_true, !String.eqb_eq in Em.
    destruct Em as (((((((_ & _) & E1) & E2) & E3) & E4) & E5) & E6). split_and!; try congruence.
    + by destruct (fz_decision f), (fz_decision f').
    + by destruct (fz_completeness f), (fz_completeness f').
Qed.

(** ** Counters *)
Definition count_tokens (p : DiscoveryStage -> bool) (tokens : gmap string DiscoveryToken) : Z :=
  map_fold (fun _ t n => bool_to_i64 (p (dt_stage t)) + n) 0 tokens.

Lemma count_tokens_insert_fresh p k t tokens : tokens !! k = None ->
  count_tokens p (<[k:=t]> tokens) = bool_to_i64 (p (dt_stage t)) + count_tokens p tokens.
Proof. intros Hk. unfold count_tokens. rewrite map_fold_insert_L; [done|intros; lia|done]. Qed.

Lemma count_tokens_update p k t t' tokens : tokens !! k = Some t ->
  count_tokens p (<[k:=t']> tokens) =
  count_tokens p tokens - bool_to_i64 (p (dt_stage t)) + bool_to_i64 (p (dt_stage t')).
Proof.
  intros Hk. rewrite <- insert_delete_eq, count_tokens_insert_fresh by apply lookup_delete_eq.
  rewrite <- (insert_delete_id tokens k t Hk) at 2. rewrite count_tokens_insert_fresh by apply lookup_delete_eq.
  lia.
Qed.

Lemma count_tokens_nonneg p tokens : 0 <= count_tokens p tokens.
Proof.
  unfold count_tokens. apply (map_fold_weak_ind (fun n _ => 0 <= n)); [done|]. intros k t m n _ Hn.
  unfold bool_to_i64. destruct (p _); lia.
Qed.

Definition stage_approved (s : DiscoveryStage) : bool := bool_decide (s = Approved).

(** The candidates after the update a commit writes. *)
Definition write_candidate (w : FinalizationWrites J) (tokens : gmap string DiscoveryToken)
    : result E (gmap string DiscoveryToken) :=
  match fw_token w with
  | Some tu => token ← from_value (E:=E) (tu_token tu); Ok (<[tu_mint tu := token]> tokens)
  | None => Ok tokens
  end.

(** The stored counters are exact.  If the qualified and approved counters
    are the numbers of candidates at those stages, they are after any committed
    finalization too: the clamping of the update never acts. *)
Theorem finalization_counters_exact (laws : SerdeLaws ST) rows f w tokens c :
  finalize rows f = Ok (Some w) ->
  (forall row token, fr_current_projection rows = Some row -> from_value (E:=E) (cu_token row) = Ok token ->
     tokens !! wi_mint (fr_window rows) = Some token) ->
  pc_qualified c = count_tokens stage_qualified tokens ->
  pc_approved c = count_tokens stage_approved tokens ->
  exists tokens', write_candidate w tokens = Ok tokens' /\
    pc_qualified (update_counters w c) = count_tokens stage_qualified tokens' /\
    pc_approved (update_counters w c) = count_tokens stage_approved tokens'.
Proof.
  intros H0 Hcur Hq Ha. apply finalize_commit_inv in H0 as (_ & _ & _ & _ & _ & _ & Hw).
  apply commit_inv in Hw as (update & summary & Hw & _).
  pose proof (count_tokens_nonneg stage_qualified tokens) as Nq.
  pose proof (count_tokens_nonneg stage_approved tokens) as Na.
  assert ((fw_token w = None /\ fw_qualified_delta w = 0 /\ fw_approval_removed w = 0) ->
    exists tokens', write_candidate w tokens = Ok tokens' /\
      pc_qualified (update_counters w c) = count_tokens stage_qualified tokens' /\
      pc_approved (update_counters w c) = count_tokens stage_approved tokens') as Hnone.
  { intros (E1 & E2 & E3). exists tokens. unfold write_candidate. rewrite E1. split; [done|].
    simpl. rewrite E2, E3. lia. }
  destruct (fr_current_projection rows) as [row|]; [|by apply Hnone].
  destruct (cu_belongs_to_window row && negb (fr_newer_window_exists rows)); [|by apply Hnone].
  destruct update as [[tu dq] da]. destruct Hw as (Hu & E1 & E2 & E3).
  apply update_candidate_inv in Hu as (token & after & Ht & _ & Hj & Hm & Hst & _ & _ & Hdq & Hda).
  exists (<[wi_mint (fr_window rows) := after]> tokens). unfold write_candidate. rewrite E1. simpl in *.
  rewrite (serde_roundtrip _ _ Hj), Hm. split; [done|].
  specialize (Hcur row token eq_refl Ht).
  pose proof (count_tokens_nonneg stage_qualified (<[wi_mint (fr_window rows) := after]> tokens)) as Nq'.
  pose proof (count_tokens_nonneg stage_approved (<[wi_mint (fr_window rows) := after]> tokens)) as Na'.
  rewrite !(count_tokens_update _ _ token) in * by done. rewrite E2, E3, Hdq, Hda, Hq, Ha.
  rewrite Hst in *. unfold stage_after, stage_approved in *.
  destruct (fz_decision f), (dt_stage token); simpl in *; lia.
Qed.
End Theorems.

(** One window with two trades, finalized as a pass. *)
(** ** A JSON library of tagged values *)
#[local] Instance Score_eq_dec : EqDecision Score.
Proof. solve_decision. Defined.
#[local] Instance DiscoveryActivity_eq_dec : EqDecision DiscoveryActivity.
Proof. solve_decision. Defined.
#[local] Instance DiscoveryToken_eq_dec : EqDecision DiscoveryToken.
Proof. solve_decision. Defined.

Module SampleFinalization.
Inductive Js := JsSummary (s : DiscoveryWindowSummary) | JsToken (t : DiscoveryToken) | JsNumber (n : Z).
#[local] Instance Js_eq_dec : EqDecision Js.
Proof. solve_decision. Defined.

Definition settings : QualificationDefaults := {|
  qd_minimum_trades := 2; qd_minimum_unique_traders := 2; qd_minimum_buys := 1; qd_minimum_sells := 1;
  qd_minimum_native_quote_volume_units := 8; qd_minimum_stable_quote_volume_units := 8;
  qd_maximum_single_wallet_quote_share_bps := 8000 |}.
Definition prefilter : PrefilterDefaults := {|
  pd_max_event_age_ms := 60000; pd_observation_window_ms := 60000; pd_max_active_windows := 100;
  pd_rpc_requests_per_second := 5; pd_rpc_max_in_flight := 2; pd_rpc_request_timeout_ms := 5000;
  pd_rpc_rate_limit_cooldown_ms := 1000 |}.

Definition the_market : MarketIdentity := {|
  mi_network := SolanaMainnet; mi_mint := "mint"; mi_venue := PumpBondingCurve;
  mi_market_address := "curve"; mi_quote_mint := Some WRAPPED_SOL_MINT |}.
Definition trade (o : NormalizedObservation unit) : NormalizedObservation Js := {|
  key := key o; commitment := commitment o; schema_version := 1; decoder_version := "1";
  event_kind := "TRADE"; market := the_market; source_event_time_unix_ms := None;
  received_time_unix_ms := received_time_unix_ms o; raw_evidence_hash := "h";
  source_evidence_base64 := "e"; source_details := JsNumber 0; payload := payload o |}.
Definition trades : list (NormalizedObservation Js) := [trade SampleWindow.buy; trade SampleWindow.sell].

#[local] Instance prefilter_json : SerdeJson PrefilterDefaults Js unit :=
  {| to_value _ := Ok (JsNumber 0); from_value _ := Ok prefilter |}.
#[local] Instance settings_json : SerdeJson QualificationDefaults Js unit :=
  {| to_value _ := Ok (JsNumber 1); from_value _ := Ok settings |}.
#[local] Instance snapshot_json : SerdeJson MarketWindowSnapshot Js unit :=
  {| to_value s := Ok (JsNumber (mm_trades (ms_metrics s))); from_value _ := Err tt |}.
#[local] Instance assessment_json : SerdeJson QualificationAssessment Js unit :=
  {| to_value a := Ok (JsNumber (Z.of_nat (length (qa_rules a)))); from_value _ := Err tt |}.
#[local] Instance summary_json : SerdeJson DiscoveryWindowSummary Js unit :=
  {| to_value s := Ok (JsSummary s);
     from_value j := match j with JsSummary s => Ok s | _ => Err tt end |}.
#[local] Instance token_json : SerdeJson DiscoveryToken Js unit :=
  {| to_value t := Ok (JsToken t); from_value j := match j with JsToken t => Ok t | _ => Err tt end |}.
#[local] Instance observation_json : SerdeJson (NormalizedObservation Js) Js unit :=
  {| to_value _ := Err tt;
     from_value j := match j with
                     | JsNumber n => ok_or (nth_error trades (Z.to_nat n)) tt
                     | _ => Err tt
                     end |}.
Lemma summary_laws : SerdeLaws summary_json.
Proof. constructor. by intros a j [= <-]. Qed.
Lemma token_laws : SerdeLaws token_json.
Proof. constructor. by intros a j [= <-]. Qed.

Definition row (status : string) : WindowIdentityRow Js := {|
  wi_id := 7; wi_network := "SOLANA_MAINNET"; wi_source_program := "PUMP";
  wi_venue := "PUMP_BONDING_CURVE"; wi_market_address := "curve"; wi_mint := "mint";
  wi_quote_mint := WRAPPED_SOL_MINT; wi_target_kind := "PUMP_MINT"; wi_target_address := "mint";
  wi_opened_at_unix_ms := 100; wi_closes_at_unix_ms := 200; wi_collector_run_id := "run";
  wi_prefilter_revision := 1; wi_prefilter_values := JsNumber 0; wi_qualification_revision := 3;
  wi_qualification_values := JsNumber 1; wi_status := status |}.

Definition token : DiscoveryToken := {|
  dt_mint := "mint"; dt_name := None; dt_symbol := None; dt_primary_venue := PumpBondingCurve;
  dt_market_address := "curve"; dt_quote_mint := Some WRAPPED_SOL_MINT; dt_source_program := Pump;
  dt_stage := Observed; dt_last_event_kind := "TRADE"; dt_observed_slot := 10;
  dt_first_observed_unix_ms := 100; dt_last_observed_unix_ms := 101; dt_latest_signature := "s";
  dt_activity := {| da_trades := 0; da_buys := 0; da_sells := 0; da_unique_traders := 0;
                    da_base_volume_units := "0"; da_quote_volume_units := "0" |};
  dt_qualification := None; dt_risk_score := None; dt_opportunity_score := None |}.

Definition rows (status : string) (existing : option (StoredFinalizationRow Js)) : FinalizationRows Js := {|
  fr_locked_network := "SOLANA_MAINNET"; fr_locked_mint := "mint"; fr_window := row status;
  fr_existing := existing;
  fr_readiness := {| pr_opening_work_status := Some "COMPLETE"%string;
                     pr_projection_work_pending := false; pr_candidate_projection_present := true |};
  fr_durable_observation_count := 2; fr_observations := [JsNumber 1; JsNumber 0];
  fr_current_projection := Some {| cu_token := JsToken token; cu_belongs_to_window := true |};
  fr_newer_window_exists := false |}.

Definition record : DiscoveryWindowRecord Js := {|
  wr_window_id := 7; wr_market := the_market; wr_source_program := Pump; wr_opened_at_unix_ms := 100;
  wr_closes_at_unix_ms := 200; wr_collector_run_id := "run"; wr_prefilter_revision := 1;
  wr_prefilter_values := prefilter; wr_qualification_revision := 3; wr_qualification_values := settings;
  wr_observations := trades |}.

Lemma row_record : into_record (XE:=unit) (E:=unit) (row "ACTIVE") trades = Ok record.
Proof. vm_compute. reflexivity. Qed.
Lemma trades_typed : observations_typed trades.
Proof. split; [repeat constructor; vm_compute; congruence|vm_compute; congruence]. Qed.

Definition built := build_discovery_window_finalization (XE:=unit) (E:=unit) record 250 None.
Lemma built_Ok : exists f, built = Ok f.
Proof. vm_compute. eauto. Qed.
End SampleFinalization.
#[local] Existing Instance SampleFinalization.Js_eq_dec.
#[local] Existing Instance SampleFinalization.prefilter_json.
#[local] Existing Instance SampleFinalization.settings_json.
#[local] Existing Instance SampleFinalization.snapshot_json.
#[local] Existing Instance SampleFinalization.assessment_json.
#[local] Existing Instance SampleFinalization.summary_json.
#[local] Existing Instance SampleFinalization.token_json.
#[local] Existing Instance SampleFinalization.observation_json.
Abbreviation finalize := (finalize_discovery_window (XE:=unit) (E:=unit)).

Lemma canonical_finalization_accepted_witness :
  match SampleFinalization.built with
  | Ok f => validate_finalization (XE:=unit) (E:=unit) f = Ok tt /\
      validate_finalization_for_window (XE:=unit) (E:=unit) (SampleFinalization.row "ACTIVE") f = Ok tt
  | Err _ => False
  end.
Proof.
  pose proof (canonical_finalization_accepted (XE:=unit) (E:=unit) (SampleFinalization.row "ACTIVE")
    SampleFinalization.trades SampleFinalization.record 250 None
    SampleFinalization.row_record SampleFinalization.trades_typed) as H.
  revert H. unfold SampleFinalization.built. generalize SampleFinalization.built_Ok.
  unfold SampleFinalization.built. intros [f ->].
  intros H. apply H. intros _. simpl. lia.
Defined.

Lemma finalization_commits_durable_evidence_witness :
  exists f w, SampleFinalization.built = Ok f /\
    finalize (SampleFinalization.rows "ACTIVE" None) f = Ok (Some w) /\
    fz_completeness f = WcComplete /\ tu_stage <$> fw_token w = Some "QUALIFIED"%string.
Proof.
  destruct SampleFinalization.built as [f|e] eqn:E; [|vm_compute in E; discriminate E].
  destruct (finalize (SampleFinalization.rows "ACTIVE" None) f) as [[w|]|e] eqn:Ef;
    [|vm_compute in E; injection E as <-; vm_compute in Ef; discriminate Ef..].
  exists f, w. split; [reflexivity|]. split; [exact Ef|].
  destruct (finalization_commits_durable_evidence (XE:=unit) (E:=unit) _ _ _ Ef) as [H _].
  destruct H as (obs & record & snapshot & a & _ & _ & _ & _ & _ & _ & _ & H).
  split; [apply H|]; vm_compute in E; injection E as <-; [reflexivity|].
  vm_compute in Ef. injection Ef as <-. reflexivity.
Defined.

Lemma finalization_happens_once_witness :
  exists f w, SampleFinalization.built = Ok f /\
    finalize (SampleFinalization.rows "ACTIVE" None) f = Ok (Some w) /\
    finalize (SampleFinalization.rows "FINALIZED" (Some (stored_row w))) f = Ok None.
Proof.
  destruct SampleFinalization.built as [f|e] eqn:E; [|vm_compute in E; discriminate E].
  destruct (finalize (SampleFinalization.rows "ACTIVE" None) f) as [[w|]|e] eqn:Ef;
    [|vm_compute in E; injection E as <-; vm_compute in Ef; discriminate Ef..].
  exists f, w. split; [reflexivity|]. split; [exact Ef|].
  apply (finalization_happens_once (XE:=unit) (E:=unit) SampleFinalization.summary_laws _ _ _
    (SampleFinalization.rows "FINALIZED" (Some (stored_row w))) f Ef); try reflexivity.
  intros g [->|[->|[->| ->]]]; reflexivity.
Defined.

Lemma finalization_counters_exact_witness :
  exists f w tokens', SampleFinalization.built = Ok f /\
    finalize (SampleFinalization.rows "ACTIVE" None) f = Ok (Some w) /\
    write_candidate (E:=unit) w {["mint"%string := SampleFinalization.token]} = Ok tokens' /\
    pc_qualified (update_counters w {| pc_qualification_pending := 1; pc_qualified := 0;
      pc_qualification_rejected := 0; pc_qualification_unknown := 0; pc_approved := 0;
      pc_sequence := 4 |}) = count_tokens stage_qualified tokens' /\
    fw_qualified_delta w = 1.
Proof.
  destruct SampleFinalization.built as [f|e] eqn:E; [|vm_compute in E; discriminate E].
  destruct (finalize (SampleFinalization.rows "ACTIVE" None) f) as [[w|]|e] eqn:Ef;
    [|vm_compute in E; injection E as <-; vm_compute in Ef; discriminate Ef..].
  destruct (finalization_counters_exact (XE:=unit) (E:=unit) SampleFinalization.token_laws _ _ _
    {["mint"%string := SampleFinalization.token]}
    {| pc_qualification_pending := 1; pc_qualified := 0; pc_qualification_rejected := 0;
       pc_qualification_unknown := 0; pc_approved := 0; pc_sequence := 4 |} Ef)
    as (tokens' & Ht & Hq & _).
  - intros row token [= <-] [= <-]. reflexivity.
  - vm_compute. reflexivity.
  - vm_compute. reflexivity.
  - exists f, w, tokens'. split_and!; [reflexivity|exact Ef|exact Ht|exact Hq|].
    vm_compute in E. injection E as <-. vm_compute in Ef. injection Ef as <-. reflexivity.
Defined.
