(* ===== verification/StoreTheorems.v ===== *)
(** Durable evidence: what is stored stays, what was admitted can be finalized,
    and the one way in which it cannot. *)
From S2P Require Import Prelude.
From S2P Require Import ListFacts.
From S2P Require Import Stateful.
From S2P Require Import RustOrd.
From S2P Require Import BTree.
From S2P Require Import RustStr.
From S2P Require Import Domain.
From S2P Require Import External.
From S2P Require Import SnapshotArith.
From S2P Require Import Snapshot.
From S2P Require Import SnapshotSpec.
From S2P Require Import SnapshotTheorems.
From S2P Require Import Qualification.
From S2P Require Import WindowToken.
From S2P Require Import ApiContracts.
From S2P Require Import PersistenceModel.
From S2P Require Import Finalization.
From S2P Require Import FinalizeTx.
From S2P Require Import Store.
From S2P Require Import StoreProofs.
From S2P Require Import FinalizationProofs.
From S2P Require Import FinalizationTheorems.

(** Filtering keeps keys distinct. *)
Lemma NoDup_fmap_filter_b {A B} (g : A -> B) (f : A -> bool) (l : list A) :
  NoDup (g <$> l) -> NoDup (g <$> List.filter f l).
Proof.
  induction l as [|q l IH]; csimpl; [done|]. intros [Hq Hnd]%NoDup_cons.
  destruct (f q); csimpl; [|auto]. constructor; [|auto]. intros Hin. apply Hq.
  apply list_elem_of_fmap in Hin as (r & -> & Hr). apply list_elem_of_In, filter_In in Hr as [Hr _].
  rewrite <- list_elem_of_In in Hr. apply list_elem_of_fmap. by exists r.
Qed.

(** A filter that drops nothing. *)
Lemma filter_all {A} (f : A -> bool) (l : list A) :
  length l = length (List.filter f l) -> forall a, a ∈ l -> f a = true.
Proof.
  induction l as [|b l IH]; simpl; intros Hl a Ha; [by apply elem_of_nil in Ha|].
  pose proof (filter_length_le f l). destruct (f b) eqn:Hb; simpl in Hl; [|lia].
  apply elem_of_cons in Ha as [->|Ha]; [done|]. apply IH; [lia|done].
Qed.

(** ** Facts about snapshots *)

(** A snapshot counts the observations of its window. *)
Lemma build_loop_keys {J} (l : list (NormalizedObservation J)) st st' :
  build_loop st l = Ok st' -> b_observation_keys st' = b_observation_keys st ++ (key <$> l).
Proof.
  revert st. induction l as [|o l IH]; intros st; simpl; [intros [= <-]; by rewrite app_nil_r|].
  intros H. apply bind_Ok in H as (st1 & H1 & H). rewrite (IH st1 H).
  assert (b_observation_keys st1 = b_observation_keys st ++ [key o]) as ->; [|by rewrite <- app_assoc].
  clear H IH. revert H1. unfold build_step.
  destruct (payload o) as [| |side wallet ba qa br qr| | | |]; try (by intros [= <-]).
  unfold build_trade. destruct (is_empty _); [by intros [= <-]|]. destruct (_ || _); [by intros [= <-]|].
  intros H1. apply bind_Ok in H1 as (ratio & _ & H1). apply bind_Ok in H1 as (acc & _ & H1).
  by injection H1 as <-.
Qed.

Lemma snapshot_counts {J} m opened closes c (obs : list (NormalizedObservation J)) snapshot :
  build_market_window_snapshot m opened closes c obs = Ok snapshot ->
  mm_observations (ms_metrics snapshot) = Z.of_nat (length (List.filter (in_window m opened closes) obs)).
Proof.
  unfold build_market_window_snapshot. destruct (_ <=? _); [done|].
  destruct (match c with Complete => _ | Incomplete _ => _ end); [done|].
  intros H. cbv zeta in H. apply bind_Ok in H as ([] & _ & H). apply bind_Ok in H as (st & Hl & H).
  apply build_loop_keys in Hl. apply bind_Ok in H as (n & Hn & H). rewrite Hl in Hn. simpl in Hn.
  apply bind_Ok in H as (metrics & Hm & H). apply bind_Ok in H as (prices & _ & H).
  injection H as <-. simpl. assert (mm_observations metrics = n) as ->.
  { revert Hm. unfold acc_finish. cbv zeta. intros Hm.
    repeat match type of Hm with
    | (_ ≫= _) = Ok _ => apply bind_Ok in Hm as (? & _ & Hm)
    end. by injection Hm as <-. }
  unfold usize_to_u64, overflow in Hn. destruct (try_from_u _ _) as [z|] eqn:Ez; [|done].
  injection Hn as <-. apply try_from_u_Some in Ez as [-> _]. by rewrite length_fmap, sort_by_length.
Qed.

(** ** The members of a window *)
Section Members.
Context {B64 : Base64} {J XE E : Type} `{EqDecision J}.
Context `{SP : !SerdeJson PrefilterDefaults J E} `{SQ : !SerdeJson QualificationDefaults J E}
  `{SO : !SerdeJson (NormalizedObservation J) J E}.
Implicit Types (st : Store J) (o : NormalizedObservation J).

(** The stored fact [o] is a member of the window [w]. *)
Definition member_fact st w o : Prop := exists k row,
  so_observations st !! k = Some row /\ is_Some (so_members st !! (w, or_id row)) /\
  decodes_to (E:=E) row o.

Lemma load_rows next (ps : list (ObservationIdentity * ObservationRow J)) :
  (forall p, p ∈ ps -> exists o, row_ok (E:=E) next p.1 p.2 o) ->
  exists obs, load_window_observations (XE:=XE) (E:=E) ((fun p => or_normalized_observation p.2) <$> ps) = Ok obs /\
    Forall2 (fun p o => row_ok (E:=E) next p.1 p.2 o) ps obs.
Proof.
  unfold load_window_observations. induction ps as [|p ps IH]; intros H0.
  - exists []. by split; [|constructor].
  - destruct IH as (obs & Hobs & Hf); [intros q Hq; apply H0; by right|].
    destruct (H0 p ltac:(left)) as (o & Ho). exists (o :: obs). split; [|by constructor]. csimpl.
    assert (decode_json (XE:=XE) (or_normalized_observation p.2) = Ok o) as ->
      by (unfold decode_json; by rewrite (row_decodes _ _ _ _ Ho)).
    cbn [mbind result_bind]. by rewrite Hobs.
Qed.

Lemma members_of_In st w p : p ∈ members_of st w <->
  so_observations st !! p.1 = Some p.2 /\ is_Some (so_members st !! (w, or_id p.2)).
Proof.
  unfold members_of. rewrite list_elem_of_In, filter_In, <- list_elem_of_In, bool_decide_eq_true.
  destruct p as [k row]. by rewrite elem_of_map_to_list.
Qed.

Lemma members_of_NoDup st w : NoDup (members_of st w).*1.
Proof. apply NoDup_fmap_filter_b, NoDup_fst_map_to_list. Qed.

Lemma load_members st w : store_ok (E:=E) st ->
  exists obs, load_window_observations (XE:=XE) (E:=E) (member_values st w) = Ok obs /\
    length obs = length (members_of st w) /\ NoDup (key <$> obs) /\
    (forall o, o ∈ obs <-> member_fact st w o).
Proof.
  intros Hok. set (ps := sort_by (fun p q => cmp (member_order p) (member_order q)) (members_of st w)).
  assert (ps ≡ₚ members_of st w) as Hperm by apply sort_by_perm.
  destruct (load_rows (so_next_observation_id st) ps) as (obs & Hobs & Hf).
  { intros p Hp. rewrite Hperm in Hp. apply members_of_In in Hp as [Hp _].
    by destruct (ok_rows _ Hok _ _ Hp) as [o Ho]; exists o. }
  exists obs. split; [exact Hobs|]. split_and!.
  - rewrite <- (Forall2_length _ _ _ Hf). by rewrite Hperm.
  - assert (observation_identity <$> (key <$> obs) = ps.*1) as Hid.
    { clear -Hf. induction Hf as [|p o ps obs Ho _ IH]; csimpl; [done|]. f_equal; [apply Ho|done]. }
    eapply NoDup_fmap_1. rewrite Hid, Hperm. apply members_of_NoDup.
  - intros o. split.
    + intros Ho. apply list_elem_of_lookup in Ho as [i Hi].
      destruct (Forall2_lookup_r _ _ _ _ _ Hf Hi) as (p & Hp & Hr). apply list_elem_of_lookup_2 in Hp.
      rewrite Hperm in Hp. apply members_of_In in Hp as [H1 H2]. exists p.1, p.2. split_and!; [done..|apply Hr].
    + intros (k & row & Hr & Hm & Hd). assert ((k, row) ∈ ps) as Hp by (rewrite Hperm; by apply members_of_In).
      apply list_elem_of_lookup in Hp as [i Hi]. destruct (Forall2_lookup_l _ _ _ _ _ Hf Hi) as (o' & Ho' & Hr').
      apply row_decodes in Hr'. simpl in Hr'. unfold decodes_to in Hd, Hr'. rewrite Hd in Hr'. injection Hr' as <-.
      by eapply list_elem_of_lookup_2.
Qed.

(** The count of the memberships is the number of stored members. *)
Lemma member_count_members st w : store_ok (E:=E) st ->
  member_count st w = Z.of_nat (length (members_of st w)).
Proof.
  intros Hok. unfold member_count. f_equal.
  set (ms := List.filter _ (map_to_list (so_members st))).
  assert ((fun q : Z * Z * Z => q.1.2) <$> ms ≡ₚ (fun p => or_id p.2) <$> members_of st w) as Hp.
  { apply NoDup_Permutation.
    - assert (NoDup ms.*1) as Hnd by apply NoDup_fmap_filter_b, NoDup_fst_map_to_list.
      assert (Forall (fun q : Z * Z * Z => q.1.1 = w) ms) as Hw.
      { apply Forall_forall. intros q Hq. apply list_elem_of_In, filter_In in Hq as [_ Hq]. by apply Z.eqb_eq. }
      clearbody ms. induction ms as [|q ms IH]; csimpl; [constructor|].
      apply NoDup_cons in Hnd as [Hq Hnd]. apply Forall_cons in Hw as [Hqw Hw]. constructor; [|auto].
      intros Hin. apply Hq. apply list_elem_of_fmap in Hin as (r & He & Hr).
      apply list_elem_of_fmap. exists r. split; [|done]. rewrite Forall_forall in Hw. specialize (Hw r Hr).
      destruct q as [[a b] c], r as [[a' b'] c']. simpl in *. congruence.
    - pose proof (members_of_NoDup st w) as Hnd.
      assert (forall p, p ∈ members_of st w -> so_observations st !! p.1 = Some p.2) as Hl
        by (intros p [Hp _]%members_of_In; done).
      induction (members_of st w) as [|p l IH]; csimpl; [constructor|]. apply NoDup_cons in Hnd as [Hp Hnd].
      constructor; [|apply IH; [done|intros q Hq; apply Hl; by right]].
      intros Hin. apply Hp. apply list_elem_of_fmap in Hin as (q & He & Hq). apply list_elem_of_fmap. exists q.
      split; [|done]. eapply (ok_ids _ Hok); [apply Hl; left|apply Hl; by right|done].
    - intros id. rewrite !list_elem_of_fmap. split.
      + intros ([[a b] t] & -> & Hq). apply list_elem_of_In, filter_In in Hq as [Hq Ha].
        rewrite <- list_elem_of_In in Hq. apply elem_of_map_to_list in Hq. simpl in Ha. apply Z.eqb_eq in Ha as ->.
        destruct (ok_members _ Hok _ _ _ Hq) as (x & k & row & o & _ & Hr & Hid & _). exists (k, row).
        split; [done|]. apply members_of_In. simpl. rewrite Hid. split; [done|by eexists].
      + intros ([k row] & -> & [Hr [t Ht]]%members_of_In). exists ((w, or_id row), t). split; [done|].
        apply list_elem_of_In, filter_In. simpl. rewrite Z.eqb_refl, <- list_elem_of_In, elem_of_map_to_list. done. }
  apply Permutation_length in Hp. by rewrite !length_fmap in Hp.
Qed.

(** A member fact agrees with its window. *)
Lemma member_belongs st w x o : store_ok (E:=E) st -> so_windows st !! w = Some x -> member_fact st w o ->
  belongs (ow_identity x) o /\ ok_network (key o) = mi_network (market o) /\
  in_sint 64 (slot (coordinate (key o))).
Proof.
  intros Hok Hx (k & row & Hr & [t Ht] & Hd).
  destruct (ok_members _ Hok _ _ _ Ht) as (x' & k' & row' & o' & Hx' & Hr' & Hid & Hd' & Hb).
  rewrite Hx in Hx'. injection Hx' as <-. assert (k' = k) as -> by (by eapply ok_ids). rewrite Hr in Hr'.
  injection Hr' as <-. unfold decodes_to in Hd, Hd'. rewrite Hd in Hd'. injection Hd' as <-.
  destruct (ok_rows _ Hok _ _ Hr) as (o1 & [R1 _ R3 _ _ R6 _]). unfold decodes_to in R1. rewrite Hd in R1.
  injection R1 as <-. by split_and!.
Qed.
End Members.

(** ** Runs *)
Section Runs.
Context {B64 : Base64} {J XE E : Type} `{EqDecision J}.
Context (row_not_found : XE).
Context `{SP : !SerdeJson PrefilterDefaults J E} `{SQ : !SerdeJson QualificationDefaults J E}
  `{SO : !SerdeJson (NormalizedObservation J) J E} (laws : SerdeLaws SO).
Context `{SS : !SerdeJson MarketWindowSnapshot J E} `{SA : !SerdeJson QualificationAssessment J E}
  `{SW : !SerdeJson DiscoveryWindowSummary J E} `{ST : !SerdeJson DiscoveryToken J E}.
Implicit Types (st : Store J) (o : NormalizedObservation J).

(** The transactions of the database, whether they commit, roll back or fail. *)
Inductive store_step : Store J -> Store J -> Prop :=
| step_insert_observation st o :
    store_step st (store_insert_observation (XE:=XE) (E:=E) o st).2
| step_open_window st o window :
    store_step st (store_open_window (XE:=XE) (E:=E) o window st).2
| step_insert_window_observation st w o :
    store_step st (store_insert_window_observation row_not_found (E:=E) w o st).2
| step_finalize st readiness current f :
    store_step st (store_finalize (XE:=XE) (E:=E) readiness current f st).2.

Definition store_init : Store J := {|
  so_next_observation_id := 1; so_observations := ∅; so_next_window_id := 1; so_windows := ∅;
  so_members := ∅; so_finalizations := ∅; so_work := []; so_queued_facts := 0;
  so_qualification_pending := 0; so_sequence := 0; so_events := [] |}.
Definition store_reachable (st : Store J) : Prop := rtc store_step store_init st.

Lemma store_init_ok : store_ok (E:=E) store_init.
Proof. by split; simpl; intros *; rewrite ?lookup_empty. Qed.

(** A finalization either changes nothing or was committed. *)
Lemma store_finalize_inv readiness current f st st' :
  (store_finalize (XE:=XE) (E:=E) readiness current f st).2 = st' ->
  st' = st \/ exists x writes, so_windows st !! fz_window_id f = Some x /\
    finalize_discovery_window (XE:=XE) (E:=E) (finalization_rows st readiness current (ow_identity x)) f =
      Ok (Some writes) /\ st' = put_finalization x writes st.
Proof.
  unfold store_finalize. rewrite bind_eq. unfold st_lift at 1.
  destruct (validate_finalization f) as [[]|e]; [|by left].
  match goal with |- context [transaction ?body st] =>
    destruct (transaction_inv body st) as [->|(a & st1 & Eb & ->)] end; [by left|]. intros <-. right. simpl.
  apply stateful_bind_Ok in Eb as (found & st2 & Hf & Eb). injection Hf as <- <-.
  apply stateful_bind_Ok in Eb as (x & st2 & Hx & Eb). injection Hx as Hx <-. apply ok_or_Ok in Hx.
  apply stateful_bind_Ok in Eb as (rows & st2 & Hr & Eb). injection Hr as <- <-.
  apply stateful_bind_Ok in Eb as (outcome & st2 & Ho & Eb). injection Ho as Ho <-.
  destruct outcome as [writes|]; [|done]. injection Eb as _ <-. by exists x, writes.
Qed.

Lemma finalize_step readiness current f st : store_ok (E:=E) st ->
  let st' := (store_finalize (XE:=XE) (E:=E) readiness current f st).2 in
  store_ok (E:=E) st' /\ evolves (E:=E) st st'.
Proof.
  intros Hok st'. destruct (store_finalize_inv readiness current f st st' eq_refl) as [->|(x & writes & Hx & _ & ->)];
    [by split|].
  apply put_finalization_ok; [done|]. by rewrite (proj1 (ok_windows _ Hok _ _ Hx)).
Qed.

Lemma store_step_ok st st' : store_ok (E:=E) st -> store_step st st' ->
  store_ok (E:=E) st' /\ evolves (E:=E) st st'.
Proof.
  intros Hok Hs. destruct Hs as [st0 o|st0 o window|st0 w o|st0 readiness current f]; [..|by apply finalize_step].
  - destruct (insert_observation_step (XE:=XE) laws o st0 Hok). by split; [|apply grows_evolves].
  - destruct (open_window_step (XE:=XE) laws o window st0 Hok). by split; [|apply grows_evolves].
  - destruct (insert_window_observation_step row_not_found laws w o st0 Hok). by split; [|apply grows_evolves].
Qed.

Lemma store_run_ok st st' : store_ok (E:=E) st -> rtc store_step st st' ->
  store_ok (E:=E) st' /\ evolves (E:=E) st st'.
Proof.
  intros Hok Hrun. induction Hrun as [st|st st1 st' Hs _ IH]; [by split|].
  destruct (store_step_ok _ _ Hok Hs) as [Hok1 He1]. destruct (IH Hok1) as [Hok' He'].
  split; [done|by etrans].
Qed.
Lemma store_reachable_ok st : store_reachable st -> store_ok (E:=E) st.
Proof. intros H. by apply (store_run_ok _ _ store_init_ok). Qed.

(** C16: Stored evidence is kept.  Along every run of the database's
    transactions, committed or not, a stored fact keeps its row, its id and
    everything but its receipt, which only moves to an earlier one and not at
    all once the fact has opened a window; a window keeps every column but its
    status; a membership is never lost; and in every reachable state ids are
    unique and every member of a window agrees with the window's identity. *)
Theorem stored_evidence_is_kept st st' :
  store_reachable st -> rtc store_step st st' ->
  (forall i row o, so_observations st !! i = Some row -> decodes_to (E:=E) row o ->
     exists row' o', so_observations st' !! i = Some row' /\ decodes_to (E:=E) row' o' /\
       or_id row' = or_id row /\ evidence o' = evidence o /\ commitment o' = commitment o /\
       received_time_unix_ms o' <= received_time_unix_ms o /\
       (opens_window st (or_id row) = true -> o' = o)) /\
  (forall w x, so_windows st !! w = Some x ->
     exists x', so_windows st' !! w = Some x' /\ same_but_status x x') /\
  (forall p, is_Some (so_members st !! p) -> is_Some (so_members st' !! p)) /\
  (forall i j r r', so_observations st' !! i = Some r -> so_observations st' !! j = Some r' ->
     or_id r = or_id r' -> i = j) /\
  (forall w i, is_Some (so_members st' !! (w, i)) -> exists x k row o,
     so_windows st' !! w = Some x /\ so_observations st' !! k = Some row /\ or_id row = i /\
     decodes_to (E:=E) row o /\ belongs (ow_identity x) o).
Proof.
  intros Hr Hrun. destruct (store_run_ok _ _ (store_reachable_ok _ Hr) Hrun) as [Hok' [R W M]].
  split_and!; [|exact W|exact M|apply (ok_ids _ Hok')|].
  - intros i row o Hi Ho. destruct (R i row Hi) as (row' & Hi' & Hid & _ & Hg).
    destruct (Hg o Ho) as (at_ & Ho' & Hle & Hopen). exists row', (set_received at_ o).
    split_and!; try done. intros Hw. by rewrite (Hopen Hw), set_received_self.
  - intros w i [t Ht]. by apply (ok_members _ Hok' w i t).
Qed.

(** ** The receipts of the members *)

(** A window is committed as finalized only with every member received inside
    it. *)
Lemma finalized_members_in_window st readiness current x f writes o :
  store_ok (E:=E) st -> so_windows st !! wi_id (ow_identity x) = Some x ->
  finalize_discovery_window (XE:=XE) (E:=E) (finalization_rows st readiness current (ow_identity x)) f =
    Ok (Some writes) ->
  member_fact (E:=E) st (wi_id (ow_identity x)) o ->
  wi_opened_at_unix_ms (ow_identity x) <= received_time_unix_ms o < wi_closes_at_unix_ms (ow_identity x).
Proof.
  intros Hok Hx Hf Hm. apply finalize_commit_inv in Hf as (_ & _ & _ & _ & Hcount & Hb & _).
  destruct (load_members (XE:=XE) st (wi_id (ow_identity x)) Hok) as (obs & Hobs & Hlen & _ & Hin).
  unfold rebuild in Hb. cbn [finalization_rows fr_observations fr_window] in Hb. rewrite Hobs in Hb.
  cbn [mbind result_bind] in Hb. apply bind_Ok in Hb as (record & Hrec & Hb).
  apply build_finalization_inv in Hb as (snapshot & a & Hs & _ & _ & _ & _ & _ & _ & _ & _ & _ & Hn & _).
  apply into_record_Ok in Hrec as (_ & Ho & Hop & Hcl & _). rewrite Ho, Hop, Hcl in Hs.
  apply snapshot_counts in Hs. cbn [finalization_rows fr_durable_observation_count] in Hcount.
  rewrite member_count_members in Hcount by done.
  assert (forall o0, o0 ∈ obs -> in_window (wr_market record) (wi_opened_at_unix_ms (ow_identity x))
    (wi_closes_at_unix_ms (ow_identity x)) o0 = true) as Hall.
  { apply filter_all. rewrite Hlen. lia. }
  apply Hin, Hall in Hm. unfold in_window in Hm. rewrite !andb_true_iff in Hm. lia.
Qed.

(** A window with a member received before it opened that is not finalized. *)
Definition stranded st (w : Z) : Prop := exists x o, so_windows st !! w = Some x /\
  wi_status (ow_identity x) <> "FINALIZED"%string /\ member_fact (E:=E) st w o /\
  received_time_unix_ms o < wi_opened_at_unix_ms (ow_identity x).

Lemma member_fact_evolves st st' w o : evolves (E:=E) st st' -> member_fact (E:=E) st w o ->
  exists at_, at_ <= received_time_unix_ms o /\ member_fact (E:=E) st' w (set_received at_ o).
Proof.
  intros [R W M] (k & row & Hr & Hm & Hd). destruct (R k row Hr) as (row' & Hr' & Hid & _ & Hg).
  destruct (Hg o Hd) as (at_ & Hd' & Hle & _). exists at_. split; [done|]. exists k, row'.
  split_and!; [done|rewrite Hid; by apply M|done].
Qed.

Lemma stranded_grows st st' w : grows (E:=E) st st' -> stranded st w -> stranded st' w.
Proof.
  intros Hg (x & o & Hx & Hs & Hm & Hlt). destruct (grows_windows _ _ _ Hg w x Hx) as (x' & Hx' & <-).
  destruct (member_fact_evolves _ _ _ _ (grows_evolves _ _ Hg) Hm) as (at_ & Hle & Hm').
  exists x, (set_received at_ o). split_and!; [done..|simpl; lia].
Qed.

Lemma stranded_step st st' w : store_ok (E:=E) st -> store_step st st' -> stranded st w -> stranded st' w.
Proof.
  intros Hok Hs Hw. destruct Hs as [st0 o|st0 o window|st0 v o|st0 readiness current f].
  - eapply stranded_grows, Hw. by apply insert_observation_step.
  - eapply stranded_grows, Hw. by apply open_window_step.
  - eapply stranded_grows, Hw. by apply insert_window_observation_step.
  - destruct (store_finalize_inv readiness current f st0 _ eq_refl) as [->|(y & writes & Hy & Hf & ->)]; [done|].
    destruct Hw as (x & o & Hx & Hs & Hm & Hlt).
    destruct (ok_windows _ Hok _ _ Hy) as [Hyid _]. destruct (decide (w = fz_window_id f)) as [->|Hne].
    + exfalso. rewrite Hx in Hy. injection Hy as <-. rewrite <- Hyid in Hx, Hm.
      pose proof (finalized_members_in_window _ _ _ _ _ _ _ Hok Hx Hf Hm). lia.
    + exists x, o. split_and!; try done. simpl. by rewrite lookup_insert_ne by congruence.
Qed.

(** C17: A receipt before the opening strands a window.  Replays keep the
    earliest receipt of a stored fact without looking at the windows it is a
    member of; once a member's receipt lies before its window opened, the
    window's snapshot never accounts for all its members again, and no run of
    the database's transactions finalizes the window, whatever the jobs
    submit. *)
Theorem early_receipt_strands_window st st' w x o :
  store_reachable st -> so_windows st !! w = Some x ->
  wi_status (ow_identity x) <> "FINALIZED"%string -> member_fact (E:=E) st w o ->
  received_time_unix_ms o < wi_opened_at_unix_ms (ow_identity x) ->
  rtc store_step st st' ->
  exists x', so_windows st' !! w = Some x' /\ wi_status (ow_identity x') <> "FINALIZED"%string.
Proof.
  intros Hr Hx Hs Hm Hlt Hrun. assert (stranded st w) as Hw by (by exists x, o).
  apply store_reachable_ok in Hr. clear Hx Hs Hm Hlt.
  induction Hrun as [st|st st1 st' Hstep _ IH].
  - destruct Hw as (y & p & Hy & Hs & _). by exists y.
  - apply IH; [by apply (store_step_ok _ _ Hr Hstep)|by eapply stranded_step].
Qed.
End Runs.
