(* ===== verification/StoreLiveness.v ===== *)
(** A window whose members were received inside it can be finalized: the
    canonical finalization of what is stored is committed, unless the projection
    of the candidates is not ready or the window's candidate cannot be updated. *)
From S2P Require Import Prelude.
From S2P Require Import ListFacts.
From S2P Require Import Stateful.
From S2P Require Import RustOrd.
From S2P Require Import BTree.
From S2P Require Import RustStr.
From S2P Require Import Domain.
From S2P Require Import External.
From S2P Require Import SnapshotArith.
From S2P Require Import Snapshot.
From S2P Require Import SnapshotSpec.
From S2P Require Import SnapshotTheorems.
From S2P Require Import Qualification.
From S2P Require Import WindowToken.
From S2P Require Import ApiContracts.
From S2P Require Import PersistenceModel.
From S2P Require Import Finalization.
From S2P Require Import FinalizeTx.
From S2P Require Import Store.
From S2P Require Import StoreProofs.
From S2P Require Import FinalizationProofs.
From S2P Require Import FinalizationTheorems.
From S2P Require Import StoreTheorems.

(** ** Names *)
Lemma parse_venue_name {XE E} v : parse_venue (XE:=XE) (JE:=E) (venue_name v) = Ok v.
Proof. by destruct v. Qed.

Lemma filter_true {A} (f : A -> bool) (l : list A) : (forall a, a ∈ l -> f a = true) -> List.filter f l = l.
Proof.
  induction l as [|a l IH]; intros Hf; simpl; [done|]. rewrite (Hf a) by left. f_equal.
  apply IH. intros b Hb. apply Hf. by right.
Qed.

Section Liveness.
Context {B64 : Base64} {J XE E : Type} `{EqDecision J}.
Context (row_not_found : XE).
Context `{SP : !SerdeJson PrefilterDefaults J E} `{SQ : !SerdeJson QualificationDefaults J E}
  `{SO : !SerdeJson (NormalizedObservation J) J E} (laws : SerdeLaws SO).
Context `{SS : !SerdeJson MarketWindowSnapshot J E} `{SA : !SerdeJson QualificationAssessment J E}
  `{SW : !SerdeJson DiscoveryWindowSummary J E} `{ST : !SerdeJson DiscoveryToken J E}.
Implicit Types (st : Store J) (o : NormalizedObservation J).
Abbreviation build := (build_discovery_window_finalization (J:=J) (XE:=XE) (E:=E)).

(** Encoding the values of a finalization never fails. *)
Class Encodes A `{!SerdeJson A J E} : Prop := encodes (a : A) : exists j, to_value (E:=E) a = Ok j.

Lemma encode_Ok {A} `{S : !SerdeJson A J E} (enc : Encodes A) (a : A) :
  exists j, encode_json (XE:=XE) (E:=E) a = Ok j.
Proof. destruct (enc a) as [j Hj]. exists j. unfold encode_json. by rewrite Hj. Qed.

(** The market of the members is that of the window's record. *)
Lemma record_market (row : WindowIdentityRow J) obs record o :
  into_record (XE:=XE) (E:=E) row obs = Ok record -> belongs row o ->
  ok_network (key o) = mi_network (market o) -> mi_quote_mint (market o) <> Some ""%string ->
  market o = wr_market record.
Proof.
  intros Hrec [Hn _ Hv Ha Hm Hq] Hnet Hquote. unfold into_record in Hrec.
  rewrite Hn, Hnet, parse_network_name in Hrec. cbn [mbind result_bind] in Hrec.
  apply bind_Ok in Hrec as (program & _ & Hrec). rewrite Hv, parse_venue_name in Hrec.
  cbn [mbind result_bind] in Hrec.
  repeat match type of Hrec with (_ ≫= _) = Ok _ => apply bind_Ok in Hrec as (? & _ & Hrec) end.
  injection Hrec as <-. simpl. rewrite Ha, Hm, Hq. destruct (market o) as [n mint v a [q|]]; simpl in *; [|done].
  by destruct q.
Qed.

(** The canonical finalization of distinct typed observations exists. *)
Lemma build_succeeds (row : WindowIdentityRow J) record at_ reason obs :
  into_record (XE:=XE) (E:=E) row obs = Ok record -> observations_typed obs -> NoDup (key <$> obs) ->
  Encodes MarketWindowSnapshot -> Encodes QualificationAssessment ->
  in_uint 64 (wi_id row) -> wi_opened_at_unix_ms row < wi_closes_at_unix_ms row ->
  blank_reason (requested reason) = false ->
  exists f, build record at_ reason = Ok f.
Proof.
  intros Hrec Ht Hnd es ea Hid Hlt Hb.
  apply into_record_Ok in Hrec as (Hrid & Hobs & Hop & Hcl & _ & _ & _ & Hset). destruct Ht as [Ht Hlen].
  unfold build_discovery_window_finalization. fold (requested reason). rewrite Hobs, Hop, Hcl, build_eq by done.
  rewrite Hb, (proj2 (Z.leb_gt _ _)) by lia. cbv zeta. set (l := window_observations _ _ _ _).
  assert (Forall observation_typed l /\ Z.of_nat (length l) <= u64_max) as [Htl Hll].
  { unfold l, window_observations. rewrite sort_by_perm. split; [by apply Forall_filter_b|].
    pose proof (length_filter_le (in_window (wr_market record) (wi_opened_at_unix_ms row)
      (wi_closes_at_unix_ms row)) obs). lia. }
  assert (NoDup (key <$> l)) as Hndl.
  { unfold l, window_observations. rewrite sort_by_perm.
    by apply NoDup_fmap_filter_b. }
  pose proof (check_duplicates_spec [] (key <$> l)) as Hdup.
  destruct (check_duplicates [] (key <$> l)) as [[]|e]; cbn [mbind result_bind map_err].
  2: { destruct Hdup as (k & pre & post & _ & Hl & _ & _ & [Hin|Hin]); [by apply elem_of_nil in Hin|].
       rewrite Hl in Hndl. apply NoDup_app in Hndl as (_ & Hn & _). destruct (Hn k Hin). left. }
  destruct (evaluation_succeeds record (wr_market record) (wi_opened_at_unix_ms row)
    (wi_closes_at_unix_ms row) (requested reason) l Hset Htl Hll) as [a ->]. cbn [mbind result_bind map_err].
  unfold canonical_discovery_summary. rewrite Hrid, (proj2 (try_from_u_Some 64 _ _) (conj eq_refl Hid)).
  cbn [ok_or mbind result_bind].
  destruct (encode_Ok es (snapshot_of (wr_market record) (wi_opened_at_unix_ms row)
    (wi_closes_at_unix_ms row) (requested reason) l)) as [sj ->].
  destruct (encode_Ok ea a) as [aj ->]. cbn [mbind result_bind]. by eexists.
Qed.

Lemma map_result_Ok {A B} (f : A -> result (PersistenceError XE E) B) (l : list A) :
  Forall (fun a => exists b, f a = Ok b) l -> exists bs, map_result f l = Ok bs.
Proof.
  induction 1 as [|a l [b Hb] _ [bs IH]]; [by eexists|]. simpl. rewrite Hb. cbn [mbind result_bind].
  rewrite IH. by eexists.
Qed.

(** The rules of a built finalization fit the columns of their table. *)
Lemma built_rule_rows (row : WindowIdentityRow J) record at_ reason f obs :
  into_record (XE:=XE) (E:=E) row obs = Ok record -> observations_typed obs ->
  Forall (fun o => in_sint 64 (slot (coordinate (key o)))) obs ->
  build record at_ reason = Ok f -> exists rules, map_result (rule_row (XE:=XE) (E:=E)) (fz_rules f) = Ok rules.
Proof.
  intros Hrec Ht Hslots Hf. apply map_result_Ok.
  apply into_record_Ok in Hrec as (_ & Hobs & Hop & Hcl & _).
  apply build_finalization_inv in Hf as (snapshot & a & Hs & Ha & _ & _ & _ & _ & _ & _ & _ & _ & _ & _ & ->).
  rewrite Hobs in Hs. apply build_Ok in Hs as (-> & _); [|done].
  apply evaluated_slots in Ha. eapply Forall_impl; [exact Ha|]. intros r Hr. unfold rule_row. rewrite Hr.
  cbn [ms_latest_observed_slot snapshot_of]. destruct (max_slot _) as [z|] eqn:Ez; [|by eexists].
  apply (max_slot_range (in_sint 64)) in Ez.
  2: { unfold window_observations. rewrite sort_by_perm. by apply Forall_filter_b. }
  unfold to_i64. rewrite (proj2 (try_from_s_Some 64 _ _) (conj eq_refl Ez)). by eexists.
Qed.

Lemma token_after_Ok row f token :
  validate_finalization_for_window (XE:=XE) (E:=E) row f = Ok tt ->
  exists after, token_after (J:=J) (XE:=XE) (E:=E) token f = Ok after.
Proof.
  unfold validate_finalization_for_window. intros Hv.
  do 4 apply bind_Ok in Hv as (? & _ & Hv). apply bind_Ok in Hv as (base & Hb & Hv).
  apply bind_Ok in Hv as (quote & Hq & _). unfold token_after. rewrite Hb, Hq. by eexists.
Qed.

(** ** What can refuse a canonical finalization *)

(** The projection of the candidates has not caught up with the window, or has no
    candidate of its opening and the finalization is not one for that reason. *)
Definition readiness_refusal (readiness : ProjectionReadinessRow) (f : FinalizeDiscoveryWindow J)
    : option (PersistenceError XE E) :=
  match projection_readiness readiness with
  | ReadinessPending => Some (PeDiscoveryWindowProjectionMissing (fz_window_id f))
  | OpeningProjectionUnavailable =>
      if bool_decide (fz_completeness_reason f = Some (reason_str ProcessingFailed)) then None
      else Some (PeDiscoveryWindowFinalizationEvidenceMismatch (fz_window_id f))
  | ReadinessReady => None
  end.

(** The current candidate is the window's, no newer window has it, and it cannot be
    updated. *)
Definition candidate_refusal st (window : WindowIdentityRow J) (current : option (CurrentProjectionRow J))
    (f : FinalizeDiscoveryWindow J) : option (PersistenceError XE E) :=
  match current with
  | Some row =>
      if cu_belongs_to_window row && negb (newer_window st window)
      then match update_candidate (XE:=XE) (E:=E) window f row with Ok _ => None | Err e => Some e end
      else None
  | None => None
  end.

(** Why an update fails: the stored candidate does not decode, is not of the
    window's market, or its new value does not encode. *)
Definition candidate_unusable (window : WindowIdentityRow J) (row : CurrentProjectionRow J)
    (f : FinalizeDiscoveryWindow J) (e : PersistenceError XE E) : Prop :=
  decode_json (XE:=XE) (A:=DiscoveryToken) (cu_token row) = Err e \/
  exists token, decode_json (XE:=XE) (E:=E) (cu_token row) = Ok token /\
    (validate_projection_matches_window (XE:=XE) (E:=E) token window = Err e \/
     exists after, token_after (XE:=XE) (E:=E) token f = Ok after /\ encode_json (XE:=XE) (E:=E) after = Err e).

Lemma candidate_refusal_why st window current f e :
  validate_finalization_for_window (XE:=XE) (E:=E) window f = Ok tt -> candidate_refusal st window current f = Some e ->
  exists row, current = Some row /\ cu_belongs_to_window row = true /\ newer_window st window = false /\
    candidate_unusable window row f e.
Proof.
  intros Hv. unfold candidate_refusal. destruct current as [row|]; [|done].
  destruct (cu_belongs_to_window row) eqn:Eb; [|done]. destruct (newer_window st window) eqn:En; [done|]. simpl.
  destruct (update_candidate window f row) as [u|e'] eqn:Eu; [done|]. intros [= ->].
  exists row. split_and!; try done. unfold update_candidate in Eu. unfold candidate_unusable.
  destruct (decode_json (cu_token row)) as [token|x]; [right; exists token; split; [done|]|by left; injection Eu as ->].
  cbn [mbind result_bind] in Eu.
  destruct (validate_projection_matches_window token window) as [[]|x]; [right|by left; injection Eu as ->].
  destruct (token_after_Ok window f token Hv) as [after Ha]. rewrite Ha in Eu. exists after. split; [done|].
  cbn [mbind result_bind] in Eu. destruct (encode_json after); [done|]. by injection Eu as ->.
Qed.

Lemma commit_outcome st window readiness current f rules :
  Encodes DiscoveryWindowSummary ->
  in_sint 64 (fz_observation_count f) -> map_result (rule_row (XE:=XE) (E:=E)) (fz_rules f) = Ok rules ->
  let commit := commit_finalization (XE:=XE) (E:=E) (finalization_rows st readiness current window) f in
  match candidate_refusal st window current f with
  | Some e => commit = Err e
  | None => exists writes, commit = Ok writes /\ (fw_status writes).1.1.1 = "FINALIZED"%string
  end.
Proof.
  intros es Hn Hr. unfold commit_finalization, candidate_refusal, to_i64.
  rewrite (proj2 (try_from_s_Some 64 _ _) (conj eq_refl Hn)). cbn [ok_or mbind result_bind].
  destruct (encode_Ok es (fz_summary f)) as [sj ->]. rewrite Hr. cbn [mbind result_bind].
  cbn [finalization_rows fr_current_projection fr_newer_window_exists fr_window].
  destruct current as [row|]; cbn [mbind result_bind]; [|by eexists].
  destruct (cu_belongs_to_window row && negb (newer_window st window)); [|by eexists].
  destruct (update_candidate window f row) as [u|e]; [by eexists|done].
Qed.

(** The reason asked for is the one recorded. *)
Lemma built_reason record at_ r f :
  build record at_ (Some r) = Ok f -> fz_completeness_reason f = Some r.
Proof.
  intros (snapshot & a & Hs & _ & _ & _ & _ & _ & _ & _ & -> & _)%build_finalization_inv.
  by apply requested_incomplete in Hs as ->.
Qed.

(** What the transaction asks of a finalization that is canonical. *)
Lemma finalize_outcome (rows : FinalizationRows J) f :
  validate_finalization (XE:=XE) (E:=E) f = Ok tt ->
  fr_locked_network rows = wi_network (fr_window rows) -> fr_locked_mint rows = wi_mint (fr_window rows) ->
  validate_finalization_for_window (XE:=XE) (E:=E) (fr_window rows) f = Ok tt ->
  wi_status (fr_window rows) <> "FINALIZED"%string ->
  in_sint 64 (fz_observation_count f) -> fr_durable_observation_count rows = fz_observation_count f ->
  rebuild (XE:=XE) (E:=E) rows f = Ok f ->
  finalize_discovery_window (XE:=XE) (E:=E) rows f =
    match readiness_refusal (fr_readiness rows) f with
    | Some e => Err e
    | None => writes ← commit_finalization (XE:=XE) (E:=E) rows f; Ok (Some writes)
    end.
Proof.
  intros Hv Hn Hm Hvw Hs Hc Hd Hb. unfold finalize_discovery_window, readiness_refusal.
  rewrite Hv, Hn, Hm, !String.eqb_refl. cbn [negb orb guard_err mbind result_bind].
  rewrite Hvw. cbn [mbind result_bind]. rewrite (proj2 (String.eqb_neq _ _) Hs).
  assert (forall w, to_i64 (XE:=XE) (JE:=E) (fz_observation_count f) w = Ok (fz_observation_count f)) as Hi.
  { intros w. unfold to_i64. by rewrite (proj2 (try_from_s_Some 64 _ _) (conj eq_refl Hc)). }
  assert (forall k : unit -> result (PersistenceError XE E) (option (FinalizationWrites J)),
    (forall u, k u = (writes ← commit_finalization (XE:=XE) (E:=E) rows f; Ok (Some writes))) ->
    (count ← to_i64 (fz_observation_count f) "window observation_count";
     _ ← guard_err (negb (fr_durable_observation_count rows =? count)) (PeDiscoveryWindowEvidenceChanged (fz_window_id f));
     canonical ← rebuild (XE:=XE) (E:=E) rows f;
     _ ← guard_err (negb (bool_decide (canonical = f))) (PeDiscoveryWindowFinalizationEvidenceMismatch (fz_window_id f));
     k tt) = (writes ← commit_finalization (XE:=XE) (E:=E) rows f; Ok (Some writes))) as Hrest.
  { intros k Hk. rewrite Hi. cbn [mbind result_bind]. rewrite Hd, Z.eqb_refl. cbn [negb guard_err mbind result_bind].
    rewrite Hb. cbn [mbind result_bind]. rewrite (bool_decide_true _ (eq_refl f)). cbn [negb guard_err mbind result_bind].
    apply Hk. }
  destruct (projection_readiness (fr_readiness rows)); [done|by apply (Hrest (fun _ => _))|].
  destruct (bool_decide (fz_completeness_reason f = _)); [by apply (Hrest (fun _ => _))|done].
Qed.

(** A finalization built from the members in the tables passes the checks of
    the transaction. *)
Lemma built_from_members st w x obs record at_ reason f :
  store_ok (E:=E) st -> so_windows st !! w = Some x ->
  load_window_observations (XE:=XE) (E:=E) (member_values st w) = Ok obs ->
  into_record (XE:=XE) (E:=E) (ow_identity x) obs = Ok record -> observations_typed obs ->
  (forall o, member_fact (E:=E) st w o ->
     wi_opened_at_unix_ms (ow_identity x) <= received_time_unix_ms o < wi_closes_at_unix_ms (ow_identity x) /\
     mi_quote_mint (market o) <> Some ""%string) ->
  build record at_ reason = Ok f ->
  fz_window_id f = w /\ fz_observation_count f = member_count st w /\
  Forall (fun o => in_sint 64 (slot (coordinate (key o)))) obs.
Proof.
  intros Hok Hx Hobs Hrec Ht Hin Hf. destruct (load_members (XE:=XE) st w Hok) as (obs' & Hobs' & Hlen & _ & Hm).
  rewrite Hobs in Hobs'. injection Hobs' as <-. pose proof (ok_windows _ Hok _ _ Hx) as (Hw & _).
  split_and!.
  - apply into_record_Ok in Hrec as (Hid & _).
    apply build_finalization_inv in Hf as (? & ? & _ & _ & _ & _ & _ & Hf & _). congruence.
  - apply build_finalization_inv in Hf as (snapshot & a & Hs & _ & _ & _ & _ & _ & _ & _ & _ & _ & -> & _).
    pose proof (into_record_Ok _ _ _ Hrec) as (_ & Ho & Hop & Hcl & _). rewrite Ho, Hop, Hcl in Hs.
    rewrite (snapshot_counts _ _ _ _ _ _ Hs), (member_count_members st w Hok), <- Hlen, filter_true; [done|].
    intros o Hmem. apply Hm in Hmem. destruct (Hin o Hmem) as [Hr Hq].
    destruct (member_belongs st w x o Hok Hx Hmem) as (Hb & Hn & _). unfold in_window.
    rewrite (bool_decide_true _ (record_market _ _ _ _ Hrec Hb Hn Hq)), andb_true_l, andb_true_iff. lia.
  - apply Forall_forall. intros o Ho. apply Hm in Ho. by apply (member_belongs st w x o Hok Hx Ho).
Qed.

(** C15: A window whose members were received inside it is finalized.  Take any
    reachable state and a stored window, not yet finalized, whose columns and
    members load.  Assume its members carry a receipt inside the window and no
    empty quote mint, the loaded values and the id fit a [u64] and the member count
    an [i64], as their types say, and the snapshot, the assessment and the summary
    encode as JSON.  For an incomplete finalization with a reason that is not blank
    at any time, and for a complete one from the close on, the canonical
    finalization exists, counts every member, and submitting it ends in one of three
    ways.  It is refused, and nothing changes, when the projection has not caught
    up with the window, or has no candidate of its opening and the finalization is
    not for a failed processing; when the window's own current candidate cannot be
    updated, because it does not decode, is of another market or does not encode;
    and otherwise it commits, and the window is finalized.  No other check of the
    transaction can refuse it. *)
Theorem admitted_window_finalizes st w x record at_ reason readiness current :
  store_reachable row_not_found (XE:=XE) (E:=E) st -> so_windows st !! w = Some x ->
  wi_status (ow_identity x) <> "FINALIZED"%string ->
  load_discovery_window (XE:=XE) (E:=E) (ow_identity x) (member_values st w) = Ok record ->
  observations_typed (wr_observations record) -> in_uint 64 w -> in_sint 64 (member_count st w) ->
  (forall o, member_fact (E:=E) st w o ->
     wi_opened_at_unix_ms (ow_identity x) <= received_time_unix_ms o < wi_closes_at_unix_ms (ow_identity x) /\
     mi_quote_mint (market o) <> Some ""%string) ->
  blank_reason (requested reason) = false ->
  (reason = None -> wi_closes_at_unix_ms (ow_identity x) <= at_) ->
  Encodes MarketWindowSnapshot -> Encodes QualificationAssessment -> Encodes DiscoveryWindowSummary ->
  exists f, build record at_ reason = Ok f /\ fz_window_id f = w /\ fz_observation_count f = member_count st w /\
    (forall r, reason = Some r -> fz_completeness_reason f = Some r) /\
    let submitted := store_finalize (XE:=XE) (E:=E) readiness current f st in
    match readiness_refusal readiness f, candidate_refusal st (ow_identity x) current f with
    | Some e, _ => submitted = (Err e, st)
    | None, Some e => submitted = (Err e, st) /\
        exists row, current = Some row /\ cu_belongs_to_window row = true /\
          newer_window st (ow_identity x) = false /\ candidate_unusable (ow_identity x) row f e
    | None, None => exists st' x', submitted = (Ok true, st') /\
        so_windows st' !! w = Some x' /\ wi_status (ow_identity x') = "FINALIZED"%string
    end.
Proof.
  intros Hr Hx Hs Hload Ht Hwid Hcount Hin Hblank Hat es ea esu.
  apply store_reachable_ok in Hr; [|done]. unfold load_discovery_window in Hload.
  apply bind_Ok in Hload as (obs & Hobs & Hrec). pose proof (into_record_Ok _ _ _ Hrec) as (_ & Ho & _ & Hcl & _).
  rewrite Ho in Ht. destruct (ok_windows _ Hr _ _ Hx) as (Hw & _ & Hlt).
  destruct (load_members (XE:=XE) st w Hr) as (obs' & Hobs' & _ & Hnd & _).
  rewrite Hobs in Hobs'. injection Hobs' as <-.
  destruct (build_succeeds (ow_identity x) record at_ reason obs Hrec Ht Hnd es ea) as [f Hf];
    [by rewrite Hw|done|done|].
  destruct (built_from_members st w x obs record at_ reason f Hr Hx Hobs Hrec Ht Hin Hf) as (Hid & Hn & Hslots).
  destruct (built_rule_rows _ _ _ _ _ _ Hrec Ht Hslots Hf) as [rules Hrules].
  assert (validate_finalization (XE:=XE) (E:=E) f = Ok tt) as Hv.
  { eapply built_finalization_valid; [by rewrite Ho|exact Hf|]. intros Hc. rewrite Hcl. apply Hat.
    by eapply built_complete. }
  pose proof (built_finalization_for_window _ _ _ _ _ _ Hrec Ht Hf) as Hvw.
  assert (rebuild (XE:=XE) (E:=E) (finalization_rows st readiness current (ow_identity x)) f = Ok f) as Hre.
  { unfold rebuild. cbn [finalization_rows fr_observations fr_window]. rewrite Hw, Hobs.
    cbn [mbind result_bind]. rewrite Hrec. cbn [mbind result_bind].
    assert (fz_finalized_at_unix_ms f = at_) as ->
      by (by apply build_finalization_inv in Hf as (? & ? & _ & _ & _ & _ & _ & _ & ? & _)).
    eapply build_again; [by rewrite Ho|exact Hf]. }
  exists f. split; [done|]. split; [done|]. split; [done|]. split; [intros r ->; by eapply built_reason|].
  intros submitted. assert (submitted = match finalize_discovery_window (XE:=XE) (E:=E)
      (finalization_rows st readiness current (ow_identity x)) f with
    | Ok (Some writes) => (Ok true, put_finalization x writes st)
    | Ok None => (Ok false, st) | Err e => (Err e, st) end) as ->.
  { unfold submitted, store_finalize. rewrite bind_eq. unfold st_lift at 1. rewrite Hv. unfold transaction.
    rewrite bind_eq. unfold read_state at 1. rewrite Hid, Hx, bind_eq. unfold st_lift at 1. cbn [ok_or].
    rewrite bind_eq. unfold read_state at 1. rewrite bind_eq. unfold st_lift at 1.
    by destruct (finalize_discovery_window _ f) as [[writes|]|e]. }
  rewrite finalize_outcome; [|done..|by rewrite Hn|simpl; by rewrite Hw|done].
  change (fr_readiness _) with readiness. destruct (readiness_refusal readiness f); [done|].
  pose proof (commit_outcome st (ow_identity x) readiness current f rules esu ltac:(by rewrite Hn) Hrules) as Hcm.
  cbv zeta in Hcm. destruct (candidate_refusal st (ow_identity x) current f) as [e|] eqn:Ec.
  - rewrite Hcm. split; [done|]. by eapply candidate_refusal_why.
  - destruct Hcm as (writes & Hwr & Hst). rewrite Hwr. eexists _, _.
    split; [done|]. split; [simpl; by rewrite Hw, lookup_insert_eq|exact Hst].
Qed.
End Liveness.

(** One window in the tables: opened, fed with two trades, finalized; and the
    replay with an early receipt that keeps it from being finalized. *)
#[local] Instance Score_eq_dec : EqDecision Score.
Proof. solve_decision. Defined.
#[local] Instance DiscoveryActivity_eq_dec : EqDecision DiscoveryActivity.
Proof. solve_decision. Defined.
#[local] Instance DiscoveryToken_eq_dec : EqDecision DiscoveryToken.
Proof. solve_decision. Defined.

Module SampleStore.
#[local] Existing Instance Hexish.codec.
Inductive Js := JsSummary (s : DiscoveryWindowSummary) | JsToken (t : DiscoveryToken) | JsNumber (n : Z)
  | JsObservation (o : NormalizedObservation unit).
#[local] Instance Js_eq_dec : EqDecision Js.
Proof. solve_decision. Defined.

(** An observation whose details are [details]. *)
Definition with_details {J J'} (details : J') (o : NormalizedObservation J) : NormalizedObservation J' := {|
  key := key o; commitment := commitment o; schema_version := schema_version o;
  decoder_version := decoder_version o; event_kind := event_kind o; market := market o;
  source_event_time_unix_ms := source_event_time_unix_ms o;
  received_time_unix_ms := received_time_unix_ms o; raw_evidence_hash := raw_evidence_hash o;
  source_evidence_base64 := source_evidence_base64 o; source_details := details; payload := payload o |}.

#[local] Instance prefilter_json : SerdeJson PrefilterDefaults Js unit :=
  {| to_value _ := Ok (JsNumber 0); from_value _ := Ok SampleFinalization.prefilter |}.
#[local] Instance settings_json : SerdeJson QualificationDefaults Js unit :=
  {| to_value _ := Ok (JsNumber 1); from_value _ := Ok SampleFinalization.settings |}.
#[local] Instance snapshot_json : SerdeJson MarketWindowSnapshot Js unit :=
  {| to_value s := Ok (JsNumber (mm_trades (ms_metrics s))); from_value _ := Err tt |}.
#[local] Instance assessment_json : SerdeJson QualificationAssessment Js unit :=
  {| to_value a := Ok (JsNumber (Z.of_nat (length (qa_rules a)))); from_value _ := Err tt |}.
#[local] Instance summary_json : SerdeJson DiscoveryWindowSummary Js unit :=
  {| to_value s := Ok (JsSummary s);
     from_value j := match j with JsSummary s => Ok s | _ => Err tt end |}.
#[local] Instance token_json : SerdeJson DiscoveryToken Js unit :=
  {| to_value t := Ok (JsToken t); from_value j := match j with JsToken t => Ok t | _ => Err tt end |}.
#[local] Instance observation_json : SerdeJson (NormalizedObservation Js) Js unit :=
  {| to_value o := if bool_decide (source_details o = JsNumber 0)
                   then Ok (JsObservation (with_details tt o)) else Err tt;
     from_value j := match j with JsObservation o => Ok (with_details (JsNumber 0) o) | _ => Err tt end |}.
Lemma observation_laws : SerdeLaws observation_json.
Proof.
  constructor. intros o j. simpl. case_bool_decide as Hd; [|done]. intros [= <-].
  unfold with_details. simpl. rewrite <- Hd. by destruct o.
Qed.

(** ** Facts *)
Definition fact (index received : Z) (kind : string) (p : ObservationPayload) : NormalizedObservation Js := {|
  key := {| ok_network := SolanaMainnet; ok_program := Pump;
            coordinate := {| slot := 10 + index; transaction_index := None; signature := "s";
                             instruction_index := 0; event_index := index |} |};
  commitment := Confirmed; schema_version := 1; decoder_version := "1"; event_kind := kind;
  market := SampleFinalization.the_market; source_event_time_unix_ms := None;
  received_time_unix_ms := received; raw_evidence_hash := "h"; source_evidence_base64 := "ab";
  source_details := JsNumber 0; payload := p |}.
Definition creation := fact 0 100 "CREATE" (TokenCreated "n" "s" "u" "alice" "alice").
Definition buy_at received := fact 1 received "TRADE" (Trade Buy "alice" 2 6 (Some 50) (Some 70)).
Definition sell_at received := fact 2 received "TRADE" (Trade Sell "bob" 1 2 (Some 40) None).
Definition window : NewDiscoveryWindow := {|
  nw_target_kind := TargetPumpMint; nw_target_address := "mint"; nw_opened_at_unix_ms := 100;
  nw_closes_at_unix_ms := 200; nw_collector_run_id := "run"; nw_prefilter_revision := 1;
  nw_prefilter_values := SampleFinalization.prefilter;
  nw_qualification := {| sq_values := SampleFinalization.settings; sq_revision := 3 |} |}.

(** ** A run *)
Definition opened : Store Js := (store_open_window (XE:=unit) (E:=unit) creation window store_init).2.
Definition bought : Store Js :=
  (store_insert_window_observation tt (E:=unit) 1 (buy_at 120) opened).2.
Definition filled : Store Js :=
  (store_insert_window_observation tt (E:=unit) 1 (sell_at 130) bought).2.
(** The buy is delivered again with an earlier receipt. *)
Definition replayed (received : Z) : Store Js :=
  (store_insert_observation (XE:=unit) (E:=unit) (buy_at received) filled).2.

Abbreviation step := (store_step (XE:=unit) (E:=unit) tt).
Abbreviation reachable := (store_reachable (XE:=unit) (E:=unit) tt).
Lemma filled_reachable : reachable filled.
Proof.
  eapply rtc_l; [apply (step_open_window _ _ creation window)|].
  eapply rtc_l; [apply (step_insert_window_observation _ _ 1 (buy_at 120))|].
  eapply rtc_once. apply (step_insert_window_observation _ _ 1 (sell_at 130)).
Qed.
Lemma replayed_step received : step filled (replayed received).
Proof. apply step_insert_observation. Qed.
Lemma replayed_reachable received : reachable (replayed received).
Proof. eapply rtc_r; [apply filled_reachable|apply replayed_step]. Qed.

Definition row_of (st : Store Js) (o : NormalizedObservation Js) : option (ObservationRow Js) :=
  so_observations st !! observation_identity (key o).
Lemma is_member st (o : NormalizedObservation Js) row :
  row_of st o = Some row -> bool_decide (is_Some (so_members st !! (1, or_id row))) = true ->
  from_value (E:=unit) (or_normalized_observation row) = Ok o -> member_fact (E:=unit) st 1 o.
Proof.
  intros Hr Hm Hd. exists (observation_identity (key o)), row. split; [exact Hr|].
  split; [by apply bool_decide_eq_true in Hm|exact Hd].
Qed.

(** ** Finalizing *)
Definition ready : ProjectionReadinessRow := {|
  pr_opening_work_status := Some "COMPLETE"%string; pr_projection_work_pending := false;
  pr_candidate_projection_present := true |}.
Definition candidate : option (CurrentProjectionRow Js) :=
  Some {| cu_token := JsToken SampleFinalization.token; cu_belongs_to_window := true |}.
Definition row1 (st : Store Js) : option (WindowRow Js) := so_windows st !! 1.
Definition load (st : Store Js) : result (PersistenceError unit unit) (DiscoveryWindowRecord Js) :=
  match row1 st with
  | Some x => load_discovery_window (ow_identity x) (member_values st 1)
  | None => Err PeNetworkMismatch
  end.
Definition finalized (st : Store Js) : Store Js :=
  match record ← load st; build_discovery_window_finalization (XE:=unit) (E:=unit) record 250 None with
  | Ok f => (store_finalize (XE:=unit) (E:=unit) ready candidate f st).2
  | Err _ => st
  end.
Lemma finalized_run st : rtc step st (finalized st).
Proof. unfold finalized. destruct (_ ≫= _); [apply rtc_once, step_finalize|reflexivity]. Qed.
Definition status1 (st : Store Js) : option string := (fun x => wi_status (ow_identity x)) <$> row1 st.

(** The members of the sample window. *)
Lemma filled_members (o : NormalizedObservation Js) :
  member_fact (E:=unit) filled 1 o -> o = creation \/ o = buy_at 120 \/ o = sell_at 130.
Proof.
  destruct (load_members (XE:=unit) (E:=unit) filled 1) as (obs & Hobs & _ & _ & Hm).
  { by eapply store_reachable_ok, filled_reachable; apply observation_laws. }
  intros Ho. apply Hm in Ho. vm_compute in Hobs. injection Hobs as <-.
  rewrite !elem_of_cons, elem_of_nil in Ho. destruct Ho as [->|[->|[->|[]]]]; auto.
Qed.
End SampleStore.
#[local] Existing Instance Hexish.codec.
#[local] Existing Instance SampleStore.Js_eq_dec.
#[local] Existing Instance SampleStore.prefilter_json.
#[local] Existing Instance SampleStore.settings_json.
#[local] Existing Instance SampleStore.snapshot_json.
#[local] Existing Instance SampleStore.assessment_json.
#[local] Existing Instance SampleStore.summary_json.
#[local] Existing Instance SampleStore.token_json.
#[local] Existing Instance SampleStore.observation_json.

Lemma stored_evidence_is_kept_witness :
  exists row', SampleStore.row_of (SampleStore.replayed 110) (SampleStore.buy_at 120) = Some row' /\
    or_received_time_unix_ms row' = 110 /\ or_id row' = 2.
Proof.
  destruct (stored_evidence_is_kept tt SampleStore.observation_laws SampleStore.filled (SampleStore.replayed 110)
    SampleStore.filled_reachable (rtc_once _ _ (SampleStore.replayed_step 110))) as (H & _).
  destruct (SampleStore.row_of SampleStore.filled (SampleStore.buy_at 120)) as [row|] eqn:Hr;
    [|vm_compute in Hr; discriminate Hr].
  destruct (H _ _ (SampleStore.buy_at 120) Hr) as (row' & _ & Hr' & _ & Hid & _).
  { vm_compute in Hr. injection Hr as <-. reflexivity. }
  exists row'. split; [exact Hr'|]. vm_compute in Hr, Hr'. injection Hr as <-. injection Hr' as <-. by split.
Defined.

Lemma early_receipt_strands_window_witness :
  exists x, SampleStore.row1 (SampleStore.finalized (SampleStore.replayed 90)) = Some x /\
    wi_status (ow_identity x) <> "FINALIZED"%string.
Proof.
  destruct (SampleStore.row1 (SampleStore.replayed 90)) as [x|] eqn:Hx; [|vm_compute in Hx; discriminate Hx].
  apply (early_receipt_strands_window tt SampleStore.observation_laws (SampleStore.replayed 90)
    (SampleStore.finalized (SampleStore.replayed 90)) 1 x (SampleStore.buy_at 90)
    (SampleStore.replayed_reachable 90) Hx).
  - vm_compute in Hx. injection Hx as <-. discriminate.
  - eapply SampleStore.is_member; vm_compute; reflexivity.
  - vm_compute in Hx. injection Hx as <-. reflexivity.
  - apply SampleStore.finalized_run.
Defined.

Lemma admitted_window_finalizes_witness : exists f st' x',
  store_finalize (XE:=unit) (E:=unit) SampleStore.ready SampleStore.candidate f SampleStore.filled = (Ok true, st') /\
  SampleStore.row1 st' = Some x' /\ wi_status (ow_identity x') = "FINALIZED"%string /\
  fz_observation_count f = 3.
Proof.
  destruct (SampleStore.row1 SampleStore.filled) as [x|] eqn:Hx; [|vm_compute in Hx; discriminate Hx].
  destruct (load_discovery_window (XE:=unit) (E:=unit) (ow_identity x) (member_values SampleStore.filled 1))
    as [record|e] eqn:Hl; [|vm_compute in Hx; injection Hx as <-; vm_compute in Hl; discriminate Hl].
  destruct (admitted_window_finalizes (XE:=unit) (E:=unit) tt SampleStore.observation_laws SampleStore.filled 1 x record 250 None
    SampleStore.ready SampleStore.candidate SampleStore.filled_reachable Hx) as (f & Hf & _ & Hn & _ & Hs).
  - vm_compute in Hx. injection Hx as <-. discriminate.
  - exact Hl.
  - vm_compute in Hx. injection Hx as <-. vm_compute in Hl. injection Hl as <-.
    split; [repeat constructor; vm_compute; congruence|vm_compute; congruence].
  - vm_compute. split; congruence.
  - vm_compute. split; congruence.
  - vm_compute in Hx. injection Hx as <-.
    intros o [->|[->| ->]]%SampleStore.filled_members; (split; [vm_compute; split; congruence|discriminate]).
  - reflexivity.
  - intros _. vm_compute in Hx. injection Hx as <-. vm_compute. congruence.
  - intros s. by eexists.
  - intros s. by eexists.
  - intros s. by eexists.
  - exists f. cbv zeta in Hs. change (readiness_refusal SampleStore.ready f) with (@None (PersistenceError unit unit)) in Hs.
    assert (candidate_refusal (XE:=unit) (E:=unit) SampleStore.filled (ow_identity x) SampleStore.candidate f = None) as Hc.
    { vm_compute in Hx. injection Hx as <-. vm_compute in Hl. injection Hl as <-. vm_compute in Hf. injection Hf as <-.
      vm_compute. reflexivity. }
    rewrite Hc in Hs. destruct Hs as (st' & x' & Hfin & Hx' & Hst). exists st', x'.
    split; [exact Hfin|]. split; [exact Hx'|]. split; [exact Hst|]. rewrite Hn. vm_compute. reflexivity.
Defined.
