(* ===== verification/DiscoveryValidation.v ===== *)
(** [crates/persistence/src/discovery_validation.rs]: what is checked about a
    discovery candidate before it is stored, and how a candidate is merged with
    the stored one. *)
From S2P Require Import Prelude.
From S2P Require Import RustStr.
From S2P Require Import Decimal.
From S2P Require Import Domain.
From S2P Require Import SnapshotArith.
From S2P Require Import Snapshot.
From S2P Require Import Qualification.
From S2P Require Import WindowToken.
From S2P Require Import ApiContracts.
From S2P Require Import PersistenceModel.
From S2P Require Import Finalization.

Inductive DiscoveryProjectionMutation :=
| MutInserted | MutUpdated | MutDemotedByMarketChange | MutStaleObservationIgnored
| MutMetadataEnrichedFromStaleCreation | MutPromoted | MutAlreadyApproved.
#[export] Instance DiscoveryProjectionMutation_eq_dec : EqDecision DiscoveryProjectionMutation.
Proof. solve_decision. Defined.
Definition mutation_name (m : DiscoveryProjectionMutation) : string :=
  match m with
  | MutInserted => "INSERTED"
  | MutUpdated => "UPDATED"
  | MutDemotedByMarketChange => "DEMOTED_BY_MARKET_CHANGE"
  | MutStaleObservationIgnored => "STALE_OBSERVATION_IGNORED"
  | MutMetadataEnrichedFromStaleCreation => "METADATA_ENRICHED_FROM_STALE_CREATION"
  | MutPromoted => "PROMOTED"
  | MutAlreadyApproved => "ALREADY_APPROVED"
  end.

(** [matches!(stage, Qualified | Approved)]. *)
Definition decided_stage (s : DiscoveryStage) : bool :=
  match s with Qualified | Approved => true | Observed => false end.

(** A passing evaluation of a complete window. *)
Definition passed_complete (q : option DiscoveryWindowSummary) : bool :=
  match q with
  | Some s => bool_decide (dw_decision s = QdPass) && bool_decide (dw_completeness s = WcComplete)
  | None => false
  end.

Definition opt_blank (o : option string) : bool :=
  match o with Some value => is_blank value | None => false end.

Section Validation.
Context {XE E : Type}.
Abbreviation persistence A := (result (PersistenceError XE E) A).

Definition ensure_discovery_work (actual : string) (work_id : Z) : persistence unit :=
  if String.eqb actual "DISCOVERY" then Ok tt
  else Err (PeUnexpectedWorkKind work_id "DISCOVERY" actual).

Fixpoint all_digits (s : string) : bool :=
  match s with
  | EmptyString => true
  | String a s => match digit_value a with Some _ => all_digits s | None => false end
  end.
Definition validate_unsigned_decimal (value field : string) : persistence unit :=
  guard_err (is_empty value || negb (all_digits value)) (PeInvalidUnsignedDecimal field).

Definition source_matches_venue (p : SourceProgram) (v : Venue) : bool :=
  match p, v with
  | Pump, PumpBondingCurve | PumpSwap, PumpSwapVenue | RaydiumCpmm, RaydiumCpmmVenue
  | RaydiumClmm, RaydiumClmmVenue | RaydiumAmmV4, RaydiumAmmV4Venue => true
  | _, _ => false
  end.

(** The totals of a token's activity and of its qualification. *)
Definition activity_totals_ok (t : DiscoveryToken) : bool :=
  let a := dt_activity t in
  bool_decide (checked_add_u 64 (da_buys a) (da_sells a) = Some (da_trades a))
  && (da_unique_traders a <=? da_trades a)
  && (dt_first_observed_unix_ms t <=? dt_last_observed_unix_ms t)
  && source_matches_venue (dt_source_program t) (dt_primary_venue t).
Definition qualification_totals_ok (q : DiscoveryWindowSummary) : bool :=
  bool_decide (checked_add_u 64 (dw_buys q) (dw_sells q) = Some (dw_trades q))
  && (dw_unique_traders q <=? dw_trades q)
  && (dw_unique_buyers q <=? dw_buys q)
  && (dw_unique_sellers q <=? dw_sells q)
  && (dw_opened_unix_ms q <? dw_closed_unix_ms q)
  && (dw_opened_unix_ms q <=? dw_evaluated_unix_ms q)
  && match dw_maximum_single_wallet_quote_share_bps q with
     | Some share => share <=? 10000
     | None => true
     end.
Definition validate_qualification_shape (q : DiscoveryWindowSummary) : persistence unit :=
  _ ← validate_unsigned_decimal (dw_buy_base_volume_units q) "qualification volume";
  _ ← validate_unsigned_decimal (dw_sell_base_volume_units q) "qualification volume";
  _ ← validate_unsigned_decimal (dw_buy_quote_volume_units q) "qualification volume";
  _ ← validate_unsigned_decimal (dw_sell_quote_volume_units q) "qualification volume";
  guard_err (negb (qualification_totals_ok q)) PeInvalidActivityTotals.

Definition validate_token_shape (t : DiscoveryToken) : persistence unit :=
  _ ← require_non_empty (dt_mint t) "token mint";
  _ ← require_non_empty (dt_market_address t) "token market_address";
  _ ← require_non_empty (dt_last_event_kind t) "token last_event_kind";
  _ ← require_non_empty (dt_latest_signature t) "token latest_signature";
  _ ← guard_err (opt_blank (dt_name t)) (PeEmptyField "token name");
  _ ← guard_err (opt_blank (dt_symbol t)) (PeEmptyField "token symbol");
  _ ← guard_err (opt_blank (dt_quote_mint t)) (PeEmptyField "token quote_mint");
  _ ← validate_unsigned_decimal (da_base_volume_units (dt_activity t)) "activity.base_volume_units";
  _ ← validate_unsigned_decimal (da_quote_volume_units (dt_activity t)) "activity.quote_volume_units";
  _ ← guard_err (negb (activity_totals_ok t)) PeInvalidActivityTotals;
  _ ← match dt_qualification t with Some q => validate_qualification_shape q | None => Ok tt end;
  guard_err (decided_stage (dt_stage t) && negb (passed_complete (dt_qualification t)))
    (PeInvalidStoredValue "token qualification" (discovery_stage_name (dt_stage t))).

(** The loop over the fields: the first that differs is reported. *)
Fixpoint first_difference (checks : list (bool * string)) : persistence unit :=
  match checks with
  | [] => Ok tt
  | (matches, field) :: rest =>
      if negb matches then Err (PeDiscoverySourceMismatch field) else first_difference rest
  end.

(** [source_event_time_unix_ms.unwrap_or(received_time_unix_ms)]. *)
Definition observed_at {J} (o : NormalizedObservation J) : Z :=
  default (received_time_unix_ms o) (source_event_time_unix_ms o).

Definition validate_token_source {J} (t : DiscoveryToken) (o : NormalizedObservation J) : persistence unit :=
  first_difference [
    (String.eqb (dt_mint t) (mi_mint (market o)), "mint"%string);
    (bool_decide (dt_primary_venue t = mi_venue (market o)), "primary_venue"%string);
    (String.eqb (dt_market_address t) (mi_market_address (market o)), "market_address"%string);
    (bool_decide (dt_quote_mint t = mi_quote_mint (market o)), "quote_mint"%string);
    (bool_decide (dt_source_program t = ok_program (key o)), "source_program"%string);
    (String.eqb (dt_last_event_kind t) (event_kind o), "event_kind"%string);
    (dt_observed_slot t =? slot (coordinate (key o)), "observed_slot"%string);
    (String.eqb (dt_latest_signature t) (signature (coordinate (key o))), "latest_signature"%string);
    (dt_last_observed_unix_ms t =? observed_at o, "last_observed_unix_ms"%string)].

Definition token_matches_observation_market {J} (t : DiscoveryToken) (o : NormalizedObservation J) : bool :=
  String.eqb (dt_mint t) (mi_mint (market o))
  && bool_decide (dt_primary_venue t = mi_venue (market o))
  && String.eqb (dt_market_address t) (mi_market_address (market o))
  && bool_decide (dt_quote_mint t = mi_quote_mint (market o))
  && bool_decide (dt_source_program t = ok_program (key o)).

Definition validate_promotion_identity (existing promoted : DiscoveryToken) : persistence unit :=
  first_difference [
    (String.eqb (dt_mint existing) (dt_mint promoted), "mint"%string);
    (bool_decide (dt_primary_venue existing = dt_primary_venue promoted), "primary_venue"%string);
    (String.eqb (dt_market_address existing) (dt_market_address promoted), "market_address"%string);
    (bool_decide (dt_quote_mint existing = dt_quote_mint promoted), "quote_mint"%string);
    (bool_decide (dt_source_program existing = dt_source_program promoted), "source_program"%string)].

Definition validate_stored_stage (stored : string) (token_stage : DiscoveryStage) : persistence unit :=
  if String.eqb stored (discovery_stage_name token_stage) then Ok tt
  else Err (PeInvalidStoredValue "discovery_tokens.stage"
              (stored +:+ "/" +:+ discovery_stage_name token_stage)).
End Validation.

(** ** Merging *)
Definition same_market (existing incoming : DiscoveryToken) : bool :=
  bool_decide (dt_primary_venue existing = dt_primary_venue incoming)
  && String.eqb (dt_market_address existing) (dt_market_address incoming)
  && bool_decide (dt_quote_mint existing = dt_quote_mint incoming)
  && bool_decide (dt_source_program existing = dt_source_program incoming).

(** [Option::or]. *)
Definition or_else {A} (a b : option A) : option A := match a with Some _ => a | None => b end.

Definition merge_observation (existing observed : DiscoveryToken) : DiscoveryToken :=
  let preserve_decision := decided_stage (dt_stage existing) && same_market existing observed in {|
  dt_mint := dt_mint observed;
  dt_name := or_else (dt_name observed) (dt_name existing);
  dt_symbol := or_else (dt_symbol observed) (dt_symbol existing);
  dt_primary_venue := dt_primary_venue observed; dt_market_address := dt_market_address observed;
  dt_quote_mint := dt_quote_mint observed; dt_source_program := dt_source_program observed;
  dt_stage := if preserve_decision then dt_stage existing else dt_stage observed;
  dt_last_event_kind := dt_last_event_kind observed; dt_observed_slot := dt_observed_slot observed;
  dt_first_observed_unix_ms := Z.min (dt_first_observed_unix_ms observed) (dt_first_observed_unix_ms existing);
  dt_last_observed_unix_ms := Z.max (dt_last_observed_unix_ms observed) (dt_last_observed_unix_ms existing);
  dt_latest_signature := dt_latest_signature observed; dt_activity := dt_activity observed;
  dt_qualification := if preserve_decision then dt_qualification existing else dt_qualification observed;
  dt_risk_score := if preserve_decision then or_else (dt_risk_score observed) (dt_risk_score existing)
                   else dt_risk_score observed;
  dt_opportunity_score :=
    if preserve_decision then or_else (dt_opportunity_score observed) (dt_opportunity_score existing)
    else dt_opportunity_score observed |}.

Definition set_names (name symbol : option string) (t : DiscoveryToken) : DiscoveryToken := {|
  dt_mint := dt_mint t; dt_name := name; dt_symbol := symbol; dt_primary_venue := dt_primary_venue t;
  dt_market_address := dt_market_address t; dt_quote_mint := dt_quote_mint t;
  dt_source_program := dt_source_program t; dt_stage := dt_stage t;
  dt_last_event_kind := dt_last_event_kind t; dt_observed_slot := dt_observed_slot t;
  dt_first_observed_unix_ms := dt_first_observed_unix_ms t;
  dt_last_observed_unix_ms := dt_last_observed_unix_ms t; dt_latest_signature := dt_latest_signature t;
  dt_activity := dt_activity t; dt_qualification := dt_qualification t;
  dt_risk_score := dt_risk_score t; dt_opportunity_score := dt_opportunity_score t |}.
Definition set_activity (a : DiscoveryActivity) (t : DiscoveryToken) : DiscoveryToken := {|
  dt_mint := dt_mint t; dt_name := dt_name t; dt_symbol := dt_symbol t; dt_primary_venue := dt_primary_venue t;
  dt_market_address := dt_market_address t; dt_quote_mint := dt_quote_mint t;
  dt_source_program := dt_source_program t; dt_stage := dt_stage t;
  dt_last_event_kind := dt_last_event_kind t; dt_observed_slot := dt_observed_slot t;
  dt_first_observed_unix_ms := dt_first_observed_unix_ms t;
  dt_last_observed_unix_ms := dt_last_observed_unix_ms t; dt_latest_signature := dt_latest_signature t;
  dt_activity := a; dt_qualification := dt_qualification t;
  dt_risk_score := dt_risk_score t; dt_opportunity_score := dt_opportunity_score t |}.

(** The existing token with what it lacked, and whether it lacked anything. *)
Definition enrich_metadata_from_stale_creation {J} (existing stale_candidate : DiscoveryToken)
    (o : NormalizedObservation J) : bool * DiscoveryToken :=
  match payload o with
  | TokenCreated _ _ _ _ _ =>
      let name_missing := bool_decide (dt_name existing = None) && negb (bool_decide (dt_name stale_candidate = None)) in
      let symbol_missing :=
        bool_decide (dt_symbol existing = None) && negb (bool_decide (dt_symbol stale_candidate = None)) in
      (name_missing || symbol_missing,
       set_names (if name_missing then dt_name stale_candidate else dt_name existing)
         (if symbol_missing then dt_symbol stale_candidate else dt_symbol existing) existing)
  | _ => (false, existing)
  end.

Definition merge_approval (existing approved : DiscoveryToken) : DiscoveryToken :=
  let newer := dt_observed_slot existing >? dt_observed_slot approved in
  let base := if newer then existing else approved in {|
  dt_mint := dt_mint base;
  dt_name := if newer then dt_name existing else or_else (dt_name approved) (dt_name existing);
  dt_symbol := if newer then dt_symbol existing else or_else (dt_symbol approved) (dt_symbol existing);
  dt_primary_venue := dt_primary_venue base; dt_market_address := dt_market_address base;
  dt_quote_mint := dt_quote_mint base; dt_source_program := dt_source_program base;
  dt_stage := Approved;
  dt_last_event_kind := dt_last_event_kind base; dt_observed_slot := dt_observed_slot base;
  dt_first_observed_unix_ms :=
    if newer then dt_first_observed_unix_ms existing
    else Z.min (dt_first_observed_unix_ms approved) (dt_first_observed_unix_ms existing);
  dt_last_observed_unix_ms := dt_last_observed_unix_ms base; dt_latest_signature := dt_latest_signature base;
  dt_activity := dt_activity base;
  dt_qualification := or_else (dt_qualification approved) (dt_qualification existing);
  dt_risk_score := dt_risk_score approved; dt_opportunity_score := dt_opportunity_score approved |}.

(** The shape of a stored candidate, and that every way of changing a candidate
    keeps it. *)
(** A sequence of checks. *)
Lemma check_bind {X B} (r : result X unit) (k : result X B) b : (_ ← r; k) = Ok b <-> r = Ok tt /\ k = Ok b.
Proof. destruct r as [[]|e]; naive_solver. Qed.

Lemma require_non_empty_Ok {XE E} value field :
  require_non_empty (XE:=XE) (JE:=E) value field = Ok tt <-> is_blank value = false.
Proof. unfold require_non_empty. apply guard_err_Ok. Qed.

(** The digits of a number. *)
Definition decimal (s : string) : Prop := is_empty s = false /\ all_digits s = true.
Lemma validate_unsigned_decimal_Ok {XE E} value field :
  validate_unsigned_decimal (XE:=XE) (E:=E) value field = Ok tt <-> decimal value.
Proof. unfold validate_unsigned_decimal, decimal. by rewrite guard_err_Ok, orb_false_iff, negb_false_iff. Qed.

Lemma all_digits_go x s : all_digits s = true -> all_digits (pretty_N_go x s) = true.
Proof.
  revert s. induction (N.lt_wf_0 x) as [x _ IH]; intros s Hs. destruct (decide (x = 0)%N) as [->|Hx].
  - by rewrite pretty_N_go_0.
  - rewrite pretty_N_go_step by lia. apply IH; [apply N.div_lt; lia|]. cbn [all_digits].
    rewrite digit_value_char by (apply N.mod_lt; lia). exact Hs.
Qed.
Lemma dec_decimal n : 0 <= n -> decimal (dec n).
Proof.
  intros Hn. destruct (decide (n = 0)) as [->|Hne]; [split; vm_compute; reflexivity|].
  rewrite dec_digits by lia. split; [|by apply all_digits_go].
  destruct (go_first_digit (Z.to_N n) "" ltac:(lia)) as (d & s & -> & _). reflexivity.
Qed.

(** A qualification is evaluated in time when its window had opened.  What is
    required of a candidate, with ([timely]) or without that. *)
Definition evaluated_in_time (q : DiscoveryWindowSummary) : Prop := dw_opened_unix_ms q <= dw_evaluated_unix_ms q.

Record qualification_ok (timely : bool) (q : DiscoveryWindowSummary) : Prop := {
  qs_buy_base : decimal (dw_buy_base_volume_units q);
  qs_sell_base : decimal (dw_sell_base_volume_units q);
  qs_buy_quote : decimal (dw_buy_quote_volume_units q);
  qs_sell_quote : decimal (dw_sell_quote_volume_units q);
  qs_trades : checked_add_u 64 (dw_buys q) (dw_sells q) = Some (dw_trades q);
  qs_traders : dw_unique_traders q <= dw_trades q;
  qs_buyers : dw_unique_buyers q <= dw_buys q;
  qs_sellers : dw_unique_sellers q <= dw_sells q;
  qs_window : dw_opened_unix_ms q < dw_closed_unix_ms q;
  qs_share : match dw_maximum_single_wallet_quote_share_bps q with Some share => share <=? 10000 | None => true end = true;
  qs_time : timely = true -> evaluated_in_time q;
}.
Abbreviation qualification_shape := (qualification_ok true).

Lemma validate_qualification_shape_Ok {XE E} q :
  validate_qualification_shape (XE:=XE) (E:=E) q = Ok tt <-> qualification_shape q.
Proof.
  unfold validate_qualification_shape, qualification_totals_ok. rewrite !check_bind, guard_err_Ok, negb_false_iff.
  rewrite !validate_unsigned_decimal_Ok, !andb_true_iff, bool_decide_eq_true, Z.ltb_lt, !Z.leb_le. split.
  - intros (? & ? & ? & ? & ((((((? & ?) & ?) & ?) & ?) & ?) & ?)). by split.
  - intros [? ? ? ? ? ? ? ? ? ? Ht]. split_and!; try done. by apply Ht.
Qed.
(** A qualification that is only not evaluated in time fails its last check. *)
Lemma validate_qualification_late {XE E} q : qualification_ok false q -> ~ evaluated_in_time q ->
  validate_qualification_shape (XE:=XE) (E:=E) q = Err PeInvalidActivityTotals.
Proof.
  intros [? ? ? ? ? ? ? ? ? ? _] Hlate. unfold validate_qualification_shape.
  rewrite !(proj2 (validate_unsigned_decimal_Ok _ _)) by done. cbn [mbind result_bind].
  assert (qualification_totals_ok q = false) as ->; [|done]. apply not_true_iff_false.
  unfold qualification_totals_ok. rewrite !andb_true_iff, !Z.leb_le. intros ((_ & Ht) & _). by apply Hlate.
Qed.
Lemma qualification_ok_weaken timely q : qualification_shape q -> qualification_ok timely q.
Proof. intros []. split; try done. intros _. auto. Qed.

Record activity_shape (a : DiscoveryActivity) : Prop := {
  as_base : decimal (da_base_volume_units a);
  as_quote : decimal (da_quote_volume_units a);
  as_totals : checked_add_u 64 (da_buys a) (da_sells a) = Some (da_trades a);
  as_unique : da_unique_traders a <= da_trades a;
}.
Record token_ok (timely : bool) (t : DiscoveryToken) : Prop := {
  ts_mint : is_blank (dt_mint t) = false;
  ts_address : is_blank (dt_market_address t) = false;
  ts_kind : is_blank (dt_last_event_kind t) = false;
  ts_signature : is_blank (dt_latest_signature t) = false;
  ts_name : opt_blank (dt_name t) = false;
  ts_symbol : opt_blank (dt_symbol t) = false;
  ts_quote_mint : opt_blank (dt_quote_mint t) = false;
  ts_activity : activity_shape (dt_activity t);
  ts_times : dt_first_observed_unix_ms t <= dt_last_observed_unix_ms t;
  ts_venue : source_matches_venue (dt_source_program t) (dt_primary_venue t) = true;
  ts_qualification q : dt_qualification t = Some q -> qualification_ok timely q;
  ts_decided : decided_stage (dt_stage t) = true -> passed_complete (dt_qualification t) = true;
}.

Abbreviation token_shape := (token_ok true).
(** The candidate's qualification, if any, is evaluated in time. *)
Definition token_in_time (t : DiscoveryToken) : bool :=
  match dt_qualification t with Some q => dw_opened_unix_ms q <=? dw_evaluated_unix_ms q | None => true end.
Lemma token_in_time_iff t :
  token_in_time t = true <-> (forall q, dt_qualification t = Some q -> evaluated_in_time q).
Proof.
  unfold token_in_time, evaluated_in_time. destruct (dt_qualification t) as [q|]; [|naive_solver].
  rewrite Z.leb_le. naive_solver.
Qed.
Lemma token_ok_weaken timely t : token_shape t -> token_ok timely t.
Proof. intros []. split; try done. intros q Hq. apply qualification_ok_weaken. auto. Qed.
Lemma token_ok_in_time t : token_ok false t -> token_in_time t = true -> token_shape t.
Proof.
  intros [] Ht. rewrite token_in_time_iff in Ht. split; try done. intros q Hq.
  destruct (ts_qualification0 q Hq). split; try done. intros _. auto.
Qed.
Lemma token_ok_is_in_time t : token_shape t -> token_in_time t = true.
Proof. intros Ht. apply token_in_time_iff. intros q Hq. by apply (ts_qualification _ _ Ht). Qed.

Lemma validate_token_shape_Ok {XE E} t : validate_token_shape (XE:=XE) (E:=E) t = Ok tt <-> token_shape t.
Proof.
  unfold validate_token_shape, activity_totals_ok.
  rewrite !check_bind, !guard_err_Ok, !require_non_empty_Ok, !validate_unsigned_decimal_Ok, negb_false_iff,
    !andb_true_iff, bool_decide_eq_true, !Z.leb_le, andb_false_iff, negb_false_iff.
  assert (match dt_qualification t with
          | Some q => validate_qualification_shape (XE:=XE) (E:=E) q | None => Ok tt end = Ok tt <->
          (forall q, dt_qualification t = Some q -> qualification_shape q)) as ->.
  { destruct (dt_qualification t) as [q|]; [|naive_solver]. rewrite validate_qualification_shape_Ok. naive_solver. }
  split.
  - intros (H1 & H2 & H3 & H4 & H5 & H6 & H7 & H8 & H9 & (((Ha & Hu) & Ht) & Hv) & Hq & Hd).
    split; try done. intros Hs. destruct Hd as [Hd|Hd]; [congruence|done].
  - intros [? ? ? ? ? ? ? [] ? ? ? Hd]. split_and!; try done.
    destruct (decided_stage (dt_stage t)); [right; by apply Hd|by left].
Qed.

(** A candidate that is well formed but for the time fails with the error of the
    totals. *)
Lemma validate_token_late {XE E} t : token_ok false t -> token_in_time t = false ->
  validate_token_shape (XE:=XE) (E:=E) t = Err PeInvalidActivityTotals.
Proof.
  intros [H1 H2 H3 H4 H5 H6 H7 [A1 A2 A3 A4] H9 H10 Hq _] Hlate. unfold validate_token_shape.
  rewrite !(proj2 (require_non_empty_Ok _ _)) by done. rewrite H5, H6, H7. cbn [guard_err mbind result_bind].
  rewrite !(proj2 (validate_unsigned_decimal_Ok _ _)) by done. cbn [mbind result_bind].
  assert (activity_totals_ok t = true) as ->.
  { unfold activity_totals_ok. rewrite !andb_true_iff, bool_decide_eq_true, !Z.leb_le. by split_and!. }
  cbn [negb guard_err mbind result_bind]. unfold token_in_time in Hlate.
  destruct (dt_qualification t) as [q|] eqn:Eq; [|done]. apply Z.leb_gt in Hlate.
  rewrite validate_qualification_late; [done|by apply Hq|unfold evaluated_in_time; lia].
Qed.

(** ** Changes *)
Lemma or_else_blank a b : opt_blank a = false -> opt_blank b = false -> opt_blank (or_else a b) = false.
Proof. by destruct a. Qed.

Lemma set_activity_shape timely a t : activity_shape a -> token_ok timely t -> token_ok timely (set_activity a t).
Proof. intros Ha []. by split. Qed.

Lemma enrich_shape {J} timely existing stale (o : NormalizedObservation J) :
  token_ok timely existing -> token_ok timely stale ->
  token_ok timely (enrich_metadata_from_stale_creation existing stale o).2.
Proof.
  intros Ht Hs. unfold enrich_metadata_from_stale_creation. destruct (payload o); try done.
  destruct Ht, Hs. split; simpl; try done; by destruct (_ && _).
Qed.
Lemma enrich_keeps {J} existing stale (o : NormalizedObservation J) :
  let t := (enrich_metadata_from_stale_creation existing stale o).2 in
  dt_mint t = dt_mint existing /\ dt_stage t = dt_stage existing /\ dt_observed_slot t = dt_observed_slot existing.
Proof. unfold enrich_metadata_from_stale_creation. by destruct (payload o). Qed.

Lemma merge_observation_shape timely existing observed :
  token_ok timely existing -> token_ok timely observed -> dt_stage observed = Observed ->
  token_ok timely (merge_observation existing observed).
Proof.
  intros Ht Ho Hst. unfold merge_observation. set (p := decided_stage _ && _). destruct Ht, Ho.
  split; simpl; try done; [by apply or_else_blank|by apply or_else_blank|lia|by destruct p|].
  destruct p; [done|by rewrite Hst].
Qed.

Lemma merge_approval_shape timely existing approved :
  token_ok timely existing -> token_ok timely approved -> passed_complete (dt_qualification approved) = true ->
  token_ok timely (merge_approval existing approved).
Proof.
  intros Ht Ha Hp. unfold merge_approval. destruct (_ >? _); destruct Ht, Ha.
  - split; simpl; try done; destruct (dt_qualification approved); simpl in *; [by auto|done|done|done].
  - split; simpl; try done; [by apply or_else_blank|by apply or_else_blank|lia| |];
      destruct (dt_qualification approved); simpl in *; by auto.
Qed.
