(* ===== verification/DiscoveryDb.v ===== *)
(** The tables of the discovery projection and the transactions of
    [crates/persistence/src/work.rs], [discovery.rs], [discovery_activity.rs] and
    [discovery_storage.rs] on them: the leases of queued facts, the candidates
    with the activity of their markets, and the counters of the projection.

    A table is a finite map by its key.  [NOW()] is an argument, in
    microseconds; the rows other transactions hold locked, which the claim
    skips, are an argument of it.  The checks of the schema, the width of its
    numbers and the collation of its texts are not modelled: a statement that
    violates a constraint fails with the driver's error and changes nothing. *)
From S2P Require Import Prelude.
From S2P Require Import ListFacts.
From S2P Require Import Stateful.
From S2P Require Import RustOrd.
From S2P Require Import RustStr.
From S2P Require Import Domain.
From S2P Require Import External.
From S2P Require Import Snapshot.
From S2P Require Import Qualification.
From S2P Require Import WindowToken.
From S2P Require Import ApiContracts.
From S2P Require Import PersistenceModel.
From S2P Require Import Finalization.
From S2P Require Import FinalizeTx.
From S2P Require Import Store.
From S2P Require Import DiscoveryValidation.

(** ** Names *)
Section Names.
Context {XE E : Type}.
Definition discovery_mode_name (m : DiscoveryMode) : string :=
  match m with
  | ObserveAll => "OBSERVE_ALL" | QualifiedOnly => "QUALIFIED_ONLY" | ApprovedOnly => "APPROVED_ONLY"
  end.
Definition parse_discovery_mode (value : string) : result (PersistenceError XE E) DiscoveryMode :=
  if String.eqb value "OBSERVE_ALL" then Ok ObserveAll
  else if String.eqb value "QUALIFIED_ONLY" then Ok QualifiedOnly
  else if String.eqb value "APPROVED_ONLY" then Ok ApprovedOnly
  else Err (PeInvalidStoredValue "discovery_projection_state.mode" value).
End Names.

(** ** Rows *)
Inductive WorkStatus := WorkPending | WorkProcessing | WorkComplete | WorkFailed.
#[export] Instance WorkStatus_eq_dec : EqDecision WorkStatus.
Proof. solve_decision. Defined.

(** A row of [observation_work]. *)
Record WorkRow := {
  wk_observation_id : Z; wk_kind : string; wk_status : WorkStatus; wk_attempts : Z;
  wk_available_at : Z; wk_finished_at : option Z; wk_last_error_code : option string;
  wk_lease_owner : option string; wk_lease_expires_at : option Z;
}.

(** A row of [discovery_tokens]. *)
Record TokenRow {J : Type} := {
  tk_stage : string; tk_network : string; tk_source_program : string; tk_venue : string;
  tk_market_address : string; tk_quote_mint : option string; tk_event_kind : string;
  tk_observed_slot : Z; tk_observed_signature : string; tk_instruction_index : Z; tk_event_index : Z;
  tk_decision_source : string; tk_decision_version : string; tk_token : J; tk_source_work_id : Z;
}.
#[global] Arguments TokenRow : clear implicits.

(** The key and the row of [discovery_activity]. *)
Definition ActivityKey : Type := string * string * string * string * string * string.
Record ActivityRow := { ar_trades : Z; ar_buys : Z; ar_sells : Z; ar_base : Z; ar_quote : Z }.
Definition activity_default : ActivityRow :=
  {| ar_trades := 0; ar_buys := 0; ar_sells := 0; ar_base := 0; ar_quote := 0 |}.

(** [discovery_projection_state]. *)
Record ProjectionState := {
  st_sequence : Z; st_mode : string; st_observed : Z; st_queued_facts : Z; st_qualified : Z;
  st_qualification_pending : Z; st_qualification_rejected : Z; st_qualification_unknown : Z;
  st_processing_failures : Z; st_approved : Z; st_flow_per_minute : option Z;
}.

Record DiscoveryDb {J : Type} := {
  db_next_fact : Z;
  db_facts : gmap Z J;
  db_next_work : Z;
  db_work : gmap Z WorkRow;
  db_tokens : gmap string (TokenRow J);
  db_activity : gmap ActivityKey ActivityRow;
  db_traders : gset (ActivityKey * string);
  db_projection : ProjectionState;
  (** [discovery_processing_failure_summaries] and
      [qualification_rejection_summaries]: count and last seen by reason. *)
  db_failures : gmap string (Z * Z);
  db_rejections : gmap string (Z * Z);
  db_events : list string;
}.
#[global] Arguments DiscoveryDb : clear implicits.

Record ClaimedObservationWork {J : Type} := {
  cw_work_id : Z; cw_observation_id : Z; cw_work_kind : string; cw_attempts : Z;
  cw_lease_owner : string; cw_lease_expires_at_unix_ms : Z; cw_observation : NormalizedObservation J;
}.
#[global] Arguments ClaimedObservationWork : clear implicits.
Record OwnedWork {J : Type} := {
  own_work_id : Z; own_observation_id : Z; own_work_kind : string; own_attempts : Z;
  own_observation : NormalizedObservation J;
}.
#[global] Arguments OwnedWork : clear implicits.
Inductive WorkFailureDisposition := RetryScheduled | PermanentlyFailed.
#[export] Instance WorkFailureDisposition_eq_dec : EqDecision WorkFailureDisposition.
Proof. solve_decision. Defined.

Record DiscoveryObservation := {
  do_token : DiscoveryToken; do_validation_source : string; do_validation_version : string;
}.
Record DiscoveryRejection := {
  dr_mint : string; dr_reason_code : string; dr_seen_at_unix_ms : Z;
  dr_decision_source : string; dr_decision_version : string;
}.

Definition MAX_CLAIM_BATCH : Z := 1000.
Definition DEFAULT_DISCOVERY_SNAPSHOT_LIMIT : Z := 500.
Definition MAX_DISCOVERY_SNAPSHOT_LIMIT : Z := 5000.

(** ** Changes to the tables *)
Section Tables.
Context {J : Type}.
Implicit Types db : DiscoveryDb J.

Definition set_facts (next : Z) (facts : gmap Z J) db : DiscoveryDb J := {|
  db_next_fact := next; db_facts := facts; db_next_work := db_next_work db; db_work := db_work db;
  db_tokens := db_tokens db; db_activity := db_activity db; db_traders := db_traders db;
  db_projection := db_projection db; db_failures := db_failures db; db_rejections := db_rejections db;
  db_events := db_events db |}.
Definition set_work (next : Z) (work : gmap Z WorkRow) db : DiscoveryDb J := {|
  db_next_fact := db_next_fact db; db_facts := db_facts db; db_next_work := next; db_work := work;
  db_tokens := db_tokens db; db_activity := db_activity db; db_traders := db_traders db;
  db_projection := db_projection db; db_failures := db_failures db; db_rejections := db_rejections db;
  db_events := db_events db |}.
Definition set_tokens (tokens : gmap string (TokenRow J)) db : DiscoveryDb J := {|
  db_next_fact := db_next_fact db; db_facts := db_facts db; db_next_work := db_next_work db;
  db_work := db_work db; db_tokens := tokens; db_activity := db_activity db; db_traders := db_traders db;
  db_projection := db_projection db; db_failures := db_failures db; db_rejections := db_rejections db;
  db_events := db_events db |}.
Definition set_activity_table (activity : gmap ActivityKey ActivityRow) db : DiscoveryDb J := {|
  db_next_fact := db_next_fact db; db_facts := db_facts db; db_next_work := db_next_work db;
  db_work := db_work db; db_tokens := db_tokens db; db_activity := activity; db_traders := db_traders db;
  db_projection := db_projection db; db_failures := db_failures db; db_rejections := db_rejections db;
  db_events := db_events db |}.
Definition set_traders (traders : gset (ActivityKey * string)) db : DiscoveryDb J := {|
  db_next_fact := db_next_fact db; db_facts := db_facts db; db_next_work := db_next_work db;
  db_work := db_work db; db_tokens := db_tokens db; db_activity := db_activity db; db_traders := traders;
  db_projection := db_projection db; db_failures := db_failures db; db_rejections := db_rejections db;
  db_events := db_events db |}.
(** The counters move and an event is appended. *)
Definition publish_projection (f : ProjectionState -> ProjectionState) (event : string) db : DiscoveryDb J := {|
  db_next_fact := db_next_fact db; db_facts := db_facts db; db_next_work := db_next_work db;
  db_work := db_work db; db_tokens := db_tokens db; db_activity := db_activity db;
  db_traders := db_traders db; db_projection := f (db_projection db); db_failures := db_failures db;
  db_rejections := db_rejections db; db_events := db_events db ++ [event] |}.
Definition set_failures (failures : gmap string (Z * Z)) db : DiscoveryDb J := {|
  db_next_fact := db_next_fact db; db_facts := db_facts db; db_next_work := db_next_work db;
  db_work := db_work db; db_tokens := db_tokens db; db_activity := db_activity db;
  db_traders := db_traders db; db_projection := db_projection db; db_failures := failures;
  db_rejections := db_rejections db; db_events := db_events db |}.
Definition set_rejections (rejections : gmap string (Z * Z)) db : DiscoveryDb J := {|
  db_next_fact := db_next_fact db; db_facts := db_facts db; db_next_work := db_next_work db;
  db_work := db_work db; db_tokens := db_tokens db; db_activity := db_activity db;
  db_traders := db_traders db; db_projection := db_projection db; db_failures := db_failures db;
  db_rejections := rejections; db_events := db_events db |}.
End Tables.

(** [sequence + 1] with the counters given. *)
Definition next_state (observed queued qualified failures approved : Z) (s : ProjectionState) : ProjectionState := {|
  st_sequence := st_sequence s + 1; st_mode := st_mode s; st_observed := observed;
  st_queued_facts := queued; st_qualified := qualified;
  st_qualification_pending := st_qualification_pending s;
  st_qualification_rejected := st_qualification_rejected s;
  st_qualification_unknown := st_qualification_unknown s; st_processing_failures := failures;
  st_approved := approved; st_flow_per_minute := st_flow_per_minute s |}.
Definition set_mode_state (mode : string) (s : ProjectionState) : ProjectionState := {|
  st_sequence := st_sequence s + 1; st_mode := mode; st_observed := st_observed s;
  st_queued_facts := st_queued_facts s; st_qualified := st_qualified s;
  st_qualification_pending := st_qualification_pending s;
  st_qualification_rejected := st_qualification_rejected s;
  st_qualification_unknown := st_qualification_unknown s;
  st_processing_failures := st_processing_failures s; st_approved := st_approved s;
  st_flow_per_minute := st_flow_per_minute s |}.
Definition set_flow_state (flow : option Z) (s : ProjectionState) : ProjectionState := {|
  st_sequence := st_sequence s + 1; st_mode := st_mode s; st_observed := st_observed s;
  st_queued_facts := st_queued_facts s; st_qualified := st_qualified s;
  st_qualification_pending := st_qualification_pending s;
  st_qualification_rejected := st_qualification_rejected s;
  st_qualification_unknown := st_qualification_unknown s;
  st_processing_failures := st_processing_failures s; st_approved := st_approved s;
  st_flow_per_minute := flow |}.

Definition after_enqueue (s : ProjectionState) : ProjectionState :=
  next_state (st_observed s) (st_queued_facts s + 1) (st_qualified s) (st_processing_failures s) (st_approved s) s.
(** The statements that count a processed fact. *)
Definition after_observation (is_new approval_removed qualification_removed : bool) (s : ProjectionState)
    : ProjectionState :=
  next_state (st_observed s + if is_new then 1 else 0) (Z.max (st_queued_facts s - 1) 0)
    (Z.max (st_qualified s - if qualification_removed then 1 else 0) 0) (st_processing_failures s)
    (Z.max (st_approved s - if approval_removed then 1 else 0) 0) s.
Definition after_failure (s : ProjectionState) : ProjectionState :=
  next_state (st_observed s) (Z.max (st_queued_facts s - 1) 0) (st_qualified s)
    (st_processing_failures s + 1) (st_approved s) s.
Definition after_approval (was_approved : bool) (s : ProjectionState) : ProjectionState :=
  next_state (st_observed s) (st_queued_facts s) (st_qualified s) (st_processing_failures s)
    (st_approved s + if was_approved then 0 else 1) s.

(** [ON CONFLICT (reason_code) DO UPDATE]. *)
Definition upsert_summary (reason : string) (seen : Z) (m : gmap string (Z * Z)) : gmap string (Z * Z) :=
  <[reason := match m !! reason with
              | Some (count, last) => (count + 1, Z.max last seen)
              | None => (1, seen)
              end]> m.

(** [(EXTRACT(EPOCH FROM ..) * 1000)::BIGINT]. *)
Definition epoch_ms (microseconds : Z) : Z := (microseconds + 500) / 1000.
Definition expires_after (now duration_ms : Z) : Z := now + 1000 * duration_ms.

Definition activity_key {J} (o : NormalizedObservation J) : ActivityKey :=
  (network_name (ok_network (key o)), source_program_name (ok_program (key o)),
   venue_name (mi_venue (market o)), mi_market_address (market o), mi_mint (market o),
   quote_or_empty (mi_quote_mint (market o))).
Definition count_trade (side : TradeSide) (base quote : Z) (r : ActivityRow) : ActivityRow := {|
  ar_trades := ar_trades r + 1;
  ar_buys := ar_buys r + match side with Buy => 1 | Sell => 0 end;
  ar_sells := ar_sells r + match side with Buy => 0 | Sell => 1 end;
  ar_base := ar_base r + base; ar_quote := ar_quote r + quote |}.

Section Operations.
Context {J XE E : Type} `{EqDecision J}.
(** The driver's [RowNotFound]. *)
Context (row_not_found : XE).
Context `{SO : !SerdeJson (NormalizedObservation J) J E} `{ST : !SerdeJson DiscoveryToken J E}.
Abbreviation persistence A := (result (PersistenceError XE E) A).
Abbreviation DbM := (stateful (DiscoveryDb J) (PersistenceError XE E)).

(** ** [work.rs] *)

(** The fact inserted with its work item ([insert_observation]). *)
Definition insert_queued_fact (now : Z) (value : J) : DbM Z :=
  fact ← read_state db_next_fact;
  work ← read_state db_next_work;
  _ ← modify_state (fun db => set_facts (fact + 1) (<[fact := value]> (db_facts db)) db);
  _ ← modify_state (fun db => set_work (work + 1)
        (<[work := {| wk_observation_id := fact; wk_kind := "DISCOVERY"; wk_status := WorkPending;
            wk_attempts := 0; wk_available_at := now; wk_finished_at := None; wk_last_error_code := None;
            wk_lease_owner := None; wk_lease_expires_at := None |}]> (db_work db)) db);
  _ ← modify_state (publish_projection after_enqueue "DISCOVERY_QUEUED_FACTS_CHANGED");
  mret fact.

(** An earlier receipt of a stored fact ([insert_chain_observation]). *)
Definition lower_received (fact at_ : Z) : DbM unit :=
  found ← read_state (fun db => db_facts db !! fact);
  match found with
  | Some value =>
      stored ← st_lift (decode_json (A:=NormalizedObservation J) value);
      value ← st_lift (encode_json (set_received at_ stored));
      modify_state (fun db => set_facts (db_next_fact db) (<[fact := value]> (db_facts db)) db)
  | None => mret tt
  end.

Definition claimable (locked : Z -> bool) (now : Z) (kind : string) (p : Z * WorkRow) : bool :=
  let r := p.2 in
  negb (locked p.1) && String.eqb (wk_kind r) kind && (wk_attempts r <? 2147483647) &&
  (bool_decide (wk_status r = WorkPending) && (wk_available_at r <=? now)
   || bool_decide (wk_status r = WorkProcessing) &&
      match wk_lease_expires_at r with None => true | Some expires => expires <=? now end).

(** [ORDER BY available_at, id LIMIT $2]. *)
Definition claim_rows (locked : Z -> bool) (now : Z) (kind : string) (limit : Z) (db : DiscoveryDb J)
    : list (Z * WorkRow) :=
  take (Z.to_nat limit)
    (sort_by (fun p q : Z * WorkRow => cmp (wk_available_at p.2, p.1) (wk_available_at q.2, q.1))
       (List.filter (claimable locked now kind) (map_to_list (db_work db)))).

Definition claim_row (now lease_ms : Z) (worker : string) (r : WorkRow) : WorkRow := {|
  wk_observation_id := wk_observation_id r; wk_kind := wk_kind r; wk_status := WorkProcessing;
  wk_attempts := wk_attempts r + 1; wk_available_at := wk_available_at r; wk_finished_at := None;
  wk_last_error_code := wk_last_error_code r; wk_lease_owner := Some worker;
  wk_lease_expires_at := Some (expires_after now lease_ms) |}.
Definition claim_all (now lease_ms : Z) (worker : string) (ps : list (Z * WorkRow))
    (work : gmap Z WorkRow) : gmap Z WorkRow :=
  foldr (fun p m => <[p.1 := claim_row now lease_ms worker p.2]> m) work ps.

(** [JOIN chain_observations]. *)
Definition join_fact (db : DiscoveryDb J) (p : Z * WorkRow) : option (Z * WorkRow * J) :=
  value ← db_facts db !! wk_observation_id p.2; Some (p, value).
Definition claimed_work (now lease_ms : Z) (worker : string) (p : Z * WorkRow * J)
    : persistence (ClaimedObservationWork J) :=
  let '(work_id, row, value) := p in
  attempts ← ok_or (try_from_u 32 (wk_attempts row + 1))
    (PeInvalidStoredValue "observation_work.attempts" (dec (wk_attempts row + 1)));
  observation ← decode_json value;
  Ok {| cw_work_id := work_id; cw_observation_id := wk_observation_id row; cw_work_kind := wk_kind row;
        cw_attempts := attempts; cw_lease_owner := worker;
        cw_lease_expires_at_unix_ms := epoch_ms (expires_after now lease_ms);
        cw_observation := observation |}.

(** The rows are claimed before any of them is decoded. *)
Definition claim_observation_work (locked : Z -> bool) (now : Z) (kind worker : string)
    (limit lease_duration_ms : Z) : DbM (list (ClaimedObservationWork J)) :=
  _ ← st_lift (require_non_empty kind "work_kind");
  _ ← st_lift (require_non_empty worker "worker_id");
  _ ← st_lift (guard_err (limit =? 0) (PeMustBePositive "claim limit"));
  _ ← st_lift (guard_err (limit >? MAX_CLAIM_BATCH) (PeLimitTooLarge "claim limit" MAX_CLAIM_BATCH));
  lease_ms ← st_lift (duration_millis lease_duration_ms "lease_duration" false);
  rows ← read_state (claim_rows locked now kind limit);
  _ ← modify_state (fun db => set_work (db_next_work db)
        (claim_all now lease_ms worker rows (db_work db)) db);
  decoded ← read_state (fun db => map_result (claimed_work now lease_ms worker)
        (omap (join_fact db) (sort_by (fun p q : Z * WorkRow => cmp p.1 q.1) rows)));
  st_lift decoded.

(** The work item a worker holds an unexpired lease of. *)
Definition owned_row (now work_id : Z) (worker : string) (db : DiscoveryDb J) : option WorkRow :=
  row ← db_work db !! work_id;
  if bool_decide (wk_status row = WorkProcessing) && bool_decide (wk_lease_owner row = Some worker) &&
     match wk_lease_expires_at row with Some expires => expires >? now | None => false end
  then Some row else None.

Definition update_work (work_id : Z) (f : WorkRow -> WorkRow) (db : DiscoveryDb J) : DiscoveryDb J :=
  set_work (db_next_work db) (alter f work_id (db_work db)) db.

Definition extend_lease (expires : Z) (r : WorkRow) : WorkRow := {|
  wk_observation_id := wk_observation_id r; wk_kind := wk_kind r; wk_status := wk_status r;
  wk_attempts := wk_attempts r; wk_available_at := wk_available_at r; wk_finished_at := wk_finished_at r;
  wk_last_error_code := wk_last_error_code r; wk_lease_owner := wk_lease_owner r;
  wk_lease_expires_at := Some expires |}.

Definition renew_observation_work_lease (now work_id : Z) (worker : string) (lease_duration_ms : Z) : DbM Z :=
  _ ← st_lift (require_non_empty worker "worker_id");
  lease_ms ← st_lift (duration_millis lease_duration_ms "lease_duration" false);
  found ← read_state (owned_row now work_id worker);
  match found with
  | Some _ =>
      _ ← modify_state (update_work work_id (extend_lease (expires_after now lease_ms)));
      mret (epoch_ms (expires_after now lease_ms))
  | None => st_fail (PeWorkLeaseLost work_id worker)
  end.

Definition lock_owned_work (now work_id : Z) (worker : string) : DbM (OwnedWork J) :=
  found ← read_state (fun db =>
    row ← owned_row now work_id worker db; value ← db_facts db !! wk_observation_id row; Some (row, value));
  match found with
  | Some (row, value) =>
      observation ← st_lift (decode_json value);
      mret {| own_work_id := work_id; own_observation_id := wk_observation_id row; own_work_kind := wk_kind row;
              own_attempts := wk_attempts row; own_observation := observation |}
  | None => st_fail (PeWorkLeaseLost work_id worker)
  end.

Definition complete_row (now : Z) (r : WorkRow) : WorkRow := {|
  wk_observation_id := wk_observation_id r; wk_kind := wk_kind r; wk_status := WorkComplete;
  wk_attempts := wk_attempts r; wk_available_at := wk_available_at r; wk_finished_at := Some now;
  wk_last_error_code := wk_last_error_code r; wk_lease_owner := None; wk_lease_expires_at := None |}.
Definition mark_work_complete (now work_id : Z) : DbM unit :=
  modify_state (update_work work_id (complete_row now)).

Definition complete_observation_work (now work_id : Z) (worker : string) : DbM unit :=
  _ ← st_lift (require_non_empty worker "worker_id");
  transaction
    (work ← lock_owned_work now work_id worker;
     _ ← st_lift (guard_err (String.eqb (own_work_kind work) "DISCOVERY") (PeDiscoveryOutcomeRequired work_id));
     _ ← mark_work_complete now work_id;
     mret (Commit tt)).

Definition release_row (now retry_ms : Z) (error_code : string) (failed : bool) (r : WorkRow) : WorkRow := {|
  wk_observation_id := wk_observation_id r; wk_kind := wk_kind r;
  wk_status := if failed then WorkFailed else WorkPending; wk_attempts := wk_attempts r;
  wk_available_at := if failed then wk_available_at r else now + 1000 * retry_ms;
  wk_finished_at := if failed then Some now else None; wk_last_error_code := Some error_code;
  wk_lease_owner := None; wk_lease_expires_at := None |}.

Definition record_terminal_discovery_failure (work : OwnedWork J) (error_code : string) : DbM unit :=
  modify_state (fun db =>
    publish_projection after_failure "DISCOVERY_WORK_FAILED"
      (set_failures (upsert_summary error_code (received_time_unix_ms (own_observation work)) (db_failures db)) db)).

Definition retry_or_fail_observation_work (now work_id : Z) (worker error_code : string)
    (retry_after_ms max_attempts : Z) : DbM WorkFailureDisposition :=
  _ ← st_lift (require_non_empty worker "worker_id");
  _ ← st_lift (require_non_empty error_code "error_code");
  _ ← st_lift (guard_err (max_attempts =? 0) (PeMustBePositive "max_attempts"));
  max_attempts ← st_lift (ok_or (try_from_s 32 max_attempts) (PeValueOutOfRange "max_attempts"));
  retry_ms ← st_lift (duration_millis retry_after_ms "retry_after" true);
  transaction
    (work ← lock_owned_work now work_id worker;
     let permanently_failed := max_attempts <=? own_attempts work in
     _ ← modify_state (update_work work_id (release_row now retry_ms error_code permanently_failed));
     _ ← (if permanently_failed && String.eqb (own_work_kind work) "DISCOVERY"
          then record_terminal_discovery_failure work error_code else mret tt);
     mret (Commit (if permanently_failed then PermanentlyFailed else RetryScheduled))).

(** ** [discovery_activity.rs] *)
Definition traders_of (k : ActivityKey) (traders : gset (ActivityKey * string)) : Z :=
  fst_count k traders.

Definition apply_observation_activity (o : NormalizedObservation J) : DbM DiscoveryActivity :=
  let k := activity_key o in
  _ ← modify_state (fun db => set_activity_table
        (match db_activity db !! k with
         | Some _ => db_activity db
         | None => <[k := activity_default]> (db_activity db)
         end) db);
  _ ← match payload o with
      | Trade side wallet base quote _ _ =>
          _ ← st_lift (require_non_empty wallet "trade wallet");
          _ ← modify_state (fun db => set_traders ({[ (k, wallet) ]} ∪ db_traders db) db);
          modify_state (fun db => set_activity_table (alter (count_trade side base quote) k (db_activity db)) db)
      | _ => mret tt
      end;
  found ← read_state (fun db => row ← db_activity db !! k; Some (row, traders_of k (db_traders db)));
  '(row, unique) ← st_lift (ok_or found (PeDatabase row_not_found));
  trades ← st_lift (to_u64 (ar_trades row) "discovery_activity.trades");
  buys ← st_lift (to_u64 (ar_buys row) "discovery_activity.buys");
  sells ← st_lift (to_u64 (ar_sells row) "discovery_activity.sells");
  unique ← st_lift (to_u64 unique "discovery_activity.unique_traders");
  mret {| da_trades := trades; da_buys := buys; da_sells := sells; da_unique_traders := unique;
          da_base_volume_units := dec (ar_base row); da_quote_volume_units := dec (ar_quote row) |}.

(** ** [discovery_storage.rs] *)

(** The columns of a candidate, with the text of its quote mint as it is. *)
Definition token_row (o : NormalizedObservation J) (t : DiscoveryToken) (work_id : Z)
    (source version : string) : persistence (TokenRow J) :=
  observed_slot ← to_i64 (dt_observed_slot t) "observed_slot";
  value ← encode_json t;
  Ok {| tk_stage := discovery_stage_name (dt_stage t); tk_network := network_name (ok_network (key o));
        tk_source_program := source_program_name (dt_source_program t);
        tk_venue := venue_name (dt_primary_venue t); tk_market_address := dt_market_address t;
        tk_quote_mint := dt_quote_mint t; tk_event_kind := dt_last_event_kind t;
        tk_observed_slot := observed_slot; tk_observed_signature := dt_latest_signature t;
        tk_instruction_index := instruction_index (coordinate (key o));
        tk_event_index := event_index (coordinate (key o));
        tk_decision_source := source; tk_decision_version := version; tk_token := value;
        tk_source_work_id := work_id |}.

Definition store_token (o : NormalizedObservation J) (t : DiscoveryToken) (work_id : Z)
    (source version : string) : DbM unit :=
  row ← st_lift (token_row o t work_id source version);
  modify_state (fun db => set_tokens (<[dt_mint t := row]> (db_tokens db)) db).
(** [insert_discovery_token]: the mint is free, its row was looked up. *)
Definition insert_discovery_token := store_token.
(** [update_discovery_token]: every column of the row is set. *)
Definition update_discovery_token := store_token.

Definition set_token_value (value : J) (r : TokenRow J) : TokenRow J := {|
  tk_stage := tk_stage r; tk_network := tk_network r; tk_source_program := tk_source_program r;
  tk_venue := tk_venue r; tk_market_address := tk_market_address r; tk_quote_mint := tk_quote_mint r;
  tk_event_kind := tk_event_kind r; tk_observed_slot := tk_observed_slot r;
  tk_observed_signature := tk_observed_signature r; tk_instruction_index := tk_instruction_index r;
  tk_event_index := tk_event_index r; tk_decision_source := tk_decision_source r;
  tk_decision_version := tk_decision_version r; tk_token := value; tk_source_work_id := tk_source_work_id r |}.
(** [UPDATE discovery_tokens SET token = $2 WHERE mint = $1]. *)
Definition update_discovery_token_metadata (t : DiscoveryToken) : DbM unit :=
  value ← st_lift (encode_json t);
  modify_state (fun db => set_tokens (alter (set_token_value value) (dt_mint t) (db_tokens db)) db).

Definition upsert_rejection_summary (reason_code : string) (seen_at : Z) : DbM unit :=
  modify_state (fun db => set_failures (upsert_summary reason_code seen_at (db_failures db)) db).

(** ** [discovery.rs] *)

(** What becomes of a candidate: the mutation, the token to store, and whether
    it is new, lost an approval and lost a qualification. *)
Definition discovery_outcome (existing : option (TokenRow J)) (candidate : DiscoveryToken)
    (o : NormalizedObservation J)
    : persistence (DiscoveryProjectionMutation * DiscoveryToken * bool * bool * bool) :=
  match existing with
  | None => Ok (MutInserted, candidate, true, false, false)
  | Some row =>
      stored ← decode_json (A:=DiscoveryToken) (tk_token row);
      _ ← validate_stored_stage (tk_stage row) (dt_stage stored);
      observed_slot ← to_i64 (dt_observed_slot candidate) "observed_slot";
      if tk_observed_slot row >? observed_slot then
        let '(changed, enriched) := enrich_metadata_from_stale_creation stored candidate o in
        Ok (if (changed : bool) then MutMetadataEnrichedFromStaleCreation else MutStaleObservationIgnored,
            enriched, false, false, false)
      else
        let merged := merge_observation stored candidate in
        let approval_removed :=
          bool_decide (dt_stage stored = Approved) && negb (bool_decide (dt_stage merged = Approved)) in
        let qualification_removed := decided_stage (dt_stage stored) && negb (decided_stage (dt_stage merged)) in
        Ok (if approval_removed || qualification_removed then MutDemotedByMarketChange else MutUpdated,
            merged, false, approval_removed, qualification_removed)
  end.

Definition store_outcome (mutation : DiscoveryProjectionMutation) (is_new : bool)
    (o : NormalizedObservation J) (t : DiscoveryToken) (work_id : Z) (source version : string) : DbM unit :=
  if is_new then insert_discovery_token o t work_id source version
  else match mutation with
       | MutUpdated | MutDemotedByMarketChange => update_discovery_token o t work_id source version
       | MutMetadataEnrichedFromStaleCreation => update_discovery_token_metadata t
       | _ => mret tt
       end.

Definition commit_discovery_observation (now work_id : Z) (worker : string) (candidate : DiscoveryObservation)
    : DbM DiscoveryProjectionMutation :=
  let t := do_token candidate in
  let source := do_validation_source candidate in
  let version := do_validation_version candidate in
  _ ← st_lift (require_non_empty worker "worker_id");
  _ ← st_lift (require_non_empty source "validation_source");
  _ ← st_lift (require_non_empty version "validation_version");
  _ ← st_lift (validate_token_shape t);
  _ ← st_lift (guard_err (negb (bool_decide (dt_stage t = Observed))) PeObservationMustBeUnapproved);
  transaction
    (work ← lock_owned_work now work_id worker;
     let o := own_observation work in
     _ ← st_lift (ensure_discovery_work (own_work_kind work) work_id);
     _ ← st_lift (validate_token_source t o);
     existing ← read_state (fun db => db_tokens db !! dt_mint t);
     '(mutation, token_to_store, is_new, approval_removed, qualification_removed) ←
       st_lift (discovery_outcome existing t o);
     _ ← store_outcome mutation is_new o token_to_store work_id source version;
     activity ← apply_observation_activity o;
     _ ← (if token_matches_observation_market token_to_store o
          then update_discovery_token_metadata (set_activity activity token_to_store) else mret tt);
     _ ← modify_state (publish_projection (after_observation is_new approval_removed qualification_removed)
           "DISCOVERY_TOKEN_OBSERVED");
     _ ← mark_work_complete now work_id;
     mret (Commit mutation)).

Definition approved_row (t : DiscoveryToken) (value : J) (source version : string) (observed_slot : Z)
    (r : TokenRow J) : TokenRow J := {|
  tk_stage := "APPROVED"; tk_network := tk_network r; tk_source_program := tk_source_program r;
  tk_venue := tk_venue r; tk_market_address := tk_market_address r; tk_quote_mint := tk_quote_mint r;
  tk_event_kind := dt_last_event_kind t; tk_observed_slot := observed_slot;
  tk_observed_signature := dt_latest_signature t; tk_instruction_index := tk_instruction_index r;
  tk_event_index := tk_event_index r; tk_decision_source := source; tk_decision_version := version;
  tk_token := value; tk_source_work_id := tk_source_work_id r |}.

Definition commit_discovery_approval (t : DiscoveryToken) (source version : string)
    : DbM DiscoveryProjectionMutation :=
  _ ← st_lift (require_non_empty source "decision_source");
  _ ← st_lift (require_non_empty version "decision_version");
  _ ← st_lift (guard_err (negb (bool_decide (dt_stage t = Approved))) PeApprovalMustBeExplicit);
  _ ← st_lift (guard_err (negb (passed_complete (dt_qualification t))) (PeCandidateNotQualified (dt_mint t)));
  _ ← st_lift (validate_token_shape t);
  transaction
    (found ← read_state (fun db => db_tokens db !! dt_mint t);
     row ← st_lift (ok_or found (PeCandidateNotObserved (dt_mint t)));
     stored ← st_lift (decode_json (A:=DiscoveryToken) (tk_token row));
     _ ← st_lift (validate_stored_stage (tk_stage row) (dt_stage stored));
     _ ← st_lift (guard_err (negb (decided_stage (dt_stage stored)) || negb (passed_complete (dt_qualification stored)))
           (PeCandidateNotQualified (dt_mint t)));
     _ ← st_lift (validate_promotion_identity stored t);
     let was_approved := bool_decide (dt_stage stored = Approved) in
     let promoted := merge_approval stored t in
     value ← st_lift (encode_json promoted);
     observed_slot ← st_lift (to_i64 (dt_observed_slot promoted) "observed_slot");
     _ ← modify_state (fun db => set_tokens
           (alter (approved_row promoted value source version observed_slot) (dt_mint promoted) (db_tokens db)) db);
     _ ← modify_state (publish_projection (after_approval was_approved) "DISCOVERY_TOKEN_APPROVED");
     mret (Commit (if was_approved then MutAlreadyApproved else MutPromoted))).

Definition commit_discovery_rejection (now work_id : Z) (worker : string) (rejection : DiscoveryRejection)
    : DbM unit :=
  _ ← st_lift (require_non_empty worker "worker_id");
  _ ← st_lift (require_non_empty (dr_mint rejection) "rejection mint");
  _ ← st_lift (require_non_empty (dr_reason_code rejection) "reason_code");
  _ ← st_lift (require_non_empty (dr_decision_source rejection) "decision_source");
  _ ← st_lift (require_non_empty (dr_decision_version rejection) "decision_version");
  transaction
    (work ← lock_owned_work now work_id worker;
     _ ← st_lift (ensure_discovery_work (own_work_kind work) work_id);
     _ ← st_lift (guard_err (negb (String.eqb (dr_mint rejection) (mi_mint (market (own_observation work)))))
           (PeDiscoverySourceMismatch "mint"));
     _ ← modify_state (publish_projection after_failure "DISCOVERY_TOKEN_REJECTED");
     _ ← upsert_rejection_summary (dr_reason_code rejection) (dr_seen_at_unix_ms rejection);
     _ ← mark_work_complete now work_id;
     mret (Commit tt)).

(** *** The part of a window's finalization that writes these tables *)
Context `{SP : !SerdeJson PrefilterDefaults J E} `{SQ : !SerdeJson QualificationDefaults J E}
  `{SS : !SerdeJson MarketWindowSnapshot J E} `{SA : !SerdeJson QualificationAssessment J E}
  `{SW : !SerdeJson DiscoveryWindowSummary J E}.

Definition finalized_row (u : TokenUpdate J) (r : TokenRow J) : TokenRow J := {|
  tk_stage := tu_stage u; tk_network := tk_network r; tk_source_program := tk_source_program r;
  tk_venue := tk_venue r; tk_market_address := tk_market_address r; tk_quote_mint := tk_quote_mint r;
  tk_event_kind := tk_event_kind r; tk_observed_slot := tk_observed_slot r;
  tk_observed_signature := tk_observed_signature r; tk_instruction_index := tk_instruction_index r;
  tk_event_index := tk_event_index r; tk_decision_source := "WINDOW_QUALIFICATION";
  tk_decision_version := tu_decision_version u; tk_token := tu_token u;
  tk_source_work_id := tk_source_work_id r |}.
Definition after_finalization (w : FinalizationWrites J) (s : ProjectionState) : ProjectionState := {|
  st_sequence := st_sequence s + 1; st_mode := st_mode s; st_observed := st_observed s;
  st_queued_facts := st_queued_facts s;
  st_qualified := Z.max (st_qualified s + fw_qualified_delta w) 0;
  st_qualification_pending := Z.max (st_qualification_pending s - 1) 0;
  st_qualification_rejected := st_qualification_rejected s + fw_rejected w;
  st_qualification_unknown := st_qualification_unknown s + fw_unknown w;
  st_processing_failures := st_processing_failures s;
  st_approved := Z.max (st_approved s - fw_approval_removed w) 0;
  st_flow_per_minute := st_flow_per_minute s |}.
Definition upsert_rejections (seen : Z) (summaries : list (SummaryTable * string)) (m : gmap string (Z * Z))
    : gmap string (Z * Z) :=
  foldl (fun m p => match p.1 with
                    | RejectionSummaries => upsert_summary p.2 seen m
                    | UnknownSummaries => m
                    end) m summaries.
Definition write_finalization (at_ : Z) (w : FinalizationWrites J) (db : DiscoveryDb J) : DiscoveryDb J :=
  publish_projection (after_finalization w) "QUALIFICATION_WINDOW_FINALIZED"
    (set_rejections (upsert_rejections at_ (fw_summaries w) (db_rejections db))
       (set_tokens (match fw_token w with
                    | Some u => alter (finalized_row u) (tu_mint u) (db_tokens db)
                    | None => db_tokens db
                    end) db)).

(** The rows the transaction read, with the candidate of the tables. *)
Definition with_current_projection (current : option (CurrentProjectionRow J)) (rows : FinalizationRows J)
    : FinalizationRows J := {|
  fr_locked_network := fr_locked_network rows; fr_locked_mint := fr_locked_mint rows;
  fr_window := fr_window rows; fr_existing := fr_existing rows; fr_readiness := fr_readiness rows;
  fr_durable_observation_count := fr_durable_observation_count rows; fr_observations := fr_observations rows;
  fr_current_projection := current; fr_newer_window_exists := fr_newer_window_exists rows |}.
Definition current_projection (window : WindowIdentityRow J) (belongs : bool) (db : DiscoveryDb J)
    : option (CurrentProjectionRow J) :=
  (fun r => {| cu_token := tk_token r; cu_belongs_to_window := belongs |}) <$> db_tokens db !! wi_mint window.
Definition commit_window_finalization (rows : FinalizationRows J) (belongs : bool)
    (f : FinalizeDiscoveryWindow J) : DbM bool :=
  current ← read_state (current_projection (fr_window rows) belongs);
  outcome ← st_lift (finalize_discovery_window (with_current_projection current rows) f);
  match outcome with
  | None => mret false
  | Some writes => _ ← modify_state (write_finalization (fz_finalized_at_unix_ms f) writes); mret true
  end.
(** The opening of a window counts it ([open_discovery_window]). *)
Definition after_window_opened (s : ProjectionState) : ProjectionState := {|
  st_sequence := st_sequence s + 1; st_mode := st_mode s; st_observed := st_observed s;
  st_queued_facts := st_queued_facts s; st_qualified := st_qualified s;
  st_qualification_pending := st_qualification_pending s + 1;
  st_qualification_rejected := st_qualification_rejected s;
  st_qualification_unknown := st_qualification_unknown s; st_processing_failures := st_processing_failures s;
  st_approved := st_approved s; st_flow_per_minute := st_flow_per_minute s |}.
Definition count_opened_window : DbM unit :=
  modify_state (publish_projection after_window_opened "QUALIFICATION_WINDOW_OPENED").

(** *** Reading the projection *)

(** [WHERE $1 = .. OR stage IN ..]. *)
Definition row_visible (mode : DiscoveryMode) (r : TokenRow J) : bool :=
  match mode with
  | ObserveAll => true
  | QualifiedOnly => String.eqb (tk_stage r) "QUALIFIED" || String.eqb (tk_stage r) "APPROVED"
  | ApprovedOnly => String.eqb (tk_stage r) "APPROVED"
  end.
(** [ORDER BY observed_slot DESC, mint LIMIT $2]. *)
Definition snapshot_rows (mode : DiscoveryMode) (limit : Z) (db : DiscoveryDb J) : list (TokenRow J) :=
  take (Z.to_nat limit)
    (sort_by (fun p q : string * TokenRow J => cmp (- tk_observed_slot p.2, p.1) (- tk_observed_slot q.2, q.1))
       (List.filter (fun p => row_visible mode p.2) (map_to_list (db_tokens db)))).*2.
(** [ORDER BY count DESC, reason_code]. *)
Definition rejection_rows (db : DiscoveryDb J) : list (string * (Z * Z)) :=
  sort_by (fun p q : string * (Z * Z) => cmp (- p.2.1, p.1) (- q.2.1, q.1)) (map_to_list (db_rejections db)).

Definition load_snapshot_token (mode : DiscoveryMode) (value : J) : persistence DiscoveryToken :=
  t ← decode_json value;
  _ ← validate_token_shape t;
  let hidden := match mode with
                | ObserveAll => false
                | QualifiedOnly => negb (decided_stage (dt_stage t))
                | ApprovedOnly => negb (bool_decide (dt_stage t = Approved))
                end in
  _ ← guard_err hidden (PeInvalidStoredValue "discovery_tokens.stage" (discovery_stage_name (dt_stage t)));
  Ok t.
Definition load_rejection (p : string * (Z * Z)) : persistence RejectionSummary :=
  count ← to_u64 p.2.1 "qualification_rejection_summaries.count";
  Ok {| rj_reason_code := p.1; rj_count := count; rj_last_seen_unix_ms := p.2.2 |}.

Definition load_counters (s : ProjectionState) : persistence DiscoveryCounters :=
  observed ← to_u64 (st_observed s) "discovery_projection_state.observed";
  pending ← to_u64 (st_queued_facts s) "discovery_projection_state.queued_facts";
  qualified ← to_u64 (st_qualified s) "discovery_projection_state.qualified";
  qualification_pending ← to_u64 (st_qualification_pending s) "discovery_projection_state.qualification_pending";
  qualification_rejected ← to_u64 (st_qualification_rejected s) "discovery_projection_state.qualification_rejected";
  qualification_unknown ← to_u64 (st_qualification_unknown s) "discovery_projection_state.qualification_unknown";
  processing_failures ← to_u64 (st_processing_failures s) "discovery_projection_state.processing_failures";
  approved ← to_u64 (st_approved s) "discovery_projection_state.approved";
  rejected ← to_u64 (st_qualification_rejected s) "discovery_projection_state.qualification_rejected";
  flow ← match st_flow_per_minute s with
         | Some value => Some <$> to_u64 value "discovery_projection_state.flow_per_minute"
         | None => Ok None
         end;
  Ok {| dc_observed := observed; dc_pending := pending; dc_qualified := qualified;
        dc_qualification_pending := qualification_pending; dc_qualification_rejected := qualification_rejected;
        dc_qualification_unknown := qualification_unknown; dc_processing_failures := processing_failures;
        dc_approved := approved; dc_rejected := rejected; dc_flow_per_minute := flow |}.

Definition snapshot_of_db (limit : Z) (db : DiscoveryDb J) : persistence DiscoverySnapshot :=
  let state := db_projection db in
  mode ← parse_discovery_mode (st_mode state);
  let total := match mode with
               | ObserveAll => st_observed state
               | QualifiedOnly => st_qualified state
               | ApprovedOnly => st_approved state
               end in
  tokens ← map_result (fun r => load_snapshot_token mode (tk_token r)) (snapshot_rows mode limit db);
  rejection_reasons ← map_result load_rejection (rejection_rows db);
  total ← to_u64 total "discovery_tokens.visible_count";
  sequence ← to_u64 (st_sequence state) "discovery_projection_state.sequence";
  counters ← load_counters state;
  Ok {| ds_sequence := sequence; ds_mode := mode; ds_tokens := tokens; ds_tokens_total := total;
        ds_tokens_truncated := total >? Z.of_nat (length tokens); ds_counters := counters;
        ds_rejection_reasons := rejection_reasons |}.

Definition load_discovery_snapshot_bounded (limit : Z) : DbM DiscoverySnapshot :=
  _ ← st_lift (guard_err (limit =? 0) (PeMustBePositive "discovery snapshot limit"));
  _ ← st_lift (guard_err (limit >? MAX_DISCOVERY_SNAPSHOT_LIMIT)
        (PeLimitTooLarge "discovery snapshot limit" MAX_DISCOVERY_SNAPSHOT_LIMIT));
  loaded ← read_state (snapshot_of_db limit);
  st_lift loaded.
Definition load_discovery_snapshot : DbM DiscoverySnapshot :=
  load_discovery_snapshot_bounded DEFAULT_DISCOVERY_SNAPSHOT_LIMIT.

Definition load_discovery_token (mint : string) : DbM (option DiscoveryToken) :=
  _ ← st_lift (require_non_empty mint "discovery mint");
  found ← read_state (fun db => db_tokens db !! mint);
  match found with
  | Some row =>
      t ← st_lift (decode_json (tk_token row));
      _ ← st_lift (validate_token_shape t);
      mret (Some t)
  | None => mret None
  end.

(** *** Settings of the projection *)
Definition set_discovery_mode (mode : DiscoveryMode) : DbM bool :=
  transaction
    (current ← read_state (fun db => st_mode (db_projection db));
     if String.eqb current (discovery_mode_name mode) then mret (Commit false)
     else _ ← modify_state (publish_projection (set_mode_state (discovery_mode_name mode)) "DISCOVERY_MODE_CHANGED");
          mret (Commit true)).

Definition set_discovery_flow_per_minute (flow : option Z) : DbM bool :=
  flow ← st_lift (match flow with
                  | Some value => Some <$> to_i64 value "flow_per_minute"
                  | None => Ok None
                  end);
  transaction
    (current ← read_state (fun db => st_flow_per_minute (db_projection db));
     if bool_decide (current = flow) then mret (Commit false)
     else _ ← modify_state (publish_projection (set_flow_state flow) "DISCOVERY_FLOW_CHANGED");
          mret (Commit true)).

(** *** Repairing the counters *)
(** What the repair counts in the tables of windows and assessments. *)
Record WindowCounts := { wc_active : Z; wc_rejected : Z; wc_unknown : Z }.

Definition stage_in (stages : list string) (r : TokenRow J) : bool := existsb (String.eqb (tk_stage r)) stages.
Definition count_tokens_in (stages : list string) (db : DiscoveryDb J) : Z :=
  map_count (stage_in stages) (db_tokens db).
Definition work_is_queued (r : WorkRow) : bool :=
  String.eqb (wk_kind r) "DISCOVERY" &&
  (bool_decide (wk_status r = WorkPending) || bool_decide (wk_status r = WorkProcessing)).
Definition count_queued (db : DiscoveryDb J) : Z := map_count work_is_queued (db_work db).
Definition sum_failures (db : DiscoveryDb J) : Z := map_sum fst (db_failures db).

Definition rebuilt_state (windows : WindowCounts) (db : DiscoveryDb J) (s : ProjectionState) : ProjectionState := {|
  st_sequence := st_sequence s + 1; st_mode := st_mode s;
  st_observed := Z.of_nat (size (db_tokens db)); st_queued_facts := count_queued db;
  st_qualified := count_tokens_in ["QUALIFIED"; "APPROVED"]%string db;
  st_qualification_pending := wc_active windows; st_qualification_rejected := wc_rejected windows;
  st_qualification_unknown := wc_unknown windows; st_processing_failures := sum_failures db;
  st_approved := count_tokens_in ["APPROVED"]%string db; st_flow_per_minute := st_flow_per_minute s |}.
Definition rebuild_discovery_projection (windows : WindowCounts) : DbM Z :=
  _ ← modify_state (fun db => publish_projection (rebuilt_state windows db) "DISCOVERY_REBUILT" db);
  sequence ← read_state (fun db => st_sequence (db_projection db));
  st_lift (to_u64 sequence "discovery_projection_state.sequence").
End Operations.
