(* ===== verification/Retention.v ===== *)
(** [crates/persistence/src/retention.rs] and
    [apps/server/src/jobs/maintenance.rs]: the pruning of expired history and
    the guard of the storage limit.

    The tables are finite maps from ids to what the statements read: the times
    of first sight, the work rows, the memberships and the open windows.  Times
    are microseconds.  A deletion of a fact deletes its work and its memberships
    with it, as the foreign keys say.  Between two transactions the tables are
    what other clients left, and each transaction skips the rows others lock. *)
From S2P Require Import Prelude.
From S2P Require Import ListFacts.
From S2P Require Import Stateful.
From S2P Require Import RustOrd.
From S2P Require Import RustStr.
From S2P Require Import PersistenceModel.
From S2P Require Import DiscoveryDb.

Definition MAX_RETENTION_BATCH_SIZE : Z := 10000.

Record RetentionPolicy := {
  rp_terminal_history_before_unix_ms : Z; rp_projection_events_before_unix_ms : Z;
  rp_quarantine_before_unix_ms : Z; rp_batch_size : Z;
}.
Record RetentionPruneResult := {
  rr_terminal_observations : Z; rr_projection_events : Z; rr_quarantine_records : Z;
}.
Definition prune_result_default : RetentionPruneResult :=
  {| rr_terminal_observations := 0; rr_projection_events := 0; rr_quarantine_records := 0 |}.
Definition total_rows (r : RetentionPruneResult) : Z :=
  saturating_add_u 64 (saturating_add_u 64 (rr_terminal_observations r) (rr_projection_events r))
    (rr_quarantine_records r).

(** ** The tables *)
Record RetentionDb := {
  (** [chain_observations]: [first_seen_at]. *)
  rt_observations : gmap Z Z;
  rt_work : gmap Z WorkRow;
  (** [discovery_window_observations], window first. *)
  rt_members : gmap (Z * Z) Z;
  (** [discovery_windows]: whether it is active. *)
  rt_windows : gmap Z bool;
  (** [projection_events]: [created_at]. *)
  rt_events : gmap Z Z;
  (** [intake_quarantine]: [last_seen_at]. *)
  rt_quarantine : gmap Z Z;
}.

Definition work_of (id : Z) (db : RetentionDb) : list WorkRow :=
  List.filter (fun r => wk_observation_id r =? id) (map_to_list (rt_work db)).*2.
Definition in_active_window (id : Z) (db : RetentionDb) : bool :=
  existsb (fun wo : Z * Z => (wo.2 =? id) && bool_decide (rt_windows db !! wo.1 = Some true))
    (map_to_list (rt_members db)).*1.

(** Terminal, and finished before the cutoff. *)
Definition work_expired (before : Z) (r : WorkRow) : bool :=
  (bool_decide (wk_status r = WorkComplete) || bool_decide (wk_status r = WorkFailed))
  && match wk_finished_at r with Some finished => finished <? before | None => false end.

(** The conditions on a fact. *)
Definition observation_expired (before : Z) (db : RetentionDb) (p : Z * Z) : bool :=
  (p.2 <? before)
  && negb (bool_decide (work_of p.1 db = []))
  && forallb (work_expired before) (work_of p.1 db)
  && negb (in_active_window p.1 db).

(** [ORDER BY time, id LIMIT $2 FOR UPDATE SKIP LOCKED]. *)
Definition candidates (locked : Z -> bool) (batch : Z) (expired : Z * Z -> bool) (rows : gmap Z Z) : list Z :=
  (take (Z.to_nat batch)
    (sort_by (fun p q : Z * Z => cmp (p.2, p.1) (q.2, q.1))
       (List.filter (fun p => expired p && negb (locked p.1)) (map_to_list rows)))).*1.

Definition delete_rows {A} (ids : list Z) (rows : gmap Z A) : gmap Z A := foldr delete rows ids.

(** The [DELETE] of facts, cascading. *)
Definition delete_observations (ids : list Z) (db : RetentionDb) : RetentionDb := {|
  rt_observations := delete_rows ids (rt_observations db);
  rt_work := filter (fun p => wk_observation_id p.2 ∉ ids) (rt_work db);
  rt_members := filter (fun p => p.1.2 ∉ ids) (rt_members db);
  rt_windows := rt_windows db; rt_events := rt_events db; rt_quarantine := rt_quarantine db |}.
Definition delete_events (ids : list Z) (db : RetentionDb) : RetentionDb := {|
  rt_observations := rt_observations db; rt_work := rt_work db; rt_members := rt_members db;
  rt_windows := rt_windows db; rt_events := delete_rows ids (rt_events db); rt_quarantine := rt_quarantine db |}.
Definition delete_quarantine (ids : list Z) (db : RetentionDb) : RetentionDb := {|
  rt_observations := rt_observations db; rt_work := rt_work db; rt_members := rt_members db;
  rt_windows := rt_windows db; rt_events := rt_events db; rt_quarantine := delete_rows ids (rt_quarantine db) |}.

(** The rows others lock in the three tables. *)
Record Locks := { lk_observations : Z -> bool; lk_events : Z -> bool; lk_quarantine : Z -> bool }.

(** [TIMESTAMPTZ 'epoch' + ($1 * INTERVAL '1 millisecond')]. *)
Definition instant_of_ms (ms : Z) : Z := 1000 * ms.

Definition expired_observations (policy : RetentionPolicy) (locked : Z -> bool) (db : RetentionDb) : list Z :=
  candidates locked (rp_batch_size policy)
    (observation_expired (instant_of_ms (rp_terminal_history_before_unix_ms policy)) db) (rt_observations db).
Definition older (before : Z) (p : Z * Z) : bool := p.2 <? before.
Definition expired_events (policy : RetentionPolicy) (locked : Z -> bool) (db : RetentionDb) : list Z :=
  candidates locked (rp_batch_size policy) (older (instant_of_ms (rp_projection_events_before_unix_ms policy)))
    (rt_events db).
Definition expired_quarantine (policy : RetentionPolicy) (locked : Z -> bool) (db : RetentionDb) : list Z :=
  candidates locked (rp_batch_size policy) (older (instant_of_ms (rp_quarantine_before_unix_ms policy)))
    (rt_quarantine db).

Section Retention.
Context {XE JE : Type}.
Abbreviation persistence A := (result (PersistenceError XE JE) A).

Definition validate_policy (policy : RetentionPolicy) : persistence unit :=
  _ ← guard_err (rp_batch_size policy =? 0) (PeMustBePositive "retention batch_size");
  guard_err (rp_batch_size policy >? MAX_RETENTION_BATCH_SIZE)
    (PeLimitTooLarge "retention batch_size" MAX_RETENTION_BATCH_SIZE).

(** The three statements and the commit. *)
Definition prune_tables (locks : Locks) (policy : RetentionPolicy) (db : RetentionDb)
    : RetentionPruneResult * RetentionDb :=
  let observations := expired_observations policy (lk_observations locks) db in
  let db := delete_observations observations db in
  let events := expired_events policy (lk_events locks) db in
  let db := delete_events events db in
  let quarantine := expired_quarantine policy (lk_quarantine locks) db in
  let db := delete_quarantine quarantine db in
  ({| rr_terminal_observations := Z.of_nat (length observations);
      rr_projection_events := Z.of_nat (length events);
      rr_quarantine_records := Z.of_nat (length quarantine) |}, db).
Definition prune_retained_history (locks : Locks) (policy : RetentionPolicy)
    : stateful RetentionDb (PersistenceError XE JE) RetentionPruneResult := fun db =>
  match validate_policy policy with
  | Err e => (Err e, db)
  | Ok _ => let '(pruned, db) := prune_tables locks policy db in (Ok pruned, db)
  end.

(** ** [maintenance.rs] *)
Record MaintenanceRuntimeConfig := {
  mc_terminal_history_retention : Z; mc_projection_event_retention : Z; mc_quarantine_retention : Z;
  mc_interval : Z; mc_batch_size : Z; mc_database_max_bytes : Z;
}.
Inductive MaintenanceError :=
| MePersistence (e : PersistenceError XE JE)
| MeStorageLimitReached (current_bytes maximum_bytes : Z).

Definition cutoff (now_unix_ms retention : Z) : Z :=
  saturating_sub_s 64 now_unix_ms (default i64_max (try_from_s 64 retention)).

(** The environment: what others do to the tables before each transaction and
    which rows they lock, whether a check sees the cancellation, the clock, and
    the answer of [pg_database_size]. *)
Record MaintenanceEnv := {
  me_others : nat -> RetentionDb -> RetentionDb;
  me_locks : nat -> Locks;
  me_cancelled : nat -> bool;
  me_unix_time_millis : Z;
  me_database_size : RetentionDb -> Z;
}.

Definition policy_of (config : MaintenanceRuntimeConfig) (now : Z) : RetentionPolicy := {|
  rp_terminal_history_before_unix_ms := cutoff now (mc_terminal_history_retention config);
  rp_projection_events_before_unix_ms := cutoff now (mc_projection_event_retention config);
  rp_quarantine_before_unix_ms := cutoff now (mc_quarantine_retention config);
  rp_batch_size := mc_batch_size config |}.
Definition add_pruned (total pruned : RetentionPruneResult) : RetentionPruneResult := {|
  rr_terminal_observations := saturating_add_u 64 (rr_terminal_observations total) (rr_terminal_observations pruned);
  rr_projection_events := saturating_add_u 64 (rr_projection_events total) (rr_projection_events pruned);
  rr_quarantine_records := saturating_add_u 64 (rr_quarantine_records total) (rr_quarantine_records pruned) |}.
(** No class filled its batch. *)
Definition prune_is_complete (batch : Z) (pruned : RetentionPruneResult) : bool :=
  (rr_terminal_observations pruned <? batch) && (rr_projection_events pruned <? batch)
  && (rr_quarantine_records pruned <? batch).

Context (env : MaintenanceEnv).

(** The loop from its [n]-th round, for [fuel] rounds; [None] without fuel. *)
Fixpoint prune_loop (fuel n : nat) (policy : RetentionPolicy) (total : RetentionPruneResult) (db : RetentionDb)
    : option (result (PersistenceError XE JE) RetentionPruneResult * RetentionDb) :=
  match fuel with
  | O => None
  | S fuel =>
      if me_cancelled env n then Some (Ok total, db)
      else match prune_retained_history (me_locks env n) policy (me_others env n db) with
           | (Err e, db) => Some (Err e, db)
           | (Ok pruned, db) =>
               let total := add_pruned total pruned in
               if prune_is_complete (rp_batch_size policy) pruned then Some (Ok total, db)
               else prune_loop fuel (S n) policy total db
           end
  end.
Definition prune_expired_history (fuel : nat) (config : MaintenanceRuntimeConfig) (db : RetentionDb)
    : option (result (PersistenceError XE JE) RetentionPruneResult * RetentionDb) :=
  prune_loop fuel 0 (policy_of config (me_unix_time_millis env)) prune_result_default db.

Definition ensure_storage_capacity (maximum_bytes : Z) (db : RetentionDb) : result MaintenanceError Z :=
  current_bytes ← map_err MePersistence (to_u64 (me_database_size env db) "pg_database_size");
  if maximum_bytes <=? current_bytes then Err (MeStorageLimitReached current_bytes maximum_bytes)
  else Ok current_bytes.

Definition run_maintenance_cycle (fuel : nat) (config : MaintenanceRuntimeConfig) (db : RetentionDb)
    : option (result MaintenanceError RetentionPruneResult * RetentionDb) :=
  '(pruned, db) ← prune_expired_history fuel config db;
  Some (match pruned with
        | Err e => Err (MePersistence e)
        | Ok pruned => _ ← ensure_storage_capacity (mc_database_max_bytes config) db; Ok pruned
        end, db).
End Retention.
#[global] Arguments MaintenanceError : clear implicits.

(** [run_maintenance]: each turn either sees the cancellation ([None]) or runs a
    cycle in the environment of its tick.  [None] is a run that has not ended. *)
Fixpoint run_maintenance {XE JE} (fuel : nat) (turns : list (option MaintenanceEnv)) (config : MaintenanceRuntimeConfig)
    (db : RetentionDb) : option (result (MaintenanceError XE JE) unit * RetentionDb) :=
  match turns with
  | [] => None
  | None :: _ => Some (Ok tt, db)
  | Some env :: turns =>
      '(outcome, db) ← run_maintenance_cycle env fuel config db;
      match outcome with
      | Err e => Some (Err e, db)
      | Ok _ => run_maintenance fuel turns config db
      end
  end.

(** ** What a prune takes *)
Definition eligible (expired : Z * Z -> bool) (rows : gmap Z Z) : list (Z * Z) :=
  List.filter expired (map_to_list rows).

Lemma elem_of_eligible expired rows p : p ∈ eligible expired rows <-> expired p = true /\ rows !! p.1 = Some p.2.
Proof. unfold eligible. rewrite filter_subset. destruct p as [id t]. by rewrite elem_of_map_to_list. Qed.

Lemma eligible_NoDup expired rows : NoDup (eligible expired rows).*1.
Proof.
  eapply sublist_NoDup; [apply (NoDup_fst_map_to_list rows)|]. apply fmap_sublist, filter_sublist.
Qed.

Lemma elem_of_eligible_ids expired rows id :
  id ∈ (eligible expired rows).*1 <-> exists t, rows !! id = Some t /\ expired (id, t) = true.
Proof.
  rewrite list_elem_of_fmap. split.
  - intros ([i t] & -> & Hp). apply elem_of_eligible in Hp as [He Hr]. by exists t.
  - intros (t & Hr & He). exists (id, t). split; [done|]. by apply elem_of_eligible.
Qed.

Lemma candidates_NoDup locked batch expired rows : NoDup (candidates locked batch expired rows).
Proof.
  unfold candidates. eapply sublist_NoDup; [|apply fmap_sublist, sublist_take].
  rewrite sort_by_perm. apply (eligible_NoDup (fun p => expired p && negb (locked p.1))).
Qed.

Lemma candidates_expired locked batch expired rows id :
  id ∈ candidates locked batch expired rows ->
  exists t, rows !! id = Some t /\ expired (id, t) = true /\ locked id = false.
Proof.
  unfold candidates. intros ([i t] & -> & Hp)%list_elem_of_fmap.
  apply elem_of_take in Hp as (k & Hp & _). apply list_elem_of_lookup_2 in Hp. rewrite elem_of_sort_by in Hp.
  apply (elem_of_eligible (fun p => expired p && negb (locked p.1))) in Hp as [He Hr].
  apply andb_true_iff in He as [He Hl%negb_true_iff]. by exists t.
Qed.

Lemma candidates_length locked batch expired rows :
  0 <= batch -> Z.of_nat (length (candidates locked batch expired rows)) <= batch.
Proof. intros Hb. unfold candidates. rewrite length_fmap, length_take. lia. Qed.

(** A batch that is not full took every expired row that is not locked. *)
Lemma candidates_all locked batch expired rows id t :
  Z.of_nat (length (candidates locked batch expired rows)) < batch ->
  rows !! id = Some t -> expired (id, t) = true -> locked id = false ->
  id ∈ candidates locked batch expired rows.
Proof.
  unfold candidates. set (l := sort_by _ _). rewrite length_fmap, length_take. intros Hb Hr He Hl.
  rewrite take_ge by lia. apply list_elem_of_fmap. exists (id, t). split; [done|]. unfold l.
  rewrite elem_of_sort_by. apply (elem_of_eligible (fun p => expired p && negb (locked p.1))).
  simpl. by rewrite He, Hl.
Qed.

Lemma lookup_delete_rows {A} ids (rows : gmap Z A) i a :
  delete_rows ids rows !! i = Some a <-> i ∉ ids /\ rows !! i = Some a.
Proof.
  unfold delete_rows. induction ids as [|j ids IH]; simpl; [set_solver|].
  rewrite lookup_delete_Some, IH, not_elem_of_cons. split; intros; naive_solver.
Qed.

(** The conditions on a fact, by lookups. *)
Lemma observation_expired_iff before db id t :
  observation_expired before db (id, t) = true <->
  t < before /\ (exists w r, rt_work db !! w = Some r /\ wk_observation_id r = id) /\
  (forall w r, rt_work db !! w = Some r -> wk_observation_id r = id -> work_expired before r = true) /\
  (forall w a, rt_members db !! (w, id) = Some a -> rt_windows db !! w <> Some true).
Proof.
  assert (forall r, r ∈ work_of id db <-> wk_observation_id r = id /\ exists w, rt_work db !! w = Some r) as Hwork.
  { intros r. unfold work_of. rewrite filter_subset, Z.eqb_eq, list_elem_of_fmap. split.
    - intros [Hid ([w r'] & -> & Hw)]. apply elem_of_map_to_list in Hw. split; [done|]. by exists w.
    - intros [Hid [w Hw]]. split; [done|]. exists (w, r). split; [done|]. by apply elem_of_map_to_list. }
  unfold observation_expired. cbn [fst snd]. rewrite !andb_true_iff, Z.ltb_lt, !negb_true_iff, bool_decide_eq_false.
  rewrite forallb_forall. unfold in_active_window. rewrite <- not_true_iff_false, existsb_exists.
  split.
  - intros (((Ht & Hne) & Hall) & Hact). split; [done|]. split; [|split].
    + destruct (work_of id db) as [|r l] eqn:E; [done|].
      destruct (proj1 (Hwork r)) as [Hid [w Hw]]; [left|]. by exists w, r.
    + intros w r Hw Hid. apply Hall, list_elem_of_In, Hwork. split; [done|]. by exists w.
    + intros w a Hm Hopen. apply Hact. exists (w, id). split.
      * apply list_elem_of_In, list_elem_of_fmap. exists ((w, id), a). split; [done|]. by apply elem_of_map_to_list.
      * cbn [fst snd]. by rewrite Z.eqb_refl, bool_decide_eq_true_2.
  - intros (Ht & (w & r & Hw & Hid) & Hall & Hact). split; [split; [split|]|]; [done| | |].
    + intros Hnil. assert (r ∈ work_of id db) as Hr by (apply Hwork; split; [done|by exists w]).
      rewrite Hnil in Hr. by apply not_elem_of_nil in Hr.
    + intros r' Hr'%list_elem_of_In. apply Hwork in Hr' as [Hid' [w' Hw']]. by eapply Hall.
    + intros ([w' o] & Hin%list_elem_of_In & Hb). apply list_elem_of_fmap in Hin as ([k a] & Heq & Hk).
      apply elem_of_map_to_list in Hk. cbn [fst snd] in *. subst k.
      apply andb_true_iff in Hb as [->%Z.eqb_eq Hopen%bool_decide_eq_true]. by apply (Hact w' a).
Qed.

(** What is left of an expired fact was expired before. *)
Lemma expired_after_deletion before ids db id t : id ∉ ids ->
  observation_expired before (delete_observations ids db) (id, t) = true ->
  observation_expired before db (id, t) = true.
Proof.
  intros Hid. rewrite !observation_expired_iff. simpl. intros (Ht & (w & r & Hw & Hr) & Hall & Hact).
  split; [done|]. split; [|split].
  - apply map_lookup_filter_Some in Hw as [Hw _]. by exists w, r.
  - intros w' r' Hw' Hr'. apply (Hall w' r'); [|done]. apply map_lookup_filter_Some. split; [done|]. simpl. by rewrite Hr'.
  - intros w' a Hm. apply (Hact w' a). apply map_lookup_filter_Some. by split.
Qed.

(** Rows that were taken and rows that remain are distinct and were all expired. *)
Lemma eligible_shrinks expired expired' rows rows' ids :
  NoDup ids -> (forall id, id ∈ ids -> exists t, rows !! id = Some t /\ expired (id, t) = true) ->
  (forall id t, rows' !! id = Some t -> expired' (id, t) = true ->
     id ∉ ids /\ exists t', rows !! id = Some t' /\ expired (id, t') = true) ->
  (length ids + length (eligible expired' rows') <= length (eligible expired rows))%nat.
Proof.
  intros Hnd Hids Hleft. rewrite <- (length_fmap fst (eligible expired' rows')), <- (length_fmap fst (eligible expired rows)).
  rewrite <- length_app. apply submseteq_length, NoDup_submseteq.
  - apply NoDup_app. split; [done|]. split; [|apply eligible_NoDup].
    intros id Hin Hin'. apply elem_of_eligible_ids in Hin' as (t & Ht & He). by apply (Hleft id t) in He as [Hn _].
  - intros id. rewrite elem_of_app. intros [Hin|Hin]; apply elem_of_eligible_ids; [by apply Hids|].
    apply elem_of_eligible_ids in Hin as (t & Ht & He). by apply (Hleft id t) in He as [_ He].
Qed.

(** The three conditions of a policy. *)
Definition observation_due (policy : RetentionPolicy) (db : RetentionDb) : Z * Z -> bool :=
  observation_expired (instant_of_ms (rp_terminal_history_before_unix_ms policy)) db.
Definition event_due (policy : RetentionPolicy) : Z * Z -> bool :=
  older (instant_of_ms (rp_projection_events_before_unix_ms policy)).
Definition quarantine_due (policy : RetentionPolicy) : Z * Z -> bool :=
  older (instant_of_ms (rp_quarantine_before_unix_ms policy)).

(** The rows a policy lets a prune take. *)
Definition backlog (policy : RetentionPolicy) (db : RetentionDb) : nat :=
  length (eligible (observation_due policy db) (rt_observations db)) +
  length (eligible (event_due policy) (rt_events db)) +
  length (eligible (quarantine_due policy) (rt_quarantine db)).

(** Every row that is expired after a step was expired before it: other clients
    write rows with the time of their writing and finish work now. *)
Definition expires_nothing (policy : RetentionPolicy) (db db' : RetentionDb) : Prop :=
  (forall id t, rt_observations db' !! id = Some t -> observation_due policy db' (id, t) = true ->
     exists t', rt_observations db !! id = Some t' /\ observation_due policy db (id, t') = true) /\
  (forall id t, rt_events db' !! id = Some t -> event_due policy (id, t) = true ->
     exists t', rt_events db !! id = Some t' /\ event_due policy (id, t') = true) /\
  (forall id t, rt_quarantine db' !! id = Some t -> quarantine_due policy (id, t) = true ->
     exists t', rt_quarantine db !! id = Some t' /\ quarantine_due policy (id, t') = true).

Lemma backlog_shrinks policy db db' : expires_nothing policy db db' -> (backlog policy db' <= backlog policy db)%nat.
Proof.
  intros (H1 & H2 & H3). unfold backlog. repeat apply Nat.add_le_mono.
  - apply (eligible_shrinks (observation_due policy db) (observation_due policy db') _ _ []); [constructor|set_solver|].
    intros id t Hr He. split; [set_solver|]. by eapply H1.
  - apply (eligible_shrinks (event_due policy) (event_due policy) _ _ []); [constructor|set_solver|].
    intros id t Hr He. split; [set_solver|]. by eapply H2.
  - apply (eligible_shrinks (quarantine_due policy) (quarantine_due policy) _ _ []); [constructor|set_solver|].
    intros id t Hr He. split; [set_solver|]. by eapply H3.
Qed.

Definition taken (r : RetentionPruneResult) : Z :=
  rr_terminal_observations r + rr_projection_events r + rr_quarantine_records r.

(** A prune takes its rows off the backlog. *)
Lemma prune_backlog locks policy db :
  let '(pruned, db') := prune_tables locks policy db in
  Z.of_nat (backlog policy db') + taken pruned <= Z.of_nat (backlog policy db).
Proof.
  unfold prune_tables. set (os := expired_observations policy (lk_observations locks) db). cbv zeta.
  set (es := expired_events policy (lk_events locks) (delete_observations os db)).
  set (qs := expired_quarantine policy (lk_quarantine locks) (delete_events es (delete_observations os db))).
  set (db' := delete_quarantine qs (delete_events es (delete_observations os db))).
  assert (length os + length (eligible (observation_due policy db') (rt_observations db'))
          <= length (eligible (observation_due policy db) (rt_observations db)))%nat as H1.
  { apply eligible_shrinks; [apply candidates_NoDup| |].
    - intros id Hid. apply candidates_expired in Hid as (t & Ht & He & _). by exists t.
    - intros id t Ht He. apply lookup_delete_rows in Ht as [Hn Ht]. split; [done|]. exists t. split; [done|].
      by apply (expired_after_deletion _ os). }
  assert (length es + length (eligible (event_due policy) (rt_events db'))
          <= length (eligible (event_due policy) (rt_events db)))%nat as H2.
  { apply eligible_shrinks; [apply candidates_NoDup| |].
    - intros id Hid. apply candidates_expired in Hid as (t & Ht & He & _). by exists t.
    - intros id t Ht He. apply lookup_delete_rows in Ht as [Hn Ht]. split; [done|]. by exists t. }
  assert (length qs + length (eligible (quarantine_due policy) (rt_quarantine db'))
          <= length (eligible (quarantine_due policy) (rt_quarantine db)))%nat as H3.
  { apply eligible_shrinks; [apply candidates_NoDup| |].
    - intros id Hid. apply candidates_expired in Hid as (t & Ht & He & _). by exists t.
    - intros id t Ht He. apply lookup_delete_rows in Ht as [Hn Ht]. split; [done|]. by exists t. }
  unfold backlog, taken. cbn [rr_terminal_observations rr_projection_events rr_quarantine_records]. lia.
Qed.

(** What a statement of the prune does to the rows of its class: [count] rows go,
    all due and unlocked, nothing else changes, and a statement that does not fill
    its batch leaves no other row that is due and unlocked. *)
Definition takes_rows (due : Z * Z -> bool) (locked : Z -> bool) (batch count : Z) (rows rows' : gmap Z Z) : Prop :=
  rows' ⊆ rows /\ Z.of_nat (size (rows ∖ rows')) = count /\ count <= batch /\
  (forall id t, rows !! id = Some t -> rows' !! id = None -> due (id, t) = true /\ locked id = false) /\
  (count < batch -> forall id t, rows' !! id = Some t -> due (id, t) = true -> locked id = true).

Lemma delete_rows_removed {A} ids (rows : gmap Z A) : NoDup ids -> (forall id, id ∈ ids -> is_Some (rows !! id)) ->
  size (rows ∖ delete_rows ids rows) = length ids.
Proof.
  intros Hnd Hin. rewrite <- size_dom, <- (size_list_to_set (C:=gset Z) ids Hnd). f_equal.
  apply set_eq. intros id. rewrite elem_of_list_to_set, elem_of_dom. unfold is_Some.
  setoid_rewrite lookup_difference_Some. split.
  - intros (a & Ha & Hgone). destruct (decide (id ∈ ids)) as [|Hn]; [done|].
    rewrite (proj2 (lookup_delete_rows ids rows id a)) in Hgone; done.
  - intros Hid. destruct (Hin id Hid) as [a Ha]. exists a. split; [done|].
    apply eq_None_not_Some. intros [b [Hn _]%lookup_delete_rows]. done.
Qed.

Lemma candidates_taken locked batch due rows : 0 <= batch ->
  takes_rows due locked batch (Z.of_nat (length (candidates locked batch due rows)))
    rows (delete_rows (candidates locked batch due rows) rows).
Proof.
  intros Hb. set (ids := candidates locked batch due rows).
  assert (forall id t, rows !! id = Some t -> delete_rows ids rows !! id = None -> id ∈ ids) as Hgone.
  { intros id t Ht Hg. destruct (decide (id ∈ ids)) as [|Hn]; [done|].
    rewrite (proj2 (lookup_delete_rows ids rows id t)) in Hg; done. }
  split; [|split; [|split; [by apply candidates_length|split]]].
  - apply map_subseteq_spec. by intros id t [_ Ht]%lookup_delete_rows.
  - rewrite delete_rows_removed; [done|apply candidates_NoDup|].
    intros id (t & Ht & _)%candidates_expired. by exists t.
  - intros id t Ht Hg. apply (Hgone id t Ht), candidates_expired in Hg as (t' & Ht' & Hd & Hl).
    rewrite Ht in Ht'. by injection Ht' as <-.
  - intros Hroom id t [Hn Ht]%lookup_delete_rows Hd. apply not_false_iff_true. intros Hl.
    apply Hn. by eapply candidates_all.
Qed.

Lemma validate_policy_bound {XE JE} policy :
  validate_policy (XE:=XE) (JE:=JE) policy = Ok tt -> rp_batch_size policy <= MAX_RETENTION_BATCH_SIZE.
Proof.
  unfold validate_policy. destruct (rp_batch_size policy =? 0); [done|]. simpl.
  by destruct (Z.gtb_spec (rp_batch_size policy) MAX_RETENTION_BATCH_SIZE).
Qed.

(** ** Theorems *)
Section Theorems.
Context {XE JE : Type}.

(** C38: A prune takes only expired, unlocked history, and says how much.  From the
    facts, the projection events and the quarantined records it removes rows that
    are due by the policy and that no other client has locked; it adds and changes
    none; the counter of each class is the number of rows the prune removed from it
    and is at most the batch, and where it is less, every row of the class that was
    due and stayed is locked.  A fact is due when it was first seen before the
    cutoff, has work, all of it finished before the cutoff, and is in no active
    window; so the prune removes no unfinished work and no membership of an active
    window, and no window row. *)
Theorem prune_takes_only_expired locks policy db pruned db' :
  in_uint 32 (rp_batch_size policy) ->
  prune_retained_history (XE:=XE) (JE:=JE) locks policy db = (Ok pruned, db') ->
  rp_batch_size policy <= MAX_RETENTION_BATCH_SIZE /\
  takes_rows (observation_due policy db) (lk_observations locks) (rp_batch_size policy)
    (rr_terminal_observations pruned) (rt_observations db) (rt_observations db') /\
  takes_rows (event_due policy) (lk_events locks) (rp_batch_size policy)
    (rr_projection_events pruned) (rt_events db) (rt_events db') /\
  takes_rows (quarantine_due policy) (lk_quarantine locks) (rp_batch_size policy)
    (rr_quarantine_records pruned) (rt_quarantine db) (rt_quarantine db') /\
  (forall id t, observation_due policy db (id, t) = true <->
     t < instant_of_ms (rp_terminal_history_before_unix_ms policy) /\
     (exists w r, rt_work db !! w = Some r /\ wk_observation_id r = id) /\
     (forall w r, rt_work db !! w = Some r -> wk_observation_id r = id ->
        work_expired (instant_of_ms (rp_terminal_history_before_unix_ms policy)) r = true) /\
     (forall w a, rt_members db !! (w, id) = Some a -> rt_windows db !! w <> Some true)) /\
  (forall w r, rt_work db !! w = Some r -> rt_work db' !! w = None ->
     work_expired (instant_of_ms (rp_terminal_history_before_unix_ms policy)) r = true) /\
  (forall w o a, rt_members db !! (w, o) = Some a -> rt_members db' !! (w, o) = None ->
     rt_windows db !! w <> Some true) /\
  rt_windows db' = rt_windows db.
Proof.
  intros [Hb _]. unfold prune_retained_history. destruct (validate_policy policy) as [[]|] eqn:Hv; [|done].
  apply validate_policy_bound in Hv. unfold prune_tables. cbv zeta. intros [= <- <-].
  set (os := expired_observations policy (lk_observations locks) db).
  assert (forall id, id ∈ os -> exists t, rt_observations db !! id = Some t /\
            observation_due policy db (id, t) = true) as Hos
    by (intros id (t & Ht & Hd & _)%candidates_expired; by exists t).
  split; [done|]. split; [by apply candidates_taken|]. split; [by apply candidates_taken|].
  split; [by apply candidates_taken|]. split; [intros id t; apply observation_expired_iff|].
  split; [|split; [|done]].
  - intros w r Hw Hgone. destruct (decide (wk_observation_id r ∈ os)) as [Hin|Hn].
    + destruct (Hos _ Hin) as (t & _ & Hd). apply observation_expired_iff in Hd as (_ & _ & Hall & _). by eapply Hall.
    + simpl in Hgone. rewrite (proj2 (map_lookup_filter_Some _ _ w r)) in Hgone; [done|by split].
  - intros w o a Hm Hgone. destruct (decide (o ∈ os)) as [Hin|Hn].
    + destruct (Hos _ Hin) as (t & _ & Hd). apply observation_expired_iff in Hd as (_ & _ & _ & Hact). by eapply Hact.
    + simpl in Hgone. rewrite (proj2 (map_lookup_filter_Some _ _ (w, o) a)) in Hgone; [done|by split].
Qed.

(** What is left after a prune that filled no batch is locked. *)
Definition drained (locks : Locks) (policy : RetentionPolicy) (db : RetentionDb) : Prop :=
  (forall id t, rt_observations db !! id = Some t -> observation_due policy db (id, t) = true ->
     lk_observations locks id = true) /\
  (forall id t, rt_events db !! id = Some t -> event_due policy (id, t) = true -> lk_events locks id = true) /\
  (forall id t, rt_quarantine db !! id = Some t -> quarantine_due policy (id, t) = true ->
     lk_quarantine locks id = true).

Lemma complete_prune_drains locks policy db :
  let '(pruned, db') := prune_tables locks policy db in
  prune_is_complete (rp_batch_size policy) pruned = true -> drained locks policy db'.
Proof.
  unfold prune_tables, prune_is_complete. cbv zeta. cbn [rr_terminal_observations rr_projection_events rr_quarantine_records].
  intros Hc. apply andb_true_iff in Hc as [[H1%Z.ltb_lt H2%Z.ltb_lt]%andb_true_iff H3%Z.ltb_lt].
  split; [|split]; intros id t Ht Hd; simpl in Ht; apply lookup_delete_rows in Ht as [Hn Ht];
    apply not_false_iff_true; intros Hl; apply Hn; eapply candidates_all; try done.
  by apply (expired_after_deletion _ (expired_observations policy (lk_observations locks) db)).
Qed.

(** Maintenance drains the history and ends.  As long as others make nothing
    expire that was not expired, the loop over the batches returns within as many
    rounds as there were expired rows, and one more; unless it saw a
    cancellation, every row that is still expired then is locked by another
    client at its last transaction. *)
Theorem maintenance_drains_history env config db fuel :
  let policy := policy_of config (me_unix_time_millis env) in
  1 <= mc_batch_size config <= MAX_RETENTION_BATCH_SIZE ->
  (forall n db, expires_nothing policy db (me_others env n db)) ->
  (backlog policy db < fuel)%nat ->
  exists total db', prune_expired_history (XE:=XE) (JE:=JE) env fuel config db = Some (Ok total, db') /\
    ((exists n, me_cancelled env n = true) \/ exists n, drained (me_locks env n) policy db').
Proof.
  cbv zeta. set (policy := policy_of config (me_unix_time_millis env)). intros Hb Hothers.
  unfold prune_expired_history. fold policy.
  assert (validate_policy (XE:=XE) (JE:=JE) policy = Ok tt) as Hv.
  { unfold validate_policy. change (rp_batch_size policy) with (mc_batch_size config).
    rewrite (proj2 (Z.eqb_neq (mc_batch_size config) 0)) by lia. rewrite gtb_false by lia. done. }
  generalize prune_result_default as total. generalize 0%nat as n. revert db.
  induction fuel as [|fuel IH]; intros db n total Hf; [lia|]. cbn [prune_loop].
  destruct (me_cancelled env n) eqn:Hc; [exists total, db; split; [done|left; by exists n]|].
  unfold prune_retained_history. rewrite Hv. pose proof (prune_backlog (me_locks env n) policy (me_others env n db)) as Hbl.
  pose proof (complete_prune_drains (me_locks env n) policy (me_others env n db)) as Hd.
  destruct (prune_tables (me_locks env n) policy (me_others env n db)) as [pruned db'] eqn:Hp.
  destruct (prune_is_complete (rp_batch_size policy) pruned) eqn:Hdone.
  { eexists _, db'. split; [done|]. right. exists n. by apply Hd. }
  apply IH. pose proof (backlog_shrinks _ _ _ (Hothers n db)) as Hs.
  assert (1 <= taken pruned) as Ht.
  { unfold prune_tables in Hp. cbv zeta in Hp. injection Hp as <- _. unfold prune_is_complete in Hdone. unfold taken.
    cbn [rr_terminal_observations rr_projection_events rr_quarantine_records] in *.
    change (rp_batch_size policy) with (mc_batch_size config) in Hdone. rewrite !andb_false_iff, !Z.ltb_ge in Hdone. lia. }
  lia.
Qed.
End Theorems.

(** ** A sample
    Two old facts: one finished, one still queued; an old event. *)
Module SampleRetention.
Definition work (observation : Z) (status : WorkStatus) (finished : option Z) : WorkRow := {|
  wk_observation_id := observation; wk_kind := "DISCOVERY"; wk_status := status; wk_attempts := 1;
  wk_available_at := 0; wk_finished_at := finished; wk_last_error_code := None; wk_lease_owner := None;
  wk_lease_expires_at := None |}.
Definition db : RetentionDb := {|
  rt_observations := {[1 := 0; 2 := 0]};
  rt_work := {[1 := work 1 WorkComplete (Some 5); 2 := work 2 WorkPending None]};
  rt_members := {[(7, 1) := 0; (7, 2) := 0]}; rt_windows := {[7 := false]};
  rt_events := {[1 := 0; 2 := 0]}; rt_quarantine := ∅ |}.
Definition config : MaintenanceRuntimeConfig := {|
  mc_terminal_history_retention := 1000; mc_projection_event_retention := 1000; mc_quarantine_retention := 1000;
  mc_interval := 1000; mc_batch_size := 1; mc_database_max_bytes := 100 |}.
Definition env : MaintenanceEnv := {|
  me_others := fun _ db => db;
  me_locks := fun _ => {| lk_observations := fun _ => false; lk_events := fun _ => false; lk_quarantine := fun _ => false |};
  me_cancelled := fun _ => false; me_unix_time_millis := 5000;
  me_database_size := fun _ => 10 |}.
Definition policy : RetentionPolicy := policy_of config 5000.

(** One row of each class at a time, until a round fills no batch. *)
Example cycle_prunes :
  (fun p => (p.1, map_to_list (rt_observations p.2), map_to_list (rt_events p.2)))
    <$> run_maintenance_cycle (XE:=unit) (JE:=unit) env 5 config db =
  Some (Ok {| rr_terminal_observations := 1; rr_projection_events := 2; rr_quarantine_records := 0 |}, [(2, 0)], []).
Proof. vm_compute. reflexivity. Qed.
End SampleRetention.

Lemma prune_takes_only_expired_witness :
  exists pruned db', prune_retained_history (XE:=unit) (JE:=unit) (me_locks SampleRetention.env 0) SampleRetention.policy
      SampleRetention.db = (Ok pruned, db') /\ rr_terminal_observations pruned = 1 /\
    work_expired (instant_of_ms 4000) (SampleRetention.work 1 WorkComplete (Some 5)) = true.
Proof.
  destruct (prune_retained_history (XE:=unit) (JE:=unit) (me_locks SampleRetention.env 0) SampleRetention.policy
      SampleRetention.db) as [[pruned|e] db'] eqn:E; [|vm_compute in E; discriminate E].
  exists pruned, db'. split; [reflexivity|].
  assert (in_uint 32 (rp_batch_size SampleRetention.policy)) as Hb by (split; vm_compute; discriminate).
  destruct (prune_takes_only_expired _ _ _ _ _ Hb E) as (_ & _ & _ & _ & _ & Hw & _).
  split; [vm_compute in E; injection E as <- _; reflexivity|].
  apply (Hw 1); [reflexivity|]. vm_compute in E. injection E as _ <-. reflexivity.
Defined.

Lemma maintenance_drains_history_witness :
  (backlog SampleRetention.policy SampleRetention.db < 5)%nat /\
  exists total db', prune_expired_history (XE:=unit) (JE:=unit) SampleRetention.env 5 SampleRetention.config
      SampleRetention.db = Some (Ok total, db').
Proof.
  assert (backlog SampleRetention.policy SampleRetention.db < 5)%nat as Hf by (vm_compute; repeat constructor).
  split; [exact Hf|].
  destruct (maintenance_drains_history (XE:=unit) (JE:=unit) SampleRetention.env SampleRetention.config
    SampleRetention.db 5) as (total & db' & H & _).
  - split; vm_compute; discriminate.
  - intros n db. split; [|split]; intros id t Ht He; exists t; split; assumption.
  - exact Hf.
  - exists total, db'. exact H.
Defined.
