(* ===== verification/DiscoveryDbProofs.v ===== *)
(** The tables of the discovery projection: the invariant of the tables, and
    that every transaction keeps it. *)
From S2P Require Import Prelude.
From S2P Require Import ListFacts.
From S2P Require Import Stateful.
From S2P Require Import RustOrd.
From S2P Require Import RustStr.
From S2P Require Import Domain.
From S2P Require Import External.
From S2P Require Import SnapshotArith.
From S2P Require Import Snapshot.
From S2P Require Import Qualification.
From S2P Require Import WindowToken.
From S2P Require Import ApiContracts.
From S2P Require Import PersistenceModel.
From S2P Require Import Finalization.
From S2P Require Import FinalizeTx.
From S2P Require Import Store.
From S2P Require Import DiscoveryValidation.
From S2P Require Import DiscoveryDb.

(** ** The parts of the invariant *)
Section Parts.
Context {J E : Type} {timely : bool}.
Context `{SO : !SerdeJson (NormalizedObservation J) J E} `{ST : !SerdeJson DiscoveryToken J E}.

(** Amounts are unsigned. *)
Definition amounts_ok (o : NormalizedObservation J) : Prop :=
  match payload o with Trade _ _ base quote _ _ => 0 <= base /\ 0 <= quote | _ => True end.

Record token_row_ok (mint : string) (row : TokenRow J) (t : DiscoveryToken) : Prop := {
  tr_decodes : from_value (E:=E) (tk_token row) = Ok t;
  tr_mint : dt_mint t = mint;
  tr_shape : token_ok timely t;
  tr_stage : tk_stage row = discovery_stage_name (dt_stage t);
  tr_slot : tk_observed_slot row = dt_observed_slot t;
}.
Definition tokens_ok (tokens : gmap string (TokenRow J)) : Prop :=
  forall mint row, tokens !! mint = Some row -> exists t, token_row_ok mint row t.

(** The rows of work: the ids are drawn from a sequence, the facts exist, and
    exactly the rows being processed have a lease. *)
Record work_row_ok (next : Z) (facts : gmap Z J) (id : Z) (r : WorkRow) : Prop := {
  wr_id : 1 <= id < next;
  wr_fact : is_Some (facts !! wk_observation_id r);
  wr_attempts : 0 <= wk_attempts r <= 2147483647;
  wr_owner : is_Some (wk_lease_owner r) <-> wk_status r = WorkProcessing;
  wr_expires : is_Some (wk_lease_expires_at r) <-> wk_status r = WorkProcessing;
}.
Definition work_ok (next : Z) (facts : gmap Z J) (work : gmap Z WorkRow) : Prop :=
  Z.of_nat (size work) < next /\ forall id r, work !! id = Some r -> work_row_ok next facts id r.

Definition facts_ok (next : Z) (facts : gmap Z J) : Prop :=
  forall id v, facts !! id = Some v -> id < next /\ exists o, from_value (E:=E) v = Ok o /\ amounts_ok o.

(** Activity: trades are buys and sells, and no more than [n]; each trader is
    counted by a trade. *)
Record activity_row_ok (traders : gset (ActivityKey * string)) (n : Z) (k : ActivityKey) (r : ActivityRow) : Prop := {
  ao_trades : ar_trades r = ar_buys r + ar_sells r;
  ao_buys : 0 <= ar_buys r; ao_sells : 0 <= ar_sells r; ao_base : 0 <= ar_base r; ao_quote : 0 <= ar_quote r;
  ao_unique : traders_of k traders <= ar_trades r;
  ao_bound : ar_trades r <= n;
}.
Definition activity_ok (activity : gmap ActivityKey ActivityRow) (traders : gset (ActivityKey * string)) (n : Z) : Prop :=
  (forall k r, activity !! k = Some r -> activity_row_ok traders n k r) /\
  (forall k w, (k, w) ∈ traders -> is_Some (activity !! k)).

(** The number of completed work items. *)
Definition completed (work : gmap Z WorkRow) : Z :=
  map_count (fun r => bool_decide (wk_status r = WorkComplete)) work.

Definition is_qualified (r : TokenRow J) : bool := stage_in ["QUALIFIED"; "APPROVED"]%string r.
Definition is_approved (r : TokenRow J) : bool := stage_in ["APPROVED"]%string r.

(** The counters are what the tables hold. *)
Record counters_ok (db : DiscoveryDb J) : Prop := {
  ct_observed : st_observed (db_projection db) = Z.of_nat (size (db_tokens db));
  ct_queued : st_queued_facts (db_projection db) = count_queued db;
  ct_qualified : st_qualified (db_projection db) = map_count is_qualified (db_tokens db);
  ct_approved : st_approved (db_projection db) = map_count is_approved (db_tokens db);
  ct_failures : st_processing_failures (db_projection db) = sum_failures db;
}.
(** The columns that no table determines. *)
Record state_ok (s : ProjectionState) : Prop := {
  so_sequence_nonneg : 0 <= st_sequence s;
  so_mode : exists m, st_mode s = discovery_mode_name m;
  so_pending : 0 <= st_qualification_pending s;
  so_rejected : 0 <= st_qualification_rejected s;
  so_unknown : 0 <= st_qualification_unknown s;
  so_flow f : st_flow_per_minute s = Some f -> 0 <= f;
}.
Definition summaries_ok (m : gmap string (Z * Z)) : Prop := forall reason p, m !! reason = Some p -> 1 <= p.1.

Record db_ok (db : DiscoveryDb J) : Prop := {
  db_tokens_ok : tokens_ok (db_tokens db);
  db_work_ok : work_ok (db_next_work db) (db_facts db) (db_work db);
  db_facts_ok : facts_ok (db_next_fact db) (db_facts db);
  db_activity_ok : activity_ok (db_activity db) (db_traders db) (completed (db_work db));
  db_counters_ok : counters_ok db;
  db_state_ok : state_ok (db_projection db);
  db_failures_ok : summaries_ok (db_failures db);
  db_rejections_ok : summaries_ok (db_rejections db);
  db_work_bound : db_next_work db <= 2 ^ 63;
}.

(** ** Stages and their names *)
Lemma is_qualified_name row s : tk_stage row = discovery_stage_name s -> is_qualified row = decided_stage s.
Proof. unfold is_qualified, stage_in. intros ->. by destruct s. Qed.
Lemma is_approved_name row s :
  tk_stage row = discovery_stage_name s -> is_approved row = bool_decide (s = Approved).
Proof. unfold is_approved, stage_in. intros ->. by destruct s. Qed.
Lemma stage_name_inj s s' : discovery_stage_name s = discovery_stage_name s' -> s = s'.
Proof. by destruct s, s'. Qed.

(** ** Summaries *)
Lemma upsert_summary_ok reason seen m : summaries_ok m -> summaries_ok (upsert_summary reason seen m).
Proof.
  intros Hm r p. unfold upsert_summary. rewrite lookup_insert_Some. intros [[<- <-]|[_ Hp]]; [|by apply (Hm r)].
  destruct (m !! reason) as [[c l]|] eqn:Hr; simpl; [|lia]. specialize (Hm _ _ Hr). simpl in Hm. lia.
Qed.
Lemma upsert_summary_sum reason seen m : map_sum fst (upsert_summary reason seen m) = map_sum fst m + 1.
Proof.
  unfold upsert_summary. destruct (m !! reason) as [[c l]|] eqn:Hr.
  - rewrite (map_sum_update _ _ _ _ _ Hr). simpl. lia.
  - rewrite map_sum_fresh by done. simpl. lia.
Qed.
Lemma upsert_rejections_ok seen l m : summaries_ok m -> summaries_ok (upsert_rejections seen l m).
Proof.
  unfold upsert_rejections. revert m. induction l as [|[[] r] l IH]; intros m Hm; simpl; [done| |by apply IH].
  by apply IH, upsert_summary_ok.
Qed.

(** ** Work *)
Lemma work_ok_alter next facts work id f r : work_ok next facts work -> work !! id = Some r ->
  work_row_ok next facts id (f r) -> work_ok next facts (alter f id work).
Proof.
  intros [Hs Hw] Hr Hf. split; [by rewrite (alter_insert _ _ _ _ Hr), map_size_insert_Some by by eexists|]. intros j r' Hj.
  destruct (decide (j = id)) as [->|Hne].
  - rewrite lookup_alter_eq, Hr in Hj. by injection Hj as <-.
  - rewrite lookup_alter_ne in Hj by done. by apply Hw.
Qed.
Lemma completed_bound next facts work : work_ok next facts work -> completed work < next.
Proof. intros [Hs _]. pose proof (map_count_size (fun r => bool_decide (wk_status r = WorkComplete)) work). unfold completed. lia. Qed.
End Parts.

(** ** Activity *)
Lemma traders_of_nonneg k traders : 0 <= traders_of k traders.
Proof. unfold traders_of, fst_count. lia. Qed.
Lemma traders_of_add (k : ActivityKey) (w : string) (traders : gset (ActivityKey * string)) :
  traders_of k ({[ (k, w) ]} ∪ traders) <= traders_of k traders + 1.
Proof. apply fst_count_add. Qed.
Lemma traders_of_other (k k' : ActivityKey) (w : string) (traders : gset (ActivityKey * string)) :
  k' <> k -> traders_of k' ({[ (k, w) ]} ∪ traders) = traders_of k' traders.
Proof. apply fst_count_other. Qed.
Lemma traders_of_none (k : ActivityKey) (traders : gset (ActivityKey * string)) :
  (forall w, (k, w) ∉ traders) -> traders_of k traders = 0.
Proof. apply fst_count_none. Qed.

Lemma activity_row_ok_le traders n n' k r : n <= n' -> activity_row_ok traders n k r -> activity_row_ok traders n' k r.
Proof. intros Hn []. split; try done. lia. Qed.

(** The row of a market exists before anything is counted in it. *)
Definition with_row (k : ActivityKey) (activity : gmap ActivityKey ActivityRow) : gmap ActivityKey ActivityRow :=
  match activity !! k with Some _ => activity | None => <[k := activity_default]> activity end.
Lemma with_row_ok k activity traders n : 0 <= n -> activity_ok activity traders n ->
  activity_ok (with_row k activity) traders n /\ is_Some (with_row k activity !! k).
Proof.
  intros Hn [Hr Ht]. unfold with_row. destruct (activity !! k) as [r|] eqn:Hk.
  - split; [done|by eexists].
  - rewrite lookup_insert_eq. split; [|by eexists]. split.
    + intros k' r'. rewrite lookup_insert_Some. intros [[<- <-]|[_ Hk']]; [|by apply Hr].
      assert (traders_of k traders = 0) as Hz.
      { apply traders_of_none. intros w Hw. destruct (Ht _ _ Hw) as [r Hr']. congruence. }
      split; simpl; lia.
    + intros k' w Hw. destruct (Ht k' w Hw) as [r Hr']. exists r. rewrite lookup_insert_ne; [done|congruence].
Qed.

Lemma count_trade_ok side base quote k w r activity traders n :
  activity_ok activity traders n -> activity !! k = Some r -> 0 <= base -> 0 <= quote ->
  activity_ok (alter (count_trade side base quote) k activity) ({[ (k, w) ]} ∪ traders) (n + 1).
Proof.
  intros [Hr Ht] Hk Hb Hq. rewrite (alter_insert _ _ _ _ Hk). split.
  - intros k' r'. rewrite lookup_insert_Some. intros [[<- <-]|[Hne Hk']].
    + destruct (Hr k r Hk). pose proof (traders_of_add k w traders). destruct side; split; simpl; lia.
    + destruct (Hr k' r' Hk'). split; try done; [|lia]. by rewrite traders_of_other.
  - intros k' w' Hw. destruct (decide (k' = k)) as [->|Hne]; [by rewrite lookup_insert_eq|].
    rewrite lookup_insert_ne by done. apply (Ht k' w'). set_solver.
Qed.

Section Activity.
Context {J XE E : Type} (row_not_found : XE).

Lemma activity_result_shape traders n k r : activity_row_ok traders n k r -> n < 2 ^ 64 ->
  activity_shape {| da_trades := ar_trades r; da_buys := ar_buys r; da_sells := ar_sells r;
    da_unique_traders := traders_of k traders; da_base_volume_units := dec (ar_base r);
    da_quote_volume_units := dec (ar_quote r) |}.
Proof.
  intros [H1 H2 H3 H4 H5 H6 H7] Hn. split; simpl; [by apply dec_decimal|by apply dec_decimal| |done].
  rewrite H1. unfold checked_add_u, uint_max. rewrite (proj2 (Z.leb_le _ _)); [done|]. lia.
Qed.

Lemma apply_activity_Ok (o : NormalizedObservation J) (db : DiscoveryDb J) act db' n :
  apply_observation_activity (XE:=XE) (E:=E) row_not_found o db = (Ok act, db') ->
  activity_ok (db_activity db) (db_traders db) n -> amounts_ok o -> 0 <= n -> n + 1 < 2 ^ 64 ->
  db' = set_traders (db_traders db') (set_activity_table (db_activity db') db) /\
  activity_ok (db_activity db') (db_traders db') (n + 1) /\ activity_shape act.
Proof.
  intros H0 Hok Ha Hn Hmax. unfold apply_observation_activity in H0. set (k := activity_key o) in *.
  apply stateful_bind_Ok in H0 as ([] & db1 & H1 & H0). injection H1 as H1. fold (with_row k (db_activity db)) in H1.
  destruct (with_row_ok k _ _ _ Hn Hok) as [Hok1 [r1 Hr1]].
  apply stateful_bind_Ok in H0 as ([] & db2 & H2 & H0).
  assert (db2 = set_traders (db_traders db2) (set_activity_table (db_activity db2) db) /\
    activity_ok (db_activity db2) (db_traders db2) (n + 1) /\ is_Some (db_activity db2 !! k)) as (E2 & Hok2 & [r2 Hr2]).
  { assert (activity_ok (with_row k (db_activity db)) (db_traders db) (n + 1)) as Hok1'.
    { destruct Hok1 as [A B]. split; [|done]. intros k' r' Hk'. eapply activity_row_ok_le; [|by apply A]. lia. }
    unfold amounts_ok in Ha. destruct (payload o) as [| |side wallet base quote br qr| | | |];
      try (injection H2 as <-; subst db1; split_and!; [done|exact Hok1'|by eexists]).
    apply stateful_bind_Ok in H2 as ([] & db3 & H3 & H2). injection H3 as _ <-.
    apply stateful_bind_Ok in H2 as ([] & db3 & H3 & H2). injection H3 as <-. injection H2 as <-. subst db1.
    split_and!; [done| |].
    - simpl. eapply count_trade_ok; [exact Hok1|exact Hr1|apply Ha|apply Ha].
    - simpl. rewrite lookup_alter_eq, Hr1. by eexists. }
  apply stateful_bind_Ok in H0 as (found & db3 & Hf & H0). injection Hf as <- <-. rewrite Hr2 in H0.
  apply stateful_bind_Ok in H0 as ([row unique] & db3 & Hu & H0). injection Hu as <- <- <-.
  apply stateful_bind_Ok in H0 as (trades & db3 & Hx & H0). injection Hx as Hx <-.
  apply ok_or_Ok, try_from_u_Some in Hx as [-> _].
  apply stateful_bind_Ok in H0 as (buys & db3 & Hx & H0). injection Hx as Hx <-.
  apply ok_or_Ok, try_from_u_Some in Hx as [-> _].
  apply stateful_bind_Ok in H0 as (sells & db3 & Hx & H0). injection Hx as Hx <-.
  apply ok_or_Ok, try_from_u_Some in Hx as [-> _].
  apply stateful_bind_Ok in H0 as (unique & db3 & Hx & H0). injection Hx as Hx <-.
  apply ok_or_Ok, try_from_u_Some in Hx as [-> _]. injection H0 as <- <-.
  split_and!; [exact E2|exact Hok2|]. eapply activity_result_shape; [by apply Hok2|lia].
Qed.
End Activity.

(** ** Candidates *)
Section Tokens.
Context {J XE E : Type} `{EqDecision J}.
Context `{SO : !SerdeJson (NormalizedObservation J) J E} `{ST : !SerdeJson DiscoveryToken J E}.
Context (tlaws : SerdeLaws ST).
Implicit Types (tokens : gmap string (TokenRow J)) (t : DiscoveryToken).
Context {timely : bool}.
Abbreviation tokens_ok := (tokens_ok (E:=E) (timely:=timely)).
Abbreviation token_row_ok := (token_row_ok (E:=E) (timely:=timely)).

Lemma encode_decodes t v : encode_json (XE:=XE) (E:=E) t = Ok v -> from_value (E:=E) v = Ok t.
Proof. unfold encode_json. destruct (to_value t) as [j|] eqn:Hj; [|done]. intros [= <-]. by apply serde_roundtrip. Qed.
Lemma decode_Ok v t : decode_json (XE:=XE) (E:=E) v = Ok t -> from_value (E:=E) v = Ok t.
Proof. unfold decode_json. by destruct (from_value v) as [t'|]; intros [= <-]. Qed.

(** A row put in place of another, or of none. *)
Lemma tokens_ok_insert tokens row t : tokens_ok tokens -> token_row_ok (dt_mint t) row t ->
  tokens_ok (<[dt_mint t := row]> tokens).
Proof.
  intros Hok Hr mint r. rewrite lookup_insert_Some. intros [[<- <-]|[_ Hm]]; [by exists t|by apply Hok].
Qed.

(** The value of a row replaced by that of a candidate of the same stage. *)
Lemma tokens_set_value tokens row t t' v :
  tokens_ok tokens -> tokens !! dt_mint t = Some row -> token_row_ok (dt_mint t) row t ->
  dt_mint t' = dt_mint t -> dt_stage t' = dt_stage t -> dt_observed_slot t' = dt_observed_slot t ->
  token_ok timely t' -> from_value (E:=E) v = Ok t' ->
  let tokens' := alter (set_token_value v) (dt_mint t') tokens in
  tokens_ok tokens' /\ tokens' !! dt_mint t' = Some (set_token_value v row) /\
  token_row_ok (dt_mint t') (set_token_value v row) t' /\ size tokens' = size tokens /\
  map_count is_approved tokens' = map_count is_approved tokens /\
  map_count is_qualified tokens' = map_count is_qualified tokens.
Proof.
  intros Hok Hrow [] Hm Hs Hslot Hsh Hv tokens'.
  assert (token_row_ok (dt_mint t') (set_token_value v row) t') as Hr'
    by (split; simpl; [done|done|done|congruence|congruence]).
  assert (tokens !! dt_mint t' = Some row) as Hrow' by congruence. unfold tokens'.
  split_and!; [| |exact Hr'| |by apply map_sum_alter_same|by apply map_sum_alter_same].
  - rewrite (alter_insert _ _ _ _ Hrow'). by apply tokens_ok_insert.
  - by rewrite lookup_alter_eq, Hrow'.
  - rewrite (alter_insert _ _ _ _ Hrow'), map_size_insert_Some by by eexists. done.
Qed.

Lemma token_row_Ok o t wid source version row :
  token_row (XE:=XE) (E:=E) (J:=J) o t wid source version = Ok row -> token_ok timely t ->
  token_row_ok (dt_mint t) row t.
Proof.
  unfold token_row. intros H0 Hs. apply bind_Ok in H0 as (s & Hslot & H0).
  apply ok_or_Ok, try_from_s_Some in Hslot as [-> _]. apply bind_Ok in H0 as (v & Hv & H0). injection H0 as <-.
  split; simpl; try done. by apply encode_decodes.
Qed.

(** What is known of the token that is stored. *)
Record outcome_ok tokens (is_new approval_removed qualification_removed : bool) t tokens' : Prop := {
  oc_tokens : tokens_ok tokens';
  oc_row : exists row, tokens' !! dt_mint t = Some row /\ token_row_ok (dt_mint t) row t;
  oc_size : Z.of_nat (size tokens') = Z.of_nat (size tokens) + one_if is_new;
  oc_approved : map_count is_approved tokens' = map_count is_approved tokens - one_if approval_removed;
  oc_qualified : map_count is_qualified tokens' = map_count is_qualified tokens - one_if qualification_removed;
}.

Lemma store_token_ok tokens row t (old : option (TokenRow J)) stored (is_new a q : bool) :
  tokens_ok tokens -> token_row_ok (dt_mint t) row t -> tokens !! dt_mint t = old ->
  match old with
  | None => is_new = true /\ a = false /\ q = false /\ dt_stage t = Observed
  | Some r => is_new = false /\ token_row_ok (dt_mint t) r stored /\
      one_if a = one_if (bool_decide (dt_stage stored = Approved)) - one_if (bool_decide (dt_stage t = Approved)) /\
      one_if q = one_if (decided_stage (dt_stage stored)) - one_if (decided_stage (dt_stage t))
  end ->
  outcome_ok tokens is_new a q t (<[dt_mint t := row]> tokens).
Proof.
  intros Hok Hrow Hold Hcase. unfold map_count.
  pose proof (is_approved_name _ _ (tr_stage _ _ _ Hrow)) as Hap.
  pose proof (is_qualified_name _ _ (tr_stage _ _ _ Hrow)) as Hqu.
  split; [by apply tokens_ok_insert|exists row; by rewrite lookup_insert_eq|..]; destruct old as [r|].
  - destruct Hcase as (-> & _). rewrite map_size_insert_Some by by eexists. simpl. lia.
  - destruct Hcase as (-> & _). rewrite map_size_insert_None by done. simpl. lia.
  - destruct Hcase as (_ & Hr & Ha & _). unfold map_count. rewrite (map_sum_update _ _ _ _ _ Hold), Hap,
      (is_approved_name _ _ (tr_stage _ _ _ Hr)). lia.
  - destruct Hcase as (_ & -> & _ & Ho). unfold map_count. rewrite map_sum_fresh, Hap, Ho by done. simpl. lia.
  - destruct Hcase as (_ & Hr & _ & Hq). unfold map_count. rewrite (map_sum_update _ _ _ _ _ Hold), Hqu,
      (is_qualified_name _ _ (tr_stage _ _ _ Hr)). lia.
  - destruct Hcase as (_ & _ & -> & Ho). unfold map_count. rewrite map_sum_fresh, Hqu, Ho by done. simpl. lia.
Qed.

Lemma merge_observation_stage existing observed : dt_stage observed = Observed ->
  dt_stage (merge_observation existing observed) = dt_stage existing \/
  dt_stage (merge_observation existing observed) = Observed.
Proof. intros Ho. unfold merge_observation. simpl. destruct (_ && _); auto. Qed.

Lemma discovery_outcome_ok (db db' : DiscoveryDb J) t o m t' is_new a q wid source version :
  tokens_ok (db_tokens db) -> token_ok timely t -> dt_stage t = Observed ->
  discovery_outcome (XE:=XE) (E:=E) (db_tokens db !! dt_mint t) t o = Ok (m, t', is_new, a, q) ->
  store_outcome (XE:=XE) (E:=E) m is_new o t' wid source version db = (Ok tt, db') ->
  exists tokens', db' = set_tokens tokens' db /\ dt_mint t' = dt_mint t /\
    outcome_ok (db_tokens db) is_new a q t' tokens'.
Proof.
  intros Hok Hsh Hst H0 Hw. unfold discovery_outcome in H0.
  destruct (db_tokens db !! dt_mint t) as [row|] eqn:Hrow.
  - destruct (Hok _ _ Hrow) as [stored Hr]. pose proof (tr_mint _ _ _ Hr) as Hmint.
    apply bind_Ok in H0 as (stored' & Hd & H0). apply decode_Ok in Hd. rewrite (tr_decodes _ _ _ Hr) in Hd.
    injection Hd as <-. apply bind_Ok in H0 as ([] & _ & H0). apply bind_Ok in H0 as (s & _ & H0).
    destruct (_ >? _).
    + pose proof (enrich_keeps stored t o) as (K1 & K2 & K3).
      pose proof (enrich_shape timely stored t o (tr_shape _ _ _ Hr) Hsh) as Hes.
      destruct (enrich_metadata_from_stale_creation stored t o) as [changed enriched] eqn:He. simpl in *.
      injection H0 as <- <- <- <- <-. unfold store_outcome in Hw. destruct changed.
      * apply stateful_bind_Ok in Hw as (v & db1 & Hv & Hw). injection Hv as Hv <-. injection Hw as <-.
        apply encode_decodes in Hv. eexists. split; [done|]. split; [congruence|].
        rewrite <- Hmint in Hr, Hrow. destruct (tokens_set_value _ _ _ _ _ Hok Hrow Hr K1 K2 K3 Hes Hv)
          as (A & B & C & D & F & G). split; simpl; [exact A|by eexists|lia|lia|lia].
      * injection Hw as <-. exists (db_tokens db). split; [by destruct db|]. split; [congruence|].
        assert (enriched = stored) as ->.
        { revert He. unfold enrich_metadata_from_stale_creation. destruct (payload o); try (by intros [= <-]).
          intros [= Hn <-]. apply orb_false_iff in Hn as [-> ->]. by destruct stored. }
        split; simpl; [done| |lia|lia|lia]. exists row. rewrite Hmint. by split.
    + pose proof (merge_observation_shape timely stored t (tr_shape _ _ _ Hr) Hsh Hst) as Hms.
      pose proof (merge_observation_stage stored t Hst) as Hstage.
      set (merged := merge_observation stored t) in *. assert (dt_mint merged = dt_mint t) as Hmm by done.
      injection H0 as <- <- <- <- <-.
      assert (store_token (XE:=XE) (E:=E) o merged wid source version db = (Ok tt, db')) as Hw'
        by (unfold store_outcome in Hw; by destruct (_ || _)). clear Hw.
      apply stateful_bind_Ok in Hw' as (r' & db1 & Hv & Hw). injection Hv as Hv <-. injection Hw as <-.
      apply token_row_Ok in Hv; [|done]. exists (<[dt_mint merged := r']> (db_tokens db)).
      split; [done|]. split; [done|]. apply (store_token_ok _ _ _ (Some row) stored); [done|done|by rewrite Hmm|].
      rewrite Hmm. split; [done|]. split; [done|].
      clear -Hstage. destruct Hstage as [Hs|Hs]; unfold merged, merge_observation in *; simpl in *; rewrite Hs;
        destruct (dt_stage stored); by vm_compute.
  - injection H0 as <- <- <- <- <-. unfold store_outcome in Hw.
    apply stateful_bind_Ok in Hw as (r' & db1 & Hv & Hw). injection Hv as Hv <-. injection Hw as <-.
    apply token_row_Ok in Hv; [|done]. eexists. split; [done|]. split; [done|].
    by apply (store_token_ok _ _ _ None t).
Qed.
End Tokens.

(** Every transaction on the tables of the discovery projection keeps their
    invariant. *)
Section Steps.
Context {J XE E : Type} `{EqDecision J}.
Context (row_not_found : XE).
Context `{SO : !SerdeJson (NormalizedObservation J) J E} `{ST : !SerdeJson DiscoveryToken J E}.
Context (tlaws : SerdeLaws ST).
Implicit Types (db : DiscoveryDb J) (t : DiscoveryToken) (o : NormalizedObservation J).
Context {timely : bool}.
Abbreviation db_ok := (db_ok (E:=E) (timely:=timely)).
Abbreviation DbM := (stateful (DiscoveryDb J) (PersistenceError XE E)).

(** ** Leases *)
Lemma owned_row_Some now id worker db row : owned_row now id worker db = Some row ->
  db_work db !! id = Some row /\ wk_status row = WorkProcessing /\ wk_lease_owner row = Some worker /\
  exists expires, wk_lease_expires_at row = Some expires /\ now < expires.
Proof.
  unfold owned_row. intros H0. destruct (db_work db !! id) as [r|]; [|done]. simpl in H0.
  destruct (bool_decide (wk_status r = WorkProcessing)) eqn:H1; [|done].
  destruct (bool_decide (wk_lease_owner r = Some worker)) eqn:H2; [|done].
  destruct (wk_lease_expires_at r) as [e|] eqn:H3; [|done]. simpl in H0.
  destruct (e >? now) eqn:H4; [|done]. injection H0 as <-.
  apply bool_decide_eq_true in H1, H2. split_and!; [done..|]. exists e. split; [done|lia].
Qed.

Record owns db now id worker (work : OwnedWork J) (row : WorkRow) : Prop := {
  owns_row : owned_row now id worker db = Some row;
  owns_kind : own_work_kind work = wk_kind row;
  owns_attempts : own_attempts work = wk_attempts row;
  owns_fact : exists v, db_facts db !! wk_observation_id row = Some v /\
    from_value (E:=E) v = Ok (own_observation work);
}.
Lemma lock_owned_work_Ok now id worker db work db' :
  lock_owned_work (XE:=XE) (E:=E) now id worker db = (Ok work, db') ->
  db' = db /\ exists row, owns db now id worker work row.
Proof.
  unfold lock_owned_work. intros H0. apply stateful_bind_Ok in H0 as (found & db1 & Hf & H0). injection Hf as Hf <-.
  destruct found as [[row v]|]; [|done]. apply stateful_bind_Ok in H0 as (o & db1 & Ho & H0). injection Ho as Ho <-.
  unfold decode_json in Ho. destruct (from_value v) as [o'|] eqn:Ev; [|done]. injection Ho as ->.
  injection H0 as <- <-. split; [done|]. exists row.
  destruct (owned_row now id worker db) as [row'|] eqn:Hr; [|done]. simpl in Hf.
  destruct (db_facts db !! wk_observation_id row') as [v'|] eqn:Hv; [|done]. injection Hf as -> ->.
  split; [done|done|done|]. by exists v.
Qed.

(** ** Changing one row of work *)
Lemma work_row_finished next facts id r status available finished code :
  work_row_ok (J:=J) next facts id r -> status <> WorkProcessing ->
  work_row_ok next facts id {| wk_observation_id := wk_observation_id r; wk_kind := wk_kind r;
    wk_status := status; wk_attempts := wk_attempts r; wk_available_at := available; wk_finished_at := finished;
    wk_last_error_code := code; wk_lease_owner := None; wk_lease_expires_at := None |}.
Proof. intros [] Hs. split; simpl; [done|done|done| |]; split; [by intros [? ?]|done|by intros [? ?]|done]. Qed.

Lemma count_queued_update db id row f : db_work db !! id = Some row ->
  count_queued (update_work id f db) = count_queued db - one_if (work_is_queued row) + one_if (work_is_queued (f row)).
Proof. intros Hr. unfold count_queued, map_count. simpl. by rewrite (map_sum_alter _ _ _ _ _ Hr). Qed.
Lemma completed_update db id row f : db_work db !! id = Some row ->
  completed (db_work (update_work id f db)) = completed (db_work db)
    - one_if (bool_decide (wk_status row = WorkComplete)) + one_if (bool_decide (wk_status (f row) = WorkComplete)).
Proof. intros Hr. unfold completed, map_count. simpl. by rewrite (map_sum_alter _ _ _ _ _ Hr). Qed.

Lemma activity_ok_le activity traders n n' : n <= n' -> activity_ok activity traders n -> activity_ok activity traders n'.
Proof. intros Hn [A B]. split; [|done]. intros k r Hk. eapply activity_row_ok_le; [exact Hn|by apply A]. Qed.

(** The counter never reaches the clamp. *)
Lemma queued_pos db id row : db_work db !! id = Some row -> work_is_queued row = true -> 1 <= count_queued db.
Proof.
  intros Hr Hq. unfold count_queued, map_count. rewrite (map_sum_delete _ _ _ _ Hr), Hq.
  pose proof (map_count_nonneg work_is_queued (delete id (db_work db))) as Hn. unfold map_count in Hn.
  unfold one_if at 1. lia.
Qed.
Lemma processing_queued row : wk_kind row = "DISCOVERY"%string -> wk_status row = WorkProcessing ->
  work_is_queued row = true.
Proof. unfold work_is_queued. by intros -> ->. Qed.

(** A row of work changed without being finished or queued. *)
Lemma work_change_ok db id row f : db_ok db -> db_work db !! id = Some row ->
  work_row_ok (db_next_work db) (db_facts db) id (f row) ->
  work_is_queued (f row) = work_is_queued row ->
  (wk_status row = WorkComplete -> wk_status (f row) = WorkComplete) ->
  db_ok (update_work id f db).
Proof.
  intros Hok Hr Hf Hq Hc. pose proof (count_queued_update db id row f Hr) as Hcount.
  pose proof (completed_update db id row f Hr) as Hcomp. rewrite Hq in Hcount.
  destruct Hok as [A B C D F G H1 I K]. split; try done.
  - by apply (work_ok_alter _ _ _ _ _ row).
  - eapply activity_ok_le, D. rewrite Hcomp.
    unfold one_if. repeat case_bool_decide; [lia|by destruct Hc|lia|lia].
  - destruct F as [F1 F2 F3 F4 F5]. split; try done. simpl. rewrite F2. lia.
Qed.

(** ** The outcomes of a fact *)

(** A fact processed as a candidate. *)
Lemma observed_ok db now id row tokens activity traders is_new a q event :
  db_ok db -> db_work db !! id = Some row -> wk_kind row = "DISCOVERY"%string -> wk_status row = WorkProcessing ->
  tokens_ok (E:=E) (timely:=timely) tokens ->
  Z.of_nat (size tokens) = Z.of_nat (size (db_tokens db)) + one_if is_new ->
  map_count is_approved tokens = map_count is_approved (db_tokens db) - one_if a ->
  map_count is_qualified tokens = map_count is_qualified (db_tokens db) - one_if q ->
  activity_ok activity traders (completed (db_work db) + 1) ->
  db_ok (update_work id (complete_row now) (publish_projection (after_observation is_new a q) event
    (set_tokens tokens (set_traders traders (set_activity_table activity db))))).
Proof.
  intros Hok Hr Hk Hs Ht Hsize Ha Hq Hact. pose proof (processing_queued _ Hk Hs) as Hqueued.
  pose proof (queued_pos db id row Hr Hqueued) as Hpos.
  pose proof (map_count_nonneg is_approved tokens). pose proof (map_count_nonneg is_qualified tokens).
  destruct Hok as [A B C D F G H1 I K]. destruct F as [F1 F2 F3 F4 F5].
  pose proof (count_queued_update db id row (complete_row now) Hr) as Hcount. rewrite Hqueued in Hcount.
  assert (work_is_queued (complete_row now row) = false) as Hnq
    by (unfold work_is_queued; simpl; by rewrite andb_false_r). rewrite Hnq in Hcount. simpl in Hcount.
  split; try done.
  - simpl. apply (work_ok_alter _ _ _ _ _ row); [done..|]. destruct B as [_ B].
    by apply work_row_finished; [apply B|].
  - eapply activity_ok_le, Hact. pose proof (completed_update db id row (complete_row now) Hr) as Hc.
    rewrite Hs in Hc. simpl in Hc |- *. lia.
  - split; simpl.
    + rewrite F1, Hsize. by destruct is_new.
    + rewrite F2. transitivity (count_queued (update_work id (complete_row now) db)); [lia|done].
    + rewrite F3, Hq. destruct q; simpl in *; lia.
    + rewrite F4, Ha. destruct a; simpl in *; lia.
    + done.
  - destruct G. split; simpl; try done. lia.
Qed.

(** A fact counted as a failure. *)
Lemma failed_ok db id row f reason seen event :
  db_ok db -> db_work db !! id = Some row -> wk_kind row = "DISCOVERY"%string -> wk_status row = WorkProcessing ->
  work_row_ok (db_next_work db) (db_facts db) id (f row) -> work_is_queued (f row) = false ->
  db_ok (update_work id f (publish_projection after_failure event
    (set_failures (upsert_summary reason seen (db_failures db)) db))).
Proof.
  intros Hok Hr Hk Hs Hf Hnq. pose proof (processing_queued _ Hk Hs) as Hqueued.
  pose proof (queued_pos db id row Hr Hqueued) as Hpos.
  destruct Hok as [A B C D F G H1 I K]. destruct F as [F1 F2 F3 F4 F5].
  pose proof (count_queued_update db id row f Hr) as Hcount. rewrite Hqueued, Hnq in Hcount. simpl in Hcount.
  split; try done.
  - by apply (work_ok_alter _ _ _ _ _ row).
  - eapply activity_ok_le, D. pose proof (completed_update db id row f Hr) as Hc. rewrite Hs in Hc.
    simpl in Hc |- *. rewrite Hc. unfold one_if. case_bool_decide; lia.
  - split; simpl; try done.
    + rewrite F2. transitivity (count_queued (update_work id f db)); [lia|done].
    + rewrite F5. unfold sum_failures. simpl. by rewrite upsert_summary_sum.
  - destruct G. split; simpl; try done. lia.
  - by apply upsert_summary_ok.
Qed.
End Steps.
