(* ===== verification/DiscoveryDbOps.v ===== *)
(** Every transaction on the tables of the discovery projection keeps their
    invariant: one lemma per operation. *)
From S2P Require Import Prelude.
From S2P Require Import ListFacts.
From S2P Require Import Stateful.
From S2P Require Import RustOrd.
From S2P Require Import RustStr.
From S2P Require Import Decimal.
From S2P Require Import Domain.
From S2P Require Import External.
From S2P Require Import SnapshotArith.
From S2P Require Import Snapshot.
From S2P Require Import SnapshotSpec.
From S2P Require Import SnapshotTheorems.
From S2P Require Import Qualification.
From S2P Require Import WindowToken.
From S2P Require Import ApiContracts.
From S2P Require Import PersistenceModel.
From S2P Require Import Finalization.
From S2P Require Import FinalizeTx.
From S2P Require Import Store.
From S2P Require Import FinalizationProofs.
From S2P Require Import FinalizationTheorems.
From S2P Require Import DiscoveryValidation.
From S2P Require Import DiscoveryDb.
From S2P Require Import DiscoveryDbProofs.

(** Steps of a computation that only check or read. *)
Lemma lift_bind_state {S X A B} (r : result X A) (k : A -> stateful S X B) (st : S) :
  (st_lift r ≫= k) st = match r with Ok a => k a st | Err e => (Err e, st) end.
Proof. by destruct r. Qed.
Lemma read_bind_state {S X A B} (f : S -> A) (k : A -> stateful S X B) (st : S) :
  (read_state f ≫= k) st = k (f st) st.
Proof. done. Qed.

(** Opens the next bind of a committed body. *)
Tactic Notation "step" hyp(H) simple_intropattern(pat) := apply stateful_bind_Ok in H as pat.

Lemma ensure_discovery_work_Ok {X Y} kind id :
  ensure_discovery_work (XE:=X) (E:=Y) kind id = Ok tt -> kind = "DISCOVERY"%string.
Proof. unfold ensure_discovery_work. by destruct (String.eqb_spec kind "DISCOVERY"%string). Qed.

Section Ops.
Context {J XE E : Type} `{EqDecision J}.
Context (row_not_found : XE).
Context `{SO : !SerdeJson (NormalizedObservation J) J E} `{ST : !SerdeJson DiscoveryToken J E}.
Context (tlaws : SerdeLaws ST) (olaws : SerdeLaws SO).
Implicit Types (db : DiscoveryDb J) (t : DiscoveryToken) (o : NormalizedObservation J).
Context {timely : bool}.
Abbreviation db_ok := (db_ok (E:=E) (timely:=timely)).
Abbreviation outcome_ok := (outcome_ok (E:=E) (timely:=timely)).
Abbreviation DbM := (stateful (DiscoveryDb J) (PersistenceError XE E)).

(** A computation keeps the invariant: through a check, a read, a transaction
    that does. *)
Definition keeps {A} (m : DbM A) : Prop := forall db, db_ok db -> db_ok (m db).2.
Lemma keeps_lift_bind {A B} (r : result _ A) (k : A -> DbM B) :
  (forall a, r = Ok a -> keeps (k a)) -> keeps (st_lift r ≫= k).
Proof. intros Hk db Hok. rewrite lift_bind_state. destruct r as [a|e]; [by apply (Hk a)|done]. Qed.
Lemma keeps_transaction {A} (body : DbM (TxEnd A)) :
  (forall db db' a, db_ok db -> body db = (Ok (Commit a), db') -> db_ok db') -> keeps (transaction body).
Proof.
  intros Hb db Hok. destruct (transaction_inv body db) as [->|(a & db' & Hc & Ht)]; [done|].
  rewrite Ht. by apply (Hb db db' a).
Qed.

Ltac skip_checks := repeat (apply keeps_lift_bind; intros ? ?).

Lemma receive_ok now value o db : db_ok db -> from_value (E:=E) value = Ok o -> amounts_ok o ->
  db_next_work db + 1 <= 2 ^ 63 -> db_ok (insert_queued_fact (XE:=XE) (E:=E) now value db).2.
Proof.
  intros [A B C D F G H1 I K] Hv Ha Hbound. unfold insert_queued_fact. simpl.
  assert (db_facts db !! db_next_fact db = None) as Hfresh.
  { destruct (db_facts db !! db_next_fact db) as [v|] eqn:Hx; [|done]. apply C in Hx. lia. }
  destruct B as [B1 B2]. assert (db_work db !! db_next_work db = None) as Hnew.
  { destruct (db_work db !! db_next_work db) as [r|] eqn:Hx; [|done]. destruct (B2 _ _ Hx). lia. }
  split; simpl; try done.
  - split; simpl; [rewrite map_size_insert_None by done; lia|]. intros id r. rewrite lookup_insert_Some.
    intros [[<- <-]|[_ Hr]].
    + split; simpl; [|rewrite lookup_insert_eq; by eexists|lia| |]; [lia|by split; [intros [? ?]|]..].
    + destruct (B2 _ _ Hr). split; try done; [lia|]. rewrite lookup_insert_is_Some'. by right.
  - intros id v. rewrite lookup_insert_Some. intros [[<- <-]|[_ Hx]]; [split; [lia|by exists o]|].
    destruct (C _ _ Hx) as [? ?]. split; [lia|done].
  - unfold completed, map_count. rewrite map_sum_fresh by done. exact D.
  - destruct F as [F1 F2 F3 F4 F5]. split; simpl; try done. rewrite F2.
    unfold count_queued, map_count. simpl. rewrite map_sum_fresh by done. unfold work_is_queued at 2. simpl. lia.
  - destruct G. split; simpl; try done. lia.
Qed.

Lemma lower_received_ok fact at_ : keeps (lower_received (XE:=XE) (E:=E) (J:=J) fact at_).
Proof.
  intros db Hok. unfold lower_received. rewrite read_bind_state.
  destruct (db_facts db !! fact) as [v|] eqn:Hv; [|done].
  rewrite lift_bind_state. destruct (decode_json v) as [o|] eqn:Ho; [|done].
  rewrite lift_bind_state. destruct (encode_json _) as [v'|] eqn:Hv'; [|done]. simpl.
  assert (from_value (E:=E) v' = Ok (set_received at_ o)) as Hd.
  { unfold encode_json in Hv'. destruct (to_value (set_received at_ o)) as [j|] eqn:Hj; [|done].
    injection Hv' as <-. by apply serde_roundtrip. }
  unfold decode_json in Ho. destruct (from_value v) as [o'|] eqn:Ev; [|done]. injection Ho as ->.
  destruct Hok as [A B C D F G H1 I K]. split; simpl; try done.
  - destruct B as [B1 B2]. split; [done|]. intros id r Hr. destruct (B2 _ _ Hr). split; try done.
    rewrite lookup_insert_is_Some'. by right.
  - intros id w. rewrite lookup_insert_Some. intros [[<- <-]|[_ Hx]]; [|by apply C].
    destruct (C _ _ Hv) as (Hlt & o' & Ho' & Ha). split; [done|]. exists (set_received at_ o).
    split; [done|]. rewrite Ev in Ho'. injection Ho' as <-. exact Ha.
  - by destruct F.
Qed.

(** ** Leases *)
Lemma claim_rows_lookup locked now kind limit db :
  NoDup (claim_rows locked now kind limit db).*1 /\
  forall p, p ∈ claim_rows locked now kind limit db ->
    db_work db !! p.1 = Some p.2 /\ claimable locked now kind p = true.
Proof.
  unfold claim_rows. set (l := List.filter _ _). split.
  - eapply sublist_NoDup; [|apply fmap_sublist, sublist_take]. rewrite sort_by_perm.
    eapply sublist_NoDup; [apply (NoDup_fst_map_to_list (db_work db))|]. apply fmap_sublist, filter_sublist.
  - intros p (i & Hi & _)%elem_of_take. apply list_elem_of_lookup_2 in Hi.
    rewrite sort_by_perm in Hi. apply list_elem_of_In, filter_In in Hi as [Hi Hc].
    split; [|done]. apply list_elem_of_In in Hi. destruct p as [id r]. by apply elem_of_map_to_list in Hi.
Qed.

(** What every claimed row keeps, a claim keeps. *)
Lemma claim_all_ind (P : gmap Z WorkRow -> Prop) now lease worker work ps :
  NoDup ps.*1 -> (forall p, p ∈ ps -> work !! p.1 = Some p.2) -> P work ->
  (forall m p, p ∈ ps -> m !! p.1 = Some p.2 -> P m -> P (alter (claim_row now lease worker) p.1 m)) ->
  P (claim_all now lease worker ps work) /\
  forall id, id ∉ ps.*1 -> claim_all now lease worker ps work !! id = work !! id.
Proof.
  intros Hnd Hin HP Hstep. induction ps as [|p ps IH]; [done|]. csimpl in *. apply NoDup_cons in Hnd as [Hp Hnd].
  destruct IH as [IH Hrest]; [done|intros q Hq; apply Hin; by right|intros m q Hq; apply Hstep; by right|].
  assert (claim_all now lease worker ps work !! p.1 = Some p.2) as Hrow
    by (rewrite (Hrest _ Hp); apply Hin; by left).
  split.
  - rewrite <- (alter_insert (claim_row now lease worker) _ _ _ Hrow). by apply Hstep; [left|..].
  - intros id Hid. rewrite not_elem_of_cons in Hid. destruct Hid as [Hne Hid].
    rewrite lookup_insert_ne by congruence. by apply Hrest.
Qed.

Lemma claimable_row locked now kind id row db : claimable locked now kind (id, row) = true ->
  wk_kind row = kind /\ wk_attempts row < 2147483647 /\
  (wk_status row = WorkPending /\ wk_available_at row <= now \/
   wk_status row = WorkProcessing /\ forall e, wk_lease_expires_at row = Some e -> e <= now).
Proof.
  unfold claimable. simpl. rewrite !andb_true_iff, orb_true_iff, !andb_true_iff, !bool_decide_eq_true, String.eqb_eq.
  intros (((_ & Hk) & Ha) & Hs). split; [done|]. split; [lia|]. destruct Hs as [[Hs Hw]|[Hs He]]; [left|right].
  - split; [done|lia].
  - split; [done|]. intros e Hx. rewrite Hx in He. lia.
Qed.

Lemma claim_row_ok now lease worker next facts id row : work_row_ok (J:=J) next facts id row ->
  wk_attempts row < 2147483647 -> work_row_ok next facts id (claim_row now lease worker row).
Proof. intros [] Ha. split; simpl; [done|done|lia|split; [done|by eexists]..]. Qed.

Lemma claim_ok locked now kind worker limit lease :
  keeps (claim_observation_work (XE:=XE) (E:=E) (J:=J) locked now kind worker limit lease).
Proof.
  unfold claim_observation_work. skip_checks. intros db Hok. rewrite read_bind_state.
  destruct (claim_rows_lookup locked now kind limit db) as [Hnd Hin].
  set (rows := claim_rows locked now kind limit db) in *.
  match goal with |- db_ok (snd ?e) => set (st := e) end.
  assert (st.2 = set_work (db_next_work db) (claim_all now a3 worker rows (db_work db)) db) as -> by done. clear st.
  apply (claim_all_ind (fun m => db_ok (set_work (db_next_work db) m db)));
    [done|intros p Hp; by apply Hin|by destruct db|].
  intros m p Hp Hm Hdb. destruct (Hin p Hp) as [_ Hc]. destruct p as [id row]. simpl in *.
  apply (claimable_row _ _ _ _ _ db) in Hc as (_ & Ha & Hs).
  apply (work_change_ok _ _ _ (claim_row now a3 worker) Hdb Hm).
  - apply claim_row_ok; [|done]. by apply (db_work_ok _ Hdb).
  - unfold work_is_queued. simpl. by destruct Hs as [[-> _]|[-> _]].
  - simpl. by destruct Hs as [[-> _]|[-> _]].
Qed.

Lemma renew_ok now id worker lease : keeps (renew_observation_work_lease (XE:=XE) (E:=E) (J:=J) now id worker lease).
Proof.
  unfold renew_observation_work_lease. skip_checks. intros db Hok. rewrite read_bind_state.
  destruct (owned_row now id worker db) as [row|] eqn:Hr; [|done]. simpl.
  apply owned_row_Some in Hr as (Hr & Hs & Ho & _). apply (work_change_ok _ _ _ _ Hok Hr); [|done|done].
  destruct (proj2 (db_work_ok _ Hok) _ _ Hr). split; simpl; try done.
Qed.

(** ** Ends of work *)
Lemma owns_row_ok db now id worker work row : db_ok db -> owns (E:=E) db now id worker work row ->
  db_work db !! id = Some row /\ wk_status row = WorkProcessing /\
  work_row_ok (db_next_work db) (db_facts db) id row /\ amounts_ok (own_observation work).
Proof.
  intros Hok [Hr _ _ [v [Hv Ho]]]. apply owned_row_Some in Hr as (Hr & Hs & _). split_and!; [done|done| |].
  - by apply (db_work_ok _ Hok).
  - destruct (db_facts_ok _ Hok _ _ Hv) as (_ & o & Ho' & Ha). rewrite Ho in Ho'. by injection Ho' as ->.
Qed.

(** A row of other work finished. *)
Lemma other_work_ok db id row f : db_ok db -> db_work db !! id = Some row -> wk_status row = WorkProcessing ->
  wk_kind row <> "DISCOVERY"%string -> wk_kind (f row) = wk_kind row ->
  work_row_ok (db_next_work db) (db_facts db) id (f row) -> db_ok (update_work id f db).
Proof.
  intros Hok Hr Hs Hk Hk' Hf. apply (work_change_ok _ _ _ _ Hok Hr Hf).
  - unfold work_is_queued. rewrite Hk'. by apply String.eqb_neq in Hk as ->.
  - by rewrite Hs.
Qed.

Lemma complete_ok now id worker : keeps (complete_observation_work (XE:=XE) (E:=E) (J:=J) now id worker).
Proof.
  unfold complete_observation_work. skip_checks. apply keeps_transaction. intros db db' x Hok Hc.
  step Hc (work & db1 & Hw & Hc). apply lock_owned_work_Ok in Hw as (-> & row & Hown).
  destruct (owns_row_ok _ _ _ _ _ _ Hok Hown) as (Hr & Hs & Hrow & _).
  step Hc (u & db1 & Hg & Hc). injection Hg as Hg <-. destruct u. apply guard_err_Ok, String.eqb_neq in Hg.
  injection Hc as _ <-. rewrite (owns_kind _ _ _ _ _ _ Hown) in Hg.
  apply (other_work_ok _ _ _ _ Hok Hr Hs); [done|done|]. by apply work_row_finished.
Qed.

Lemma release_row_ok now retry code failed next facts id row : work_row_ok (J:=J) next facts id row ->
  work_row_ok next facts id (release_row now retry code failed row).
Proof. intros Hr. unfold release_row. apply work_row_finished; [done|]. by destruct failed. Qed.

Lemma retry_ok now id worker code retry max :
  keeps (retry_or_fail_observation_work (XE:=XE) (E:=E) (J:=J) now id worker code retry max).
Proof.
  unfold retry_or_fail_observation_work. skip_checks. apply keeps_transaction. intros db db' x Hok Hc.
  step Hc (work & db1 & Hw & Hc). apply lock_owned_work_Ok in Hw as (-> & row & Hown).
  destruct (owns_row_ok _ _ _ _ _ _ Hok Hown) as (Hr & Hs & Hrow & _).
  step Hc (u & db1 & Hm & Hc). injection Hm as _ <-.
  set (failed := _ <=? own_attempts work) in Hc. rewrite (owns_kind _ _ _ _ _ _ Hown) in Hc.
  step Hc (u' & db1 & Hf & Hc). injection Hc as _ <-.
  set (f := release_row _ _ code failed) in Hf.
  assert (work_row_ok (db_next_work db) (db_facts db) id (f row)) as Hrow' by by apply release_row_ok.
  destruct (failed && String.eqb (wk_kind row) "DISCOVERY") eqn:Hd.
  - apply andb_true_iff in Hd as [Hfl Hk]. apply String.eqb_eq in Hk. injection Hf as _ <-.
    assert (work_is_queued (f row) = false) as Hnq
      by (unfold work_is_queued, f; simpl; rewrite Hfl; simpl; by rewrite andb_false_r).
    apply (failed_ok db id row f code (received_time_unix_ms (own_observation work)) "DISCOVERY_WORK_FAILED"
      Hok Hr Hk Hs Hrow' Hnq).
  - injection Hf as _ <-. destruct (String.eqb_spec (wk_kind row) "DISCOVERY"%string) as [Hk|Hk].
    + rewrite andb_true_r in Hd. apply (work_change_ok _ _ _ _ Hok Hr Hrow').
      * unfold work_is_queued, f. simpl. rewrite Hd, Hs. done.
      * by rewrite Hs.
    + by apply (other_work_ok _ _ _ _ Hok Hr Hs).
Qed.

Lemma rejection_ok now id worker rejection :
  keeps (commit_discovery_rejection (XE:=XE) (E:=E) (J:=J) now id worker rejection).
Proof.
  unfold commit_discovery_rejection. skip_checks. apply keeps_transaction. intros db db' x Hok Hc.
  step Hc (work & db1 & Hw & Hc). apply lock_owned_work_Ok in Hw as (-> & row & Hown).
  destruct (owns_row_ok _ _ _ _ _ _ Hok Hown) as (Hr & Hs & Hrow & _).
  step Hc (u & db1 & Hg & Hc). injection Hg as Hg <-. destruct u. apply ensure_discovery_work_Ok in Hg.
  rewrite (owns_kind _ _ _ _ _ _ Hown) in Hg.
  step Hc (u' & db1 & Hg' & Hc). injection Hg' as _ <-. injection Hc as _ <-.
  apply (failed_ok db id row (complete_row now) (dr_reason_code rejection) (dr_seen_at_unix_ms rejection)
    "DISCOVERY_TOKEN_REJECTED" Hok Hr Hg Hs).
  - by apply work_row_finished.
  - unfold work_is_queued. simpl. by rewrite andb_false_r.
Qed.

(** ** Candidates *)

(** The activity of its market is written into the candidate. *)
Lemma refresh_activity_ok tokens is_new a q t o act db db' :
  outcome_ok tokens is_new a q t (db_tokens db) -> activity_shape act ->
  (if token_matches_observation_market t o
   then update_discovery_token_metadata (XE:=XE) (E:=E) (set_activity act t) else mret tt) db = (Ok tt, db') ->
  exists tokens', db' = set_tokens tokens' db /\ outcome_ok tokens is_new a q t tokens' \/
    db' = set_tokens tokens' db /\ outcome_ok tokens is_new a q (set_activity act t) tokens'.
Proof.
  intros Hout Ha Hc. destruct (token_matches_observation_market t o).
  - step Hc (v & db1 & Hv & Hc). injection Hv as Hv <-. injection Hc as <-. apply (encode_decodes tlaws) in Hv.
    destruct Hout as [Htok (row & Hrow & Hr) Hs Hap Hq].
    destruct (tokens_set_value _ _ t (set_activity act t) v Htok Hrow Hr) as (A & B & C & D & F & G);
      [done|done|done|apply set_activity_shape; [done|apply Hr]|done|].
    eexists. right. split; [done|]. split; simpl in *; [exact A|by eexists|lia|lia|lia].
  - injection Hc as <-. exists (db_tokens db). left. split; [by destruct db|done].
Qed.

Lemma observation_ok now id worker candidate :
  keeps (commit_discovery_observation (E:=E) (J:=J) row_not_found now id worker candidate).
Proof.
  unfold commit_discovery_observation. apply keeps_lift_bind; intros [] _. apply keeps_lift_bind; intros [] _.
  apply keeps_lift_bind; intros [] _. apply keeps_lift_bind; intros [] Hshape. apply validate_token_shape_Ok, (token_ok_weaken timely) in Hshape.
  apply keeps_lift_bind; intros [] Hst. apply guard_err_Ok, negb_false_iff, bool_decide_eq_true in Hst.
  set (t := do_token candidate) in *. apply keeps_transaction. intros db db' x Hok Hc.
  step Hc (work & db1 & Hw & Hc). apply lock_owned_work_Ok in Hw as (-> & row & Hown).
  destruct (owns_row_ok _ _ _ _ _ _ Hok Hown) as (Hr & Hs & Hrow & Ham).
  step Hc (u & db1 & Hg & Hc). injection Hg as Hg <-. destruct u. apply ensure_discovery_work_Ok in Hg.
  rewrite (owns_kind _ _ _ _ _ _ Hown) in Hg.
  step Hc (u & db1 & Hg' & Hc). injection Hg' as _ <-.
  step Hc (existing & db1 & He & Hc). injection He as <- <-.
  step Hc ([[[[m t'] is_new] a] q] & db1 & Ho & Hc). injection Ho as Ho <-.
  step Hc ([] & db1 & Hstore & Hc).
  destruct (discovery_outcome_ok tlaws _ _ _ _ _ _ _ _ _ _ _ _ (db_tokens_ok _ Hok) Hshape Hst Ho Hstore)
    as (tokens & -> & Hm & Hout).
  step Hc (act & db2 & Hact & Hc).
  destruct (apply_activity_Ok _ _ _ _ _ (completed (db_work db)) Hact (db_activity_ok _ Hok) Ham)
    as (E2 & Hactivity & Hashape); [apply map_count_nonneg| |].
  { pose proof (completed_bound _ _ _ (db_work_ok _ Hok)). pose proof (db_work_bound _ Hok). lia. }
  step Hc ([] & db3 & Hmeta & Hc). rewrite E2 in Hmeta. set (db2' := set_traders _ _) in Hmeta.
  destruct (refresh_activity_ok (db_tokens db) is_new a q t' (own_observation work) act db2' db3) as (tokens' & Hd3);
    [exact Hout|done|exact Hmeta|].
  assert (exists t'', db3 = set_tokens tokens' db2' /\ outcome_ok (db_tokens db) is_new a q t'' tokens')
    as (t'' & -> & [Ht' _ Hsz Hap Hqu]) by (destruct Hd3; eauto). clear Hd3.
  step Hc (? & db4 & Hp & Hc). injection Hp as _ <-. injection Hc as _ <-.
  by apply (observed_ok db now id row tokens' (db_activity db2) (db_traders db2)).
Qed.

Lemma approval_ok t source version :
  keeps (commit_discovery_approval (XE:=XE) (E:=E) (J:=J) t source version).
Proof.
  unfold commit_discovery_approval. apply keeps_lift_bind; intros [] _. apply keeps_lift_bind; intros [] _.
  apply keeps_lift_bind; intros [] Hst. apply keeps_lift_bind; intros [] Hq.
  apply guard_err_Ok, negb_false_iff in Hq.
  apply keeps_lift_bind; intros [] Hshape. apply validate_token_shape_Ok, (token_ok_weaken timely) in Hshape.
  apply keeps_transaction. intros db db' x Hok Hc.
  step Hc (found & db1 & He & Hc). injection He as <- <-.
  step Hc (row & db1 & Hr & Hc). injection Hr as Hr <-. apply ok_or_Ok in Hr.
  step Hc (stored & db1 & Hd & Hc). injection Hd as Hd <-. apply decode_Ok in Hd.
  destruct (db_tokens_ok _ Hok _ _ Hr) as [stored' Hrow]. pose proof (tr_decodes _ _ _ Hrow) as Hd'.
  rewrite Hd in Hd'. injection Hd' as <-. pose proof (tr_mint _ _ _ Hrow) as Hmint.
  step Hc (u & db1 & Hg & Hc). injection Hg as _ <-.
  step Hc (? & db1 & Hg & Hc). injection Hg as Hg <-. match goal with u : unit |- _ => destruct u end.
  apply guard_err_Ok, orb_false_iff in Hg as [Hdec _]. apply negb_false_iff in Hdec.
  step Hc (? & db1 & Hg & Hc). injection Hg as _ <-.
  cbv zeta in Hc. remember (merge_approval stored t) as p eqn:Ep in Hc.
  assert (token_ok timely p) as Hp by (subst p; apply merge_approval_shape; [apply Hrow|done|done]).
  assert (dt_mint p = dt_mint t) as Hpm by (subst p; unfold merge_approval; simpl; by destruct (_ >? _)).
  assert (dt_stage p = Approved) as Hps by by subst p. clear Ep.
  step Hc (v & db1 & Hv & Hc). injection Hv as Hv <-. apply (encode_decodes tlaws) in Hv.
  step Hc (s & db1 & Hsl & Hc). injection Hsl as Hsl <-. apply ok_or_Ok, try_from_s_Some in Hsl as [-> _].
  step Hc (? & db1 & Hg & Hc). injection Hg as _ <-. step Hc (? & db1 & Hg & Hc). injection Hg as _ <-.
  injection Hc as _ <-. rewrite Hpm.
  rewrite (alter_insert _ _ _ _ Hr). set (row' := approved_row p v source version (dt_observed_slot p) row).
  assert (token_row_ok (E:=E) (timely:=timely) (dt_mint p) row' p) as Hrow'
    by (split; simpl; [done|done|done|by rewrite Hps|done]).
  pose proof (is_approved_name _ _ (tr_stage _ _ _ Hrow)) as A1. pose proof (is_qualified_name _ _ (tr_stage _ _ _ Hrow)) as Q1.
  pose proof (is_approved_name _ _ (tr_stage _ _ _ Hrow')) as A2. pose proof (is_qualified_name _ _ (tr_stage _ _ _ Hrow')) as Q2.
  destruct Hok as [A B C D F G H1 I K]. destruct F as [F1 F2 F3 F4 F5]. split; simpl; try done.
  - rewrite <- Hpm. by apply tokens_ok_insert.
  - split; simpl; try done.
    + by rewrite map_size_insert_Some by by eexists.
    + unfold map_count. rewrite (map_sum_update _ _ _ _ _ Hr), Q1, Q2, Hdec, Hps, F3. simpl. unfold map_count. lia.
    + unfold map_count. rewrite (map_sum_update _ _ _ _ _ Hr), A1, A2, Hps, F4. simpl. unfold map_count.
      destruct (bool_decide (dt_stage stored = Approved)); simpl; lia.
  - destruct G. split; simpl; try done. lia.
Qed.

(** ** Settings and repairs *)
Lemma publish_ok db f event : db_ok db ->
  st_observed (f (db_projection db)) = st_observed (db_projection db) ->
  st_queued_facts (f (db_projection db)) = st_queued_facts (db_projection db) ->
  st_qualified (f (db_projection db)) = st_qualified (db_projection db) ->
  st_approved (f (db_projection db)) = st_approved (db_projection db) ->
  st_processing_failures (f (db_projection db)) = st_processing_failures (db_projection db) ->
  state_ok (f (db_projection db)) -> db_ok (publish_projection f event db).
Proof.
  intros [A B C D [F1 F2 F3 F4 F5] G H1 I K] E1 E2 E3 E4 E5 Hs. split; simpl; try done. split; (etrans; [eassumption|done]).
Qed.

Lemma set_mode_ok mode : keeps (set_discovery_mode (XE:=XE) (E:=E) (J:=J) mode).
Proof.
  apply keeps_transaction. intros db db' x Hok Hc. step Hc (m & db1 & Hm & Hc). injection Hm as <- <-.
  destruct (String.eqb _ _); injection Hc as _ <-; [done|].
  apply publish_ok; try done. destruct (db_state_ok _ Hok). split; simpl; try done; [lia|by exists mode].
Qed.

Lemma set_flow_ok flow : (forall f, flow = Some f -> 0 <= f) ->
  keeps (set_discovery_flow_per_minute (XE:=XE) (E:=E) (J:=J) flow).
Proof.
  intros Hf. apply keeps_lift_bind. intros flow' Hflow.
  assert (flow' = flow) as ->.
  { destruct flow as [v|]; [|by injection Hflow]. unfold to_i64 in Hflow.
    destruct (try_from_s 64 v) as [v'|] eqn:Hv; [|done]. apply try_from_s_Some in Hv as [-> _]. by injection Hflow. }
  apply keeps_transaction. intros db db' x Hok Hc. step Hc (m & db1 & Hm & Hc). injection Hm as <- <-.
  case_bool_decide; injection Hc as _ <-; [done|].
  apply publish_ok; try done. destruct (db_state_ok _ Hok). split; simpl; try done. lia.
Qed.

Lemma rebuild_ok windows : 0 <= wc_active windows -> 0 <= wc_rejected windows -> 0 <= wc_unknown windows ->
  keeps (rebuild_discovery_projection (XE:=XE) (E:=E) (J:=J) windows).
Proof.
  intros W1 W2 W3 db Hok. unfold rebuild_discovery_projection. simpl. destruct Hok as [A B C D [F1 F2 F3 F4 F5] G H1 I K].
  split; simpl; try done; split; simpl; try done; destruct G; try done. lia.
Qed.

Lemma window_opened_ok : keeps (count_opened_window (XE:=XE) (E:=E) (J:=J)).
Proof.
  intros db Hok. simpl. apply publish_ok; try done. destruct (db_state_ok _ Hok). split; simpl; try done; lia.
Qed.
End Ops.

(** The finalization of a window keeps the invariant of the discovery tables:
    the candidate it writes is well formed, because its summary is that of a
    snapshot, and its deltas are exact. *)
(** A parsed number is not negative. *)
Lemma parse_digits_nonneg w acc s n : 0 <= acc -> parse_digits w acc s = Some n -> 0 <= n.
Proof.
  revert acc. induction s as [|a s IH]; intros acc Hacc; simpl; [by intros [= <-]|].
  destruct (digit_value a) as [d|] eqn:Hd; simpl; [|done]. unfold digit_value in Hd.
  destruct (0 <=? ascii_val a - 48) eqn:H0; simpl in Hd; [|done].
  destruct (ascii_val a - 48 <=? 9); simpl in Hd; [|done]. injection Hd as <-. apply Z.leb_le in H0.
  unfold checked_mul_u, checked_add_u. destruct (acc * 10 <=? _); simpl; [|done].
  destruct (_ <=? uint_max w); simpl; [|done]. apply IH. lia.
Qed.
Lemma parse_uint_nonneg w s n : parse_uint w s = Some n -> 0 <= n.
Proof. unfold parse_uint. destruct (is_empty _); [done|]. by apply parse_digits_nonneg. Qed.

Section Window.
Context {J XE E : Type} `{EqDecision J}.
Context `{SP : !SerdeJson PrefilterDefaults J E} `{SQ : !SerdeJson QualificationDefaults J E}
  `{SS : !SerdeJson MarketWindowSnapshot J E} `{SA : !SerdeJson QualificationAssessment J E}
  `{SW : !SerdeJson DiscoveryWindowSummary J E} `{ST : !SerdeJson DiscoveryToken J E}
  `{SO : !SerdeJson (NormalizedObservation J) J E}.
Context (tlaws : SerdeLaws ST).
Context {timely : bool}.
Abbreviation db_ok := (db_ok (E:=E) (timely:=timely)).

(** What a window's finalization is asked for: its observations carry [u64]
    amounts.  It is asked for in time when its window had opened by then; the code
    compares the time of a complete window only, with the close. *)
Definition finalization_asked (rows : FinalizationRows J) : Prop :=
  forall obs, load_window_observations (XE:=XE) (E:=E) (fr_observations rows) = Ok obs -> observations_typed obs.
Definition finalized_in_time (rows : FinalizationRows J) (f : FinalizeDiscoveryWindow J) : Prop :=
  wi_opened_at_unix_ms (fr_window rows) <= fz_finalized_at_unix_ms f.

Lemma window_volumes_decimal n creators ts : samples_ok ts ->
  let m := window_metrics n creators ts in
  decimal (dec (mm_buy_base_units m)) /\ decimal (dec (mm_sell_base_units m)) /\
  decimal (dec (mm_buy_quote_units m)) /\ decimal (dec (mm_sell_quote_units m)).
Proof.
  intros Hok. cbv zeta. simpl.
  assert (forall side, samples_ok (side_samples side ts)) as Hs by (intros; by apply samples_ok_filter).
  split_and!; apply dec_decimal; [destruct (samples_ok_volume _ (Hs Buy))|destruct (samples_ok_volume _ (Hs Sell))
    |destruct (samples_ok_volume _ (Hs Buy))|destruct (samples_ok_volume _ (Hs Sell))]; lia.
Qed.

Lemma summary_of_shape (record : DiscoveryWindowRecord J) m opened closes c l a at_ summary :
  samples_ok (omap (accepted_trade (J:=J)) l) ->
  canonical_discovery_summary (J:=J) (XE:=XE) (E:=E) record (snapshot_of m opened closes c l) a at_ = Ok summary ->
  wr_opened_at_unix_ms record < wr_closes_at_unix_ms record ->
  (timely = true -> wr_opened_at_unix_ms record <= at_) ->
  qualification_ok timely summary.
Proof.
  intros Hok Hs Hwin Hat. destruct (summary_of_counts _ _ _ _ _ _ _ _ _ Hok Hs) as (Hc & _ & _).
  unfold summary_counts_ok in Hc. rewrite !andb_true_iff, bool_decide_eq_true, !Z.leb_le in Hc.
  destruct Hc as ((((C1 & C2) & C3) & C4) & C5). unfold canonical_discovery_summary in Hs.
  destruct (try_from_u 64 _) as [wid|]; cbn [ok_or mbind result_bind] in Hs; [|done]. injection Hs as <-.
  destruct (window_volumes_decimal (Z.of_nat (length l)) (window_creators l) _ Hok) as (V1 & V2 & V3 & V4).
  by split.
Qed.

(** The summary of an accepted finalization. *)
Lemma accepted_summary (rows : FinalizationRows J) f :
  finalization_asked rows -> (timely = true -> finalized_in_time rows f) -> rebuild (XE:=XE) rows f = Ok f ->
  validate_finalization (XE:=XE) (E:=E) f = Ok tt ->
  validate_finalization_for_window (XE:=XE) (E:=E) (fr_window rows) f = Ok tt ->
  qualification_ok timely (fz_summary f) /\
  (fz_decision f = Pass -> passed_complete (Some (fz_summary f)) = true).
Proof.
  intros Ht Hat Hb Hv Hw. unfold rebuild in Hb. apply bind_Ok in Hb as (obs & Hobs & Hb).
  apply bind_Ok in Hb as (record & Hrec & Hb). apply into_record_Ok in Hrec as (_ & Ho & Hop & Hcl & _).
  apply build_finalization_inv in Hb as (snapshot & a & Hs & Ha & Hsum & _ & _ & _ & _ & Hcc & _ & _ & _ & Hd & _).
  rewrite Ho in Hs. apply build_Ok in Hs as (-> & Hwin & _ & _ & Hok); [|by apply Ht]. split.
  { eapply summary_of_shape; [exact Hok|exact Hsum|done|by rewrite Hop]. }
  intros Hp. unfold passed_complete. rewrite andb_true_iff, !bool_decide_eq_true.
  unfold canonical_discovery_summary in Hsum.
  destruct (try_from_u 64 _) as [wid|]; cbn [ok_or mbind result_bind] in Hsum; [|done]. injection Hsum as Hsum.
  rewrite <- Hsum. cbn [dw_decision dw_completeness]. rewrite <- Hd, Hp. split; [done|].
  pose proof (qualification_rules_canonical _ _ _ Ha) as (_ & _ & Hk). unfold snapshot_completeness.
  destruct (ms_completeness _) as [|reason]; [done|]. destruct Hk as [Hk _]. congruence.
Qed.

Lemma checked_decimal_sum_Ok l r field s :
  checked_decimal_sum (XE:=XE) (E:=E) l r field = Ok s -> decimal s.
Proof.
  unfold checked_decimal_sum. intros H0. apply bind_Ok in H0 as (x & Hx & H0). apply bind_Ok in H0 as (y & Hy & H0).
  apply ok_or_Ok in Hx, Hy, H0. unfold checked_add_u in H0. destruct (_ <=? _); [|done]. injection H0 as <-.
  apply parse_uint_nonneg in Hx, Hy. apply dec_decimal. lia.
Qed.

Lemma token_after_shape token f after : token_after (XE:=XE) (E:=E) (J:=J) token f = Ok after ->
  token_ok timely token -> qualification_ok timely (fz_summary f) ->
  (fz_decision f = Pass -> passed_complete (Some (fz_summary f)) = true) ->
  token_ok timely after /\ dt_observed_slot after = dt_observed_slot token.
Proof.
  unfold token_after. intros H0 Ht Hq Hp. apply bind_Ok in H0 as (base & Hb & H0).
  apply bind_Ok in H0 as (quote & Hq' & H0). injection H0 as <-. split; [|done].
  apply checked_decimal_sum_Ok in Hb, Hq'. pose proof (qs_trades _ _ Hq) as C1. pose proof (qs_traders _ _ Hq) as C2.
  destruct Ht. split; try done; simpl.
  - by intros q [= <-].
  - unfold stage_after. case_bool_decide as Hd; [|done]. intros _. by apply Hp.
Qed.

Lemma finalized_row_ok window f row tu dq da stored trow :
  update_candidate (XE:=XE) (E:=E) window f {| cu_token := tk_token trow; cu_belongs_to_window := row |} = Ok (tu, dq, da) ->
  token_row_ok (E:=E) (timely:=timely) (wi_mint window) trow stored -> qualification_ok timely (fz_summary f) ->
  (fz_decision f = Pass -> passed_complete (Some (fz_summary f)) = true) ->
  exists after, tu_mint tu = wi_mint window /\ dt_mint after = wi_mint window /\
    token_row_ok (E:=E) (timely:=timely) (wi_mint window) (finalized_row tu trow) after /\
    dt_stage after = stage_after (fz_decision f) (dt_stage stored) /\
    dq = bool_to_i64 (bool_decide (fz_decision f = Pass)) - bool_to_i64 (stage_qualified (dt_stage stored)) /\
    da = bool_to_i64 (bool_decide (dt_stage stored = Approved) && negb (bool_decide (fz_decision f = Pass))).
Proof.
  intros H0 Hr Hq Hp. unfold update_candidate in H0. apply bind_Ok in H0 as (token & Ht & H0).
  apply decode_Ok in Ht. simpl in Ht. rewrite (tr_decodes _ _ _ Hr) in Ht. injection Ht as <-.
  apply bind_Ok in H0 as ([] & _ & H0). apply bind_Ok in H0 as (after & Ha & H0).
  apply bind_Ok in H0 as (value & Hv & H0). apply (encode_decodes tlaws) in Hv. injection H0 as <- <- <-.
  pose proof (token_after_shape _ _ _ Ha (tr_shape _ _ _ Hr) Hq Hp) as [Hshape Hslot].
  assert (dt_mint after = dt_mint stored /\ dt_stage after = stage_after (fz_decision f) (dt_stage stored)) as [Hm Hst].
  { unfold token_after in Ha. apply bind_Ok in Ha as (b & _ & Ha). apply bind_Ok in Ha as (q & _ & Ha).
    by injection Ha as <-. }
  pose proof (tr_mint _ _ _ Hr) as Hmint. pose proof (tr_slot _ _ _ Hr) as Hs.
  exists after. split_and!; try done; simpl; try congruence. split; simpl; try done; congruence.
Qed.

(** What a commit counts. *)
Lemma commit_counts rows f (w : FinalizationWrites J) : commit_finalization (XE:=XE) (E:=E) rows f = Ok w ->
  0 <= fw_rejected w /\ 0 <= fw_unknown w.
Proof.
  unfold commit_finalization. intros H0. apply bind_Ok in H0 as (count & _ & H0).
  apply bind_Ok in H0 as (sv & _ & H0). apply bind_Ok in H0 as (rules & _ & H0).
  apply bind_Ok in H0 as (u & _ & H0). injection H0 as <-. simpl. unfold bool_to_i64.
  split; case_bool_decide; lia.
Qed.

(** The tables after a commit, from what became of the candidates. *)
Lemma finalized_tables_ok db at_ (w : FinalizationWrites J) tokens :
  db_ok db -> 0 <= fw_rejected w -> 0 <= fw_unknown w ->
  match fw_token w with Some u => alter (finalized_row u) (tu_mint u) (db_tokens db) | None => db_tokens db end = tokens ->
  tokens_ok (E:=E) (timely:=timely) tokens -> size tokens = size (db_tokens db) ->
  map_count is_qualified tokens = map_count is_qualified (db_tokens db) + fw_qualified_delta w ->
  map_count is_approved tokens = map_count is_approved (db_tokens db) - fw_approval_removed w ->
  db_ok (write_finalization at_ w db).
Proof.
  intros [A B C D [F1 F2 F3 F4 F5] G H1 I K] Hrej Hunk Htok Hok Hsize Hq Ha. unfold write_finalization. rewrite Htok.
  pose proof (map_count_nonneg is_approved tokens). pose proof (map_count_nonneg is_qualified tokens).
  split; simpl; try done.
  - split; simpl; try done; [by rewrite Hsize|rewrite F3; lia|rewrite F4; lia].
  - destruct G. split; simpl; try done; lia.
  - by apply upsert_rejections_ok.
Qed.

(** The writes of a finalization. *)
Lemma write_finalization_ok at_ db w (rows : FinalizationRows J) belongs f :
  db_ok db -> finalization_asked rows -> (timely = true -> finalized_in_time rows f) ->
  finalize_discovery_window (XE:=XE) (E:=E)
    (with_current_projection (current_projection (fr_window rows) belongs db) rows) f = Ok (Some w) ->
  db_ok (write_finalization at_ w db).
Proof.
  intros Hok Hasked Htime H0.
  assert (validate_finalization (XE:=XE) (E:=E) f = Ok tt) as Hv
    by (unfold finalize_discovery_window in H0; by apply bind_Ok in H0 as ([] & Hv & _)).
  apply finalize_commit_inv in H0 as (Hw & _ & _ & _ & _ & Hb & Hc).
  destruct (accepted_summary rows f Hasked Htime Hb Hv Hw) as [Hshape Hpass].
  destruct (commit_counts _ _ _ Hc) as [Hrej Hunk].
  apply commit_inv in Hc as (update & summary & Hcase & _).
  unfold current_projection in Hcase. cbn [fr_current_projection with_current_projection fr_window
    fr_newer_window_exists] in Hcase.
  assert (fw_token w = None /\ fw_qualified_delta w = 0 /\ fw_approval_removed w = 0 ->
    db_ok (write_finalization at_ w db)) as Hnone.
  { intros (E1 & E2 & E3). apply (finalized_tables_ok db at_ w (db_tokens db));
      rewrite ?E1, ?E2, ?E3; try done; [apply Hok|lia|lia]. }
  destruct (db_tokens db !! wi_mint (fr_window rows)) as [trow|] eqn:Hrow; simpl in Hcase; [|by apply Hnone].
  destruct (belongs && negb (fr_newer_window_exists rows)); [|by apply Hnone].
  destruct Hcase as (Hu & E1 & E2 & E3). destruct update as [[tu dq] da]. simpl in E1, E2, E3.
  destruct (db_tokens_ok _ Hok _ _ Hrow) as [stored Hstored].
  destruct (finalized_row_ok _ _ _ _ _ _ _ _ Hu Hstored Hshape Hpass) as (after & Hm & Hma & Hr & Hst & Hdq & Hda).
  pose proof (is_approved_name _ _ (tr_stage _ _ _ Hstored)) as A1.
  pose proof (is_qualified_name _ _ (tr_stage _ _ _ Hstored)) as Q1.
  pose proof (is_approved_name _ _ (tr_stage _ _ _ Hr)) as A2.
  pose proof (is_qualified_name _ _ (tr_stage _ _ _ Hr)) as Q2.
  apply (finalized_tables_ok db at_ w (<[wi_mint (fr_window rows) := finalized_row tu trow]> (db_tokens db)));
    [done|done|done| | | | |].
  - by rewrite E1, Hm, (alter_insert _ _ _ _ Hrow).
  - rewrite <- Hma in Hr |- *. apply tokens_ok_insert; [apply Hok|done].
  - by rewrite map_size_insert_Some by by eexists.
  - unfold map_count. rewrite (map_sum_update _ _ _ _ _ Hrow), Q1, Q2, Hst, E2, Hdq. unfold map_count.
    destruct (fz_decision f), (dt_stage stored); vm_compute one_if; vm_compute bool_to_i64; simpl; lia.
  - unfold map_count. rewrite (map_sum_update _ _ _ _ _ Hrow), A1, A2, Hst, E3, Hda. unfold map_count.
    destruct (fz_decision f), (dt_stage stored); simpl; lia.
Qed.

Lemma finalization_ok (rows : FinalizationRows J) belongs f :
  finalization_asked rows -> (timely = true -> finalized_in_time rows f) ->
  keeps (XE:=XE) (timely:=timely) (commit_window_finalization (XE:=XE) (E:=E) rows belongs f).
Proof.
  intros Hasked Htime db Hok. unfold commit_window_finalization. rewrite read_bind_state, lift_bind_state.
  destruct (finalize_discovery_window _ f) as [[w|]|e] eqn:Hf; [|done|done]. simpl.
  by apply (write_finalization_ok _ _ _ rows belongs f).
Qed.
End Window.
