(* ===== verification/DiscoveryDbHistory.v ===== *)
(** The transactions on the discovery tables as the steps of a history, what a
    history counts, and that it reaches well-formed tables only. *)
From S2P Require Import Prelude.
From S2P Require Import ListFacts.
From S2P Require Import Stateful.
From S2P Require Import RustOrd.
From S2P Require Import RustStr.
From S2P Require Import Domain.
From S2P Require Import External.
From S2P Require Import SnapshotArith.
From S2P Require Import Snapshot.
From S2P Require Import Qualification.
From S2P Require Import WindowToken.
From S2P Require Import ApiContracts.
From S2P Require Import PersistenceModel.
From S2P Require Import Finalization.
From S2P Require Import FinalizeTx.
From S2P Require Import Store.
From S2P Require Import FinalizationProofs.
From S2P Require Import FinalizationTheorems.
From S2P Require Import DiscoveryValidation.
From S2P Require Import DiscoveryDb.
From S2P Require Import DiscoveryDbProofs.
From S2P Require Import DiscoveryDbOps.

(** ** Operations *)
Inductive DbOp {J : Type} :=
| OpReceive (now : Z) (value : J)
| OpLowerReceived (fact at_ : Z)
| OpClaim (locked : Z -> bool) (now : Z) (kind worker : string) (limit lease_ms : Z)
| OpRenew (now id : Z) (worker : string) (lease_ms : Z)
| OpComplete (now id : Z) (worker : string)
| OpRetry (now id : Z) (worker code : string) (retry_ms max_attempts : Z)
| OpObserve (now id : Z) (worker : string) (candidate : DiscoveryObservation)
| OpReject (now id : Z) (worker : string) (rejection : DiscoveryRejection)
| OpApprove (t : DiscoveryToken) (source version : string)
| OpSetMode (mode : DiscoveryMode)
| OpSetFlow (flow : option Z)
| OpOpenWindow
| OpFinalize (rows : FinalizationRows J) (belongs : bool) (f : FinalizeDiscoveryWindow J)
| OpRebuild (windows : WindowCounts).
#[global] Arguments DbOp : clear implicits.

(** The lease a step acts under: its time, work item and worker. *)
Definition op_lease {J} (op : DbOp J) : option (Z * Z * string) :=
  match op with
  | OpRenew now id worker _ | OpComplete now id worker | OpRetry now id worker _ _ _
  | OpObserve now id worker _ | OpReject now id worker _ => Some (now, id, worker)
  | _ => None
  end.

(** A row of [discovery_projection_state] as the migrations insert it, and the
    empty tables. *)
Definition state_init : ProjectionState := {|
  st_sequence := 0; st_mode := "OBSERVE_ALL"; st_observed := 0; st_queued_facts := 0; st_qualified := 0;
  st_qualification_pending := 0; st_qualification_rejected := 0; st_qualification_unknown := 0;
  st_processing_failures := 0; st_approved := 0; st_flow_per_minute := None |}.
Definition db_init {J} : DiscoveryDb J := {|
  db_next_fact := 1; db_facts := ∅; db_next_work := 1; db_work := ∅; db_tokens := ∅; db_activity := ∅;
  db_traders := ∅; db_projection := state_init; db_failures := ∅; db_rejections := ∅; db_events := [] |}.

(** What one observation adds to the activity of its market. *)
Definition count_observation {J} (o : NormalizedObservation J) (r : ActivityRow) : ActivityRow :=
  match payload o with
  | Trade side _ base quote _ _ => count_trade side base quote r
  | _ => r
  end.
(** The activity of the observations of one market, from the first one on. *)
Definition activity_of {J} (os : list (NormalizedObservation J)) : option ActivityRow :=
  match os with
  | [] => None
  | _ => Some (foldl (fun r o => count_observation o r) activity_default os)
  end.
Definition trades_by {J} (k : ActivityKey) (wallet : string) (o : NormalizedObservation J) : bool :=
  bool_decide (activity_key o = k) &&
  match payload o with Trade _ w _ _ _ _ => String.eqb w wallet | _ => false end.

Section History.
Context {J XE E : Type} `{EqDecision J}.
Context (row_not_found : XE).
Context `{SP : !SerdeJson PrefilterDefaults J E} `{SQ : !SerdeJson QualificationDefaults J E}
  `{SS : !SerdeJson MarketWindowSnapshot J E} `{SA : !SerdeJson QualificationAssessment J E}
  `{SW : !SerdeJson DiscoveryWindowSummary J E} `{ST : !SerdeJson DiscoveryToken J E}
  `{SO : !SerdeJson (NormalizedObservation J) J E}.
Implicit Types (db : DiscoveryDb J) (t : DiscoveryToken) (o : NormalizedObservation J) (op : DbOp J).
Abbreviation DbM := (stateful (DiscoveryDb J) (PersistenceError XE E)).

Definition run_op (op : DbOp J) (db : DiscoveryDb J) : DiscoveryDb J :=
  match op with
  | OpReceive now value => (insert_queued_fact (XE:=XE) (E:=E) now value db).2
  | OpLowerReceived fact at_ => (lower_received (XE:=XE) (E:=E) fact at_ db).2
  | OpClaim locked now kind worker limit lease_ms =>
      (claim_observation_work (XE:=XE) (E:=E) locked now kind worker limit lease_ms db).2
  | OpRenew now id worker lease_ms => (renew_observation_work_lease (XE:=XE) (E:=E) now id worker lease_ms db).2
  | OpComplete now id worker => (complete_observation_work (XE:=XE) (E:=E) now id worker db).2
  | OpRetry now id worker code retry_ms max_attempts =>
      (retry_or_fail_observation_work (XE:=XE) (E:=E) now id worker code retry_ms max_attempts db).2
  | OpObserve now id worker candidate =>
      (commit_discovery_observation (E:=E) row_not_found now id worker candidate db).2
  | OpReject now id worker rejection => (commit_discovery_rejection (XE:=XE) (E:=E) now id worker rejection db).2
  | OpApprove t source version => (commit_discovery_approval (XE:=XE) (E:=E) t source version db).2
  | OpSetMode mode => (set_discovery_mode (XE:=XE) (E:=E) mode db).2
  | OpSetFlow flow => (set_discovery_flow_per_minute (XE:=XE) (E:=E) flow db).2
  | OpOpenWindow => (count_opened_window (XE:=XE) (E:=E) db).2
  | OpFinalize rows belongs f => (commit_window_finalization (XE:=XE) (E:=E) rows belongs f db).2
  | OpRebuild windows => (rebuild_discovery_projection (XE:=XE) (E:=E) windows db).2
  end.

(** The work item and the fact a step counts. *)
Definition committed (op : DbOp J) (db : DiscoveryDb J) : option (Z * NormalizedObservation J) :=
  match op with
  | OpObserve now id worker candidate =>
      match commit_discovery_observation (E:=E) row_not_found now id worker candidate db,
            lock_owned_work (XE:=XE) (E:=E) now id worker db with
      | (Ok _, _), (Ok work, _) => Some (id, own_observation work)
      | _, _ => None
      end
  | _ => None
  end.
(** A history, with the work items and facts it counted. *)
Definition run_ops (ops : list (DbOp J)) : DiscoveryDb J * list (Z * NormalizedObservation J) :=
  foldl (fun st op => (run_op op st.1, st.2 ++ option_list (committed op st.1))) (db_init, []) ops.

(** What is asked of the inputs of a step. *)
Definition op_allowed (db : DiscoveryDb J) (op : DbOp J) : Prop :=
  match op with
  | OpReceive _ value =>
      (exists o, from_value (E:=E) value = Ok o /\ amounts_ok o) /\ db_next_work db + 1 <= 2 ^ 63
  | OpSetFlow (Some flow) => 0 <= flow
  | OpFinalize rows _ _ => finalization_asked (XE:=XE) (E:=E) rows
  | OpRebuild windows => 0 <= wc_active windows /\ 0 <= wc_rejected windows /\ 0 <= wc_unknown windows
  | _ => True
  end.
Inductive reachable : DiscoveryDb J -> Prop :=
| reach_init : reachable db_init
| reach_step db op : reachable db -> op_allowed db op -> reachable (run_op op db).

(** A history in which no window is finalized before it opened. *)
Definition in_time (op : DbOp J) : Prop :=
  match op with OpFinalize rows _ f => finalized_in_time rows f | _ => True end.
Inductive reachable_in_time : DiscoveryDb J -> Prop :=
| in_time_init : reachable_in_time db_init
| in_time_step db op : reachable_in_time db -> op_allowed db op -> in_time op -> reachable_in_time (run_op op db).
Lemma in_time_reachable db : reachable_in_time db -> reachable db.
Proof. induction 1; by constructor. Qed.

(** A history whose every step is allowed. *)
Fixpoint allowed_along (ops : list (DbOp J)) (db : DiscoveryDb J) : Prop :=
  match ops with [] => True | op :: ops => op_allowed db op /\ allowed_along ops (run_op op db) end.
Lemma reachable_along ops db : reachable db -> allowed_along ops db ->
  reachable (foldl (fun db op => run_op op db) db ops).
Proof.
  revert db. induction ops as [|op ops IH]; intros db Hr Ha; simpl in *; [done|].
  destruct Ha. apply IH; [by constructor|done].
Qed.
Lemma in_time_along ops db : reachable_in_time db -> allowed_along ops db -> Forall in_time ops ->
  reachable_in_time (foldl (fun db op => run_op op db) db ops).
Proof.
  revert db. induction ops as [|op ops IH]; intros db Hr Ha Ht; simpl in *; [done|].
  destruct Ha. apply Forall_cons in Ht as [??]. apply IH; [by constructor|done..].
Qed.
Lemma run_ops_db ops : (run_ops ops).1 = foldl (fun db op => run_op op db) db_init ops.
Proof.
  unfold run_ops. generalize ([] : list (Z * NormalizedObservation J)). generalize (db_init (J:=J)).
  induction ops as [|op ops IH]; intros db log; simpl; [done|]. by rewrite IH.
Qed.

(** Every history reaches well-formed tables. *)
Lemma init_ok timely : db_ok (E:=E) (timely:=timely) (db_init (J:=J)).
Proof.
  split; simpl; try done; split; simpl; try done; try (by vm_compute).
  by exists ObserveAll.
Qed.
Context (tlaws : SerdeLaws ST) (olaws : SerdeLaws SO).
Lemma run_op_ok timely db op : db_ok (E:=E) (timely:=timely) db -> op_allowed db op -> (timely = true -> in_time op) ->
  db_ok (E:=E) (timely:=timely) (run_op op db).
Proof.
  intros Hok Ha Ht. destruct op; simpl in *.
  - destruct Ha as [(o & Hv & Ham) Hb]. by apply (receive_ok (XE:=XE) _ _ o).
  - by apply lower_received_ok.
  - by apply claim_ok.
  - by apply renew_ok.
  - by apply complete_ok.
  - by apply retry_ok.
  - by apply observation_ok.
  - by apply rejection_ok.
  - by apply approval_ok.
  - by apply set_mode_ok.
  - apply set_flow_ok; [|done]. intros v ->. done.
  - by apply (window_opened_ok (XE:=XE)).
  - by apply finalization_ok.
  - destruct Ha as (W1 & W2 & W3). by apply (rebuild_ok (XE:=XE) _ W1 W2 W3).
Qed.
Lemma history_ok db : reachable db -> db_ok (E:=E) (timely:=false) db.
Proof. induction 1; [apply init_ok|by apply run_op_ok]. Qed.
Lemma history_in_time_ok db : reachable_in_time db -> db_ok (E:=E) (timely:=true) db.
Proof. induction 1; [apply init_ok|by apply run_op_ok]. Qed.
End History.
