(* ===== verification/DiscoveryDbTheorems.v ===== *)
(** What each step of a history does to the rows of work and to the activity of
    the markets. *)
From S2P Require Import Prelude.
From S2P Require Import ListFacts.
From S2P Require Import Stateful.
From S2P Require Import RustOrd.
From S2P Require Import RustStr.
From S2P Require Import Domain.
From S2P Require Import External.
From S2P Require Import SnapshotArith.
From S2P Require Import Snapshot.
From S2P Require Import Qualification.
From S2P Require Import WindowToken.
From S2P Require Import ApiContracts.
From S2P Require Import PersistenceModel.
From S2P Require Import Finalization.
From S2P Require Import FinalizeTx.
From S2P Require Import Store.
From S2P Require Import FinalizationProofs.
From S2P Require Import FinalizationTheorems.
From S2P Require Import DiscoveryValidation.
From S2P Require Import DiscoveryDb.
From S2P Require Import DiscoveryDbProofs.
From S2P Require Import DiscoveryDbOps.
From S2P Require Import DiscoveryDbHistory.

(** ** What the steps leave alone *)
Definition same_work {J} (db db' : DiscoveryDb J) : Prop :=
  db_work db' = db_work db /\ db_facts db' = db_facts db /\ db_next_work db' = db_next_work db.
Definition same_activity {J} (db db' : DiscoveryDb J) : Prop :=
  db_activity db' = db_activity db /\ db_traders db' = db_traders db.
#[export] Instance same_work_refl {J} : Reflexive (same_work (J:=J)).
Proof. by intros db. Qed.
#[export] Instance same_work_trans {J} : Transitive (same_work (J:=J)).
Proof. intros a b c (?&?&?) (?&?&?). repeat split; congruence. Qed.
#[export] Instance same_activity_refl {J} : Reflexive (same_activity (J:=J)).
Proof. by intros db. Qed.
#[export] Instance same_activity_trans {J} : Transitive (same_activity (J:=J)).
Proof. intros a b c (?&?) (?&?). split; congruence. Qed.

Lemma preserves_modify {S X} (R : S -> S -> Prop) (f : S -> S) :
  (forall st, R st (f st)) -> preserves (E:=X) R (modify_state f).
Proof. intros Hf st. apply Hf. Qed.
#[export] Hint Extern 2 (preserves same_work (modify_state _)) => apply preserves_modify; intros ?; by repeat split : stateful.
#[export] Hint Extern 2 (preserves same_activity (modify_state _)) => apply preserves_modify; intros ?; by repeat split : stateful.

Lemma preserves_result {S X A} (R : S -> S -> Prop) (m : stateful S X A) st r st' :
  preserves R m -> m st = (r, st') -> R st st'.
Proof. intros Hm H0. specialize (Hm st). by rewrite H0 in Hm. Qed.
Lemma preserves_transaction {S X A} (R : S -> S -> Prop) `{!Reflexive R} (body : stateful S X (TxEnd A)) :
  preserves R body -> preserves R (transaction body).
Proof.
  intros Hb st. destruct (transaction_inv body st) as [->|(a & st' & Hc & ->)]; [reflexivity|].
  by eapply preserves_result.
Qed.
#[export] Hint Extern 3 (preserves _ (transaction _)) => apply preserves_transaction; [apply _|] : stateful.
#[export] Hint Extern 4 (preserves _ (if ?b then _ else _)) => destruct b : stateful.
#[export] Hint Extern 4 (preserves _ (match ?x with _ => _ end)) => destruct x : stateful.

(** A body that only commits. *)
Ltac never_rolls_back H :=
  exfalso;
  repeat first
    [ apply stateful_bind_Ok in H as (? & ? & _ & H)
    | match type of H with context [let '(_, _) := ?x in _] => destruct x end ];
  done.

Section Work.
Context {J XE E : Type} `{EqDecision J}.
Context (row_not_found : XE).
Context `{SP : !SerdeJson PrefilterDefaults J E} `{SQ : !SerdeJson QualificationDefaults J E}
  `{SS : !SerdeJson MarketWindowSnapshot J E} `{SA : !SerdeJson QualificationAssessment J E}
  `{SW : !SerdeJson DiscoveryWindowSummary J E} `{ST : !SerdeJson DiscoveryToken J E}
  `{SO : !SerdeJson (NormalizedObservation J) J E}.
Implicit Types (db : DiscoveryDb J) (t : DiscoveryToken) (o : NormalizedObservation J) (op : DbOp J).
Abbreviation DbM := (stateful (DiscoveryDb J) (PersistenceError XE E)).
Abbreviation run := (run_op (E:=E) row_not_found).

Lemma store_outcome_work m is_new o t id source version :
  preserves same_work (store_outcome (XE:=XE) (E:=E) m is_new o t id source version).
Proof.
  unfold store_outcome, insert_discovery_token, update_discovery_token, store_token, update_discovery_token_metadata.
  auto 10 with stateful.
Qed.
Lemma store_outcome_activity m is_new o t id source version :
  preserves same_activity (store_outcome (XE:=XE) (E:=E) m is_new o t id source version).
Proof.
  unfold store_outcome, insert_discovery_token, update_discovery_token, store_token, update_discovery_token_metadata.
  auto 10 with stateful.
Qed.
Lemma apply_activity_work o : preserves same_work (apply_observation_activity (E:=E) row_not_found o).
Proof. unfold apply_observation_activity. auto 20 with stateful. Qed.
Lemma refresh_work b t : preserves same_work
  (if b : bool then update_discovery_token_metadata (XE:=XE) (E:=E) t else mret tt).
Proof. unfold update_discovery_token_metadata. auto 10 with stateful. Qed.
Lemma refresh_activity b t : preserves same_activity
  (if b : bool then update_discovery_token_metadata (XE:=XE) (E:=E) t else mret tt).
Proof. unfold update_discovery_token_metadata. auto 10 with stateful. Qed.

(** ** The outcomes of a leased item *)

(** A step that ended with a change of one leased row. *)
Definition leased_change (now id : Z) (worker : string) (f : WorkRow -> WorkRow) db db' : Prop :=
  exists row, owned_row now id worker db = Some row /\ db_work db' = alter f id (db_work db) /\
    db_next_work db' = db_next_work db /\ db_facts db' = db_facts db.
Lemma leased_change_intro now id worker (work : OwnedWork J) f db db1 :
  (exists row, owns (E:=E) db now id worker work row) -> same_work db db1 ->
  leased_change now id worker f db (update_work id f db1).
Proof. intros (row & Hown) (Hw & Hf & Hn). exists row. simpl. rewrite Hw. split_and!; [apply Hown|done..]. Qed.

Lemma observation_effect now id worker candidate db m db' :
  commit_discovery_observation (E:=E) row_not_found now id worker candidate db = (Ok m, db') ->
  exists work act db1 db2, lock_owned_work (XE:=XE) (E:=E) now id worker db = (Ok work, db) /\
    apply_observation_activity (E:=E) row_not_found (own_observation work) db1 = (Ok act, db2) /\
    same_activity db db1 /\ same_activity db2 db' /\ leased_change now id worker (complete_row now) db db'.
Proof.
  unfold commit_discovery_observation. intros H0.
  do 5 (apply stateful_bind_Ok in H0 as (? & db0 & Hx & H0); injection Hx as _ <-).
  apply transaction_Ok in H0 as [H0|[_ [st1 H0]]].
  - apply stateful_bind_Ok in H0 as (work & dbl & Hw & H0).
    pose proof (lock_owned_work_Ok _ _ _ _ _ _ Hw) as (-> & Hown).
    do 3 (apply stateful_bind_Ok in H0 as (? & db0 & Hx & H0); injection Hx as _ <-).
    step H0 ([[[[m' t'] is_new] a] q] & db0 & Hx & H0). injection Hx as _ <-.
    step H0 ([] & db1 & Hs & H0). step H0 (act & db2 & Ha & H0). step H0 ([] & db3 & Hm & H0).
    step H0 (? & db4 & Hp & H0). injection Hp as _ <-. step H0 (? & db4 & Hp & H0). injection Hp as _ <-.
    injection H0 as _ <-. exists work, act, db1, db2.
    refine (conj Hw (conj Ha (conj _ (conj _ _)))).
    + by eapply preserves_result, Hs; apply store_outcome_activity.
    + trans db3; [by eapply preserves_result, Hm; apply refresh_activity|by split].
    + apply (leased_change_intro _ _ _ work); [done|]. trans db1; [eapply preserves_result, Hs; apply store_outcome_work|].
      trans db2; [eapply preserves_result, Ha; apply apply_activity_work|].
      trans db3; [eapply preserves_result, Hm; apply refresh_work|by repeat split].
  - never_rolls_back H0.
Qed.

Lemma transaction_effect {A} (body : DbM (TxEnd A)) db : 
  (transaction body db).2 = db \/ exists a, body db = (Ok (Commit a), (transaction body db).2).
Proof. destruct (transaction_inv body db) as [->|(a & st' & Hc & ->)]; [by left|right]. by exists a. Qed.

(** How a step may end the lease of an item. *)
Inductive ends_lease (op : DbOp J) : (WorkRow -> WorkRow) -> Prop :=
| ends_renewed now id worker lease lease_ms : op = OpRenew now id worker lease ->
    ends_lease op (extend_lease (expires_after now lease_ms))
| ends_completed now id worker : op_lease op = Some (now, id, worker) -> ends_lease op (complete_row now)
| ends_released now id worker code retry max failed retry_ms : op = OpRetry now id worker code retry max ->
    ends_lease op (release_row now retry_ms code failed).

Lemma leased_effect op now id worker db : op_lease op = Some (now, id, worker) ->
  run op db = db \/ exists f, ends_lease op f /\ leased_change now id worker f db (run op db).
Proof.
  destruct op; intros [= <- <- <-]; simpl.
  - unfold renew_observation_work_lease. rewrite lift_bind_state. destruct (require_non_empty _ _); [|by left].
    rewrite lift_bind_state. destruct (duration_millis _ _ _) as [lease|]; [|by left]. rewrite read_bind_state.
    destruct (owned_row now0 id0 worker0 db) as [row|] eqn:Hr; [|by left]. right. eexists.
    split; [by eapply ends_renewed|]. by exists row.
  - unfold complete_observation_work. rewrite lift_bind_state. destruct (require_non_empty _ _); [|by left].
    match goal with |- (transaction ?b db).2 = db \/ _ => destruct (transaction_effect b db) as [->|[? Hc]] end; [by left|].
    right. exists (complete_row now0). split; [by eapply ends_completed|].
    step Hc (work & db1 & Hw & Hc). apply lock_owned_work_Ok in Hw as (-> & Hown).
    step Hc (? & db1 & Hx & Hc). injection Hx as _ <-. injection Hc as _ Hc. rewrite <- Hc.
    by eapply leased_change_intro.
  - unfold retry_or_fail_observation_work. do 3 (rewrite lift_bind_state; case_match; [|by left]).
    do 2 (rewrite lift_bind_state; case_match; [|by left]).
    match goal with |- (transaction ?b db).2 = db \/ _ => destruct (transaction_effect b db) as [->|[x Hc]] end; [by left|].
    step Hc (work & db1 & Hw & Hc). apply lock_owned_work_Ok in Hw as (-> & Hown).
    right. eexists. split; [by eapply ends_released|].
    step Hc (? & db1 & Hx & Hc). injection Hx as _ <-. step Hc (? & db1 & Hx & Hc). injection Hc as _ Hc. rewrite <- Hc.
    destruct (_ && _); injection Hx as _ <-; by eapply leased_change_intro.
  - destruct (commit_discovery_observation _ _ _ _ _ _) as [[m|e] db'] eqn:Hc; simpl.
    + apply observation_effect in Hc as (work & act & db1 & db2 & _ & _ & _ & _ & Hch). right.
      eexists. split; [by eapply ends_completed|exact Hch].
    + left. revert Hc. unfold commit_discovery_observation.
      do 5 (rewrite lift_bind_state; case_match; [|by intros [= _ <-]]).
      match goal with |- transaction ?b db = _ -> _ => destruct (transaction_inv b db) as [Ht|(? & st' & _ & Ht)] end;
        intros Hc; rewrite Hc in Ht; [exact Ht|discriminate Ht].
  - unfold commit_discovery_rejection. do 5 (rewrite lift_bind_state; case_match; [|by left]).
    match goal with |- (transaction ?b db).2 = db \/ _ => destruct (transaction_effect b db) as [->|[x Hc]] end; [by left|].
    step Hc (work & db1 & Hw & Hc). apply lock_owned_work_Ok in Hw as (-> & Hown).
    right. exists (complete_row now0). split; [by eapply ends_completed|].
    do 2 (step Hc (? & db1 & Hx & Hc); injection Hx as _ <-). injection Hc as _ Hc. rewrite <- Hc.
    by eapply leased_change_intro.
Qed.

(** ** The steps of a row *)

(** What one step makes of a row: it stays, it is claimed because it is due or
    its lease has run out, or it changes under its own unexpired lease. *)
Inductive row_moves (op : DbOp J) (id : Z) (row : WorkRow) : WorkRow -> Prop :=
| row_stays : row_moves op id row row
| row_claimed locked now kind worker limit lease lease_ms :
    op = OpClaim locked now kind worker limit lease -> locked id = false ->
    wk_kind row = kind -> wk_attempts row < 2147483647 ->
    (wk_status row = WorkPending /\ wk_available_at row <= now \/
     wk_status row = WorkProcessing /\ forall e, wk_lease_expires_at row = Some e -> e <= now) ->
    row_moves op id row (claim_row now lease_ms worker row)
| row_ends now worker expires f :
    op_lease op = Some (now, id, worker) -> wk_status row = WorkProcessing ->
    wk_lease_owner row = Some worker -> wk_lease_expires_at row = Some expires -> now < expires ->
    ends_lease op f -> row_moves op id row (f row).

Definition ids_below db : Prop := forall id row, db_work db !! id = Some row -> id < db_next_work db.

Lemma claim_effect locked now kind worker limit lease db :
  let op := OpClaim locked now kind worker limit lease in
  db_next_work (run op db) = db_next_work db /\ forall id,
  match db_work db !! id with
  | Some row => exists row', db_work (run op db) !! id = Some row' /\ row_moves op id row row'
  | None => db_work (run op db) !! id = None
  end.
Proof.
  cbv zeta. set (op := OpClaim locked now kind worker limit lease).
  assert (forall id, match db_work db !! id with
    | Some row => exists row', db_work db !! id = Some row' /\ row_moves op id row row'
    | None => db_work db !! id = None end) as Hsame.
  { intros id. destruct (db_work db !! id) as [row|] eqn:Hr; [|done]. exists row. split; [done|constructor]. }
  simpl. unfold claim_observation_work. do 4 (rewrite lift_bind_state; case_match; [|by split]).
  rewrite lift_bind_state. destruct (duration_millis _ _ _) as [ms|]; [|by split]. rewrite read_bind_state.
  destruct (claim_rows_lookup locked now kind limit db) as [Hnd Hin].
  set (rows := claim_rows locked now kind limit db) in *. split; [done|].
  match goal with |- forall id, match _ with Some row => exists row', db_work ?st !! id = _ /\ _ | None => _ end =>
    assert (db_work st = claim_all now ms worker rows (db_work db)) as -> by done end.
  apply (claim_all_ind (fun m => forall id, match db_work db !! id with
    | Some row => exists row', m !! id = Some row' /\ row_moves op id row row' | None => m !! id = None end));
    [done|intros p Hp; by apply Hin|done|].
  intros m p Hp Hm IH id. destruct p as [i row]. simpl in *. destruct (decide (i = id)) as [->|Hne].
  - destruct (Hin _ Hp) as [Hr Hc]. simpl in Hr. rewrite Hr, lookup_alter_eq, Hm. eexists. split; [done|].
    assert (locked id = false) as Hl by (unfold claimable in Hc; simpl in Hc; by destruct (locked id)).
    apply (claimable_row _ _ _ _ _ db) in Hc as (Hk & Hat & Hst). by eapply row_claimed.
  - specialize (IH id). by rewrite lookup_alter_ne.
Qed.

(** The steps that leave work alone. *)
Lemma other_effect op db : op_lease op = None ->
  match op with OpReceive _ _ | OpClaim _ _ _ _ _ _ => True
  | _ => db_work (run op db) = db_work db /\ db_next_work (run op db) = db_next_work db end.
Proof.
  assert (forall A (m : DbM A), preserves same_work m ->
    db_work (m db).2 = db_work db /\ db_next_work (m db).2 = db_next_work db) as Hp
    by (intros A m Hm; destruct (Hm db) as (? & ? & ?); done).
  destruct op; intros Hl; try done; simpl.
  - unfold lower_received. rewrite read_bind_state. destruct (db_facts db !! fact); [|done].
    do 2 (rewrite lift_bind_state; case_match; [|done]). done.
  - apply Hp. unfold commit_discovery_approval. auto 30 with stateful.
  - apply Hp. unfold set_discovery_mode. auto 30 with stateful.
  - apply Hp. unfold set_discovery_flow_per_minute. auto 30 with stateful.
  - apply Hp. unfold commit_window_finalization. auto 30 with stateful.
Qed.

Lemma work_effect op db : ids_below db ->
  (forall id row, db_work db !! id = Some row ->
     exists row', db_work (run op db) !! id = Some row' /\ row_moves op id row row') /\ ids_below (run op db).
Proof.
  intros Hids. destruct (op_lease op) as [[[now i] worker]|] eqn:Hl.
  - destruct (leased_effect op now i worker db Hl) as [->|(f & Hf & row0 & Hr & Hw & Hn & _)].
    { split; [|done]. intros id row Hr. exists row. split; [done|constructor]. }
    apply owned_row_Some in Hr as (Hr & Hs & Ho & e & He & Hlt). split.
    + intros id row Hrow. rewrite Hw. destruct (decide (i = id)) as [->|Hne].
      * rewrite lookup_alter_eq, Hrow. eexists. split; [done|]. rewrite Hr in Hrow. injection Hrow as <-.
        by eapply row_ends.
      * rewrite lookup_alter_ne by done. exists row. split; [done|constructor].
    + intros id row. rewrite Hn, Hw. destruct (decide (i = id)) as [->|Hne].
      * rewrite lookup_alter_eq, Hr. intros _. by apply (Hids id row0).
      * rewrite lookup_alter_ne by done. apply Hids.
  - destruct op; try discriminate Hl;
      try (match goal with |- context [run ?op db] =>
             destruct (other_effect op db Hl) as [Hw Hn]; unfold ids_below; rewrite Hw, Hn end;
           split; [intros id row Hr; exists row; split; [done|constructor]|exact Hids]).
    + split; simpl.
      * intros id row Hr. exists row. split; [|constructor]. rewrite lookup_insert_ne; [done|].
        intros <-. specialize (Hids _ _ Hr). lia.
      * intros id row. simpl. rewrite lookup_insert_Some. intros [[<- _]|[_ Hr]]; [lia|]. specialize (Hids _ _ Hr). lia.
    + destruct (claim_effect locked now kind worker limit lease_ms db) as [Hn Hc]. split.
      * intros id row Hr. specialize (Hc id). by rewrite Hr in Hc.
      * intros id row. rewrite Hn. specialize (Hc id). destruct (db_work db !! id) as [r|] eqn:Hr; [|by rewrite Hc].
        intros _. by apply (Hids id r).
Qed.
End Work.

(** What holds of work over every history: leases exclude, and every fact is
    counted once. *)
Section Theorems.
Context {J XE E : Type} `{EqDecision J}.
Context (row_not_found : XE).
Context `{SP : !SerdeJson PrefilterDefaults J E} `{SQ : !SerdeJson QualificationDefaults J E}
  `{SS : !SerdeJson MarketWindowSnapshot J E} `{SA : !SerdeJson QualificationAssessment J E}
  `{SW : !SerdeJson DiscoveryWindowSummary J E} `{ST : !SerdeJson DiscoveryToken J E}
  `{SO : !SerdeJson (NormalizedObservation J) J E}.
Implicit Types (db : DiscoveryDb J) (t : DiscoveryToken) (o : NormalizedObservation J) (op : DbOp J).
Abbreviation DbM := (stateful (DiscoveryDb J) (PersistenceError XE E)).
Abbreviation run := (run_op (E:=E) row_not_found).
Abbreviation reachable := (reachable (E:=E) row_not_found).

(** Histories, one step at a time. *)
Lemma run_ops_snoc ops op :
  run_ops (E:=E) row_not_found (ops ++ [op]) =
  let st := run_ops (E:=E) row_not_found ops in
  (run op st.1, st.2 ++ option_list (committed (E:=E) row_not_found op st.1)).
Proof. unfold run_ops. by rewrite foldl_snoc. Qed.
Lemma run_ops_ids ops : ids_below (run_ops (E:=E) row_not_found ops).1.
Proof.
  induction ops as [|op ops IH] using rev_ind; [by intros id row|].
  rewrite run_ops_snoc. simpl. by apply work_effect.
Qed.

(** C18: Leases exclude.  After any history, whatever a transaction does, a
    queued item moves only in these ways: a worker claims it, because it is
    pending and due or because its lease has run out; or the worker that holds
    its lease, before the lease runs out, extends the lease, completes the item,
    fails it or returns it to the queue.  So a leased item is untouched by every
    other worker and every other transaction, and a finished item never moves
    again. *)
Theorem leases_exclude ops op id row :
  let db := (run_ops (E:=E) row_not_found ops).1 in
  db_work db !! id = Some row ->
  exists row', db_work (run op db) !! id = Some row' /\ row_moves op id row row' /\
    (wk_status row = WorkComplete \/ wk_status row = WorkFailed -> row' = row).
Proof.
  intros db Hr. destruct (work_effect row_not_found op db (run_ops_ids ops)) as [Hw _].
  destruct (Hw id row Hr) as (row' & Hr' & Hm). exists row'. split; [done|]. split; [done|].
  intros Hs. destruct Hm as [|? ? ? ? ? ? ? ? ? ? ? Hst|? ? ? ? ? Hst]; [done| |].
  - destruct Hst as [[Hst _]|[Hst _]]; rewrite Hst in Hs; by destruct Hs.
  - rewrite Hst in Hs. by destruct Hs.
Qed.

(** ** Counting each fact once *)
Lemma apply_activity_effect o db act db' :
  apply_observation_activity (E:=E) row_not_found o db = (Ok act, db') ->
  db_activity db' = alter (count_observation o) (activity_key o) (with_row (activity_key o) (db_activity db)) /\
  db_traders db' = match payload o with
                   | Trade _ w _ _ _ _ => {[ (activity_key o, w) ]} ∪ db_traders db | _ => db_traders db end.
Proof.
  intros H0. unfold apply_observation_activity in H0. set (k := activity_key o) in *.
  step H0 ([] & db1 & H1 & H0). injection H1 as H1. fold (with_row k (db_activity db)) in H1.
  step H0 ([] & db2 & H2 & H0).
  assert (db_activity db2 = alter (count_observation o) k (with_row k (db_activity db)) /\
    db_traders db2 = match payload o with
                     | Trade _ w _ _ _ _ => {[ (k, w) ]} ∪ db_traders db | _ => db_traders db end) as [E1 E2].
  { assert (forall m, alter (fun r : ActivityRow => r) k m = m) as Hid by (intros m; by apply alter_id).
    unfold count_observation. destruct (payload o) as [| |side w base quote br qr| | | |];
      try (injection H2 as <-; subst db1; by rewrite Hid).
    step H2 ([] & db3 & H3 & H2). injection H3 as _ <-. step H2 ([] & db3 & H3 & H2). injection H3 as <-.
    injection H2 as <-. by subst db1. }
  rewrite <- E1, <- E2. step H0 (found & db3 & Hf & H0). injection Hf as _ <-.
  step H0 ([row unique] & db3 & Hu & H0). injection Hu as _ <-.
  do 4 (step H0 (? & db3 & Hu & H0); injection Hu as _ <-). injection H0 as _ <-. done.
Qed.

Lemma activity_effect op db :
  match committed (E:=E) row_not_found op db with
  | Some (id, o) =>
      (exists row, db_work db !! id = Some row /\ wk_status row = WorkProcessing) /\
      (exists row, db_work (run op db) !! id = Some row /\ wk_status row = WorkComplete) /\
      db_activity (run op db) = alter (count_observation o) (activity_key o) (with_row (activity_key o) (db_activity db)) /\
      db_traders (run op db) = match payload o with
        | Trade _ w _ _ _ _ => {[ (activity_key o, w) ]} ∪ db_traders db | _ => db_traders db end
  | None => same_activity db (run op db)
  end.
Proof.
  assert (forall A (m : DbM A), preserves same_activity m -> same_activity db (m db).2) as Hp
    by (intros A m Hm; apply Hm).
  destruct op; simpl.
  - by split.
  - apply Hp. unfold lower_received. auto 20 with stateful.
  - apply Hp. unfold claim_observation_work. auto 30 with stateful.
  - apply Hp. unfold renew_observation_work_lease. auto 20 with stateful.
  - apply Hp. unfold complete_observation_work, lock_owned_work, mark_work_complete. auto 30 with stateful.
  - apply Hp. unfold retry_or_fail_observation_work, lock_owned_work, record_terminal_discovery_failure.
    auto 40 with stateful.
  - destruct (commit_discovery_observation _ _ _ _ _ _) as [[m|e] db'] eqn:Hc; simpl.
    + apply observation_effect in Hc as (work & act & db1 & db2 & Hw & Ha & [A1 T1] & [A2 T2] & row & Hr & Hwork & _).
      rewrite Hw. apply apply_activity_effect in Ha as [E1 E2].
      apply owned_row_Some in Hr as (Hr & Hs & _). split_and!; [by exists row| |by rewrite A2, E1, A1|by rewrite T2, E2, T1].
      exists (complete_row now row). by rewrite Hwork, lookup_alter_eq, Hr.
    + revert Hc. unfold commit_discovery_observation.
      do 5 (rewrite lift_bind_state; case_match; [|by intros [= _ <-]]).
      match goal with |- transaction ?b db = _ -> _ => destruct (transaction_inv b db) as [Ht|(? & st' & _ & Ht)] end;
        intros Hc; rewrite Hc in Ht; [by rewrite <- Ht|discriminate Ht].
  - apply Hp. unfold commit_discovery_rejection, lock_owned_work, mark_work_complete, upsert_rejection_summary.
    auto 40 with stateful.
  - apply Hp. unfold commit_discovery_approval. auto 30 with stateful.
  - apply Hp. unfold set_discovery_mode. auto 30 with stateful.
  - apply Hp. unfold set_discovery_flow_per_minute. auto 30 with stateful.
  - by split.
  - apply Hp. unfold commit_window_finalization. auto 30 with stateful.
  - by split.
Qed.

(** What a history has counted is what its tables hold. *)
Record counted_ok (db : DiscoveryDb J) (log : list (Z * NormalizedObservation J)) : Prop := {
  co_once : NoDup log.*1;
  co_complete id : id ∈ log.*1 -> exists row, db_work db !! id = Some row /\ wk_status row = WorkComplete;
  co_activity k : db_activity db !! k = activity_of (List.filter (fun o => bool_decide (activity_key o = k)) log.*2);
  co_traders k w : (k, w) ∈ db_traders db <-> existsb (trades_by k w) log.*2 = true;
}.

Lemma activity_of_snoc (l : list (NormalizedObservation J)) o :
  activity_of (l ++ [o]) = Some (count_observation o (default activity_default (activity_of l))).
Proof. destruct l as [|x l]; [done|]. simpl. by rewrite foldl_snoc. Qed.

Lemma count_one_more k o (l : list (NormalizedObservation J)) activity :
  activity !! k = activity_of (List.filter (fun o => bool_decide (activity_key o = k)) l) ->
  alter (count_observation o) (activity_key o) (with_row (activity_key o) activity) !! k =
  activity_of (List.filter (fun o => bool_decide (activity_key o = k)) (l ++ [o])).
Proof.
  intros Hk. rewrite List.filter_app. simpl. case_bool_decide as Hkey.
  - rewrite activity_of_snoc, <- Hk, Hkey, lookup_alter_eq. unfold with_row.
    destruct (activity !! k) as [r|] eqn:Hr; [by rewrite Hr|by rewrite lookup_insert_eq].
  - rewrite app_nil_r, <- Hk, lookup_alter_ne by done. unfold with_row.
    destruct (activity !! activity_key o); [done|]. by rewrite lookup_insert_ne.
Qed.
Lemma one_more_trader k w o (l : list (NormalizedObservation J)) traders :
  ((k, w) ∈ traders <-> existsb (trades_by k w) l = true) ->
  (k, w) ∈ (match payload o with
            | Trade _ w' _ _ _ _ => {[ (activity_key o, w') ]} ∪ traders | _ => traders
            end : gset (ActivityKey * string)) <->
  existsb (trades_by k w) (l ++ [o]) = true.
Proof.
  intros Hk. rewrite existsb_app, orb_true_iff, <- Hk. simpl. rewrite orb_false_r. unfold trades_by.
  destruct (payload o); rewrite ?andb_false_r; try (split; [by left|by intros [?|?]]).
  rewrite elem_of_union, elem_of_singleton, andb_true_iff, bool_decide_eq_true, String.eqb_eq, pair_equal_spec.
  split; [intros [[-> ->]|?]; auto|intros [?|[-> ->]]; auto].
Qed.

Lemma history_counted ops :
  let st := run_ops (E:=E) row_not_found ops in counted_ok st.1 st.2.
Proof.
  induction ops as [|op ops IH] using rev_ind; [split; [constructor|by intros id ?%elem_of_nil|done|done]|].
  rewrite run_ops_snoc. cbv zeta in *. pose proof (run_ops_ids ops) as Hids.
  destruct (run_ops _ ops) as [db log]. simpl in *. destruct IH as [H1 H2 H3 H4].
  destruct (work_effect row_not_found op db Hids) as [Hw _].
  assert (forall id, id ∈ log.*1 ->
    exists row, db_work (run op db) !! id = Some row /\ wk_status row = WorkComplete) as H2'.
  { intros id Hid. destruct (H2 id Hid) as (row & Hr & Hs). destruct (Hw id row Hr) as (row' & Hr' & Hm).
    exists row'. split; [done|]. destruct Hm as [|? ? ? ? ? ? ? ? ? ? ? Hst|? ? ? ? ? Hst]; [done| |congruence].
    destruct Hst as [[Hst _]|[Hst _]]; congruence. }
  pose proof (activity_effect op db) as He. destruct (committed _ op db) as [[id o]|]; simpl.
  - destruct He as ((row & Hr & Hs) & Hdone & Ea & Et). split; rewrite ?fmap_app; simpl.
    + apply NoDup_app. split; [done|]. split; [|by apply NoDup_singleton].
      intros i Hi Hin. apply list_elem_of_singleton in Hin as ->. destruct (H2 id Hi) as (r & Hr' & Hs'). congruence.
    + intros i [Hi| ->%list_elem_of_singleton]%elem_of_app; [by apply H2'|done].
    + intros k. rewrite Ea. by apply count_one_more.
    + intros k w. rewrite Et. by apply one_more_trader.
  - destruct He as [Ea Et]. rewrite app_nil_r. split; [done|done|by rewrite Ea|by rewrite Et].
Qed.

(** C19: Every fact is counted once.  Along any history, whatever is retried,
    reclaimed or repeated, the commits of observations that succeed are of
    distinct work items, and the stored activity of each market is exactly the
    sum over the facts of those commits: its trades, buys, sells and volumes are
    theirs, and its traders are the wallets of their trades. *)
Theorem facts_counted_once ops :
  let '(db, log) := run_ops (E:=E) row_not_found ops in
  NoDup log.*1 /\
  (forall id, id ∈ log.*1 -> exists row, db_work db !! id = Some row /\ wk_status row = WorkComplete) /\
  (forall k, db_activity db !! k = activity_of (List.filter (fun o => bool_decide (activity_key o = k)) log.*2)) /\
  (forall k w, (k, w) ∈ db_traders db <-> existsb (trades_by k w) log.*2 = true).
Proof.
  pose proof (history_counted ops) as Hc. destruct (run_ops _ ops) as [db log]. by destruct Hc.
Qed.
End Theorems.
