(* ===== verification/DiscoveryDbReads.v ===== *)
(** What holds of the candidates over every history: the counters are those of
    the tables, and a snapshot loads unless a candidate was evaluated before its
    window opened. *)
From S2P Require Import Prelude.
From S2P Require Import ListFacts.
From S2P Require Import Stateful.
From S2P Require Import RustOrd.
From S2P Require Import RustStr.
From S2P Require Import Domain.
From S2P Require Import External.
From S2P Require Import SnapshotArith.
From S2P Require Import Snapshot.
From S2P Require Import Qualification.
From S2P Require Import WindowToken.
From S2P Require Import ApiContracts.
From S2P Require Import PersistenceModel.
From S2P Require Import Finalization.
From S2P Require Import FinalizeTx.
From S2P Require Import Store.
From S2P Require Import FinalizationProofs.
From S2P Require Import FinalizationTheorems.
From S2P Require Import DiscoveryValidation.
From S2P Require Import DiscoveryDb.
From S2P Require Import DiscoveryDbProofs.
From S2P Require Import DiscoveryDbOps.
From S2P Require Import DiscoveryDbHistory.
From S2P Require Import DiscoveryDbTheorems.

(** A computation over a list whose every step succeeds, or fails in one way. *)
Lemma map_result_guarded {X Y A B C} (g : C -> A) (f : A -> result (PersistenceError X Y) B) (p : B -> bool) e l bs :
  Forall2 (fun c b => f (g c) = if p b then Ok b else Err e) l bs ->
  map_result f (g <$> l) = if forallb p bs then Ok bs else Err e.
Proof.
  induction 1 as [|c b l bs Hb _ IH]; csimpl; [done|]. rewrite Hb. destruct (p b); [|done].
  cbn [mbind result_bind andb]. rewrite IH. by destruct (forallb p bs).
Qed.
Lemma Forall2_choice {A B} (R : A -> B -> Prop) l : (forall a, a ∈ l -> exists b, R a b) -> exists bs, Forall2 R l bs.
Proof.
  induction l as [|a l IH]; intros Hf; [by exists []|]. destruct (Hf a) as [b Hb]; [by left|].
  destruct IH as [bs Hbs]; [intros x Hx; apply Hf; by right|]. exists (b :: bs). by constructor.
Qed.
Lemma Forall2_map_eq {A B C} (f : A -> C) (g : B -> C) (R : A -> B -> Prop) l k :
  (forall a b, R a b -> g b = f a) -> Forall2 R l k -> g <$> k = f <$> l.
Proof. intros Hf. induction 1 as [|a b l k HR _ IH]; csimpl; [done|]. by rewrite IH, (Hf a b HR). Qed.

(** A prefix of a list sorted by a number. *)
Lemma sorted_numbers {A B} (f : A -> Z) (g : B -> Z) (R : A -> B -> Prop) (l : list A) (k : list B) :
  (forall a b, R a b -> g b = f a) -> Forall2 R l k ->
  StronglySorted (fun x y => f y <= f x) l -> StronglySorted (fun x y => g y <= g x) k.
Proof.
  intros Hf HR. induction HR as [|a b l k Hab HR IH]; intros Hs; [constructor|].
  apply StronglySorted_inv in Hs as [Hs Ha]. constructor; [by apply IH|].
  clear IH Hs. induction HR as [|a' b' l k Hab' HR IH]; [constructor|]. apply Forall_cons in Ha as [Ha Hl].
  constructor; [|by apply IH]. by rewrite (Hf _ _ Hab), (Hf _ _ Hab').
Qed.
Lemma StronglySorted_take {A} (R : A -> A -> Prop) l n : StronglySorted R l -> StronglySorted R (take n l).
Proof.
  intros Hs. revert n. induction Hs as [|x l Hs IH Hx]; intros [|n]; simpl; try constructor; [by apply IH|].
  by apply Forall_take.
Qed.

Section Reads.
Context {J XE E : Type} `{EqDecision J}.
Context (row_not_found : XE).
Context `{SP : !SerdeJson PrefilterDefaults J E} `{SQ : !SerdeJson QualificationDefaults J E}
  `{SS : !SerdeJson MarketWindowSnapshot J E} `{SA : !SerdeJson QualificationAssessment J E}
  `{SW : !SerdeJson DiscoveryWindowSummary J E} `{ST : !SerdeJson DiscoveryToken J E}
  `{SO : !SerdeJson (NormalizedObservation J) J E}.
Context (tlaws : SerdeLaws ST) (olaws : SerdeLaws SO).
Implicit Types (db : DiscoveryDb J) (t : DiscoveryToken) (op : DbOp J).
Abbreviation run := (run_op (E:=E) row_not_found).
Abbreviation reachable := (reachable (E:=E) row_not_found).

Lemma to_u64_Ok n field : 0 <= n -> n <= 2 ^ 63 -> to_u64 (XE:=XE) (JE:=E) n field = Ok n.
Proof.
  intros H0 H1. unfold to_u64. by rewrite (proj2 (try_from_u_Some 64 n n)) by (split; [done|int_lia]).
Qed.

(** The state after a repair. *)
Definition repaired (windows : WindowCounts) (s : ProjectionState) : ProjectionState := {|
  st_sequence := st_sequence s + 1; st_mode := st_mode s; st_observed := st_observed s;
  st_queued_facts := st_queued_facts s; st_qualified := st_qualified s;
  st_qualification_pending := wc_active windows; st_qualification_rejected := wc_rejected windows;
  st_qualification_unknown := wc_unknown windows; st_processing_failures := st_processing_failures s;
  st_approved := st_approved s; st_flow_per_minute := st_flow_per_minute s |}.

(** C20: The counters never drift.  After any history the maintained counters are
    the counts of the tables: the candidates, the queued facts, the qualified
    and the approved candidates, and the failures; so the repair that recounts
    them all changes none of them, and never fails while the sequence is that of
    its column. *)
Theorem counters_never_drift db windows : reachable db ->
  let s := db_projection db in
  st_observed s = Z.of_nat (size (db_tokens db)) /\ st_queued_facts s = count_queued db /\
  st_qualified s = count_tokens_in ["QUALIFIED"; "APPROVED"]%string db /\
  st_approved s = count_tokens_in ["APPROVED"]%string db /\ st_processing_failures s = sum_failures db /\
  (st_sequence s < 2 ^ 63 ->
   exists db', rebuild_discovery_projection (XE:=XE) (E:=E) windows db = (Ok (st_sequence s + 1), db') /\
     db_projection db' = repaired windows s /\ db_tokens db' = db_tokens db /\ db_work db' = db_work db).
Proof.
  intros Hr. apply history_ok in Hr as [_ _ _ _ [F1 F2 F3 F4 F5] [G1 _ _ _ _ _] _ _ _]; [|done..].
  cbv zeta. split_and!; try done. intros Hs.
  exists (publish_projection (rebuilt_state windows db) "DISCOVERY_REBUILT" db). split; [|split; [|by split]].
  - transitivity (to_u64 (XE:=XE) (JE:=E) (st_sequence (db_projection db) + 1) "discovery_projection_state.sequence",
      publish_projection (rebuilt_state windows db) "DISCOVERY_REBUILT" db); [done|].
    rewrite to_u64_Ok; [done|lia|lia].
  - simpl. unfold rebuilt_state, repaired. rewrite F1, F2, F3, F4, F5. done.
Qed.

(** ** Snapshots *)

(** Every number is that of a [BIGINT] column. *)
Record projection_fits (db : DiscoveryDb J) : Prop := {
  pf_sequence : st_sequence (db_projection db) < 2 ^ 63;
  pf_observed : st_observed (db_projection db) < 2 ^ 63;
  pf_queued : st_queued_facts (db_projection db) < 2 ^ 63;
  pf_pending : st_qualification_pending (db_projection db) < 2 ^ 63;
  pf_rejected : st_qualification_rejected (db_projection db) < 2 ^ 63;
  pf_unknown : st_qualification_unknown (db_projection db) < 2 ^ 63;
  pf_failures : st_processing_failures (db_projection db) < 2 ^ 63;
  pf_flow f : st_flow_per_minute (db_projection db) = Some f -> f < 2 ^ 63;
  pf_reasons reason p : db_rejections db !! reason = Some p -> p.1 < 2 ^ 63;
}.
Definition mode_of (s : ProjectionState) : DiscoveryMode :=
  if String.eqb (st_mode s) "QUALIFIED_ONLY" then QualifiedOnly
  else if String.eqb (st_mode s) "APPROVED_ONLY" then ApprovedOnly else ObserveAll.
Definition visible_tokens db : list (string * TokenRow J) :=
  List.filter (fun p => row_visible (mode_of (db_projection db)) p.2) (map_to_list (db_tokens db)).


(** The candidates of a snapshot, newest first. *)
Definition snapshot_pairs mode limit db : list (string * TokenRow J) :=
  take (Z.to_nat limit)
    (sort_by (fun p q : string * TokenRow J => cmp (- tk_observed_slot p.2, p.1) (- tk_observed_slot q.2, q.1))
       (List.filter (fun p => row_visible mode p.2) (map_to_list (db_tokens db)))).

Lemma snapshot_pairs_facts mode limit db :
  NoDup (snapshot_pairs mode limit db).*1 /\
  (forall p, p ∈ snapshot_pairs mode limit db -> db_tokens db !! p.1 = Some p.2 /\ row_visible mode p.2 = true) /\
  StronglySorted (fun p q => tk_observed_slot q.2 <= tk_observed_slot p.2) (snapshot_pairs mode limit db) /\
  snapshot_rows mode limit db = (snapshot_pairs mode limit db).*2.
Proof.
  unfold snapshot_pairs, snapshot_rows. set (l := List.filter _ _). split_and!.
  - eapply sublist_NoDup; [|apply fmap_sublist, sublist_take]. rewrite sort_by_perm.
    eapply sublist_NoDup; [apply (NoDup_fst_map_to_list (db_tokens db))|]. apply fmap_sublist, filter_sublist.
  - intros p (i & Hi & _)%elem_of_take. apply list_elem_of_lookup_2 in Hi.
    rewrite sort_by_perm in Hi. apply list_elem_of_In, filter_In in Hi as [Hi Hc].
    split; [|done]. apply list_elem_of_In in Hi. destruct p as [id r]. by apply elem_of_map_to_list in Hi.
  - apply StronglySorted_take. pose proof (sort_by_sorted (fun p : string * TokenRow J => (- tk_observed_slot p.2, p.1)) l) as Hs.
    unfold key_cmp in Hs. induction Hs as [|x k Hs IH Hx]; constructor; [done|].
    eapply Forall_impl; [exact Hx|]. intros y Hy. unfold key_le in Hy. simpl in Hy.
    destruct (Z.compare_spec (- tk_observed_slot x.2) (- tk_observed_slot y.2)) as [He|He|He]; simpl in Hy; [lia|lia|done].
  - by rewrite fmap_take.
Qed.

(** A visible candidate loads, unless it was evaluated before its window opened. *)
Lemma load_snapshot_token_eq mode mint row t :
  token_row_ok (E:=E) (timely:=false) mint row t -> row_visible mode row = true ->
  load_snapshot_token (XE:=XE) (E:=E) mode (tk_token row) = if token_in_time t then Ok t else Err PeInvalidActivityTotals.
Proof.
  intros Hr Hv. unfold load_snapshot_token. unfold decode_json at 1. rewrite (tr_decodes _ _ _ Hr). cbn [map_err mbind result_bind].
  destruct (token_in_time t) eqn:Ht.
  2:{ by rewrite (validate_token_late t (tr_shape _ _ _ Hr) Ht). }
  rewrite (proj2 (validate_token_shape_Ok t) (token_ok_in_time _ (tr_shape _ _ _ Hr) Ht)). cbn [mbind result_bind].
  assert (match mode with
          | ObserveAll => false
          | QualifiedOnly => negb (decided_stage (dt_stage t))
          | ApprovedOnly => negb (bool_decide (dt_stage t = Approved)) end = false) as ->; [|done].
  unfold row_visible in Hv. rewrite (tr_stage _ _ _ Hr) in Hv. by destruct mode, (dt_stage t).
Qed.

Lemma rejections_load db : db_ok (E:=E) (timely:=false) db -> projection_fits db ->
  exists rs, map_result (load_rejection (XE:=XE) (E:=E)) (rejection_rows db) = Ok rs.
Proof.
  intros Hok Hfit. rewrite <- (list_fmap_id (rejection_rows db)).
  destruct (Forall2_choice (fun p r => load_rejection (XE:=XE) (E:=E) (id p) = Ok r)
    (rejection_rows db)) as (rs & Hrs).
  - intros [reason [count last]] Hin. unfold rejection_rows in Hin. rewrite sort_by_perm in Hin.
    apply elem_of_map_to_list in Hin. pose proof (db_rejections_ok _ Hok _ _ Hin) as H1.
    pose proof (pf_reasons _ Hfit _ _ Hin) as H2. simpl in *. unfold load_rejection. simpl.
    rewrite to_u64_Ok by lia. by eexists.
  - exists rs. rewrite (map_result_guarded id _ (fun _ => true) PeInvalidActivityTotals _ rs Hrs).
    by rewrite (proj2 (forallb_forall _ rs)).
Qed.

Lemma counters_load db : db_ok (E:=E) (timely:=false) db -> projection_fits db ->
  exists c, load_counters (XE:=XE) (E:=E) (db_projection db) = Ok c.
Proof.
  intros [_ _ _ _ [F1 F2 F3 F4 F5] [G1 _ G3 G4 G5 G6] Hf _ _] [P1 P2 P3 P4 P5 P6 P7 P8 _]. unfold load_counters.
  pose proof (map_count_nonneg is_qualified (db_tokens db)) as Nq. pose proof (map_count_nonneg is_approved (db_tokens db)) as Na.
  pose proof (map_count_nonneg work_is_queued (db_work db)) as Nw.
  pose proof (map_count_size is_qualified (db_tokens db)) as Sq. pose proof (map_count_size is_approved (db_tokens db)) as Sa.
  assert (0 <= sum_failures db) as Ns.
  { apply map_sum_nonneg. intros k p Hp. specialize (Hf k p Hp). lia. }
  unfold count_queued in F2.
  repeat (rewrite to_u64_Ok by lia; cbn [mbind result_bind]).
  destruct (st_flow_per_minute (db_projection db)) as [f|] eqn:Ef; [|by eexists].
  specialize (G6 f eq_refl). specialize (P8 f eq_refl). rewrite to_u64_Ok by lia. by eexists.
Qed.

Lemma mode_parses db : db_ok (E:=E) (timely:=false) db ->
  parse_discovery_mode (XE:=XE) (E:=E) (st_mode (db_projection db)) = Ok (mode_of (db_projection db)).
Proof.
  intros Hok. destruct (so_mode _ (db_state_ok _ Hok)) as [m Hm]. unfold mode_of. rewrite Hm. by destruct m.
Qed.

Lemma visible_total db : db_ok (E:=E) (timely:=false) db ->
  match mode_of (db_projection db) with
  | ObserveAll => st_observed (db_projection db)
  | QualifiedOnly => st_qualified (db_projection db)
  | ApprovedOnly => st_approved (db_projection db)
  end = Z.of_nat (length (visible_tokens db)).
Proof.
  intros [_ _ _ _ [F1 F2 F3 F4 F5] _ _ _ _]. unfold visible_tokens.
  destruct (mode_of (db_projection db)); rewrite map_count_length.
  - unfold map_count. simpl. by rewrite map_sum_size.
  - rewrite F3. apply map_sum_ext. intros k r _. unfold is_qualified, stage_in. simpl. by rewrite orb_false_r.
  - rewrite F4. apply map_sum_ext. intros k r _. unfold is_approved, stage_in. simpl. by rewrite orb_false_r.
Qed.

(** The candidates of a snapshot decode. *)
Lemma snapshot_tokens_decode db limit : db_ok (E:=E) (timely:=false) db -> 1 <= limit ->
  let mode := mode_of (db_projection db) in
  exists tokens,
    Forall2 (fun row t => from_value (E:=E) (tk_token row) = Ok t) (snapshot_rows mode limit db) tokens /\
    map_result (fun r => load_snapshot_token (XE:=XE) (E:=E) mode (tk_token r)) (snapshot_rows mode limit db) =
      (if forallb token_in_time tokens then Ok tokens else Err PeInvalidActivityTotals) /\
    Z.of_nat (length tokens) = Z.min limit (Z.of_nat (length (visible_tokens db))) /\
    (forall t, t ∈ tokens -> (token_in_time t = true -> token_shape t) /\
       exists row, db_tokens db !! dt_mint t = Some row /\ from_value (E:=E) (tk_token row) = Ok t /\
         row_visible mode row = true) /\
    NoDup (dt_mint <$> tokens) /\
    StronglySorted (fun t u => dt_observed_slot u <= dt_observed_slot t) tokens.
Proof.
  intros Hok Hlo mode. destruct (snapshot_pairs_facts mode limit db) as (Hnd & Hin & Hsorted & ->).
  destruct (Forall2_choice
    (fun p t => db_tokens db !! p.1 = Some p.2 /\ row_visible mode p.2 = true /\
                token_row_ok (E:=E) (timely:=false) p.1 p.2 t)
    (snapshot_pairs mode limit db)) as (tokens & Hrel).
  { intros [mint row] Hp. destruct (Hin _ Hp) as [Hrow Hv]. destruct (db_tokens_ok _ Hok _ _ Hrow) as [t Ht]. by exists t. }
  exists tokens. split_and!.
  - apply Forall2_fmap_l. eapply Forall2_impl; [exact Hrel|]. intros p t (_ & _ & Ht). apply Ht.
  - apply (map_result_guarded snd). eapply Forall2_impl; [exact Hrel|]. intros p t (_ & Hv & Ht).
    by eapply load_snapshot_token_eq.
  - rewrite <- (Forall2_length _ _ _ Hrel). unfold snapshot_pairs. rewrite length_take, sort_by_length.
    change (List.filter _ _) with (visible_tokens db). lia.
  - intros t Ht. apply list_elem_of_lookup in Ht as [i Hi].
    destruct (Forall2_lookup_r _ _ _ _ _ Hrel Hi) as ([mint row] & _ & Hrow & Hv & Htr). simpl in *.
    split; [apply token_ok_in_time, Htr|]. exists row. rewrite (tr_mint _ _ _ Htr). split; [done|]. split; [apply Htr|done].
  - erewrite (Forall2_map_eq fst dt_mint); [exact Hnd| |exact Hrel]. intros p t (_ & _ & Htr). apply Htr.
  - eapply (sorted_numbers (fun p : string * TokenRow J => tk_observed_slot p.2) dt_observed_slot);
      [|exact Hrel|exact Hsorted]. intros p t (_ & _ & Htr). by rewrite (tr_slot _ _ _ Htr).
Qed.

(** A candidate stored by a history in time is in time. *)
Lemma stored_in_time db mint row t : reachable_in_time (E:=E) row_not_found db ->
  db_tokens db !! mint = Some row -> from_value (E:=E) (tk_token row) = Ok t -> token_in_time t = true.
Proof.
  intros Hr Hrow Hd. apply history_in_time_ok in Hr as Hok; [|done..].
  destruct (db_tokens_ok _ Hok _ _ Hrow) as [t' Ht]. pose proof (tr_decodes _ _ _ Ht) as Hd'.
  rewrite Hd in Hd'. injection Hd' as <-. apply token_ok_is_in_time, Ht.
Qed.

(** C21: When a snapshot loads, and what it holds.  After any history of the tables
    whose inputs have the values of their types ([op_allowed]), with codecs that
    round-trip, numbers within their columns and a limit in range, every candidate of the
    snapshot decodes, and it passes the validation of candidates if its
    qualification, where it has one, was not evaluated before its window opened.
    If that holds of each of them the snapshot loads: its total is the number of
    candidates visible in the projection's mode, it holds as many of them as the
    limit allows and says whether some were left out; each is a stored visible
    candidate, none is repeated, and they come newest slot first.  If it fails of
    one of them, the read fails with the error of the activity totals.  In a history
    that finalizes no window before it opened it holds of all, so a snapshot always
    loads; the code compares the time of a finalization only for complete
    windows. *)
Theorem snapshots_load_in_time db limit :
  reachable db -> projection_fits db -> 1 <= limit <= MAX_DISCOVERY_SNAPSHOT_LIMIT ->
  exists tokens snap,
    Forall2 (fun row t => from_value (E:=E) (tk_token row) = Ok t)
      (snapshot_rows (mode_of (db_projection db)) limit db) tokens /\
    load_discovery_snapshot_bounded (XE:=XE) (E:=E) limit db =
      (if forallb token_in_time tokens then Ok snap else Err PeInvalidActivityTotals, db) /\
    (reachable_in_time (E:=E) row_not_found db -> forallb token_in_time tokens = true) /\
    ds_tokens snap = tokens /\ ds_mode snap = mode_of (db_projection db) /\
    ds_tokens_total snap = Z.of_nat (length (visible_tokens db)) /\
    Z.of_nat (length (ds_tokens snap)) = Z.min limit (ds_tokens_total snap) /\
    ds_tokens_truncated snap = (ds_tokens_total snap >? limit) /\
    (forall t, t ∈ ds_tokens snap -> (token_in_time t = true -> token_shape t) /\
       exists row, db_tokens db !! dt_mint t = Some row /\ from_value (E:=E) (tk_token row) = Ok t /\
         row_visible (mode_of (db_projection db)) row = true) /\
    NoDup (dt_mint <$> ds_tokens snap) /\
    StronglySorted (fun t u => dt_observed_slot u <= dt_observed_slot t) (ds_tokens snap).
Proof.
  intros Hr Hfit [Hlo Hhi]. apply history_ok in Hr as Hok; [|done..].
  destruct (snapshot_tokens_decode db limit Hok Hlo) as (tokens & Hdec & Htokens & Hlen & Hrest).
  destruct (rejections_load db Hok Hfit) as [rs Hrs]. destruct (counters_load db Hok Hfit) as [c Hc].
  pose proof (visible_total db Hok) as Htotal. set (total := Z.of_nat (length (visible_tokens db))) in *.
  assert (0 <= total <= 2 ^ 63) as [Hp1 Hp2].
  { split; [lia|]. assert (total <= Z.of_nat (size (db_tokens db))) as Hle.
    { unfold total, visible_tokens. rewrite map_count_length. apply map_count_size. }
    pose proof (ct_observed _ (db_counters_ok _ Hok)). pose proof (pf_observed _ Hfit). lia. }
  exists tokens. eexists. split; [exact Hdec|]. split; [|split; [|split; [|split; [|split; [|split; [|split]]]]]].
  - unfold load_discovery_snapshot_bounded. rewrite lift_bind_state.
    rewrite (proj2 (guard_err_Ok _ _)) by (apply Z.eqb_neq; lia). rewrite lift_bind_state.
    rewrite (proj2 (guard_err_Ok _ _)) by by apply gtb_false. rewrite read_bind_state.
    unfold snapshot_of_db. rewrite (mode_parses db Hok). cbn [mbind result_bind].
    rewrite Htokens. destruct (forallb token_in_time tokens); [|done]. cbn [mbind result_bind]. rewrite Hrs. cbn [mbind result_bind].
    rewrite Htotal, (to_u64_Ok total) by done. cbn [mbind result_bind].
    rewrite to_u64_Ok by (pose proof (so_sequence_nonneg _ (db_state_ok _ Hok)); pose proof (pf_sequence _ Hfit); lia).
    cbn [mbind result_bind]. rewrite Hc. reflexivity.
  - intros Ht. apply forallb_forall. intros t Hin%list_elem_of_In.
    destruct (proj1 Hrest t Hin) as (_ & row & Hrow & Hd & _). by eapply stored_in_time.
  - done.
  - done.
  - done.
  - done.
  - cbn [ds_tokens_truncated ds_tokens_total]. rewrite Hlen.
    destruct (total >? limit) eqn:Hgt; [apply gtb_true|apply gtb_false]; bprop; lia.
  - exact Hrest.
Qed.
End Reads.
