(* ===== verification/DiscoveryDbApproval.v ===== *)
(** Only an approval approves a candidate: every other step changes at most one
    candidate and never raises the counter of approved ones. *)
From S2P Require Import Prelude.
From S2P Require Import ListFacts.
From S2P Require Import Stateful.
From S2P Require Import RustOrd.
From S2P Require Import RustStr.
From S2P Require Import Domain.
From S2P Require Import External.
From S2P Require Import SnapshotArith.
From S2P Require Import Snapshot.
From S2P Require Import Qualification.
From S2P Require Import WindowToken.
From S2P Require Import ApiContracts.
From S2P Require Import PersistenceModel.
From S2P Require Import Finalization.
From S2P Require Import FinalizeTx.
From S2P Require Import Store.
From S2P Require Import FinalizationProofs.
From S2P Require Import FinalizationTheorems.
From S2P Require Import DiscoveryValidation.
From S2P Require Import DiscoveryDb.
From S2P Require Import DiscoveryDbProofs.
From S2P Require Import DiscoveryDbOps.
From S2P Require Import DiscoveryDbHistory.
From S2P Require Import DiscoveryDbTheorems.

(** All candidates but one stay. *)
Definition but_token {J} (mint : string) (db db' : DiscoveryDb J) : Prop :=
  delete mint (db_tokens db') = delete mint (db_tokens db).
#[export] Instance but_token_refl {J} mint : Reflexive (but_token (J:=J) mint).
Proof. by intros db. Qed.
#[export] Instance but_token_trans {J} mint : Transitive (but_token (J:=J) mint).
Proof. intros a b c Hab Hbc. unfold but_token in *. congruence. Qed.

Lemma delete_alter {K A} `{Countable K} (f : A -> A) k (m : gmap K A) : delete k (alter f k m) = delete k m.
Proof.
  apply map_eq. intros j. destruct (decide (k = j)) as [->|Hne]; [by rewrite !lookup_delete_eq|].
  by rewrite !lookup_delete_ne, lookup_alter_ne.
Qed.

Section Approval.
Context {J XE E : Type} `{EqDecision J}.
Context (row_not_found : XE).
Context `{SP : !SerdeJson PrefilterDefaults J E} `{SQ : !SerdeJson QualificationDefaults J E}
  `{SS : !SerdeJson MarketWindowSnapshot J E} `{SA : !SerdeJson QualificationAssessment J E}
  `{SW : !SerdeJson DiscoveryWindowSummary J E} `{ST : !SerdeJson DiscoveryToken J E}
  `{SO : !SerdeJson (NormalizedObservation J) J E}.
Context (tlaws : SerdeLaws ST) (olaws : SerdeLaws SO).
Implicit Types (db : DiscoveryDb J) (t : DiscoveryToken) (o : NormalizedObservation J) (op : DbOp J).
Abbreviation DbM := (stateful (DiscoveryDb J) (PersistenceError XE E)).
Abbreviation run := (run_op (E:=E) row_not_found).
Abbreviation reachable := (reachable (E:=E) row_not_found).

Lemma store_outcome_tokens m is_new o t id source version :
  preserves (but_token (dt_mint t)) (store_outcome (XE:=XE) (E:=E) m is_new o t id source version).
Proof.
  assert (forall row, preserves (but_token (dt_mint t))
    (modify_state (S:=DiscoveryDb J) (E:=PersistenceError XE E)
       (fun db => set_tokens (<[dt_mint t := row]> (db_tokens db)) db))) as H1
    by (intros row; apply preserves_modify; intros db; apply delete_insert_eq).
  assert (forall f, preserves (but_token (dt_mint t))
    (modify_state (S:=DiscoveryDb J) (E:=PersistenceError XE E)
       (fun db => set_tokens (alter f (dt_mint t) (db_tokens db)) db))) as H2
    by (intros f; apply preserves_modify; intros db; apply delete_alter).
  unfold store_outcome, insert_discovery_token, update_discovery_token, store_token, update_discovery_token_metadata.
  auto 20 with stateful.
Qed.

Lemma apply_activity_tokens mint o : preserves (but_token mint) (apply_observation_activity (E:=E) row_not_found o).
Proof.
  assert (forall f, (forall db : DiscoveryDb J, db_tokens (f db) = db_tokens db) ->
    preserves (but_token mint) (modify_state (S:=DiscoveryDb J) (E:=PersistenceError XE E) f)) as Hm
    by (intros f Hf; apply preserves_modify; intros db; unfold but_token; by rewrite Hf).
  unfold apply_observation_activity. auto 30 with stateful.
Qed.
Lemma refresh_tokens (b : bool) act t : preserves (but_token (dt_mint t))
  (if b then update_discovery_token_metadata (XE:=XE) (E:=E) (set_activity act t) else mret tt).
Proof.
  assert (forall f, preserves (but_token (dt_mint t))
    (modify_state (S:=DiscoveryDb J) (E:=PersistenceError XE E)
       (fun db => set_tokens (alter f (dt_mint t) (db_tokens db)) db))) as H2
    by (intros f; apply preserves_modify; intros db; apply delete_alter).
  unfold update_discovery_token_metadata. simpl. auto 20 with stateful.
Qed.

Lemma observation_tokens now id worker candidate db :
  exists mint, but_token mint db (commit_discovery_observation (E:=E) row_not_found now id worker candidate db).2.
Proof.
  assert (exists mint, but_token mint db db) as Hsame by by exists ""%string.
  unfold commit_discovery_observation. do 5 (rewrite lift_bind_state; case_match; [|exact Hsame]).
  match goal with |- context [transaction ?b db] => destruct (transaction_effect b db) as [->|[m Hc]]; [exact Hsame|];
    set (db' := (transaction b db).2) in * end.
  step Hc (work & dbl & Hw & Hc). pose proof (lock_owned_work_Ok _ _ _ _ _ _ Hw) as (-> & _).
  do 3 (step Hc (? & db0 & Hx & Hc); injection Hx as _ <-).
  step Hc ([[[[m' t'] is_new] a'] q] & db0 & Hx & Hc). injection Hx as _ <-.
  step Hc ([] & db1 & Hs & Hc). step Hc (act & db2 & Ha & Hc). step Hc ([] & db3 & Hm & Hc).
  step Hc (? & db4 & Hp & Hc). injection Hp as _ <-. step Hc (? & db4 & Hp & Hc). injection Hp as _ <-.
  injection Hc as _ <-. exists (dt_mint t').
  trans db1; [eapply preserves_result, Hs; apply store_outcome_tokens|].
  trans db2; [eapply preserves_result, Ha; apply apply_activity_tokens|].
  trans db3; [eapply preserves_result, Hm; apply refresh_tokens|done].
Qed.

(** ** The counter of approved candidates *)
Definition approved_down db db' : Prop :=
  0 <= st_approved (db_projection db) -> 0 <= st_approved (db_projection db') <= st_approved (db_projection db).
#[local] Instance approved_down_refl : Reflexive approved_down.
Proof. intros db H0. lia. Qed.
#[local] Instance approved_down_trans : Transitive approved_down.
Proof. intros a b c Hab Hbc H0. specialize (Hab H0). specialize (Hbc (proj1 Hab)). lia. Qed.
#[local] Hint Extern 2 (preserves approved_down (modify_state _)) =>
  apply preserves_modify; intros ?; unfold approved_down; simpl; repeat case_match; lia : stateful.

Lemma approved_never_rises op db : db_ok (E:=E) (timely:=false) db -> op_allowed (XE:=XE) (E:=E) db op ->
  match op with OpApprove _ _ _ => True | _ => approved_down db (run op db) end.
Proof.
  intros Hok Hallowed.
  assert (forall A (m : DbM A), preserves approved_down m -> approved_down db (m db).2) as Hp
    by (intros A m Hm; apply Hm).
  destruct op; try exact I; cbn [run_op].
  - apply Hp. unfold insert_queued_fact. auto 20 with stateful.
  - apply Hp. unfold lower_received. auto 20 with stateful.
  - apply Hp. unfold claim_observation_work. auto 30 with stateful.
  - apply Hp. unfold renew_observation_work_lease. auto 20 with stateful.
  - apply Hp. unfold complete_observation_work, lock_owned_work, mark_work_complete. auto 30 with stateful.
  - apply Hp. unfold retry_or_fail_observation_work, lock_owned_work, record_terminal_discovery_failure.
    auto 40 with stateful.
  - apply Hp. unfold commit_discovery_observation, lock_owned_work, mark_work_complete, store_outcome,
      insert_discovery_token, update_discovery_token, store_token, update_discovery_token_metadata,
      apply_observation_activity. auto 60 with stateful.
  - apply Hp. unfold commit_discovery_rejection, lock_owned_work, mark_work_complete, upsert_rejection_summary.
    auto 40 with stateful.
  - apply Hp. unfold set_discovery_mode. auto 30 with stateful.
  - apply Hp. unfold set_discovery_flow_per_minute. auto 30 with stateful.
  - intros H0. simpl. lia.
  - unfold commit_window_finalization. rewrite read_bind_state, lift_bind_state.
    destruct (finalize_discovery_window _ f) as [[w|]|e] eqn:Hf; try (intros ?; simpl; lia).
    intros H0. simpl. assert (0 <= fw_approval_removed w); [|lia].
    apply finalize_commit_inv in Hf as (_ & _ & _ & _ & _ & _ & Hc). apply commit_inv in Hc as (u & sv & Hc & _).
    destruct (fr_current_projection _) as [row|]; [|lia]. destruct (_ && _); [|lia].
    destruct Hc as (Hu & _ & _ & ->). destruct u as [[tu dq] da].
    apply update_candidate_inv in Hu as (? & ? & _ & _ & _ & _ & _ & _ & _ & _ & ->). simpl.
    unfold bool_to_i64. case_match; lia.
  - intros H0. pose proof (ct_approved _ (db_counters_ok _ Hok)) as Hc. simpl.
    change (count_tokens_in ["APPROVED"]%string db) with (map_count is_approved (db_tokens db)). lia.
Qed.

Lemma approval_effect t source version db :
  let db' := run (OpApprove t source version) db in
  db' = db \/ dt_stage t = Approved /\ passed_complete (dt_qualification t) = true /\
    but_token (dt_mint t) db db' /\
    exists row stored, db_tokens db !! dt_mint t = Some row /\ from_value (E:=E) (tk_token row) = Ok stored /\
      decided_stage (dt_stage stored) = true /\ passed_complete (dt_qualification stored) = true.
Proof.
  cbn [run_op]. unfold commit_discovery_approval. do 2 (rewrite lift_bind_state; case_match; [|by left]).
  rewrite lift_bind_state. destruct (guard_err (negb (bool_decide _)) _) as [[]|] eqn:Hst; [|by left].
  rewrite lift_bind_state. destruct (guard_err (negb (passed_complete _)) _) as [[]|] eqn:Hq; [|by left].
  apply guard_err_Ok, negb_false_iff in Hst, Hq. apply bool_decide_eq_true in Hst.
  rewrite lift_bind_state. case_match; [|by left].
  match goal with |- context [transaction ?b db] => destruct (transaction_effect b db) as [->|[m Hc]]; [by left|];
    set (db' := (transaction b db).2) in * end. right.
  step Hc (found & db0 & Hx & Hc). injection Hx as <- <-.
  step Hc (row & db0 & Hx & Hc). injection Hx as Hrow <-. apply ok_or_Ok in Hrow.
  step Hc (stored & db0 & Hx & Hc). injection Hx as Hd <-. apply decode_Ok in Hd.
  step Hc (? & db0 & Hx & Hc). injection Hx as _ <-.
  step Hc ([] & db0 & Hx & Hc). injection Hx as Hg <-. apply guard_err_Ok, orb_false_iff in Hg as [Hg1 Hg2].
  apply negb_false_iff in Hg1, Hg2.
  step Hc ([] & db0 & Hx & Hc). injection Hx as Hid <-. cbv zeta in Hc.
  assert (dt_mint stored = dt_mint t) as Hm
    by (unfold validate_promotion_identity, first_difference in Hid; by destruct (String.eqb_spec (dt_mint stored) (dt_mint t))).
  assert (dt_mint (merge_approval stored t) = dt_mint t) as Hmm by (unfold merge_approval; simpl; by destruct (_ >? _)).
  set (p := merge_approval stored t) in *. clearbody p.
  do 2 (step Hc (? & db0 & Hx & Hc); injection Hx as _ <-).
  do 2 (step Hc (? & db0 & Hx & Hc); injection Hx as _ <-). injection Hc as _ <-.
  split; [done|]. split; [done|]. split.
  - unfold but_token. simpl. rewrite Hmm. apply delete_alter.
  - by exists row, stored.
Qed.

Lemma one_candidate op db : exists mint, but_token mint db (run op db).
Proof.
  assert (db_tokens (run op db) = db_tokens db -> exists mint, but_token mint db (run op db)) as Hsame
    by (intros He; exists ""%string; unfold but_token; by rewrite He).
  assert (forall A (m : DbM A), preserves (fun a b => db_tokens b = db_tokens a) m -> db_tokens (m db).2 = db_tokens db) as Hp
    by (intros A m Hm; apply Hm).
  assert (Transitive (fun a b : DiscoveryDb J => db_tokens b = db_tokens a)) as Htr by (intros a b c ? ?; congruence).
  assert (Reflexive (fun a b : DiscoveryDb J => db_tokens b = db_tokens a)) as Hre by by intros a.
  assert (forall f, (forall db, db_tokens (f db) = db_tokens db) ->
    preserves (E:=PersistenceError XE E) (fun a b => db_tokens b = db_tokens a) (modify_state (S:=DiscoveryDb J) f)) as Hm
    by (intros f Hf; apply preserves_modify; intros db'; apply Hf).
  destruct op; cbn [run_op] in Hsame |- *.
  - by apply Hsame.
  - apply Hsame, Hp. unfold lower_received. auto 20 with stateful.
  - apply Hsame, Hp. unfold claim_observation_work. auto 30 with stateful.
  - apply Hsame, Hp. unfold renew_observation_work_lease. auto 20 with stateful.
  - apply Hsame, Hp. unfold complete_observation_work, lock_owned_work, mark_work_complete. auto 30 with stateful.
  - apply Hsame, Hp. unfold retry_or_fail_observation_work, lock_owned_work, record_terminal_discovery_failure.
    auto 40 with stateful.
  - apply observation_tokens.
  - apply Hsame, Hp. unfold commit_discovery_rejection, lock_owned_work, mark_work_complete, upsert_rejection_summary.
    auto 40 with stateful.
  - destruct (approval_effect t source version db) as [He|(_ & _ & Hb & _)]; [|by exists (dt_mint t)].
    exists ""%string. cbn [run_op] in He. by rewrite He.
  - apply Hsame, Hp. unfold set_discovery_mode. auto 30 with stateful.
  - apply Hsame, Hp. unfold set_discovery_flow_per_minute. auto 30 with stateful.
  - by apply Hsame.
  - unfold commit_window_finalization. rewrite read_bind_state, lift_bind_state.
    destruct (finalize_discovery_window _ f) as [[w|]|e] eqn:Hf; [|by exists ""%string..].
    unfold but_token. simpl. destruct (fw_token w) as [u|]; [|by exists ""%string].
    exists (tu_mint u). apply delete_alter.
  - by apply Hsame.
Qed.

(** A candidate that becomes approved is the one that changed, and counts. *)
Lemma changed_token m0 mint db db' row : but_token m0 db db' -> db_tokens db' !! mint = Some row ->
  db_tokens db !! mint <> Some row -> m0 = mint.
Proof.
  unfold but_token. intros Hb Hrow Hne. destruct (decide (m0 = mint)) as [|Hm]; [done|]. exfalso. apply Hne.
  rewrite <- (lookup_delete_ne (db_tokens db) m0 mint Hm), <- Hb. by rewrite lookup_delete_ne.
Qed.
Lemma approved_counts mint db db' row : but_token mint db db' -> db_tokens db' !! mint = Some row ->
  is_approved row = true -> (forall old, db_tokens db !! mint = Some old -> is_approved old = false) ->
  map_count is_approved (db_tokens db') = map_count is_approved (db_tokens db) + 1.
Proof.
  unfold but_token. intros Hb Hrow Ha Hold. unfold map_count at 1. rewrite (map_sum_delete _ _ _ _ Hrow), Hb, Ha.
  destruct (db_tokens db !! mint) as [old|] eqn:Ho.
  - unfold map_count. rewrite (map_sum_delete _ _ _ _ Ho), (Hold old eq_refl). simpl. lia.
  - rewrite delete_id by done. unfold map_count. simpl. lia.
Qed.

Definition approved_text : string := "APPROVED".
Lemma is_approved_text (row : TokenRow J) : is_approved row = true <-> tk_stage row = approved_text.
Proof. unfold is_approved, stage_in. simpl. by rewrite orb_false_r, String.eqb_eq. Qed.

(** C22: Only an approval approves.  After any history, a step that leaves a
    candidate approved which was not so before is the explicit approval of that
    candidate, with a passing qualification of a complete window, of a stored
    candidate that was already qualified by a complete passing window; no
    observation, finalization or repair approves anything. *)
Theorem only_approval_approves db op mint row :
  reachable db -> op_allowed (XE:=XE) (E:=E) db op ->
  db_tokens (run op db) !! mint = Some row -> tk_stage row = approved_text ->
  (forall old, db_tokens db !! mint = Some old -> tk_stage old <> approved_text) ->
  exists t source version old stored, op = OpApprove t source version /\ dt_mint t = mint /\
    dt_stage t = Approved /\ passed_complete (dt_qualification t) = true /\
    db_tokens db !! mint = Some old /\ from_value (E:=E) (tk_token old) = Ok stored /\
    dt_stage stored = Qualified /\ passed_complete (dt_qualification stored) = true.
Proof.
  intros Hreach Hallowed Hrow Hst Hold. apply history_ok in Hreach as Hok; [|done..].
  pose proof (run_op_ok row_not_found tlaws olaws false db op Hok Hallowed ltac:(done)) as Hok'.
  assert (db_tokens db !! mint <> Some row) as Hnew by (intros Hr; by apply (Hold row Hr)).
  destruct (match op with OpApprove _ _ _ => true | _ => false end) eqn:Hop.
  - destruct op; try discriminate Hop.
    destruct (approval_effect t source version db) as [He|(H1 & H2 & Hb & old & stored & Ho & Hd & H3 & H4)].
    { rewrite He in Hrow. by destruct (Hold row Hrow). }
    pose proof (changed_token _ _ _ _ _ Hb Hrow Hnew) as Hm.
    exists t, source, version, old, stored. rewrite <- Hm. split_and!; try done.
    destruct (db_tokens_ok _ Hok _ _ Ho) as [stored' Hs]. pose proof (tr_decodes _ _ _ Hs) as Hd'.
    rewrite Hd in Hd'. injection Hd' as <-. pose proof (tr_stage _ _ _ Hs) as Hstage.
    rewrite Hm in Ho. specialize (Hold old Ho). rewrite Hstage in Hold. by destruct (dt_stage stored).
  - exfalso. assert (approved_down db (run op db)) as Hdown
      by (pose proof (approved_never_rises op db Hok Hallowed); by destruct op).
    destruct (one_candidate op db) as [m0 Hb]. pose proof (changed_token _ _ _ _ _ Hb Hrow Hnew) as ->.
    pose proof (ct_approved _ (db_counters_ok _ Hok)). pose proof (ct_approved _ (db_counters_ok _ Hok')).
    pose proof (map_count_nonneg is_approved (db_tokens db)).
    assert (map_count is_approved (db_tokens (run op db)) = map_count is_approved (db_tokens db) + 1) as Hc.
    { apply (approved_counts _ _ _ _ Hb Hrow); [by apply is_approved_text|].
      intros old Ho. apply not_true_iff_false. rewrite is_approved_text. by apply Hold. }
    unfold approved_down in Hdown. lia.
Qed.
End Approval.
