(* ===== verification/DiscoveryDbSample.v ===== *)
(** One history of the discovery tables: two facts received, claimed and
    committed, a window opened and finalized as a pass, the candidate approved; and
    the same with the clock set back, the window given up before it opened. *)
From S2P Require Import Prelude.
From S2P Require Import ListFacts.
From S2P Require Import Stateful.
From S2P Require Import RustOrd.
From S2P Require Import RustStr.
From S2P Require Import Domain.
From S2P Require Import External.
From S2P Require Import SnapshotArith.
From S2P Require Import Snapshot.
From S2P Require Import SnapshotSpec.
From S2P Require Import SnapshotTheorems.
From S2P Require Import Qualification.
From S2P Require Import WindowToken.
From S2P Require Import ApiContracts.
From S2P Require Import PersistenceModel.
From S2P Require Import Finalization.
From S2P Require Import FinalizeTx.
From S2P Require Import Store.
From S2P Require Import FinalizationProofs.
From S2P Require Import FinalizationTheorems.
From S2P Require Import StoreLiveness.
From S2P Require Import DiscoveryValidation.
From S2P Require Import DiscoveryDb.
From S2P Require Import DiscoveryDbProofs.
From S2P Require Import DiscoveryDbOps.
From S2P Require Import DiscoveryDbHistory.
From S2P Require Import DiscoveryDbTheorems.
From S2P Require Import DiscoveryDbReads.
From S2P Require Import DiscoveryDbApproval.

Module SampleDb.
Import SampleStore.
#[local] Existing Instance SampleStore.Js_eq_dec.
#[local] Existing Instance SampleStore.prefilter_json.
#[local] Existing Instance SampleStore.settings_json.
#[local] Existing Instance SampleStore.snapshot_json.
#[local] Existing Instance SampleStore.assessment_json.
#[local] Existing Instance SampleStore.summary_json.
#[local] Existing Instance SampleStore.token_json.
#[local] Existing Instance SampleStore.observation_json.

Definition value (o : NormalizedObservation Js) : Js := JsObservation (with_details tt o).
Definition bought : NormalizedObservation Js := buy_at 120.
Definition sold : NormalizedObservation Js := sell_at 130.

(** The candidate a fact is committed as. *)
Definition candidate_of (o : NormalizedObservation Js) : DiscoveryToken := {|
  dt_mint := mi_mint (market o); dt_name := None; dt_symbol := None; dt_primary_venue := mi_venue (market o);
  dt_market_address := mi_market_address (market o); dt_quote_mint := mi_quote_mint (market o);
  dt_source_program := ok_program (key o); dt_stage := Observed; dt_last_event_kind := event_kind o;
  dt_observed_slot := slot (coordinate (key o)); dt_first_observed_unix_ms := observed_at o;
  dt_last_observed_unix_ms := observed_at o; dt_latest_signature := signature (coordinate (key o));
  dt_activity := {| da_trades := 0; da_buys := 0; da_sells := 0; da_unique_traders := 0;
                    da_base_volume_units := "0"; da_quote_volume_units := "0" |};
  dt_qualification := None; dt_risk_score := None; dt_opportunity_score := None |}.
Definition committing (o : NormalizedObservation Js) : DiscoveryObservation := {|
  do_token := candidate_of o; do_validation_source := "DISCOVERY_WORKER"; do_validation_version := "v1" |}.

Definition record : DiscoveryWindowRecord Js := {|
  wr_window_id := 7; wr_market := SampleFinalization.the_market; wr_source_program := Pump;
  wr_opened_at_unix_ms := 100; wr_closes_at_unix_ms := 200; wr_collector_run_id := "run";
  wr_prefilter_revision := 1; wr_prefilter_values := SampleFinalization.prefilter;
  wr_qualification_revision := 3; wr_qualification_values := SampleFinalization.settings;
  wr_observations := [bought; sold] |}.
Definition row : WindowIdentityRow Js := {|
  wi_id := 7; wi_network := "SOLANA_MAINNET"; wi_source_program := "PUMP";
  wi_venue := "PUMP_BONDING_CURVE"; wi_market_address := "curve"; wi_mint := "mint";
  wi_quote_mint := WRAPPED_SOL_MINT; wi_target_kind := "PUMP_MINT"; wi_target_address := "mint";
  wi_opened_at_unix_ms := 100; wi_closes_at_unix_ms := 200; wi_collector_run_id := "run";
  wi_prefilter_revision := 1; wi_prefilter_values := JsNumber 0; wi_qualification_revision := 3;
  wi_qualification_values := JsNumber 1; wi_status := "ACTIVE" |}.
Definition rows : FinalizationRows Js := {|
  fr_locked_network := "SOLANA_MAINNET"; fr_locked_mint := "mint"; fr_window := row; fr_existing := None;
  fr_readiness := ready; fr_durable_observation_count := 2; fr_observations := [value bought; value sold];
  fr_current_projection := None; fr_newer_window_exists := false |}.
Definition built := build_discovery_window_finalization (XE:=unit) (E:=unit) record 250 None.
(** The clock was set back before the window opened, and the window is given up. *)
Definition built_early :=
  build_discovery_window_finalization (XE:=unit) (E:=unit) record 50 (Some (reason_str ProcessingFailed)).

Definition approved (summary : DiscoveryWindowSummary) : DiscoveryToken := {|
  dt_mint := "mint"; dt_name := None; dt_symbol := None; dt_primary_venue := PumpBondingCurve;
  dt_market_address := "curve"; dt_quote_mint := Some WRAPPED_SOL_MINT; dt_source_program := Pump;
  dt_stage := Approved; dt_last_event_kind := "TRADE"; dt_observed_slot := 11;
  dt_first_observed_unix_ms := 120; dt_last_observed_unix_ms := 120; dt_latest_signature := "s";
  dt_activity := dt_activity (candidate_of bought); dt_qualification := Some summary;
  dt_risk_score := None; dt_opportunity_score := None |}.

Definition queue : list (DbOp Js) :=
  [OpReceive 0 (value bought); OpReceive 1 (value sold); OpClaim (fun _ => false) 10 "DISCOVERY" "w1" 10 60000].
Definition commits : list (DbOp Js) :=
  [OpObserve 20 1 "w1" (committing bought); OpObserve 21 2 "w1" (committing sold);
   OpObserve 22 2 "w1" (committing sold); OpOpenWindow].
Definition finalizing : list (DbOp Js) :=
  match built with Ok f => [OpFinalize rows true f] | Err _ => [] end.
Definition approving : DbOp Js :=
  match built with Ok f => OpApprove (approved (fz_summary f)) "OPERATOR" "v1" | Err _ => OpOpenWindow end.

Definition giving_up : list (DbOp Js) :=
  match built_early with Ok f => [OpFinalize rows true f] | Err _ => [] end.

Definition history : list (DbOp Js) := queue ++ commits ++ finalizing.
Definition set_back : list (DbOp Js) := queue ++ commits ++ giving_up.
Definition after (ops : list (DbOp Js)) : DiscoveryDb Js := (run_ops (XE:=unit) (E:=unit) tt ops).1.
Definition claimed : DiscoveryDb Js := after queue.
Definition qualified : DiscoveryDb Js := after history.
Definition unreadable : DiscoveryDb Js := after set_back.

(** ** The history is allowed *)
Lemma sample_built : exists f, built = Ok f.
Proof. vm_compute. eauto. Qed.
Lemma loaded : load_window_observations (XE:=unit) (E:=unit) (fr_observations rows) = Ok [bought; sold].
Proof. vm_compute. reflexivity. Qed.
Lemma facts_typed : observations_typed [bought; sold].
Proof. split; [repeat constructor; vm_compute; congruence|vm_compute; congruence]. Qed.
Lemma sample_token_laws : SerdeLaws token_json.
Proof. constructor. by intros a j [= <-]. Qed.
Lemma asked : finalization_asked (XE:=unit) (E:=unit) rows.
Proof. unfold finalization_asked. rewrite loaded. intros obs Hobs. assert (obs = [bought; sold]) as -> by congruence. exact facts_typed. Qed.
Lemma received_ok now o (db : DiscoveryDb Js) : source_details o = JsNumber 0 -> amounts_ok o ->
  db_next_work db <= 2 -> op_allowed (XE:=unit) (E:=unit) db (OpReceive now (value o)).
Proof.
  intros Hd Ha Hn. split; [|lia]. exists o. split; [|done]. simpl. unfold with_details. simpl. rewrite <- Hd. by destruct o.
Qed.
Lemma sample_built_early : exists f, built_early = Ok f.
Proof. vm_compute. eauto. Qed.
Lemma queue_allowed ops : allowed_along (XE:=unit) (E:=unit) tt ops (after (queue ++ commits)) ->
  allowed_along (XE:=unit) (E:=unit) tt (queue ++ commits ++ ops) db_init.
Proof.
  intros Hops. unfold after in Hops. rewrite run_ops_db in Hops. unfold queue, commits in *. cbn [app allowed_along foldl] in *.
  split; [apply received_ok; vm_compute; intuition congruence|].
  split; [apply received_ok; vm_compute; intuition congruence|].
  do 5 (split; [exact I|]). exact Hops.
Qed.
Lemma history_allowed : allowed_along (XE:=unit) (E:=unit) tt history db_init.
Proof.
  apply queue_allowed. unfold finalizing. destruct sample_built as [f Hf]. rewrite Hf. split; [exact asked|exact I].
Qed.
Lemma set_back_allowed : allowed_along (XE:=unit) (E:=unit) tt set_back db_init.
Proof.
  apply queue_allowed. unfold giving_up. destruct sample_built_early as [f Hf]. rewrite Hf. split; [exact asked|exact I].
Qed.
Lemma history_in_time : Forall (in_time (J:=Js)) history.
Proof.
  unfold history, queue, commits, finalizing. destruct sample_built as [f Hf]. rewrite Hf.
  cbn [app]. repeat constructor. apply build_finalization_inv in Hf as (_ & _ & _ & _ & _ & _ & _ & _ & Hat & _).
  unfold in_time, finalized_in_time. rewrite Hat. apply Z.leb_le. reflexivity.
Qed.
Lemma qualified_in_time : reachable_in_time (XE:=unit) (E:=unit) tt qualified.
Proof.
  unfold qualified, after. rewrite run_ops_db.
  apply in_time_along; [constructor|apply history_allowed|apply history_in_time].
Qed.
Lemma qualified_reachable : DiscoveryDbHistory.reachable (XE:=unit) (E:=unit) tt qualified.
Proof. apply in_time_reachable, qualified_in_time. Qed.
Lemma unreadable_reachable : DiscoveryDbHistory.reachable (XE:=unit) (E:=unit) tt unreadable.
Proof. unfold unreadable, after. rewrite run_ops_db. apply reachable_along; [constructor|apply set_back_allowed]. Qed.

Definition claimed_row : WorkRow := {|
  wk_observation_id := 1; wk_kind := "DISCOVERY"; wk_status := WorkProcessing; wk_attempts := 1;
  wk_available_at := 0; wk_finished_at := None; wk_last_error_code := None;
  wk_lease_owner := Some "w1"%string; wk_lease_expires_at := Some 60000010 |}.
Lemma claimed_is : db_work claimed !! 1 = Some claimed_row.
Proof. vm_compute. reflexivity. Qed.

Definition fits (db : DiscoveryDb Js) : bool :=
  let s := db_projection db in
  forallb (fun n => n <? 2 ^ 63) [st_sequence s; st_observed s; st_queued_facts s; st_qualification_pending s;
    st_qualification_rejected s; st_qualification_unknown s; st_processing_failures s] &&
  match st_flow_per_minute s with None => true | Some f => f <? 2 ^ 63 end &&
  bool_decide (db_rejections db = ∅).
Lemma fits_spec db : fits db = true -> projection_fits db.
Proof.
  unfold fits. rewrite !andb_true_iff, bool_decide_eq_true. simpl. rewrite !andb_true_iff, !Z.ltb_lt.
  intros ((Hn & Hf) & Hr). destruct Hn as (? & ? & ? & ? & ? & ? & ? & _). split; try done.
  - intros f Hx. rewrite Hx in Hf. by apply Z.ltb_lt.
  - intros reason p. rewrite Hr. done.
Qed.
Lemma qualified_fits : projection_fits qualified.
Proof. apply fits_spec. vm_compute. reflexivity. Qed.
Lemma unreadable_fits : projection_fits unreadable.
Proof. apply fits_spec. vm_compute. reflexivity. Qed.

(** The candidate before and after its approval. *)
Definition stage_of (db : DiscoveryDb Js) : option string := tk_stage <$> db_tokens db !! "mint"%string.
Lemma stage_before : stage_of qualified = Some "QUALIFIED"%string.
Proof. vm_compute. reflexivity. Qed.
Lemma stage_after : stage_of (run_op (XE:=unit) (E:=unit) tt approving qualified) = Some "APPROVED"%string.
Proof. vm_compute. reflexivity. Qed.
Lemma approving_allowed : op_allowed (XE:=unit) (E:=unit) qualified approving.
Proof. unfold approving. destruct sample_built as [f Hf]. rewrite Hf. exact I. Qed.
End SampleDb.
#[local] Existing Instance SampleStore.Js_eq_dec.
#[local] Existing Instance SampleStore.prefilter_json.
#[local] Existing Instance SampleStore.settings_json.
#[local] Existing Instance SampleStore.snapshot_json.
#[local] Existing Instance SampleStore.assessment_json.
#[local] Existing Instance SampleStore.summary_json.
#[local] Existing Instance SampleStore.token_json.
#[local] Existing Instance SampleStore.observation_json.

Lemma leases_exclude_witness :
  db_work SampleDb.claimed !! 1 = Some SampleDb.claimed_row /\
  exists row', db_work (run_op (XE:=unit) (E:=unit) tt (OpRetry 30 1 "w2" "CODE" 1 5) SampleDb.claimed) !! 1 = Some row' /\
    row_moves (J:=SampleStore.Js) (OpRetry 30 1 "w2" "CODE" 1 5) 1 SampleDb.claimed_row row'.
Proof.
  split; [exact SampleDb.claimed_is|].
  destruct (leases_exclude (XE:=unit) (E:=unit) tt SampleDb.queue (OpRetry 30 1 "w2" "CODE" 1 5) 1 SampleDb.claimed_row
    SampleDb.claimed_is) as (row' & Hr & Hm & _).
  exists row'. split; [exact Hr|exact Hm].
Defined.

Lemma counters_never_drift_witness :
  DiscoveryDbHistory.reachable (XE:=unit) (E:=unit) tt SampleDb.qualified /\
  st_observed (db_projection SampleDb.qualified) = Z.of_nat (size (db_tokens SampleDb.qualified)).
Proof.
  split; [exact SampleDb.qualified_reachable|].
  destruct (counters_never_drift (XE:=unit) (E:=unit) tt SampleDb.sample_token_laws SampleStore.observation_laws
    SampleDb.qualified {| wc_active := 0; wc_rejected := 0; wc_unknown := 0 |} SampleDb.qualified_reachable) as [Ho _].
  exact Ho.
Defined.

Lemma snapshots_load_in_time_witness :
  projection_fits SampleDb.qualified /\
  (exists snap, load_discovery_snapshot_bounded (XE:=unit) (E:=unit) 10 SampleDb.qualified = (Ok snap, SampleDb.qualified) /\
     NoDup (dt_mint <$> ds_tokens snap)) /\
  (* With the clock set back the candidate of the window given up hides the whole snapshot. *)
  load_discovery_snapshot_bounded (XE:=unit) (E:=unit) 10 SampleDb.unreadable =
    (Err PeInvalidActivityTotals, SampleDb.unreadable).
Proof.
  split; [exact SampleDb.qualified_fits|]. split.
  - destruct (snapshots_load_in_time (XE:=unit) (E:=unit) tt SampleDb.sample_token_laws SampleStore.observation_laws
      SampleDb.qualified 10 SampleDb.qualified_reachable SampleDb.qualified_fits)
      as (tokens & snap & _ & Hs & Ht & _ & _ & _ & _ & _ & _ & Hn & _).
    { vm_compute. split; congruence. }
    exists snap. rewrite (Ht SampleDb.qualified_in_time) in Hs. split; [exact Hs|exact Hn].
  - destruct (snapshots_load_in_time (XE:=unit) (E:=unit) tt SampleDb.sample_token_laws SampleStore.observation_laws
      SampleDb.unreadable 10 SampleDb.unreadable_reachable SampleDb.unreadable_fits)
      as (tokens & snap & Hd & Hs & _).
    { vm_compute. split; congruence. }
    rewrite Hs. assert (forallb token_in_time tokens = false) as ->; [|reflexivity].
    vm_compute in Hd. inversion Hd as [|? t ? ? Ht Hd']; subst. injection Ht as <-. reflexivity.
Defined.

Lemma only_approval_approves_witness :
  SampleDb.stage_of SampleDb.qualified = Some "QUALIFIED"%string /\
  exists t source version old stored, SampleDb.approving = OpApprove t source version /\ dt_mint t = "mint"%string /\
    dt_stage t = Approved /\ db_tokens SampleDb.qualified !! "mint"%string = Some old /\
    from_value (E:=unit) (tk_token old) = Ok stored /\ dt_stage stored = Qualified.
Proof.
  split; [exact SampleDb.stage_before|]. pose proof SampleDb.stage_before as Hb. pose proof SampleDb.stage_after as Ha.
  unfold SampleDb.stage_of in Hb, Ha. apply fmap_Some in Ha as (row & Hrow & Hst).
  destruct (only_approval_approves (XE:=unit) (E:=unit) tt SampleDb.sample_token_laws SampleStore.observation_laws
    SampleDb.qualified SampleDb.approving "mint" row SampleDb.qualified_reachable SampleDb.approving_allowed Hrow (eq_sym Hst))
    as (t & source & version & old & stored & H1 & H2 & H3 & H4 & H5 & H6 & H7 & H8).
  { intros old Ho Hx. rewrite Ho in Hb. simpl in Hb. rewrite Hx in Hb. discriminate Hb. }
  exists t, source, version, old, stored.
  exact (conj H1 (conj H2 (conj H3 (conj H5 (conj H6 H7))))).
Defined.
