(* ===== verification/DiscoveryWorker.v ===== *)
(** [apps/server/src/jobs/discovery.rs]: the worker that commits queued facts as
    discovery candidates.

    The worker shares the database: before each of its calls the transactions of
    others run, and the call reads the time of the database.  Both are given by
    a schedule, indexed by the calls made so far; whether cancellation was
    requested is indexed by the checks made so far. *)
From S2P Require Import Prelude.
From S2P Require Import Stateful.
From S2P Require Import RustStr.
From S2P Require Import Domain.
From S2P Require Import External.
From S2P Require Import Snapshot.
From S2P Require Import Qualification.
From S2P Require Import WindowToken.
From S2P Require Import ApiContracts.
From S2P Require Import PersistenceModel.
From S2P Require Import Finalization.
From S2P Require Import FinalizeTx.
From S2P Require Import DiscoveryValidation.
From S2P Require Import DiscoveryDb.
From S2P Require Import DiscoveryDbHistory.

Definition WORK_KIND : string := "DISCOVERY".
Definition VALIDATION_SOURCE : string := "PUMP_STRUCTURAL_DECODER".

(** Durations in milliseconds. *)
Record DiscoveryWorkerConfig := {
  dwc_worker_id : string; dwc_claim_batch : Z; dwc_lease_duration : Z; dwc_retry_after : Z;
  dwc_maximum_attempts : Z; dwc_idle_poll_interval : Z;
}.
(** The name of the process is given. *)
Definition for_process (worker_id : string) : DiscoveryWorkerConfig := {|
  dwc_worker_id := worker_id; dwc_claim_batch := 64; dwc_lease_duration := 30000; dwc_retry_after := 500;
  dwc_maximum_attempts := 5; dwc_idle_poll_interval := 250 |}.

(** ** Candidates *)
Definition non_empty (value : string) : option string :=
  let value := trim value in if is_empty value then None else Some value.

Definition discovery_token {J} (o : NormalizedObservation J) : DiscoveryToken :=
  let '(name, symbol) := match payload o with
                         | TokenCreated name symbol _ _ _ => (non_empty name, non_empty symbol)
                         | _ => (None, None)
                         end in {|
  dt_mint := mi_mint (market o); dt_name := name; dt_symbol := symbol; dt_primary_venue := mi_venue (market o);
  dt_market_address := mi_market_address (market o); dt_quote_mint := mi_quote_mint (market o);
  dt_source_program := ok_program (key o); dt_stage := Observed; dt_last_event_kind := event_kind o;
  dt_observed_slot := slot (coordinate (key o)); dt_first_observed_unix_ms := observed_at o;
  dt_last_observed_unix_ms := observed_at o; dt_latest_signature := signature (coordinate (key o));
  dt_activity := {| da_trades := 0; da_buys := 0; da_sells := 0; da_unique_traders := 0;
                    da_base_volume_units := "0"; da_quote_volume_units := "0" |};
  dt_qualification := None; dt_risk_score := None; dt_opportunity_score := None |}.

Definition persistence_error_code {XE E} (error : PersistenceError XE E) : string :=
  match error with
  | PeDatabase _ => "DISCOVERY_DATABASE_ERROR"
  | PeSerialization _ => "DISCOVERY_SERIALIZATION_ERROR"
  | PeWorkLeaseLost _ _ => "DISCOVERY_WORK_LEASE_LOST"
  | PeDiscoverySourceMismatch _ => "DISCOVERY_SOURCE_MISMATCH"
  | PeInvalidActivityTotals | PeInvalidUnsignedDecimal _ | PeEmptyField _ => "DISCOVERY_INVALID_CANDIDATE"
  | _ => "DISCOVERY_PROCESSING_ERROR"
  end.

(** ** The worker *)
Record WorkerState {J : Type} := {
  wks_db : DiscoveryDb J;
  wks_calls : nat;
  wks_checks : nat;
  (** [publish_discovery_projection_changed], counted. *)
  wks_published : Z;
}.
#[global] Arguments WorkerState : clear implicits.

Section Worker.
Context {J XE E : Type} `{EqDecision J}.
Context (row_not_found : XE).
Context `{SP : !SerdeJson PrefilterDefaults J E} `{SQ : !SerdeJson QualificationDefaults J E}
  `{SS : !SerdeJson MarketWindowSnapshot J E} `{SA : !SerdeJson QualificationAssessment J E}
  `{SW : !SerdeJson DiscoveryWindowSummary J E} `{ST : !SerdeJson DiscoveryToken J E}
  `{SO : !SerdeJson (NormalizedObservation J) J E}.
Abbreviation DbM := (stateful (DiscoveryDb J) (PersistenceError XE E)).
Abbreviation WorkerM := (stateful (WorkerState J) (PersistenceError XE E)).

(** The transactions of others before a call, and its time. *)
Context (schedule : nat -> list (DbOp J) * Z).
Context (locked : Z -> bool).
(** Whether cancellation was requested by a check or during a wait. *)
Context (cancelled : nat -> bool).

Definition others_ran (n : nat) (db : DiscoveryDb J) : DiscoveryDb J :=
  foldl (fun db op => run_op (E:=E) row_not_found op db) db (schedule n).1.
Definition call {A} (m : Z -> DbM A) : WorkerM A := fun st =>
  let '(r, db) := m (schedule (wks_calls st)).2 (others_ran (wks_calls st) (wks_db st)) in
  (r, {| wks_db := db; wks_calls := S (wks_calls st); wks_checks := wks_checks st;
         wks_published := wks_published st |}).
(** A call whose error is looked at. *)
Definition attempt {A} (m : WorkerM A) : WorkerM (result (PersistenceError XE E) A) := fun st =>
  let '(r, st') := m st in (Ok r, st').
Definition is_cancelled : WorkerM bool := fun st =>
  (Ok (cancelled (wks_checks st)),
   {| wks_db := wks_db st; wks_calls := wks_calls st; wks_checks := S (wks_checks st);
      wks_published := wks_published st |}).
Definition publish_discovery_projection_changed : WorkerM unit := modify_state (fun st =>
  {| wks_db := wks_db st; wks_calls := wks_calls st; wks_checks := wks_checks st;
     wks_published := wks_published st + 1 |}).

Context (config : DiscoveryWorkerConfig).

Definition candidate_of (o : NormalizedObservation J) : DiscoveryObservation := {|
  do_token := discovery_token o; do_validation_source := VALIDATION_SOURCE;
  do_validation_version := decoder_version o |}.

(** What is done about a fact that could not be committed. *)
Definition give_back (work : ClaimedObservationWork J) (error : PersistenceError XE E) : WorkerM unit :=
  disposition ← attempt (call (fun now => retry_or_fail_observation_work now (cw_work_id work)
    (dwc_worker_id config) (persistence_error_code error) (dwc_retry_after config) (dwc_maximum_attempts config)));
  match disposition with
  | Ok disposition =>
      if bool_decide (disposition = PermanentlyFailed) then publish_discovery_projection_changed else mret tt
  | Err (PeWorkLeaseLost _ _) => mret tt
  | Err retry_error => st_fail retry_error
  end.

(** The body of the loop over the claimed work. *)
Definition process_work (work : ClaimedObservationWork J) : WorkerM unit :=
  renewed ← attempt (call (fun now => renew_observation_work_lease now (cw_work_id work)
    (dwc_worker_id config) (dwc_lease_duration config)));
  match renewed with
  | Err (PeWorkLeaseLost _ _) => mret tt
  | Err error => st_fail error
  | Ok _ =>
      outcome ← attempt (call (fun now => commit_discovery_observation row_not_found now (cw_work_id work)
        (dwc_worker_id config) (candidate_of (cw_observation work))));
      match outcome with
      | Ok _ => publish_discovery_projection_changed
      | Err (PeWorkLeaseLost _ _) => mret tt
      | Err error => give_back work error
      end
  end.

(** The loop over the claimed work: whether the worker was cancelled. *)
Fixpoint process_all (claimed : list (ClaimedObservationWork J)) : WorkerM bool :=
  match claimed with
  | [] => mret false
  | work :: rest =>
      stop ← is_cancelled;
      if (stop : bool) then mret true else _ ← process_work work; process_all rest
  end.

(** [run_discovery_worker], for [fuel] turns of its loop: [Some tt] when it
    returned.  A wait for work ends with a cancellation, a wake-up or the poll
    interval; the last two begin another turn. *)
Fixpoint run_discovery_worker (fuel : nat) : WorkerM (option unit) :=
  match fuel with
  | O => mret None
  | S fuel =>
      stop ← is_cancelled;
      if (stop : bool) then mret (Some tt) else
      claimed ← call (fun now => claim_observation_work locked now WORK_KIND (dwc_worker_id config)
        (dwc_claim_batch config) (dwc_lease_duration config));
      match claimed with
      | [] =>
          stop ← is_cancelled;
          if (stop : bool) then mret (Some tt) else run_discovery_worker fuel
      | _ =>
          stop ← process_all claimed;
          if (stop : bool) then mret (Some tt) else run_discovery_worker fuel
      end
  end.
End Worker.
