(* ===== verification/DiscoveryWorkerProofs.v ===== *)
(** The discovery worker commits every well-formed fact it holds the lease of,
    and stops when it is cancelled. *)
From S2P Require Import Prelude.
From S2P Require Import ListFacts.
From S2P Require Import Stateful.
From S2P Require Import RustOrd.
From S2P Require Import RustStr.
From S2P Require Import Decimal.
From S2P Require Import Domain.
From S2P Require Import External.
From S2P Require Import SnapshotArith.
From S2P Require Import Snapshot.
From S2P Require Import SnapshotSpec.
From S2P Require Import SnapshotTheorems.
From S2P Require Import Qualification.
From S2P Require Import WindowToken.
From S2P Require Import ApiContracts.
From S2P Require Import PersistenceModel.
From S2P Require Import Finalization.
From S2P Require Import FinalizeTx.
From S2P Require Import Store.
From S2P Require Import FinalizationProofs.
From S2P Require Import FinalizationTheorems.
From S2P Require Import StoreLiveness.
From S2P Require Import DiscoveryValidation.
From S2P Require Import DiscoveryDb.
From S2P Require Import DiscoveryDbProofs.
From S2P Require Import DiscoveryDbOps.
From S2P Require Import DiscoveryDbHistory.
From S2P Require Import DiscoveryDbTheorems.
From S2P Require Import DiscoveryDbReads.
From S2P Require Import DiscoveryDbApproval.
From S2P Require Import DiscoveryDbSample.
From S2P Require Import DiscoveryWorker.

(** What a fact needs to become a candidate. *)
Record fact_acceptable {J} (o : NormalizedObservation J) : Prop := {
  fa_mint : is_blank (mi_mint (market o)) = false;
  fa_address : is_blank (mi_market_address (market o)) = false;
  fa_kind : is_blank (event_kind o) = false;
  fa_signature : is_blank (signature (coordinate (key o))) = false;
  fa_quote_mint : opt_blank (mi_quote_mint (market o)) = false;
  fa_venue : source_matches_venue (ok_program (key o)) (mi_venue (market o)) = true;
  fa_decoder : is_blank (decoder_version o) = false;
  fa_slot : in_sint 64 (slot (coordinate (key o)));
  fa_wallet : match payload o with Trade _ wallet _ _ _ _ => is_blank wallet = false | _ => True end;
}.

Lemma non_empty_not_blank v : opt_blank (non_empty v) = false.
Proof.
  unfold non_empty. destruct (is_empty (trim v)) eqn:He; [done|]. simpl. by apply trim_not_blank.
Qed.

Lemma discovery_token_shape {J} (o : NormalizedObservation J) :
  fact_acceptable o -> token_shape (discovery_token o) /\ dt_stage (discovery_token o) = Observed.
Proof.
  intros []. unfold discovery_token.
  assert (exists name symbol, (match payload o with
    | TokenCreated n s _ _ _ => (non_empty n, non_empty s) | _ => (None, None) end) = (name, symbol) /\
    opt_blank name = false /\ opt_blank symbol = false) as (name & symbol & -> & Hn & Hs).
  { destruct (payload o); eexists _, _; split; try done. split; apply non_empty_not_blank. }
  split; [|done]. split; simpl; try done.
Qed.
(** The candidate of a fact is always that of its source. *)
Lemma discovery_token_source {J XE E} (o : NormalizedObservation J) :
  validate_token_source (XE:=XE) (E:=E) (discovery_token o) o = Ok tt.
Proof.
  unfold discovery_token, validate_token_source.
  destruct (match payload o with TokenCreated n s _ _ _ => (non_empty n, non_empty s) | _ => (None, None) end) as [n s].
  simpl. by rewrite !String.eqb_refl, !bool_decide_true, !Z.eqb_refl by done.
Qed.
Lemma discovery_token_fields {J} (o : NormalizedObservation J) :
  dt_mint (discovery_token o) = mi_mint (market o) /\
  dt_observed_slot (discovery_token o) = slot (coordinate (key o)).
Proof.
  unfold discovery_token.
  by destruct (match payload o with TokenCreated n s _ _ _ => (non_empty n, non_empty s) | _ => (None, None) end).
Qed.

Section Commit.
Context {J XE E : Type} `{EqDecision J}.
Context (row_not_found : XE).
Context `{ST : !SerdeJson DiscoveryToken J E} `{SO : !SerdeJson (NormalizedObservation J) J E}.
Context (tlaws : SerdeLaws ST) (olaws : SerdeLaws SO).
(** Writing a candidate as JSON does not fail. *)
Context (writes_tokens : forall t : DiscoveryToken, exists v, to_value (E:=E) t = Ok v).
Implicit Types (db : DiscoveryDb J) (t : DiscoveryToken) (o : NormalizedObservation J).

Lemma encode_token t : exists v, encode_json (XE:=XE) (E:=E) t = Ok v.
Proof. destruct (writes_tokens t) as [v Hv]. exists v. unfold encode_json. by rewrite Hv. Qed.
Lemma to_i64_Ok n field : in_sint 64 n -> to_i64 (XE:=XE) (JE:=E) n field = Ok n.
Proof. intros Hn. unfold to_i64. by rewrite (proj2 (try_from_s_Some 64 n n)). Qed.

Lemma store_token_succeeds o t id source version db : in_sint 64 (dt_observed_slot t) ->
  exists db', store_token (XE:=XE) (E:=E) o t id source version db = (Ok tt, db').
Proof.
  intros Hs. unfold store_token, token_row. rewrite lift_bind_state, to_i64_Ok by done.
  destruct (encode_token t) as [v Hv]. cbn [mbind result_bind]. rewrite Hv. by eexists.
Qed.
Lemma metadata_succeeds t db : exists db', update_discovery_token_metadata (XE:=XE) (E:=E) t db = (Ok tt, db').
Proof.
  unfold update_discovery_token_metadata. rewrite lift_bind_state. destruct (encode_token t) as [v ->]. by eexists.
Qed.

(** The outcome of a candidate of a well-formed table. *)
Lemma outcome_succeeds db t o id source version : tokens_ok (E:=E) (timely:=false) (db_tokens db) ->
  in_sint 64 (dt_observed_slot t) ->
  exists m t' is_new a q db', discovery_outcome (XE:=XE) (E:=E) (db_tokens db !! dt_mint t) t o = Ok (m, t', is_new, a, q) /\
    store_outcome (XE:=XE) (E:=E) m is_new o t' id source version db = (Ok tt, db').
Proof.
  intros Hok Hslot. unfold discovery_outcome. destruct (db_tokens db !! dt_mint t) as [row|] eqn:Hrow.
  - destruct (Hok _ _ Hrow) as [stored Hr]. unfold decode_json. rewrite (tr_decodes _ _ _ Hr). cbn [map_err mbind result_bind].
    unfold validate_stored_stage. rewrite (tr_stage _ _ _ Hr), String.eqb_refl. cbn [mbind result_bind].
    rewrite to_i64_Ok by done. cbn [mbind result_bind]. destruct (tk_observed_slot row >? _).
    + destruct (enrich_metadata_from_stale_creation stored t o) as [[] enriched].
      * destruct (metadata_succeeds enriched db) as [db' Hd]. by eexists _, _, _, _, _, db'.
      * by eexists _, _, _, _, _, db.
    + destruct (store_token_succeeds o (merge_observation stored t) id source version db Hslot) as [db' Hd].
      eexists _, _, _, _, _, db'. split; [done|]. by destruct (_ || _).
  - destruct (store_token_succeeds o t id source version db Hslot) as [db' Hd]. by eexists _, _, _, _, _, db'.
Qed.

(** The activity of a market is read back. *)
Lemma activity_reads (db : DiscoveryDb J) k r n field1 field2 field3 field4 :
  activity_row_ok (db_traders db) n k r -> n < 2 ^ 64 ->
  to_u64 (XE:=XE) (JE:=E) (ar_trades r) field1 = Ok (ar_trades r) /\
  to_u64 (XE:=XE) (JE:=E) (ar_buys r) field2 = Ok (ar_buys r) /\
  to_u64 (XE:=XE) (JE:=E) (ar_sells r) field3 = Ok (ar_sells r) /\
  to_u64 (XE:=XE) (JE:=E) (traders_of k (db_traders db)) field4 = Ok (traders_of k (db_traders db)).
Proof.
  intros [H1 H2 H3 H4 H5 H6 H7] Hn. pose proof (traders_of_nonneg k (db_traders db)).
  assert (forall v field, 0 <= v -> v <= n -> to_u64 (XE:=XE) (JE:=E) v field = Ok v) as Hu.
  { intros v field Hv Hvn. unfold to_u64. by rewrite (proj2 (try_from_u_Some 64 v v)) by (split; [done|int_lia]). }
  split_and!; apply Hu; lia.
Qed.

Lemma activity_succeeds o db n : activity_ok (db_activity db) (db_traders db) n -> amounts_ok o ->
  0 <= n -> n + 1 < 2 ^ 64 ->
  match payload o with Trade _ wallet _ _ _ _ => is_blank wallet = false | _ => True end ->
  exists act db', apply_observation_activity (E:=E) row_not_found o db = (Ok act, db').
Proof.
  intros Hok Ham Hn Hmax Hw. unfold apply_observation_activity. set (k := activity_key o).
  destruct (with_row_ok k _ _ _ Hn Hok) as [Hok1 [r1 Hr1]]. rewrite bind_eq. cbn [modify_state].
  fold (with_row k (db_activity db)). set (db1 := set_activity_table _ db). rewrite bind_eq.
  assert (exists db2 r, (match payload o with
      | Trade side wallet base quote _ _ =>
          _ ← st_lift (require_non_empty wallet "trade wallet");
          _ ← modify_state (fun db => set_traders ({[ (k, wallet) ]} ∪ db_traders db) db);
          modify_state (fun db => set_activity_table (alter (count_trade side base quote) k (db_activity db)) db)
      | _ => mret tt end) db1 = (Ok tt, db2) /\ db_activity db2 !! k = Some r /\
      activity_row_ok (db_traders db2) (n + 1) k r) as (db2 & r & -> & Hr & Hrow).
  { assert (activity_row_ok (db_traders db1) (n + 1) k r1) as Hsame
      by (eapply activity_row_ok_le; [|by apply (proj1 Hok1)]; lia).
    unfold amounts_ok in Ham. destruct (payload o) as [| |side wallet base quote br qr| | | |]; try (by exists db1, r1).
    rewrite lift_bind_state. unfold require_non_empty. fold (is_blank wallet). rewrite Hw. cbn [guard_err].
    eexists _, _. split; [done|]. split; [simpl; by rewrite lookup_alter_eq, Hr1|]. simpl.
    pose proof (count_trade_ok side base quote k wallet r1 _ _ _ Hok1 Hr1 (proj1 Ham) (proj2 Ham)) as [Hc _].
    apply Hc. by rewrite lookup_alter_eq, Hr1. }
  rewrite read_bind_state, Hr. cbn [mbind option_bind]. rewrite lift_bind_state. cbn [ok_or].
  destruct (activity_reads db2 k r (n + 1) "discovery_activity.trades" "discovery_activity.buys"
    "discovery_activity.sells" "discovery_activity.unique_traders" Hrow Hmax) as (E1 & E2 & E3 & E4).
  do 4 (rewrite lift_bind_state, ?E1, ?E2, ?E3, ?E4). by eexists _, _.
Qed.

Lemma transaction_commit {A} (body : stateful (DiscoveryDb J) (PersistenceError XE E) (TxEnd A)) db a db' :
  body db = (Ok (Commit a), db') -> transaction body db = (Ok a, db').
Proof. unfold transaction. by intros ->. Qed.
Lemma bind_step {S X A B} (m : stateful S X A) (k : A -> stateful S X B) st a st' :
  m st = (Ok a, st') -> (m ≫= k) st = k a st'.
Proof. rewrite bind_eq. by intros ->. Qed.

(** A well-formed fact under an unexpired lease is committed. *)
Lemma observation_succeeds now id worker o row v db :
  db_ok (E:=E) (timely:=false) db -> owned_row now id worker db = Some row -> wk_kind row = "DISCOVERY"%string ->
  db_facts db !! wk_observation_id row = Some v -> from_value (E:=E) v = Ok o ->
  fact_acceptable o -> is_blank worker = false ->
  exists m db', commit_discovery_observation (E:=E) row_not_found now id worker (candidate_of o) db = (Ok m, db').
Proof.
  intros Hok Hown Hk Hv Ho Hacc Hworker. destruct (discovery_token_shape o Hacc) as [Hshape Hst].
  destruct (discovery_token_fields o) as [Hmint Hslot].
  destruct (db_facts_ok _ Hok _ _ Hv) as (_ & o' & Ho' & Ham). rewrite Ho in Ho'. injection Ho' as <-.
  unfold commit_discovery_observation. cbn [candidate_of do_token do_validation_source do_validation_version].
  rewrite !lift_bind_state, (proj2 (require_non_empty_Ok worker _) Hworker).
  rewrite (proj2 (require_non_empty_Ok VALIDATION_SOURCE _)) by (vm_compute; reflexivity).
  rewrite (proj2 (require_non_empty_Ok _ _) (fa_decoder _ Hacc)).
  rewrite (proj2 (validate_token_shape_Ok _) Hshape), Hst, bool_decide_true by done. cbn [negb guard_err].
  destruct (outcome_succeeds db (discovery_token o) o id VALIDATION_SOURCE (decoder_version o)) as
    (m & t' & is_new & a & q & db1 & Hout & Hstore); [apply Hok|rewrite Hslot; apply Hacc|].
  destruct (discovery_outcome_ok tlaws _ _ _ _ _ _ _ _ _ _ _ _ (db_tokens_ok _ Hok) (token_ok_weaken false _ Hshape) Hst Hout Hstore)
    as (tokens & -> & _ & _).
  destruct (activity_succeeds o (set_tokens tokens db) (completed (db_work db)) (db_activity_ok _ Hok) Ham)
    as (act & db2 & Hact); [apply map_count_nonneg| |apply Hacc|].
  { pose proof (completed_bound _ _ _ (db_work_ok _ Hok)). pose proof (db_work_bound _ Hok). lia. }
  assert (exists db3, (if token_matches_observation_market t' o
    then update_discovery_token_metadata (XE:=XE) (E:=E) (set_activity act t') else mret tt) db2 = (Ok tt, db3)) as [db3 Hmeta]
    by (destruct (token_matches_observation_market t' o); [apply metadata_succeeds|by exists db2]).
  eexists m, _. apply transaction_commit.
  erewrite bind_step.
  2: { unfold lock_owned_work. rewrite read_bind_state, Hown. cbn [mbind option_bind]. rewrite Hv.
       cbn [mbind option_bind]. rewrite lift_bind_state. unfold decode_json. rewrite Ho. reflexivity. }
  cbn [own_observation own_work_kind]. rewrite lift_bind_state. unfold ensure_discovery_work. rewrite Hk. cbn [String.eqb].
  rewrite lift_bind_state, discovery_token_source, read_bind_state, lift_bind_state, Hout.
  rewrite (bind_step _ _ _ _ _ Hstore), (bind_step _ _ _ _ _ Hact), (bind_step _ _ _ _ _ Hmeta). reflexivity.
Qed.
End Commit.

(** ** Claims *)
Lemma map_result_omap {X Y A B C} (g : C -> option A) (f : A -> result (PersistenceError X Y) B) (R : C -> B -> Prop) l :
  (forall c, c ∈ l -> exists a b, g c = Some a /\ f a = Ok b /\ R c b) ->
  exists bs, map_result f (omap g l) = Ok bs /\ Forall2 R l bs.
Proof.
  induction l as [|c l IH]; intros Hf; csimpl; [by exists []|].
  destruct (Hf c) as (a & b & -> & Hb & HR); [by left|].
  destruct IH as (bs & Hbs & HRs); [intros x Hx; apply Hf; by right|]. simpl. rewrite Hb, Hbs.
  exists (b :: bs). by repeat constructor.
Qed.
Lemma claim_all_get now lease worker work ps p : NoDup ps.*1 -> p ∈ ps ->
  claim_all now lease worker ps work !! p.1 = Some (claim_row now lease worker p.2).
Proof.
  induction ps as [|q ps IH]; intros Hnd Hp; csimpl in *; [by apply elem_of_nil in Hp|].
  apply NoDup_cons in Hnd as [Hq Hnd]. apply elem_of_cons in Hp as [->|Hp]; [by rewrite lookup_insert_eq|].
  rewrite lookup_insert_ne; [by apply IH|]. intros He. apply Hq. rewrite He. apply list_elem_of_fmap. by exists p.
Qed.
Lemma claim_all_other now lease worker work ps id : id ∉ ps.*1 ->
  claim_all now lease worker ps work !! id = work !! id.
Proof.
  induction ps as [|q ps IH]; intros Hid; csimpl in *; [done|].
  apply not_elem_of_cons in Hid as [Hne Hid]. rewrite lookup_insert_ne by done. by apply IH.
Qed.

(** ** A turn of the worker *)
Section Turn.
Context {J XE E : Type} `{EqDecision J}.
Context (row_not_found : XE).
Context `{SP : !SerdeJson PrefilterDefaults J E} `{SQ : !SerdeJson QualificationDefaults J E}
  `{SS : !SerdeJson MarketWindowSnapshot J E} `{SA : !SerdeJson QualificationAssessment J E}
  `{SW : !SerdeJson DiscoveryWindowSummary J E} `{ST : !SerdeJson DiscoveryToken J E}
  `{SO : !SerdeJson (NormalizedObservation J) J E}.
Context (tlaws : SerdeLaws ST) (olaws : SerdeLaws SO).
Context (writes_tokens : forall t : DiscoveryToken, exists v, to_value (E:=E) t = Ok v).
Context (schedule : nat -> list (DbOp J) * Z) (locked : Z -> bool) (cancelled : nat -> bool).
Context (config : DiscoveryWorkerConfig).
Implicit Types (db : DiscoveryDb J) (st : WorkerState J) (w : ClaimedObservationWork J).
Abbreviation process := (process_work (XE:=XE) (E:=E) row_not_found schedule config).
Abbreviation process_claimed := (process_all (XE:=XE) (E:=E) row_not_found schedule cancelled config).
Abbreviation turns := (run_discovery_worker (XE:=XE) (E:=E) row_not_found schedule locked cancelled config).

Record config_ok : Prop := {
  cfg_worker : is_blank (dwc_worker_id config) = false;
  cfg_batch : 1 <= dwc_claim_batch config <= MAX_CLAIM_BATCH;
  cfg_lease : 1 <= dwc_lease_duration config <= i64_max;
}.
Context (cfg : config_ok).

(** A claimed fact that can be committed until [bound]. *)
Definition held (bound : Z) db w : Prop := exists row expires v,
  db_work db !! cw_work_id w = Some row /\ wk_kind row = "DISCOVERY"%string /\
  wk_status row = WorkProcessing /\ wk_lease_owner row = Some (dwc_worker_id config) /\
  wk_lease_expires_at row = Some expires /\ bound <= expires /\
  db_facts db !! wk_observation_id row = Some v /\ from_value (E:=E) v = Ok (cw_observation w) /\
  fact_acceptable (cw_observation w).

Lemma held_owned bound db w now : held bound db w -> now < bound -> exists row v,
  owned_row now (cw_work_id w) (dwc_worker_id config) db = Some row /\ wk_kind row = "DISCOVERY"%string /\
  db_facts db !! wk_observation_id row = Some v /\ from_value (E:=E) v = Ok (cw_observation w) /\
  fact_acceptable (cw_observation w).
Proof.
  intros (row & e & v & Hr & Hk & Hs & Ho & He & Hb & Hv & Hd & Ha) Hn. exists row, v. split_and!; try done.
  unfold owned_row. rewrite Hr. cbn [mbind option_bind]. rewrite Hs, Ho, He, !bool_decide_true by done.
  by rewrite gtb_true by lia.
Qed.

Lemma call_quiet {A} (m : Z -> stateful (DiscoveryDb J) (PersistenceError XE E) A) st n now :
  wks_calls st = n -> schedule n = ([], now) ->
  call (XE:=XE) (E:=E) row_not_found schedule m st =
  let '(r, db) := m now (wks_db st) in
  (r, {| wks_db := db; wks_calls := S (wks_calls st); wks_checks := wks_checks st; wks_published := wks_published st |}).
Proof. unfold call, others_ran. by intros -> ->. Qed.

(** The lease is extended, the fact committed; nothing else of the queue moves. *)
Lemma process_held w st t0 t1 bound :
  db_ok (E:=E) (timely:=false) (wks_db st) -> held bound (wks_db st) w ->
  schedule (wks_calls st) = ([], t0) -> schedule (S (wks_calls st)) = ([], t1) ->
  t0 < bound -> t1 < expires_after t0 (dwc_lease_duration config) ->
  exists st', process w st = (Ok tt, st') /\ db_ok (E:=E) (timely:=false) (wks_db st') /\
    wks_calls st' = S (S (wks_calls st)) /\ wks_checks st' = wks_checks st /\
    wks_published st' = wks_published st + 1 /\ db_facts (wks_db st') = db_facts (wks_db st) /\
    (exists row, db_work (wks_db st') !! cw_work_id w = Some row /\ wk_status row = WorkComplete) /\
    (forall id, id <> cw_work_id w -> db_work (wks_db st') !! id = db_work (wks_db st) !! id).
Proof.
  intros Hok Hheld S0 S1 Ht0 Ht1. destruct (held_owned _ _ _ t0 Hheld Ht0) as (row & v & Hown & Hk & Hv & Hd & Ha).
  pose proof (renew_ok (XE:=XE) t0 (cw_work_id w) (dwc_worker_id config) (dwc_lease_duration config) _ Hok) as Hok1.
  set (e := expires_after t0 (dwc_lease_duration config)) in *.
  set (db1 := update_work (cw_work_id w) (extend_lease e) (wks_db st)).
  assert (renew_observation_work_lease (XE:=XE) (E:=E) t0 (cw_work_id w) (dwc_worker_id config)
    (dwc_lease_duration config) (wks_db st) = (Ok (epoch_ms e), db1)) as Hrenew.
  { unfold renew_observation_work_lease. rewrite lift_bind_state, (proj2 (require_non_empty_Ok _ _) (cfg_worker cfg)).
    rewrite lift_bind_state. unfold duration_millis. cbn [negb andb].
    assert (dwc_lease_duration config =? 0 = false) as -> by (apply Z.eqb_neq; pose proof (cfg_lease cfg); lia).
    rewrite (proj2 (try_from_s_Some 64 _ _)) by (split; [done|pose proof (cfg_lease cfg); int_lia]).
    cbn [ok_or]. rewrite read_bind_state, Hown. reflexivity. }
  rewrite Hrenew in Hok1. simpl in Hok1. pose proof Hown as Hown0.
  apply owned_row_Some in Hown0 as (Hr & Hs & Ho & _).
  assert (owned_row t1 (cw_work_id w) (dwc_worker_id config) db1 = Some (extend_lease e row)) as Hown1.
  { unfold owned_row, db1. simpl. rewrite lookup_alter_eq, Hr. simpl. rewrite Hs, Ho, !bool_decide_true by done.
    by rewrite gtb_true by lia. }
  destruct (observation_succeeds row_not_found tlaws writes_tokens t1 (cw_work_id w) (dwc_worker_id config) (cw_observation w)
    (extend_lease e row) v db1 Hok1 Hown1 Hk Hv Hd Ha (cfg_worker cfg)) as (m & db2 & Hcommit).
  pose proof (observation_ok row_not_found tlaws t1 (cw_work_id w) (dwc_worker_id config) (candidate_of (cw_observation w)) _ Hok1) as Hok2.
  rewrite Hcommit in Hok2. simpl in Hok2.
  pose proof (observation_effect _ _ _ _ _ _ _ _ Hcommit) as (_ & _ & _ & _ & _ & _ & _ & _ & row1 & Hr1 & Hw & _ & Hf).
  rewrite Hown1 in Hr1. injection Hr1 as <-.
  eexists. split.
  { unfold process_work. rewrite bind_eq. unfold attempt at 1. rewrite (call_quiet _ _ _ _ eq_refl S0), Hrenew.
    rewrite bind_eq. unfold attempt at 1. erewrite (call_quiet _ _ (S (wks_calls st)) t1); [|reflexivity|exact S1]. cbn [wks_db]. rewrite Hcommit. reflexivity. }
  simpl. split_and!; try done.
  - eexists. rewrite Hw. unfold db1. simpl. by rewrite lookup_alter_eq, lookup_alter_eq, Hr.
  - intros id Hid. rewrite Hw. unfold db1. simpl. by rewrite !lookup_alter_ne.
Qed.

(** The claim succeeds, and what it hands out is held. *)
Lemma claim_succeeds db now : db_ok (E:=E) (timely:=false) db -> 
  let rows := claim_rows locked now WORK_KIND (dwc_claim_batch config) db in
  (forall p, p ∈ rows -> exists v o, db_facts db !! wk_observation_id p.2 = Some v /\ from_value (E:=E) v = Ok o /\
     fact_acceptable o) ->
  exists ws db1, claim_observation_work (XE:=XE) (E:=E) locked now WORK_KIND (dwc_worker_id config)
      (dwc_claim_batch config) (dwc_lease_duration config) db = (Ok ws, db1) /\
    cw_work_id <$> ws ≡ₚ rows.*1 /\ db_ok (E:=E) (timely:=false) db1 /\
    (forall w, w ∈ ws -> held (expires_after now (dwc_lease_duration config)) db1 w) /\
    (forall id, id ∉ rows.*1 -> db_work db1 !! id = db_work db !! id).
Proof.
  intros Hok rows Hacc. destruct (claim_rows_lookup locked now WORK_KIND (dwc_claim_batch config) db) as [Hnd Hin].
  fold rows in Hnd, Hin. set (lease := dwc_lease_duration config). set (worker := dwc_worker_id config).
  set (db1 := set_work (db_next_work db) (claim_all now lease worker rows (db_work db)) db).
  set (sorted := sort_by (fun p q : Z * WorkRow => cmp p.1 q.1) rows).
  destruct (map_result_omap (join_fact db1) (claimed_work (XE:=XE) (E:=E) now lease worker)
    (fun p w => cw_work_id w = p.1 /\ exists v, db_facts db !! wk_observation_id p.2 = Some v /\
       from_value (E:=E) v = Ok (cw_observation w) /\ fact_acceptable (cw_observation w)) sorted) as (ws & Hws & Hrel).
  { intros [id row] Hp. unfold sorted in Hp. rewrite sort_by_perm in Hp. destruct (Hacc _ Hp) as (v & o & Hv & Ho & Ha).
    destruct (Hin _ Hp) as [Hr Hc]. apply (claimable_row _ _ _ _ _ db) in Hc as (_ & Hat & _). simpl in *.
    destruct (proj2 (db_work_ok _ Hok) _ _ Hr) as [_ _ Hat' _ _]. exists (id, row, v). unfold join_fact. simpl. rewrite Hv.
    eexists. split; [done|]. unfold claimed_work, decode_json. rewrite Ho.
    rewrite (proj2 (try_from_u_Some 32 _ _)) by (split; [done|int_lia]). split; [done|]. split; [done|]. by exists v. }
  pose proof (claim_ok (XE:=XE) locked now WORK_KIND worker (dwc_claim_batch config) lease _ Hok) as Hok1.
  assert (claim_observation_work (XE:=XE) (E:=E) locked now WORK_KIND worker (dwc_claim_batch config) lease db = (Ok ws, db1)) as Hclaim.
  { unfold claim_observation_work. rewrite !lift_bind_state, (proj2 (require_non_empty_Ok WORK_KIND _)) by (vm_compute; reflexivity).
    rewrite (proj2 (require_non_empty_Ok _ _) (cfg_worker cfg)). pose proof (cfg_batch cfg) as [Hb1 Hb2].
    rewrite (proj2 (guard_err_Ok _ _)) by (apply Z.eqb_neq; lia).
    rewrite (proj2 (guard_err_Ok _ _)) by by apply gtb_false.
    unfold duration_millis. pose proof (cfg_lease cfg). unfold lease at 1. cbn [negb andb].
    assert (dwc_lease_duration config =? 0 = false) as -> by (apply Z.eqb_neq; lia).
    rewrite (proj2 (try_from_s_Some 64 lease lease)) by (unfold lease; split; [done|int_lia]). cbn [ok_or].
    rewrite read_bind_state. fold rows. rewrite bind_eq. cbn [modify_state]. fold db1. rewrite read_bind_state.
    fold sorted. rewrite Hws. done. }
  rewrite Hclaim in Hok1. exists ws, db1. split; [done|]. split; [|split; [done|split]].
  - rewrite (Forall2_map_eq fst cw_work_id _ _ _ (fun p w HR => proj1 HR) Hrel). unfold sorted. by rewrite sort_by_perm.
  - intros w Hw. apply list_elem_of_lookup in Hw as [i Hi].
    destruct (Forall2_lookup_r _ _ _ _ _ Hrel Hi) as (p & Hp & Hid & v & Hv & Ho & Ha).
    apply list_elem_of_lookup_2 in Hp. unfold sorted in Hp. rewrite sort_by_perm in Hp.
    destruct (Hin _ Hp) as [_ Hc]. destruct p as [id row]. apply (claimable_row _ _ _ _ _ db) in Hc as (Hk & _).
    exists (claim_row now lease worker row), (expires_after now lease), v. rewrite Hid. split_and!; try done.
    unfold db1. simpl. by apply (claim_all_get _ _ _ _ _ (id, row)).
  - intros id Hid. by apply claim_all_other.
Qed.

Lemma held_stays bound db db' w : held bound db w -> db_work db' !! cw_work_id w = db_work db !! cw_work_id w ->
  db_facts db' = db_facts db -> held bound db' w.
Proof. intros (row & e & v & Hr & Hrest) Hw Hf. exists row, e, v. by rewrite Hw, Hf. Qed.

Context (never_cancelled : forall n, cancelled n = false).

Lemma process_all_held ws st lo bound :
  db_ok (E:=E) (timely:=false) (wks_db st) -> NoDup (cw_work_id <$> ws) -> (forall w, w ∈ ws -> held bound (wks_db st) w) ->
  (forall n, (wks_calls st <= n)%nat -> exists t, schedule n = ([], t) /\ lo <= t < bound) ->
  bound <= expires_after lo (dwc_lease_duration config) ->
  exists st', process_claimed ws st = (Ok false, st') /\
    wks_published st' = wks_published st + Z.of_nat (length ws) /\
    (forall w, w ∈ ws -> exists row, db_work (wks_db st') !! cw_work_id w = Some row /\ wk_status row = WorkComplete) /\
    (forall id, id ∉ cw_work_id <$> ws -> db_work (wks_db st') !! id = db_work (wks_db st) !! id).
Proof.
  intros Hok Hnd Hheld Hquiet Hbound. revert st Hok Hheld Hquiet. induction ws as [|w ws IH]; intros st Hok Hheld Hquiet.
  { exists st. split_and!; [done|simpl; lia|by intros w ?%elem_of_nil|done]. }
  csimpl in *. apply NoDup_cons in Hnd as [Hw Hnd].
  destruct (Hquiet (wks_calls st)) as (t0 & S0 & Ht0); [lia|].
  destruct (Hquiet (S (wks_calls st))) as (t1 & S1 & Ht1); [lia|].
  set (st0 := {| wks_db := wks_db st; wks_calls := wks_calls st; wks_checks := S (wks_checks st);
                 wks_published := wks_published st |}).
  destruct (process_held w st0 t0 t1 bound) as (st1 & Hp & Hok1 & Hcalls & _ & Hpub & Hfacts & Hdone & Hother);
    [done|apply Hheld; by left|done|done|lia|unfold expires_after in *; lia|].
  destruct (IH Hnd st1) as (st2 & Hall & Hpub2 & Hdone2 & Hother2); [done| | |].
  { intros x Hx. apply (held_stays bound (wks_db st)); [apply Hheld; by right| |done].
    apply Hother. intros He. apply Hw. rewrite <- He. apply list_elem_of_fmap. by exists x. }
  { intros n Hn. apply Hquiet. rewrite Hcalls in Hn. simpl in Hn. lia. }
  exists st2. split_and!.
  - rewrite bind_eq. unfold is_cancelled at 1. rewrite never_cancelled. fold st0. cbv iota. rewrite bind_eq, Hp. exact Hall.
  - rewrite Hpub2, Hpub. simpl. lia.
  - intros x [->|Hx]%elem_of_cons; [|by apply Hdone2]. destruct Hdone as (row & Hr & Hs). exists row.
    by rewrite Hother2.
  - intros id [Hne Hid]%not_elem_of_cons. rewrite Hother2, Hother by done. done.
Qed.

(** C23: The worker commits what is due.  Let it hold the database to itself for
    one turn, begun at [t0] and ending before the leases it takes run out, with
    every due fact well formed.  Then the turn does not fail, and it leaves
    completed exactly the due facts, at most a batch of them, oldest first; each
    is announced once, no other item of the queue changes, and the worker goes
    on to its next turn. *)
Theorem worker_commits_due_facts st t0 :
  reachable (E:=E) row_not_found (wks_db st) ->
  let rows := claim_rows locked t0 WORK_KIND (dwc_claim_batch config) (wks_db st) in
  rows <> [] ->
  (forall p, p ∈ rows -> exists v o, db_facts (wks_db st) !! wk_observation_id p.2 = Some v /\
     from_value (E:=E) v = Ok o /\ fact_acceptable o) ->
  schedule (wks_calls st) = ([], t0) ->
  (forall n, (wks_calls st < n)%nat -> exists t, schedule n = ([], t) /\
     t0 <= t < expires_after t0 (dwc_lease_duration config)) ->
  exists st', (forall fuel, turns (S fuel) st = turns fuel st') /\
    wks_published st' = wks_published st + Z.of_nat (length rows) /\
    (forall p, p ∈ rows -> exists row, db_work (wks_db st') !! p.1 = Some row /\ wk_status row = WorkComplete) /\
    (forall id, id ∉ rows.*1 -> db_work (wks_db st') !! id = db_work (wks_db st) !! id).
Proof.
  intros Hreach rows Hne Hacc S0 Hquiet. apply history_ok in Hreach as Hok; [|done..].
  destruct (claim_succeeds (wks_db st) t0 Hok Hacc) as (ws & db1 & Hclaim & Hids & Hok1 & Hheld & Hother). fold rows in Hids, Hother.
  set (st1 := {| wks_db := db1; wks_calls := S (wks_calls st); wks_checks := S (wks_checks st);
                 wks_published := wks_published st |}).
  assert (NoDup (cw_work_id <$> ws)) as Hnd by (rewrite Hids; apply claim_rows_lookup).
  assert (length ws = length rows) as Hlen by (apply Permutation_length in Hids; by rewrite !length_fmap in Hids).
  destruct (process_all_held ws st1 t0 (expires_after t0 (dwc_lease_duration config)) Hok1 Hnd Hheld) as
    (st2 & Hall & Hpub & Hdone & Hrest); [|done|].
  { intros n Hn. apply Hquiet. simpl in Hn. lia. }
  exists st2. split; [|split; [|split]].
  - intros fuel. cbn [run_discovery_worker]. rewrite bind_eq. unfold is_cancelled at 1. rewrite never_cancelled. cbv iota.
    rewrite bind_eq. erewrite (call_quiet _ _ (wks_calls st) t0); [|reflexivity|exact S0].
    cbn [wks_db wks_calls wks_checks wks_published]. rewrite Hclaim.
    fold st1. destruct ws as [|w ws]; [by destruct rows|]. rewrite bind_eq, Hall. reflexivity.
  - rewrite Hpub, Hlen. done.
  - intros p Hp. assert (p.1 ∈ cw_work_id <$> ws) as Hw by (rewrite Hids; apply list_elem_of_fmap; by exists p).
    apply list_elem_of_fmap in Hw as (w & -> & Hw). by apply Hdone.
  - intros id Hid. rewrite Hrest by by rewrite Hids. by apply Hother.
Qed.
End Turn.

(** ** Stopping *)
Section Stop.
Context {J XE E : Type} `{EqDecision J}.
Context (row_not_found : XE).
Context `{SP : !SerdeJson PrefilterDefaults J E} `{SQ : !SerdeJson QualificationDefaults J E}
  `{SS : !SerdeJson MarketWindowSnapshot J E} `{SA : !SerdeJson QualificationAssessment J E}
  `{SW : !SerdeJson DiscoveryWindowSummary J E} `{ST : !SerdeJson DiscoveryToken J E}
  `{SO : !SerdeJson (NormalizedObservation J) J E}.
Context (schedule : nat -> list (DbOp J) * Z) (locked : Z -> bool) (cancelled : nat -> bool).
Context (config : DiscoveryWorkerConfig).
Implicit Types (st : WorkerState J).

Definition checks_grow st st' : Prop := (wks_checks st <= wks_checks st')%nat.
#[local] Instance checks_grow_refl : Reflexive checks_grow.
Proof. intros st. apply Nat.le_refl. Qed.
#[local] Instance checks_grow_trans : Transitive checks_grow.
Proof. intros a b c. apply Nat.le_trans. Qed.
Lemma call_checks {A} (m : Z -> stateful (DiscoveryDb J) (PersistenceError XE E) A) :
  preserves checks_grow (call (XE:=XE) (E:=E) row_not_found schedule m).
Proof. intros st. unfold call. destruct (m _ _) as [r db]. apply Nat.le_refl. Qed.
Lemma attempt_checks {A} (m : stateful (WorkerState J) (PersistenceError XE E) A) :
  preserves checks_grow m -> preserves checks_grow (attempt m).
Proof. intros Hm st. specialize (Hm st). unfold attempt. by destruct (m st). Qed.
Lemma cancelled_checks : preserves checks_grow (is_cancelled (XE:=XE) (E:=E) (J:=J) cancelled).
Proof. intros st. apply Nat.le_succ_diag_r. Qed.
Lemma publish_checks : preserves checks_grow (publish_discovery_projection_changed (XE:=XE) (E:=E) (J:=J)).
Proof. intros st. apply Nat.le_refl. Qed.
#[local] Hint Extern 1 (preserves checks_grow (call _ _ _)) => apply call_checks : stateful.
#[local] Hint Extern 1 (preserves checks_grow (attempt _)) => apply attempt_checks : stateful.
#[local] Hint Resolve cancelled_checks publish_checks : stateful.
Lemma process_all_checks ws :
  preserves checks_grow (process_all (XE:=XE) (E:=E) row_not_found schedule cancelled config ws).
Proof.
  induction ws as [|w ws IH]; simpl; [auto with stateful|].
  apply preserves_bind; [apply _|auto with stateful|]. intros []; [auto with stateful|].
  apply preserves_bind; [apply _| |done]. unfold process_work, give_back. auto 30 with stateful.
Qed.

(** The worker stops when it is cancelled.  Once every check from the [n]th
    on sees the cancellation, the loop of the worker ends, with success or with
    a database error, after no more turns than checks were left, whatever the
    database answers. *)
Theorem worker_stops n fuel st :
  (forall k, (n <= k)%nat -> cancelled k = true) -> (n - wks_checks st < fuel)%nat ->
  (run_discovery_worker (XE:=XE) (E:=E) row_not_found schedule locked cancelled config fuel st).1 <> Ok None.
Proof.
  intros Hc. revert st. induction fuel as [|fuel IH]; intros st Hf; [lia|]. simpl. rewrite bind_eq. unfold is_cancelled at 1.
  destruct (cancelled (wks_checks st)) eqn:Hst; [done|].
  assert (wks_checks st < n)%nat as Hlt by (apply Nat.lt_nge; intros Hge; rewrite (Hc _ Hge) in Hst; done).
  set (st0 := {| wks_db := wks_db st; wks_calls := wks_calls st; wks_checks := S (wks_checks st);
                 wks_published := wks_published st |}).
  rewrite bind_eq. match goal with |- context [call ?r ?s ?m st0] => pose proof (call_checks m st0) as Hcall;
    destruct (call r s m st0) as [[claimed|e] st1] end; [|done].
  unfold checks_grow in Hcall. simpl in Hcall. destruct claimed as [|w ws].
  - rewrite bind_eq. unfold is_cancelled at 1. destruct (cancelled (wks_checks st1)); [done|]. apply IH. simpl. lia.
  - rewrite bind_eq. pose proof (process_all_checks (w :: ws) st1) as Hall. unfold checks_grow in Hall.
    destruct (process_all _ _ _ _ (w :: ws) st1) as [[[]|e] st2]; [done| |done]. apply IH. simpl in Hall. lia.
Qed.
End Stop.

(** One turn of the discovery worker over two received trades. *)
#[local] Existing Instance SampleStore.Js_eq_dec.
#[local] Existing Instance SampleStore.prefilter_json.
#[local] Existing Instance SampleStore.settings_json.
#[local] Existing Instance SampleStore.snapshot_json.
#[local] Existing Instance SampleStore.assessment_json.
#[local] Existing Instance SampleStore.summary_json.
#[local] Existing Instance SampleStore.token_json.
#[local] Existing Instance SampleStore.observation_json.

Module SampleWorker.
Import SampleStore SampleDb.
Definition received : list (DbOp Js) := [OpReceive 0 (value bought); OpReceive 1 (value sold)].
Definition st : WorkerState Js :=
  {| wks_db := after received; wks_calls := 0; wks_checks := 0; wks_published := 0 |}.
Definition config : DiscoveryWorkerConfig := for_process "w1".
(** Nobody else uses the database; a call takes a microsecond. *)
Definition schedule (n : nat) : list (DbOp Js) * Z := ([], 10 + Z.of_nat (Nat.min n 100)).
Definition locked (id : Z) : bool := false.
Definition never (n : nat) : bool := false.
Definition queued (fact at_ : Z) : WorkRow := {|
  wk_observation_id := fact; wk_kind := "DISCOVERY"; wk_status := WorkPending; wk_attempts := 0;
  wk_available_at := at_; wk_finished_at := None; wk_last_error_code := None; wk_lease_owner := None;
  wk_lease_expires_at := None |}.

Lemma received_reachable : DiscoveryDbHistory.reachable (XE:=unit) (E:=unit) tt (wks_db st).
Proof.
  unfold st, after. cbn [wks_db]. rewrite run_ops_db. apply reachable_along; [constructor|].
  split; [apply received_ok; vm_compute; intuition congruence|].
  split; [apply received_ok; vm_compute; intuition congruence|exact I].
Qed.
Lemma due : claim_rows locked 10 WORK_KIND (dwc_claim_batch config) (wks_db st) = [(1, queued 1 0); (2, queued 2 1)].
Proof. vm_compute. reflexivity. Qed.
Lemma facts_are : db_facts (wks_db st) !! 1 = Some (value bought) /\ db_facts (wks_db st) !! 2 = Some (value sold).
Proof. vm_compute. done. Qed.
Lemma acceptable : fact_acceptable bought /\ fact_acceptable sold.
Proof. split; split; vm_compute; intuition congruence. Qed.
Lemma due_acceptable p : p ∈ [(1, queued 1 0); (2, queued 2 1)] -> exists v o,
  db_facts (wks_db st) !! wk_observation_id p.2 = Some v /\ from_value (E:=unit) v = Ok o /\ fact_acceptable o.
Proof.
  destruct facts_are as [F1 F2]. destruct acceptable as [A1 A2].
  intros [->|[->|[]%elem_of_nil]%elem_of_cons]%elem_of_cons.
  - exists (value bought), bought. split; [exact F1|]. split; [vm_compute; reflexivity|exact A1].
  - exists (value sold), sold. split; [exact F2|]. split; [vm_compute; reflexivity|exact A2].
Qed.
Lemma config_is_ok : config_ok config.
Proof. split; vm_compute; intuition congruence. Qed.
Lemma tokens_written : forall t : DiscoveryToken, exists v : Js, to_value (E:=unit) t = Ok v.
Proof. intros t. by eexists. Qed.
Lemma within n : (0 < n)%nat -> exists t, schedule n = ([], t) /\ 10 <= t < expires_after 10 (dwc_lease_duration config).
Proof.
  intros _. eexists. split; [done|]. change (expires_after 10 (dwc_lease_duration config)) with 30000010. lia.
Qed.
End SampleWorker.

Lemma worker_commits_due_facts_witness :
  claim_rows SampleWorker.locked 10 WORK_KIND (dwc_claim_batch SampleWorker.config) (wks_db SampleWorker.st) =
    [(1, SampleWorker.queued 1 0); (2, SampleWorker.queued 2 1)] /\
  exists st' : WorkerState SampleStore.Js, wks_published st' = 2 /\
    exists row, db_work (wks_db st') !! 1 = Some row /\ wk_status row = WorkComplete.
Proof.
  split; [exact SampleWorker.due|].
  pose proof (worker_commits_due_facts (XE:=unit) (E:=unit) tt SampleDb.sample_token_laws SampleStore.observation_laws
    SampleWorker.tokens_written SampleWorker.schedule SampleWorker.locked SampleWorker.never SampleWorker.config
    SampleWorker.config_is_ok (fun _ => eq_refl) SampleWorker.st 10 SampleWorker.received_reachable) as H.
  rewrite SampleWorker.due in H.
  destruct H as (st' & _ & Hpub & Hdone & _);
    [discriminate|exact SampleWorker.due_acceptable|reflexivity|exact SampleWorker.within|].
  exists st'. split; [rewrite Hpub; reflexivity|].
  apply (Hdone (1, SampleWorker.queued 1 0)). left.
Defined.

Lemma worker_stops_witness :
  (0 - wks_checks SampleWorker.st < 1)%nat /\
  (run_discovery_worker (XE:=unit) (E:=unit) tt SampleWorker.schedule SampleWorker.locked (fun _ => true)
    SampleWorker.config 1 SampleWorker.st).1 <> Ok None.
Proof.
  split; [apply Nat.lt_0_succ|].
  apply (worker_stops (XE:=unit) (E:=unit) tt SampleWorker.schedule SampleWorker.locked (fun _ => true) SampleWorker.config
    0 1 SampleWorker.st); [reflexivity|apply Nat.lt_0_succ].
Defined.
