(* ===== verification/Finalizer.v ===== *)
(** [apps/server/src/jobs/qualification.rs]: the job that finalizes closed
    windows, those a previous run abandoned, and at shutdown whatever is left.

    The database and the clocks are an interface.  A database call and a sleep
    are awaits: they return the registry as the other tasks left it meanwhile.
    Instants and durations are nanoseconds. *)
From S2P Require Import Prelude.
From S2P Require Import Stateful.
From S2P Require Import RustStr.
From S2P Require Import Domain.
From S2P Require Import External.
From S2P Require Import Snapshot.
From S2P Require Import Qualification.
From S2P Require Import WindowToken.
From S2P Require Import WindowRegistry.
From S2P Require Import ApiContracts.
From S2P Require Import PersistenceModel.
From S2P Require Import Finalization.

(** ** The environment as the finalizer uses it *)
Class FinalizerEnv (J XE JE : Type) := {
  Env : Type;
  load_projection_readiness : Z -> Env -> World ->
    result (PersistenceError XE JE) DiscoveryWindowProjectionReadiness * Env * World;
  load_window : Z -> Env -> World ->
    result (PersistenceError XE JE) (DiscoveryWindowRecord J) * Env * World;
  commit_window : FinalizeDiscoveryWindow J -> Env -> World ->
    result (PersistenceError XE JE) bool * Env * World;
  load_interrupted_window_ids : string -> Env -> World ->
    result (PersistenceError XE JE) (list Z) * Env * World;
  load_active_window_ids : option string -> Env -> World ->
    result (PersistenceError XE JE) (list Z) * Env * World;
  sleep : Z -> Env -> World -> Env * World;
  (** [SystemTime::now().duration_since(UNIX_EPOCH).ok()]. *)
  since_epoch : Env -> option Z * Env;
  instant_now : Env -> Z * Env;
}.

Definition FINALIZER_RETRY_DELAY : Z := 1000000000.
Definition SHUTDOWN_DRAIN_LIMIT : Z := 2000000000.
Definition SHUTDOWN_PAUSE : Z := 25000000.

(** ** [FinalizationRetrySchedule] *)
Definition FinalizationRetrySchedule := gmap Z Z.
Definition is_due (retries : FinalizationRetrySchedule) (window_id now : Z) : bool :=
  match retries !! window_id with Some retry_at => retry_at <=? now | None => true end.
Definition defer (retries : FinalizationRetrySchedule) (window_id now delay : Z)
    : FinalizationRetrySchedule := <[window_id := now + delay]> retries.
Definition clear_retry (retries : FinalizationRetrySchedule) (window_id : Z)
    : FinalizationRetrySchedule := delete window_id retries.

Inductive QualificationWorkerError {XE JE : Type} :=
| QwPersistence (e : PersistenceError XE JE)
| QwWindowIdOutOfRange.
#[global] Arguments QualificationWorkerError : clear implicits.

(** The errors that mean the evidence has not settled yet. *)
Definition is_lag {XE JE} (e : QualificationWorkerError XE JE) : bool :=
  match e with
  | QwPersistence (PeDiscoveryWindowProjectionMissing _)
  | QwPersistence (PeDiscoveryWindowEvidenceChanged _) => true
  | _ => false
  end.

Definition terminal_incomplete_reason (readiness : DiscoveryWindowProjectionReadiness)
    (incomplete_reason : option WindowIncompleteReason) : option WindowIncompleteReason :=
  if bool_decide (readiness = OpeningProjectionUnavailable) then Some ProcessingFailed
  else incomplete_reason.

(** [unix_time_millis]. *)
Definition unix_millis_of (elapsed : option Z) : Z :=
  default i64_max (d ← elapsed; try_from_s 64 (d / 1000000)).

Section Finalizer.
Context {J XE JE : Type}.
Context `{SS : !SerdeJson MarketWindowSnapshot J JE} `{SA : !SerdeJson QualificationAssessment J JE}.
Context {FE : FinalizerEnv J XE JE}.

(** The environment, the registry, and how many times the projection was
    announced as changed. *)
Record FinalizerState := { fs_env : Env; fs_world : World; fs_published : nat }.
Abbreviation FinalizerM := (stateful FinalizerState (QualificationWorkerError XE JE)).

(** One awaited database call. *)
Definition env_call {A} (call : Env -> World -> result (PersistenceError XE JE) A * Env * World)
    : FinalizerM A := fun st =>
  let '(r, env, w) := call (fs_env st) (fs_world st) in
  (map_err QwPersistence r, {| fs_env := env; fs_world := w; fs_published := fs_published st |}).
Definition pause (duration : Z) : FinalizerM unit := fun st =>
  let '(env, w) := sleep duration (fs_env st) (fs_world st) in
  (Ok tt, {| fs_env := env; fs_world := w; fs_published := fs_published st |}).
(** A reading of a clock. *)
Definition clock {A} (read : Env -> A * Env) : FinalizerM A := fun st =>
  let '(a, env) := read (fs_env st) in
  (Ok a, {| fs_env := env; fs_world := fs_world st; fs_published := fs_published st |}).
(** One call on the registry. *)
Definition registry_call {A} (call : World -> A * World) : FinalizerM A := fun st =>
  let '(a, w) := call (fs_world st) in
  (Ok a, {| fs_env := fs_env st; fs_world := w; fs_published := fs_published st |}).
Definition unix_time_millis : FinalizerM Z := elapsed ← clock since_epoch; mret (unix_millis_of elapsed).
(** [publish_discovery_projection_changed]. *)
Definition publish (st : FinalizerState) : FinalizerState :=
  {| fs_env := fs_env st; fs_world := fs_world st; fs_published := S (fs_published st) |}.

(** ** One window *)
Definition finalize_window (window_id : Z) (incomplete_reason : option WindowIncompleteReason)
    : FinalizerM bool :=
  window ← env_call (load_window window_id);
  finalized_at_unix_ms ← unix_time_millis;
  finalized ← st_lift (map_err QwPersistence (build_discovery_window_finalization window
                 finalized_at_unix_ms (reason_str <$> incomplete_reason)));
  committed ← env_call (commit_window finalized);
  _ ← (if (committed : bool) then modify_state publish else mret tt);
  mret committed.

(** [None]: the window has to be tried again later. *)
Definition attempt_finalize_window (window_id : Z) (incomplete_reason : option WindowIncompleteReason)
    : FinalizerM (option bool) :=
  readiness ← env_call (load_projection_readiness window_id);
  if bool_decide (readiness = ReadinessPending) then mret None
  else fun st =>
    match finalize_window window_id (terminal_incomplete_reason readiness incomplete_reason) st with
    | (Ok committed, st) => (Ok (Some committed), st)
    | (Err e, st) => if is_lag e then (Ok None, st) else (Err e, st)
    end.

(** A list of windows one after the other, with the number committed. *)
Fixpoint finalize_all (incomplete_reason : option WindowIncompleteReason) (window_ids : list Z)
    (finalized : nat) : FinalizerM nat :=
  match window_ids with
  | [] => mret finalized
  | window_id :: rest =>
      committed ← attempt_finalize_window window_id incomplete_reason;
      finalize_all incomplete_reason rest
        (if bool_decide (committed = Some true) then S finalized else finalized)
  end.

Definition finalize_abandoned_windows (current_collector_run_id : string) : FinalizerM nat :=
  window_ids ← env_call (load_interrupted_window_ids current_collector_run_id);
  finalize_all (Some PipelineRestarted) window_ids 0.

(** ** The windows that are ready *)

(** What is done with a claim: it is dropped whatever happens, after it was
    marked committed or not. *)
Definition use_claim (retries : FinalizationRetrySchedule) (retry_delay : Z) (finalized : nat)
    (window_id : Z) (claim : FinalizationClaim) : FinalizerM (FinalizationRetrySchedule * nat) := fun st =>
  match attempt_finalize_window window_id (cl_reason claim) st with
  | (Err e, st) => (_ ← registry_call (fun w => (tt, claim_drop w claim)); st_fail e) st
  | (Ok None, st) =>
      (now ← clock instant_now;
       _ ← registry_call (fun w => (tt, claim_drop w claim));
       mret (defer retries window_id now retry_delay, finalized)) st
  | (Ok (Some committed), st) =>
      (_ ← registry_call (fun w => claim_mark_committed w claim);
       mret (clear_retry retries window_id, if (committed : bool) then S finalized else finalized)) st
  end.

Definition finalize_candidate (retries : FinalizationRetrySchedule) (retry_delay : Z) (finalized : nat)
    (token : Token) : FinalizerM (FinalizationRetrySchedule * nat) :=
  durable ← read_state (fun st => tc_durable_window_id (cells_of (heap (fs_world st)) token));
  match durable with
  | None => st_fail QwWindowIdOutOfRange
  | Some window_id =>
      retry_now ← clock instant_now;
      if negb (is_due retries window_id retry_now) then mret (retries, finalized)
      else
        claim ← registry_call (fun w => claim_finalization w token);
        match claim with
        | None => mret (retries, finalized)
        | Some claim => use_claim retries retry_delay finalized window_id claim
        end
  end.

Fixpoint finalize_candidates (retries : FinalizationRetrySchedule) (retry_delay : Z) (finalized : nat)
    (candidates : list Token) : FinalizerM (FinalizationRetrySchedule * nat) :=
  match candidates with
  | [] => mret (retries, finalized)
  | token :: rest =>
      progress ← finalize_candidate retries retry_delay finalized token;
      finalize_candidates progress.1 retry_delay progress.2 rest
  end.

Definition finalize_ready_tokens (retries : FinalizationRetrySchedule) (retry_delay : Z)
    : FinalizerM (FinalizationRetrySchedule * nat) :=
  now ← unix_time_millis;
  candidates ← registry_call (fun w => finalization_candidates w now);
  progress ← finalize_candidates retries retry_delay 0 candidates;
  _ ← registry_call cleanup_finalized;
  mret progress.

(** ** Shutdown *)

(** The [while] loop before the deadline: [Some true] when no window of the run
    is active any more, [Some false] at the deadline, [None] out of fuel. *)
Fixpoint drain_until (fuel : nat) (collector_run_id : string) (deadline : Z)
    (retries : FinalizationRetrySchedule) : FinalizerM (option bool) :=
  match fuel with
  | O => mret None
  | S fuel =>
      now ← clock instant_now;
      if now <? deadline then
        progress ← finalize_ready_tokens retries 0;
        active ← env_call (load_active_window_ids (Some collector_run_id));
        match active with
        | [] => mret (Some true)
        | _ => _ ← pause SHUTDOWN_PAUSE; drain_until fuel collector_run_id deadline progress.1
        end
      else mret (Some false)
  end.

Definition drain_shutdown (fuel : nat) (collector_run_id : string) : FinalizerM (option unit) :=
  now ← clock instant_now;
  drained ← drain_until fuel collector_run_id (now + SHUTDOWN_DRAIN_LIMIT) ∅;
  match drained with
  | None => mret None
  | Some true => mret (Some tt)
  | Some false =>
      window_ids ← env_call (load_active_window_ids (Some collector_run_id));
      _ ← finalize_all (Some StreamStopped) window_ids 0;
      mret (Some tt)
  end.

(** ** The job *)

(** The branches of the [select!]. *)
Inductive FinalizerEvent := FeTick | FeAbandonedTick | FeCancelled.

(** The loop over the branches taken: [None] while it goes on. *)
Fixpoint run_qualification_finalizer (fuel : nat) (collector_run_id : string)
    (retries : FinalizationRetrySchedule) (branches : list FinalizerEvent) : FinalizerM (option unit) :=
  match branches with
  | [] => mret None
  | FeTick :: rest =>
      progress ← finalize_ready_tokens retries FINALIZER_RETRY_DELAY;
      run_qualification_finalizer fuel collector_run_id progress.1 rest
  | FeAbandonedTick :: rest =>
      _ ← finalize_abandoned_windows collector_run_id;
      run_qualification_finalizer fuel collector_run_id retries rest
  | FeCancelled :: _ =>
      _ ← registry_call (fun w => cancel_all_confirmed w StreamStopped);
      drain_shutdown fuel collector_run_id
  end.
End Finalizer.
