(* ===== verification/FinalizerProofs.v ===== *)
(** The finalizing job step by step: an invariant of the environment and the
    registry that survives the calls of other tasks, the claims and the commits
    holds throughout, whatever fails. *)
From S2P Require Import Prelude.
From S2P Require Import Stateful.
From S2P Require Import RustStr.
From S2P Require Import Domain.
From S2P Require Import External.
From S2P Require Import Snapshot.
From S2P Require Import Qualification.
From S2P Require Import WindowToken.
From S2P Require Import WindowRegistry.
From S2P Require Import ApiContracts.
From S2P Require Import PersistenceModel.
From S2P Require Import Finalization.
From S2P Require Import FinalizationProofs.
From S2P Require Import Finalizer.

Section Proofs.
Context {J XE JE : Type} `{EqDecision J}.
Context `{SS : !SerdeJson MarketWindowSnapshot J JE} `{SA : !SerdeJson QualificationAssessment J JE}.
Context {FE : FinalizerEnv J XE JE}.
Abbreviation State := (FinalizerState (FE:=FE)).
Abbreviation Error := (QualificationWorkerError XE JE).
Abbreviation M := (stateful State Error).

(** ** Awaits *)

(** One call of the environment, with what other tasks did meanwhile. *)
Inductive read_step : Env -> World -> Env -> World -> Prop :=
| rd_readiness i env w :
    read_step env w (load_projection_readiness i env w).1.2 (load_projection_readiness i env w).2
| rd_window i env w : read_step env w (load_window i env w).1.2 (load_window i env w).2
| rd_interrupted r env w :
    read_step env w (load_interrupted_window_ids r env w).1.2 (load_interrupted_window_ids r env w).2
| rd_active r env w :
    read_step env w (load_active_window_ids r env w).1.2 (load_active_window_ids r env w).2
| rd_sleep d env w : read_step env w (sleep d env w).1 (sleep d env w).2
| rd_epoch env w : read_step env w (since_epoch env).2 w
| rd_instant env w : read_step env w (instant_now env).2 w.
Inductive env_step : Env -> World -> Env -> World -> Prop :=
| es_read env w env' w' : read_step env w env' w' -> env_step env w env' w'
| es_commit f env w : env_step env w (commit_window f env w).1.2 (commit_window f env w).2.
#[local] Hint Constructors read_step env_step : finalizer.

Definition is_env_call {A} (call : Env -> World -> result (PersistenceError XE JE) A * Env * World) : Prop :=
  forall env w, env_step env w (call env w).1.2 (call env w).2.

Lemma is_env_call_readiness i : is_env_call (load_projection_readiness i).
Proof. intros env w. auto with finalizer. Qed.
Lemma is_env_call_window i : is_env_call (load_window i).
Proof. intros env w. auto with finalizer. Qed.
Lemma is_env_call_commit f : is_env_call (commit_window f).
Proof. intros env w. auto with finalizer. Qed.
Lemma is_env_call_interrupted r : is_env_call (load_interrupted_window_ids r).
Proof. intros env w. auto with finalizer. Qed.
Lemma is_env_call_active r : is_env_call (load_active_window_ids r).
Proof. intros env w. auto with finalizer. Qed.
#[local] Hint Resolve is_env_call_readiness is_env_call_window is_env_call_commit
  is_env_call_interrupted is_env_call_active : finalizer.

(** The errors of the calls that only read. *)
Inductive read_error : PersistenceError XE JE -> Prop :=
| re_readiness i env w e : (load_projection_readiness i env w).1.1 = Err e -> read_error e
| re_interrupted r env w e : (load_interrupted_window_ids r env w).1.1 = Err e -> read_error e
| re_active r env w e : (load_active_window_ids r env w).1.1 = Err e -> read_error e.

Definition state_of (env : Env) (w : World) (n : nat) : State :=
  {| fs_env := env; fs_world := w; fs_published := n |}.

(** ** One window *)
Section Window.
Context (I : State -> Prop) (Q : Error -> Prop).
Hypothesis I_env : forall env w env' w' n, env_step env w env' w' ->
  I (state_of env w n) -> I (state_of env' w' n).
Hypothesis I_publish : forall st, I st -> I (publish st).
Hypothesis Q_other : forall e, is_lag (QwPersistence e) = false -> Q (QwPersistence e).
Hypothesis Q_reads : forall e, read_error e -> Q (QwPersistence e).

Abbreviation keeps := (maintains I (fun e st => I st /\ Q e)).
Abbreviation persists := (maintains I (fun e st => I st /\ exists pe : PersistenceError XE JE, e = QwPersistence pe)).

Lemma env_call_step {A} (call : Env -> World -> result (PersistenceError XE JE) A * Env * World) st :
  is_env_call call -> I st ->
  I (env_call call st).2 /\
  forall e, (env_call call st).1 = Err e ->
    exists pe, e = QwPersistence pe /\ (call (fs_env st) (fs_world st)).1.1 = Err pe.
Proof.
  intros Hc H. destruct st as [env w n]. unfold env_call. simpl. specialize (Hc env w).
  destruct (call env w) as [[r env'] w']. simpl in *. split; [by eapply I_env|].
  intros e. destruct r; simpl; [done|]. intros [= <-]. eauto.
Qed.

Lemma persists_env {A} (call : Env -> World -> result (PersistenceError XE JE) A * Env * World) :
  is_env_call call -> persists (env_call call).
Proof.
  intros Hc st H. destruct (env_call_step call st Hc H) as [H1 H2].
  destruct (env_call call st) as [[a|e] st']; simpl in *; [done|]. split; [done|].
  destruct (H2 e eq_refl) as (pe & He & _). eauto.
Qed.

Lemma keeps_env {A} (call : Env -> World -> result (PersistenceError XE JE) A * Env * World) :
  is_env_call call -> (forall env w e, (call env w).1.1 = Err e -> read_error e) -> keeps (env_call call).
Proof.
  intros Hc Hr st H. destruct (env_call_step call st Hc H) as [H1 H2].
  destruct (env_call call st) as [[a|e] st']; simpl in *; [done|]. split; [done|].
  destruct (H2 e eq_refl) as (pe & -> & He). eauto.
Qed.

Lemma maintains_clock {A} F (read : Env -> A * Env) :
  (forall env w, env_step env w (read env).2 w) -> maintains I F (clock read).
Proof.
  intros Hr [env w n] H. unfold clock. simpl. specialize (Hr env w).
  destruct (read env) as [a env']. by eapply I_env.
Qed.
Lemma maintains_epoch F : maintains I F (clock since_epoch).
Proof. apply maintains_clock. auto with finalizer. Qed.
Lemma maintains_instant F : maintains I F (clock instant_now).
Proof. apply maintains_clock. auto with finalizer. Qed.
Lemma maintains_unix F : maintains I F unix_time_millis.
Proof. unfold unix_time_millis. apply maintains_bind; [apply maintains_epoch|auto with stateful]. Qed.
Lemma maintains_pause F d : maintains I F (pause d).
Proof.
  intros [env w n] H. unfold pause. simpl. pose proof (es_read _ _ _ _ (rd_sleep d env w)) as Hs.
  destruct (sleep d env w) as [env' w']. by eapply I_env.
Qed.

Lemma persists_finalize window_id reason : persists (finalize_window window_id reason).
Proof.
  unfold finalize_window. apply maintains_bind; [auto using persists_env with finalizer|intros record].
  apply maintains_bind; [apply maintains_unix|intros at_].
  apply maintains_bind.
  { intros st H. unfold st_lift. destruct (build_discovery_window_finalization _ _ _); simpl; eauto. }
  intros f. apply maintains_bind; [auto using persists_env with finalizer|intros committed].
  apply maintains_bind; [|auto with stateful].
  destruct committed; [by apply maintains_modify|auto with stateful].
Qed.

Lemma keeps_attempt window_id reason : keeps (attempt_finalize_window window_id reason).
Proof.
  unfold attempt_finalize_window. apply maintains_bind.
  { apply keeps_env; [auto with finalizer|]. intros. by eapply re_readiness. }
  intros readiness. case_bool_decide; [auto with stateful|]. intros st H0.
  pose proof (persists_finalize window_id (terminal_incomplete_reason readiness reason) st H0) as H1.
  destruct (finalize_window _ _ st) as [[c|e] st']; [done|]. destruct H1 as [H1 (pe & ->)].
  destruct (is_lag _) eqn:El; [done|]. auto.
Qed.

Lemma keeps_all reason ids n : keeps (finalize_all reason ids n).
Proof.
  revert n. induction ids as [|i ids IH]; intros n; simpl; [auto with stateful|].
  apply maintains_bind; [apply keeps_attempt|intros c; apply IH].
Qed.

Lemma keeps_abandoned run : keeps (finalize_abandoned_windows run).
Proof.
  unfold finalize_abandoned_windows. apply maintains_bind; [|intros ids; apply keeps_all].
  apply keeps_env; [auto with finalizer|]. intros. by eapply re_interrupted.
Qed.

Lemma keeps_active run : keeps (env_call (load_active_window_ids run)).
Proof. apply keeps_env; [auto with finalizer|]. intros. by eapply re_active. Qed.
End Window.

(** ** The whole job *)

(** The invariant depends on the claim that is held, the cells and the window it
    is for, and on the candidates still to be tried. *)
Section Job.
Context (I : list Token -> option (nat * Z) -> State -> Prop) (Q : Error -> Prop).
Context (committed : Env -> Z -> Prop).
Hypothesis I_env : forall cs held env w env' w' n, env_step env w env' w' ->
  I cs held (state_of env w n) -> I cs held (state_of env' w' n).
Hypothesis I_publish : forall cs held st, I cs held st -> I cs held (publish st).
Hypothesis I_tried : forall t cs held st, I (t :: cs) held st -> I cs held st.
Hypothesis I_claim : forall cs env w n t id,
  tc_durable_window_id (cells_of (heap w) t) = Some id -> I cs None (state_of env w n) ->
  match claim_finalization w t with
  | (Some claim, w') => I cs (Some (tok_cells (cl_token claim), id)) (state_of env w' n)
  | (None, w') => I cs None (state_of env w' n)
  end.
Hypothesis I_drop : forall cs env w n claim id,
  I cs (Some (tok_cells (cl_token claim), id)) (state_of env w n) ->
  I cs None (state_of env (claim_drop w claim) n).
Hypothesis I_commit : forall cs env w n claim id, committed env id ->
  I cs (Some (tok_cells (cl_token claim), id)) (state_of env w n) ->
  I cs None (state_of env (claim_mark_committed w claim).2 n).
Hypothesis I_candidates : forall env w n now, I [] None (state_of env w n) ->
  I (finalization_candidates w now).1 None (state_of env (finalization_candidates w now).2 n).
Hypothesis I_cleanup : forall env w n, I [] None (state_of env w n) ->
  I [] None (state_of env (cleanup_finalized w).2 n).
Hypothesis I_cancel : forall env w n reason, I [] None (state_of env w n) ->
  I [] None (state_of env (cancel_all_confirmed w reason).2 n).
Hypothesis Q_other : forall e, is_lag (QwPersistence e) = false -> Q (QwPersistence e).
Hypothesis Q_reads : forall e, read_error e -> Q (QwPersistence e).
Hypothesis Q_unnumbered : forall t cs st, I (t :: cs) None st ->
  tc_durable_window_id (cells_of (heap (fs_world st)) t) = None -> Q QwWindowIdOutOfRange.
Hypothesis attempts_commit : forall id reason st b st',
  attempt_finalize_window id reason st = (Ok (Some b), st') -> committed (fs_env st') id.

(** The outcome of a run that starts with [cs] to be tried. *)
Definition outcome (cs : list Token) {A} (q : result Error A * State) : Prop :=
  match q with
  | (Ok _, st) => I cs None st
  | (Err e, st) => I cs None st /\ Q e
  end.
Abbreviation keeps := (maintains (I [] None) (fun e st => I [] None st /\ Q e)).

Lemma I_all_tried cs held st : I cs held st -> I [] held st.
Proof. induction cs as [|t cs IH]; eauto. Qed.

Lemma outcome_tried cs {A} (q : result Error A * State) : outcome cs q -> outcome [] q.
Proof. destruct q as [[a|e] st]; simpl; [|intros [H HQ]; split; [|done]]; eauto using I_all_tried. Qed.

Lemma outcome_clock cs {A B} (read : Env -> A * Env) (k : A -> M B) env w n :
  (forall env w, env_step env w (read env).2 w) -> I cs None (state_of env w n) ->
  (forall a env', I cs None (state_of env' w n) -> outcome cs (k a (state_of env' w n))) ->
  outcome cs ((clock read ≫= k) (state_of env w n)).
Proof.
  intros Hr H Hk. rewrite bind_eq. unfold clock. simpl. specialize (Hr env w).
  destruct (read env) as [a env']. simpl in *. apply Hk. by eapply I_env.
Qed.

Lemma outcome_use_claim cs retries delay k id claim st :
  I cs (Some (tok_cells (cl_token claim), id)) st ->
  outcome cs (use_claim retries delay k id claim st).
Proof.
  intros H. unfold use_claim.
  pose proof (keeps_attempt (I cs (Some (tok_cells (cl_token claim), id))) Q) as Ha.
  specialize (Ha ltac:(eauto) ltac:(eauto) Q_other Q_reads id (cl_reason claim) st H).
  destruct (attempt_finalize_window _ _ st) as [[[b|]|e] st1] eqn:E.
  - apply attempts_commit in E. destruct st1 as [env w n]. rewrite bind_eq. unfold registry_call. simpl.
    pose proof (I_commit _ _ _ _ _ _ E Ha) as Hc.
    by destruct (claim_mark_committed w claim) as [c w'].
  - destruct st1 as [env w n]. rewrite bind_eq. unfold clock. simpl.
    pose proof (es_read _ _ _ _ (rd_instant env w)) as Hs. destruct (instant_now env) as [now env']. simpl in *.
    by eapply I_drop, I_env.
  - destruct Ha as [Ha HQ]. destruct st1 as [env w n]. simpl. split; [|done]. by eapply I_drop.
Qed.

Lemma outcome_candidate retries delay k t cs st :
  I (t :: cs) None st -> outcome cs (finalize_candidate retries delay k t st).
Proof.
  intros H. destruct st as [env w n]. unfold finalize_candidate. rewrite bind_eq. cbn [read_state].
  cbn [fs_world]. destruct (tc_durable_window_id _) as [id|] eqn:Ed; simpl.
  2: { split; [by eapply I_tried|]. by eapply Q_unnumbered; [exact H|]. }
  apply outcome_clock; [auto with finalizer|by eapply I_tried|]. intros now env' H1.
  destruct (negb _); [exact H1|]. rewrite bind_eq. unfold registry_call. cbn [fs_world fs_env state_of].
  pose proof (I_claim cs env' w n t id Ed H1) as Hc.
  destruct (claim_finalization w t) as [[claim|] w']; [|exact Hc]. by apply outcome_use_claim.
Qed.

Lemma outcome_candidates retries delay k cs st :
  I cs None st -> outcome [] (finalize_candidates retries delay k cs st).
Proof.
  revert retries k st. induction cs as [|t cs IH]; intros retries k st H; [exact H|].
  cbn [finalize_candidates]. rewrite bind_eq. pose proof (outcome_candidate retries delay k t cs st H) as H1.
  destruct (finalize_candidate _ _ _ _ _) as [[p|e] st1]; [by apply IH|]. by apply outcome_tried in H1.
Qed.

Lemma keeps_ready retries delay : keeps (finalize_ready_tokens retries delay).
Proof.
  unfold finalize_ready_tokens. apply maintains_bind; [apply maintains_unix; eauto|]. intros now [env w n] H.
  rewrite bind_eq. unfold registry_call at 1. cbn [fs_world fs_env fs_published].
  pose proof (I_candidates env w n now H) as Hc. destruct (finalization_candidates w now) as [cs w'].
  simpl in Hc. rewrite bind_eq. pose proof (outcome_candidates retries delay 0 cs _ Hc) as H1.
  unfold state_of in H1. destruct (finalize_candidates _ _ _ _ _) as [[p|e] st1]; [|exact H1].
  destruct st1 as [env1 w1 n1]. rewrite bind_eq. unfold registry_call. cbn [fs_world fs_env fs_published].
  pose proof (I_cleanup _ _ _ H1) as H2. by destruct (cleanup_finalized w1).
Qed.

Lemma keeps_drain fuel run deadline retries : keeps (drain_until fuel run deadline retries).
Proof.
  revert retries. induction fuel as [|fuel IH]; intros retries; simpl; [auto with stateful|].
  apply maintains_bind; [apply maintains_instant; eauto|intros now]. destruct (now <? deadline); [|auto with stateful].
  apply maintains_bind; [apply keeps_ready|intros p].
  apply maintains_bind; [apply keeps_active; eauto|]. intros [|i ids]; [auto with stateful|].
  apply maintains_bind; [apply maintains_pause; eauto|intros _; apply IH].
Qed.

Lemma keeps_shutdown fuel run : keeps (drain_shutdown fuel run).
Proof.
  unfold drain_shutdown. apply maintains_bind; [apply maintains_instant; eauto|intros now].
  apply maintains_bind; [apply keeps_drain|]. intros [[]|]; [auto with stateful| |auto with stateful].
  apply maintains_bind; [apply keeps_active; eauto|intros ids].
  apply maintains_bind; [apply keeps_all; eauto|auto with stateful].
Qed.

Lemma keeps_run fuel run retries branches : keeps (run_qualification_finalizer fuel run retries branches).
Proof.
  revert retries. induction branches as [|[] branches IH]; intros retries; simpl; [auto with stateful|..].
  - apply maintains_bind; [apply keeps_ready|intros p; apply IH].
  - apply maintains_bind; [apply keeps_abandoned; eauto|intros _; apply IH].
  - apply maintains_bind; [|intros _; apply keeps_shutdown].
    intros [env w n] H0. unfold registry_call. cbn [fs_world fs_env fs_published].
    pose proof (I_cancel env w n StreamStopped H0) as H1. by destruct (cancel_all_confirmed w StreamStopped).
Qed.
End Job.
End Proofs.
