(* ===== verification/FinalizerTheorems.v ===== *)
(** What the finalizing job guarantees of claims, of evidence it stores as
    complete, of its errors and of its shutdown. *)
From S2P Require Import Prelude.
From S2P Require Import Stateful.
From S2P Require Import RustOrd.
From S2P Require Import RustStr.
From S2P Require Import Domain.
From S2P Require Import External.
From S2P Require Import Snapshot.
From S2P Require Import SnapshotTheorems.
From S2P Require Import Qualification.
From S2P Require Import WindowToken.
From S2P Require Import WindowTokenProofs.
From S2P Require Import WindowRegistry.
From S2P Require Import WindowRegistryInv.
From S2P Require Import WindowRegistryTheorems.
From S2P Require Import ApiContracts.
From S2P Require Import PersistenceModel.
From S2P Require Import Finalization.
From S2P Require Import FinalizationProofs.
From S2P Require Import FinalizationTheorems.
From S2P Require Import Finalizer.
From S2P Require Import FinalizerProofs.

(** ** What other tasks do to a window *)

(** Every call on a token that is not part of a finalization. *)
Inductive task_call : TokenCells -> TokenCells -> Prop :=
| task_confirms c : task_call c (confirm c).2
| task_numbers id c : task_call c (set_durable_window_id id c).2
| task_cancels c : task_call c (cancel_if_pending c)
| task_marks r c : task_call c (mark_incomplete r c).2
| task_cancels_with r c : task_call c (cancel_with_reason r c)
| task_admits c : task_call c (mark_admitted c).2
| task_settles c : task_call c (mark_settled c).2.

(** They touch neither claims nor finalization, and never renumber. *)
Definition leaves_claims (c c' : TokenCells) : Prop :=
  tc_finalization_claimed c' = tc_finalization_claimed c /\
  tc_finalized c' = tc_finalized c /\
  (forall id, tc_durable_window_id c = Some id -> tc_durable_window_id c' = Some id).
#[global] Instance leaves_claims_refl : Reflexive leaves_claims.
Proof. by intros c. Qed.
#[global] Instance leaves_claims_trans : Transitive leaves_claims.
Proof. intros x y z (A1 & B1 & C1) (A2 & B2 & C2). split_and!; [congruence..|auto]. Qed.

Lemma mark_incomplete_leaves r c : leaves_claims c (mark_incomplete r c).2.
Proof. unfold mark_incomplete. by destruct (_ =? _). Qed.
Lemma cancel_if_pending_leaves c : leaves_claims c (cancel_if_pending c).
Proof. unfold cancel_if_pending. by destruct (_ =? _). Qed.
Lemma cancel_with_leaves r c : leaves_claims c (cancel_with_reason r c).
Proof.
  unfold cancel_with_reason. destruct (_ =? _); [done|]. destruct (_ =? _); [|done].
  etrans; [apply (mark_incomplete_leaves r)|done].
Qed.

Lemma task_call_leaves c c' : task_call c c' -> leaves_claims c c'.
Proof.
  destruct 1 as [d|id d|d|r d|r d|d|d].
  - unfold confirm. by destruct (_ =? _).
  - unfold set_durable_window_id. destruct (_ || _); [done|].
    destruct (tc_durable_window_id d) eqn:E; [done|]. split_and!; [done..|]. by rewrite E.
  - apply cancel_if_pending_leaves.
  - apply mark_incomplete_leaves.
  - apply cancel_with_leaves.
  - unfold mark_admitted. destruct (tc_finalized d); [done|]. by destruct (checked_add_u _ _ _).
  - unfold mark_settled. by destruct (_ >=? _).
Qed.

Lemma task_calls_leave c c' : rtc task_call c c' -> leaves_claims c c'.
Proof. induction 1 as [c|c c1 c' H _ IH]; [done|]. etrans; [by apply task_call_leaves|done]. Qed.

Definition heap_leaves (h h' : Heap) : Prop := forall i, leaves_claims (h !!! i) (h' !!! i).
#[global] Instance heap_leaves_refl : Reflexive heap_leaves.
Proof. by intros h i. Qed.
#[global] Instance heap_leaves_trans : Transitive heap_leaves.
Proof. intros x y z H1 H2 i. etrans; [apply H1|apply H2]. Qed.

Lemma update_leaves f t h : (forall c, leaves_claims c (f c)) -> heap_leaves h (update_cells f t h).
Proof.
  intros Hf i. unfold update_cells. destruct (decide (tok_cells t = i)) as [<-|Hne].
  - rewrite lookup_total_insert_eq. apply Hf.
  - by rewrite lookup_total_insert_ne.
Qed.

Lemma cancel_all_leaves w reason : heap_leaves (heap w) (heap (cancel_all_confirmed w reason).2).
Proof.
  unfold cancel_all_confirmed, cancel_confirmed_matching.
  generalize (List.filter (fun _ : ObservationTarget => true) (fst <$> map_to_list (windows (reg w)))) as ks.
  intros ks. assert (forall n w0, heap_leaves (heap w0) (heap (fold_left (cancel_active reason) ks (n, w0)).2)) as Ha.
  { induction ks as [|k ks IH]; intros n w0; simpl; [done|].
    destruct (windows (reg w0) !! k) as [t|]; [|done].
    destruct (was_confirmed _); (etrans; [|apply IH]); simpl; apply update_leaves;
      eauto using cancel_with_leaves, cancel_if_pending_leaves. }
  specialize (Ha 0%nat w). destruct (fold_left (cancel_active reason) ks (0%nat, w)) as [n w1].
  assert (forall ts m h, heap_leaves h (fold_left (cancel_retained reason (fun _ => true)) ts (m, h)).2) as Hb.
  { induction ts as [|t ts IH]; intros m h; simpl; [done|].
    destruct (_ && _); (etrans; [|apply IH]); [|done]. apply update_leaves, cancel_with_leaves. }
  specialize (Hb (retained (reg w1)) n (heap w1)). destruct (fold_left _ _ (n, heap w1)) as [m h].
  simpl in *. by etrans.
Qed.

Section Theorems.
Context {J XE JE : Type} `{EqDecision J}.
Context `{SS : !SerdeJson MarketWindowSnapshot J JE} `{SA : !SerdeJson QualificationAssessment J JE}.
Context {FE : FinalizerEnv J XE JE}.
Abbreviation State := (FinalizerState (FE:=FE)).
Abbreviation Error := (QualificationWorkerError XE JE).

(** ** What is relied on *)

(** During an await each window goes through calls of other tasks only: the
    finalizer alone claims and finalizes. *)
Definition tasks_only : Prop := forall env w env' w' i, env_step env w env' w' ->
  rtc task_call (heap w !!! i) (heap w' !!! i).

(** The row asked for is the row returned. *)
Definition loads_by_id : Prop := forall id env w record env' w',
  load_window id env w = (Ok record, env', w') -> wr_window_id record = id.

(** [committed env id]: the row of the window is finalized.  An accepted commit
    makes it so, and it stays so. *)
Definition commits_last (committed : Env -> Z -> Prop) : Prop :=
  (forall f env w b env' w', commit_window f env w = (Ok b, env', w') -> committed env' (fz_window_id f)) /\
  (forall env w env' w' id, env_step env w env' w' -> committed env id -> committed env' id).

(** ** Claims *)
Section Claims.
Context (committed : Env -> Z -> Prop) (tasks : tasks_only) (by_id : loads_by_id)
  (commits : commits_last committed).

(** A successful attempt leaves the row finalized. *)
Lemma finalize_window_commits id reason (st st' : State) b :
  finalize_window id reason st = (Ok b, st') -> committed (fs_env st') id.
Proof.
  unfold finalize_window. intros H0. apply stateful_bind_Ok in H0 as (record & st1 & Hl & H0).
  apply stateful_bind_Ok in H0 as (at_ & st2 & _ & H0).
  apply stateful_bind_Ok in H0 as (f & st3 & Hb & H0). injection Hb as Hb <-.
  destruct (build_discovery_window_finalization _ _ _) as [f'|] eqn:Ef; [|done]. injection Hb as ->.
  apply build_finalization_inv in Ef as (? & ? & _ & _ & _ & _ & _ & Hid & _).
  apply stateful_bind_Ok in H0 as (c & st4 & Hc & H0). apply stateful_bind_Ok in H0 as ([] & st5 & Hp & H0).
  injection H0 as <- <-. unfold env_call in Hl, Hc.
  destruct (load_window id (fs_env st) (fs_world st)) as [[[r|e] env1] w1] eqn:El; [|done].
  injection Hl as -> _. apply by_id in El.
  destruct (commit_window f (fs_env st2) (fs_world st2)) as [[[c'|e] env2] w2] eqn:Ec; [|done].
  injection Hc as -> <-. apply commits in Ec. rewrite Hid, El in Ec.
  destruct c; injection Hp as <-; exact Ec.
Qed.

Lemma attempt_commits id reason (st st' : State) b :
  attempt_finalize_window id reason st = (Ok (Some b), st') -> committed (fs_env st') id.
Proof.
  unfold attempt_finalize_window. intros H0. apply stateful_bind_Ok in H0 as (readiness & st1 & _ & H0).
  case_bool_decide; [done|]. destruct (finalize_window _ _ st1) as [[c|e] st2] eqn:E.
  - injection H0 as <- <-. by eapply finalize_window_commits.
  - by destruct (is_lag e).
Qed.

(** Only the claim held is marked, for the window its cells are numbered with,
    and finalized cells have a finalized row. *)
Definition cell_sound (held : option (nat * Z)) (env : Env) (i : nat) (c : TokenCells) : Prop :=
  (tc_finalization_claimed c = true -> exists id, held = Some (i, id)) /\
  (forall id, held = Some (i, id) -> tc_durable_window_id c = Some id) /\
  (tc_finalized c = true -> exists id, tc_durable_window_id c = Some id /\ committed env id).
Definition claims_sound (cs : list Token) (held : option (nat * Z)) (st : State) : Prop :=
  (forall i, cell_sound held (fs_env st) i (heap (fs_world st) !!! i)) /\
  Forall (fun t => is_Some (tc_durable_window_id (cells_of (heap (fs_world st)) t))) cs.

Lemma claims_sound_leaves cs held env w env' w' n :
  heap_leaves (heap w) (heap w') -> (forall id, committed env id -> committed env' id) ->
  claims_sound cs held (state_of env w n) -> claims_sound cs held (state_of env' w' n).
Proof.
  intros Hl Hc [H1 H2]. split; simpl in *.
  - intros i. destruct (H1 i) as (Ha & Hb & Hf), (Hl i) as (La & Lf & Ld). split_and!.
    + rewrite La. exact Ha.
    + intros id Hh. auto.
    + rewrite Lf. intros Hx. destruct (Hf Hx) as (id & Hd & Hi). eauto.
  - eapply Forall_impl; [exact H2|]. simpl. intros t [id Hd]. exists id.
    by apply (Hl (tok_cells t)).
Qed.

Lemma claims_sound_update cs held held' env w n (f : TokenCells -> TokenCells) t :
  (forall c, tc_durable_window_id (f c) = tc_durable_window_id c) ->
  (forall i id, i <> tok_cells t -> held = Some (i, id) <-> held' = Some (i, id)) ->
  cell_sound held' env (tok_cells t) (f (cells_of (heap w) t)) ->
  claims_sound cs held (state_of env w n) ->
  claims_sound cs held' (state_of env (with_heap (update_cells f t (heap w)) w) n).
Proof.
  intros Hd Hh Hf [H1 H2]. split; simpl in *.
  - intros i. unfold update_cells. destruct (decide (tok_cells t = i)) as [<-|Hne].
    + by rewrite lookup_total_insert_eq.
    + rewrite lookup_total_insert_ne by done. destruct (H1 i) as (Ha & Hb & Hc). split_and!; [..|done].
      * intros Hx. destruct (Ha Hx) as [id Hid]. exists id. by apply Hh.
      * intros id Hid. by apply Hb, Hh.
  - eapply Forall_impl; [exact H2|]. simpl. intros t'. unfold update_cells, cells_of.
    destruct (decide (tok_cells t = tok_cells t')) as [->|Hne].
    + by rewrite lookup_total_insert_eq, Hd.
    + by rewrite lookup_total_insert_ne.
Qed.

Lemma claims_sound_env cs held env w env' w' n : env_step env w env' w' ->
  claims_sound cs held (state_of env w n) -> claims_sound cs held (state_of env' w' n).
Proof.
  intros Hs. apply claims_sound_leaves; [|by intros; eapply commits].
  intros i. by eapply task_calls_leave, tasks.
Qed.

Lemma claims_sound_claim cs env w n t id :
  tc_durable_window_id (cells_of (heap w) t) = Some id -> claims_sound cs None (state_of env w n) ->
  match claim_finalization w t with
  | (Some claim, w') => claims_sound cs (Some (tok_cells (cl_token claim), id)) (state_of env w' n)
  | (None, w') => claims_sound cs None (state_of env w' n)
  end.
Proof.
  intros Hd H0. unfold claim_finalization. destruct (List.find _ _) as [t'|] eqn:Ef; [|done].
  destruct (bool_decide _ && _); [done|]. apply find_some in Ef as [_ Hc].
  apply claimable_spec in Hc as (-> & _ & _ & _ & Hfin).
  unfold try_claim_finalization. destruct (tc_finalization_claimed _) eqn:Ecl; [done|].
  apply (claims_sound_update cs None _ env w n (set_claimed true) t); [done| |split_and!|done].
  - intros i id' Hne. split; [done|]. intros [= ? _]. done.
  - intros _. by exists id.
  - intros id' [= <-]. exact Hd.
  - intros Hx. simpl in Hx. congruence.
Qed.

Lemma claims_sound_drop cs env w n claim id :
  claims_sound cs (Some (tok_cells (cl_token claim), id)) (state_of env w n) ->
  claims_sound cs None (state_of env (claim_drop w claim) n).
Proof.
  intros H0. eapply claims_sound_update; [done| |split_and!|exact H0]; [|done..|].
  - intros i id' Hne. split; [|done]. intros [= ? _]. congruence.
  - intros Hx. by apply (proj1 H0 (tok_cells (cl_token claim))).
Qed.

Lemma claims_sound_commit cs env w n claim id : committed env id ->
  claims_sound cs (Some (tok_cells (cl_token claim), id)) (state_of env w n) ->
  claims_sound cs None (state_of env (claim_mark_committed w claim).2 n).
Proof.
  intros Hc H0. unfold claim_mark_committed.
  destruct (mark_finalized (cells_of (heap w) (cl_token claim))) as [b c] eqn:Em. simpl.
  apply (claims_sound_drop cs env (with_heap (<[tok_cells (cl_token claim):=c]> (heap w)) w) n claim id).
  assert (c = (mark_finalized (cells_of (heap w) (cl_token claim))).2) as -> by by rewrite Em.
  assert (forall c, tc_durable_window_id (mark_finalized c).2 = tc_durable_window_id c /\
     tc_finalization_claimed (mark_finalized c).2 = tc_finalization_claimed c) as Hm
    by (intros c0; unfold mark_finalized; by destruct (tc_finalized c0)).
  pose proof (proj1 H0 (tok_cells (cl_token claim))) as (_ & Hb & _). simpl in Hb.
  eapply (claims_sound_update cs _ _ env w n (fun c => (mark_finalized c).2)); [apply Hm|done|split_and!|exact H0].
  - intros _. by exists id.
  - intros id' [= <-]. rewrite (proj1 (Hm _)). by apply Hb.
  - intros _. exists id. rewrite (proj1 (Hm _)). split; [by apply Hb|done].
Qed.

Lemma claims_sound_candidates env w n now : claims_sound [] None (state_of env w n) ->
  claims_sound (finalization_candidates w now).1 None (state_of env (finalization_candidates w now).2 n).
Proof.
  intros [H1 _]. split; [exact H1|]. apply Forall_forall. intros t Ht. simpl in Ht |- *.
  rewrite sort_by_perm in Ht. apply list_elem_of_In, filter_In in Ht as [_ Ht]. unfold is_candidate in Ht.
  rewrite !andb_true_iff in Ht. destruct Ht as ((((_ & Hd) & _) & _) & _). by apply bool_decide_eq_true in Hd.
Qed.

Lemma claims_sound_run (Q : Error -> Prop) fuel run retries branches :
  (forall e, is_lag (QwPersistence e) = false -> Q (QwPersistence e)) ->
  (forall e, read_error e -> Q (QwPersistence e)) ->
  maintains (claims_sound [] None) (fun e st => claims_sound [] None st /\ Q e)
    (run_qualification_finalizer fuel run retries branches).
Proof.
  intros Q1 Q2. apply (keeps_run claims_sound Q committed).
  - intros. by eapply claims_sound_env.
  - done.
  - intros t cs held st [H1 H2]. split; [done|]. by inversion H2.
  - intros. by apply claims_sound_claim.
  - intros. by eapply claims_sound_drop.
  - intros. by eapply claims_sound_commit.
  - intros. by apply claims_sound_candidates.
  - done.
  - intros env w n reason. apply claims_sound_leaves; [apply cancel_all_leaves|done].
  - done.
  - done.
  - intros t cs st [_ Hn] Hd. inversion Hn as [|? ? [id Hid]]. by rewrite Hid in Hd.
  - intros. by eapply attempt_commits.
Qed.
End Claims.

(** The finalizer lets go of its claims.  Whatever branches it takes and
    however it ends, errors included, no window is left claimed, and a window
    marked finalized, which the registry then forgets, has a finalized row. *)
Theorem finalizer_releases_claims (committed : Env -> Z -> Prop)
    (tasks : tasks_only) (by_id : loads_by_id) (commits : commits_last committed)
    fuel run retries branches (st : State) :
  let sound (st : State) := forall i, let c := heap (fs_world st) !!! i in
    tc_finalization_claimed c = false /\
    (tc_finalized c = true -> exists id, tc_durable_window_id c = Some id /\ committed (fs_env st) id) in
  sound st -> sound (run_qualification_finalizer fuel run retries branches st).2.
Proof.
  intros sound H0.
  pose proof (claims_sound_run committed tasks by_id commits (fun _ => True) fuel run retries branches) as Hm.
  specialize (Hm (fun _ _ => I) (fun _ _ => I) st).
  assert (claims_sound committed [] None st) as Hs.
  { split; [|done]. intros i. destruct (H0 i) as [Hc Hf]. split_and!; [congruence|done|done]. }
  specialize (Hm Hs). destruct (run_qualification_finalizer fuel run retries branches st) as [[r|e] st'].
  2: destruct Hm as [Hm _].
  all: intros i; destruct (proj1 Hm i) as (Hc & _ & Hf); split; [|done].
  all: destruct (tc_finalization_claimed _) eqn:E; [|done].
  all: by destruct (Hc eq_refl).
Qed.

(** The finalizer stops only for a reason outside it.  If the calls that
    only read never report that evidence is still settling, the job ends with
    an error only for another error of the database or of a payload; a
    candidate without its durable id is unreachable, and evidence that has not
    settled is retried. *)
Theorem finalizer_stops_only_externally (committed : Env -> Z -> Prop)
    (tasks : tasks_only) (by_id : loads_by_id) (commits : commits_last committed)
    (reads : forall e, read_error e -> is_lag (QwPersistence e) = false)
    fuel run retries branches (st : State) e st' :
  (forall i, let c := heap (fs_world st) !!! i in
    tc_finalization_claimed c = false /\ tc_finalized c = false) ->
  run_qualification_finalizer fuel run retries branches st = (Err e, st') ->
  exists pe, e = QwPersistence pe /\ is_lag e = false.
Proof.
  intros H0 Hr.
  pose proof (claims_sound_run committed tasks by_id commits
    (fun e => exists pe : PersistenceError XE JE, e = QwPersistence pe /\ is_lag e = false)
    fuel run retries branches) as Hm.
  specialize (Hm (fun pe He => ex_intro _ pe (conj eq_refl He))
    (fun pe He => ex_intro _ pe (conj eq_refl (reads pe He))) st). rewrite Hr in Hm.
  assert (claims_sound committed [] None st) as Hs.
  { split; [|done]. intros i. destruct (H0 i) as [Hc Hf]. split_and!; congruence. }
  by destruct (Hm Hs).
Qed.

(** ** Complete evidence *)

(** [complete_in env id]: the row of the window is finalized as complete, which
    only a commit of complete evidence does. *)
Definition completes_by_commit (complete_in : Env -> Z -> Prop) : Prop :=
  (forall env w env' w' id, read_step env w env' w' -> complete_in env' id -> complete_in env id) /\
  (forall f env w id, complete_in (commit_window f env w).1.2 id ->
     complete_in env id \/ id = fz_window_id f /\ fz_completeness f = WcComplete).

Section Complete.
Context (complete_in : Env -> Z -> Prop) (law : completes_by_commit complete_in) (by_id : loads_by_id).

(** No row becomes complete but those allowed. *)
Definition completes_only (allowed : Z -> Prop) (st st' : State) : Prop :=
  forall id, complete_in (fs_env st') id -> complete_in (fs_env st) id \/ allowed id.
#[local] Instance completes_only_refl allowed : Reflexive (completes_only allowed).
Proof. intros st id H0. by left. Qed.
#[local] Instance completes_only_trans allowed : Transitive (completes_only allowed).
Proof. intros x y z H1 H2 id Hid. destruct (H2 id Hid); [auto|by right]. Qed.

Lemma reads_complete_nothing allowed {A}
    (call : Env -> World -> result (PersistenceError XE JE) A * Env * World) :
  (forall env w, read_step env w (call env w).1.2 (call env w).2) ->
  preserves (completes_only allowed) (env_call call).
Proof.
  intros Hc [env w n] id H0. left. unfold env_call in H0. simpl in *. specialize (Hc env w).
  destruct (call env w) as [[r env'] w']. by eapply law.
Qed.
Lemma clocks_complete_nothing allowed {A} (read : Env -> A * Env) :
  (forall env w, read_step env w (read env).2 w) -> preserves (completes_only allowed) (clock read).
Proof.
  intros Hc [env w n] id H0. left. unfold clock in H0. simpl in *. specialize (Hc env w).
  destruct (read env) as [a env']. by eapply law.
Qed.

Lemma finalize_window_completes id reason :
  preserves (completes_only (fun j => j = id /\ reason = None)) (finalize_window id reason).
Proof.
  intros st. unfold finalize_window. rewrite bind_eq.
  pose proof (reads_complete_nothing (fun j => j = id /\ reason = None) (load_window id)
    ltac:(constructor) st) as H1.
  destruct (env_call (load_window id) st) as [[record|e] st1] eqn:El; [|exact H1].
  assert (wr_window_id record = id) as Hid.
  { unfold env_call in El. destruct (load_window id (fs_env st) (fs_world st)) as [[[r|e] env1] w1] eqn:E; [|done].
    injection El as -> _. by eapply by_id. }
  etrans; [exact H1|]. clear H1 El. generalize st1. clear st1. rename st into st0.
  change (preserves (completes_only (fun j => j = id /\ reason = None))
    (at_ ← unix_time_millis; f ← st_lift (map_err QwPersistence
       (build_discovery_window_finalization record at_ (reason_str <$> reason)));
     committed ← env_call (commit_window f);
     _ ← (if (committed : bool) then modify_state publish else mret tt); mret committed)).
  preserves_bind.
  { unfold unix_time_millis. preserves_bind; [|auto with stateful].
    apply clocks_complete_nothing. constructor. }
  intros at_ st. rewrite bind_eq. unfold st_lift.
  destruct (build_discovery_window_finalization _ _ _) as [f|e] eqn:Ef; [|reflexivity].
  pose proof (built_complete _ _ _ _ Ef) as Hc.
  apply build_finalization_inv in Ef as (snapshot & a & _ & _ & _ & _ & _ & Hf & _). simpl.
  rewrite bind_eq. destruct st as [env w n]. unfold env_call. simpl.
  assert (forall j, complete_in (commit_window f env w).1.2 j ->
    complete_in env j \/ (j = id /\ reason = None)) as Hcommit.
  { intros j Hj. apply (proj2 law) in Hj as [Hj|[-> Hj]]; [by left|]. right. split; [congruence|].
    destruct reason; [by specialize (Hc Hj)|done]. }
  destruct (commit_window f env w) as [[[b|e] env'] w']; simpl in *; [|exact Hcommit].
  by destruct b.
Qed.

Lemma attempt_completes id reason :
  preserves (completes_only (fun j => j = id /\ reason = None)) (attempt_finalize_window id reason).
Proof.
  unfold attempt_finalize_window. preserves_bind; [apply reads_complete_nothing; constructor|].
  intros readiness. case_bool_decide; [auto with stateful|]. intros st.
  pose proof (finalize_window_completes id (terminal_incomplete_reason readiness reason) st) as H1.
  assert (completes_only (fun j => j = id /\ reason = None) st
    (finalize_window id (terminal_incomplete_reason readiness reason) st).2) as H2.
  { intros j Hj. destruct (H1 j Hj) as [|[-> Hr]]; [by left|right]. split; [done|].
    unfold terminal_incomplete_reason in Hr. by case_bool_decide. }
  destruct (finalize_window _ _ st) as [[c|e] st']; [done|]. by destruct (is_lag e).
Qed.

Lemma incomplete_all reason ids n :
  preserves (completes_only (fun _ => False)) (finalize_all (Some reason) ids n).
Proof.
  revert n. induction ids as [|i ids IH]; intros n; simpl; [auto with stateful|].
  preserves_bind; [|intros c; apply IH]. intros st j Hj.
  destruct (attempt_completes i (Some reason) st j Hj) as [|[_ ?]]; [by left|done].
Qed.
End Complete.

(** C24: Evidence is stored as complete only where it is.  One turn of the loop
    over the candidates finalizes a window as complete only if, when it was
    claimed, the window was retained, confirmed and numbered, every admission
    was settled, no failure had been recorded, and its source had progressed to
    the close; what a previous run abandoned and what is left at shutdown is
    never finalized as complete. *)
Theorem complete_evidence_is_justified (complete_in : Env -> Z -> Prop)
    (law : completes_by_commit complete_in) (by_id : loads_by_id) :
  (forall retries delay k t (st : State) id,
     complete_in (fs_env (finalize_candidate retries delay k t st).2) id ->
     complete_in (fs_env st) id \/
     let w := fs_world st in let c := cells_of (heap w) t in
     tc_durable_window_id c = Some id /\ t ∈ retained (reg w) /\ was_confirmed c = true /\
     tc_admitted c = tc_settled c /\ incomplete_reason c = None /\
     exists watermark, latest_source_progress (reg w) !! target_source_program (tok_target t) = Some watermark /\
       tok_closes t <= watermark) /\
  (forall reason ids k (st : State) id,
     complete_in (fs_env (finalize_all (Some reason) ids k st).2) id -> complete_in (fs_env st) id) /\
  (forall run (st : State) id,
     complete_in (fs_env (finalize_abandoned_windows run st).2) id -> complete_in (fs_env st) id).
Proof.
  split_and!.
  - intros retries delay k t [env w n] id. unfold finalize_candidate. rewrite bind_eq. cbn [read_state].
    simpl. destruct (tc_durable_window_id _) as [d|] eqn:Ed; [|by left]. rewrite bind_eq. unfold clock at 1.
    simpl. pose proof (rd_instant env w) as Hi. destruct (instant_now env) as [now env1]. simpl in *.
    destruct (negb _); [intros Hc; left; by eapply law|]. rewrite bind_eq. unfold registry_call at 1. simpl.
    unfold claim_finalization. destruct (List.find _ _) as [t'|] eqn:Ef; [|intros Hc; left; by eapply law].
    apply find_some in Ef as [Hin Hc]. rewrite <- list_elem_of_In in Hin.
    apply claimable_spec in Hc as (-> & Hconf & _ & Hset & _).
    destruct (bool_decide (incomplete_reason _ = None) && _) eqn:Eb; [intros Hc; left; by eapply law|].
    unfold try_claim_finalization. destruct (tc_finalization_claimed _); [intros Hc; left; by eapply law|].
    simpl. intros Hc.
    match type of Hc with context [use_claim _ _ _ _ ?cl ?s] => set (claim := cl) in Hc; set (st1 := s) in Hc end.
    assert (completes_only complete_in (fun j => j = d /\ cl_reason claim = None) st1
      (use_claim retries delay k d claim st1).2) as Hu.
    { unfold use_claim.
      pose proof (attempt_completes complete_in law by_id d (cl_reason claim) st1) as Ha.
      destruct (attempt_finalize_window _ _ st1) as [[[b|]|e] st2]; destruct st2 as [env2 w2 n2].
      - rewrite bind_eq. unfold registry_call. simpl. by destruct (claim_mark_committed w2 claim).
      - intros j Hj. apply Ha. simpl. rewrite bind_eq in Hj. unfold clock in Hj. simpl in Hj.
        pose proof (rd_instant env2 w2) as Hs. destruct (instant_now env2) as [now2 env3].
        by eapply law.
      - exact Ha. }
    destruct (Hu id Hc) as [Hj|[-> Hr]]; [left; by eapply law|right].
    assert (incomplete_reason (cells_of (heap w) t) = None) as Hn by exact Hr.
    split_and!; try done. apply andb_false_iff in Eb as [Eb|Eb]; [by apply bool_decide_eq_false in Eb|].
    destruct (latest_source_progress (reg w) !! _) as [wm|]; [|done]. apply Z.ltb_ge in Eb. eauto.
  - intros reason ids k st id Hc. by destruct (incomplete_all complete_in law by_id reason ids k st id Hc).
  - intros run st id Hc. revert Hc. unfold finalize_abandoned_windows. rewrite bind_eq.
    pose proof (reads_complete_nothing complete_in law (fun _ => False) (load_interrupted_window_ids run)
      ltac:(constructor) st) as H1.
    destruct (env_call _ st) as [[ids|e] st1]; intros Hc.
    + destruct (incomplete_all complete_in law by_id _ _ _ _ _ Hc) as [Hc'|]; [|done].
      by destruct (H1 id Hc').
    + by destruct (H1 id Hc).
Qed.

(** ** Shutdown *)

(** [now env] is the time: a reading of the monotone clock lies between the time
    before it and after it, and a sleep takes at least its duration. *)
Definition clock_runs (now : Env -> Z) : Prop :=
  (forall env, now env <= (instant_now env).1 <= now (instant_now env).2) /\
  (forall env w env' w', env_step env w env' w' -> now env <= now env') /\
  (forall d env w, now env + d <= now (sleep d env w).1).

Section Shutdown.
Context (now : Env -> Z) (runs : clock_runs now).

Lemma ready_takes_time retries delay (st : State) :
  now (fs_env st) <= now (fs_env (finalize_ready_tokens retries delay st).2).
Proof.
  pose proof (keeps_ready (fun _ _ st' => now (fs_env st) <= now (fs_env st')) (fun _ => True)
    (fun _ _ => True)) as Hk.
  assert (forall c env w n t (id : Z), tc_durable_window_id (cells_of (heap w) t) = Some id -> c <= now env ->
    match claim_finalization w t with
    | (Some claim, w') => c <= now (fs_env (state_of env w' n))
    | (None, w') => c <= now (fs_env (state_of env w' n))
    end) as Hclaim.
  { intros. by destruct (claim_finalization w t) as [[claim|] w']. }
  specialize (Hk ltac:(intros ??????? Hs Hi; simpl in *; pose proof (proj1 (proj2 runs) _ _ _ _ Hs); lia) ltac:(done) ltac:(done)
    ltac:(intros; by eapply Hclaim) ltac:(done) ltac:(done) ltac:(done) ltac:(done)
    ltac:(done) ltac:(done) ltac:(done) ltac:(done) retries delay st (Z.le_refl _)).
  destruct (finalize_ready_tokens retries delay st) as [[r|e] st']; simpl in *; [done|]. apply Hk.
Qed.

Lemma drain_until_ends fuel run deadline retries (st st' : State) :
  deadline <= now (fs_env st) + Z.of_nat fuel * SHUTDOWN_PAUSE - SHUTDOWN_PAUSE -> (0 < fuel)%nat ->
  drain_until fuel run deadline retries st <> (Ok None, st').
Proof.
  revert retries st. induction fuel as [|fuel IH]; intros retries [env w n] Hd Hf; [lia|].
  cbn [drain_until]. rewrite bind_eq. unfold clock at 1. cbn [fs_env fs_world fs_published] in *.
  pose proof (proj1 runs env) as Ht. destruct (instant_now env) as [t env1]. simpl in Ht.
  destruct (Z.ltb_spec t deadline) as [Hlt|Hge]; [|done]. rewrite bind_eq.
  pose proof (ready_takes_time retries 0 {| fs_env := env1; fs_world := w; fs_published := n |}) as H1.
  destruct (finalize_ready_tokens retries 0 _) as [[p|e] st1]; [|done].
  rewrite bind_eq. destruct st1 as [env2 w2 n2]. unfold env_call. cbn [fs_env fs_world fs_published snd] in *.
  pose proof (proj1 (proj2 runs) _ _ _ _ (es_read _ _ _ _ (rd_active (Some run) env2 w2))) as H2.
  destruct (load_active_window_ids (Some run) env2 w2) as [[[ids|e] env3] w3]; [|done]. simpl in H2.
  cbn [map_err]. destruct ids as [|i ids]; [done|]. rewrite bind_eq. unfold pause. cbn [fs_env fs_world fs_published].
  pose proof (proj2 (proj2 runs) SHUTDOWN_PAUSE env3 w3) as H3.
  destruct (sleep SHUTDOWN_PAUSE env3 w3) as [env4 w4]. simpl in H3.
  destruct fuel as [|fuel]; [unfold SHUTDOWN_PAUSE in *; lia|]. apply IH; cbn [fs_env]; [|lia].
  unfold SHUTDOWN_PAUSE in *. lia.
Qed.

Lemma drain_shutdown_ends fuel run (st st' : State) :
  (81 <= fuel)%nat -> drain_shutdown fuel run st <> (Ok None, st').
Proof.
  intros Hf. destruct st as [env w n]. unfold drain_shutdown. rewrite bind_eq. unfold clock at 1.
  cbn [fs_env fs_world fs_published]. pose proof (proj1 runs env) as Ht.
  destruct (instant_now env) as [t env1]. simpl in Ht. rewrite bind_eq.
  destruct (drain_until _ _ _ _ _) as [[[[]|]|e] st1] eqn:E; [done| | |done].
  - rewrite bind_eq. destruct (env_call _ st1) as [[ids|e] st2]; [|done]. rewrite bind_eq.
    by destruct (finalize_all _ _ _ st2) as [[k|e] st3].
  - exfalso. revert E. apply drain_until_ends; [|lia]. cbn [fs_env].
    unfold SHUTDOWN_DRAIN_LIMIT, SHUTDOWN_PAUSE. lia.
Qed.
End Shutdown.

(** C25: Cancellation ends the finalizer.  Under a clock that runs, a run of the
    job that reaches the cancellation branch returns, with a result or an
    error: the drain looks at the windows at most 81 times before its deadline. *)
Theorem cancellation_ends_the_finalizer (now : Env -> Z) (runs : clock_runs now)
    fuel run retries before after (st st' : State) :
  (81 <= fuel)%nat ->
  run_qualification_finalizer fuel run retries (before ++ FeCancelled :: after) st <> (Ok None, st').
Proof.
  intros Hf. revert retries st. induction before as [|[] before IH]; intros retries st; simpl.
  - rewrite bind_eq. unfold registry_call. destruct (cancel_all_confirmed _ _) as [k w].
    by apply (drain_shutdown_ends now runs).
  - rewrite bind_eq. destruct (finalize_ready_tokens _ _ st) as [[p|e] st1]; [apply IH|done].
  - rewrite bind_eq. destruct (finalize_abandoned_windows run st) as [[p|e] st1]; [apply IH|done].
  - rewrite bind_eq. unfold registry_call. destruct (cancel_all_confirmed _ _) as [k w].
    by apply (drain_shutdown_ends now runs).
Qed.
End Theorems.

(** The finalizer on one closed window, with a database that remembers what was
    committed and a clock that counts. *)
Module SampleFinalizer.
Import SampleFinalization.
#[local] Existing Instance Js_eq_dec.
#[local] Existing Instance snapshot_json.
#[local] Existing Instance assessment_json.

Record SampleEnv := {
  se_time : Z; se_broken : bool; se_active : list Z; se_committed : list Z; se_complete : list Z;
}.
Definition tick (d : Z) (env : SampleEnv) : SampleEnv := {|
  se_time := se_time env + d; se_broken := se_broken env; se_active := se_active env;
  se_committed := se_committed env; se_complete := se_complete env |}.
Definition add_commit (f : FinalizeDiscoveryWindow Js) (env : SampleEnv) : SampleEnv := {|
  se_time := se_time env; se_broken := se_broken env;
  se_active := List.filter (fun i => negb (i =? fz_window_id f)) (se_active env);
  se_committed := fz_window_id f :: se_committed env;
  se_complete := (if bool_decide (fz_completeness f = WcComplete) then [fz_window_id f] else [])
                 ++ se_complete env |}.
Definition numbered_record (id : Z) : DiscoveryWindowRecord Js := {|
  wr_window_id := id; wr_market := wr_market record; wr_source_program := wr_source_program record;
  wr_opened_at_unix_ms := wr_opened_at_unix_ms record;
  wr_closes_at_unix_ms := wr_closes_at_unix_ms record;
  wr_collector_run_id := wr_collector_run_id record;
  wr_prefilter_revision := wr_prefilter_revision record;
  wr_prefilter_values := wr_prefilter_values record;
  wr_qualification_revision := wr_qualification_revision record;
  wr_qualification_values := wr_qualification_values record;
  wr_observations := wr_observations record |}.

#[local] Instance sample_env : FinalizerEnv Js unit unit := {|
  Env := SampleEnv;
  load_projection_readiness _ env w := (Ok ReadinessReady, env, w);
  load_window id env w := (Ok (numbered_record id), env, w);
  commit_window f env w :=
    if se_broken env then (Err PeScreeningDecisionMismatch, env, w) else (Ok true, add_commit f env, w);
  load_interrupted_window_ids _ env w := (Ok [], env, w);
  load_active_window_ids _ env w := (Ok (se_active env), env, w);
  sleep d env w := (tick (Z.max 0 d) env, w);
  since_epoch env := (Some 300000000, env);
  instant_now env := (se_time env, tick 1 env) |}.

(** A window opened at 100 for 100 ms, numbered 7, whose source went on to 250. *)
Definition opened : World := (open_market 4 world_init the_market 100 100).2.
Definition window : Token := default
  {| tok_generation := 0; tok_cells := 0;
     tok_window := {| ow_target := PumpMint ""; ow_mint := ""; ow_opened_at_unix_ms := 0;
                      ow_closes_at_unix_ms := 0 |} |} (windows (reg opened) !! PumpMint "mint").
Definition closed : World := record_source_progress
  (with_heap (update_cells (fun c => (set_durable_window_id 7 c).2) window (heap opened)) opened) Pump 250.
Definition start (broken : bool) : FinalizerState (FE:=sample_env) := {|
  fs_env := {| se_time := 0; se_broken := broken; se_active := [7]; se_committed := []; se_complete := [] |}
            : Env (FinalizerEnv:=sample_env);
  fs_world := closed; fs_published := 0 |}.

Definition committed (env : Env (FinalizerEnv:=sample_env)) (id : Z) : Prop := id ∈ se_committed env.
Definition complete_in (env : Env (FinalizerEnv:=sample_env)) (id : Z) : Prop := id ∈ se_complete env.
End SampleFinalizer.
#[local] Existing Instance SampleFinalization.Js_eq_dec.
#[local] Existing Instance SampleFinalization.snapshot_json.
#[local] Existing Instance SampleFinalization.assessment_json.
#[local] Existing Instance SampleFinalizer.sample_env.

Lemma sample_tasks : tasks_only (FE:=SampleFinalizer.sample_env).
Proof.
  intros env w env' w' i [e1 w1 e2 w2 []|f e1 w1]; simpl; try reflexivity.
  by destruct (SampleFinalizer.se_broken e1).
Qed.
Lemma sample_by_id : loads_by_id (FE:=SampleFinalizer.sample_env).
Proof. intros id env w record env' w' [= <- _ _]. reflexivity. Qed.
Lemma sample_commits : commits_last SampleFinalizer.committed.
Proof.
  split.
  - intros f env w b env' w'. simpl. destruct (SampleFinalizer.se_broken env); [done|].
    intros [= _ <- _]. unfold SampleFinalizer.committed. simpl. left.
  - intros env w env' w' id [e1 w1 e2 w2 []|f e1 w1]; simpl; try done.
    destruct (SampleFinalizer.se_broken e1); [done|]. unfold SampleFinalizer.committed. simpl. by right.
Qed.
Lemma sample_completes : completes_by_commit SampleFinalizer.complete_in.
Proof.
  split.
  - intros env w env' w' id []; simpl; done.
  - intros f env w id. simpl. destruct (SampleFinalizer.se_broken env); [by left|].
    unfold SampleFinalizer.complete_in. simpl. case_bool_decide; simpl; [|by left].
    rewrite elem_of_cons. naive_solver.
Qed.
Lemma sample_reads e : read_error (FE:=SampleFinalizer.sample_env) e -> is_lag (QwPersistence e) = false.
Proof. by intros [i env w e' H|i env w e' H|i env w e' H]. Qed.
Lemma sample_clock : clock_runs (FE:=SampleFinalizer.sample_env) SampleFinalizer.se_time.
Proof.
  split_and!.
  - intros env. simpl. lia.
  - intros env w env' w' [e1 w1 e2 w2 Hr|f e1 w1]; simpl.
    + destruct Hr as [| | | |d e3 w3| |]; simpl; try lia.
    + destruct (SampleFinalizer.se_broken e1); simpl; lia.
  - intros d env w. simpl. lia.
Qed.

Lemma sample_finalized :
  let st := (run_qualification_finalizer 81 "run" ∅ [FeTick] (SampleFinalizer.start false)).2 in
  SampleFinalizer.se_complete (fs_env st) = [7] /\ retained (reg (fs_world st)) = [] /\ fs_published st = 1%nat.
Proof. vm_compute. done. Qed.

Lemma start_cells broken i :
  let c := heap (fs_world (SampleFinalizer.start broken)) !!! i in
  tc_finalization_claimed c = false /\ tc_finalized c = false.
Proof.
  assert (heap SampleFinalizer.closed =
    {[0%nat := (set_durable_window_id 7 (confirm fresh_cells).2).2]}) as Hh by (vm_compute; reflexivity).
  cbn [SampleFinalizer.start fs_world]. rewrite Hh. destruct (decide (i = 0%nat)) as [->|Hi].
  - by rewrite lookup_total_singleton.
  - unfold lookup_total, map_lookup_total. by rewrite lookup_singleton_ne.
Qed.

(** ** Witnesses *)
Lemma finalizer_releases_claims_witness :
  let st := (run_qualification_finalizer 81 "run" ∅ [FeTick] (SampleFinalizer.start false)).2 in
  (forall i, tc_finalization_claimed (heap (fs_world st) !!! i) = false) /\
  SampleFinalizer.se_complete (fs_env st) = [7] /\ retained (reg (fs_world st)) = [].
Proof.
  split_and!; [|vm_compute; reflexivity..].
  intros i. apply (finalizer_releases_claims SampleFinalizer.committed sample_tasks sample_by_id
    sample_commits 81 "run" ∅ [FeTick] (SampleFinalizer.start false)).
  intros j. destruct (start_cells false j) as [Hc Hf]. split; [exact Hc|]. intros Hx.
  cbv zeta in Hf, Hx. rewrite Hf in Hx. discriminate Hx.
Defined.

Lemma finalizer_stops_only_externally_witness :
  exists e, (run_qualification_finalizer 81 "run" ∅ [FeTick] (SampleFinalizer.start true)).1 = Err e /\
    exists pe, e = QwPersistence pe /\ is_lag e = false.
Proof.
  destruct (run_qualification_finalizer 81 "run" ∅ [FeTick] (SampleFinalizer.start true)) as [r st] eqn:E.
  destruct r as [x|e]; [exfalso; revert E; vm_compute; discriminate|]. exists e. split; [reflexivity|].
  exact (finalizer_stops_only_externally SampleFinalizer.committed sample_tasks sample_by_id
    sample_commits sample_reads 81 "run" ∅ [FeTick] _ e st (start_cells true) E).
Defined.

Lemma complete_evidence_is_justified_witness :
  let st := SampleFinalizer.start false in
  let w := (finalization_candidates (fs_world st) 300).2 in
  let t := SampleFinalizer.window in
  let st0 := {| fs_env := fs_env st; fs_world := w; fs_published := 0 |} in
  SampleFinalizer.complete_in (fs_env (finalize_candidate ∅ 0 0 t st0).2) 7 /\ t ∈ retained (reg w) /\
  tc_admitted (cells_of (heap w) t) = tc_settled (cells_of (heap w) t).
Proof.
  intros st w t st0.
  assert (SampleFinalizer.complete_in (fs_env (finalize_candidate ∅ 0 0 t st0).2) 7) as Hc.
  { vm_compute. left. }
  split; [exact Hc|].
  destruct (complete_evidence_is_justified SampleFinalizer.complete_in sample_completes sample_by_id)
    as [H _]. destruct (H ∅ 0 0%nat t st0 7 Hc) as [H0|H0]; [vm_compute in H0; inversion H0|].
  split; apply H0.
Defined.

Lemma cancellation_ends_the_finalizer_witness :
  (run_qualification_finalizer 81 "run" ∅ ([FeTick] ++ FeCancelled :: []) (SampleFinalizer.start false)).1
    <> Ok None.
Proof.
  intros H. apply (cancellation_ends_the_finalizer (FE:=SampleFinalizer.sample_env) SampleFinalizer.se_time sample_clock 81 "run" ∅ [FeTick] []
    (SampleFinalizer.start false) (run_qualification_finalizer 81 "run" ∅ ([FeTick] ++ [FeCancelled])
       (SampleFinalizer.start false)).2 (le_n 81)). rewrite <- H. apply surjective_pairing.
Defined.
