(* ===== verification/RpcModel.v ===== *)
(** [crates/solana-rpc/src/model.rs]: the records exchanged with a Solana RPC
    provider and the errors of the reader; and [pubsub.rs], the client of the log
    subscriptions, with what a subscription delivers of the messages it gets. *)
From S2P Require Import Prelude.
From S2P Require Import Stateful.
From S2P Require Import RustStr.
From S2P Require Import Domain.

Definition MAX_SIGNATURE_PAGE_SIZE : Z := 1000.

Record RecoveryCheckpoint := {
  rc_program_id : string;
  rc_last_slot : Z;
  rc_last_transaction_index : option Z;
  rc_last_signature : string;
}.
#[export] Instance RecoveryCheckpoint_eq_dec : EqDecision RecoveryCheckpoint.
Proof. solve_decision. Defined.

Record TransactionInstructionRecord := {
  ti_outer_instruction_index : Z;
  ti_inner_instruction_index : option Z;
  ti_stack_height : option Z;
  ti_program_id : string;
  ti_data : list byte;
}.
Definition is_inner (i : TransactionInstructionRecord) : bool :=
  match ti_inner_instruction_index i with Some _ => true | None => false end.

Record TransactionRecord := {
  tr_slot : Z;
  tr_transaction_index : option Z;
  tr_signature : string;
  tr_block_time_unix_seconds : option Z;
  tr_instructions : list TransactionInstructionRecord;
  tr_log_messages : list string;
  tr_transaction_error : option string;
}.
Definition transaction_succeeded (t : TransactionRecord) : bool :=
  match tr_transaction_error t with None => true | Some _ => false end.

Record AccountRecord := {
  ar_address : string; ar_owner : string; ar_slot : Z; ar_encoded_data : string;
  ar_lamports : Z; ar_executable : bool;
}.

Inductive RpcHealth := HealthUp | HealthDegraded | HealthDown.

Record ReadContext := { rx_commitment : Commitment; rx_minimum_slot : option Z }.
#[export] Instance ReadContext_eq_dec : EqDecision ReadContext.
Proof. solve_decision. Defined.

Inductive RpcError :=
| RpcTimeout
| RateLimited
| Transport (message : string)
| HttpStatus (status : Z) (body : string)
| RpcFailure (code : Z) (message : string)
| InvalidRequest (message : string)
| Unavailable (message : string)
| InvalidResponse (message : string)
| RecoveryCheckpointNotFound (program_id : string) (slot_ : Z) (signature_ : string)
| RecoveryLimitExceeded (max_records : Z)
| RecoveryProtocol (message : string)
| SubscriptionClosed (message : string).

Record SignaturePageRequest := {
  pr_program_id : string;
  pr_before : option string;
  pr_limit : Z;
  pr_context : ReadContext;
}.
#[export] Instance SignaturePageRequest_eq_dec : EqDecision SignaturePageRequest.
Proof. solve_decision. Defined.

(** [SignaturePageRequest::new]. *)
Definition signature_page_request (program_id : string) (before : option string) (limit : Z)
    (context : ReadContext) : result RpcError SignaturePageRequest :=
  if is_empty program_id then Err (InvalidRequest "program id cannot be empty") else
  if negb ((1 <=? limit) && (limit <=? MAX_SIGNATURE_PAGE_SIZE)) then
    Err (InvalidRequest ("signature page limit must be between 1 and " +:+
                         pretty MAX_SIGNATURE_PAGE_SIZE)) else
  if bool_decide (before = Some ""%string) then
    Err (InvalidRequest "before signature cannot be empty") else
  Ok {| pr_program_id := program_id; pr_before := before; pr_limit := limit;
        pr_context := context |}.

Record SignatureRecord := {
  sr_slot : Z;
  sr_transaction_index : option Z;
  sr_signature : string;
  sr_block_time_unix_seconds : option Z;
  sr_confirmation_status : option string;
  sr_transaction_error : option string;
}.
#[export] Instance SignatureRecord_eq_dec : EqDecision SignatureRecord.
Proof. solve_decision. Defined.
Definition signature_succeeded (r : SignatureRecord) : bool :=
  match sr_transaction_error r with None => true | Some _ => false end.

Record SignaturePage := {
  sp_request : SignaturePageRequest;
  sp_records_newest_first : list SignatureRecord;
  sp_next_before : option string;
  sp_exhausted : bool;
}.

(** The raw notification of the log subscription. *)
Record ProgramLogNotification := {
  nt_subscription_id : Z;
  nt_slot : Z;
  nt_signature : string;
  nt_log_messages : list string;
  nt_transaction_error : option string;
}.
Definition notification_succeeded (n : ProgramLogNotification) : bool :=
  match nt_transaction_error n with None => true | Some _ => false end.

(** ** [pubsub.rs]: the log subscriptions *)

(** [Url::parse]: the scheme of the URL, or the error's text. *)
Class UrlParser := { url_scheme : string -> result string string }.

(** The deserialized [LogsNotification]. *)
Record LogsNotification {J : Type} := {
  ln_jsonrpc : string; ln_subscription : Z; ln_slot : Z; ln_signature : string;
  ln_error : option J; ln_logs : list string;
}.
#[global] Arguments LogsNotification : clear implicits.

(** [serde_json::Value] with the accessors the client uses; errors are their
    texts. *)
Class JsonValue := {
  json : Type;
  json_from_str : string -> result string json;
  json_to_string : json -> result string string;
  json_get : string -> json -> option json;
  json_as_str : json -> option string;
  json_as_u64 : json -> option Z;
  json_as_i64 : json -> option Z;
  json_as_bool : json -> option bool;
  json_logs_notification : json -> result string (LogsNotification json);
}.

(** A message of the peer; [FrameOther] is a pong or a raw frame. *)
Inductive Frame :=
| FrameText (text : string)
| FrameBinary
| FramePing (payload : list byte)
| FrameClose (frame : option (Z * string))
| FrameOther.
(** What the client sends: a [json!] request, a pong, the closing handshake. *)
Inductive Sent :=
| LogsSubscribe (id : Z) (program_id commitment : string)
| LogsUnsubscribe (id subscription : Z)
| SentPong (payload : list byte)
| SentClose.
(** A connected socket: what it will yield until its stream ends, what was sent,
    and the error of each failing send. *)
Record Socket := {
  so_incoming : list (result string Frame);
  so_sent : list Sent;
  so_send_error : nat -> option string;
}.
Definition with_incoming (incoming : list (result string Frame)) (s : Socket) : Socket :=
  {| so_incoming := incoming; so_sent := so_sent s; so_send_error := so_send_error s |}.
Abbreviation SocketM := (stateful Socket RpcError).

Definition commitment_name (c : Commitment) : string :=
  match c with Processed => "processed" | Confirmed => "confirmed" | Finalized => "finalized" end.
Definition close_reason (frame : option (Z * string)) : string :=
  match frame with
  | None => "peer closed without a reason"
  | Some (code, reason) => pretty code +:+ ": " +:+ reason
  end.
Definition map_websocket_error (error : string) : RpcError := Transport error.

Definition socket_send (message : Sent) : SocketM unit := fun s =>
  match so_send_error s (length (so_sent s)) with
  | Some error => (Err (map_websocket_error error), s)
  | None => (Ok tt, {| so_incoming := so_incoming s; so_sent := so_sent s ++ [message];
                       so_send_error := so_send_error s |})
  end.

(** The loop of [next_text], one turn per message taken from the stream. *)
Fixpoint next_text_from (incoming : list (result string Frame)) : SocketM string := fun s =>
  match incoming with
  | Ok (FrameText text) :: rest => (Ok text, with_incoming rest s)
  | Ok (FramePing payload) :: rest => (_ ← socket_send (SentPong payload); next_text_from rest) (with_incoming rest s)
  | Ok (FrameClose frame) :: rest => (Err (SubscriptionClosed (close_reason frame)), with_incoming rest s)
  | Ok FrameBinary :: rest => (Err (InvalidResponse "PubSub server sent an unexpected binary frame"), with_incoming rest s)
  | Ok FrameOther :: rest => next_text_from rest (with_incoming rest s)
  | Err error :: rest => (Err (map_websocket_error error), with_incoming rest s)
  | [] => (Err (SubscriptionClosed "stream ended without a close frame"), s)
  end.
Definition next_text : SocketM string := fun s => next_text_from (so_incoming s) s.

(** The loop over texts the three readers share: [accept] answers [None] where
    the body continues.  A turn takes a message, so the fuel never runs out. *)
Fixpoint read_texts {A} (fuel : nat) (accept : string -> result RpcError (option A)) : SocketM A :=
  match fuel with
  | O => st_fail (SubscriptionClosed "stream ended without a close frame")
  | S fuel =>
      text ← next_text;
      found ← st_lift (accept text);
      match found with Some a => mret a | None => read_texts fuel accept end
  end.
Definition read_loop {A} (accept : string -> result RpcError (option A)) : SocketM A := fun s =>
  read_texts (S (length (so_incoming s))) accept s.

Section Client.
Context {URL : UrlParser} {JV : JsonValue}.

Record SolanaPubsubClient := { ps_endpoint : string; ps_next_request_id : Z }.
Definition pubsub_client_new (endpoint : string) : result RpcError SolanaPubsubClient :=
  scheme ← map_err (fun error => InvalidRequest ("invalid WebSocket RPC URL: " +:+ error)) (url_scheme endpoint);
  if String.eqb scheme "ws" || String.eqb scheme "wss" then
    Ok {| ps_endpoint := endpoint; ps_next_request_id := 1 |}
  else Err (InvalidRequest "WebSocket RPC URL must use ws or wss").

Definition parse_rpc_error (value : json) : RpcError :=
  let code := default (-1) (json_get "code" value ≫= json_as_i64) in
  let message := default "unknown PubSub RPC error" (json_get "message" value ≫= json_as_str) in
  if (code =? 429) || (code =? -32005) then RateLimited else RpcFailure code message.
Definition compact_error (error : option json) : result RpcError (option string) :=
  match error with
  | Some value => Some <$> map_err InvalidResponse (json_to_string value)
  | None => Ok None
  end.

(** The bodies of the three loops, on one text. *)
Definition subscription_response (request_id : Z) (text : string) : result RpcError (option Z) :=
  value ← map_err InvalidResponse (json_from_str text);
  if negb (bool_decide (json_get "id" value ≫= json_as_u64 = Some request_id)) then Ok None else
  match json_get "error" value with
  | Some error => Err (parse_rpc_error error)
  | None =>
      Some <$> ok_or (json_get "result" value ≫= json_as_u64)
        (InvalidResponse "logsSubscribe response omitted numeric result")
  end.
Definition notification_of (subscription_id : Z) (text : string) : result RpcError (option ProgramLogNotification) :=
  value ← map_err InvalidResponse (json_from_str text);
  match json_get "error" value with
  | Some error => Err (parse_rpc_error error)
  | None =>
      if negb (bool_decide (json_get "method" value ≫= json_as_str = Some "logsNotification")) then Ok None else
      notification ← map_err InvalidResponse (json_logs_notification value);
      if negb (String.eqb (ln_jsonrpc notification) "2.0") then
        Err (InvalidResponse "PubSub notification is not JSON-RPC 2.0")
      else if negb (ln_subscription notification =? subscription_id) then
        Err (InvalidResponse ("notification subscription " +:+ pretty (ln_subscription notification) +:+
               " did not match " +:+ pretty subscription_id))
      else
        error ← compact_error (ln_error notification);
        Ok (Some {| nt_subscription_id := subscription_id; nt_slot := ln_slot notification;
                    nt_signature := ln_signature notification; nt_log_messages := ln_logs notification;
                    nt_transaction_error := error |})
  end.
Definition unsubscribe_response (request_id : Z) (text : string) : result RpcError (option unit) :=
  response ← map_err InvalidResponse (json_from_str text);
  if negb (bool_decide (json_get "id" response ≫= json_as_u64 = Some request_id)) then Ok None else
  match json_get "error" response with
  | Some error => Err (parse_rpc_error error)
  | None =>
      if negb (bool_decide (json_get "result" response ≫= json_as_bool = Some true)) then
        Err (InvalidResponse "logsUnsubscribe did not return true")
      else Ok (Some tt)
  end.

(** The id drawn from the shared counter, which wraps. *)
Definition draw_request_id (next : Z) : Z * Z := (next, (next + 1) mod 2 ^ 64).

(** [connect] is what [connect_async] makes of the endpoint.  The client with
    its next id, and the subscription with its socket. *)
Definition subscribe_program_logs (connect : string -> result string Socket) (program_id : string)
    (commitment : Commitment) (client : SolanaPubsubClient)
    : result RpcError (Z * Socket) * SolanaPubsubClient :=
  if is_empty program_id then (Err (InvalidRequest "program id cannot be empty"), client) else
  match connect (ps_endpoint client) with
  | Err error => (Err (map_websocket_error error), client)
  | Ok socket =>
      let '(request_id, next) := draw_request_id (ps_next_request_id client) in
      let client := {| ps_endpoint := ps_endpoint client; ps_next_request_id := next |} in
      match (_ ← socket_send (LogsSubscribe request_id program_id (commitment_name commitment));
             read_loop (subscription_response request_id)) socket with
      | (Ok subscription_id, socket) => (Ok (subscription_id, socket), client)
      | (Err error, _) => (Err error, client)
      end
  end.
Definition next_notification (subscription_id : Z) : SocketM ProgramLogNotification :=
  read_loop (notification_of subscription_id).
Definition unsubscribe (request_id subscription_id : Z) : SocketM unit :=
  _ ← socket_send (LogsUnsubscribe request_id subscription_id);
  _ ← read_loop (unsubscribe_response request_id);
  socket_send SentClose.
End Client.

(** ** What a subscription delivers *)
Section Delivery.
Context {JV : JsonValue}.

(** What one message of the peer makes of a reader: nothing, its answer or its
    error. *)
Definition item_outcome {A} (accept : string -> result RpcError (option A)) (item : result string Frame)
    : option (result RpcError A) :=
  match item with
  | Ok (FrameText text) =>
      match accept text with Ok None => None | Ok (Some a) => Some (Ok a) | Err e => Some (Err e) end
  | Ok (FramePing _) | Ok FrameOther => None
  | Ok (FrameClose frame) => Some (Err (SubscriptionClosed (close_reason frame)))
  | Ok FrameBinary => Some (Err (InvalidResponse "PubSub server sent an unexpected binary frame"))
  | Err error => Some (Err (Transport error))
  end.
Definition stream_ended : RpcError := SubscriptionClosed "stream ended without a close frame".
(** The pongs a prefix of the messages is answered with. *)
Definition pongs (items : list (result string Frame)) : list Sent :=
  omap (fun item => match item with Ok (FramePing payload) => Some (SentPong payload) | _ => None end) items.
Definition answered (rest skipped : list (result string Frame)) (s : Socket) : Socket := {|
  so_incoming := rest; so_sent := so_sent s ++ pongs skipped; so_send_error := so_send_error s |}.

(** The messages up to the first that ends a reader. *)
Fixpoint split_outcome {A} (accept : string -> result RpcError (option A)) (items : list (result string Frame))
    : list (result string Frame) * option (result RpcError A * list (result string Frame)) :=
  match items with
  | [] => ([], None)
  | item :: items =>
      match item_outcome accept item with
      | Some r => ([], Some (r, items))
      | None => let '(skipped, found) := split_outcome accept items in (item :: skipped, found)
      end
  end.
Definition read_result {A} (accept : string -> result RpcError (option A)) (s : Socket) : result RpcError A * Socket :=
  match split_outcome accept (so_incoming s) with
  | (skipped, Some (r, rest)) => (r, answered rest skipped s)
  | (skipped, None) => (Err stream_ended, answered [] skipped s)
  end.

Definition sends (s : Socket) : Prop := forall n, so_send_error s n = None.

Lemma answered_nil rest s : answered rest [] s = with_incoming rest s.
Proof. unfold answered, with_incoming. simpl. by rewrite app_nil_r. Qed.
Lemma answered_cons rest item skipped s :
  answered rest (item :: skipped) s = answered rest skipped (answered rest [item] s).
Proof. unfold answered. simpl. destruct item as [[]|]; simpl; by rewrite ?app_nil_r, <- ?app_assoc. Qed.
Lemma answered_incoming rest rest' skipped s :
  answered rest skipped (with_incoming rest' s) = answered rest skipped s.
Proof. done. Qed.

(** One text, or the error that ends the stream. *)
Lemma next_text_from_spec incoming s : sends s ->
  next_text_from incoming s =
    match split_outcome (fun text => Ok (Some text)) incoming with
    | (skipped, Some (r, rest)) => (r, answered rest skipped s)
    | (skipped, None) => (Err stream_ended, {| so_incoming := match incoming with [] => so_incoming s | _ => [] end;
                            so_sent := so_sent s ++ pongs skipped; so_send_error := so_send_error s |})
    end.
Proof.
  revert s. induction incoming as [|item rest IH]; intros s Hs; simpl; [by rewrite app_nil_r; destruct s|].
  destruct item as [[text| |payload|frame|]|error]; simpl; rewrite ?answered_nil; [done|done| |done| |done].
  - rewrite bind_eq. unfold socket_send. simpl. rewrite Hs. rewrite IH by done.
    destruct (split_outcome _ rest) as [skipped [[r rest']|]]; simpl; unfold answered; simpl; by rewrite <- ?app_assoc;
      destruct rest.
  - rewrite IH by done. destruct (split_outcome _ rest) as [skipped [[r rest']|]]; simpl; unfold answered; simpl;
      [done|by destruct rest].
Qed.

Lemma next_text_spec s : sends s -> next_text s = read_result (fun text => Ok (Some text)) s.
Proof.
  intros Hs. unfold next_text, read_result. rewrite next_text_from_spec by done.
  destruct (split_outcome _ _) as [skipped [[r rest]|]]; [done|]. unfold answered. f_equal. by destruct (so_incoming s) eqn:E.
Qed.

Lemma split_outcome_text {A} (accept : string -> result RpcError (option A)) items :
  split_outcome accept items =
    match split_outcome (fun text => Ok (Some text)) items with
    | (skipped, Some (Ok text, rest)) =>
        match accept text with
        | Err e => (skipped, Some (Err e, rest))
        | Ok (Some a) => (skipped, Some (Ok a, rest))
        | Ok None => let '(skipped', found) := split_outcome accept rest in
            (skipped ++ Ok (FrameText text) :: skipped', found)
        end
    | (skipped, Some (Err e, rest)) => (skipped, Some (Err e, rest))
    | (skipped, None) => (skipped, None)
    end.
Proof.
  induction items as [|item items IH]; [done|]. simpl. destruct item as [[text| |payload|frame|]|error]; simpl;
    [by destruct (accept text) as [[a|]|e]|done| |done| |done];
    rewrite IH; destruct (split_outcome (fun text => Ok (Some text)) items) as [sk [[[text|e] rest]|]]; [|done|done| |done|done];
    destruct (accept text) as [[a|]|e]; [done| |done|done| |done]; by destruct (split_outcome accept rest).
Qed.

Lemma split_outcome_shorter {A} (accept : string -> result RpcError (option A)) items skipped r rest :
  split_outcome accept items = (skipped, Some (r, rest)) -> (length rest < length items)%nat.
Proof.
  revert skipped. induction items as [|item items IH]; intros skipped; simpl; [done|].
  destruct (item_outcome accept item); [intros [= <- <- <-]; lia|].
  destruct (split_outcome accept items) as [sk found] eqn:E. intros [= <- ->]. specialize (IH sk eq_refl). lia.
Qed.

Lemma pongs_app xs ys : pongs (xs ++ ys) = pongs xs ++ pongs ys.
Proof. apply omap_app. Qed.

(** The loop reads to the first message that ends it. *)
Lemma read_texts_spec {A} (accept : string -> result RpcError (option A)) fuel s :
  sends s -> (length (so_incoming s) < fuel)%nat -> read_texts fuel accept s = read_result accept s.
Proof.
  revert s. induction fuel as [|fuel IH]; intros s Hs Hf; [lia|]. cbn [read_texts].
  rewrite bind_eq, next_text_spec by done. unfold read_result at 1 2. rewrite (split_outcome_text accept).
  destruct (split_outcome (fun text => Ok (Some text)) (so_incoming s)) as [sk [[[text|e] rest]|]] eqn:E; [|done|done].
  apply split_outcome_shorter in E. rewrite bind_eq. unfold st_lift.
  destruct (accept text) as [[a|]|e]; [done| |done].
  rewrite IH; [|done|simpl; lia]. unfold read_result. simpl.
  destruct (split_outcome accept rest) as [sk' [[r rest']|]]; unfold answered; simpl;
    by rewrite pongs_app, <- app_assoc.
Qed.
Lemma read_loop_spec {A} (accept : string -> result RpcError (option A)) s :
  sends s -> read_loop accept s = read_result accept s.
Proof. intros Hs. apply read_texts_spec; [done|lia]. Qed.

(** The caller reads notifications until the first error, as
    [live_notification_stream] does. *)
Fixpoint drain (fuel : nat) (subscription_id : Z) (s : Socket) : list ProgramLogNotification * option RpcError * Socket :=
  match fuel with
  | O => ([], None, s)
  | S fuel =>
      match next_notification subscription_id s with
      | (Ok notification, s) =>
          let '(ns, e, s) := drain fuel subscription_id s in (notification :: ns, e, s)
      | (Err e, s) => ([], Some e, s)
      end
  end.

Definition delivered (subscription_id : Z) (item : result string Frame) : option ProgramLogNotification :=
  match item_outcome (notification_of subscription_id) item with Some (Ok n) => Some n | _ => None end.
Definition failing (subscription_id : Z) (item : result string Frame) : option RpcError :=
  match item_outcome (notification_of subscription_id) item with Some (Err e) => Some e | _ => None end.

Lemma notification_of_id id text n : notification_of id text = Ok (Some n) -> nt_subscription_id n = id.
Proof.
  unfold notification_of. intros H. simp_ok. destruct (json_get "error" _); [done|].
  simp_ok. destruct (negb (bool_decide _)); [by injection H|]. simp_ok.
  destruct (negb (String.eqb _ _)); [done|]. destruct (negb (_ =? _)); [done|]. simp_ok. by subst n.
Qed.

Lemma split_outcome_app {A} (accept : string -> result RpcError (option A)) items skipped found :
  split_outcome accept items = (skipped, found) ->
  Forall (fun item => item_outcome accept item = None) skipped /\
  match found with
  | None => items = skipped
  | Some (r, rest) => exists item, items = skipped ++ item :: rest /\ item_outcome accept item = Some r
  end.
Proof.
  revert skipped found. induction items as [|item items IH]; intros skipped found; simpl; [by intros [= <- <-]|].
  destruct (item_outcome accept item) as [r|] eqn:E; [intros [= <- <-]; split; [done|by exists item]|].
  destruct (split_outcome accept items) as [sk f]. intros [= <- <-]. destruct (IH sk f eq_refl) as [Hall Hf].
  split; [by constructor|]. destruct f as [[r rest]|]; [|by subst].
  destruct Hf as (i & -> & Hi). by exists i.
Qed.

(** Read to its first error, a subscription delivers exactly its notifications,
    in the order they came and none twice: the texts among the messages before
    the first failing one that are notifications of this subscription; every
    ping among them is answered by its pong, in order, and nothing else is sent.
    The error is that of the failing message, or that the stream ended. *)
Theorem subscription_delivers_in_order id s fuel :
  sends s -> (length (so_incoming s) < fuel)%nat ->
  exists before after e, so_incoming s = before ++ after /\
    Forall (fun item => failing id item = None) before /\
    (match after with [] => e = stream_ended | item :: _ => failing id item = Some e end) /\
    drain fuel id s = (omap (delivered id) before, Some e, answered (tail after) before s) /\
    Forall (fun n => nt_subscription_id n = id) (omap (delivered id) before).
Proof.
  revert s. induction fuel as [|fuel IH]; intros s Hs Hf; [lia|]. cbn [drain].
  unfold next_notification. rewrite read_loop_spec by done. unfold read_result.
  destruct (split_outcome (notification_of id) (so_incoming s)) as [sk found] eqn:E.
  pose proof (split_outcome_app _ _ _ _ E) as [Hsk Hfound].
  assert (Forall (fun item => failing id item = None) sk) as Hquiet.
  { eapply Forall_impl; [exact Hsk|]. intros item Hi. unfold failing. by rewrite Hi. }
  assert (omap (delivered id) sk = []) as Hnone.
  { clear -Hsk. induction Hsk as [|item sk Hi _ IHsk]; [done|]. simpl. unfold delivered at 1. by rewrite Hi. }
  destruct found as [[[n|e] rest]|].
  - destruct Hfound as (item & Hin & Hi). apply split_outcome_shorter in E.
    destruct (IH (answered rest sk s)) as (before & after & e & Ha & Hq & He & Hd & Hids); [done|simpl; lia|].
    simpl in Ha. exists (sk ++ item :: before), after, e.
    assert (item_outcome (notification_of id) item = Some (Ok n)) as Hdel by done.
    assert (delivered id item = Some n) as Hdel' by (unfold delivered; by rewrite Hdel).
    assert (omap (delivered id) (sk ++ item :: before) = n :: omap (delivered id) before) as Homap.
    { rewrite omap_app, Hnone. simpl. by rewrite Hdel'. }
    split; [by rewrite Hin, Ha, <- app_assoc|]. split.
    { apply Forall_app. split; [done|]. constructor; [|done]. unfold failing. by rewrite Hdel. }
    split; [done|]. rewrite Hd, Homap. split.
    + f_equal. unfold answered. simpl. rewrite <- app_assoc, pongs_app. simpl.
      destruct item as [[]|]; simpl in Hdel; done.
    + constructor; [|done]. destruct item as [[text| | | |]|]; simpl in Hdel; try done.
      destruct (notification_of id text) as [[n'|]|] eqn:En; [|done|done]. injection Hdel as ->. by eapply notification_of_id.
  - destruct Hfound as (item & Hin & Hi). exists sk, (item :: rest), e. rewrite Hnone.
    split; [done|]. split; [done|]. split; [unfold failing; by rewrite Hi|]. by split.
  - exists sk, [], stream_ended. rewrite Hnone, app_nil_r. by split.
Qed.
End Delivery.
