(* ===== verification/Recovery.v ===== *)
(** [crates/solana-rpc/src/recovery.rs]: the pager that walks an address's
    signature history back to a durable checkpoint and releases what lies above
    it, oldest first, in one batch. *)
From S2P Require Import Prelude.
From S2P Require Import RustStr.
From S2P Require Import Domain.
From S2P Require Import RpcModel.

Record RecoveryBatch := {
  rb_program_id : string;
  rb_records_oldest_first : list SignatureRecord;
  rb_head_checkpoint : option RecoveryCheckpoint;
  rb_pages_fetched : Z;
}.

Inductive RecoveryProgress := More | Complete (batch : RecoveryBatch).

Record RecoveryPager := {
  pg_program_id : string;
  pg_context : ReadContext;
  pg_page_size : Z;
  pg_max_records : Z;
  pg_checkpoint : option RecoveryCheckpoint;
  pg_before : option string;
  pg_records_newest_first : list SignatureRecord;
  pg_pages_fetched : Z;
  pg_complete : bool;
}.

Definition initial_head (program_id : string) (page_size : Z) (context : ReadContext)
    : result RpcError RecoveryPager :=
  _ ← signature_page_request program_id None page_size context;
  Ok {| pg_program_id := program_id; pg_context := context; pg_page_size := page_size;
        pg_max_records := page_size; pg_checkpoint := None; pg_before := None;
        pg_records_newest_first := []; pg_pages_fetched := 0; pg_complete := false |}.

Definition after_checkpoint (checkpoint : RecoveryCheckpoint) (page_size max_records : Z)
    (context : ReadContext) : result RpcError RecoveryPager :=
  if is_empty (rc_program_id checkpoint) || is_empty (rc_last_signature checkpoint) then
    Err (InvalidRequest "recovery checkpoint program and signature cannot be empty") else
  _ ← signature_page_request (rc_program_id checkpoint) None page_size context;
  if max_records <? page_size then
    Err (InvalidRequest "recovery max_records cannot be smaller than page_size") else
  Ok {| pg_program_id := rc_program_id checkpoint; pg_context := context;
        pg_page_size := page_size; pg_max_records := max_records;
        pg_checkpoint := Some checkpoint; pg_before := None;
        pg_records_newest_first := []; pg_pages_fetched := 0; pg_complete := false |}.

Definition next_request (p : RecoveryPager) : result RpcError SignaturePageRequest :=
  if pg_complete p then Err (RecoveryProtocol "pager is already complete") else
  signature_page_request (pg_program_id p) (pg_before p) (pg_page_size p) (pg_context p).

(** [self.records_newest_first.extend(...)] and the other field updates. *)
Definition extend_records (records : list SignatureRecord) (p : RecoveryPager) : RecoveryPager := {|
  pg_program_id := pg_program_id p; pg_context := pg_context p; pg_page_size := pg_page_size p;
  pg_max_records := pg_max_records p; pg_checkpoint := pg_checkpoint p; pg_before := pg_before p;
  pg_records_newest_first := pg_records_newest_first p ++ records;
  pg_pages_fetched := pg_pages_fetched p; pg_complete := pg_complete p |}.
Definition set_before (cursor : string) (p : RecoveryPager) : RecoveryPager := {|
  pg_program_id := pg_program_id p; pg_context := pg_context p; pg_page_size := pg_page_size p;
  pg_max_records := pg_max_records p; pg_checkpoint := pg_checkpoint p;
  pg_before := Some cursor; pg_records_newest_first := pg_records_newest_first p;
  pg_pages_fetched := pg_pages_fetched p; pg_complete := pg_complete p |}.
(** [self.pages_fetched += 1], which wraps where overflow is not checked; the
    count never gets there (lemma [pages_bounded]). *)
Definition count_page (p : RecoveryPager) : RecoveryPager := {|
  pg_program_id := pg_program_id p; pg_context := pg_context p; pg_page_size := pg_page_size p;
  pg_max_records := pg_max_records p; pg_checkpoint := pg_checkpoint p; pg_before := pg_before p;
  pg_records_newest_first := pg_records_newest_first p;
  pg_pages_fetched := wrapping_add_u 64 (pg_pages_fetched p) 1; pg_complete := pg_complete p |}.

Definition ensure_capacity (p : RecoveryPager) (additional : Z) : result RpcError unit :=
  guard_err (saturating_add_u 64 (Z.of_nat (length (pg_records_newest_first p))) additional >?
             pg_max_records p)
    (RecoveryLimitExceeded (pg_max_records p)).

Definition checkpoint_at (program_id : string) (r : SignatureRecord) : RecoveryCheckpoint := {|
  rc_program_id := program_id; rc_last_slot := sr_slot r;
  rc_last_transaction_index := sr_transaction_index r; rc_last_signature := sr_signature r |}.

Definition head_checkpoint (p : RecoveryPager) : option RecoveryCheckpoint :=
  match head (pg_records_newest_first p) with
  | Some r => Some (checkpoint_at (pg_program_id p) r)
  | None => pg_checkpoint p
  end.

Definition finish_batch (p : RecoveryPager) (head_checkpoint : option RecoveryCheckpoint)
    : RecoveryBatch * RecoveryPager :=
  let records := pg_records_newest_first p in
  ({| rb_program_id := pg_program_id p;
      rb_records_oldest_first := reverse records;
      rb_head_checkpoint :=
        match head_checkpoint with
        | Some c => Some c
        | None => checkpoint_at (pg_program_id p) <$> head records
        end;
      rb_pages_fetched := pg_pages_fetched p |},
   {| pg_program_id := pg_program_id p; pg_context := pg_context p;
      pg_page_size := pg_page_size p; pg_max_records := pg_max_records p;
      pg_checkpoint := pg_checkpoint p; pg_before := pg_before p;
      pg_records_newest_first := []; pg_pages_fetched := pg_pages_fetched p;
      pg_complete := true |}).

Definition validate_page_shape (page : SignaturePage) : result RpcError unit :=
  if Z.of_nat (length (sp_records_newest_first page)) >? pr_limit (sp_request page) then
    Err (RecoveryProtocol "page exceeded requested limit") else
  if sp_exhausted page && bool_decide (is_Some (sp_next_before page)) then
    Err (RecoveryProtocol "exhausted page included next_before") else
  if negb (sp_exhausted page) &&
     negb (bool_decide (sp_next_before page = sr_signature <$> last (sp_records_newest_first page)))
  then Err (RecoveryProtocol "next_before did not identify the oldest page record") else
  Ok tt.

(** The page that holds the checkpoint, at an index. *)
Definition accept_boundary (p : RecoveryPager) (checkpoint : RecoveryCheckpoint)
    (page : SignaturePage) (index : nat) (boundary : SignatureRecord)
    : result RpcError RecoveryProgress * RecoveryPager :=
  if negb (sr_slot boundary =? rc_last_slot checkpoint) then
    (Err (RecoveryProtocol ("checkpoint signature slot " +:+ pretty (sr_slot boundary) +:+
            " did not match durable slot " +:+ pretty (rc_last_slot checkpoint))), p)
  else
    match ensure_capacity p (Z.of_nat index) with
    | Err e => (Err e, p)
    | Ok _ =>
        let p := extend_records (take index (sp_records_newest_first page)) p in
        let '(batch, p) := finish_batch p (head_checkpoint p) in
        (Ok (Complete batch), p)
    end.

(** A page above the checkpoint. *)
Definition accept_above (p : RecoveryPager) (checkpoint : RecoveryCheckpoint)
    (page : SignaturePage) : result RpcError RecoveryProgress * RecoveryPager :=
  match ensure_capacity p (Z.of_nat (length (sp_records_newest_first page))) with
  | Err e => (Err e, p)
  | Ok _ =>
      let p := extend_records (sp_records_newest_first page) p in
      if sp_exhausted page then
        (Err (RecoveryCheckpointNotFound (rc_program_id checkpoint) (rc_last_slot checkpoint)
                (rc_last_signature checkpoint)), p)
      else
        match sp_next_before page with
        | None => (Err (RecoveryProtocol "non-exhausted page omitted next_before"), p)
        | Some next =>
            if bool_decide (pg_before p = Some next)
            then (Err (RecoveryProtocol "signature cursor did not advance"), p)
            else (Ok More, set_before next p)
        end
  end.

(** [accept_page]: the result, and the pager it leaves. *)
Definition accept_page (p : RecoveryPager) (page : SignaturePage)
    : result RpcError RecoveryProgress * RecoveryPager :=
  match next_request p with
  | Err e => (Err e, p)
  | Ok expected =>
      if negb (bool_decide (sp_request page = expected)) then
        (Err (RecoveryProtocol "page does not match the outstanding request"), p)
      else
        match validate_page_shape page with
        | Err e => (Err e, p)
        | Ok _ =>
            let p := count_page p in
            match pg_checkpoint p with
            | None =>
                let '(batch, p) := finish_batch (extend_records (sp_records_newest_first page) p) None in
                (Ok (Complete batch), p)
            | Some checkpoint =>
                match list_find (fun r => sr_signature r = rc_last_signature checkpoint)
                        (sp_records_newest_first page) with
                | Some (index, boundary) => accept_boundary p checkpoint page index boundary
                | None => accept_above p checkpoint page
                end
            end
        end
  end.

(** The recovery pager against the history it pages through: whatever pages
    arrive, a batch is released only whole; and a provider that answers from an
    append-only history makes the pager end, with exactly the records above the
    checkpoint. *)
(** ** A provider with an append-only history *)

(** The records older than a cursor, in a history given newest first. *)
Definition older_than (cursor : string) (h : list SignatureRecord) : list SignatureRecord :=
  match list_find (fun r => sr_signature r = cursor) h with
  | Some (i, _) => drop (S i) h
  | None => []
  end.

(** The answer to a request: the newest records older than its cursor. *)
Definition page_of (h : list SignatureRecord) (request : SignaturePageRequest) : SignaturePage :=
  let rest := match pr_before request with None => h | Some cursor => older_than cursor h end in
  let records := take (Z.to_nat (pr_limit request)) rest in
  let exhausted := Z.of_nat (length records) <? pr_limit request in
  {| sp_request := request; sp_records_newest_first := records;
     sp_next_before := if exhausted then None else sr_signature <$> last records;
     sp_exhausted := exhausted |}.

(** The request loop of a caller; request [i] is answered from history [hist i]. *)
Fixpoint recover (fuel : nat) (hist : nat -> list SignatureRecord) (i : nat) (p : RecoveryPager)
    : option (result RpcError RecoveryBatch) :=
  match fuel with
  | O => None
  | S fuel =>
      match next_request p with
      | Err e => Some (Err e)
      | Ok request =>
          match accept_page p (page_of (hist i) request) with
          | (Err e, _) => Some (Err e)
          | (Ok (Complete batch), _) => Some (Ok batch)
          | (Ok More, p') => recover fuel hist (S i) p'
          end
      end
  end.

Record append_only (hist : nat -> list SignatureRecord) : Prop := {
  ao_grows i : exists newer, hist (S i) = newer ++ hist i;
  ao_distinct i : NoDup (sr_signature <$> hist i);
  ao_named i r : r ∈ hist i -> sr_signature r <> ""%string;
}.

Lemma append_only_suffix hist i : append_only hist -> exists newer, hist i = newer ++ hist 0%nat.
Proof.
  intros H. induction i as [|i [newer IH]]; [by exists []|].
  destruct (ao_grows _ H i) as [newer' ->]. exists (newer' ++ newer). by rewrite IH, app_assoc.
Qed.

(** What lies below the last record of a known part of the history. *)
Lemma older_than_last newer recs r rest :
  NoDup (sr_signature <$> newer ++ recs ++ rest) -> last recs = Some r ->
  older_than (sr_signature r) (newer ++ recs ++ rest) = rest.
Proof.
  intros Hnd Hlast. apply last_Some in Hlast as [recs' ->].
  unfold older_than. rewrite <- (app_assoc recs'), (app_assoc newer). simpl.
  set (above := newer ++ recs'). rewrite <- (app_assoc recs'), (app_assoc newer) in Hnd. simpl in Hnd.
  fold above in Hnd.
  assert (list_find (fun r' => sr_signature r' = sr_signature r) (above ++ r :: rest) =
    Some (length above, r)) as ->.
  { apply list_find_Some. split_and!; [by apply list_lookup_middle|done|].
    intros j y Hy Hj Heq. rewrite lookup_app_l in Hy by done.
    rewrite fmap_app, fmap_cons in Hnd. apply NoDup_app in Hnd as (_ & Hnd & _).
    apply (Hnd (sr_signature y)); [by apply list_elem_of_fmap_2, list_elem_of_lookup_2 with j|].
    rewrite Heq. left. }
  rewrite drop_app_ge by lia. by replace (S (length above) - length above)%nat with 1%nat by lia.
Qed.

Lemma elem_of_take_in {A} (x : A) k l : x ∈ take k l -> x ∈ l.
Proof. intros (i & Hi & _)%elem_of_take. by eapply list_elem_of_lookup_2. Qed.

(** ** One page *)
Section Pager.
Context (cp : RecoveryCheckpoint) (n : nat) (max : Z) (ctx : ReadContext).
Hypothesis page_bounds : (1 <= n)%nat /\ Z.of_nat n <= MAX_SIGNATURE_PAGE_SIZE.
Hypothesis max_bounds : Z.of_nat n <= max < u64_max.
Hypothesis cp_named : rc_program_id cp <> ""%string /\ rc_last_signature cp <> ""%string.

Definition is_boundary (r : SignatureRecord) : Prop := sr_signature r = rc_last_signature cp.
#[export] Instance is_boundary_dec r : Decision (is_boundary r) := decide (_ = _).

(** A pager that has accepted [pages] full pages, whose records are [recs]. *)
Record pager_at (recs : list SignatureRecord) (pages : nat) (p : RecoveryPager) : Prop := {
  pa_program : pg_program_id p = rc_program_id cp;
  pa_context : pg_context p = ctx;
  pa_size : pg_page_size p = Z.of_nat n;
  pa_max : pg_max_records p = max;
  pa_checkpoint : pg_checkpoint p = Some cp;
  pa_before : pg_before p = sr_signature <$> last recs;
  pa_records : pg_records_newest_first p = recs;
  pa_pages : pg_pages_fetched p = Z.of_nat pages;
  pa_complete : pg_complete p = false;
  pa_full : length recs = (pages * n)%nat;
  pa_room : Z.of_nat (length recs) <= max;
  pa_named r : r ∈ recs -> sr_signature r <> ""%string;
}.

Lemma after_checkpoint_pager : exists p,
  after_checkpoint cp (Z.of_nat n) max ctx = Ok p /\ pager_at [] 0 p.
Proof.
  destruct cp_named. unfold after_checkpoint, signature_page_request, is_empty.
  unfold MAX_SIGNATURE_PAGE_SIZE in *.
  rewrite !(proj2 (String.eqb_neq _ _)) by done. simpl.
  rewrite (proj2 (Z.leb_le 1 (Z.of_nat n))), (proj2 (Z.leb_le (Z.of_nat n) _)) by lia. simpl.
  rewrite (proj2 (Z.ltb_ge _ _)) by lia. eexists. split; [reflexivity|].
  constructor; simpl; try done; [lia|by intros r ?%elem_of_nil].
Qed.

Lemma pager_request recs pages p :
  pager_at recs pages p ->
  next_request p = Ok {| pr_program_id := rc_program_id cp;
    pr_before := sr_signature <$> last recs; pr_limit := Z.of_nat n; pr_context := ctx |}.
Proof.
  intros [H1 H2 H3 H4 H5 H6 H7 H8 H9 H10 H11 H12]. destruct cp_named.
  unfold next_request, signature_page_request, is_empty. rewrite H1, H2, H3, H6, H9.
  rewrite (proj2 (String.eqb_neq _ _)) by done. unfold MAX_SIGNATURE_PAGE_SIZE in *.
  rewrite (proj2 (Z.leb_le 1 (Z.of_nat n))), (proj2 (Z.leb_le (Z.of_nat n) _)) by lia. simpl.
  rewrite bool_decide_eq_false_2; [done|]. destruct (last recs) as [r|] eqn:El; [|done].
  intros [= Hr]. apply (H12 r); [|done]. by apply last_Some_elem_of in El.
Qed.

Lemma ensure_capacity_at recs pages p k :
  pager_at recs pages p -> 
  ensure_capacity p (Z.of_nat k) =
  if Z.of_nat (length recs + k) <=? max then Ok tt else Err (RecoveryLimitExceeded max).
Proof.
  intros H. unfold ensure_capacity, guard_err. rewrite (pa_records _ _ _ H), (pa_max _ _ _ H).
  unfold saturating_add_u. rewrite Nat2Z.inj_add.
  destruct (Z.leb_spec (Z.of_nat (length recs) + Z.of_nat k) max).
  - by rewrite gtb_false by lia.
  - by rewrite gtb_true by lia.
Qed.

(** What recovery must come to when [rest] lies below the records held. *)
Definition outcome (recs : list SignatureRecord) (pages : nat) (rest : list SignatureRecord)
    (r : result RpcError RecoveryBatch) : Prop :=
  match list_find is_boundary rest with
  | Some (k, b) =>
      if sr_slot b =? rc_last_slot cp then
        if Z.of_nat (length recs + k) <=? max then
          r = Ok {| rb_program_id := rc_program_id cp;
                    rb_records_oldest_first := reverse (recs ++ take k rest);
                    rb_head_checkpoint :=
                      Some (match head (recs ++ take k rest) with
                            | Some newest => checkpoint_at (rc_program_id cp) newest
                            | None => cp
                            end);
                    rb_pages_fetched := Z.of_nat (pages + k / n + 1) |}
        else r = Err (RecoveryLimitExceeded max)
      else exists e, r = Err e
  | None =>
      r = Err (if Z.of_nat (length recs + length rest) <=? max
               then RecoveryCheckpointNotFound (rc_program_id cp) (rc_last_slot cp)
                      (rc_last_signature cp)
               else RecoveryLimitExceeded max)
  end.

Lemma outcome_limit recs pages rest :
  list_find is_boundary (take n rest) = None -> (n <= length rest)%nat ->
  max < Z.of_nat (length recs + n) -> outcome recs pages rest (Err (RecoveryLimitExceeded max)).
Proof.
  intros Hnone Hn Hmax. unfold outcome. destruct (list_find is_boundary rest) as [[k b]|] eqn:E.
  - assert (n <= k)%nat as Hk.
    { destruct (decide (n <= k)%nat); [done|]. apply list_find_Some in E as (Hl & Hb & Hlt).
      apply list_find_None, (Forall_lookup_1 _ _ k b) in Hnone; [done|].
      by rewrite lookup_take_lt by lia. }
    destruct (_ =? _); [|by eexists].
    rewrite (proj2 (Z.leb_gt _ _)) by lia. done.
  - by rewrite (proj2 (Z.leb_gt _ _)) by lia.
Qed.

Lemma outcome_skip recs pages rest r :
  list_find is_boundary (take n rest) = None -> (n <= length rest)%nat ->
  outcome (recs ++ take n rest) (S pages) (drop n rest) r -> outcome recs pages rest r.
Proof.
  intros Hnone Hn. unfold outcome.
  assert (length (take n rest) = n) as Hlen by (rewrite length_take; lia).
  assert (list_find is_boundary rest =
    prod_map (fun k => (k + n)%nat) id <$> list_find is_boundary (drop n rest)) as ->.
  { rewrite <- (take_drop n rest) at 1. by rewrite list_find_app_r, Hlen by done. }
  rewrite length_app, Hlen.
  destruct (list_find is_boundary (drop n rest)) as [[k b]|]; simpl.
  - replace (length recs + (k + n))%nat with (length recs + n + k)%nat by lia.
    destruct (_ =? _); [|done].
    assert (recs ++ take (k + n) rest = (recs ++ take n rest) ++ take k (drop n rest)) as ->.
    { by rewrite <- app_assoc, (Nat.add_comm k n), take_take_drop. }
    assert ((k + n) / n = k / n + 1)%nat as ->.
    { rewrite <- (Nat.mul_1_l n) at 1. by rewrite Nat.div_add by lia. }
    by replace (pages + (k / n + 1) + 1)%nat with (S pages + k / n + 1)%nat by lia.
  - rewrite length_drop. by replace (length recs + length rest)%nat
      with (length recs + n + (length rest - n))%nat by lia.
Qed.

Definition page_below (recs rest : list SignatureRecord) : SignaturePage :=
  let records := take n rest in
  let exhausted := Z.of_nat (length records) <? Z.of_nat n in
  {| sp_request := {| pr_program_id := rc_program_id cp; pr_before := sr_signature <$> last recs;
                      pr_limit := Z.of_nat n; pr_context := ctx |};
     sp_records_newest_first := records;
     sp_next_before := if exhausted then None else sr_signature <$> last records;
     sp_exhausted := exhausted |}.

Lemma page_below_shape recs rest : validate_page_shape (page_below recs rest) = Ok tt.
Proof.
  unfold validate_page_shape, page_below. simpl. rewrite length_take.
  rewrite gtb_false by lia. destruct (_ <? _); simpl; [done|].
  by rewrite bool_decide_eq_true_2.
Qed.

Lemma pages_bounded recs pages p :
  pager_at recs pages p -> pg_pages_fetched (count_page p) = Z.of_nat (S pages).
Proof.
  intros H. simpl. rewrite (pa_pages _ _ _ H). unfold wrapping_add_u.
  pose proof (pa_full _ _ _ H). pose proof (pa_room _ _ _ H).
  assert (pages <= length recs)%nat by nia.
  rewrite Z.mod_small; [lia|]. unfold_ints. lia.
Qed.

Lemma accept_boundary_at recs pages p rest k b :
  pager_at recs pages p -> list_find is_boundary (take n rest) = Some (k, b) ->
  exists r p', accept_boundary (count_page p) cp (page_below recs rest) k b = (r, p') /\
    match r with
    | Ok (Complete batch) => outcome recs pages rest (Ok batch)
    | Ok More => False
    | Err e => outcome recs pages rest (Err e)
    end.
Proof.
  intros H Hfind. assert (list_find is_boundary rest = Some (k, b)) as Hrest.
  { rewrite <- (take_drop n rest). by apply list_find_app_l. }
  apply list_find_Some in Hfind as (Hk & _ & _). apply lookup_lt_Some in Hk.
  rewrite length_take in Hk.
  unfold accept_boundary, outcome. rewrite Hrest.
  destruct (sr_slot b =? rc_last_slot cp); simpl; [|by repeat eexists].
  change (ensure_capacity (count_page p)) with (ensure_capacity p).
  rewrite (ensure_capacity_at recs pages p k H). destruct (_ <=? max); simpl; [|by repeat eexists].
  eexists _, _. split; [reflexivity|]. simpl.
  rewrite take_take, Nat.min_l by lia. rewrite (pa_records _ _ _ H), (pa_program _ _ _ H).
  rewrite (Nat.div_small k n) by lia. pose proof (pages_bounded _ _ _ H) as Hp. simpl in Hp.
  f_equal. f_equal; [|rewrite Hp; f_equal; lia].
  unfold head_checkpoint. simpl. rewrite (pa_records _ _ _ H), (pa_checkpoint _ _ _ H).
  by destruct (head (recs ++ take k rest)); rewrite ?(pa_program _ _ _ H).
Qed.

Lemma accept_above_at recs pages p rest :
  pager_at recs pages p -> list_find is_boundary (take n rest) = None ->
  NoDup (sr_signature <$> recs ++ rest) -> (forall r, r ∈ rest -> sr_signature r <> ""%string) ->
  exists r p', accept_above (count_page p) cp (page_below recs rest) = (r, p') /\
    match r with
    | Ok (Complete _) => False
    | Ok More => (n <= length rest)%nat /\ pager_at (recs ++ take n rest) (S pages) p'
    | Err e => outcome recs pages rest (Err e)
    end.
Proof.
  intros H Hnone Hnd Hnamed. unfold accept_above.
  change (ensure_capacity (count_page p)) with (ensure_capacity p). simpl.
  rewrite (ensure_capacity_at recs pages p _ H), length_take.
  destruct (Z.ltb_spec (Z.of_nat (Nat.min n (length rest))) (Z.of_nat n)) as [Hex|Hex].
  - (* the last page *)
    assert (take n rest = rest) as Heq by (apply take_ge; lia). rewrite Heq in Hnone.
    rewrite Nat.min_r by lia.
    assert (forall e, e = (if Z.of_nat (length recs + length rest) <=? max
      then RecoveryCheckpointNotFound (rc_program_id cp) (rc_last_slot cp) (rc_last_signature cp)
      else RecoveryLimitExceeded max) -> outcome recs pages rest (Err e)) as Hout.
    { intros e ->. unfold outcome. by rewrite Hnone. }
    destruct (_ <=? max); (eexists _, _; split; [reflexivity|]; by apply Hout).
  - rewrite Nat.min_l by lia. destruct (Z.leb_spec (Z.of_nat (length recs + n)) max) as [Hr|Hr].
    2:{ eexists _, _. split; [reflexivity|]. apply outcome_limit; [done|lia|lia]. }
    destruct (last (take n rest)) as [r|] eqn:El; simpl.
    2:{ apply last_None in El. apply (f_equal length) in El. rewrite length_take in El. simpl in El. lia. }
    assert (Hin : r ∈ rest).
    { by eapply elem_of_take_in, last_Some_elem_of. }
    rewrite bool_decide_eq_false_2.
    + eexists _, _. split; [reflexivity|]. split; [lia|].
      pose proof (pages_bounded _ _ _ H) as Hp.
      destruct H as [H1 H2 H3 H4 H5 H6 H7 H8 H9 H10 H11 H12]. constructor; simpl; try done.
      * by rewrite last_app, El.
      * by rewrite H7.
      * rewrite length_app, length_take. nia.
      * rewrite length_app, length_take. lia.
      * intros r' [?|?%elem_of_take_in]%elem_of_app; auto.
    + simpl. rewrite (pa_before _ _ _ H). intros Heq. destruct (last recs) as [r0|] eqn:E0; [|done].
      injection Heq as Heq. rewrite fmap_app in Hnd. apply NoDup_app in Hnd as (_ & Hnd & _).
      apply (Hnd (sr_signature r0)); [apply list_elem_of_fmap_2; by apply last_Some_elem_of|].
      rewrite Heq. by apply list_elem_of_fmap_2.
Qed.

Lemma accept_page_at recs pages p rest :
  pager_at recs pages p -> NoDup (sr_signature <$> recs ++ rest) ->
  (forall r, r ∈ rest -> sr_signature r <> ""%string) ->
  exists r p', accept_page p (page_below recs rest) = (r, p') /\
    match r with
    | Ok (Complete batch) => outcome recs pages rest (Ok batch)
    | Ok More => list_find is_boundary (take n rest) = None /\ (n <= length rest)%nat /\
                 pager_at (recs ++ take n rest) (S pages) p'
    | Err e => outcome recs pages rest (Err e)
    end.
Proof.
  intros H Hnd Hnamed. unfold accept_page. rewrite (pager_request _ _ _ H).
  rewrite bool_decide_eq_true_2 by done. cbn [negb]. rewrite page_below_shape. cbv zeta.
  change (pg_checkpoint (count_page p)) with (pg_checkpoint p). rewrite (pa_checkpoint _ _ _ H).
  change (list_find _ (sp_records_newest_first (page_below recs rest)))
    with (list_find is_boundary (take n rest)).
  destruct (list_find is_boundary (take n rest)) as [[k b]|] eqn:E.
  - destruct (accept_boundary_at recs pages p rest k b H E) as (r & p' & -> & Hr).
    exists r, p'. split; [done|]. by destruct r as [[|]|].
  - destruct (accept_above_at recs pages p rest H E Hnd Hnamed) as (r & p' & -> & Hr).
    exists r, p'. split; [done|]. by destruct r as [[|]|].
Qed.

(** ** The whole loop *)
Context (hist : nat -> list SignatureRecord).
Hypothesis growing : append_only hist.

Lemma page_of_below i recs rest :
  hist 0%nat = recs ++ rest -> (recs = [] -> i = 0%nat) ->
  page_of (hist i) {| pr_program_id := rc_program_id cp; pr_before := sr_signature <$> last recs;
    pr_limit := Z.of_nat n; pr_context := ctx |} = page_below recs rest.
Proof.
  intros Hh Hi. unfold page_of, page_below. simpl. rewrite Nat2Z.id.
  destruct (last recs) as [r|] eqn:El; simpl.
  - destruct (append_only_suffix hist i growing) as [newer Hn]. rewrite Hh in Hn.
    pose proof (ao_distinct _ growing i) as Hnd. rewrite Hn in Hnd |- *.
    by rewrite (older_than_last newer recs r rest).
  - apply last_None in El as ->. rewrite (Hi eq_refl), Hh. done.
Qed.

Lemma recover_from fuel i recs pages p rest :
  (length rest < fuel * n)%nat ->
  pager_at recs pages p -> hist 0%nat = recs ++ rest -> (recs = [] -> i = 0%nat) ->
  exists r, recover fuel hist i p = Some r /\ outcome recs pages rest r.
Proof.
  revert i recs pages p rest. induction fuel as [|fuel IH]; intros i recs pages p rest Hf Hp Hh Hi; [lia|].
  pose proof (ao_distinct _ growing 0%nat) as Hnd. rewrite Hh in Hnd.
  simpl. rewrite (pager_request _ _ _ Hp), (page_of_below i recs rest Hh Hi).
  destruct (accept_page_at recs pages p rest Hp Hnd) as (r & p' & -> & Hr).
  { intros r Hr. apply (ao_named _ growing 0%nat). rewrite Hh. apply elem_of_app. by right. }
  destruct r as [[|batch]|e]; [|by eexists|by eexists].
  destruct Hr as (Hnone & Hlen & Hp').
  destruct (IH (S i) (recs ++ take n rest) (S pages) p' (drop n rest)) as (r & Hrec & Hout).
  - rewrite length_drop. lia.
  - done.
  - by rewrite <- app_assoc, take_drop.
  - intros E. apply (f_equal length) in E. rewrite length_app, length_take in E. simpl in E. lia.
  - exists r. split; [done|]. by apply outcome_skip.
Qed.
End Pager.

(** C27: Recovery refines the provider's history.  Whenever a provider answers
    from an append-only history of distinct non-empty signatures, even while it
    grows between requests, a pager opened at a checkpoint ends after at most
    one request per page of the first history, and its result is decided by that
    history: the checkpoint at depth [k] within the limit releases exactly the
    [k] records above it, oldest first, with the newest of them (or the old
    checkpoint when there is none) as the new checkpoint, after [k / n + 1]
    pages; deeper than the limit, or absent, it fails with the matching error. *)
Theorem recover_refines_history cp n max ctx hist :
  (1 <= n)%nat -> Z.of_nat n <= MAX_SIGNATURE_PAGE_SIZE -> Z.of_nat n <= max < u64_max ->
  rc_program_id cp <> ""%string -> rc_last_signature cp <> ""%string -> append_only hist ->
  exists p r, after_checkpoint cp (Z.of_nat n) max ctx = Ok p /\
    recover (S (length (hist 0%nat) / n)) hist 0 p = Some r /\
    (forall k b, list_find (is_boundary cp) (hist 0%nat) = Some (k, b) ->
       sr_slot b = rc_last_slot cp ->
       r = if Z.of_nat k <=? max then
             Ok {| rb_program_id := rc_program_id cp;
                   rb_records_oldest_first := reverse (take k (hist 0%nat));
                   rb_head_checkpoint :=
                     Some (match head (take k (hist 0%nat)) with
                           | Some newest => checkpoint_at (rc_program_id cp) newest
                           | None => cp
                           end);
                   rb_pages_fetched := Z.of_nat (k / n + 1) |}
           else Err (RecoveryLimitExceeded max)) /\
    (forall k b, list_find (is_boundary cp) (hist 0%nat) = Some (k, b) ->
       sr_slot b <> rc_last_slot cp -> exists e, r = Err e) /\
    (list_find (is_boundary cp) (hist 0%nat) = None ->
       r = Err (if Z.of_nat (length (hist 0%nat)) <=? max
                then RecoveryCheckpointNotFound (rc_program_id cp) (rc_last_slot cp)
                       (rc_last_signature cp)
                else RecoveryLimitExceeded max)).
Proof.
  intros Hn Hsize Hmax Hp Hs Hg.
  destruct (after_checkpoint_pager cp n max ctx (conj Hn Hsize) Hmax (conj Hp Hs)) as (p & Ha & Hpa).
  destruct (recover_from cp n max ctx (conj Hn Hsize) Hmax (conj Hp Hs) hist Hg
    (S (length (hist 0%nat) / n)) 0 [] 0 p (hist 0%nat)) as (r & Hr & Hout); [|done|done|done|].
  { pose proof (Nat.div_mod (length (hist 0%nat)) n). pose proof (Nat.mod_upper_bound (length (hist 0%nat)) n).
    nia. }
  exists p, r. split_and!; [done|done| | |]; unfold outcome in Hout.
  - intros k b E Hb. rewrite E, Hb, Z.eqb_refl in Hout. simpl in Hout. by destruct (_ <=? _).
  - intros k b E Hb. rewrite E in Hout. by rewrite (proj2 (Z.eqb_neq _ _)) in Hout.
  - intros E. rewrite E in Hout. done.
Qed.

(** ** Arbitrary pages *)

(** A pager after pages that asked for more. *)
Inductive accepted : RecoveryPager -> list SignaturePage -> RecoveryPager -> Prop :=
| accepted_nil p : accepted p [] p
| accepted_more p page pages p' q :
    accept_page p page = (Ok More, p') -> accepted p' pages q -> accepted p (page :: pages) q.

Definition above (cp : RecoveryCheckpoint) (records : list SignatureRecord) : Prop :=
  Forall (fun r => sr_signature r <> rc_last_signature cp) records.

Record pager_holds (cp : RecoveryCheckpoint) (max : Z) (recs : list SignatureRecord)
    (p : RecoveryPager) : Prop := {
  ph_checkpoint : pg_checkpoint p = Some cp;
  ph_program : pg_program_id p = rc_program_id cp;
  ph_max : pg_max_records p = max;
  ph_records : pg_records_newest_first p = recs;
  ph_above : above cp recs;
  ph_room : Z.of_nat (length recs) <= max;
}.

Lemma ensure_capacity_room p k :
  pg_max_records p < u64_max -> ensure_capacity p (Z.of_nat k) = Ok tt ->
  Z.of_nat (length (pg_records_newest_first p) + k) <= pg_max_records p.
Proof.
  unfold ensure_capacity, guard_err, saturating_add_u. intros Hm.
  destruct (Z.gtb_spec (Z.min (Z.of_nat (length (pg_records_newest_first p)) + Z.of_nat k) u64_max)
    (pg_max_records p)); [done|]. lia.
Qed.

Lemma accept_page_more cp max recs p page p' :
  max < u64_max -> pager_holds cp max recs p -> accept_page p page = (Ok More, p') ->
  pager_holds cp max (recs ++ sp_records_newest_first page) p'.
Proof.
  intros Hmax [H1 H2 H3 H4 H5 H6]. unfold accept_page. destruct (next_request p); [|done].
  destruct (negb _); [done|]. destruct (validate_page_shape page); [|done].
  cbv zeta. change (pg_checkpoint (count_page p)) with (pg_checkpoint p). rewrite H1.
  destruct (list_find _ _) as [[k b]|] eqn:E.
  { unfold accept_boundary. destruct (negb _); [done|]. by destruct (ensure_capacity _ _). }
  unfold accept_above. destruct (ensure_capacity (count_page p) _) as [[]|] eqn:Ec; [|done]. simpl.
  apply ensure_capacity_room in Ec; [|simpl; lia]. simpl in Ec.
  destruct (sp_exhausted page); [done|]. destruct (sp_next_before page); [|done].
  case_bool_decide; [done|]. intros [= <-]. subst. constructor; simpl; try done.
  - apply Forall_app. split; [done|]. by apply list_find_None in E.
  - rewrite length_app. lia.
Qed.

Lemma accepted_holds cp max recs p pages q :
  max < u64_max -> pager_holds cp max recs p -> accepted p pages q ->
  pager_holds cp max (recs ++ concat (sp_records_newest_first <$> pages)) q.
Proof.
  intros Hmax Hp Hacc. revert recs Hp. induction Hacc as [p|p page pages p' q Hstep _ IH]; intros recs Hp.
  - by rewrite app_nil_r.
  - csimpl. rewrite app_assoc. apply IH. by eapply accept_page_more.
Qed.

(** A pager never releases a partial gap.  Whatever pages it is fed, once it
    completes the last page held the exact durable checkpoint, signature and
    slot, and the batch is everything the pages listed before it, oldest first,
    within the record limit and without that signature; its head is the newest
    released record, or the old checkpoint if nothing was released; and the
    pager then refuses every further page. *)
Theorem recovery_releases_whole_gap cp size max ctx p pages q page batch q' :
  max < u64_max -> after_checkpoint cp size max ctx = Ok p -> accepted p pages q ->
  accept_page q page = (Ok (Complete batch), q') ->
  exists index boundary,
    sp_records_newest_first page !! index = Some boundary /\
    sr_signature boundary = rc_last_signature cp /\ sr_slot boundary = rc_last_slot cp /\
    let released := concat (sp_records_newest_first <$> pages) ++
                    take index (sp_records_newest_first page) in
    rb_records_oldest_first batch = reverse released /\ above cp released /\
    Z.of_nat (length released) <= max /\
    rb_head_checkpoint batch =
      Some (match head released with
            | Some newest => checkpoint_at (rc_program_id cp) newest
            | None => cp
            end) /\
    (forall page', exists e, accept_page q' page' = (Err e, q')).
Proof.
  intros Hmax Hafter Hacc Hlast.
  assert (pager_holds cp max [] p) as Hp.
  { revert Hafter. unfold after_checkpoint. destruct (is_empty _ || _); [done|].
    destruct (signature_page_request (rc_program_id cp) None size ctx) as [req|] eqn:E; [|done]. simpl.
    destruct (Z.ltb_spec max size); [done|]. intros [= <-]. constructor; simpl; try done.
    - by constructor.
    - unfold signature_page_request in E. destruct (is_empty _); [done|].
      destruct (Z.leb_spec 1 size); [lia|done]. }
  pose proof (accepted_holds cp max [] p pages q Hmax Hp Hacc) as [H1 H2 H3 H4 H5 H6]. simpl in *.
  set (recs := concat (sp_records_newest_first <$> pages)) in *.
  revert Hlast. unfold accept_page. destruct (next_request q); [|done].
  destruct (negb _); [done|]. destruct (validate_page_shape page); [|done].
  cbv zeta. change (pg_checkpoint (count_page q)) with (pg_checkpoint q). rewrite H1.
  destruct (list_find _ _) as [[k b]|] eqn:E.
  2:{ unfold accept_above. destruct (ensure_capacity _ _); [|done].
      destruct (sp_exhausted page); [done|]. destruct (sp_next_before page); [|done].
      by case_bool_decide. }
  unfold accept_boundary. destruct (Z.eqb_spec (sr_slot b) (rc_last_slot cp)) as [Hslot|]; [|done].
  cbn [negb]. destruct (ensure_capacity (count_page q) (Z.of_nat k)) as [[]|] eqn:Ec; [|done].
  apply ensure_capacity_room in Ec; [|simpl; lia]. simpl in Ec. rewrite H3, H4 in Ec.
  simpl. intros [= <- <-]. apply list_find_Some in E as (Hk & Hb & Hbefore).
  pose proof (lookup_lt_Some _ _ _ Hk) as Hlt.
  exists k, b. simpl. rewrite H4, H2. split_and!; try done.
  - apply Forall_app. split; [done|]. apply Forall_lookup_2. intros j r Hj.
    apply lookup_take_Some in Hj as [Hj Hjk]. by eapply Hbefore.
  - rewrite length_app, length_take. lia.
  - unfold head_checkpoint. simpl. rewrite H4, H2, H1. by destruct (head (recs ++ take k _)).
  - intros page'. by eexists.
Qed.

(** ** A history that grows while it is paged *)
Module SampleRecovery.
Definition record (s : Z) : SignatureRecord := {|
  sr_slot := s; sr_transaction_index := None; sr_signature := ("s" +:+ pretty s)%string;
  sr_block_time_unix_seconds := None; sr_confirmation_status := None;
  sr_transaction_error := None |}.
Definition checkpoint : RecoveryCheckpoint := {|
  rc_program_id := "pump"; rc_last_slot := 10; rc_last_transaction_index := None;
  rc_last_signature := "s10" |}.
Definition context : ReadContext := {| rx_commitment := Confirmed; rx_minimum_slot := None |}.
Definition hist (i : nat) : list SignatureRecord :=
  match i with
  | O => record <$> [14; 13; 12; 10; 9]
  | S _ => record <$> [15; 14; 13; 12; 10; 9]
  end.

Lemma hist_append_only : append_only hist.
Proof.
  constructor.
  - intros [|i]; [by exists [record 15]|by exists []].
  - intros [|i]; apply (bool_decide_unpack _); vm_compute; reflexivity.
  - intros i r Hr. assert (exists z, r = record z) as [z ->].
    { destruct i; by apply list_elem_of_fmap in Hr as (z & -> & _); exists z. }
    done.
Qed.

(** The pager after the first page, and the two pages it is given. *)
Definition request (before : option string) : SignaturePageRequest := {|
  pr_program_id := "pump"; pr_before := before; pr_limit := 2; pr_context := context |}.
Definition page1 : SignaturePage := page_of (hist 0) (request None).
Definition page2 : SignaturePage := page_of (hist 1) (request (Some "s13"%string)).
Definition pager_with (before : option string) (recs : list SignatureRecord) (pages : Z) : RecoveryPager := {|
  pg_program_id := "pump"; pg_context := context; pg_page_size := 2; pg_max_records := 8;
  pg_checkpoint := Some checkpoint; pg_before := before; pg_records_newest_first := recs;
  pg_pages_fetched := pages; pg_complete := false |}.
Definition pager1 : RecoveryPager := pager_with (Some "s13"%string) (record <$> [14; 13]) 1.
End SampleRecovery.

Lemma recover_refines_history_witness : exists p batch,
  after_checkpoint SampleRecovery.checkpoint 2 8 SampleRecovery.context = Ok p /\
  recover 3 SampleRecovery.hist 0 p = Some (Ok batch) /\
  sr_slot <$> rb_records_oldest_first batch = [12; 13; 14].
Proof.
  destruct (recover_refines_history SampleRecovery.checkpoint 2 8 SampleRecovery.context
    SampleRecovery.hist) as (p & r & Hp & Hr & Hk & _).
  - lia.
  - vm_compute. congruence.
  - split; [lia|vm_compute; reflexivity].
  - done.
  - done.
  - apply SampleRecovery.hist_append_only.
  - exists p. specialize (Hk 3%nat (SampleRecovery.record 10)).
    eexists. split; [exact Hp|]. split.
    + change (S (length (SampleRecovery.hist 0) / 2)) with 3%nat in Hr. rewrite Hr, Hk; vm_compute; reflexivity.
    + vm_compute. reflexivity.
Defined.

Lemma recovery_releases_whole_gap_witness : exists batch q',
  accept_page SampleRecovery.pager1 SampleRecovery.page2 = (Ok (Complete batch), q') /\
  above SampleRecovery.checkpoint (reverse (rb_records_oldest_first batch)).
Proof.
  destruct (accept_page SampleRecovery.pager1 SampleRecovery.page2) as [r q'] eqn:E.
  assert (r = Ok More \/ exists batch, r = Ok (Complete batch)) as [->|[batch ->]].
  { vm_compute in E. injection E as <- _. right. eexists. reflexivity. }
  - vm_compute in E. discriminate E.
  - exists batch, q'. split; [done|].
    destruct (recovery_releases_whole_gap SampleRecovery.checkpoint 2 8 SampleRecovery.context
      (SampleRecovery.pager_with None [] 0) [SampleRecovery.page1] SampleRecovery.pager1
      SampleRecovery.page2 batch q') as (k & b & _ & _ & _ & H).
    + vm_compute. reflexivity.
    + vm_compute. reflexivity.
    + eapply accepted_more; [vm_compute; reflexivity|apply accepted_nil].
    + exact E.
    + destruct H as (-> & H & _). rewrite reverse_involutive. exact H.
Defined.
