(* ===== verification/RpcHttp.v ===== *)
(** [crates/solana-rpc/src/http.rs]: what the JSON-RPC client makes of the
    answers of a provider.  The transport and [serde_json]'s parsing are
    arguments: each call takes the parsed reply of its one request. *)
From Stdlib Require Import Ascii.
From S2P Require Import Prelude.
From S2P Require Import RustStr.
From S2P Require Import Domain.
From S2P Require Import Base58.
From S2P Require Import RpcModel.
From S2P Require Import Recovery.

Definition MAX_RPC_RESPONSE_BYTES : Z := 16 * 1024 * 1024.
Definition MAX_INSTRUCTION_DATA_BYTES : Z := 16 * 1024.

(** ** The response envelope *)
Record JsonRpcError := { je_code : Z; je_message : string }.
Record JsonRpcEnvelope (V : Type) := {
  env_jsonrpc : string;
  env_id : option Z;
  env_result : option V;
  env_error : option JsonRpcError;
}.
Arguments env_jsonrpc {V} _. Arguments env_id {V} _.
Arguments env_result {V} _. Arguments env_error {V} _.

(** [{:?}] of an [Option<u64>]. *)
Definition debug_option (o : option Z) : string :=
  match o with Some z => ("Some(" +:+ pretty z +:+ ")")%string | None => "None" end.

(** [append_bounded] and the loop of [read_bounded_body] over the chunks. *)
Definition response_too_large (maximum : Z) : RpcError :=
  InvalidResponse ("response exceeded " +:+ pretty maximum +:+ " bytes").
Definition append_bounded (body chunk : list byte) (maximum : Z) : result RpcError (list byte) :=
  if saturating_add_u 64 (Z.of_nat (length body)) (Z.of_nat (length chunk)) >? maximum
  then Err (response_too_large maximum) else Ok (body ++ chunk).
Fixpoint read_chunks (body : list byte) (chunks : list (result RpcError (list byte)))
    (maximum : Z) : result RpcError (list byte) :=
  match chunks with
  | [] => Ok body
  | chunk :: rest =>
      chunk ← chunk; body ← append_bounded body chunk maximum; read_chunks body rest maximum
  end.
Definition read_bounded_body (content_length : option Z) (chunks : list (result RpcError (list byte)))
    (maximum : Z) : result RpcError (list byte) :=
  if match content_length with Some length => length >? maximum | None => false end
  then Err (response_too_large maximum) else read_chunks [] chunks maximum.

(** [rpc] after the body was read: [parse] is [serde_json::from_slice],
    [from_value] the typed decoding of the result, [error_body] the text of an
    error response. *)
Definition rpc_response {V T} (parse : list byte -> result string (JsonRpcEnvelope V))
    (from_value : V -> result string T) (error_body : list byte -> string)
    (id status : Z) (bytes : list byte) : result RpcError T :=
  if status =? 429 then Err RateLimited else
  if negb ((200 <=? status) && (status <=? 299)) then Err (HttpStatus status (error_body bytes)) else
  envelope ← map_err InvalidResponse (parse bytes);
  if negb (String.eqb (env_jsonrpc envelope) "2.0") then
    Err (InvalidResponse "response is not JSON-RPC 2.0") else
  if negb (bool_decide (env_id envelope = Some id)) then
    Err (InvalidResponse ("response id " +:+ debug_option (env_id envelope) +:+
           " did not match request id " +:+ pretty id)) else
  match env_error envelope with
  | Some error =>
      if (je_code error =? 429) || (je_code error =? -32005) then Err RateLimited
      else Err (RpcFailure (je_code error) (je_message error))
  | None =>
      value ← ok_or (env_result envelope) (InvalidResponse "response omitted result");
      map_err InvalidResponse (from_value value)
  end.

Definition health (reply : result RpcError string) : RpcHealth :=
  match reply with
  | Ok value => if String.eqb value "ok" then HealthUp else HealthDegraded
  | Err RpcTimeout | Err RateLimited | Err (RpcFailure _ _) => HealthDegraded
  | Err _ => HealthDown
  end.

Definition genesis_hash (reply : result RpcError string) : result RpcError string :=
  hash ← reply;
  if is_empty hash || (Z.of_nat (String.length hash) >? 128) ||
     negb (forallb (fun a => existsb (Ascii.eqb a) ALPHABET) (String.list_ascii_of_string hash))
  then Err (InvalidResponse "getGenesisHash returned an invalid base58 value")
  else Ok hash.

(** ** Base58 *)

(** [ALPHABET.iter().position(..)]. *)
Fixpoint position (l : list Ascii.ascii) (a : Ascii.ascii) : option Z :=
  match l with
  | [] => None
  | b :: l => if Ascii.eqb b a then Some 0 else Z.succ <$> position l a
  end.

(** The inner loop over [bytes_little_endian]: multiply by 58 and add. *)
Fixpoint mul58_add (bytes : list Z) (carry : Z) : list Z * Z :=
  match bytes with
  | [] => ([], carry)
  | b :: bs =>
      let value := b * 58 + carry in
      let '(bs', carry') := mul58_add bs (value / 256) in
      (value mod 256 :: bs', carry')
  end.
(** [while carry > 0]: the carry is enough fuel. *)
Fixpoint push_carry256 (fuel : nat) (carry : Z) : list Z :=
  match fuel with
  | O => []
  | S fuel => if carry >? 0 then carry mod 256 :: push_carry256 fuel (carry / 256) else []
  end.
Definition push_digit (bytes : list Z) (digit : Z) : list Z :=
  let '(bs, carry) := mul58_add bytes digit in bs ++ push_carry256 (Z.to_nat carry) carry.

Fixpoint decode_digits (leading_zeroes : Z) (bytes : list Z) (encoded : list Ascii.ascii)
    : result RpcError (list Z) :=
  match encoded with
  | [] => Ok bytes
  | character :: rest =>
      digit ← ok_or (position ALPHABET character)
        (InvalidResponse ("instruction data contains invalid base58 byte " +:+
                          pretty (ascii_val character)));
      let bytes := push_digit bytes digit in
      if saturating_add_u 64 (Z.of_nat (length bytes)) leading_zeroes >? MAX_INSTRUCTION_DATA_BYTES
      then Err (InvalidResponse ("instruction data exceeded " +:+
                  pretty MAX_INSTRUCTION_DATA_BYTES +:+ " decoded bytes"))
      else decode_digits leading_zeroes bytes rest
  end.

(** [encoded.bytes().take_while(|byte| *byte == b'1').count()]. *)
Fixpoint leading_ones (encoded : list Ascii.ascii) : nat :=
  match encoded with
  | a :: rest => if Ascii.eqb a "1"%char then S (leading_ones rest) else O
  | [] => O
  end.

(** The last loop pops from the end, here the head of the reversal. *)
Definition decode_base58 (encoded : string) : result RpcError (list byte) :=
  let characters := String.list_ascii_of_string encoded in
  if is_empty encoded then Ok [] else
  let zeroes := leading_ones characters in
  bytes_little_endian ← decode_digits (Z.of_nat zeroes) [0] characters;
  let most_significant_first := pop_zeroes (rev bytes_little_endian) in
  Ok (repeat (byte_of_Z 0) zeroes ++
      (if Nat.eqb zeroes (length characters) then [] else byte_of_Z <$> most_significant_first)).

(** ** Transactions *)
Record RpcCompiledInstruction := {
  ci_program_id_index : Z;
  ci_data : string;
  ci_stack_height : option Z;
}.
Record RpcInnerInstructionGroup := {
  ig_index : Z;
  ig_instructions : list RpcCompiledInstruction;
}.
Record RpcLoadedAddresses := { la_writable : list string; la_readonly : list string }.
Record RpcJsonMessage := {
  jm_account_keys : list string;
  jm_instructions : list RpcCompiledInstruction;
}.
Record RpcJsonTransaction := { jt_signatures : list string; jt_message : RpcJsonMessage }.

(** [V] is [serde_json::Value]; [to_text] its [serde_json::to_string]. *)
Section Values.
Context {V : Type} (to_text : V -> result string string).

Record RpcTransactionMeta := {
  tm_error : option V;
  tm_log_messages : option (list string);
  tm_inner_instructions : list RpcInnerInstructionGroup;
  tm_loaded_addresses : RpcLoadedAddresses;
}.
Record RpcTransaction := {
  rt_slot : Z;
  rt_transaction_index : option Z;
  rt_block_time : option Z;
  rt_transaction : RpcJsonTransaction;
  rt_meta : option RpcTransactionMeta;
}.

Definition compact_error (error : option V) : result RpcError (option string) :=
  match error with
  | None => Ok None
  | Some value => Some <$> map_err InvalidResponse (to_text value)
  end.

Definition validate_primary_signature (requested_signature : string)
    (transaction : RpcJsonTransaction) : result RpcError unit :=
  returned ← ok_or (head (jt_signatures transaction))
    (InvalidResponse "getTransaction returned a transaction without a primary signature");
  guard_err (negb (String.eqb returned requested_signature))
    (InvalidResponse "getTransaction primary signature did not match the request").

Definition decode_instruction (instruction : RpcCompiledInstruction) (account_keys : list string)
    (outer : Z) (inner : option Z) : result RpcError TransactionInstructionRecord :=
  program_id ← ok_or (account_keys !! Z.to_nat (ci_program_id_index instruction))
    (InvalidResponse ("program id index " +:+ pretty (ci_program_id_index instruction) +:+
       " is outside " +:+ pretty (Z.of_nat (length account_keys)) +:+ " account keys"));
  data ← decode_base58 (ci_data instruction);
  Ok {| ti_outer_instruction_index := outer; ti_inner_instruction_index := inner;
        ti_stack_height := ci_stack_height instruction; ti_program_id := program_id;
        ti_data := data |}.

(** [inner_groups]: one slot per top-level instruction. *)
Fixpoint place_groups (slots : list (option RpcInnerInstructionGroup))
    (groups : list RpcInnerInstructionGroup)
    : result RpcError (list (option RpcInnerInstructionGroup)) :=
  match groups with
  | [] => Ok slots
  | group :: rest =>
      let index := Z.to_nat (ig_index group) in
      slot_ ← ok_or (slots !! index)
        (InvalidResponse ("inner instruction group " +:+ pretty (ig_index group) +:+
                          " has no top-level instruction"));
      if bool_decide (is_Some (slot_ : option RpcInnerInstructionGroup)) then
        Err (InvalidResponse ("duplicate inner instruction group " +:+ pretty (ig_index group)))
      else place_groups (<[index := Some group]> slots) rest
  end.

(** The instructions of one group, from an inner index on. *)
Fixpoint decode_inner (account_keys : list string) (outer : Z) (inner_index : nat)
    (instructions : list RpcCompiledInstruction)
    : result RpcError (list TransactionInstructionRecord) :=
  match instructions with
  | [] => Ok []
  | instruction :: rest =>
      inner ← ok_or (try_from_u 16 (Z.of_nat inner_index))
        (InvalidResponse "too many inner instructions");
      record ← decode_instruction instruction account_keys outer (Some inner);
      records ← decode_inner account_keys outer (S inner_index) rest;
      Ok (record :: records)
  end.

(** The top-level instructions from an index on, each with its group. *)
Fixpoint decode_outer (account_keys : list string)
    (inner_groups : list (option RpcInnerInstructionGroup)) (outer_index : nat)
    (instructions : list RpcCompiledInstruction)
    : result RpcError (list TransactionInstructionRecord) :=
  match instructions with
  | [] => Ok []
  | instruction :: rest =>
      outer ← ok_or (try_from_u 16 (Z.of_nat outer_index))
        (InvalidResponse "too many top-level instructions");
      record ← decode_instruction instruction account_keys outer None;
      inner ← match inner_groups !! outer_index with
              | Some (Some group) => decode_inner account_keys outer 0 (ig_instructions group)
              | _ => Ok []
              end;
      records ← decode_outer account_keys inner_groups (S outer_index) rest;
      Ok (record :: inner ++ records)
  end.

Definition decode_instructions (transaction : RpcJsonTransaction) (meta : RpcTransactionMeta)
    : result RpcError (list TransactionInstructionRecord) :=
  let account_keys := jm_account_keys (jt_message transaction) ++
    la_writable (tm_loaded_addresses meta) ++ la_readonly (tm_loaded_addresses meta) in
  let instructions := jm_instructions (jt_message transaction) in
  inner_groups ← place_groups (repeat None (length instructions)) (tm_inner_instructions meta);
  decode_outer account_keys inner_groups 0 instructions.

(** The record of one found transaction. *)
Definition transaction_record (signature_ : string) (context : ReadContext)
    (transaction : RpcTransaction) : result RpcError TransactionRecord :=
  _ ← validate_primary_signature signature_ (rt_transaction transaction);
  _ ← match rx_minimum_slot context with
      | Some minimum_slot =>
          guard_err (rt_slot transaction <? minimum_slot)
            (Unavailable ("transaction slot " +:+ pretty (rt_slot transaction) +:+
               " is below required minimum " +:+ pretty minimum_slot))
      | None => Ok tt
      end;
  meta ← ok_or (rt_meta transaction)
    (InvalidResponse "getTransaction omitted transaction meta");
  instructions ← decode_instructions (rt_transaction transaction) meta;
  log_messages ← ok_or (tm_log_messages meta)
    (InvalidResponse "getTransaction omitted log messages");
  transaction_error ← compact_error (tm_error meta);
  Ok {| tr_slot := rt_slot transaction; tr_transaction_index := rt_transaction_index transaction;
        tr_signature := signature_; tr_block_time_unix_seconds := rt_block_time transaction;
        tr_instructions := instructions; tr_log_messages := log_messages;
        tr_transaction_error := transaction_error |}.

Definition transaction (signature_ : string) (context : ReadContext)
    (reply : result RpcError (option RpcTransaction))
    : result RpcError (option TransactionRecord) :=
  if is_empty signature_ then Err (InvalidRequest "transaction signature cannot be empty") else
  found ← reply;
  match found with
  | None => Ok None
  | Some transaction => Some <$> transaction_record signature_ context transaction
  end.

(** ** Accounts *)
Record RpcAccount := {
  ra_data : string * string; ra_executable : bool; ra_lamports : Z; ra_owner : string }.

Definition account (address : string) (reply : result RpcError (Z * option RpcAccount))
    : result RpcError (option AccountRecord) :=
  if is_empty address then Err (InvalidRequest "account address cannot be empty") else
  '(context_slot, value) ← reply;
  match value with
  | None => Ok None
  | Some a =>
      if negb (String.eqb (ra_data a).2 "base64") then
        Err (InvalidResponse ("getAccountInfo returned unsupported encoding " +:+ (ra_data a).2))
      else Ok (Some {| ar_address := address; ar_owner := ra_owner a; ar_slot := context_slot;
                       ar_encoded_data := (ra_data a).1; ar_lamports := ra_lamports a;
                       ar_executable := ra_executable a |})
  end.

(** ** Signature pages *)
Record RpcSignatureRecord := {
  rs_slot : Z;
  rs_transaction_index : option Z;
  rs_signature : string;
  rs_block_time : option Z;
  rs_confirmation_status : option string;
  rs_error : option V;
}.

(** The closure mapped over the records, with its captured [previous_slot] and
    [signatures]. *)
Fixpoint page_records (previous_slot : Z) (signatures : gset string)
    (records : list RpcSignatureRecord) : result RpcError (list SignatureRecord) :=
  match records with
  | [] => Ok []
  | record :: rest =>
      if is_empty (rs_signature record) then
        Err (InvalidResponse "signature page contained an empty signature") else
      if bool_decide (rs_signature record ∈ signatures) then
        Err (InvalidResponse ("signature page repeated " +:+ rs_signature record)) else
      if rs_slot record >? previous_slot then
        Err (InvalidResponse "signature page was not newest-to-oldest") else
      transaction_error ← compact_error (rs_error record);
      records ← page_records (rs_slot record) ({[rs_signature record]} ∪ signatures) rest;
      Ok ({| sr_slot := rs_slot record; sr_transaction_index := rs_transaction_index record;
             sr_signature := rs_signature record;
             sr_block_time_unix_seconds := rs_block_time record;
             sr_confirmation_status := rs_confirmation_status record;
             sr_transaction_error := transaction_error |} :: records)
  end.

Definition signature_page (request : SignaturePageRequest)
    (reply : result RpcError (list RpcSignatureRecord)) : result RpcError SignaturePage :=
  _ ← signature_page_request (pr_program_id request) (pr_before request) (pr_limit request)
        (pr_context request);
  records ← reply;
  if Z.of_nat (length records) >? pr_limit request then
    Err (InvalidResponse ("signature page returned " +:+ pretty (Z.of_nat (length records)) +:+
           " records for limit " +:+ pretty (pr_limit request))) else
  records ← page_records u64_max ∅ records;
  let exhausted := Z.of_nat (length records) <? pr_limit request in
  Ok {| sp_request := request; sp_records_newest_first := records;
        sp_next_before := if exhausted then None else sr_signature <$> last records;
        sp_exhausted := exhausted |}.
End Values.
Arguments RpcTransactionMeta : clear implicits.
Arguments RpcTransaction : clear implicits.
Arguments RpcSignatureRecord : clear implicits.

(** The JSON-RPC client: base58 instruction data comes back as the bytes that
    were encoded, instructions keep their place, and a page answered from a
    history is the page the recovery pager expects. *)
(** ** Little-endian base 256 *)
Definition le_value (bs : list Z) : Z := foldr (fun b acc => b + 256 * acc) 0 bs.
Abbreviation is_byte b := (0 <= b < 256).

(** No superfluous high zero byte. *)
Record canonical (bs : list Z) : Prop := {
  can_range : Forall (fun b => is_byte b) bs;
  can_nonempty : (1 <= length bs)%nat;
  can_top : length bs = 1%nat \/ 256 ^ Z.of_nat (length bs - 1) <= le_value bs;
}.

Lemma le_value_cons b bs : le_value (b :: bs) = b + 256 * le_value bs.
Proof. done. Qed.

Lemma le_value_app l1 l2 :
  le_value (l1 ++ l2) = le_value l1 + 256 ^ Z.of_nat (length l1) * le_value l2.
Proof.
  induction l1 as [|b l1 IH]; [simpl; lia|]. cbn [app length]. rewrite !le_value_cons, IH.
  rewrite Nat2Z.inj_succ, Z.pow_succ_r by lia. lia.
Qed.

Lemma le_value_bound bs :
  Forall (fun b => is_byte b) bs -> 0 <= le_value bs < 256 ^ Z.of_nat (length bs).
Proof.
  induction 1 as [|b bs Hb _ IH]; [done|]. cbn [length]. rewrite le_value_cons.
  rewrite Nat2Z.inj_succ, Z.pow_succ_r by lia. lia.
Qed.

Lemma mul58_add_spec bs c bs' c' :
  Forall (fun b => is_byte b) bs -> 0 <= c < 58 -> mul58_add bs c = (bs', c') ->
  le_value bs' + 256 ^ Z.of_nat (length bs) * c' = 58 * le_value bs + c /\
  length bs' = length bs /\ Forall (fun b => is_byte b) bs' /\ 0 <= c' < 58.
Proof.
  intros Hbs. revert c bs' c'. induction Hbs as [|b bs Hb Hbs IH]; intros c bs' c' Hc; simpl.
  { intros [= <- <-]. split_and!; try done; simpl; lia. }
  destruct (mul58_add bs _) as [bs2 c2] eqn:E. intros [= <- <-].
  apply IH in E as (H1 & H2 & H3 & H4).
  2:{ split; [apply Z.div_pos; lia|]. apply Z.div_lt_upper_bound; lia. }
  pose proof (Z.div_mod (b * 58 + c) 256). pose proof (Z.mod_pos_bound (b * 58 + c) 256).
  rewrite le_value_cons, Nat2Z.inj_succ, Z.pow_succ_r by lia. cbn [length].
  split_and!; [lia|lia|constructor; [lia|done]|lia|lia].
Qed.

Lemma push_carry256_small c : 0 <= c < 58 ->
  push_carry256 (Z.to_nat c) c = if c =? 0 then [] else [c].
Proof.
  intros Hc. destruct (Z.eqb_spec c 0) as [->|Hne]; [done|].
  destruct (Z.to_nat c) as [|f] eqn:Ef; [lia|]. simpl.
  rewrite gtb_true by lia. rewrite Z.mod_small, Z.div_small by lia. by destruct f.
Qed.

Lemma push_digit_spec bs d :
  canonical bs -> 0 <= d < 58 ->
  canonical (push_digit bs d) /\ le_value (push_digit bs d) = 58 * le_value bs + d /\
  (length bs <= length (push_digit bs d))%nat.
Proof.
  intros [Hr Hn Ht] Hd. unfold push_digit. destruct (mul58_add bs d) as [bs' c] eqn:E.
  apply mul58_add_spec in E as (H1 & H2 & H3 & H4); [|done|done].
  rewrite push_carry256_small by done. pose proof (le_value_bound _ Hr).
  destruct (Z.eqb_spec c 0) as [->|Hc].
  - rewrite app_nil_r. split_and!; [|lia|lia]. constructor; [done|lia|].
    destruct Ht as [Ht|Ht]; [left; lia|right]. rewrite H2. lia.
  - assert (le_value (bs' ++ [c]) = 58 * le_value bs + d) as Hv.
    { rewrite le_value_app, le_value_cons, H2. simpl. lia. }
    split_and!; [|done|rewrite length_app; simpl; lia].
    constructor.
    + apply Forall_app. split; [done|]. repeat constructor; lia.
    + rewrite length_app. simpl. lia.
    + right. rewrite Hv, length_app. simpl.
      replace (length bs' + 1 - 1)%nat with (length bs) by lia.
      pose proof (le_value_bound _ H3) as Hb. nia.
Qed.

(** ** The decoding loop *)
Lemma position_index l a : a ∈ l -> position l a = Some (alphabet_index l a).
Proof.
  induction l as [|b l IH]; [by intros ?%elem_of_nil|]. intros Ha. simpl.
  rewrite (Ascii.eqb_sym b a). destruct (Ascii.eqb_spec a b) as [->|Hne]; [done|].
  apply elem_of_cons in Ha as [?|Ha]; [done|]. rewrite IH by done. simpl. f_equal. lia.
Qed.

Lemma alphabet_index_range a : a ∈ ALPHABET -> 0 <= alphabet_index ALPHABET a < 58.
Proof.
  assert (forall l, a ∈ l -> 0 <= alphabet_index l a < Z.of_nat (length l)) as H.
  { induction l as [|b l IH]; [by intros ?%elem_of_nil|]. intros Ha. cbn [alphabet_index length].
    destruct (Ascii.eqb_spec a b); [lia|]. apply elem_of_cons in Ha as [?|Ha]; [done|].
    specialize (IH Ha). lia. }
  intros Ha. apply (H ALPHABET Ha).
Qed.

Definition push_character (bs : list Z) (a : ascii) : list Z :=
  push_digit bs (alphabet_index ALPHABET a).

Lemma fold_push_spec cs bs :
  Forall (fun a => a ∈ ALPHABET) cs -> canonical bs ->
  canonical (fold_left push_character cs bs) /\
  le_value (fold_left push_character cs bs) =
    fold_left (fun acc a => acc * 58 + alphabet_index ALPHABET a) cs (le_value bs) /\
  (length bs <= length (fold_left push_character cs bs))%nat.
Proof.
  intros Hcs. revert bs. induction Hcs as [|a cs Ha _ IH]; intros bs Hbs; simpl; [done|].
  destruct (push_digit_spec bs _ Hbs (alphabet_index_range a Ha)) as (H1 & H2 & H3).
  fold (push_character bs a) in H1, H2, H3.
  destruct (IH _ H1) as (I1 & I2 & I3). split_and!; [done| |lia].
  by rewrite I2, H2, Z.mul_comm.
Qed.

Definition too_many_bytes : RpcError :=
  InvalidResponse ("instruction data exceeded " +:+ pretty MAX_INSTRUCTION_DATA_BYTES +:+
                   " decoded bytes").

(** The limit can be checked once, at the end. *)
Lemma decode_digits_spec z cs bs :
  Forall (fun a => a ∈ ALPHABET) cs -> canonical bs -> cs <> [] -> 0 <= z ->
  decode_digits z bs cs =
  let final := fold_left push_character cs bs in
  if Z.of_nat (length final) + z <=? MAX_INSTRUCTION_DATA_BYTES then Ok final else Err too_many_bytes.
Proof.
  intros Hcs. revert bs. induction Hcs as [|a cs Ha Hcs IH]; intros bs Hbs Hne Hz; [done|].
  cbn [decode_digits fold_left]. rewrite (position_index _ _ Ha). cbn [ok_or mbind result_bind].
  cbv zeta. fold (push_character bs a).
  destruct (push_digit_spec bs _ Hbs (alphabet_index_range a Ha)) as (H1 & _ & _).
  fold (push_character bs a) in H1.
  destruct (fold_push_spec cs _ Hcs H1) as (_ & _ & Hlen).
  assert (forall x, (saturating_add_u 64 (Z.of_nat x) z >? MAX_INSTRUCTION_DATA_BYTES) =
    negb (Z.of_nat x + z <=? MAX_INSTRUCTION_DATA_BYTES)) as Hsat.
  { intros x. unfold saturating_add_u.
    assert (MAX_INSTRUCTION_DATA_BYTES < u64_max) by (vm_compute; reflexivity).
    destruct (Z.leb_spec (Z.of_nat x + z) MAX_INSTRUCTION_DATA_BYTES);
      [rewrite gtb_false by lia|rewrite gtb_true by lia]; done. }
  rewrite Hsat. destruct (Z.leb_spec (Z.of_nat (length (push_character bs a)) + z)
    MAX_INSTRUCTION_DATA_BYTES) as [Hle|Hgt]; simpl.
  - destruct cs as [|a2 cs]; [simpl; by rewrite (proj2 (Z.leb_le _ _))|]. by apply IH.
  - by rewrite (proj2 (Z.leb_gt _ _)) by lia.
Qed.

(** ** Uniqueness of big-endian bytes *)
Lemma be_value_app l1 l2 :
  be_value (l1 ++ l2) = be_value l1 * 256 ^ Z.of_nat (length l2) + be_value l2.
Proof.
  unfold be_value at 1. rewrite fold_left_app.
  destruct (be_fold_bound l2 (fold_left (fun acc b => acc * 256 + byte_val b) l1 0)) as [-> _]. done.
Qed.

Lemma be_value_rev bs :
  Forall (fun b => is_byte b) bs -> be_value (byte_of_Z <$> rev bs) = le_value bs.
Proof.
  induction 1 as [|b bs Hb _ IH]; [done|]. simpl. rewrite fmap_app, be_value_app, IH. csimpl.
  unfold be_value. simpl. rewrite byte_val_of_Z, Z.mod_small by lia. lia.
Qed.

Lemma leading_zeroes_split bs :
  bs = repeat (byte_of_Z 0) (leading_zeroes bs) ++ drop (leading_zeroes bs) bs.
Proof.
  induction bs as [|b bs IH]; [done|]. simpl. destruct (Z.eqb_spec (byte_val b) 0) as [Hb|]; [|done].
  simpl. rewrite <- IH. f_equal. by rewrite <- (byte_of_Z_val b), Hb.
Qed.

Lemma leading_zeroes_le bs : (leading_zeroes bs <= length bs)%nat.
Proof. induction bs as [|b bs IH]; simpl; [lia|]. destruct (_ =? 0); lia. Qed.

Lemma be_value_zeroes n l : be_value (repeat (byte_of_Z 0) n ++ l) = be_value l.
Proof. rewrite be_value_app. induction n as [|n IH]; [done|]. simpl. unfold be_value in *. simpl. done. Qed.

(** What follows the zero bytes starts with a non-zero byte. *)
Lemma be_value_rest_bound bs :
  let rest := drop (leading_zeroes bs) bs in
  rest <> [] -> 256 ^ Z.of_nat (length rest - 1) <= be_value rest.
Proof.
  induction bs as [|b bs IH]; simpl; [done|].
  destruct (Z.eqb_spec (byte_val b) 0) as [|Hb]; simpl; [done|]. intros _.
  unfold be_value. simpl. rewrite Z.mul_0_l, Z.add_0_l, Nat.sub_0_r.
  destruct (be_fold_bound bs (byte_val b)) as [-> [H1 H2]]. pose proof (byte_val_range b).
  assert (0 < 256 ^ Z.of_nat (length bs)) by lia. nia.
Qed.

(** The digits left on top of the reversal of a canonical number. *)
Lemma canonical_pop bs : canonical bs -> pop_zeroes (rev bs) = rev bs.
Proof.
  intros [Hr Hn Ht]. destruct (rev bs) as [|d [|d2 ds]] eqn:E; [done|done|].
  simpl. destruct (Z.eqb_spec d 0) as [->|]; [exfalso|done].
  assert (bs = rev (d2 :: ds) ++ [0]) as ->.
  { rewrite <- (rev_involutive bs), E. done. }
  rewrite length_app in Ht. simpl in Ht. rewrite length_app in Ht. simpl in Ht.
  destruct Ht as [Ht|Ht]; [lia|]. apply Forall_app in Hr as [Hr _].
  rewrite le_value_app in Ht. pose proof (le_value_bound _ Hr) as Hb. simpl in Hb, Ht.
  rewrite length_app in Hb. simpl in Hb.
  replace (length (rev ds) + 1 + 1 - 1)%nat with (length (rev ds) + 1)%nat in Ht by lia. lia.
Qed.

Lemma canonical_zero : canonical [0].
Proof. constructor; [repeat constructor; lia|simpl; lia|by left]. Qed.

(** The canonical digits of a value are the bytes below its leading zeroes. *)
Lemma canonical_bytes le bs :
  canonical le -> le_value le = be_value bs -> leading_zeroes bs <> length bs ->
  byte_of_Z <$> rev le = drop (leading_zeroes bs) bs.
Proof.
  intros [Hr Hn Ht] Hv Hz. set (rest := drop (leading_zeroes bs) bs).
  assert (rest <> []) as Hrest.
  { intros E. apply (f_equal length) in E. unfold rest in E. rewrite length_drop in E. simpl in E.
    pose proof (leading_zeroes_le bs). lia. }
  pose proof (be_value_rest_bound bs Hrest) as Hlow. fold rest in Hlow.
  assert (be_value bs = be_value rest) as Hbr.
  { rewrite (leading_zeroes_split bs) at 1. apply be_value_zeroes. }
  destruct (be_fold_bound rest 0) as [_ [_ Hup]]. pose proof (le_value_bound _ Hr) as [_ Hleup].
  assert (1 <= length rest)%nat by (destruct rest; [done|simpl; lia]).
  assert (length le = length rest) as Hlen.
  { destruct (Nat.lt_trichotomy (length le) (length rest)) as [Hlt|[?|Hgt]]; [|done|].
    - exfalso. assert (256 ^ Z.of_nat (length le) <= 256 ^ Z.of_nat (length rest - 1)); [|lia].
      apply Z.pow_le_mono_r; lia.
    - exfalso. destruct Ht as [Ht|Ht]; [lia|].
      assert (256 ^ Z.of_nat (length rest) <= 256 ^ Z.of_nat (length le - 1)); [|lia].
      apply Z.pow_le_mono_r; lia. }
  apply be_value_inj.
  - by rewrite length_fmap, length_rev.
  - rewrite be_value_rev by done. lia.
Qed.

Lemma encode_base58_empty bs : is_empty (encode_base58 bs) = true <-> bs = [].
Proof.
  unfold is_empty. rewrite String.eqb_eq.
  destruct (encode_base58_shape bs) as (tail & Hs & Ht & _). split.
  - intros E. rewrite E in Hs. simpl in Hs.
    destruct (leading_zeroes bs) eqn:Ez; [|done]. simpl in Hs. subst tail.
    pose proof (proj1 Ht eq_refl). by apply nil_length_inv.
  - by intros ->.
Qed.

Lemma leading_ones_shape n tail :
  head tail <> Some "1"%char -> leading_ones (repeat "1"%char n ++ tail) = n.
Proof.
  intros H. induction n as [|n IH]; simpl; [|by rewrite IH].
  destruct tail as [|a tail]; [done|]. simpl in *.
  destruct (Ascii.eqb_spec a "1"); [congruence|done].
Qed.

(** Decoding instruction data inverts the encoder of account keys: the two
    base58 routines of the program, in different crates, agree.  The bytes come
    back unless they exceed the limit, which counts one byte more when all of
    them are zero. *)
Theorem decode_encode_base58 bs :
  decode_base58 (encode_base58 bs) =
  if bool_decide (bs = []) ||
     (Z.of_nat (length bs) + (if bool_decide (leading_zeroes bs = length bs) then 1 else 0)
        <=? MAX_INSTRUCTION_DATA_BYTES)
  then Ok bs else Err too_many_bytes.
Proof.
  unfold decode_base58. destruct (bool_decide_reflect (bs = [])) as [->|Hbs]; [done|].
  destruct (is_empty (encode_base58 bs)) eqn:Ee; [by apply encode_base58_empty in Ee|].
  destruct (encode_base58_shape bs) as (tail & Hs & Ht & Hh).
  pose proof (encode_base58_alphabet bs) as Ha. pose proof (base58_value_encode bs) as Hval.
  unfold base58_value in Hval. rewrite Hs in Ha, Hval |- *. rewrite leading_ones_shape by done.
  set (z := leading_zeroes bs) in *. set (cs := repeat "1"%char z ++ tail) in *.
  assert (cs <> []) as Hcs.
  { intros E. apply app_eq_nil in E as [E1 E2]. pose proof (proj1 Ht E2).
    destruct z; [|done]. by apply Hbs, nil_length_inv. }
  rewrite (decode_digits_spec _ cs [0] Ha canonical_zero Hcs) by lia. cbv zeta.
  destruct (fold_push_spec cs [0] Ha canonical_zero) as (Hc & Hv & _).
  set (le := fold_left push_character cs [0]) in *.
  change (le_value [0]) with 0 in Hv. rewrite Hval in Hv.
  pose proof (leading_zeroes_le bs) as Hle. fold z in Hle.
  assert (Z.of_nat (length le) + Z.of_nat z =
    Z.of_nat (length bs) + (if bool_decide (z = length bs) then 1 else 0)) as Hlen.
  { case_bool_decide as Hz.
    - destruct Hc as [_ Hn [Hl|Ht']]; [lia|]. rewrite Hv, all_zero_value in Ht' by done. lia.
    - pose proof (canonical_bytes le bs Hc Hv Hz) as E. apply (f_equal length) in E.
      rewrite length_fmap, length_rev, length_drop in E. fold z in E. lia. }
  rewrite Hlen. simpl. destruct (_ <=? _); [|done]. simpl. f_equal.
  rewrite (canonical_pop _ Hc). unfold cs. rewrite length_app, repeat_length.
  rewrite (leading_zeroes_split bs) at 1. fold z. f_equal.
  destruct (Nat.eqb_spec z (z + length tail)) as [E|E].
  - assert (tail = []) as Etail by (apply nil_length_inv; lia). pose proof (proj1 Ht Etail) as Hz.
    by rewrite Hz, drop_all.
  - apply canonical_bytes; [done|done|]. intros Hz. apply E.
    rewrite (proj2 Ht Hz). simpl. lia.
Qed.

(** ** Instructions in place *)
Definition group_at (groups : list RpcInnerInstructionGroup) (i : nat)
    : option RpcInnerInstructionGroup :=
  List.find (fun g => Nat.eqb (Z.to_nat (ig_index g)) i) groups.

Lemma group_at_None groups i :
  (forall g, g ∈ groups -> Z.to_nat (ig_index g) <> i) -> group_at groups i = None.
Proof.
  unfold group_at. induction groups as [|g groups IH]; intros H; [done|]. simpl.
  destruct (Nat.eqb_spec (Z.to_nat (ig_index g)) i) as [E|]; [by apply H in E; [|left]|].
  apply IH. intros g' Hg'. apply H. by right.
Qed.

Lemma place_groups_Ok slots groups slots' :
  place_groups slots groups = Ok slots' ->
  NoDup ((fun g => Z.to_nat (ig_index g)) <$> groups) /\
  (forall g, g ∈ groups -> slots !! Z.to_nat (ig_index g) = Some None) /\
  (forall i, slots' !! i =
     match group_at groups i with Some g => Some (Some g) | None => slots !! i end).
Proof.
  revert slots. induction groups as [|g groups IH]; intros slots; simpl.
  { intros [= <-]. split_and!; [constructor|by intros g ?%elem_of_nil|done]. }
  destruct (slots !! Z.to_nat (ig_index g)) as [s|] eqn:Es; [|done]. simpl.
  case_bool_decide as Hs; [done|]. destruct s as [|]; [by destruct Hs|].
  intros (H1 & H2 & H3)%IH. csimpl.
  assert (forall g', g' ∈ groups -> Z.to_nat (ig_index g') <> Z.to_nat (ig_index g)) as Hne.
  { intros g' Hg' E. apply H2 in Hg'. rewrite E in Hg'.
    rewrite list_lookup_insert_eq in Hg' by (by apply lookup_lt_Some in Es). done. }
  split_and!.
  - constructor; [|done]. by intros (g' & E & Hg')%list_elem_of_fmap; apply (Hne g').
  - intros g' [->|Hg']%elem_of_cons; [done|]. specialize (H2 _ Hg').
    rewrite list_lookup_insert_ne in H2; [done|]. by apply not_eq_sym, Hne.
  - intros i. rewrite H3. unfold group_at at 2. simpl. fold (group_at groups i).
    destruct (Nat.eqb_spec (Z.to_nat (ig_index g)) i) as [<-|Hi].
    + rewrite group_at_None by done. rewrite list_lookup_insert_eq; [done|].
      by apply lookup_lt_Some in Es.
    + by rewrite list_lookup_insert_ne.
Qed.

Lemma place_groups_total slots groups :
  NoDup ((fun g => Z.to_nat (ig_index g)) <$> groups) ->
  (forall g, g ∈ groups -> slots !! Z.to_nat (ig_index g) = Some None) ->
  exists slots', place_groups slots groups = Ok slots'.
Proof.
  revert slots. induction groups as [|g groups IH]; intros slots Hnd Hs; simpl; [by eexists|].
  apply NoDup_cons in Hnd as [Hnin Hnd]. rewrite (Hs g ltac:(left)). simpl.
  apply IH; [done|]. intros g' Hg'. rewrite list_lookup_insert_ne; [apply Hs; by right|].
  intros E. apply Hnin. rewrite E. by apply list_elem_of_fmap_2 with (f := fun g => Z.to_nat (ig_index g)).
Qed.

(** The compiled instructions with the place each has in the transaction. *)
Abbreviation place := (Z * option Z * RpcCompiledInstruction)%type.
Definition inner_places (outer : nat) (from : nat) (instructions : list RpcCompiledInstruction) : list place :=
  imap (fun j i => (Z.of_nat outer, Some (Z.of_nat (from + j)), i)) instructions.
Definition places (groups : list RpcInnerInstructionGroup) (from : nat)
    (instructions : list RpcCompiledInstruction) : list place :=
  concat (imap (fun k i =>
    (Z.of_nat (from + k), None, i) ::
    match group_at groups (from + k) with
    | Some g => inner_places (from + k) 0 (ig_instructions g)
    | None => []
    end) instructions).

Definition decoded_at (account_keys : list string) (p : place) (r : TransactionInstructionRecord) : Prop :=
  decode_instruction p.2 account_keys p.1.1 p.1.2 = Ok r.

Lemma inner_places_cons outer from i l :
  inner_places outer from (i :: l) =
  (Z.of_nat outer, Some (Z.of_nat from), i) :: inner_places outer (S from) l.
Proof.
  unfold inner_places. rewrite imap_cons, Nat.add_0_r. f_equal. apply imap_ext.
  intros j x _. simpl. by rewrite Nat.add_succ_r.
Qed.

Lemma places_cons groups from i l :
  places groups from (i :: l) =
  (Z.of_nat from, None, i) ::
    match group_at groups from with
    | Some g => inner_places from 0 (ig_instructions g)
    | None => []
    end ++ places groups (S from) l.
Proof.
  unfold places. rewrite imap_cons, Nat.add_0_r. cbn [concat app]. f_equal. f_equal. f_equal.
  apply imap_ext. intros k x _. simpl. by rewrite Nat.add_succ_r.
Qed.

Lemma try_from_u16 n : Z.of_nat n <= 65535 -> try_from_u 16 (Z.of_nat n) = Some (Z.of_nat n).
Proof.
  intros H. apply try_from_u_Some. split; [done|]. unfold in_uint. change u16_max with 65535. lia.
Qed.

Lemma try_from_u16_Some n z : try_from_u 16 (Z.of_nat n) = Some z -> z = Z.of_nat n /\ Z.of_nat n <= 65535.
Proof.
  intros [-> H]%try_from_u_Some. split; [done|]. unfold in_uint in H. change u16_max with 65535 in H. lia.
Qed.

Lemma decode_inner_Ok account_keys outer from l records :
  decode_inner account_keys (Z.of_nat outer) from l = Ok records <->
  (l = [] \/ Z.of_nat (from + length l) <= 65536) /\
  Forall2 (decoded_at account_keys) (inner_places outer from l) records.
Proof.
  revert from records. induction l as [|i l IH]; intros from records; simpl.
  { split; [intros [= <-]; split; [by left|constructor]|]. by intros [_ ->%Forall2_nil_inv_l]. }
  rewrite inner_places_cons. split.
  - intros H. simp_ok. subst. apply try_from_u16_Some in H0 as [-> Hf].
    apply IH in H2 as [Hl Hrest]. split; [right; destruct Hl as [->|]; simpl; lia|].
    by constructor.
  - intros [[Hnil|Hl] H]; [done|]. apply Forall2_cons_inv_l in H as (r & rs & Hr & Hrs & ->).
    rewrite try_from_u16 by lia. simpl. unfold decoded_at in Hr. simpl in Hr. rewrite Hr. simpl.
    rewrite (proj2 (IH (S from) rs)); [done|]. split; [right; lia|done].
Qed.

Definition group_fits (groups : list RpcInnerInstructionGroup) (i : nat) : Prop :=
  forall g, group_at groups i = Some g -> Z.of_nat (length (ig_instructions g)) <= 65536.

Lemma decode_outer_Ok account_keys slots groups from l records :
  (forall i, slots !! i = match group_at groups i with
                          | Some g => Some (Some g)
                          | None => if decide (i < from + length l)%nat then Some None else None
                          end) ->
  decode_outer account_keys slots from l = Ok records <->
  (l = [] \/ Z.of_nat (from + length l) <= 65536) /\
  (forall i, (from <= i < from + length l)%nat -> group_fits groups i) /\
  Forall2 (decoded_at account_keys) (places groups from l) records.
Proof.
  revert from records. induction l as [|x l IH]; intros from records Hslots; simpl.
  { split; [intros [= <-]; split_and!; [by left|lia|constructor]|]. by intros (_ & _ & ->%Forall2_nil_inv_l). }
  rewrite places_cons. pose proof (Hslots from) as Hfrom.
  assert (forall inner, match slots !! from with
      | Some (Some group) => decode_inner account_keys (Z.of_nat from) 0 (ig_instructions group)
      | _ => Ok []
      end = Ok inner <->
    group_fits groups from /\
    Forall2 (decoded_at account_keys)
      match group_at groups from with Some g => inner_places from 0 (ig_instructions g) | None => [] end
      inner) as Hinner.
  { intros inner. rewrite Hfrom. unfold group_fits. destruct (group_at groups from) as [g|].
    - rewrite decode_inner_Ok. split; intros [H1 H2]; (split; [|done]).
      + intros g' [= <-]. destruct H1 as [->|?]; simpl; lia.
      + right. by apply H1.
    - rewrite decide_True by (simpl; lia). split; [intros [= <-]; split; [done|constructor]|].
      by intros [_ ->%Forall2_nil_inv_l]. }
  assert (forall i, slots !! i = match group_at groups i with
      | Some g => Some (Some g)
      | None => if decide (i < S from + length l)%nat then Some None else None end) as Hslots'.
  { intros i. rewrite Hslots. simpl. by replace (from + S (length l))%nat with (S (from + length l)) by lia. }
  specialize (IH (S from)). split.
  - intros H. simp_ok. subst. apply try_from_u16_Some in H0 as [-> Hf].
    apply Hinner in H2 as [Hfit H2]. apply (IH _ Hslots') in H3 as (Hl & Hg & H3).
    split_and!.
    + right. destruct Hl as [->|]; simpl; lia.
    + intros i Hi. destruct (decide (i = from)) as [->|]; [done|]. apply Hg. lia.
    + constructor; [done|]. by apply Forall2_app.
  - intros ([Hnil|Hl] & Hg & H); [done|].
    apply Forall2_cons_inv_l in H as (r & rs & Hr & Hrs & ->).
    apply Forall2_app_inv_l in Hrs as (inner & rest & H1 & H2 & ->).
    rewrite try_from_u16 by lia. simpl. unfold decoded_at in Hr. simpl in Hr. rewrite Hr. simpl.
    rewrite (proj2 (Hinner inner)) by (split; [apply Hg; lia|done]). simpl.
    rewrite (proj2 (IH rest Hslots')); [done|]. split_and!; [right; lia| |done].
    intros i Hi. apply Hg. lia.
Qed.

Lemma lookup_repeat {A} (x : A) n i : repeat x n !! i = if decide (i < n)%nat then Some x else None.
Proof.
  revert i. induction n as [|n IH]; intros [|i]; simpl; try done.
  rewrite IH. repeat case_decide; try done; lia.
Qed.

Lemma indices_distinct groups :
  (forall g, g ∈ groups -> 0 <= ig_index g) ->
  NoDup ((fun g => Z.to_nat (ig_index g)) <$> groups) <-> NoDup (ig_index <$> groups).
Proof.
  intros Hpos. assert ((fun g => Z.to_nat (ig_index g)) <$> groups = Z.to_nat <$> (ig_index <$> groups)) as ->
    by (by rewrite <- list_fmap_compose).
  split; [apply NoDup_fmap_1|]. intros H. apply NoDup_fmap_2_strong; [|done].
  intros x y (g & -> & Hg)%list_elem_of_fmap (g' & -> & Hg')%list_elem_of_fmap.
  pose proof (Hpos _ Hg). pose proof (Hpos _ Hg'). lia.
Qed.

Lemma group_at_Some groups g :
  NoDup ((fun g => Z.to_nat (ig_index g)) <$> groups) -> g ∈ groups ->
  group_at groups (Z.to_nat (ig_index g)) = Some g.
Proof.
  intros Hnd Hg. unfold group_at. induction groups as [|g' l IH]; [by apply elem_of_nil in Hg|].
  csimpl in Hnd. apply NoDup_cons in Hnd as [Hnin Hnd]. simpl.
  destruct (Nat.eqb_spec (Z.to_nat (ig_index g')) (Z.to_nat (ig_index g))) as [E|E];
    apply elem_of_cons in Hg as [->|Hg]; try done; [|by apply IH].
  exfalso. apply Hnin. rewrite E. by apply list_elem_of_fmap_2 with (f := fun g => Z.to_nat (ig_index g)).
Qed.

Section Transactions.
Context {V : Type} (to_text : V -> result string string).

Definition transaction_keys (tx : RpcJsonTransaction) (meta : RpcTransactionMeta V) : list string :=
  jm_account_keys (jt_message tx) ++ la_writable (tm_loaded_addresses meta) ++
  la_readonly (tm_loaded_addresses meta).

(** Instructions keep their place.  A transaction's instructions decode
    exactly when every inner group names its own top-level instruction, no two
    the same, all indices fit in sixteen bits, every program index is inside the
    static and loaded keys and all data is base58; the records are then the
    top-level instructions in order, each followed by all inner instructions of
    its group in order and by nothing else, so none is lost, repeated or
    attributed to another instruction. *)
Theorem decode_instructions_in_place (tx : RpcJsonTransaction) (meta : RpcTransactionMeta V) records :
  let groups := tm_inner_instructions meta in
  let instructions := jm_instructions (jt_message tx) in
  Forall (fun g => 0 <= ig_index g) groups ->
  decode_instructions tx meta = Ok records <->
  NoDup (ig_index <$> groups) /\
  Forall (fun g => ig_index g < Z.of_nat (length instructions)) groups /\
  Z.of_nat (length instructions) <= 65536 /\
  Forall (fun g => Z.of_nat (length (ig_instructions g)) <= 65536) groups /\
  Forall2 (decoded_at (transaction_keys tx meta)) (places groups 0 instructions) records.
Proof.
  intros groups instructions Hpos. rewrite Forall_forall in Hpos. unfold decode_instructions.
  fold groups instructions. fold (transaction_keys tx meta).
  pose proof (indices_distinct groups Hpos) as Hnd.
  assert (forall g, g ∈ groups -> repeat (None (A:=RpcInnerInstructionGroup)) (length instructions) !!
    Z.to_nat (ig_index g) = Some None <-> ig_index g < Z.of_nat (length instructions)) as Hrange.
  { intros g Hg. pose proof (Hpos _ Hg). rewrite lookup_repeat. case_decide; split; try done; lia. }
  assert (forall slots, place_groups (repeat None (length instructions)) groups = Ok slots ->
    decode_outer (transaction_keys tx meta) slots 0 instructions = Ok records <->
    (instructions = [] \/ Z.of_nat (0 + length instructions) <= 65536) /\
    (forall i, (0 <= i < 0 + length instructions)%nat -> group_fits groups i) /\
    Forall2 (decoded_at (transaction_keys tx meta)) (places groups 0 instructions) records) as Houter.
  { intros slots Hs. apply decode_outer_Ok. intros i. apply place_groups_Ok in Hs as (_ & _ & ->).
    destruct (group_at groups i); [done|apply lookup_repeat]. }
  rewrite !Forall_forall. split.
  - intros (slots & Hs & Hdec)%bind_Ok. pose proof (place_groups_Ok _ _ _ Hs) as (H1 & H2 & _).
    apply (Houter _ Hs) in Hdec as (Hl & Hfit & H). split_and!; try done.
    + by apply Hnd.
    + intros g Hg. apply Hrange; [done|]. by apply H2.
    + destruct Hl as [->|]; simpl; lia.
    + intros g Hg. apply (Hfit (Z.to_nat (ig_index g))); [|by apply group_at_Some].
      pose proof (proj1 (Hrange g Hg) (H2 g Hg)). pose proof (Hpos g Hg). lia.
  - intros (H1 & H2 & H3 & H4 & H5).
    destruct (place_groups_total (repeat None (length instructions)) groups) as [slots Hs].
    + by apply Hnd.
    + intros g Hg. apply Hrange; auto.
    + rewrite Hs. simpl. apply (Houter _ Hs). split_and!; [right; lia| |done].
      intros i _ g Hg. apply H4. apply find_some in Hg as [Hg _]. by apply list_elem_of_In.
Qed.
End Transactions.

(** ** Signature pages *)
Section Pages.
Context {V : Type} (to_text : V -> result string string).

(** The record made of a raw one. *)
Definition converted (raw : RpcSignatureRecord V) (r : SignatureRecord) : Prop :=
  sr_slot r = rs_slot raw /\ sr_transaction_index r = rs_transaction_index raw /\
  sr_signature r = rs_signature raw /\ sr_block_time_unix_seconds r = rs_block_time raw /\
  sr_confirmation_status r = rs_confirmation_status raw /\
  compact_error to_text (rs_error raw) = Ok (sr_transaction_error r).

(** Newest first, from a slot down. *)
Fixpoint slots_from (slot_ : Z) (raws : list (RpcSignatureRecord V)) : Prop :=
  match raws with
  | [] => True
  | raw :: raws => rs_slot raw <= slot_ /\ slots_from (rs_slot raw) raws
  end.

Lemma page_records_Ok previous seen raws records :
  page_records to_text previous seen raws = Ok records <->
  Forall (fun raw => rs_signature raw <> ""%string) raws /\
  Forall (fun raw => rs_signature raw ∉ seen) raws /\ NoDup (rs_signature <$> raws) /\
  slots_from previous raws /\ Forall2 converted raws records.
Proof.
  revert previous seen records. induction raws as [|raw raws IH]; intros previous seen records; simpl.
  { split; [intros [= <-]; split_and!; constructor|]. by intros (_ & _ & _ & _ & ->%Forall2_nil_inv_l). }
  unfold is_empty. destruct (String.eqb_spec (rs_signature raw) "") as [Hem|Hem].
  { split; [done|]. by intros ([? _]%Forall_cons & _). }
  case_bool_decide as Hin.
  { split; [done|]. by intros (_ & [? _]%Forall_cons & _). }
  destruct (Z.gtb_spec (rs_slot raw) previous).
  { split; [done|]. intros (_ & _ & _ & [? _] & _). lia. }
  csimpl. rewrite NoDup_cons, !Forall_cons. split.
  - intros H'. simp_ok. subst. apply IH in H1 as (I1 & I2 & I3 & I4 & I5).
    split_and!; try done.
    + eapply Forall_impl; [exact I2|]. set_solver.
    + intros (raw' & E & Hin')%list_elem_of_fmap. rewrite Forall_forall in I2.
      apply (I2 raw' Hin'). set_solver.
    + by constructor.
  - intros ([_ H1] & [_ H2] & [H3 H4] & [_ H5] & H6).
    apply Forall2_cons_inv_l in H6 as (r & rs & (E1 & E2 & E3 & E4 & E5 & E6) & Hrs & ->).
    rewrite E6. simpl. rewrite (proj2 (IH (rs_slot raw) ({[rs_signature raw]} ∪ seen) rs)).
    + simpl. destruct r; simpl in *. by subst.
    + split_and!; try done. rewrite Forall_forall in H2 |- *. intros raw' Hin'.
      assert (rs_signature raw' <> rs_signature raw); [|set_solver].
      intros E. apply H3. rewrite <- E. by apply list_elem_of_fmap_2.
Qed.

(** The page around some records. *)
Definition page_with (request : SignaturePageRequest) (records : list SignatureRecord) : SignaturePage :=
  let exhausted := Z.of_nat (length records) <? pr_limit request in
  {| sp_request := request; sp_records_newest_first := records;
     sp_next_before := if exhausted then None else sr_signature <$> last records;
     sp_exhausted := exhausted |}.

(** The HTTP client answers exactly as the recovery pager needs.  A page is
    made of an answer iff it is no longer than requested and lists distinct
    non-empty signatures by non-increasing slot with serializable errors; it
    keeps every record, and when the records are the newest ones below the
    request's cursor in some history, it is the page that history owes the
    pager. *)
Theorem signature_page_serves_history request raws page :
  signature_page_request (pr_program_id request) (pr_before request) (pr_limit request)
    (pr_context request) = Ok request ->
  Forall (fun raw => rs_slot raw <= u64_max) raws ->
  (signature_page to_text request (Ok raws) = Ok page <->
     Z.of_nat (length raws) <= pr_limit request /\
     Forall (fun raw => rs_signature raw <> ""%string) raws /\ NoDup (rs_signature <$> raws) /\
     (forall first rest, raws = first :: rest -> slots_from (rs_slot first) rest) /\
     Forall2 converted raws (sp_records_newest_first page) /\
     page = page_with request (sp_records_newest_first page)) /\
  (forall h, signature_page to_text request (Ok raws) = Ok page ->
     sp_records_newest_first page =
       take (Z.to_nat (pr_limit request))
         (match pr_before request with None => h | Some cursor => older_than cursor h end) ->
     page = page_of h request).
Proof.
  intros Hreq Hslots.
  assert (slots_from u64_max raws <->
    forall first rest, raws = first :: rest -> slots_from (rs_slot first) rest) as Hs.
  { destruct raws as [|raw raws]; [done|]. apply Forall_cons in Hslots as [Hle _]. simpl.
    split; [by intros [_ H] first rest [= <- <-]|]. intros H. split; [done|by apply H]. }
  assert (forall records, page_records to_text u64_max ∅ raws = Ok records <->
    Forall (fun raw => rs_signature raw <> ""%string) raws /\ NoDup (rs_signature <$> raws) /\
    slots_from u64_max raws /\ Forall2 converted raws records) as Hrec.
  { intros records. rewrite page_records_Ok. split; [intros (? & _ & ? & ? & ?); done|].
    intros (? & ? & ? & ?). split_and!; try done. apply Forall_forall. set_solver. }
  assert (signature_page to_text request (Ok raws) = Ok page <->
    Z.of_nat (length raws) <= pr_limit request /\
    page_records to_text u64_max ∅ raws = Ok (sp_records_newest_first page) /\
    page = page_with request (sp_records_newest_first page)) as Hpage.
  { unfold signature_page. rewrite Hreq. cbn [mbind result_bind].
    destruct (Z.gtb_spec (Z.of_nat (length raws)) (pr_limit request)) as [Hlong|Hshort].
    { split; [done|]. intros [? _]. lia. }
    split; [intros (records & -> & [= <-])%bind_Ok; done|].
    intros (_ & -> & Hp). rewrite Hp at 2. done. }
  split.
  - rewrite Hpage, Hrec, Hs. naive_solver.
  - intros h (_ & _ & ->)%Hpage. simpl. intros E. unfold page_with, page_of. by rewrite <- E.
Qed.
End Pages.

(** ** Concrete answers *)
Module SampleHttp.
Definition to_text (v : nat) : result string string := Ok (pretty v).
Definition instruction (program : Z) : RpcCompiledInstruction :=
  {| ci_program_id_index := program; ci_data := "2g"; ci_stack_height := None |}.
Definition tx : RpcJsonTransaction := {|
  jt_signatures := ["sig"]%string;
  jt_message := {| jm_account_keys := ["a"; "b"]%string;
                   jm_instructions := [instruction 0; instruction 2] |} |}.
Definition meta : RpcTransactionMeta nat := {|
  tm_error := None; tm_log_messages := Some [];
  tm_inner_instructions := [{| ig_index := 0; ig_instructions := [instruction 1; instruction 2] |}];
  tm_loaded_addresses := {| la_writable := ["c"]%string; la_readonly := [] |} |}.
Definition raw (r : SignatureRecord) : RpcSignatureRecord nat := {|
  rs_slot := sr_slot r; rs_transaction_index := sr_transaction_index r;
  rs_signature := sr_signature r; rs_block_time := sr_block_time_unix_seconds r;
  rs_confirmation_status := sr_confirmation_status r; rs_error := None |}.
End SampleHttp.

Lemma decode_instructions_in_place_witness : exists records,
  decode_instructions SampleHttp.tx SampleHttp.meta = Ok records /\
  ti_program_id <$> records = ["a"; "b"; "c"; "c"]%string /\
  NoDup (ig_index <$> tm_inner_instructions SampleHttp.meta).
Proof.
  eexists. split; [vm_compute; reflexivity|]. split; [reflexivity|].
  eapply (decode_instructions_in_place SampleHttp.tx SampleHttp.meta);
    [repeat constructor; vm_compute; congruence|vm_compute; reflexivity].
Defined.

Lemma signature_page_serves_history_witness : exists page,
  signature_page SampleHttp.to_text (SampleRecovery.request (Some "s13"%string))
    (Ok (SampleHttp.raw <$> (SampleRecovery.record <$> [12; 10]))) = Ok page /\
  page = page_of (SampleRecovery.hist 1) (SampleRecovery.request (Some "s13"%string)).
Proof.
  eexists. split; [vm_compute; reflexivity|].
  apply (signature_page_serves_history SampleHttp.to_text
    (SampleRecovery.request (Some "s13"%string))
    (SampleHttp.raw <$> (SampleRecovery.record <$> [12; 10]))); [reflexivity| | |].
  - repeat constructor; vm_compute; congruence.
  - vm_compute. reflexivity.
  - vm_compute. reflexivity.
Defined.
