(* ===== verification/DiscoveryRpc.v ===== *)
(** [apps/server/src/jobs/discovery_rpc.rs]: the shared admission control of
    discovery reads.  Instants and durations are nanoseconds; the semaphore of
    the tokio library only bounds how many callers are past [acquire]. *)
From S2P Require Import Prelude.
From S2P Require Import ListFacts.
From S2P Require Import RustStr.

(** ** Claimed signatures *)
Record RecentSignatures := {
  sg_retention : Z;
  sg_expirations : list (Z * string);
  sg_values : gmap string Z;
}.

Definition recent_signatures (retention : Z) : RecentSignatures :=
  {| sg_retention := retention; sg_expirations := []; sg_values := ∅ |}.

(** The [while let] over the front of the queue. *)
Fixpoint expire (now : Z) (expirations : list (Z * string)) (values : gmap string Z)
    : list (Z * string) * gmap string Z :=
  match expirations with
  | [] => ([], values)
  | (expires_at, signature) :: rest =>
      if expires_at >? now then (expirations, values)
      else expire now rest
        (if bool_decide (values !! signature = Some expires_at)
         then delete signature values else values)
  end.

Definition claim_at (s : RecentSignatures) (signature : string) (now : Z)
    : bool * RecentSignatures :=
  let '(expirations, values) := expire now (sg_expirations s) (sg_values s) in
  match values !! signature with
  | Some _ => (false, {| sg_retention := sg_retention s; sg_expirations := expirations;
                         sg_values := values |})
  | None =>
      let expires_at := now + sg_retention s in
      (true, {| sg_retention := sg_retention s;
                sg_expirations := expirations ++ [(expires_at, signature)];
                sg_values := <[signature := expires_at]> values |})
  end.

(** ** Pacing *)
Record PacingState := { pc_next_allowed : option Z; pc_cooldown_until : option Z }.
Definition pacing_default : PacingState := {| pc_next_allowed := None; pc_cooldown_until := None |}.

Definition option_max (a b : option Z) : option Z :=
  match a, b with
  | Some x, Some y => Some (Z.max x y)
  | Some x, None => Some x
  | None, b => b
  end.

(** [None] reserves the slot; [Some t] asks the caller to sleep until [t]. *)
Definition reserve_if_ready (p : PacingState) (now interval : Z) : option Z * PacingState :=
  let ready_at := default now (option_max (pc_next_allowed p) (pc_cooldown_until p)) in
  if ready_at >? now then (Some ready_at, p)
  else
    (None,
     {| pc_next_allowed := Some (now + interval);
        pc_cooldown_until :=
          match pc_cooldown_until p with
          | Some cooldown => if cooldown <=? now then None else Some cooldown
          | None => None
          end |}).

Definition record_rate_limit (p : PacingState) (now cooldown : Z) : PacingState :=
  let cooldown_until := now + cooldown in
  {| pc_next_allowed := pc_next_allowed p;
     pc_cooldown_until := Some (match pc_cooldown_until p with
                                | Some current => Z.max current cooldown_until
                                | None => cooldown_until
                                end) |}.

(** [Duration::from_secs(1) / requests_per_second.min(1_000_000_000)]. *)
Definition request_interval (requests_per_second : Z) : Z :=
  1000000000 / Z.min requests_per_second 1000000000.

(** ** What the gate promises *)

(** A history of claims, each with its instant, newest last; the clock does not
    go back. *)
Fixpoint claims (s : RecentSignatures) (history : list (Z * string)) : list bool * RecentSignatures :=
  match history with
  | [] => ([], s)
  | (now, signature) :: rest =>
      let '(claimed, s') := claim_at s signature now in
      let '(results, s'') := claims s' rest in
      (claimed :: results, s'')
  end.

(** Expiry instants in queue order, and the map holds exactly the queue. *)
Record signatures_ok (now : Z) (s : RecentSignatures) : Prop := {
  so_sorted : StronglySorted (fun a b => a.1 <= b.1) (sg_expirations s);
  so_bound p : p ∈ sg_expirations s -> p.1 <= now + sg_retention s;
  so_nodup : NoDup (sg_expirations s).*2;
  so_map sig t : sg_values s !! sig = Some t <-> (t, sig) ∈ sg_expirations s;
}.

Lemma expire_spec now q m :
  StronglySorted (fun a b => a.1 <= b.1) q -> NoDup q.*2 ->
  (forall sig t, m !! sig = Some t <-> (t, sig) ∈ q) ->
  let '(q', m') := expire now q m in
  (forall p, p ∈ q' <-> p ∈ q /\ now < p.1) /\
  StronglySorted (fun a b => a.1 <= b.1) q' /\ NoDup q'.*2 /\
  (forall sig t, m' !! sig = Some t <-> (t, sig) ∈ q').
Proof.
  revert m. induction q as [|[t sig] q IH]; intros m Hs Hnd Hm; simpl; [set_solver|].
  apply StronglySorted_inv in Hs as [Hs Hall]. csimpl in *. apply NoDup_cons in Hnd as [Hnin Hnd].
  rewrite Forall_forall in Hall. destruct (Z.gtb_spec t now) as [Hgt|Hle].
  - split_and!; [|constructor; [done|by apply Forall_forall]|by apply NoDup_cons|done].
    intros p. split; [|tauto]. intros Hp. split; [done|].
    apply elem_of_cons in Hp as [->|Hp]; [simpl; lia|]. specialize (Hall p Hp). simpl in Hall. lia.
  - rewrite bool_decide_eq_true_2 by (apply Hm; left).
    specialize (IH (delete sig m) Hs Hnd). destruct (expire now q (delete sig m)) as [q' m'].
    destruct IH as (H1 & H2 & H3 & H4).
    { intros sig' t'. rewrite lookup_delete_Some, Hm, elem_of_cons. split.
      - intros [Hne [[= -> ->]|?]]; [done|done].
      - intros Hin. split; [|by right]. intros ->. apply Hnin.
        by apply (list_elem_of_fmap_2 snd) in Hin. }
    split_and!; try done. intros p. rewrite H1, elem_of_cons. split; [tauto|].
    intros [[->|?] ?]; [simpl in *; lia|done].
Qed.

Lemma claim_at_spec now s sig :
  signatures_ok now s ->
  let '(claimed, s') := claim_at s sig now in
  sg_retention s' = sg_retention s /\ signatures_ok now s' /\
  (claimed = true <-> forall t, (t, sig) ∈ sg_expirations s -> t <= now) /\
  (forall p, p ∈ sg_expirations s' <->
     (p ∈ sg_expirations s /\ now < p.1) \/ (claimed = true /\ p = (now + sg_retention s, sig))).
Proof.
  intros [Hs Hb Hnd Hm]. unfold claim_at.
  pose proof (expire_spec now (sg_expirations s) (sg_values s) Hs Hnd Hm) as H.
  destruct (expire now (sg_expirations s) (sg_values s)) as [q m]. destruct H as (H1 & H2 & H3 & H4).
  assert (forall p, p ∈ q -> p.1 <= now + sg_retention s) as Hqb by (intros p [? _]%H1; auto).
  destruct (m !! sig) as [t|] eqn:E; simpl.
  - apply H4, H1 in E as [Hin Hlt]. split_and!; [done|by constructor| |].
    + split; [done|]. intros Hall. specialize (Hall t Hin). simpl in *. lia.
    + intros p. rewrite H1. naive_solver.
  - assert (forall t, (t, sig) ∉ q) as Hnin by (intros t Ht%H4; congruence).
    split_and!; [done| | |].
    + constructor; simpl.
      * apply StronglySorted_app_2; [|done|by repeat constructor].
        intros a b Ha ->%list_elem_of_singleton. by apply Hqb.
      * intros p [?| ->%list_elem_of_singleton]%elem_of_app; [by apply Hqb|simpl; lia].
      * rewrite fmap_app. csimpl. apply NoDup_app. split_and!; [done| |by apply NoDup_singleton].
        intros x (p & -> & Hp)%list_elem_of_fmap Hx%list_elem_of_singleton. destruct p as [t x]. simpl in Hx.
        subst x. by apply (Hnin t).
      * intros sig' t. rewrite lookup_insert_Some, elem_of_app, list_elem_of_singleton, H4. split.
        -- intros [[-> <-]|[_ ?]]; [by right|by left].
        -- intros [Hin|[= -> ->]]; [|by left]. right. split; [|done]. intros ->. by apply (Hnin t).
    + split; [|done]. intros _ t Hin. destruct (Z.le_gt_cases t now) as [|Hlt]; [done|].
      exfalso. apply (Hnin t), H1. simpl. split; [done|lia].
    + intros p. rewrite elem_of_app, list_elem_of_singleton, H1. naive_solver.
Qed.

Lemma signatures_ok_later now now' s : now <= now' -> signatures_ok now s -> signatures_ok now' s.
Proof. intros Hle [? Hb ? ?]. constructor; try done. intros p Hp. specialize (Hb p Hp). lia. Qed.

Lemma recent_signatures_ok now retention : signatures_ok now (recent_signatures retention).
Proof.
  constructor; simpl; [constructor|by intros p ?%elem_of_nil|constructor|].
  intros sig t. rewrite lookup_empty, elem_of_nil. done.
Qed.

(** The instants of a history do not decrease. *)
Abbreviation clock := (StronglySorted (fun a b : Z * string => a.1 <= b.1)).

Lemma claims_granted now s history :
  signatures_ok now s -> clock history -> (forall c, c ∈ history -> now <= c.1) ->
  length (claims s history).1 = length history /\
  forall j t sig, history !! j = Some (t, sig) ->
    (claims s history).1 !! j = Some true <->
    (forall e, (e, sig) ∈ sg_expirations s -> e <= t) /\
    (forall i t', (i < j)%nat -> history !! i = Some (t', sig) ->
       (claims s history).1 !! i = Some true -> t' + sg_retention s <= t).
Proof.
  revert now s. induction history as [|[t0 sig0] history IH]; intros now s Hok Hclock Hnow; [done|].
  apply StronglySorted_inv in Hclock as [Hclock Hall]. rewrite Forall_forall in Hall. simpl.
  assert (signatures_ok t0 s) as Hok0.
  { eapply signatures_ok_later; [|done]. apply (Hnow (t0, sig0)). left. }
  pose proof (claim_at_spec t0 s sig0 Hok0) as Hstep.
  destruct (claim_at s sig0 t0) as [claimed s'] eqn:E. destruct Hstep as (Hret & Hok' & Hc & Hexp).
  destruct (IH t0 s' Hok' Hclock Hall) as [IHlen IHj].
  destruct (claims s' history) as [results s''] eqn:Er. simpl in *. split; [by rewrite IHlen|].
  intros [|j] t sig; simpl.
  - intros [= -> ->]. split.
    + intros [= ->]. split; [by apply Hc|]. intros; lia.
    + intros [H _]. f_equal. by apply Hc.
  - intros Hj. rewrite (IHj j t sig Hj). rewrite Hret.
    assert (t0 <= t) as Ht0 by (apply (Hall (t, sig)); by eapply list_elem_of_lookup_2).
    split.
    + intros [H1 H2]. split.
      * intros e He. destruct (Z.le_gt_cases e t0); [lia|]. apply H1, Hexp. left. simpl. split; [done|lia].
      * intros [|i] t' Hi Hh Hg; simpl in *.
        -- injection Hh as <- <-. injection Hg as ->. apply H1, Hexp. by right.
        -- by apply (H2 i t'); [lia| |].
    + intros [H1 H2]. split.
      * intros e [[He _]|[-> [= -> ->]]]%Hexp; [by apply H1|]. by apply (H2 0%nat t0); [lia| |].
      * intros i t' Hi Hh Hg. by apply (H2 (S i) t'); [lia| |].
Qed.

(** A signature is claimed once per retention period: in any history of
    claims with a clock that does not go back, a claim is granted exactly when
    no earlier granted claim of the same signature is younger than the
    retention, so one discovery transaction is fetched at most once while it
    could still be fresh, and a refused signature becomes claimable again. *)
Theorem signature_claimed_once_per_retention retention history j t sig :
  clock history -> history !! j = Some (t, sig) ->
  (claims (recent_signatures retention) history).1 !! j = Some true <->
  forall i t', (i < j)%nat -> history !! i = Some (t', sig) ->
    (claims (recent_signatures retention) history).1 !! i = Some true -> t' + retention <= t.
Proof.
  intros Hclock Hj. destruct history as [|[t0 sig0] rest] eqn:Eh; [done|]. rewrite <- Eh in *.
  destruct (claims_granted t0 (recent_signatures retention) history) as [_ H].
  - apply recent_signatures_ok.
  - done.
  - subst history. apply StronglySorted_inv in Hclock as [_ Hall]. rewrite Forall_forall in Hall.
    intros c [->|Hc]%elem_of_cons; [done|by apply Hall].
  - rewrite (H j t sig Hj). simpl. split; [by intros [_ ?]|]. intros Hi. split; [|done].
    by intros e ?%elem_of_nil.
Qed.

(** ** Pacing *)
Inductive GateOp := Reserve (now : Z) | RateLimitedAt (now : Z).
Definition op_time (o : GateOp) : Z := match o with Reserve now => now | RateLimitedAt now => now end.

(** The operations on the shared pacing state, with the reservations granted. *)
Fixpoint pace (interval cooldown : Z) (p : PacingState) (ops : list GateOp) : list bool * PacingState :=
  match ops with
  | [] => ([], p)
  | Reserve now :: rest =>
      let '(wait, p') := reserve_if_ready p now interval in
      let '(granted, p'') := pace interval cooldown p' rest in
      (bool_decide (wait = None) :: granted, p'')
  | RateLimitedAt now :: rest =>
      let '(granted, p'') := pace interval cooldown (record_rate_limit p now cooldown) rest in
      (false :: granted, p'')
  end.

Definition blocked_until (p : PacingState) (t : Z) : Prop :=
  option_max (pc_next_allowed p) (pc_cooldown_until p) = Some t.

(** No grant before an instant the state holds. *)
Definition not_before (p : PacingState) (t : Z) : Prop :=
  exists u, (pc_next_allowed p = Some u \/ pc_cooldown_until p = Some u) /\ t <= u.

Lemma reserve_granted p now interval p' :
  reserve_if_ready p now interval = (None, p') ->
  pc_next_allowed p' = Some (now + interval) /\ (forall t, not_before p t -> t <= now).
Proof.
  unfold reserve_if_ready. destruct (_ >? now) eqn:E; [done|]. intros [= <-]. split; [done|].
  intros t (u & Hu & Hle). destruct (pc_next_allowed p), (pc_cooldown_until p); simpl in E;
    destruct Hu as [[= ->]|[= ->]]; lia.
Qed.

Lemma reserve_refused p now interval t p' :
  reserve_if_ready p now interval = (Some t, p') -> p' = p /\ now < t /\ blocked_until p t.
Proof.
  unfold reserve_if_ready, blocked_until. destruct (_ >? now) eqn:E; [|done]. intros [= <- <-].
  destruct (option_max _ _); simpl in *; [split_and!; [done|lia|done]|lia].
Qed.

Lemma not_before_rate_limit p now cooldown t :
  not_before p t -> not_before (record_rate_limit p now cooldown) t.
Proof.
  intros (u & [Hu|Hu] & Hle); [by exists u; split; [left|]|].
  exists (Z.max u (now + cooldown)). simpl. rewrite Hu. split; [by right|lia].
Qed.

Abbreviation op_clock := (StronglySorted (fun a b : GateOp => op_time a <= op_time b)).

Lemma pace_not_before interval cooldown p ops t j o :
  op_clock ops -> not_before p t -> ops !! j = Some o ->
  (pace interval cooldown p ops).1 !! j = Some true -> t <= op_time o.
Proof.
  revert p j. induction ops as [|o0 ops IH]; intros p j Hc Hn Hj Hg; [done|].
  apply StronglySorted_inv in Hc as [Hc Hall]. rewrite Forall_forall in Hall.
  assert (forall k, ops !! k = Some o -> op_time o0 <= op_time o) as Hlater.
  { intros k Hk. apply Hall. by eapply list_elem_of_lookup_2. }
  destruct o0 as [now|now]; simpl in Hg.
  - destruct (reserve_if_ready p now interval) as [wait p'] eqn:Er.
    destruct (pace interval cooldown p' ops) as [granted p''] eqn:Ep.
    destruct wait as [u|].
    + apply reserve_refused in Er as (-> & _ & _). destruct j as [|j]; simpl in *; [done|].
      apply (IH p j); try done. by rewrite Ep.
    + apply reserve_granted in Er as [_ Hle]. specialize (Hle t Hn).
      destruct j as [|j]; simpl in *; [by injection Hj as <-|]. pose proof (Hlater j Hj). lia.
  - destruct (pace interval cooldown (record_rate_limit p now cooldown) ops) as [granted p''] eqn:Ep.
    destruct j as [|j]; simpl in *; [done|].
    apply (IH (record_rate_limit p now cooldown) j); try done; [by apply not_before_rate_limit|by rewrite Ep].
Qed.

Lemma pace_spaced interval cooldown p ops i j oi oj :
  op_clock ops -> (i < j)%nat -> ops !! i = Some oi -> ops !! j = Some oj ->
  (pace interval cooldown p ops).1 !! j = Some true ->
  match oi with
  | Reserve ti => (pace interval cooldown p ops).1 !! i = Some true -> ti + interval <= op_time oj
  | RateLimitedAt ti => ti + cooldown <= op_time oj
  end.
Proof.
  revert p i j. induction ops as [|o0 ops IH]; intros p i j Hc Hij Hi Hj Hg; [done|].
  pose proof Hc as Hc'. apply StronglySorted_inv in Hc' as [Hc' _].
  destruct j as [|j]; [lia|]. destruct i as [|i].
  - injection Hi as ->. destruct oi as [ti|ti]; simpl in Hg |- *.
    + destruct (reserve_if_ready p ti interval) as [[u|] p'] eqn:Er;
        destruct (pace interval cooldown p' ops) as [granted p''] eqn:Ep; simpl in *; [done|]. intros _.
      apply reserve_granted in Er as [Hn _].
      apply (pace_not_before interval cooldown p' ops _ j oj); try done; [|by rewrite Ep].
      exists (ti + interval). split; [by left|lia].
    + destruct (pace interval cooldown (record_rate_limit p ti cooldown) ops) as [granted p''] eqn:Ep.
      apply (pace_not_before interval cooldown (record_rate_limit p ti cooldown) ops _ j oj); try done;
        [|by rewrite Ep].
      unfold not_before. simpl. eexists. split; [by right|]. destruct (pc_cooldown_until p); lia.
  - simpl in Hi, Hj. destruct o0 as [now|now]; simpl in Hg |- *.
    + destruct (reserve_if_ready p now interval) as [wait p'] eqn:Er.
      destruct (pace interval cooldown p' ops) as [granted p''] eqn:Ep. simpl in *.
      specialize (IH p' i j Hc' ltac:(lia) Hi Hj). rewrite Ep in IH. by apply IH.
    + destruct (pace interval cooldown (record_rate_limit p now cooldown) ops) as [granted p''] eqn:Ep.
      simpl in *. specialize (IH (record_rate_limit p now cooldown) i j Hc' ltac:(lia) Hi Hj).
      rewrite Ep in IH. by apply IH.
Qed.

(** Discovery reads are paced.  In any sequence of reservations and
    rate-limit reports on the shared state with a clock that does not go back,
    two granted reservations are at least one request interval apart and none is
    granted within the cooldown of an earlier report; and a caller that is asked
    to sleep is granted its slot at the very instant it was given, so waiting
    always ends unless someone else took the slot. *)
Theorem discovery_reads_are_paced interval cooldown p ops i j oi oj :
  op_clock ops -> (i < j)%nat -> ops !! i = Some oi -> ops !! j = Some oj ->
  (pace interval cooldown p ops).1 !! j = Some true ->
  (forall ti, oi = Reserve ti -> (pace interval cooldown p ops).1 !! i = Some true ->
     ti + interval <= op_time oj) /\
  (forall ti, oi = RateLimitedAt ti -> ti + cooldown <= op_time oj) /\
  (forall q now wait q', reserve_if_ready q now interval = (Some wait, q') ->
     now < wait /\ (reserve_if_ready q' wait interval).1 = None).
Proof.
  intros Hc Hij Hi Hj Hg. pose proof (pace_spaced interval cooldown p ops i j oi oj Hc Hij Hi Hj Hg) as H.
  split_and!; [by intros ti ->|by intros ti ->|].
  intros q now wait q' Hr. apply reserve_refused in Hr as (-> & Hlt & Hb). split; [done|].
  unfold reserve_if_ready. rewrite Hb. simpl. by rewrite gtb_false by lia.
Qed.

Lemma signature_claimed_once_per_retention_witness :
  (claims (recent_signatures 10) [(0, "a"); (5, "a"); (10, "a")]%string).1 = [true; false; true] /\
  0 + 10 <= 10.
Proof.
  split; [vm_compute; reflexivity|].
  apply (proj1 (signature_claimed_once_per_retention 10 [(0, "a"); (5, "a"); (10, "a")]%string 2 10 "a"
    ltac:(repeat constructor; simpl; lia) eq_refl) ltac:(vm_compute; reflexivity) 0%nat 0);
    [lia|reflexivity|vm_compute; reflexivity].
Defined.

Lemma discovery_reads_are_paced_witness :
  (pace 10 50 pacing_default [Reserve 0; Reserve 5; Reserve 10]).1 = [true; false; true] /\ 0 + 10 <= 10.
Proof.
  split; [vm_compute; reflexivity|].
  apply (discovery_reads_are_paced 10 50 pacing_default [Reserve 0; Reserve 5; Reserve 10] 0 2
    (Reserve 0) (Reserve 10)); [repeat constructor; simpl; lia|lia|done|done| |done|]; vm_compute; reflexivity.
Defined.
