(* ===== verification/Normalization.v ===== *)
(** [apps/server/src/jobs/pump_swap_pair.rs] and [normalization.rs]: orienting
    PumpSwap pools around their quote asset, the registry of known markets, and
    the translation of decoded Pump events into normalized observations. *)
From S2P Require Import Prelude.
From S2P Require Import RustStr.
From S2P Require Import Domain.
From S2P Require Import External.
From S2P Require Import PumpModel.
From S2P Require Import Qualification.

(** ** [pump_swap_pair.rs] *)
Inductive PumpSwapSourceOrientation := BaseIsToken | QuoteIsToken.
#[export] Instance PumpSwapSourceOrientation_eq_dec : EqDecision PumpSwapSourceOrientation.
Proof. solve_decision. Defined.

Record PumpSwapPair := {
  psp_token_mint : string;
  psp_quote_mint : string;
  psp_source_orientation : PumpSwapSourceOrientation;
}.

Definition is_supported_quote_mint (network : Network) (mint : string) : bool :=
  (String.eqb mint NATIVE_SOL_MINT || String.eqb mint WRAPPED_SOL_MINT) ||
  (bool_decide (network = SolanaMainnet) && String.eqb mint CANONICAL_USDC_MINT).

Definition normalize_pump_swap_pair (network : Network)
    (source_base_mint source_quote_mint : string) : option PumpSwapPair :=
  let base_is_quote := is_supported_quote_mint network source_base_mint in
  let quote_is_quote := is_supported_quote_mint network source_quote_mint in
  match base_is_quote, quote_is_quote with
  | false, true => Some {| psp_token_mint := source_base_mint;
                           psp_quote_mint := source_quote_mint;
                           psp_source_orientation := BaseIsToken |}
  | true, false => Some {| psp_token_mint := source_quote_mint;
                           psp_quote_mint := source_base_mint;
                           psp_source_orientation := QuoteIsToken |}
  | false, false | true, true => None
  end.

(** ** The market registry *)
Inductive MarketLookupKey := KeyPumpMint (mint : string) | KeyPumpSwapPool (pool : string).
#[export] Instance MarketLookupKey_eq_dec : EqDecision MarketLookupKey.
Proof. solve_decision. Defined.
#[export] Instance MarketLookupKey_countable : Countable MarketLookupKey.
Proof.
  apply (inj_countable'
    (fun t => match t with KeyPumpMint s => inl s | KeyPumpSwapPool s => inr s end)
    (fun s => match s with inl s => KeyPumpMint s | inr s => KeyPumpSwapPool s end)).
  by intros [].
Defined.

Record RegisteredMarket := {
  rm_identity : MarketIdentity;
  rm_pump_swap_source_orientation : option PumpSwapSourceOrientation;
}.

(** The [RwLock] around the map is poisoned when a thread panicked inside a
    write; every later access then fails. *)
Record MarketRegistry := {
  mr_poisoned : bool;
  mr_markets : gmap MarketLookupKey RegisteredMarket;
}.
Definition market_registry_default : MarketRegistry :=
  {| mr_poisoned := false; mr_markets := ∅ |}.

Section Errors.
Context {JE : Type}.

Inductive NormalizationError :=
| RegistryUnavailable
| PumpMarketUnresolved (mint : string)
| PumpSwapMarketUnresolved (pool : string)
| UnsupportedPumpSwapPair (base_mint quote_mint : string)
| PumpSwapSourceOrientationRequired
| QuoteMintMismatch (mint : string)
| ZeroTradeAmount
| SourceDetails (e : JE).

Abbreviation normalization A := (result NormalizationError A).

(** [markets.write()] and [markets.read()] with the poisoning mapped to an
    error. *)
Definition write_markets (r : MarketRegistry)
    (f : gmap MarketLookupKey RegisteredMarket -> gmap MarketLookupKey RegisteredMarket)
    : normalization MarketRegistry :=
  if mr_poisoned r then Err RegistryUnavailable
  else Ok {| mr_poisoned := false; mr_markets := f (mr_markets r) |}.
Definition read_markets (r : MarketRegistry)
    : normalization (gmap MarketLookupKey RegisteredMarket) :=
  if mr_poisoned r then Err RegistryUnavailable else Ok (mr_markets r).

Definition register (r : MarketRegistry) (m : MarketIdentity) : normalization MarketRegistry :=
  match mi_venue m with
  | PumpBondingCurve =>
      write_markets r (<[KeyPumpMint (mi_mint m) :=
        {| rm_identity := m; rm_pump_swap_source_orientation := None |}]>)
  | PumpSwapVenue => Err PumpSwapSourceOrientationRequired
  | RaydiumCpmmVenue | RaydiumClmmVenue | RaydiumAmmV4Venue => Ok r
  end.

Definition pump_swap_market_identity (network : Network) (pool : string) (the_pair : PumpSwapPair)
    : MarketIdentity := {|
  mi_network := network; mi_mint := psp_token_mint the_pair; mi_venue := PumpSwapVenue;
  mi_market_address := pool; mi_quote_mint := Some (psp_quote_mint the_pair) |}.

Definition register_pump_swap_pool (r : MarketRegistry) (network : Network)
    (pool source_base_mint source_quote_mint : string)
    : normalization (option MarketIdentity * MarketRegistry) :=
  match normalize_pump_swap_pair network source_base_mint source_quote_mint with
  | None => Ok (None, r)
  | Some the_pair =>
      let market := pump_swap_market_identity network pool the_pair in
      r' ← write_markets r (<[KeyPumpSwapPool pool :=
             {| rm_identity := market;
                rm_pump_swap_source_orientation := Some (psp_source_orientation the_pair) |}]>);
      Ok (Some market, r')
  end.

(** Registers until the first error; the markets before it stay registered. *)
Fixpoint register_all (r : MarketRegistry) (markets : list MarketIdentity)
    : MarketRegistry * normalization unit :=
  match markets with
  | [] => (r, Ok tt)
  | m :: rest =>
      match register r m with
      | Ok r' => register_all r' rest
      | Err e => (r, Err e)
      end
  end.

Definition retire_pump_market (r : MarketRegistry) (mint : string)
    : normalization MarketRegistry :=
  write_markets r (delete (KeyPumpMint mint)).

Definition pump_market (r : MarketRegistry) (mint : string) : normalization MarketIdentity :=
  ms ← read_markets r;
  ok_or (rm_identity <$> ms !! KeyPumpMint mint) (PumpMarketUnresolved mint).

Definition pump_swap_market (r : MarketRegistry) (pool : string)
    : normalization RegisteredMarket :=
  ms ← read_markets r;
  ok_or (ms !! KeyPumpSwapPool pool) (PumpSwapMarketUnresolved pool).

(** ** Translating one event *)
Definition orient_source_amounts (o : PumpSwapSourceOrientation)
    (source_base_units source_quote_units : Z) : Z * Z :=
  match o with
  | BaseIsToken => (source_base_units, source_quote_units)
  | QuoteIsToken => (source_quote_units, source_base_units)
  end.

Definition trade_side (d : TradeDirection) : TradeSide :=
  match d with DirBuy => Buy | DirSell => Sell end.

Definition require_non_zero_trade_amounts (base_amount_units quote_amount_units : Z)
    : normalization unit :=
  guard_err ((base_amount_units =? 0) || (quote_amount_units =? 0)) ZeroTradeAmount.

Definition side_event_kind (s : TradeSide) : string :=
  match s with Buy => "BUY" | Sell => "SELL" end.

(** The market of a bonding curve named by an event. *)
Definition bonding_curve_market (network : Network) (mint bonding_curve quote_mint : string)
    : MarketIdentity := {|
  mi_network := network; mi_mint := mint; mi_venue := PumpBondingCurve;
  mi_market_address := bonding_curve; mi_quote_mint := Some quote_mint |}.

(** The registered pool of a PumpSwap event with its orientation. *)
Definition oriented_pool (r : MarketRegistry) (pool : string)
    : normalization (MarketIdentity * PumpSwapSourceOrientation) :=
  registered ← pump_swap_market r pool;
  o ← ok_or (rm_pump_swap_source_orientation registered) PumpSwapSourceOrientationRequired;
  Ok (rm_identity registered, o).

(** What the [match] over the event yields: the kind, the market, the payload
    and the discovered market. *)
Definition EventParts : Type :=
  string * MarketIdentity * ObservationPayload * option MarketIdentity.

Definition create_parts (network : Network) (e : PumpCreateEvent) : EventParts :=
  let market := bonding_curve_market network (ce_mint e) (ce_bonding_curve e) (ce_quote_mint e) in
  ("CREATE"%string, market,
   TokenCreated (ce_name e) (ce_symbol e) (ce_uri e) (ce_creator e) (ce_user e), Some market).

Definition trade_parts (r : MarketRegistry) (e : PumpTradeEvent) : normalization EventParts :=
  _ ← require_non_zero_trade_amounts (te_token_amount e) (te_quote_amount e);
  market ← pump_market r (te_mint e);
  if negb (bool_decide (mi_quote_mint market = Some (te_quote_mint e)))
  then Err (QuoteMintMismatch (te_mint e))
  else
    Ok ("TRADE"%string, market,
        Trade (trade_side (te_direction e)) (te_user e) (te_token_amount e) (te_quote_amount e)
          (Some (te_virtual_token_reserves e)) (Some (te_virtual_quote_reserves e)), None).

Definition complete_parts (network : Network) (e : PumpCompleteEvent) : EventParts :=
  ("COMPLETE"%string,
   bonding_curve_market network (co_mint e) (co_bonding_curve e) (co_quote_mint e),
   MarketCompleted (co_user e), None).

Definition migration_parts (network : Network) (e : PumpMigrationEvent) : EventParts :=
  ("COMPLETE_PUMP_AMM_MIGRATION"%string,
   bonding_curve_market network (me_mint e) (me_bonding_curve e) (me_quote_mint e),
   MarketMigrated (me_user e) (me_pool e) (me_mint_amount e) (me_legacy_sol_amount e), None).

Definition create_pool_parts (network : Network) (e : PumpSwapCreatePoolEvent)
    : normalization EventParts :=
  the_pair ← ok_or (normalize_pump_swap_pair network (cp_base_mint e) (cp_quote_mint e))
           (UnsupportedPumpSwapPair (cp_base_mint e) (cp_quote_mint e));
  let market := pump_swap_market_identity network (cp_pool e) the_pair in
  let '(base, quote) := orient_source_amounts (psp_source_orientation the_pair)
                          (cp_base_amount_in e) (cp_quote_amount_in e) in
  Ok ("CREATE_POOL"%string, market, MarketCreated (cp_creator e) base quote, Some market).

Definition swap_buy_parts (r : MarketRegistry) (e : PumpSwapBuyEvent)
    : normalization EventParts :=
  _ ← require_non_zero_trade_amounts (be_base_amount_out e) (be_quote_amount_in e);
  '(market, o) ← oriented_pool r (be_pool e);
  let '(side, base, quote) :=
    match o with
    | BaseIsToken => (Buy, be_base_amount_out e, be_quote_amount_in e)
    | QuoteIsToken => (Sell, be_quote_amount_in e, be_base_amount_out e)
    end in
  let '(base_reserve, quote_reserve) := orient_source_amounts o
    (be_pool_base_token_reserves e) (be_pool_quote_token_reserves e) in
  Ok (side_event_kind side, market,
      Trade side (be_user e) base quote (Some base_reserve) (Some quote_reserve), None).

Definition swap_sell_parts (r : MarketRegistry) (e : PumpSwapSellEvent)
    : normalization EventParts :=
  _ ← require_non_zero_trade_amounts (se_base_amount_in e) (se_quote_amount_out e);
  '(market, o) ← oriented_pool r (se_pool e);
  let '(side, base, quote) :=
    match o with
    | BaseIsToken => (Sell, se_base_amount_in e, se_quote_amount_out e)
    | QuoteIsToken => (Buy, se_quote_amount_out e, se_base_amount_in e)
    end in
  let '(base_reserve, quote_reserve) := orient_source_amounts o
    (se_pool_base_token_reserves e) (se_pool_quote_token_reserves e) in
  Ok (side_event_kind side, market,
      Trade side (se_user e) base quote (Some base_reserve) (Some quote_reserve), None).

Definition swap_deposit_parts (r : MarketRegistry) (e : PumpSwapDepositEvent)
    : normalization EventParts :=
  '(market, o) ← oriented_pool r (de_pool e);
  let '(base, quote) := orient_source_amounts o (de_base_amount_in e) (de_quote_amount_in e) in
  let '(base_reserve, quote_reserve) := orient_source_amounts o
    (de_pool_base_token_reserves e) (de_pool_quote_token_reserves e) in
  Ok ("LIQUIDITY_DEPOSIT"%string, market,
      LiquidityDeposited (de_user e) base quote base_reserve quote_reserve
        (de_lp_token_amount_out e) (de_lp_mint_supply e), None).

Definition swap_withdraw_parts (r : MarketRegistry) (e : PumpSwapWithdrawEvent)
    : normalization EventParts :=
  '(market, o) ← oriented_pool r (we_pool e);
  let '(base, quote) := orient_source_amounts o (we_base_amount_out e) (we_quote_amount_out e) in
  let '(base_reserve, quote_reserve) := orient_source_amounts o
    (we_pool_base_token_reserves e) (we_pool_quote_token_reserves e) in
  Ok ("LIQUIDITY_WITHDRAW"%string, market,
      LiquidityWithdrawn (we_user e) base quote base_reserve quote_reserve
        (we_lp_token_amount_in e) (we_lp_mint_supply e), None).

Definition event_parts (network : Network) (r : MarketRegistry) (e : PumpEvent)
    : normalization EventParts :=
  match e with
  | EvCreate e => Ok (create_parts network e)
  | EvTrade e => trade_parts r e
  | EvComplete e => Ok (complete_parts network e)
  | EvCompletePumpAmmMigration e => Ok (migration_parts network e)
  | EvPumpSwapCreatePool e => create_pool_parts network e
  | EvPumpSwapBuy e => swap_buy_parts r e
  | EvPumpSwapSell e => swap_sell_parts r e
  | EvPumpSwapDeposit e => swap_deposit_parts r e
  | EvPumpSwapWithdraw e => swap_withdraw_parts r e
  end.
End Errors.
#[global] Arguments NormalizationError JE : clear implicits.

(** [format!("{byte:02x}")] over the digest. *)
Definition hex_digit (d : Z) : Ascii.ascii :=
  Ascii.ascii_of_N (Z.to_N (if d <? 10 then 48 + d else 87 + d)).
Fixpoint hex_lower (bs : list byte) : string :=
  match bs with
  | [] => EmptyString
  | b :: bs => String (hex_digit (byte_val b / 16)) (String (hex_digit (byte_val b mod 16))
                 (hex_lower bs))
  end.
Definition evidence_hash {S256 : Sha256} (raw_evidence : list byte) : string :=
  hex_lower (sha256_digest raw_evidence).

(** The source's time in milliseconds: absent when it overflows or is negative. *)
Definition source_event_time_ms (d : DecodedPumpEvent) : option Z :=
  match checked_mul_s 64 (source_event_time_unix_seconds d) 1000 with
  | Some t => if 0 <=? t then Some t else None
  | None => None
  end.

Record NormalizedPumpEvent {J : Type} := {
  np_observation : NormalizedObservation J;
  np_discovered_market : option MarketIdentity;
}.
#[global] Arguments NormalizedPumpEvent J : clear implicits.

Section Normalize.
Context {B64 : Base64} {S256 : Sha256} {J : Type} {TJ : ToJson PumpEvent J}.

Definition normalize_pump_event (decoded : DecodedPumpEvent) (network : Network)
    (commitment_ : Commitment) (received_time_unix_ms_ : Z) (raw_evidence : list byte)
    (markets : MarketRegistry)
    : result (NormalizationError (JsonError PumpEvent J)) (NormalizedPumpEvent J) :=
  details ← map_err SourceDetails (json_to_value (dp_event decoded));
  '(kind, market_, payload_, discovered) ← event_parts network markets (dp_event decoded);
  Ok {| np_observation := {|
          key := {| ok_network := network;
                    ok_program := pump_source_program (dp_program decoded);
                    coordinate := dp_coordinate decoded |};
          commitment := commitment_;
          schema_version := DECODER_SCHEMA_VERSION;
          decoder_version := DECODER_VERSION;
          event_kind := kind;
          market := market_;
          source_event_time_unix_ms := source_event_time_ms decoded;
          received_time_unix_ms := received_time_unix_ms_;
          raw_evidence_hash := evidence_hash raw_evidence;
          source_evidence_base64 := base64_encode raw_evidence;
          source_details := details;
          payload := payload_ |};
        np_discovered_market := discovered |}.
End Normalize.
