(* ===== verification/NormalizationProofs.v ===== *)
(** Correctness of [Normalization]: what the market registry can contain, when
    an event is translated and when it is refused, and that every amount of a
    PumpSwap event is booked under the mint it is denominated in. *)
From S2P Require Import Prelude.
From S2P Require Import RustStr.
From S2P Require Import Domain.
From S2P Require Import External.
From S2P Require Import PumpModel.
From S2P Require Import Qualification.
From S2P Require Import Normalization.

(** ** Pairs *)
Lemma normalize_pair_Some n b q p :
  normalize_pump_swap_pair n b q = Some p <->
  is_supported_quote_mint n (psp_quote_mint p) = true /\
  is_supported_quote_mint n (psp_token_mint p) = false /\
  (b, q) = match psp_source_orientation p with
           | BaseIsToken => (psp_token_mint p, psp_quote_mint p)
           | QuoteIsToken => (psp_quote_mint p, psp_token_mint p)
           end.
Proof.
  unfold normalize_pump_swap_pair. destruct p as [tm qm [|]]; simpl;
    destruct (is_supported_quote_mint n b) eqn:Hb, (is_supported_quote_mint n q) eqn:Hq;
    (split; [intros [=]; subst; done | intros (? & ? & [= -> ->]); congruence]).
Qed.

Lemma normalize_pair_None n b q :
  normalize_pump_swap_pair n b q = None <->
  is_supported_quote_mint n b = is_supported_quote_mint n q.
Proof.
  unfold normalize_pump_swap_pair.
  destruct (is_supported_quote_mint n b), (is_supported_quote_mint n q); done.
Qed.

(** ** The registry *)
Record market_registry_ok (r : MarketRegistry) : Prop := {
  mro_lock : mr_poisoned r = false;
  mro_pump mint rm : mr_markets r !! KeyPumpMint mint = Some rm ->
    mi_venue (rm_identity rm) = PumpBondingCurve /\ mi_mint (rm_identity rm) = mint;
  mro_swap pool rm : mr_markets r !! KeyPumpSwapPool pool = Some rm ->
    exists n b q p, normalize_pump_swap_pair n b q = Some p /\
      rm = {| rm_identity := pump_swap_market_identity n pool p;
              rm_pump_swap_source_orientation := Some (psp_source_orientation p) |};
}.

Inductive market_registry_step {JE} (r : MarketRegistry) : MarketRegistry -> Prop :=
| step_register m r' :
    register (JE:=JE) r m = Ok r' -> market_registry_step r r'
| step_register_pool n pool b q m r' :
    register_pump_swap_pool (JE:=JE) r n pool b q = Ok (m, r') -> market_registry_step r r'
| step_register_all ms : market_registry_step r (register_all (JE:=JE) r ms).1
| step_retire mint r' :
    retire_pump_market (JE:=JE) r mint = Ok r' -> market_registry_step r r'.
Definition market_registry_reachable {JE} (r : MarketRegistry) : Prop :=
  rtc (market_registry_step (JE:=JE)) market_registry_default r.

Section Registry.
Context {JE : Type}.

Lemma write_markets_Ok r f r' :
  write_markets (JE:=JE) r f = Ok r' <->
  mr_poisoned r = false /\ r' = {| mr_poisoned := false; mr_markets := f (mr_markets r) |}.
Proof. unfold write_markets. destruct (mr_poisoned r); naive_solver. Qed.

Lemma register_ok r m r' :
  market_registry_ok r -> register (JE:=JE) r m = Ok r' -> market_registry_ok r'.
Proof.
  intros Hr. unfold register. destruct (mi_venue m) eqn:Ev; try (by intros [= <-]).
  intros [Hl ->]%write_markets_Ok. split; simpl; [done| |].
  - intros mint rm. rewrite lookup_insert_Some. intros [[[= <-] <-]|[_ H]]; [done|].
    by apply (mro_pump _ Hr).
  - intros pool rm. rewrite lookup_insert_ne by done. apply (mro_swap _ Hr).
Qed.

Lemma register_pool_ok r n pool b q m r' :
  market_registry_ok r -> register_pump_swap_pool (JE:=JE) r n pool b q = Ok (m, r') ->
  market_registry_ok r'.
Proof.
  intros Hr. unfold register_pump_swap_pool.
  destruct (normalize_pump_swap_pair n b q) as [p|] eqn:Ep; [|by intros [= <- <-]].
  intros (r1 & [Hl ->]%write_markets_Ok & [= <- <-])%bind_Ok. split; simpl; [done| |].
  - intros mint rm. rewrite lookup_insert_ne by done. apply (mro_pump _ Hr).
  - intros pool' rm. rewrite lookup_insert_Some. intros [[[= <-] <-]|[_ H]]; [eauto 8|].
    by apply (mro_swap _ Hr).
Qed.

Lemma register_all_ok ms r :
  market_registry_ok r -> market_registry_ok (register_all (JE:=JE) r ms).1.
Proof.
  revert r. induction ms as [|m ms IH]; intros r Hr; simpl; [done|].
  destruct (register r m) eqn:E; simpl; [|done]. apply IH. by eapply register_ok.
Qed.

Lemma retire_ok r mint r' :
  market_registry_ok r -> retire_pump_market (JE:=JE) r mint = Ok r' -> market_registry_ok r'.
Proof.
  intros Hr [Hl ->]%write_markets_Ok. split; simpl; [done| |].
  - intros mint' rm [_ H]%lookup_delete_Some. by apply (mro_pump _ Hr).
  - intros pool rm [_ H]%lookup_delete_Some. by apply (mro_swap _ Hr).
Qed.

Lemma market_registry_reachable_ok r :
  market_registry_reachable (JE:=JE) r -> market_registry_ok r.
Proof.
  intros H. unfold market_registry_reachable in H.
  assert (market_registry_ok market_registry_default) as H0 by by split.
  induction H as [|x y z Hs _ IH]; [done|]. apply IH.
  destruct Hs; eauto using register_ok, register_pool_ok, register_all_ok, retire_ok.
Qed.

Lemma pump_market_spec r mint :
  market_registry_ok r ->
  match pump_market (JE:=JE) r mint with
  | Ok m => rm_identity <$> mr_markets r !! KeyPumpMint mint = Some m /\
            mi_venue m = PumpBondingCurve /\ mi_mint m = mint
  | Err e => mr_markets r !! KeyPumpMint mint = None /\ e = PumpMarketUnresolved mint
  end.
Proof.
  intros Hr. unfold pump_market, read_markets. rewrite (mro_lock _ Hr). csimpl.
  destruct (mr_markets r !! KeyPumpMint mint) as [rm|] eqn:E; simpl; [|done].
  by apply (mro_pump _ Hr) in E as [-> ->].
Qed.

Lemma oriented_pool_spec r pool :
  market_registry_ok r ->
  match oriented_pool (JE:=JE) r pool with
  | Ok (m, o) => exists n b q p, normalize_pump_swap_pair n b q = Some p /\
      mr_markets r !! KeyPumpSwapPool pool =
        Some {| rm_identity := m; rm_pump_swap_source_orientation := Some o |} /\
      m = pump_swap_market_identity n pool p /\ o = psp_source_orientation p
  | Err e => mr_markets r !! KeyPumpSwapPool pool = None /\ e = PumpSwapMarketUnresolved pool
  end.
Proof.
  intros Hr. unfold oriented_pool, pump_swap_market, read_markets. rewrite (mro_lock _ Hr). csimpl.
  destruct (mr_markets r !! KeyPumpSwapPool pool) as [rm|] eqn:E; csimpl; [|done].
  apply (mro_swap _ Hr) in E as (n & b & q & p & Hp & ->). csimpl. eauto 10.
Qed.
End Registry.

(** ** Amounts and mints *)

(** The economic content of an event or of a payload, over two mints in a
    fixed order: the amount and the reserve of each, and whether the wallet
    received the first one. *)
Record Flow := {
  fl_first : Z * option Z;
  fl_second : Z * option Z;
  fl_receives_first : option bool;
}.
Definition booked (f : Flow) (m1 m2 : string) : list (string * (Z * option Z)) :=
  [(m1, fl_first f); (m2, fl_second f)].
Definition received (f : Flow) (m1 m2 : string) : option string :=
  (fun b : bool => if b then m1 else m2) <$> fl_receives_first f.

(** The flow of a PumpSwap event in the pool's own order. *)
Definition source_flow (e : PumpEvent) : option Flow :=
  match e with
  | EvPumpSwapCreatePool e =>
      Some {| fl_first := (cp_base_amount_in e, None); fl_second := (cp_quote_amount_in e, None);
              fl_receives_first := None |}
  | EvPumpSwapBuy e =>
      Some {| fl_first := (be_base_amount_out e, Some (be_pool_base_token_reserves e));
              fl_second := (be_quote_amount_in e, Some (be_pool_quote_token_reserves e));
              fl_receives_first := Some true |}
  | EvPumpSwapSell e =>
      Some {| fl_first := (se_base_amount_in e, Some (se_pool_base_token_reserves e));
              fl_second := (se_quote_amount_out e, Some (se_pool_quote_token_reserves e));
              fl_receives_first := Some false |}
  | EvPumpSwapDeposit e =>
      Some {| fl_first := (de_base_amount_in e, Some (de_pool_base_token_reserves e));
              fl_second := (de_quote_amount_in e, Some (de_pool_quote_token_reserves e));
              fl_receives_first := None |}
  | EvPumpSwapWithdraw e =>
      Some {| fl_first := (we_base_amount_out e, Some (we_pool_base_token_reserves e));
              fl_second := (we_quote_amount_out e, Some (we_pool_quote_token_reserves e));
              fl_receives_first := None |}
  | _ => None
  end.

(** The flow of a payload, token first. *)
Definition payload_flow (p : ObservationPayload) : option Flow :=
  match p with
  | MarketCreated _ b q =>
      Some {| fl_first := (b, None); fl_second := (q, None); fl_receives_first := None |}
  | Trade side _ b q br qr =>
      Some {| fl_first := (b, br); fl_second := (q, qr);
              fl_receives_first := Some (bool_decide (side = Buy)) |}
  | LiquidityDeposited _ b q br qr _ _ | LiquidityWithdrawn _ b q br qr _ _ =>
      Some {| fl_first := (b, Some br); fl_second := (q, Some qr); fl_receives_first := None |}
  | _ => None
  end.

Definition event_pool (e : PumpEvent) : option string :=
  match e with
  | EvPumpSwapBuy e => Some (be_pool e)
  | EvPumpSwapSell e => Some (se_pool e)
  | EvPumpSwapDeposit e => Some (de_pool e)
  | EvPumpSwapWithdraw e => Some (we_pool e)
  | _ => None
  end.

(** The pool is registered, from the source mints [b] and [q] in that order. *)
Definition pool_registered (r : MarketRegistry) (pool b q : string) : Prop :=
  exists n p, normalize_pump_swap_pair n b q = Some p /\
    mr_markets r !! KeyPumpSwapPool pool =
      Some {| rm_identity := pump_swap_market_identity n pool p;
              rm_pump_swap_source_orientation := Some (psp_source_orientation p) |}.

Definition source_mints (r : MarketRegistry) (e : PumpEvent) (b q : string) : Prop :=
  match e with
  | EvPumpSwapCreatePool e => cp_base_mint e = b /\ cp_quote_mint e = q
  | e => exists pool, event_pool e = Some pool /\ pool_registered r pool b q
  end.

(** Booking a flow in the order of the pair moves no amount to another mint. *)
Definition orient_flow (o : PumpSwapSourceOrientation) (f : Flow) : Flow :=
  match o with
  | BaseIsToken => f
  | QuoteIsToken => {| fl_first := fl_second f; fl_second := fl_first f;
                       fl_receives_first := negb <$> fl_receives_first f |}
  end.

Lemma orient_flow_booked n b q p f :
  normalize_pump_swap_pair n b q = Some p ->
  booked (orient_flow (psp_source_orientation p) f) (psp_token_mint p) (psp_quote_mint p)
    ≡ₚ booked f b q /\
  received (orient_flow (psp_source_orientation p) f) (psp_token_mint p) (psp_quote_mint p)
    = received f b q.
Proof.
  intros (_ & _ & H)%normalize_pair_Some. destruct f as [x y z], (psp_source_orientation p);
    injection H as -> ->; split; try done; unfold booked, received; simpl.
  - apply Permutation_swap.
  - by destruct z as [[]|].
Qed.

Section Outcome.
Context {B64 : Base64} {S256 : Sha256} {J : Type} {TJ : ToJson PumpEvent J}.
Implicit Types (r : MarketRegistry) (np : NormalizedPumpEvent J).
Abbreviation JErr := (JsonError PumpEvent J).

Lemma normalize_Ok d n c t raw r np :
  normalize_pump_event (J:=J) d n c t raw r = Ok np ->
  exists j, json_to_value (dp_event d) = Ok j /\
    source_details (np_observation np) = j /\
    key (np_observation np) = {| ok_network := n;
      ok_program := pump_source_program (dp_program d); coordinate := dp_coordinate d |} /\
    received_time_unix_ms (np_observation np) = t /\
    event_parts (JE:=JErr) n r (dp_event d) = Ok (event_kind (np_observation np),
      market (np_observation np), payload (np_observation np), np_discovered_market np).
Proof.
  unfold normalize_pump_event. destruct (json_to_value (dp_event d)) as [j|x]; [|done]. csimpl.
  destruct (event_parts (JE:=JErr) n r (dp_event d)) as [[[[kind m] p] disc]|e] eqn:E; [|done].
  intros [= <-]. csimpl. eauto 8.
Qed.

(** What the event's market must be for the event to be translated. *)
Definition market_resolved n r (e : PumpEvent) (m : MarketIdentity) : Prop :=
  match e with
  | EvCreate e => m = bonding_curve_market n (ce_mint e) (ce_bonding_curve e) (ce_quote_mint e)
  | EvTrade e => rm_identity <$> mr_markets r !! KeyPumpMint (te_mint e) = Some m /\
                 mi_quote_mint m = Some (te_quote_mint e)
  | EvComplete e => m = bonding_curve_market n (co_mint e) (co_bonding_curve e) (co_quote_mint e)
  | EvCompletePumpAmmMigration e =>
      m = bonding_curve_market n (me_mint e) (me_bonding_curve e) (me_quote_mint e)
  | EvPumpSwapCreatePool e =>
      exists p, normalize_pump_swap_pair n (cp_base_mint e) (cp_quote_mint e) = Some p /\
        m = pump_swap_market_identity n (cp_pool e) p
  | e => exists pool n' b q p, event_pool e = Some pool /\
      normalize_pump_swap_pair n' b q = Some p /\ m = pump_swap_market_identity n' pool p /\
      mr_markets r !! KeyPumpSwapPool pool = Some
        {| rm_identity := m; rm_pump_swap_source_orientation := Some (psp_source_orientation p) |}
  end.

Definition zero_trade (e : PumpEvent) : Prop :=
  match e with
  | EvTrade e => te_token_amount e = 0 \/ te_quote_amount e = 0
  | EvPumpSwapBuy e => be_base_amount_out e = 0 \/ be_quote_amount_in e = 0
  | EvPumpSwapSell e => se_base_amount_in e = 0 \/ se_quote_amount_out e = 0
  | _ => False
  end.

Definition creation_event (e : PumpEvent) : bool :=
  match e with EvCreate _ | EvPumpSwapCreatePool _ => true | _ => false end.

(** The conditions under which each error is reported. *)
Definition error_justified n r (e : PumpEvent) (err : NormalizationError JErr) : Prop :=
  match err with
  | RegistryUnavailable | PumpSwapSourceOrientationRequired => False
  | SourceDetails x => json_to_value e = Err x
  | ZeroTradeAmount => zero_trade e
  | PumpMarketUnresolved mint => ~ zero_trade e /\ mr_markets r !! KeyPumpMint mint = None /\
      exists tr, e = EvTrade tr /\ te_mint tr = mint
  | PumpSwapMarketUnresolved pool => ~ zero_trade e /\ event_pool e = Some pool /\
      mr_markets r !! KeyPumpSwapPool pool = None
  | QuoteMintMismatch mint => ~ zero_trade e /\ exists tr m, e = EvTrade tr /\ te_mint tr = mint /\
      rm_identity <$> mr_markets r !! KeyPumpMint mint = Some m /\
      mi_quote_mint m <> Some (te_quote_mint tr)
  | UnsupportedPumpSwapPair b q => is_supported_quote_mint n b = is_supported_quote_mint n q /\
      exists cp, e = EvPumpSwapCreatePool cp /\ cp_base_mint cp = b /\ cp_quote_mint cp = q
  end.

Lemma require_non_zero_spec {JE} a b :
  match require_non_zero_trade_amounts (JE:=JE) a b with
  | Ok _ => ~ (a = 0 \/ b = 0)
  | Err e => (a = 0 \/ b = 0) /\ e = ZeroTradeAmount
  end.
Proof.
  unfold require_non_zero_trade_amounts, guard_err.
  destruct (Z.eqb_spec a 0), (Z.eqb_spec b 0); simpl; naive_solver.
Qed.

(** The parts of an event are those of its resolved market, in the market's own
    order, or the error is the justified one. *)
Definition parts_correct n r (e : PumpEvent)
    (res : result (NormalizationError JErr) EventParts) : Prop :=
  match res with
  | Ok (kind, m, p, disc) =>
      market_resolved n r e m /\ ~ zero_trade e /\
      disc = (if creation_event e then Some m else None) /\
      (forall f, source_flow e = Some f -> exists b q pr, source_mints r e b q /\
        (exists n', normalize_pump_swap_pair n' b q = Some pr) /\
        mi_mint m = psp_token_mint pr /\ mi_quote_mint m = Some (psp_quote_mint pr) /\
        payload_flow p = Some (orient_flow (psp_source_orientation pr) f))
  | Err err => error_justified n r e err
  end.

#[local] Arguments parts_correct : simpl never.

Lemma pool_parts_correct n r e pool f
    (k : MarketIdentity -> PumpSwapSourceOrientation ->
         result (NormalizationError JErr) EventParts) :
  market_registry_ok r -> event_pool e = Some pool -> source_flow e = Some f ->
  creation_event e = false -> ~ zero_trade e ->
  (forall m o, exists kind pay, k m o = Ok (kind, m, pay, None) /\
    payload_flow pay = Some (orient_flow o f)) ->
  parts_correct n r e ('(m, o) ← oriented_pool (JE:=JErr) r pool; k m o).
Proof.
  intros Hr Hp Hf Hc Hz Hk. pose proof (oriented_pool_spec (JE:=JErr) r pool Hr) as H.
  unfold parts_correct. destruct (oriented_pool (JE:=JErr) r pool) as [[m o]|err]; csimpl.
  - destruct H as (n' & b & q & p & Hpair & Hl & -> & ->).
    destruct (Hk (pump_swap_market_identity n' pool p) (psp_source_orientation p))
      as (kind & pay & -> & Hpay). rewrite Hc.
    destruct e; simplify_eq/=; (split; [by eauto 12|]; split; [done|]; split; [done|];
      intros f' [= <-]; exists b, q, p; split; [eexists; split; [done|]; eexists _, p; done|];
      eauto).
  - destruct H as [Hl ->]. destruct e; simplify_eq/=; eauto.
Qed.

Lemma trade_parts_correct n r tr :
  market_registry_ok r -> parts_correct n r (EvTrade tr) (trade_parts (JE:=JErr) r tr).
Proof.
  intros Hr. unfold trade_parts.
  pose proof (require_non_zero_spec (JE:=JErr) (te_token_amount tr) (te_quote_amount tr)) as Hz.
  destruct (require_non_zero_trade_amounts _ _); csimpl; [|by destruct Hz as [? ->]].
  pose proof (pump_market_spec (JE:=JErr) r (te_mint tr) Hr) as Hm.
  destruct (pump_market _ _) as [m|e]; csimpl.
  - destruct Hm as (Hl & _). case_bool_decide; simpl.
    + repeat split; try done.
    + split; [done|]. by exists tr, m.
  - destruct Hm as [Hl ->]. split_and!; [done..|by exists tr].
Qed.

Lemma event_parts_correct n r e :
  market_registry_ok r -> parts_correct n r e (event_parts (JE:=JErr) n r e).
Proof.
  intros Hr. destruct e as [e|e|e|e|e|e|e|e|e]; unfold event_parts;
    try (unfold parts_correct; simpl; split_and!; (by intros) || by intros []).
  - by apply trade_parts_correct.
  - unfold create_pool_parts.
    destruct (normalize_pump_swap_pair _ _ _) as [p|] eqn:Ep; csimpl.
    + destruct (orient_source_amounts _ _ _) as [b q] eqn:Eo.
      unfold parts_correct; simpl.
      split; [eauto|]. split; [by intros []|]. split; [done|]. intros f [= <-].
      exists (cp_base_mint e), (cp_quote_mint e), p. do 4 (split; [by eauto|]).
      by destruct (psp_source_orientation p); injection Eo as <- <-.
    + apply normalize_pair_None in Ep. split; [done|by exists e].
  - unfold swap_buy_parts.
    pose proof (require_non_zero_spec (JE:=JErr) (be_base_amount_out e) (be_quote_amount_in e)) as Hz.
    destruct (require_non_zero_trade_amounts _ _); csimpl; [|by destruct Hz as [? ->]].
    eapply pool_parts_correct; try done. intros m []; simpl; eauto.
  - unfold swap_sell_parts.
    pose proof (require_non_zero_spec (JE:=JErr) (se_base_amount_in e) (se_quote_amount_out e)) as Hz.
    destruct (require_non_zero_trade_amounts _ _); csimpl; [|by destruct Hz as [? ->]].
    eapply pool_parts_correct; try done. intros m []; simpl; eauto.
  - eapply pool_parts_correct; try done; [by intros []|]. intros m []; simpl; eauto.
  - eapply pool_parts_correct; try done; [by intros []|]. intros m []; simpl; eauto.
Qed.

(** normalization fails for a stated reason only.  Over any registry the
    pipeline can build, an event is translated exactly when its JSON details
    serialize, its trade amounts are non-zero and its market resolves (a
    bonding curve it names itself, the registered curve of its mint with the
    same quote mint, the registered pool, or a new pool with exactly one
    supported quote mint); each error is reported only in its own case, and
    the lock and orientation errors never.  The observation then carries the
    event's coordinate and program, that market, and, for the two creation
    events only, the market as discovered. *)
Theorem normalize_outcome decoded n c t raw r :
  market_registry_reachable (JE:=JErr) r ->
  let e := dp_event decoded in
  match normalize_pump_event (J:=J) decoded n c t raw r with
  | Ok np =>
      let o := np_observation np in
      json_to_value e = Ok (source_details o) /\ ~ zero_trade e /\
      market_resolved n r e (market o) /\
      key o = {| ok_network := n; ok_program := pump_source_program (dp_program decoded);
                 coordinate := dp_coordinate decoded |} /\
      np_discovered_market np = (if creation_event e then Some (market o) else None)
  | Err err => error_justified n r e err
  end.
Proof.
  intros Hr%market_registry_reachable_ok e.
  pose proof (event_parts_correct n r e Hr) as Hp.
  destruct (normalize_pump_event decoded n c t raw r) as [np|err] eqn:E.
  - apply normalize_Ok in E as (j & Hj & Hd & Hk & _ & Hparts). fold e in Hj, Hparts.
    rewrite Hparts in Hp. destruct Hp as (Hm & Hz & Hdisc & _).
    subst j. done.
  - unfold normalize_pump_event in E. fold e in E. csimpl in E.
    destruct (json_to_value e) as [j|x] eqn:Ej; csimpl in E; [|by injection E as <-].
    destruct (event_parts n r e) as [[[[kind m] pay] disc]|err'] eqn:Ee; [done|].
    injection E as <-. done.
Qed.

(** no amount changes its mint.  Whatever the order in which a PumpSwap
    pool lists its two mints, the normalized observation books every amount
    and reserve of the event under the mint it is denominated in, token first
    and supported quote asset second, and calls a trade a buy exactly when the
    wallet received the token. *)
Theorem normalize_keeps_denominations decoded n c t raw r np f :
  market_registry_reachable (JE:=JErr) r ->
  normalize_pump_event (J:=J) decoded n c t raw r = Ok np ->
  source_flow (dp_event decoded) = Some f ->
  exists b q token quote g,
    source_mints r (dp_event decoded) b q /\
    mi_mint (market (np_observation np)) = token /\
    mi_quote_mint (market (np_observation np)) = Some quote /\
    payload_flow (payload (np_observation np)) = Some g /\
    booked g token quote ≡ₚ booked f b q /\
    received g token quote = received f b q /\ b <> q.
Proof.
  intros Hr%market_registry_reachable_ok (j & _ & _ & _ & _ & Hparts)%normalize_Ok Hf.
  pose proof (event_parts_correct n r (dp_event decoded) Hr) as Hp. rewrite Hparts in Hp.
  destruct Hp as (_ & _ & _ & Hflow).
  destruct (Hflow f Hf) as (b & q & p & Hmints & [n' Hpair] & Ht & Hq & Hpay).
  destruct (orient_flow_booked _ _ _ _ f Hpair) as [Hb Hrec].
  exists b, q, (psp_token_mint p), (psp_quote_mint p), (orient_flow (psp_source_orientation p) f).
  split_and!; try done. intros ->.
  assert (normalize_pump_swap_pair n' q q = None) by by apply normalize_pair_None. congruence.
Qed.
End Outcome.

(** ** A reversed pool *)
Module SampleNormalize.
#[local] Existing Instance Hexish.codec.
#[local] Instance sha : Sha256 := {| sha256_digest bs := take 2 bs |}.
#[local] Instance json : ToJson PumpEvent PumpEventKind :=
  {| JsonError := unit; json_to_value e := Ok (event_kind_of e) |}.

Definition registry : MarketRegistry :=
  match register_pump_swap_pool (JE:=unit) market_registry_default SolanaMainnet "pool"
          WRAPPED_SOL_MINT "token" with
  | Ok (_, r) => r
  | Err _ => market_registry_default
  end.

Lemma registry_reachable : market_registry_reachable (JE:=unit) registry.
Proof.
  eapply rtc_once, (step_register_pool _ SolanaMainnet "pool" WRAPPED_SOL_MINT "token").
  vm_compute. reflexivity.
Qed.

(** The source calls it a buy of 5 SOL units for 70 token units. *)
Definition buy : PumpSwapBuyEvent := {|
  be_timestamp := 100; be_base_amount_out := 5; be_max_quote_amount_in := 80;
  be_user_base_token_reserves := 0; be_user_quote_token_reserves := 0;
  be_pool_base_token_reserves := 1000; be_pool_quote_token_reserves := 9000;
  be_quote_amount_in := 70; be_lp_fee_basis_points := 0; be_lp_fee_amount := 0;
  be_protocol_fee_basis_points := 0; be_protocol_fee_amount := 0;
  be_quote_amount_in_with_lp_fee := 70; be_user_quote_amount_in := 70;
  be_pool := "pool"; be_user := "wallet"; be_user_base_token_account := "a";
  be_user_quote_token_account := "b"; be_protocol_fee_recipient := "c";
  be_protocol_fee_recipient_token_account := "d"; be_coin_creator := "e";
  be_coin_creator_fee_basis_points := 0; be_coin_creator_fee_amount := 0;
  be_track_volume := false; be_total_unclaimed_tokens := 0; be_total_claimed_tokens := 0;
  be_current_sol_volume := 0; be_last_update_timestamp := 0; be_min_base_amount_out := 1;
  be_instruction_name := "buy"; be_cashback_fee_basis_points := 0; be_cashback_amount := 0;
  be_buyback_fee_basis_points := 0; be_buyback_fee_amount := 0;
  be_virtual_quote_reserves := 0; be_can_boost := false; be_base_supply := 0 |}.

Definition decoded : DecodedPumpEvent := {|
  dp_program := PumpSwapP;
  dp_coordinate := {| slot := 7; transaction_index := None; signature := "sig";
                      instruction_index := 0; event_index := 0 |};
  dp_event := EvPumpSwapBuy buy |}.

Definition normalized := normalize_pump_event (J:=PumpEventKind) decoded SolanaMainnet
  Confirmed 123 [] registry.
End SampleNormalize.

Lemma normalize_outcome_witness :
  exists np, normalize_pump_event (B64:=Hexish.codec) (S256:=SampleNormalize.sha)
      (TJ:=SampleNormalize.json) SampleNormalize.decoded SolanaMainnet Confirmed 123 []
      SampleNormalize.registry = Ok np /\
    market_resolved SolanaMainnet SampleNormalize.registry
      (dp_event SampleNormalize.decoded) (market (np_observation np)) /\
    np_discovered_market np = None.
Proof.
  pose proof (normalize_outcome (B64:=Hexish.codec) (S256:=SampleNormalize.sha)
    (TJ:=SampleNormalize.json) SampleNormalize.decoded SolanaMainnet Confirmed 123 []
    SampleNormalize.registry SampleNormalize.registry_reachable) as H.
  destruct (normalize_pump_event _ _ _ _ _ _) as [np|err] eqn:E.
  - exists np. split; [reflexivity|]. destruct H as (_ & _ & Hm & _ & Hd). by split.
  - vm_compute in E. discriminate E.
Defined.

Lemma normalize_keeps_denominations_witness :
  exists np, normalize_pump_event (B64:=Hexish.codec) (S256:=SampleNormalize.sha)
      (TJ:=SampleNormalize.json) SampleNormalize.decoded SolanaMainnet Confirmed 123 []
      SampleNormalize.registry = Ok np /\
    payload (np_observation np) = Trade Sell "wallet" 70 5 (Some 9000) (Some 1000) /\
    exists (b q token quote : string) g,
      mi_mint (market (np_observation np)) = token /\
      mi_quote_mint (market (np_observation np)) = Some quote /\
      payload_flow (payload (np_observation np)) = Some g /\
      received g token quote = Some WRAPPED_SOL_MINT /\ b <> q.
Proof.
  destruct (normalize_pump_event _ _ _ _ _ _) as [np|err] eqn:E;
    [|vm_compute in E; discriminate E].
  destruct (normalize_keeps_denominations (B64:=Hexish.codec) (S256:=SampleNormalize.sha)
    (TJ:=SampleNormalize.json) SampleNormalize.decoded SolanaMainnet Confirmed 123 []
    SampleNormalize.registry np _ SampleNormalize.registry_reachable E eq_refl)
    as (b & q & token & quote & g & _ & Ht & Hq & Hg & _ & _ & Hne).
  vm_compute in E. injection E as <-. eexists. split; [reflexivity|]. split; [reflexivity|].
  exists b, q, token, quote, g. split_and!; try assumption.
  injection Hg as <-. injection Hq as <-. reflexivity.
Defined.
