(* ===== verification/Intake.v ===== *)
(** [apps/server/src/jobs/intake.rs]: what one PubSub log notification is worth.
    The log stack of a transaction is walked twice, once to attribute the
    program data to its top-level instruction and once to corroborate it with
    the silent event self-calls; the classification then records coverage gaps
    and admits activity to the open windows. *)
From S2P Require Import Prelude.
From S2P Require Import RustOrd.
From S2P Require Import BTree.
From S2P Require Import RustStr.
From S2P Require Import Decimal.
From S2P Require Import Domain.
From S2P Require Import External.
From S2P Require Import PumpModel.
From S2P Require Import BorshReader.
From S2P Require Import PumpDecoder.
From S2P Require Import WindowToken.
From S2P Require Import WindowRegistry.
From S2P Require Import RpcModel.
From S2P Require Import Normalization.

(** ** Log lines *)

(** [str::parse::<usize>()] on a 64-bit target. *)
Definition parse_usize (s : string) : option Z := parse_uint 64 s.

(** [u8::is_ascii_whitespace]. *)
Definition is_ascii_whitespace (a : Ascii.ascii) : bool :=
  let z := ascii_val a in (z =? 32) || (z =? 9) || (z =? 10) || (z =? 12) || (z =? 13).

Definition is_plausible_program_id (program_id : string) : bool :=
  negb (is_empty program_id) &&
  negb (existsb is_ascii_whitespace (String.list_ascii_of_string program_id)).

Definition is_log_truncation_marker (log : string) : bool :=
  String.eqb log "Log truncated" || starts_with "Log truncated: " log.

Definition parse_invoke (log : string) : option (string * Z) :=
  suffix ← strip_prefix "Program " log;
  '(program_id, depth) ← split_once " invoke [" suffix;
  if negb (is_plausible_program_id program_id) then None
  else
    digits ← strip_suffix "]" depth;
    depth ← parse_usize digits;
    Some (program_id, depth).

Definition parse_exit (log : string) : option (string * bool) :=
  suffix ← strip_prefix "Program " log;
  exit ← match strip_suffix " success" suffix with
         | Some program_id => Some (program_id, true)
         | None => (fun p => (p.1, false)) <$> split_once " failed:" suffix
         end;
  if is_plausible_program_id exit.1 then Some exit else None.

Definition is_compute_consumed_log (program_id log : string) : bool :=
  match suffix ← strip_prefix "Program " log; strip_prefix program_id suffix with
  | Some suffix => starts_with " consumed " suffix && ends_with " compute units" suffix
  | None => false
  end.

Definition notification_mentions_program (program_id : string) (logs : list string) : bool :=
  existsb (fun log => match parse_invoke log with
                      | Some (invoked, _) => String.eqb invoked program_id
                      | None => false
                      end) logs.

(** ** Scoping program data to instructions *)
Inductive LogScopeError :=
| ScopeEmptySignature
| TruncatedLogs
| InvalidInvocationDepth (depth : Z)
| UnexpectedProgramExit (program_id : string)
| UnclosedInvocations (depth : Z)
| TooManyInstructions (limit : Z)
| ScopeTooManyEvents (limit : Z).

Record ScopedProgramData := { sp_coordinate : ChainCoordinate; sp_log : string }.

(** The locals of [scope_program_data_logs]; the top of the stack comes first. *)
Record ScopeState := {
  sc_stack : list (string * Z);
  sc_next_instruction_index : Z;
  sc_event_indexes : btree Z Z;
  sc_scoped : list ScopedProgramData;
}.
Definition scope_init : ScopeState := {|
  sc_stack := []; sc_next_instruction_index := 0; sc_event_indexes := []; sc_scoped := [] |}.

Definition stack_depth {A} (stack : list A) : Z := Z.of_nat (length stack).

(** The depth check shared by both walks: [depth == 0 || depth != len + 1]. *)
Definition depth_is_invalid {A} (stack : list A) (depth : Z) : bool :=
  (depth =? 0) || negb (depth =? saturating_add_u 64 (stack_depth stack) 1).

Definition scope_invoke (st : ScopeState) (program : string) (depth : Z)
    : result LogScopeError ScopeState :=
  if depth_is_invalid (sc_stack st) depth then Err (InvalidInvocationDepth depth) else
  if depth =? 1 then
    next ← ok_or (checked_add_u 16 (sc_next_instruction_index st) 1) (TooManyInstructions u16_max);
    Ok {| sc_stack := (program, sc_next_instruction_index st) :: sc_stack st;
          sc_next_instruction_index := next;
          sc_event_indexes := sc_event_indexes st; sc_scoped := sc_scoped st |}
  else
    match sc_stack st with
    | [] => Err (InvalidInvocationDepth depth)
    | (_, instruction_index) :: _ =>
        Ok {| sc_stack := (program, instruction_index) :: sc_stack st;
              sc_next_instruction_index := sc_next_instruction_index st;
              sc_event_indexes := sc_event_indexes st; sc_scoped := sc_scoped st |}
    end.

Definition scope_exit (st : ScopeState) (exited : string) : result LogScopeError ScopeState :=
  match sc_stack st with
  | (active, _) :: below =>
      if String.eqb active exited then
        Ok {| sc_stack := below; sc_next_instruction_index := sc_next_instruction_index st;
              sc_event_indexes := sc_event_indexes st; sc_scoped := sc_scoped st |}
      else Err (UnexpectedProgramExit exited)
  | [] => Err (UnexpectedProgramExit exited)
  end.

(** Appends one program-data record to an instruction. *)
Definition scope_emit (slot_ : Z) (tx : option Z) (sig : string) (instruction : Z)
    (st : ScopeState) (log : string) : result LogScopeError ScopeState :=
  let event := default 0 (bt_get instruction (sc_event_indexes st)) in
  next ← ok_or (checked_add_u 16 event 1) (ScopeTooManyEvents u16_max);
  Ok {| sc_stack := sc_stack st; sc_next_instruction_index := sc_next_instruction_index st;
        sc_event_indexes := bt_insert instruction next (sc_event_indexes st);
        sc_scoped := sc_scoped st ++
          [{| sp_coordinate := {| slot := slot_; transaction_index := tx; signature := sig;
                                  instruction_index := instruction; event_index := event |};
              sp_log := log |}] |}.

Definition scope_step (program_id : string) (slot_ : Z) (tx : option Z) (sig : string)
    (st : ScopeState) (log : string) : result LogScopeError ScopeState :=
  if is_log_truncation_marker log then Err TruncatedLogs else
  match parse_invoke log with
  | Some (invoked, depth) => scope_invoke st invoked depth
  | None =>
      match parse_exit log with
      | Some (exited, _) => scope_exit st exited
      | None =>
          if negb (starts_with PROGRAM_DATA_PREFIX log) then Ok st else
          match sc_stack st with
          | [] => Ok st
          | (active, instruction) :: _ =>
              if negb (String.eqb active program_id) then Ok st
              else scope_emit slot_ tx sig instruction st log
          end
      end
  end.

Fixpoint scope_loop (program_id : string) (slot_ : Z) (tx : option Z) (sig : string)
    (st : ScopeState) (logs : list string) : result LogScopeError ScopeState :=
  match logs with
  | [] => Ok st
  | log :: rest =>
      st' ← scope_step program_id slot_ tx sig st log;
      scope_loop program_id slot_ tx sig st' rest
  end.

Definition scope_program_data_logs (program_id : string) (slot_ : Z) (tx : option Z)
    (sig : string) (logs : list string) : result LogScopeError (list ScopedProgramData) :=
  if is_empty (trim sig) then Err ScopeEmptySignature else
  st ← scope_loop program_id slot_ tx sig scope_init logs;
  match sc_stack st with
  | [] => Ok (sc_scoped st)
  | _ => Err (UnclosedInvocations (stack_depth (sc_stack st)))
  end.

(** ** Corroborating direct events with silent self-calls *)
Record DirectEventCoverage := { dc_eligible_events : Z; dc_invalid_event : bool }.
Definition direct_default : DirectEventCoverage :=
  {| dc_eligible_events := 0; dc_invalid_event := false |}.

Record SelfCpiCoverage := {
  cc_successful_event_calls : Z;
  cc_pending_direct_event : bool;
  cc_pairing_gap : bool;
}.
Definition cpi_default : SelfCpiCoverage :=
  {| cc_successful_event_calls := 0; cc_pending_direct_event := false; cc_pairing_gap := false |}.

Record InvocationFrame := {
  fr_program_id : string;
  fr_instruction_index : Z;
  fr_is_target_self_cpi : bool;
  fr_silent_candidate : bool;
  fr_candidate_for_pending_event : bool;
}.

(** The field updates of the walk. *)
Definition set_calls (n : Z) (c : SelfCpiCoverage) : SelfCpiCoverage :=
  {| cc_successful_event_calls := n; cc_pending_direct_event := cc_pending_direct_event c;
     cc_pairing_gap := cc_pairing_gap c |}.
Definition set_pending_direct (b : bool) (c : SelfCpiCoverage) : SelfCpiCoverage :=
  {| cc_successful_event_calls := cc_successful_event_calls c; cc_pending_direct_event := b;
     cc_pairing_gap := cc_pairing_gap c |}.
Definition set_gap (c : SelfCpiCoverage) : SelfCpiCoverage :=
  {| cc_successful_event_calls := cc_successful_event_calls c;
     cc_pending_direct_event := cc_pending_direct_event c; cc_pairing_gap := true |}.
Definition not_silent (f : InvocationFrame) : InvocationFrame :=
  {| fr_program_id := fr_program_id f; fr_instruction_index := fr_instruction_index f;
     fr_is_target_self_cpi := fr_is_target_self_cpi f; fr_silent_candidate := false;
     fr_candidate_for_pending_event := fr_candidate_for_pending_event f |}.

(** The locals of [successful_self_cpi_coverage]; the top of the stack first. *)
Record CoverageState := {
  cv_stack : list InvocationFrame;
  cv_next_instruction_index : Z;
  cv_coverage : btree Z SelfCpiCoverage;
}.
Definition coverage_init : CoverageState :=
  {| cv_stack := []; cv_next_instruction_index := 0; cv_coverage := [] |}.

(** [coverage.entry(i).or_default()]. *)
Definition cpi_entry (i : Z) (m : btree Z SelfCpiCoverage) : SelfCpiCoverage :=
  default cpi_default (bt_get i m).

(** A frame of the target program that is not itself a self-call: the frame
    whose direct events are to be corroborated. *)
Definition is_origin (program_id : string) (f : InvocationFrame) : bool :=
  String.eqb (fr_program_id f) program_id && negb (fr_is_target_self_cpi f).

(** [stack.last_mut()] of a self-call frame that turns out not to be silent. *)
Definition silence_parent (stack : list InvocationFrame) : list InvocationFrame :=
  match stack with
  | f :: below => (if fr_is_target_self_cpi f then not_silent f else f) :: below
  | [] => []
  end.

Definition coverage_invoke (program_id : string) (st : CoverageState) (invoked : string)
    (depth : Z) : result LogScopeError CoverageState :=
  let stack := cv_stack st in
  if depth_is_invalid stack depth then Err (InvalidInvocationDepth depth) else
  '(instruction, next) ←
    (if depth =? 1 then
       next ← ok_or (checked_add_u 16 (cv_next_instruction_index st) 1)
                (TooManyInstructions u16_max);
       Ok (cv_next_instruction_index st, next)
     else
       match stack with
       | [] => Err (InvalidInvocationDepth depth)
       | f :: _ => Ok (fr_instruction_index f, cv_next_instruction_index st)
       end);
  let self_cpi := String.eqb invoked program_id &&
    existsb (fun f => String.eqb (fr_program_id f) program_id) stack in
  let from_origin := match stack with f :: _ => is_origin program_id f | [] => false end in
  let candidate := from_origin && self_cpi &&
    match bt_get instruction (cv_coverage st) with
    | Some entry => cc_pending_direct_event entry
    | None => false
    end in
  let coverage :=
    if from_origin then
      let entry := cpi_entry instruction (cv_coverage st) in
      bt_insert instruction
        (if cc_pending_direct_event entry && negb candidate
         then set_pending_direct false (set_gap entry) else entry) (cv_coverage st)
    else cv_coverage st in
  Ok {| cv_stack := {| fr_program_id := invoked; fr_instruction_index := instruction;
                       fr_is_target_self_cpi := self_cpi; fr_silent_candidate := self_cpi;
                       fr_candidate_for_pending_event := candidate |} :: silence_parent stack;
        cv_next_instruction_index := next; cv_coverage := coverage |}.

(** What the exit of a frame does to its instruction. *)
Definition exit_coverage (program_id : string) (frame : InvocationFrame) (succeeded : bool)
    (entry : SelfCpiCoverage) : result LogScopeError SelfCpiCoverage :=
  if fr_is_target_self_cpi frame then
    if fr_candidate_for_pending_event frame then
      entry' ← (if succeeded && fr_silent_candidate frame && cc_pending_direct_event entry then
                  n ← ok_or (checked_add_u 16 (cc_successful_event_calls entry) 1)
                        (ScopeTooManyEvents u16_max);
                  Ok (set_calls n entry)
                else Ok (set_gap entry));
      Ok (set_pending_direct false entry')
    else if succeeded && fr_silent_candidate frame then Ok (set_gap entry)
    else Ok entry
  else if String.eqb (fr_program_id frame) program_id && cc_pending_direct_event entry
  then Ok (set_pending_direct false (set_gap entry))
  else Ok entry.

Definition coverage_exit (program_id : string) (st : CoverageState) (exited : string)
    (succeeded : bool) : result LogScopeError CoverageState :=
  match cv_stack st with
  | [] => Err (UnexpectedProgramExit exited)
  | frame :: below =>
      if negb (String.eqb (fr_program_id frame) exited) then Err (UnexpectedProgramExit exited)
      else
        let i := fr_instruction_index frame in
        entry ← exit_coverage program_id frame succeeded (cpi_entry i (cv_coverage st));
        Ok {| cv_stack := below; cv_next_instruction_index := cv_next_instruction_index st;
              cv_coverage := bt_insert i entry (cv_coverage st) |}
  end.

(** Any other line, in the frame on top of the stack. *)
Definition coverage_line (program_id : string) (st : CoverageState) (log : string)
    : CoverageState :=
  match cv_stack st with
  | [] => st
  | frame :: below =>
      let is_data := starts_with PROGRAM_DATA_PREFIX log in
      if fr_is_target_self_cpi frame then
        if negb is_data && is_compute_consumed_log (fr_program_id frame) log then st
        else {| cv_stack := not_silent frame :: below;
                cv_next_instruction_index := cv_next_instruction_index st;
                cv_coverage := cv_coverage st |}
      else if String.eqb (fr_program_id frame) program_id then
        let i := fr_instruction_index frame in
        let entry := cpi_entry i (cv_coverage st) in
        let entry' :=
          if is_data then
            set_pending_direct true (if cc_pending_direct_event entry then set_gap entry else entry)
          else if cc_pending_direct_event entry &&
                  negb (is_compute_consumed_log (fr_program_id frame) log)
          then set_pending_direct false (set_gap entry)
          else entry in
        {| cv_stack := cv_stack st; cv_next_instruction_index := cv_next_instruction_index st;
           cv_coverage := bt_insert i entry' (cv_coverage st) |}
      else st
  end.

Definition coverage_step (program_id : string) (st : CoverageState) (log : string)
    : result LogScopeError CoverageState :=
  if is_log_truncation_marker log then Err TruncatedLogs else
  match parse_invoke log with
  | Some (invoked, depth) => coverage_invoke program_id st invoked depth
  | None =>
      match parse_exit log with
      | Some (exited, succeeded) => coverage_exit program_id st exited succeeded
      | None => Ok (coverage_line program_id st log)
      end
  end.

Fixpoint coverage_loop (program_id : string) (st : CoverageState) (logs : list string)
    : result LogScopeError CoverageState :=
  match logs with
  | [] => Ok st
  | log :: rest => st' ← coverage_step program_id st log; coverage_loop program_id st' rest
  end.

Definition successful_self_cpi_coverage (program_id : string) (logs : list string)
    : result LogScopeError (btree Z SelfCpiCoverage) :=
  st ← coverage_loop program_id coverage_init logs;
  match cv_stack st with
  | [] => Ok (cv_coverage st)
  | _ => Err (UnclosedInvocations (stack_depth (cv_stack st)))
  end.

Definition event_cpi_coverage_is_incomplete (self_cpi : btree Z SelfCpiCoverage)
    (direct : btree Z DirectEventCoverage) : bool :=
  existsb (fun '(instruction, cpi) =>
    let d := default direct_default (bt_get instruction direct) in
    cc_pairing_gap cpi || cc_pending_direct_event cpi || dc_invalid_event d ||
    negb (cc_successful_event_calls cpi =? dc_eligible_events d)) self_cpi ||
  existsb (fun '(instruction, d) =>
    bool_decide (bt_get instruction self_cpi = None) &&
    (dc_invalid_event d || (dc_eligible_events d >? 0))) direct.

(** ** Events *)
Definition MAX_SOURCE_CLOCK_SKEW_ms : Z := 10000.
Definition PUMP_PROGRAMS : list PumpProgram := [PumpP; PumpSwapP].

Record DiscoverySeed := {
  seed_target : ObservationTarget;
  seed_mint : string;
  seed_source_event_time_unix_ms : Z;
}.

Definition is_discovery_event (e : PumpEvent) : bool :=
  match e with EvCreate _ | EvPumpSwapCreatePool _ => true | _ => false end.

Definition discovery_seed (e : PumpEvent) (network : Network) : option DiscoverySeed :=
  match e with
  | EvCreate e =>
      Some {| seed_target := PumpMint (ce_mint e); seed_mint := ce_mint e;
              seed_source_event_time_unix_ms := saturating_mul_s 64 (ce_timestamp e) 1000 |}
  | EvPumpSwapCreatePool e =>
      p ← normalize_pump_swap_pair network (cp_base_mint e) (cp_quote_mint e);
      Some {| seed_target := PumpSwapPool (cp_pool e); seed_mint := psp_token_mint p;
              seed_source_event_time_unix_ms := saturating_mul_s 64 (cp_timestamp e) 1000 |}
  | EvTrade _ | EvComplete _ | EvCompletePumpAmmMigration _ | EvPumpSwapBuy _ | EvPumpSwapSell _
  | EvPumpSwapDeposit _ | EvPumpSwapWithdraw _ => None
  end.

Definition discovery_event_is_fresh (e : PumpEvent) (now maximum_age_ms : Z) : bool :=
  if negb (is_discovery_event e) then false else
  match checked_mul_s 64 (event_timestamp e) 1000 with
  | None => false
  | Some event_ms =>
      let maximum_age := default i64_max (try_from_s 64 maximum_age_ms) in
      (saturating_sub_s 64 now maximum_age <=? event_ms) &&
      (event_ms <=? saturating_add_s 64 now MAX_SOURCE_CLOCK_SKEW_ms)
  end.

Definition event_tracking_target (e : PumpEvent) : option ObservationTarget :=
  match e with
  | EvTrade e => Some (PumpMint (te_mint e))
  | EvComplete e => Some (PumpMint (co_mint e))
  | EvCompletePumpAmmMigration e => Some (PumpMint (me_mint e))
  | EvPumpSwapBuy e => Some (PumpSwapPool (be_pool e))
  | EvPumpSwapSell e => Some (PumpSwapPool (se_pool e))
  | EvPumpSwapDeposit e => Some (PumpSwapPool (de_pool e))
  | EvPumpSwapWithdraw e => Some (PumpSwapPool (we_pool e))
  | EvCreate _ | EvPumpSwapCreatePool _ => None
  end.

Definition event_is_in_active_window (w : World) (e : PumpEvent) (at_ : Z) : bool :=
  match target ← event_tracking_target e; matching_token w target at_ with
  | Some _ => true
  | None => false
  end.

Definition event_matches_confirmed_window (w : World) (e : PumpEvent) (tokens : list Token)
    (at_ : Z) : bool :=
  match event_tracking_target e with
  | Some target =>
      existsb (fun t => bool_decide (tok_target t = target) && is_confirmed_at (heap w) t at_) tokens
  | None => false
  end.

(** ** Classification *)
Inductive IntakeDropReason := FailedTransaction | Irrelevant | MalformedLogs | StaleDiscovery.

Inductive NotificationDisposition :=
| FetchDiscovery (seeds : list DiscoverySeed) (tracked_windows : list Token)
| CollectTrackedActivity (tracked_windows : list Token)
| Drop (reason : IntakeDropReason).

Section Classify.
Context {B64 : Base64}.

(** The locals of the per-program loop over the scoped records. *)
Record DirectScan := {
  ds_coverage : btree Z DirectEventCoverage;
  ds_events : list DecodedPumpEvent;
  ds_decode_gap : bool;
}.

(** One scoped record: a known event, an ignored event of the pinned IDL, or a
    decode gap.  Scoping bounds the events of an instruction by [u16::MAX], so
    the source's [checked_add] cannot fail. *)
Definition scan_record (program : PumpProgram) (st : DirectScan) (r : ScopedProgramData)
    : DirectScan :=
  let i := instruction_index (sp_coordinate r) in
  let cov := default direct_default (bt_get i (ds_coverage st)) in
  let eligible := bt_insert i {| dc_eligible_events := dc_eligible_events cov + 1;
                                 dc_invalid_event := dc_invalid_event cov |} (ds_coverage st) in
  let invalid :=
    {| ds_coverage := bt_insert i {| dc_eligible_events := dc_eligible_events cov;
                                     dc_invalid_event := true |} (ds_coverage st);
       ds_events := ds_events st; ds_decode_gap := true |} in
  match decode_program_data_log (pump_program_id program) (sp_coordinate r) (sp_log r) with
  | Ok decoded =>
      {| ds_coverage := eligible; ds_events := ds_events st ++ [decoded];
         ds_decode_gap := ds_decode_gap st |}
  | Err (UnknownDiscriminator program' discriminator) =>
      if is_pinned_event_discriminator program' discriminator
      then {| ds_coverage := eligible; ds_events := ds_events st;
              ds_decode_gap := ds_decode_gap st |}
      else invalid
  | Err _ => invalid
  end.
Definition scan_records (program : PumpProgram) (records : list ScopedProgramData) : DirectScan :=
  fold_left (scan_record program) records
    {| ds_coverage := []; ds_events := []; ds_decode_gap := false |}.

(** The locals of [classify_notification] and the shared registry. *)
Record ClassifyState := {
  cl_discoveries : list DiscoverySeed;
  cl_tracked_windows : list Token;
  cl_stale_discovery : bool;
  cl_malformed : bool;
  cl_world : World;
}.

Definition with_gap (program : PumpProgram) (at_ : Z) (reason : WindowIncompleteReason)
    (malformed : bool) (st : ClassifyState) : ClassifyState := {|
  cl_discoveries := cl_discoveries st; cl_tracked_windows := cl_tracked_windows st;
  cl_stale_discovery := cl_stale_discovery st;
  cl_malformed := cl_malformed st || malformed;
  cl_world := (record_source_coverage_gap (cl_world st) (pump_source_program program) at_ reason).2 |}.

(** One decoded event: a discovery, or activity of a window. *)
Definition classify_event (network : Network) (maximum_age_ms at_ now : Z)
    (st : ClassifyState) (d : DecodedPumpEvent) : ClassifyState :=
  match discovery_seed (dp_event d) network with
  | Some seed =>
      if discovery_event_is_fresh (dp_event d) now maximum_age_ms then
        if existsb (fun s => bool_decide (seed_target s = seed_target seed)) (cl_discoveries st)
        then st
        else {| cl_discoveries := cl_discoveries st ++ [seed];
                cl_tracked_windows := cl_tracked_windows st;
                cl_stale_discovery := cl_stale_discovery st;
                cl_malformed := cl_malformed st; cl_world := cl_world st |}
      else {| cl_discoveries := cl_discoveries st; cl_tracked_windows := cl_tracked_windows st;
              cl_stale_discovery := true;
              cl_malformed := cl_malformed st; cl_world := cl_world st |}
  | None =>
      match event_tracking_target (dp_event d) with
      | None => st
      | Some target =>
          if existsb (fun t => bool_decide (tok_target t = target)) (cl_tracked_windows st)
          then st
          else
            let '(admitted, w) := admit_matching_token (cl_world st) target at_ in
            {| cl_discoveries := cl_discoveries st;
               cl_tracked_windows := cl_tracked_windows st ++
                 match admitted with Some t => [t] | None => [] end;
               cl_stale_discovery := cl_stale_discovery st;
               cl_malformed := cl_malformed st; cl_world := w |}
      end
  end.

Definition classify_program (n : ProgramLogNotification) (network : Network)
    (maximum_age_ms at_ now : Z) (st : ClassifyState) (program : PumpProgram) : ClassifyState :=
  let program_id := pump_program_id program in
  if negb (notification_mentions_program program_id (nt_log_messages n)) then st else
  match successful_self_cpi_coverage program_id (nt_log_messages n) with
  | Err _ => with_gap program at_ DecodeGap true st
  | Ok self_cpi =>
      match scope_program_data_logs program_id (nt_slot n) None (nt_signature n)
              (nt_log_messages n) with
      | Err _ => with_gap program at_ DecodeGap true st
      | Ok scoped =>
          let scan := scan_records program scoped in
          let st :=
            if ds_decode_gap scan then with_gap program at_ DecodeGap true st
            else if event_cpi_coverage_is_incomplete self_cpi (ds_coverage scan)
            then with_gap program at_ CpiInstructionDataUnavailable false st
            else st in
          fold_left (classify_event network maximum_age_ms at_ now) (ds_events scan) st
      end
  end.

Definition disposition_of (st : ClassifyState) : NotificationDisposition :=
  match cl_discoveries st, cl_tracked_windows st with
  | _ :: _, tracked => FetchDiscovery (cl_discoveries st) tracked
  | [], _ :: _ => CollectTrackedActivity (cl_tracked_windows st)
  | [], [] =>
      if cl_stale_discovery st then Drop StaleDiscovery
      else if cl_malformed st then Drop MalformedLogs
      else Drop Irrelevant
  end.

Definition classify_notification (w : World) (n : ProgramLogNotification) (network : Network)
    (maximum_discovery_age_ms observed_at now : Z) : NotificationDisposition * World :=
  if negb (notification_succeeded n) then (Drop FailedTransaction, w) else
  let st := fold_left (classify_program n network maximum_discovery_age_ms observed_at now)
    PUMP_PROGRAMS
    {| cl_discoveries := []; cl_tracked_windows := []; cl_stale_discovery := false;
       cl_malformed := false; cl_world := w |} in
  (disposition_of st, cl_world st).
End Classify.
