(* ===== verification/IntakeScope.v ===== *)
(** The log walk of [scope_program_data_logs] against a grammar of execution
    logs: a transaction is a sequence of instructions, an instruction a nest of
    properly closed invocations. *)
From S2P Require Import Prelude.
From S2P Require Import RustOrd.
From S2P Require Import BTree.
From S2P Require Import RustStr.
From S2P Require Import Domain.
From S2P Require Import PumpDecoder.
From S2P Require Import RpcModel.
From S2P Require Import Intake.

(** ** The grammar *)
Definition invoke_log (log program : string) (depth : Z) : Prop :=
  is_log_truncation_marker log = false /\ parse_invoke log = Some (program, depth).
Definition exit_log (log program : string) (succeeded : bool) : Prop :=
  is_log_truncation_marker log = false /\ parse_invoke log = None /\
  parse_exit log = Some (program, succeeded).
Definition plain_log (log : string) : Prop :=
  is_log_truncation_marker log = false /\ parse_invoke log = None /\ parse_exit log = None.

(** The program data of one line in a frame of program [active]. *)
Definition data_of (program_id active log : string) : list string :=
  if starts_with PROGRAM_DATA_PREFIX log && String.eqb active program_id then [log] else [].

(** The lines inside a frame of [active] at a depth, with the program data
    [program_id] emitted there, nested frames included. *)
Inductive frame_body (program_id : string) : Z -> string -> list string -> list string -> Prop :=
| body_nil depth active : frame_body program_id depth active [] []
| body_line depth active log rest ds :
    plain_log log -> frame_body program_id depth active rest ds ->
    frame_body program_id depth active (log :: rest) (data_of program_id active log ++ ds)
| body_call depth active inv callee inner ex ok rest ds1 ds2 :
    invoke_log inv callee (depth + 1) ->
    frame_body program_id (depth + 1) callee inner ds1 ->
    exit_log ex callee ok ->
    frame_body program_id depth active rest ds2 ->
    frame_body program_id depth active (inv :: inner ++ ex :: rest) (ds1 ++ ds2).

(** The top-level instructions of a transaction, with their program data. *)
Inductive transaction (program_id : string) : list string -> list (list string) -> Prop :=
| tx_nil : transaction program_id [] []
| tx_line log rest instructions :
    plain_log log -> transaction program_id rest instructions ->
    transaction program_id (log :: rest) instructions
| tx_instruction inv program inner ex ok rest ds instructions :
    invoke_log inv program 1 ->
    frame_body program_id 1 program inner ds ->
    exit_log ex program ok ->
    transaction program_id rest instructions ->
    transaction program_id (inv :: inner ++ ex :: rest) (ds :: instructions).

Section Scope.
Context (program_id : string) (slot_ : Z) (tx : option Z) (sig : string).
Implicit Types (st : ScopeState) (logs ds : list string).
Abbreviation step := (scope_step program_id slot_ tx sig).
Abbreviation loop := (scope_loop program_id slot_ tx sig).
Abbreviation emit := (scope_emit slot_ tx sig).

Definition with_stack (s : list (string * Z)) st : ScopeState := {|
  sc_stack := s; sc_next_instruction_index := sc_next_instruction_index st;
  sc_event_indexes := sc_event_indexes st; sc_scoped := sc_scoped st |}.
Definition with_next (n : Z) st : ScopeState := {|
  sc_stack := sc_stack st; sc_next_instruction_index := n;
  sc_event_indexes := sc_event_indexes st; sc_scoped := sc_scoped st |}.

Fixpoint emit_all (i : Z) st ds : result LogScopeError ScopeState :=
  match ds with
  | [] => Ok st
  | d :: ds => st' ← emit i st d; emit_all i st' ds
  end.

Lemma loop_app st l1 l2 : loop st (l1 ++ l2) = loop st l1 ≫= fun st' => loop st' l2.
Proof.
  revert st. induction l1 as [|log l1 IH]; intros st; [done|]. simpl.
  destruct (step st log); simpl; [apply IH|done].
Qed.

Lemma emit_all_app i st l1 l2 :
  emit_all i st (l1 ++ l2) = emit_all i st l1 ≫= fun st' => emit_all i st' l2.
Proof.
  revert st. induction l1 as [|log l1 IH]; intros st; [done|]. simpl.
  destruct (emit i st log); simpl; [apply IH|done].
Qed.

Lemma emit_all_with_stack s i st ds :
  emit_all i (with_stack s st) ds = with_stack s <$> emit_all i st ds.
Proof.
  revert st. induction ds as [|d ds IH]; intros st; [done|]. simpl.
  assert (emit i (with_stack s st) d = with_stack s <$> emit i st d) as ->.
  { unfold scope_emit; simpl. by destruct (checked_add_u 16 _ 1). }
  destruct (emit i st d); simpl; [apply IH|done].
Qed.

Lemma emit_all_stack i st ds st' :
  emit_all i st ds = Ok st' ->
  sc_stack st' = sc_stack st /\ sc_next_instruction_index st' = sc_next_instruction_index st.
Proof.
  revert st. induction ds as [|d ds IH]; intros st; simpl; [by intros [= <-]|].
  intros (st1 & H1 & H2)%bind_Ok. apply IH in H2 as [-> ->].
  unfold scope_emit in H1. apply bind_Ok in H1 as (next & _ & [= <-]). done.
Qed.

(** ** One line *)
Lemma step_plain st log :
  plain_log log ->
  step st log = match sc_stack st with
                | [] => Ok st
                | (active, i) :: _ => emit_all i st (data_of program_id active log)
                end.
Proof.
  intros (Ht & Hi & He). unfold scope_step, data_of. rewrite Ht, Hi, He.
  destruct (starts_with _ log); simpl; [|by destruct (sc_stack st) as [|[]]].
  destruct (sc_stack st) as [|[active i] below]; [done|].
  destruct (String.eqb active program_id); simpl; [|done]. by destruct (emit i st log).
Qed.

Lemma step_exit st log program ok i below :
  exit_log log program ok -> sc_stack st = (program, i) :: below ->
  step st log = Ok (with_stack below st).
Proof.
  intros (Ht & Hi & He) Hs. unfold scope_step, scope_exit. rewrite Ht, Hi, He, Hs.
  by rewrite String.eqb_refl.
Qed.

Lemma depth_valid {A} (stack : list A) :
  stack_depth stack + 1 <= u64_max -> depth_is_invalid stack (stack_depth stack + 1) = false.
Proof.
  intros H. unfold depth_is_invalid, saturating_add_u. rewrite Z.min_l by lia.
  rewrite Z.eqb_refl. simpl. rewrite orb_false_r. apply Z.eqb_neq. unfold stack_depth. lia.
Qed.

Lemma depth_valid_inv {A} (stack : list A) depth :
  stack_depth stack + 1 <= u64_max -> depth_is_invalid stack depth = false ->
  depth = stack_depth stack + 1.
Proof.
  intros H. unfold depth_is_invalid, saturating_add_u. rewrite Z.min_l by lia.
  intros [_ Hd]%orb_false_iff. by apply negb_false_iff, Z.eqb_eq in Hd.
Qed.

Lemma step_call st log callee active i below :
  sc_stack st = (active, i) :: below -> stack_depth (sc_stack st) + 1 <= u64_max ->
  invoke_log log callee (stack_depth (sc_stack st) + 1) ->
  step st log = Ok (with_stack ((callee, i) :: sc_stack st) st).
Proof.
  intros Hs Hd (Ht & Hi). unfold scope_step, scope_invoke. rewrite Ht, Hi, depth_valid by done.
  rewrite Hs. destruct (Z.eqb_spec (stack_depth ((active, i) :: below) + 1) 1) as [H1|_].
  - unfold stack_depth in H1. simpl in H1. lia.
  - done.
Qed.

Lemma step_instruction st log program :
  sc_stack st = [] -> invoke_log log program 1 ->
  step st log =
    next ← ok_or (checked_add_u 16 (sc_next_instruction_index st) 1) (TooManyInstructions u16_max);
    Ok (with_stack [(program, sc_next_instruction_index st)] (with_next next st)).
Proof.
  intros Hs (Ht & Hi). unfold scope_step, scope_invoke. rewrite Ht, Hi, Hs.
  change (depth_is_invalid [] 1) with false. done.
Qed.

(** ** Frames *)
Lemma with_stack_self st : with_stack (sc_stack st) st = st.
Proof. by destruct st. Qed.

Lemma frame_body_run depth active body ds :
  frame_body program_id depth active body ds -> forall st i below,
  sc_stack st = (active, i) :: below -> depth = stack_depth (sc_stack st) ->
  depth + Z.of_nat (length body) <= u64_max ->
  loop st body = emit_all i st ds.
Proof.
  induction 1 as [depth active|depth active log rest ds Hlog _ IH
    |depth active inv callee inner ex ok rest ds1 ds2 Hinv _ IHin Hex _ IHrest];
    intros st i below Hs Hd Hlen; [done| |].
  - cbn [length] in Hlen. simpl. rewrite (step_plain _ _ Hlog), Hs, emit_all_app.
    destruct (emit_all i st (data_of program_id active log)) as [st'|] eqn:E; csimpl; [|done].
    apply emit_all_stack in E as [Es _]. apply (IH st' i below); [by rewrite Es|by rewrite Es|lia].
  - cbn [length] in Hlen. rewrite length_app in Hlen. cbn [length] in Hlen. subst depth.
    simpl. erewrite step_call by (done || lia). simpl. rewrite loop_app.
    rewrite (IHin _ i (sc_stack st)); [|done| |].
    2:{ unfold stack_depth. simpl. lia. }
    2:{ lia. }
    rewrite emit_all_with_stack, emit_all_app.
    destruct (emit_all i st ds1) as [st'|] eqn:E; csimpl; [|done].
    erewrite step_exit by done. csimpl. apply emit_all_stack in E as [Es _].
    rewrite <- Es. change (with_stack (sc_stack st') (with_stack _ st')) with (with_stack (sc_stack st') st').
    rewrite with_stack_self. apply (IHrest _ _ below); [by rewrite Es|by rewrite Es|lia].
Qed.

(** A successful walk that closes its frames splits at the exit of the top
    frame. *)
Lemma frame_body_exists n logs st active i below final :
  (length logs <= n)%nat -> sc_stack st = (active, i) :: below ->
  stack_depth (sc_stack st) + Z.of_nat (length logs) <= u64_max ->
  loop st logs = Ok final -> sc_stack final = [] ->
  exists body ex ok rest ds st', logs = body ++ ex :: rest /\
    frame_body program_id (stack_depth (sc_stack st)) active body ds /\
    exit_log ex active ok /\ emit_all i st ds = Ok st' /\
    loop (with_stack below st') rest = Ok final.
Proof.
  revert logs st active i below. induction n as [|n IH]; intros logs st active i below Hn Hs Hd;
    (destruct logs as [|log logs]; [simpl; intros [= <-]; by rewrite Hs|]); cbn [length] in Hn, Hd; [lia|].
  intros Hloop Hfin. simpl in Hloop. apply bind_Ok in Hloop as (st1 & Hstep & Hloop).
  unfold scope_step in Hstep. destruct (is_log_truncation_marker log) eqn:Ht; [done|].
  destruct (parse_invoke log) as [[callee depth]|] eqn:Hi.
  - assert (depth = stack_depth (sc_stack st) + 1) as ->.
    { unfold scope_invoke in Hstep. destruct (depth_is_invalid _ depth) eqn:E; [done|].
      apply depth_valid_inv in E; [done|lia]. }
    assert (Ok st1 = Ok (E:=LogScopeError) (with_stack ((callee, i) :: sc_stack st) st)) as [= ->].
    { rewrite <- Hstep. rewrite <- (step_call st log callee active i below) by (done || lia).
      unfold scope_step. by rewrite Ht, Hi. }
    apply IH with (active := callee) (i := i) (below := sc_stack st) in Hloop
      as (b1 & ex1 & ok1 & r1 & ds1 & st1 & -> & Hb1 & Hex1 & He1 & Hr1);
      [|lia|done|unfold stack_depth in *; simpl in *; lia|done].
    rewrite emit_all_with_stack in He1.
    destruct (emit_all i st ds1) as [st2|] eqn:E2; [|done]. injection He1 as <-.
    pose proof (emit_all_stack _ _ _ _ E2) as [Es2 _].
    change (with_stack (sc_stack st) (with_stack _ st2)) with (with_stack (sc_stack st) st2) in Hr1.
    rewrite <- Es2, with_stack_self in Hr1. rewrite length_app in Hn, Hd. cbn [length] in Hn, Hd.
    apply IH with (active := active) (i := i) (below := below) in Hr1
      as (b2 & ex2 & ok2 & r2 & ds2 & st3 & -> & Hb2 & Hex2 & He2 & Hr2);
      [|lia|by rewrite Es2|rewrite Es2; lia|done].
    exists (log :: b1 ++ ex1 :: b2), ex2, ok2, r2, (ds1 ++ ds2), st3. split_and!; try done.
    + simpl. by rewrite <- app_assoc.
    + rewrite Es2 in Hb2. eapply body_call; try done.
      unfold stack_depth in *. simpl in Hb1.
      by replace (Z.of_nat (length (sc_stack st)) + 1) with (Z.of_nat (S (length (sc_stack st)))) by lia.
    + rewrite emit_all_app, E2. done.
  - destruct (parse_exit log) as [[exited ok]|] eqn:He.
    + unfold scope_exit in Hstep. rewrite Hs in Hstep.
      destruct (String.eqb_spec active exited) as [<-|]; [|done]. injection Hstep as <-.
      exists [], log, ok, logs, [], st. split_and!; try done. apply body_nil.
    + assert (Ok st1 = emit_all i st (data_of program_id active log)) as Hemit.
      { transitivity (step st log); [|by rewrite (step_plain st log) by done; rewrite Hs].
        rewrite <- Hstep. unfold scope_step. by rewrite Ht, Hi, He. }
      symmetry in Hemit. pose proof (emit_all_stack _ _ _ _ Hemit) as [Es1 _].
      apply IH with (active := active) (i := i) (below := below) in Hloop
        as (b & ex & ok & r & ds & st' & -> & Hb & Hex & Hemit' & Hr);
        [|lia|by rewrite Es1|rewrite Es1; lia|done].
      exists (log :: b), ex, ok, r, (data_of program_id active log ++ ds), st'. split_and!; try done.
      * rewrite Es1 in Hb. by apply body_line.
      * by rewrite emit_all_app, Hemit.
Qed.

(** ** Instructions *)
Fixpoint run_instructions st (instructions : list (list string))
    : result LogScopeError ScopeState :=
  match instructions with
  | [] => Ok st
  | ds :: rest =>
      next ← ok_or (checked_add_u 16 (sc_next_instruction_index st) 1) (TooManyInstructions u16_max);
      st' ← emit_all (sc_next_instruction_index st) (with_next next st) ds;
      run_instructions st' rest
  end.

Lemma run_instructions_stack st instructions st' :
  run_instructions st instructions = Ok st' -> sc_stack st' = sc_stack st.
Proof.
  revert st. induction instructions as [|ds ins IH]; intros st; simpl; [by intros [= <-]|].
  intros (next & _ & (st1 & H1%emit_all_stack & H2)%bind_Ok)%bind_Ok.
  apply IH in H2 as ->. apply H1.
Qed.

Lemma transaction_run logs instructions :
  transaction program_id logs instructions -> forall st,
  sc_stack st = [] -> Z.of_nat (length logs) <= u64_max ->
  loop st logs = run_instructions st instructions.
Proof.
  induction 1 as [|log rest ins Hlog _ IH|inv program inner ex ok rest ds ins Hinv Hin Hex _ IH];
    intros st Hs Hlen; [done| |].
  - cbn [length] in Hlen. simpl. rewrite (step_plain _ _ Hlog), Hs. csimpl. apply IH; [done|lia].
  - cbn [length] in Hlen. rewrite length_app in Hlen. cbn [length] in Hlen.
    simpl. rewrite (step_instruction _ _ program) by done.
    destruct (checked_add_u 16 _ 1) as [next|]; csimpl; [|done].
    rewrite loop_app. erewrite (frame_body_run _ _ _ _ Hin) by (done || (simpl; lia)).
    rewrite emit_all_with_stack.
    destruct (emit_all _ (with_next next st) ds) as [st'|] eqn:E; csimpl; [|done].
    erewrite step_exit by done. csimpl. apply emit_all_stack in E as [Es _]. simpl in Es.
    change (with_stack [] (with_stack _ st')) with (with_stack [] st').
    rewrite <- Hs, <- Es, with_stack_self. apply IH; [congruence|lia].
Qed.

Lemma transaction_exists n logs st final :
  (length logs <= n)%nat -> sc_stack st = [] -> Z.of_nat (length logs) <= u64_max ->
  loop st logs = Ok final -> sc_stack final = [] ->
  exists instructions, transaction program_id logs instructions.
Proof.
  revert logs st. induction n as [|n IH]; intros [|log logs] st Hn Hs Hlen Hloop Hfin;
    cbn [length] in Hn, Hlen; try lia; try (exists []; apply tx_nil).
  simpl in Hloop. apply bind_Ok in Hloop as (st1 & Hstep & Hloop).
  pose proof Hstep as Hstep0. unfold scope_step in Hstep.
  destruct (is_log_truncation_marker log) eqn:Ht; [done|].
  destruct (parse_invoke log) as [[program depth]|] eqn:Hi.
  - assert (depth = 1) as ->.
    { unfold scope_invoke in Hstep. destruct (depth_is_invalid _ depth) eqn:E; [done|].
      rewrite Hs in E. apply depth_valid_inv in E; [done|unfold stack_depth; simpl; int_lia]. }
    rewrite (step_instruction _ _ program) in Hstep0 by done.
    apply bind_Ok in Hstep0 as (next & _ & [= <-]).
    eapply (frame_body_exists (length logs)) in Hloop
      as (b & ex & ok & r & ds & st' & -> & Hb & Hex & He & Hr);
      [|done|done|unfold stack_depth; simpl; lia|done].
    rewrite length_app in Hn, Hlen. cbn [length] in Hn, Hlen.
    apply IH in Hr as [ins His]; [|lia|done|lia|done].
    exists (ds :: ins). by eapply tx_instruction.
  - destruct (parse_exit log) as [[exited ok]|] eqn:He.
    + unfold scope_exit in Hstep. by rewrite Hs in Hstep.
    + rewrite (step_plain st log), Hs in Hstep0 by done. injection Hstep0 as <-.
      apply IH in Hloop as [ins His]; [|lia|done|lia|done]. exists ins. by apply tx_line.
Qed.

(** ** The records *)
Definition scoped_record (i j : Z) (log : string) : ScopedProgramData :=
  {| sp_coordinate := {| slot := slot_; transaction_index := tx; signature := sig;
                         instruction_index := i; event_index := j |};
     sp_log := log |}.
Definition records_from (k : nat) (i : Z) ds : list ScopedProgramData :=
  imap (fun j log => scoped_record i (Z.of_nat (k + j)) log) ds.
Definition indexed_records (i : nat) (instructions : list (list string)) : list ScopedProgramData :=
  concat (imap (fun k ds => records_from 0 (Z.of_nat (i + k)) ds) instructions).

Lemma records_from_cons k i d ds :
  records_from k i (d :: ds) = scoped_record i (Z.of_nat k) d :: records_from (S k) i ds.
Proof.
  unfold records_from. rewrite imap_cons, Nat.add_0_r. f_equal. apply imap_ext.
  intros j x _. simpl. do 2 f_equal. lia.
Qed.

Lemma emit_all_records i ds k st :
  default 0 (bt_get i (sc_event_indexes st)) = Z.of_nat k ->
  match emit_all i st ds with
  | Ok st' => (ds <> [] -> Z.of_nat (k + length ds) <= 65535) /\
      sc_scoped st' = sc_scoped st ++ records_from k i ds /\
      forall j, j <> i -> bt_get j (sc_event_indexes st') = bt_get j (sc_event_indexes st)
  | Err _ => 65535 < Z.of_nat (k + length ds)
  end.
Proof.
  revert k st. induction ds as [|d ds IH]; intros k st Hk; simpl.
  { by rewrite app_nil_r. }
  unfold scope_emit. rewrite Hk. destruct (checked_add_u 16 (Z.of_nat k) 1) as [next|] eqn:E; csimpl.
  - apply checked_add_u_Some in E as [-> Hle]. change u16_max with 65535 in Hle.
    specialize (IH (S k) {| sc_stack := sc_stack st;
      sc_next_instruction_index := sc_next_instruction_index st;
      sc_event_indexes := bt_insert i (Z.of_nat k + 1) (sc_event_indexes st);
      sc_scoped := sc_scoped st ++ [scoped_record i (Z.of_nat k) d] |}).
    simpl in IH. rewrite bt_get_insert_eq in IH. specialize (IH ltac:(simpl; lia)).
    fold (scoped_record i (Z.of_nat k) d).
    destruct (emit_all i _ ds) as [st'|]; [|lia].
    destruct IH as (Hlen & -> & Hget). split_and!.
    + intros _. destruct ds; [simpl; lia|]. specialize (Hlen ltac:(done)). simpl in *. lia.
    + rewrite records_from_cons, <- app_assoc. done.
    + intros j Hj. rewrite Hget, bt_get_insert_ne by done. done.
  - apply checked_add_u_None in E. change u16_max with 65535 in E. lia.
Qed.

Definition bounded_instructions (instructions : list (list string)) : Prop :=
  Z.of_nat (length instructions) <= 65535 /\
  Forall (fun ds => Z.of_nat (length ds) <= 65535) instructions.

Lemma run_instructions_records ins i st :
  sc_next_instruction_index st = Z.of_nat i ->
  (forall j, Z.of_nat i <= j -> bt_get j (sc_event_indexes st) = None) ->
  match run_instructions st ins with
  | Ok st' => (ins <> [] -> Z.of_nat (i + length ins) <= 65535) /\
      Forall (fun ds => Z.of_nat (length ds) <= 65535) ins /\
      sc_scoped st' = sc_scoped st ++ indexed_records i ins
  | Err _ => 65535 < Z.of_nat (i + length ins) \/
      ~ Forall (fun ds => Z.of_nat (length ds) <= 65535) ins
  end.
Proof.
  revert i st. induction ins as [|ds ins IH]; intros i st Hi Hnone; simpl.
  { split_and!; [done|constructor|by rewrite app_nil_r]. }
  rewrite Hi. destruct (checked_add_u 16 (Z.of_nat i) 1) as [next|] eqn:E; csimpl.
  2:{ apply checked_add_u_None in E. change u16_max with 65535 in E. left. lia. }
  apply checked_add_u_Some in E as [-> Hle]. change u16_max with 65535 in Hle.
  pose proof (emit_all_records (Z.of_nat i) ds 0 (with_next (Z.of_nat i + 1) st)) as Hemit.
  simpl in Hemit. rewrite Hnone in Hemit by lia. specialize (Hemit eq_refl).
  destruct (emit_all _ _ ds) as [st'|] eqn:Eemit; csimpl.
  2:{ right. rewrite Forall_cons. lia. }
  destruct Hemit as (Hlen & Hsc & Hget). apply emit_all_stack in Eemit as [_ Hnext].
  specialize (IH (S i) st'). rewrite Hnext in IH. simpl in IH. specialize (IH ltac:(lia)).
  destruct (run_instructions st' ins) as [st2|].
  - destruct IH as (H1 & H2 & ->).
    { intros j Hj. rewrite Hget by lia. apply Hnone. lia. }
    split_and!.
    + intros _. destruct ins; [simpl; lia|]. specialize (H1 ltac:(done)). simpl in *. lia.
    + constructor; [|done]. destruct ds; [simpl; lia|]. apply Hlen. done.
    + rewrite Hsc, <- app_assoc. f_equal. unfold indexed_records. rewrite imap_cons. simpl.
      rewrite Nat.add_0_r. f_equal. f_equal. apply imap_ext. intros k x _. simpl. f_equal. lia.
  - destruct IH as [H|H].
    { intros j Hj. rewrite Hget by lia. apply Hnone. lia. }
    + left. lia.
    + right. rewrite Forall_cons. tauto.
Qed.

Lemma scope_spec logs scoped :
  Z.of_nat (length logs) <= u64_max ->
  scope_program_data_logs program_id slot_ tx sig logs = Ok scoped <->
  is_blank sig = false /\
  exists instructions, transaction program_id logs instructions /\
    bounded_instructions instructions /\ scoped = indexed_records 0 instructions.
Proof.
  intros Hlen. unfold scope_program_data_logs, is_blank.
  destruct (is_empty (trim sig)); [naive_solver|].
  assert (forall ins, transaction program_id logs ins -> loop scope_init logs = run_instructions scope_init ins)
    as Hrun by (intros ins His; by apply transaction_run).
  split.
  - intros (st & Hloop & Hst)%bind_Ok. destruct (sc_stack st) eqn:Es; [|done]. injection Hst as <-.
    split; [done|].
    destruct (transaction_exists (length logs) logs scope_init st) as [ins His]; try done.
    exists ins. split; [done|]. rewrite (Hrun _ His) in Hloop.
    pose proof (run_instructions_records ins 0 scope_init eq_refl ltac:(done)) as H.
    rewrite Hloop in H. destruct H as (H1 & H2 & H3). split; [|done].
    split; [|done]. destruct ins; [done|]. by apply H1.
  - intros (_ & ins & His & [Hb1 Hb2] & ->). rewrite (Hrun _ His).
    pose proof (run_instructions_records ins 0 scope_init eq_refl ltac:(done)) as H.
    destruct (run_instructions scope_init ins) as [st|] eqn:E.
    + csimpl. destruct H as (_ & _ & H3).
      by rewrite (run_instructions_stack _ _ _ E), H3.
    + simpl in H. destruct H; [lia|done].
Qed.

(** C30: program data is attributed by the structure of the execution log.  The
    walk succeeds exactly on logs that parse as a transaction (every line
    classified, every invocation at the right depth and closed by its own
    program, none truncated) within the index bounds; its result is then, for
    each top-level instruction in order, one record per program-data line that
    the target program emitted in it, at any depth, with consecutive event
    indices from zero. *)
Theorem scope_logs_iff_transaction logs scoped :
  Z.of_nat (length logs) <= u64_max ->
  scope_program_data_logs program_id slot_ tx sig logs = Ok scoped <->
  is_blank sig = false /\
  exists instructions, transaction program_id logs instructions /\
    bounded_instructions instructions /\ scoped = indexed_records 0 instructions.
Proof. apply scope_spec. Qed.
End Scope.
