(* ===== verification/IntakeCoverage.v ===== *)
(** The corroboration walk of [successful_self_cpi_coverage]: evidence it calls
    complete really pairs every direct event with one silent self-call, in
    order, inside each instruction. *)
From S2P Require Import Prelude.
From S2P Require Import RustOrd.
From S2P Require Import BTree.
From S2P Require Import RustStr.
From S2P Require Import PumpDecoder.
From S2P Require Import RpcModel.
From S2P Require Import Intake.
From S2P Require Import IntakeScope.

(** ** The grammar of complete evidence *)

(** A line the runtime adds, which does not disturb a pair. *)
Definition filler_log (program_id log : string) : Prop :=
  plain_log log /\ starts_with PROGRAM_DATA_PREFIX log = false /\
  is_compute_consumed_log program_id log = true.
Definition silent_body (program_id : string) (body : list string) : Prop :=
  Forall (filler_log program_id) body.

(** Below a frame of the program: no silent self-call succeeds. *)
Inductive quiet_body (program_id : string) : Z -> list string -> Prop :=
| quiet_nil depth : quiet_body program_id depth []
| quiet_line depth log rest :
    plain_log log -> quiet_body program_id depth rest -> quiet_body program_id depth (log :: rest)
| quiet_call depth inv callee inner ex ok rest :
    invoke_log inv callee (depth + 1) -> quiet_body program_id (depth + 1) inner ->
    exit_log ex callee ok ->
    (callee = program_id -> ok = true -> ~ silent_body program_id inner) ->
    quiet_body program_id depth rest ->
    quiet_body program_id depth (inv :: inner ++ ex :: rest).

(** In a frame of the program: each direct event is followed, but for filler
    lines, by one successful silent self-call; other calls are quiet. *)
Inductive paired_body (program_id : string) : Z -> list string -> Z -> Prop :=
| paired_nil depth : paired_body program_id depth [] 0
| paired_line depth log rest k :
    plain_log log -> starts_with PROGRAM_DATA_PREFIX log = false ->
    paired_body program_id depth rest k -> paired_body program_id depth (log :: rest) k
| paired_event depth data fill inv inner ex rest k :
    plain_log data -> starts_with PROGRAM_DATA_PREFIX data = true ->
    silent_body program_id fill -> invoke_log inv program_id (depth + 1) ->
    silent_body program_id inner -> exit_log ex program_id true ->
    paired_body program_id depth rest k ->
    paired_body program_id depth (data :: fill ++ inv :: inner ++ ex :: rest) (1 + k)
| paired_call depth inv callee inner ex ok rest k :
    invoke_log inv callee (depth + 1) -> quiet_body program_id (depth + 1) inner ->
    exit_log ex callee ok ->
    (callee = program_id -> ok = true -> ~ silent_body program_id inner) ->
    paired_body program_id depth rest k ->
    paired_body program_id depth (inv :: inner ++ ex :: rest) k.

(** Outside any frame of the program. *)
Inductive foreign_body (program_id : string) : Z -> list string -> Z -> Prop :=
| foreign_nil depth : foreign_body program_id depth [] 0
| foreign_line depth log rest k :
    plain_log log -> foreign_body program_id depth rest k ->
    foreign_body program_id depth (log :: rest) k
| foreign_enter depth inv inner ex ok rest k1 k2 :
    invoke_log inv program_id (depth + 1) -> paired_body program_id (depth + 1) inner k1 ->
    exit_log ex program_id ok -> foreign_body program_id depth rest k2 ->
    foreign_body program_id depth (inv :: inner ++ ex :: rest) (k1 + k2)
| foreign_call depth inv callee inner ex ok rest k1 k2 :
    callee <> program_id ->
    invoke_log inv callee (depth + 1) -> foreign_body program_id (depth + 1) inner k1 ->
    exit_log ex callee ok -> foreign_body program_id depth rest k2 ->
    foreign_body program_id depth (inv :: inner ++ ex :: rest) (k1 + k2).

(** A transaction with the number of pairs of each top-level instruction. *)
Inductive paired_transaction (program_id : string) : list string -> list Z -> Prop :=
| ptx_nil : paired_transaction program_id [] []
| ptx_line log rest ks :
    plain_log log -> paired_transaction program_id rest ks ->
    paired_transaction program_id (log :: rest) ks
| ptx_instruction inv program inner ex ok rest k ks :
    invoke_log inv program 1 ->
    (if String.eqb program program_id then paired_body program_id 1 inner k
     else foreign_body program_id 1 inner k) ->
    exit_log ex program ok -> paired_transaction program_id rest ks ->
    paired_transaction program_id (inv :: inner ++ ex :: rest) (k :: ks).

Section Coverage.
Context (program_id : string).
Implicit Types (st : CoverageState) (f : InvocationFrame) (logs : list string).
Abbreviation step := (coverage_step program_id).
Abbreviation loop := (coverage_loop program_id).
Abbreviation entry st i := (cpi_entry i (cv_coverage st)).

Definition gap_free st : Prop := forall j, cc_pairing_gap (entry st j) = false.
Definition same_entries st st' : Prop := forall j, entry st' j = entry st j.
Definition on_stack (s : list InvocationFrame) : bool :=
  existsb (fun f => String.eqb (fr_program_id f) program_id) s.

Lemma cpi_entry_insert i j e m :
  cpi_entry j (bt_insert i e m) = if bool_decide (j = i) then e else cpi_entry j m.
Proof.
  unfold cpi_entry. case_bool_decide as H; [by subst; rewrite bt_get_insert_eq|].
  by rewrite bt_get_insert_ne.
Qed.

Lemma cpi_entry_pending i m :
  match bt_get i m with Some e => cc_pending_direct_event e | None => false end =
  cc_pending_direct_event (cpi_entry i m).
Proof. unfold cpi_entry. by destruct (bt_get i m). Qed.

(** ** Gaps stay *)
Lemma exit_coverage_gap f ok e e' :
  exit_coverage program_id f ok e = Ok e' -> cc_pairing_gap e = true -> cc_pairing_gap e' = true.
Proof.
  unfold exit_coverage. intros H Hg.
  destruct (fr_is_target_self_cpi f); [destruct (fr_candidate_for_pending_event f)|].
  - apply bind_Ok in H as (e1 & He1 & [= <-]). simpl.
    destruct (ok && _ && _); [|by injection He1 as <-].
    apply bind_Ok in He1 as (n & _ & [= <-]). done.
  - destruct (ok && _); by injection H as <-.
  - destruct (_ && _); by injection H as <-.
Qed.

Lemma step_gap st log st' j :
  step st log = Ok st' -> cc_pairing_gap (entry st j) = true -> cc_pairing_gap (entry st' j) = true.
Proof.
  intros Hstep Hg. unfold coverage_step in Hstep.
  destruct (is_log_truncation_marker log); [done|].
  destruct (parse_invoke log) as [[callee depth]|].
  - unfold coverage_invoke in Hstep. destruct (depth_is_invalid _ depth); [done|].
    apply bind_Ok in Hstep as ([i next] & _ & [= <-]). simpl.
    destruct (match cv_stack st with [] => false | f :: _ => _ end); [|done].
    rewrite cpi_entry_insert. case_bool_decide; [subst|done]. by case_match.
  - destruct (parse_exit log) as [[exited ok]|].
    + unfold coverage_exit in Hstep. destruct (cv_stack st) as [|f below]; [done|].
      destruct (negb _); [done|]. apply bind_Ok in Hstep as (e & He & [= <-]). simpl.
      rewrite cpi_entry_insert. case_bool_decide; [subst|done]. by eapply exit_coverage_gap.
    + injection Hstep as <-. unfold coverage_line.
      destruct (cv_stack st) as [|f below]; [done|].
      destruct (fr_is_target_self_cpi f); [by case_match|].
      destruct (String.eqb _ program_id); [|done]. simpl.
      rewrite cpi_entry_insert. case_bool_decide; [subst|done].
      destruct (starts_with _ log); simpl; [by case_match|]. by case_match.
Qed.

Lemma gap_free_loop st logs final : loop st logs = Ok final -> gap_free final -> gap_free st.
Proof.
  revert st. induction logs as [|log logs IH]; intros st; simpl; [by intros [= ->]|].
  intros (st1 & Hstep & Hloop)%bind_Ok Hfin j. specialize (IH _ Hloop Hfin j).
  destruct (cc_pairing_gap (entry st j)) eqn:E; [|done].
  by rewrite (step_gap _ _ _ _ Hstep E) in IH.
Qed.

(** ** One line *)
Definition depth_of st : Z := stack_depth (cv_stack st).

Lemma step_cases st log st' :
  depth_of st + 1 <= u64_max -> step st log = Ok st' ->
  (exists callee, invoke_log log callee (depth_of st + 1) /\
     coverage_invoke program_id st callee (depth_of st + 1) = Ok st') \/
  (exists f below ok, cv_stack st = f :: below /\ exit_log log (fr_program_id f) ok /\
     coverage_exit program_id st (fr_program_id f) ok = Ok st') \/
  (plain_log log /\ st' = coverage_line program_id st log).
Proof.
  intros Hd Hstep. unfold coverage_step in Hstep.
  destruct (is_log_truncation_marker log) eqn:Ht; [done|].
  destruct (parse_invoke log) as [[callee depth]|] eqn:Hi.
  - left. exists callee.
    assert (depth = depth_of st + 1) as ->; [|done].
    unfold coverage_invoke in Hstep. destruct (depth_is_invalid _ depth) eqn:E; [done|].
    by apply depth_valid_inv in E.
  - right. destruct (parse_exit log) as [[exited ok]|] eqn:He.
    + left. pose proof Hstep as Hstep'. unfold coverage_exit in Hstep'.
      destruct (cv_stack st) as [|f below] eqn:Hs; [done|].
      destruct (String.eqb_spec (fr_program_id f) exited) as [<-|]; [|done].
      by exists f, below, ok.
    + right. by injection Hstep as <-.
Qed.

(** The frame pushed by an invocation from frame [f]. *)
Definition self_call st (callee : string) : bool :=
  String.eqb callee program_id && on_stack (cv_stack st).
Definition candidate_call st f (callee : string) : bool :=
  is_origin program_id f && self_call st callee &&
  cc_pending_direct_event (entry st (fr_instruction_index f)).
Definition child_frame st f (callee : string) : InvocationFrame := {|
  fr_program_id := callee; fr_instruction_index := fr_instruction_index f;
  fr_is_target_self_cpi := self_call st callee; fr_silent_candidate := self_call st callee;
  fr_candidate_for_pending_event := candidate_call st f callee |}.

Lemma invoke_result st f below callee st' :
  cv_stack st = f :: below -> depth_of st + 1 <= u64_max ->
  coverage_invoke program_id st callee (depth_of st + 1) = Ok st' ->
  cv_stack st' = child_frame st f callee :: silence_parent (f :: below) /\
  cv_next_instruction_index st' = cv_next_instruction_index st /\
  forall j, entry st' j =
    if bool_decide (j = fr_instruction_index f) && is_origin program_id f &&
       cc_pending_direct_event (entry st j) && negb (candidate_call st f callee)
    then set_pending_direct false (set_gap (entry st j)) else entry st j.
Proof.
  intros Hs Hd. unfold coverage_invoke, depth_of in *. rewrite depth_valid by done.
  destruct (Z.eqb_spec (stack_depth (cv_stack st) + 1) 1) as [H1|_].
  { unfold stack_depth in H1. rewrite Hs in H1. simpl in H1. lia. }
  rewrite Hs. csimpl. rewrite cpi_entry_pending.
  unfold child_frame, candidate_call, self_call. rewrite Hs. intros [= <-]. csimpl.
  split; [done|]. split; [done|]. intros j.
  destruct (is_origin program_id f); simpl; [|by rewrite andb_false_r].
  rewrite cpi_entry_insert. rewrite andb_true_r. case_bool_decide as Hj; [subst j|done]. simpl. done.
Qed.

Lemma exit_result st f below ok st' :
  cv_stack st = f :: below -> coverage_exit program_id st (fr_program_id f) ok = Ok st' ->
  cv_stack st' = below /\ cv_next_instruction_index st' = cv_next_instruction_index st /\
  exists e, exit_coverage program_id f ok (entry st (fr_instruction_index f)) = Ok e /\
    forall j, entry st' j = if bool_decide (j = fr_instruction_index f) then e else entry st j.
Proof.
  intros Hs. unfold coverage_exit. rewrite Hs, String.eqb_refl. simpl.
  intros (e & He & [= <-])%bind_Ok. simpl. split; [done|]. split; [done|].
  exists e. split; [done|]. intros j. apply cpi_entry_insert.
Qed.

Lemma step_exit_inv st f below ex ok st' :
  cv_stack st = f :: below -> exit_log ex (fr_program_id f) ok -> step st ex = Ok st' ->
  coverage_exit program_id st (fr_program_id f) ok = Ok st'.
Proof. intros Hs (Ht & Hi & He). unfold coverage_step. by rewrite Ht, Hi, He. Qed.

(** ** Quiet frames *)
Lemma self_call_true st f below callee :
  cv_stack st = f :: below -> on_stack (f :: below) = true ->
  self_call st callee = String.eqb callee program_id.
Proof. intros Hs Hp. unfold self_call. by rewrite Hs, Hp, andb_true_r. Qed.

(** What is left of a frame after lines or calls that may break its silence. *)
Definition frame_after (f f' : InvocationFrame) : Prop := f' = f \/ f' = not_silent f.
Lemma frame_after_trans f1 f2 f3 : frame_after f1 f2 -> frame_after f2 f3 -> frame_after f1 f3.
Proof. unfold frame_after. intros [->| ->] [->| ->]; auto. Qed.
Lemma frame_after_fields f f' :
  frame_after f f' ->
  fr_program_id f' = fr_program_id f /\ fr_instruction_index f' = fr_instruction_index f /\
  fr_is_target_self_cpi f' = fr_is_target_self_cpi f /\
  fr_candidate_for_pending_event f' = fr_candidate_for_pending_event f.
Proof. by intros [->| ->]. Qed.
Lemma frame_after_silent f f' :
  frame_after f f' -> fr_silent_candidate f' = true -> fr_silent_candidate f = true.
Proof. by intros [->| ->]. Qed.

Lemma on_stack_fields f f' below :
  fr_program_id f' = fr_program_id f -> on_stack (f' :: below) = on_stack (f :: below).
Proof. unfold on_stack. simpl. by intros ->. Qed.

(** A plain line in a frame that is not an origin. *)
Lemma quiet_line_result st f below log :
  cv_stack st = f :: below -> is_origin program_id f = false -> on_stack (f :: below) = true ->
  (fr_is_target_self_cpi f = true -> fr_program_id f = program_id) -> plain_log log ->
  exists f', cv_stack (coverage_line program_id st log) = f' :: below /\ frame_after f f' /\
    cv_next_instruction_index (coverage_line program_id st log) = cv_next_instruction_index st /\
    same_entries st (coverage_line program_id st log) /\
    (fr_is_target_self_cpi f = true ->
     (fr_silent_candidate f' = true <-> fr_silent_candidate f = true /\ filler_log program_id log)).
Proof.
  intros Hs Ho Hp Hself Hlog. unfold coverage_line, filler_log. rewrite Hs.
  destruct (fr_is_target_self_cpi f) eqn:Ef.
  - specialize (Hself eq_refl). rewrite Hself.
    destruct (starts_with PROGRAM_DATA_PREFIX log) eqn:Ed; simpl.
    + exists (not_silent f). split_and!; try done; [by right|]. simpl. intros _. naive_solver.
    + destruct (is_compute_consumed_log program_id log) eqn:Ec.
      * exists f. split_and!; try done; [by left|]. intros _. naive_solver.
      * exists (not_silent f). split_and!; try done; [by right|]. simpl. intros _. naive_solver.
  - unfold is_origin in Ho. rewrite Ef, andb_true_r in Ho. rewrite Ho.
    exists f. split_and!; try done; by left.
Qed.

(** Processing the rest of the log from [st], with [f] on top of the stack:
    [body] is what happens inside [f], [ex] its exit, and [st'] the state just
    before that exit. *)
Definition splits st f below logs final (body : list string) (ex : string) (ok : bool)
    (rest : list string) (f' : InvocationFrame) st' : Prop :=
  logs = body ++ ex :: rest /\ exit_log ex (fr_program_id f) ok /\
  loop st' (ex :: rest) = Ok final /\ cv_stack st' = f' :: below /\ frame_after f f' /\
  cv_next_instruction_index st' = cv_next_instruction_index st.

Lemma splits_exit st f below ex ok rest final :
  cv_stack st = f :: below -> exit_log ex (fr_program_id f) ok ->
  loop st (ex :: rest) = Ok final ->
  splits st f below (ex :: rest) final [] ex ok rest f st.
Proof. intros. split_and!; try done. by left. Qed.

Lemma silence_parent_after f below :
  exists f', silence_parent (f :: below) = f' :: below /\ frame_after f f' /\
    (fr_is_target_self_cpi f = true -> fr_silent_candidate f' = false) /\
    (fr_is_target_self_cpi f = false -> f' = f).
Proof.
  simpl. destruct (fr_is_target_self_cpi f).
  - exists (not_silent f). split_and!; try done. by right.
  - exists f. split_and!; try done. by left.
Qed.

(** The exit of a frame that was not a candidate. *)
Lemma exit_not_candidate st f below ok st' :
  cv_stack st = f :: below -> fr_candidate_for_pending_event f = false ->
  is_origin program_id f = false ->
  coverage_exit program_id st (fr_program_id f) ok = Ok st' -> gap_free st' ->
  cv_stack st' = below /\ cv_next_instruction_index st' = cv_next_instruction_index st /\
  same_entries st st' /\
  (fr_is_target_self_cpi f = true -> ok = true -> fr_silent_candidate f = false).
Proof.
  intros Hs Hc Ho Hexit Hg. apply exit_result with (below := below) in Hexit
    as (-> & -> & e & He & Hent); [|done].
  unfold exit_coverage in He. rewrite Hc in He. unfold is_origin in Ho.
  destruct (fr_is_target_self_cpi f) eqn:Ef.
  - destruct (ok && fr_silent_candidate f) eqn:Es; injection He as <-.
    + specialize (Hg (fr_instruction_index f)). by rewrite Hent, bool_decide_true in Hg.
    + split_and!; try done.
      * intros j. rewrite Hent. by case_bool_decide; subst.
      * intros _ ->. by destruct (fr_silent_candidate f).
  - rewrite andb_true_r in Ho. rewrite Ho in He. injection He as <-. split_and!; try done.
    intros j. rewrite Hent. by case_bool_decide; subst.
Qed.

Lemma same_entries_trans st1 st2 st3 :
  same_entries st1 st2 -> same_entries st2 st3 -> same_entries st1 st3.
Proof. intros H1 H2 j. by rewrite H2. Qed.

(** Quiet frames split, for logs up to a length. *)
Definition quiet_splits (n : nat) : Prop := forall logs st f below final,
  (length logs <= n)%nat -> cv_stack st = f :: below ->
  depth_of st + Z.of_nat (length logs) <= u64_max ->
  is_origin program_id f = false -> on_stack (f :: below) = true ->
  (fr_is_target_self_cpi f = true -> fr_program_id f = program_id) ->
  loop st logs = Ok final -> cv_stack final = [] -> gap_free final ->
  exists body ex ok rest f' st', splits st f below logs final body ex ok rest f' st' /\
    quiet_body program_id (depth_of st) body /\ same_entries st st' /\
    (fr_is_target_self_cpi f = true ->
     (fr_silent_candidate f' = true <-> fr_silent_candidate f = true /\ silent_body program_id body)).

(** A call that pairs with no event, from a frame on or below the program: the
    inner frame is quiet and changes no entry. *)
Lemma quiet_call_splits n logs st f below callee st1 final :
  quiet_splits n -> (length logs <= n)%nat -> cv_stack st = f :: below ->
  depth_of st + 1 + Z.of_nat (length logs) <= u64_max ->
  on_stack (f :: below) = true ->
  is_origin program_id f && cc_pending_direct_event (entry st (fr_instruction_index f)) = false ->
  coverage_invoke program_id st callee (depth_of st + 1) = Ok st1 ->
  loop st1 logs = Ok final -> cv_stack final = [] -> gap_free final ->
  exists inner ex ok rest f1 st3, logs = inner ++ ex :: rest /\
    quiet_body program_id (depth_of st + 1) inner /\ exit_log ex callee ok /\
    (callee = program_id -> ok = true -> ~ silent_body program_id inner) /\
    loop st3 rest = Ok final /\ cv_stack st3 = f1 :: below /\ frame_after f f1 /\
    (fr_is_target_self_cpi f = true -> fr_silent_candidate f1 = false) /\
    (fr_is_target_self_cpi f = false -> f1 = f) /\
    same_entries st st3 /\ cv_next_instruction_index st3 = cv_next_instruction_index st.
Proof.
  intros IH Hn Hs Hd Hp Hnp Hci Hrest Hfin Hgap.
  apply invoke_result with (f := f) (below := below) in Hci as (Hs1 & Hn1 & He1); [|done|lia].
  destruct (silence_parent_after f below) as (f1 & Hsp & Haf1 & Hsil1 & Hid1). rewrite Hsp in Hs1.
  pose proof (frame_after_fields _ _ Haf1) as (Fp & _).
  pose proof (self_call_true st f below callee Hs Hp) as Hsc.
  assert (candidate_call st f callee = false) as Hnc.
  { unfold candidate_call. apply andb_false_iff in Hnp as [-> | ->]; [done|apply andb_false_r]. }
  assert (same_entries st st1) as Hsame1.
  { intros j. rewrite He1. case_bool_decide; simpl; [subst; by rewrite Hnp|done]. }
  assert (depth_of st1 = depth_of st + 1) as Hd1.
  { unfold depth_of, stack_depth. rewrite Hs1, Hs. simpl. lia. }
  assert (is_origin program_id (child_frame st f callee) = false) as Hoc.
  { unfold is_origin. simpl. rewrite Hsc. by destruct (String.eqb callee program_id). }
  destruct (IH logs st1 (child_frame st f callee) (f1 :: below) final)
    as (b1 & ex1 & ok1 & r1 & c1 & st2 & Hspl & Hq1 & Hsame2 & Hsil2); try done; [lia| | |].
  { unfold on_stack in *. simpl in *. rewrite Fp, Hp. apply orb_true_r. }
  { simpl. rewrite Hsc. by intros ?%String.eqb_eq. }
  destruct Hspl as (Hlogs1 & Hex1 & Hr1 & Hs2 & Hac & Hn2). subst logs.
  simpl in Hr1. apply bind_Ok in Hr1 as (st3 & Hstep3 & Hr1).
  pose proof (frame_after_fields _ _ Hac) as (Cp & Ci & Cs & Cc). simpl in Hex1.
  apply (step_exit_inv _ c1 (f1 :: below) _ ok1) in Hstep3; [|done|by rewrite Cp].
  apply (exit_not_candidate _ _ _ _ _ Hs2) in Hstep3 as (Hs3 & Hn3 & Hsame3 & Hloud);
    [|by rewrite Cc|unfold is_origin in *; by rewrite Cp, Cs|by eapply gap_free_loop].
  exists b1, ex1, ok1, r1, f1, st3. rewrite Hd1 in Hq1.
  split_and!; try done; [|by eauto using same_entries_trans|congruence].
  intros Heq Hok Hsilent. simpl in Cs, Hsil2.
  assert (self_call st callee = true) as Hself1 by (rewrite Hsc; by apply String.eqb_eq).
  rewrite Hself1 in Cs, Hsil2. specialize (Hloud Cs Hok).
  apply Bool.not_true_iff_false in Hloud. by apply Hloud, Hsil2.
Qed.

Lemma invoke_not_filler inv callee depth rest :
  invoke_log inv callee depth -> ~ silent_body program_id (inv :: rest).
Proof.
  intros [_ Hinv] Hsilent. inversion Hsilent as [|? ? ((_ & Hni & _) & _)]; subst. congruence.
Qed.

Lemma quiet_exists n : quiet_splits n.
Proof.
  induction n as [|n IH]; intros logs st f below final Hn Hs Hd Ho Hp Hself;
    (destruct logs as [|log logs]; [simpl; intros [= <-]; by rewrite Hs|]); cbn [length] in Hn, Hd; [lia|].
  intros Hloop Hfin Hgap. pose proof Hloop as Hloop0. simpl in Hloop0.
  apply bind_Ok in Hloop0 as (st1 & Hstep & Hrest).
  destruct (step_cases st log st1 ltac:(lia) Hstep)
    as [(callee & Hinv & Hci)|[(f0 & below0 & ok & Hs0 & Hex & Hce)|(Hplain & ->)]].
  - destruct (quiet_call_splits n logs st f below callee st1 final)
      as (b1 & ex1 & ok1 & r1 & f1 & st3 & -> & Hq1 & Hex1 & Hloud & Hr1 & Hs3 & Haf1 & Hsil1 & _ & Hsame1 & Hn1);
      try done; [lia|lia|by rewrite Ho|].
    pose proof (frame_after_fields _ _ Haf1) as (Fp & Fi & Fs & Fc).
    assert (depth_of st3 = depth_of st) as Hd3 by (unfold depth_of, stack_depth; by rewrite Hs3, Hs).
    rewrite length_app in Hn, Hd. cbn [length] in Hn, Hd.
    destruct (IH r1 st3 f1 below final) as (b2 & ex2 & ok2 & r2 & f2 & st4 & Hsp2 & Hq2 & Hsame4 & Hsil4);
      try done; [lia|lia|unfold is_origin in *; by rewrite Fp, Fs|by rewrite (on_stack_fields f)
       |by rewrite Fp, Fs|].
    destruct Hsp2 as (-> & Hex2 & Hr2 & Hs4 & Haf2 & Hn4).
    exists (log :: b1 ++ ex1 :: b2), ex2, ok2, r2, f2, st4. split; [|split; [|split]].
    + split_and!; try done; [simpl; by rewrite <- app_assoc|by rewrite <- Fp
        |by eapply frame_after_trans|congruence].
    + rewrite Hd3 in Hq2. by eapply quiet_call.
    + eauto using same_entries_trans.
    + intros Hf. split; [|by intros [_ []%(invoke_not_filler _ _ _ _ Hinv)]].
      intros Hsilent%(frame_after_silent _ _ Haf2). by rewrite Hsil1 in Hsilent.
  - rewrite Hs in Hs0. injection Hs0 as <- <-.
    exists [], log, ok, logs, f, st. split; [by apply splits_exit|].
    split; [constructor|]. split; [done|]. intros _. split; [intros H; split; [done|constructor]|tauto].
  - destruct (quiet_line_result st f below log Hs Ho Hp Hself Hplain)
      as (f1 & Hs1 & Haf1 & Hn1 & Hsame1 & Hsil1).
    pose proof (frame_after_fields _ _ Haf1) as (Fp & Fi & Fs & Fc).
    assert (depth_of (coverage_line program_id st log) = depth_of st) as Hd1
      by (unfold depth_of, stack_depth; by rewrite Hs1, Hs).
    destruct (IH logs (coverage_line program_id st log) f1 below final)
      as (b & ex & ok & r & f2 & st2 & Hsp & Hq & Hsame2 & Hsil2);
      try done; [lia|lia|unfold is_origin in *; by rewrite Fp, Fs|by rewrite (on_stack_fields f)
       |by rewrite Fp, Fs|].
    destruct Hsp as (-> & Hex & Hr & Hs2 & Haf2 & Hn2).
    exists (log :: b), ex, ok, r, f2, st2. split; [|split; [|split]].
    + split_and!; try done; [by rewrite <- Fp|by eapply frame_after_trans|congruence].
    + rewrite Hd1 in Hq. by apply quiet_line.
    + eauto using same_entries_trans.
    + intros Hf. rewrite Fs in Hsil2. rewrite (Hsil2 Hf), (Hsil1 Hf). unfold silent_body.
      rewrite Forall_cons. tauto.
Qed.

(** ** Origin frames *)
Definition add_calls (k : Z) (e : SelfCpiCoverage) : SelfCpiCoverage :=
  set_calls (cc_successful_event_calls e + k) e.
Lemma add_calls_0 e : add_calls 0 e = e.
Proof. destruct e. unfold add_calls, set_calls. simpl. by rewrite Z.add_0_r. Qed.
Lemma add_calls_add k1 k2 e : add_calls k2 (add_calls k1 e) = add_calls (k1 + k2) e.
Proof. unfold add_calls, set_calls. simpl. by rewrite Z.add_assoc. Qed.

(** The entries of [st'] are those of [st], with [g] applied to instruction [i]. *)
Definition entry_changed (i : Z) (g : SelfCpiCoverage -> SelfCpiCoverage) st st' : Prop :=
  forall j, entry st' j = if bool_decide (j = i) then g (entry st j) else entry st j.

Lemma entry_changed_same i st st' : same_entries st st' -> entry_changed i (fun e => e) st st'.
Proof. intros H j. rewrite H. by case_bool_decide. Qed.
Lemma entry_changed_trans i g1 g2 st1 st2 st3 :
  entry_changed i g1 st1 st2 -> entry_changed i g2 st2 st3 ->
  entry_changed i (fun e => g2 (g1 e)) st1 st3.
Proof. intros H1 H2 j. rewrite H2, H1. by case_bool_decide. Qed.
Lemma entry_changed_at i g st st' : entry_changed i g st st' -> entry st' i = g (entry st i).
Proof. intros H. by rewrite H, bool_decide_true. Qed.
Lemma entry_changed_ext i g1 g2 st st' :
  g1 (entry st i) = g2 (entry st i) -> entry_changed i g1 st st' -> entry_changed i g2 st st'.
Proof. intros Hg H j. rewrite H. case_bool_decide; [by subst|done]. Qed.

Lemma origin_fields f :
  is_origin program_id f = true <->
  fr_program_id f = program_id /\ fr_is_target_self_cpi f = false.
Proof. unfold is_origin. by rewrite andb_true_iff, String.eqb_eq, negb_true_iff. Qed.

Lemma frame_after_origin f f1 :
  is_origin program_id f = true -> frame_after f f1 -> fr_is_target_self_cpi f = false.
Proof. by intros [_ ?]%origin_fields. Qed.

Definition line_effect (log : string) (e : SelfCpiCoverage) : SelfCpiCoverage :=
  if starts_with PROGRAM_DATA_PREFIX log then
    set_pending_direct true (if cc_pending_direct_event e then set_gap e else e)
  else if cc_pending_direct_event e && negb (is_compute_consumed_log program_id log)
  then set_pending_direct false (set_gap e)
  else e.

Lemma origin_line st f below log :
  cv_stack st = f :: below -> is_origin program_id f = true ->
  let st' := coverage_line program_id st log in
  cv_stack st' = f :: below /\ cv_next_instruction_index st' = cv_next_instruction_index st /\
  entry_changed (fr_instruction_index f) (line_effect log) st st'.
Proof.
  intros Hs [Hp Hself]%origin_fields. unfold coverage_line. rewrite Hs, Hself, Hp, String.eqb_refl.
  simpl. split; [done|]. split; [done|]. intros j. simpl. rewrite cpi_entry_insert.
  case_bool_decide; [by subst|done].
Qed.

(** The call that answers a pending event. *)
Lemma candidate_splits logs st f below callee st1 final :
  cv_stack st = f :: below -> is_origin program_id f = true ->
  depth_of st + 1 + Z.of_nat (length logs) <= u64_max ->
  cc_pending_direct_event (entry st (fr_instruction_index f)) = true ->
  coverage_invoke program_id st callee (depth_of st + 1) = Ok st1 ->
  loop st1 logs = Ok final -> cv_stack final = [] -> gap_free final ->
  callee = program_id /\
  exists inner ex rest st3, logs = inner ++ ex :: rest /\ silent_body program_id inner /\
    exit_log ex program_id true /\ loop st3 rest = Ok final /\ cv_stack st3 = f :: below /\
    entry_changed (fr_instruction_index f)
      (fun e => set_pending_direct false (add_calls 1 e)) st st3 /\
    cv_next_instruction_index st3 = cv_next_instruction_index st.
Proof.
  intros Hs Ho Hd Hpend Hci Hrest Hfin Hgap. pose proof Ho as [Fp Fs]%origin_fields.
  assert (on_stack (f :: below) = true) as Hp by (unfold on_stack; simpl; by rewrite Fp, String.eqb_refl).
  apply invoke_result with (f := f) (below := below) in Hci as (Hs1 & Hn1 & He1); [|done|lia].
  pose proof (self_call_true st f below callee Hs Hp) as Hsc.
  assert (candidate_call st f callee = String.eqb callee program_id) as Hcand.
  { unfold candidate_call. by rewrite Ho, Hsc, Hpend, andb_true_r. }
  destruct (String.eqb_spec callee program_id) as [->|Hne].
  2:{ pose proof (gap_free_loop _ _ _ Hrest Hgap (fr_instruction_index f)) as Hg.
      rewrite He1, Hcand, bool_decide_true, Ho, Hpend in Hg by done. simpl in Hg. done. }
  split; [done|].
  assert (same_entries st st1) as Hsame1 by (intros j; rewrite He1, Hcand; by rewrite !andb_false_r).
  assert (depth_of st1 = depth_of st + 1) as Hd1.
  { unfold depth_of, stack_depth. rewrite Hs1, Hs. simpl. lia. }
  simpl in Hs1. rewrite Fs in Hs1.
  destruct (quiet_exists (length logs) logs st1 (child_frame st f program_id) (f :: below) final)
    as (inner & ex & ok & rest & c & st2 & Hspl & _ & Hsame2 & Hsil); try done; [lia| | |].
  { unfold is_origin. simpl. by rewrite Hsc, andb_false_r. }
  { unfold on_stack in *. simpl in *. by rewrite String.eqb_refl. }
  destruct Hspl as (-> & Hex & Hr & Hs2 & Hac & Hn2).
  simpl in Hr. apply bind_Ok in Hr as (st3 & Hstep3 & Hr).
  pose proof (frame_after_fields _ _ Hac) as (Cp & Ci & Cs & Cc). simpl in Hex, Cp, Ci, Cs, Cc.
  rewrite <- Cp in Hex. apply (step_exit_inv _ _ _ _ _ _ Hs2 Hex) in Hstep3.
  apply (exit_result _ _ _ _ _ Hs2) in Hstep3 as (Hs3 & Hn3 & e & He & Hent).
  unfold exit_coverage in He. rewrite Cs, Cc, Hsc, Hcand, Ci, Hsame2, Hsame1, Hpend, andb_true_r in He.
  apply bind_Ok in He as (e1 & He & [= <-]).
  destruct (ok && fr_silent_candidate c) eqn:Esil.
  2:{ injection He as <-. pose proof (gap_free_loop _ _ _ Hr Hgap (fr_instruction_index f)) as Hg.
      rewrite Hent, Ci, bool_decide_true in Hg by done. done. }
  apply andb_true_iff in Esil as [-> Esil]. simpl in Hsil. rewrite Hsc in Hsil.
  apply bind_Ok in He as (n & Hn & [= <-]). apply ok_or_Ok, checked_add_u_Some in Hn as [-> _].
  exists inner, ex, rest, st3. rewrite Cp in Hex. split_and!; try done; [by apply Hsil| |congruence].
  intros j. rewrite Hent, Ci. case_bool_decide; [by subst|]. by rewrite Hsame2, Hsame1.
Qed.

Lemma depth_of_stack st st' f below :
  cv_stack st = f :: below -> cv_stack st' = f :: below -> depth_of st' = depth_of st.
Proof. unfold depth_of, stack_depth. by intros -> ->. Qed.

(** After a direct event, the log continues with its pair. *)
Lemma pending_splits n logs st f below final :
  (length logs <= n)%nat -> cv_stack st = f :: below ->
  depth_of st + Z.of_nat (length logs) <= u64_max -> is_origin program_id f = true ->
  cc_pending_direct_event (entry st (fr_instruction_index f)) = true ->
  loop st logs = Ok final -> cv_stack final = [] -> gap_free final ->
  exists fill inv inner ex rest st3, logs = fill ++ inv :: inner ++ ex :: rest /\
    silent_body program_id fill /\ invoke_log inv program_id (depth_of st + 1) /\
    silent_body program_id inner /\ exit_log ex program_id true /\
    loop st3 rest = Ok final /\ cv_stack st3 = f :: below /\
    entry_changed (fr_instruction_index f)
      (fun e => set_pending_direct false (add_calls 1 e)) st st3 /\
    cv_next_instruction_index st3 = cv_next_instruction_index st.
Proof.
  revert logs st. induction n as [|n IH]; intros logs st Hn Hs Hd Ho Hpend;
    (destruct logs as [|log logs]; [simpl; intros [= <-]; by rewrite Hs|]); cbn [length] in Hn, Hd; [lia|].
  intros Hloop Hfin Hgap. simpl in Hloop. apply bind_Ok in Hloop as (st1 & Hstep & Hrest).
  pose proof (gap_free_loop _ _ _ Hrest Hgap (fr_instruction_index f)) as Hg.
  destruct (step_cases st log st1 ltac:(lia) Hstep)
    as [(callee & Hinv & Hci)|[(f0 & below0 & ok & Hs0 & Hex & Hce)|(Hplain & ->)]].
  - destruct (candidate_splits logs st f below callee st1 final)
      as (-> & inner & ex & rest & st3 & -> & Hin & Hex & Hr & Hs3 & Hent & Hn3); try done; [lia|].
    exists [], log, inner, ex, rest, st3. split_and!; try done. constructor.
  - rewrite Hs in Hs0. injection Hs0 as <- <-. apply origin_fields in Ho as [Fp Fs].
    apply (exit_result _ _ _ _ _ Hs) in Hce as (_ & _ & e & He & Hent).
    unfold exit_coverage in He. rewrite Fs, Fp, String.eqb_refl, Hpend in He. injection He as <-.
    by rewrite Hent, bool_decide_true in Hg.
  - destruct (origin_line st f below log Hs Ho) as (Hs1 & Hn1 & Hent1).
    rewrite (entry_changed_at _ _ _ _ Hent1) in Hg. unfold line_effect in Hg.
    destruct (starts_with PROGRAM_DATA_PREFIX log) eqn:Ed; simpl in Hg; [by rewrite Hpend in Hg|].
    destruct (is_compute_consumed_log program_id log) eqn:Ec; simpl in Hg; rewrite Hpend in Hg;
      [|done].
    assert (same_entries st (coverage_line program_id st log)) as Hsame1.
    { intros j. rewrite Hent1. unfold line_effect. rewrite Ed, Ec, andb_false_r. by case_bool_decide. }
    pose proof (depth_of_stack _ _ _ _ Hs Hs1) as Hd1.
    destruct (IH logs (coverage_line program_id st log))
      as (fill & inv & inner & ex & rest & st3 & -> & Hfill & Hinv & Hin & Hex & Hr & Hs3 & Hent & Hn3);
      try done; [lia|lia|by rewrite Hsame1|].
    exists (log :: fill), inv, inner, ex, rest, st3. rewrite Hd1 in Hinv.
    split_and!; try done; [by constructor| |congruence].
    intros j. by rewrite Hent, Hsame1.
Qed.

(** The body of an origin frame, entered without a pending event. *)
Lemma origin_splits n logs st f below final :
  (length logs <= n)%nat -> cv_stack st = f :: below ->
  depth_of st + Z.of_nat (length logs) <= u64_max -> is_origin program_id f = true ->
  cc_pending_direct_event (entry st (fr_instruction_index f)) = false ->
  loop st logs = Ok final -> cv_stack final = [] -> gap_free final ->
  exists body ex ok rest st' k, splits st f below logs final body ex ok rest f st' /\
    paired_body program_id (depth_of st) body k /\
    entry_changed (fr_instruction_index f) (add_calls k) st st'.
Proof.
  revert logs st. induction n as [|n IH]; intros logs st Hn Hs Hd Ho Hpend;
    (destruct logs as [|log logs]; [simpl; intros [= <-]; by rewrite Hs|]); cbn [length] in Hn, Hd; [lia|].
  intros Hloop Hfin Hgap. pose proof Hloop as Hloop0. simpl in Hloop0.
  apply bind_Ok in Hloop0 as (st1 & Hstep & Hrest).
  pose proof Ho as [Fp Fs]%origin_fields.
  assert (on_stack (f :: below) = true) as Hp by (unfold on_stack; simpl; by rewrite Fp, String.eqb_refl).
  destruct (step_cases st log st1 ltac:(lia) Hstep)
    as [(callee & Hinv & Hci)|[(f0 & below0 & ok & Hs0 & Hex & Hce)|(Hplain & ->)]].
  - destruct (quiet_call_splits (length logs) logs st f below callee st1 final)
      as (b1 & ex1 & ok1 & r1 & f1 & st3 & -> & Hq1 & Hex1 & Hloud & Hr1 & Hs3 & _ & _ & Hid1 & Hsame1 & Hn1);
      try done; [apply quiet_exists|lia|by rewrite Hpend, andb_false_r|].
    rewrite (Hid1 Fs) in Hs3. rewrite length_app in Hn, Hd. cbn [length] in Hn, Hd.
    pose proof (depth_of_stack _ _ _ _ Hs Hs3) as Hd3.
    destruct (IH r1 st3) as (b2 & ex2 & ok2 & r2 & st4 & k & Hspl & Hb2 & Hent);
      try done; [lia|lia|by rewrite Hsame1|].
    destruct Hspl as (-> & Hex2 & Hr2 & Hs4 & Haf & Hn4).
    exists (log :: b1 ++ ex1 :: b2), ex2, ok2, r2, st4, k. rewrite Hd3 in Hb2. split; [|split].
    + split_and!; try done; [simpl; by rewrite <- app_assoc|congruence].
    + by eapply paired_call.
    + intros j. by rewrite Hent, Hsame1.
  - rewrite Hs in Hs0. injection Hs0 as <- <-.
    exists [], log, ok, logs, st, 0. split; [by apply splits_exit|]. split; [constructor|].
    apply entry_changed_ext with (g1 := fun e => e); [by rewrite add_calls_0|].
    by apply entry_changed_same.
  - destruct (origin_line st f below log Hs Ho) as (Hs1 & Hn1 & Hent1).
    pose proof (depth_of_stack _ _ _ _ Hs Hs1) as Hd1.
    destruct (starts_with PROGRAM_DATA_PREFIX log) eqn:Ed.
    + destruct (pending_splits (length logs) logs (coverage_line program_id st log) f below final)
        as (fill & inv & inner & ex1 & r1 & st3 & -> & Hfill & Hinv & Hin & Hex1 & Hr1 & Hs3 & Hent3 & Hn3);
        try done; [lia| |].
      { rewrite (entry_changed_at _ _ _ _ Hent1). unfold line_effect. by rewrite Ed. }
      assert (entry_changed (fr_instruction_index f) (add_calls 1) st st3) as Hent.
      { eapply entry_changed_ext, (entry_changed_trans _ _ _ _ _ _ Hent1 Hent3).
        unfold line_effect. rewrite Ed, Hpend. destruct (entry st _); simpl in *. by subst. }
      rewrite length_app in Hn, Hd. cbn [length] in Hn, Hd. rewrite length_app in Hn, Hd.
      cbn [length] in Hn, Hd. rewrite Hd1 in Hinv.
      pose proof (depth_of_stack _ _ _ _ Hs Hs3) as Hd3.
      destruct (IH r1 st3) as (b2 & ex2 & ok2 & r2 & st4 & k & Hspl & Hb2 & Hent4);
        try done; [lia|lia|by rewrite (entry_changed_at _ _ _ _ Hent)|].
      destruct Hspl as (-> & Hex2 & Hr2 & Hs4 & Haf & Hn4).
      exists (log :: fill ++ inv :: inner ++ ex1 :: b2), ex2, ok2, r2, st4, (1 + k).
      rewrite Hd3 in Hb2. split; [|split].
      * split_and!; try done; [|congruence].
        simpl. rewrite <- app_assoc. simpl. by rewrite <- app_assoc.
      * by eapply paired_event.
      * eapply entry_changed_ext, (entry_changed_trans _ _ _ _ _ _ Hent Hent4). apply add_calls_add.
    + assert (same_entries st (coverage_line program_id st log)) as Hsame1.
      { intros j. rewrite Hent1. unfold line_effect. rewrite Ed.
        case_bool_decide; [subst; by rewrite Hpend|done]. }
      destruct (IH logs (coverage_line program_id st log))
        as (b2 & ex2 & ok2 & r2 & st4 & k & Hspl & Hb2 & Hent4); try done;
        [lia|lia|by rewrite Hsame1|].
      destruct Hspl as (-> & Hex2 & Hr2 & Hs4 & Haf & Hn4).
      exists (log :: b2), ex2, ok2, r2, st4, k. rewrite Hd1 in Hb2. split; [|split].
      * split_and!; try done; congruence.
      * by apply paired_line.
      * intros j. by rewrite Hent4, Hsame1.
Qed.

(** ** Foreign frames and instructions *)
Lemma exit_settled st f below ex ok rest final :
  cv_stack st = f :: below -> fr_is_target_self_cpi f = false ->
  cc_pending_direct_event (entry st (fr_instruction_index f)) = false ->
  exit_log ex (fr_program_id f) ok -> loop st (ex :: rest) = Ok final ->
  exists st', loop st' rest = Ok final /\ cv_stack st' = below /\ same_entries st st' /\
    cv_next_instruction_index st' = cv_next_instruction_index st.
Proof.
  intros Hs Hself Hpend Hex Hloop. simpl in Hloop. apply bind_Ok in Hloop as (st' & Hstep & Hloop).
  apply (step_exit_inv _ _ _ _ _ _ Hs Hex), (exit_result _ _ _ _ _ Hs) in Hstep
    as (Hs' & Hn' & e & He & Hent).
  exists st'. split_and!; try done. unfold exit_coverage in He. rewrite Hself, Hpend, andb_false_r in He.
  injection He as <-. intros j. rewrite Hent. by case_bool_decide; subst.
Qed.

(** What a frame outside the program, or the program's own outer frame, adds. *)
Definition outer_body (program : string) (depth : Z) (body : list string) (k : Z) : Prop :=
  if String.eqb program program_id then paired_body program_id depth body k
  else foreign_body program_id depth body k.

Definition foreign_splits (n : nat) : Prop := forall logs st f below final,
  (length logs <= n)%nat -> cv_stack st = f :: below ->
  depth_of st + Z.of_nat (length logs) <= u64_max ->
  on_stack below = false -> fr_is_target_self_cpi f = false ->
  cc_pending_direct_event (entry st (fr_instruction_index f)) = false ->
  loop st logs = Ok final -> cv_stack final = [] -> gap_free final ->
  exists body ex ok rest st' k, logs = body ++ ex :: rest /\
    exit_log ex (fr_program_id f) ok /\ outer_body (fr_program_id f) (depth_of st) body k /\
    loop st' rest = Ok final /\ cv_stack st' = below /\
    entry_changed (fr_instruction_index f) (add_calls k) st st' /\
    cv_next_instruction_index st' = cv_next_instruction_index st.

Lemma outer_origin_splits n logs st f below final :
  (length logs <= n)%nat -> cv_stack st = f :: below ->
  depth_of st + Z.of_nat (length logs) <= u64_max ->
  is_origin program_id f = true ->
  cc_pending_direct_event (entry st (fr_instruction_index f)) = false ->
  loop st logs = Ok final -> cv_stack final = [] -> gap_free final ->
  exists body ex ok rest st' k, logs = body ++ ex :: rest /\
    exit_log ex (fr_program_id f) ok /\ outer_body (fr_program_id f) (depth_of st) body k /\
    loop st' rest = Ok final /\ cv_stack st' = below /\
    entry_changed (fr_instruction_index f) (add_calls k) st st' /\
    cv_next_instruction_index st' = cv_next_instruction_index st.
Proof.
  intros Hn Hs Hd Ho Hpend Hloop Hfin Hgap.
  destruct (origin_splits n logs st f below final)
    as (b & ex & ok & r & st2 & k & (-> & Hex & Hr & Hs2 & _ & Hn2) & Hb & Hent); try done.
  apply origin_fields in Ho as [Fp Fs].
  destruct (exit_settled st2 f below ex ok r final) as (st3 & Hr3 & Hs3 & Hsame & Hn3); try done.
  { by rewrite (entry_changed_at _ _ _ _ Hent). }
  exists b, ex, ok, r, st3, k. unfold outer_body. rewrite Fp, String.eqb_refl in *.
  split_and!; try done; [|congruence]. intros j. by rewrite Hsame, Hent.
Qed.

Lemma foreign_exists n : foreign_splits n.
Proof.
  induction n as [|n IH]; intros logs st f below final Hn Hs Hd Hp Fs Hpend Hloop Hfin Hgap;
    (destruct logs as [|log logs]; [simpl in Hloop; injection Hloop as <-; by rewrite Hs in Hfin|]);
    cbn [length] in Hn, Hd; [lia|].
  destruct (String.eqb_spec (fr_program_id f) program_id) as [Fp|Fp].
  { apply (outer_origin_splits (S (length logs)) (log :: logs) st f below final); try done.
    by apply origin_fields. }
  pose proof Hloop as Hloop0. simpl in Hloop0. apply bind_Ok in Hloop0 as (st1 & Hstep & Hrest).
  assert (outer_body (fr_program_id f) = foreign_body program_id) as Hout.
  { unfold outer_body. by apply String.eqb_neq in Fp as ->. }
  rewrite Hout.
  assert (is_origin program_id f = false) as Ho.
  { unfold is_origin. by apply String.eqb_neq in Fp as ->. }
  assert (on_stack (f :: below) = false) as Hp1.
  { unfold on_stack in *. simpl. apply String.eqb_neq in Fp as ->. done. }
  destruct (step_cases st log st1 ltac:(lia) Hstep)
    as [(callee & Hinv & Hci)|[(f0 & below0 & ok & Hs0 & Hex & Hce)|(Hplain & ->)]].
  - apply invoke_result with (f := f) (below := below) in Hci as (Hs1 & Hn1 & He1); [|done|lia].
    assert (same_entries st st1) as Hsame1 by (intros j; rewrite He1, Ho; by rewrite andb_false_r).
    simpl in Hs1. rewrite Fs in Hs1.
    assert (depth_of st1 = depth_of st + 1) as Hd1.
    { unfold depth_of, stack_depth. rewrite Hs1, Hs. simpl. lia. }
    destruct (IH logs st1 (child_frame st f callee) (f :: below) final)
      as (b1 & ex1 & ok1 & r1 & st2 & k1 & -> & Hex1 & Hb1 & Hr1 & Hs2 & Hent2 & Hn2); try done;
      [lia|lia|simpl; unfold self_call; by rewrite Hs, Hp1, andb_false_r|by rewrite Hsame1|].
    rewrite length_app in Hn, Hd. cbn [length] in Hn, Hd.
    pose proof (depth_of_stack _ _ _ _ Hs Hs2) as Hd2. simpl in Hent2, Hex1, Hb1.
    destruct (IH r1 st2 f below final)
      as (b2 & ex2 & ok2 & r2 & st3 & k2 & -> & Hex2 & Hb2 & Hr2 & Hs3 & Hent3 & Hn3); try done;
      [lia|lia|rewrite (entry_changed_at _ _ _ _ Hent2); by rewrite Hsame1|].
    rewrite Hout, Hd2 in Hb2. rewrite Hd1 in Hb1.
    exists (log :: b1 ++ ex1 :: b2), ex2, ok2, r2, st3, (k1 + k2). split_and!; try done.
    + simpl. by rewrite <- app_assoc.
    + unfold outer_body in Hb1. destruct (String.eqb_spec callee program_id) as [->|Hne];
        [by eapply foreign_enter|by eapply foreign_call].
    + eapply entry_changed_ext, (entry_changed_trans _ _ _ _ _ _
        (entry_changed_trans _ _ _ _ _ _ (entry_changed_same _ _ _ Hsame1) Hent2) Hent3).
      apply add_calls_add.
    + congruence.
  - rewrite Hs in Hs0. injection Hs0 as <- <-.
    destruct (exit_settled st f below log ok logs final) as (st3 & Hr3 & Hs3 & Hsame & Hn3); try done.
    exists [], log, ok, logs, st3, 0. split_and!; try done; [constructor|].
    apply entry_changed_ext with (g1 := fun e => e); [by rewrite add_calls_0|].
    by apply entry_changed_same.
  - assert (coverage_line program_id st log = st) as Hline.
    { unfold coverage_line. rewrite Hs, Fs. by apply String.eqb_neq in Fp as ->. }
    rewrite Hline in Hrest.
    destruct (IH logs st f below final)
      as (b2 & ex2 & ok2 & r2 & st3 & k2 & -> & Hex2 & Hb2 & Hr2 & Hs3 & Hent3 & Hn3); try done;
      [lia|lia|].
    exists (log :: b2), ex2, ok2, r2, st3, k2. rewrite Hout in Hb2. split_and!; try done.
    by apply foreign_line.
Qed.

Lemma invoke_instruction st program st1 :
  cv_stack st = [] -> coverage_invoke program_id st program 1 = Ok st1 ->
  cv_stack st1 = [{| fr_program_id := program;
                     fr_instruction_index := cv_next_instruction_index st;
                     fr_is_target_self_cpi := false; fr_silent_candidate := false;
                     fr_candidate_for_pending_event := false |}] /\
  cv_next_instruction_index st1 = cv_next_instruction_index st + 1 /\ same_entries st st1.
Proof.
  intros Hs. unfold coverage_invoke. rewrite Hs. change (depth_is_invalid [] 1) with false. csimpl.
  destruct (checked_add_u 16 _ 1) as [next|] eqn:E; [|done]. apply checked_add_u_Some in E as [-> _].
  csimpl. rewrite andb_false_r. by intros [= <-].
Qed.

(** The entry of an instruction with [k] pairs and nothing open. *)
Definition settled_entry (k : Z) : SelfCpiCoverage := add_calls k cpi_default.

Lemma transaction_paired n logs st final m :
  (length logs <= n)%nat -> cv_stack st = [] -> Z.of_nat (length logs) <= u64_max ->
  cv_next_instruction_index st = Z.of_nat m ->
  (forall i, entry st (Z.of_nat (m + i)) = cpi_default) ->
  loop st logs = Ok final -> cv_stack final = [] -> gap_free final ->
  exists ks, paired_transaction program_id logs ks /\
    (forall i, entry final (Z.of_nat (m + i)) = settled_entry (default 0 (ks !! i))) /\
    (forall j, j < Z.of_nat m -> entry final j = entry st j).
Proof.
  revert logs st m. induction n as [|n IH]; intros [|log logs] st m Hn Hs Hd Hm Hdef Hloop Hfin Hgap;
    cbn [length] in Hn, Hd; try lia.
  1, 2: simpl in Hloop; injection Hloop as <-; exists []; split; [constructor|];
    split; [|done]; intros i; by rewrite Hdef.
  simpl in Hloop. apply bind_Ok in Hloop as (st1 & Hstep & Hrest).
  destruct (step_cases st log st1) as [(callee & Hinv & Hci)|[(f0 & below0 & ok & Hs0 & _)|(Hplain & ->)]];
    [unfold depth_of, stack_depth; rewrite Hs; simpl; int_lia|done| |congruence|].
  - assert (depth_of st + 1 = 1) as Hd0 by (unfold depth_of, stack_depth; by rewrite Hs).
    rewrite Hd0 in Hci, Hinv. apply (invoke_instruction _ _ _ Hs) in Hci as (Hs1 & Hn1 & Hsame1).
    assert (depth_of st1 = 1) as Hd1 by (unfold depth_of, stack_depth; by rewrite Hs1).
    destruct (foreign_exists (length logs) logs st1 _ [] final (le_n _) Hs1)
      as (b & ex & ok & r & st2 & k & -> & Hex & Hb & Hr & Hs2 & Hent2 & Hn2); try done.
    { rewrite Hd1. lia. }
    { simpl. rewrite Hsame1, Hm. specialize (Hdef 0%nat). rewrite Nat.add_0_r in Hdef. by rewrite Hdef. }
    simpl in Hex, Hb, Hent2. rewrite Hd1 in Hb. rewrite length_app in Hn, Hd. cbn [length] in Hn, Hd.
    destruct (IH r st2 (S m)) as (ks & Hks & Hentr & Hlow); try done; [lia|lia| | |].
    { rewrite Hn2, Hn1, Hm. lia. }
    { intros i. rewrite Hent2, Hsame1, bool_decide_false by lia.
      replace (S m + i)%nat with (m + S i)%nat by lia. apply Hdef. }
    exists (k :: ks). split; [by eapply ptx_instruction|]. split.
    + intros [|i]; simpl.
      * rewrite Nat.add_0_r, Hlow, Hent2, Hsame1, Hm, bool_decide_true by lia.
        specialize (Hdef 0%nat). rewrite Nat.add_0_r in Hdef. by rewrite Hdef.
      * replace (m + S i)%nat with (S m + i)%nat by lia. apply Hentr.
    + intros j Hj. rewrite Hlow, Hent2, Hsame1, Hm, bool_decide_false by lia. done.
  - assert (coverage_line program_id st log = st) as Hline by (unfold coverage_line; by rewrite Hs).
    rewrite Hline in Hrest. destruct (IH logs st m) as (ks & Hks & Hent); try done; [lia|lia|].
    exists ks. split; [by apply ptx_line|done].
Qed.

(** ** Complete evidence *)
Lemma bt_get_in {V} k (v : V) (m : btree Z V) : bt_get k m = Some v -> (k, v) ∈ m.
Proof.
  induction m as [|[k' v'] m IH]; simpl; [done|]. destruct (Z.compare k k') eqn:E; intros H;
    [apply Z.compare_eq_iff in E as ->; injection H as ->; by left|by right; apply IH..].
Qed.

Lemma complete_coverage_is_paired logs cov direct :
  Z.of_nat (length logs) <= u64_max ->
  successful_self_cpi_coverage program_id logs = Ok cov ->
  event_cpi_coverage_is_incomplete cov direct = false ->
  exists ks, paired_transaction program_id logs ks /\
    forall i, let d := default direct_default (bt_get (Z.of_nat i) direct) in
      dc_invalid_event d = false /\ (0 <= dc_eligible_events d -> dc_eligible_events d = default 0 (ks !! i)).
Proof.
  intros Hlen (st & Hloop & Hst)%bind_Ok [Hcov Hdir]%orb_false_iff.
  destruct (cv_stack st) eqn:Hs; [injection Hst as <-|done].
  rewrite <- not_true_iff_false, existsb_exists in Hcov, Hdir.
  assert (forall i e, bt_get i (cv_coverage st) = Some e ->
    let d := default direct_default (bt_get i direct) in
    cc_pairing_gap e = false /\ dc_invalid_event d = false /\
    cc_successful_event_calls e = dc_eligible_events d) as Hin.
  { intros i e He%bt_get_in d.
    destruct (cc_pairing_gap e || cc_pending_direct_event e || dc_invalid_event d ||
      negb (cc_successful_event_calls e =? dc_eligible_events d)) eqn:E.
    - destruct Hcov. exists (i, e). split; [by apply list_elem_of_In|done].
    - repeat (apply orb_false_iff in E as [E ?]). bprop. done. }
  assert (gap_free st) as Hgap.
  { intros j. unfold cpi_entry. destruct (bt_get j (cv_coverage st)) as [e|] eqn:E; [|done].
    by apply Hin in E as [? _]. }
  destruct (transaction_paired (length logs) logs coverage_init st 0)
    as (ks & Hks & Hent & _); try done.
  exists ks. split; [done|]. intros i d. specialize (Hent i). simpl in Hent.
  unfold cpi_entry in Hent. destruct (bt_get (Z.of_nat i) (cv_coverage st)) as [e|] eqn:E.
  - apply Hin in E as (_ & Hinv & Hcalls). simpl in Hent. subst e. simpl in Hcalls. done.
  - assert (default 0 (ks !! i) = 0) as -> by (apply (f_equal cc_successful_event_calls) in Hent; done).
    unfold d. destruct (bt_get (Z.of_nat i) direct) as [e|] eqn:Ed; [|done]. simpl.
    destruct (dc_invalid_event e || (dc_eligible_events e >? 0)) eqn:E2.
    + destruct Hdir. exists (Z.of_nat i, e). split; [by apply list_elem_of_In, bt_get_in|].
      by rewrite E, bool_decide_true.
    + apply orb_false_iff in E2 as [-> E2]. bprop. split; [done|lia].
Qed.
End Coverage.
