(* ===== verification/IntakeProofs.v ===== *)
(** The induction behind [classify_notification]: evidence that does not prove
    itself complete marks the source's windows, and activity is admitted
    exactly once to the windows the disposition names. *)
From S2P Require Import Prelude.
From S2P Require Import RustOrd.
From S2P Require Import BTree.
From S2P Require Import RustStr.
From S2P Require Import Domain.
From S2P Require Import External.
From S2P Require Import PumpModel.
From S2P Require Import BorshReader.
From S2P Require Import PumpDecoder.
From S2P Require Import WindowToken.
From S2P Require Import WindowTokenProofs.
From S2P Require Import WindowRegistry.
From S2P Require Import WindowRegistryInv.
From S2P Require Import WindowRegistryTheorems.
From S2P Require Import RpcModel.
From S2P Require Import Intake.
From S2P Require Import IntakeScope.
From S2P Require Import IntakeCoverage.

Section Scan.
Context {B64 : Base64}.

(** A record that decodes, or carries an event the pinned IDL names. *)
Definition record_known (program : PumpProgram) (r : ScopedProgramData) : Prop :=
  match decode_program_data_log (B64:=B64) (pump_program_id program) (sp_coordinate r) (sp_log r) with
  | Ok _ => True
  | Err (UnknownDiscriminator program' d) => is_pinned_event_discriminator program' d = true
  | Err _ => False
  end.

Definition record_index (r : ScopedProgramData) : Z := instruction_index (sp_coordinate r).
Definition count_at (i : Z) (records : list ScopedProgramData) : Z :=
  Z.of_nat (length (List.filter (fun r => record_index r =? i) records)).

Lemma scan_record_spec program st r :
  ds_decode_gap (scan_record program st r) = false ->
  ds_decode_gap st = false /\ record_known program r /\
  forall i, dc_eligible_events (default direct_default (bt_get i (ds_coverage (scan_record program st r)))) =
    dc_eligible_events (default direct_default (bt_get i (ds_coverage st))) + count_at i [r].
Proof.
  unfold scan_record, record_known, count_at, record_index. simpl.
  set (i0 := instruction_index (sp_coordinate r)).
  assert (forall i cov, dc_eligible_events (default direct_default (bt_get i
      (bt_insert i0 {| dc_eligible_events :=
           dc_eligible_events (default direct_default (bt_get i0 cov)) + 1;
         dc_invalid_event := dc_invalid_event (default direct_default (bt_get i0 cov)) |} cov))) =
    dc_eligible_events (default direct_default (bt_get i cov)) +
    Z.of_nat (length (if i0 =? i then [r] else []))) as Hadd.
  { intros i cov. destruct (Z.eqb_spec i0 i) as [<-|Hne].
    - by rewrite bt_get_insert_eq.
    - rewrite bt_get_insert_ne by done. simpl. lia. }
  destruct (decode_program_data_log _ _ _) as [d|e]; [intros H; split_and!; try done; intros i; apply Hadd|].
  destruct e; try done.
  destruct (is_pinned_event_discriminator _ _); [|done].
  intros H; split_and!; try done; intros i; apply Hadd.
Qed.

Lemma scan_records_spec program records st :
  let st' := fold_left (scan_record program) records st in
  ds_decode_gap st' = false ->
  ds_decode_gap st = false /\ Forall (record_known program) records /\
  forall i, dc_eligible_events (default direct_default (bt_get i (ds_coverage st'))) =
    dc_eligible_events (default direct_default (bt_get i (ds_coverage st))) + count_at i records.
Proof.
  revert st. induction records as [|r records IH]; intros st; simpl.
  { intros H. split_and!; try done. intros i. unfold count_at. simpl. lia. }
  intros H. destruct (IH _ H) as (H1 & H2 & H3).
  destruct (scan_record_spec program st r H1) as (H4 & H5 & H6).
  split_and!; [done|by constructor|]. intros i. rewrite H3, H6. unfold count_at. simpl.
  destruct (record_index r =? i); simpl; lia.
Qed.

Lemma count_at_app i l1 l2 : count_at i (l1 ++ l2) = count_at i l1 + count_at i l2.
Proof. unfold count_at. rewrite List.filter_app, length_app. lia. Qed.

Lemma count_at_records slot_ tx sig k i j ds :
  count_at j (records_from slot_ tx sig k i ds) = if i =? j then Z.of_nat (length ds) else 0.
Proof.
  revert k. induction ds as [|d ds IH]; intros k; [by destruct (i =? j)|].
  rewrite records_from_cons.
  change (scoped_record slot_ tx sig i (Z.of_nat k) d :: records_from slot_ tx sig (S k) i ds)
    with ([scoped_record slot_ tx sig i (Z.of_nat k) d] ++ records_from slot_ tx sig (S k) i ds).
  rewrite count_at_app, IH. unfold count_at, record_index. simpl.
  destruct (i =? j); simpl; lia.
Qed.

Lemma indexed_records_cons slot_ tx sig m ds ins :
  indexed_records slot_ tx sig m (ds :: ins) =
  records_from slot_ tx sig 0 (Z.of_nat m) ds ++ indexed_records slot_ tx sig (S m) ins.
Proof.
  unfold indexed_records. rewrite imap_cons. simpl. rewrite Nat.add_0_r. f_equal. f_equal.
  apply imap_ext. intros k x _. simpl. f_equal. lia.
Qed.

Lemma count_at_indexed_before slot_ tx sig ins m m' :
  (m < m')%nat -> count_at (Z.of_nat m) (indexed_records slot_ tx sig m' ins) = 0.
Proof.
  revert m'. induction ins as [|ds ins IH]; intros m' Hm; [done|].
  rewrite indexed_records_cons, count_at_app, count_at_records, IH by lia.
  destruct (Z.eqb_spec (Z.of_nat m') (Z.of_nat m)); lia.
Qed.

Lemma count_at_indexed slot_ tx sig instructions m i :
  count_at (Z.of_nat (m + i)) (indexed_records slot_ tx sig m instructions) =
  Z.of_nat (length (default [] (instructions !! i))).
Proof.
  revert m i. induction instructions as [|ds ins IH]; intros m i; [done|].
  rewrite indexed_records_cons, count_at_app, count_at_records. destruct i as [|i]; simpl.
  - rewrite Nat.add_0_r, Z.eqb_refl, count_at_indexed_before by lia. lia.
  - destruct (Z.eqb_spec (Z.of_nat m) (Z.of_nat (m + S i))); [lia|].
    replace (m + S i)%nat with (S m + i)%nat by lia. by rewrite IH.
Qed.

(** Evidence that proves itself complete: the log is a transaction whose direct
    events all decode (or are pinned) and pair one to one, in order, with
    silent self-calls of the same instruction. *)
Definition evidence_complete (program : PumpProgram) (n : ProgramLogNotification) : Prop :=
  exists instructions ks,
    transaction (pump_program_id program) (nt_log_messages n) instructions /\
    paired_transaction (pump_program_id program) (nt_log_messages n) ks /\
    (forall i, default 0 (ks !! i) = Z.of_nat (length (default [] (instructions !! i)))) /\
    Forall (record_known program)
      (indexed_records (nt_slot n) None (nt_signature n) 0 instructions).

Lemma evidence_complete_intro program n cov scoped :
  Z.of_nat (length (nt_log_messages n)) <= u64_max ->
  successful_self_cpi_coverage (pump_program_id program) (nt_log_messages n) = Ok cov ->
  scope_program_data_logs (pump_program_id program) (nt_slot n) None (nt_signature n)
    (nt_log_messages n) = Ok scoped ->
  ds_decode_gap (scan_records program scoped) = false ->
  event_cpi_coverage_is_incomplete cov (ds_coverage (scan_records program scoped)) = false ->
  evidence_complete program n.
Proof.
  intros Hlen Hcov (Hsig & ins & Htx & Hb & ->)%scope_spec Hgap Hinc; [|done].
  destruct (complete_coverage_is_paired _ _ _ _ Hlen Hcov Hinc) as (ks & Hks & Hcount).
  destruct (scan_records_spec _ _ _ Hgap) as (_ & Hknown & Helig).
  exists ins, ks. split_and!; try done. intros i.
  specialize (Hcount i). destruct Hcount as [_ Hcount].
  unfold scan_records in Hcount. rewrite Helig in Hcount. simpl in Hcount.
  pose proof (count_at_indexed (nt_slot n) None (nt_signature n) ins 0 i) as Hc. simpl in Hc.
  rewrite Hc in Hcount. symmetry. apply Hcount. lia.
Qed.
End Scan.

(** ** What the classification does to the registry *)

(** Cells moved by the classification alone: only the admission counter and the
    failure reason, and the latter only once. *)
Record cells_after (admitted : Z) (c c' : TokenCells) : Prop := {
  ca_state : tc_state c' = tc_state c;
  ca_durable : tc_durable_window_id c' = tc_durable_window_id c;
  ca_admitted : tc_admitted c' = tc_admitted c + admitted;
  ca_settled : tc_settled c' = tc_settled c;
  ca_finalized : tc_finalized c' = tc_finalized c;
  ca_incomplete : tc_incomplete_reason c <> WINDOW_COMPLETE ->
    tc_incomplete_reason c' = tc_incomplete_reason c;
}.

Lemma cells_after_refl c : cells_after 0 c c.
Proof. constructor; try done. lia. Qed.

Lemma cells_after_trans a b c1 c2 c3 :
  cells_after a c1 c2 -> cells_after b c2 c3 -> cells_after (a + b) c1 c3.
Proof.
  intros [S1 D1 A1 T1 F1 I1] [S2 D2 A2 T2 F2 I2]. constructor; try congruence; [lia|].
  intros H. rewrite I2; [by apply I1|]. by rewrite I1.
Qed.

Lemma cells_after_incomplete r c : cells_after 0 c (mark_incomplete r c).2.
Proof.
  unfold mark_incomplete. destruct (Z.eqb_spec (tc_incomplete_reason c) WINDOW_COMPLETE);
    [|apply cells_after_refl]. by constructor; simpl; try lia.
Qed.

Lemma incomplete_some c : cells_ok c ->
  tc_incomplete_reason c <> WINDOW_COMPLETE <-> incomplete_reason c <> None.
Proof.
  intros [_ R _ _ _ _]. unfold incomplete_reason. split.
  - intros H. apply reason_from_code_Some. unfold_states. lia.
  - intros H Hc. apply H. by rewrite Hc.
Qed.

Lemma mark_incomplete_incomplete r c : tc_incomplete_reason (mark_incomplete r c).2 <> WINDOW_COMPLETE.
Proof.
  unfold mark_incomplete. destruct (Z.eqb_spec (tc_incomplete_reason c) WINDOW_COMPLETE); simpl; [|done].
  pose proof (reason_code_range r). unfold_states. lia.
Qed.

Section Classification.
Context {B64 : Base64}.
Context (n : nat) (w : World) (at_ : Z).

Definition counted (tracked : list Token) (t : Token) : Z := if bool_decide (t ∈ tracked) then 1 else 0.

(** The state of the classification after any prefix of its work. *)
Record classify_ok (st : ClassifyState) : Prop := {
  co_world : world_ok n (cl_world st);
  co_windows : windows (reg (cl_world st)) = windows (reg w);
  co_retained : retained (reg (cl_world st)) = retained (reg w);
  co_targets : NoDup (tok_target <$> cl_tracked_windows st);
  co_tracked t : t ∈ cl_tracked_windows st ->
    windows (reg w) !! tok_target t = Some t /\ is_open_at (heap w) t at_ = true;
  co_cells t : t ∈ registry_tokens (reg w) ->
    cells_after (counted (cl_tracked_windows st) t) (cells_of (heap w) t)
      (cells_of (heap (cl_world st)) t);
}.

Lemma registry_tokens_ext r r' :
  windows r = windows r' -> retained r = retained r' -> registry_tokens r = registry_tokens r'.
Proof. unfold registry_tokens. by intros -> ->. Qed.

Lemma co_tokens st : classify_ok st -> registry_tokens (reg (cl_world st)) = registry_tokens (reg w).
Proof. intros H. apply registry_tokens_ext; apply H. Qed.

Lemma is_open_at_after a h h' t :
  cells_after a (cells_of h t) (cells_of h' t) -> is_open_at h' t at_ = is_open_at h t at_.
Proof. intros H. unfold is_open_at, state_open. by rewrite (ca_state _ _ _ H). Qed.

Lemma gap_affects_after a h h' p t :
  cells_after a (cells_of h t) (cells_of h' t) -> gap_affects h' p at_ t = gap_affects h p at_ t.
Proof. intros H. unfold gap_affects. by rewrite (ca_finalized _ _ _ H). Qed.

(** A gap marks the windows of its source and nothing else. *)
Lemma with_gap_ok program reason malformed st :
  classify_ok st -> classify_ok (with_gap program at_ reason malformed st) /\
  forall t, t ∈ registry_tokens (reg w) -> gap_affects (heap w) (pump_source_program program) at_ t = true ->
    tc_incomplete_reason (cells_of (heap (cl_world (with_gap program at_ reason malformed st))) t)
      <> WINDOW_COMPLETE.
Proof.
  intros Hst. pose proof (co_tokens _ Hst) as Htok. destruct Hst as [Hw Hwin Hret Hnd Htr Hc].
  pose proof (gap_marks_spec n _ (pump_source_program program) at_ reason Hw) as H.
  pose proof (ok_gap n _ (pump_source_program program) at_ reason Hw) as Hw'.
  unfold with_gap. simpl. destruct (record_source_coverage_gap _ _ _ _) as [k w']. simpl in *.
  destruct H as (Heff & Hinc & _ & Hwin' & Hret'). rewrite Htok in Heff, Hinc. split.
  - constructor; simpl; try done; try congruence.
    intros t Ht. rewrite Heff by done. specialize (Hc t Ht).
    destruct (gap_affects _ _ _ _); [|done].
    rewrite <- (Z.add_0_r (counted _ _)). eapply cells_after_trans; [done|apply cells_after_incomplete].
  - intros t Ht Hg. rewrite Heff, (gap_affects_after _ _ _ _ _ (Hc t Ht)), Hg by done.
    apply mark_incomplete_incomplete.
Qed.

(** Activity on a target is kept when its window, if open at receipt, is
    tracked or marked incomplete. *)
Definition target_kept (st : ClassifyState) (target : ObservationTarget) : Prop :=
  forall t, windows (reg w) !! target = Some t -> is_open_at (heap w) t at_ = true ->
    t ∈ cl_tracked_windows st \/
    tc_incomplete_reason (cells_of (heap (cl_world st)) t) <> WINDOW_COMPLETE.

Definition activity_kept (st : ClassifyState) (d : DecodedPumpEvent) : Prop :=
  forall target, event_tracking_target (dp_event d) = Some target -> target_kept st target.

(** What later work can only add to. *)
Record classify_le (st st' : ClassifyState) : Prop := {
  cle_tracked : cl_tracked_windows st ⊆ cl_tracked_windows st';
  cle_incomplete t : t ∈ registry_tokens (reg w) ->
    tc_incomplete_reason (cells_of (heap (cl_world st)) t) <> WINDOW_COMPLETE ->
    tc_incomplete_reason (cells_of (heap (cl_world st')) t) <> WINDOW_COMPLETE;
}.

#[export] Instance classify_le_preorder : PreOrder classify_le.
Proof.
  split; [by constructor|]. intros a b c [T1 I1] [T2 I2]. constructor; [by etrans|eauto].
Qed.

Lemma activity_kept_mono st st' d : classify_le st st' -> activity_kept st d -> activity_kept st' d.
Proof.
  intros [T I] H target Ht t Hw Ho. destruct (H target Ht t Hw Ho) as [?|?]; [left; auto|right].
  apply I; [|done]. by apply (active_token_in _ target).
Qed.

Lemma counted_other l t t' (extra : bool) :
  t' <> t -> counted (l ++ (if extra then [t] else [])) t' = counted l t'.
Proof.
  intros Hne. unfold counted. apply (f_equal (fun b : bool => if b then 1 else 0)), bool_decide_ext.
  rewrite elem_of_app. destruct extra; rewrite ?list_elem_of_singleton, ?elem_of_nil; naive_solver.
Qed.

Lemma counted_self l t (extra : bool) :
  (if extra then ~ t ∈ l else True) ->
  counted (l ++ (if extra then [t] else [])) t = counted l t + (if extra then 1 else 0).
Proof.
  destruct extra; [|by rewrite app_nil_r, Z.add_0_r]. intros H. unfold counted.
  rewrite (bool_decide_eq_false_2 (t ∈ l)), bool_decide_eq_true_2; [done|set_solver|done].
Qed.

(** A change of one token's cells. *)
Lemma update_tracked_ok st st' t f extra :
  classify_ok st -> cell_op f ->
  windows (reg w) !! tok_target t = Some t -> is_open_at (heap w) t at_ = true ->
  cl_world st' = with_heap (update_cells f t (heap (cl_world st))) (cl_world st) ->
  cl_tracked_windows st' = cl_tracked_windows st ++ (if extra : bool then [t] else []) ->
  (if extra then ~ tok_target t ∈ tok_target <$> cl_tracked_windows st else True) ->
  cells_after (if extra then 1 else 0) (cells_of (heap (cl_world st)) t)
    (f (cells_of (heap (cl_world st)) t)) ->
  classify_ok st' /\ classify_le st st'.
Proof.
  intros Hst Hf Hk Ho Hw' Htr' Hextra Hcell. pose proof Hst as [Hw Hwin Hret Hnd Htr Hc].
  assert (world_ok n (cl_world st')) as Hok.
  { rewrite Hw'. apply ok_update; [done|done|]. apply (wf_alloc _ _ Hw). rewrite (co_tokens _ Hst).
    by apply (active_token_in _ (tok_target t)). }
  assert (forall t', t' ∈ registry_tokens (reg w) -> tok_cells t' = tok_cells t -> t' = t) as Huniq.
  { intros t' Ht' Heq. apply (token_unique n (cl_world st)); rewrite ?(co_tokens _ Hst); try done.
    by apply (active_token_in _ (tok_target t)). }
  split; constructor.
  - done.
  - by rewrite Hw'.
  - by rewrite Hw'.
  - rewrite Htr', fmap_app. destruct extra; [|by rewrite app_nil_r]. csimpl.
    apply NoDup_app. split_and!; [done| |by apply NoDup_singleton].
    intros x Hx ->%list_elem_of_singleton. done.
  - intros t'. rewrite Htr', elem_of_app. intros [?|Ht']; [by apply Htr|].
    destruct extra; [|by apply elem_of_nil in Ht']. by apply list_elem_of_singleton in Ht' as ->.
  - intros t' Ht'. rewrite Hw'. simpl. destruct (decide (tok_cells t' = tok_cells t)) as [Heq|Hne].
    + assert (t' = t) as -> by auto. rewrite cells_of_update_eq.
      rewrite Htr', counted_self; [by eapply cells_after_trans; [by apply Hc|]|].
      destruct extra; [|done]. intros H. apply Hextra. by apply list_elem_of_fmap_2.
    + rewrite cells_of_update_ne, Htr', counted_other by (done || congruence). by apply Hc.
  - rewrite Htr'. intros x Hx. apply elem_of_app. by left.
  - intros t' Ht' Hinc. rewrite Hw'. simpl. destruct (decide (tok_cells t' = tok_cells t)) as [Heq|Hne].
    + assert (t' = t) as -> by auto. rewrite cells_of_update_eq. by rewrite (ca_incomplete _ _ _ Hcell).
    + by rewrite cells_of_update_ne.
Qed.

Lemma mark_admitted_after c : (mark_admitted c).1 = true -> cells_after 1 c (mark_admitted c).2.
Proof.
  unfold mark_admitted. destruct (tc_finalized c); [done|].
  destruct (checked_add_u 64 (tc_admitted c) 1) as [m|] eqn:E; [|done].
  apply checked_add_u_Some in E as [-> _]. intros _. by constructor.
Qed.

Lemma classify_ok_same st st' :
  cl_world st' = cl_world st -> cl_tracked_windows st' = cl_tracked_windows st ->
  classify_ok st -> classify_ok st' /\ classify_le st st'.
Proof.
  intros E1 E2 [H1 H2 H3 H4 H5 H6]. split; constructor; by rewrite ?E1, ?E2.
Qed.

Lemma matching_before st target t :
  classify_ok st ->
  matching_token (cl_world st) target at_ = Some t <->
  windows (reg w) !! target = Some t /\ is_open_at (heap w) t at_ = true.
Proof.
  intros Hst. rewrite matching_token_active, (co_windows _ Hst).
  assert (windows (reg w) !! target = Some t ->
    is_open_at (heap (cl_world st)) t at_ = is_open_at (heap w) t at_) as H.
  { intros Hk. eapply is_open_at_after, (co_cells _ Hst). by apply (active_token_in _ target). }
  split; intros [Hk Ho]; split; try done; specialize (H Hk); congruence.
Qed.

(** Admission of a target no tracked window has. *)
Lemma admit_target_ok st st' target :
  classify_ok st -> ~ target ∈ tok_target <$> cl_tracked_windows st ->
  cl_world st' = (admit_matching_token (cl_world st) target at_).2 ->
  cl_tracked_windows st' = cl_tracked_windows st ++
    match (admit_matching_token (cl_world st) target at_).1 with Some t => [t] | None => [] end ->
  classify_ok st' /\ classify_le st st' /\ target_kept st' target.
Proof.
  intros Hst Hnew. unfold admit_matching_token, target_kept.
  destruct (matching_token _ target at_) as [t|] eqn:Hm.
  - apply matching_before in Hm as [Hk Ho]; [|done].
    assert (tok_target t = target) as Htt.
    { apply (wf_target _ _ (co_world _ Hst)). by rewrite (co_windows _ Hst). }
    subst target. destruct (mark_admitted (cells_of (heap (cl_world st)) t)).1 eqn:Em; simpl; intros E1 E2.
    + destruct (update_tracked_ok st st' t (fun c => (mark_admitted c).2) true);
        auto using mark_admitted_after with cells.
      split_and!; [done|done|]. intros t' Hk' _. left. rewrite E2, Hk in *. set_solver.
    + destruct (update_tracked_ok st st' t (fun c => (mark_incomplete QueueOverflow c).2) false);
        auto using cells_after_incomplete with cells.
      split_and!; [done|done|]. intros t' Hk' _. right. assert (t' = t) as -> by congruence.
      rewrite E1. simpl. rewrite cells_of_update_eq. apply mark_incomplete_incomplete.
  - simpl. rewrite app_nil_r. intros E1 E2. destruct (classify_ok_same st st' E1 E2 Hst).
    split_and!; [done|done|]. intros t Hk Ho. exfalso.
    pose proof (proj2 (matching_before st target t Hst) (conj Hk Ho)). congruence.
Qed.

Lemma classify_event_ok network age now st d :
  classify_ok st ->
  let st' := classify_event network age at_ now st d in
  classify_ok st' /\ classify_le st st' /\
  (discovery_seed (dp_event d) network = None -> activity_kept st' d).
Proof.
  intros Hst. unfold classify_event. cbv zeta.
  destruct (discovery_seed (dp_event d) network) as [seed|] eqn:Hseed.
  { assert (forall st', cl_world st' = cl_world st ->
      cl_tracked_windows st' = cl_tracked_windows st ->
      classify_ok st' /\ classify_le st st' /\ (Some seed = None -> activity_kept st' d)) as H.
    { intros st' E1 E2. destruct (classify_ok_same st st' E1 E2 Hst). by split_and!. }
    destruct (discovery_event_is_fresh _ _ _); [destruct (existsb _ _)|]; by apply H. }
  unfold activity_kept. destruct (event_tracking_target (dp_event d)) as [target|]; [|by split_and!].
  destruct (existsb _ (cl_tracked_windows st)) eqn:Hex.
  - split_and!; [done|done|]. intros _ target' [= <-] t Hk _. left.
    apply existsb_exists in Hex as (t' & Ht' & Heq%bool_decide_eq_true).
    apply list_elem_of_In in Ht'. destruct (co_tracked _ Hst t' Ht') as [Hk' _]. congruence.
  - match goal with |- context [let '(a, w0) := ?p in _] => destruct p as [admitted w'] eqn:Ha end.
    match goal with |- classify_ok ?s /\ _ => destruct (admit_target_ok st s target) as (H1 & H2 & H3) end;
      [done| |by rewrite Ha|by rewrite Ha|].
    { intros (t' & Heq & Ht')%list_elem_of_fmap. apply not_true_iff_false in Hex. apply Hex.
      apply existsb_exists. exists t'. split; [by apply list_elem_of_In|].
      by apply bool_decide_eq_true. }
    split_and!; [done|done|]. by intros _ target' [= <-].
Qed.

Lemma classify_events_ok network age now ds st :
  classify_ok st ->
  let st' := fold_left (classify_event network age at_ now) ds st in
  classify_ok st' /\ classify_le st st' /\
  forall d, d ∈ ds -> discovery_seed (dp_event d) network = None -> activity_kept st' d.
Proof.
  revert st. induction ds as [|d ds IH]; intros st Hst; simpl; [split_and!; set_solver|].
  destruct (classify_event_ok network age now st d Hst) as (H1 & H2 & H3).
  destruct (IH _ H1) as (I1 & I2 & I3). split_and!; [done|by etrans|].
  intros d' [->|Hd']%elem_of_cons Hs; [|by apply I3]. eapply activity_kept_mono; [done|by apply H3].
Qed.

(** What the notification obliges the classification to for one program. *)
Definition source_marked (st : ClassifyState) (program : PumpProgram) : Prop :=
  forall t, t ∈ registry_tokens (reg w) ->
    gap_affects (heap w) (pump_source_program program) at_ t = true ->
    tc_incomplete_reason (cells_of (heap (cl_world st)) t) <> WINDOW_COMPLETE.

Definition program_settled (nt : ProgramLogNotification) (network : Network) (st : ClassifyState)
    (program : PumpProgram) : Prop :=
  notification_mentions_program (pump_program_id program) (nt_log_messages nt) = true ->
  (evidence_complete program nt \/ source_marked st program) /\
  forall cov scoped,
    successful_self_cpi_coverage (pump_program_id program) (nt_log_messages nt) = Ok cov ->
    scope_program_data_logs (pump_program_id program) (nt_slot nt) None (nt_signature nt)
      (nt_log_messages nt) = Ok scoped ->
    forall d, d ∈ ds_events (scan_records program scoped) ->
      discovery_seed (dp_event d) network = None -> activity_kept st d.

Lemma program_settled_mono nt network st st' program :
  classify_le st st' -> program_settled nt network st program -> program_settled nt network st' program.
Proof.
  intros Hle H Hm. destruct (H Hm) as [H1 H2]. split.
  - destruct H1 as [?|Hmark]; [by left|right]. intros t Ht Hg. apply (cle_incomplete _ _ Hle); auto.
  - intros cov scoped Hc Hs d Hd Hseed. eapply activity_kept_mono; [done|]. by eapply H2.
Qed.

Lemma with_gap_le program reason malformed st :
  classify_ok st -> classify_le st (with_gap program at_ reason malformed st).
Proof.
  intros Hst. pose proof (gap_marks_spec n _ (pump_source_program program) at_ reason (co_world _ Hst)) as H.
  constructor; [done|]. intros t Ht Hinc. unfold with_gap. simpl.
  destruct (record_source_coverage_gap _ _ _ _) as [k w']. simpl. destruct H as (Heff & _).
  rewrite Heff by (by rewrite co_tokens). destruct (gap_affects _ _ _ _); [|done].
  apply mark_incomplete_incomplete.
Qed.

Lemma classify_program_ok nt network age now st program :
  Z.of_nat (length (nt_log_messages nt)) <= u64_max ->
  classify_ok st ->
  let st' := classify_program nt network age at_ now st program in
  classify_ok st' /\ classify_le st st' /\ program_settled nt network st' program.
Proof.
  intros Hlen Hst. unfold classify_program, program_settled. cbv zeta.
  destruct (notification_mentions_program _ _) eqn:Hm; simpl; [|by split_and!].
  pose proof (fun reason malformed => with_gap_le program reason malformed st Hst) as Hle.
  pose proof (fun reason malformed => with_gap_ok program reason malformed st Hst) as Hgap.
  destruct (successful_self_cpi_coverage _ _) as [cov|e] eqn:Hcov.
  2:{ destruct (Hgap DecodeGap true) as [G1 G2]. split_and!; [done|done|]. intros _. split; [by right|done]. }
  destruct (scope_program_data_logs _ _ _ _ _) as [scoped|e] eqn:Hsc.
  2:{ destruct (Hgap DecodeGap true) as [G1 G2]. split_and!; [done|done|]. intros _. split; [by right|done]. }
  match goal with |- context [fold_left _ _ ?s] => set (st1 := s) end.
  assert (classify_ok st1 /\ classify_le st st1 /\ (evidence_complete program nt \/ source_marked st1 program))
    as (H1 & H2 & H3).
  { unfold st1. destruct (ds_decode_gap _) eqn:Hg;
      [destruct (Hgap DecodeGap true); split_and!; [done|done|by right]|].
    destruct (event_cpi_coverage_is_incomplete _ _) eqn:Hi;
      [destruct (Hgap CpiInstructionDataUnavailable false); split_and!; [done|done|by right]|].
    split_and!; [done|done|]. left. by eapply evidence_complete_intro. }
  destruct (classify_events_ok network age now (ds_events (scan_records program scoped)) st1 H1)
    as (E1 & E2 & E3).
  split_and!; [done|by etrans|]. intros _. split.
  - destruct H3 as [?|H3]; [by left|right]. intros t Ht Hg. apply (cle_incomplete _ _ E2); auto.
  - by intros cov' scoped' [= <-] [= <-].
Qed.
End Classification.
