(* ===== verification/IntakeTheorems.v ===== *)
(** What [classify_notification] guarantees: evidence that does not prove
    itself complete marks the source's windows, and activity is admitted
    exactly once to the windows the disposition names. *)
From S2P Require Import Prelude.
From S2P Require Import ListFacts.
From S2P Require Import RustOrd.
From S2P Require Import BTree.
From S2P Require Import RustStr.
From S2P Require Import Domain.
From S2P Require Import External.
From S2P Require Import PumpModel.
From S2P Require Import BorshReader.
From S2P Require Import PumpDecoder.
From S2P Require Import PumpWire.
From S2P Require Import WindowToken.
From S2P Require Import WindowTokenProofs.
From S2P Require Import WindowRegistry.
From S2P Require Import WindowRegistryInv.
From S2P Require Import WindowRegistryTheorems.
From S2P Require Import RpcModel.
From S2P Require Import Intake.
From S2P Require Import IntakeScope.
From S2P Require Import IntakeCoverage.
From S2P Require Import IntakeProofs.

(** ** Where the events come from *)
Section Provenance.
Context {B64 : Base64}.

Lemma scope_step_logs program_id slot_ tx sig st log st' :
  scope_step program_id slot_ tx sig st log = Ok st' ->
  forall r, r ∈ sc_scoped st' -> r ∈ sc_scoped st \/ sp_log r = log.
Proof.
  unfold scope_step, scope_invoke, scope_exit, scope_emit. intros H r Hr.
  repeat first [case_match; simplify_eq/= | destruct (checked_add_u _ _ _); simplify_eq/=];
    try (by left).
  apply elem_of_app in Hr as [Hr| ->%list_elem_of_singleton]; [by left|by right].
Qed.

Lemma scope_loop_logs program_id slot_ tx sig logs st st' :
  scope_loop program_id slot_ tx sig st logs = Ok st' ->
  forall r, r ∈ sc_scoped st' -> r ∈ sc_scoped st \/ sp_log r ∈ logs.
Proof.
  revert st. induction logs as [|log logs IH]; intros st H r Hr; simpl in H.
  { simplify_eq. by left. }
  destruct (scope_step _ _ _ _ _ _) as [st1|] eqn:E; [|done]. simpl in H.
  destruct (IH _ H r Hr) as [Hr'|?]; [|right; by right].
  destruct (scope_step_logs _ _ _ _ _ _ _ E r Hr') as [?| ->]; [by left|right; left].
Qed.

Lemma scoped_logs_subset program_id slot_ tx sig logs scoped :
  scope_program_data_logs program_id slot_ tx sig logs = Ok scoped ->
  forall r, r ∈ scoped -> sp_log r ∈ logs.
Proof.
  unfold scope_program_data_logs. destruct (is_empty _); [done|].
  destruct (scope_loop _ _ _ _ _ _) as [st|] eqn:E; [|done]. simpl.
  destruct (sc_stack st); [|done]. intros [= <-] r Hr.
  destruct (scope_loop_logs _ _ _ _ _ _ _ E r Hr) as [H|H]; [|done]. by apply elem_of_nil in H.
Qed.

Lemma scan_records_events program records st d :
  d ∈ ds_events (fold_left (scan_record program) records st) ->
  d ∈ ds_events st \/ exists r, r ∈ records /\
    decode_program_data_log (pump_program_id program) (sp_coordinate r) (sp_log r) = Ok d.
Proof.
  revert st. induction records as [|r records IH]; intros st Hd; simpl in Hd; [by left|].
  apply IH in Hd as [Hd|(r' & Hr' & ?)]; [|right; exists r'; split; [by right|done]].
  unfold scan_record in Hd. destruct (decode_program_data_log _ _ _) as [d0|e] eqn:E; simpl in Hd.
  - apply elem_of_app in Hd as [?| ->%list_elem_of_singleton]; [by left|].
    right. exists r. split; [left|done].
  - left. destruct e; try done. by destruct (is_pinned_event_discriminator _ _).
Qed.

(** An event the notification's logs carry. *)
Definition logged_event (nt : ProgramLogNotification) (d : DecodedPumpEvent) : Prop :=
  exists program r, program ∈ PUMP_PROGRAMS /\ sp_log r ∈ nt_log_messages nt /\
    decode_program_data_log (pump_program_id program) (sp_coordinate r) (sp_log r) = Ok d.

Definition tracked_from (nt : ProgramLogNotification) (tracked : list Token) : Prop :=
  forall t, t ∈ tracked ->
    exists d, logged_event nt d /\ event_tracking_target (dp_event d) = Some (tok_target t).

Lemma classify_event_from n w at_ nt network age now st d :
  classify_ok n w at_ st -> logged_event nt d -> tracked_from nt (cl_tracked_windows st) ->
  tracked_from nt (cl_tracked_windows (classify_event network age at_ now st d)).
Proof.
  intros Hst Hd Hfrom t. unfold classify_event.
  destruct (discovery_seed _ _); [destruct (discovery_event_is_fresh _ _ _); [destruct (existsb _ _)|]; apply Hfrom|].
  destruct (event_tracking_target (dp_event d)) as [target|] eqn:Ht; [|apply Hfrom].
  destruct (existsb _ _); [apply Hfrom|]. unfold admit_matching_token.
  destruct (matching_token (cl_world st) target at_) as [t0|] eqn:Hm; simpl;
    [|rewrite app_nil_r; apply Hfrom].
  destruct (mark_admitted _).1; simpl; [|rewrite app_nil_r; apply Hfrom].
  intros [?| ->%list_elem_of_singleton]%elem_of_app; [by apply Hfrom|].
  exists d. split; [done|]. apply matching_token_active in Hm as [Hk _].
  by rewrite (wf_target _ _ (co_world _ _ _ _ Hst) _ _ Hk).
Qed.

Lemma classify_events_from n w at_ nt network age now ds st :
  classify_ok n w at_ st -> (forall d, d ∈ ds -> logged_event nt d) ->
  tracked_from nt (cl_tracked_windows st) ->
  tracked_from nt (cl_tracked_windows (fold_left (classify_event network age at_ now) ds st)).
Proof.
  revert st. induction ds as [|d ds IH]; intros st Hst Hds Hfrom; simpl; [done|].
  apply IH; [by apply classify_event_ok|intros; apply Hds; by right|].
  eapply classify_event_from; [done|apply Hds; left|done].
Qed.
End Provenance.

(** ** One notification *)
Section Notification.
Context {B64 : Base64}.

Lemma classify_program_from n w at_ nt network age now st program :
  program ∈ PUMP_PROGRAMS -> classify_ok n w at_ st -> tracked_from nt (cl_tracked_windows st) ->
  tracked_from nt (cl_tracked_windows (classify_program nt network age at_ now st program)).
Proof.
  intros Hp Hst Hfrom. unfold classify_program. cbv zeta.
  destruct (negb _); [done|]. destruct (successful_self_cpi_coverage _ _); [|done].
  destruct (scope_program_data_logs _ _ _ _ _) as [scoped|] eqn:Hsc; [|done].
  apply (classify_events_from n w at_).
  - destruct (ds_decode_gap _); [by apply with_gap_ok|].
    destruct (event_cpi_coverage_is_incomplete _ _); [by apply with_gap_ok|done].
  - intros d Hd. apply scan_records_events in Hd as [Hd|(r & Hr & Hdec)];
      [by apply elem_of_nil in Hd|].
    exists program, r. split_and!; [done| |done]. by apply (scoped_logs_subset _ _ _ _ _ _ Hsc).
  - by repeat case_match.
Qed.

Definition classify_start (w : World) : ClassifyState :=
  {| cl_discoveries := []; cl_tracked_windows := []; cl_stale_discovery := false;
     cl_malformed := false; cl_world := w |}.

Lemma classify_start_ok n w at_ : world_ok n w -> classify_ok n w at_ (classify_start w).
Proof.
  intros Hw. constructor; simpl; try done; [constructor|by intros t ?%elem_of_nil|].
  intros t _. apply cells_after_refl.
Qed.

(** Both programs, one after the other. *)
Lemma classify_programs_ok n w nt network age at_ now :
  world_ok n w -> Z.of_nat (length (nt_log_messages nt)) <= u64_max ->
  let st := fold_left (classify_program nt network age at_ now) PUMP_PROGRAMS (classify_start w) in
  classify_ok n w at_ st /\ tracked_from nt (cl_tracked_windows st) /\
  forall program, program ∈ PUMP_PROGRAMS -> program_settled w at_ nt network st program.
Proof.
  intros Hw Hlen. pose proof (classify_start_ok n w at_ Hw) as H0. simpl.
  destruct (classify_program_ok n w at_ nt network age now _ PumpP Hlen H0) as (H1 & L1 & S1).
  destruct (classify_program_ok n w at_ nt network age now _ PumpSwapP Hlen H1) as (H2 & L2 & S2).
  split_and!; [done| |].
  - apply (classify_program_from n w at_); [right; left|done|].
    apply (classify_program_from n w at_); [left|done|]. by intros t ?%elem_of_nil.
  - intros program Hp. unfold PUMP_PROGRAMS in Hp.
    apply elem_of_cons in Hp as [->|Hp]; [by eapply program_settled_mono|].
    by apply list_elem_of_singleton in Hp as ->.
Qed.

(** The windows whose admission a disposition carries to the queue. *)
Definition tracked_of (d : NotificationDisposition) : list Token :=
  match d with
  | FetchDiscovery _ tracked => tracked
  | CollectTrackedActivity tracked => tracked
  | Drop _ => []
  end.

Lemma tracked_of_disposition st : tracked_of (disposition_of st) = cl_tracked_windows st.
Proof.
  unfold disposition_of. destruct (cl_discoveries st), (cl_tracked_windows st); try done.
  by destruct (cl_stale_discovery st), (cl_malformed st).
Qed.

(** Classifying a notification moves the registry only by admission: a
    failed transaction leaves it untouched, the open and the retained windows
    stay, and on every registered token only the admission counter grows, by
    exactly one for the tokens the disposition carries and not at all for the
    others (a failure reason may be set, never replaced).  The carried tokens
    have distinct targets, are active and open at receipt, and each has an
    event of the notification's own logs that names its target. *)
Theorem classify_admits_logged_activity n w nt network age at_ now :
  (0 < n)%nat -> registry_reachable n w ->
  Z.of_nat (length (nt_log_messages nt)) <= u64_max ->
  let '(d, w') := classify_notification w nt network age at_ now in
  (nt_transaction_error nt <> None -> d = Drop FailedTransaction /\ w' = w) /\
  windows (reg w') = windows (reg w) /\ retained (reg w') = retained (reg w) /\
  NoDup (tok_target <$> tracked_of d) /\
  (forall t, t ∈ tracked_of d ->
     windows (reg w) !! tok_target t = Some t /\ is_open_at (heap w) t at_ = true /\
     exists e, logged_event nt e /\ event_tracking_target (dp_event e) = Some (tok_target t)) /\
  (forall t, t ∈ registry_tokens (reg w) ->
     cells_after (if bool_decide (t ∈ tracked_of d) then 1 else 0)
       (cells_of (heap w) t) (cells_of (heap w') t)).
Proof.
  intros Hn Hr Hlen. pose proof (registry_reachable_ok n w Hn Hr) as Hw.
  unfold classify_notification, notification_succeeded.
  destruct (nt_transaction_error nt) as [e|]; simpl.
  { split_and!; try done; [constructor|by intros t ?%elem_of_nil|].
    intros t _. apply cells_after_refl. }
  destruct (classify_programs_ok n w nt network age at_ now Hw Hlen) as (Hst & Hfrom & _).
  fold (classify_start w). simpl in Hst, Hfrom. rewrite tracked_of_disposition.
  destruct Hst as [_ H1 H2 H3 H4 H5]. split_and!; try done.
  intros t Ht. destruct (H4 t Ht). split_and!; [done|done|by apply Hfrom].
Qed.

(** C29: Classification fails closed.  For every Pump program a successful
    notification invokes, either the logs prove themselves complete (they are
    a well-nested transaction whose program-data lines all decode or are
    pinned and pair one to one with silent self-calls), or every unfinalized
    window of that program's source containing the receipt time ends up marked
    incomplete; and every decoded activity event whose window is open at receipt
    is carried to the queue or leaves that window marked incomplete. *)
Theorem classify_fails_closed n w nt network age at_ now program :
  (0 < n)%nat -> registry_reachable n w ->
  Z.of_nat (length (nt_log_messages nt)) <= u64_max ->
  nt_transaction_error nt = None -> program ∈ PUMP_PROGRAMS ->
  notification_mentions_program (pump_program_id program) (nt_log_messages nt) = true ->
  let '(d, w') := classify_notification w nt network age at_ now in
  (evidence_complete program nt \/
   forall t, t ∈ registry_tokens (reg w) ->
     gap_affects (heap w) (pump_source_program program) at_ t = true ->
     incomplete_reason (cells_of (heap w') t) <> None) /\
  (forall cov scoped e target t,
     successful_self_cpi_coverage (pump_program_id program) (nt_log_messages nt) = Ok cov ->
     scope_program_data_logs (pump_program_id program) (nt_slot nt) None (nt_signature nt)
       (nt_log_messages nt) = Ok scoped ->
     e ∈ ds_events (scan_records program scoped) ->
     event_tracking_target (dp_event e) = Some target ->
     windows (reg w) !! target = Some t -> is_open_at (heap w) t at_ = true ->
     t ∈ tracked_of d \/ incomplete_reason (cells_of (heap w') t) <> None).
Proof.
  intros Hn Hr Hlen Hok Hp Hm. pose proof (registry_reachable_ok n w Hn Hr) as Hw.
  unfold classify_notification, notification_succeeded. rewrite Hok. simpl.
  destruct (classify_programs_ok n w nt network age at_ now Hw Hlen) as (Hst & _ & Hs).
  fold (classify_start w). rewrite tracked_of_disposition.
  simpl in Hst, Hs. destruct (Hs program Hp Hm) as [H1 H2].
  match type of Hst with classify_ok _ _ _ ?s => set (st := s) in * end.
  assert (forall t, t ∈ registry_tokens (reg w) ->
    tc_incomplete_reason (cells_of (heap (cl_world st)) t) <> WINDOW_COMPLETE ->
    incomplete_reason (cells_of (heap (cl_world st)) t) <> None) as Hinc.
  { intros t Ht. apply incomplete_some. apply (cells_ok_token n _ t (co_world _ _ _ _ Hst)).
    by rewrite (co_tokens _ _ _ _ Hst). }
  split.
  - destruct H1 as [?|H1]; [by left|right]. intros t Ht Hg. apply Hinc; [done|]. by apply H1.
  - intros cov scoped e target t Hc Hsc He Ht Hk Ho.
    assert (discovery_seed (dp_event e) network = None) as Hseed by (by destruct (dp_event e)).
    destruct (H2 cov scoped Hc Hsc e He Hseed target Ht t Hk Ho) as [?|?]; [by left|right].
    apply Hinc; [|done]. by apply (active_token_in _ target).
Qed.
End Notification.

(** ** One event of an open window, without and with its silent self-call *)
#[local] Existing Instance Hexish.codec.
Module SampleIntake.
Definition target : ObservationTarget := PumpMint Sample.key.
Definition world : World := (provision_target 2 world_init target Sample.key 100 50).2.
Definition token : Token := (provision_target 2 world_init target Sample.key 100 50).1.(pv_token).
Definition invoke (depth : string) : string :=
  ("Program " +:+ PUMP_PROGRAM_ID +:+ " invoke [" +:+ depth +:+ "]")%string.
Definition success : string := ("Program " +:+ PUMP_PROGRAM_ID +:+ " success")%string.
Definition notification (logs : list string) : ProgramLogNotification := {|
  nt_subscription_id := 1; nt_slot := 7; nt_signature := "sig"; nt_log_messages := logs;
  nt_transaction_error := None |}.
Definition corroborated : ProgramLogNotification :=
  notification [invoke "1"; Sample.log; invoke "2"; success; success].
Definition uncorroborated : ProgramLogNotification :=
  notification [invoke "1"; Sample.log; success].

Lemma world_reachable : registry_reachable 2 world.
Proof. eapply rtc_once. apply rs_provision. Defined.
End SampleIntake.

Lemma scope_logs_iff_transaction_witness :
  exists scoped, scope_program_data_logs PUMP_PROGRAM_ID 7 None "sig"
      (nt_log_messages SampleIntake.corroborated) = Ok scoped /\
    exists instructions, transaction PUMP_PROGRAM_ID
      (nt_log_messages SampleIntake.corroborated) instructions.
Proof.
  eexists. split; [vm_compute; reflexivity|].
  edestruct (scope_logs_iff_transaction PUMP_PROGRAM_ID 7 None "sig"
    (nt_log_messages SampleIntake.corroborated)) as [H _]; [vm_compute; congruence|].
  destruct H as (_ & instructions & Htx & _); [vm_compute; reflexivity|]. by exists instructions.
Defined.

Lemma classify_admits_logged_activity_witness :
  exists d w', classify_notification SampleIntake.world SampleIntake.corroborated SolanaMainnet
      60000 120 130 = (d, w') /\ tracked_of d = [SampleIntake.token] /\
    cells_after 1 (cells_of (heap SampleIntake.world) SampleIntake.token)
      (cells_of (heap w') SampleIntake.token).
Proof.
  pose proof (classify_admits_logged_activity 2 SampleIntake.world SampleIntake.corroborated
    SolanaMainnet 60000 120 130 ltac:(lia) SampleIntake.world_reachable ltac:(vm_compute; congruence)) as H.
  destruct (classify_notification _ _ _ _ _ _) as [d w'] eqn:E. exists d, w'.
  assert (tracked_of d = [SampleIntake.token]) as Htr.
  { vm_compute in E. injection E as <- _. vm_compute. reflexivity. }
  split; [reflexivity|split; [done|]]. destruct H as (_ & _ & _ & _ & _ & H).
  specialize (H SampleIntake.token). rewrite Htr, bool_decide_eq_true_2 in H by (left).
  apply H. apply (active_token_in _ SampleIntake.target). vm_compute. reflexivity.
Defined.

Lemma classify_fails_closed_witness :
  exists d w', classify_notification SampleIntake.world SampleIntake.uncorroborated SolanaMainnet
      60000 120 130 = (d, w') /\
    (evidence_complete PumpP SampleIntake.uncorroborated \/
     incomplete_reason (cells_of (heap w') SampleIntake.token) <> None) /\
    incomplete_reason (cells_of (heap w') SampleIntake.token) = Some CpiInstructionDataUnavailable.
Proof.
  pose proof (classify_fails_closed 2 SampleIntake.world SampleIntake.uncorroborated
    SolanaMainnet 60000 120 130 PumpP ltac:(lia) SampleIntake.world_reachable
    ltac:(vm_compute; congruence) eq_refl ltac:(left) ltac:(vm_compute; reflexivity)) as H.
  destruct (classify_notification _ _ _ _ _ _) as [d w'] eqn:E. exists d, w'.
  split; [reflexivity|]. destruct H as [H _]. split.
  - destruct H as [H|H]; [by left|right]. apply H; [|vm_compute; reflexivity].
    apply (active_token_in _ SampleIntake.target). vm_compute. reflexivity.
  - vm_compute in E. injection E as _ <-. vm_compute. reflexivity.
Defined.
