(* ===== verification/Collector.v ===== *)
(** [apps/server/src/jobs/collector.rs]: from one live notification to the
    batches the pipeline processes.  [collect_live_notification] awaits
    a discovery permit and the transaction; between two awaits it runs against the
    registry without interruption of its own state, so it is a sequence of phases,
    each from the world other tasks left.  Its third await, the lock of the pacing
    that a rate limit is recorded in, is part of the phase it stands in: the phase
    does not look at the registry before it. *)
From S2P Require Import Prelude.
From S2P Require Import RustOrd.
From S2P Require Import BTree.
From S2P Require Import RustStr.
From S2P Require Import Domain.
From S2P Require Import External.
From S2P Require Import PumpModel.
From S2P Require Import PumpDecoder.
From S2P Require Import WindowToken.
From S2P Require Import WindowRegistry.
From S2P Require Import RpcModel.
From S2P Require Import DiscoveryRpc.
From S2P Require Import Intake.

Definition MAX_PUBSUB_RECONNECT_DELAY_ms : Z := 30000.

(** [BatchPurpose] of [intake.rs]. *)
Inductive BatchPurpose := PurposeDiscovery | PurposeTrackedActivity.
#[export] Instance BatchPurpose_eq_dec : EqDecision BatchPurpose.
Proof. solve_decision. Defined.

(** ** Batches *)
Record ProgramLogBatch := {
  pb_purpose : BatchPurpose;
  pb_slot : Z;
  pb_transaction_index : option Z;
  pb_signature : string;
  pb_received_time_unix_ms : Z;
  pb_instructions : list TransactionInstructionRecord;
  pb_log_messages : list string;
  pb_transaction_error : option string;
  pb_window_tokens : list Token;
  pb_processing_succeeded : bool;
}.

(** What the drop of an owner does to each token it holds. *)
Definition settle_token (failed : bool) (h : Heap) (t : Token) : Heap :=
  let h := if failed then update_cells (fun c => (mark_incomplete ProcessingFailed c).2) t h else h in
  update_cells (fun c => (mark_settled c).2) t h.

(** [Drop for ProgramLogBatch] and [Drop for TrackedAdmissionGuard]. *)
Definition batch_drop (b : ProgramLogBatch) (h : Heap) : Heap :=
  fold_left (settle_token (negb (pb_processing_succeeded b))) (pb_window_tokens b) h.
Definition tracked_drop (tokens : list Token) (h : Heap) : Heap :=
  fold_left (settle_token true) tokens h.

Definition mark_processing_succeeded (b : ProgramLogBatch) : ProgramLogBatch := {|
  pb_purpose := pb_purpose b; pb_slot := pb_slot b; pb_transaction_index := pb_transaction_index b;
  pb_signature := pb_signature b; pb_received_time_unix_ms := pb_received_time_unix_ms b;
  pb_instructions := pb_instructions b; pb_log_messages := pb_log_messages b;
  pb_transaction_error := pb_transaction_error b; pb_window_tokens := pb_window_tokens b;
  pb_processing_succeeded := true |}.

Record ReceivedProgramLogNotification := {
  rn_notification : ProgramLogNotification;
  rn_received_time_unix_ms : Z;
}.

Definition transaction_batch (t : TransactionRecord) (received_time_unix_ms : Z)
    (purpose : BatchPurpose) (window_tokens : list Token) : ProgramLogBatch := {|
  pb_purpose := purpose; pb_slot := tr_slot t; pb_transaction_index := tr_transaction_index t;
  pb_signature := tr_signature t; pb_received_time_unix_ms := received_time_unix_ms;
  pb_instructions := tr_instructions t; pb_log_messages := tr_log_messages t;
  pb_transaction_error := tr_transaction_error t; pb_window_tokens := window_tokens;
  pb_processing_succeeded := false |}.

Definition notification_batch (r : ReceivedProgramLogNotification) (purpose : BatchPurpose)
    (window_tokens : list Token) : ProgramLogBatch :=
  let n := rn_notification r in {|
  pb_purpose := purpose; pb_slot := nt_slot n; pb_transaction_index := None;
  pb_signature := nt_signature n; pb_received_time_unix_ms := rn_received_time_unix_ms r;
  pb_instructions := []; pb_log_messages := nt_log_messages n;
  pb_transaction_error := nt_transaction_error n; pb_window_tokens := window_tokens;
  pb_processing_succeeded := false |}.

(** ** Provisional windows *)
Definition new_tokens (provisions : list Provision) : list Token :=
  pv_token <$> List.filter pv_newly_opened provisions.

(** [ProvisionalWindowGuard::new]: one admission per newly opened window. *)
Definition admit_provision (h : Heap) (t : Token) : Heap :=
  if (mark_admitted (cells_of h t)).1
  then update_cells (fun c => (mark_admitted c).2) t h
  else update_cells (cancel_with_reason QueueOverflow) t h.
Definition guard_new (provisions : list Provision) (h : Heap) : Heap :=
  fold_left admit_provision (new_tokens provisions) h.

Definition has_new_open_token_at (h : Heap) (provisions : list Provision) (observed_at : Z) : bool :=
  existsb (fun p => pv_newly_opened p && is_open_at h (pv_token p) observed_at) provisions.

Definition cancel_new_provisions (provisions : list Provision) (h : Heap) : Heap :=
  fold_left (fun h t => update_cells cancel_if_pending t h) (new_tokens provisions) h.

(** [Drop for ProvisionalWindowGuard], while armed. *)
Definition guard_drop (provisions : list Provision) (h : Heap) : Heap :=
  fold_left (fun h t => update_cells (fun c => (mark_settled c).2) t h) (new_tokens provisions)
    (cancel_new_provisions provisions h).

(** The [map] over the seeds that opens or finds their windows. *)
Fixpoint provision_seeds (maximum_active : nat) (received_at duration_ms : Z)
    (seeds : list DiscoverySeed) (w : World) : list Provision * World :=
  match seeds with
  | [] => ([], w)
  | seed :: rest =>
      let '(p, w) := provision_target maximum_active w (seed_target seed) (seed_mint seed)
                       received_at duration_ms in
      let '(ps, w) := provision_seeds maximum_active received_at duration_ms rest w in
      (p :: ps, w)
  end.

Definition discovery_admission_timeout (seeds : list DiscoverySeed) (maximum_discovery_age_ms : Z)
    (received_time_unix_ms now_unix_ms : Z) : option Z :=
  let maximum_age_ms := default i64_max (try_from_s 64 maximum_discovery_age_ms) in
  source_deadline ← match (fun seed => saturating_add_s 64 (seed_source_event_time_unix_ms seed)
                                         maximum_age_ms) <$> seeds with
                    | [] => None
                    | d :: ds => Some (fold_left Z.max ds d)
                    end;
  let receipt_deadline := saturating_add_s 64 received_time_unix_ms maximum_age_ms in
  remaining ← checked_sub_s 64 (Z.min source_deadline receipt_deadline) now_unix_ms;
  if remaining >? 0 then Some remaining else None.

(** ** One notification *)
Inductive LiveNotificationOutcome :=
| Batches (batches : list ProgramLogBatch)
| Skipped
| Subscription (error : RpcError).

Inductive DiscoveryRpcHealthUpdate := HealthFailed | HealthRateLimited | HealthSuccessful.

(** The tokens are moved into the batch, so nothing is dropped here. *)
Definition tracked_activity_or_skip (r : ReceivedProgramLogNotification) (tokens : list Token)
    : LiveNotificationOutcome :=
  match tokens with
  | [] => Skipped
  | _ => Batches [notification_batch r PurposeTrackedActivity tokens]
  end.

Record CollectorRuntimeConfig := {
  cc_network : Network;
  cc_maximum_active : nat;
  cc_maximum_discovery_age_ms : Z;
  cc_observation_window_duration_ms : Z;
}.

(** What the suspended task owns. *)
Record Suspended := {
  su_received : ReceivedProgramLogNotification;
  su_provisions : list Provision;
  su_tracked : list Token;
}.

(** Where a phase leaves the task. *)
Inductive Collecting :=
| Finished (outcome : LiveNotificationOutcome) (health : list DiscoveryRpcHealthUpdate)
| AwaitPermit (timeout_ms : Z) (s : Suspended)
| AwaitTransaction (s : Suspended).

(** An early return of a suspended task: the outcome takes the tracked tokens,
    then the guard is dropped. *)
Definition abandon (s : Suspended) (health : list DiscoveryRpcHealthUpdate) (w : World)
    : Collecting * World :=
  (Finished (tracked_activity_or_skip (su_received s) (su_tracked s)) health,
   with_heap (guard_drop (su_provisions s) (heap w)) w).

Section Collect.
Context {B64 : Base64} (config : CollectorRuntimeConfig).

(** Up to the first await.  [now1] and [now2] are the two readings of the wall
    clock, [instant] the monotonic one of the signature claim. *)
Definition collect_start (program : PumpProgram) (r : ReceivedProgramLogNotification)
    (now1 now2 instant : Z) (gate : RecentSignatures) (w : World)
    : Collecting * RecentSignatures * World :=
  let n := rn_notification r in
  let received_at := rn_received_time_unix_ms r in
  let w := record_source_progress w (pump_source_program program) received_at in
  let '(disposition, w) := classify_notification w n (cc_network config)
                             (cc_maximum_discovery_age_ms config) received_at now1 in
  match disposition with
  | Drop _ => (Finished Skipped [], gate, w)
  | CollectTrackedActivity tokens => (Finished (tracked_activity_or_skip r tokens) [], gate, w)
  | FetchDiscovery seeds tracked =>
      let '(claimed, gate) := claim_at gate (nt_signature n) instant in
      if negb claimed then (Finished (tracked_activity_or_skip r tracked) [], gate, w) else
      let timeout := discovery_admission_timeout seeds (cc_maximum_discovery_age_ms config)
                       received_at now2 in
      let '(provisions, w) := provision_seeds (cc_maximum_active config) received_at
                                (cc_observation_window_duration_ms config) seeds w in
      let w := with_heap (guard_new provisions (heap w)) w in
      let s := {| su_received := r; su_provisions := provisions; su_tracked := tracked |} in
      match timeout with
      | None => let '(c, w) := abandon s [] w in (c, gate, w)
      | Some timeout =>
          if negb (has_new_open_token_at (heap w) provisions received_at)
          then let '(c, w) := abandon s [] w in (c, gate, w)
          else (AwaitPermit timeout s, gate, w)
      end
  end.

(** After the first await: [permit] says whether one came in time. *)
Definition collect_permitted (permit : bool) (s : Suspended) (w : World) : Collecting * World :=
  if negb permit then abandon s [] w else
  if negb (has_new_open_token_at (heap w) (su_provisions s)
             (rn_received_time_unix_ms (su_received s)))
  then abandon s [] w
  else (AwaitTransaction s, w).

(** After the second: [None] is the timeout of the request. *)
Definition collect_fetched (reply : option (result RpcError (option TransactionRecord)))
    (s : Suspended) (w : World) : Collecting * World :=
  let n := rn_notification (su_received s) in
  match reply with
  | Some (Ok (Some t)) =>
      if negb (tr_slot t =? nt_slot n) || negb (String.eqb (tr_signature t) (nt_signature n)) ||
         negb (transaction_succeeded t)
      then abandon s [HealthFailed] w
      else
        let received_at := rn_received_time_unix_ms (su_received s) in
        let discovery := transaction_batch t received_at PurposeDiscovery
                           (new_tokens (su_provisions s)) in
        let batches := match su_tracked s with
                       | [] => [discovery]
                       | tracked => [discovery; transaction_batch t received_at
                                                  PurposeTrackedActivity tracked]
                       end in
        (Finished (Batches batches) [HealthSuccessful], w)
  | Some (Ok None) => abandon s [HealthFailed] w
  | Some (Err RateLimited) => abandon s [HealthRateLimited] w
  | Some (Err _) => abandon s [HealthFailed] w
  | None => abandon s [HealthFailed] w
  end.

(** The future dropped at an await: both guards go, the later one first. *)
Definition collect_dropped (s : Suspended) (w : World) : World :=
  with_heap (tracked_drop (su_tracked s) (guard_drop (su_provisions s) (heap w))) w.
End Collect.

(** [next_reconnect_delay]; a [Duration] saturates far above these values. *)
Definition next_reconnect_delay (current configured_minimum : Z) : Z :=
  Z.min (current * 2) (Z.max MAX_PUBSUB_RECONNECT_DELAY_ms configured_minimum).
