(* ===== verification/CollectorProofs.v ===== *)
(** Admission accounting across the collector: what a notification admits to
    windows is carried by exactly the batches it produces, or is settled before
    the task ends, at whichever await it ends. *)
From S2P Require Import Prelude.
From S2P Require Import ListFacts.
From S2P Require Import RustOrd.
From S2P Require Import BTree.
From S2P Require Import RustStr.
From S2P Require Import Domain.
From S2P Require Import External.
From S2P Require Import PumpModel.
From S2P Require Import PumpDecoder.
From S2P Require Import WindowToken.
From S2P Require Import WindowTokenProofs.
From S2P Require Import WindowRegistry.
From S2P Require Import WindowRegistryInv.
From S2P Require Import WindowRegistryTheorems.
From S2P Require Import RpcModel.
From S2P Require Import DiscoveryRpc.
From S2P Require Import Intake.
From S2P Require Import IntakeScope.
From S2P Require Import IntakeCoverage.
From S2P Require Import IntakeProofs.
From S2P Require Import IntakeTheorems.
From S2P Require Import Collector.

(** ** Accounts *)

(** Admissions of a cell not yet settled. *)
Definition unsettled (h : Heap) (i : nat) : Z := tc_admitted (h !!! i) - tc_settled (h !!! i).
(** Admissions of a cell that the owner of some tokens has to settle. *)
Definition owed (ts : list Token) (i : nat) : Z :=
  Z.of_nat (length (List.filter (fun t => Nat.eqb (tok_cells t) i) ts)).

Lemma owed_nil i : owed [] i = 0.
Proof. done. Qed.
Lemma owed_cons t ts i : owed (t :: ts) i = (if Nat.eqb (tok_cells t) i then 1 else 0) + owed ts i.
Proof. unfold owed. simpl. destruct (Nat.eqb _ _); simpl length; lia. Qed.
Lemma owed_app l1 l2 i : owed (l1 ++ l2) i = owed l1 i + owed l2 i.
Proof. unfold owed. rewrite List.filter_app, length_app. lia. Qed.
Lemma owed_nonneg ts i : 0 <= owed ts i.
Proof. unfold owed. lia. Qed.

Lemma unsettled_update f t h i :
  unsettled (update_cells f t h) i =
  if Nat.eqb (tok_cells t) i
  then tc_admitted (f (cells_of h t)) - tc_settled (f (cells_of h t)) else unsettled h i.
Proof.
  unfold unsettled, update_cells, cells_of. destruct (Nat.eqb_spec (tok_cells t) i) as [->|Hne].
  - by rewrite lookup_total_insert_eq.
  - by rewrite lookup_total_insert_ne.
Qed.

(** Cell updates that leave both counters alone. *)
Definition keeps_counts (f : TokenCells -> TokenCells) : Prop :=
  forall c, tc_admitted (f c) = tc_admitted c /\ tc_settled (f c) = tc_settled c.

Lemma keeps_incomplete r : keeps_counts (fun c => (mark_incomplete r c).2).
Proof. intros c. unfold mark_incomplete. by destruct (_ =? _). Qed.
Lemma keeps_cancel_pending : keeps_counts cancel_if_pending.
Proof. intros c. unfold cancel_if_pending. by destruct (_ =? _). Qed.
Lemma keeps_cancel r : keeps_counts (cancel_with_reason r).
Proof.
  intros c. unfold cancel_with_reason, mark_incomplete.
  by destruct (tc_state c =? WINDOW_PENDING), (tc_state c =? WINDOW_CONFIRMED),
    (tc_incomplete_reason c =? WINDOW_COMPLETE).
Qed.
#[export] Hint Resolve keeps_incomplete keeps_cancel_pending keeps_cancel : cells.

Lemma unsettled_keeps f t h i : keeps_counts f -> unsettled (update_cells f t h) i = unsettled h i.
Proof.
  intros Hf. rewrite unsettled_update. destruct (Nat.eqb_spec (tok_cells t) i) as [<-|]; [|done].
  destruct (Hf (cells_of h t)) as [-> ->]. done.
Qed.

Lemma unsettled_keeps_fold f ts h i :
  keeps_counts f -> unsettled (fold_left (fun h t => update_cells f t h) ts h) i = unsettled h i.
Proof.
  intros Hf. revert h. induction ts as [|t ts IH]; intros h; simpl; [done|].
  rewrite IH. by apply unsettled_keeps.
Qed.

Lemma mark_all_insert reason ts k h i :
  unsettled (fold_left (fun '(n, h) t =>
    let '(marked, c) := mark_incomplete reason (cells_of h t) in
    ((if marked then S n else n), <[tok_cells t := c]> h)) ts (k, h)).2 i = unsettled h i.
Proof.
  revert k h. induction ts as [|t ts IH]; intros k h; simpl; [done|].
  destruct (mark_incomplete reason (cells_of h t)) as [b c] eqn:E.
  rewrite IH. pose proof (unsettled_keeps _ t h i (keeps_incomplete reason)) as H.
  unfold update_cells in H. by rewrite E in H.
Qed.

(** ** Settling *)
Lemma settle_token_unsettled failed h t i :
  0 < unsettled h (tok_cells t) ->
  unsettled (settle_token failed h t) i = unsettled h i - owed [t] i.
Proof.
  intros Hpos. unfold settle_token.
  set (h1 := if failed then _ else h).
  assert (forall j, unsettled h1 j = unsettled h j) as H1.
  { intros j. unfold h1. destruct failed; [|done]. apply unsettled_keeps. auto with cells. }
  rewrite unsettled_update, owed_cons, owed_nil. specialize (H1 i) as Hi.
  destruct (Nat.eqb_spec (tok_cells t) i) as [<-|]; [|lia].
  unfold unsettled in Hpos, Hi. unfold unsettled. fold (cells_of h1 t) in Hi.
  unfold mark_settled. rewrite Z.geb_leb. destruct (Z.leb_spec (tc_admitted (cells_of h1 t)) (tc_settled (cells_of h1 t))); simpl; lia.
Qed.

Lemma settle_fold_unsettled failed ts h :
  (forall i, owed ts i <= unsettled h i) ->
  forall i, unsettled (fold_left (settle_token failed) ts h) i = unsettled h i - owed ts i.
Proof.
  revert h. induction ts as [|t ts IH]; intros h Hle i; simpl; [rewrite owed_nil; lia|].
  assert (0 < unsettled h (tok_cells t)) as Hpos.
  { specialize (Hle (tok_cells t)). rewrite owed_cons, Nat.eqb_refl in Hle.
    pose proof (owed_nonneg ts (tok_cells t)). lia. }
  rewrite IH.
  - rewrite settle_token_unsettled by done. rewrite (owed_cons t ts), owed_cons, owed_nil. lia.
  - intros j. rewrite settle_token_unsettled by done. specialize (Hle j).
    rewrite owed_cons in Hle. rewrite owed_cons, owed_nil. lia.
Qed.

Lemma guard_drop_unsettled provisions h :
  (forall i, owed (new_tokens provisions) i <= unsettled h i) ->
  forall i, unsettled (guard_drop provisions h) i = unsettled h i - owed (new_tokens provisions) i.
Proof.
  intros Hle i. unfold guard_drop.
  assert (forall j, unsettled (cancel_new_provisions provisions h) j = unsettled h j) as Hc.
  { intros j. apply unsettled_keeps_fold. auto with cells. }
  pose proof (settle_fold_unsettled false (new_tokens provisions) (cancel_new_provisions provisions h)) as H.
  unfold settle_token in H. cbv zeta in H. rewrite H, Hc; [done|]. intros j. rewrite Hc. apply Hle.
Qed.

(** ** Admitting *)
Lemma mark_admitted_counts c :
  (mark_admitted c).1 = true ->
  tc_admitted (mark_admitted c).2 = tc_admitted c + 1 /\ tc_settled (mark_admitted c).2 = tc_settled c.
Proof.
  unfold mark_admitted. destruct (tc_finalized c); [done|].
  destruct (checked_add_u 64 (tc_admitted c) 1) as [m|] eqn:E; [|done].
  by apply checked_add_u_Some in E as [-> _].
Qed.

Lemma unsettled_admit t h i :
  (mark_admitted (cells_of h t)).1 = true ->
  unsettled (update_cells (fun c => (mark_admitted c).2) t h) i = unsettled h i + owed [t] i.
Proof.
  intros H. rewrite unsettled_update, owed_cons, owed_nil.
  destruct (Nat.eqb_spec (tok_cells t) i) as [<-|]; [|lia].
  destruct (mark_admitted_counts _ H) as [-> ->]. unfold unsettled, cells_of. lia.
Qed.

Section Classify.
Context {B64 : Base64}.

(** What the classification has admitted beyond what it tracks. *)
Definition classify_share (st : ClassifyState) (i : nat) : Z :=
  unsettled (heap (cl_world st)) i - owed (cl_tracked_windows st) i.

Lemma with_gap_share program at_ reason malformed st i :
  classify_share (with_gap program at_ reason malformed st) i = classify_share st i.
Proof.
  unfold classify_share, with_gap, record_source_coverage_gap, mark_all. simpl.
  match goal with |- context [fold_left ?f ?l ?a] =>
    pose proof (mark_all_insert reason l 0 (heap (cl_world st)) i) as H;
    destruct (fold_left f l a) as [k h] end.
  simpl in *. by rewrite H.
Qed.

Lemma classify_event_share network age at_ now st d i :
  classify_share (classify_event network age at_ now st d) i = classify_share st i.
Proof.
  unfold classify_event. destruct (discovery_seed _ _).
  { destruct (discovery_event_is_fresh _ _ _); [destruct (existsb _ _)|]; done. }
  destruct (event_tracking_target _) as [target|]; [|done]. destruct (existsb _ _); [done|].
  unfold admit_matching_token. destruct (matching_token _ _ _) as [t|].
  2:{ unfold classify_share. simpl. by rewrite app_nil_r. }
  destruct (mark_admitted (cells_of (heap (cl_world st)) t)).1 eqn:Em; unfold classify_share; simpl.
  - rewrite unsettled_admit by done. rewrite owed_app. lia.
  - rewrite app_nil_r. by rewrite unsettled_keeps by auto with cells.
Qed.

Lemma classify_program_share n network age at_ now st program i :
  classify_share (classify_program n network age at_ now st program) i = classify_share st i.
Proof.
  unfold classify_program. cbv zeta. destruct (negb _); [done|].
  destruct (successful_self_cpi_coverage _ _); [|apply with_gap_share].
  destruct (scope_program_data_logs _ _ _ _ _); [|apply with_gap_share].
  assert (forall ds st0, classify_share (fold_left (classify_event network age at_ now) ds st0) i =
    classify_share st0 i) as Hfold.
  { induction ds as [|d ds IH]; intros st0; simpl; [done|]. by rewrite IH, classify_event_share. }
  rewrite Hfold. destruct (ds_decode_gap _); [apply with_gap_share|].
  destruct (event_cpi_coverage_is_incomplete _ _); [apply with_gap_share|done].
Qed.

Lemma classify_notification_share w n network age at_ now i :
  let '(d, w') := classify_notification w n network age at_ now in
  unsettled (heap w') i = unsettled (heap w) i + owed (tracked_of d) i.
Proof.
  unfold classify_notification. destruct (negb _); [simpl; rewrite owed_nil; lia|].
  match goal with |- context [fold_left ?f PUMP_PROGRAMS ?s] =>
    assert (classify_share (fold_left f PUMP_PROGRAMS s) i = classify_share s i) as H
      by (simpl; by rewrite !classify_program_share);
    set (st := fold_left f PUMP_PROGRAMS s) in * end.
  rewrite tracked_of_disposition.
  unfold classify_share in H. simpl in H. rewrite owed_nil in H. lia.
Qed.
End Classify.

(** ** Provisioning *)
Lemma rotate_fold_id w now : heap (with_reg (rotate_closed_windows (heap w) now (reg w)) w) = heap w.
Proof. done. Qed.

(** A window whose admission cannot fail: fresh, or cancelled since. *)
Definition unused (h : Heap) (t : Token) : Prop :=
  tc_finalized (cells_of h t) = false /\ tc_admitted (cells_of h t) = 0.

Lemma unused_keeps f t t' h :
  keeps_counts f -> (forall c, tc_finalized (f c) = tc_finalized c) ->
  unused h t -> unused (update_cells f t' h) t.
Proof.
  intros Hf Hfin [H1 H2]. unfold unused. destruct (decide (tok_cells t = tok_cells t')) as [E|Hne].
  - assert (cells_of (update_cells f t' h) t = f (cells_of h t)) as ->.
    { unfold update_cells, cells_of. by rewrite E, lookup_total_insert_eq. }
    destruct (Hf (cells_of h t)) as [-> _]. by rewrite Hfin.
  - by rewrite cells_of_update_ne.
Qed.

Lemma cancel_keeps_finalized r c : tc_finalized (cancel_with_reason r c) = tc_finalized c.
Proof.
  unfold cancel_with_reason, mark_incomplete.
  by destruct (tc_state c =? WINDOW_PENDING), (tc_state c =? WINDOW_CONFIRMED),
    (tc_incomplete_reason c =? WINDOW_COMPLETE).
Qed.

Lemma initial_cells_unused r target opened closes :
  tc_finalized (initial_cells r target opened closes) = false /\
  tc_admitted (initial_cells r target opened closes) = 0 /\
  tc_settled (initial_cells r target opened closes) = 0.
Proof.
  unfold initial_cells, mark_incomplete. destruct (latest_source_coverage_gap r !! _); [|done].
  by destruct (_ && _).
Qed.

(** What opening windows does to the accounts, and what the new windows [ts] are. *)
Record opening (w : World) (ts : list Token) (w' : World) : Prop := {
  op_unsettled i : unsettled (heap w') i = unsettled (heap w) i;
  op_unused t : unused (heap w) t -> (tok_cells t < next_cell w)%nat -> unused (heap w') t;
  op_next : (next_cell w <= next_cell w')%nat;
  op_distinct : NoDup (tok_cells <$> ts);
  op_new t : t ∈ ts -> (next_cell w <= tok_cells t < next_cell w')%nat /\ unused (heap w') t;
}.

Lemma opening_trans w1 ts1 w2 ts2 w3 :
  opening w1 ts1 w2 -> opening w2 ts2 w3 -> opening w1 (ts1 ++ ts2) w3.
Proof.
  intros [U1 K1 N1 D1 T1] [U2 K2 N2 D2 T2]. constructor.
  - intros i. by rewrite U2, U1.
  - intros t Ht Hlt. apply K2; [by apply K1|lia].
  - lia.
  - rewrite fmap_app. apply NoDup_app. split_and!; [done| |done].
    intros i (t1 & -> & H1)%list_elem_of_fmap (t2 & E & H2)%list_elem_of_fmap.
    apply T1 in H1 as [H1 _]. apply T2 in H2 as [H2 _]. lia.
  - intros t [Ht|Ht]%elem_of_app.
    + destruct (T1 t Ht) as [Hr Hu]. split; [lia|]. apply K2; [done|lia].
    + destruct (T2 t Ht) as [Hr Hu]. split; [lia|done].
Qed.

Lemma opening_refl w w' : heap w' = heap w -> next_cell w' = next_cell w -> opening w [] w'.
Proof.
  intros Hh Hn. constructor; rewrite ?Hh, ?Hn; try done; [constructor|by intros t ?%elem_of_nil].
Qed.

Lemma evict_opening n w : opening w [] (evict_if_full n w).
Proof.
  unfold evict_if_full. destruct (_ <=? _)%nat; [|by apply opening_refl].
  destruct (eviction_choice _); [|by apply opening_refl].
  destruct (windows (reg w) !! _) as [t|]; [|by apply opening_refl].
  constructor; simpl; [|intros t' Ht _|done|constructor|by intros t' ?%elem_of_nil].
  - intros i. by rewrite unsettled_keeps by auto with cells.
  - apply unused_keeps; auto using cancel_keeps_finalized with cells.
Qed.

Lemma open_window_opening n w target mint opened closes :
  world_ok n w ->
  let '(p, w') := open_window w target mint opened closes in opening w (new_tokens [p]) w'.
Proof.
  intros Hw. simpl.
  pose proof (initial_cells_unused (reg w) target opened closes) as (I1 & I2 & I3).
  constructor; simpl; [| |lia|apply NoDup_singleton|].
  - intros i. unfold unsettled. destruct (decide (i = next_cell w)) as [->|Hne].
    + rewrite lookup_total_insert_eq, I2, I3.
      assert (heap w !! next_cell w = None) as Hnone.
      { apply eq_None_not_Some. intros [c Hc]. apply (wf_cells _ _ Hw) in Hc. lia. }
      by rewrite lookup_total_alt, Hnone.
    + by rewrite lookup_total_insert_ne.
  - intros t Ht Hlt. unfold unused, cells_of in *. by rewrite lookup_total_insert_ne by lia.
  - intros t ->%list_elem_of_singleton. simpl. split; [lia|].
    unfold unused, cells_of. simpl. by rewrite lookup_total_insert_eq.
Qed.

Lemma provision_opening n w target mint opened duration :
  world_ok n w ->
  let '(p, w') := provision_target n w target mint opened duration in opening w (new_tokens [p]) w'.
Proof.
  intros Hw. unfold provision_target.
  set (w1 := with_reg (rotate_closed_windows (heap w) opened (reg w)) w).
  assert (world_ok n w1) as Hw1 by (by apply ok_rotate).
  pose proof (open_window_opening n (evict_if_full n w1) target mint opened (closes_at opened duration)
    (ok_evict n w1 Hw1)) as Ho.
  destruct (open_window (evict_if_full n w1) target mint opened (closes_at opened duration)) as [p w'].
  assert (opening w (new_tokens [p]) w') as Hopen.
  { change (new_tokens [p]) with ([] ++ [] ++ new_tokens [p]).
    eapply opening_trans; [by apply (opening_refl w w1)|].
    eapply opening_trans; [apply evict_opening|done]. }
  destruct (windows (reg w1) !! target) as [existing|]; [|done].
  destruct (is_open_at (heap w1) existing opened); [|done]. by apply opening_refl.
Qed.

Lemma new_tokens_cons p ps : new_tokens (p :: ps) = new_tokens [p] ++ new_tokens ps.
Proof. unfold new_tokens. simpl. by destruct (pv_newly_opened p). Qed.

Lemma provision_seeds_opening n received duration seeds w :
  (0 < n)%nat -> world_ok n w ->
  let '(ps, w') := provision_seeds n received duration seeds w in
  opening w (new_tokens ps) w' /\ world_ok n w'.
Proof.
  intros Hn. revert w. induction seeds as [|seed seeds IH]; intros w Hw; simpl.
  { split; [by apply opening_refl|done]. }
  pose proof (provision_opening n w (seed_target seed) (seed_mint seed) received duration Hw) as H1.
  pose proof (ok_provision n w (seed_target seed) (seed_mint seed) received duration Hn Hw) as Hw1.
  destruct (provision_target n w _ _ _ _) as [p w1]. simpl in Hw1. specialize (IH w1 Hw1).
  destruct (provision_seeds n received duration seeds w1) as [ps w2]. destruct IH as [H2 Hw2].
  split; [|done]. rewrite new_tokens_cons. by eapply opening_trans.
Qed.

(** ** The guard's admissions succeed *)
Lemma guard_new_unsettled ts h :
  NoDup (tok_cells <$> ts) -> (forall t, t ∈ ts -> unused h t) ->
  forall i, unsettled (fold_left admit_provision ts h) i = unsettled h i + owed ts i.
Proof.
  revert h. induction ts as [|t ts IH]; intros h Hnd Hu i; simpl; [rewrite owed_nil; lia|].
  csimpl in Hnd. apply NoDup_cons in Hnd as [Hnin Hnd].
  assert ((mark_admitted (cells_of h t)).1 = true) as Hm.
  { destruct (Hu t ltac:(left)) as [Hf Ha]. unfold mark_admitted. by rewrite Hf, Ha. }
  unfold admit_provision at 2. rewrite Hm. rewrite IH; [|done|].
  - rewrite unsettled_admit by done. rewrite (owed_cons t ts), owed_cons, owed_nil. lia.
  - intros t' Ht'. destruct (Hu t' ltac:(by right)). unfold unused.
    rewrite cells_of_update_ne; [done|]. intros E. apply Hnin. rewrite <- E. by apply list_elem_of_fmap_2.
Qed.

(** ** The task *)

(** What the task still owes: its tokens at an await, its batches' at the end. *)
Definition outcome_tokens (o : LiveNotificationOutcome) : list Token :=
  match o with
  | Batches bs => concat (pb_window_tokens <$> bs)
  | Skipped | Subscription _ => []
  end.
Definition held (c : Collecting) : list Token :=
  match c with
  | Finished o _ => outcome_tokens o
  | AwaitPermit _ s | AwaitTransaction s => new_tokens (su_provisions s) ++ su_tracked s
  end.

(** The unsettled admissions of a cell that are somebody else's. *)
Definition share_of_others (c : Collecting) (w : World) (i : nat) : Z :=
  unsettled (heap w) i - owed (held c) i.

(** One own step of a suspended task, whatever comes of the await. *)
Inductive task_step : Collecting * World -> Collecting * World -> Prop :=
| ts_permit timeout permit s w :
    task_step (AwaitPermit timeout s, w) (collect_permitted permit s w)
| ts_fetch reply s w : task_step (AwaitTransaction s, w) (collect_fetched reply s w)
| ts_drop_permit timeout s w :
    task_step (AwaitPermit timeout s, w) (Finished Skipped [], collect_dropped s w)
| ts_drop_fetch s w : task_step (AwaitTransaction s, w) (Finished Skipped [], collect_dropped s w).

Definition awaits (c : Collecting) : nat :=
  match c with AwaitPermit _ _ => 2 | AwaitTransaction _ => 1 | Finished _ _ => 0 end.

Lemma tracked_outcome_tokens r ts : outcome_tokens (tracked_activity_or_skip r ts) = ts.
Proof. destruct ts; [done|]. simpl. by rewrite app_nil_r. Qed.

Lemma abandon_share s health w :
  (forall i, 0 <= share_of_others (AwaitTransaction s) w i) ->
  let '(c', w') := abandon s health w in
  forall i, share_of_others c' w' i = share_of_others (AwaitTransaction s) w i.
Proof.
  unfold abandon, share_of_others. simpl. intros H i. rewrite tracked_outcome_tokens.
  rewrite guard_drop_unsettled; [rewrite owed_app; lia|].
  intros j. specialize (H j). rewrite owed_app in H. pose proof (owed_nonneg (su_tracked s) j). lia.
Qed.

Lemma collect_dropped_share s w :
  (forall i, 0 <= share_of_others (AwaitTransaction s) w i) ->
  forall i, unsettled (heap (collect_dropped s w)) i = share_of_others (AwaitTransaction s) w i.
Proof.
  unfold collect_dropped, share_of_others, tracked_drop. simpl. intros H i.
  assert (forall j, unsettled (guard_drop (su_provisions s) (heap w)) j =
    unsettled (heap w) j - owed (new_tokens (su_provisions s)) j) as Hg.
  { apply guard_drop_unsettled. intros j. specialize (H j). rewrite owed_app in H.
    pose proof (owed_nonneg (su_tracked s) j). lia. }
  rewrite settle_fold_unsettled, Hg, owed_app; [lia|].
  intros j. rewrite Hg. specialize (H j). rewrite owed_app in H. lia.
Qed.

Lemma abandon_step s health w c' w' :
  (forall i, 0 <= share_of_others (AwaitTransaction s) w i) -> abandon s health w = (c', w') ->
  (forall i, share_of_others c' w' i = share_of_others (AwaitTransaction s) w i) /\ awaits c' = 0%nat.
Proof.
  intros H E. pose proof (abandon_share s health w H) as Hg. rewrite E in Hg. split; [done|].
  by injection E as <- _.
Qed.

Lemma task_step_share c w c' w' :
  (forall i, 0 <= share_of_others c w i) -> task_step (c, w) (c', w') ->
  (forall i, share_of_others c' w' i = share_of_others c w i) /\ (awaits c' < awaits c)%nat.
Proof.
  intros H Hstep. inversion Hstep as [timeout permit s w0 E1 E2|reply s w0 E1 E2|timeout s w0 E1 E2|s w0 E1 E2];
    subst; clear Hstep.
  - unfold collect_permitted in E2. destruct (negb permit).
    { destruct (abandon_step s [] w c' w' H E2) as [Hs ->]. split; [done|simpl; lia]. }
    destruct (negb _).
    { destruct (abandon_step s [] w c' w' H E2) as [Hs ->]. split; [done|simpl; lia]. }
    injection E2 as <- <-. split; [done|simpl; lia].
  - assert (forall health, abandon s health w = (c', w') ->
      (forall i, share_of_others c' w' i = share_of_others (AwaitTransaction s) w i) /\
      (awaits c' < awaits (AwaitTransaction s))%nat) as Hg.
    { intros health E. destruct (abandon_step s health w c' w' H E) as [Hs ->]. split; [done|simpl; lia]. }
    unfold collect_fetched in E2.
    destruct reply as [[[t|]|e]|]; [|by eapply Hg|destruct e; by eapply Hg|by eapply Hg].
    destruct (_ || _); [by eapply Hg|]. injection E2 as <- <-. split; [|simpl; lia].
    intros i. unfold share_of_others. f_equal. simpl.
    destruct (su_tracked s); simpl; by rewrite ?app_nil_r.
  - split; [|simpl; lia]. intros i. unfold share_of_others at 1. simpl. rewrite owed_nil, Z.sub_0_r.
    by apply collect_dropped_share.
  - split; [|simpl; lia]. intros i. unfold share_of_others at 1. simpl. rewrite owed_nil, Z.sub_0_r.
    by apply collect_dropped_share.
Qed.

Lemma drop_batches_share bs h :
  (forall i, owed (concat (pb_window_tokens <$> bs)) i <= unsettled h i) ->
  forall i, unsettled (fold_left (fun h b => batch_drop b h) bs h) i =
            unsettled h i - owed (concat (pb_window_tokens <$> bs)) i.
Proof.
  revert h. induction bs as [|b bs IH]; intros h H i; csimpl; [rewrite owed_nil; lia|].
  csimpl in H.
  assert (forall j, unsettled (batch_drop b h) j = unsettled h j - owed (pb_window_tokens b) j) as Hb.
  { apply settle_fold_unsettled. intros j. specialize (H j). rewrite owed_app in H.
    pose proof (owed_nonneg (concat (pb_window_tokens <$> bs)) j). lia. }
  rewrite IH.
  - rewrite Hb, owed_app. lia.
  - intros j. rewrite Hb. specialize (H j). rewrite owed_app in H. lia.
Qed.

Section Start.
Context {B64 : Base64}.

Lemma classify_world_ok n w nt network age at_ now :
  world_ok n w -> Z.of_nat (length (nt_log_messages nt)) <= u64_max ->
  world_ok n (classify_notification w nt network age at_ now).2.
Proof.
  intros Hw Hlen. unfold classify_notification. destruct (negb _); [done|].
  destruct (classify_programs_ok n w nt network age at_ now Hw Hlen) as (Hst & _). apply Hst.
Qed.

Lemma collect_start_share config program r now1 now2 instant gate w :
  (0 < cc_maximum_active config)%nat -> world_ok (cc_maximum_active config) w ->
  Z.of_nat (length (nt_log_messages (rn_notification r))) <= u64_max ->
  (forall i, 0 <= unsettled (heap w) i) ->
  let '(c, _, w') := collect_start config program r now1 now2 instant gate w in
  forall i, share_of_others c w' i = unsettled (heap w) i.
Proof.
  intros Hn Hw Hlen H0. unfold collect_start.
  set (w0 := record_source_progress w (pump_source_program program) (rn_received_time_unix_ms r)).
  assert (world_ok (cc_maximum_active config) w0) as Hw0 by (by apply ok_progress).
  assert (heap w = heap w0) as Hh by done. rewrite Hh in *. clearbody w0. clear Hh.
  pose proof (fun i => classify_notification_share w0 (rn_notification r) (cc_network config)
    (cc_maximum_discovery_age_ms config) (rn_received_time_unix_ms r) now1 i) as Hcl.
  pose proof (classify_world_ok (cc_maximum_active config) w0 (rn_notification r) (cc_network config)
    (cc_maximum_discovery_age_ms config) (rn_received_time_unix_ms r) now1 Hw0 Hlen) as Hw1.
  destruct (classify_notification _ _ _ _ _ _) as [d w1]. simpl in Hw1.
  assert (forall i health, share_of_others (Finished (tracked_activity_or_skip r (tracked_of d)) health) w1 i
    = unsettled (heap w0) i) as Htracked.
  { intros i health. unfold share_of_others. simpl. rewrite tracked_outcome_tokens, Hcl. lia. }
  destruct d as [seeds tracked|tracked|reason]; simpl in Htracked, Hcl; [|by intros i; apply Htracked|by intros i; apply (Htracked i [])].
  destruct (claim_at gate _ instant) as [claimed gate']. destruct claimed; simpl; [|by intros i; apply Htracked].
  pose proof (provision_seeds_opening (cc_maximum_active config) (rn_received_time_unix_ms r)
    (cc_observation_window_duration_ms config) seeds w1 Hn Hw1) as Hop.
  destruct (provision_seeds _ _ _ _ _) as [ps w2]. destruct Hop as [Hop _].
  set (s := {| su_received := r; su_provisions := ps; su_tracked := tracked |}).
  set (w3 := with_heap (guard_new ps (heap w2)) w2).
  assert (forall i, share_of_others (AwaitTransaction s) w3 i = unsettled (heap w0) i) as Hs.
  { intros i. unfold share_of_others, w3. simpl. unfold guard_new.
    rewrite guard_new_unsettled, owed_app, (op_unsettled _ _ _ Hop), Hcl;
      [lia|apply Hop|intros t Ht; by destruct (op_new _ _ _ Hop t Ht)]. }
  assert (forall i, 0 <= share_of_others (AwaitTransaction s) w3 i) as Hpos by (intros i; by rewrite Hs).
  assert (forall i, share_of_others (abandon s [] w3).1 (abandon s [] w3).2 i = unsettled (heap w0) i) as Hg.
  { intros i. destruct (abandon_step s [] w3 _ _ Hpos (surjective_pairing _)) as [H _]. by rewrite H. }
  destruct (discovery_admission_timeout _ _ _ _); [destruct (negb _); [exact Hg|exact Hs]|exact Hg].
Qed.

(** Every admission a live notification makes is settled.  Count, per
    window, the unsettled admissions beyond those the task holds itself.
    Collecting a notification, every step of the suspended task whatever its
    permit or its HTTP read come to, giving up, and dropping the task at an
    await all leave that count exactly as it was, and each step uses up one of
    at most two awaits; so when the batches the task produced have been dropped,
    only the admissions of others remain. *)
Theorem collected_admissions_settle config program r now1 now2 instant gate w :
  (0 < cc_maximum_active config)%nat -> registry_reachable (cc_maximum_active config) w ->
  Z.of_nat (length (nt_log_messages (rn_notification r))) <= u64_max ->
  (let '(c, _, w') := collect_start config program r now1 now2 instant gate w in
   (forall i, share_of_others c w' i = unsettled (heap w) i) /\ (awaits c <= 2)%nat) /\
  (forall c w c' w', (forall i, 0 <= share_of_others c w i) -> task_step (c, w) (c', w') ->
     (forall i, share_of_others c' w' i = share_of_others c w i) /\ (awaits c' < awaits c)%nat) /\
  (forall bs health w, (forall i, 0 <= share_of_others (Finished (Batches bs) health) w i) ->
     forall i, unsettled (fold_left (fun h b => batch_drop b h) bs (heap w)) i =
               share_of_others (Finished (Batches bs) health) w i).
Proof.
  intros Hn Hr Hlen. pose proof (registry_reachable_ok _ w Hn Hr) as Hw. split_and!.
  - pose proof (collect_start_share config program r now1 now2 instant gate w Hn Hw Hlen) as H.
    destruct (collect_start _ _ _ _ _ _ _ _) as [[c gate'] w']. split; [|destruct c; simpl; lia].
    apply H. intros i. unfold unsettled. destruct (heap w !! i) as [cl|] eqn:E.
    + rewrite (lookup_total_correct _ _ _ E). destruct (wf_cells _ _ Hw _ _ E) as [[_ _ ? _ _ _] _]. lia.
    + by rewrite lookup_total_alt, E.
  - apply task_step_share.
  - intros bs health w1 H i. apply drop_batches_share. intros j. specialize (H j).
    unfold share_of_others in H. simpl in H. lia.
Qed.
End Start.

(** ** What a drop leaves behind *)
Lemma mark_settled_keeps c :
  tc_state (mark_settled c).2 = tc_state c /\
  tc_incomplete_reason (mark_settled c).2 = tc_incomplete_reason c.
Proof. unfold mark_settled. by destruct (_ >=? _). Qed.

(** A property of cells that every update of a fold keeps. *)
Lemma fold_cells_keep (P : TokenCells -> Prop) (f : Heap -> Token -> Heap) ts h t :
  (forall h t0, P (cells_of h t) -> P (cells_of (f h t0) t)) ->
  P (cells_of h t) -> P (cells_of (fold_left f ts h) t).
Proof. intros Hf. revert h. induction ts as [|t0 ts IH]; intros h H; simpl; auto. Qed.

Lemma update_cells_keep (P : TokenCells -> Prop) g h t0 t :
  (forall c, P c -> P (g c)) -> P (cells_of h t) -> P (cells_of (update_cells g t0 h) t).
Proof.
  intros Hg H. destruct (decide (tok_cells t = tok_cells t0)) as [E|Hne].
  - assert (cells_of (update_cells g t0 h) t = g (cells_of h t)) as ->.
    { unfold update_cells, cells_of. by rewrite E, lookup_total_insert_eq. }
    by apply Hg.
  - by rewrite cells_of_update_ne.
Qed.

Definition incomplete_cells (c : TokenCells) : Prop := tc_incomplete_reason c <> WINDOW_COMPLETE.
Definition decided_cells (c : TokenCells) : Prop := tc_state c <> WINDOW_PENDING.

Lemma settle_token_incomplete failed h t0 t :
  incomplete_cells (cells_of h t) -> incomplete_cells (cells_of (settle_token failed h t0) t).
Proof.
  intros H. unfold settle_token. apply update_cells_keep.
  { intros c. unfold incomplete_cells. by destruct (mark_settled_keeps c) as [_ ->]. }
  destruct failed; [|done]. apply update_cells_keep; [|done].
  intros c. unfold incomplete_cells, mark_incomplete. by destruct (Z.eqb_spec (tc_incomplete_reason c) WINDOW_COMPLETE).
Qed.

Lemma settle_fold_incomplete ts h t :
  t ∈ ts -> incomplete_cells (cells_of (fold_left (settle_token true) ts h) t).
Proof.
  intros (l1 & l2 & ->)%list_elem_of_split. rewrite fold_left_app. simpl.
  apply fold_cells_keep; [intros; by apply settle_token_incomplete|].
  generalize (fold_left (settle_token true) l1 h) as h1. intros h1.
  unfold settle_token, incomplete_cells. rewrite cells_of_update_eq.
  match goal with |- context [(mark_settled ?c).2] => destruct (mark_settled_keeps c) as [_ ->] end.
  rewrite cells_of_update_eq. apply mark_incomplete_incomplete.
Qed.

Lemma cancel_if_pending_decided c : decided_cells (cancel_if_pending c).
Proof.
  unfold decided_cells, cancel_if_pending.
  destruct (Z.eqb_spec (tc_state c) WINDOW_PENDING) as [_|Hne]; [done|exact Hne].
Qed.

Lemma guard_drop_decided provisions h t :
  t ∈ new_tokens provisions -> decided_cells (cells_of (guard_drop provisions h) t).
Proof.
  intros Ht. unfold guard_drop. apply fold_cells_keep.
  { intros h' t0. apply update_cells_keep. intros c. unfold decided_cells.
    by destruct (mark_settled_keeps c) as [-> _]. }
  unfold cancel_new_provisions. apply list_elem_of_split in Ht as (l1 & l2 & ->).
  rewrite fold_left_app. simpl. apply fold_cells_keep.
  - intros h' t0. apply update_cells_keep. intros c _. apply cancel_if_pending_decided.
  - rewrite cells_of_update_eq. apply cancel_if_pending_decided.
Qed.

(** Nothing is settled silently.  Dropping a batch that was not marked
    successful, or a task at an await, leaves every window whose admission it
    settles incomplete, and every window the task had opened provisionally is
    past its pending state, so it can never be mistaken for a complete one. *)
Theorem dropped_admissions_leave_evidence :
  (forall b h t, pb_processing_succeeded b = false -> t ∈ pb_window_tokens b ->
     tc_incomplete_reason (cells_of (batch_drop b h) t) <> WINDOW_COMPLETE) /\
  (forall s w t, t ∈ su_tracked s ->
     tc_incomplete_reason (cells_of (heap (collect_dropped s w)) t) <> WINDOW_COMPLETE) /\
  (forall s w t, t ∈ new_tokens (su_provisions s) ->
     tc_state (cells_of (heap (collect_dropped s w)) t) <> WINDOW_PENDING) /\
  (forall s health w t, t ∈ new_tokens (su_provisions s) ->
     tc_state (cells_of (heap (abandon s health w).2) t) <> WINDOW_PENDING).
Proof.
  split_and!.
  - intros b h t Hb Ht. unfold batch_drop. rewrite Hb. by apply settle_fold_incomplete.
  - intros s w t Ht. by apply settle_fold_incomplete.
  - intros s w t Ht. unfold collect_dropped, tracked_drop. simpl. apply (fold_cells_keep decided_cells).
    + intros h t0 Hd. unfold settle_token. apply update_cells_keep.
      { intros c. unfold decided_cells. by destruct (mark_settled_keeps c) as [-> _]. }
      apply update_cells_keep; [|done]. intros c. unfold decided_cells, mark_incomplete.
      by destruct (_ =? WINDOW_COMPLETE).
    + by apply guard_drop_decided.
  - intros s health w t Ht. by apply guard_drop_decided.
Qed.

(** ** One tracked event *)
Lemma collected_admissions_settle_witness : exists c g w',
  collect_start (B64:=Hexish.codec)
    {| cc_network := SolanaMainnet; cc_maximum_active := 2; cc_maximum_discovery_age_ms := 60000;
       cc_observation_window_duration_ms := 50 |} PumpP
    {| rn_notification := SampleIntake.corroborated; rn_received_time_unix_ms := 120 |}
    130 130 0 (recent_signatures 10) SampleIntake.world = (c, g, w') /\
  tok_cells <$> held c = [0%nat] /\ share_of_others c w' 0 = 0.
Proof.
  destruct (collected_admissions_settle (B64:=Hexish.codec)
    {| cc_network := SolanaMainnet; cc_maximum_active := 2; cc_maximum_discovery_age_ms := 60000;
       cc_observation_window_duration_ms := 50 |} PumpP
    {| rn_notification := SampleIntake.corroborated; rn_received_time_unix_ms := 120 |}
    130 130 0 (recent_signatures 10) SampleIntake.world ltac:(simpl; lia) SampleIntake.world_reachable
    ltac:(vm_compute; congruence)) as [H _].
  destruct (collect_start _ _ _ _ _ _ _ _) as [[c g] w'] eqn:E. exists c, g, w'.
  split; [reflexivity|]. destruct H as [H _]. split.
  - vm_compute in E. injection E as <- _ _. vm_compute. reflexivity.
  - rewrite H. vm_compute. reflexivity.
Defined.
