(* ===== verification/PendingActivity.v ===== *)
(** [apps/server/src/jobs/pending_activity.rs]: the bounded holding area for
    activity that arrived before the window it belongs to was confirmed. *)
From S2P Require Import Prelude.
From S2P Require Import ListFacts.
From S2P Require Import WindowToken.
From S2P Require Import WindowTokenProofs.
From S2P Require Import WindowRegistry.
From S2P Require Import WindowRegistryInv.
From S2P Require Import Collector.
From S2P Require Import CollectorProofs.

Record PendingActivityBatch := { pa_batch : ProgramLogBatch; pa_release_at_unix_ms : Z }.

Record PendingActivityQueue := {
  pq_capacity : nat;
  pq_maximum_hold_ms : Z;
  pq_batches : list PendingActivityBatch;
}.

Inductive PendingActivityAdmission :=
| AdmissionReady (batch : ProgramLogBatch)
| AdmissionDeferred
| AdmissionDropped.

(** [PendingActivityQueue::new]; its assertions are panics. *)
Definition pending_activity_queue (capacity : nat) (maximum_hold_ms : Z)
    : option PendingActivityQueue :=
  if Nat.eqb capacity 0 || (maximum_hold_ms =? 0) then None
  else Some {| pq_capacity := capacity; pq_maximum_hold_ms := maximum_hold_ms; pq_batches := [] |}.

Definition with_batches (batches : list PendingActivityBatch) (q : PendingActivityQueue)
    : PendingActivityQueue :=
  {| pq_capacity := pq_capacity q; pq_maximum_hold_ms := pq_maximum_hold_ms q;
     pq_batches := batches |}.

Definition has_pending_token (h : Heap) (batch : ProgramLogBatch) : bool :=
  existsb (fun t => match status (cells_of h t) with Some StatusPending => true | _ => false end)
    (pb_window_tokens batch).

(** A refused batch is dropped where [admit_batch] returns. *)
Definition admit_batch (q : PendingActivityQueue) (h : Heap) (batch : ProgramLogBatch) (now_unix_ms : Z)
    : PendingActivityAdmission * PendingActivityQueue * Heap :=
  if negb (bool_decide (pb_purpose batch = PurposeTrackedActivity)) || negb (has_pending_token h batch)
  then (AdmissionReady batch, q, h)
  else if (pq_capacity q <=? length (pq_batches q))%nat then
    (AdmissionDropped, q,
     batch_drop batch
       (fold_left (fun h t => update_cells (cancel_with_reason QueueOverflow) t h)
          (pb_window_tokens batch) h))
  else
    let maximum_hold_ms := default i64_max (try_from_s 64 (pq_maximum_hold_ms q)) in
    (AdmissionDeferred,
     with_batches (pq_batches q ++
       [{| pa_batch := batch;
           pa_release_at_unix_ms := saturating_add_s 64 now_unix_ms maximum_hold_ms |}]) q,
     h).

(** One turn of the loop pops the front and pushes it back or releases it. *)
Definition holds_back (h : Heap) (now_unix_ms : Z) (pending : PendingActivityBatch) : bool :=
  has_pending_token h (pa_batch pending) && (now_unix_ms <? pa_release_at_unix_ms pending).
Fixpoint drain_loop (h : Heap) (now_unix_ms : Z) (turns : nat) (batches : list PendingActivityBatch)
    (ready : list ProgramLogBatch) : list PendingActivityBatch * list ProgramLogBatch :=
  match turns with
  | O => (batches, ready)
  | S turns =>
      match batches with
      | [] => (batches, ready)
      | pending :: rest =>
          if holds_back h now_unix_ms pending
          then drain_loop h now_unix_ms turns (rest ++ [pending]) ready
          else drain_loop h now_unix_ms turns rest (ready ++ [pa_batch pending])
      end
  end.
Definition drain_resolved (q : PendingActivityQueue) (h : Heap) (now_unix_ms : Z)
    : list ProgramLogBatch * PendingActivityQueue :=
  let '(batches, ready) := drain_loop h now_unix_ms (length (pq_batches q)) (pq_batches q) [] in
  (ready, with_batches batches q).

(** The holding area of provisional activity: it is bounded, loses nothing, and
    releases every batch once its window resolved or its hold elapsed. *)
(** ** Draining is a stable partition *)
Lemma drain_loop_partition h now front back ready :
  drain_loop h now (length front) (front ++ back) ready =
  (back ++ List.filter (holds_back h now) front,
   ready ++ (pa_batch <$> List.filter (fun p => negb (holds_back h now p)) front)).
Proof.
  revert back ready. induction front as [|p front IH]; intros back ready; simpl.
  { by rewrite !app_nil_r. }
  destruct (holds_back h now p); simpl.
  - rewrite <- app_assoc. rewrite IH. by rewrite <- app_assoc.
  - rewrite IH, <- app_assoc. done.
Qed.

Lemma drain_resolved_partition q h now :
  drain_resolved q h now =
  (pa_batch <$> List.filter (fun p => negb (holds_back h now p)) (pq_batches q),
   with_batches (List.filter (holds_back h now) (pq_batches q)) q).
Proof.
  unfold drain_resolved. pose proof (drain_loop_partition h now (pq_batches q) [] []) as H.
  rewrite app_nil_r in H. by rewrite H.
Qed.

(** ** Histories of the queue *)

(** One call on the queue, with the cells as the call finds them: other tasks
    change them between two calls. *)
Inductive QueueOp := Offer (batch : ProgramLogBatch) (now : Z) | Drain (now : Z).

Record QueueRun := {
  qr_ready : list ProgramLogBatch;
  qr_dropped : list ProgramLogBatch;
  qr_queue : PendingActivityQueue;
}.

Definition queue_step (r : QueueRun) (op : Heap * QueueOp) : QueueRun :=
  match op with
  | (h, Offer batch now) =>
      match admit_batch (qr_queue r) h batch now with
      | (AdmissionReady b, q, _) =>
          {| qr_ready := qr_ready r ++ [b]; qr_dropped := qr_dropped r; qr_queue := q |}
      | (AdmissionDeferred, q, _) =>
          {| qr_ready := qr_ready r; qr_dropped := qr_dropped r; qr_queue := q |}
      | (AdmissionDropped, q, _) =>
          {| qr_ready := qr_ready r; qr_dropped := qr_dropped r ++ [batch]; qr_queue := q |}
      end
  | (h, Drain now) =>
      let '(ready, q) := drain_resolved (qr_queue r) h now in
      {| qr_ready := qr_ready r ++ ready; qr_dropped := qr_dropped r; qr_queue := q |}
  end.

Definition queue_run (q : PendingActivityQueue) (ops : list (Heap * QueueOp)) : QueueRun :=
  fold_left queue_step ops {| qr_ready := []; qr_dropped := []; qr_queue := q |}.

Definition offered (ops : list (Heap * QueueOp)) : list ProgramLogBatch :=
  omap (fun op => match op.2 with Offer batch _ => Some batch | Drain _ => None end) ops.

Definition hold_ms (q : PendingActivityQueue) : Z :=
  default i64_max (try_from_s 64 (pq_maximum_hold_ms q)).

(** Where a queued batch comes from. *)
Definition deferred_at (ops : list (Heap * QueueOp)) (hold : Z) (p : PendingActivityBatch) : Prop :=
  exists h now, (h, Offer (pa_batch p) now) ∈ ops /\
    pa_release_at_unix_ms p = saturating_add_s 64 now hold.

Record queue_ok (q0 : PendingActivityQueue) (ops : list (Heap * QueueOp)) (r : QueueRun) : Prop := {
  qo_capacity : pq_capacity (qr_queue r) = pq_capacity q0;
  qo_hold : pq_maximum_hold_ms (qr_queue r) = pq_maximum_hold_ms q0;
  qo_bound : (length (pq_batches (qr_queue r)) <= pq_capacity q0)%nat;
  qo_all : offered ops ≡ₚ qr_ready r ++ qr_dropped r ++ (pa_batch <$> pq_batches (qr_queue r));
  qo_from : Forall (deferred_at ops (hold_ms q0)) (pq_batches (qr_queue r));
}.

Lemma deferred_at_app ops op hold p : deferred_at ops hold p -> deferred_at (ops ++ [op]) hold p.
Proof. intros (h & now & Hin & He). exists h, now. split; [set_solver|done]. Qed.

Lemma filter_split_perm {A} (f : A -> bool) l :
  l ≡ₚ List.filter (fun x => negb (f x)) l ++ List.filter f l.
Proof.
  induction l as [|x l IH]; simpl; [done|]. destruct (f x); simpl.
  - rewrite <- Permutation_middle. by constructor.
  - by constructor.
Qed.

Lemma queue_step_ok q0 ops r op :
  queue_ok q0 ops r -> queue_ok q0 (ops ++ [op]) (queue_step r op).
Proof.
  intros [Hc Hh Hb Hall Hfrom].
  assert (forall bs, Forall (deferred_at ops (hold_ms q0)) bs ->
            Forall (deferred_at (ops ++ [op]) (hold_ms q0)) bs) as Hkeep.
  { intros bs Hbs. eapply Forall_impl; [exact Hbs|]. intros p. apply deferred_at_app. }
  destruct op as [h [batch now|now]]; simpl.
  - assert (offered (ops ++ [(h, Offer batch now)]) ≡ₚ batch :: offered ops) as Ho.
    { unfold offered. rewrite omap_app. simpl. symmetry. apply Permutation_cons_append. }
    unfold admit_batch. destruct (negb _ || negb _); [|destruct (Nat.leb_spec (pq_capacity (qr_queue r))
      (length (pq_batches (qr_queue r))))]; constructor; simpl; try done; auto.
    + rewrite Ho, Hall, <- app_assoc. apply Permutation_middle.
    + rewrite Ho, Hall, <- !app_assoc. simpl. by rewrite <- !Permutation_middle.
    + rewrite length_app. simpl. lia.
    + rewrite Ho, Hall, fmap_app, !app_assoc. apply Permutation_cons_append.
    + apply Forall_app. split; [auto|]. constructor; [|done]. exists h, now. simpl.
      split; [set_solver|]. unfold hold_ms. by rewrite Hh.
  - rewrite drain_resolved_partition. simpl.
    assert (offered (ops ++ [(h, Drain now)]) = offered ops) as Ho.
    { unfold offered. rewrite omap_app. simpl. by rewrite app_nil_r. }
    constructor; simpl; try done.
    + etrans; [apply length_filter_le|done].
    + rewrite Ho, Hall.
      rewrite (filter_split_perm (holds_back h now) (pq_batches (qr_queue r))) at 1.
      rewrite fmap_app, <- app_assoc. apply Permutation_app_head.
      rewrite !app_assoc. apply Permutation_app_tail. apply Permutation_app_comm.
    + by apply Hkeep, Forall_filter_b.
Qed.

Lemma queue_run_ok capacity hold q0 ops :
  pending_activity_queue capacity hold = Some q0 -> queue_ok q0 ops (queue_run q0 ops).
Proof.
  intros Hq. induction ops as [|op ops IH] using rev_ind.
  - unfold pending_activity_queue in Hq. destruct (_ || _); [done|]. injection Hq as <-.
    constructor; simpl; try done. lia.
  - unfold queue_run. rewrite fold_left_app. simpl. by apply queue_step_ok.
Qed.

(** ** A refused batch *)
Lemma cancel_fold_keep (P : TokenCells -> Prop) ts h t :
  (forall c, P c -> P (cancel_with_reason QueueOverflow c)) -> P (cells_of h t) ->
  P (cells_of (fold_left (fun h t => update_cells (cancel_with_reason QueueOverflow) t h) ts h) t).
Proof. intros Hf H. apply fold_cells_keep; [|done]. intros h' t0. by apply update_cells_keep. Qed.

(** Cancelled or never open: the window takes no more activity. *)
Definition closed_cells (c : TokenCells) : Prop := state_open c = false.

Lemma cancel_closes r c : closed_cells (cancel_with_reason r c).
Proof.
  unfold closed_cells, cancel_with_reason, state_open.
  destruct (Z.eqb_spec (tc_state c) WINDOW_PENDING); [done|].
  destruct (Z.eqb_spec (tc_state c) WINDOW_CONFIRMED) as [_|Hne]; [done|].
  by rewrite (proj2 (Z.eqb_neq _ _) n), (proj2 (Z.eqb_neq _ _) Hne).
Qed.

Lemma closed_cancel r c : closed_cells c -> closed_cells (cancel_with_reason r c).
Proof. intros _. apply cancel_closes. Qed.

Lemma mark_settled_closed c : closed_cells c -> closed_cells (mark_settled c).2.
Proof. unfold closed_cells, state_open. by destruct (mark_settled_keeps c) as [-> _]. Qed.

Lemma settle_token_closed failed h t0 t :
  closed_cells (cells_of h t) -> closed_cells (cells_of (settle_token failed h t0) t).
Proof.
  intros H. unfold settle_token. apply update_cells_keep; [apply mark_settled_closed|].
  destruct failed; [|done]. apply update_cells_keep; [|done]. intros c.
  unfold closed_cells, state_open, mark_incomplete. by destruct (_ =? WINDOW_COMPLETE).
Qed.

Lemma refused_batch h batch t :
  pb_processing_succeeded batch = false -> t ∈ pb_window_tokens batch ->
  let h' := batch_drop batch
    (fold_left (fun h t => update_cells (cancel_with_reason QueueOverflow) t h)
       (pb_window_tokens batch) h) in
  closed_cells (cells_of h' t) /\ incomplete_cells (cells_of h' t).
Proof.
  intros Hb Ht h'. split.
  - unfold h', batch_drop. apply fold_cells_keep; [intros; by apply settle_token_closed|].
    apply list_elem_of_split in Ht as (l1 & l2 & ->). rewrite fold_left_app. simpl.
    apply cancel_fold_keep; [intros c; apply closed_cancel|]. rewrite cells_of_update_eq.
    apply cancel_closes.
  - unfold h', batch_drop. rewrite Hb. by apply settle_fold_incomplete.
Qed.

(** The holding area is bounded and loses nothing.  Over any sequence of
    offers and drains, with other tasks changing the windows in between: it
    never holds more than its capacity; every offered batch was handed on,
    refused or is still held, exactly once; a refused batch leaves all its
    windows closed and incomplete; and after a drain each held batch still waits
    for a pending window and was offered less than the maximum hold ago, so
    every batch is handed on at the latest by the first drain after its hold. *)
Theorem pending_activity_is_released capacity hold q0 ops :
  pending_activity_queue capacity hold = Some q0 ->
  let r := queue_run q0 ops in
  (length (pq_batches (qr_queue r)) <= capacity)%nat /\
  offered ops ≡ₚ qr_ready r ++ qr_dropped r ++ (pa_batch <$> pq_batches (qr_queue r)) /\
  (forall h batch now q' h', admit_batch (qr_queue r) h batch now = (AdmissionDropped, q', h') ->
     pb_processing_succeeded batch = false -> forall t, t ∈ pb_window_tokens batch ->
     state_open (cells_of h' t) = false /\ tc_incomplete_reason (cells_of h' t) <> WINDOW_COMPLETE) /\
  (forall h now, let after := queue_run q0 (ops ++ [(h, Drain now)]) in
     Forall (fun p => has_pending_token h (pa_batch p) = true /\
               exists h' offered_at, (h', Offer (pa_batch p) offered_at) ∈ ops /\
                 now < saturating_add_s 64 offered_at (default i64_max (try_from_s 64 hold)))
       (pq_batches (qr_queue after))).
Proof.
  intros Hq r. pose proof (queue_run_ok capacity hold q0 ops Hq) as [Hc Hh Hb Hall Hfrom].
  fold r in Hc, Hh, Hb, Hall, Hfrom.
  assert (pq_capacity q0 = capacity /\ pq_maximum_hold_ms q0 = hold) as [Ec Eh].
  { unfold pending_activity_queue in Hq. destruct (_ || _); [done|]. by injection Hq as <-. }
  rewrite Ec in Hb. split_and!; [done..| |].
  - intros h batch now q' h' Ha Hs t Ht. unfold admit_batch in Ha. destruct (negb _ || negb _); [done|].
    destruct (_ <=? _)%nat; [|done]. injection Ha as _ <-. by apply refused_batch.
  - intros h now after. unfold after, queue_run. rewrite fold_left_app. simpl.
    change (fold_left queue_step ops _) with r. rewrite drain_resolved_partition. simpl.
    apply Forall_forall. intros p Hp. apply filter_subset in Hp as [Hp Hin].
    unfold holds_back in Hp. apply andb_true_iff in Hp as [Hpend Hlt]. apply Z.ltb_lt in Hlt.
    split; [done|]. rewrite Forall_forall in Hfrom.
    destruct (Hfrom p Hin) as (h' & at_ & Hoff & He). exists h', at_. split; [done|].
    unfold hold_ms in He. by rewrite <- Eh, <- He.
Qed.

(** ** One batch deferred, held and released *)
Module SampleQueue.
Definition window : ObservationWindow :=
  {| ow_target := PumpMint "mint"; ow_mint := "mint"; ow_opened_at_unix_ms := 1000;
     ow_closes_at_unix_ms := 1500 |}.
Definition batch : ProgramLogBatch :=
  {| pb_purpose := PurposeTrackedActivity; pb_slot := 42; pb_transaction_index := None;
     pb_signature := "activity"; pb_received_time_unix_ms := 1100; pb_instructions := [];
     pb_log_messages := []; pb_transaction_error := None;
     pb_window_tokens := [{| tok_generation := 0; tok_window := window; tok_cells := 0 |}];
     pb_processing_succeeded := false |}.
Definition pending_heap : Heap := {[0%nat := fresh_cells]}.
Definition queue : PendingActivityQueue :=
  {| pq_capacity := 1; pq_maximum_hold_ms := 2000; pq_batches := [] |}.
Definition ops : list (Heap * QueueOp) :=
  [(pending_heap, Offer batch 1100); (pending_heap, Offer batch 1200); (pending_heap, Drain 1500)].
End SampleQueue.

Lemma pending_activity_is_released_witness :
  let r := queue_run SampleQueue.queue SampleQueue.ops in
  length (pq_batches (qr_queue r)) = 1%nat /\ qr_dropped r = [SampleQueue.batch] /\
  qr_ready (queue_run SampleQueue.queue (SampleQueue.ops ++ [(SampleQueue.pending_heap, Drain 3100)]))
  = [SampleQueue.batch] /\
  offered SampleQueue.ops ≡ₚ qr_ready r ++ qr_dropped r ++ (pa_batch <$> pq_batches (qr_queue r)).
Proof.
  split_and!; [vm_compute; reflexivity..|].
  apply (pending_activity_is_released 1 2000 SampleQueue.queue SampleQueue.ops). reflexivity.
Defined.
