(* ===== verification/PipelineDecode.v ===== *)
(** [decode_batch_events] of [apps/server/src/jobs/pipeline.rs]: the canonical
    events of one batch, from its program-data logs, with the event self-calls
    as corroboration, and the evidence that has to be quarantined. *)
From S2P Require Import Prelude.
From S2P Require Import ListFacts.
From S2P Require Import RustOrd.
From S2P Require Import BTree.
From S2P Require Import RustStr.
From S2P Require Import Domain.
From S2P Require Import External.
From S2P Require Import PumpModel.
From S2P Require Import BorshReader.
From S2P Require Import PumpDecoder.
From S2P Require Import WindowRegistry.
From S2P Require Import PersistenceModel.
From S2P Require Import RpcModel.
From S2P Require Import Intake.
From S2P Require Import IntakeProofs.
From S2P Require Import Collector.

(** ** Error texts *)

(** [{:?}] of a [PumpProgram] and of a discriminator. *)
Definition program_debug (p : PumpProgram) : string :=
  match p with PumpP => "Pump" | PumpSwapP => "PumpSwap" end.
Definition bytes_debug (bs : list byte) : string :=
  ("[" +:+ String.concat ", " ((fun b => dec (byte_val b)) <$> bs) +:+ "]")%string.

(** [Display] of the decoder's errors. *)
Definition decode_error_text {B64 : Base64} (e : DecodeError B64) : string :=
  (match e with
   | UnsupportedProgram program => "unsupported Pump source program: " +:+ program
   | EmptySignature => "transaction signature cannot be empty"
   | MissingDiscriminator => "event payload is shorter than the 8-byte Anchor discriminator"
   | MissingCpiDiscriminator => "inner instruction is not an Anchor event CPI"
   | UnknownDiscriminator program d =>
       "unknown event discriminator " +:+ bytes_debug d +:+ " for " +:+ program_debug program
   | Truncated field needed remaining =>
       "event field `" +:+ field +:+ "` is truncated: needs " +:+ dec (Z.of_nat needed) +:+
       " bytes, has " +:+ dec (Z.of_nat remaining)
   | InvalidUtf8 field => "event field `" +:+ field +:+ "` contains invalid UTF-8"
   | InvalidBoolean field value =>
       "event field `" +:+ field +:+ "` has invalid boolean byte " +:+ dec value
   | LimitExceeded field limit actual =>
       "event field `" +:+ field +:+ "` length " +:+ dec actual +:+ " exceeds limit " +:+ dec limit
   | TrailingBytes count => "event has " +:+ dec (Z.of_nat count) +:+ " unexpected trailing bytes"
   | InvalidProgramDataLog => "expected an Anchor `Program data:` log"
   | InvalidBase64 _ => "invalid base64 in `Program data:` log"
   | TooManyEvents limit => "an instruction emitted more than " +:+ dec limit +:+ " events"
   end)%string.

(** [Display] of the log scoping errors. *)
Definition scope_error_text (e : LogScopeError) : string :=
  (match e with
   | ScopeEmptySignature => "transaction signature cannot be empty"
   | TruncatedLogs => "Solana explicitly reported truncated transaction logs"
   | InvalidInvocationDepth depth =>
       "program invocation depth " +:+ dec depth +:+ " is inconsistent with the log stack"
   | UnexpectedProgramExit program =>
       "program " +:+ program +:+ " exited without being the active invocation"
   | UnclosedInvocations depth =>
       "transaction logs ended with " +:+ dec depth +:+ " unclosed program invocations"
   | TooManyInstructions limit =>
       "top-level transaction contains more than " +:+ dec limit +:+ " instructions"
   | ScopeTooManyEvents limit =>
       "one transaction instruction contains more than " +:+ dec limit +:+ " program-data events"
   end)%string.

(** ** Evidence *)
Record DecodedEvidence := { de_decoded : DecodedPumpEvent; de_raw_evidence : list byte }.

Record QuarantinedEvidence := {
  qe_coordinate : ChainCoordinate;
  qe_reason_code : string;
  qe_reason_detail : string;
  qe_raw_evidence : list byte;
}.

Record DecodedBatch := {
  dbt_events : list DecodedEvidence;
  dbt_quarantines : list QuarantinedEvidence;
}.

(** What became of one piece of evidence. *)
Record Evidence := { ev_events : list DecodedEvidence; ev_quarantines : list QuarantinedEvidence }.
Definition no_evidence : Evidence := {| ev_events := []; ev_quarantines := [] |}.
Definition add_event (e : DecodedEvidence) (ev : Evidence) : Evidence :=
  {| ev_events := ev_events ev ++ [e]; ev_quarantines := ev_quarantines ev |}.
Definition add_quarantine (q : QuarantinedEvidence) (ev : Evidence) : Evidence :=
  {| ev_events := ev_events ev; ev_quarantines := ev_quarantines ev ++ [q] |}.

Section Decode.
Context {B64 : Base64}.

(** The [match] on a decoding result, the same for self-calls and logs. *)
Definition record_decoding (decoded : result (DecodeError B64) DecodedPumpEvent)
    (coordinate : ChainCoordinate) (raw_evidence : list byte) (ev : Evidence) : Evidence :=
  let quarantine code detail :=
    add_quarantine {| qe_coordinate := coordinate; qe_reason_code := code;
                      qe_reason_detail := detail; qe_raw_evidence := raw_evidence |} ev in
  match decoded with
  | Ok event => add_event {| de_decoded := event; de_raw_evidence := raw_evidence |} ev
  | Err (UnknownDiscriminator program discriminator as source) =>
      if is_pinned_event_discriminator program discriminator then ev
      else quarantine "UNKNOWN_PUMP_EVENT_DISCRIMINATOR"%string (decode_error_text source)
  | Err source => quarantine "MALFORMED_PUMP_EVENT"%string (decode_error_text source)
  end.

Definition batch_coordinate (batch : ProgramLogBatch) (instruction event : Z) : ChainCoordinate :=
  {| slot := pb_slot batch; transaction_index := pb_transaction_index batch;
     signature := pb_signature batch; instruction_index := instruction; event_index := event |}.

(** The event self-calls of a program. *)
Definition is_event_call (program_id : string) (i : TransactionInstructionRecord) : bool :=
  is_inner i && String.eqb (ti_program_id i) program_id && is_anchor_event_cpi (ti_data i).

Fixpoint decode_calls (program_id : string) (batch : ProgramLogBatch) (indexes : btree Z Z)
    (ev : Evidence) (instructions : list TransactionInstructionRecord)
    : result LogScopeError Evidence :=
  match instructions with
  | [] => Ok ev
  | i :: rest =>
      let outer := ti_outer_instruction_index i in
      let event := default 0 (bt_get outer indexes) in
      let coordinate := batch_coordinate batch outer event in
      next ← ok_or (checked_add_u 16 event 1) (ScopeTooManyEvents u16_max);
      decode_calls program_id batch (bt_insert outer next indexes)
        (record_decoding (decode_cpi_event program_id coordinate (ti_data i)) coordinate (ti_data i) ev)
        rest
  end.

(** One scoped program-data record. *)
Definition decode_record (program_id : string) (ev : Evidence) (record : ScopedProgramData) : Evidence :=
  let coordinate := sp_coordinate record in
  match decode_program_data_bytes (sp_log record) with
  | Ok raw_evidence =>
      record_decoding (decode_anchor_event program_id coordinate raw_evidence) coordinate
        raw_evidence ev
  | Err source =>
      add_quarantine {| qe_coordinate := coordinate; qe_reason_code := "MALFORMED_PROGRAM_DATA";
                        qe_reason_detail := decode_error_text source;
                        qe_raw_evidence := str_bytes (sp_log record) |} ev
  end.

(** The first direct event of the call's instruction and content that no
    earlier call took. *)
Definition matches_call (cpi direct : DecodedEvidence) : bool :=
  (instruction_index (dp_coordinate (de_decoded direct)) =?
   instruction_index (dp_coordinate (de_decoded cpi))) &&
  bool_decide (dp_event (de_decoded direct) = dp_event (de_decoded cpi)).
Fixpoint find_direct (decoded : list DecodedEvidence) (matched : list bool) (cpi : DecodedEvidence)
    : option nat :=
  match decoded, matched with
  | direct :: decoded, taken :: matched =>
      if negb taken && matches_call cpi direct then Some O
      else S <$> find_direct decoded matched cpi
  | _, _ => None
  end.
Fixpoint match_calls (decoded : list DecodedEvidence) (matched_direct_events : list bool)
    (cpi_events : list DecodedEvidence) (quarantines : list QuarantinedEvidence)
    : list QuarantinedEvidence :=
  match cpi_events with
  | [] => quarantines
  | cpi :: rest =>
      match find_direct decoded matched_direct_events cpi with
      | Some index => match_calls decoded (<[index := true]> matched_direct_events) rest quarantines
      | None =>
          match_calls decoded matched_direct_events rest
            (quarantines ++
             [{| qe_coordinate := dp_coordinate (de_decoded cpi);
                 qe_reason_code := "CPI_EVENT_WITHOUT_CANONICAL_LOG";
                 qe_reason_detail := "decoded Anchor event CPI had no matching direct program-data event";
                 qe_raw_evidence := de_raw_evidence cpi |}])
      end
  end.

Definition newline : string := String (Ascii.ascii_of_nat 10) EmptyString.

Definition decode_batch_events (batch : ProgramLogBatch) (program : PumpProgram)
    : result LogScopeError DecodedBatch :=
  let program_id := pump_program_id program in
  calls ← decode_calls program_id batch [] no_evidence
            (List.filter (is_event_call program_id) (pb_instructions batch));
  match scope_program_data_logs program_id (pb_slot batch) (pb_transaction_index batch)
          (pb_signature batch) (pb_log_messages batch) with
  | Err error =>
      Ok {| dbt_events := [];
            dbt_quarantines := ev_quarantines calls ++
              [{| qe_coordinate := batch_coordinate batch 0 0;
                  qe_reason_code := "MALFORMED_LOG_SCOPE"; qe_reason_detail := scope_error_text error;
                  qe_raw_evidence := str_bytes (String.concat newline (pb_log_messages batch)) |}] |}
  | Ok scoped_logs =>
      let direct := fold_left (decode_record program_id) scoped_logs
        {| ev_events := []; ev_quarantines := ev_quarantines calls |} in
      Ok {| dbt_events := ev_events direct;
            dbt_quarantines :=
              match_calls (ev_events direct) (repeat false (length (ev_events direct)))
                (ev_events calls) (ev_quarantines direct) |}
  end.
End Decode.

(** [encode_quarantine_evidence]. *)
Definition MAX_QUARANTINE_RAW_BYTES : Z := MAX_QUARANTINE_EVIDENCE_BASE64_BYTES / 4 * 3.
Definition encode_quarantine_evidence {B64 : Base64} (raw_evidence : list byte) : string :=
  base64_encode
    (match raw_evidence with
     | [] => str_bytes "<empty-evidence>"
     | _ => firstn (Z.to_nat MAX_QUARANTINE_RAW_BYTES) raw_evidence
     end).

(** What [decode_batch_events] promises: the events of a batch are those of its
    logs whatever the instructions say, and nothing is quarantined exactly when
    logs and self-calls are both sound and agree. *)
Section Decoded.
Context {B64 : Base64}.

(** ** One decoding *)
Definition decoding_known (d : result (DecodeError B64) DecodedPumpEvent) : Prop :=
  match d with
  | Ok _ => True
  | Err (UnknownDiscriminator program discriminator) =>
      is_pinned_event_discriminator program discriminator = true
  | Err _ => False
  end.
Definition decoded_as (d : result (DecodeError B64) DecodedPumpEvent) (raw : list byte)
    : list DecodedEvidence :=
  match d with Ok e => [{| de_decoded := e; de_raw_evidence := raw |}] | Err _ => [] end.

Lemma record_decoding_spec d c raw ev :
  exists q, record_decoding d c raw ev =
      {| ev_events := ev_events ev ++ decoded_as d raw; ev_quarantines := ev_quarantines ev ++ q |} /\
    (q = [] <-> decoding_known d).
Proof.
  destruct ev as [es qs]. unfold record_decoding, add_event, add_quarantine, decoded_as, decoding_known.
  destruct d as [e|[]]; simpl;
    try (eexists [_]; split; [by rewrite app_nil_r|done]).
  - exists []. by rewrite app_nil_r.
  - destruct (is_pinned_event_discriminator _ _); [exists []|eexists [_]]; by rewrite !app_nil_r.
Qed.

(** ** The logs *)
Definition record_events (program_id : string) (r : ScopedProgramData) : list DecodedEvidence :=
  match decode_program_data_bytes (B64:=B64) (sp_log r) with
  | Ok raw => decoded_as (decode_anchor_event program_id (sp_coordinate r) raw) raw
  | Err _ => []
  end.

Lemma decode_record_spec program ev r :
  exists q, decode_record (pump_program_id program) ev r =
      {| ev_events := ev_events ev ++ record_events (pump_program_id program) r;
         ev_quarantines := ev_quarantines ev ++ q |} /\
    (q = [] <-> record_known program r).
Proof.
  unfold decode_record, record_events, record_known, decode_program_data_log.
  destruct (decode_program_data_bytes (sp_log r)) as [raw|e] eqn:E; simpl.
  - destruct (record_decoding_spec (decode_anchor_event (pump_program_id program) (sp_coordinate r) raw)
      (sp_coordinate r) raw ev) as (q & H & Hq). by exists q.
  - eexists [_]. split; [by rewrite app_nil_r|]. split; [done|].
    unfold decode_program_data_bytes in E. destruct (strip_prefix _ _); [|by injection E as <-].
    simpl in E. destruct (base64_decode s); [done|]. by injection E as <-.
Qed.

Lemma decode_records_spec program records ev :
  exists q, fold_left (decode_record (pump_program_id program)) records ev =
      {| ev_events := ev_events ev ++ concat (record_events (pump_program_id program) <$> records);
         ev_quarantines := ev_quarantines ev ++ q |} /\
    (q = [] <-> Forall (record_known program) records).
Proof.
  revert ev. induction records as [|r records IH]; intros ev.
  { exists []. destruct ev; simpl. by rewrite !app_nil_r. }
  csimpl. destruct (decode_record_spec program ev r) as (q1 & -> & H1).
  destruct (IH {| ev_events := ev_events ev ++ record_events (pump_program_id program) r;
                  ev_quarantines := ev_quarantines ev ++ q1 |}) as (q2 & -> & H2). simpl.
  exists (q1 ++ q2). rewrite <- !app_assoc. split; [done|].
  rewrite app_nil, H1, H2, Forall_cons. done.
Qed.

(** ** The self-calls *)
Definition outer_count (outer : Z) (instructions : list TransactionInstructionRecord) : Z :=
  Z.of_nat (length (List.filter (fun i => ti_outer_instruction_index i =? outer) instructions)).

(** Each call with its coordinate: the event index counts the earlier calls of
    the same top-level instruction. *)
Fixpoint numbered_calls (batch : ProgramLogBatch) (before calls : list TransactionInstructionRecord)
    : list (ChainCoordinate * list byte) :=
  match calls with
  | [] => []
  | i :: rest =>
      let outer := ti_outer_instruction_index i in
      (batch_coordinate batch outer (outer_count outer before), ti_data i)
        :: numbered_calls batch (before ++ [i]) rest
  end.
Definition call_decoding (program_id : string) (c : ChainCoordinate * list byte)
    : result (DecodeError B64) DecodedPumpEvent := decode_cpi_event program_id c.1 c.2.
Definition call_events (program_id : string) (c : ChainCoordinate * list byte) : list DecodedEvidence :=
  decoded_as (call_decoding program_id c) c.2.

Lemma outer_count_app outer l1 l2 : outer_count outer (l1 ++ l2) = outer_count outer l1 + outer_count outer l2.
Proof. unfold outer_count. rewrite List.filter_app, length_app. lia. Qed.
Lemma outer_count_one outer i :
  outer_count outer [i] = if ti_outer_instruction_index i =? outer then 1 else 0.
Proof. unfold outer_count. simpl. by destruct (_ =? _). Qed.
Lemma outer_count_nonneg outer l : 0 <= outer_count outer l.
Proof. unfold outer_count. lia. Qed.

Definition indexes_count (before : list TransactionInstructionRecord) (indexes : btree Z Z) : Prop :=
  forall outer, default 0 (bt_get outer indexes) = outer_count outer before.

Lemma decode_calls_spec pid batch calls before indexes ev :
  indexes_count before indexes ->
  (forall outer, outer_count outer before <= 65535) ->
  match decode_calls pid batch indexes ev calls with
  | Ok ev' =>
      (forall outer, outer_count outer (before ++ calls) <= 65535) /\
      exists q, ev' = {| ev_events := ev_events ev ++
                           concat (call_events pid <$> numbered_calls batch before calls);
                         ev_quarantines := ev_quarantines ev ++ q |} /\
        (q = [] <-> Forall (fun c => decoding_known (call_decoding pid c)) (numbered_calls batch before calls))
  | Err e => exists outer, 65535 < outer_count outer (before ++ calls)
  end.
Proof.
  revert before indexes ev. induction calls as [|i calls IH]; intros before indexes ev Hidx Hb; simpl.
  { rewrite app_nil_r. split; [done|]. exists []. destruct ev; simpl. by rewrite !app_nil_r. }
  rewrite Hidx. set (outer := ti_outer_instruction_index i).
  unfold checked_add_u. change (uint_max 16) with 65535.
  assert (outer_count outer (before ++ [i]) = outer_count outer before + 1) as Hone.
  { rewrite outer_count_app, outer_count_one. unfold outer. by rewrite Z.eqb_refl. }
  destruct (Z.leb_spec (outer_count outer before + 1) 65535) as [Hle|Hgt]; simpl.
  2:{ exists outer. change (i :: calls) with ([i] ++ calls). rewrite app_assoc, outer_count_app.
      pose proof (outer_count_nonneg outer calls). lia. }
  set (c := batch_coordinate batch outer (outer_count outer before)).
  destruct (record_decoding_spec (decode_cpi_event pid c (ti_data i)) c (ti_data i) ev) as (q1 & -> & H1).
  match goal with |- context [decode_calls _ _ ?idx ?ev' _] =>
    specialize (IH (before ++ [i]) idx ev') end.
  rewrite <- app_assoc in IH. simpl in IH.
  destruct (decode_calls _ _ _ _ _) as [ev'|e].
  - destruct IH as (Hall & q2 & -> & H2).
    + intros o. destruct (decide (o = outer)) as [->|Hne].
      * by rewrite bt_get_insert_eq, Hone.
      * rewrite bt_get_insert_ne by done. rewrite Hidx, outer_count_app, outer_count_one.
        fold outer. rewrite (proj2 (Z.eqb_neq _ _)) by congruence. lia.
    + intros o. destruct (decide (o = outer)) as [->|Hne]; [lia|].
      rewrite outer_count_app, outer_count_one. fold outer.
      rewrite (proj2 (Z.eqb_neq _ _)) by congruence. specialize (Hb o). lia.
    + split; [done|]. exists (q1 ++ q2). csimpl. rewrite <- !app_assoc. split; [done|].
      rewrite app_nil, H1, H2, Forall_cons. done.
  - apply IH.
    + intros o. destruct (decide (o = outer)) as [->|Hne].
      * by rewrite bt_get_insert_eq, Hone.
      * rewrite bt_get_insert_ne by done. rewrite Hidx, outer_count_app, outer_count_one.
        fold outer. rewrite (proj2 (Z.eqb_neq _ _)) by congruence. lia.
    + intros o. destruct (decide (o = outer)) as [->|Hne]; [lia|].
      rewrite outer_count_app, outer_count_one. fold outer.
      rewrite (proj2 (Z.eqb_neq _ _)) by congruence. specialize (Hb o). lia.
Qed.

(** ** Matching *)

(** What a call and a direct event have to share. *)
Definition shared (e : DecodedEvidence) : Z * PumpEvent :=
  (instruction_index (dp_coordinate (de_decoded e)), dp_event (de_decoded e)).

Lemma matches_call_shared cpi direct : matches_call cpi direct = true <-> shared direct = shared cpi.
Proof.
  unfold matches_call, shared. rewrite andb_true_iff, Z.eqb_eq, bool_decide_eq_true.
  split; [by intros [-> ->]|intros [= H1 H2]; by split].
Qed.

(** The direct events no call has taken. *)
Fixpoint untaken (decoded : list DecodedEvidence) (matched : list bool) : list (Z * PumpEvent) :=
  match decoded, matched with
  | d :: decoded, b :: matched => (if b then [] else [shared d]) ++ untaken decoded matched
  | _, _ => []
  end.

Lemma find_direct_spec decoded matched cpi :
  match find_direct decoded matched cpi with
  | Some k => untaken decoded matched ≡ₚ shared cpi :: untaken decoded (<[k := true]> matched)
  | None => shared cpi ∉ untaken decoded matched
  end.
Proof.
  revert matched. induction decoded as [|d decoded IH]; intros [|b matched]; simpl; try set_solver.
  destruct (negb b && matches_call cpi d) eqn:E.
  - apply andb_true_iff in E as [->%negb_true_iff Hm%matches_call_shared]. simpl. by rewrite Hm.
  - specialize (IH matched). destruct (find_direct decoded matched cpi) as [k|]; simpl.
    + rewrite IH. by rewrite Permutation_middle.
    + rewrite not_elem_of_app. split; [|done]. destruct b; [set_solver|]. simpl in E.
      rewrite list_elem_of_singleton. intros Heq. symmetry in Heq.
      apply matches_call_shared in Heq. by rewrite E in Heq.
Qed.

Lemma match_calls_app decoded matched cpis qs :
  exists q, match_calls decoded matched cpis qs = qs ++ q /\
    (q = [] <-> (shared <$> cpis) ⊆+ untaken decoded matched).
Proof.
  revert matched qs. induction cpis as [|cpi cpis IH]; intros matched qs; csimpl.
  { exists []. rewrite app_nil_r. split; [done|]. split; [intros _; apply submseteq_nil_l|done]. }
  pose proof (find_direct_spec decoded matched cpi) as Hf.
  destruct (find_direct decoded matched cpi) as [k|].
  - destruct (IH (<[k := true]> matched) qs) as (q & H & Hq). exists q. split; [done|].
    rewrite Hq, Hf. split.
    + by apply submseteq_skip.
    + apply (submseteq_app_inv_l _ _ [shared cpi]).
  - edestruct (IH matched) as (q & H & Hq). eexists (_ :: q). split; [rewrite H; by rewrite <- app_assoc|].
    split; [done|]. intros Hs. exfalso. apply Hf. eapply elem_of_submseteq; [|exact Hs]. left.
Qed.

Lemma untaken_all decoded : untaken decoded (repeat false (length decoded)) = shared <$> decoded.
Proof. induction decoded as [|d decoded IH]; csimpl; [done|]. by rewrite IH. Qed.

(** ** The batch *)
Definition batch_calls (batch : ProgramLogBatch) (program : PumpProgram) : list TransactionInstructionRecord :=
  List.filter (is_event_call (pump_program_id program)) (pb_instructions batch).
Definition batch_records (batch : ProgramLogBatch) (program : PumpProgram)
    : result LogScopeError (list ScopedProgramData) :=
  scope_program_data_logs (pump_program_id program) (pb_slot batch) (pb_transaction_index batch)
    (pb_signature batch) (pb_log_messages batch).

(** C13: The events of a batch are those of its logs.  Decoding a batch fails
    only when one top-level instruction makes more than 65535 event self-calls.
    Otherwise its events are exactly the decodings of its scoped program-data
    records, in order and with their coordinates and bytes, whatever the
    instruction data is, so an event has one identity on every collection path;
    and nothing is quarantined iff the logs scope, every record and every
    self-call decodes or is pinned, and the decoded self-calls are covered by
    the events, counted with multiplicity per instruction and content. *)
Theorem batch_events_are_canonical batch program :
  let calls := numbered_calls batch [] (batch_calls batch program) in
  match decode_batch_events batch program with
  | Ok d =>
      (forall outer, outer_count outer (batch_calls batch program) <= u16_max) /\
      dbt_events d = match batch_records batch program with
                     | Ok records => concat (record_events (pump_program_id program) <$> records)
                     | Err _ => []
                     end /\
      (dbt_quarantines d = [] <->
        exists records, batch_records batch program = Ok records /\
          Forall (record_known program) records /\
          Forall (fun c => decoding_known (call_decoding (pump_program_id program) c)) calls /\
          (shared <$> concat (call_events (pump_program_id program) <$> calls)) ⊆+
            (shared <$> dbt_events d))
  | Err _ => exists outer, u16_max < outer_count outer (batch_calls batch program)
  end.
Proof.
  intros calls. unfold decode_batch_events. fold (batch_calls batch program) (batch_records batch program).
  pose proof (decode_calls_spec (pump_program_id program) batch (batch_calls batch program) [] []
    no_evidence) as Hcalls.
  destruct (decode_calls _ _ _ _ _) as [ev|e]; simpl in *; [|by apply Hcalls].
  destruct Hcalls as (Hb & qc & -> & Hqc); [done..|]. fold calls in Hqc |- *. simpl.
  destruct (batch_records batch program) as [records|e]; simpl.
  2:{ split_and!; [done|done|]. split; [|naive_solver]. by intros [_ ?]%app_nil. }
  edestruct (decode_records_spec program records) as (qr & -> & Hqr). simpl.
  set (events := concat (record_events (pump_program_id program) <$> records)).
  edestruct (match_calls_app events (repeat false (length events))) as (qm & -> & Hqm).
  rewrite untaken_all in Hqm. split_and!; [done|done|]. rewrite !app_nil, Hqc, Hqr, Hqm.
  split; [intros [[? ?] ?]; exists records; naive_solver|].
  intros (records' & [= <-] & ? & ? & ?). naive_solver.
Qed.
End Decoded.
