(* ===== verification/Pipeline.v ===== *)
(** The batch processor of [apps/server/src/jobs/pipeline.rs]: from one batch to
    stored observations, confirmed windows and quarantined evidence.

    The database is an interface.  Each of its calls is an await: it returns the
    registry as the other tasks left it meanwhile. *)
From S2P Require Import Prelude.
From S2P Require Import Stateful.
From S2P Require Import RustOrd.
From S2P Require Import BTree.
From S2P Require Import RustStr.
From S2P Require Import Domain.
From S2P Require Import External.
From S2P Require Import PumpModel.
From S2P Require Import BorshReader.
From S2P Require Import PumpDecoder.
From S2P Require Import WindowToken.
From S2P Require Import WindowRegistry.
From S2P Require Import ApiContracts.
From S2P Require Import PersistenceModel.
From S2P Require Import RpcModel.
From S2P Require Import Normalization.
From S2P Require Import Intake.
From S2P Require Import Collector.
From S2P Require Import PipelineDecode.

(** ** The database as the processor uses it *)
Class Database (J XE JE : Type) := {
  Db : Type;
  record_intake_quarantine : IntakeQuarantineRecord -> Db -> World ->
    result (PersistenceError XE JE) Z * Db * World;
  load_qualification_defaults : Db -> World ->
    result (PersistenceError XE JE) StoredQualificationDefaults * Db * World;
  open_discovery_window : NormalizedObservation J -> NewDiscoveryWindow -> Db -> World ->
    result (PersistenceError XE JE) OpenedDiscoveryWindow * Db * World;
  insert_window_observation : Z -> NormalizedObservation J -> Db -> World ->
    result (PersistenceError XE JE) bool * Db * World;
  insert_observation : NormalizedObservation J -> Db -> World ->
    result (PersistenceError XE JE) bool * Db * World;
  upsert_pump_swap_pool : StoredPumpSwapPool -> Db -> World ->
    result (PersistenceError XE JE) bool * Db * World;
}.

(** The errors of [PipelineError] a batch can raise; the others belong to the
    start-up and to the other tasks. *)
Inductive PipelineError {XE JE : Type} :=
| PlPersistence (e : PersistenceError XE JE)
| PlLogScope (e : LogScopeError)
| PlNormalization (e : NormalizationError JE)
| PlWindowLifecycle (message : string).
#[global] Arguments PipelineError : clear implicits.

(** ** Configuration *)

(** The fields of [PipelineConfig] and of its [CollectorRuntimeConfig] that a
    batch is processed with. *)
Record PipelineConfig := {
  pl_network : Network;
  pl_commitment : Commitment;
  pl_maximum_discovery_age_ms : Z;
  pl_prefilter_revision : Z;
  pl_prefilter_values : PrefilterDefaults;
  pl_collector_run_id : string;
}.

(** [window_target_parts]. *)
Definition window_target_parts (t : ObservationTarget) : WindowTargetKind * string :=
  match t with
  | PumpMint mint => (TargetPumpMint, mint)
  | PumpSwapPool pool => (TargetPumpSwapPool, pool)
  end.

(** [batch_selects_event]. *)
Definition batch_selects_event (w : World) (batch : ProgramLogBatch) (e : PumpEvent)
    (network : Network) (maximum_discovery_age_ms : Z) : bool :=
  let received := pb_received_time_unix_ms batch in
  match pb_purpose batch with
  | PurposeDiscovery =>
      (match discovery_seed e network with
       | Some seed =>
           existsb (fun t => bool_decide (tok_target t = seed_target seed) &&
                             is_open_at (heap w) t received) (pb_window_tokens batch)
       | None => false
       end && discovery_event_is_fresh e received maximum_discovery_age_ms)
      || event_matches_confirmed_window w e (pb_window_tokens batch) received
  | PurposeTrackedActivity => event_matches_confirmed_window w e (pb_window_tokens batch) received
  end.

(** The errors of normalization that quarantine the event, with their codes;
    the others end the processing. *)
Definition quarantine_reason {JE} (e : NormalizationError JE) : option (string * string) :=
  (match e with
   | PumpMarketUnresolved mint =>
       Some ("UNRESOLVED_PUMP_MARKET", "no Pump bonding-curve market is known for mint " +:+ mint)
   | PumpSwapMarketUnresolved pool =>
       Some ("UNRESOLVED_PUMP_SWAP_MARKET", "no PumpSwap market is known for pool " +:+ pool)
   | QuoteMintMismatch mint =>
       Some ("PUMP_QUOTE_MINT_MISMATCH",
             "Pump trade quote mint does not match the registered market for mint " +:+ mint)
   | UnsupportedPumpSwapPair base quote =>
       Some ("UNSUPPORTED_PUMP_SWAP_PAIR",
             "PumpSwap pair " +:+ base +:+ "/" +:+ quote +:+
             " does not contain exactly one supported quote asset")
   | ZeroTradeAmount =>
       Some ("ZERO_TRADE_AMOUNT", "trade base and quote amounts must both be non-zero")
   | RegistryUnavailable | PumpSwapSourceOrientationRequired | SourceDetails _ => None
   end)%string.

Section Process.
Context {B64 : Base64} {S256 : Sha256} {J XE : Type} {TJ : ToJson PumpEvent J}.
Context {DB : Database J XE (JsonError PumpEvent J)}.
Abbreviation JE := (JsonError PumpEvent J).

Record PipelineState := { ps_db : Db; ps_world : World; ps_markets : MarketRegistry }.

(** Computations over that state. *)
Abbreviation PipelineM := (stateful PipelineState (PipelineError XE JE)).

(** One awaited database call. *)
Definition db_call {A} (call : Db -> World -> result (PersistenceError XE JE) A * Db * World)
    : PipelineM A := fun st =>
  let '(r, db, w) := call (ps_db st) (ps_world st) in
  (map_err PlPersistence r, {| ps_db := db; ps_world := w; ps_markets := ps_markets st |}).

(** One call on a token. *)
Definition token_call {A} (call : TokenCells -> A * TokenCells) (t : Token) : PipelineM A := fun st =>
  let w := ps_world st in
  (Ok (call (cells_of (heap w) t)).1,
   {| ps_db := ps_db st; ps_world := with_heap (update_cells (fun c => (call c).2) t (heap w)) w;
      ps_markets := ps_markets st |}).

(** One call on the market registry. *)
Definition markets_call {A} (call : MarketRegistry -> result (NormalizationError JE) (A * MarketRegistry))
    : PipelineM A := fun st =>
  match call (ps_markets st) with
  | Ok (a, r) => (Ok a, {| ps_db := ps_db st; ps_world := ps_world st; ps_markets := r |})
  | Err e => (Err (PlNormalization e), st)
  end.

(** [record_pipeline_quarantine]. *)
Definition quarantine_record (network : Network) (source_program : SourceProgram)
    (q : QuarantinedEvidence) : IntakeQuarantineRecord := {|
  iq_key := {| ok_network := network; ok_program := source_program; coordinate := qe_coordinate q |};
  iq_decoder_version := DECODER_VERSION;
  iq_reason_code := qe_reason_code q;
  iq_reason_detail := qe_reason_detail q;
  iq_evidence_base64 := encode_quarantine_evidence (qe_raw_evidence q) |}.
Definition record_pipeline_quarantine (network : Network) (source_program : SourceProgram)
    (q : QuarantinedEvidence) : PipelineM unit :=
  _ ← db_call (record_intake_quarantine (quarantine_record network source_program q)); mret tt.

Fixpoint record_quarantines (network : Network) (source_program : SourceProgram)
    (qs : list QuarantinedEvidence) : PipelineM unit :=
  match qs with
  | [] => mret tt
  | q :: qs =>
      _ ← record_pipeline_quarantine network source_program q;
      record_quarantines network source_program qs
  end.

(** The mutable locals of [process_batch]. *)
Record BatchProgress := { bp_inserted : Z; bp_complete : bool; bp_selected_events : Z }.
Definition select_event (p : BatchProgress) : BatchProgress :=
  {| bp_inserted := bp_inserted p; bp_complete := bp_complete p;
     bp_selected_events := saturating_add_u 64 (bp_selected_events p) 1 |}.
Definition incomplete_progress (p : BatchProgress) : BatchProgress :=
  {| bp_inserted := bp_inserted p; bp_complete := false;
     bp_selected_events := bp_selected_events p |}.
Definition count_insertion (inserted : bool) (p : BatchProgress) : BatchProgress :=
  {| bp_inserted := if inserted then saturating_add_u 64 (bp_inserted p) 1 else bp_inserted p;
     bp_complete := bp_complete p; bp_selected_events := bp_selected_events p |}.

(** [matching_window_token]. *)
Definition matching_window_token (batch : ProgramLogBatch) (w : World) (m : MarketIdentity)
    : option Token :=
  target ← for_market m;
  List.find (fun t => bool_decide (tok_target t = target) &&
                      is_open_at (heap w) t (pb_received_time_unix_ms batch))
    (pb_window_tokens batch).

Definition new_window (config : PipelineConfig) (token : Token)
    (qualification : StoredQualificationDefaults) : NewDiscoveryWindow := {|
  nw_target_kind := (window_target_parts (tok_target token)).1;
  nw_target_address := (window_target_parts (tok_target token)).2;
  nw_opened_at_unix_ms := tok_opened token;
  nw_closes_at_unix_ms := tok_closes token;
  nw_collector_run_id := pl_collector_run_id config;
  nw_prefilter_revision := pl_prefilter_revision config;
  nw_prefilter_values := pl_prefilter_values config;
  nw_qualification := qualification |}.

(** The window a discovery opens: [None] for a replay, which ends the event. *)
Definition open_window_for (config : PipelineConfig) (observation : NormalizedObservation J)
    (matching : option Token) : PipelineM (option bool) :=
  match matching with
  | None => st_fail (PlWindowLifecycle "normalized discovery had no matching provisional token")
  | Some token =>
      qualification ← db_call load_qualification_defaults;
      opened ← db_call (open_discovery_window observation (new_window config token qualification));
      if od_replayed opened then
        _ ← token_call (fun c => (tt, cancel_if_pending c)) token; mret None
      else
        confirmed ← token_call confirm token;
        if negb confirmed then
          st_fail (PlWindowLifecycle "durable discovery window could not confirm its provisional token")
        else
        numbered ← token_call (set_durable_window_id (od_window_id opened)) token;
        if negb numbered then
          st_fail (PlWindowLifecycle "confirmed token rejected its durable window id")
        else mret (Some (od_observation_inserted opened))
  end.

Definition store_observation (config : PipelineConfig) (normalized : NormalizedPumpEvent J)
    (matching : option Token) : PipelineM (option bool) :=
  let observation := np_observation normalized in
  match np_discovered_market normalized with
  | Some _ => open_window_for config observation matching
  | None =>
      window_id ← read_state (fun st =>
        token ← matching; tc_durable_window_id (cells_of (heap (ps_world st)) token));
      inserted ← match window_id with
                 | Some window_id => db_call (insert_window_observation window_id observation)
                 | None => db_call (insert_observation observation)
                 end;
      mret (Some inserted)
  end.

Definition market_eqb (a b : option MarketIdentity) : bool := bool_decide (a = b).

(** The pool of a creation is stored and registered. *)
Definition register_pool (normalized : NormalizedPumpEvent J) (pool : StoredPumpSwapPool) : PipelineM unit :=
  _ ← db_call (upsert_pump_swap_pool pool);
  registered ← markets_call (fun r => register_pump_swap_pool r (pp_network pool)
                 (pp_pool_address pool) (pp_base_mint pool) (pp_quote_mint pool));
  if negb (market_eqb registered (np_discovered_market normalized)) then
    st_fail (PlWindowLifecycle "PumpSwap source orientation disagreed with normalized discovery")
  else mret tt.

Definition created_pool (config : PipelineConfig) (d : DecodedPumpEvent) : option StoredPumpSwapPool :=
  match dp_event d with
  | EvPumpSwapCreatePool e => Some {|
      pp_network := pl_network config; pp_pool_address := cp_pool e; pp_base_mint := cp_base_mint e;
      pp_quote_mint := cp_quote_mint e; pp_observed_slot := slot (dp_coordinate d);
      pp_observed_signature := signature (dp_coordinate d) |}
  | _ => None
  end.
Definition retired_mint (e : PumpEvent) : option string :=
  match e with
  | EvComplete e => Some (co_mint e)
  | EvCompletePumpAmmMigration e => Some (me_mint e)
  | _ => None
  end.

(** What a stored event does to the registry of markets. *)
Definition update_markets (config : PipelineConfig) (d : DecodedPumpEvent)
    (normalized : NormalizedPumpEvent J) : PipelineM unit :=
  _ ← match created_pool config d with
      | Some pool => register_pool normalized pool
      | None => mret tt
      end;
  _ ← match np_discovered_market normalized with
      | Some market =>
          if bool_decide (mi_venue market = PumpBondingCurve)
          then markets_call (fun r => r' ← register r market; Ok (tt, r')) else mret tt
      | None => mret tt
      end;
  match retired_mint (dp_event d) with
  | Some mint => markets_call (fun r => r' ← retire_pump_market r mint; Ok (tt, r'))
  | None => mret tt
  end.

(** A selected event, by the outcome of its normalization. *)
Definition process_normalized (config : PipelineConfig) (batch : ProgramLogBatch) (p : BatchProgress)
    (event : DecodedEvidence)
    (normalized : result (NormalizationError JE) (NormalizedPumpEvent J)) : PipelineM BatchProgress :=
  let decoded := de_decoded event in
  match normalized with
  | Err error =>
      match quarantine_reason error with
      | Some (code, detail) =>
          _ ← record_pipeline_quarantine (pl_network config)
                (pump_source_program (dp_program decoded))
                {| qe_coordinate := dp_coordinate decoded; qe_reason_code := code;
                   qe_reason_detail := detail; qe_raw_evidence := de_raw_evidence event |};
          mret (incomplete_progress p)
      | None => st_fail (PlNormalization error)
      end
  | Ok normalized =>
      matching ← read_state (fun st =>
        matching_window_token batch (ps_world st) (market (np_observation normalized)));
      stored ← store_observation config normalized matching;
      match stored with
      | None => mret p
      | Some inserted =>
          _ ← update_markets config decoded normalized;
          mret (count_insertion inserted p)
      end
  end.

(** One iteration over the decoded events. *)
Definition process_event (config : PipelineConfig) (batch : ProgramLogBatch) (p : BatchProgress)
    (event : DecodedEvidence) : PipelineM BatchProgress :=
  let decoded := de_decoded event in
  selected ← read_state (fun st => batch_selects_event (ps_world st) batch (dp_event decoded)
               (pl_network config) (pl_maximum_discovery_age_ms config));
  if negb (selected : bool) then mret p else
  normalized ← read_state (fun st => normalize_pump_event decoded (pl_network config)
    (pl_commitment config) (pb_received_time_unix_ms batch) (de_raw_evidence event) (ps_markets st));
  process_normalized config batch (select_event p) event normalized.

Fixpoint process_events (config : PipelineConfig) (batch : ProgramLogBatch) (p : BatchProgress)
    (events : list DecodedEvidence) : PipelineM BatchProgress :=
  match events with
  | [] => mret p
  | event :: rest => p ← process_event config batch p event; process_events config batch p rest
  end.

(** The decoding of both programs, quarantining on the way. *)
Fixpoint decode_programs (config : PipelineConfig) (batch : ProgramLogBatch)
    (programs : list PumpProgram) : PipelineM (bool * list DecodedEvidence) :=
  match programs with
  | [] => mret (true, [])
  | program :: rest =>
      decoded ← st_lift (map_err PlLogScope (decode_batch_events batch program));
      _ ← record_quarantines (pl_network config) (pump_source_program program)
            (dbt_quarantines decoded);
      '(complete, events) ← decode_programs config batch rest;
      mret (match dbt_quarantines decoded with [] => complete | _ => false end,
            dbt_events decoded ++ events)
  end.

(** The sort key of the decoded events: discoveries first, then by program and
    place in the transaction. *)
Definition event_sort_key (e : DecodedEvidence) : Z * Z * Z * Z :=
  let d := de_decoded e in
  (if is_discovery_event (dp_event d) then 0 else 1,
   match dp_program d with PumpP => 0 | PumpSwapP => 1 end,
   instruction_index (dp_coordinate d), event_index (dp_coordinate d)).

Definition cancel_pending_tokens (tokens : list Token) : PipelineM unit := fun st =>
  let w := ps_world st in
  (Ok tt,
   {| ps_db := ps_db st;
      ps_world := with_heap (fold_left (fun h t => update_cells cancel_if_pending t h) tokens (heap w)) w;
      ps_markets := ps_markets st |}).

Record BatchProcessingOutcome := { bo_inserted : Z; bo_complete : bool }.

(** The events of a batch, unless its transaction failed. *)
Definition process_body (config : PipelineConfig) (batch : ProgramLogBatch) : PipelineM BatchProgress :=
  match pb_transaction_error batch with
  | Some _ => mret {| bp_inserted := 0; bp_complete := false; bp_selected_events := 0 |}
  | None =>
      '(complete, events) ← decode_programs config batch PUMP_PROGRAMS;
      process_events config batch
        {| bp_inserted := 0; bp_complete := complete; bp_selected_events := 0 |}
        (sort_by (key_cmp event_sort_key) events)
  end.

Definition process_batch (config : PipelineConfig) (batch : ProgramLogBatch)
    : PipelineM BatchProcessingOutcome :=
  p ← process_body config batch;
  _ ← (if bool_decide (pb_purpose batch = PurposeDiscovery)
       then cancel_pending_tokens (pb_window_tokens batch) else mret tt);
  mret {| bo_inserted := bp_inserted p;
          bo_complete := bp_complete p &&
            (match pb_window_tokens batch with [] => true | _ => negb (bp_selected_events p =? 0) end) |}.

(** [process_and_record_batch]; the batch is dropped when it returns.  The
    number of stored observations is what the flow and the wake-up count. *)
Definition process_and_record_batch (config : PipelineConfig) (batch : ProgramLogBatch)
    (st : PipelineState) : result (PipelineError XE JE) Z * PipelineState :=
  let dropped batch st :=
    {| ps_db := ps_db st; ps_markets := ps_markets st;
       ps_world := with_heap (batch_drop batch (heap (ps_world st))) (ps_world st) |} in
  match process_batch config batch st with
  | (Err e, st) => (Err e, dropped batch st)
  | (Ok outcome, st) =>
      let w := ps_world st in
      let h := if bo_complete outcome then heap w
               else fold_left (fun h t => update_cells (fun c => (mark_incomplete DecodeGap c).2) t h)
                      (pb_window_tokens batch) (heap w) in
      (Ok (bo_inserted outcome),
       dropped (mark_processing_succeeded batch)
         {| ps_db := ps_db st; ps_world := with_heap h w; ps_markets := ps_markets st |})
  end.
End Process.
