(* ===== verification/PipelineProofs.v ===== *)
(** The batch processor: what its steps preserve while other tasks use the
    registry, and the promises it makes about windows and evidence. *)
From S2P Require Import Prelude.
From S2P Require Import ListFacts.
From S2P Require Import Stateful.
From S2P Require Import RustOrd.
From S2P Require Import BTree.
From S2P Require Import RustStr.
From S2P Require Import Domain.
From S2P Require Import External.
From S2P Require Import PumpModel.
From S2P Require Import BorshReader.
From S2P Require Import PumpDecoder.
From S2P Require Import WindowToken.
From S2P Require Import WindowTokenProofs.
From S2P Require Import WindowRegistry.
From S2P Require Import WindowRegistryInv.
From S2P Require Import ApiContracts.
From S2P Require Import PersistenceModel.
From S2P Require Import RpcModel.
From S2P Require Import Normalization.
From S2P Require Import NormalizationProofs.
From S2P Require Import Intake.
From S2P Require Import Collector.
From S2P Require Import CollectorProofs.
From S2P Require Import PipelineDecode.
From S2P Require Import Pipeline.

Section Proofs.
Context {B64 : Base64} {S256 : Sha256} {J XE : Type} {TJ : ToJson PumpEvent J}.
Context {DB : Database J XE (JsonError PumpEvent J)}.
Abbreviation JE := (JsonError PumpEvent J).
Abbreviation State := (PipelineState (DB:=DB)).
Abbreviation M := (stateful (PipelineState (DB:=DB)) (PipelineError XE JE)).

(** ** Normalized events *)

(** Creations, and only they, discover a market: their own. *)
Lemma event_parts_discovered n r e kind m p disc :
  event_parts (JE:=JE) n r e = Ok (kind, m, p, disc) ->
  disc = if is_discovery_event e then Some m else None.
Proof.
  intros H. destruct e; simpl in H |- *;
    unfold trade_parts, create_pool_parts, swap_buy_parts, swap_sell_parts, swap_deposit_parts,
      swap_withdraw_parts, mbind, result_bind in H;
    repeat match type of H with
    | context [match ?x with _ => _ end] => destruct x; try discriminate H
    end; by injection H as <- <- <- <-.
Qed.

Lemma normalize_discovered d n c t raw r np :
  normalize_pump_event (J:=J) d n c t raw r = Ok np ->
  np_discovered_market np =
    if is_discovery_event (dp_event d) then Some (market (np_observation np)) else None.
Proof. intros (j & _ & _ & _ & _ & H)%normalize_Ok. by apply event_parts_discovered in H. Qed.

(** ** Awaited calls *)

(** One database call, with what other tasks did meanwhile. *)
Inductive db_step : Db -> World -> Db -> World -> Prop :=
| step_quarantine r db w :
    db_step db w (record_intake_quarantine r db w).1.2 (record_intake_quarantine r db w).2
| step_defaults db w :
    db_step db w (load_qualification_defaults db w).1.2 (load_qualification_defaults db w).2
| step_open o n db w :
    db_step db w (open_discovery_window o n db w).1.2 (open_discovery_window o n db w).2
| step_window_observation i o db w :
    db_step db w (insert_window_observation i o db w).1.2 (insert_window_observation i o db w).2
| step_observation o db w :
    db_step db w (insert_observation o db w).1.2 (insert_observation o db w).2
| step_pool p db w :
    db_step db w (upsert_pump_swap_pool p db w).1.2 (upsert_pump_swap_pool p db w).2.

(** A call of the interface, whatever it returns. *)
Definition is_db_call {A} (call : Db -> World -> result (PersistenceError XE JE) A * Db * World) : Prop :=
  forall db w, db_step db w (call db w).1.2 (call db w).2.

Lemma is_db_call_quarantine r : is_db_call (record_intake_quarantine r).
Proof. intros db w. constructor. Qed.
Lemma is_db_call_defaults : is_db_call load_qualification_defaults.
Proof. intros db w. constructor. Qed.
Lemma is_db_call_open o n : is_db_call (open_discovery_window o n).
Proof. intros db w. constructor. Qed.
Lemma is_db_call_window_observation i o : is_db_call (insert_window_observation i o).
Proof. intros db w. constructor. Qed.
Lemma is_db_call_observation o : is_db_call (insert_observation o).
Proof. intros db w. constructor. Qed.
Lemma is_db_call_pool p : is_db_call (upsert_pump_swap_pool p).
Proof. intros db w. constructor. Qed.
#[local] Hint Resolve is_db_call_quarantine is_db_call_defaults is_db_call_open
  is_db_call_window_observation is_db_call_observation is_db_call_pool : pipeline.

(** ** The steps of the loop *)
Lemma process_event_eq config batch p e st :
  process_event config batch p e st =
  if batch_selects_event (ps_world st) batch (dp_event (de_decoded e)) (pl_network config)
       (pl_maximum_discovery_age_ms config)
  then process_normalized config batch (select_event p) e
         (normalize_pump_event (de_decoded e) (pl_network config) (pl_commitment config)
            (pb_received_time_unix_ms batch) (de_raw_evidence e) (ps_markets st)) st
  else (Ok p, st).
Proof.
  unfold process_event. rewrite bind_eq. unfold read_state at 1. cbv beta iota.
  by destruct (batch_selects_event _ _ _ _ _).
Qed.

(** ** What every step preserves *)
Section Preserves.
Context (R : State -> State -> Prop) `{!Reflexive R} `{!Transitive R}.
Hypothesis R_db : forall db w db' w' mk, db_step db w db' w' ->
  R {| ps_db := db; ps_world := w; ps_markets := mk |}
    {| ps_db := db'; ps_world := w'; ps_markets := mk |}.
Hypothesis R_markets : forall db w mk mk',
  R {| ps_db := db; ps_world := w; ps_markets := mk |}
    {| ps_db := db; ps_world := w; ps_markets := mk' |}.

Lemma preserves_db {A} (call : Db -> World -> result (PersistenceError XE JE) A * Db * World) :
  is_db_call call -> preserves R (db_call call).
Proof.
  intros Hc [db w mk]. unfold db_call. simpl. specialize (Hc db w).
  destruct (call db w) as [[r db'] w']. simpl in *. by apply R_db.
Qed.
Lemma preserves_markets {A} (call : MarketRegistry -> result _ (A * MarketRegistry)) :
  preserves R (markets_call call).
Proof.
  intros [db w mk]. unfold markets_call. simpl. destruct (call mk) as [[a r]|e]; [apply R_markets|].
  reflexivity.
Qed.
#[local] Hint Resolve preserves_db preserves_markets : pipeline.

Lemma preserves_quarantine network program q : preserves R (record_pipeline_quarantine network program q).
Proof. unfold record_pipeline_quarantine. eauto with pipeline stateful. Qed.
#[local] Hint Resolve preserves_quarantine : pipeline.

Lemma preserves_quarantines network program qs : preserves R (record_quarantines network program qs).
Proof. induction qs as [|q qs IH]; simpl; eauto with pipeline stateful. Qed.
#[local] Hint Resolve preserves_quarantines : pipeline.

Lemma preserves_decode config batch programs : preserves R (decode_programs config batch programs).
Proof.
  induction programs as [|program programs IH]; simpl; eauto with pipeline stateful.
  preserves_bind; [auto with pipeline stateful|intros d]. preserves_bind; [auto with pipeline stateful|intros _].
  preserves_bind; [done|]. intros [c es]. auto with pipeline stateful.
Qed.

Lemma preserves_update_markets config d n : preserves R (update_markets config d n).
Proof.
  unfold update_markets, register_pool. preserves_bind.
  - destruct (created_pool config d) as [pool|]; [|auto with pipeline stateful].
    preserves_bind; [auto with pipeline stateful|intros _]. preserves_bind; [auto with pipeline stateful|].
    intros m. destruct (negb _); auto with pipeline stateful.
  - intros _. preserves_bind.
    + destruct (np_discovered_market n); [|auto with pipeline stateful]. case_bool_decide; auto with pipeline stateful.
    + intros _. destruct (retired_mint _); auto with pipeline stateful.
Qed.

(** Storing an event, given that opening a window preserves [R] too. *)
Lemma preserves_store config n matching :
  (forall o m, preserves R (open_window_for config o m)) \/ np_discovered_market n = None ->
  preserves R (store_observation config n matching).
Proof.
  intros H. unfold store_observation. destruct (np_discovered_market n).
  - destruct H as [H|H]; [apply H|done].
  - preserves_bind; [auto with pipeline stateful|]. intros [id|]; eauto with pipeline stateful.
Qed.

Lemma preserves_normalized config batch p e n :
  (forall o m, preserves R (open_window_for config o m)) \/
  (forall np, n = Ok np -> np_discovered_market np = None) ->
  preserves R (process_normalized config batch p e n).
Proof.
  intros H. unfold process_normalized. destruct n as [np|err].
  - preserves_bind; [auto with pipeline stateful|]. intros matching. preserves_bind.
    + apply preserves_store. destruct H as [H|H]; [by left|right; by apply H].
    + intros [inserted|]; [|auto with pipeline stateful].
      preserves_bind; [apply preserves_update_markets|auto with pipeline stateful].
  - destruct (quarantine_reason err) as [[code detail]|]; [|auto with pipeline stateful].
    preserves_bind; auto with pipeline stateful.
Qed.

Lemma preserves_event config batch p e :
  (forall o m, preserves R (open_window_for config o m)) \/
  is_discovery_event (dp_event (de_decoded e)) = false ->
  preserves R (process_event config batch p e).
Proof.
  intros H st. rewrite process_event_eq. destruct (batch_selects_event _ _ _ _ _); [|done].
  apply preserves_normalized. destruct H as [H|H]; [by left|right]. intros np Hn.
  by rewrite (normalize_discovered _ _ _ _ _ _ _ Hn), H.
Qed.

Lemma preserves_events config batch p es :
  (forall o m, preserves R (open_window_for config o m)) \/
  Forall (fun e => is_discovery_event (dp_event (de_decoded e)) = false) es ->
  preserves R (process_events config batch p es).
Proof.
  revert p. induction es as [|e es IH]; intros p H; simpl; [auto with pipeline stateful|].
  rewrite Forall_cons in H. preserves_bind; [apply preserves_event; tauto|].
  intros p'. apply IH. tauto.
Qed.
End Preserves.

(** Preserving a property on success only. *)
Definition ok_keeps (I : State -> Prop) {A} (m : M A) : Prop :=
  forall st a st', I st -> m st = (Ok a, st') -> I st'.

Section OkKeeps.
Context (I : State -> Prop).
Let R (st st' : State) : Prop := I st -> I st'.
#[local] Instance R_refl : Reflexive R.
Proof. by intros st H. Qed.
#[local] Instance R_trans : Transitive R.
Proof. intros x y z H1 H2 H. auto. Qed.
#[local] Hint Resolve R_refl R_trans : core.
Hypothesis I_db : forall db w db' w' mk, db_step db w db' w' ->
  R {| ps_db := db; ps_world := w; ps_markets := mk |}
    {| ps_db := db'; ps_world := w'; ps_markets := mk |}.
Hypothesis I_markets : forall db w mk mk',
  R {| ps_db := db; ps_world := w; ps_markets := mk |}
    {| ps_db := db; ps_world := w; ps_markets := mk' |}.

Lemma ok_keeps_of {A} (m : M A) : preserves R m -> ok_keeps I m.
Proof. intros H st a st' Hi E. specialize (H st Hi). by rewrite E in H. Qed.

Lemma ok_keeps_bind {A B} (m : M A) (k : A -> M B) :
  ok_keeps I m -> (forall a, ok_keeps I (k a)) -> ok_keeps I (m ≫= k).
Proof.
  intros Hm Hk st b st' Hi. rewrite bind_eq. destruct (m st) as [[a|e] st1] eqn:E; [|done].
  intros E2. by eapply (Hk a); [eapply Hm|].
Qed.

Lemma ok_keeps_normalized config batch p e n :
  (forall o m, ok_keeps I (open_window_for config o m)) ->
  ok_keeps I (process_normalized config batch p e n).
Proof.
  intros H. unfold process_normalized. destruct n as [np|err].
  - apply ok_keeps_bind; [by apply ok_keeps_of, preserves_read|]. intros matching.
    apply ok_keeps_bind.
    + unfold store_observation. destruct (np_discovered_market np) eqn:Ed; [apply H|].
      pose proof (preserves_store R I_db config np matching (or_intror Ed)) as Hs.
      unfold store_observation in Hs. rewrite Ed in Hs. by apply ok_keeps_of.
    + intros [inserted|]; [|by apply ok_keeps_of, preserves_ret].
      apply ok_keeps_bind; [apply ok_keeps_of, (preserves_update_markets R I_db I_markets)|].
      intros _. by apply ok_keeps_of, preserves_ret.
  - apply ok_keeps_of. destruct (quarantine_reason err) as [[code detail]|].
    + apply preserves_bind; [apply _|by apply preserves_quarantine|]. intros _. by apply preserves_ret.
    + by apply preserves_fail.
Qed.

Lemma ok_keeps_event config batch p e :
  (forall o m, ok_keeps I (open_window_for config o m)) -> ok_keeps I (process_event config batch p e).
Proof.
  intros H st a st' Hi. rewrite process_event_eq. destruct (batch_selects_event _ _ _ _ _).
  - by apply ok_keeps_normalized.
  - by intros [= <- <-].
Qed.

Lemma ok_keeps_events config batch p es :
  (forall o m, ok_keeps I (open_window_for config o m)) -> ok_keeps I (process_events config batch p es).
Proof.
  intros H. revert p. induction es as [|e es IH]; intros p; simpl.
  - by apply ok_keeps_of, preserves_ret.
  - apply ok_keeps_bind; [by apply ok_keeps_event|]. apply IH.
Qed.

(** The body of [process_batch] before the windows left pending are cancelled. *)
Lemma ok_keeps_body config batch :
  (forall o m, ok_keeps I (open_window_for config o m)) ->
  ok_keeps I (process_body config batch).
Proof.
  intros H. unfold process_body. destruct (pb_transaction_error batch).
  - by apply ok_keeps_of, preserves_ret.
  - apply ok_keeps_bind; [apply ok_keeps_of, (preserves_decode R I_db)|].
    intros [complete events]. by apply ok_keeps_events.
Qed.
End OkKeeps.
End Proofs.
