(* ===== verification/PipelineTheorems.v ===== *)
(** The promises of the batch processor: accounts, durable windows, stored
    evidence, and the errors it cannot report. *)
From S2P Require Import Prelude.
From S2P Require Import ListFacts.
From S2P Require Import Stateful.
From S2P Require Import RustOrd.
From S2P Require Import BTree.
From S2P Require Import RustStr.
From S2P Require Import Domain.
From S2P Require Import External.
From S2P Require Import PumpModel.
From S2P Require Import BorshReader.
From S2P Require Import PumpDecoder.
From S2P Require Import WindowToken.
From S2P Require Import WindowTokenProofs.
From S2P Require Import WindowRegistry.
From S2P Require Import WindowRegistryInv.
From S2P Require Import ApiContracts.
From S2P Require Import PersistenceModel.
From S2P Require Import RpcModel.
From S2P Require Import Normalization.
From S2P Require Import NormalizationProofs.
From S2P Require Import Intake.
From S2P Require Import IntakeProofs.
From S2P Require Import Collector.
From S2P Require Import CollectorProofs.
From S2P Require Import PipelineDecode.
From S2P Require Import Pipeline.
From S2P Require Import PipelineProofs.

Section Proofs.
Context {B64 : Base64} {S256 : Sha256} {J XE : Type} {TJ : ToJson PumpEvent J}.
Context {DB : Database J XE (JsonError PumpEvent J)}.
Abbreviation JE := (JsonError PumpEvent J).
Abbreviation State := (PipelineState (DB:=DB)).
Abbreviation M := (stateful (PipelineState (DB:=DB)) (PipelineError XE JE)).


(** ** What a batch owes *)

(** The calls the processor makes on a token. *)
Inductive processor_call : (TokenCells -> TokenCells) -> Prop :=
| processor_confirms : processor_call (fun c => (confirm c).2)
| processor_cancels : processor_call cancel_if_pending
| processor_numbers id : processor_call (fun c => (set_durable_window_id id c).2).

Lemma processor_call_counts f : processor_call f -> keeps_counts f.
Proof.
  intros [] c; [unfold confirm|unfold cancel_if_pending|unfold set_durable_window_id].
  - by destruct (_ =? _).
  - by destruct (_ =? _).
  - destruct (_ || _); [done|]. by destruct (tc_durable_window_id c).
Qed.

Section Accounts.
(** What other tasks have admitted and not settled, as a function of what is
    outside the registry; they settle only what is theirs. *)
Context (others : Db -> nat -> Z).

Definition share (st : State) (i : nat) : Z :=
  unsettled (heap (ps_world st)) i - others (ps_db st) i.
Definition same_share (st st' : State) : Prop := forall i, share st' i = share st i.
#[local] Instance same_share_refl : Reflexive same_share.
Proof. by intros st i. Qed.
#[local] Instance same_share_trans : Transitive same_share.
Proof. intros x y z H1 H2 i. by rewrite H2. Qed.

Lemma same_share_token {A} (call : TokenCells -> A * TokenCells) t :
  keeps_counts (fun c => (call c).2) -> preserves same_share (token_call call t).
Proof. intros H [db w mk] i. unfold share. simpl. by rewrite unsettled_keeps. Qed.

Hypothesis others_own : forall db w db' w' i, db_step db w db' w' ->
  unsettled (heap w') i - others db' i = unsettled (heap w) i - others db i.

Lemma same_share_db db w db' w' mk : db_step db w db' w' ->
  same_share {| ps_db := db; ps_world := w; ps_markets := mk |}
    {| ps_db := db'; ps_world := w'; ps_markets := mk |}.
Proof. intros H i. by apply others_own. Qed.

Lemma same_share_open config o m : preserves same_share (open_window_for config o m).
Proof.
  unfold open_window_for. destruct m as [t|]; [|auto with stateful].
  preserves_bind; [|intros q].
  { apply preserves_db; [apply same_share_db|constructor]. }
  preserves_bind; [|intros od].
  { apply preserves_db; [apply same_share_db|constructor]. }
  destruct (od_replayed od).
  - preserves_bind; [|intros _; auto with stateful].
    apply same_share_token, (processor_call_counts _ processor_cancels).
  - preserves_bind; [|intros c].
    { apply same_share_token, (processor_call_counts _ processor_confirms). }
    destruct c; simpl; [|auto with stateful].
    preserves_bind; [|intros c].
    { apply same_share_token, (processor_call_counts _ (processor_numbers _)). }
    destruct c; simpl; [auto with stateful|auto with stateful].
Qed.

Lemma same_share_batch config batch : preserves same_share (process_batch config batch).
Proof.
  unfold process_batch. preserves_bind; [|intros p].
  - unfold process_body. destruct (pb_transaction_error batch); [auto with stateful|].
    preserves_bind; [apply preserves_decode; [apply _..|apply same_share_db]|].
    intros [complete events]. apply preserves_events; [apply _..|apply same_share_db|done|].
    left. apply same_share_open.
  - preserves_bind; [|intros _; auto with stateful].
    case_bool_decide; [|auto with stateful]. intros [db w mk] i. unfold share. simpl.
    rewrite unsettled_keeps_fold; auto with cells.
Qed.
End Accounts.

(** ** Recording *)

(** The state in which the outcome of a batch is recorded: before the batch is
    dropped. *)
Definition recorded_heap (outcome : BatchProcessingOutcome) (batch : ProgramLogBatch) (h : Heap) : Heap :=
  if bo_complete outcome then h
  else fold_left (fun h t => update_cells (fun c => (mark_incomplete DecodeGap c).2) t h)
         (pb_window_tokens batch) h.

Lemma record_batch_eq config batch st :
  process_and_record_batch config batch st =
  match process_batch config batch st with
  | (Err e, st1) => (Err e, {| ps_db := ps_db st1; ps_markets := ps_markets st1;
      ps_world := with_heap (fold_left (settle_token (negb (pb_processing_succeeded batch)))
                    (pb_window_tokens batch) (heap (ps_world st1))) (ps_world st1) |})
  | (Ok outcome, st1) => (Ok (bo_inserted outcome),
      {| ps_db := ps_db st1; ps_markets := ps_markets st1;
         ps_world := with_heap (fold_left (settle_token false) (pb_window_tokens batch)
                       (recorded_heap outcome batch (heap (ps_world st1)))) (ps_world st1) |})
  end.
Proof.
  unfold process_and_record_batch, batch_drop, recorded_heap, with_heap.
  by destruct (process_batch config batch st) as [[[ins [|]]|e] st1].
Qed.

Lemma unsettled_recorded outcome batch h i :
  unsettled (recorded_heap outcome batch h) i = unsettled h i.
Proof.
  unfold recorded_heap. destruct (bo_complete outcome); [done|]. apply unsettled_keeps_fold. auto with cells.
Qed.

Lemma mark_fold_incomplete ts h t : t ∈ ts ->
  incomplete_cells (cells_of (fold_left (fun h t =>
    update_cells (fun c => (mark_incomplete DecodeGap c).2) t h) ts h) t).
Proof.
  intros (l1 & l2 & ->)%list_elem_of_split. rewrite fold_left_app. simpl. apply fold_cells_keep.
  - intros h' t0. apply update_cells_keep. intros c _. apply mark_incomplete_incomplete.
  - rewrite cells_of_update_eq. apply mark_incomplete_incomplete.
Qed.

Lemma record_batch_settles (others : Db -> nat -> Z)
    (others_own : forall db w db' w' i, db_step db w db' w' ->
       unsettled (heap w') i - others db' i = unsettled (heap w) i - others db i)
    (others_owe : forall db i, 0 <= others db i) config batch st :
  pb_processing_succeeded batch = false ->
  (forall i, unsettled (heap (ps_world st)) i = owed (pb_window_tokens batch) i + others (ps_db st) i) ->
  let (r, st') := process_and_record_batch config batch st in
  (forall i, unsettled (heap (ps_world st')) i = others (ps_db st') i) /\
  (forall e t, r = Err e -> t ∈ pb_window_tokens batch ->
     tc_incomplete_reason (cells_of (heap (ps_world st')) t) <> WINDOW_COMPLETE).
Proof.
  intros fresh account.
  rewrite record_batch_eq. pose proof (same_share_batch others others_own config batch st) as Hs.
  destruct (process_batch config batch st) as [[outcome|e] st1]; simpl in *; unfold same_share, share in Hs.
  all: split; [intros i|].
  - rewrite settle_fold_unsettled, unsettled_recorded; [specialize (Hs i); specialize (account i); lia|].
    intros j. rewrite unsettled_recorded. specialize (Hs j). specialize (account j).
    pose proof (others_owe (ps_db st1) j). lia.
  - done.
  - rewrite settle_fold_unsettled; [specialize (Hs i); specialize (account i); lia|].
    intros j. specialize (Hs j). specialize (account j). pose proof (others_owe (ps_db st1) j). lia.
  - intros e' t _ Ht. rewrite fresh. by apply settle_fold_incomplete.
Qed.

(** Every admission a batch carries is settled exactly once, whatever the
    processing meets: an error of the database, of the decoding or of a
    normalization, quarantined evidence, a cancelled window.  If at the start
    the admissions not settled are those of the batch and those of other
    tasks, at the end only those of other tasks are left; and when the
    processing failed every window the batch belongs to is incomplete. *)
Theorem processed_batch_settles (others : Db -> nat -> Z)
    (others_own : forall db w db' w' i, db_step db w db' w' ->
       unsettled (heap w') i - others db' i = unsettled (heap w) i - others db i)
    (others_owe : forall db i, 0 <= others db i)
    config batch st
    (fresh : pb_processing_succeeded batch = false)
    (account : forall i, unsettled (heap (ps_world st)) i =
       owed (pb_window_tokens batch) i + others (ps_db st) i) :
  let (r, st') := process_and_record_batch config batch st in
  (forall i, unsettled (heap (ps_world st')) i = others (ps_db st') i) /\
  (forall e t, r = Err e -> t ∈ pb_window_tokens batch ->
     tc_incomplete_reason (cells_of (heap (ps_world st')) t) <> WINDOW_COMPLETE).
Proof.
  by apply record_batch_settles.
Qed.

(** ** What other tasks do to a window *)

(** Every call of a token but the two that only the processor makes. *)
Inductive other_call : TokenCells -> TokenCells -> Prop :=
| other_cancels c : other_call c (cancel_if_pending c)
| other_marks r c : other_call c (mark_incomplete r c).2
| other_cancels_with r c : other_call c (cancel_with_reason r c)
| other_admits c : other_call c (mark_admitted c).2
| other_settles c : other_call c (mark_settled c).2
| other_claims c : other_call c (try_claim_finalization c).2
| other_releases c : other_call c (release_finalization c)
| other_finalizes c : other_call c (mark_finalized c).2.

(** What they cannot do: confirm a window, or renumber it. *)
Definition keeps_windows (c c' : TokenCells) : Prop :=
  (was_confirmed c' = true -> was_confirmed c = true) /\
  (tc_state c' = WINDOW_CONFIRMED -> tc_state c = WINDOW_CONFIRMED) /\
  tc_durable_window_id c' = tc_durable_window_id c.
#[global] Instance keeps_windows_refl : Reflexive keeps_windows.
Proof. by intros c. Qed.
#[global] Instance keeps_windows_trans : Transitive keeps_windows.
Proof. intros x y z (A1 & B1 & C1) (A2 & B2 & C2). split_and!; [auto..|congruence]. Qed.

Lemma keeps_windows_same c c' :
  tc_state c' = tc_state c -> tc_durable_window_id c' = tc_durable_window_id c -> keeps_windows c c'.
Proof. intros E1 E2. unfold keeps_windows, was_confirmed. by rewrite E1, E2. Qed.

Lemma keeps_windows_cancelled c c' :
  tc_durable_window_id c' = tc_durable_window_id c ->
  tc_state c' = WINDOW_CANCELLED_PENDING \/
  tc_state c = WINDOW_CONFIRMED /\ tc_state c' = WINDOW_CANCELLED_CONFIRMED -> keeps_windows c c'.
Proof. intros E [E'|[E' E'']]; unfold keeps_windows, was_confirmed; [rewrite E'|rewrite E', E'']; done. Qed.

Lemma mark_incomplete_window r c :
  tc_state (mark_incomplete r c).2 = tc_state c /\
  tc_durable_window_id (mark_incomplete r c).2 = tc_durable_window_id c.
Proof. unfold mark_incomplete. by destruct (_ =? _). Qed.

Lemma other_call_keeps c c' : other_call c c' -> keeps_windows c c'.
Proof.
  destruct 1 as [d|r d|r d|d|d|d|d|d].
  - unfold cancel_if_pending. destruct (_ =? _); [|done]. apply keeps_windows_cancelled; auto.
  - apply keeps_windows_same; apply mark_incomplete_window.
  - unfold cancel_with_reason. destruct (_ =? WINDOW_PENDING); [apply keeps_windows_cancelled; auto|].
    destruct (Z.eqb_spec (tc_state d) WINDOW_CONFIRMED); [|done].
    apply keeps_windows_cancelled; [|auto]. apply mark_incomplete_window.
  - unfold mark_admitted. destruct (tc_finalized d); [done|]. by destruct (checked_add_u _ _ _).
  - unfold mark_settled. by destruct (_ >=? _).
  - unfold try_claim_finalization. by destruct (tc_finalization_claimed d).
  - done.
  - unfold mark_finalized. by destruct (tc_finalized d).
Qed.

Lemma other_calls_keep c c' : rtc other_call c c' -> keeps_windows c c'.
Proof. induction 1 as [c|c c1 c' H _ IH]; [done|]. etrans; [by apply other_call_keeps|done]. Qed.

(** During an await each window goes through calls of other tasks only. *)
Definition others_only : Prop := forall db w db' w' i, db_step db w db' w' ->
  rtc other_call (heap w !!! i) (heap w' !!! i).

(** ** Confirmed windows are durable *)
Definition all_cells (P : TokenCells -> Prop) (h : Heap) : Prop := forall i, P (h !!! i).

Lemma all_cells_update P f t h :
  P (f (cells_of h t)) -> all_cells P h -> all_cells P (update_cells f t h).
Proof.
  intros Hf H i. unfold update_cells. destruct (decide (tok_cells t = i)) as [<-|Hne].
  - by rewrite lookup_total_insert_eq.
  - by rewrite lookup_total_insert_ne.
Qed.

Lemma all_cells_fold P (f : Heap -> Token -> Heap) ts h :
  (forall h t, all_cells P h -> all_cells P (f h t)) -> all_cells P h -> all_cells P (fold_left f ts h).
Proof. intros Hf. revert h. induction ts as [|t ts IH]; intros h H; simpl; auto. Qed.

(** A confirmed window has its row in the database. *)
Definition numbered (c : TokenCells) : Prop := was_confirmed c = true -> is_Some (tc_durable_window_id c).

Lemma numbered_keeps c c' : keeps_windows c c' -> numbered c -> numbered c'.
Proof. intros (Hc & _ & Hd) H Hc'. rewrite Hd. auto. Qed.

Lemma other_call_numbered c c' : other_call c c' -> numbered c -> numbered c'.
Proof. intros H. by apply numbered_keeps, other_call_keeps. Qed.

Lemma set_durable_numbered id c : (set_durable_window_id id c).1 = true ->
  numbered (set_durable_window_id id c).2.
Proof.
  unfold set_durable_window_id, numbered. destruct (_ || _); [done|].
  destruct (tc_durable_window_id c) eqn:E; simpl; rewrite ?E; eauto.
Qed.

(** The two calls that put a window in the database, together. *)
Lemma confirm_numbered id t h :
  let h1 := update_cells (fun c => (confirm c).2) t h in
  (set_durable_window_id id (cells_of h1 t)).1 = true -> all_cells numbered h ->
  all_cells numbered (update_cells (fun c => (set_durable_window_id id c).2) t h1).
Proof.
  intros h1 Hd H i. unfold update_cells at 1. destruct (decide (tok_cells t = i)) as [<-|Hne].
  - rewrite lookup_total_insert_eq. by apply set_durable_numbered.
  - rewrite lookup_total_insert_ne by done. unfold h1, update_cells.
    rewrite lookup_total_insert_ne by done. apply H.
Qed.

Lemma settle_fold_numbered failed ts h :
  all_cells numbered h -> all_cells numbered (fold_left (settle_token failed) ts h).
Proof.
  apply all_cells_fold. intros h' t H. unfold settle_token.
  assert (forall h2, all_cells numbered h2 ->
    all_cells numbered (update_cells (fun c => (mark_settled c).2) t h2)) as Hs.
  { intros h2 H2. apply all_cells_update; [|done]. eapply other_call_numbered; [constructor|apply H2]. }
  apply Hs. destruct failed; [|done]. apply all_cells_update; [|done].
  eapply other_call_numbered; [constructor|apply H].
Qed.

Lemma recorded_numbered outcome batch h :
  all_cells numbered h -> all_cells numbered (recorded_heap outcome batch h).
Proof.
  unfold recorded_heap. destruct (bo_complete outcome); [done|]. apply all_cells_fold. intros h' t H.
  apply all_cells_update; [|done]. eapply other_call_numbered; [constructor|apply H].
Qed.

Definition windows_numbered (st : State) : Prop := all_cells numbered (heap (ps_world st)).

Section Numbered.
Hypothesis others_law : others_only.

Lemma windows_numbered_db db w db' w' mk : db_step db w db' w' ->
  windows_numbered {| ps_db := db; ps_world := w; ps_markets := mk |} ->
  windows_numbered {| ps_db := db'; ps_world := w'; ps_markets := mk |}.
Proof.
  intros Hs H i. apply (numbered_keeps (heap w !!! i)); [|apply H].
  by eapply other_calls_keep, others_law.
Qed.

Lemma windows_numbered_call {A} (call : Db -> World -> result (PersistenceError XE JE) A * Db * World) st r st' :
  is_db_call call -> windows_numbered st -> db_call call st = (r, st') -> windows_numbered st'.
Proof.
  intros Hc H E. destruct st as [db w mk]. unfold db_call in E. simpl in E. specialize (Hc db w).
  destruct (call db w) as [[r0 db'] w']. injection E as _ <-. by eapply windows_numbered_db.
Qed.

Lemma windows_numbered_open config o m : ok_keeps windows_numbered (open_window_for config o m).
Proof.
  intros st r st' H. unfold open_window_for. destruct m as [t|]; [|done].
  rewrite bind_eq. destruct (db_call load_qualification_defaults st) as [[q|e] st1] eqn:E1; [|done].
  apply windows_numbered_call in E1; [|constructor|done].
  rewrite bind_eq. destruct (db_call _ st1) as [[od|e] st2] eqn:E2; [|done].
  apply windows_numbered_call in E2; [|constructor|done].
  destruct st2 as [db w mk]. destruct (od_replayed od).
  - intros [= _ <-]. unfold windows_numbered. simpl. apply all_cells_update; [|done].
    eapply other_call_numbered; [constructor|apply E2].
  - rewrite bind_eq. unfold token_call at 1. cbn [ps_world ps_db ps_markets].
    destruct (negb _); [done|]. rewrite bind_eq. unfold token_call at 1. cbn [ps_world ps_db ps_markets].
    destruct (negb _) eqn:En; [done|]. intros [= _ <-]. unfold windows_numbered. cbn [ps_world heap with_heap].
    apply confirm_numbered; [|exact E2]. by apply negb_false_iff in En.
Qed.

Lemma windows_numbered_body config batch : ok_keeps windows_numbered (process_body config batch).
Proof.
  apply ok_keeps_body; [intros; by eapply windows_numbered_db|done|]. intros o m.
  apply windows_numbered_open.
Qed.
End Numbered.

Lemma process_batch_inv config batch st outcome st' :
  process_batch config batch st = (Ok outcome, st') ->
  exists p st1, process_body config batch st = (Ok p, st1) /\
    ps_db st' = ps_db st1 /\ ps_markets st' = ps_markets st1 /\
    bo_inserted outcome = bp_inserted p /\ (bo_complete outcome = true -> bp_complete p = true) /\
    heap (ps_world st') = (if bool_decide (pb_purpose batch = PurposeDiscovery)
      then fold_left (fun h t => update_cells cancel_if_pending t h) (pb_window_tokens batch)
             (heap (ps_world st1))
      else heap (ps_world st1)).
Proof.
  unfold process_batch. rewrite bind_eq. destruct (process_body config batch st) as [[p|e] st1]; [|done].
  rewrite bind_eq. intros H. exists p, st1. split; [done|].
  case_bool_decide; injection H as <- <-; simpl; split_and!; try done; apply andb_true_iff.
Qed.

Lemma cancel_fold_decided ts h t : t ∈ ts ->
  decided_cells (cells_of (fold_left (fun h t => update_cells cancel_if_pending t h) ts h) t).
Proof.
  intros (l1 & l2 & ->)%list_elem_of_split. rewrite fold_left_app. simpl. apply fold_cells_keep.
  - intros h' t0. apply update_cells_keep. intros c _. apply cancel_if_pending_decided.
  - rewrite cells_of_update_eq. apply cancel_if_pending_decided.
Qed.

Lemma settle_fold_state failed ts h t :
  tc_state (cells_of (fold_left (settle_token failed) ts h) t) = tc_state (cells_of h t).
Proof.
  apply (fold_cells_keep (fun c => tc_state c = tc_state (cells_of h t))); [|done].
  intros h' t0 H. unfold settle_token. apply (update_cells_keep (fun c => tc_state c = _)).
  { intros c. by destruct (mark_settled_keeps c) as [-> _]. }
  destruct failed; [|done]. apply (update_cells_keep (fun c => tc_state c = _)); [|done].
  intros c. by destruct (mark_incomplete_window ProcessingFailed c) as [-> _].
Qed.

Lemma recorded_state outcome batch h t :
  tc_state (cells_of (recorded_heap outcome batch h) t) = tc_state (cells_of h t).
Proof.
  unfold recorded_heap. destruct (bo_complete outcome); [done|].
  apply (fold_cells_keep (fun c => tc_state c = tc_state (cells_of h t))); [|done].
  intros h' t0 H. apply (update_cells_keep (fun c => tc_state c = _)); [|done].
  intros c. by destruct (mark_incomplete_window DecodeGap c) as [-> _].
Qed.

(** No window is confirmed only in memory.  Provided the other tasks never
    confirm or number a window, processing a batch keeps the invariant that
    every confirmed window, cancelled since or not, carries the id of its
    database row; and after a discovery batch none of its windows is left
    pending: each was confirmed with its row or cancelled. *)
Theorem processed_windows_are_durable (law : others_only) config batch st n st'
    (numbered_before : windows_numbered st)
    (processed : process_and_record_batch config batch st = (Ok n, st')) :
  windows_numbered st' /\
  (pb_purpose batch = PurposeDiscovery -> forall t, t ∈ pb_window_tokens batch ->
     tc_state (cells_of (heap (ps_world st')) t) <> WINDOW_PENDING).
Proof.
  rewrite record_batch_eq in processed.
  destruct (process_batch config batch st) as [[outcome|e] st1] eqn:E; [|done].
  injection processed as _ <-.
  apply process_batch_inv in E as (p & st0 & Hb & _ & _ & _ & _ & Hh).
  apply (windows_numbered_body law) in Hb; [|done]. unfold windows_numbered. cbn [ps_world heap with_heap].
  rewrite Hh. split.
  - apply settle_fold_numbered, recorded_numbered. case_bool_decide; [|exact Hb].
    apply all_cells_fold; [|exact Hb]. intros h t H0. apply all_cells_update; [|done].
    eapply other_call_numbered; [constructor|apply H0].
  - intros Hp t Ht. rewrite bool_decide_true by done. rewrite settle_fold_state, recorded_state.
    by apply cancel_fold_decided.
Qed.

(** ** Complete windows have their evidence *)

(** What the database keeps: an observation it accepted stays stored. *)
Record StoresEvidence (stored : Db -> ObservationKey -> Prop) : Prop := {
  stored_stays db w db' w' k : db_step db w db' w' -> stored db k -> stored db' k;
  stored_window i o db w b db' w' :
    insert_window_observation i o db w = (Ok b, db', w') -> stored db' (key o);
  stored_observation o db w b db' w' :
    insert_observation o db w = (Ok b, db', w') -> stored db' (key o);
}.

Definition evidence_key (config : PipelineConfig) (e : DecodedEvidence) : ObservationKey := {|
  ok_network := pl_network config; ok_program := pump_source_program (dp_program (de_decoded e));
  coordinate := dp_coordinate (de_decoded e) |}.

Lemma decode_programs_complete config batch programs st es st' :
  decode_programs config batch programs st = (Ok (true, es), st') ->
  forall program, program ∈ programs -> exists d, decode_batch_events batch program = Ok d /\
    dbt_quarantines d = [] /\ dbt_events d ⊆ es.
Proof.
  revert st es. induction programs as [|p0 ps IH]; intros st es H program Hin; [by apply elem_of_nil in Hin|].
  simpl in H. rewrite bind_eq in H. unfold st_lift in H.
  destruct (decode_batch_events batch p0) as [d|e] eqn:Ed; [|done]. cbn [map_err] in H.
  rewrite bind_eq in H. destruct (record_quarantines _ _ _ st) as [[[]|e] st1]; [|done].
  rewrite bind_eq in H. destruct (decode_programs config batch ps st1) as [[[c es']|e] st2] eqn:Ep; [|done].
  injection H as Hc <- <-. destruct (dbt_quarantines d) eqn:Eq; [|done]. subst c.
  apply elem_of_cons in Hin as [->|Hin].
  - exists d. split_and!; [done..|]. apply list_subseteq_app_l. done.
  - destruct (IH _ _ Ep program Hin) as (d' & H1 & H2 & H3). exists d'. split_and!; [done..|].
    by apply list_subseteq_app_r.
Qed.

(** A selected event that leaves the batch complete was normalized. *)
Lemma process_normalized_complete config batch p e n st p' st' :
  process_normalized config batch p e n st = (Ok p', st') -> bp_complete p' = true ->
  bp_complete p = true /\ exists np, n = Ok np.
Proof.
  unfold process_normalized. destruct n as [np|err].
  - rewrite bind_eq. unfold read_state at 1. cbv beta iota. rewrite bind_eq.
    destruct (store_observation _ _ _ st) as [[[b|]|x] st1]; [|by intros [= <- _]; eauto|done].
    rewrite bind_eq. destruct (update_markets _ _ _ st1) as [[u|x] st2]; [|done].
    intros [= <- _]. simpl. eauto.
  - destruct (quarantine_reason err) as [[code detail]|]; [|done].
    rewrite bind_eq. destruct (record_pipeline_quarantine _ _ _ st) as [[u|x] st1]; [|done].
    by intros [= <- _].
Qed.

Lemma process_events_complete config batch p es st p' st' :
  process_events config batch p es st = (Ok p', st') -> bp_complete p' = true -> bp_complete p = true.
Proof.
  revert p st. induction es as [|e es IH]; intros p st H Hc; simpl in H; [by injection H as <- _|].
  rewrite bind_eq in H. destruct (process_event config batch p e st) as [[p1|x] st1] eqn:E; [|done].
  specialize (IH _ _ H Hc). rewrite process_event_eq in E.
  destruct (batch_selects_event _ _ _ _ _); [|by injection E as <- _].
  by apply process_normalized_complete in E as [E _].
Qed.

Lemma process_events_app config batch p l1 l2 st :
  process_events config batch p (l1 ++ l2) st =
  match process_events config batch p l1 st with
  | (Ok p', st') => process_events config batch p' l2 st'
  | (Err e, st') => (Err e, st')
  end.
Proof.
  revert p st. induction l1 as [|e l1 IH]; intros p st; simpl; [done|]. rewrite !bind_eq.
  destruct (process_event config batch p e st) as [[p1|x] st1]; [apply IH|done].
Qed.

(** In the order of processing, what follows an activity event is activity. *)
Lemma sorted_activity es l1 e l2 :
  sort_by (key_cmp event_sort_key) es = l1 ++ e :: l2 ->
  is_discovery_event (dp_event (de_decoded e)) = false ->
  Forall (fun e => is_discovery_event (dp_event (de_decoded e)) = false) l2.
Proof.
  intros Hs He. pose proof (sort_by_sorted event_sort_key es) as H. rewrite Hs in H.
  apply StronglySorted_app_1_r in H.
  apply StronglySorted_inv in H as [_ H]. eapply Forall_impl; [exact H|]. intros x Hx.
  unfold key_le, event_sort_key in Hx. rewrite He in Hx.
  by destruct (is_discovery_event (dp_event (de_decoded x))).
Qed.

Lemma confirmed_matches w w' e tokens at_ :
  (forall t, tc_state (cells_of (heap w') t) = WINDOW_CONFIRMED ->
     tc_state (cells_of (heap w) t) = WINDOW_CONFIRMED) ->
  event_matches_confirmed_window w' e tokens at_ = true ->
  event_matches_confirmed_window w e tokens at_ = true.
Proof.
  intros Hl. unfold event_matches_confirmed_window. destruct (event_tracking_target e); [|done].
  rewrite !existsb_exists. intros (t & Ht & [Htg Hc]%andb_true_iff). exists t. split; [done|].
  rewrite Htg. unfold is_confirmed_at in *. apply andb_true_iff in Hc as [Hc ->].
  rewrite andb_true_r. simpl. apply Z.eqb_eq in Hc. apply Z.eqb_eq. by apply Hl.
Qed.

Section Evidence.
Context (stored : Db -> ObservationKey -> Prop) (stores : StoresEvidence stored) (law : others_only).

(** What happens after an observation was stored: windows are not confirmed,
    and nothing is forgotten. *)
Definition later (st st' : State) : Prop :=
  (forall i, tc_state (heap (ps_world st') !!! i) = WINDOW_CONFIRMED ->
     tc_state (heap (ps_world st) !!! i) = WINDOW_CONFIRMED) /\
  (forall k, stored (ps_db st) k -> stored (ps_db st') k).
#[local] Instance later_refl : Reflexive later.
Proof. by intros st. Qed.
#[local] Instance later_trans : Transitive later.
Proof. intros x y z [A1 B1] [A2 B2]. split; auto. Qed.

Lemma later_db db w db' w' mk : db_step db w db' w' ->
  later {| ps_db := db; ps_world := w; ps_markets := mk |}
    {| ps_db := db'; ps_world := w'; ps_markets := mk |}.
Proof.
  intros Hs. split; simpl.
  - intros i. by apply (other_calls_keep _ _ (law db w db' w' i Hs)).
  - intros k. by apply (stored_stays stored stores _ _ _ _ _ Hs).
Qed.

Lemma later_markets db w mk mk' :
  later {| ps_db := db; ps_world := w; ps_markets := mk |}
    {| ps_db := db; ps_world := w; ps_markets := mk' |}.
Proof. by split. Qed.

Lemma selects_confirmed w batch e network age :
  event_matches_confirmed_window w e (pb_window_tokens batch) (pb_received_time_unix_ms batch) = true ->
  batch_selects_event w batch e network age = true.
Proof. intros H. unfold batch_selects_event. rewrite H. destruct (pb_purpose batch); [apply orb_true_r|done]. Qed.

Lemma store_observation_stored config np matching st b st' :
  np_discovered_market np = None -> store_observation config np matching st = (Ok (Some b), st') ->
  stored (ps_db st') (key (np_observation np)).
Proof.
  intros Hd. unfold store_observation. rewrite Hd, bind_eq. unfold read_state at 1. cbv beta iota.
  rewrite bind_eq. intros H. destruct (mbind _ matching) as [id|] eqn:Eid.
  - unfold db_call in H. destruct (insert_window_observation _ _ _ _) as [[[b'|e] db'] w'] eqn:E; [|done].
    injection H as <- <-. by eapply stored_window.
  - unfold db_call in H. destruct (insert_observation _ _ _) as [[[b'|e] db'] w'] eqn:E; [|done].
    injection H as <- <-. by eapply stored_observation.
Qed.

Lemma activity_stored config batch p e st p' st' :
  is_discovery_event (dp_event (de_decoded e)) = false ->
  event_matches_confirmed_window (ps_world st) (dp_event (de_decoded e)) (pb_window_tokens batch)
    (pb_received_time_unix_ms batch) = true ->
  process_event config batch p e st = (Ok p', st') -> bp_complete p' = true ->
  stored (ps_db st') (evidence_key config e).
Proof.
  intros Hd Hm E Hc. rewrite process_event_eq, (selects_confirmed _ _ _ _ _ Hm) in E.
  destruct (process_normalized_complete _ _ _ _ _ _ _ _ E Hc) as [_ [np Hnp]].
  rewrite Hnp in E. pose proof (normalize_discovered _ _ _ _ _ _ _ Hnp) as Hdisc. rewrite Hd in Hdisc.
  apply normalize_Ok in Hnp as (j & _ & _ & Hk & _). unfold evidence_key. rewrite <- Hk.
  unfold process_normalized in E. rewrite bind_eq in E. unfold read_state at 1 in E. cbv beta iota in E.
  rewrite bind_eq in E. destruct (store_observation _ _ _ st) as [[[b|]|x] st1] eqn:Es; [| |done].
  - rewrite bind_eq in E. pose proof (preserves_update_markets later later_db later_markets config
      (de_decoded e) np st1) as Hl.
    destruct (update_markets _ _ _ st1) as [[u|x] st2]; [|done]. injection E as _ <-.
    apply Hl. by eapply store_observation_stored.
  - unfold store_observation in Es. rewrite Hdisc, bind_eq in Es. unfold read_state at 1 in Es.
    cbv beta iota in Es. rewrite bind_eq in Es.
    by destruct (match mbind _ _ with Some _ => _ | None => _ end) as [[b|x] st2].
Qed.

Lemma events_stored config batch p es st p' st' e :
  process_events config batch p (sort_by (key_cmp event_sort_key) es) st = (Ok p', st') ->
  bp_complete p' = true -> e ∈ es -> is_discovery_event (dp_event (de_decoded e)) = false ->
  event_matches_confirmed_window (ps_world st') (dp_event (de_decoded e)) (pb_window_tokens batch)
    (pb_received_time_unix_ms batch) = true ->
  stored (ps_db st') (evidence_key config e).
Proof.
  intros H Hc He Hd Hm. apply (elem_of_sort_by (key_cmp event_sort_key)) in He.
  apply list_elem_of_split in He as (l1 & l2 & Hs). pose proof (sorted_activity _ _ _ _ Hs Hd) as Hl2.
  rewrite Hs, process_events_app in H.
  destruct (process_events config batch p l1 st) as [[p1|x] st1]; [|done]. simpl in H. rewrite bind_eq in H.
  pose proof (preserves_event later later_db later_markets config batch p1 e (or_intror Hd) st1) as L1.
  destruct (process_event config batch p1 e st1) as [[p2|x] st2] eqn:Ee; [|done].
  pose proof (preserves_events later later_db later_markets config batch p2 l2 (or_intror Hl2) st2) as L2.
  rewrite H in L2. simpl in L1, L2. apply L2. eapply activity_stored; [done| |exact Ee|].
  - eapply confirmed_matches; [|exact Hm]. intros t. assert (later st1 st') as [Hl _] by by etrans. apply Hl.
  - by eapply process_events_complete.
Qed.

(** What the processor does after the last event. *)
Lemma after_body_state batch outcome h t :
  tc_state (cells_of (fold_left (settle_token false) (pb_window_tokens batch)
    (recorded_heap outcome batch (if bool_decide (pb_purpose batch = PurposeDiscovery)
       then fold_left (fun h t => update_cells cancel_if_pending t h) (pb_window_tokens batch) h
       else h))) t) = WINDOW_CONFIRMED ->
  tc_state (cells_of h t) = WINDOW_CONFIRMED.
Proof.
  rewrite settle_fold_state, recorded_state. case_bool_decide; [|done]. intros Hc.
  destruct (decide (tc_state (cells_of h t) = WINDOW_CONFIRMED)) as [|Hn]; [done|exfalso]. revert Hc.
  apply (fold_cells_keep (fun c => tc_state c <> WINDOW_CONFIRMED)); [|done].
  intros h' t0. apply (update_cells_keep (fun c => tc_state c <> WINDOW_CONFIRMED)).
  intros c Hc. unfold cancel_if_pending. by destruct (_ =? _).
Qed.
End Evidence.

(** C4: A window that stays complete has its evidence.  Provided the database
    keeps what it accepts and other tasks never confirm a window: if after a
    batch some window of it carries no incomplete reason, then the
    transaction had succeeded, both programs decoded without any quarantined
    evidence, and every activity event they decoded whose target has a
    confirmed window of the batch is stored. *)
Theorem complete_window_has_its_evidence (stored : Db -> ObservationKey -> Prop)
    (stores : StoresEvidence stored) (law : others_only) config batch st n st' t
    (processed : process_and_record_batch config batch st = (Ok n, st'))
    (token : t ∈ pb_window_tokens batch)
    (complete : tc_incomplete_reason (cells_of (heap (ps_world st')) t) = WINDOW_COMPLETE) :
  pb_transaction_error batch = None /\
  forall program, program ∈ PUMP_PROGRAMS ->
    exists d, decode_batch_events batch program = Ok d /\ dbt_quarantines d = [] /\
      forall e, e ∈ dbt_events d -> is_discovery_event (dp_event (de_decoded e)) = false ->
        event_matches_confirmed_window (ps_world st') (dp_event (de_decoded e))
          (pb_window_tokens batch) (pb_received_time_unix_ms batch) = true ->
        stored (ps_db st') (evidence_key config e).
Proof.
  rewrite record_batch_eq in processed.
  destruct (process_batch config batch st) as [[outcome|x] st1] eqn:E; [|done].
  injection processed as _ <-. cbn [ps_world ps_db heap with_heap] in *.
  assert (bo_complete outcome = true) as Hc.
  { destruct (bo_complete outcome) eqn:Ec; [done|exfalso]. revert complete.
    apply (fold_cells_keep incomplete_cells); [intros; by apply settle_token_incomplete|].
    unfold recorded_heap. rewrite Ec. by apply mark_fold_incomplete. }
  apply process_batch_inv in E as (p & st0 & Hb & Hdb & _ & _ & Hp & Hh). specialize (Hp Hc).
  rewrite Hdb. rewrite Hh in *. clear complete.
  unfold process_body in Hb. destruct (pb_transaction_error batch) as [x|]; [by injection Hb as <- _|].
  split; [done|]. rewrite bind_eq in Hb.
  destruct (decode_programs config batch PUMP_PROGRAMS st) as [[[c es]|x] st2] eqn:Ed; [|done].
  cbv beta iota in Hb. pose proof (process_events_complete _ _ _ _ _ _ _ Hb Hp) as Hpc.
  simpl in Hpc. subst c. intros program Hin.
  destruct (decode_programs_complete _ _ _ _ _ _ Ed program Hin) as (d & Hd & Hq & Hes).
  exists d. split_and!; [done..|]. intros e He Hact Hm.
  eapply (events_stored stored stores law); [exact Hb|done|by apply Hes|done|].
  eapply confirmed_matches; [|exact Hm]. intros t'. apply after_body_state.
Qed.
End Proofs.
