(* ===== verification/PipelineErrors.v ===== *)
(** The errors of the batch processor: which can be reported, and which
    branches of the code are unreachable. *)
From S2P Require Import Prelude.
From S2P Require Import ListFacts.
From S2P Require Import Stateful.
From S2P Require Import RustOrd.
From S2P Require Import BTree.
From S2P Require Import RustStr.
From S2P Require Import Domain.
From S2P Require Import External.
From S2P Require Import PumpModel.
From S2P Require Import BorshReader.
From S2P Require Import PumpDecoder.
From S2P Require Import PumpWire.
From S2P Require Import WindowToken.
From S2P Require Import WindowTokenProofs.
From S2P Require Import WindowRegistry.
From S2P Require Import WindowRegistryInv.
From S2P Require Import ApiContracts.
From S2P Require Import PersistenceModel.
From S2P Require Import RpcModel.
From S2P Require Import Normalization.
From S2P Require Import NormalizationProofs.
From S2P Require Import Intake.
From S2P Require Import IntakeProofs.
From S2P Require Import IntakeTheorems.
From S2P Require Import Collector.
From S2P Require Import CollectorProofs.
From S2P Require Import PipelineDecode.
From S2P Require Import Pipeline.
From S2P Require Import PipelineProofs.
From S2P Require Import PipelineTheorems.

Section Proofs.
Context {B64 : Base64} {S256 : Sha256} {J XE : Type} {TJ : ToJson PumpEvent J}.
Context {DB : Database J XE (JsonError PumpEvent J)}.
Abbreviation JE := (JsonError PumpEvent J).
Abbreviation State := (PipelineState (DB:=DB)).
Abbreviation M := (stateful (PipelineState (DB:=DB)) (PipelineError XE JE)).

(** ** The expected errors *)

(** A database call that failed, and left the processor in [st']. *)
Definition fails_in {A} (call : Db -> World -> result (PersistenceError XE JE) A * Db * World)
    (e : PersistenceError XE JE) (st' : State) : Prop :=
  exists db w, call db w = (Err e, ps_db st', ps_world st').
Definition database_failed (e : PersistenceError XE JE) (st' : State) : Prop :=
  (exists r, fails_in (record_intake_quarantine r) e st') \/ fails_in load_qualification_defaults e st' \/
  (exists o n, fails_in (open_discovery_window o n) e st') \/
  (exists i o, fails_in (insert_window_observation i o) e st') \/
  (exists o, fails_in (insert_observation o) e st') \/ (exists p, fails_in (upsert_pump_swap_pool p) e st').

(** The processor matched a discovery with the token [t] of its batch, open in [st],
    awaited the two calls that give the window its row, and they answered a new
    row [opened] and left [st']. *)
Definition opened_for (config : PipelineConfig) (batch : ProgramLogBatch) (t : Token)
    (opened : OpenedDiscoveryWindow) (st st' : State) : Prop :=
  t ∈ pb_window_tokens batch /\
  is_open_at (heap (ps_world st)) t (pb_received_time_unix_ms batch) = true /\
  exists qualification o st1,
    db_call load_qualification_defaults st = (Ok qualification, st1) /\
    db_call (open_discovery_window o (new_window config t qualification)) st1 = (Ok opened, st') /\
    od_replayed opened = false.

(** While those calls were awaited another task closed the window, so that it can
    no longer be confirmed. *)
Definition cancelled_meanwhile (config : PipelineConfig) (batch : ProgramLogBatch) (st st' : State) : Prop :=
  exists t opened st2, opened_for config batch t opened st st2 /\
    state_open (cells_of (heap (ps_world st2)) t) = false /\ st' = (token_call confirm t st2).2.
(** The database numbered the row with no positive id, or with another id than the
    one another task had given the window meanwhile. *)
Definition misnumbered (config : PipelineConfig) (batch : ProgramLogBatch) (st st' : State) : Prop :=
  exists t opened st2 st3, opened_for config batch t opened st st2 /\
    (od_window_id opened <= 0 \/
     exists existing, tc_durable_window_id (cells_of (heap (ps_world st2)) t) = Some existing /\
       existing <> od_window_id opened) /\
    token_call confirm t st2 = (Ok true, st3) /\
    st' = (token_call (set_durable_window_id (od_window_id opened)) t st3).2.

(** What the error of an event means that was processed from [st]. *)
Definition event_failed (config : PipelineConfig) (batch : ProgramLogBatch) (event : DecodedEvidence) (st : State)
    (e : PipelineError XE JE) (st' : State) : Prop :=
  match e with
  | PlPersistence e => database_failed e st'
  | PlLogScope _ => False
  | PlNormalization (SourceDetails x) => json_to_value (dp_event (de_decoded event)) = Err x
  | PlNormalization _ => False
  | PlWindowLifecycle m =>
      (m = "durable discovery window could not confirm its provisional token"%string /\
         cancelled_meanwhile config batch st st') \/
      (m = "confirmed token rejected its durable window id"%string /\ misnumbered config batch st st')
  end.

(** Processing the batch from [st] comes to [event] in the state [st1]. *)
Definition processing (config : PipelineConfig) (batch : ProgramLogBatch) (st : State)
    (event : DecodedEvidence) (st1 : State) : Prop :=
  exists complete events st0 before after p,
    decode_programs config batch PUMP_PROGRAMS st = (Ok (complete, events), st0) /\
    sort_by (key_cmp event_sort_key) events = before ++ event :: after /\
    process_events config batch {| bp_inserted := 0; bp_complete := complete; bp_selected_events := 0 |} before st0
      = (Ok p, st1).

(** What the error of a batch means: its evidence could not be recorded or has too
    many calls, or one of its events failed. *)
Definition expected (config : PipelineConfig) (batch : ProgramLogBatch) (st : State)
    (e : PipelineError XE JE) (st' : State) : Prop :=
  (exists x, e = PlPersistence x /\ database_failed x st') \/
  (exists program, e = PlLogScope (ScopeTooManyEvents u16_max) /\
     decode_batch_events batch program = Err (ScopeTooManyEvents u16_max)) \/
  (exists event st1, processing config batch st event st1 /\ event_failed config batch event st1 e st').

(** ** A triple *)

(** From a sound registry of markets [m] either ends in one, or fails with an error
    of the database. *)
Definition registry_sound (st : State) : Prop := market_registry_ok (ps_markets st).
Definition of_database (e : PipelineError XE JE) (st' : State) : Prop :=
  exists x, e = PlPersistence x /\ database_failed x st'.
Section Batch.
Context (config : PipelineConfig) (batch : ProgramLogBatch).
Abbreviation triple := (maintains registry_sound of_database).

Lemma triple_db {A} (call : Db -> World -> result (PersistenceError XE JE) A * Db * World) :
  (forall e st', fails_in call e st' -> database_failed e st') -> triple (db_call call).
Proof.
  intros Hf [db w mk] H. unfold db_call. cbn [ps_db ps_world ps_markets].
  destruct (call db w) as [[[a|e] db'] w'] eqn:E; [done|]. exists e. split; [done|]. apply Hf. by exists db, w.
Qed.
Lemma triple_token {A} (call : TokenCells -> A * TokenCells) t : triple (token_call call t).
Proof. by intros st H. Qed.
Lemma triple_markets {A} (call : MarketRegistry -> result _ (A * MarketRegistry)) :
  (forall r, market_registry_ok r -> exists a r', call r = Ok (a, r') /\ market_registry_ok r') ->
  triple (markets_call call).
Proof. intros Hc st H. unfold markets_call. by destruct (Hc _ H) as (a & r' & -> & Hr). Qed.
#[local] Hint Extern 1 (maintains _ _ (db_call _)) =>
  apply triple_db; intros ? ? ?; unfold database_failed; eauto 8 : triple.
#[local] Hint Resolve triple_token : triple.

(** ** The steps *)
Lemma triple_quarantines network program qs : triple (record_quarantines network program qs).
Proof.
  induction qs as [|q qs IH]; simpl; [auto with triple stateful|]. unfold record_pipeline_quarantine.
  eauto with triple stateful.
Qed.

Lemma decode_batch_expected program e :
  decode_batch_events batch program = Err e -> e = ScopeTooManyEvents u16_max.
Proof.
  unfold decode_batch_events. intros H.
  destruct (decode_calls _ _ _ _ _) as [ev|e'] eqn:E; csimpl in H.
  - by destruct (scope_program_data_logs _ _ _ _ _).
  - injection H as ->. revert E. generalize no_evidence as ev, (@nil (Z * Z)) as indexes.
    induction (List.filter _ _) as [|i l IH]; intros ev indexes H; simpl in H; [done|].
    destruct (checked_add_u 16 _ 1); csimpl in H; [by eapply IH|by injection H as <-].
Qed.

Lemma decode_programs_fail programs st : registry_sound st ->
  match decode_programs config batch programs st with
  | (Ok _, st') => registry_sound st'
  | (Err e, st') => of_database e st' \/ exists program, e = PlLogScope (ScopeTooManyEvents u16_max) /\
      decode_batch_events batch program = Err (ScopeTooManyEvents u16_max)
  end.
Proof.
  revert st. induction programs as [|p ps IH]; intros st Hok; [done|]. cbn [decode_programs].
  rewrite bind_eq. unfold st_lift. destruct (decode_batch_events batch p) as [d|e] eqn:E; cbn [map_err].
  2:{ right. exists p. pose proof (decode_batch_expected _ _ E) as ->. done. }
  rewrite bind_eq.
  pose proof (triple_quarantines (pl_network config) (pump_source_program p) (dbt_quarantines d) st Hok) as Hq.
  destruct (record_quarantines _ _ _ _) as [[[]|e] st1]; [|by left].
  rewrite bind_eq. specialize (IH st1 Hq). by destruct (decode_programs config batch ps st1) as [[[c es]|e] st2].
Qed.

(** The window of a selected discovery is among the tokens of the batch. *)
Lemma discovery_market n r e kind m p disc :
  event_parts (JE:=JE) n r e = Ok (kind, m, p, disc) -> is_discovery_event e = true ->
  exists seed, discovery_seed e n = Some seed /\ for_market m = Some (seed_target seed).
Proof.
  intros H Hd. destruct e as [e|e|e|e|e|e|e|e|e]; try done; simpl in H |- *.
  - injection H as _ <- _ _. eauto.
  - unfold create_pool_parts in H.
    destruct (normalize_pump_swap_pair n (cp_base_mint e) (cp_quote_mint e)) as [pr|]; [|done].
    csimpl in H. destruct (orient_source_amounts _ _ _). injection H as _ <- _ _. csimpl. eauto.
Qed.

Lemma selected_discovery_matches w d n age c t raw r np :
  batch_selects_event w batch (dp_event d) n age = true ->
  normalize_pump_event (J:=J) d n c t raw r = Ok np ->
  np_discovered_market np <> None ->
  is_Some (matching_window_token batch w (market (np_observation np))).
Proof.
  intros Hs Hn Hd. pose proof (normalize_discovered _ _ _ _ _ _ _ Hn) as Hdisc.
  destruct (is_discovery_event (dp_event d)) eqn:He; [|by rewrite Hdisc in Hd].
  apply normalize_Ok in Hn as (j & _ & _ & _ & _ & Hp).
  destruct (discovery_market _ _ _ _ _ _ _ Hp He) as (seed & Hseed & Hm).
  assert (event_tracking_target (dp_event d) = None) as Ht by (by destruct (dp_event d)).
  unfold batch_selects_event, event_matches_confirmed_window in Hs. rewrite Ht, Hseed in Hs.
  destruct (pb_purpose batch); [|done].
  rewrite orb_false_r in Hs. apply andb_true_iff in Hs as [Hs _].
  apply existsb_exists in Hs as (tok & Hin & Htok).
  unfold matching_window_token. rewrite Hm. csimpl.
  destruct (List.find _ _) as [x|] eqn:E; [by eexists|].
  pose proof (List.find_none _ _ E tok Hin) as Hf. cbv beta in Hf. by rewrite Htok in Hf.
Qed.

Lemma matching_token w m t : matching_window_token batch w m = Some t ->
  t ∈ pb_window_tokens batch /\ is_open_at (heap w) t (pb_received_time_unix_ms batch) = true.
Proof.
  unfold matching_window_token. intros (target & _ & H)%bind_Some.
  apply List.find_some in H as [Hin%list_elem_of_In [_ Hopen]%andb_true_iff]. done.
Qed.

Lemma confirm_refused c : (confirm c).1 = false -> state_open c = false.
Proof.
  unfold confirm, state_open. destruct (tc_state c =? WINDOW_PENDING); [done|]. done.
Qed.
Lemma numbering_refused id c : (confirm c).1 = true ->
  (set_durable_window_id id (confirm c).2).1 = false ->
  id <= 0 \/ exists existing, tc_durable_window_id c = Some existing /\ existing <> id.
Proof.
  intros Hc Hn. destruct (Z.leb_spec id 0) as [|Hid]; [by left|right].
  assert (was_confirmed (confirm c).2 = true /\ tc_durable_window_id (confirm c).2 = tc_durable_window_id c) as [Hw Hd].
  { unfold confirm in *. destruct (tc_state c =? WINDOW_PENDING); [done|]. unfold was_confirmed. simpl in *. by rewrite Hc. }
  unfold set_durable_window_id in Hn. rewrite Hw, Hd, (proj2 (Z.leb_gt id 0)) in Hn by lia. simpl in Hn.
  destruct (tc_durable_window_id c) as [existing|]; [|done]. exists existing. split; [done|]. by apply Z.eqb_neq.
Qed.

(** A window that is not confirmed or numbered was closed, or numbered otherwise,
    while its row was awaited. *)
Lemma open_fails event o m t st : registry_sound st -> matching_window_token batch (ps_world st) m = Some t ->
  match open_window_for config o (Some t) st with
  | (Ok _, st') => registry_sound st'
  | (Err e, st') => event_failed config batch event st e st'
  end.
Proof.
  intros Hok [Hin Hopen]%matching_token. unfold open_window_for. rewrite bind_eq.
  assert (triple (db_call load_qualification_defaults)) as Hload by auto with triple.
  specialize (Hload st Hok). destruct (db_call load_qualification_defaults st) as [[q|e] st1] eqn:Eq;
    [|by destruct Hload as (x & -> & Hx)].
  rewrite bind_eq.
  assert (triple (db_call (open_discovery_window o (new_window config t q)))) as Hrow by auto with triple.
  specialize (Hrow st1 Hload).
  destruct (db_call (open_discovery_window o (new_window config t q)) st1) as [[od|e] st2] eqn:Eo;
    [|by destruct Hrow as (x & -> & Hx)].
  destruct (od_replayed od) eqn:Er; [done|].
  assert (opened_for config batch t od st st2) as Hfor by (split_and!; [done|done|by exists q, o, st1]).
  rewrite bind_eq. unfold token_call at 1. cbv beta iota zeta.
  destruct (confirm (cells_of (heap (ps_world st2)) t)).1 eqn:Ec; cbn [negb]; cbv iota.
  - rewrite bind_eq. unfold token_call at 1. cbv beta iota zeta.
    match goal with |- context [negb ?b] => destruct b eqn:En end; cbn [negb]; cbv iota; [done|].
    right. split; [done|]. eexists t, od, st2, _. split; [done|]. split; [|split; [|reflexivity]].
    + apply numbering_refused; [done|]. revert En. simpl. by rewrite cells_of_update_eq.
    + unfold token_call. rewrite Ec. reflexivity.
  - left. split; [done|]. exists t, od, st2. split; [done|]. split; [by apply confirm_refused|reflexivity].
Qed.

Lemma triple_observe np m : np_discovered_market np = None -> triple (store_observation config np m).
Proof.
  intros Hn. unfold store_observation. rewrite Hn.
  apply maintains_bind; [auto with triple stateful|]. intros [id|]; eauto with triple stateful.
Qed.

Lemma store_fails event np st : registry_sound st ->
  let m := matching_window_token batch (ps_world st) (market (np_observation np)) in
  (np_discovered_market np <> None -> is_Some m) ->
  match store_observation config np m st with
  | (Ok _, st') => registry_sound st'
  | (Err e, st') => event_failed config batch event st e st'
  end.
Proof.
  intros Hok m H. destruct (np_discovered_market np) eqn:Hn.
  - unfold store_observation. rewrite Hn. destruct H as [t Hm]; [done|]. fold m. rewrite Hm. by eapply open_fails.
  - pose proof (triple_observe np m Hn st Hok) as Ht. destruct (store_observation config np m st) as [[a|e] st1]; [done|].
    by destruct Ht as (x & -> & Hx).
Qed.

(** The registry never refuses what a normalized event asks of it. *)
Lemma triple_update d c t raw r np :
  normalize_pump_event (J:=J) d (pl_network config) c t raw r = Ok np ->
  triple (update_markets config d np).
Proof.
  intros Hn. pose proof (normalize_discovered _ _ _ _ _ _ _ Hn) as Hdisc.
  apply normalize_Ok in Hn as (j & _ & _ & _ & _ & Hp).
  unfold update_markets. apply maintains_bind; [|intros _; apply maintains_bind; [|intros _]].
  - unfold created_pool. destruct (dp_event d) as [| | | |e| | | |] eqn:He; try auto with triple stateful.
    simpl in Hp. unfold create_pool_parts in Hp.
    destruct (normalize_pump_swap_pair (pl_network config) (cp_base_mint e) (cp_quote_mint e))
      as [pr|] eqn:Epr; [|done]. csimpl in Hp.
    destruct (orient_source_amounts _ _ _). injection Hp as _ Hm _ Hd.
    unfold register_pool. apply maintains_bind; [auto with triple stateful|intros _].
    intros st Hok. rewrite bind_eq. unfold markets_call, register_pump_swap_pool. simpl. rewrite Epr.
    unfold write_markets. rewrite (mro_lock _ Hok). csimpl.
    unfold market_eqb. rewrite bool_decide_true by by rewrite <- Hd. simpl.
    apply (register_pool_ok (JE:=JE) (ps_markets st) (pl_network config) (cp_pool e) (cp_base_mint e)
             (cp_quote_mint e) (Some (pump_swap_market_identity (pl_network config) (cp_pool e) pr)));
      [done|].
    unfold register_pump_swap_pool. rewrite Epr. unfold write_markets. by rewrite (mro_lock _ Hok).
  - destruct (np_discovered_market np) as [m|]; [|auto with triple stateful]. case_bool_decide as Hv; [|auto with triple stateful].
    apply triple_markets. intros r' Hr.
    destruct (register (JE:=JE) r' m) as [r1|e] eqn:E.
    + exists tt, r1. split; [done|]. by eapply register_ok.
    + unfold register in E. rewrite Hv in E. unfold write_markets in E. by rewrite (mro_lock _ Hr) in E.
  - destruct (retired_mint (dp_event d)) as [mint|]; [|auto with triple stateful].
    apply triple_markets. intros r' Hr.
    destruct (retire_pump_market (JE:=JE) r' mint) as [r1|e] eqn:E.
    + exists tt, r1. split; [done|]. by eapply retire_ok.
    + unfold retire_pump_market, write_markets in E. by rewrite (mro_lock _ Hr) in E.
Qed.

Lemma normalize_error_expected e n c t raw r err st st' :
  market_registry_ok r -> normalize_pump_event (J:=J) (de_decoded e) n c t raw r = Err err ->
  quarantine_reason err = None -> event_failed config batch e st (PlNormalization err) st'.
Proof.
  intros Hr H Hq. pose proof (event_parts_correct n r (dp_event (de_decoded e)) Hr) as Hp.
  unfold normalize_pump_event in H. csimpl in H.
  destruct (json_to_value (dp_event (de_decoded e))) as [j|x] eqn:Ej; csimpl in H; [|by injection H as <-].
  destruct (event_parts n r (dp_event (de_decoded e))) as [[[[k m] pay] disc]|err']; [done|].
  injection H as ->. by destruct err.
Qed.

Lemma event_fails p event st : registry_sound st ->
  match process_event config batch p event st with
  | (Ok _, st') => registry_sound st'
  | (Err e, st') => event_failed config batch event st e st'
  end.
Proof.
  intros Hok. rewrite process_event_eq. destruct (batch_selects_event _ _ _ _ _) eqn:Hs; [|done].
  unfold process_normalized.
  destruct (normalize_pump_event _ _ _ _ _ _) as [np|err] eqn:En.
  - rewrite bind_eq. unfold read_state at 1. cbv beta iota.
    pose proof (store_fails event np st Hok (selected_discovery_matches _ _ _ _ _ _ _ _ _ Hs En)) as Hst.
    rewrite bind_eq. cbv zeta in Hst. destruct (store_observation _ _ _ st) as [[[b|]|x] st1]; [|done|done].
    pose proof (triple_update (de_decoded event) _ _ _ _ _ En st1 Hst) as Hu. rewrite bind_eq.
    destruct (update_markets _ _ _ st1) as [[u|x] st2]; [done|]. by destruct Hu as (y & -> & Hy).
  - destruct (quarantine_reason err) as [[code detail]|] eqn:Eq; [|by eapply normalize_error_expected].
    rewrite bind_eq. unfold record_pipeline_quarantine.
    match goal with |- context [(db_call ?call ≫= ?k) st] =>
      assert (triple (db_call call ≫= k)) as Ht by eauto with triple stateful; specialize (Ht st Hok);
      destruct ((db_call call ≫= k) st) as [[[]|x] st1] end; [done|]. by destruct Ht as (y & -> & Hy).
Qed.

Lemma events_fail p es st : registry_sound st ->
  match process_events config batch p es st with
  | (Ok _, st') => registry_sound st'
  | (Err e, st') => exists before event after p1 st1, es = before ++ event :: after /\
      process_events config batch p before st = (Ok p1, st1) /\ event_failed config batch event st1 e st'
  end.
Proof.
  revert p st. induction es as [|event es IH]; intros p st Hok; [done|]. cbn [process_events]. rewrite bind_eq.
  pose proof (event_fails p event st Hok) as He.
  destruct (process_event config batch p event st) as [[p1|e] st1] eqn:Ee; [|by exists [], event, es, p, st].
  specialize (IH p1 st1 He). destruct (process_events config batch p1 es st1) as [[p2|e] st2]; [done|].
  destruct IH as (before & ev & after & p3 & st3 & -> & Hrun & Hf).
  exists (event :: before), ev, after, p3, st3. split; [done|]. split; [|done].
  cbn [process_events]. by rewrite bind_eq, Ee.
Qed.

Lemma batch_fails st : registry_sound st ->
  match process_batch config batch st with
  | (Ok _, st') => registry_sound st'
  | (Err e, st') => expected config batch st e st'
  end.
Proof.
  intros Hok. unfold process_batch. rewrite bind_eq. unfold process_body.
  destruct (pb_transaction_error batch).
  { unfold mret, stateful_ret. cbv beta iota. rewrite bind_eq. by case_bool_decide. }
  rewrite bind_eq. pose proof (decode_programs_fail PUMP_PROGRAMS st Hok) as Hd.
  destruct (decode_programs config batch PUMP_PROGRAMS st) as [[[c es]|e] st0] eqn:Ed.
  2:{ destruct Hd as [Hd|Hd]; [by left|by right; left]. }
  pose proof (events_fail {| bp_inserted := 0; bp_complete := c; bp_selected_events := 0 |}
    (sort_by (key_cmp event_sort_key) es) st0 Hd) as He.
  destruct (process_events _ _ _ _ st0) as [[p|e] st1].
  - rewrite bind_eq. by case_bool_decide.
  - destruct He as (before & event & after & p1 & st2 & Hes & Hrun & Hf). right. right. exists event, st2.
    split; [|done]. by exists c, es, st0, before, after, p1.
Qed.
End Batch.

(** C12: The processor cannot fail for a reason of its own.  From a registry of
    markets built by its own operations, processing a batch ends with one, or
    fails, in the state the error is about, because
    - one of the database calls answered that error there;
    - the batch has more than 65535 event calls under one instruction;
    - an event of the batch, once it was its turn, could not be serialized;
    - a window of the batch, open when its discovery was matched, had been closed
      by another task by the time its row was there to confirm it;
    - the database numbered that row with an id that is not positive, or another
      than the id another task had given the window by then.
    The other errors of the code, a discovery without its provisional window, a
    pool whose orientation disagrees with its event, a poisoned or unoriented
    registry, are unreachable.  The error is the one the batch is recorded with. *)
Theorem processor_errors_are_external config batch st
    (registry : market_registry_reachable (JE:=JE) (ps_markets st)) :
  let (r, st') := process_and_record_batch config batch st in
  match r with
  | Ok _ => market_registry_ok (ps_markets st')
  | Err e => (process_batch config batch st).1 = Err e /\ expected config batch st e (process_batch config batch st).2
  end.
Proof.
  rewrite record_batch_eq. pose proof (batch_fails config batch st) as H.
  destruct (process_batch config batch st) as [[outcome|e] st1]; simpl; [|split; [done|]]; apply H;
    by eapply market_registry_reachable_ok.
Qed.
End Proofs.

(** One activity batch of a confirmed window through the processor, with a
    database that keeps the keys of what it stores. *)
Module SamplePipeline.
#[local] Existing Instance Hexish.codec.
#[local] Existing Instance SampleNormalize.sha.
#[local] Existing Instance SampleNormalize.json.

(** A database that keeps keys; awaiting it changes no window. *)
#[export] Instance keys_database : Database PumpEventKind unit (JsonError PumpEvent PumpEventKind) := {|
  Db := list ObservationKey;
  record_intake_quarantine _ db w := (Ok 1, db, w);
  load_qualification_defaults db w :=
    (Ok {| sq_values := SAFE_INITIAL; sq_revision := 1 |}, db, w);
  open_discovery_window o _ db w :=
    (Ok {| od_window_id := Z.of_nat (length db) + 1; od_observation_inserted := true;
           od_window_created := true; od_replayed := false |}, key o :: db, w);
  insert_window_observation _ o db w := (Ok true, key o :: db, w);
  insert_observation o db w := (Ok true, key o :: db, w);
  upsert_pump_swap_pool _ db w := (Ok true, db, w);
|}.

Definition stored (db : Db (Database:=keys_database)) (k : ObservationKey) : Prop := k ∈ (db : list ObservationKey).

Lemma stores : StoresEvidence stored.
Proof.
  split.
  - intros db w db' w' k [] H; simpl; unfold stored in *; by try apply elem_of_cons; auto.
  - intros i o db w b db' w' [= _ <- _]. left.
  - intros o db w b db' w' [= _ <- _]. left.
Qed.

Lemma world_kept db w db' w' : db_step db w db' w' -> w' = w.
Proof. by intros []. Qed.

Lemma alone : others_only (DB:=keys_database).
Proof. intros db w db' w' i ->%world_kept. done. Qed.

Definition config : PipelineConfig := {|
  pl_network := SolanaMainnet; pl_commitment := Confirmed; pl_maximum_discovery_age_ms := 60000;
  pl_prefilter_revision := 1;
  pl_prefilter_values := {| pd_max_event_age_ms := 60000; pd_observation_window_ms := 2000;
    pd_max_active_windows := 100; pd_rpc_requests_per_second := 5; pd_rpc_max_in_flight := 2;
    pd_rpc_request_timeout_ms := 5000; pd_rpc_rate_limit_cooldown_ms := 1000 |};
  pl_collector_run_id := "run" |}.

(** A confirmed window with one admission, and the batch that carries it. *)
Definition batch : ProgramLogBatch := {|
  pb_purpose := PurposeTrackedActivity; pb_slot := 7; pb_transaction_index := None;
  pb_signature := "sig"; pb_received_time_unix_ms := 120; pb_instructions := [];
  pb_log_messages := nt_log_messages SampleIntake.corroborated; pb_transaction_error := None;
  pb_window_tokens := [SampleIntake.token]; pb_processing_succeeded := false |}.
Definition confirmed_heap : Heap :=
  update_cells (fun c => (mark_admitted c).2) SampleIntake.token
    (update_cells (fun c => (set_durable_window_id 5 c).2) SampleIntake.token
      (update_cells (fun c => (confirm c).2) SampleIntake.token (heap SampleIntake.world))).
Definition state : PipelineState := {|
  ps_db := []; ps_world := with_heap confirmed_heap SampleIntake.world;
  ps_markets := market_registry_default |}.
Definition result_state := process_and_record_batch config batch state.
End SamplePipeline.
#[local] Existing Instance Hexish.codec.
#[local] Existing Instance SampleNormalize.sha.
#[local] Existing Instance SampleNormalize.json.
#[local] Existing Instance SamplePipeline.keys_database.

Lemma processed_batch_settles_witness :
  (forall i, unsettled (heap (ps_world SamplePipeline.result_state.2)) i = 0) /\
  unsettled (heap (ps_world SamplePipeline.state)) (tok_cells SampleIntake.token) = 1 /\
  SamplePipeline.result_state.1 = Ok 1.
Proof.
  split; [|split; vm_compute; reflexivity].
  pose proof (processed_batch_settles (fun _ _ => 0)
    ltac:(by intros db w db' w' i ->%SamplePipeline.world_kept) ltac:(done)
    SamplePipeline.config SamplePipeline.batch SamplePipeline.state eq_refl) as H.
  unfold SamplePipeline.result_state. destruct (process_and_record_batch _ _ _) as [r st'].
  apply H. intros i. rewrite Z.add_0_r.
  change (pb_window_tokens SamplePipeline.batch) with [SampleIntake.token].
  change (heap (ps_world SamplePipeline.state)) with (<[tok_cells SampleIntake.token :=
    cells_of SamplePipeline.confirmed_heap SampleIntake.token]> (∅ : Heap)).
  rewrite owed_cons, owed_nil. unfold unsettled.
  destruct (Nat.eqb_spec (tok_cells SampleIntake.token) i) as [<-|Hne].
  - rewrite lookup_total_insert_eq. vm_compute. reflexivity.
  - by rewrite lookup_total_insert_ne.
Defined.

Lemma processed_windows_are_durable_witness :
  windows_numbered SamplePipeline.result_state.2 /\
  was_confirmed (cells_of (heap (ps_world SamplePipeline.result_state.2)) SampleIntake.token) = true.
Proof.
  split; [|vm_compute; reflexivity].
  refine (proj1 (processed_windows_are_durable SamplePipeline.alone SamplePipeline.config
    SamplePipeline.batch SamplePipeline.state 1 SamplePipeline.result_state.2 _ _)).
  - intros i. unfold numbered.
    change (heap (ps_world SamplePipeline.state)) with (<[tok_cells SampleIntake.token :=
      cells_of SamplePipeline.confirmed_heap SampleIntake.token]> (∅ : Heap)).
    destruct (decide (tok_cells SampleIntake.token = i)) as [<-|Hne].
    + rewrite lookup_total_insert_eq. intros _. vm_compute. by eexists.
    + by rewrite lookup_total_insert_ne.
  - vm_compute. reflexivity.
Defined.

Lemma complete_window_has_its_evidence_witness :
  tc_incomplete_reason (cells_of (heap (ps_world SamplePipeline.result_state.2)) SampleIntake.token)
    = WINDOW_COMPLETE /\
  exists d e, decode_batch_events SamplePipeline.batch PumpP = Ok d /\ dbt_events d = [e] /\
    SamplePipeline.stored (ps_db SamplePipeline.result_state.2) (evidence_key SamplePipeline.config e).
Proof.
  split; [vm_compute; reflexivity|].
  destruct (complete_window_has_its_evidence SamplePipeline.stored SamplePipeline.stores
    SamplePipeline.alone SamplePipeline.config SamplePipeline.batch SamplePipeline.state 1
    SamplePipeline.result_state.2 SampleIntake.token) as [_ H].
  - vm_compute. reflexivity.
  - left.
  - vm_compute. reflexivity.
  - destruct (H PumpP) as (d & Hd & _ & Hs); [left|]. vm_compute in Hd. injection Hd as <-.
    eexists _, _. split_and!; [vm_compute; reflexivity|reflexivity|]. apply Hs; [left|reflexivity|].
    vm_compute. reflexivity.
Defined.

Lemma processor_errors_are_external_witness :
  market_registry_ok (ps_markets SamplePipeline.result_state.2).
Proof.
  pose proof (processor_errors_are_external SamplePipeline.config SamplePipeline.batch
    SamplePipeline.state (rtc_refl _ _)) as H. unfold SamplePipeline.result_state.
  destruct (process_and_record_batch _ _ _) as [[n|e] st'] eqn:E; [exact H|].
  vm_compute in E. discriminate E.
Defined.
