(* ===== verification/StreamControl.v ===== *)
(** [apps/server/src/jobs/pipeline.rs]: the configuration of the stream, the loop
    that watches its tasks and publishes its status, and the supervised restarts
    around it; with [bind_network] of [network_binding.rs].

    The inputs of the loop (updates of the sources, of the discovery reads, tasks
    that end, the cancellation) are a list of events in the order the loop takes
    them; before each the other tasks move the window registry. *)
From S2P Require Import Prelude.
From S2P Require Import RustStr.
From S2P Require Import Domain.
From S2P Require Import WindowToken.
From S2P Require Import WindowRegistry.
From S2P Require Import ApiContracts.
From S2P Require Import PersistenceModel.
From S2P Require Import Config.
From S2P Require Import SettingsStore.
From S2P Require Import Retention.
From S2P Require Import Finalizer.
From S2P Require Import RpcModel.
From S2P Require Import DiscoveryRpc.
From S2P Require Import Normalization.
From S2P Require Import Pipeline.

(** Milliseconds. *)
Definition PIPELINE_RESTART_INITIAL_DELAY : Z := 1000.
Definition PIPELINE_RESTART_MAX_DELAY : Z := 30000.
Definition DISCOVERY_SIGNATURE_RETENTION_MARGIN : Z := 11000.
Definition DISCOVERY_RPC_FAILURES_BEFORE_DEGRADED : Z := 3.
Definition SOLANA_MAINNET_GENESIS_HASH : string := "5eykt4UsFv8P8NJdTREpY1vzqKqZKvdpKuc147dw2N9d".
Definition SOLANA_DEVNET_GENESIS_HASH : string := "EtWTRABZaYq6iMfeYKouRu166VU2xqa1wcaWoxPkrZBG".

(** ** Configuration *)
Record CollectorSettings := {
  ce_network : Network; ce_commitment : Commitment; ce_reconnect_delay : Z; ce_request_timeout : Z;
  ce_rpc_max_in_flight : Z; ce_notification_processing_capacity : Z; ce_subscription_idle_timeout : Z;
  ce_maximum_discovery_age : Z; ce_observation_window_duration : Z;
}.
(** All the fields of [PipelineConfig]; those a batch is processed with are
    [Pipeline.PipelineConfig]. *)
Record StreamConfig := {
  sc_http_url : string; sc_ws_url : string; sc_collector : CollectorSettings;
  sc_maintenance : MaintenanceRuntimeConfig; sc_queue_capacity : Z; sc_maximum_active_windows : Z;
  sc_discovery_rpc_requests_per_second : Z; sc_discovery_rpc_rate_limit_cooldown : Z;
  sc_prefilter_revision : Z; sc_prefilter_values : PrefilterDefaults; sc_collector_run_id : string;
}.

(** [From<&Config>]: [None] is the panic of [prefilter_defaults]. *)
Definition stream_config_of (c : Config) : option StreamConfig :=
  values ← prefilter_defaults c;
  Some {|
    sc_http_url := cf_solana_rpc_http_url c; sc_ws_url := cf_solana_rpc_ws_url c;
    sc_collector := {|
      ce_network := cf_solana_network c; ce_commitment := cf_solana_commitment c;
      ce_reconnect_delay := cf_solana_reconnect_delay c; ce_request_timeout := cf_solana_request_timeout c;
      ce_rpc_max_in_flight := cf_solana_rpc_max_in_flight c;
      ce_notification_processing_capacity := cf_collector_queue_capacity c;
      ce_subscription_idle_timeout := cf_solana_subscription_idle_timeout c;
      ce_maximum_discovery_age := cf_discovery_max_event_age c;
      ce_observation_window_duration := cf_discovery_observation_window c |};
    sc_maintenance := {|
      mc_terminal_history_retention := cf_retention_terminal_history c;
      mc_projection_event_retention := cf_retention_projection_events c;
      mc_quarantine_retention := cf_retention_quarantine c; mc_interval := cf_retention_interval c;
      mc_batch_size := cf_retention_batch_size c; mc_database_max_bytes := cf_database_max_bytes c |};
    sc_queue_capacity := cf_collector_queue_capacity c;
    sc_maximum_active_windows := cf_discovery_max_active_windows c;
    sc_discovery_rpc_requests_per_second := cf_solana_discovery_rpc_requests_per_second c;
    sc_discovery_rpc_rate_limit_cooldown := cf_solana_discovery_rpc_rate_limit_cooldown c;
    sc_prefilter_revision := 1; sc_prefilter_values := values; sc_collector_run_id := "" |}.

(** A [u32] fits a [usize]. *)
Definition with_prefilter_defaults (config : StreamConfig) (stored : StoredPrefilterDefaults) : StreamConfig :=
  let values := sp_values stored in
  let collector := sc_collector config in {|
    sc_http_url := sc_http_url config; sc_ws_url := sc_ws_url config;
    sc_collector := {|
      ce_network := ce_network collector; ce_commitment := ce_commitment collector;
      ce_reconnect_delay := ce_reconnect_delay collector; ce_request_timeout := pd_rpc_request_timeout_ms values;
      ce_rpc_max_in_flight := pd_rpc_max_in_flight values;
      ce_notification_processing_capacity := ce_notification_processing_capacity collector;
      ce_subscription_idle_timeout := ce_subscription_idle_timeout collector;
      ce_maximum_discovery_age := pd_max_event_age_ms values;
      ce_observation_window_duration := pd_observation_window_ms values |};
    sc_maintenance := sc_maintenance config; sc_queue_capacity := sc_queue_capacity config;
    sc_maximum_active_windows := pd_max_active_windows values;
    sc_discovery_rpc_requests_per_second := pd_rpc_requests_per_second values;
    sc_discovery_rpc_rate_limit_cooldown := pd_rpc_rate_limit_cooldown_ms values;
    sc_prefilter_revision := sp_revision stored; sc_prefilter_values := values;
    sc_collector_run_id := sc_collector_run_id config |}.

(** [DiscoveryRpcGate::new]: [None] is a failed assertion.  Nanoseconds. *)
Record DiscoveryRpcGate := {
  dg_permits : Z; dg_request_interval : Z; dg_rate_limit_cooldown : Z;
  dg_pacing : PacingState; dg_signatures : RecentSignatures;
}.
Definition gate_new (maximum_in_flight requests_per_second rate_limit_cooldown signature_retention : Z)
    : option DiscoveryRpcGate :=
  if (0 <? maximum_in_flight) && (0 <? requests_per_second) && negb (signature_retention =? 0) then
    Some {| dg_permits := maximum_in_flight; dg_request_interval := request_interval requests_per_second;
            dg_rate_limit_cooldown := rate_limit_cooldown; dg_pacing := pacing_default;
            dg_signatures := recent_signatures signature_retention |}
  else None.
Definition discovery_rpc_gate (config : StreamConfig) : option DiscoveryRpcGate :=
  gate_new (ce_rpc_max_in_flight (sc_collector config)) (sc_discovery_rpc_requests_per_second config)
    (1000000 * sc_discovery_rpc_rate_limit_cooldown config)
    (1000000 * (ce_maximum_discovery_age (sc_collector config) + DISCOVERY_SIGNATURE_RETENTION_MARGIN)).

(** ** The loop over the tasks *)
Inductive SourceConnectionState := SourceConnecting | SourceReady | SourceDisconnectedState.
Inductive DiscoveryRpcHealthUpdate := DiscoveryFailed | DiscoveryRateLimited | DiscoverySuccessful.
#[export] Instance DiscoveryRpcHealthUpdate_eq_dec : EqDecision DiscoveryRpcHealthUpdate.
Proof. solve_decision. Defined.

(** [PipelineError]; [SrPipeline] is what a batch raises. *)
Inductive StreamError {XE JE : Type} :=
| SrRpc (e : RpcError)
| SrPipeline (e : PipelineError XE JE)
| SrCollector
| SrMaintenance (e : MaintenanceError XE JE)
| SrNetworkVerification (e : RpcError)
| SrNetworkGenesisMismatch (network : Network) (expected actual : string)
| SrUnexpectedTaskExit (name : string)
| SrJoin (text : string)
| SrQualification (e : QualificationWorkerError XE JE).
#[global] Arguments StreamError : clear implicits.

Section Control.
Context {XE JE : Type}.
Abbreviation Error := (StreamError XE JE).

(** What [join_next] gives: the set empty, a task that failed to join, or the
    name of the task that ended and its result. *)
Inductive Joined := JoinedNone | JoinedError (text : string) | JoinedTask (name : string) (r : result Error unit).

Inductive ControlEvent :=
| EvCancelled
| EvConnection (update : option (SourceProgram * SourceConnectionState))
| EvDiscoveryRpc (update : option DiscoveryRpcHealthUpdate)
| EvJoined (joined : Joined).

Record Control := {
  ct_ready_sources : gset SourceProgram;
  ct_sources_ready_once : gset SourceProgram;
  ct_connection_failed : bool;
  ct_consecutive_discovery_rpc_failures : Z;
  (** The last value sent on the status channel. *)
  ct_status : StreamStatus;
  ct_world : World;
}.
(** The locals when the loop begins. *)
Definition control_init (status : StreamStatus) (w : World) : Control := {|
  ct_ready_sources := ∅; ct_sources_ready_once := ∅; ct_connection_failed := false;
  ct_consecutive_discovery_rpc_failures := 0; ct_status := status; ct_world := w |}.

Definition set_world (w : World) (c : Control) : Control := {|
  ct_ready_sources := ct_ready_sources c; ct_sources_ready_once := ct_sources_ready_once c;
  ct_connection_failed := ct_connection_failed c;
  ct_consecutive_discovery_rpc_failures := ct_consecutive_discovery_rpc_failures c;
  ct_status := ct_status c; ct_world := w |}.
Definition send_status (status : StreamStatus) (c : Control) : Control := {|
  ct_ready_sources := ct_ready_sources c; ct_sources_ready_once := ct_sources_ready_once c;
  ct_connection_failed := ct_connection_failed c;
  ct_consecutive_discovery_rpc_failures := ct_consecutive_discovery_rpc_failures c;
  ct_status := status; ct_world := ct_world c |}.

Definition stream_status (all_sources_ready connection_failed : bool) (consecutive_discovery_rpc_failures : Z)
    : StreamStatus :=
  let discovery_rpc_degraded := DISCOVERY_RPC_FAILURES_BEFORE_DEGRADED <=? consecutive_discovery_rpc_failures in
  if all_sources_ready && negb discovery_rpc_degraded then Running
  else if connection_failed || discovery_rpc_degraded then Degraded
  else Starting.

Definition all_sources_ready (ready : gset SourceProgram) : bool :=
  bool_decide (Pump ∈ ready) && bool_decide (PumpSwap ∈ ready).

(** The arm of a connection update. *)
Definition on_connection (p : SourceProgram) (state : SourceConnectionState) (c : Control) : Control :=
  let ready := match state with
               | SourceReady => {[p]} ∪ ct_ready_sources c
               | SourceDisconnectedState | SourceConnecting => ct_ready_sources c ∖ {[p]}
               end in
  let ready_once := match state with SourceReady => {[p]} ∪ ct_sources_ready_once c | _ => ct_sources_ready_once c end in
  let failed := match state with
                | SourceReady => ct_connection_failed c
                | SourceDisconnectedState => true
                | SourceConnecting => if bool_decide (p ∈ ready_once) then true else ct_connection_failed c
                end in
  let w := match state with
           | SourceDisconnectedState => (cancel_source_confirmed (ct_world c) p SourceDisconnected).2
           | _ => ct_world c
           end in
  let failed := if all_sources_ready ready then false else failed in
  {| ct_ready_sources := ready; ct_sources_ready_once := ready_once; ct_connection_failed := failed;
     ct_consecutive_discovery_rpc_failures := ct_consecutive_discovery_rpc_failures c;
     ct_status := stream_status (all_sources_ready ready) failed (ct_consecutive_discovery_rpc_failures c);
     ct_world := w |}.

(** The arm of a discovery-read update. *)
Definition on_discovery_rpc (update : DiscoveryRpcHealthUpdate) (c : Control) : Control :=
  let failures := match update with
                  | DiscoverySuccessful => 0
                  | DiscoveryFailed => saturating_add_u 32 (ct_consecutive_discovery_rpc_failures c) 1
                  | DiscoveryRateLimited => DISCOVERY_RPC_FAILURES_BEFORE_DEGRADED
                  end in
  {| ct_ready_sources := ct_ready_sources c; ct_sources_ready_once := ct_sources_ready_once c;
     ct_connection_failed := ct_connection_failed c; ct_consecutive_discovery_rpc_failures := failures;
     ct_status := stream_status (all_sources_ready (ct_ready_sources c)) (ct_connection_failed c) failures;
     ct_world := ct_world c |}.

Definition joined_error (joined : Joined) : Error :=
  match joined with
  | JoinedTask name (Ok _) => SrUnexpectedTaskExit name
  | JoinedTask _ (Err e) => e
  | JoinedError text => SrJoin text
  | JoinedNone => SrUnexpectedTaskExit "task-set"
  end.

(** [finish_with_error]: the other tasks are cancelled and awaited. *)
Definition finish_with_error (e : Error) (c : Control) : result Error unit * Control :=
  (Err e, send_status Degraded c).

(** One turn of the loop: it goes on, or the function returns. *)
Definition control_step (event : ControlEvent) (c : Control) : Control + result Error unit * Control :=
  match event with
  | EvCancelled =>
      let c := send_status Stopping c in
      inr (Ok tt, set_world (cancel_all_confirmed (ct_world c) StreamStopped).2 c)
  | EvConnection None => inr (finish_with_error (SrUnexpectedTaskExit "source-status-channel") c)
  | EvConnection (Some (p, state)) => inl (on_connection p state c)
  | EvDiscoveryRpc None => inr (finish_with_error (SrUnexpectedTaskExit "discovery-rpc-health-channel") c)
  | EvDiscoveryRpc (Some update) => inl (on_discovery_rpc update c)
  | EvJoined joined => inr (finish_with_error (joined_error joined) c)
  end.

(** [run_pipeline] on the events, each with what the other tasks did to the
    registry before it; no result while the events last. *)
Fixpoint run_pipeline (events : list (ControlEvent * (World -> World))) (c : Control)
    : option (result Error unit) * Control :=
  match events with
  | [] => (None, c)
  | (event, others) :: events =>
      match control_step event (set_world (others (ct_world c)) c) with
      | inl c => run_pipeline events c
      | inr (r, c) => (Some r, c)
      end
  end.
End Control.

(** ** One attempt *)
Section Attempt.
Context {XE JE : Type}.
Abbreviation Error := (StreamError XE JE).
Abbreviation persistence A := (result (PersistenceError XE JE) A).

(** [network_binding.rs]: the row of the binding.  The insertion that conflicts
    does nothing; a failure rolls it back. *)
Definition bind_network (requested : Network) (row : option string) : persistence bool * option string :=
  let bound := default (network_name requested) row in
  match parse_network (XE:=XE) (JE:=JE) bound with
  | Err e => (Err e, row)
  | Ok bound_network =>
      if bool_decide (bound_network = requested) then (Ok (bool_decide (row = None)), Some bound)
      else (Err (PeDatabaseNetworkMismatch bound_network requested), row)
  end.
Definition bound_network (row : option string) : persistence (option Network) :=
  match row with Some value => Some <$> parse_network value | None => Ok None end.

Definition expected_genesis_hash (network : Network) : string :=
  match network with SolanaMainnet => SOLANA_MAINNET_GENESIS_HASH | SolanaDevnet => SOLANA_DEVNET_GENESIS_HASH end.
Definition verify_rpc_network (genesis_hash : result RpcError string) (network : Network) : result Error unit :=
  actual ← map_err SrNetworkVerification genesis_hash;
  guard_err (negb (String.eqb actual (expected_genesis_hash network)))
    (SrNetworkGenesisMismatch network (expected_genesis_hash network) actual).

Fixpoint register_pools (r : MarketRegistry) (pools : list StoredPumpSwapPool)
    : result (NormalizationError JE) MarketRegistry :=
  match pools with
  | [] => Ok r
  | pool :: pools =>
      '(_, r) ← register_pump_swap_pool r (pp_network pool) (pp_pool_address pool) (pp_base_mint pool) (pp_quote_mint pool);
      register_pools r pools
  end.
Definition hydrate_market_registry (markets : persistence (list MarketIdentity))
    (pools : persistence (list StoredPumpSwapPool)) : result Error MarketRegistry :=
  markets ← map_err (fun e => SrPipeline (PlPersistence e)) markets;
  let '(registry, registered) := register_all (JE:=JE) market_registry_default
    (List.filter (fun m => bool_decide (mi_venue m = PumpBondingCurve)) markets) in
  _ ← map_err (fun e => SrPipeline (PlNormalization e)) registered;
  pools ← map_err (fun e => SrPipeline (PlPersistence e)) pools;
  map_err (fun e => SrPipeline (PlNormalization e)) (register_pools registry pools).

(** What an attempt meets: the answers of the clients and of the database, what
    its maintenance cycle came to ([Retention.run_maintenance_cycle]), whether
    the cancellation is seen after it, and the events of the loop. *)
Record AttemptInput := {
  ai_http : result RpcError unit;
  ai_genesis_hash : result RpcError string;
  ai_maintenance : result (MaintenanceError XE JE) RetentionPruneResult;
  ai_cancelled : bool;
  ai_pubsub : result RpcError unit;
  ai_markets : persistence (list MarketIdentity);
  ai_pools : persistence (list StoredPumpSwapPool);
  ai_events : MarketRegistry -> list (ControlEvent (XE:=XE) (JE:=JE) * (World -> World));
}.

(** What can be seen of the supervised pipeline. *)
Inductive Observed := SentStatus (s : StreamStatus) | LaunchedTasks (status : StreamStatus) | Waited (delay_ms : Z).

(** The start-up of an attempt: an error, an early return, or the registry its
    tasks are launched with. *)
Definition prepare_attempt (network : Network) (input : AttemptInput) (row : option string)
    : result Error (option MarketRegistry) * option string :=
  match map_err SrRpc (ai_http input), verify_rpc_network (ai_genesis_hash input) network with
  | Err e, _ => (Err e, row)
  | Ok _, Err e => (Err e, row)
  | Ok _, Ok _ =>
      let '(bound, row) := bind_network network row in
      (_ ← map_err (fun e => SrPipeline (PlPersistence e)) bound;
       _ ← map_err SrMaintenance (ai_maintenance input);
       if ai_cancelled input then Ok None
       else _ ← map_err SrRpc (ai_pubsub input);
            Some <$> hydrate_market_registry (ai_markets input) (ai_pools input), row)
  end.

(** ** The supervised restarts *)
Definition pipeline_error_is_retryable (e : Error) : bool :=
  match e with
  | SrMaintenance (MeStorageLimitReached _ _) | SrNetworkGenesisMismatch _ _ _ => false
  | _ => true
  end.
Definition next_restart_delay (current : Z) : Z := Z.min (current * 2) PIPELINE_RESTART_MAX_DELAY.

(** A turn of the restart loop: whether the cancellation is seen at its head,
    after the attempt, and during the wait. *)
Record Turn := { tn_cancelled_before : bool; tn_input : AttemptInput; tn_cancelled_after : bool; tn_cancelled_waiting : bool }.

(** The observations of [run_pipeline] are those of its last status only: the
    channel keeps the last value. *)
Definition run_attempt (network : Network) (input : AttemptInput) (windows : World) (status : StreamStatus) (row : option string)
    : option (result Error unit) * list Observed * StreamStatus * option string :=
  match prepare_attempt network input row with
  | (Err e, row) => (Some (Err e), [], status, row)
  | (Ok None, row) => (Some (Ok tt), [], status, row)
  | (Ok (Some markets), row) =>
      let '(r, c) := run_pipeline (ai_events input markets) (control_init status windows) in
      (r, [LaunchedTasks status; SentStatus (ct_status c)], ct_status c, row)
  end.

(** [run_supervised_pipeline] on its turns: no result while they last, or while
    the tasks of an attempt run.  [windows] is the empty registry. *)
Fixpoint run_supervised_pipeline (network : Network) (windows : World) (turns : list Turn) (restart_delay : Z)
    (first_attempt : bool) (row : option string)
    : option (result Error unit) * list Observed * option string :=
  match turns with
  | [] => (None, [], row)
  | turn :: turns =>
      if tn_cancelled_before turn then (Some (Ok tt), [], row)
      else
        let status := if first_attempt then Starting else Degraded in
        let '(r, seen, _, row) := run_attempt network (tn_input turn) windows status row in
        let seen := SentStatus status :: seen in
        match r with
        | None => (None, seen, row)
        | Some r =>
            if tn_cancelled_after turn then (Some (Ok tt), seen, row)
            else
              let error := match r with Ok _ => SrUnexpectedTaskExit "pipeline-attempt" | Err e => e end in
              if negb (pipeline_error_is_retryable error) then
                (Some (Err error), seen ++ [SentStatus ErrorStatus], row)
              else
                let seen := seen ++ [SentStatus Degraded] in
                if tn_cancelled_waiting turn then (Some (Ok tt), seen, row)
                else
                  let '(r, rest, row) :=
                    run_supervised_pipeline network windows turns (next_restart_delay restart_delay) false row in
                  (r, seen ++ Waited restart_delay :: rest, row)
        end
  end.
End Attempt.

(** ** The status as a function of the history *)
Section Status.
Context {XE JE : Type}.
Abbreviation Event := (ControlEvent (XE:=XE) (JE:=JE)).
Implicit Types (h : list Event) (p : SourceProgram).

Definition connection_of p (e : Event) : option SourceConnectionState :=
  match e with EvConnection (Some (q, s)) => if bool_decide (q = p) then Some s else None | _ => None end.
Definition health_of (e : Event) : option DiscoveryRpcHealthUpdate :=
  match e with EvDiscoveryRpc u => u | _ => None end.

(** The last word of each source is that it is ready. *)
Definition source_ready p h : Prop := last (omap (connection_of p) h) = Some SourceReady.
Definition both_ready h : Prop := source_ready Pump h /\ source_ready PumpSwap h.
(** A source failed: it disconnected, or it connects again after it was ready. *)
Definition failing h (e : Event) : Prop :=
  exists p, connection_of p e = Some SourceDisconnectedState \/
    (connection_of p e = Some SourceConnecting /\ SourceReady ∈ omap (connection_of p) h).
(** ... and since then the sources were never ready together. *)
Definition connection_failing h : Prop :=
  exists h1 e h2, h = h1 ++ e :: h2 /\ failing h1 e /\
    forall k k', h2 = k ++ k' -> ~ both_ready (h1 ++ e :: k).
(** The health of the discovery reads since the last that succeeded. *)
Definition since_success (l : list DiscoveryRpcHealthUpdate) : list DiscoveryRpcHealthUpdate :=
  fold_left (fun acc x => match x with DiscoverySuccessful => [] | _ => acc ++ [x] end) l [].
Definition rpc_failing h : Prop :=
  let since := since_success (omap health_of h) in
  DiscoveryRateLimited ∈ since \/ (3 <= length since)%nat.

Lemma source_ready_snoc p h e :
  source_ready p (h ++ [e]) <->
  match connection_of p e with Some s => s = SourceReady | None => source_ready p h end.
Proof.
  unfold source_ready. rewrite omap_app. simpl. destruct (connection_of p e) as [s|]; simpl.
  - rewrite last_snoc. naive_solver.
  - by rewrite app_nil_r.
Qed.

Lemma connection_failing_not_ready h : connection_failing h -> ~ both_ready h.
Proof. intros (h1 & e & h2 & -> & _ & Hk). apply (Hk h2 []). by rewrite app_nil_r. Qed.

Lemma connection_failing_snoc h e :
  connection_failing (h ++ [e]) <-> ~ both_ready (h ++ [e]) /\ (failing h e \/ connection_failing h).
Proof.
  split.
  - intros Hf. split; [by apply connection_failing_not_ready|].
    destruct Hf as (h1 & x & h2 & Heq & Hx & Hk). destruct h2 as [|y h2' _] using rev_ind.
    + apply app_inj_tail in Heq as [-> ->]. by left.
    + rewrite app_comm_cons, app_assoc in Heq. apply app_inj_tail in Heq as [-> ->]. right.
      exists h1, x, h2'. split; [done|]. split; [done|]. intros k k' ->. apply (Hk k (k' ++ [y])). by rewrite app_assoc.
  - intros [Hn [Hf|(h1 & x & h2 & -> & Hx & Hk)]].
    + exists h, e, []. split; [done|]. split; [done|]. intros k k' Hnil. symmetry in Hnil.
      apply app_nil in Hnil as [-> ->]. done.
    + exists h1, x, (h2 ++ [e]). split; [by rewrite <- app_assoc|]. split; [done|]. intros k k' Heq.
      destruct k' as [|y k'' _] using rev_ind.
      * rewrite app_nil_r in Heq. subst k. rewrite <- app_assoc in Hn. done.
      * rewrite app_assoc in Heq. apply app_inj_tail in Heq as [Heq _]. by apply (Hk k k'').
Qed.

Lemma since_success_snoc l x :
  since_success (l ++ [x]) = match x with DiscoverySuccessful => [] | _ => since_success l ++ [x] end.
Proof. unfold since_success. rewrite fold_left_app. by destruct x. Qed.
Lemma since_success_failures l : DiscoverySuccessful ∉ since_success l.
Proof.
  induction l as [|x l IH] using rev_ind; [by apply not_elem_of_nil|].
  rewrite since_success_snoc. destruct x; rewrite ?elem_of_app, ?list_elem_of_singleton; [naive_solver..|].
  by apply not_elem_of_nil.
Qed.

(** The state of the loop after a history. *)
Record reflects (c : Control) h : Prop := {
  rf_ready p : p ∈ ct_ready_sources c <-> source_ready p h;
  rf_once p : p ∈ ct_sources_ready_once c <-> SourceReady ∈ omap (connection_of p) h;
  rf_failed : ct_connection_failed c = true <-> connection_failing h;
  rf_failures : 0 <= ct_consecutive_discovery_rpc_failures c <= u32_max;
  rf_rpc : 3 <= ct_consecutive_discovery_rpc_failures c <-> rpc_failing h;
  rf_count : let since := since_success (omap health_of h) in DiscoveryRateLimited ∉ since ->
    ct_consecutive_discovery_rpc_failures c = Z.min (Z.of_nat (length since)) u32_max;
}.

Lemma reflects_init status w : reflects (control_init status w) [].
Proof.
  split; simpl; try done.
  - intros p. rewrite elem_of_nil. set_solver.
  - split; [done|]. intros (h1 & e & h2 & Heq & _). by destruct h1.
  - split; [lia|]. unfold rpc_failing, since_success. simpl. intros [Hin|Hl]; [by apply not_elem_of_nil in Hin|lia].
Qed.

Lemma reflects_world w c h : reflects c h -> reflects (set_world w c) h.
Proof. by intros []. Qed.

Lemma all_sources_ready_iff ready h :
  (forall p, p ∈ ready <-> source_ready p h) -> all_sources_ready ready = true <-> both_ready h.
Proof. intros H. unfold all_sources_ready, both_ready. by rewrite andb_true_iff, !bool_decide_eq_true, !H. Qed.

Lemma connection_of_same p s : connection_of p (EvConnection (Some (p, s)) : Event) = Some s.
Proof. simpl. by rewrite bool_decide_eq_true_2. Qed.
Lemma connection_of_other p q s : q <> p -> connection_of p (EvConnection (Some (q, s)) : Event) = None.
Proof. intros H. simpl. by rewrite bool_decide_eq_false_2. Qed.

Lemma failing_connection h p s :
  failing h (EvConnection (Some (p, s))) <->
  s = SourceDisconnectedState \/ (s = SourceConnecting /\ SourceReady ∈ omap (connection_of p) h).
Proof.
  unfold failing. split.
  - intros (q & Hq). destruct (decide (p = q)) as [<-|Hne].
    + rewrite connection_of_same in Hq. naive_solver.
    + rewrite connection_of_other in Hq by done. naive_solver.
  - intros H. exists p. rewrite connection_of_same. naive_solver.
Qed.

Lemma reflects_connection c h p s :
  reflects c h -> reflects (on_connection p s c) (h ++ [EvConnection (Some (p, s))]).
Proof.
  intros [Hready Honce Hfailed Hrange Hrpc Hcount]. set (e := EvConnection (Some (p, s)) : Event).
  assert (omap health_of (h ++ [e]) = omap health_of h) as Hhealth by (rewrite omap_app; simpl; apply app_nil_r).
  assert (forall q, q ∈ ct_ready_sources (on_connection p s c) <-> source_ready q (h ++ [e])) as Hready'.
  { intros q. rewrite source_ready_snoc. destruct (decide (p = q)) as [<-|Hne].
    - unfold e. rewrite connection_of_same. destruct s; simpl; split; try done; set_solver.
    - unfold e. rewrite connection_of_other by done. rewrite <- Hready. destruct s; simpl; set_solver. }
  split; [done| | |done| |].
  - intros q. rewrite omap_app, elem_of_app. destruct (decide (p = q)) as [<-|Hne].
    + assert (omap (connection_of p) [e] = [s]) as -> by (unfold e; simpl; by rewrite bool_decide_eq_true_2).
      rewrite list_elem_of_singleton, <- Honce. destruct s; simpl; set_solver.
    + assert (omap (connection_of q) [e] = []) as -> by (unfold e; simpl; by rewrite bool_decide_eq_false_2).
      rewrite <- Honce, elem_of_nil. destruct s; simpl; set_solver.
  - rewrite connection_failing_snoc. unfold e at 2. rewrite failing_connection, <- Hfailed, <- Honce.
    rewrite <- (all_sources_ready_iff _ _ Hready'). cbn [on_connection ct_connection_failed ct_ready_sources].
    destruct (all_sources_ready _); [by split; [|intros [[]]]|]. destruct s.
    + change (match SourceConnecting with SourceReady => _ | _ => ct_sources_ready_once c end) with (ct_sources_ready_once c).
      case_bool_decide as Hin; [split; [intros _; split; [done|left; by right]|done]|].
      split; [intros Hf; split; [done|by right]|by intros [_ [[?|[_ ?]]|?]]].
    + split; [intros Hf; split; [done|by right]|by intros [_ [[?|[? _]]|?]]].
    + split; [intros _; split; [done|left; by left]|done].
  - unfold rpc_failing. by rewrite Hhealth.
  - by rewrite Hhealth.
Qed.

Lemma reflects_discovery_rpc c h u :
  reflects c h -> reflects (on_discovery_rpc u c) (h ++ [EvDiscoveryRpc (Some u)]).
Proof.
  intros [Hready Honce Hfailed Hrange Hrpc Hcount]. set (e := EvDiscoveryRpc (Some u) : Event).
  assert (forall q, omap (connection_of q) (h ++ [e]) = omap (connection_of q) h) as Hconn
    by (intros q; rewrite omap_app; simpl; apply app_nil_r).
  assert (forall q, source_ready q (h ++ [e]) <-> source_ready q h) as Hsame by (intros q; unfold source_ready; by rewrite Hconn).
  assert (since_success (omap health_of (h ++ [e])) =
          match u with DiscoverySuccessful => [] | _ => since_success (omap health_of h) ++ [u] end) as Hsince
    by (rewrite omap_app; simpl; rewrite since_success_snoc; by destruct u).
  unfold saturating_add_u. split.
  - intros q. rewrite Hsame. apply Hready.
  - intros q. rewrite Hconn. apply Honce.
  - cbn [on_discovery_rpc ct_connection_failed]. rewrite connection_failing_snoc, Hfailed. split.
    + intros Hf. split; [|by right]. apply connection_failing_not_ready in Hf. unfold both_ready. by rewrite !Hsame.
    + intros [_ [(q & [Hq|[Hq _]])|Hf]]; done.
  - destruct u; simpl; unfold saturating_add_u, DISCOVERY_RPC_FAILURES_BEFORE_DEGRADED; unfold_ints; lia.
  - unfold rpc_failing. rewrite Hsince. pose proof (since_success_failures (omap health_of h)) as Hns. destruct u; simpl.
    + unfold saturating_add_u. rewrite elem_of_app, list_elem_of_singleton, length_app. simpl.
      destruct (decide (DiscoveryRateLimited ∈ since_success (omap health_of h))) as [Hin|Hn].
      * assert (3 <= ct_consecutive_discovery_rpc_failures c) by (apply Hrpc; by left).
        split; [intros _; left; by left|]. intros _. unfold_ints. lia.
      * rewrite (Hcount Hn). split; [intros Hm; right; unfold_ints; lia|]. intros [[?|?]|Hl]; [done|done|].
        unfold_ints. lia.
    + split; [intros _; left; set_solver|]. unfold DISCOVERY_RPC_FAILURES_BEFORE_DEGRADED. lia.
    + split; [lia|]. intros [Hin|Hl]; [by apply not_elem_of_nil in Hin|lia].
  - cbv zeta. rewrite Hsince. destruct u; simpl.
    + rewrite elem_of_app, length_app. simpl. intros Hn. rewrite Hcount by tauto. unfold saturating_add_u. unfold_ints. lia.
    + set_solver.
    + intros _. unfold_ints. lia.
Qed.

Lemma run_reflects events c c' h :
  run_pipeline (XE:=XE) (JE:=JE) events c = (None, c') -> reflects c h -> reflects c' (h ++ events.*1).
Proof.
  revert c h. induction events as [|[e others] events IH]; intros c h; cbn [run_pipeline].
  { intros [= <-] Hr. by rewrite app_nil_r. }
  intros Hrun Hr. apply (reflects_world (others (ct_world c))) in Hr.
  change (reflects c' (h ++ [e] ++ events.*1)). rewrite app_assoc.
  destruct e as [|[[p s]|]|[u|]|j]; simpl in Hrun; try done; (eapply IH; [exact Hrun|]).
  - by apply reflects_connection.
  - by apply reflects_discovery_rpc.
Qed.

(** The status that is published after an update of the sources or of the
    discovery reads. *)
Lemma status_of_update e c c' :
  control_step (XE:=XE) (JE:=JE) e c = inl c' ->
  ct_status c' = stream_status (all_sources_ready (ct_ready_sources c')) (ct_connection_failed c')
                   (ct_consecutive_discovery_rpc_failures c').
Proof. destruct e as [|[[p s]|]|[u|]|j]; simpl; intros [= <-]; done. Qed.

Lemma run_status events c c' :
  run_pipeline (XE:=XE) (JE:=JE) events c = (None, c') -> events <> [] ->
  ct_status c' = stream_status (all_sources_ready (ct_ready_sources c')) (ct_connection_failed c')
                   (ct_consecutive_discovery_rpc_failures c').
Proof.
  revert c. induction events as [|[e others] events IH]; intros c Hrun Hne; [done|]. cbn [run_pipeline] in Hrun.
  destruct (control_step e _) as [c1|[r c1]] eqn:Hs; [|done]. destruct events as [|x events].
  - injection Hrun as <-. by eapply status_of_update.
  - by eapply IH.
Qed.

(** C32: The published status tells the history.  While the loop runs, after any
    sequence of updates the stream is reported running exactly when the last
    word of both sources is that they are ready and, since the last discovery
    read that succeeded, fewer than three failed and none was rate limited; it
    is degraded exactly when it is not running and the reads are failing or a
    source failed after which the sources were not ready together. *)
Theorem status_tells_history events status w c :
  run_pipeline (XE:=XE) (JE:=JE) events (control_init status w) = (None, c) -> events <> [] ->
  let h := events.*1 in
  (ct_status c = Running <-> both_ready h /\ ~ rpc_failing h) /\
  (ct_status c = Degraded <-> ~ (both_ready h /\ ~ rpc_failing h) /\ (connection_failing h \/ rpc_failing h)).
Proof.
  intros Hrun Hne. cbv zeta. pose proof (run_status _ _ _ Hrun Hne) as Hst.
  pose proof (run_reflects _ _ _ [] Hrun (reflects_init _ _)) as [Hready _ Hfailed _ Hrpc _]. cbn [app] in *.
  pose proof (all_sources_ready_iff _ _ Hready) as Hall. rewrite Hst. unfold stream_status.
  change DISCOVERY_RPC_FAILURES_BEFORE_DEGRADED with 3. rewrite <- Hall, <- Hfailed, <- Hrpc.
  destruct (all_sources_ready _), (ct_connection_failed c), (Z.leb_spec 3 (ct_consecutive_discovery_rpc_failures c));
    simpl; (split; split; intros Hx; try done; try (split; [naive_solver lia|]); naive_solver lia).
Qed.
End Status.

(** ** The restarts *)
Section Restarts.
Context {XE JE : Type}.
Abbreviation Error := (StreamError XE JE).
Abbreviation supervise := (run_supervised_pipeline (XE:=XE) (JE:=JE)).

Lemma bind_network_spec network row r row' :
  bind_network (XE:=XE) (JE:=JE) network row = (r, row') ->
  (forall b, r = Ok b -> exists bound, row' = Some bound /\ parse_network (XE:=XE) (JE:=JE) bound = Ok network) /\
  (forall bound, row = Some bound -> row' = row).
Proof.
  unfold bind_network. destruct row as [bound|]; simpl.
  - destruct (parse_network bound) as [n|e] eqn:Hp; [case_bool_decide as Hn|]; intros [= <- <-]; (split; [|done]);
      intros b Hb; try done. exists bound. by subst n.
  - rewrite parse_network_name. rewrite bool_decide_eq_true_2 by done. intros [= <- <-]. split; [|done].
    intros b _. exists (network_name network). split; [done|]. apply parse_network_name.
Qed.

(** What must hold for an attempt to launch its tasks. *)
Definition cleared (network : Network) (input : AttemptInput (XE:=XE) (JE:=JE)) : Prop :=
  ai_genesis_hash input = Ok (expected_genesis_hash network) /\ (exists pruned, ai_maintenance input = Ok pruned) /\
  ai_cancelled input = false /\ (exists markets, ai_markets input = Ok markets) /\ (exists pools, ai_pools input = Ok pools).

Lemma prepare_attempt_spec network input row r row' :
  prepare_attempt network input row = (r, row') ->
  (forall bound, row = Some bound -> row' = row) /\
  (forall markets, r = Ok (Some markets) -> cleared network input /\
     exists bound, row' = Some bound /\ parse_network (XE:=XE) (JE:=JE) bound = Ok network).
Proof.
  unfold prepare_attempt. destruct (ai_http input) as [[]|e]; simpl; [|intros [= <- <-]; by split].
  destruct (verify_rpc_network _ _) as [[]|e] eqn:Hv; [|intros [= <- <-]; by split].
  destruct (bind_network network row) as [bound row1] eqn:Hb. apply bind_network_spec in Hb as [Hok Hkeep].
  intros [= <- <-]. split; [done|]. intros markets H.
  destruct bound as [b|e]; simpl in H; [|done]. destruct (ai_maintenance input) as [pruned|e] eqn:Hm; simpl in H; [|done].
  destruct (ai_cancelled input) eqn:Hc; [done|]. destruct (ai_pubsub input) as [[]|e]; simpl in H; [|done].
  split; [|by eapply Hok]. unfold hydrate_market_registry in H.
  destruct (ai_markets input) as [ms|e] eqn:Hms; simpl in H; [|done].
  destruct (register_all _ _) as [registry [[]|e]]; simpl in H; [|done].
  destruct (ai_pools input) as [ps|e] eqn:Hps; simpl in H; [|done].
  split; [|split; [by exists pruned|split; [done|split; [by exists ms|by exists ps]]]].
  unfold verify_rpc_network in Hv. destruct (ai_genesis_hash input) as [actual|e]; simpl in Hv; [|done].
  destruct (String.eqb_spec actual (expected_genesis_hash network)) as [Heq|]; [by rewrite Heq|done].
Qed.

Lemma run_attempt_spec network input windows status row r seen status' row' :
  run_attempt network input windows status row = (r, seen, status', row') ->
  (forall bound, row = Some bound -> row' = row) /\
  (forall s, LaunchedTasks s ∈ seen -> s = status /\ cleared network input /\
     exists bound, row' = Some bound /\ parse_network (XE:=XE) (JE:=JE) bound = Ok network) /\
  (forall d, Waited d ∉ seen).
Proof.
  unfold run_attempt. destruct (prepare_attempt network input row) as [p row1] eqn:Hp.
  apply prepare_attempt_spec in Hp as [Hkeep Hok].
  destruct p as [[markets|]|e].
  - destruct (run_pipeline _ _) as [r' c]. intros [= <- <- <- <-]. split; [done|]. split.
    + intros s Hs. assert (s = status) as -> by set_solver. split; [done|]. by apply (Hok markets).
    + intros d. set_solver.
  - intros [= <- <- <- <-]. split; [done|]. split; intros ?; set_solver.
  - intros [= <- <- <- <-]. split; [done|]. split; intros ?; set_solver.
Qed.

(** C33: No task runs on an unverified network.  Whatever happens over the
    restarts, the tasks of an attempt are launched only if in that attempt the
    provider's genesis hash is that of the configured network, the database is
    bound to that network, and the maintenance cycle ended within the storage
    limit; and a database once bound keeps its network for ever. *)
Theorem tasks_need_verified_network network windows turns delay first row r seen row' :
  supervise network windows turns delay first row = (r, seen, row') ->
  (forall bound, row = Some bound -> row' = row) /\
  (forall s, LaunchedTasks s ∈ seen ->
     (exists turn, turn ∈ turns /\ cleared network (tn_input turn)) /\
     exists bound, row' = Some bound /\ parse_network (XE:=XE) (JE:=JE) bound = Ok network).
Proof.
  revert delay first row r seen row'. induction turns as [|turn turns IH]; intros delay first row r seen row'; simpl.
  { intros [= <- <- <-]. split; [done|]. intros s Hs. set_solver. }
  destruct (tn_cancelled_before turn); [intros [= <- <- <-]; split; [done|]; intros s Hs; set_solver|].
  destruct (run_attempt _ _ _ _ row) as [[[ra sa] st] row1] eqn:Ha. apply run_attempt_spec in Ha as (Hkeep & Hl & _).
  set (status := if first then Starting else Degraded) in *.
  assert (forall rest, (forall s, LaunchedTasks s ∉ rest) ->
    forall s, LaunchedTasks s ∈ SentStatus status :: (sa ++ rest) -> LaunchedTasks s ∈ sa) as Hin by (intros; set_solver).
  assert (forall rest, (forall s, LaunchedTasks s ∉ rest) -> forall s, LaunchedTasks s ∈ SentStatus status :: (sa ++ rest) ->
     (exists turn0, turn0 ∈ turn :: turns /\ cleared network (tn_input turn0)) /\
     exists bound, row1 = Some bound /\ parse_network (XE:=XE) (JE:=JE) bound = Ok network) as Hhere.
  { intros rest Hr s Hs. apply (Hin _ Hr), Hl in Hs as (_ & Hc & Hb). split; [|done]. exists turn. split; [by left|done]. }
  assert (forall s, LaunchedTasks s ∉ []) as Hnil by (intros s; apply not_elem_of_nil).
  destruct ra as [ra|].
  2: { intros [= <- <- <-]. split; [done|]. intros s Hs. apply (Hhere [] Hnil s). by rewrite app_nil_r. }
  destruct (tn_cancelled_after turn).
  { intros [= <- <- <-]. split; [done|]. intros s Hs. apply (Hhere [] Hnil s). by rewrite app_nil_r. }
  destruct (negb _). { intros [= <- <- <-]. split; [done|]. intros s Hs. refine (Hhere [SentStatus ErrorStatus] _ s Hs). set_solver. }
  destruct (tn_cancelled_waiting turn).
  { intros [= <- <- <-]. split; [done|]. intros s Hs. refine (Hhere [SentStatus Degraded] _ s Hs). set_solver. }
  destruct (run_supervised_pipeline _ _ turns _ _ row1) as [[r2 rest] row2] eqn:Hrec. apply IH in Hrec as [Hkeep2 Hl2].
  intros [= <- <- <-]. split.
  - intros bound Hb. pose proof (Hkeep _ Hb) as H1. rewrite <- H1. apply (Hkeep2 bound). by rewrite H1.
  - intros s Hs. change (LaunchedTasks s ∈ SentStatus status :: (sa ++ [SentStatus Degraded]) ++ Waited delay :: rest) in Hs.
    assert (LaunchedTasks s ∈ sa \/ LaunchedTasks s ∈ rest) as [H|H] by set_solver.
    + destruct (Hl _ H) as (_ & Hc & bound & Hb & Hp). split; [exists turn; split; [by left|done]|].
      exists bound. split; [|done]. rewrite (Hkeep2 bound Hb). done.
    + apply Hl2 in H as [(t & Ht & Hc) Hb]. split; [|done]. exists t. split; [by right|done].
Qed.

Definition waited (o : Observed) : option Z := match o with Waited d => Some d | _ => None end.
(** The [n]-th wait: doubled each time from one second, at most thirty. *)
Definition backoff (n : nat) : Z := Z.min (1000 * 2 ^ Z.of_nat n) 30000.
Definition saw_cancellation (turn : Turn (XE:=XE) (JE:=JE)) : Prop :=
  tn_cancelled_before turn = true \/ tn_cancelled_after turn = true \/ tn_cancelled_waiting turn = true.

Lemma next_backoff n : next_restart_delay (backoff n) = backoff (S n).
Proof.
  unfold next_restart_delay, backoff, PIPELINE_RESTART_MAX_DELAY. rewrite Nat2Z.inj_succ, Z.pow_succ_r by lia.
  pose proof (Z.pow_pos_nonneg 2 (Z.of_nat n) ltac:(lia) ltac:(lia)). lia.
Qed.

Lemma no_waits l : (forall d, Waited d ∉ l) -> omap waited l = [].
Proof.
  induction l as [|x l IH]; intros H; [done|]. csimpl. rewrite IH by (intros d Hd; apply (H d); by right).
  destruct x; simpl; [done|done|]. exfalso. apply (H delay_ms). by left.
Qed.

Lemma restarts_from network windows turns row r seen row' n first :
  supervise network windows turns (backoff n) first row = (r, seen, row') ->
  (exists k, omap waited seen = backoff <$> seq n k) /\
  (r = Some (Ok tt) -> exists turn, turn ∈ turns /\ saw_cancellation turn) /\
  (forall e, r = Some (Err e) -> last seen = Some (SentStatus ErrorStatus) /\
     ((exists current maximum, e = SrMaintenance (MeStorageLimitReached current maximum)) \/
      exists n expected actual, e = SrNetworkGenesisMismatch n expected actual)).
Proof.
  revert row r seen row' n first. induction turns as [|turn turns IH]; intros row r seen row' n first; cbn [run_supervised_pipeline].
  { intros [= <- <- <-]. split; [by exists 0%nat|]. by split. }
  destruct (tn_cancelled_before turn) eqn:Hb.
  { intros [= <- <- <-]. split; [by exists 0%nat|]. split; [|done]. intros _. exists turn. split; [by left|by left]. }
  destruct (run_attempt _ _ _ _ row) as [[[ra sa] st] row1] eqn:Ha. apply run_attempt_spec in Ha as (_ & _ & Hw%no_waits).
  assert (forall rest, omap waited (SentStatus (if first then Starting else Degraded) :: (sa ++ rest)) = omap waited rest)
    as Hwaits by (intros rest; csimpl; by rewrite omap_app, Hw).
  destruct ra as [ra|].
  2: { intros [= <- <- <-]. split; [|done]. exists 0%nat. rewrite <- (app_nil_r sa). apply Hwaits. }
  destruct (tn_cancelled_after turn) eqn:Hc.
  { intros [= <- <- <-]. split; [exists 0%nat; rewrite <- (app_nil_r sa); apply Hwaits|]. split; [|done].
    intros _. exists turn. split; [by left|right; by left]. }
  set (error := match ra with Ok _ => _ | Err e => e end). destruct (pipeline_error_is_retryable error) eqn:Hr; cbn [negb].
  2: { intros [= <- <- <-]. split; [exists 0%nat; apply Hwaits|]. split; [done|]. intros e [= <-].
    rewrite app_comm_cons, last_snoc. split; [done|]. destruct error as [| | |[|c m]|?|nw ex ac| | |]; try done.
    - left. by exists c, m.
    - right. by exists nw, ex, ac. }
  destruct (tn_cancelled_waiting turn) eqn:Hx.
  { intros [= <- <- <-]. split; [exists 0%nat; apply Hwaits|]. split; [|done]. intros _. exists turn.
    split; [by left|right; by right]. }
  rewrite next_backoff. destruct (run_supervised_pipeline _ _ turns _ _ row1) as [[r2 rest] row2] eqn:Hrec.
  apply IH in Hrec as ([k Hk] & Hend & Herr). intros [= <- <- <-].
  rewrite <- app_assoc, Hwaits. split; [|split].
  - exists (S k). csimpl. by rewrite Hk.
  - intros Hok. destruct (Hend Hok) as (t & Ht & Hs). exists t. split; [by right|done].
  - intros e He. destruct (Herr e He) as [Hl Hcause]. split; [|done].
    rewrite app_comm_cons, last_app. cbn [app]. destruct rest as [|x rest]; [done|].
    change (SentStatus Degraded :: Waited (backoff n) :: x :: rest)
      with ([SentStatus Degraded; Waited (backoff n)] ++ x :: rest). rewrite last_app, Hl. done.
Qed.

(** Restarts back off, and end for two reasons only.  The supervised pipeline
    waits one second before its first restart and twice as long before each
    next one, never more than thirty; it returns without an error only when it
    saw the cancellation, and with an error, after the status says so, only for
    one that a restart cannot repair: the storage limit or the wrong network. *)
Theorem restarts_back_off network windows turns row r seen row' :
  supervise network windows turns PIPELINE_RESTART_INITIAL_DELAY true row = (r, seen, row') ->
  (exists k, omap waited seen = backoff <$> seq 0 k) /\
  (r = Some (Ok tt) -> exists turn, turn ∈ turns /\ saw_cancellation turn) /\
  (forall e, r = Some (Err e) -> last seen = Some (SentStatus ErrorStatus) /\
     ((exists current maximum, e = SrMaintenance (MeStorageLimitReached current maximum)) \/
      exists n expected actual, e = SrNetworkGenesisMismatch n expected actual)).
Proof.
  change PIPELINE_RESTART_INITIAL_DELAY with (backoff 0). generalize true as first. apply restarts_from.
Qed.
(** The stream never reports itself stopped: that is for its supervisor. *)
Lemma run_status_open events c : ct_status c <> Stopped ->
  ct_status (run_pipeline (XE:=XE) (JE:=JE) events c).2 <> Stopped.
Proof.
  revert c. induction events as [|[e others] events IH]; intros c Hc; simpl; [done|].
  assert (forall a b n, stream_status a b n <> Stopped) as Hs
    by (intros a b n; unfold stream_status; by repeat case_match).
  destruct e as [|[[p state]|]|[u|]|j]; simpl; try done; apply IH; simpl; apply Hs.
Qed.
Lemma supervised_status_open network windows turns delay first row r seen row' :
  supervise network windows turns delay first row = (r, seen, row') -> Forall (fun o => o <> SentStatus Stopped) seen.
Proof.
  revert delay first row r seen row'. induction turns as [|turn turns IH]; intros delay first row r seen row'; simpl.
  { by intros [= <- <- <-]. }
  destruct (tn_cancelled_before turn); [by intros [= <- <- <-]|].
  assert (SentStatus (if first then Starting else Degraded) <> SentStatus Stopped) as Hfirst by (by destruct first).
  destruct (run_attempt _ _ _ _ row) as [[[ra sa] st] row1] eqn:Ha.
  assert (Forall (fun o => o <> SentStatus Stopped) sa) as Hsa.
  { unfold run_attempt in Ha. destruct (prepare_attempt network (tn_input turn) row) as [[[markets|]|e] row2];
      try (by injection Ha as <- <- <- <-).
    destruct (run_pipeline _ _) as [r' c] eqn:Hrun. injection Ha as <- <- <- <-.
    repeat constructor; [done|]. intros [= Hx]. revert Hx. replace c with (r', c).2 by done. rewrite <- Hrun.
    apply run_status_open. by destruct first. }
  destruct ra as [ra|]; [|intros [= <- <- <-]; by constructor].
  destruct (tn_cancelled_after turn); [intros [= <- <- <-]; by constructor|].
  assert (forall rest, Forall (fun o => o <> SentStatus Stopped) rest ->
            Forall (fun o => o <> SentStatus Stopped) (SentStatus (if first then Starting else Degraded) :: sa ++ rest)) as Happ
    by (intros rest Hrest; constructor; [done|]; by apply Forall_app).
  destruct (negb _); [intros [= <- <- <-]; apply Happ; by repeat constructor|].
  destruct (tn_cancelled_waiting turn); [intros [= <- <- <-]; apply Happ; by repeat constructor|].
  destruct (run_supervised_pipeline _ _ turns _ _ row1) as [[r2 rest] row2] eqn:Hrec. apply IH in Hrec.
  intros [= <- <- <-]. simpl. rewrite <- app_assoc. apply Happ. by repeat constructor.
Qed.
End Restarts.

(** ** A loaded configuration starts with any stored settings *)

(** The bounds a started stream relies on: the assertions of the gate, the
    capacity of the channel, which must not be zero, and the batch of the prune. *)
Record stream_in_bounds (config : StreamConfig) : Prop := {
  sb_queue : 1 <= sc_queue_capacity config;
  sb_windows : 1 <= sc_maximum_active_windows config <= 100000;
  sb_batch : 1 <= mc_batch_size (sc_maintenance config) <= MAX_RETENTION_BATCH_SIZE;
  sb_fresh : ce_request_timeout (sc_collector config) <= ce_maximum_discovery_age (sc_collector config);
  sb_covered : ce_request_timeout (sc_collector config) <= ce_observation_window_duration (sc_collector config);
  sb_gate : exists gate, discovery_rpc_gate config = Some gate /\ 1 <= dg_permits gate <= 128 /\
    1000000 <= dg_request_interval gate <= 1000000000 /\
    1000000 * ce_maximum_discovery_age (sc_collector config) < sg_retention (dg_signatures gate);
}.

Lemma request_interval_bounds rps : 1 <= rps <= 1000 -> 1000000 <= request_interval rps <= 1000000000.
Proof.
  intros [H1 H2]. unfold request_interval. rewrite Z.min_l by lia. split.
  - apply Z.div_le_lower_bound; lia.
  - apply Z.div_le_upper_bound; lia.
Qed.

Lemma gate_in_bounds config :
  1 <= ce_rpc_max_in_flight (sc_collector config) <= 128 ->
  1 <= sc_discovery_rpc_requests_per_second config <= 1000 ->
  1 <= ce_maximum_discovery_age (sc_collector config) ->
  exists gate, discovery_rpc_gate config = Some gate /\ 1 <= dg_permits gate <= 128 /\
    1000000 <= dg_request_interval gate <= 1000000000 /\
    1000000 * ce_maximum_discovery_age (sc_collector config) < sg_retention (dg_signatures gate).
Proof.
  intros Hp Hr Ha. unfold discovery_rpc_gate, gate_new, DISCOVERY_SIGNATURE_RETENTION_MARGIN.
  rewrite (proj2 (Z.ltb_lt 0 _)), (proj2 (Z.ltb_lt 0 (sc_discovery_rpc_requests_per_second config))) by lia.
  rewrite (proj2 (Z.eqb_neq _ 0)) by lia. cbn [andb negb]. eexists. split; [done|]. simpl.
  split; [done|]. split; [by apply request_interval_bounds|]. lia.
Qed.

Section Start.
Context {HT : HttpText}.

(** A loaded configuration starts the stream with whatever settings are
    stored.  Its pipeline configuration exists and carries its own prefilter
    values; and with any valid stored settings put in, none of the assertions of
    the discovery gate fails, the requests are paced between a millisecond and a
    second with at most 128 in flight, a claimed signature is remembered for
    longer than an event stays fresh, and the capacities are not zero. *)
Theorem stored_settings_start get c stored :
  from_values get = Ok c -> prefilter_validate (sp_values stored) = Ok tt ->
  exists config, stream_config_of c = Some config /\ stream_in_bounds config /\
    with_prefilter_defaults config {| sp_values := sc_prefilter_values config; sp_revision := 1 |} = config /\
    stream_in_bounds (with_prefilter_defaults config stored).
Proof.
  intros Hload Hv. apply from_values_in_bounds in Hload as Hb. destruct (seeded_defaults c Hb) as (d & Hd & _ & H1 & H2 & H3 & H4 & H5 & H6 & H7).
  apply prefilter_validate_Ok in Hv. unfold bounded, prefilter_supported in Hv. cbn in Hv.
  unfold stream_config_of. rewrite Hd. cbn [mbind option_bind]. eexists. split; [done|].
  destruct Hb. unfold between in *. split; [|split].
  - split; cbn; try lia; [unfold MAX_RETENTION_BATCH_SIZE; lia|]. apply gate_in_bounds; cbn; lia.
  - unfold with_prefilter_defaults. cbn. by rewrite H1, H2, H3, H4, H5, H6, H7.
  - split; cbn; try lia; [unfold MAX_RETENTION_BATCH_SIZE; lia|]. apply gate_in_bounds; cbn; lia.
Qed.
End Start.

(** ** A sample run *)
Module SampleStream.
Abbreviation Event := (ControlEvent (XE:=unit) (JE:=unit)).
Definition quiet (e : Event) : Event * (World -> World) := (e, fun w => w).
Definition updates : list (Event * (World -> World)) := quiet <$> [
  EvConnection (Some (Pump, SourceReady)); EvConnection (Some (PumpSwap, SourceReady));
  EvDiscoveryRpc (Some DiscoveryFailed); EvDiscoveryRpc (Some DiscoveryFailed)].
(** Two failed reads leave the stream running, a rate limit degrades it. *)
Example still_running : ct_status (run_pipeline updates (control_init Starting world_init)).2 = Running.
Proof. vm_compute. reflexivity. Qed.
Example rate_limited :
  ct_status (run_pipeline (updates ++ [quiet (EvDiscoveryRpc (Some DiscoveryRateLimited))])
    (control_init Starting world_init)).2 = Degraded.
Proof. vm_compute. reflexivity. Qed.

Definition input (hash : string) (r : result (StreamError unit unit) unit) : AttemptInput (XE:=unit) (JE:=unit) := {|
  ai_http := Ok tt; ai_genesis_hash := Ok hash; ai_maintenance := Ok prune_result_default; ai_cancelled := false;
  ai_pubsub := Ok tt; ai_markets := Ok []; ai_pools := Ok [];
  ai_events := fun _ => updates ++ [quiet (EvJoined (JoinedTask "pump-source" r))] |}.
Definition turn (hash : string) : Turn (XE:=unit) (JE:=unit) := {|
  tn_cancelled_before := false; tn_input := input hash (Ok tt); tn_cancelled_after := false; tn_cancelled_waiting := false |}.
(** Two attempts that fail, then a provider of the other network. *)
Definition turns := [turn SOLANA_MAINNET_GENESIS_HASH; turn SOLANA_MAINNET_GENESIS_HASH; turn SOLANA_DEVNET_GENESIS_HASH].
End SampleStream.

Lemma status_tells_history_witness :
  exists c, run_pipeline SampleStream.updates (control_init Starting world_init) = (None, c) /\
    both_ready SampleStream.updates.*1 /\ ~ rpc_failing SampleStream.updates.*1.
Proof.
  destruct (run_pipeline SampleStream.updates (control_init Starting world_init)) as [r c] eqn:E.
  assert (r = None) as -> by (vm_compute in E; injection E as <- _; reflexivity).
  exists c. split; [reflexivity|].
  apply (status_tells_history SampleStream.updates Starting world_init c E); [discriminate|].
  vm_compute in E. injection E as <-. reflexivity.
Defined.

Lemma tasks_need_verified_network_witness :
  exists turn, turn ∈ SampleStream.turns /\ cleared SolanaMainnet (tn_input turn).
Proof.
  destruct (run_supervised_pipeline SolanaMainnet world_init SampleStream.turns 1000 true None) as [[r seen] row] eqn:E.
  destruct (tasks_need_verified_network _ _ _ _ _ _ _ _ _ E) as [_ H].
  destruct (H Starting) as [Hturn _].
  - vm_compute in E. injection E as _ <- _. right. left.
  - exact Hturn.
Defined.

Lemma restarts_back_off_witness :
  exists r seen row, run_supervised_pipeline SolanaMainnet world_init SampleStream.turns PIPELINE_RESTART_INITIAL_DELAY
      true None = (r, seen, row) /\ last seen = Some (SentStatus ErrorStatus) /\ omap waited seen = [1000; 2000].
Proof.
  destruct (run_supervised_pipeline SolanaMainnet world_init SampleStream.turns PIPELINE_RESTART_INITIAL_DELAY
      true None) as [[r seen] row] eqn:E.
  exists r, seen, row. split; [reflexivity|].
  destruct (restarts_back_off _ _ _ _ _ _ _ E) as (_ & _ & H).
  assert (exists e, r = Some (Err e)) as [e He] by (vm_compute in E; injection E as <- _ _; eexists; reflexivity).
  split; [apply (H e He)|]. vm_compute in E. injection E as _ <- _. reflexivity.
Defined.

Lemma stored_settings_start_witness :
  exists c config, from_values (HT:=SampleConfig.sample_http) SampleConfig.environment = Ok c /\
    stream_config_of c = Some config /\
    stream_in_bounds (with_prefilter_defaults config {| sp_values := sample_prefilter 20000; sp_revision := 2 |}).
Proof.
  destruct (from_values (HT:=SampleConfig.sample_http) SampleConfig.environment) as [c|e] eqn:E.
  - destruct (stored_settings_start (HT:=SampleConfig.sample_http) _ c
      {| sp_values := sample_prefilter 20000; sp_revision := 2 |} E) as (config & Hc & _ & _ & Hb); [reflexivity|].
    exists c, config. exact (conj eq_refl (conj Hc Hb)).
  - exfalso. vm_compute in E. discriminate E.
Defined.
