(* ===== verification/Supervisor.v ===== *)
(** [apps/server/src/supervisor.rs]: the supervisor of the stream, with the
    interleavings of its commands, the monitors of its pipelines and the
    pipelines themselves.

    [command_lock] lets one command run at a time; the command that holds it is a
    point of its body between two awaits.  A label is what happens next: an await
    of the command is answered, its request is dropped, a monitor takes a branch
    of its [select!], a pipeline sends a status or ends, the process shuts down.
    [set_status] writes under a lock and publishes after it is released: these
    are two steps. *)
From S2P Require Import Prelude.
From S2P Require Import Stateful.
From S2P Require Import ApiContracts.
From S2P Require Import PersistenceModel.
From S2P Require Import SettingsStore.
From S2P Require Import StreamControl.

(** ** Pipelines and their monitors *)
(** How the task of a pipeline ends: with [Ok(())], with an error, or without a
    result because it panicked or was aborted. *)
Inductive TaskEnd := EndedOk | EndedErr | EndedJoin.

(** A monitor waits at its [select!], is about to write a status ([final] when it
    returns after it), has written it and is about to publish it, or is over. *)
Inductive MonitorPoint :=
| MonitorSelects
| MonitorWrites (status : StreamStatus) (final : bool)
| MonitorPublishes (status : StreamStatus) (final : bool)
| MonitorOver.

Record RunningPipeline := {
  rp_config : StreamConfig;
  rp_cancelled : bool;
  rp_aborted : bool;
  rp_ended : option TaskEnd;
  (** The status channel: its value, and whether the monitor has seen it. *)
  rp_channel : StreamStatus;
  rp_changed : bool;
  rp_monitor : MonitorPoint;
  rp_shutdown_seen : bool;
  rp_status_open : bool;
}.

Definition spawned_pipeline (config : StreamConfig) : RunningPipeline := {|
  rp_config := config; rp_cancelled := false; rp_aborted := false; rp_ended := None; rp_channel := Starting;
  rp_changed := false; rp_monitor := MonitorSelects; rp_shutdown_seen := false; rp_status_open := true |}.

Definition cancel_pipeline (p : RunningPipeline) : RunningPipeline := {|
  rp_config := rp_config p; rp_cancelled := true; rp_aborted := rp_aborted p; rp_ended := rp_ended p;
  rp_channel := rp_channel p; rp_changed := rp_changed p; rp_monitor := rp_monitor p;
  rp_shutdown_seen := rp_shutdown_seen p; rp_status_open := rp_status_open p |}.
Definition abort_pipeline (p : RunningPipeline) : RunningPipeline := {|
  rp_config := rp_config p; rp_cancelled := rp_cancelled p; rp_aborted := true; rp_ended := rp_ended p;
  rp_channel := rp_channel p; rp_changed := rp_changed p; rp_monitor := rp_monitor p;
  rp_shutdown_seen := rp_shutdown_seen p; rp_status_open := rp_status_open p |}.
Definition send_channel (status : StreamStatus) (p : RunningPipeline) : RunningPipeline := {|
  rp_config := rp_config p; rp_cancelled := rp_cancelled p; rp_aborted := rp_aborted p; rp_ended := rp_ended p;
  rp_channel := status; rp_changed := true; rp_monitor := rp_monitor p;
  rp_shutdown_seen := rp_shutdown_seen p; rp_status_open := rp_status_open p |}.
Definition end_task (e : TaskEnd) (p : RunningPipeline) : RunningPipeline := {|
  rp_config := rp_config p; rp_cancelled := rp_cancelled p; rp_aborted := rp_aborted p; rp_ended := Some e;
  rp_channel := rp_channel p; rp_changed := rp_changed p; rp_monitor := rp_monitor p;
  rp_shutdown_seen := rp_shutdown_seen p; rp_status_open := rp_status_open p |}.
Definition move_monitor (m : MonitorPoint) (p : RunningPipeline) : RunningPipeline := {|
  rp_config := rp_config p; rp_cancelled := rp_cancelled p; rp_aborted := rp_aborted p; rp_ended := rp_ended p;
  rp_channel := rp_channel p; rp_changed := rp_changed p; rp_monitor := m;
  rp_shutdown_seen := rp_shutdown_seen p; rp_status_open := rp_status_open p |}.
(** The value of the channel is taken; the branch of a closed channel is turned
    off; the shutdown is seen. *)
Definition take_channel (p : RunningPipeline) : RunningPipeline := {|
  rp_config := rp_config p; rp_cancelled := rp_cancelled p; rp_aborted := rp_aborted p; rp_ended := rp_ended p;
  rp_channel := rp_channel p; rp_changed := false; rp_monitor := MonitorWrites (rp_channel p) false;
  rp_shutdown_seen := rp_shutdown_seen p; rp_status_open := rp_status_open p |}.
Definition close_channel (p : RunningPipeline) : RunningPipeline := {|
  rp_config := rp_config p; rp_cancelled := rp_cancelled p; rp_aborted := rp_aborted p; rp_ended := rp_ended p;
  rp_channel := rp_channel p; rp_changed := rp_changed p; rp_monitor := rp_monitor p;
  rp_shutdown_seen := rp_shutdown_seen p; rp_status_open := false |}.
Definition see_shutdown (p : RunningPipeline) : RunningPipeline := {|
  rp_config := rp_config p; rp_cancelled := true; rp_aborted := rp_aborted p; rp_ended := rp_ended p;
  rp_channel := rp_channel p; rp_changed := rp_changed p; rp_monitor := rp_monitor p;
  rp_shutdown_seen := true; rp_status_open := rp_status_open p |}.

Definition is_finished (p : RunningPipeline) : bool :=
  match rp_monitor p with MonitorOver => true | _ => false end.

(** ** The supervisor *)
Inductive SupervisorError {XE JE : Type} :=
| SuShuttingDown
| SuPrefilterSettingsRequireStopped
| SuPersistence (e : PersistenceError XE JE).
#[global] Arguments SupervisorError : clear implicits.

Section Model.
Context {XE JE : Type}.
(** The driver's and the server's errors of [SettingsStore], and the
    configuration the process was started with. *)
Context (row_not_found out_of_range : XE) (pipeline_config : StreamConfig).
Abbreviation Error := (SupervisorError XE JE).
Abbreviation Failure := (PersistenceError XE JE).

Inductive Response :=
| RespStart (status : StreamStatus) (changed : bool)
| RespStop (status : StreamStatus) (changed : bool)
| RespUpdate (stored : StoredPrefilterDefaults)
| RespError (e : Error).

Inductive Request := ReqStart | ReqStop | ReqUpdate (expected_revision : Z) (values : PrefilterDefaults).

(** The points of [resume_if_requested], [start], [stop] and
    [update_prefilter_defaults].  A launch knows the flag [start] read before, if
    it is not the launch of [resume_if_requested]; a point after a [set_status]
    knows whether a publication is due. *)
Inductive CommandPoint :=
| ResumeReads
| StartReads
| StartRequests (was_requested : bool)
| LaunchChecks (start : option bool)
| LaunchLoads (start : option bool)
| LaunchStarts (start : option bool) (persisted : StoredPrefilterDefaults)
| LaunchSpawns (start : option bool) (persisted : StoredPrefilterDefaults) (due : bool)
| StartWaits (launched was_requested : bool)
| StopReads
| StopReadsStatus (was_requested : bool)
| StopRequests (was_requested : bool) (previous : StreamStatus)
| StopTakes (was_requested : bool) (previous : StreamStatus)
| StopSignals (was_requested : bool) (previous : StreamStatus) (i : nat)
| StopCancels (was_requested : bool) (previous : StreamStatus) (i : nat) (due : bool)
| StopAwaits (was_requested : bool) (previous : StreamStatus) (i : nat) (aborted : bool)
| StopSettles (was_requested : bool) (previous : StreamStatus) (had_running : bool)
| StopPublishes (was_requested : bool) (previous : StreamStatus) (had_running due : bool)
| UpdateReadsStatus (expected_revision : Z) (values : PrefilterDefaults)
| UpdateReadsRequested (expected_revision : Z) (values : PrefilterDefaults) (status : StreamStatus)
| UpdateReadsRunning (expected_revision : Z) (values : PrefilterDefaults) (status : StreamStatus) (requested : bool)
| UpdateWrites (expected_revision : Z) (values : PrefilterDefaults).

Record Supervisor := {
  su_status : StreamStatus;
  (** The [StreamStatusChanged] events of the bus. *)
  su_published : list StreamStatus;
  su_shutdown : bool;
  (** The row of [stream_control] and the tables of the settings. *)
  su_requested : bool;
  su_settings : SettingsDb;
  (** Every pipeline ever spawned, the slot [running], the holder of
      [command_lock], and what the commands answered. *)
  su_pipelines : list RunningPipeline;
  su_running : option nat;
  su_command : option CommandPoint;
  su_responses : list Response;
}.

Definition with_status (status : StreamStatus) (s : Supervisor) : Supervisor := {|
  su_status := status; su_published := su_published s; su_shutdown := su_shutdown s; su_requested := su_requested s;
  su_settings := su_settings s; su_pipelines := su_pipelines s; su_running := su_running s;
  su_command := su_command s; su_responses := su_responses s |}.
Definition publish (status : StreamStatus) (s : Supervisor) : Supervisor := {|
  su_status := su_status s; su_published := su_published s ++ [status]; su_shutdown := su_shutdown s;
  su_requested := su_requested s; su_settings := su_settings s; su_pipelines := su_pipelines s;
  su_running := su_running s; su_command := su_command s; su_responses := su_responses s |}.
Definition with_shutdown (s : Supervisor) : Supervisor := {|
  su_status := su_status s; su_published := su_published s; su_shutdown := true; su_requested := su_requested s;
  su_settings := su_settings s; su_pipelines := su_pipelines s; su_running := su_running s;
  su_command := su_command s; su_responses := su_responses s |}.
Definition with_requested (requested : bool) (s : Supervisor) : Supervisor := {|
  su_status := su_status s; su_published := su_published s; su_shutdown := su_shutdown s; su_requested := requested;
  su_settings := su_settings s; su_pipelines := su_pipelines s; su_running := su_running s;
  su_command := su_command s; su_responses := su_responses s |}.
Definition with_settings (db : SettingsDb) (s : Supervisor) : Supervisor := {|
  su_status := su_status s; su_published := su_published s; su_shutdown := su_shutdown s;
  su_requested := su_requested s; su_settings := db; su_pipelines := su_pipelines s; su_running := su_running s;
  su_command := su_command s; su_responses := su_responses s |}.
Definition with_pipelines (ps : list RunningPipeline) (s : Supervisor) : Supervisor := {|
  su_status := su_status s; su_published := su_published s; su_shutdown := su_shutdown s;
  su_requested := su_requested s; su_settings := su_settings s; su_pipelines := ps; su_running := su_running s;
  su_command := su_command s; su_responses := su_responses s |}.
Definition with_running (running : option nat) (s : Supervisor) : Supervisor := {|
  su_status := su_status s; su_published := su_published s; su_shutdown := su_shutdown s;
  su_requested := su_requested s; su_settings := su_settings s; su_pipelines := su_pipelines s;
  su_running := running; su_command := su_command s; su_responses := su_responses s |}.
(** The command goes on at a point, or is over. *)
Definition go (c : option CommandPoint) (s : Supervisor) : Supervisor := {|
  su_status := su_status s; su_published := su_published s; su_shutdown := su_shutdown s;
  su_requested := su_requested s; su_settings := su_settings s; su_pipelines := su_pipelines s;
  su_running := su_running s; su_command := c; su_responses := su_responses s |}.
Definition respond (r : Response) (s : Supervisor) : Supervisor := {|
  su_status := su_status s; su_published := su_published s; su_shutdown := su_shutdown s;
  su_requested := su_requested s; su_settings := su_settings s; su_pipelines := su_pipelines s;
  su_running := su_running s; su_command := None; su_responses := su_responses s ++ [r] |}.
Definition on_pipeline (i : nat) (f : RunningPipeline -> RunningPipeline) (s : Supervisor) : Supervisor :=
  with_pipelines (alter f i (su_pipelines s)) s.

(** [set_status]: the write says whether a publication is due. *)
Definition set_status (next : StreamStatus) (s : Supervisor) : bool * Supervisor :=
  if bool_decide (su_status s = next) then (false, s) else (true, with_status next s).
Definition publish_due (due : bool) (status : StreamStatus) (s : Supervisor) : Supervisor :=
  if due then publish status s else s.

(** [restore], followed by [resume_if_requested]. *)
Definition restored (requested : bool) (settings : SettingsDb) : Supervisor := {|
  su_status := if requested then Degraded else Stopped; su_published := []; su_shutdown := false;
  su_requested := requested; su_settings := settings; su_pipelines := []; su_running := None;
  su_command := Some ResumeReads; su_responses := [] |}.

Definition prefilter_settings_are_editable (status : StreamStatus) (requested_running has_running_pipeline : bool)
    : bool :=
  bool_decide (status = Stopped) && negb requested_running && negb has_running_pipeline.

(** [is_some_and(|pipeline| !pipeline.monitor.is_finished())]. *)
Definition has_running_pipeline (s : Supervisor) : bool :=
  match su_running s with
  | Some i => match su_pipelines s !! i with Some p => negb (is_finished p) | None => false end
  | None => false
  end.

(** How the await of a command is answered: it is served, the database fails
    (the statement may have been executed), or a timer runs out. *)
Inductive Answer := Served | DatabaseFails (e : Failure) (executed : bool) | TimesOut.

(** The end of [launch_pipeline]: [start] waits for its result. *)
Definition launched (start : option bool) (new : bool) (s : Supervisor) : Supervisor :=
  go ((fun was => StartWaits new was) <$> start) s.
Definition launch_fails (start : option bool) (e : Failure) (s : Supervisor) : Supervisor :=
  match start with Some _ => respond (RespError (SuPersistence e)) s | None => go None s end.

Definition advance_launch (a : Answer) (c : CommandPoint) (s : Supervisor) : option Supervisor :=
  match c, a with
  | LaunchChecks start, Served =>
      if has_running_pipeline s then Some (launched start false s)
      else Some (go (Some (LaunchLoads start)) (with_running None s))
  | LaunchLoads start, Served =>
      match load_prefilter_defaults (JE:=JE) row_not_found (su_settings s) with
      | (Ok persisted, _) => Some (go (Some (LaunchStarts start persisted)) s)
      | (Err e, _) => Some (launch_fails start e s)
      end
  | LaunchLoads start, DatabaseFails e _ => Some (launch_fails start e s)
  | LaunchStarts start persisted, Served =>
      let '(due, s) := set_status Starting s in Some (go (Some (LaunchSpawns start persisted due)) s)
  | LaunchSpawns start persisted due, Served =>
      let s := publish_due due Starting s in
      let p := spawned_pipeline (with_prefilter_defaults pipeline_config persisted) in
      let s := with_running (Some (length (su_pipelines s))) (with_pipelines (su_pipelines s ++ [p]) s) in
      Some (launched start true s)
  | _, _ => None
  end.

Definition advance_start (a : Answer) (c : CommandPoint) (s : Supervisor) : option Supervisor :=
  match c, a with
  | ResumeReads, Served => Some (go (if su_requested s then Some (LaunchChecks None) else None) s)
  | ResumeReads, DatabaseFails _ _ => Some (go None s)
  | StartReads, Served => Some (go (Some (StartRequests (su_requested s))) s)
  | StartReads, DatabaseFails e _ => Some (respond (RespError (SuPersistence e)) s)
  | StartRequests was, Served => Some (go (Some (LaunchChecks (Some was))) (with_requested true s))
  | StartRequests _, DatabaseFails e executed =>
      Some (respond (RespError (SuPersistence e)) (if executed then with_requested true s else s))
  | StartWaits new was, Served =>
      Some (match su_status s with
            | Running | Degraded | ErrorStatus => respond (RespStart (su_status s) (new || negb was)) s
            | _ => s
            end)
  | StartWaits new was, TimesOut => Some (respond (RespStart (su_status s) (new || negb was)) s)
  | _, _ => None
  end.

(** [await_monitor] gives the monitor a timeout, aborts the pipeline and gives it
    a second, then aborts the monitor, which happens at one of its awaits. *)
Definition advance_stop (a : Answer) (c : CommandPoint) (s : Supervisor) : option Supervisor :=
  match c, a with
  | StopReads, Served => Some (go (Some (StopReadsStatus (su_requested s))) s)
  | StopReads, DatabaseFails e _ => Some (respond (RespError (SuPersistence e)) s)
  | StopReadsStatus was, Served => Some (go (Some (StopRequests was (su_status s))) s)
  | StopRequests was previous, Served => Some (go (Some (StopTakes was previous)) (with_requested false s))
  | StopRequests _ _, DatabaseFails e executed =>
      Some (respond (RespError (SuPersistence e)) (if executed then with_requested false s else s))
  | StopTakes was previous, Served =>
      Some (go (Some (match su_running s with
                      | Some i => StopSignals was previous i
                      | None => StopSettles was previous false
                      end)) (with_running None s))
  | StopSignals was previous i, Served =>
      let '(due, s) := set_status Stopping s in Some (go (Some (StopCancels was previous i due)) s)
  | StopCancels was previous i due, Served =>
      Some (go (Some (StopAwaits was previous i false)) (on_pipeline i cancel_pipeline (publish_due due Stopping s)))
  | StopAwaits was previous i aborted, Served =>
      if bool_decide (is_finished <$> su_pipelines s !! i = Some true)
      then Some (go (Some (StopSettles was previous true)) s) else None
  | StopAwaits was previous i aborted, TimesOut =>
      if aborted then
        match rp_monitor <$> su_pipelines s !! i with
        | Some (MonitorPublishes _ _) => None
        | _ => Some (go (Some (StopSettles was previous true)) (on_pipeline i (move_monitor MonitorOver) s))
        end
      else Some (go (Some (StopAwaits was previous i true)) (on_pipeline i abort_pipeline s))
  | StopSettles was previous had_running, Served =>
      let '(due, s) := set_status Stopped s in Some (go (Some (StopPublishes was previous had_running due)) s)
  | StopPublishes was previous had_running due, Served =>
      Some (respond (RespStop Stopped (was || negb (bool_decide (previous = Stopped)) || had_running))
              (publish_due due Stopped s))
  | _, _ => None
  end.

Definition advance_update (a : Answer) (c : CommandPoint) (s : Supervisor) : option Supervisor :=
  match c, a with
  | UpdateReadsStatus expected values, Served =>
      Some (go (Some (UpdateReadsRequested expected values (su_status s))) s)
  | UpdateReadsRequested expected values status, Served =>
      Some (go (Some (UpdateReadsRunning expected values status (su_requested s))) s)
  | UpdateReadsRequested _ _ _, DatabaseFails e _ => Some (respond (RespError (SuPersistence e)) s)
  | UpdateReadsRunning expected values status requested, Served =>
      if prefilter_settings_are_editable status requested (has_running_pipeline s)
      then Some (go (Some (UpdateWrites expected values)) s)
      else Some (respond (RespError SuPrefilterSettingsRequireStopped) s)
  | UpdateWrites expected values, Served =>
      let '(r, db) := update_prefilter_defaults (JE:=JE) out_of_range id expected values (su_settings s) in
      Some (respond (match r with Ok stored => RespUpdate stored | Err e => RespError (SuPersistence e) end)
              (with_settings db s))
  | UpdateWrites expected values, DatabaseFails e executed =>
      let db := if executed then (update_prefilter_defaults (JE:=JE) out_of_range id expected values (su_settings s)).2
                else su_settings s in
      Some (respond (RespError (SuPersistence e)) (with_settings db s))
  | _, _ => None
  end.

Definition advance (a : Answer) (c : CommandPoint) (s : Supervisor) : option Supervisor :=
  match c with
  | LaunchChecks _ | LaunchLoads _ | LaunchStarts _ _ | LaunchSpawns _ _ _ => advance_launch a c s
  | ResumeReads | StartReads | StartRequests _ | StartWaits _ _ => advance_start a c s
  | UpdateReadsStatus _ _ | UpdateReadsRequested _ _ _ | UpdateReadsRunning _ _ _ _ | UpdateWrites _ _ =>
      advance_update a c s
  | _ => advance_stop a c s
  end.

(** A command takes the lock. *)
Definition begin (r : Request) (s : Supervisor) : option Supervisor :=
  match su_command s with
  | Some _ => None
  | None =>
      match r with
      | ReqStart =>
          Some (if su_shutdown s then respond (RespError SuShuttingDown) s else go (Some StartReads) s)
      | ReqStop => Some (go (Some StopReads) s)
      | ReqUpdate expected values =>
          Some (if su_shutdown s then respond (RespError SuShuttingDown) s
                else go (Some (UpdateReadsStatus expected values)) s)
      end
  end.

(** The request is dropped at an await of its command; a statement that was sent
    may have been executed.  [resume_if_requested] is not a request, and there
    is no await between a write of the status and the publication. *)
Definition drop_request (executed : bool) (s : Supervisor) : option Supervisor :=
  match su_command s with
  | None => None
  | Some (ResumeReads | LaunchChecks None | LaunchLoads None | LaunchStarts None _ | LaunchSpawns _ _ _
         | StopCancels _ _ _ _ | StopPublishes _ _ _ _) => None
  | Some (StartRequests _) => Some (go None (if executed then with_requested true s else s))
  | Some (StopRequests _ _) => Some (go None (if executed then with_requested false s else s))
  | Some (UpdateWrites expected values) =>
      let db := if executed then (update_prefilter_defaults (JE:=JE) out_of_range id expected values (su_settings s)).2
                else su_settings s in
      Some (go None (with_settings db s))
  | Some _ => Some (go None s)
  end.

(** [shutdown]: the slot is locked while a launch is under way. *)
Definition holds_running (c : CommandPoint) : bool :=
  match c with LaunchLoads _ | LaunchStarts _ _ | LaunchSpawns _ _ _ => true | _ => false end.
Definition shutdown (s : Supervisor) : Supervisor :=
  let s := with_shutdown s in
  match su_running s with
  | Some i => if default false (holds_running <$> su_command s) then s else on_pipeline i cancel_pipeline s
  | None => s
  end.

(** ** The monitors *)
Definition final_status (cancelled : bool) (e : TaskEnd) : StreamStatus :=
  match e with EndedOk => if cancelled then Stopped else ErrorStatus | EndedErr | EndedJoin => ErrorStatus end.
Definition monitor_after (final : bool) : MonitorPoint := if final then MonitorOver else MonitorSelects.

(** The branches of [spawn_monitor]'s [select!]. *)
Definition monitor_sees_shutdown (shutdown : bool) (p : RunningPipeline) : option RunningPipeline :=
  match rp_monitor p with
  | MonitorSelects => if shutdown && negb (rp_shutdown_seen p) then Some (see_shutdown p) else None
  | _ => None
  end.
Definition monitor_sees_status (p : RunningPipeline) : option RunningPipeline :=
  match rp_monitor p with
  | MonitorSelects =>
      if rp_status_open p then
        if rp_changed p then Some (take_channel p)
        else match rp_ended p with Some _ => Some (close_channel p) | None => None end
      else None
  | _ => None
  end.
Definition monitor_sees_end (p : RunningPipeline) : option RunningPipeline :=
  match rp_monitor p, rp_ended p with
  | MonitorSelects, Some e => Some (move_monitor (MonitorWrites (final_status (rp_cancelled p) e) true) p)
  | _, _ => None
  end.
(** A monitor within [set_status]. *)
Definition monitor_writes (i : nat) (s : Supervisor) : option Supervisor :=
  match rp_monitor <$> su_pipelines s !! i with
  | Some (MonitorWrites status final) =>
      let '(due, s) := set_status status s in
      Some (on_pipeline i (move_monitor (if due then MonitorPublishes status final else monitor_after final)) s)
  | Some (MonitorPublishes status final) =>
      Some (on_pipeline i (move_monitor (monitor_after final)) (publish status s))
  | _ => None
  end.

Definition update_pipeline (i : nat) (f : RunningPipeline -> option RunningPipeline) (s : Supervisor)
    : option Supervisor :=
  p ← su_pipelines s !! i; p' ← f p; Some (on_pipeline i (fun _ => p') s).

(** What a pipeline does: it runs until it ends, and never sends [Stopped]
    ([StreamControl.run_status_open], [supervised_status_open]). *)
Definition task_sends (status : StreamStatus) (p : RunningPipeline) : option RunningPipeline :=
  match rp_ended p with
  | None => if bool_decide (status = Stopped) then None else Some (send_channel status p)
  | Some _ => None
  end.
Definition task_ends (e : TaskEnd) (p : RunningPipeline) : option RunningPipeline :=
  match rp_ended p with None => Some (end_task e p) | Some _ => None end.

Inductive Label :=
| Begin (r : Request)
| Advance (a : Answer)
| DropRequest (executed : bool)
| Shutdown
| TaskSends (i : nat) (status : StreamStatus)
| TaskEnds (i : nat) (e : TaskEnd)
| MonitorSeesShutdown (i : nat)
| MonitorSeesStatus (i : nat)
| MonitorSeesEnd (i : nat)
| MonitorGoesOn (i : nat).

Definition step (l : Label) (s : Supervisor) : option Supervisor :=
  match l with
  | Begin r => begin r s
  | Advance a => c ← su_command s; advance a c s
  | DropRequest executed => drop_request executed s
  | Shutdown => Some (shutdown s)
  | TaskSends i status => update_pipeline i (task_sends status) s
  | TaskEnds i e => update_pipeline i (task_ends e) s
  | MonitorSeesShutdown i => update_pipeline i (monitor_sees_shutdown (su_shutdown s)) s
  | MonitorSeesStatus i => update_pipeline i monitor_sees_status s
  | MonitorSeesEnd i => update_pipeline i monitor_sees_end s
  | MonitorGoesOn i => monitor_writes i s
  end.
Fixpoint run (ls : list Label) (s : Supervisor) : option Supervisor :=
  match ls with [] => Some s | l :: ls => s ← step l s; run ls s end.

(** The request of [stop] is dropped after it took the pipeline out of the slot
    and before it has settled the status. *)
Definition holds_pipeline (c : CommandPoint) : option nat :=
  match c with
  | StopSignals _ _ i | StopCancels _ _ i _ | StopAwaits _ _ i _ => Some i
  | _ => None
  end.
Definition took_pipeline (c : CommandPoint) : bool :=
  match c with
  | StopSignals _ _ _ | StopCancels _ _ _ _ | StopAwaits _ _ _ _ | StopSettles _ _ _ => true
  | _ => false
  end.
Definition abandons_pipeline (l : Label) (s : Supervisor) : Prop :=
  (exists executed, l = DropRequest executed) /\ took_pipeline <$> su_command s = Some true.

(** The states of a process in which no such request is dropped. *)
Inductive reachable (start : Supervisor) : Supervisor -> Prop :=
| reachable_start : reachable start start
| reachable_step s l s' :
    reachable start s -> ~ abandons_pipeline l s -> step l s = Some s' -> reachable start s'.
End Model.
