(* ===== verification/SupervisorProofs.v ===== *)
(** The theorems on the supervisor of [Supervisor.v]. *)
From S2P Require Import Prelude.
From S2P Require Import Stateful.
From S2P Require Import Domain.
From S2P Require Import ApiContracts.
From S2P Require Import PersistenceModel.
From S2P Require Import SettingsStore.
From S2P Require Import Retention.
From S2P Require Import RpcModel.
From S2P Require Import StreamControl.
From S2P Require Import Supervisor.

(** ** One pipeline *)
(** Where a monitor stands with its pipeline: it announces the end of an ended
    task, [Stopped] only for a cancelled one, and is over after an end, or when
    it was aborted after it cancelled and aborted the task. *)
Definition monitor_ok (p : RunningPipeline) : Prop :=
  match rp_monitor p with
  | MonitorSelects => True
  | MonitorWrites st final | MonitorPublishes st final =>
      (final = true -> rp_ended p <> None) /\ (st = Stopped -> rp_cancelled p = true)
  | MonitorOver => rp_ended p <> None \/ (rp_cancelled p = true /\ rp_aborted p = true)
  end.
Record pipeline_ok (p : RunningPipeline) : Prop := {
  po_monitor : monitor_ok p;
  po_channel : rp_channel p <> Stopped;
}.

(** What every step of a pipeline and its monitor keeps. *)
Record evolves (p p' : RunningPipeline) : Prop := {
  ev_config : rp_config p' = rp_config p;
  ev_finished : is_finished p = true -> is_finished p' = true;
  ev_cancelled : rp_cancelled p = true -> rp_cancelled p' = true;
  ev_aborted : rp_aborted p = true -> rp_aborted p' = true;
  ev_ok : pipeline_ok p -> pipeline_ok p';
}.

Ltac evolve :=
  unfold is_finished in *; simpl in *; simplify_eq; split; unfold is_finished; simpl; try done;
  let Hm := fresh in let Hc := fresh in
  intros [Hm Hc]; unfold monitor_ok in Hm; simpl in Hm, Hc; split; unfold monitor_ok; simpl; try done; naive_solver.

Lemma cancel_evolves p : evolves p (cancel_pipeline p).
Proof. destruct p as [? ? ? ? ? ? m ? ?], m; evolve. Qed.
Lemma abort_evolves p : evolves p (abort_pipeline p).
Proof. destruct p as [? ? ? ? ? ? m ? ?], m; evolve. Qed.
Lemma sees_shutdown_evolves b p p' : monitor_sees_shutdown b p = Some p' -> evolves p p'.
Proof.
  destruct p as [? ? ? ? ? ? m ? ?], m; unfold monitor_sees_shutdown; simpl; try done. case_match; [|done]. intros [= <-]. evolve.
Qed.
Lemma sees_status_evolves p p' : monitor_sees_status p = Some p' -> evolves p p'.
Proof.
  destruct p as [? ? ? ? ? ? m ? ?], m; unfold monitor_sees_status; simpl; try done. repeat (case_match; [|try done]); try done;
    intros [= <-]; evolve.
Qed.
Lemma sees_end_evolves p p' : monitor_sees_end p = Some p' -> evolves p p'.
Proof.
  destruct p as [? [] ? e ? ? m ? ?], m; unfold monitor_sees_end; simpl; try done; destruct e as [[]|]; try done;
    intros [= <-]; evolve.
Qed.
Lemma task_sends_evolves st p p' : task_sends st p = Some p' -> evolves p p'.
Proof.
  destruct p as [? ? ? e ? ? m ? ?]; unfold task_sends; simpl. destruct e; [done|]. case_bool_decide as Hs; [done|].
  intros [= <-]. destruct m; evolve.
Qed.
Lemma task_ends_evolves e p p' : task_ends e p = Some p' -> evolves p p'.
Proof.
  destruct p as [? ? ? e' ? ? m ? ?]; unfold task_ends; simpl. destruct e'; [done|]. intros [= <-]. destruct m; evolve.
Qed.

Section Proofs.
Context {XE JE : Type}.
Context (row_not_found out_of_range : XE) (pipeline_config : StreamConfig).
Abbreviation Sup := (Supervisor (XE:=XE) (JE:=JE)).
Abbreviation sup_step := (step (XE:=XE) (JE:=JE) row_not_found out_of_range pipeline_config).
Abbreviation sup_reachable := (reachable (XE:=XE) (JE:=JE) row_not_found out_of_range pipeline_config).
Implicit Types (s : Sup) (p : RunningPipeline) (c : CommandPoint).

(** The settings a launch loads. *)
Definition stored_is (db : SettingsDb) (stored : StoredPrefilterDefaults) : Prop :=
  (load_prefilter_defaults (JE:=JE) row_not_found db).1 = Ok stored.

Definition none_live (ps : list RunningPipeline) : Prop :=
  forall i p, ps !! i = Some p -> is_finished p = true.

(** What holds at each point of a command. *)
Definition point_ok s c : Prop :=
  match c with
  | LaunchLoads _ => su_running s = None
  | LaunchStarts _ stored | LaunchSpawns _ stored _ => su_running s = None /\ stored_is (su_settings s) stored
  | StopTakes _ _ => su_requested s = false
  | StopSignals _ _ _ | StopCancels _ _ _ _ | StopSettles _ _ _ => su_running s = None /\ su_requested s = false
  | StopAwaits _ _ i aborted =>
      su_running s = None /\ su_requested s = false /\
      forall p, su_pipelines s !! i = Some p -> rp_cancelled p = true /\ (aborted = true -> rp_aborted p = true)
  | StopPublishes _ _ _ _ => su_running s = None /\ su_requested s = false /\ su_status s = Stopped
  | UpdateWrites _ _ => none_live (su_pipelines s)
  | _ => True
  end.

(** The invariant: a live monitor is that of the slot or of the pipeline [stop]
    holds, and its pipeline has the settings that are stored. *)
Record supervised s : Prop := {
  sv_pipeline i p : su_pipelines s !! i = Some p -> pipeline_ok p;
  sv_live i p : su_pipelines s !! i = Some p -> is_finished p = false ->
    (su_running s = Some i \/ su_command s ≫= holds_pipeline = Some i) /\
    exists stored, stored_is (su_settings s) stored /\ rp_config p = with_prefilter_defaults pipeline_config stored;
  sv_point c : su_command s = Some c -> point_ok s c;
}.

Lemma nothing_live s : supervised s -> su_running s = None -> su_command s ≫= holds_pipeline = None ->
  none_live (su_pipelines s).
Proof.
  intros Hs Hr Hh i p Hp. destruct (is_finished p) eqn:Hf; [done|].
  destruct (sv_live s Hs i p Hp Hf) as [[H|H] _]; congruence.
Qed.
Lemma slot_not_live s : supervised s -> has_running_pipeline s = false -> su_command s ≫= holds_pipeline = None ->
  none_live (su_pipelines s).
Proof.
  intros Hs Hr Hh i p Hp. destruct (is_finished p) eqn:Hf; [done|].
  destruct (sv_live s Hs i p Hp Hf) as [[H|H] _]; [|congruence].
  unfold has_running_pipeline in Hr. by rewrite H, Hp, Hf in Hr.
Qed.

(** A step of a pipeline. *)
Lemma supervised_on_pipeline i (f : RunningPipeline -> RunningPipeline) s :
  supervised s -> (forall p, su_pipelines s !! i = Some p -> evolves p (f p)) -> supervised (on_pipeline i f s).
Proof.
  intros Hs Hf.
  assert (forall j p', alter f i (su_pipelines s) !! j = Some p' ->
            exists p, su_pipelines s !! j = Some p /\ evolves p p') as Hev.
  { intros j p'. destruct (decide (i = j)) as [<-|Hn].
    - rewrite list_lookup_alter_eq. intros (p & Hp & ->)%fmap_Some. eauto.
    - rewrite list_lookup_alter_ne by done. intros Hp. exists p'. split; [done|]. by split. }
  split; simpl.
  - intros j p' Hj; apply Hev in Hj as (p & Hp & He). apply (ev_ok p p' He). by eapply sv_pipeline.
  - intros j p' Hj; apply Hev in Hj as (p & Hp & He); intros Hl. rewrite (ev_config p p' He). apply (sv_live s Hs j p Hp).
    destruct (is_finished p) eqn:Hfin; [|done]. by rewrite (ev_finished p p' He Hfin) in Hl.
  - intros c Hc. pose proof (sv_point s Hs c Hc) as Hpt. destruct c; try done; simpl in *.
    + destruct Hpt as (H1 & H2 & H3). split_and!; try done. intros p' Hj. apply Hev in Hj as (p & Hp & He). destruct (H3 p Hp) as [Ha Hb].
      split; [by apply (ev_cancelled p p' He)|]. intros Hab. apply (ev_aborted p p' He). auto.
    + intros j p' Hj. apply Hev in Hj as (p & Hp & He). apply (ev_finished p p' He). eauto.
Qed.

(** The status and the publications do not matter, but at the end of [stop]. *)
Lemma supervised_same s s' :
  supervised s -> su_pipelines s' = su_pipelines s -> su_running s' = su_running s ->
  su_command s' = su_command s -> su_settings s' = su_settings s -> su_requested s' = su_requested s ->
  (su_status s' = su_status s \/ forall was previous had due, su_command s <> Some (StopPublishes was previous had due)) ->
  supervised s'.
Proof.
  intros [H1 H2 H3] E1 E2 E3 E4 E5 E6. split; rewrite ?E1, ?E2, ?E3, ?E4; try done.
  intros c Hc. specialize (H3 c Hc). destruct c; simpl in *; rewrite ?E1, ?E2, ?E4, ?E5; try done.
  destruct E6 as [->|E6]; [done|]. by destruct (E6 was_requested previous had_running due).
Qed.

(** A command goes on, or answers. *)
Lemma supervised_go (c : option CommandPoint) s :
  supervised s -> (forall c', c = Some c' -> point_ok s c') ->
  (forall i, su_command s ≫= holds_pipeline = Some i -> c ≫= holds_pipeline = Some i \/
     forall p, su_pipelines s !! i = Some p -> is_finished p = true) ->
  supervised (go c s).
Proof.
  intros [H1 H2 H3] Hp Hh. split; simpl; try done.
  - intros i p Hi Hl. destruct (H2 i p Hi Hl) as [[Hr|Hc] Hx]; split; eauto.
    destruct (Hh i Hc) as [H|H]; [eauto|]. by rewrite (H p Hi) in Hl.
Qed.
Lemma supervised_respond r s :
  supervised s -> (forall i p, su_command s ≫= holds_pipeline = Some i -> su_pipelines s !! i = Some p -> is_finished p = true) ->
  supervised (respond r s).
Proof.
  intros Hs Hh. apply (supervised_same (go None s)); try done; [|by left].
  apply supervised_go; [done|done|]. eauto.
Qed.

Lemma supervised_set_status next s due s' : set_status next s = (due, s') ->
  (forall was previous had due, su_command s <> Some (StopPublishes was previous had due)) ->
  supervised s -> supervised s' /\ su_status s' = next /\ su_pipelines s' = su_pipelines s /\
    su_running s' = su_running s /\ su_command s' = su_command s /\ su_settings s' = su_settings s /\
    su_requested s' = su_requested s /\ su_shutdown s' = su_shutdown s /\ su_published s' = su_published s /\
    (due = false -> su_status s = next).
Proof.
  intros Hset Hc Hs. unfold set_status in Hset. case_bool_decide as Hst; injection Hset as <- <-.
  - split_and!; done.
  - split_and!; try done. apply (supervised_same s); try done. by right.
Qed.
Lemma supervised_publish due status s : supervised s -> supervised (publish_due due status s).
Proof. intros Hs. destruct due; [|done]. apply (supervised_same s); try done. by left. Qed.

Ltac one_goes := intros Hs [= <-]; apply supervised_go; simpl; try (intros ? [= <-]); naive_solver.

Lemma advance_launch_supervised a c s s' : su_command s = Some c -> supervised s ->
  advance_launch (JE:=JE) row_not_found pipeline_config a c s = Some s' -> supervised s'.
Proof.
  intros Hc Hs. pose proof (sv_point s Hs c Hc) as Hp.
  destruct c, a; simpl; try done.
  - destruct (has_running_pipeline s) eqn:Hr; intros [= <-].
    + apply supervised_go; [done| |rewrite Hc; done]. intros c' Hc'. by destruct start; simplify_eq/=.
    + assert (none_live (su_pipelines s)) as Hn by (apply slot_not_live; rewrite ?Hc; done).
      split; simpl.
      * apply (sv_pipeline s Hs).
      * intros i p Hi Hl. by rewrite (Hn i p Hi) in Hl.
      * intros c' [= <-]. done.
  - destruct (load_prefilter_defaults row_not_found (su_settings s)) as [[stored|e] db] eqn:Hl; intros [= <-].
    + apply supervised_go; [done| |rewrite Hc; done]. intros c' [= <-]. simpl. split; [done|].
      unfold stored_is. by rewrite Hl.
    + destruct start; simpl; [apply supervised_respond|apply supervised_go]; try done; rewrite Hc; done.
  - intros [= <-]. destruct start; simpl; [apply supervised_respond|apply supervised_go]; try done; rewrite Hc; done.
  - destruct (set_status Starting s) as [due s1] eqn:Hset. intros [= <-]. simpl in Hp. destruct Hp as [Hr Hst].
    destruct (supervised_set_status _ _ _ _ Hset) as (H1 & _ & _ & H2 & H3 & H4 & _); [by rewrite Hc|done|].
    apply supervised_go; [done| |rewrite H3, Hc; done]. intros c' [= <-]. simpl. by rewrite H2, H4.
  - intros [= <-]. simpl in Hp. destruct Hp as [Hr Hst].
    assert (none_live (su_pipelines s)) as Hn by (apply nothing_live; rewrite ?Hc; done).
    assert (su_pipelines (publish_due due Starting s) = su_pipelines s) as E by (by destruct due).
    assert (su_settings (publish_due due Starting s) = su_settings s) as E' by (by destruct due).
    unfold launched. split; simpl; rewrite E, ?E'.
    + intros i p Hi. apply lookup_app_Some in Hi as [Hi|[Hi Hi']]; [by eapply sv_pipeline|].
      apply list_lookup_singleton_Some in Hi' as [_ <-]. by split.
    + intros i p Hi Hl. apply lookup_app_Some in Hi as [Hi|[Hi Hi']]; [by rewrite (Hn i p Hi) in Hl|].
      apply list_lookup_singleton_Some in Hi' as [Hi' <-]. split; [left; f_equal; lia|]. eauto.
    + intros c' Hc'. by destruct start; simplify_eq/=.
Qed.

Lemma supervised_requested b s :
  supervised s -> (forall c, su_command s = Some c -> point_ok s c -> point_ok (with_requested b s) c) ->
  supervised (with_requested b s).
Proof. intros [H1 H2 H3] Hp. split; simpl; eauto. Qed.

Lemma advance_start_supervised a c s s' : su_command s = Some c -> supervised s ->
  advance_start a c s = Some s' -> supervised s'.
Proof.
  intros Hc Hs.
  assert (supervised (with_requested true s) \/ forall was, c <> StartRequests was) as Hreq.
  { destruct c; try (by right). left. apply supervised_requested; [done|]. rewrite Hc. by intros c' [= <-]. }
  destruct c, a; simpl; try done; intros [= <-].
  - apply supervised_go; [done| |rewrite Hc; done]. intros c'. destruct (su_requested s); by intros [= <-].
  - apply supervised_go; [done|done|rewrite Hc; done].
  - apply supervised_go; [done|by intros c' [= <-]|rewrite Hc; done].
  - apply supervised_respond; [done|]. by rewrite Hc.
  - destruct Hreq as [Hreq|Hreq]; [|by destruct (Hreq was_requested)].
    apply supervised_go; [done|by intros c' [= <-]|simpl; rewrite Hc; done].
  - destruct Hreq as [Hreq|Hreq]; [|by destruct (Hreq was_requested)].
    apply supervised_respond; destruct executed; simpl; rewrite ?Hc; done.
  - repeat case_match; try done; (apply supervised_respond; [done|by rewrite Hc]).
  - apply supervised_respond; [done|by rewrite Hc].
Qed.

Lemma advance_stop_supervised a c s s' : su_command s = Some c -> supervised s ->
  advance_stop a c s = Some s' -> supervised s'.
Proof.
  intros Hc Hs. pose proof (sv_point s Hs c Hc) as Hp.
  destruct c, a; simpl; try done; simpl in Hp.
  - intros [= <-]. apply supervised_go; [done|by intros c' [= <-]|rewrite Hc; done].
  - intros [= <-]. apply supervised_respond; [done|by rewrite Hc].
  - intros [= <-]. apply supervised_go; [done|by intros c' [= <-]|rewrite Hc; done].
  - intros [= <-]. apply supervised_go; [|by intros c' [= <-]|simpl; rewrite Hc; done].
    apply supervised_requested; [done|]. rewrite Hc. by intros c' [= <-].
  - intros [= <-]. apply supervised_respond; [|destruct executed; simpl; by rewrite Hc].
    destruct executed; [|done]. apply supervised_requested; [done|]. rewrite Hc. by intros c' [= <-].
  - intros [= <-]. destruct Hs as [H1 H2 H3]. split; simpl; [done| |].
    + intros i p Hi Hl. destruct (H2 i p Hi Hl) as [[Hr|Hh] Hx]; [|by rewrite Hc in Hh]. rewrite Hr. eauto.
    + intros c'. destruct (su_running s); by intros [= <-].
  - destruct (set_status Stopping s) as [due s1] eqn:Hset. intros [= <-].
    destruct (supervised_set_status _ _ _ _ Hset) as (H1 & _ & _ & H2 & H3 & _ & H4 & _); [by rewrite Hc|done|].
    apply supervised_go; [done| |rewrite H3, Hc; simpl; eauto]. intros c' [= <-]. simpl. by rewrite H2, H4.
  - intros [= <-]. set (s1 := publish_due due Stopping s).
    assert (supervised s1) as H1 by (by apply supervised_publish).
    assert (su_pipelines s1 = su_pipelines s /\ su_running s1 = su_running s /\ su_requested s1 = su_requested s /\
            su_command s1 = su_command s) as (E1 & E2 & E3 & E4) by (by destruct due).
    apply supervised_go.
    + apply supervised_on_pipeline; [done|]. intros p _. apply cancel_evolves.
    + intros c' [= <-]. simpl. rewrite E1, E2, E3. split_and!; [naive_solver..|]. intros p.
      rewrite list_lookup_alter_eq. by intros (q & _ & ->)%fmap_Some.
    + simpl. rewrite E4, Hc. simpl. eauto.
  - case_bool_decide as Hf; [|done]. intros [= <-]. apply supervised_go; [done| |].
    + intros c' [= <-]. simpl. naive_solver.
    + rewrite Hc. simpl. intros j [= <-]. right. intros p Hj. by rewrite Hj in Hf; injection Hf.
  - destruct aborted.
    + intros Hstep. assert (forall p, su_pipelines s !! i = Some p -> evolves p (move_monitor MonitorOver p)) as Hev.
      { intros p Hi. destruct Hp as (_ & _ & Hp). destruct (Hp p Hi) as [Ha Hb]. split; try done.
        intros [_ Hch]. split; [|done]. right. split; [done|]. by apply Hb. }
      assert (s' = go (Some (StopSettles was_requested previous true)) (on_pipeline i (move_monitor MonitorOver) s)) as ->
        by (repeat case_match; by simplify_eq).
      apply supervised_go; [by apply supervised_on_pipeline| |].
      * intros c' [= <-]. simpl. naive_solver.
      * simpl. rewrite Hc. simpl. intros j [= <-]. right. intros p.
        rewrite list_lookup_alter_eq. by intros (q & _ & ->)%fmap_Some.
    + intros [= <-]. destruct Hp as (Hr & Hq & Hp). apply supervised_go.
      * apply supervised_on_pipeline; [done|]. intros p _. apply abort_evolves.
      * intros c' [= <-]. simpl. split_and!; try done. intros p.
        rewrite list_lookup_alter_eq. intros (q & Hi & ->)%fmap_Some. split; [|done]. by destruct (Hp q Hi).
      * simpl. rewrite Hc. simpl. eauto.
  - destruct (set_status Stopped s) as [due s1] eqn:Hset. intros [= <-].
    destruct (supervised_set_status _ _ _ _ Hset) as (H1 & H5 & _ & H2 & H3 & _ & H4 & _); [by rewrite Hc|done|].
    apply supervised_go; [done| |rewrite H3, Hc; done]. intros c' [= <-]. simpl. rewrite H2, H4, H5. naive_solver.
  - intros [= <-]. apply supervised_respond; [by apply supervised_publish|].
    replace (su_command (publish_due due Stopped s)) with (su_command s) by (by destruct due). by rewrite Hc.
Qed.

(** The settings are written while nothing is live. *)
Lemma supervised_settings db s :
  supervised s -> none_live (su_pipelines s) ->
  (forall c, su_command s = Some c -> point_ok s c -> point_ok (with_settings db s) c) -> supervised (with_settings db s).
Proof.
  intros [H1 H2 H3] Hn Hp. split; simpl; eauto. intros i p Hi Hl. by rewrite (Hn i p Hi) in Hl.
Qed.

Lemma advance_update_supervised a c s s' : su_command s = Some c -> supervised s ->
  advance_update out_of_range a c s = Some s' -> supervised s'.
Proof.
  intros Hc Hs. pose proof (sv_point s Hs c Hc) as Hp.
  destruct c, a; simpl; try done; simpl in Hp.
  - intros [= <-]. apply supervised_go; [done|by intros c' [= <-]|rewrite Hc; done].
  - intros [= <-]. apply supervised_go; [done|by intros c' [= <-]|rewrite Hc; done].
  - intros [= <-]. apply supervised_respond; [done|by rewrite Hc].
  - destruct (prefilter_settings_are_editable status requested (has_running_pipeline s)) eqn:Hed; intros [= <-].
    + apply supervised_go; [done| |rewrite Hc; done]. intros c' [= <-]. apply (slot_not_live s); rewrite ?Hc; try done.
      unfold prefilter_settings_are_editable in Hed. by apply andb_true_iff in Hed as [_ ->%negb_true_iff].
    + apply supervised_respond; [done|by rewrite Hc].
  - destruct (update_prefilter_defaults _ _ _ _ _) as [r db]. intros [= <-].
    apply supervised_respond; [|simpl; by rewrite Hc]. apply supervised_settings; [done|done|]. rewrite Hc. by intros c' [= <-].
  - intros [= <-]. apply supervised_respond; [|simpl; by rewrite Hc]. apply supervised_settings; [done|done|].
    rewrite Hc. by intros c' [= <-].
Qed.

Lemma advance_supervised a c s s' : su_command s = Some c -> supervised s ->
  advance row_not_found out_of_range pipeline_config a c s = Some s' -> supervised s'.
Proof.
  destruct c; eauto using advance_launch_supervised, advance_start_supervised, advance_stop_supervised,
    advance_update_supervised.
Qed.

Lemma begin_supervised r s s' : supervised s -> begin r s = Some s' -> supervised s'.
Proof.
  intros Hs. unfold begin. destruct (su_command s) eqn:Hc; [done|].
  destruct r; intros [= <-]; try destruct (su_shutdown s); try (apply supervised_respond; [done|by rewrite Hc]);
    (apply supervised_go; [done|by intros c' [= <-]|rewrite Hc; done]).
Qed.

Lemma drop_request_supervised executed s s' : supervised s -> su_command s ≫= holds_pipeline = None ->
  drop_request out_of_range executed s = Some s' -> supervised s'.
Proof.
  intros Hs Ha. unfold drop_request. destruct (su_command s) as [c|] eqn:Hc; [|done].
  pose proof (sv_point s Hs c Hc) as Hp.
  destruct c; try done; try destruct start; try done; intros [= <-];
    (apply supervised_go; [|done|by destruct executed; simpl; rewrite Hc]); try done.
  - destruct executed; [|done]. apply supervised_requested; [done|]. rewrite Hc. by intros c' [= <-].
  - destruct executed; [|done]. apply supervised_requested; [done|]. rewrite Hc. by intros c' [= <-].
  - apply supervised_settings; [done|done|]. rewrite Hc. by intros c' [= <-].
Qed.

Lemma shutdown_supervised s : supervised s -> supervised (shutdown s).
Proof.
  intros Hs. assert (supervised (with_shutdown s)) as H by (apply (supervised_same s); try done; by left).
  unfold shutdown. repeat case_match; try done. apply supervised_on_pipeline; [done|]. intros p _. apply cancel_evolves.
Qed.

Lemma update_pipeline_supervised i f s s' : supervised s -> (forall p p', f p = Some p' -> evolves p p') ->
  update_pipeline i f s = Some s' -> supervised s'.
Proof.
  intros Hs Hf. unfold update_pipeline. intros (p & Hp & (p' & Hp' & [= <-])%bind_Some)%bind_Some.
  apply supervised_on_pipeline; [done|]. intros q Hq. rewrite Hp in Hq. injection Hq as <-. eauto.
Qed.

(** The monitor of a pipeline [p] that is within [set_status]. *)
Lemma monitor_goes_evolves p m m' : rp_monitor p = m ->
  match m with
  | MonitorWrites st final => m' = MonitorPublishes st final \/ m' = monitor_after final
  | MonitorPublishes st final => m' = monitor_after final
  | _ => False
  end -> evolves p (move_monitor m' p).
Proof.
  destruct p as [? ? ? e ? ? pm ? ?]; simpl; intros <- Hm.
  assert (exists st final, (pm = MonitorWrites st final \/ pm = MonitorPublishes st final) /\
            (m' = MonitorPublishes st final \/ m' = monitor_after final)) as (st & final & [-> | ->] & [-> | ->])
    by (destruct pm as [|st final|st final|]; [done| | |done]; exists st, final; naive_solver);
    destruct final; simpl; evolve.
Qed.

Lemma monitor_writes_supervised i s s' : supervised s -> monitor_writes i s = Some s' -> supervised s'.
Proof.
  intros Hs. unfold monitor_writes.
  destruct (su_pipelines s !! i) as [p|] eqn:Hi; [|done]. simpl.
  destruct (rp_monitor p) as [|st final|st final|] eqn:Hm; try done.
  - destruct (set_status st s) as [due s1] eqn:Hset. intros [= <-].
    assert (supervised s1 /\ su_pipelines s1 = su_pipelines s) as [H1 E].
    { destruct (supervised_set_status _ _ _ _ Hset) as (H1 & _ & E & _); [|done|done].
      intros was previous had d Hc. pose proof (sv_point s Hs _ Hc) as (Hr & _).
      assert (is_finished p = true) as Hf by (apply (nothing_live s) with (i:=i); rewrite ?Hc; done).
      unfold is_finished in Hf. by rewrite Hm in Hf. }
    apply supervised_on_pipeline; [done|]. rewrite E, Hi. intros q [= <-].
    apply (monitor_goes_evolves p (MonitorWrites st final)); [done|]. destruct due; auto.
  - intros [= <-]. apply supervised_on_pipeline; [apply (supervised_publish true); done|]. simpl. rewrite Hi.
    intros q [= <-]. by apply (monitor_goes_evolves p (MonitorPublishes st final)).
Qed.

Lemma step_supervised l s s' : supervised s -> ~ abandons_pipeline l s -> sup_step l s = Some s' -> supervised s'.
Proof.
  intros Hs Ha. destruct l; simpl.
  - by apply begin_supervised.
  - intros (c & Hc & Hst)%bind_Some. by eapply advance_supervised.
  - apply drop_request_supervised; [done|]. destruct (su_command s ≫= holds_pipeline) as [i|] eqn:Hh; [|done].
    destruct Ha. split; [by eexists|]. destruct (su_command s) as [[]|]; done.
  - intros [= <-]. by apply shutdown_supervised.
  - apply update_pipeline_supervised; [done|]. apply task_sends_evolves.
  - apply update_pipeline_supervised; [done|]. apply task_ends_evolves.
  - apply update_pipeline_supervised; [done|]. apply sees_shutdown_evolves.
  - apply update_pipeline_supervised; [done|]. apply sees_status_evolves.
  - apply update_pipeline_supervised; [done|]. apply sees_end_evolves.
  - by apply monitor_writes_supervised.
Qed.

Lemma restored_supervised requested settings : supervised (restored requested settings).
Proof. split; simpl; try done. by intros c [= <-]. Qed.

Lemma reachable_supervised requested settings s : sup_reachable (restored requested settings) s -> supervised s.
Proof. induction 1; eauto using step_supervised, restored_supervised. Qed.

(** ** Theorems on the pipelines *)
(** A pipeline whose task runs and was not aborted. *)
Definition runs s (i : nat) p : Prop := su_pipelines s !! i = Some p /\ rp_ended p = None /\ rp_aborted p = false.

Lemma runs_live s i p : supervised s -> runs s i p -> is_finished p = false.
Proof.
  intros Hs (Hi & He & Ha). destruct (sv_pipeline s Hs i p Hi) as [Hm _]. unfold monitor_ok in Hm. unfold is_finished.
  destruct (rp_monitor p); try done. destruct Hm as [Hm|[_ Hm]]; congruence.
Qed.

Lemma live_unique s i j p q : supervised s -> su_pipelines s !! i = Some p -> su_pipelines s !! j = Some q ->
  is_finished p = false -> is_finished q = false -> i = j.
Proof.
  intros Hs Hi Hj Hp Hq. destruct (sv_live s Hs i p Hi Hp) as [Hi' _], (sv_live s Hs j q Hj Hq) as [Hj' _].
  assert (forall k, su_command s ≫= holds_pipeline = Some k -> su_running s = None) as Hn.
  { intros k (c & Hc & Hk)%bind_Some. pose proof (sv_point s Hs c Hc) as Hpt.
    destruct c; simpl in *; try done; by apply Hpt. }
  destruct Hi' as [Hi'|Hi'], Hj' as [Hj'|Hj']; try congruence; [pose proof (Hn j Hj')|pose proof (Hn i Hi')]; congruence.
Qed.

(** C5: One stream runs at a time, with the settings that are stored.  As long as
    no request to stop is dropped before it is done, at most one pipeline runs
    that was not aborted, and its configuration is that of the process overlaid
    with the stored prefilter settings, whatever commands, updates of the
    settings, failures of the database and shutdowns come. *)
Theorem one_stream_with_stored_settings requested settings s i p j q :
  sup_reachable (restored requested settings) s -> runs s i p -> runs s j q ->
  i = j /\
  exists stored, stored_is (su_settings s) stored /\ rp_config p = with_prefilter_defaults pipeline_config stored.
Proof.
  intros Hr%reachable_supervised Hi Hj. pose proof (runs_live s i p Hr Hi) as Hp. pose proof (runs_live s j q Hr Hj) as Hq.
  destruct Hi as [Hi _], Hj as [Hj _]. split; [by apply (live_unique s i j p q)|]. by apply (sv_live s Hr i p Hi Hp).
Qed.

(** A stopped stream that no command is about to start. *)
Definition quiet_point c : bool :=
  match c with
  | StopReads | StopReadsStatus _ | StopRequests _ _ | StopTakes _ _ | StopSettles _ _ _ | StopPublishes _ _ _ _
  | UpdateReadsStatus _ _ | UpdateReadsRequested _ _ _ | UpdateReadsRunning _ _ _ _ | UpdateWrites _ _ => true
  | _ => false
  end.
Record quiet s : Prop := {
  qt_supervised : supervised s;
  qt_live : none_live (su_pipelines s);
  qt_running : su_running s = None;
  qt_requested : su_requested s = false;
  qt_status : su_status s = Stopped;
  qt_command c : su_command s = Some c -> quiet_point c = true;
}.

Lemma quiet_ends s i p : quiet s -> su_pipelines s !! i = Some p ->
  rp_ended p <> None \/ (rp_cancelled p = true /\ rp_aborted p = true).
Proof.
  intros Hq Hi. pose proof (qt_live s Hq i p Hi) as Hf. destruct (sv_pipeline s (qt_supervised s Hq) i p Hi) as [Hm _].
  unfold monitor_ok in Hm. unfold is_finished in Hf. by destruct (rp_monitor p).
Qed.

Lemma update_pipeline_quiet i f s s' : quiet s -> (forall p p', f p = Some p' -> evolves p p') ->
  update_pipeline i f s = Some s' -> quiet s'.
Proof.
  intros [H1 H2 H3 H4 H5 H6] Hf Hu. pose proof (update_pipeline_supervised i f s s' H1 Hf Hu) as H1'.
  unfold update_pipeline in Hu. apply bind_Some in Hu as (p & Hp & Hu). apply bind_Some in Hu as (p' & Hp' & [= <-]).
  split; try done. simpl. intros j q. destruct (decide (i = j)) as [<-|Hn].
  - rewrite list_lookup_alter_eq, Hp. intros [= <-]. apply (ev_finished p p'); eauto.
  - rewrite list_lookup_alter_ne by done. apply H2.
Qed.

Lemma quiet_set_status due s s' : quiet s -> set_status Stopped s = (due, s') -> due = false /\ s' = s.
Proof.
  intros Hq. unfold set_status. rewrite bool_decide_eq_true_2 by apply (qt_status s Hq). by intros [= <- <-].
Qed.

Lemma advance_quiet a c s s' : su_command s = Some c -> quiet s ->
  advance row_not_found out_of_range pipeline_config a c s = Some s' -> quiet s'.
Proof.
  intros Hc Hq Hst. pose proof (advance_supervised a c s s' Hc (qt_supervised s Hq) Hst) as Hs'.
  pose proof (qt_command s Hq c Hc) as Hpt. destruct Hq as [H1 H2 H3 H4 H5 H6].
  destruct c; try done; destruct a; simpl in Hst; try done;
    try (rewrite ?H3 in Hst; simplify_eq; split; simpl; try done; by intros c' [= <-]).
  - simplify_eq. destruct executed; (split; simpl; try done).
  - destruct (bool_decide (su_status s = Stopped)) eqn:Hb; unfold set_status in Hst; rewrite Hb in Hst; simplify_eq;
      (split; simpl; try done; by intros c' [= <-]).
  - simplify_eq. destruct due; (split; simpl; try done).
  - repeat case_match; simplify_eq; (split; simpl; try done; by intros c' [= <-]).
  - destruct (update_prefilter_defaults _ _ _ _ _) as [r db]. simplify_eq. split; simpl; try done.
Qed.

Lemma step_quiet l s s' : quiet s -> l <> Begin ReqStart -> sup_step l s = Some s' -> quiet s'.
Proof.
  intros Hq Hl. destruct l; simpl; try (by apply update_pipeline_quiet; [done|];
    eauto using task_sends_evolves, task_ends_evolves, sees_shutdown_evolves, sees_status_evolves, sees_end_evolves).
  - intros Hb. pose proof (begin_supervised r s s' (qt_supervised s Hq) Hb) as Hs'. unfold begin in Hb.
    destruct Hq as [H1 H2 H3 H4 H5 H6]. destruct (su_command s); [done|]. destruct r; try done;
      try destruct (su_shutdown s); simplify_eq; (split; simpl; try done; by intros c' [= <-]).
  - intros (c & Hc & Hst)%bind_Some. by eapply advance_quiet.
  - intros Hd. destruct Hq as [H1 H2 H3 H4 H5 H6].
    assert (su_command s ≫= holds_pipeline = None) as Hh.
    { destruct (su_command s) as [c|]; [|done]. specialize (H6 c eq_refl). by destruct c. }
    pose proof (drop_request_supervised executed s s' H1 Hh Hd) as Hs'. unfold drop_request in Hd.
    destruct (su_command s) as [c|]; [|done]. specialize (H6 c eq_refl).
    destruct c; try done; simplify_eq; try destruct executed; (split; simpl; try done).
  - intros [= <-]. pose proof (shutdown_supervised s (qt_supervised s Hq)) as Hs'. destruct Hq as [H1 H2 H3 H4 H5 H6].
    unfold shutdown in *. simpl in *. rewrite H3 in *. split; try done.
  - intros Hm. unfold monitor_writes in Hm. destruct (su_pipelines s !! i) as [p|] eqn:Hi; [|done].
    pose proof (qt_live s Hq i p Hi) as Hf. unfold is_finished in Hf. simpl in Hm. by destruct (rp_monitor p).
Qed.

Lemma run_quiet ls s s' : quiet s -> Begin ReqStart ∉ ls ->
  run row_not_found out_of_range pipeline_config ls s = Some s' -> quiet s'.
Proof.
  revert s. induction ls as [|l ls IH]; intros s Hq Hn; simpl; [by intros [= <-]|].
  apply not_elem_of_cons in Hn as [Hl Hn]. intros (s1 & Hs1 & Hr)%bind_Some.
  apply (IH s1); try done. by apply (step_quiet l s).
Qed.

(** The only answer of [stop]. *)
Lemma no_answer {A} (l : list A) x : l <> l ++ [x].
Proof. intros H%(f_equal length). rewrite length_app in H. simpl in H. lia. Qed.
Lemma stop_answers_at a c s s' status changed :
  advance row_not_found out_of_range pipeline_config a c s = Some s' ->
  su_responses s' = su_responses s ++ [RespStop status changed] ->
  exists was previous had due, c = StopPublishes was previous had due /\ a = Served.
Proof.
  intros Hst Hresp.
  assert (forall due st, su_responses (publish_due due st s) = su_responses s) as Hpub by (by intros []).
  assert (forall next, su_responses (set_status next s).2 = su_responses s) as Hset
    by (intros next; unfold set_status; by case_bool_decide).
  unfold advance, advance_launch, launched, launch_fails in Hst. destruct c, a; simpl in Hst; try done; try (by repeat eexists);
    exfalso; revert Hresp;
    repeat (match goal with
            | H : context [set_status ?n s] |- _ => pose proof (Hset n); destruct (set_status n s)
            | H : context [match ?x with _ => _ end] |- _ => destruct x
            end; simpl in * ); simplify_eq; simpl; rewrite ?Hpub;
    (apply no_answer || (intros He; by simplify_list_eq) || (intros He; apply (no_answer (su_responses s) (RespStop status changed)); congruence)).
Qed.

(** C6: A stop that is answered is final.  When [stop] answers, it answers
    [Stopped]; from then on, until a start is requested, the published status is
    [Stopped], the stream is not requested, and the task of every pipeline has
    ended or was cancelled and aborted, whatever its monitor, the timeouts, the
    database, updates of the settings and a shutdown did or do. *)
Theorem stop_is_final requested settings s a s' status changed ls s'' :
  sup_reachable (restored requested settings) s -> sup_step (Advance a) s = Some s' ->
  su_responses s' = su_responses s ++ [RespStop status changed] ->
  run row_not_found out_of_range pipeline_config ls s' = Some s'' -> Begin ReqStart ∉ ls ->
  status = Stopped /\ su_status s'' = Stopped /\ su_requested s'' = false /\
  forall i p, su_pipelines s'' !! i = Some p -> rp_ended p <> None \/ (rp_cancelled p = true /\ rp_aborted p = true).
Proof.
  intros Hr Hst Hresp Hrun Hls. apply reachable_supervised in Hr.
  assert (status = Stopped /\ quiet s') as [-> Hq].
  { pose proof (step_supervised (Advance a) s s' Hr ltac:(by intros [[? ?] _]) Hst) as Hs'.
    simpl in Hst. apply bind_Some in Hst as (c & Hc & Hst).
    assert (exists was previous had due, c = StopPublishes was previous had due /\ a = Served) as
      (was & previous & had & due & -> & ->) by (by eapply stop_answers_at).
    pose proof (sv_point s Hr _ Hc) as (Hrun' & Hreq & Hstat). simpl in Hst. simplify_eq.
    assert (none_live (su_pipelines s)) as Hn by (apply nothing_live; rewrite ?Hc; done).
    split; [by destruct due; simpl in Hresp; simplify_list_eq|].
    destruct due; (split; simpl; try done). }
  apply (run_quiet ls s' s'') in Hq; [|done..]. split_and!; try apply Hq; [done|]. intros i p. by apply quiet_ends.
Qed.

(** ** What the subscribers are told *)
Definition publishes p (st : StreamStatus) : Prop := exists final, rp_monitor p = MonitorPublishes st final.
Lemma publishes_live p st : publishes p st -> is_finished p = false.
Proof. intros [f Hf]. unfold is_finished. by rewrite Hf. Qed.

Section Told.
Context (first : StreamStatus).
(** The status of the last publication, or the one at the start. *)
Definition told s : StreamStatus := default first (last (su_published s)).

(** Every publication under way is of the current status, and without one the
    last one was. *)
Definition settled s : Prop :=
  (forall i p st, su_pipelines s !! i = Some p -> publishes p st -> st = su_status s) /\
  ((forall i p st, su_pipelines s !! i = Some p -> ~ publishes p st) -> told s = su_status s).

(** While [stop] races with the monitor, [Stopped] only counts once it is told. *)
Definition in_step s : Prop :=
  match su_command s with
  | Some (StopCancels _ _ _ _) => su_status s <> Stopped
  | Some (StopAwaits _ _ i _) =>
      su_status s = Stopped -> forall p, su_pipelines s !! i = Some p ->
      (forall st, publishes p st -> st = Stopped) /\ ((forall st, ~ publishes p st) -> told s = Stopped)
  | Some (StopSettles _ _ true) => su_status s = Stopped -> told s = Stopped
  | Some (LaunchSpawns _ _ true) => su_status s = Starting
  | Some (StopPublishes _ _ _ true) => True
  | _ => settled s
  end.

Record faithful s : Prop := {
  ft_supervised : supervised s;
  (** Without a shutdown only [stop] cancels. *)
  ft_cancelled i p : su_pipelines s !! i = Some p -> is_finished p = false -> rp_cancelled p = true ->
    exists was previous aborted, su_command s = Some (StopAwaits was previous i aborted);
  (** The pipeline [stop] holds exists. *)
  ft_held i : su_command s ≫= holds_pipeline = Some i -> is_Some (su_pipelines s !! i);
  ft_slot i : su_running s = Some i -> is_Some (su_pipelines s !! i);
  ft_told : in_step s;
}.

Lemma settled_none_live s : none_live (su_pipelines s) -> told s = su_status s -> settled s.
Proof.
  intros Hn Ht. split; [|done]. intros i p st Hi Hp%publishes_live. by rewrite (Hn i p Hi) in Hp.
Qed.
Lemma settled_told s : none_live (su_pipelines s) -> settled s -> told s = su_status s.
Proof.
  intros Hn [_ H]. apply H. intros i p st Hi Hp%publishes_live. by rewrite (Hn i p Hi) in Hp.
Qed.
Lemma settled_same s s' : su_pipelines s' = su_pipelines s -> su_status s' = su_status s ->
  su_published s' = su_published s -> settled s -> settled s'.
Proof. unfold settled, told. by intros -> -> ->. Qed.

(** The points at which the last publication is not settled. *)
Definition racing c : bool :=
  match c with
  | StopCancels _ _ _ _ | StopAwaits _ _ _ _ | StopSettles _ _ true | LaunchSpawns _ _ true
  | StopPublishes _ _ _ true => true
  | _ => false
  end.
Lemma in_step_settled s : default false (racing <$> su_command s) = false -> in_step s -> settled s.
Proof. unfold in_step. destruct (su_command s) as [[]|]; simpl; try done; by case_match. Qed.
Lemma settled_in_step s : default false (racing <$> su_command s) = false -> settled s -> in_step s.
Proof. unfold in_step. destruct (su_command s) as [[]|]; simpl; try done; by case_match. Qed.

(** A command that goes from one point to another. *)
Lemma faithful_enters s s' : faithful s -> supervised s' ->
  (forall was previous i aborted, su_command s <> Some (StopAwaits was previous i aborted)) ->
  su_pipelines s' = su_pipelines s ->
  (forall i, su_command s' ≫= holds_pipeline = Some i ->
     su_command s ≫= holds_pipeline = Some i \/ su_running s = Some i) ->
  (forall i, su_running s' = Some i -> su_running s = Some i) -> in_step s' -> faithful s'.
Proof.
  intros [H1 H2 H3 H4 H5] Hs Hc Ep Hh Hrun Hin. split; rewrite ?Ep; try done.
  - intros i p Hi Hl Hcan. destruct (H2 i p Hi Hl Hcan) as (was & previous & ab & Hcmd). by destruct (Hc was previous i ab).
  - intros i [Hi|Hi]%Hh; eauto.
  - eauto.
Qed.
Lemma faithful_moves s s' : faithful s -> supervised s' ->
  default false (racing <$> su_command s) = false -> default false (racing <$> su_command s') = false ->
  su_pipelines s' = su_pipelines s -> su_status s' = su_status s -> su_published s' = su_published s ->
  (forall i, su_command s' ≫= holds_pipeline = Some i ->
     su_command s ≫= holds_pipeline = Some i \/ su_running s = Some i) ->
  (forall i, su_running s' = Some i -> su_running s = Some i) -> faithful s'.
Proof.
  intros Hf Hs Hr Hr' Ep Es Epub Hh Hrun. apply (faithful_enters s); try done.
  - intros was previous i ab Hc. by rewrite Hc in Hr.
  - apply settled_in_step; [done|]. apply (settled_same s); try done. apply in_step_settled; [done|]. by apply ft_told.
Qed.

(** A step of a pipeline that neither publishes nor finishes. *)
Record hushed p p' : Prop := {
  hu_evolves : evolves p p';
  hu_finished : is_finished p' = is_finished p;
  hu_publishes st : publishes p' st <-> publishes p st;
}.

Lemma publications_on_pipeline i f s (P : nat -> StreamStatus -> Prop) :
  (forall p, su_pipelines s !! i = Some p -> hushed p (f p)) ->
  (forall j p st, su_pipelines s !! j = Some p -> publishes p st -> P j st) <->
  (forall j p st, su_pipelines (on_pipeline i f s) !! j = Some p -> publishes p st -> P j st).
Proof.
  intros Hf. simpl. split; intros H j p st Hj Hp.
  - destruct (decide (i = j)) as [<-|Hn].
    + rewrite list_lookup_alter_eq in Hj. apply fmap_Some in Hj as (q & Hq & ->). apply (H i q); [done|].
      by apply (hu_publishes q (f q) (Hf q Hq)).
    + rewrite list_lookup_alter_ne in Hj by done. eauto.
  - destruct (decide (i = j)) as [<-|Hn].
    + apply (H i (f p)); [by rewrite list_lookup_alter_eq, Hj|]. by apply (hu_publishes p (f p) (Hf p Hj)).
    + apply (H j p); [|done]. by rewrite list_lookup_alter_ne.
Qed.

Lemma in_step_on_pipeline i f s :
  (forall p, su_pipelines s !! i = Some p -> hushed p (f p)) -> in_step s -> in_step (on_pipeline i f s).
Proof.
  intros Hf. assert (settled s -> settled (on_pipeline i f s)) as Hset.
  { intros [Ha Hb]. split; [exact (proj1 (publications_on_pipeline i f s (fun _ st => st = su_status s) Hf) Ha)|].
    intros Hn. apply Hb. exact (proj2 (publications_on_pipeline i f s (fun _ _ => False) Hf) Hn). }
  unfold in_step. change (su_command (on_pipeline i f s)) with (su_command s).
  destruct (su_command s) as [c|]; [|done]. destruct c; try done.
  - by destruct due.
  - intros Hw Hst p'. simpl. destruct (decide (i = i0)) as [<-|Hn].
    + rewrite list_lookup_alter_eq. intros (p & Hp & ->)%fmap_Some. destruct (Hw Hst p Hp) as [Ha Hb].
      pose proof (hu_publishes p (f p) (Hf p Hp)) as He. split.
      * intros st Hs. apply Ha. by apply He.
      * intros Hs. apply Hb. intros st Hs'. apply (Hs st). by apply He.
    + rewrite list_lookup_alter_ne by done. by apply Hw.
  - by destruct had_running.
  - by destruct due.
Qed.

Lemma faithful_on_pipeline i f s : faithful s ->
  (forall p, su_pipelines s !! i = Some p -> hushed p (f p) /\ rp_cancelled (f p) = rp_cancelled p) ->
  faithful (on_pipeline i f s).
Proof.
  intros [H1 H2 H3 H4 H5] Hf. split.
  - apply supervised_on_pipeline; [done|]. intros p Hp. by apply Hf.
  - simpl. intros j p'. destruct (decide (i = j)) as [<-|Hn]; [|rewrite list_lookup_alter_ne by done; apply H2].
    rewrite list_lookup_alter_eq. intros (p & Hp & ->)%fmap_Some. destruct (Hf p Hp) as [Hh ->].
    rewrite (hu_finished p (f p) Hh). by apply H2.
  - simpl. intros j Hj. rewrite lookup_lt_is_Some, length_alter, <- lookup_lt_is_Some. eauto.
  - simpl. intros j Hj. rewrite lookup_lt_is_Some, length_alter, <- lookup_lt_is_Some. eauto.
  - apply in_step_on_pipeline; [|done]. intros p Hp. by apply Hf.
Qed.

Ltac moves s Hc := apply (faithful_moves s); rewrite ?Hc; simpl; try done; eauto.

Lemma advance_launch_faithful a c s s' : su_command s = Some c -> faithful s ->
  advance_launch (JE:=JE) row_not_found pipeline_config a c s = Some s' -> faithful s'.
Proof.
  intros Hc Hf Hst. pose proof (advance_launch_supervised a c s s' Hc (ft_supervised s Hf) Hst) as Hs'.
  pose proof (sv_point s (ft_supervised s Hf) c Hc) as Hp. pose proof (ft_told s Hf) as Hin. unfold in_step in Hin.
  rewrite Hc in Hin. destruct c, a; simpl in Hst; try done.
  - destruct (has_running_pipeline s); simplify_eq; moves s Hc; by destruct start.
  - destruct (load_prefilter_defaults row_not_found (su_settings s)) as [[stored|e] db]; simplify_eq;
      try (destruct start; simpl in * ); moves s Hc.
  - simplify_eq. destruct start; simpl in *; moves s Hc.
  - unfold set_status in Hst. case_bool_decide as Hst'; simplify_eq; [moves s Hc|].
    apply (faithful_enters s); rewrite ?Hc; simpl; try done.
  - simpl in Hp. destruct Hp as [Hr Hsettings].
    assert (none_live (su_pipelines s)) as Hn by (apply (nothing_live s); [by apply ft_supervised|done|by rewrite Hc]).
    destruct Hf as [H1 H2 H3 H4 H5]. unfold launched in Hst. simplify_eq.
    assert (su_pipelines (publish_due due Starting s) = su_pipelines s) as Ep by (by destruct due).
    assert (forall i p, (su_pipelines s ++ [spawned_pipeline (with_prefilter_defaults pipeline_config persisted)]) !! i = Some p ->
              is_finished p = false -> rp_cancelled p = false /\ forall st, ~ publishes p st) as Hnew.
    { intros i p [Hi|[_ Hi]]%lookup_app_Some Hl; [by rewrite (Hn i p Hi) in Hl|].
      apply list_lookup_singleton_Some in Hi as [_ <-]. split; [done|]. by intros st [f Hst]. }
    rewrite Ep in Hs' |- *. split; simpl; try done.
    + intros i p Hi Hl Hcan. destruct (Hnew i p Hi Hl) as [Hx _]. congruence.
    + intros i. by destruct start.
    + intros i [= <-]. apply lookup_lt_is_Some. rewrite length_app. simpl. lia.
    + apply settled_in_step; [by destruct start|]. split; simpl.
      * intros i p st Hi Hpub. destruct (Hnew i p Hi (publishes_live p st Hpub)) as [_ Hx].
        by destruct (Hx st).
      * intros _. unfold told. destruct due; simpl; [by rewrite last_snoc|]. by apply (settled_told s).
Qed.

Lemma advance_start_faithful a c s s' : su_command s = Some c -> faithful s ->
  advance_start a c s = Some s' -> faithful s'.
Proof.
  intros Hc Hf Hst. pose proof (advance_start_supervised a c s s' Hc (ft_supervised s Hf) Hst) as Hs'.
  destruct c, a; simpl in Hst; try done; try destruct (su_requested s); try destruct executed;
    try destruct (su_status s) eqn:Hstat; injection Hst as <-; try done; moves s Hc.
Qed.

Lemma advance_update_faithful a c s s' : su_command s = Some c -> faithful s ->
  advance_update out_of_range a c s = Some s' -> faithful s'.
Proof.
  intros Hc Hf Hst. pose proof (advance_update_supervised a c s s' Hc (ft_supervised s Hf) Hst) as Hs'.
  destruct c, a; simpl in Hst; try done;
    try destruct (prefilter_settings_are_editable status requested (has_running_pipeline s));
    try destruct (update_prefilter_defaults _ _ _ _ _) as [r db]; simplify_eq; moves s Hc.
Qed.

Lemma begin_faithful r s s' : faithful s -> begin r s = Some s' -> faithful s'.
Proof.
  intros Hf Hb. pose proof (begin_supervised r s s' (ft_supervised s Hf) Hb) as Hs'. unfold begin in Hb.
  destruct (su_command s) eqn:Hc; [done|]. destruct r; try destruct (su_shutdown s); simplify_eq; moves s Hc.
Qed.

Lemma drop_request_faithful executed s s' : faithful s -> took_pipeline <$> su_command s <> Some true ->
  drop_request out_of_range executed s = Some s' -> faithful s'.
Proof.
  intros Hf Ht Hd. assert (su_command s ≫= holds_pipeline = None) as Hh by (destruct (su_command s) as [[]|]; done).
  pose proof (drop_request_supervised executed s s' (ft_supervised s Hf) Hh Hd) as Hs'. unfold drop_request in Hd.
  destruct (su_command s) as [c|] eqn:Hc; [|done].
  destruct c; try done; try destruct start; try done; simplify_eq; try destruct executed; moves s Hc.
Qed.

Lemma not_publishes_over p : is_finished p = true -> forall st, ~ publishes p st.
Proof. intros Hf st Hp%publishes_live. congruence. Qed.

(** [stop] cancels the pipeline it holds. *)
Lemma stop_cancels_faithful was previous i due s : su_command s = Some (StopCancels was previous i due) -> faithful s ->
  su_shutdown s = false ->
  supervised (go (Some (StopAwaits was previous i false)) (on_pipeline i cancel_pipeline (publish_due due Stopping s))) ->
  faithful (go (Some (StopAwaits was previous i false)) (on_pipeline i cancel_pipeline (publish_due due Stopping s))).
Proof.
  intros Hc [H1 H2 H3 H4 H5] _ Hs'.
  assert (su_pipelines (publish_due due Stopping s) = su_pipelines s /\ su_running (publish_due due Stopping s) = su_running s /\
          su_status (publish_due due Stopping s) = su_status s) as (E1 & E2 & E3) by (by destruct due).
  unfold in_step in H5. rewrite Hc in H5. split; [done| | | |].
  - simpl. rewrite E1. intros j p'. destruct (decide (i = j)) as [<-|Hn]; [eauto|].
    rewrite list_lookup_alter_ne by done. intros Hi Hl Hcan. destruct (H2 j p' Hi Hl Hcan) as (? & ? & ? & Hx). congruence.
  - simpl. rewrite E1. intros j [= <-]. rewrite lookup_lt_is_Some, length_alter, <- lookup_lt_is_Some. apply H3. by rewrite Hc.
  - simpl. rewrite E1, E2. intros j Hj. rewrite lookup_lt_is_Some, length_alter, <- lookup_lt_is_Some. eauto.
  - unfold in_step. simpl. rewrite E3. intros Hx. by destruct H5.
Qed.

(** The monitor [stop] waited for is over. *)
Lemma stop_awaited_faithful was previous i aborted s s' : su_command s = Some (StopAwaits was previous i aborted) ->
  faithful s -> supervised s' -> su_command s' = Some (StopSettles was previous true) ->
  (forall p, su_pipelines s !! i = Some p -> forall st, ~ publishes p st) ->
  (forall j p, su_pipelines s' !! j = Some p -> is_finished p = false -> j <> i /\ su_pipelines s !! j = Some p) ->
  su_running s' = None -> su_status s' = su_status s -> su_published s' = su_published s -> faithful s'.
Proof.
  intros Hc [H1 H2 H3 H4 H5] Hs' Hc' Hover Hl Hr Hst Hpub. split; [done| | | |].
  - intros j p Hj Hf Hcan. destruct (Hl j p Hj Hf) as [Hn Hj']. destruct (H2 j p Hj' Hf Hcan) as (? & ? & ? & Hx). congruence.
  - by rewrite Hc'.
  - by rewrite Hr.
  - unfold in_step. rewrite Hc'. unfold told. rewrite Hst, Hpub. intros Hstop. unfold in_step in H5. rewrite Hc in H5.
    destruct (H3 i) as [p Hp]; [by rewrite Hc|]. destruct (H5 Hstop p Hp) as [_ Ht]. apply Ht. by apply Hover.
Qed.

Lemma advance_stop_faithful a c s s' : su_command s = Some c -> faithful s -> su_shutdown s = false ->
  advance_stop a c s = Some s' -> faithful s'.
Proof.
  intros Hc Hf Hsd Hst. pose proof (advance_stop_supervised a c s s' Hc (ft_supervised s Hf) Hst) as Hs'.
  pose proof (sv_point s (ft_supervised s Hf) c Hc) as Hp. pose proof (ft_told s Hf) as Hin. unfold in_step in Hin.
  rewrite Hc in Hin. destruct c, a; simpl in Hst; try done;
    try (try destruct executed; injection Hst as <-; by moves s Hc).
  - injection Hst as <-. moves s Hc; destruct (su_running s); simpl; naive_solver.
  - unfold set_status in Hst. case_bool_decide as Heq; injection Hst as <-; apply (faithful_enters s); rewrite ?Hc; simpl;
      try done; eauto; unfold in_step; simpl; congruence.
  - injection Hst as <-. by apply stop_cancels_faithful.
  - case_bool_decide as Hfin; [|done]. injection Hst as <-.
    assert (forall p, su_pipelines s !! i = Some p -> is_finished p = true) as Hover
      by (intros p Hi; rewrite Hi in Hfin; by injection Hfin).
    apply (stop_awaited_faithful was_requested previous i aborted s); try done.
    + intros p Hi. by apply not_publishes_over, Hover.
    + intros j p Hj Hl. split; [|done]. intros ->. by rewrite (Hover p Hj) in Hl.
    + apply Hp.
  - destruct aborted.
    + assert (s' = go (Some (StopSettles was_requested previous true)) (on_pipeline i (move_monitor MonitorOver) s) /\
              forall p, su_pipelines s !! i = Some p -> forall st, ~ publishes p st) as [-> Hnp].
      { destruct (su_pipelines s !! i) as [p|]; simpl in Hst; [|by injection Hst as <-].
        destruct (rp_monitor p) eqn:Hm; simplify_eq; (split; [done|]); intros q [= <-] st [f Hx]; congruence. }
      apply (stop_awaited_faithful was_requested previous i true s); try done; [|apply Hp]. simpl. intros j p Hj Hl.
      destruct (decide (i = j)) as [<-|Hn]; [|by rewrite list_lookup_alter_ne in Hj by done].
      rewrite list_lookup_alter_eq in Hj. apply fmap_Some in Hj as (q & _ & ->). done.
    + injection Hst as <-.
      assert (faithful (on_pipeline i abort_pipeline s)) as [H1 H2 H3 H4 H5].
      { apply faithful_on_pipeline; [done|]. intros p _. split; [|done]. split; [apply abort_evolves|done|done]. }
      unfold in_step in H5. simpl in H2, H3, H4, H5. rewrite Hc in H2, H3, H5. split; simpl; try done.
      intros j p Hi Hl Hcan. destruct (H2 j p Hi Hl Hcan) as (? & ? & ? & Hx). injection Hx as <- <- <- <-. eauto.
  - assert (none_live (su_pipelines s)) as Hn by (apply (nothing_live s); [by apply ft_supervised|apply Hp|by rewrite Hc]).
    unfold set_status in Hst. case_bool_decide as Heq; injection Hst as <-; apply (faithful_enters s); rewrite ?Hc; simpl;
      try done; eauto. unfold in_step. simpl. apply settled_none_live; [done|]. unfold told. simpl. rewrite Heq.
    destruct had_running; [by apply Hin|]. rewrite <- Heq. by apply (settled_told s).
  - assert (none_live (su_pipelines s)) as Hn by (apply (nothing_live s); [by apply ft_supervised|apply Hp|by rewrite Hc]).
    destruct Hp as (Hr & _ & Hstop). injection Hst as <-. apply (faithful_enters s); rewrite ?Hc; simpl; try done;
      try (by destruct due).
    unfold in_step. simpl. apply settled_none_live; [by destruct due|]. unfold told. destruct due; simpl.
    + by rewrite last_snoc.
    + by apply (settled_told s).
Qed.

(** A monitor moves within [set_status]. *)
Lemma faithful_monitor i p m s s1 : faithful s -> su_pipelines s !! i = Some p -> is_finished p = false ->
  su_pipelines s1 = su_pipelines s -> su_command s1 = su_command s -> su_running s1 = su_running s ->
  supervised (on_pipeline i (move_monitor m) s1) -> in_step (on_pipeline i (move_monitor m) s1) ->
  faithful (on_pipeline i (move_monitor m) s1).
Proof.
  intros [H1 H2 H3 H4 H5] Hi Hl E1 E2 E3 Hs Hin. split; try done; simpl; rewrite E1, ?E2, ?E3.
  - intros j q. destruct (decide (i = j)) as [<-|Hn]; [|rewrite list_lookup_alter_ne by done; apply H2].
    rewrite list_lookup_alter_eq, Hi. intros [= <-] _ Hcan. by apply (H2 i p).
  - intros j Hj. rewrite lookup_lt_is_Some, length_alter, <- lookup_lt_is_Some. eauto.
  - intros j Hj. rewrite lookup_lt_is_Some, length_alter, <- lookup_lt_is_Some. eauto.
Qed.

(** While the monitor of [i] is live the command is at a settled point or holds
    that pipeline. *)
Lemma live_point i p s : supervised s -> su_pipelines s !! i = Some p -> is_finished p = false ->
  default false (racing <$> su_command s) = false \/
  (exists was previous due, su_command s = Some (StopCancels was previous i due)) \/
  exists was previous aborted, su_command s = Some (StopAwaits was previous i aborted).
Proof.
  intros Hs Hi Hl. destruct (su_command s) as [c|] eqn:Hc; [|by left]. pose proof (sv_point s Hs c Hc) as Hp.
  destruct (sv_live s Hs i p Hi Hl) as [[Hr|Hh] _].
  - destruct c; simpl in *; try (by left); try (destruct Hp as [Hp _]; congruence).
  - rewrite Hc in Hh. destruct c; simplify_eq/=; naive_solver.
Qed.

Lemma only_live i j p q st s : supervised s -> su_pipelines s !! i = Some p -> is_finished p = false ->
  su_pipelines s !! j = Some q -> publishes q st -> j = i.
Proof. intros Hs Hi Hl Hj Hq%publishes_live. by apply (live_unique s j i q p). Qed.

(** The two steps, at a settled point and while [stop] races. *)
Lemma write_in_step i p st final due s s1 : faithful s -> su_pipelines s !! i = Some p ->
  rp_monitor p = MonitorWrites st final -> set_status st s = (due, s1) ->
  in_step (on_pipeline i (move_monitor (if due then MonitorPublishes st final else monitor_after final)) s1).
Proof.
  intros Hf Hi Hm Hset. pose proof (ft_supervised s Hf) as Hs. pose proof (ft_told s Hf) as Hin.
  assert (is_finished p = false) as Hl by (unfold is_finished; by rewrite Hm).
  assert (forall st', ~ publishes p st') as Hnp by (intros st' [f Hx]; congruence).
  assert (forall st', ~ publishes (move_monitor (monitor_after final) p) st') as Hna by (intros st' [f Hx]; by destruct final).
  destruct (live_point i p s Hs Hi Hl) as [Hr|[(was & previous & d & Hc)|(was & previous & ab & Hc)]].
  - apply in_step_settled in Hin; [|done]. unfold set_status in Hset. case_bool_decide as Heq; injection Hset as <- <-.
    + apply settled_in_step; [done|]. split; simpl.
      * intros j q st' Hj Hq. destruct (decide (i = j)) as [<-|Hn].
        -- rewrite list_lookup_alter_eq, Hi in Hj. simplify_eq/=. by destruct (Hna st').
        -- rewrite list_lookup_alter_ne in Hj by done. by apply (proj1 Hin j q).
      * intros _. apply (proj2 Hin). intros j q st' Hj Hq. pose proof (only_live i j p q st' s Hs Hi Hl Hj Hq) as ->.
        rewrite Hi in Hj. injection Hj as <-. by destruct (Hnp st').
    + apply settled_in_step; [done|]. split; simpl.
      * intros j q st' Hj Hq. destruct (decide (i = j)) as [<-|Hn].
        -- rewrite list_lookup_alter_eq, Hi in Hj. simplify_eq/=. destruct Hq as [f Hq]. by injection Hq.
        -- rewrite list_lookup_alter_ne in Hj by done. by destruct (Hn (eq_sym (only_live i j p q st' s Hs Hi Hl Hj Hq))).
      * intros Hno. exfalso. apply (Hno i (move_monitor (MonitorPublishes st final) p) st); [|by eexists].
        by rewrite list_lookup_alter_eq, Hi.
  - unfold in_step in *. rewrite Hc in Hin. unfold set_status in Hset. case_bool_decide as Heq; injection Hset as <- <-; simpl; rewrite Hc; [done|].
    intros ->. pose proof (sv_pipeline s Hs i p Hi) as [Hok _]. unfold monitor_ok in Hok. rewrite Hm in Hok.
    destruct Hok as [_ Hok]. destruct (ft_cancelled s Hf i p Hi Hl (Hok eq_refl)) as (? & ? & ? & Hx). congruence.
  - unfold in_step in *. rewrite Hc in Hin. unfold set_status in Hset. case_bool_decide as Heq; injection Hset as <- <-; simpl; rewrite Hc;
      intros Hstop q; rewrite list_lookup_alter_eq, Hi; intros [= <-].
    + split; [intros st' Hst'; by destruct (Hna st')|]. intros _. by apply (Hin Hstop p Hi).
    + split; [intros st' [f Hst']; injection Hst' as -> _; done|]. intros Hno. destruct (Hno st). by eexists.
Qed.

Lemma publish_in_step i p st final s : faithful s -> su_pipelines s !! i = Some p ->
  rp_monitor p = MonitorPublishes st final ->
  in_step (on_pipeline i (move_monitor (monitor_after final)) (publish st s)).
Proof.
  intros Hf Hi Hm. pose proof (ft_supervised s Hf) as Hs. pose proof (ft_told s Hf) as Hin.
  assert (is_finished p = false) as Hl by (unfold is_finished; by rewrite Hm).
  assert (forall st', ~ publishes (move_monitor (monitor_after final) p) st') as Hna by (intros st' [f Hx]; by destruct final).
  assert (publishes p st) as Hp by (by eexists).
  destruct (live_point i p s Hs Hi Hl) as [Hr|[(was & previous & d & Hc)|(was & previous & ab & Hc)]].
  - apply in_step_settled in Hin; [|done]. apply settled_in_step; [done|]. split; simpl.
    + intros j q st' Hj Hq. destruct (decide (i = j)) as [<-|Hn].
      * rewrite list_lookup_alter_eq, Hi in Hj. simplify_eq/=. by destruct (Hna st').
      * rewrite list_lookup_alter_ne in Hj by done. by apply (proj1 Hin j q).
    + intros _. unfold told. simpl. rewrite last_snoc. simpl. by apply (proj1 Hin i p).
  - unfold in_step in *. rewrite Hc in Hin. simpl. by rewrite Hc.
  - unfold in_step in *. rewrite Hc in Hin. simpl. rewrite Hc. intros Hstop q. rewrite list_lookup_alter_eq, Hi.
    intros [= <-]. split; [intros st' Hst'; by destruct (Hna st')|]. intros _. unfold told. simpl. rewrite last_snoc. simpl.
    by apply (Hin Hstop p Hi).
Qed.

Lemma monitor_writes_faithful i s s' : faithful s -> monitor_writes i s = Some s' -> faithful s'.
Proof.
  intros Hf Hw. pose proof (monitor_writes_supervised i s s' (ft_supervised s Hf) Hw) as Hs'.
  unfold monitor_writes in Hw. destruct (su_pipelines s !! i) as [p|] eqn:Hi; [|done]. simpl in Hw.
  assert (rp_monitor p <> MonitorOver -> is_finished p = false) as Hl by (unfold is_finished; by destruct (rp_monitor p)).
  destruct (rp_monitor p) as [|st final|st final|] eqn:Hm; try done.
  - destruct (set_status st s) as [due s1] eqn:Hset. injection Hw as <-.
    assert (su_pipelines s1 = su_pipelines s /\ su_command s1 = su_command s /\ su_running s1 = su_running s) as (E1 & E2 & E3)
      by (unfold set_status in Hset; case_bool_decide; by simplify_eq).
    apply (faithful_monitor i p _ s s1); try done; [by apply Hl|]. by apply (write_in_step i p st final due s s1).
  - injection Hw as <-. apply (faithful_monitor i p _ s (publish st s)); try done; [by apply Hl|].
    by apply (publish_in_step i p st final s).
Qed.

Lemma update_pipeline_faithful i f s s' : faithful s ->
  (forall p p', f p = Some p' -> hushed p p' /\ rp_cancelled p' = rp_cancelled p) ->
  update_pipeline i f s = Some s' -> faithful s'.
Proof.
  intros Hs Hf. unfold update_pipeline. intros (p & Hp & (p' & Hp' & [= <-])%bind_Some)%bind_Some.
  apply faithful_on_pipeline; [done|]. intros q Hq. rewrite Hp in Hq. injection Hq as <-. eauto.
Qed.

Lemma sees_status_hushed p p' : monitor_sees_status p = Some p' -> hushed p p' /\ rp_cancelled p' = rp_cancelled p.
Proof.
  intros H. pose proof (sees_status_evolves p p' H) as He. unfold monitor_sees_status in H.
  destruct (rp_monitor p) eqn:Hm; try done. repeat case_match; try done; injection H as <-;
    (split; [split; [done| |]|done]); unfold is_finished, publishes; simpl; rewrite ?Hm; try done;
    intros st; split; by intros [f Hx].
Qed.
Lemma sees_end_hushed p p' : monitor_sees_end p = Some p' -> hushed p p' /\ rp_cancelled p' = rp_cancelled p.
Proof.
  intros H. pose proof (sees_end_evolves p p' H) as He. unfold monitor_sees_end in H.
  destruct (rp_monitor p) eqn:Hm; try done. destruct (rp_ended p); [|done]. injection H as <-.
  split; [|done]. split; [done| |]; unfold is_finished, publishes; simpl; rewrite ?Hm; try done.
  intros st. split; by intros [f Hx].
Qed.
Lemma task_sends_hushed st p p' : task_sends st p = Some p' -> hushed p p' /\ rp_cancelled p' = rp_cancelled p.
Proof.
  intros H. pose proof (task_sends_evolves st p p' H) as He. unfold task_sends in H. repeat case_match; try done.
  injection H as <-. split; [by split|done].
Qed.
Lemma task_ends_hushed e p p' : task_ends e p = Some p' -> hushed p p' /\ rp_cancelled p' = rp_cancelled p.
Proof.
  intros H. pose proof (task_ends_evolves e p p' H) as He. unfold task_ends in H. repeat case_match; try done.
  injection H as <-. split; [by split|done].
Qed.

Lemma advance_shutdown a c s s' : advance row_not_found out_of_range pipeline_config a c s = Some s' ->
  su_shutdown s' = su_shutdown s.
Proof.
  assert (forall due st, su_shutdown (publish_due due st s) = su_shutdown s) as Hpub by (by intros []).
  assert (forall next, su_shutdown (set_status next s).2 = su_shutdown s) as Hset
    by (intros next; unfold set_status; by case_bool_decide).
  unfold advance, advance_launch, launched, launch_fails. destruct c, a; simpl; try done;
    repeat (match goal with
            | |- context [set_status ?n s] => pose proof (Hset n); destruct (set_status n s)
            | |- context [match ?x with _ => _ end] => destruct x
            end; simpl in * ); try done; intros [= <-]; simpl; rewrite ?Hpub; done.
Qed.
Lemma step_shutdown l s s' : sup_step l s = Some s' ->
  su_shutdown s' = match l with Shutdown => true | _ => su_shutdown s end.
Proof.
  assert (forall i f, update_pipeline i f s = Some s' -> su_shutdown s' = su_shutdown s) as Hup
    by (intros i f (p & _ & (p' & _ & [= <-])%bind_Some)%bind_Some; done).
  destruct l; simpl; try apply Hup.
  - unfold begin. by repeat case_match; intros [= <-].
  - intros (c & _ & Hst)%bind_Some. by eapply advance_shutdown.
  - unfold drop_request. repeat case_match; try done; by intros [= <-].
  - intros [= <-]. unfold shutdown. by repeat case_match.
  - unfold monitor_writes, set_status. by repeat case_match; intros; simplify_eq/=.
Qed.
Lemma shutdown_is_kept l s s' : sup_step l s = Some s' -> su_shutdown s' = false -> su_shutdown s = false /\ l <> Shutdown.
Proof.
  intros Hst Hs'. apply step_shutdown in Hst. destruct l; rewrite Hst in Hs'; by split.
Qed.

Lemma step_faithful l s s' : faithful s -> ~ abandons_pipeline l s -> sup_step l s = Some s' ->
  su_shutdown s = false -> l <> Shutdown -> faithful s'.
Proof.
  intros Hf Ha Hst Hsd Hl. destruct l; simpl in Hst; try done.
  - by eapply begin_faithful.
  - apply bind_Some in Hst as (c & Hc & Hst).
    destruct c; eauto using advance_launch_faithful, advance_start_faithful, advance_stop_faithful, advance_update_faithful.
  - eapply drop_request_faithful; [done| |done]. intros Ht. apply Ha. split; [by eexists|done].
  - eapply update_pipeline_faithful; [done| |done]. apply task_sends_hushed.
  - eapply update_pipeline_faithful; [done| |done]. apply task_ends_hushed.
  - unfold update_pipeline in Hst. apply bind_Some in Hst as (p & _ & (p' & Hp & _)%bind_Some).
    unfold monitor_sees_shutdown in Hp. rewrite Hsd in Hp. by destruct (rp_monitor p).
  - eapply update_pipeline_faithful; [done| |done]. apply sees_status_hushed.
  - eapply update_pipeline_faithful; [done| |done]. apply sees_end_hushed.
  - by eapply monitor_writes_faithful.
Qed.
End Told.

(** C7: Subscribers learn the status.  Although [set_status] publishes after it
    has released the status, and [stop] and a monitor may write and publish in
    opposite orders, once no command is under way and no publication is due the
    last published status is the current one, unless the process shuts down or a
    request to stop was dropped. *)
Theorem subscribers_learn_the_status requested settings s :
  sup_reachable (restored requested settings) s -> su_shutdown s = false -> su_command s = None ->
  (forall i p st, su_pipelines s !! i = Some p -> ~ publishes p st) ->
  default (if requested then Degraded else Stopped) (last (su_published s)) = su_status s.
Proof.
  set (first := if requested then Degraded else Stopped). intros Hr Hsd Hc Hp.
  assert (forall s, sup_reachable (restored requested settings) s -> su_shutdown s = false -> faithful first s) as Hinv.
  { clear. intros s Hr. induction Hr as [|s l s' Hr IH Ha Hst]; intros Hsd.
    - split; simpl; try done. apply restored_supervised.
    - destruct (shutdown_is_kept l s s' Hst Hsd) as [Hsd' Hl]. apply (step_faithful first l s); auto. }
  destruct (Hinv s Hr Hsd) as [_ _ _ _ Hin]. unfold in_step in Hin. rewrite Hc in Hin. by apply Hin.
Qed.
End Proofs.

(** ** A run *)
Module SampleSupervisor.
Definition sample_config : StreamConfig := {| sc_http_url := ""; sc_ws_url := "";
    sc_collector := {| ce_network := SolanaMainnet; ce_commitment := Confirmed; ce_reconnect_delay := 1000;
      ce_request_timeout := 5000; ce_rpc_max_in_flight := 4; ce_notification_processing_capacity := 64;
      ce_subscription_idle_timeout := 60000; ce_maximum_discovery_age := 15000; ce_observation_window_duration := 60000 |};
    sc_maintenance := {| mc_terminal_history_retention := 1; mc_projection_event_retention := 1;
      mc_quarantine_retention := 1; mc_interval := 1; mc_batch_size := 1; mc_database_max_bytes := 1 |};
    sc_queue_capacity := 64; sc_maximum_active_windows := 8; sc_discovery_rpc_requests_per_second := 4;
    sc_discovery_rpc_rate_limit_cooldown := 1000; sc_prefilter_revision := 1;
    sc_prefilter_values := sample_prefilter 15000; sc_collector_run_id := "" |}.
Definition settings : SettingsDb := {|
  sd_prefilter := match prefilter_row (XE:=unit) (JE:=unit) 1 (sample_prefilter 15000) with
                  | Ok row => Some row | Err _ => None end;
  sd_next_revision := 1; sd_revisions := ∅; sd_current := None |}.
Definition boot (requested : bool) : Supervisor (XE:=unit) (JE:=unit) := restored requested settings.

Abbreviation L := (Label (XE:=unit) (JE:=unit)).
Definition served (n : nat) : list L := replicate n (Advance Served).
(** A request to start up to its wait, a pipeline that reports itself running,
    and a request to stop up to the wait for the monitor. *)
Definition launch : list L := Begin ReqStart :: served 6.
Definition report (i : nat) (status : StreamStatus) : list L :=
  [TaskSends i status; MonitorSeesStatus i; MonitorGoesOn i; MonitorGoesOn i].
Definition start (i : nat) : list L := launch ++ report i Running ++ served 1.
Definition ask_to_stop : list L := Begin ReqStop :: served 6.
Definition wind_down (i : nat) : list L := [TaskEnds i EndedOk; MonitorSeesEnd i; MonitorGoesOn i; MonitorGoesOn i].

Definition stopped : list L := served 1 ++ start 0 ++ ask_to_stop ++ wind_down 0 ++ served 3.
Definition stopping : list L := served 1 ++ start 0 ++ ask_to_stop ++ wind_down 0 ++ served 2.
Definition afterwards : list L :=
  [Begin (ReqUpdate 1 (sample_prefilter 20000))] ++ served 4 ++ [Shutdown; Begin ReqStop; Advance Served].
Definition started : list L := served 1 ++ start 0.
(** The client of the request to stop goes away, and the stream is started again. *)
Definition abandoned : list L := served 1 ++ start 0 ++ ask_to_stop ++ [DropRequest false] ++ start 1.

Section Run.
Context (config : StreamConfig).
Abbreviation sample_run ls := (run (XE:=unit) (JE:=unit) tt tt config ls (boot false)).

Example stop_answers :
  (fun s => (su_status s, su_published s, su_responses s)) <$> sample_run stopped =
  Some (Stopped, [Starting; Running; Stopping; Stopped], [RespStart Running true; RespStop Stopped true]).
Proof. vm_compute. reflexivity. Qed.

(** A run in which no request is dropped. *)
Definition dropless (ls : list L) : bool := forallb (fun l => match l with DropRequest _ => false | _ => true end) ls.
Lemma reachable_run ls s s' : reachable tt tt config (boot false) s -> dropless ls = true ->
  run tt tt config ls s = Some s' -> reachable tt tt config (boot false) s'.
Proof.
  revert s. induction ls as [|l ls IH]; intros s Hr Hn; simpl; [by intros [= <-]|].
  apply andb_true_iff in Hn as [Hl Hn]. intros (s1 & Hs1 & Hrun)%bind_Some. apply (IH s1); [|done|done].
  apply (reachable_step _ _ _ _ s l); [done| |done]. by intros [(e & ->) _].
Qed.
Lemma run_reachable ls s : dropless ls = true -> run tt tt config ls (boot false) = Some s ->
  reachable tt tt config (boot false) s.
Proof. apply reachable_run. apply reachable_start. Qed.
End Run.
End SampleSupervisor.

(** C8: A stop whose request is dropped lets two streams run.  [stop] takes the
    pipeline out of the slot before it waits for its monitor, so when its request
    is dropped there the next start launches a second pipeline while the first
    one still runs; when the first one ends, its monitor publishes [Stopped]
    although the second one runs and the stream is requested. *)
Theorem dropped_stop_runs_two_streams config :
  exists s s' p q q',
    run (XE:=unit) (JE:=unit) tt tt config SampleSupervisor.abandoned (SampleSupervisor.boot false) = Some s /\
    runs s 0 p /\ runs s 1 q /\
    run tt tt config (SampleSupervisor.wind_down 0) s = Some s' /\
    runs s' 1 q' /\ rp_channel q' = Running /\ su_requested s' = true /\
    su_status s' = Stopped /\ last (su_published s') = Some Stopped.
Proof.
  do 5 eexists. split; [vm_compute; reflexivity|]. split; [by vm_compute|]. split; [by vm_compute|].
  split; [vm_compute; reflexivity|]. by vm_compute.
Qed.

Lemma one_stream_with_stored_settings_witness :
  exists s p stored,
    runs s 0 p /\ stored_is (XE:=unit) (JE:=unit) tt (su_settings (XE:=unit) (JE:=unit) s) stored /\
    rp_config p = with_prefilter_defaults SampleSupervisor.sample_config stored.
Proof.
  destruct (run tt tt SampleSupervisor.sample_config SampleSupervisor.started (SampleSupervisor.boot false)) as [s|] eqn:E;
    [|vm_compute in E; discriminate E].
  assert (exists p, runs s 0 p) as [p Hp] by (vm_compute in E; injection E as <-; eexists; by vm_compute).
  destruct (one_stream_with_stored_settings tt tt SampleSupervisor.sample_config false SampleSupervisor.settings s 0 p 0 p)
    as (_ & stored & H1 & H2); [|exact Hp|exact Hp|].
  - by apply (SampleSupervisor.run_reachable _ SampleSupervisor.started).
  - exists s, p, stored. exact (conj Hp (conj H1 H2)).
Defined.

(** A request to change the settings and a shutdown after the answer. *)
Lemma stop_is_final_witness :
  exists s' s'', run tt tt SampleSupervisor.sample_config SampleSupervisor.stopped (SampleSupervisor.boot false) = Some s' /\
    run tt tt SampleSupervisor.sample_config SampleSupervisor.afterwards s' = Some s'' /\
    su_status s'' = Stopped /\ su_requested s'' = false.
Proof.
  destruct (run tt tt SampleSupervisor.sample_config SampleSupervisor.stopping (SampleSupervisor.boot false)) as [s|] eqn:E;
    [|vm_compute in E; discriminate E].
  destruct (step tt tt SampleSupervisor.sample_config (Advance Served) s) as [s'|] eqn:E';
    [|vm_compute in E; injection E as <-; vm_compute in E'; discriminate E'].
  destruct (run tt tt SampleSupervisor.sample_config SampleSupervisor.afterwards s') as [s''|] eqn:E'';
    [|vm_compute in E; injection E as <-; vm_compute in E'; injection E' as <-; vm_compute in E''; discriminate E''].
  destruct (stop_is_final tt tt SampleSupervisor.sample_config false SampleSupervisor.settings s Served s' Stopped true
    SampleSupervisor.afterwards s'') as (_ & H1 & H2 & _); [| |  |exact E''| |].
  - by apply (SampleSupervisor.run_reachable _ SampleSupervisor.stopping).
  - exact E'.
  - vm_compute in E. injection E as <-. vm_compute in E'. injection E' as <-. reflexivity.
  - apply not_elem_of_cons. split; [discriminate|]. repeat (apply not_elem_of_cons; split; [discriminate|]).
    apply not_elem_of_nil.
  - exists s', s''. split; [|exact (conj E'' (conj H1 H2))].
    rewrite <- E'. vm_compute in E. injection E as <-. vm_compute. reflexivity.
Defined.

Lemma subscribers_learn_the_status_witness :
  exists s, run tt tt SampleSupervisor.sample_config SampleSupervisor.started (SampleSupervisor.boot false) = Some s /\
    default Stopped (last (su_published s)) = su_status s /\ su_status s = Running.
Proof.
  destruct (run tt tt SampleSupervisor.sample_config SampleSupervisor.started (SampleSupervisor.boot false)) as [s|] eqn:E;
    [|vm_compute in E; discriminate E].
  exists s. split; [reflexivity|]. split; [|vm_compute in E; injection E as <-; reflexivity].
  apply (subscribers_learn_the_status tt tt SampleSupervisor.sample_config false SampleSupervisor.settings s).
  - by apply (SampleSupervisor.run_reachable _ SampleSupervisor.started).
  - vm_compute in E. injection E as <-. reflexivity.
  - vm_compute in E. injection E as <-. reflexivity.
  - vm_compute in E. injection E as <-. simpl. intros [|i] p st Hi [f Hp]; [|by destruct i]. injection Hi as <-. discriminate Hp.
Defined.
