(* ===== verification/ProcessorLoop.v ===== *)
(** [run_batch_processor] of [apps/server/src/jobs/pipeline.rs]: the loop that
    takes the batches of the collectors, holds provisional activity, processes
    what is ready, and counts the flow of stored observations.

    An event is the branch its [select!] takes; before it the other tasks move
    the database and the windows.  The readings of the monotonic and of the wall
    clock are two sequences. *)
From S2P Require Import Prelude.
From S2P Require Import ListFacts.
From S2P Require Import Stateful.
From S2P Require Import RustOrd.
From S2P Require Import BTree.
From S2P Require Import Domain.
From S2P Require Import External.
From S2P Require Import PumpModel.
From S2P Require Import WindowToken.
From S2P Require Import WindowTokenProofs.
From S2P Require Import WindowRegistry.
From S2P Require Import WindowRegistryInv.
From S2P Require Import ApiContracts.
From S2P Require Import PersistenceModel.
From S2P Require Import Retention.
From S2P Require Import Normalization.
From S2P Require Import NormalizationProofs.
From S2P Require Import Intake.
From S2P Require Import IntakeProofs.
From S2P Require Import IntakeTheorems.
From S2P Require Import Collector.
From S2P Require Import CollectorProofs.
From S2P Require Import PendingActivity.
From S2P Require Import Pipeline.
From S2P Require Import PipelineProofs.
From S2P Require Import PipelineTheorems.
From S2P Require Import PipelineErrors.
From S2P Require Import StreamControl.

(** Nanoseconds: [Duration::from_secs(60)]. *)
Definition FLOW_WINDOW_NS : Z := 60 * 1000000000.

Section Loop.
Context {B64 : Base64} {S256 : Sha256} {J XE : Type} {TJ : ToJson PumpEvent J}.
Context {DB : Database J XE (JsonError PumpEvent J)}.
Abbreviation JE := (JsonError PumpEvent J).
Abbreviation Error := (StreamError XE JE).
Context (instant wall : nat -> Z).
Context (config : PipelineConfig) (database_max_bytes : Z).

(** The locals of the loop, with how many readings of each clock it took, the
    wake-ups of the discovery worker, the invalidations it published, the reading
    taken for each stored observation, and the batches it handed to
    [process_and_record_batch] or dropped unprocessed. *)
Record ProcessorState := {
  pr_pipeline : PipelineState (DB:=DB);
  pr_pending : PendingActivityQueue;
  pr_recent : list Z;
  pr_current_flow : option Z;
  pr_instants : nat;
  pr_walls : nat;
  pr_wakes : nat;
  pr_invalidations : nat;
  pr_stored : list Z;
  pr_processed : list ProgramLogBatch;
  pr_discarded : list ProgramLogBatch;
}.

Definition processor_init (p : PipelineState) (pending : PendingActivityQueue) : ProcessorState := {|
  pr_pipeline := p; pr_pending := pending; pr_recent := []; pr_current_flow := None; pr_instants := 0;
  pr_walls := 0; pr_wakes := 0; pr_invalidations := 0; pr_stored := []; pr_processed := []; pr_discarded := [] |}.

Definition pr_heap (st : ProcessorState) : Heap := heap (ps_world (pr_pipeline st)).

Definition with_processor_pipeline (p : PipelineState) (st : ProcessorState) : ProcessorState := {|
  pr_pipeline := p; pr_pending := pr_pending st; pr_recent := pr_recent st; pr_current_flow := pr_current_flow st;
  pr_instants := pr_instants st; pr_walls := pr_walls st; pr_wakes := pr_wakes st;
  pr_invalidations := pr_invalidations st; pr_stored := pr_stored st; pr_processed := pr_processed st; pr_discarded := pr_discarded st |}.
Definition set_pr_heap (h : Heap) (st : ProcessorState) : ProcessorState :=
  let p := pr_pipeline st in
  with_processor_pipeline {| ps_db := ps_db p; ps_world := with_heap h (ps_world p); ps_markets := ps_markets p |} st.
Definition with_pending (q : PendingActivityQueue) (st : ProcessorState) : ProcessorState := {|
  pr_pipeline := pr_pipeline st; pr_pending := q; pr_recent := pr_recent st; pr_current_flow := pr_current_flow st;
  pr_instants := pr_instants st; pr_walls := pr_walls st; pr_wakes := pr_wakes st;
  pr_invalidations := pr_invalidations st; pr_stored := pr_stored st; pr_processed := pr_processed st; pr_discarded := pr_discarded st |}.
Definition read_wall (st : ProcessorState) : ProcessorState := {|
  pr_pipeline := pr_pipeline st; pr_pending := pr_pending st; pr_recent := pr_recent st;
  pr_current_flow := pr_current_flow st; pr_instants := pr_instants st; pr_walls := S (pr_walls st);
  pr_wakes := pr_wakes st; pr_invalidations := pr_invalidations st; pr_stored := pr_stored st; pr_processed := pr_processed st;
  pr_discarded := pr_discarded st |}.
(** [unix_time_millis()] now. *)
Definition wall_now (st : ProcessorState) : Z := wall (pr_walls st).

(** Batches dropped without being processed. *)
Definition note_discarded (bs : list ProgramLogBatch) (st : ProcessorState) : ProcessorState := {|
  pr_pipeline := pr_pipeline st; pr_pending := pr_pending st; pr_recent := pr_recent st;
  pr_current_flow := pr_current_flow st; pr_instants := pr_instants st; pr_walls := pr_walls st;
  pr_wakes := pr_wakes st; pr_invalidations := pr_invalidations st; pr_stored := pr_stored st; pr_processed := pr_processed st;
  pr_discarded := pr_discarded st ++ bs |}.
Definition discard (bs : list ProgramLogBatch) (st : ProcessorState) : ProcessorState :=
  note_discarded bs (set_pr_heap (fold_left (fun h b => batch_drop b h) bs (pr_heap st)) st).

(** [process_and_record_batch], with what it does to the flow and the worker. *)
Definition record_processed (batch : ProgramLogBatch) (p : PipelineState) (inserted : Z) (st : ProcessorState)
    : ProcessorState :=
  let n := Z.to_nat inserted in {|
  pr_pipeline := p; pr_pending := pr_pending st;
  pr_recent := pr_recent st ++ (instant <$> seq (pr_instants st) n);
  pr_current_flow := pr_current_flow st; pr_instants := pr_instants st + n; pr_walls := pr_walls st;
  pr_wakes := if 0 <? inserted then S (pr_wakes st) else pr_wakes st; pr_invalidations := pr_invalidations st;
  pr_stored := pr_stored st ++ (instant <$> seq (pr_instants st) n); pr_processed := pr_processed st ++ [batch]; pr_discarded := pr_discarded st |}.
Definition process_one (batch : ProgramLogBatch) (st : ProcessorState) : result Error unit * ProcessorState :=
  match process_and_record_batch config batch (pr_pipeline st) with
  | (Ok inserted, p) => (Ok tt, record_processed batch p inserted st)
  | (Err e, p) => (Err (SrPipeline e), record_processed batch p 0 st)
  end.

(** [for batch in ready { process_and_record_batch(..).await?; }]: on an error
    the rest of the batches goes with the iterator. *)
Fixpoint process_ready (ready : list ProgramLogBatch) (st : ProcessorState) : result Error unit * ProcessorState :=
  match ready with
  | [] => (Ok tt, st)
  | b :: rest =>
      match process_one b st with
      | (Ok _, st) => process_ready rest st
      | (Err e, st) => (Err e, discard rest st)
      end
  end.

Definition drain_and_process (st : ProcessorState) : result Error unit * ProcessorState :=
  let '(ready, q) := drain_resolved (pr_pending st) (pr_heap st) (wall_now st) in
  process_ready ready (with_pending q (read_wall st)).

(** [prune_flow]. *)
Definition flow_cutoff (n : nat) : Z :=
  if FLOW_WINDOW_NS <=? instant n then instant n - FLOW_WINDOW_NS else instant (S n).
Fixpoint drop_before (cutoff : Z) (observations : list Z) : list Z :=
  match observations with
  | observed :: rest => if observed <? cutoff then drop_before cutoff rest else observations
  | [] => []
  end.
Definition prune_flow (st : ProcessorState) : ProcessorState := {|
  pr_pipeline := pr_pipeline st; pr_pending := pr_pending st;
  pr_recent := drop_before (flow_cutoff (pr_instants st)) (pr_recent st); pr_current_flow := pr_current_flow st;
  pr_instants := (if FLOW_WINDOW_NS <=? instant (pr_instants st) then S else fun n => S (S n)) (pr_instants st);
  pr_walls := pr_walls st; pr_wakes := pr_wakes st; pr_invalidations := pr_invalidations st; pr_stored := pr_stored st;
  pr_processed := pr_processed st; pr_discarded := pr_discarded st |}.
Definition set_flow (flow : option Z) (changed : bool) (st : ProcessorState) : ProcessorState := {|
  pr_pipeline := pr_pipeline st; pr_pending := pr_pending st; pr_recent := pr_recent st; pr_current_flow := flow;
  pr_instants := pr_instants st; pr_walls := pr_walls st; pr_wakes := pr_wakes st;
  pr_invalidations := if changed then S (pr_invalidations st) else pr_invalidations st; pr_stored := pr_stored st;
  pr_processed := pr_processed st; pr_discarded := pr_discarded st |}.

(** The branches; [answer] is what [set_discovery_flow_per_minute] returns. *)
Inductive ProcessorEvent :=
| PrCancelled
| PrStorageTick (env : MaintenanceEnv) (db : RetentionDb)
| PrFlowTick (answer : option Z -> result (PersistenceError XE JE) bool)
| PrPendingTick
| PrReceived (batch : option ProgramLogBatch).

(** The loop returns: the batches still held are dropped. *)
Definition processor_end (st : ProcessorState) : ProcessorState :=
  with_pending (with_batches [] (pr_pending st)) (discard (pa_batch <$> pq_batches (pr_pending st)) st).
Definition processor_returns (r : result Error unit) (st : ProcessorState)
    : ProcessorState + result Error unit * ProcessorState := inr (r, processor_end st).
Definition or_returns (rst : result Error unit * ProcessorState)
    : ProcessorState + result Error unit * ProcessorState :=
  match rst with (Ok _, st) => inl st | (Err e, st) => processor_returns (Err e) st end.

Definition flow_step (answer : option Z -> result (PersistenceError XE JE) bool) (st : ProcessorState)
    : result Error unit * ProcessorState :=
  let st := prune_flow st in
  let next_flow := Some (default u64_max (try_from_u 64 (Z.of_nat (length (pr_recent st))))) in
  if bool_decide (next_flow = pr_current_flow st) then (Ok tt, st)
  else match answer next_flow with
       | Ok changed => (Ok tt, set_flow next_flow changed st)
       | Err e => (Err (SrPipeline (PlPersistence e)), st)
       end.

Definition received_step (batch : ProgramLogBatch) (st : ProcessorState) : result Error unit * ProcessorState :=
  let '(admission, q, h) := admit_batch (pr_pending st) (pr_heap st) batch (wall_now st) in
  let st := with_pending q (read_wall st) in
  let '(r, st) := match admission with
                  | AdmissionReady batch => process_one batch st
                  | AdmissionDeferred => (Ok tt, st)
                  | AdmissionDropped => (Ok tt, note_discarded [batch] (set_pr_heap h st))
                  end in
  match r with Ok _ => drain_and_process st | Err e => (Err e, st) end.

Definition processor_step (event : ProcessorEvent) (st : ProcessorState)
    : ProcessorState + result Error unit * ProcessorState :=
  match event with
  | PrCancelled => processor_returns (Ok tt) st
  | PrStorageTick env db =>
      or_returns (_ ← map_err SrMaintenance (ensure_storage_capacity env database_max_bytes db); Ok tt, st)
  | PrFlowTick answer => or_returns (flow_step answer st)
  | PrPendingTick => or_returns (drain_and_process st)
  | PrReceived None => processor_returns (Err (SrUnexpectedTaskExit "collector-queue")) st
  | PrReceived (Some batch) => or_returns (received_step batch st)
  end.

(** The loop on its events; before each the other tasks move the database and the
    windows. *)
Abbreviation Others := (Db * World -> Db * World).
Definition others_move (f : Others) (st : ProcessorState) : ProcessorState :=
  let p := pr_pipeline st in
  let '(db, w) := f (ps_db p, ps_world p) in
  with_processor_pipeline {| ps_db := db; ps_world := w; ps_markets := ps_markets p |} st.
Fixpoint run_batch_processor (events : list (ProcessorEvent * Others)) (st : ProcessorState)
    : option (result Error unit) * ProcessorState :=
  match events with
  | [] => (None, st)
  | (event, others) :: events =>
      match processor_step event (others_move others st) with
      | inl st => run_batch_processor events st
      | inr (r, st) => (Some r, st)
      end
  end.
End Loop.

(** ** Accounts of the loop *)
Section Accounts.
Context {B64 : Base64} {S256 : Sha256} {J XE : Type} {TJ : ToJson PumpEvent J}.
Context {DB : Database J XE (JsonError PumpEvent J)}.
Abbreviation JE := (JsonError PumpEvent J).
Context (instant wall : nat -> Z) (config : PipelineConfig) (database_max_bytes : Z).
Abbreviation State := (ProcessorState (DB:=DB)).
Abbreviation loop := (run_batch_processor instant wall config database_max_bytes).

Definition held (st : State) : list ProgramLogBatch := pa_batch <$> pq_batches (pr_pending st).
Definition debt (bs : list ProgramLogBatch) (i : nat) : Z := owed (concat (pb_window_tokens <$> bs)) i.

Lemma debt_nil i : debt [] i = 0.
Proof. done. Qed.
Lemma debt_cons b bs i : debt (b :: bs) i = owed (pb_window_tokens b) i + debt bs i.
Proof. unfold debt. csimpl. apply owed_app. Qed.
Lemma debt_app l1 l2 i : debt (l1 ++ l2) i = debt l1 i + debt l2 i.
Proof. unfold debt. by rewrite fmap_app, concat_app, owed_app. Qed.
Lemma debt_nonneg bs i : 0 <= debt bs i.
Proof. apply owed_nonneg. Qed.
#[local] Instance debt_perm : Proper ((≡ₚ) ==> eq ==> eq) debt.
Proof.
  intros l1 l2 Hp i _ <-. induction Hp as [|x l1 l2 _ IH|x y l|l1 l2 l3 _ IH1 _ IH2];
    [done|by rewrite !debt_cons, IH|rewrite !debt_cons; lia|congruence].
Qed.

(** What other tasks owe, outside the batches the loop received; they settle only
    what is theirs. *)
Context (others : Db -> nat -> Z).
Hypothesis others_own : forall db w db' w' i, db_step db w db' w' ->
  unsettled (heap w') i - others db' i = unsettled (heap w) i - others db i.
Hypothesis others_owe : forall db i, 0 <= others db i.

Definition fresh (b : ProgramLogBatch) : Prop := pb_processing_succeeded b = false.

(** The books with some batches in hand: what is not settled is owed by the held
    batches, those in hand, and others; each received batch is in one place. *)
Record ledger (capacity : nat) (received hand : list ProgramLogBatch) (st : State) : Prop := {
  lg_account i : unsettled (pr_heap st) i = debt (held st ++ hand) i + others (ps_db (pr_pipeline st)) i;
  lg_fresh : Forall fresh (held st ++ hand);
  lg_batches : received ≡ₚ pr_processed st ++ pr_discarded st ++ held st ++ hand;
  lg_capacity : pq_capacity (pr_pending st) = capacity /\ (length (pq_batches (pr_pending st)) <= capacity)%nat;
}.

Lemma process_one_ledger capacity received b hand st :
  ledger capacity received (b :: hand) st -> ledger capacity received hand (process_one instant config b st).2.
Proof.
  intros [Ha Hf Hb Hc]. unfold process_one.
  pose proof (record_batch_settles (fun db i => others db i + debt (held st ++ hand) i)
    ltac:(intros db w db' w' i H; pose proof (others_own db w db' w' i H); cbv beta; lia)
    ltac:(intros db i; cbv beta; pose proof (others_owe db i); pose proof (debt_nonneg (held st ++ hand) i); lia)
    config b (pr_pipeline st)) as Hs.
  rewrite Forall_app, Forall_cons in Hf. destruct Hf as (Hf1 & Hfb & Hf2).
  specialize (Hs Hfb). destruct (process_and_record_batch config b (pr_pipeline st)) as [[n|e] p] eqn:E.
  all: destruct Hs as [Hs _]; [intros i; change (heap (ps_world (pr_pipeline st))) with (pr_heap st);
    rewrite Ha, debt_app, debt_cons, debt_app; lia|].
  all: split; unfold pr_heap, held; simpl; [intros i; rewrite Hs; unfold held; lia|by apply Forall_app| |done].
  all: rewrite Hb; unfold held; rewrite <- !app_assoc; apply Permutation_app_head; simpl;
    rewrite !app_assoc; symmetry; apply Permutation_middle.
Qed.

Lemma discard_ledger capacity received bs hand st :
  ledger capacity received (bs ++ hand) st -> ledger capacity received hand (discard bs st).
Proof.
  intros [Ha Hf Hb Hc]. rewrite !Forall_app in Hf. destruct Hf as (Hf1 & Hfb & Hf2).
  split; unfold pr_heap, held; simpl; [|by apply Forall_app| |done].
  - intros i. rewrite drop_batches_share.
    + fold (debt bs i). rewrite Ha, !debt_app. unfold held. lia.
    + intros j. fold (debt bs j). rewrite Ha, !debt_app. pose proof (debt_nonneg (held st) j).
      pose proof (debt_nonneg hand j). pose proof (others_owe (ps_db (pr_pipeline st)) j). lia.
  - rewrite Hb. unfold held. rewrite <- !app_assoc. do 2 apply Permutation_app_head.
    rewrite !app_assoc. apply Permutation_app_tail, Permutation_app_comm.
Qed.

Lemma process_ready_ledger capacity received ready hand st :
  ledger capacity received (ready ++ hand) st -> ledger capacity received hand (process_ready instant config ready st).2.
Proof.
  revert st. induction ready as [|b ready IH]; intros st Hl; simpl; [done|].
  apply process_one_ledger in Hl. destruct (process_one instant config b st) as [[[]|e] st1]; simpl in *; [by apply IH|].
  by apply discard_ledger.
Qed.

(** A change of the locals the books do not see. *)
Lemma ledger_same capacity received hand st st' :
  ledger capacity received hand st -> pr_heap st' = pr_heap st -> ps_db (pr_pipeline st') = ps_db (pr_pipeline st) ->
  pr_pending st' = pr_pending st -> pr_processed st' = pr_processed st -> pr_discarded st' = pr_discarded st ->
  ledger capacity received hand st'.
Proof. intros [Ha Hf Hb Hc] E1 E2 E3 E4 E5. split; unfold held in *; rewrite ?E1, ?E2, ?E3, ?E4, ?E5; done. Qed.

Lemma drain_ledger capacity received hand st : ledger capacity received hand st ->
  ledger capacity received hand (drain_and_process instant wall config st).2.
Proof.
  intros [Ha Hf Hb Hc]. unfold drain_and_process. rewrite drain_resolved_partition. apply process_ready_ledger.
  set (back := holds_back (pr_heap st) (wall_now wall st)).
  set (ready := pa_batch <$> List.filter (fun p => negb (back p)) (pq_batches (pr_pending st))).
  set (rest := List.filter back (pq_batches (pr_pending st))).
  assert (held st ≡ₚ (pa_batch <$> rest) ++ ready) as Hp.
  { unfold held, rest, ready. rewrite (filter_split_perm back (pq_batches (pr_pending st))) at 1.
    rewrite fmap_app. apply Permutation_app_comm. }
  split; unfold pr_heap, held; simpl.
  - intros i. change (heap (ps_world (pr_pipeline st))) with (pr_heap st). rewrite Ha, Hp, <- app_assoc. done.
  - rewrite Hp, <- app_assoc in Hf. done.
  - rewrite Hb, Hp, <- !app_assoc. done.
  - destruct Hc as [Hc1 Hc2]. split; [done|]. etrans; [apply length_filter_le|done].
Qed.

(** A batch whose windows are cancelled owes what it owed. *)
Lemma cancelled_share batch h i :
  (forall i, owed (pb_window_tokens batch) i <= unsettled h i) ->
  unsettled (batch_drop batch (fold_left (fun h t => update_cells (cancel_with_reason QueueOverflow) t h)
    (pb_window_tokens batch) h)) i = unsettled h i - owed (pb_window_tokens batch) i.
Proof.
  intros Hle.
  assert (forall j, unsettled (fold_left (fun h t => update_cells (cancel_with_reason QueueOverflow) t h)
            (pb_window_tokens batch) h) j = unsettled h j) as He by (intros j; apply unsettled_keeps_fold; auto with cells).
  unfold batch_drop. rewrite settle_fold_unsettled; [by rewrite He|]. intros j. by rewrite He.
Qed.

Lemma received_ledger capacity received batch st : ledger capacity received [batch] st ->
  ledger capacity received [] (received_step instant wall config batch st).2.
Proof.
  intros Hl. unfold received_step. pose proof Hl as [Ha Hf Hb Hc]. unfold admit_batch.
  destruct (negb _ || negb _).
  - apply (ledger_same _ _ _ _ (with_pending (pr_pending st) (read_wall st))) in Hl; try done.
    apply process_one_ledger in Hl. destruct (process_one _ _ _ _) as [[[]|e] st1]; simpl in *; [by apply drain_ledger|done].
  - destruct (Nat.leb_spec (pq_capacity (pr_pending st)) (length (pq_batches (pr_pending st)))); apply drain_ledger.
    + split; unfold pr_heap, held; simpl.
      * intros i. rewrite cancelled_share.
        -- change (heap (ps_world (pr_pipeline st))) with (pr_heap st). rewrite Ha, !debt_app, debt_cons, debt_nil. unfold held. lia.
        -- intros j. change (heap (ps_world (pr_pipeline st))) with (pr_heap st). rewrite Ha, debt_app, debt_cons, debt_nil.
           pose proof (debt_nonneg (held st) j). pose proof (others_owe (ps_db (pr_pipeline st)) j). lia.
      * rewrite app_nil_r. by apply Forall_app in Hf as [? _].
      * rewrite Hb, app_nil_r, <- !app_assoc. do 2 apply Permutation_app_head. apply Permutation_app_comm.
      * done.
    + split; unfold pr_heap, held; simpl.
      * intros i. rewrite fmap_app, app_nil_r. simpl. apply Ha.
      * rewrite fmap_app, app_nil_r. done.
      * rewrite fmap_app, app_nil_r. done.
      * rewrite length_app. simpl. destruct Hc. lia.
Qed.

Lemma flow_ledger capacity received answer hand st : ledger capacity received hand st ->
  ledger capacity received hand (flow_step instant answer st).2.
Proof.
  intros Hl. assert (ledger capacity received hand (prune_flow instant st)) as Hp by (by eapply ledger_same).
  unfold flow_step. case_bool_decide; [done|]. destruct (answer _) as [changed|e]; [|done]. by eapply ledger_same.
Qed.

(** ** The loop *)
Definition batch_of (e : ProcessorEvent (J:=J) (XE:=XE)) : list ProgramLogBatch :=
  match e with PrReceived (Some b) => [b] | _ => [] end.
Definition received_of (events : list (ProcessorEvent (J:=J) (XE:=XE) * (Db * World -> Db * World))) : list ProgramLogBatch :=
  concat ((fun ef => batch_of ef.1) <$> events).

(** Before an event the other tasks settle only what is theirs; a batch that is
    received brings what it owes. *)
Definition hands_over (ef : ProcessorEvent (J:=J) (XE:=XE) * (Db * World -> Db * World)) : Prop :=
  forall db w, let '(db', w') := ef.2 (db, w) in
  forall i, unsettled (heap w') i - others db' i = unsettled (heap w) i - others db i + debt (batch_of ef.1) i.

Lemma others_move_ledger capacity received st e f : ledger capacity received [] st -> hands_over (e, f) ->
  Forall fresh (batch_of e) -> ledger capacity (received ++ batch_of e) (batch_of e) (others_move f st).
Proof.
  intros [Ha Hf Hb Hc] Hm Hfr. specialize (Hm (ps_db (pr_pipeline st)) (ps_world (pr_pipeline st))).
  unfold others_move. simpl in Hm. destruct (f _) as [db w]. rewrite app_nil_r in Hf.
  split; unfold pr_heap, held in *; simpl; [|by apply Forall_app| |done].
  - intros i. specialize (Hm i). specialize (Ha i). rewrite app_nil_r in Ha. rewrite debt_app. lia.
  - rewrite Hb, app_nil_r, <- !app_assoc. done.
Qed.

Definition closed (capacity : nat) (received : list ProgramLogBatch) (st : State) : Prop :=
  ledger capacity received [] st /\ held st = [].
Lemma end_closed capacity received st : ledger capacity received [] st -> closed capacity received (processor_end st).
Proof.
  intros Hl. unfold processor_end. split; [|done].
  set (bs := pa_batch <$> pq_batches (pr_pending st)). pose proof Hl as [Ha Hf Hb Hc].
  assert (ledger capacity received (bs ++ []) (with_pending (with_batches [] (pr_pending st)) st)) as Hl'.
  { split; unfold pr_heap, held; simpl; [apply Ha|by apply Hf|apply Hb|]. destruct Hc. split; [done|lia]. }
  apply discard_ledger in Hl'. by eapply ledger_same.
Qed.

Lemma processor_step_ledger capacity received e st : ledger capacity received (batch_of e) st ->
  match processor_step instant wall config database_max_bytes e st with
  | inl st' => ledger capacity received [] st'
  | inr (r, st') => closed capacity received st'
  end.
Proof.
  intros Hl.
  assert (forall rst, ledger capacity received [] rst.2 ->
            match or_returns rst with
            | inl st' => ledger capacity received [] st' | inr (r, st') => closed capacity received st' end) as Hor.
  { intros [[[]|e'] st'] H; simpl in *; [done|]. by apply end_closed. }
  destruct e as [|env db|answer| |[b|]]; unfold processor_step; cbn [batch_of] in Hl.
  - by apply end_closed.
  - by apply Hor.
  - by apply Hor, flow_ledger.
  - by apply Hor, drain_ledger.
  - by apply Hor, received_ledger.
  - by apply end_closed.
Qed.

Lemma run_ledger capacity events st received r st' : ledger capacity received [] st ->
  Forall hands_over events -> Forall fresh (received_of events) -> loop events st = (r, st') ->
  exists taken rest, events = taken ++ rest /\ ledger capacity (received ++ received_of taken) [] st' /\
    (r = None -> rest = []) /\ (r <> None -> held st' = []).
Proof.
  revert st received. induction events as [|[e f] events IH]; intros st received Hl Hm Hf; simpl.
  { intros [= <- <-]. exists [], []. unfold received_of. simpl. by rewrite app_nil_r. }
  apply Forall_cons in Hm as [Hm Hms].
  assert (received_of ((e, f) :: events) = batch_of e ++ received_of events) as Er by done.
  rewrite Er in Hf. apply Forall_app in Hf as [Hfe Hf].
  pose proof (processor_step_ledger capacity _ e _ (others_move_ledger capacity received st e f Hl Hm Hfe)) as Hs.
  destruct (processor_step _ _ _ _ e (others_move f st)) as [st1|[r1 st1]].
  - intros Hrun. destruct (IH st1 _ Hs Hms Hf Hrun) as (taken & rest & -> & Hl' & Hx). exists ((e, f) :: taken), rest.
    split; [done|]. split; [|done].
    change (received_of ((e, f) :: taken)) with (batch_of e ++ received_of taken). by rewrite app_assoc.
  - intros [= <- <-]. destruct Hs as [Hs Hh]. exists [(e, f)], events. split; [done|].
    unfold received_of. simpl. rewrite app_nil_r. done.
Qed.
End Accounts.

(** C9: The processor accounts for every batch it receives, across its loop.  At
    any time each received batch was processed, dropped or is held, once, and
    the admissions not settled are those of the held batches, at most as many as
    the queue holds, and those of other tasks; when the loop returns, on a
    cancellation or any error, it holds nothing and owes nothing. *)
Theorem processor_settles_every_batch {B64 : Base64} {S256 : Sha256} {J XE : Type} {TJ : ToJson PumpEvent J}
    {DB : Database J XE (JsonError PumpEvent J)} instant wall config database_max_bytes (others : Db -> nat -> Z)
    capacity hold queue p events r st
    (others_own : forall db w db' w' i, db_step db w db' w' ->
       unsettled (heap w') i - others db' i = unsettled (heap w) i - others db i)
    (others_owe : forall db i, 0 <= others db i) :
  pending_activity_queue capacity hold = Some queue ->
  (forall i, unsettled (heap (ps_world p)) i = others (ps_db p) i) ->
  Forall (hands_over others) events -> Forall fresh (received_of events) ->
  run_batch_processor instant wall config database_max_bytes events (processor_init p queue) = (r, st) ->
  exists taken rest, events = taken ++ rest /\ (r = None -> rest = []) /\
    received_of taken ≡ₚ pr_processed st ++ pr_discarded st ++ held st /\ (length (held st) <= capacity)%nat /\
    (forall i, unsettled (pr_heap st) i = debt (held st) i + others (ps_db (pr_pipeline st)) i) /\
    (r <> None -> held st = []).
Proof.
  intros Hq Ha Hm Hf Hrun.
  assert (pq_capacity queue = capacity /\ pq_batches queue = []) as [Hc Hb].
  { unfold pending_activity_queue in Hq. destruct (_ || _); [done|]. by injection Hq as <-. }
  assert (ledger others capacity [] [] (processor_init p queue)) as Hl.
  { split; unfold pr_heap, held; simpl; rewrite ?Hb; try done. split; [done|simpl; lia]. }
  destruct (run_ledger instant wall config database_max_bytes others others_own others_owe capacity events _ [] r st Hl Hm Hf Hrun)
    as (taken & rest & He & [La Lf Lb Lc] & Hr & Hh).
  exists taken, rest. rewrite app_nil_r in Lb. split_and!; try done.
  - unfold held. rewrite length_fmap. by destruct Lc.
  - intros i. by rewrite La, app_nil_r.
Qed.

(** ** The flow *)
Section Flow.
Context {B64 : Base64} {S256 : Sha256} {J XE : Type} {TJ : ToJson PumpEvent J}.
Context {DB : Database J XE (JsonError PumpEvent J)}.
Context (instant wall : nat -> Z) (config : PipelineConfig) (database_max_bytes : Z).
Abbreviation State := (ProcessorState (DB:=DB)).
Hypothesis clock_runs : forall m n, (m <= n)%nat -> instant m <= instant n.
Hypothesis clock_started : FLOW_WINDOW_NS <= instant 0.

Definition since (cutoff : Z) (observations : list Z) : list Z := List.filter (fun t => cutoff <=? t) observations.

(** The readings kept are those not older than the last cutoff; nothing is from
    the future. *)
Definition flow_ok (recent stored : list Z) (n : nat) : Prop :=
  exists cutoff, recent = since cutoff stored /\ cutoff <= instant n - FLOW_WINDOW_NS /\
    StronglySorted Z.le stored /\ Forall (fun t => t <= instant n) stored.

Lemma since_above cutoff l : Forall (fun t => cutoff <= t) l -> since cutoff l = l.
Proof.
  induction 1 as [|t l Ht _ IH]; simpl; [done|]. by rewrite (proj2 (Z.leb_le _ _) Ht), IH.
Qed.
Lemma drop_before_since cutoff l : StronglySorted Z.le l -> drop_before cutoff l = since cutoff l.
Proof.
  induction 1 as [|t l Hl IH Ht]; simpl; [done|]. destruct (Z.ltb_spec t cutoff) as [Hlt|Hge].
  - rewrite (proj2 (Z.leb_gt _ _) Hlt). done.
  - rewrite (proj2 (Z.leb_le _ _) Hge). f_equal. symmetry. apply since_above. eapply Forall_impl; [exact Ht|]. simpl. lia.
Qed.
Lemma since_sorted cutoff l : StronglySorted Z.le l -> StronglySorted Z.le (since cutoff l).
Proof.
  induction 1 as [|t l Hl IH Ht]; simpl; [constructor|]. destruct (_ <=? _); [|done]. constructor; [done|].
  apply Forall_filter_b. done.
Qed.
Lemma since_since c c' l : c <= c' -> since c' (since c l) = since c' l.
Proof.
  intros Hc. induction l as [|t l IH]; simpl; [done|]. destruct (Z.leb_spec c t); simpl; [by rewrite IH|].
  by rewrite (proj2 (Z.leb_gt c' t)) by lia.
Qed.

(** The readings of a batch. *)
Lemma flow_ok_pushes k recent stored n : flow_ok recent stored n ->
  flow_ok (recent ++ (instant <$> seq n k)) (stored ++ (instant <$> seq n k)) (n + k).
Proof.
  revert recent stored n. induction k as [|k IH]; intros recent stored n Hok; simpl.
  { by rewrite !app_nil_r, Nat.add_0_r. }
  replace (n + S k)%nat with (S n + k)%nat by lia. csimpl.
  rewrite (cons_middle (instant n)), (cons_middle (instant n) stored), !app_assoc. apply IH.
  destruct Hok as (cutoff & -> & Hc & Hs & Hf). pose proof (clock_runs n (S n) ltac:(lia)). exists cutoff.
  split; [|split; [lia|split]].
  - unfold since. rewrite List.filter_app. simpl. unfold FLOW_WINDOW_NS in Hc. by rewrite (proj2 (Z.leb_le cutoff (instant n))) by lia.
  - clear -Hs Hf. induction Hs as [|t l Hl IH Ht]; simpl; [repeat constructor|]. apply Forall_cons in Hf as [Ht' Hf].
    constructor; [by apply IH|]. apply Forall_app. split; [done|]. by repeat constructor.
  - apply Forall_app. split; [|by repeat constructor]. eapply Forall_impl; [exact Hf|]. simpl. lia.
Qed.
Lemma flow_ok_later recent stored n n' : (n <= n')%nat -> flow_ok recent stored n -> flow_ok recent stored n'.
Proof.
  intros Hn (cutoff & -> & Hc & Hs & Hf). pose proof (clock_runs n n' Hn). exists cutoff.
  split_and!; try done; [lia|]. eapply Forall_impl; [exact Hf|]. simpl. lia.
Qed.

Definition flows (st : State) : Prop := flow_ok (pr_recent st) (pr_stored st) (pr_instants st).

Lemma cutoff_of n : flow_cutoff instant n = instant n - FLOW_WINDOW_NS.
Proof.
  unfold flow_cutoff. pose proof (clock_runs 0 n ltac:(lia)). by rewrite (proj2 (Z.leb_le _ _)) by lia.
Qed.
Lemma prune_flows st : flows st -> flows (prune_flow instant st) /\
  pr_recent (prune_flow instant st) = since (instant (pr_instants st) - FLOW_WINDOW_NS) (pr_stored st).
Proof.
  intros (cutoff & Hr & Hc & Hs & Hf).
  assert (pr_recent (prune_flow instant st) = since (instant (pr_instants st) - FLOW_WINDOW_NS) (pr_stored st)) as E.
  { simpl. rewrite cutoff_of, Hr, drop_before_since by (by apply since_sorted). by apply since_since. }
  split; [|done]. unfold flows. rewrite E. simpl.
  apply (flow_ok_later _ _ (pr_instants st)); [destruct (_ <=? _); lia|]. eexists. split_and!; try done.
Qed.

Lemma process_one_flows b st : flows st -> flows (process_one instant config b st).2.
Proof.
  intros H. unfold process_one. destruct (process_and_record_batch config b (pr_pipeline st)) as [[n|e] p];
    [exact (flow_ok_pushes (Z.to_nat n) _ _ _ H)|exact (flow_ok_pushes 0 _ _ _ H)].
Qed.
Lemma process_ready_flows ready st : flows st -> flows (process_ready instant config ready st).2.
Proof.
  revert st. induction ready as [|b ready IH]; intros st H; simpl; [done|]. apply (process_one_flows b) in H.
  destruct (process_one instant config b st) as [[[]|e] st1]; simpl in *; [by apply IH|done].
Qed.
Lemma drain_flows st : flows st -> flows (drain_and_process instant wall config st).2.
Proof. intros H. unfold drain_and_process. destruct (drain_resolved _ _ _). by apply process_ready_flows. Qed.

Lemma flow_step_flows answer st : flows st -> flows (flow_step instant answer st).2.
Proof.
  intros [H _]%prune_flows. unfold flow_step. case_bool_decide; [done|]. by destruct (answer _).
Qed.
Lemma received_flows b st : flows st -> flows (received_step instant wall config b st).2.
Proof.
  intros H. unfold received_step. destruct (admit_batch _ _ _ _) as [[[b'| |] q] h].
  - pose proof (process_one_flows b' (with_pending q (read_wall st)) H) as H1.
    destruct (process_one _ _ _ _) as [[[]|e] st1]; simpl in *; [by apply drain_flows|done].
  - by apply drain_flows.
  - by apply drain_flows.
Qed.

Lemma run_flows events st st' : flows st ->
  run_batch_processor instant wall config database_max_bytes events st = (None, st') -> flows st'.
Proof.
  revert st. induction events as [|[e f] events IH]; intros st H; simpl; [by intros [= <-]|].
  assert (flows (others_move f st)) as H1 by (unfold others_move; by destruct (f _)).
  assert (forall rst, flows rst.2 -> match or_returns (XE:=XE) rst with inl st1 => flows st1 | inr _ => True end) as Hor
    by (by intros [[[]|e'] st1]).
  assert (match processor_step instant wall config database_max_bytes e (others_move f st) with
          | inl st1 => flows st1 | inr _ => True end) as Hs.
  { destruct e as [|env db|answer| |[b|]]; unfold processor_step; try done; apply Hor; simpl;
      [done|by apply flow_step_flows|by apply drain_flows|by apply received_flows]. }
  destruct (processor_step _ _ _ _ e (others_move f st)) as [st1|[r1 st1]]; [by apply IH|done].
Qed.
End Flow.

(** The published flow is that of the last minute.  Under a monotonic clock
    that has run for a minute, a turn of the flow timer that succeeds leaves as
    current flow the number of observations stored within the sixty seconds
    before it, and it writes the database only when that number changed. *)
Theorem flow_is_of_last_minute {B64 : Base64} {S256 : Sha256} {J XE : Type} {TJ : ToJson PumpEvent J}
    {DB : Database J XE (JsonError PumpEvent J)} instant wall config database_max_bytes events p queue st answer st'
    (clock_runs : forall m n, (m <= n)%nat -> instant m <= instant n)
    (clock_started : FLOW_WINDOW_NS <= instant 0%nat) :
  run_batch_processor (DB:=DB) instant wall config database_max_bytes events (processor_init p queue) = (None, st) ->
  flow_step instant answer st = (Ok tt, st') ->
  let now := instant (pr_instants st) in
  let count := Z.of_nat (length (List.filter (fun t => now - FLOW_WINDOW_NS <=? t) (pr_stored st))) in
  count <= u64_max ->
  pr_current_flow st' = Some count /\
  (pr_current_flow st = Some count -> pr_invalidations st' = pr_invalidations st) /\
  (pr_current_flow st <> Some count -> exists changed, answer (Some count) = Ok changed /\
     pr_invalidations st' = if changed then S (pr_invalidations st) else pr_invalidations st).
Proof.
  intros Hrun Hstep now count Hcount.
  assert (flows instant (processor_init p queue)) as H0.
  { exists 0. split_and!; try done; [simpl; lia|constructor]. }
  pose proof (run_flows instant wall config database_max_bytes clock_runs clock_started events _ st H0 Hrun) as Hst.
  destruct (prune_flows instant clock_runs clock_started st Hst) as [_ Hr].
  unfold flow_step in Hstep. rewrite Hr in Hstep.
  assert (default u64_max (try_from_u 64 (Z.of_nat (length (since (instant (pr_instants st) - FLOW_WINDOW_NS) (pr_stored st)))))
          = count) as E.
  { fold now. unfold since. fold count. unfold try_from_u.
    rewrite (proj2 (Z.leb_le 0 count)), (proj2 (Z.leb_le count u64_max)); first [done|exact Hcount|unfold count; lia]. }
  rewrite E in Hstep. change (pr_current_flow (prune_flow instant st)) with (pr_current_flow st) in Hstep.
  case_bool_decide as Hc; [injection Hstep as <-; by rewrite <- Hc|].
  destruct (answer (Some count)) as [changed|e] eqn:Ha; [|done]. injection Hstep as <-. simpl.
  split_and!; [done|congruence|]. intros _. by exists changed.
Qed.

(** ** A run of the loop *)
Module SampleLoop.
#[local] Existing Instance Hexish.codec.
#[local] Existing Instance SampleNormalize.sha.
#[local] Existing Instance SampleNormalize.json.
#[local] Existing Instance SamplePipeline.keys_database.

(** A confirmed window; the collector admits the batch and sends it. *)
Definition start : PipelineState := {|
  ps_db := [];
  ps_world := with_heap
    (update_cells (fun c => (set_durable_window_id 5 c).2) SampleIntake.token
      (update_cells (fun c => (confirm c).2) SampleIntake.token (heap SampleIntake.world))) SampleIntake.world;
  ps_markets := market_registry_default |}.
Definition admits (dw : Db * World) : Db * World :=
  (dw.1, with_heap (update_cells (fun c => set_admitted (tc_admitted c + 1) c) SampleIntake.token (heap dw.2)) dw.2).
Definition events : list (ProcessorEvent (J:=PumpEventKind) (XE:=unit) * (Db * World -> Db * World)) :=
  [(PrPendingTick, id); (PrReceived (Some SamplePipeline.batch), admits);
   (PrFlowTick (fun _ => Ok true), id); (PrCancelled, id)].
Definition instant (n : nat) : Z := FLOW_WINDOW_NS + Z.of_nat n.
Definition wall (n : nat) : Z := 1000 + Z.of_nat n.
Definition queue : PendingActivityQueue := {| pq_capacity := 4; pq_maximum_hold_ms := 2000; pq_batches := [] |}.
Definition final := run_batch_processor instant wall SamplePipeline.config 0 events (processor_init start queue).
Definition before_tick := run_batch_processor instant wall SamplePipeline.config 0 (take 2 events) (processor_init start queue).

Lemma start_settled i : unsettled (heap (ps_world start)) i = 0.
Proof.
  change (heap (ps_world start)) with (<[tok_cells SampleIntake.token :=
    cells_of (heap (ps_world start)) SampleIntake.token]> (∅ : Heap)).
  unfold unsettled. destruct (Nat.eqb_spec (tok_cells SampleIntake.token) i) as [<-|Hne].
  - rewrite lookup_total_insert_eq. vm_compute. reflexivity.
  - by rewrite lookup_total_insert_ne.
Qed.

Lemma events_hand_over : Forall (hands_over (fun _ _ => 0)) events.
Proof.
  repeat constructor; intros db w; simpl; try (intros i; rewrite debt_nil; lia).
  intros i. rewrite unsettled_update, debt_cons, debt_nil. change (pb_window_tokens SamplePipeline.batch) with [SampleIntake.token].
  rewrite owed_cons, owed_nil. unfold unsettled, cells_of.
  destruct (Nat.eqb_spec (tok_cells SampleIntake.token) i) as [<-|Hne]; simpl; lia.
Qed.
End SampleLoop.
#[local] Existing Instance Hexish.codec.
#[local] Existing Instance SampleNormalize.sha.
#[local] Existing Instance SampleNormalize.json.
#[local] Existing Instance SamplePipeline.keys_database.

Lemma processor_settles_every_batch_witness :
  SampleLoop.final.1 = Some (Ok tt) /\ pr_processed SampleLoop.final.2 = [SamplePipeline.batch] /\
  (forall i, unsettled (pr_heap SampleLoop.final.2) i = 0).
Proof.
  split; [vm_compute; reflexivity|]. split; [vm_compute; reflexivity|].
  destruct (processor_settles_every_batch SampleLoop.instant SampleLoop.wall SamplePipeline.config 0 (fun _ _ => 0) 4 2000
    SampleLoop.queue SampleLoop.start SampleLoop.events SampleLoop.final.1 SampleLoop.final.2)
    as (taken & rest & _ & _ & _ & _ & Ha & Hh).
  - by intros db w db' w' i ->%SamplePipeline.world_kept.
  - done.
  - reflexivity.
  - intros i. apply SampleLoop.start_settled.
  - exact SampleLoop.events_hand_over.
  - repeat constructor.
  - unfold SampleLoop.final. apply surjective_pairing.
  - intros i. rewrite Ha, Hh; [done|]. vm_compute. discriminate.
Defined.

Lemma flow_is_of_last_minute_witness :
  exists st', flow_step SampleLoop.instant (fun _ => Ok true) SampleLoop.before_tick.2 = (Ok tt, st') /\
    pr_current_flow st' = Some 1.
Proof.
  destruct (flow_step SampleLoop.instant (fun _ => Ok true) SampleLoop.before_tick.2) as [[[]|e] st'] eqn:E;
    [|vm_compute in E; discriminate E].
  exists st'. split; [reflexivity|].
  destruct (flow_is_of_last_minute SampleLoop.instant SampleLoop.wall SamplePipeline.config 0 (take 2 SampleLoop.events)
    SampleLoop.start SampleLoop.queue SampleLoop.before_tick.2 (fun _ => Ok true) st') as [Hc _].
  - intros m n Hmn. unfold SampleLoop.instant. lia.
  - unfold SampleLoop.instant. simpl. lia.
  - vm_compute. reflexivity.
  - exact E.
  - vm_compute. discriminate.
  - rewrite Hc. vm_compute. reflexivity.
Defined.
