(* ===== verification/SourceLoop.v ===== *)
(** [apps/server/src/jobs/collector.rs]: [run_program_source], the task of each
    of the two programs: its subscription, the pool of notifications being
    collected, the sending of batches and the reconnections.

    The two sources and the other tasks share the windows, the discovery gate and
    the channel of batches.  A label is what one of them does next: a poll of the
    pool answers an await of one notification, a branch of a [select!] is taken, a
    timer runs out.  [buffer_unordered] hands a future over when its poll
    completes, so a finished notification is delivered by the step that finishes
    it; while a batch is being sent the pool is not polled. *)
From S2P Require Import Prelude.
From S2P Require Import Domain.
From S2P Require Import External.
From S2P Require Import PumpModel.
From S2P Require Import WindowToken.
From S2P Require Import WindowRegistry.
From S2P Require Import RpcModel.
From S2P Require Import DiscoveryRpc.
From S2P Require Import Intake.
From S2P Require Import Collector.
From S2P Require Import StreamControl.

(** ** The shared state *)
Record Shared {E : Type} := {
  sh_world : World;
  sh_gate : RecentSignatures;
  (** The channel of batches, and whether its receiver is gone. *)
  sh_channel : list ProgramLogBatch;
  sh_closed : bool;
  sh_cancelled : bool;
  (** What the other tasks keep. *)
  sh_others : E;
}.
#[global] Arguments Shared : clear implicits.

(** A notification in the pool: not polled yet, an error of the subscription, or
    suspended at an await. *)
Inductive Slot :=
| SlotReceived (r : ReceivedProgramLogNotification)
| SlotFailed (e : RpcError)
| SlotCollecting (c : Collecting).

(** [CollectorError] has the one value. *)
Inductive CollectorError := ProcessingQueueClosed.

(** Where [run_program_source] is: the top of its loop, the subscription, the
    [select!] of [process_live_notifications], the sending of batches, its return,
    [wait_to_reconnect]. *)
Inductive Phase :=
| AtTop
| Subscribing
| Listening (connected_at : Z)
| Sending (connected_at : Z) (batches : list ProgramLogBatch)
| Exited (connected_at : Z)
| Waiting
| Returned (r : result CollectorError unit)
| Aborted.

Record Source := {
  so_phase : Phase;
  so_slots : list Slot;
  (** The state of [live_notification_stream] is still a subscription. *)
  so_subscribed : bool;
  so_reconnect_delay : Z;
  so_reports : list SourceConnectionState;
  so_health : list Collector.DiscoveryRpcHealthUpdate;
  (** For each attempt that ended, how long it was connected; the waits. *)
  so_attempts : list (option Z);
  so_waits : list Z;
}.

Definition source_init (settings : CollectorSettings) : Source := {|
  so_phase := AtTop; so_slots := []; so_subscribed := false; so_reconnect_delay := ce_reconnect_delay settings;
  so_reports := []; so_health := []; so_attempts := []; so_waits := [] |}.

Definition with_phase (phase : Phase) (so : Source) : Source := {|
  so_phase := phase; so_slots := so_slots so; so_subscribed := so_subscribed so;
  so_reconnect_delay := so_reconnect_delay so; so_reports := so_reports so; so_health := so_health so;
  so_attempts := so_attempts so; so_waits := so_waits so |}.
Definition with_pool (slots : list Slot) (subscribed : bool) (so : Source) : Source := {|
  so_phase := so_phase so; so_slots := slots; so_subscribed := subscribed;
  so_reconnect_delay := so_reconnect_delay so; so_reports := so_reports so; so_health := so_health so;
  so_attempts := so_attempts so; so_waits := so_waits so |}.
Definition with_slots (slots : list Slot) (so : Source) : Source := with_pool slots (so_subscribed so) so.
Definition send_health (health : list Collector.DiscoveryRpcHealthUpdate) (so : Source) : Source := {|
  so_phase := so_phase so; so_slots := so_slots so; so_subscribed := so_subscribed so;
  so_reconnect_delay := so_reconnect_delay so; so_reports := so_reports so; so_health := so_health so ++ health;
  so_attempts := so_attempts so; so_waits := so_waits so |}.
Definition send_connection (state : SourceConnectionState) (so : Source) : Source := {|
  so_phase := so_phase so; so_slots := so_slots so; so_subscribed := so_subscribed so;
  so_reconnect_delay := so_reconnect_delay so; so_reports := so_reports so ++ [state]; so_health := so_health so;
  so_attempts := so_attempts so; so_waits := so_waits so |}.
Definition with_reconnect_delay (delay : Z) (so : Source) : Source := {|
  so_phase := so_phase so; so_slots := so_slots so; so_subscribed := so_subscribed so;
  so_reconnect_delay := delay; so_reports := so_reports so; so_health := so_health so;
  so_attempts := so_attempts so; so_waits := so_waits so |}.
(** The attempt is over: [wait_to_reconnect] begins. *)
Definition wait_to_reconnect (attempt : option Z) (so : Source) : Source := {|
  so_phase := Waiting; so_slots := so_slots so; so_subscribed := so_subscribed so;
  so_reconnect_delay := so_reconnect_delay so; so_reports := so_reports so; so_health := so_health so;
  so_attempts := so_attempts so ++ [attempt]; so_waits := so_waits so ++ [so_reconnect_delay so] |}.

(** A future of the pool is dropped; one that was not polled owns no admission. *)
Definition slot_drop (w : World) (slot : Slot) : World :=
  match slot with
  | SlotCollecting (AwaitPermit _ s) | SlotCollecting (AwaitTransaction s) => collect_dropped s w
  | _ => w
  end.
Definition drop_batches (bs : list ProgramLogBatch) (h : Heap) : Heap := fold_left (fun h b => batch_drop b h) bs h.

(** Nanoseconds of an [Instant] in which the subscription was connected. *)
Definition elapsed (connected_at now : Z) : Z := Z.max 0 (now - connected_at).

Definition sends (connected_at : Z) (bs : list ProgramLogBatch) : Phase :=
  match bs with [] => Listening connected_at | _ => Sending connected_at bs end.

Section Step.
Context {E : Type} {B64 : Base64} (settings : CollectorSettings) (maximum_active queue_capacity : nat).
Abbreviation State := (Shared E * Source)%type.

Definition runtime_config : CollectorRuntimeConfig := {|
  cc_network := ce_network settings; cc_maximum_active := maximum_active;
  cc_maximum_discovery_age_ms := ce_maximum_discovery_age settings;
  cc_observation_window_duration_ms := ce_observation_window_duration settings |}.

Definition set_shared_world (w : World) (sh : Shared E) : Shared E := {|
  sh_world := w; sh_gate := sh_gate sh; sh_channel := sh_channel sh; sh_closed := sh_closed sh;
  sh_cancelled := sh_cancelled sh; sh_others := sh_others sh |}.
Definition set_gate (gate : RecentSignatures) (sh : Shared E) : Shared E := {|
  sh_world := sh_world sh; sh_gate := gate; sh_channel := sh_channel sh; sh_closed := sh_closed sh;
  sh_cancelled := sh_cancelled sh; sh_others := sh_others sh |}.
Definition enqueue (b : ProgramLogBatch) (sh : Shared E) : Shared E := {|
  sh_world := sh_world sh; sh_gate := sh_gate sh; sh_channel := sh_channel sh ++ [b]; sh_closed := sh_closed sh;
  sh_cancelled := sh_cancelled sh; sh_others := sh_others sh |}.
Definition drop_sent (bs : list ProgramLogBatch) (sh : Shared E) : Shared E :=
  set_shared_world (with_heap (drop_batches bs (heap (sh_world sh))) (sh_world sh)) sh.

(** [process_live_notifications] is left: the pool is dropped. *)
Definition leave (phase : Phase) (st : State) : State :=
  let '(sh, so) := st in
  (set_shared_world (fold_left slot_drop (so_slots so) (sh_world sh)) sh, with_phase phase (with_pool [] false so)).

(** What a poll of the [i]th future left of it. *)
Definition polled (connected_at : Z) (i : nat) (c : Collecting) (st : State) : State :=
  let '(sh, so) := st in
  match c with
  | Finished outcome health =>
      let so := with_slots (delete i (so_slots so)) (send_health health so) in
      match outcome with
      | Batches bs => (sh, with_phase (sends connected_at bs) so)
      | Skipped => (sh, so)
      | Subscription _ => leave (Exited connected_at) (sh, so)
      end
  | _ => (sh, with_slots (<[i := SlotCollecting c]> (so_slots so)) so)
  end.

(** What one turn of [live_notification_stream] yields: [None] when
    [next_notification] timed out. *)
Definition received_notification (answer : option (result RpcError ProgramLogNotification)) (now : Z) : Slot :=
  match answer with
  | Some (Ok n) => SlotReceived {| rn_notification := n; rn_received_time_unix_ms := now |}
  | Some (Err e) => SlotFailed e
  | None => SlotFailed (SubscriptionClosed ("no program-log notification arrived within " +:+
                          pretty (ce_subscription_idle_timeout settings) +:+ " ms"))
  end.
Definition yields_notification (slot : Slot) : bool := match slot with SlotReceived _ => true | _ => false end.

Inductive SourceLabel :=
| Proceeds (now : Z)
| Subscribes (answer : option (result RpcError unit)) (now : Z)
| Receives (answer : option (result RpcError ProgramLogNotification)) (now : Z)
| Starts (i : nat) (now1 now2 instant : Z)
| Permits (i : nat) (permit : bool)
| Fetches (i : nat) (reply : option (result RpcError (option TransactionRecord)))
| Fails (i : nat)
| Ends
| SeesCancelled
| SendsBatch
| DropsBatch
| WaitEnds
| IsAborted.

(** The loop around one connection. *)
Definition connection_step (l : SourceLabel) (st : State) : option State :=
  let '(sh, so) := st in
  match so_phase so, l with
  | AtTop, Proceeds _ =>
      Some (if sh_cancelled sh then (sh, with_phase (Returned (Ok tt)) so)
            else (sh, with_phase Subscribing (send_connection SourceConnecting so)))
  | Subscribing, Subscribes (Some (Ok _)) now =>
      Some (sh, with_phase (Listening now) (with_pool [] true (send_connection SourceReady so)))
  | Subscribing, Subscribes _ _ =>
      Some (sh, wait_to_reconnect None (send_connection SourceDisconnectedState so))
  | Exited connected_at, Proceeds now =>
      if sh_cancelled sh then Some (sh, with_phase (Returned (Ok tt)) so) else
      let so := send_connection SourceDisconnectedState so in
      let so := if 1000000 * ce_subscription_idle_timeout settings <=? elapsed connected_at now
                then with_reconnect_delay (ce_reconnect_delay settings) so else so in
      Some (sh, wait_to_reconnect (Some (elapsed connected_at now)) so)
  | Waiting, WaitEnds =>
      Some (sh, with_phase AtTop (with_reconnect_delay
                  (next_reconnect_delay (so_reconnect_delay so) (ce_reconnect_delay settings)) so))
  | _, _ => None
  end.

(** The pool of [process_live_notifications]. *)
Definition pool_step (program : PumpProgram) (connected_at : Z) (l : SourceLabel) (st : State) : option State :=
  let '(sh, so) := st in
  match l with
  | Receives answer now =>
      if so_subscribed so && (Z.of_nat (length (so_slots so)) <? ce_notification_processing_capacity settings) then
        let slot := received_notification answer now in
        Some (sh, with_pool (so_slots so ++ [slot]) (yields_notification slot) so)
      else None
  | Starts i now1 now2 instant =>
      match so_slots so !! i with
      | Some (SlotReceived r) =>
          let '(c, gate, w) := collect_start runtime_config program r now1 now2 instant (sh_gate sh) (sh_world sh) in
          Some (polled connected_at i c (set_gate gate (set_shared_world w sh), so))
      | _ => None
      end
  | Permits i permit =>
      match so_slots so !! i with
      | Some (SlotCollecting (AwaitPermit _ s)) =>
          let '(c, w) := collect_permitted permit s (sh_world sh) in
          Some (polled connected_at i c (set_shared_world w sh, so))
      | _ => None
      end
  | Fetches i reply =>
      match so_slots so !! i with
      | Some (SlotCollecting (AwaitTransaction s)) =>
          let '(c, w) := collect_fetched reply s (sh_world sh) in
          Some (polled connected_at i c (set_shared_world w sh, so))
      | _ => None
      end
  | Fails i =>
      match so_slots so !! i with
      | Some (SlotFailed e) => Some (polled connected_at i (Finished (Subscription e) []) st)
      | _ => None
      end
  | Ends => match so_slots so with
            | [] => if so_subscribed so then None else Some (leave (Exited connected_at) st)
            | _ => None
            end
  | SeesCancelled => if sh_cancelled sh then Some (leave (Exited connected_at) st) else None
  | _ => None
  end.

(** [send_raw_batch] of the batches a notification gave. *)
Definition send_step (connected_at : Z) (b : ProgramLogBatch) (rest : list ProgramLogBatch) (l : SourceLabel)
    (st : State) : option State :=
  let '(sh, so) := st in
  match l with
  | SendsBatch =>
      if sh_closed sh then Some (leave (Returned (Err ProcessingQueueClosed)) (drop_sent (b :: rest) sh, so))
      else if (length (sh_channel sh) <? queue_capacity)%nat
           then Some (enqueue b sh, with_phase (sends connected_at rest) so)
           else None
  | DropsBatch =>
      if sh_cancelled sh then Some (drop_sent [b] sh, with_phase (sends connected_at rest) so) else None
  | _ => None
  end.

(** The task is aborted at an await. *)
Definition abort_source (st : State) : option State :=
  let '(sh, so) := st in
  match so_phase so with
  | Subscribing | Waiting | Listening _ => Some (leave Aborted st)
  | Sending _ bs => Some (leave Aborted (drop_sent bs sh, so))
  | _ => None
  end.

Definition source_step (program : PumpProgram) (l : SourceLabel) (st : State) : option State :=
  match l, so_phase st.2 with
  | IsAborted, _ => abort_source st
  | _, Listening connected_at => pool_step program connected_at l st
  | _, Sending connected_at (b :: rest) => send_step connected_at b rest l st
  | _, _ => connection_step l st
  end.

(** ** The two sources among the other tasks *)
Record System := { sy_shared : Shared E; sy_source : PumpProgram -> Source }.
Definition set_source (p : PumpProgram) (so : Source) (sources : PumpProgram -> Source) : PumpProgram -> Source :=
  fun q => if bool_decide (q = p) then so else sources q.

Inductive SourcesLabel := SourceMoves (p : PumpProgram) (l : SourceLabel) | OthersMove (f : Shared E -> Shared E).

Definition sources_step (l : SourcesLabel) (sy : System) : option System :=
  match l with
  | SourceMoves p l =>
      '(sh, so) ← source_step p l (sy_shared sy, sy_source sy p);
      Some {| sy_shared := sh; sy_source := set_source p so (sy_source sy) |}
  | OthersMove f => Some {| sy_shared := f (sy_shared sy); sy_source := sy_source sy |}
  end.
Fixpoint run_sources (ls : list SourcesLabel) (sy : System) : option System :=
  match ls with [] => Some sy | l :: ls => sy ← sources_step l sy; run_sources ls sy end.

Definition sources_init (sh : Shared E) : System := {| sy_shared := sh; sy_source := fun _ => source_init settings |}.
End Step.
