(* ===== verification/SourceLoopProofs.v ===== *)
(** The two sources of the collector among the other tasks: what they owe
    ([SourceLoop.owned]), the schedule of their reconnections, and a run of both. *)
From S2P Require Import Prelude.
From S2P Require Import ListFacts.
From S2P Require Import Domain.
From S2P Require Import External.
From S2P Require Import PumpModel.
From S2P Require Import WindowToken.
From S2P Require Import WindowTokenProofs.
From S2P Require Import WindowRegistry.
From S2P Require Import WindowRegistryInv.
From S2P Require Import WindowRegistryTheorems.
From S2P Require Import RpcModel.
From S2P Require Import DiscoveryRpc.
From S2P Require Import Intake.
From S2P Require Import IntakeProofs.
From S2P Require Import IntakeTheorems.
From S2P Require Import Collector.
From S2P Require Import CollectorProofs.
From S2P Require Import StreamControl.
From S2P Require Import SourceLoop.

(** ** The cells the tasks drop stay well formed *)
Section Cells.
Context (n : nat).

Lemma fold_heap_le (f : Heap -> Token -> Heap) ts h :
  (forall h t, (forall i c, h !! i = Some c -> cells_ok c) -> is_Some (h !! tok_cells t) -> heap_le h (f h t)) ->
  (forall i c, h !! i = Some c -> cells_ok c) -> (forall t, t ∈ ts -> is_Some (h !! tok_cells t)) ->
  heap_le h (fold_left f ts h).
Proof.
  intros Hf. revert h. induction ts as [|t ts IH]; intros h Hok Hts; simpl; [by apply heap_le_refl|].
  assert (heap_le h (f h t)) as Hle by (apply Hf; [done|apply Hts; left]).
  eapply heap_le_trans; [exact Hle|]. destruct Hle as [Hdom Hle].
  assert (forall j, is_Some (h !! j) <-> is_Some (f h t !! j)) as Hd by (intros j; by rewrite <- !elem_of_dom, Hdom).
  apply IH; [|intros t' Ht'; apply Hd, Hts; by right].
  intros i c' Hc'. destruct (proj2 (Hd i) (mk_is_Some _ _ Hc')) as [c Hc]. by destruct (Hle i c c' Hc Hc').
Qed.

Lemma settle_token_le failed h t : (forall i c, h !! i = Some c -> cells_ok c) -> is_Some (h !! tok_cells t) ->
  heap_le h (settle_token failed h t).
Proof.
  intros Hok Ht. unfold settle_token.
  assert (forall h1, heap_le h h1 -> heap_le h (update_cells (fun c => (mark_settled c).2) t h1)) as Hs.
  { intros h1 Hle. eapply heap_le_trans; [exact Hle|]. destruct Hle as [Hdom Hle].
    assert (forall j, is_Some (h !! j) <-> is_Some (h1 !! j)) as Hd by (intros j; by rewrite <- !elem_of_dom, Hdom).
    apply heap_le_update; [apply (cell_op_call CallMarkSettled)| |by apply Hd].
    intros i c' Hc'. destruct (proj2 (Hd i) (mk_is_Some _ _ Hc')) as [c Hc]. by destruct (Hle i c c' Hc Hc'). }
  apply Hs. destruct failed; [apply heap_le_update; auto with cells|by apply heap_le_refl].
Qed.

Lemma owed_alloc ts h : (forall i, owed ts i <= unsettled h i) -> forall t, t ∈ ts -> is_Some (h !! tok_cells t).
Proof.
  intros Hle t (l1 & l2 & ->)%list_elem_of_split. specialize (Hle (tok_cells t)).
  rewrite owed_app, owed_cons, Nat.eqb_refl in Hle.
  pose proof (owed_nonneg l1 (tok_cells t)). pose proof (owed_nonneg l2 (tok_cells t)).
  unfold unsettled in Hle. rewrite lookup_total_alt in Hle. destruct (h !! tok_cells t); [done|]. simpl in Hle. lia.
Qed.

Lemma world_ok_fold (f : Heap -> Token -> Heap) ts w : world_ok n w ->
  (forall h t, (forall i c, h !! i = Some c -> cells_ok c) -> is_Some (h !! tok_cells t) -> heap_le h (f h t)) ->
  (forall t, t ∈ ts -> is_Some (heap w !! tok_cells t)) -> world_ok n (with_heap (fold_left f ts (heap w)) w).
Proof. intros Hw Hf Hts. apply ok_with_heap; [done|]. apply fold_heap_le; [done|by eapply ok_heap_cells|done]. Qed.

Lemma world_ok_settle failed ts w : world_ok n w -> (forall i, owed ts i <= unsettled (heap w) i) ->
  world_ok n (with_heap (fold_left (settle_token failed) ts (heap w)) w).
Proof. intros Hw Hle. apply world_ok_fold; [done|apply settle_token_le|by apply owed_alloc]. Qed.

Lemma with_heap_twice h h' w : with_heap h' (with_heap h w) = with_heap h' w.
Proof. done. Qed.

Lemma world_ok_drop_batches bs w : world_ok n w ->
  (forall i, owed (concat (pb_window_tokens <$> bs)) i <= unsettled (heap w) i) ->
  world_ok n (with_heap (drop_batches bs (heap w)) w).
Proof.
  revert w. induction bs as [|b bs IH]; intros w Hw Hle; [by destruct w|]. csimpl in Hle. unfold drop_batches. simpl.
  assert (forall j, owed (pb_window_tokens b) j + owed (concat (pb_window_tokens <$> bs)) j <= unsettled (heap w) j) as Hle'.
  { intros j. specialize (Hle j). by rewrite owed_app in Hle. }
  assert (forall j, owed (pb_window_tokens b) j <= unsettled (heap w) j) as Hb.
  { intros j. specialize (Hle' j). pose proof (owed_nonneg (concat (pb_window_tokens <$> bs)) j). lia. }
  assert (world_ok n (with_heap (batch_drop b (heap w)) w)) as Hw1 by by apply world_ok_settle.
  apply (IH _) in Hw1; [done|]. intros j. simpl. unfold batch_drop.
  rewrite settle_fold_unsettled by done. specialize (Hle' j). lia.
Qed.

Lemma world_ok_guard_drop provisions w : world_ok n w ->
  (forall i, owed (new_tokens provisions) i <= unsettled (heap w) i) ->
  world_ok n (with_heap (guard_drop provisions (heap w)) w).
Proof.
  intros Hw Hle. unfold guard_drop, cancel_new_provisions.
  set (h1 := fold_left (fun h t => update_cells cancel_if_pending t h) (new_tokens provisions) (heap w)).
  assert (world_ok n (with_heap h1 w)) as Hw1.
  { apply (world_ok_fold (fun h t => update_cells cancel_if_pending t h)); [done| |by apply owed_alloc].
    intros h t Hok Ht. apply heap_le_update; auto with cells. }
  apply (world_ok_settle false (new_tokens provisions)) in Hw1; [done|].
  intros i. simpl. unfold h1. rewrite unsettled_keeps_fold by auto with cells. apply Hle.
Qed.

Lemma world_ok_collect_dropped s w : world_ok n w -> (forall i, 0 <= share_of_others (AwaitTransaction s) w i) ->
  world_ok n (collect_dropped s w).
Proof.
  unfold share_of_others. simpl. intros Hw H. unfold collect_dropped, tracked_drop.
  assert (forall i, owed (new_tokens (su_provisions s)) i + owed (su_tracked s) i <= unsettled (heap w) i) as Hle.
  { intros i. specialize (H i). rewrite owed_app in H. lia. }
  assert (forall i, owed (new_tokens (su_provisions s)) i <= unsettled (heap w) i) as Hn.
  { intros i. specialize (Hle i). pose proof (owed_nonneg (su_tracked s) i). lia. }
  pose proof (world_ok_guard_drop _ _ Hw Hn) as Hw1.
  apply (world_ok_settle true (su_tracked s)) in Hw1; [done|].
  intros i. simpl. rewrite guard_drop_unsettled by done. specialize (Hle i). lia.
Qed.

Lemma world_ok_abandon s health w : world_ok n w -> (forall i, 0 <= share_of_others (AwaitTransaction s) w i) ->
  world_ok n (abandon s health w).2.
Proof.
  unfold share_of_others. simpl. intros Hw H. apply world_ok_guard_drop; [done|].
  intros i. specialize (H i). rewrite owed_app in H. pose proof (owed_nonneg (su_tracked s) i). lia.
Qed.

Lemma task_step_world_ok c w c' w' : world_ok n w -> (forall i, 0 <= share_of_others c w i) ->
  task_step (c, w) (c', w') -> world_ok n w'.
Proof.
  intros Hw H Hstep. inversion Hstep as [timeout permit s w0 E1 E2|reply s w0 E1 E2|timeout s w0 E1 E2|s w0 E1 E2];
    subst; [| |by apply world_ok_collect_dropped|by apply world_ok_collect_dropped];
    pose proof (fun health => world_ok_abandon s health w Hw H) as Ha; revert E2;
    unfold collect_permitted, collect_fetched;
    repeat case_match; intros E2; simplify_eq;
    match goal with
    | E : abandon _ ?health _ = _ |- _ => specialize (Ha health); by rewrite E in Ha
    | _ => done
    end.
Qed.
End Cells.

(** ** A notification that starts to be collected *)
Section Start.
Context {B64 : Base64} (n : nat).

Lemma unsettled_nonneg w i : world_ok n w -> 0 <= unsettled (heap w) i.
Proof.
  intros Hw. unfold unsettled. destruct (heap w !! i) as [c|] eqn:E; [|by rewrite lookup_total_alt, E].
  rewrite (lookup_total_correct _ _ _ E). destruct (wf_cells _ _ Hw _ _ E) as [[_ _ ? _ _ _] _]. lia.
Qed.

Lemma allocated_update f t h i : is_Some (h !! i) -> is_Some (update_cells f t h !! i).
Proof.
  intros Hi. unfold update_cells. destruct (decide (tok_cells t = i)) as [->|Hne]; [by rewrite lookup_insert_eq|].
  by rewrite lookup_insert_ne.
Qed.

Lemma evict_allocated w i : is_Some (heap w !! i) -> is_Some (heap (evict_if_full n w) !! i).
Proof. intros Hi. unfold evict_if_full. repeat case_match; try done. by apply allocated_update. Qed.

Lemma provision_allocated w target mint opened duration i :
  let '(pv, w') := provision_target n w target mint opened duration in
  (is_Some (heap w !! i) -> is_Some (heap w' !! i)) /\
  (pv_newly_opened pv = true -> is_Some (heap w' !! tok_cells (pv_token pv))).
Proof.
  unfold provision_target.
  set (w1 := with_reg (rotate_closed_windows (heap w) opened (reg w)) w).
  assert (let '(pv, w') := open_window (evict_if_full n w1) target mint opened (closes_at opened duration) in
    (is_Some (heap w !! i) -> is_Some (heap w' !! i)) /\ (pv_newly_opened pv = true -> is_Some (heap w' !! tok_cells (pv_token pv))))
    as Hopen.
  { simpl. split; [|by rewrite lookup_insert_eq]. intros Hi. apply (evict_allocated w1) in Hi.
    destruct (decide (next_cell (evict_if_full n w1) = i)) as [->|Hne]; [by rewrite lookup_insert_eq|].
    by rewrite lookup_insert_ne. }
  destruct (windows (reg w1) !! target); [|exact Hopen]. by destruct (is_open_at _ _ _).
Qed.

Lemma provision_seeds_allocated received duration seeds w :
  let '(ps, w') := provision_seeds n received duration seeds w in
  (forall i, is_Some (heap w !! i) -> is_Some (heap w' !! i)) /\
  (forall t, t ∈ new_tokens ps -> is_Some (heap w' !! tok_cells t)).
Proof.
  revert w. induction seeds as [|seed seeds IH]; intros w; simpl; [by split; [|intros t ?%elem_of_nil]|].
  pose proof (provision_allocated w (seed_target seed) (seed_mint seed) received duration) as H1.
  destruct (provision_target _ _ _ _ _ _) as [p w1]. specialize (IH w1).
  destruct (provision_seeds _ _ _ _ w1) as [ps w2]. destruct IH as [IHk IHn].
  split; [intros i Hi; by apply IHk, (proj1 (H1 i))|].
  intros t. rewrite new_tokens_cons. intros [Ht|Ht]%elem_of_app; [|by apply IHn].
  unfold new_tokens in Ht. simpl in Ht. destruct (pv_newly_opened p) eqn:Ep; [|by apply elem_of_nil in Ht].
  apply list_elem_of_singleton in Ht as ->. by apply IHk, (proj2 (H1 0%nat)).
Qed.

Lemma admit_provision_le h t : (forall i c, h !! i = Some c -> cells_ok c) -> is_Some (h !! tok_cells t) ->
  heap_le h (admit_provision h t).
Proof.
  intros Hok Ht. unfold admit_provision.
  destruct (mark_admitted _).1; apply heap_le_update; auto with cells.
Qed.

Lemma world_ok_collect_start config program r now1 now2 instant gate w :
  cc_maximum_active config = n -> (0 < n)%nat -> world_ok n w ->
  Z.of_nat (length (nt_log_messages (rn_notification r))) <= u64_max ->
  world_ok n (collect_start config program r now1 now2 instant gate w).2.
Proof.
  intros Hc Hn Hw Hlen. unfold collect_start. rewrite Hc.
  set (w0 := record_source_progress w (pump_source_program program) (rn_received_time_unix_ms r)).
  assert (world_ok n w0) as Hw0 by by apply ok_progress.
  pose proof (classify_world_ok n w0 (rn_notification r) (cc_network config)
    (cc_maximum_discovery_age_ms config) (rn_received_time_unix_ms r) now1 Hw0 Hlen) as Hw1.
  pose proof (fun i => classify_notification_share w0 (rn_notification r) (cc_network config)
    (cc_maximum_discovery_age_ms config) (rn_received_time_unix_ms r) now1 i) as Hcl.
  destruct (classify_notification _ _ _ _ _ _) as [d w1]. simpl in Hw1. destruct d as [seeds tracked|tracked|reason]; [|done|done].
  destruct (claim_at gate _ instant) as [claimed gate']. destruct claimed; simpl; [|done].
  pose proof (provision_seeds_opening n (rn_received_time_unix_ms r)
    (cc_observation_window_duration_ms config) seeds w1 Hn Hw1) as Hop.
  pose proof (provision_seeds_allocated (rn_received_time_unix_ms r)
    (cc_observation_window_duration_ms config) seeds w1) as Hal.
  destruct (provision_seeds _ _ _ _ _) as [ps w2]. destruct Hop as [Hop Hw2]. destruct Hal as [_ Hal].
  set (w3 := with_heap (guard_new ps (heap w2)) w2).
  assert (world_ok n w3) as Hw3 by (apply world_ok_fold; [done|apply admit_provision_le|done]).
  set (s := {| su_received := r; su_provisions := ps; su_tracked := tracked |}).
  assert (world_ok n (abandon s [] w3).2) as Hab.
  { apply world_ok_abandon; [done|]. intros i. unfold share_of_others. simpl. unfold w3, guard_new. simpl.
    rewrite guard_new_unsettled, owed_app, (op_unsettled _ _ _ Hop), Hcl;
      [|apply Hop|intros t Ht; by destruct (op_new _ _ _ Hop t Ht)].
    pose proof (unsettled_nonneg w0 i Hw0). unfold tracked_of. lia. }
  destruct (discovery_admission_timeout _ _ _ _); [destruct (negb _)|]; done.
Qed.

End Start.

(** ** What a source owes *)
Definition slot_tokens (slot : Slot) : list Token := match slot with SlotCollecting c => held c | _ => [] end.
Definition pool_tokens (slots : list Slot) : list Token := concat (slot_tokens <$> slots).
Definition batch_tokens (bs : list ProgramLogBatch) : list Token := concat (pb_window_tokens <$> bs).
Definition sending (phase : Phase) : list ProgramLogBatch := match phase with Sending _ bs => bs | _ => [] end.
Definition owned (so : Source) : list Token := pool_tokens (so_slots so) ++ batch_tokens (sending (so_phase so)).

(** What the pool holds: notifications a [usize] counts the logs of, suspended
    ones, and nothing outside the connection. *)
Definition notification_ok (n : ProgramLogNotification) : Prop := Z.of_nat (length (nt_log_messages n)) <= u64_max.
Definition slot_ok (slot : Slot) : Prop :=
  match slot with
  | SlotReceived r => notification_ok (rn_notification r)
  | SlotFailed _ => True
  | SlotCollecting c => (0 < awaits c)%nat
  end.
Definition connected (phase : Phase) : bool := match phase with Listening _ | Sending _ _ => true | _ => false end.

Lemma pool_tokens_delete slots i slot j : slots !! i = Some slot ->
  owed (pool_tokens slots) j = owed (slot_tokens slot) j + owed (pool_tokens (delete i slots)) j.
Proof.
  intros Hi. rewrite delete_take_drop. rewrite <- (take_drop_middle slots i slot Hi) at 1.
  unfold pool_tokens. rewrite !fmap_app, !concat_app, !owed_app. csimpl. rewrite owed_app. lia.
Qed.
Lemma pool_tokens_insert slots i slot slot' j : slots !! i = Some slot ->
  owed (pool_tokens (<[i := slot']> slots)) j = owed (slot_tokens slot') j + owed (pool_tokens (delete i slots)) j.
Proof.
  intros Hi. assert (i < length slots)%nat by (by apply lookup_lt_Some in Hi).
  rewrite (pool_tokens_delete _ i slot') by (by apply list_lookup_insert_eq).
  rewrite !delete_take_drop, take_insert_ge, drop_insert_lt by lia. done.
Qed.
Lemma pool_tokens_snoc slots slot j :
  owed (pool_tokens (slots ++ [slot])) j = owed (pool_tokens slots) j + owed (slot_tokens slot) j.
Proof. unfold pool_tokens. rewrite fmap_app, concat_app, owed_app. csimpl. by rewrite app_nil_r. Qed.
Lemma batch_tokens_cons b bs j : owed (batch_tokens (b :: bs)) j = owed (pb_window_tokens b) j + owed (batch_tokens bs) j.
Proof. unfold batch_tokens. csimpl. by rewrite owed_app. Qed.
Lemma batch_tokens_snoc bs b j : owed (batch_tokens (bs ++ [b])) j = owed (batch_tokens bs) j + owed (pb_window_tokens b) j.
Proof. unfold batch_tokens. rewrite fmap_app, concat_app, owed_app. csimpl. by rewrite app_nil_r. Qed.
Lemma sending_sends connected_at bs : sending (sends connected_at bs) = bs.
Proof. by destruct bs. Qed.

Section Accounts.
Context {E : Type} {B64 : Base64} (settings : CollectorSettings) (n queue_capacity : nat).
Hypothesis windows_allowed : (0 < n)%nat.

(** The unsettled admissions are those of the source, of the batches in the
    channel and of the rest of the program. *)
Record account (rest : nat -> Z) (sh : Shared E) (so : Source) : Prop := {
  ac_world : world_ok n (sh_world sh);
  ac_owed i : unsettled (heap (sh_world sh)) i = owed (owned so) i + owed (batch_tokens (sh_channel sh)) i + rest i;
  ac_slots : Forall slot_ok (so_slots so);
  ac_pool : Z.of_nat (length (so_slots so)) <= Z.max 0 (ce_notification_processing_capacity settings);
  ac_connected : connected (so_phase so) = false -> so_slots so = [];
}.

Context (rest : nat -> Z).
Hypothesis rest_owe : forall i, 0 <= rest i.

Lemma slot_drop_account w slot : slot_ok slot -> world_ok n w ->
  (forall i, owed (slot_tokens slot) i <= unsettled (heap w) i) ->
  world_ok n (slot_drop w slot) /\
  forall i, unsettled (heap (slot_drop w slot)) i = unsettled (heap w) i - owed (slot_tokens slot) i.
Proof.
  intros Hok Hw Hle. destruct slot as [r|e|[o hs|t s|s]]; simpl in *; try (split; [done|intros i; rewrite owed_nil; lia]); try lia.
  all: assert (forall i, 0 <= share_of_others (AwaitTransaction s) w i) as H
         by (intros i; specialize (Hle i); unfold share_of_others; simpl; lia).
  all: split; [by apply world_ok_collect_dropped|intros i; exact (collect_dropped_share s w H i)].
Qed.

Lemma drop_slots_account slots w : Forall slot_ok slots -> world_ok n w ->
  (forall i, owed (pool_tokens slots) i <= unsettled (heap w) i) ->
  world_ok n (fold_left slot_drop slots w) /\
  forall i, unsettled (heap (fold_left slot_drop slots w)) i = unsettled (heap w) i - owed (pool_tokens slots) i.
Proof.
  intros Hs. revert w. induction Hs as [|slot slots Hslot Hs IH]; intros w Hw Hle; simpl.
  { split; [done|]. intros i. change (pool_tokens []) with (@nil Token). rewrite owed_nil. lia. }
  assert (forall i, owed (pool_tokens (slot :: slots)) i = owed (slot_tokens slot) i + owed (pool_tokens slots) i) as Hc.
  { intros i. unfold pool_tokens. csimpl. by rewrite owed_app. }
  destruct (slot_drop_account w slot Hslot Hw) as [Hw1 Hu1].
  { intros i. specialize (Hle i). rewrite Hc in Hle. pose proof (owed_nonneg (pool_tokens slots) i). lia. }
  destruct (IH _ Hw1) as [Hw2 Hu2].
  { intros i. rewrite Hu1. specialize (Hle i). rewrite Hc in Hle. lia. }
  split; [done|]. intros i. rewrite Hu2, Hu1, Hc. lia.
Qed.

(** The pool is dropped when the connection is left. *)
Lemma leave_account phase (sh : Shared E) so : connected phase = false -> world_ok n (sh_world sh) -> Forall slot_ok (so_slots so) ->
  (forall i, unsettled (heap (sh_world sh)) i = owed (pool_tokens (so_slots so)) i + owed (batch_tokens (sh_channel sh)) i + rest i) ->
  account rest (leave phase (sh, so)).1 (leave phase (sh, so)).2.
Proof.
  intros Hp Hw Hs Ha. destruct (drop_slots_account (so_slots so) (sh_world sh) Hs Hw) as [Hw' Hu].
  { intros i. rewrite Ha. specialize (rest_owe i). pose proof (owed_nonneg (batch_tokens (sh_channel sh)) i). lia. }
  constructor; simpl; try done; [|lia].
  intros i. rewrite Hu, Ha. unfold owned. simpl. assert (sending phase = []) as -> by by destruct phase.
  change (batch_tokens []) with (@nil Token). rewrite owed_nil. lia.
Qed.

(** Batches of the source are dropped. *)
Lemma drop_sent_unsettled bs (sh : Shared E) : world_ok n (sh_world sh) ->
  (forall i, owed (batch_tokens bs) i <= unsettled (heap (sh_world sh)) i) ->
  world_ok n (sh_world (drop_sent bs sh)) /\ sh_channel (drop_sent bs sh) = sh_channel sh /\
  forall i, unsettled (heap (sh_world (drop_sent bs sh))) i = unsettled (heap (sh_world sh)) i - owed (batch_tokens bs) i.
Proof.
  intros Hw Hle. split; [by apply world_ok_drop_batches|]. split; [done|]. intros i. by apply drop_batches_share.
Qed.

(** The poll of a future: what it left takes the place of what it was. *)
Lemma polled_account connected_at i slot c sh so : so_phase so = Listening connected_at -> so_slots so !! i = Some slot ->
  world_ok n (sh_world sh) -> Forall slot_ok (so_slots so) ->
  Z.of_nat (length (so_slots so)) <= Z.max 0 (ce_notification_processing_capacity settings) ->
  (forall j, unsettled (heap (sh_world sh)) j = owed (held c) j + owed (pool_tokens (delete i (so_slots so))) j +
     owed (batch_tokens (sh_channel sh)) j + rest j) ->
  account rest (polled connected_at i c (sh, so)).1 (polled connected_at i c (sh, so)).2.
Proof.
  intros Hp Hi Hw Hs Hn Ha.
  assert (Forall slot_ok (delete i (so_slots so))) as Hs' by by apply Forall_delete.
  assert (Z.of_nat (length (delete i (so_slots so))) <= Z.max 0 (ce_notification_processing_capacity settings)) as Hn'.
  { rewrite length_delete by done. lia. }
  assert ((0 < awaits c)%nat -> account rest sh (with_slots (<[i := SlotCollecting c]> (so_slots so)) so)) as Hstay.
  { intros Hc'. constructor; simpl; try done; [|by apply Forall_insert|by rewrite length_insert|by rewrite Hp].
    intros j. unfold owned. simpl. rewrite Hp. simpl. rewrite app_nil_r, (pool_tokens_insert _ _ slot) by done. apply Ha. }
  destruct c as [[bs| |e] health|t s|s]; simpl in *; [| | |apply Hstay; lia|apply Hstay; lia].
  - constructor; simpl; try done; [|by destruct bs].
    intros j. unfold owned. simpl. rewrite sending_sends, owed_app, Ha. fold (batch_tokens bs). lia.
  - constructor; simpl; rewrite ?Hp; try done.
    intros j. unfold owned. simpl. rewrite Hp. simpl. rewrite app_nil_r, Ha, owed_nil. lia.
  - apply (leave_account (Exited connected_at) sh (with_slots (delete i (so_slots so)) (send_health health so)));
      done.
Qed.

Lemma polled_channel connected_at i c (sh : Shared E) so :
  sh_channel (polled connected_at i c (sh, so)).1 = sh_channel sh.
Proof. by destruct c as [[]| |]. Qed.

Definition label_ok (l : SourceLabel) : Prop :=
  match l with Receives (Some (Ok nt)) _ => notification_ok nt | _ => True end.
Definition fits (sh : Shared E) : Prop := (length (sh_channel sh) <= queue_capacity)%nat.

(** A step that moves neither the windows nor the channel and keeps the pool. *)
Lemma account_same sh so so' : account rest sh so -> so_slots so' = so_slots so ->
  sending (so_phase so') = sending (so_phase so) -> (connected (so_phase so') = false -> so_slots so = []) -> account rest sh so'.
Proof.
  intros [Hw Ha Hs Hp Hc] Es Eb Hc'. constructor; rewrite ?Es; try done. intros i. unfold owned. by rewrite Es, Eb, Ha.
Qed.

Lemma connection_step_account l sh so sh' so' : account rest sh so ->
  connection_step settings l (sh, so) = Some (sh', so') -> account rest sh' so' /\ sh_channel sh' = sh_channel sh.
Proof.
  intros Hacc Hst. pose proof (ac_connected _ _ _ Hacc) as Hc. unfold connection_step in Hst.
  destruct (so_phase so) eqn:Ep; try done; destruct l; try done; simpl in Hc;
    repeat case_match; simplify_eq/=;
    (split; [eapply account_same; [exact Hacc|simpl; rewrite ?Hc by done; done|by rewrite Ep|by rewrite Hc]|done]).
Qed.

(** A poll whose own account is balanced. *)
Lemma poll_balanced connected_at i slot c (sh sh1 sh' : Shared E) so so' :
  so_phase so = Listening connected_at -> so_slots so !! i = Some slot -> account rest sh so ->
  world_ok n (sh_world sh1) -> sh_channel sh1 = sh_channel sh ->
  (forall j, unsettled (heap (sh_world sh1)) j - owed (held c) j =
     unsettled (heap (sh_world sh)) j - owed (slot_tokens slot) j) ->
  polled connected_at i c (sh1, so) = (sh', so') -> account rest sh' so' /\ sh_channel sh' = sh_channel sh.
Proof.
  intros Hp Hi [_ Ha Hs Hn _] Hw Hch Hb Hst.
  assert (sh' = (polled connected_at i c (sh1, so)).1) as -> by by rewrite Hst.
  assert (so' = (polled connected_at i c (sh1, so)).2) as -> by by rewrite Hst.
  split; [|by rewrite polled_channel]. eapply polled_account; try done.
  intros j. specialize (Hb j). specialize (Ha j). unfold owned in Ha. rewrite Hp in Ha. simpl in Ha.
  rewrite app_nil_r, (pool_tokens_delete _ _ _ j Hi) in Ha. rewrite Hch. lia.
Qed.

Lemma task_balanced slot c0 c w sh so i : so_slots so !! i = Some slot -> account rest sh so -> slot_tokens slot = held c0 ->
  task_step (c0, sh_world sh) (c, w) ->
  world_ok n w /\ forall j, unsettled (heap w) j - owed (held c) j = unsettled (heap (sh_world sh)) j - owed (slot_tokens slot) j.
Proof.
  intros Hi [Hw Ha _ _ _] Ht Hstep.
  assert (forall j, 0 <= share_of_others c0 (sh_world sh) j) as H0.
  { intros j. specialize (Ha j). unfold owned in Ha. rewrite owed_app, (pool_tokens_delete _ _ _ j Hi) in Ha. unfold share_of_others.
    rewrite <- Ht. specialize (rest_owe j). pose proof (owed_nonneg (pool_tokens (delete i (so_slots so))) j).
    pose proof (owed_nonneg (batch_tokens (sending (so_phase so))) j). pose proof (owed_nonneg (batch_tokens (sh_channel sh)) j). lia. }
  split; [by eapply task_step_world_ok|]. intros j. rewrite Ht. by apply (proj1 (task_step_share _ _ _ _ H0 Hstep)).
Qed.

Lemma pool_step_account p connected_at l sh so sh' so' : label_ok l -> so_phase so = Listening connected_at ->
  account rest sh so -> pool_step settings n p connected_at l (sh, so) = Some (sh', so') ->
  account rest sh' so' /\ sh_channel sh' = sh_channel sh.
Proof.
  intros Hl Hp Hacc Hst. pose proof Hacc as [Hw Ha Hs Hn _].
  assert (forall j, unsettled (heap (sh_world sh)) j =
    owed (pool_tokens (so_slots so)) j + owed (batch_tokens (sh_channel sh)) j + rest j) as Ha'.
  { intros j. rewrite Ha. unfold owned. rewrite Hp. simpl. by rewrite app_nil_r. }
  destruct l; cbn [pool_step] in Hst; try done.
  - destruct (so_subscribed so && _) eqn:Eb; [|done]. injection Hst as <- <-.
    apply andb_true_iff in Eb as [_ Hlt%Z.ltb_lt]. split; [|done].
    assert (slot_ok (received_notification settings answer now)) as Hr by by destruct answer as [[nt|e]|].
    assert (slot_tokens (received_notification settings answer now) = []) as Ht by by destruct answer as [[nt|e]|].
    constructor; simpl; rewrite ?Hp; try done.
    + intros j. unfold owned. simpl. rewrite Hp. simpl. rewrite app_nil_r, pool_tokens_snoc, Ht, owed_nil, Ha'. lia.
    + by apply Forall_app; split; [|repeat constructor].
    + rewrite length_app. simpl. lia.
  - destruct (so_slots so !! i) as [[r| |]|] eqn:Ei; try done.
    pose proof (proj1 (Forall_lookup _ _) Hs _ _ Ei) as Hr.
    pose proof (collect_start_share (runtime_config settings n) p r now1 now2 instant (sh_gate sh) (sh_world sh)
      windows_allowed Hw Hr (fun j => unsettled_nonneg n _ j Hw)) as Hsh.
    pose proof (world_ok_collect_start n (runtime_config settings n) p r now1 now2 instant (sh_gate sh) (sh_world sh)
      eq_refl windows_allowed Hw Hr) as Hw'.
    destruct (collect_start _ _ _ _ _ _ _ _) as [[c gate] w]. apply (inj Some) in Hst.
    apply (poll_balanced connected_at i (SlotReceived r) c sh (set_gate gate (set_shared_world w sh)) sh' so so'); try done.
    intros j. simpl. rewrite owed_nil. specialize (Hsh j). unfold share_of_others in Hsh. lia.
  - destruct (so_slots so !! i) as [[| |[|timeout s|]]|] eqn:Ei; try done.
    destruct (collect_permitted permit s (sh_world sh)) as [c w] eqn:Ec. apply (inj Some) in Hst.
    destruct (task_balanced _ (AwaitPermit timeout s) c w sh so i Ei Hacc eq_refl) as [Hw' Hb].
    { rewrite <- Ec. constructor. }
    by eapply (poll_balanced connected_at i _ c sh (set_shared_world w sh)).
  - destruct (so_slots so !! i) as [[| |[| |s]]|] eqn:Ei; try done.
    destruct (collect_fetched reply s (sh_world sh)) as [c w] eqn:Ec. apply (inj Some) in Hst.
    destruct (task_balanced _ (AwaitTransaction s) c w sh so i Ei Hacc eq_refl) as [Hw' Hb].
    { rewrite <- Ec. constructor. }
    by eapply (poll_balanced connected_at i _ c sh (set_shared_world w sh)).
  - destruct (so_slots so !! i) as [[|e|]|] eqn:Ei; try done. apply (inj Some) in Hst.
    by eapply (poll_balanced connected_at i _ (Finished (Subscription e) []) sh sh).
  - destruct (so_slots so) eqn:Es; [|done]. destruct (so_subscribed so); [done|]. injection Hst as <- <-.
    by split; [apply (leave_account (Exited connected_at) sh so); rewrite ?Es|].
  - destruct (sh_cancelled sh); [|done]. injection Hst as <- <-. by split; [apply (leave_account (Exited connected_at) sh so)|].
Qed.

Lemma send_step_account connected_at b bs l sh so sh' so' : so_phase so = Sending connected_at (b :: bs) ->
  account rest sh so -> fits sh -> send_step queue_capacity connected_at b bs l (sh, so) = Some (sh', so') ->
  account rest sh' so' /\ fits sh'.
Proof.
  intros Hp Hacc Hf Hst. pose proof Hacc as [Hw Ha Hs Hn _].
  assert (forall j, unsettled (heap (sh_world sh)) j = owed (pool_tokens (so_slots so)) j + owed (batch_tokens (b :: bs)) j +
    owed (batch_tokens (sh_channel sh)) j + rest j) as Ha'.
  { intros j. rewrite Ha. unfold owned. rewrite Hp. simpl. rewrite owed_app. lia. }
  assert (forall bs', (forall j, owed (batch_tokens bs') j <= owed (batch_tokens (b :: bs)) j) ->
    forall j, owed (batch_tokens bs') j <= unsettled (heap (sh_world sh)) j) as Hle.
  { intros bs' Hb j. rewrite Ha'. specialize (Hb j). specialize (rest_owe j).
    pose proof (owed_nonneg (pool_tokens (so_slots so)) j). pose proof (owed_nonneg (batch_tokens (sh_channel sh)) j). lia. }
  destruct l; simpl in Hst; try done.
  - destruct (sh_closed sh).
    { injection Hst as <- <-. destruct (drop_sent_unsettled (b :: bs) sh Hw (Hle _ (fun j => Z.le_refl _))) as (Hw' & Hch & Hu).
      split; [|done]. apply (leave_account (Returned (Err ProcessingQueueClosed)) (drop_sent (b :: bs) sh) so); try done.
      intros j. rewrite Hu, Hch, Ha'. lia. }
    destruct (Nat.ltb_spec (length (sh_channel sh)) queue_capacity) as [Hroom|]; [|done]. injection Hst as <- <-.
    split; [|unfold fits; simpl; rewrite length_app; simpl; lia].
    constructor; simpl; try done; [|by destruct bs].
    intros j. unfold owned. simpl. rewrite sending_sends, owed_app, batch_tokens_snoc, Ha', batch_tokens_cons. lia.
  - destruct (sh_cancelled sh); [|done]. injection Hst as <- <-.
    destruct (drop_sent_unsettled [b] sh Hw) as (Hw' & Hch & Hu).
    { apply Hle. intros j. rewrite !batch_tokens_cons. pose proof (owed_nonneg (batch_tokens bs) j).
      change (batch_tokens []) with (@nil Token). rewrite owed_nil. lia. }
    split; [|done]. constructor; simpl; try done; [|by destruct bs].
    intros j. change (heap (drop_sent [b] sh).(sh_world)) with (heap (sh_world (drop_sent [b] sh))).
    unfold owned. simpl. rewrite sending_sends, owed_app.
    change (unsettled (heap (sh_world (drop_sent [b] sh))) j =
      owed (pool_tokens (so_slots so)) j + owed (batch_tokens bs) j + owed (batch_tokens (sh_channel sh)) j + rest j).
    rewrite Hu, Ha', !batch_tokens_cons. change (batch_tokens []) with (@nil Token). rewrite owed_nil. lia.
Qed.

Lemma source_step_account p l sh so sh' so' : label_ok l -> account rest sh so -> fits sh ->
  source_step settings n queue_capacity p l (sh, so) = Some (sh', so') -> account rest sh' so' /\ fits sh'.
Proof.
  intros Hl Hacc Hf Hst. pose proof Hacc as [Hw Ha Hs _ _].
  assert (abort_source (sh, so) = Some (sh', so') -> account rest sh' so' /\ fits sh') as Habort.
  { unfold abort_source. intros Hab.
    destruct (so_phase so) as [| |c|c bs|c| | |] eqn:Ep; try done; injection Hab as <- <-; (split; [|done]);
      [apply (leave_account Aborted sh so)|apply (leave_account Aborted sh so)| |apply (leave_account Aborted sh so)]; try done;
      try (intros j; rewrite Ha; unfold owned; rewrite Ep; simpl; by rewrite app_nil_r).
    assert (forall j, unsettled (heap (sh_world sh)) j = owed (pool_tokens (so_slots so)) j + owed (batch_tokens bs) j +
      owed (batch_tokens (sh_channel sh)) j + rest j) as Ha'.
    { intros j. rewrite Ha. unfold owned. rewrite Ep. simpl. rewrite owed_app. lia. }
    destruct (drop_sent_unsettled bs sh Hw) as (Hw' & Hch & Hu).
    { intros j. rewrite Ha'. specialize (rest_owe j). pose proof (owed_nonneg (pool_tokens (so_slots so)) j).
      pose proof (owed_nonneg (batch_tokens (sh_channel sh)) j). lia. }
    apply (leave_account Aborted (drop_sent bs sh) so); try done. intros j. rewrite Hu, Hch, Ha'. lia. }
  assert (connection_step settings l (sh, so) = Some (sh', so') -> account rest sh' so' /\ fits sh') as Hconn.
  { intros Hc. apply connection_step_account in Hc as [H1 H2]; [|done]. split; [done|]. unfold fits. by rewrite H2. }
  assert (forall c, so_phase so = Listening c -> pool_step settings n p c l (sh, so) = Some (sh', so') ->
    account rest sh' so' /\ fits sh') as Hpool.
  { intros c Hp Hc. destruct (pool_step_account p c l sh so sh' so' Hl Hp Hacc Hc) as [H1 H2]. split; [done|]. unfold fits. by rewrite H2. }
  unfold source_step in Hst. change (so_phase (sh, so).2) with (so_phase so) in Hst.
  destruct (so_phase so) as [| |c|c [|b bs]|c| | |] eqn:Ep; destruct l; auto; first [by apply (Hpool c)|by eapply (send_step_account c b bs)].
Qed.
End Accounts.

(** ** The system *)
Definition other_program (p : PumpProgram) : PumpProgram := match p with PumpP => PumpSwapP | PumpSwapP => PumpP end.

Section System.
Context {E : Type} {B64 : Base64} (settings : CollectorSettings) (n queue_capacity : nat).
Abbreviation step := (source_step (E:=E) settings n queue_capacity).
Abbreviation sources := (run_sources (E:=E) settings n queue_capacity).

(** What a source leaves to the others. *)
Lemma pool_step_frame p c l sh so sh' so' : pool_step (E:=E) settings n p c l (sh, so) = Some (sh', so') ->
  sh_others sh' = sh_others sh /\ sh_closed sh' = sh_closed sh /\ sh_cancelled sh' = sh_cancelled sh.
Proof.
  intros Hst. assert (forall i c' sh1, sh_others sh1 = sh_others sh -> sh_closed sh1 = sh_closed sh ->
    sh_cancelled sh1 = sh_cancelled sh -> polled c i c' (sh1, so) = (sh', so') ->
    sh_others sh' = sh_others sh /\ sh_closed sh' = sh_closed sh /\ sh_cancelled sh' = sh_cancelled sh) as Hpolled.
  { intros i c' sh1 E1 E2 E3 H. destruct c' as [[]| |]; simpl in H; injection H as <- <-; done. }
  destruct l; cbn [pool_step] in Hst; repeat case_match; try done;
    first [apply (inj Some), Hpolled in Hst; done|by simplify_eq|by injection Hst as <- <-].
Qed.

Lemma source_step_frame p l sh so sh' so' : step p l (sh, so) = Some (sh', so') ->
  sh_others sh' = sh_others sh /\ sh_closed sh' = sh_closed sh /\ sh_cancelled sh' = sh_cancelled sh.
Proof.
  intros Hst. unfold source_step in Hst. change (so_phase (sh, so).2) with (so_phase so) in Hst.
  destruct (so_phase so) as [| |c|c [|b bs]|c| | |] eqn:Ep; destruct l; try (by apply pool_step_frame in Hst);
    unfold abort_source, connection_step, send_step in Hst; rewrite ?Ep in Hst; unfold leave in Hst; repeat case_match; simplify_eq/=; done.
Qed.

(** When a source returns. *)
Definition return_justified (sh : Shared E) (so : Source) : Prop :=
  (so_phase so = Returned (Ok tt) -> sh_cancelled sh = true) /\
  (so_phase so = Returned (Err ProcessingQueueClosed) -> sh_closed sh = true).
Lemma source_step_justified p l sh so sh' so' : step p l (sh, so) = Some (sh', so') -> return_justified sh' so'.
Proof.
  intros Hst. unfold source_step in Hst. change (so_phase (sh, so).2) with (so_phase so) in Hst. unfold return_justified.
  destruct (so_phase so) as [| |c|c bs|c| | |] eqn:Ep; destruct l; 
    unfold abort_source, connection_step, send_step, pool_step, polled, leave in Hst; rewrite ?Ep in Hst;
    repeat case_match; simplify_eq/=; try done; rewrite ?Ep; try done; unfold sends; by repeat case_match.
Qed.

(** What the other tasks may do: they settle only what is theirs or what they
    took from the channel, and take back neither the cancellation nor the end of
    the receiver. *)
Context (others : E -> nat -> Z).
Hypothesis windows_allowed : (0 < n)%nat.
Hypothesis others_owe : forall e i, 0 <= others e i.
Definition backed (sh : Shared E) : Prop := world_ok n (sh_world sh) /\
  forall i, owed (batch_tokens (sh_channel sh)) i + others (sh_others sh) i <= unsettled (heap (sh_world sh)) i.
Record fair (f : Shared E -> Shared E) : Prop := {
  fr_world sh : backed sh -> world_ok n (sh_world (f sh));
  fr_share sh i : backed sh -> unsettled (heap (sh_world (f sh))) i - owed (batch_tokens (sh_channel (f sh))) i - others (sh_others (f sh)) i =
    unsettled (heap (sh_world sh)) i - owed (batch_tokens (sh_channel sh)) i - others (sh_others sh) i;
  fr_fits sh : fits queue_capacity sh -> fits queue_capacity (f sh);
  fr_cancelled sh : sh_cancelled sh = true -> sh_cancelled (f sh) = true;
  fr_closed sh : sh_closed sh = true -> sh_closed (f sh) = true;
}.
Definition fair_label (l : SourcesLabel (E:=E)) : Prop :=
  match l with SourceMoves _ l => label_ok l | OthersMove f => fair f end.

Definition rest_of (sy : System (E:=E)) (p : PumpProgram) (i : nat) : Z :=
  owed (owned (sy_source sy (other_program p))) i + others (sh_others (sy_shared sy)) i.
Record system_ok (sy : System (E:=E)) : Prop := {
  sk_account p : account settings n (rest_of sy p) (sy_shared sy) (sy_source sy p);
  sk_fits : fits queue_capacity (sy_shared sy);
  sk_returns p : return_justified (sy_shared sy) (sy_source sy p);
}.

Lemma other_program_ne p : other_program p <> p.
Proof. by destruct p. Qed.
Lemma set_source_eq p so (sources : PumpProgram -> Source) : set_source p so sources p = so.
Proof. unfold set_source. by rewrite bool_decide_true. Qed.
Lemma set_source_other p so (sources : PumpProgram -> Source) :
  set_source p so sources (other_program p) = sources (other_program p).
Proof. unfold set_source. rewrite bool_decide_false; [done|apply other_program_ne]. Qed.

Lemma system_step_ok l sy sy' : system_ok sy -> fair_label l -> sources_step settings n queue_capacity l sy = Some sy' -> system_ok sy'.
Proof.
  intros [Ha Hf Hj] Hl Hst. destruct l as [p l|f]; simpl in Hl, Hst.
  - destruct (step p l (sy_shared sy, sy_source sy p)) as [[sh' so']|] eqn:Es; [|done]. injection Hst as <-.
    pose proof (source_step_frame _ _ _ _ _ _ Es) as (Eo & Ec & Ex).
    destruct (source_step_account settings n queue_capacity windows_allowed (rest_of sy p)
      (fun i => Z.add_nonneg_nonneg _ _ (owed_nonneg _ i) (others_owe _ i)) p l _ _ _ _ Hl (Ha p) Hf Es) as [Ha' Hf'].
    pose proof (Ha (other_program p)) as [_ _ Hos Hop Hoc]. pose proof Ha' as [Hw Hu Hs Hn Hc].
    assert (forall q, account settings n (rest_of {| sy_shared := sh'; sy_source := set_source p so' (sy_source sy) |} q) sh'
      (set_source p so' (sy_source sy) q)) as Hq.
    { intros q. destruct (decide (q = p)) as [->|Hne].
      - rewrite set_source_eq. constructor; try done. intros i. rewrite Hu. unfold rest_of. simpl.
        by rewrite set_source_other, Eo.
      - assert (q = other_program p) as -> by by destruct p, q. rewrite set_source_other. constructor; try done.
        intros i. rewrite Hu. unfold rest_of. simpl.
        assert (other_program (other_program p) = p) as -> by by destruct p. rewrite set_source_eq, Eo. lia. }
    constructor; simpl; [exact Hq|done|]. intros q. destruct (decide (q = p)) as [->|Hne].
    + rewrite set_source_eq. by eapply source_step_justified.
    + assert (q = other_program p) as -> by by destruct p, q. rewrite set_source_other.
      unfold return_justified. rewrite Ec, Ex. apply Hj.
  - injection Hst as <-. destruct Hl as [Fw Fs Ff Fx Fc].
    assert (backed (sy_shared sy)) as Hb.
    { split; [apply (ac_world _ _ _ _ _ (Ha PumpP))|]. intros i. rewrite (ac_owed _ _ _ _ _ (Ha PumpP) i). unfold rest_of.
      pose proof (owed_nonneg (owned (sy_source sy PumpP)) i).
      pose proof (owed_nonneg (owned (sy_source sy (other_program PumpP))) i). lia. }
    constructor; simpl; [|by apply Ff|].
    + intros p. destruct (Ha p) as [Hw Hu Hs Hn Hc]. constructor; try done; [by apply Fw|].
      intros i. specialize (Hu i). specialize (Fs (sy_shared sy) i Hb). unfold rest_of in *. simpl. lia.
    + intros p. destruct (Hj p) as [H1 H2]. split; [by intros H%H1%Fx|by intros H%H2%Fc].
Qed.

Lemma run_sources_ok ls sy sy' : system_ok sy -> Forall fair_label ls -> sources ls sy = Some sy' -> system_ok sy'.
Proof.
  intros Hok Hl. revert sy Hok. induction Hl as [|l ls Hl Hls IH]; intros sy Hok; simpl; [by intros [= <-]|].
  intros (sy1 & Hst & Hrun)%bind_Some. eapply IH; [|done]. by eapply system_step_ok.
Qed.

Lemma sources_init_ok sh : world_ok n (sh_world sh) -> fits queue_capacity sh ->
  (forall i, unsettled (heap (sh_world sh)) i = owed (batch_tokens (sh_channel sh)) i + others (sh_others sh) i) ->
  system_ok (sources_init settings sh).
Proof.
  intros Hw Hf Hu. constructor; try done. intros p. constructor; simpl; try done. lia.
Qed.

Lemma owned_outside rest (sh : Shared E) so : account settings n rest sh so -> connected (so_phase so) = false -> owned so = [].
Proof. intros [_ _ _ _ Hc] Hp. unfold owned. rewrite (Hc Hp). by destruct (so_phase so). Qed.
End System.

(** C10: The sources settle what they admit.  Whatever the notifications, the answers
    of the node, the pool, the reconnections, cancellations, aborts and the other
    tasks do and in whatever order, the unsettled admissions are those of the
    notifications the two sources are collecting or sending, of the batches in
    the channel, and of the other tasks; neither pool nor channel exceeds its
    capacity, and a source that is not connected owes nothing.  It returns only
    when it is cancelled or nobody takes its batches any more. *)
Theorem sources_settle_what_they_admit {E : Type} {B64 : Base64} settings maximum_active queue_capacity
    (others : E -> nat -> Z) sh ls sy (others_owe : forall e i, 0 <= others e i) :
  (0 < maximum_active)%nat -> world_ok maximum_active (sh_world sh) -> fits queue_capacity sh ->
  (forall i, unsettled (heap (sh_world sh)) i = owed (batch_tokens (sh_channel sh)) i + others (sh_others sh) i) ->
  Forall (fair_label maximum_active queue_capacity others) ls ->
  run_sources settings maximum_active queue_capacity ls (sources_init settings sh) = Some sy ->
  let w := sh_world (sy_shared sy) in
  (forall i, unsettled (heap w) i = owed (owned (sy_source sy PumpP)) i + owed (owned (sy_source sy PumpSwapP)) i +
     owed (batch_tokens (sh_channel (sy_shared sy))) i + others (sh_others (sy_shared sy)) i) /\
  fits queue_capacity (sy_shared sy) /\
  forall p, let so := sy_source sy p in
    Z.of_nat (length (so_slots so)) <= Z.max 0 (ce_notification_processing_capacity settings) /\
    (connected (so_phase so) = false -> owned so = []) /\
    (so_phase so = Returned (Ok tt) -> sh_cancelled (sy_shared sy) = true) /\
    (so_phase so = Returned (Err ProcessingQueueClosed) -> sh_closed (sy_shared sy) = true).
Proof.
  intros Hn Hw Hf Hu Hl Hrun w.
  destruct (run_sources_ok settings maximum_active queue_capacity others Hn others_owe ls _ _
    ltac:(by apply sources_init_ok) Hl Hrun) as [Ha Hf' Hj].
  split; [|split; [done|]].
  - intros i. rewrite (ac_owed _ _ _ _ _ (Ha PumpP)). unfold rest_of. simpl. fold w. lia.
  - intros p so. split; [apply (ac_pool _ _ _ _ _ (Ha p))|]. split; [exact (owned_outside _ _ _ _ _ (Ha p))|]. apply Hj.
Qed.

(** ** The reconnections *)
Definition reports_of (attempt : option Z) : list SourceConnectionState :=
  match attempt with
  | None => [SourceConnecting; SourceDisconnectedState]
  | Some _ => [SourceConnecting; SourceReady; SourceDisconnectedState]
  end.
(** What was reported of the attempt under way. *)
Definition open_reports (phase : Phase) (reports : list SourceConnectionState) : Prop :=
  match phase with
  | AtTop | Waiting => reports = []
  | Subscribing => reports = [SourceConnecting]
  | Listening _ | Sending _ _ | Exited _ => reports = [SourceConnecting; SourceReady]
  | Returned _ | Aborted => reports `prefix_of` [SourceConnecting; SourceReady]
  end.

(** The delay before the [k]th attempt since a connection that lasted. *)
Definition reconnect_backoff (configured : Z) (k : nat) : Z :=
  Z.min (configured * 2 ^ Z.of_nat k) (Z.max MAX_PUBSUB_RECONNECT_DELAY_ms configured).
Definition lasted (idle_ns : Z) (attempt : option Z) : bool :=
  match attempt with Some d => idle_ns <=? d | None => false end.
Definition attempt_number (idle_ns : Z) (k : nat) (attempt : option Z) : nat := if lasted idle_ns attempt then 0 else k.
Fixpoint waits_of (configured idle_ns : Z) (k : nat) (attempts : list (option Z)) : list Z :=
  match attempts with
  | [] => []
  | a :: attempts =>
      let k := attempt_number idle_ns k a in
      reconnect_backoff configured k :: waits_of configured idle_ns (S k) attempts
  end.

Section Schedule.
Context {E : Type} {B64 : Base64} (settings : CollectorSettings) (n queue_capacity : nat).
Abbreviation configured := (ce_reconnect_delay settings).
Abbreviation idle := (1000000 * ce_subscription_idle_timeout settings).
Hypothesis delay_fits : 0 <= configured.

Definition streak (attempts : list (option Z)) : nat :=
  fold_left (fun k a => S (attempt_number idle k a)) attempts 0%nat.
Lemma waits_of_snoc attempts a k : waits_of configured idle k (attempts ++ [a]) =
  waits_of configured idle k attempts ++
  [reconnect_backoff configured (attempt_number idle (fold_left (fun k a => S (attempt_number idle k a)) attempts k) a)].
Proof. revert k. induction attempts as [|b attempts IH]; intros k; simpl; [done|]. by rewrite IH. Qed.
Lemma streak_snoc attempts a : streak (attempts ++ [a]) = S (attempt_number idle (streak attempts) a).
Proof. unfold streak. by rewrite fold_left_app. Qed.

Lemma backoff_next k : next_reconnect_delay (reconnect_backoff configured k) configured = reconnect_backoff configured (S k).
Proof.
  unfold next_reconnect_delay, reconnect_backoff, MAX_PUBSUB_RECONNECT_DELAY_ms.
  rewrite Nat2Z.inj_succ, Z.pow_succ_r by lia. lia.
Qed.
Lemma backoff_first : reconnect_backoff configured 0 = configured.
Proof. unfold reconnect_backoff, MAX_PUBSUB_RECONNECT_DELAY_ms. simpl. lia. Qed.
Lemma backoff_bounds k : configured <= reconnect_backoff configured k <= Z.max MAX_PUBSUB_RECONNECT_DELAY_ms configured.
Proof.
  unfold reconnect_backoff, MAX_PUBSUB_RECONNECT_DELAY_ms. assert (1 <= 2 ^ Z.of_nat k) by lia. nia.
Qed.

(** The delay held is that of the attempt under way; while waiting, that of the
    one before. *)
Record on_schedule (so : Source) : Prop := {
  os_waits : so_waits so = waits_of configured idle 0 (so_attempts so);
  os_delay : so_reconnect_delay so = reconnect_backoff configured
               (match so_phase so with Waiting => pred | _ => id end (streak (so_attempts so))) \/
             so_phase so = Aborted;
  os_waiting : so_phase so = Waiting -> so_attempts so <> [];
  os_reports : exists reports, so_reports so = concat (reports_of <$> so_attempts so) ++ reports /\
                 open_reports (so_phase so) reports;
}.

Lemma source_init_on_schedule : on_schedule (source_init settings).
Proof. constructor; try done; [left; symmetry; apply backoff_first|by exists []]. Qed.

Definition during (phase : Phase) : bool := match phase with Listening _ | Sending _ _ | Exited _ => true | _ => false end.
Definition past (phase : Phase) : bool :=
  match phase with Listening _ | Sending _ _ | Exited _ | Returned _ | Aborted => true | _ => false end.
Lemma on_schedule_during so so' : on_schedule so -> during (so_phase so) = true -> past (so_phase so') = true ->
  so_waits so' = so_waits so -> so_attempts so' = so_attempts so -> so_reconnect_delay so' = so_reconnect_delay so ->
  so_reports so' = so_reports so -> on_schedule so'.
Proof.
  intros [Hw Hd Hn (reports & Hr & Ho)] Hp Hp' Ew Ea Ed Er. constructor; rewrite ?Ew, ?Ea, ?Ed, ?Er.
  - done.
  - left. by destruct Hd as [->|Hx], (so_phase so), (so_phase so').
  - by destruct (so_phase so').
  - exists reports. split; [done|]. destruct (so_phase so), (so_phase so'); try done; simpl in *; by subst.
Qed.

Lemma pool_step_schedule p c l sh so sh' so' : so_phase so = Listening c ->
  pool_step (E:=E) settings n p c l (sh, so) = Some (sh', so') -> past (so_phase so') = true /\
  so_waits so' = so_waits so /\ so_attempts so' = so_attempts so /\ so_reconnect_delay so' = so_reconnect_delay so /\
  so_reports so' = so_reports so.
Proof.
  intros Hp Hst. destruct l; unfold pool_step, polled, leave in Hst; repeat case_match; simplify_eq/=; rewrite ?Hp; try done;
    split_and!; try done; unfold sends; by case_match.
Qed.
Lemma send_step_schedule c b bs l sh so sh' so' :
  send_step (E:=E) queue_capacity c b bs l (sh, so) = Some (sh', so') -> past (so_phase so') = true /\
  so_waits so' = so_waits so /\ so_attempts so' = so_attempts so /\ so_reconnect_delay so' = so_reconnect_delay so /\
  so_reports so' = so_reports so.
Proof.
  intros Hst. destruct l; unfold send_step, leave in Hst; repeat case_match; simplify_eq/=; try done;
    split_and!; try done; by destruct bs.
Qed.
Lemma abort_schedule sh so sh' so' : on_schedule so -> abort_source (E:=E) (sh, so) = Some (sh', so') -> on_schedule so'.
Proof.
  intros [Hw Hd Hn (reports & Hr & Ho)] Hst. unfold abort_source, leave in Hst.
  assert (open_reports Aborted reports) as Hab.
  { destruct (so_phase so); simpl in *; try done; subst; first [apply prefix_nil|by exists [SourceReady]|by exists []]. }
  destruct (so_phase so); try done; injection Hst as <- <-; constructor; simpl; try done; try (by right); by exists reports.
Qed.

Lemma connection_step_schedule l sh so sh' so' : on_schedule so ->
  connection_step (E:=E) settings l (sh, so) = Some (sh', so') -> on_schedule so'.
Proof.
  intros [Hw Hd Hn (reports & Hr & Ho)] Hst. unfold connection_step in Hst.
  assert (forall attempt so1, so_attempts so1 = so_attempts so -> so_waits so1 = so_waits so ->
    so_reconnect_delay so1 = reconnect_backoff configured (attempt_number idle (streak (so_attempts so)) attempt) ->
    so_reports so1 = concat (reports_of <$> so_attempts so) ++ reports_of attempt ->
    on_schedule (wait_to_reconnect attempt so1)) as Hwait.
  { intros attempt so1 Ea Ew Ed Er. constructor; simpl; rewrite ?Ea, ?Ew, ?Ed, ?Er.
    - by rewrite waits_of_snoc, Hw.
    - left. by rewrite streak_snoc.
    - intros _. by destruct (so_attempts so).
    - exists []. split; [|done]. rewrite fmap_app, concat_app. csimpl. by rewrite !app_nil_r. }
  destruct (so_phase so) as [| |c|c bs|c| | |] eqn:Ep; simpl in Ho; try done; destruct l; try done; subst;
    destruct Hd as [Hd|]; try done; simpl in Hd.
  - destruct (sh_cancelled sh); injection Hst as <- <-; constructor; simpl; try done; try (by left).
    + exists []. split; [done|apply prefix_nil].
    + exists [SourceConnecting]. split; [|done]. by rewrite Hr, app_nil_r.
  - destruct answer as [[[]|e]|]; injection Hst as <- <-; [|apply Hwait|apply Hwait]; simpl; try done;
      try (by rewrite Hr, <- app_assoc). constructor; simpl; try done; [by left|].
    exists [SourceConnecting; SourceReady]. split; [|done]. by rewrite Hr, <- app_assoc.
  - destruct (sh_cancelled sh).
    { injection Hst as <- <-. constructor; simpl; try done; [by left|]. by eexists. }
    destruct (idle <=? elapsed c now) eqn:El; injection Hst as <- <-; apply Hwait; simpl; try done;
      try (by rewrite Hr, <- app_assoc); unfold attempt_number, lasted; rewrite El; [by rewrite backoff_first|done].
  - injection Hst as <- <-. constructor; simpl; try done; [left|by exists []].
    destruct (streak (so_attempts so)) as [|k] eqn:Es.
    + exfalso. destruct (so_attempts so) as [|a l _] using rev_ind; [by apply Hn|]. by rewrite streak_snoc in Es.
    + simpl in Hd. by rewrite Hd, backoff_next.
Qed.

Lemma source_step_schedule p l sh so sh' so' : on_schedule so ->
  source_step (E:=E) settings n queue_capacity p l (sh, so) = Some (sh', so') -> on_schedule so'.
Proof.
  intros Hos Hst. unfold source_step in Hst. change (so_phase (sh, so).2) with (so_phase so) in Hst.
  assert (forall c, so_phase so = Listening c -> pool_step settings n p c l (sh, so) = Some (sh', so') -> on_schedule so') as Hpool.
  { intros c Hp H. destruct (pool_step_schedule p c l sh so sh' so' Hp H) as (H1 & H2 & H3 & H4 & H5).
    apply (on_schedule_during so); rewrite ?Hp; done. }
  assert (forall c b bs, so_phase so = Sending c (b :: bs) -> send_step queue_capacity c b bs l (sh, so) = Some (sh', so') ->
    on_schedule so') as Hsend.
  { intros c b bs Hp H. destruct (send_step_schedule c b bs l sh so sh' so' H) as (H1 & H2 & H3 & H4 & H5).
    apply (on_schedule_during so); rewrite ?Hp; done. }
  pose proof (connection_step_schedule l sh so sh' so' Hos) as Hconn. pose proof (abort_schedule sh so sh' so' Hos) as Hab.
  destruct (so_phase so) as [| |c|c [|b bs]|c| | |] eqn:Ep; destruct l; auto; first [by apply (Hpool c)|by apply (Hsend c b bs)].
Qed.

Lemma run_sources_schedule ls sy sy' : (forall p, on_schedule (sy_source sy p)) ->
  run_sources (E:=E) settings n queue_capacity ls sy = Some sy' -> forall p, on_schedule (sy_source sy' p).
Proof.
  revert sy. induction ls as [|l ls IH]; intros sy Hos; simpl; [by intros [= <-]|].
  intros (sy1 & Hst & Hrun)%bind_Some. eapply IH; [|done]. intros q. destruct l as [p l|f]; simpl in Hst.
  - destruct (source_step _ _ _ _ _ _) as [[sh' so']|] eqn:Es; [|done]. injection Hst as <-. simpl. unfold set_source.
    case_bool_decide; [|apply Hos]. eapply source_step_schedule; [apply Hos|exact Es].
  - injection Hst as <-. apply Hos.
Qed.

Lemma waits_of_bounds k attempts :
  Forall (fun wait => configured <= wait <= Z.max MAX_PUBSUB_RECONNECT_DELAY_ms configured) (waits_of configured idle k attempts).
Proof. revert k. induction attempts as [|a attempts IH]; intros k; simpl; constructor; [by apply backoff_bounds|done]. Qed.
End Schedule.

(** C11: A source reconnects on schedule.  At any time the waits of a source are those
    of the reference schedule for the attempts it has made: the configured delay,
    doubled with every attempt up to thirty seconds or the configured delay, and
    started again after a connection that lasted the idle timeout; and its
    reports are [Connecting], [Ready] if it connected, [Disconnected] for each
    attempt, in order, and what is due of the attempt under way. *)
Theorem source_reconnects_on_schedule {E : Type} {B64 : Base64} settings maximum_active queue_capacity (sh : Shared E) ls sy p :
  0 <= ce_reconnect_delay settings ->
  run_sources settings maximum_active queue_capacity ls (sources_init settings sh) = Some sy ->
  let so := sy_source sy p in
  so_waits so = waits_of (ce_reconnect_delay settings) (1000000 * ce_subscription_idle_timeout settings) 0 (so_attempts so) /\
  Forall (fun wait => ce_reconnect_delay settings <= wait <= Z.max MAX_PUBSUB_RECONNECT_DELAY_ms (ce_reconnect_delay settings))
    (so_waits so) /\
  exists reports, so_reports so = concat (reports_of <$> so_attempts so) ++ reports /\ open_reports (so_phase so) reports.
Proof.
  intros Hd Hrun so. destruct (run_sources_schedule settings maximum_active queue_capacity ls (sources_init settings sh) sy
    (fun _ => source_init_on_schedule settings) Hrun p) as [Hw _ _ Hr].
  fold so in Hw, Hr. split; [done|]. split; [rewrite Hw; by apply waits_of_bounds|done].
Qed.

(** ** One notification from its subscription to the processor *)
Module SampleSource.
#[local] Existing Instance Hexish.codec.
Definition settings : CollectorSettings := {|
  ce_network := SolanaMainnet; ce_commitment := Confirmed; ce_reconnect_delay := 20000; ce_request_timeout := 1000;
  ce_rpc_max_in_flight := 1; ce_notification_processing_capacity := 1; ce_subscription_idle_timeout := 30000;
  ce_maximum_discovery_age := 60000; ce_observation_window_duration := 50 |}.
Definition shared : Shared unit := {|
  sh_world := SampleIntake.world; sh_gate := recent_signatures 10; sh_channel := []; sh_closed := false;
  sh_cancelled := false; sh_others := tt |}.

(** The processor takes a batch and drops it; the stream is cancelled. *)
Definition processes (sh : Shared unit) : Shared unit :=
  match sh_channel sh with
  | [] => sh
  | b :: rest => {|
      sh_world := with_heap (batch_drop b (heap (sh_world sh))) (sh_world sh); sh_gate := sh_gate sh; sh_channel := rest;
      sh_closed := sh_closed sh; sh_cancelled := sh_cancelled sh; sh_others := tt |}
  end.
Definition cancels (sh : Shared unit) : Shared unit := {|
  sh_world := sh_world sh; sh_gate := sh_gate sh; sh_channel := sh_channel sh; sh_closed := sh_closed sh;
  sh_cancelled := true; sh_others := tt |}.

Definition labels : list SourcesLabel := [
  SourceMoves PumpP (Proceeds 0); SourceMoves PumpSwapP (Proceeds 0); SourceMoves PumpSwapP (Subscribes None 0);
  SourceMoves PumpP (Subscribes (Some (Ok tt)) 5); SourceMoves PumpP (Receives (Some (Ok SampleIntake.corroborated)) 120);
  SourceMoves PumpSwapP WaitEnds; SourceMoves PumpP (Starts 0 130 130 0); SourceMoves PumpSwapP (Proceeds 0);
  SourceMoves PumpSwapP (Subscribes None 0); SourceMoves PumpP SendsBatch; OthersMove processes; OthersMove cancels;
  SourceMoves PumpP SeesCancelled; SourceMoves PumpP (Proceeds 9); SourceMoves PumpSwapP WaitEnds].
Definition final : option System := run_sources settings 2 4 labels (sources_init settings shared).

Abbreviation nobody := (fun (_ : unit) (_ : nat) => 0).
Lemma processes_fair : fair 2 4 nobody processes.
Proof.
  assert (forall sh b rest, backed 2 nobody sh -> sh_channel sh = b :: rest ->
    forall i, owed (pb_window_tokens b) i <= unsettled (heap (sh_world sh)) i) as Hle.
  { intros sh b rest [_ Hb] Hc i. specialize (Hb i). rewrite Hc, batch_tokens_cons in Hb.
    pose proof (owed_nonneg (batch_tokens rest) i). lia. }
  constructor; intros sh; unfold processes.
  - intros Hb. destruct (sh_channel sh) as [|b rest] eqn:Ec; [apply Hb|]. apply world_ok_settle; [apply Hb|by eapply Hle].
  - intros i Hb. destruct (sh_channel sh) as [|b rest] eqn:Ec; [by rewrite Ec|]. simpl. unfold batch_drop.
    rewrite settle_fold_unsettled, batch_tokens_cons by (by eapply Hle). lia.
  - unfold fits. destruct (sh_channel sh) as [|b rest] eqn:Ec; rewrite ?Ec; simpl; lia.
  - by destruct (sh_channel sh).
  - by destruct (sh_channel sh).
Qed.
Lemma cancels_fair : fair 2 4 nobody cancels.
Proof. constructor; try done. by intros sh [Hw _]. Qed.
Lemma labels_fair : Forall (fair_label 2 4 nobody) labels.
Proof.
  unfold labels. repeat (apply Forall_cons; split); try done; [apply processes_fair|apply cancels_fair].
Qed.
Lemma world_settled i : unsettled (heap SampleIntake.world) i = 0.
Proof.
  destruct (Nat.eqb_spec 0 i) as [<-|Hne]; [vm_compute; reflexivity|]. unfold unsettled.
  assert (heap SampleIntake.world !! i = None) as Hn; [|by rewrite lookup_total_alt, Hn].
  change (heap SampleIntake.world) with (<[0%nat := heap SampleIntake.world !!! 0%nat]> (∅ : Heap)).
  by rewrite lookup_insert_ne.
Qed.
End SampleSource.
#[local] Existing Instance Hexish.codec.

Lemma sources_settle_what_they_admit_witness : exists sy, SampleSource.final = Some sy /\
  so_phase (sy_source sy PumpP) = Returned (Ok tt) /\ so_health (sy_source sy PumpP) = [] /\
  forall i, unsettled (heap (sh_world (sy_shared sy))) i = 0.
Proof.
  destruct SampleSource.final as [sy|] eqn:E; [|by vm_compute in E].
  destruct (sources_settle_what_they_admit SampleSource.settings 2 4 (fun _ _ => 0) SampleSource.shared SampleSource.labels sy)
    as (Hu & _ & _).
  - done.
  - lia.
  - apply (registry_reachable_ok 2); [lia|exact SampleIntake.world_reachable].
  - unfold fits. simpl. lia.
  - apply SampleSource.world_settled.
  - exact SampleSource.labels_fair.
  - exact E.
  - assert ((fun sy => (so_phase (sy_source sy PumpP), so_health (sy_source sy PumpP), owned (sy_source sy PumpP),
      owned (sy_source sy PumpSwapP), sh_channel (sy_shared sy))) <$> SampleSource.final = Some (Returned (Ok tt), [], [], [], []))
      as Hf by (vm_compute; reflexivity).
    rewrite E in Hf. injection Hf as Hp Hh Ho1 Ho2 Hc. exists sy.
    split; [reflexivity|]. split; [exact Hp|]. split; [exact Hh|]. intros i. rewrite Hu, Ho1, Ho2, Hc. reflexivity.
Defined.

Lemma source_reconnects_on_schedule_witness : exists sy, SampleSource.final = Some sy /\
  so_waits (sy_source sy PumpSwapP) = [20000; 30000] /\
  so_waits (sy_source sy PumpSwapP) = waits_of 20000 30000000000 0 (so_attempts (sy_source sy PumpSwapP)).
Proof.
  destruct SampleSource.final as [sy|] eqn:E; [|by vm_compute in E].
  destruct (source_reconnects_on_schedule SampleSource.settings 2 4 SampleSource.shared SampleSource.labels sy PumpSwapP)
    as (Hw & _ & _); [simpl; lia|exact E|].
  assert ((fun sy => so_waits (sy_source sy PumpSwapP)) <$> SampleSource.final = Some [20000; 30000]) as Hf
    by (vm_compute; reflexivity).
  rewrite E in Hf. injection Hf as Hf. exists sy. split; [reflexivity|]. split; [exact Hf|exact Hw].
Defined.
