(* ===== verification/Server.v ===== *)
(** [apps/server/src/state.rs] and [apps/server/src/http]: the state the routes
    share, the answers of the routes with their statuses, the guard of the control
    routes, and the bus of live events with the streams that subscribe to it.

    Axum, the header map, the broadcast channel and JSON are libraries: headers are
    what [HeaderMap::get] returns for a name, the text of a value what [to_str]
    returns, a body is the value that is serialized, and the channel is an interface
    with the behaviour its documentation states. *)
From S2P Require Import Prelude.
From S2P Require Import Stateful.
From S2P Require Import Domain.
From S2P Require Import ApiContracts.
From S2P Require Import Projection.
From S2P Require Import PersistenceModel.
From S2P Require Import SettingsStore.
From S2P Require Import StreamControl.
From S2P Require Import Supervisor.
From S2P Require Import SupervisorProofs.

(** ** [http/error.rs] *)
Inductive StatusCode := OK | BAD_REQUEST | FORBIDDEN | NOT_FOUND | CONFLICT | SERVICE_UNAVAILABLE.
Definition status_number (code : StatusCode) : Z :=
  match code with
  | OK => 200 | BAD_REQUEST => 400 | FORBIDDEN => 403 | NOT_FOUND => 404 | CONFLICT => 409
  | SERVICE_UNAVAILABLE => 503
  end.
Record ApiError := { ae_status : StatusCode; ae_code : string; ae_message : string }.
#[export] Instance StatusCode_eq_dec : EqDecision StatusCode.
Proof. solve_decision. Defined.

Definition bad_request (code message : string) : ApiError := {| ae_status := BAD_REQUEST; ae_code := code; ae_message := message |}.
Definition forbidden (code message : string) : ApiError := {| ae_status := FORBIDDEN; ae_code := code; ae_message := message |}.
Definition not_found (code message : string) : ApiError := {| ae_status := NOT_FOUND; ae_code := code; ae_message := message |}.
Definition conflict (code message : string) : ApiError := {| ae_status := CONFLICT; ae_code := code; ae_message := message |}.
Definition service_unavailable (code message : string) : ApiError :=
  {| ae_status := SERVICE_UNAVAILABLE; ae_code := code; ae_message := message |}.

Section Errors.
Context {XE JE : Type}.

(** [From<PersistenceError>]. *)
Definition api_error_of_persistence (e : PersistenceError XE JE) : ApiError :=
  let prefilter := bad_request "INVALID_PREFILTER_DEFAULTS" "The submitted prefilter defaults are invalid." in
  let qualification := bad_request "INVALID_QUALIFICATION_DEFAULTS" "The submitted qualification defaults are invalid." in
  let unavailable := service_unavailable "DATABASE_UNAVAILABLE" "The local database is unavailable." in
  match e with
  | PeInvalidPrefilterDefaults _ => prefilter
  | PeMustBePositive field | PeValueOutOfRange field =>
      if String.eqb field "prefilter expected_revision" then prefilter
      else if String.eqb field "qualification expected_revision" then qualification else unavailable
  | PePrefilterDefaultsRevisionConflict _ _ =>
      conflict "PREFILTER_DEFAULTS_REVISION_CONFLICT"
        "The prefilter defaults changed after this form was loaded. Refresh and try again."
  | PeInvalidQualificationDefaults _ => qualification
  | PeQualificationDefaultsRevisionConflict _ _ =>
      conflict "QUALIFICATION_DEFAULTS_REVISION_CONFLICT"
        "The qualification defaults changed after this form was loaded. Refresh and try again."
  | _ => unavailable
  end.

(** [From<SupervisorError>]. *)
Definition api_error_of_supervisor (e : SupervisorError XE JE) : ApiError :=
  match e with
  | SuShuttingDown => service_unavailable "STREAM_SHUTTING_DOWN" "The discovery stream is shutting down."
  | SuPrefilterSettingsRequireStopped =>
      conflict "STREAM_MUST_BE_STOPPED" "Stop the discovery stream before changing prefilter defaults."
  | SuPersistence e => api_error_of_persistence e
  end.
End Errors.

(** ** The bodies *)
Record PrefilterDefaultsResponse := {
  fr_values : PrefilterDefaults; fr_bounds : PrefilterDefaultsBounds; fr_revision : Z;
  fr_apply_requirement : SettingsApplyRequirement;
}.
Record QualificationDefaultsResponse := {
  ur_values : QualificationDefaults; ur_bounds : QualificationDefaultsBounds; ur_revision : Z;
  ur_apply_requirement : SettingsApplyRequirement;
}.
Record HealthResponse := { hr_status : string; hr_database : string; hr_stream : StreamStatus }.

Definition prefilter_defaults_response (stored : StoredPrefilterDefaults) : PrefilterDefaultsResponse := {|
  fr_values := sp_values stored; fr_bounds := prefilter_supported; fr_revision := sp_revision stored;
  fr_apply_requirement := StreamRestart |}.
Definition qualification_defaults_response (stored : StoredQualificationDefaults) : QualificationDefaultsResponse := {|
  ur_values := sq_values stored; ur_bounds := qualification_supported; ur_revision := sq_revision stored;
  ur_apply_requirement := NewWindows |}.

(** A response: its status and the value that is serialized. *)
Inductive Body :=
| BodyError (e : ApiError)
| BodyCommand (status : StreamStatus) (changed : bool)
| BodyState (status : StreamStatus) (requested_running : bool)
| BodyPrefilter (response : PrefilterDefaultsResponse)
| BodyQualification (response : QualificationDefaultsResponse)
| BodyToken (token : DiscoveryToken)
| BodySnapshot (snapshot : DiscoverySnapshot)
| BodyHealth (health : HealthResponse).
Record HttpResponse := { re_status : StatusCode; re_body : Body }.
Definition answers_error (e : ApiError) : HttpResponse := {| re_status := ae_status e; re_body := BodyError e |}.
Definition answers (body : Body) : HttpResponse := {| re_status := OK; re_body := body |}.

(** ** The local control *)
Definition LOCAL_CONTROL_HEADER_NAME : string := "x-soldisco-control".
Definition LOCAL_CONTROL_HEADER_VALUE : string := "soldisco-local-ui-v1".
Definition HOST : string := "host".
Definition ORIGIN : string := "origin".

Section Control.
Context {HV : Type} (to_str : HV -> option string).
Abbreviation Headers := (string -> option HV).

Definition local_control_headers_authorized (headers : Headers) (expected_origin expected_authority : string) : bool :=
  let control_matches := bool_decide (headers LOCAL_CONTROL_HEADER_NAME ≫= to_str = Some LOCAL_CONTROL_HEADER_VALUE) in
  let host_matches := bool_decide (headers HOST ≫= to_str = Some expected_authority) in
  if negb control_matches || negb host_matches then false else
  match headers ORIGIN with
  | None => true
  | Some origin => match to_str origin with Some origin => String.eqb origin expected_origin | None => false end
  end.

(** The part of [AppState] the control routes read. *)
Record Authority := { au_web_origin : string; au_api_authority : string }.
Definition require_local_control (state : Authority) (headers : Headers) : result ApiError unit :=
  guard_err (negb (local_control_headers_authorized headers (au_web_origin state) (au_api_authority state)))
    (forbidden "LOCAL_CONTROL_FORBIDDEN" "This local control request was not authorized.").

(** ** The routes *)
Section Routes.
Context {XE JE : Type} (row_not_found out_of_range : XE) (pipeline_config : StreamConfig) (state : Authority).
Abbreviation Error := (PersistenceError XE JE).
Abbreviation State := (Supervisor (XE:=XE) (JE:=JE)).

Definition http_of_response (r : Response (XE:=XE) (JE:=JE)) : HttpResponse :=
  match r with
  | RespStart status changed | RespStop status changed => answers (BodyCommand status changed)
  | RespUpdate stored => answers (BodyPrefilter (prefilter_defaults_response stored))
  | RespError e => answers_error (api_error_of_supervisor e)
  end.

(** [stream::start], [stream::stop] and [settings::update_prefilter_defaults]: the
    guard, then a command of the supervisor that takes the lock. *)
Definition control_route (headers : Headers) (r : Request) (s : State) : HttpResponse + option State :=
  match require_local_control state headers with
  | Err e => inl (answers_error e)
  | Ok _ => inr (begin r s)
  end.

(** A command whose awaits are all served, until it is over. *)
Fixpoint served (fuel : nat) (s : State) : State :=
  match fuel, su_command s with
  | S fuel, Some c =>
      match advance row_not_found out_of_range pipeline_config Served c s with
      | Some s => served fuel s
      | None => s
      end
  | _, _ => s
  end.
Definition update_prefilter_route (headers : Headers) (expected_revision : Z) (values : PrefilterDefaults) (s : State)
    : option HttpResponse * State :=
  match control_route headers (ReqUpdate expected_revision values) s with
  | inl response => (Some response, s)
  | inr None => (None, s)
  | inr (Some s) => let s := served 4 s in (http_of_response <$> last (su_responses s), s)
  end.

Definition get_prefilter_route (db : SettingsDb) : HttpResponse :=
  match (load_prefilter_defaults (JE:=JE) row_not_found db).1 with
  | Ok stored => answers (BodyPrefilter (prefilter_defaults_response stored))
  | Err e => answers_error (api_error_of_persistence e)
  end.
Definition get_qualification_route (db : SettingsDb) : HttpResponse :=
  match (load_qualification_defaults (JE:=JE) row_not_found db).1 with
  | Ok stored => answers (BodyQualification (qualification_defaults_response stored))
  | Err e => answers_error (api_error_of_persistence e)
  end.
(** [settings::update_qualification_defaults]: the transaction, which is not a
    command of the supervisor. *)
Definition update_qualification_route (headers : Headers) (others : SettingsDb -> SettingsDb) (expected_revision : Z)
    (values : QualificationDefaults) (db : SettingsDb) : HttpResponse * SettingsDb :=
  match require_local_control state headers with
  | Err e => (answers_error e, db)
  | Ok _ =>
      match update_qualification_defaults (JE:=JE) row_not_found out_of_range others expected_revision values db with
      | (Ok stored, db) => (answers (BodyQualification (qualification_defaults_response stored)), db)
      | (Err e, db) => (answers_error (api_error_of_persistence e), db)
      end
  end.

(** [stream::get], [tokens::get], [discovery::get] and [health::get], with what the
    database answers. *)
Definition stream_route (status : StreamStatus) (requested_running : result Error bool) : HttpResponse :=
  match requested_running with
  | Ok requested => answers (BodyState status requested)
  | Err e => answers_error (api_error_of_persistence e)
  end.
Definition token_route (token : result Error (option DiscoveryToken)) : HttpResponse :=
  match token with
  | Ok (Some token) => answers (BodyToken token)
  | Ok None => answers_error (not_found "TOKEN_NOT_FOUND" "No discovery record exists for this mint.")
  | Err e => answers_error (api_error_of_persistence e)
  end.
Definition discovery_route (snapshot : result Error DiscoverySnapshot) : HttpResponse :=
  match snapshot with
  | Ok snapshot => answers (BodySnapshot snapshot)
  | Err e => answers_error (api_error_of_persistence e)
  end.
Definition health_route (stream : StreamStatus) (health : result Error unit) : HttpResponse :=
  match health with
  | Ok _ =>
      let overall := match stream with Degraded | ErrorStatus => "DEGRADED" | _ => "UP" end%string in
      answers (BodyHealth {| hr_status := overall; hr_database := "UP"; hr_stream := stream |})
  | Err _ => {| re_status := SERVICE_UNAVAILABLE;
                re_body := BodyHealth {| hr_status := "DEGRADED"; hr_database := "DOWN"; hr_stream := stream |} |}
  end.

(** [AppState::new] up to [resume_if_requested]: the settings are seeded, the
    abandoned windows finalized, which may fail, and the supervisor restored. *)
Definition app_state_new (others : SettingsDb -> SettingsDb) (defaults : PrefilterDefaults)
    (requested_running : result Error bool) : stateful SettingsDb Error State :=
  _ ← initialize_prefilter_defaults (JE:=JE) row_not_found others defaults;
  _ ← initialize_qualification_defaults (JE:=JE) row_not_found out_of_range others SAFE_INITIAL;
  requested ← st_lift requested_running;
  db ← read_state id;
  mret (restored requested db).
End Routes.
End Control.

(** ** The bus of live events *)
Inductive LiveEvent := StreamStatusChanged (status : StreamStatus) | DiscoveryProjectionChanged | ResyncRequired.
Record LiveEnvelope := { le_sequence : Z; le_event : LiveEvent }.
#[export] Instance LiveEvent_eq_dec : EqDecision LiveEvent.
Proof. solve_decision. Defined.

Definition LIVE_EVENT_BUFFER : nat := 256.

(** [tokio::sync::broadcast]: a receiver that waits at a position of what was sent
    either gets the value there or, when it lags behind the buffer, an error that
    moves it forward; it waits when it got everything. *)
Inductive Received := ReceivedValue (e : LiveEnvelope) | ReceivedLagged.
Class Broadcast := {
  recv : list LiveEnvelope -> nat -> option (Received * nat);
  recv_value sent pos e pos' : recv sent pos = Some (ReceivedValue e, pos') -> sent !! pos = Some e /\ pos' = S pos;
  recv_lagged sent pos pos' : recv sent pos = Some (ReceivedLagged, pos') -> (pos < pos' <= length sent)%nat;
  recv_waits sent pos : (pos <= length sent)%nat -> recv sent pos = None -> pos = length sent;
}.

(** A stream of [events::get]: it makes its first event, subscribes, sends the
    first event, then follows the receiver. *)
Inductive StreamPoint := StreamPrepared (initial : LiveEnvelope) | StreamSubscribed (initial : LiveEnvelope) (pos : nat)
                       | StreamFollows (pos : nat).
Record EventStream := {
  es_point : StreamPoint;
  es_events : list LiveEnvelope;
  (** The changes made before the last event that asks for a refresh. *)
  es_refreshed : nat;
}.

(** The bus with the publications under way: tasks that sleep before an
    invalidation, tasks that cleared the flag, publishers between [envelope] and
    [send]; and the streams. *)
Record Bus := {
  bu_sequence : Z;
  bu_pending : bool;
  bu_sleeping : nat;
  bu_woken : nat;
  bu_sending : list LiveEnvelope;
  bu_sent : list LiveEnvelope;
  bu_changes : nat;
  bu_streams : list EventStream;
}.
Definition live_event_bus : Bus := {|
  bu_sequence := 0; bu_pending := false; bu_sleeping := 0; bu_woken := 0; bu_sending := []; bu_sent := [];
  bu_changes := 0; bu_streams := [] |}.

Definition envelope (event : LiveEvent) (b : Bus) : LiveEnvelope * Bus :=
  let next := wrapping_add_u 64 (bu_sequence b) 1 in
  ({| le_sequence := next; le_event := event |}, {|
   bu_sequence := next; bu_pending := bu_pending b; bu_sleeping := bu_sleeping b; bu_woken := bu_woken b;
   bu_sending := bu_sending b; bu_sent := bu_sent b; bu_changes := bu_changes b; bu_streams := bu_streams b |}).
Definition resync_envelope (b : Bus) : LiveEnvelope := {| le_sequence := bu_sequence b; le_event := ResyncRequired |}.

Definition with_tasks (pending : bool) (sleeping woken : nat) (b : Bus) : Bus := {|
  bu_sequence := bu_sequence b; bu_pending := pending; bu_sleeping := sleeping; bu_woken := woken;
  bu_sending := bu_sending b; bu_sent := bu_sent b; bu_changes := bu_changes b; bu_streams := bu_streams b |}.
Definition with_sending (sending sent : list LiveEnvelope) (b : Bus) : Bus := {|
  bu_sequence := bu_sequence b; bu_pending := bu_pending b; bu_sleeping := bu_sleeping b; bu_woken := bu_woken b;
  bu_sending := sending; bu_sent := sent; bu_changes := bu_changes b; bu_streams := bu_streams b |}.
Definition with_changes (changes : nat) (b : Bus) : Bus := {|
  bu_sequence := bu_sequence b; bu_pending := bu_pending b; bu_sleeping := bu_sleeping b; bu_woken := bu_woken b;
  bu_sending := bu_sending b; bu_sent := bu_sent b; bu_changes := changes; bu_streams := bu_streams b |}.
Definition with_streams (streams : list EventStream) (b : Bus) : Bus := {|
  bu_sequence := bu_sequence b; bu_pending := bu_pending b; bu_sleeping := bu_sleeping b; bu_woken := bu_woken b;
  bu_sending := bu_sending b; bu_sent := bu_sent b; bu_changes := bu_changes b; bu_streams := streams |}.

(** [publish] up to its [send]. *)
Definition begin_publish (event : LiveEvent) (b : Bus) : Bus :=
  let '(e, b) := envelope event b in with_sending (bu_sending b ++ [e]) (bu_sent b) b.
Definition send (i : nat) (b : Bus) : option Bus :=
  e ← bu_sending b !! i;
  Some (with_sending (delete i (bu_sending b)) (bu_sent b ++ [e]) b).

(** The compare and exchange of [publish_discovery_projection_changed]. *)
Definition publish_discovery_projection_changed (b : Bus) : Bus :=
  if bu_pending b then b else with_tasks true (S (bu_sleeping b)) (bu_woken b) b.
(** The spawned task wakes up and clears the flag, then publishes. *)
Definition task_wakes (b : Bus) : option Bus :=
  match bu_sleeping b with S n => Some (with_tasks false n (S (bu_woken b)) b) | O => None end.
Definition task_publishes (b : Bus) : option Bus :=
  match bu_woken b with
  | S n => Some (begin_publish DiscoveryProjectionChanged (with_tasks (bu_pending b) (bu_sleeping b) n b))
  | O => None
  end.

(** An event goes out on a stream; the client refreshes on two of them. *)
Definition asks_refresh (e : LiveEnvelope) : bool :=
  match le_event e with StreamStatusChanged _ => false | _ => true end.
Definition emit (e : LiveEnvelope) (changes : nat) (point : StreamPoint) (s : EventStream) : EventStream := {|
  es_point := point; es_events := es_events s ++ [e];
  es_refreshed := if asks_refresh e then changes else es_refreshed s |}.

Section Streams.
Context {BC : Broadcast}.

Definition stream_step (b : Bus) (s : EventStream) : option EventStream :=
  match es_point s with
  | StreamPrepared initial =>
      Some {| es_point := StreamSubscribed initial (length (bu_sent b)); es_events := es_events s;
              es_refreshed := es_refreshed s |}
  | StreamSubscribed initial pos => Some (emit initial (bu_changes b) (StreamFollows pos) s)
  | StreamFollows pos =>
      match recv (bu_sent b) pos with
      | Some (ReceivedValue e, pos) => Some (emit e (bu_changes b) (StreamFollows pos) s)
      | Some (ReceivedLagged, pos) => Some (emit (resync_envelope b) (bu_changes b) (StreamFollows pos) s)
      | None => None
      end
  end.

Inductive BusLabel :=
| ProjectionChanges
| Publishes (status : StreamStatus)
| Sends (i : nat)
| TaskWakes
| TaskPublishes
| Connects
| Streams (i : nat).

Definition bus_step (l : BusLabel) (b : Bus) : option Bus :=
  match l with
  | ProjectionChanges => Some (publish_discovery_projection_changed (with_changes (S (bu_changes b)) b))
  | Publishes status => Some (begin_publish (StreamStatusChanged status) b)
  | Sends i => send i b
  | TaskWakes => task_wakes b
  | TaskPublishes => task_publishes b
  | Connects =>
      Some (with_streams (bu_streams b ++
        [{| es_point := StreamPrepared (resync_envelope b); es_events := []; es_refreshed := 0 |}]) b)
  | Streams i =>
      s ← bu_streams b !! i;
      s ← stream_step b s;
      Some (with_streams (<[i := s]> (bu_streams b)) b)
  end.
Fixpoint run_bus (ls : list BusLabel) (b : Bus) : option Bus :=
  match ls with [] => Some b | l :: ls => b ← bus_step l b; run_bus ls b end.
End Streams.

(** ** The streams hear of every change *)
Section Hearing.
Context {BC : Broadcast}.

Definition invalidates (e : LiveEnvelope) : bool := bool_decide (le_event e = DiscoveryProjectionChanged).
Definition invalidations (l : list LiveEnvelope) : nat := length (List.filter invalidates l).

(** A refresh is still to come for a receiver at a position. *)
Definition coming (b : Bus) (pos : nat) : Prop :=
  (0 < bu_sleeping b)%nat \/ (0 < bu_woken b)%nat \/ (exists e, e ∈ bu_sending b /\ asks_refresh e = true) \/
  exists e, e ∈ drop pos (bu_sent b) /\ asks_refresh e = true.
Definition stream_ok (b : Bus) (s : EventStream) : Prop :=
  match es_point s with
  | StreamPrepared initial => le_event initial = ResyncRequired /\ es_events s = []
  | StreamSubscribed initial pos => le_event initial = ResyncRequired /\ es_events s = [] /\ (pos <= length (bu_sent b))%nat
  | StreamFollows pos =>
      (exists first rest, es_events s = first :: rest /\ le_event first = ResyncRequired) /\
      (pos <= length (bu_sent b))%nat /\ (es_refreshed s = bu_changes b \/ coming b pos)
  end.
Record bus_ok (b : Bus) : Prop := {
  bo_sleeping : bu_sleeping b = if bu_pending b then 1%nat else 0%nat;
  bo_coalesced : (invalidations (bu_sent b ++ bu_sending b) + bu_woken b + bu_sleeping b <= bu_changes b)%nat;
  bo_streams : Forall (stream_ok b) (bu_streams b);
}.

Lemma live_event_bus_ok : bus_ok live_event_bus.
Proof. by constructor. Qed.

(** A bus that has sent no less and lost no refresh to come. *)
Lemma streams_carry b b' l : (length (bu_sent b) <= length (bu_sent b'))%nat ->
  (forall pos, (pos <= length (bu_sent b))%nat -> coming b pos -> coming b' pos) ->
  (bu_changes b' = bu_changes b \/ forall pos, coming b' pos) ->
  Forall (stream_ok b) l -> Forall (stream_ok b') l.
Proof.
  intros Hlen Hc Hch Hs. eapply Forall_impl; [exact Hs|]. intros s. unfold stream_ok.
  destruct (es_point s) as [i|i pos|pos]; [done|by intros (? & ? & ?); split_and!; [| |lia]|].
  intros (Hf & Hp & Hr). split; [done|]. split; [lia|].
  destruct Hch as [Hch|Hch]; [|by right]. rewrite Hch. destruct Hr as [Hr|Hr]; [by left|right; by apply Hc].
Qed.

Lemma invalidations_app l1 l2 : invalidations (l1 ++ l2) = (invalidations l1 + invalidations l2)%nat.
Proof. unfold invalidations. by rewrite List.filter_app, length_app. Qed.
Lemma invalidations_delete l i e : l !! i = Some e ->
  invalidations l = (invalidations [e] + invalidations (delete i l))%nat.
Proof.
  intros Hi. rewrite delete_take_drop. rewrite <- (take_drop_middle l i e Hi) at 1.
  change (e :: drop (S i) l) with ([e] ++ drop (S i) l). rewrite !invalidations_app. lia.
Qed.

Lemma begin_publish_ok event b : (event = DiscoveryProjectionChanged -> (invalidations (bu_sent b ++ bu_sending b) +
    bu_woken b + bu_sleeping b < bu_changes b)%nat) -> bus_ok b -> bus_ok (begin_publish event b).
Proof.
  intros Hlt [Hsl Hco Hs]. unfold begin_publish. constructor; simpl; [done| |].
  - rewrite app_assoc, invalidations_app. unfold invalidations at 2. simpl.
    unfold invalidates at 1. case_bool_decide; simpl in *; [specialize (Hlt ltac:(done)); lia|lia].
  - eapply (streams_carry b); try done; [|by left]. intros pos _ [H|[H|[(e & He & H)|H]]]; unfold coming; simpl.
    + by left.
    + right. by left.
    + right. right. left. exists e. split; [|done]. by apply elem_of_app; left.
    + by do 3 right.
Qed.

Lemma coming_send b pos i e : bu_sending b !! i = Some e -> (pos <= length (bu_sent b))%nat -> coming b pos ->
  coming (with_sending (delete i (bu_sending b)) (bu_sent b ++ [e]) b) pos.
Proof.
  intros Hi Hp. unfold coming. simpl. rewrite drop_app_le by done.
  intros [H|[H|[(e' & He & H)|(e' & He & H)]]]; [by left|by (right; left)| |].
  - assert (e' ∈ e :: delete i (bu_sending b)) as Hin.
    { rewrite <- (take_drop_middle _ _ _ Hi) in He. rewrite delete_take_drop. set_solver. }
    apply elem_of_cons in Hin as [->|Hin]; [do 3 right|do 2 right; left]; [exists e|by exists e'].
    split; [|done]. apply elem_of_app. right. by apply list_elem_of_singleton.
  - do 3 right. exists e'. split; [|done]. by apply elem_of_app; left.
Qed.

Lemma stream_step_ok b s s' : stream_ok b s -> stream_step b s = Some s' -> stream_ok b s'.
Proof.
  unfold stream_ok, stream_step. destruct (es_point s) as [initial|initial pos|pos]; simpl.
  - intros [Hi He] [= <-]. simpl. by split_and!.
  - intros (Hi & He & Hp) [= <-]. unfold emit, asks_refresh. simpl. rewrite Hi, He. simpl.
    split_and!; [by eexists _, _|done|by left].
  - intros ((first & rest & He & Hf) & Hp & Hr) Hst.
    destruct (recv (bu_sent b) pos) as [[[e|] pos']|] eqn:Er; [| |done]; injection Hst as <-; unfold emit; simpl.
    + apply recv_value in Er as [Hpos ->]. assert (pos < length (bu_sent b))%nat by by eapply lookup_lt_Some.
      split; [exists first, (rest ++ [e]); by rewrite He|]. split; [lia|].
      destruct (asks_refresh e) eqn:Ea; [by left|]. destruct Hr as [Hr|Hr]; [by left|right]. unfold coming in *.
      destruct Hr as [H'|[H'|[H'|(e' & Hin & H')]]]; [by left|by (right; left)|by (do 2 right; left)|]. do 3 right.
      rewrite (drop_S _ _ _ Hpos) in Hin. apply elem_of_cons in Hin as [->|Hin]; [congruence|by exists e'].
    + apply recv_lagged in Er as [Hlt Hle]. split; [exists first, (rest ++ [resync_envelope b]); by rewrite He|].
      split; [lia|]. by left.
Qed.

Lemma bus_step_ok l b b' : bus_ok b -> bus_step l b = Some b' -> bus_ok b'.
Proof.
  intros Hok Hst. pose proof Hok as [Hsl Hco Hs].
  assert (forall pos, (0 < bu_sleeping (publish_discovery_projection_changed (with_changes (S (bu_changes b)) b)))%nat ->
    coming (publish_discovery_projection_changed (with_changes (S (bu_changes b)) b)) pos) as Hch by (intros; by left).
  destruct l; simpl in Hst.
  - injection Hst as <-. unfold publish_discovery_projection_changed in *. simpl in *. destruct (bu_pending b) eqn:Ep.
    + constructor; simpl; [by rewrite Ep|lia|]. eapply (streams_carry b); try done. right. intros pos. apply Hch. simpl. lia.
    + constructor; simpl; [by rewrite Hsl|lia|]. eapply (streams_carry b); try done; [|right; intros pos; apply Hch; simpl; lia].
      intros pos _ _. apply Hch. simpl. lia.
  - injection Hst as <-. by apply begin_publish_ok.
  - unfold send in Hst. apply bind_Some in Hst as (e & Hi & [= <-]). constructor; simpl; [done| |].
    + rewrite !invalidations_app in *. rewrite (invalidations_delete _ _ _ Hi) in Hco. lia.
    + eapply (streams_carry b); try done; simpl; [rewrite length_app; lia|intros pos Hp; by apply coming_send|by left].
  - unfold task_wakes in Hst. destruct (bu_sleeping b) as [|n] eqn:Es; [done|]. injection Hst as <-.
    assert (n = 0%nat) as -> by by destruct (bu_pending b); [injection Hsl|].
    constructor; simpl; [done|lia|]. eapply (streams_carry b); try done; [|by left].
    intros pos _ _. right. left. simpl. lia.
  - unfold task_publishes in Hst. destruct (bu_woken b) as [|n] eqn:Ew; [done|]. injection Hst as <-.
    unfold begin_publish. simpl. constructor; simpl; [done| |].
    + rewrite app_assoc, invalidations_app. unfold invalidations at 2. simpl. lia.
    + eapply (streams_carry b); try done; [|by left]. intros pos _ _. right. right. left. simpl.
      eexists. split; [apply elem_of_app; right; by apply list_elem_of_singleton|done].
  - injection Hst as <-. constructor; [done|done|]. simpl. apply Forall_app. split; [exact Hs|]. by repeat constructor.
  - apply bind_Some in Hst as (s & Hi & (s' & Hstep & [= <-])%bind_Some). constructor; [done|done|]. simpl.
    apply Forall_insert; [exact Hs|]. eapply (stream_step_ok b); [|exact Hstep]. by eapply Forall_lookup_1.
Qed.

Lemma run_bus_ok ls b b' : bus_ok b -> run_bus ls b = Some b' -> bus_ok b'.
Proof.
  revert b. induction ls as [|l ls IH]; intros b Hb; simpl; [by intros [= <-]|].
  intros (b1 & Hst & Hrun)%bind_Some. eapply IH; [|done]. by eapply bus_step_ok.
Qed.
End Hearing.

(** C34: Every stream hears of every change.  Although invalidations are coalesced,
    publishers race between numbering and sending, and receivers may lag behind the
    buffer or connect at any time: once no publication is under way and a stream
    got everything, the last event that asked its client to refresh came after the
    last change that was announced; each stream starts with [ResyncRequired], at
    most one task waits to invalidate, and never more invalidations are sent than
    changes were announced. *)
Theorem streams_hear_of_changes {BC : Broadcast} ls b :
  run_bus ls live_event_bus = Some b ->
  (bu_sleeping b <= 1)%nat /\ (invalidations (bu_sent b) <= bu_changes b)%nat /\
  forall i s pos, bu_streams b !! i = Some s -> es_point s = StreamFollows pos ->
    (le_event <$> head (es_events s) = Some ResyncRequired) /\
    (bu_sleeping b = 0%nat -> bu_woken b = 0%nat -> bu_sending b = [] -> recv (bu_sent b) pos = None ->
     es_refreshed s = bu_changes b).
Proof.
  intros Hrun. pose proof (run_bus_ok ls _ b live_event_bus_ok Hrun) as [Hsl Hco Hs].
  split; [rewrite Hsl; by destruct (bu_pending b); lia|]. split; [rewrite invalidations_app in Hco; lia|].
  intros i s pos Hi Hp. pose proof (Forall_lookup_1 _ _ _ _ Hs Hi) as Hok. unfold stream_ok in Hok. rewrite Hp in Hok.
  destruct Hok as ((first & rest & He & Hf) & Hpos & Hr). split; [by rewrite He; simpl; rewrite Hf|].
  intros H1 H2 H3 Hn. apply recv_waits in Hn; [|done].
  destruct Hr as [Hr|[H|[H|[(e & He' & _)|(e & He' & _)]]]]; [done|lia|lia| |].
  - rewrite H3 in He'. by apply elem_of_nil in He'.
  - rewrite Hn, drop_all in He'. by apply elem_of_nil in He'.
Qed.

(** ** The settings routes *)
Section Settings.
Context {HV : Type} (to_str : HV -> option string) {XE JE : Type} (row_not_found out_of_range : XE).
Context (pipeline_config : StreamConfig) (state : Authority).
Abbreviation Route := (update_prefilter_route (JE:=JE) to_str row_not_found out_of_range pipeline_config state).
Abbreviation qualification_update :=
  (update_qualification_route (XE:=XE) (JE:=JE) to_str row_not_found out_of_range state).

Definition accepted {E} (r : result E unit) : bool := match r with Ok _ => true | Err _ => false end.

(** The statuses of the two updates, decided from what the settings are. *)
Definition prefilter_status (authorized shutting_down editable : bool) (current e : Z) (v : PrefilterDefaults) : StatusCode :=
  if negb authorized then FORBIDDEN else
  if shutting_down then SERVICE_UNAVAILABLE else
  if negb editable then CONFLICT else
  if (e =? 0) || negb (accepted (prefilter_validate v)) || (i64_max <? e) then BAD_REQUEST else
  if negb (e =? current) then CONFLICT else
  if e =? i64_max then SERVICE_UNAVAILABLE else OK.
Definition qualification_status (authorized : bool) (current next e : Z) (v : QualificationDefaults) : StatusCode :=
  if negb authorized then FORBIDDEN else
  if (e =? 0) || negb (accepted (qualification_validate v)) || (i64_max <? e) then BAD_REQUEST else
  if negb (e =? current) then CONFLICT else
  if i64_max <? next then SERVICE_UNAVAILABLE else OK.

Abbreviation headers_ok headers :=
  (local_control_headers_authorized to_str headers (au_web_origin state) (au_api_authority state)).

Lemma to_i64_range e field : in_uint 64 e ->
  to_i64 (XE:=XE) (JE:=JE) e field = if i64_max <? e then Err (PeValueOutOfRange field) else Ok e.
Proof.
  intros He. destruct (Z.ltb_spec i64_max e).
  - unfold to_i64. destruct (try_from_s 64 e) as [e'|] eqn:E; [|done].
    apply try_from_s_Some in E as [-> E]. unfold in_sint in E. int_lia.
  - apply to_i64_id. unfold in_sint, in_uint in *. int_lia.
Qed.

(** The update of the prefilter settings, decided. *)
Lemma update_prefilter_decided db log row e v : settings_ok db log -> sd_prefilter db = Some row -> in_uint 64 e ->
  match update_prefilter_defaults (JE:=JE) out_of_range id e v db with
  | (Ok stored, db') => prefilter_status true false true (pr_revision row) e v = OK /\
      stored = {| sp_values := v; sp_revision := e + 1 |} /\
      (load_prefilter_defaults (JE:=JE) row_not_found db').1 = Ok stored
  | (Err x, db') => ae_status (api_error_of_persistence x) = prefilter_status true false true (pr_revision row) e v /\
      ae_status (api_error_of_persistence x) <> OK /\ db' = db
  end.
Proof.
  intros Hok Hrow He. destruct (prefilter_revision _ _ _ Hok Hrow) as (_ & Hr & _).
  unfold update_prefilter_defaults, prefilter_status. rewrite bind_eq, try_update_decided. simpl negb. cbv iota.
  destruct (Z.eqb_spec e 0); [done|]. destruct (prefilter_validate v) as [[]|x] eqn:Hv; [|done]. simpl. rewrite to_i64_range by done. destruct (Z.ltb_spec i64_max e); [done|].
  unfold replace_prefilter. rewrite Hrow. destruct (Z.eqb_spec (pr_revision row) e) as [Heq|Hne].
  - rewrite (proj2 (Z.eqb_eq e (pr_revision row))) by done. simpl. rewrite Heq.
    destruct (in_sintb 64 (e + 1)) eqn:Hin.
    + apply in_sintb_iff in Hin. unfold in_sint in Hin. destruct (Z.eqb_spec e i64_max); [int_lia|].
      unfold load_prefilter_defaults, mbind, stateful_bind, read_state, st_lift. simpl.
      by rewrite !prefilter_columns_read by (done || (unfold in_uint in *; int_lia)).
    + destruct (Z.eqb_spec e i64_max); [done|]. apply not_true_iff_false in Hin. exfalso. apply Hin, in_sintb_iff.
      unfold in_sint, in_uint in *. int_lia.
  - rewrite (proj2 (Z.eqb_neq e (pr_revision row))) by congruence. simpl.
    rewrite bind_eq. cbn [modify_state id]. unfold prefilter_conflict. rewrite bind_eq. unfold read_state.
    rewrite Hrow, bind_eq. unfold st_lift. rewrite to_u64_id by (unfold in_uint; int_lia). cbn [fmap result_fmap].
    rewrite bind_eq, to_u64_id by done. done.
Qed.

Lemma update_qualification_decided db log current e v : settings_ok db log -> sd_current db = Some current -> in_uint 64 e ->
  match update_qualification_defaults (JE:=JE) row_not_found out_of_range id e v db with
  | (Ok stored, db') => qualification_status true current (sd_next_revision db) e v = OK /\
      stored = {| sq_values := v; sq_revision := sd_next_revision db |} /\
      (load_qualification_defaults (JE:=JE) row_not_found db').1 = Ok stored
  | (Err x, db') => ae_status (api_error_of_persistence x) = qualification_status true current (sd_next_revision db) e v /\
      ae_status (api_error_of_persistence x) <> OK /\ db' = db
  end.
Proof.
  intros Hok Hcur He. unfold update_qualification_defaults, commit_qualification_update, qualification_status.
  rewrite !bind_eq. unfold st_lift at 1. simpl negb. cbv iota. destruct (Z.eqb_spec e 0); [done|]. simpl.
  rewrite bind_eq. unfold st_lift at 1. destruct (qualification_validate v) as [[]|x] eqn:Hv; [|done]. simpl.
  rewrite bind_eq. unfold st_lift at 1. rewrite to_i64_range by done. destruct (Z.ltb_spec i64_max e); [done|].
  rewrite bind_eq. unfold read_state. rewrite Hcur.
  pose proof (so_next _ _ Hok) as [Hn1 Hn2]. destruct (Z.eqb_spec e current) as [->|Hne].
  - rewrite bool_decide_true by done. simpl. rewrite bind_eq, insert_revision_decided.
    destruct (in_sintb 64 (sd_next_revision db)) eqn:Hin.
    + apply in_sintb_iff in Hin. unfold in_sint in Hin. destruct (Z.ltb_spec i64_max (sd_next_revision db)); [int_lia|].
      unfold mbind, stateful_bind, modify_state, mret, stateful_ret, id. cbv beta iota.
      unfold load_qualification_defaults. unfold mbind, stateful_bind, read_state, st_lift. simpl.
      rewrite lookup_insert_eq. simpl. rewrite qualification_row_read by (done || (unfold in_uint; int_lia)). simpl.
      by rewrite lookup_insert_eq; simpl; rewrite qualification_row_read by (done || (unfold in_uint; int_lia)).
    + destruct (Z.ltb_spec i64_max (sd_next_revision db)); [done|]. apply not_true_iff_false in Hin. exfalso.
      apply Hin, in_sintb_iff. unfold in_sint. int_lia.
  - rewrite bool_decide_false by congruence. simpl. rewrite bind_eq. unfold st_lift.
    pose proof (so_current _ _ Hok) as Hc. rewrite Hcur in Hc. destruct Hc as [Hlast Hne']. unfold last_revision in Hlast.
    destruct (last (lg_qualification log)) as [[[e' r'] v']|] eqn:E; [subst r'|by apply last_None in E].
    apply last_Some_elem_of in E. destruct (so_kept _ _ Hok _ _ _ E) as (Hlt & Hrow & _).
    destruct (so_revisions _ _ Hok _ _ Hrow) as [Hb _].
    rewrite to_u64_id by (unfold in_uint; int_lia). done.
Qed.
End Settings.

(** C35: The settings routes answer what the settings are.  The premises: both
    settings are stored by some history of the settings, the database serves and
    nothing else writes to it meanwhile, no command of the supervisor is under way,
    and the expected revision is a [u64].  An update of the prefilter settings
    answers, by the first case that applies: 403 without the local control, 503
    while the process shuts down, 409 unless the stream is stopped, not requested and
    without a running pipeline, 400 for a zero or too large expected revision or
    invalid values, 409 when the expected revision is not the current one, 503 when
    the revisions are exhausted, and otherwise 200 with the values under the next
    revision.  An update of the qualification
    settings, which is no command of the supervisor, answers the same but for the
    shutdown and the state of the stream, which it does not look at: 403, 400, 409
    for a stale revision, 503 for exhausted revisions, otherwise 200 with the values
    under a fresh revision.  After a 200 the reading route gives that same answer;
    any other answer left the settings as they were. *)
Theorem settings_routes_answer {HV : Type} (to_str : HV -> option string) {XE JE : Type} (row_not_found out_of_range : XE)
    pipeline_config state headers ops (s : Supervisor (XE:=XE) (JE:=JE)) row current e v q :
  su_command s = None -> su_settings s = (run_settings (XE:=XE) (JE:=JE) out_of_range ops).1 ->
  sd_prefilter (su_settings s) = Some row -> sd_current (su_settings s) = Some current -> in_uint 64 e ->
  let authorized := local_control_headers_authorized to_str headers (au_web_origin state) (au_api_authority state) in
  (let '(answer, s') := update_prefilter_route to_str row_not_found out_of_range pipeline_config state headers e v s in
   exists response, answer = Some response /\ su_command s' = None /\
     re_status response = prefilter_status authorized (su_shutdown s)
       (prefilter_settings_are_editable (su_status s) (su_requested s) (has_running_pipeline s)) (pr_revision row) e v /\
     (re_status response = OK ->
        re_body response = BodyPrefilter (prefilter_defaults_response {| sp_values := v; sp_revision := e + 1 |}) /\
        get_prefilter_route (JE:=JE) row_not_found (su_settings s') = response) /\
     (re_status response <> OK -> su_settings s' = su_settings s)) /\
  (let '(response, db') := update_qualification_route (JE:=JE) to_str row_not_found out_of_range state headers id e q
                             (su_settings s) in
   re_status response = qualification_status authorized current (sd_next_revision (su_settings s)) e q /\
   (re_status response = OK ->
      re_body response = BodyQualification (qualification_defaults_response
        {| sq_values := q; sq_revision := sd_next_revision (su_settings s) |}) /\
      get_qualification_route (JE:=JE) row_not_found db' = response) /\
   (re_status response <> OK -> db' = su_settings s)).
Proof.
  intros Hcmd Hset Hrow Hcur He authorized. pose proof (run_settings_ok (XE:=XE) (JE:=JE) out_of_range ops) as Hok.
  rewrite <- Hset in Hok. split.
  - pose proof (update_prefilter_decided (JE:=JE) row_not_found out_of_range _ _ row e v Hok Hrow He) as Hd.
    unfold update_prefilter_route, control_route, require_local_control. fold authorized. unfold prefilter_status.
    destruct authorized; simpl; [|by eexists]. unfold begin. rewrite Hcmd. destruct (su_shutdown s) eqn:Esd; simpl.
    { eexists. rewrite last_snoc. by split_and!. }
    destruct (prefilter_settings_are_editable _ _ _); simpl.
    + destruct (update_prefilter_defaults _ _ _ _ (su_settings s)) as [[stored|x] db'] eqn:Eu; simpl.
      * destruct Hd as (Hst & -> & Hl). eexists. rewrite last_snoc. split_and!; try done.
        intros _. split; [done|]. unfold get_prefilter_route. simpl. by rewrite Hl.
      * destruct Hd as (Hst & Hne & ->). eexists. rewrite last_snoc. by split_and!.
    + eexists. rewrite last_snoc. by split_and!.
  - pose proof (update_qualification_decided (JE:=JE) row_not_found out_of_range _ _ current e q Hok Hcur He) as Hd.
    unfold update_qualification_route, require_local_control. fold authorized. unfold qualification_status.
    destruct authorized; simpl; [|done].
    destruct (update_qualification_defaults _ _ _ _ _ (su_settings s)) as [[stored|x] db'] eqn:Eu; simpl.
    + destruct Hd as (Hst & -> & Hl). split_and!; try done. intros _. split; [done|]. unfold get_qualification_route. by rewrite Hl.
    + destruct Hd as (Hst & Hne & ->). by split_and!.
Qed.

(** ** Start-up *)
Section StartUp.
Context {XE JE : Type} (row_not_found out_of_range : XE).

Lemma initialize_prefilter_keeps v db stored db' :
  initialize_prefilter_defaults (JE:=JE) row_not_found id v db = (Ok stored, db') ->
  (forall row, sd_prefilter db = Some row -> sd_prefilter db' = Some row) /\ sd_current db' = sd_current db /\
  load_prefilter_defaults (JE:=JE) row_not_found db' = (Ok stored, db').
Proof.
  unfold initialize_prefilter_defaults. intros H.
  apply stateful_bind_Ok in H as ([] & db1 & Hseed & H). apply stateful_bind_Ok in H as ([] & db2 & [= <-] & Hload).
  assert (db1 = insert_prefilter (prefilter_columns 1 v) db) as ->.
  { revert Hseed. unfold seed_prefilter_defaults. rewrite bind_eq. unfold st_lift at 1.
    destruct (prefilter_validate v) as [[]|] eqn:Hv; [|done]. simpl. rewrite bind_eq. unfold st_lift.
    rewrite prefilter_row_valid by done. by intros [= <-]. }
  assert (db' = insert_prefilter (prefilter_columns 1 v) db) as ->.
  { revert Hload. unfold id, load_prefilter_defaults. rewrite bind_eq. unfold read_state, mbind, stateful_bind, st_lift.
    by destruct (ok_or _ _); [destruct (prefilter_of_row _)|]; intros [= ? <-]. }
  split_and!; [|by unfold insert_prefilter; destruct (sd_prefilter db)|exact Hload].
  intros row Hrow. unfold insert_prefilter. by rewrite Hrow.
Qed.

Lemma initialize_qualification_keeps v db stored db' :
  initialize_qualification_defaults (JE:=JE) row_not_found out_of_range id v db = (Ok stored, db') ->
  (forall current, sd_current db = Some current -> sd_current db' = Some current) /\ sd_prefilter db' = sd_prefilter db /\
  load_qualification_defaults (JE:=JE) row_not_found db' = (Ok stored, db').
Proof.
  unfold initialize_qualification_defaults. intros H.
  apply stateful_bind_Ok in H as ([] & db1 & Hseed & H). apply stateful_bind_Ok in H as ([] & db2 & [= <-] & Hload).
  assert (db' = db1) as ->.
  { revert Hload. unfold id, load_qualification_defaults. rewrite bind_eq. unfold read_state, mbind, stateful_bind, st_lift.
    by destruct (ok_or _ _) as [[]|]; [destruct (qualification_of_row _ _)|]; intros [= ? <-]. }
  assert (db1 = db \/ sd_current db = None /\ sd_prefilter db1 = sd_prefilter db) as Hdb.
  { revert Hseed. unfold seed_qualification_defaults, mbind, stateful_bind, st_lift, read_state, modify_state, mret, stateful_ret,
      insert_revision. repeat case_match; intros; simplify_eq; auto. }
  split_and!; [| |exact Hload]; destruct Hdb as [->|[Hn Hp]]; [done|by rewrite Hn|done|done].
Qed.
End StartUp.

(** Start-up keeps the settings.  When [AppState::new] gets to the supervisor, the
    settings the operator stored before are unchanged, both reading routes answer
    them, and the supervisor is restored on them. *)
Theorem start_up_keeps_settings {XE JE : Type} (row_not_found out_of_range : XE) defaults requested db s db' :
  app_state_new (JE:=JE) row_not_found out_of_range id defaults requested db = (Ok s, db') ->
  (forall row, sd_prefilter db = Some row -> sd_prefilter db' = Some row) /\
  (forall current, sd_current db = Some current -> sd_current db' = Some current) /\
  re_status (get_prefilter_route (JE:=JE) row_not_found db') = OK /\
  re_status (get_qualification_route (JE:=JE) row_not_found db') = OK /\
  exists flag, requested = Ok flag /\ s = restored flag db'.
Proof.
  unfold app_state_new. intros H. apply stateful_bind_Ok in H as (p & db1 & Hp & H).
  apply stateful_bind_Ok in H as (q & db2 & Hq & H). apply stateful_bind_Ok in H as (flag & db3 & Hf & H).
  injection Hf as -> <-. apply stateful_bind_Ok in H as (db4 & db5 & [= <- <-] & [= <- <-]).
  apply initialize_prefilter_keeps in Hp as (Hp1 & Hp2 & Hp3). apply initialize_qualification_keeps in Hq as (Hq1 & Hq2 & Hq3).
  split_and!.
  - intros row Hrow. rewrite Hq2. by apply Hp1.
  - intros current Hc. apply Hq1. by rewrite Hp2.
  - unfold get_prefilter_route, load_prefilter_defaults in *. revert Hp3. rewrite !bind_eq. unfold read_state. rewrite Hq2.
    unfold mbind, stateful_bind, st_lift. destruct (ok_or _ _); [|done]. by destruct (prefilter_of_row _).
  - unfold get_qualification_route. by rewrite Hq3.
  - by exists flag.
Qed.

(** ** A channel of a fixed capacity *)
Definition ring_recv (capacity : nat) (sent : list LiveEnvelope) (pos : nat) : option (Received * nat) :=
  if (pos + capacity <? length sent)%nat then Some (ReceivedLagged, (length sent - capacity)%nat)
  else e ← sent !! pos; Some (ReceivedValue e, S pos).
Lemma ring_value capacity sent pos e pos' : ring_recv capacity sent pos = Some (ReceivedValue e, pos') ->
  sent !! pos = Some e /\ pos' = S pos.
Proof. unfold ring_recv. case_match; [done|]. by intros (e' & He & [= <- <-])%bind_Some. Qed.
Lemma ring_lagged capacity sent pos pos' : ring_recv capacity sent pos = Some (ReceivedLagged, pos') ->
  (pos < pos' <= length sent)%nat.
Proof.
  unfold ring_recv. destruct (Nat.ltb_spec (pos + capacity) (length sent)); [intros [= <-]; lia|].
  by intros (e' & _ & ?)%bind_Some.
Qed.
Lemma ring_waits capacity sent pos : (pos <= length sent)%nat -> ring_recv capacity sent pos = None -> pos = length sent.
Proof.
  unfold ring_recv. intros Hle. case_match; [done|]. intros Hn. destruct (sent !! pos) eqn:E; [done|].
  apply lookup_ge_None in E. lia.
Qed.
#[local] Instance ring : Broadcast := {|
  recv := ring_recv LIVE_EVENT_BUFFER; recv_value := ring_value _; recv_lagged := ring_lagged _; recv_waits := ring_waits _ |}.

Module SampleServer.
(** Two changes, one invalidation; the status overtakes it. *)
Definition labels : list BusLabel := [
  Connects; Streams 0; ProjectionChanges; ProjectionChanges; TaskWakes; TaskPublishes; Publishes Running; Sends 1; Sends 0;
  Streams 0; Streams 0; Streams 0].
Definition headers (name : string) : option string :=
  if String.eqb name HOST then Some "127.0.0.1:8080" else
  if String.eqb name LOCAL_CONTROL_HEADER_NAME then Some LOCAL_CONTROL_HEADER_VALUE else None.
Definition authority : Authority := {| au_web_origin := "http://localhost:3000"; au_api_authority := "127.0.0.1:8080" |}.
Definition ops : list SettingsOp := [SeedPrefilter (sample_prefilter 15000); SeedQualification SAFE_INITIAL].
Definition supervisor : Supervisor (XE:=unit) (JE:=unit) :=
  go None (restored false (run_settings (XE:=unit) (JE:=unit) tt ops).1).
Definition updated := update_prefilter_route (JE:=unit) Some tt tt SampleSupervisor.sample_config authority headers 1
  (sample_prefilter 20000) supervisor.
Definition requalified := update_qualification_route (XE:=unit) (JE:=unit) Some tt tt authority headers id 1 SAFE_INITIAL
  (su_settings supervisor).
Definition started := app_state_new (XE:=unit) (JE:=unit) tt tt id (sample_prefilter 20000) (Ok true) (su_settings supervisor).
End SampleServer.

Lemma streams_hear_of_changes_witness : exists b s, run_bus SampleServer.labels live_event_bus = Some b /\
  bu_streams b = [s] /\ le_event <$> es_events s = [ResyncRequired; StreamStatusChanged Running; DiscoveryProjectionChanged] /\
  bu_changes b = 2%nat /\ es_refreshed s = bu_changes b.
Proof.
  eexists _, _. split; [vm_compute; reflexivity|]. split; [reflexivity|]. split; [reflexivity|]. split; [reflexivity|].
  eapply (streams_hear_of_changes SampleServer.labels); [vm_compute; reflexivity|exact (eq_refl : _ !! 0%nat = Some _)|..];
    reflexivity.
Defined.

Lemma settings_routes_answer_witness :
  (exists response s', SampleServer.updated = (Some response, s') /\
     re_status response = OK /\ get_prefilter_route (XE:=unit) (JE:=unit) tt (su_settings s') = response) /\
  (exists response db', SampleServer.requalified = (response, db') /\
     re_status response = OK /\ get_qualification_route (XE:=unit) (JE:=unit) tt db' = response).
Proof.
  destruct (settings_routes_answer (XE:=unit) (JE:=unit) Some tt tt SampleSupervisor.sample_config SampleServer.authority
    SampleServer.headers SampleServer.ops SampleServer.supervisor (prefilter_columns 1 (sample_prefilter 15000)) 1 1
    (sample_prefilter 20000) SAFE_INITIAL) as [Hp Hq].
  - reflexivity.
  - reflexivity.
  - vm_compute. reflexivity.
  - vm_compute. reflexivity.
  - vm_compute. split; congruence.
  - split.
    + fold SampleServer.updated in Hp. destruct SampleServer.updated as [answer s'] eqn:E.
      destruct Hp as (response & -> & _ & Hst & Hok & _). exists response, s'. split; [reflexivity|].
      assert (re_status response = OK) as Hs by (rewrite Hst; vm_compute; reflexivity). split; [exact Hs|]. by apply Hok.
    + fold SampleServer.requalified in Hq. destruct SampleServer.requalified as [response db'] eqn:E.
      destruct Hq as (Hst & Hok & _). exists response, db'. split; [reflexivity|].
      assert (re_status response = OK) as Hs by (rewrite Hst; vm_compute; reflexivity). split; [exact Hs|]. by apply Hok.
Defined.

Lemma start_up_keeps_settings_witness : exists s db', SampleServer.started = (Ok s, db') /\
  sd_prefilter db' = Some (prefilter_columns 1 (sample_prefilter 15000)).
Proof.
  destruct SampleServer.started as [[s|e] db'] eqn:E; [|vm_compute in E; discriminate]. exists s, db'. split; [reflexivity|].
  destruct (start_up_keeps_settings tt tt (sample_prefilter 20000) (Ok true) (su_settings SampleServer.supervisor) s db' E)
    as (Hp & _). apply Hp. vm_compute. reflexivity.
Defined.
