(* ===== verification/Registers.v ===== *)
(** The remaining statements of [crates/persistence]: the recovery checkpoints
    of [checkpoints.rs], the collection gaps of [collection_gaps.rs], the
    PumpSwap pool identities of [pump_swap.rs], the retained markets of
    [markets.rs], the ids of active windows of [discovery_windows.rs], the
    quarantined records of [quarantine.rs] and the screening audits of
    [screening.rs].

    A table is a finite map from its unique key to the columns the code reads
    or writes; a statement or transaction is one step, and a sequence is not
    rolled back.  Timestamps are in milliseconds and given.

    Proved: the stored checkpoint is the best of those saved; a gap stays listed
    under its id until it is resolved; the mints of a pool never change;
    occurrences count the reports; a screening audit is immutable. *)
From S2P Require Import Prelude.
From S2P Require Import ListFacts.
From S2P Require Import Stateful.
From S2P Require Import RustOrd.
From S2P Require Import RustStr.
From S2P Require Import Domain.
From S2P Require Import External.
From S2P Require Import PersistenceModel.
From S2P Require Import Finalization.
From S2P Require Import FinalizeTx.
From S2P Require Import Store.
From S2P Require Import DiscoveryDb.

(** ** Columns *)
Record CheckpointRow := {
  ck_last_slot : Z; ck_last_transaction_index : option Z; ck_last_signature : string;
}.
(** Unique by network, source program and kind. *)
Definition CheckpointTable := gmap (string * string * string) CheckpointRow.

(** [RecoveryCheckpoint] of [checkpoints.rs]. *)
Record StoredCheckpoint := {
  sc_network : Network; sc_source_program : SourceProgram; sc_checkpoint_kind : string;
  sc_last_slot : Z; sc_last_transaction_index : option Z; sc_last_signature : string;
}.

Record CollectionPosition := { po_slot : Z; po_transaction_index : option Z; po_signature : string }.
Record NewCollectionGap := {
  ng_network : Network; ng_source_program : SourceProgram; ng_reason_code : string;
  ng_prior_checkpoint : CollectionPosition; ng_detected_at_unix_ms : Z; ng_details : string;
}.
Record CollectionGap := {
  cg_gap_id : Z; cg_network : Network; cg_source_program : SourceProgram; cg_reason_code : string;
  cg_prior_checkpoint : CollectionPosition; cg_detected_at_unix_ms : Z; cg_details : string;
  cg_resolved_through : option CollectionPosition; cg_resolved_at_unix_ms : option Z;
}.
(** The unique index of the active gaps is on these columns. *)
Record GapIdentity := {
  gi_network : string; gi_source_program : string; gi_reason_code : string;
  gi_prior_checkpoint_slot : Z; gi_prior_checkpoint_signature : string;
}.
#[export] Instance GapIdentity_eq_dec : EqDecision GapIdentity.
Proof. solve_decision. Defined.
Record CollectionGapRow := {
  gr_identity : GapIdentity;
  gr_prior_checkpoint_transaction_index : option Z;
  gr_detected_at_unix_ms : Z; gr_details : string;
  gr_resolved_through_slot : option Z; gr_resolved_through_transaction_index : option Z;
  gr_resolved_through_signature : option string; gr_resolved_at_unix_ms : option Z;
}.
Record GapTable := { gt_next_id : Z; gt_rows : gmap Z CollectionGapRow }.
Definition set_gap (id : Z) (row : CollectionGapRow) (t : GapTable) : GapTable :=
  {| gt_next_id := gt_next_id t; gt_rows := <[id := row]> (gt_rows t) |}.
Definition active (row : CollectionGapRow) : bool := bool_decide (gr_resolved_through_slot row = None).

Record PumpSwapPoolRow := {
  ppr_base_mint : string; ppr_quote_mint : string; ppr_observed_slot : Z; ppr_observed_signature : string;
}.
(** Unique by network and address. *)
Definition PoolTable := gmap (string * string) PumpSwapPoolRow.

Record QuarantineRow := {
  qu_transaction_index : option Z; qu_decoder_version : string; qu_reason_code : string;
  qu_reason_detail : string; qu_evidence_base64 : string; qu_occurrences : Z;
  qu_first_seen_unix_ms : Z; qu_last_seen_unix_ms : Z;
}.
(** Unique by network, source program, slot, signature, instruction and event. *)
Definition QuarantineTable := gmap (string * string * Z * string * Z * Z) QuarantineRow.
Record StoredIntakeQuarantine := {
  siq_record : IntakeQuarantineRecord; siq_occurrences : Z;
  siq_first_seen_unix_ms : Z; siq_last_seen_unix_ms : Z;
}.

Record ScreeningRun := {
  sr_observation_work_id : option Z; sr_mint : string; sr_venue : Venue; sr_market_address : string;
  sr_ruleset_version : string; sr_decision : AssessmentDecision; sr_risk_score : option Z;
  sr_opportunity_score : option Z; sr_observed_slot : option Z; sr_rules : list RuleResult;
}.
(** The columns of a screening run, with the audit as JSON. *)
Record ScreeningRow {J : Type} := {
  sw_observation_work_id : option Z; sw_mint : string; sw_venue : string; sw_market_address : string;
  sw_ruleset_version : string; sw_decision : string; sw_risk_score : option Z;
  sw_opportunity_score : option Z; sw_observed_slot : option Z; sw_screening_record : J;
}.
#[global] Arguments ScreeningRow : clear implicits.
Record RuleRow := {
  rr_rule_version : string; rr_decision : string; rr_reason_code : string;
  rr_evidence_reference : option string; rr_observed_slot : option Z;
}.
Record ScreeningTables {J : Type} := {
  st_next_id : Z;
  st_runs : gmap Z (ScreeningRow J);
  (** [screening_rule_results], unique by run and rule. *)
  st_rules : gmap (Z * string) RuleRow;
}.
#[global] Arguments ScreeningTables : clear implicits.

Section Registers.
Context {XE JE : Type}.
(** The server's errors of an out-of-range integer and of a violated
    uniqueness constraint. *)
Context (out_of_range unique_violation row_not_found : XE).
Abbreviation persistence A := (result (PersistenceError XE JE) A).
Abbreviation transaction_of T := (stateful T (PersistenceError XE JE)).

(** [Option::map(..).transpose()]. *)
Definition map_transpose {A B} (f : A -> persistence B) (o : option A) : persistence (option B) :=
  match o with Some a => Some <$> f a | None => Ok None end.

(** ** [checkpoints.rs] *)
Definition checkpoint_key (network : Network) (source_program : SourceProgram) (checkpoint_kind : string) :=
  (network_name network, source_program_name source_program, checkpoint_kind).

Definition load_recovery_checkpoint (network : Network) (source_program : SourceProgram)
    (checkpoint_kind : string) : transaction_of CheckpointTable (option StoredCheckpoint) :=
  _ ← st_lift (require_non_empty checkpoint_kind "checkpoint_kind");
  row ← read_state (fun t : CheckpointTable => t !! checkpoint_key network source_program checkpoint_kind);
  st_lift (map_transpose (fun row =>
    last_slot ← to_u64 (ck_last_slot row) "recovery_checkpoints.last_slot";
    last_transaction_index ← map_transpose
      (fun value => to_u64 value "recovery_checkpoints.last_transaction_index")
      (ck_last_transaction_index row);
    Ok {| sc_network := network; sc_source_program := source_program; sc_checkpoint_kind := checkpoint_kind;
          sc_last_slot := last_slot; sc_last_transaction_index := last_transaction_index;
          sc_last_signature := ck_last_signature row |}) row).

(** The values bound to the statement. *)
Definition checkpoint_row (c : StoredCheckpoint) : persistence CheckpointRow :=
  _ ← require_non_empty (sc_checkpoint_kind c) "checkpoint_kind";
  _ ← require_non_empty (sc_last_signature c) "last_signature";
  slot ← to_i64 (sc_last_slot c) "last_slot";
  transaction_index ← map_transpose (fun value => to_i64 value "last_transaction_index")
    (sc_last_transaction_index c);
  Ok {| ck_last_slot := slot; ck_last_transaction_index := transaction_index;
        ck_last_signature := sc_last_signature c |}.

(** The [WHERE] of the [DO UPDATE]: a newer slot, or a later index in the same
    slot when both are known. *)
Definition advances (stored excluded : CheckpointRow) : bool :=
  (ck_last_slot stored <? ck_last_slot excluded) ||
  ((ck_last_slot stored =? ck_last_slot excluded) &&
   match ck_last_transaction_index stored, ck_last_transaction_index excluded with
   | Some i, Some j => i <? j
   | _, _ => false
   end).
(** Whether the statement returned a row. *)
Definition upsert_checkpoint (k : string * string * string) (row : CheckpointRow)
    : transaction_of CheckpointTable bool := fun t =>
  match t !! k with
  | Some stored => if advances stored row then (Ok true, <[k := row]> t) else (Ok false, t)
  | None => (Ok true, <[k := row]> t)
  end.
Definition save_recovery_checkpoint (c : StoredCheckpoint) : transaction_of CheckpointTable bool :=
  row ← st_lift (checkpoint_row c);
  upsert_checkpoint (checkpoint_key (sc_network c) (sc_source_program c) (sc_checkpoint_kind c)) row.

(** ** [collection_gaps.rs] *)
Definition GAP_MAX_REASON_CODE_BYTES : Z := 128.
Definition MAX_DETAILS_BYTES : Z := 2048.

Definition validate_position (p : CollectionPosition) (signature_field : string) : persistence unit :=
  require_non_empty (po_signature p) signature_field.
Definition validate_new_gap (g : NewCollectionGap) : persistence unit :=
  _ ← require_non_empty (ng_reason_code g) "collection gap reason_code";
  _ ← require_non_empty (ng_details g) "collection gap details";
  _ ← validate_length (ng_reason_code g) "collection gap reason_code" GAP_MAX_REASON_CODE_BYTES;
  _ ← validate_length (ng_details g) "collection gap details" MAX_DETAILS_BYTES;
  validate_position (ng_prior_checkpoint g) "collection gap prior checkpoint signature".
Definition position_precedes (p : CollectionPosition) (prior_slot : Z) (prior_index : option Z) : bool :=
  (po_slot p <? prior_slot) ||
  ((po_slot p =? prior_slot) &&
   match po_transaction_index p, prior_index with
   | Some position_index, Some prior_index => position_index <? prior_index
   | _, _ => false
   end).

(** The values bound to the insertion. *)
Definition new_gap_row (g : NewCollectionGap) : persistence CollectionGapRow :=
  _ ← validate_new_gap g;
  slot ← to_i64 (po_slot (ng_prior_checkpoint g)) "prior checkpoint slot";
  transaction_index ← map_transpose (fun value => to_i64 value "prior checkpoint transaction_index")
    (po_transaction_index (ng_prior_checkpoint g));
  Ok {| gr_identity := {|
          gi_network := network_name (ng_network g);
          gi_source_program := source_program_name (ng_source_program g);
          gi_reason_code := ng_reason_code g;
          gi_prior_checkpoint_slot := slot;
          gi_prior_checkpoint_signature := po_signature (ng_prior_checkpoint g) |};
        gr_prior_checkpoint_transaction_index := transaction_index;
        gr_detected_at_unix_ms := ng_detected_at_unix_ms g; gr_details := ng_details g;
        gr_resolved_through_slot := None; gr_resolved_through_transaction_index := None;
        gr_resolved_through_signature := None; gr_resolved_at_unix_ms := None |}.

(** [COALESCE], [LEAST] and the new details. *)
Definition merge_gap (stored excluded : CollectionGapRow) : CollectionGapRow := {|
  gr_identity := gr_identity stored;
  gr_prior_checkpoint_transaction_index :=
    match gr_prior_checkpoint_transaction_index stored with
    | Some index => Some index
    | None => gr_prior_checkpoint_transaction_index excluded
    end;
  gr_detected_at_unix_ms := Z.min (gr_detected_at_unix_ms stored) (gr_detected_at_unix_ms excluded);
  gr_details := gr_details excluded;
  gr_resolved_through_slot := gr_resolved_through_slot stored;
  gr_resolved_through_transaction_index := gr_resolved_through_transaction_index stored;
  gr_resolved_through_signature := gr_resolved_through_signature stored;
  gr_resolved_at_unix_ms := gr_resolved_at_unix_ms stored |}.

Definition find_active (identity : GapIdentity) (t : GapTable) : option (Z * CollectionGapRow) :=
  find (fun p => active p.2 && bool_decide (gr_identity p.2 = identity)) (map_to_list (gt_rows t)).
(** The next value of the sequence, then the row under it or the update of the
    active gap in its way. *)
Definition upsert_gap (row : CollectionGapRow) : transaction_of GapTable Z := fun t =>
  let id := gt_next_id t in
  if in_sintb 64 id then
    let t := {| gt_next_id := id + 1; gt_rows := gt_rows t |} in
    match find_active (gr_identity row) t with
    | Some (stored_id, stored) => (Ok stored_id, set_gap stored_id (merge_gap stored row) t)
    | None => (Ok id, set_gap id row t)
    end
  else (Err (PeDatabase out_of_range), t).
Definition record_collection_gap (g : NewCollectionGap) : transaction_of GapTable Z :=
  row ← st_lift (new_gap_row g);
  upsert_gap row.

Definition resolve_row (slot : Z) (transaction_index : option Z) (signature : string) (now : Z)
    (row : CollectionGapRow) : CollectionGapRow := {|
  gr_identity := gr_identity row;
  gr_prior_checkpoint_transaction_index := gr_prior_checkpoint_transaction_index row;
  gr_detected_at_unix_ms := gr_detected_at_unix_ms row; gr_details := gr_details row;
  gr_resolved_through_slot := Some slot; gr_resolved_through_transaction_index := transaction_index;
  gr_resolved_through_signature := Some signature; gr_resolved_at_unix_ms := Some now |}.
Definition active_gap (gap_id : Z) (t : GapTable) : option CollectionGapRow :=
  row ← gt_rows t !! gap_id; if active row then Some row else None.
(** The [UPDATE], with whether it affected a row. *)
Definition update_resolution (gap_id slot : Z) (transaction_index : option Z) (signature : string) (now : Z)
    : transaction_of GapTable bool := fun t =>
  match active_gap gap_id t with
  | Some row => (Ok true, set_gap gap_id (resolve_row slot transaction_index signature now row) t)
  | None => (Ok false, t)
  end.
Definition resolve_collection_gap (now gap_id : Z) (resolved_through : CollectionPosition)
    : transaction_of GapTable bool :=
  _ ← st_lift (validate_position resolved_through "resolved through signature");
  transaction (
    prior ← read_state (active_gap gap_id);
    match prior with
    | None => mret (Commit false)
    | Some row =>
        prior_slot ← st_lift (to_u64 (gi_prior_checkpoint_slot (gr_identity row))
          "collection_gaps.prior_checkpoint_slot");
        prior_index ← st_lift (map_transpose
          (fun value => to_u64 value "collection_gaps.prior_checkpoint_transaction_index")
          (gr_prior_checkpoint_transaction_index row));
        if position_precedes resolved_through prior_slot prior_index then st_fail PeInvalidGapResolution
        else
          slot ← st_lift (to_i64 (po_slot resolved_through) "resolved through slot");
          transaction_index ← st_lift (map_transpose
            (fun value => to_i64 value "resolved through transaction_index")
            (po_transaction_index resolved_through));
          affected ← update_resolution gap_id slot transaction_index (po_signature resolved_through) now;
          mret (Commit affected)
    end).

(** The [Debug] text of the three resolution columns. *)
Context (debug_values : option Z * option Z * option string -> string).
Definition map_resolution (row : CollectionGapRow) : persistence (option CollectionPosition) :=
  match gr_resolved_through_slot row, gr_resolved_through_transaction_index row,
        gr_resolved_through_signature row with
  | None, None, None => Ok None
  | Some slot, transaction_index, Some signature =>
      slot ← to_u64 slot "collection_gaps.resolved_through_slot";
      transaction_index ← map_transpose
        (fun value => to_u64 value "collection_gaps.resolved_through_transaction_index") transaction_index;
      Ok (Some {| po_slot := slot; po_transaction_index := transaction_index; po_signature := signature |})
  | slot, transaction_index, signature =>
      Err (PeInvalidStoredValue "collection_gaps.resolution"
             (debug_values (slot, transaction_index, signature)))
  end.
Definition map_gap (p : Z * CollectionGapRow) : persistence CollectionGap :=
  let '(gap_id, row) := p in
  let identity := gr_identity row in
  resolved_through ← map_resolution row;
  network ← parse_network (gi_network identity);
  source_program ← parse_source_program (gi_source_program identity);
  slot ← to_u64 (gi_prior_checkpoint_slot identity) "collection_gaps.prior_checkpoint_slot";
  transaction_index ← map_transpose
    (fun value => to_u64 value "collection_gaps.prior_checkpoint_transaction_index")
    (gr_prior_checkpoint_transaction_index row);
  Ok {| cg_gap_id := gap_id; cg_network := network; cg_source_program := source_program;
        cg_reason_code := gi_reason_code identity;
        cg_prior_checkpoint := {| po_slot := slot; po_transaction_index := transaction_index;
                                  po_signature := gi_prior_checkpoint_signature identity |};
        cg_detected_at_unix_ms := gr_detected_at_unix_ms row; cg_details := gr_details row;
        cg_resolved_through := resolved_through; cg_resolved_at_unix_ms := gr_resolved_at_unix_ms row |}.

Definition active_rows (network : Network) (source_program : SourceProgram) (t : GapTable)
    : list (Z * CollectionGapRow) :=
  List.filter (fun p => active p.2 &&
      String.eqb (gi_network (gr_identity p.2)) (network_name network) &&
      String.eqb (gi_source_program (gr_identity p.2)) (source_program_name source_program))
    (map_to_list (gt_rows t)).
Definition load_active_collection_gaps (network : Network) (source_program : SourceProgram)
    : transaction_of GapTable (list CollectionGap) :=
  rows ← read_state (fun t =>
    sort_by (fun p q => cmp (gr_detected_at_unix_ms p.2, p.1) (gr_detected_at_unix_ms q.2, q.1))
      (active_rows network source_program t));
  st_lift (mapM map_gap rows).
Definition count_active_collection_gaps (network : Network) (source_program : SourceProgram)
    : transaction_of GapTable Z :=
  count ← read_state (fun t => Z.of_nat (length (active_rows network source_program t)));
  st_lift (to_u64 count "collection_gaps.active_count").

(** ** [pump_swap.rs] *)
Definition validate_pool (p : StoredPumpSwapPool) : persistence unit :=
  _ ← require_non_empty (pp_pool_address p) "PumpSwap pool_address";
  _ ← require_non_empty (pp_base_mint p) "PumpSwap base_mint";
  _ ← require_non_empty (pp_quote_mint p) "PumpSwap quote_mint";
  _ ← require_non_empty (pp_observed_signature p) "PumpSwap observed_signature";
  guard_err (String.eqb (pp_base_mint p) (pp_quote_mint p)) PeIdenticalPoolMints.
Definition pool_from_row (network : Network) (pool_address : string) (row : PumpSwapPoolRow)
    : persistence StoredPumpSwapPool :=
  observed_slot ← to_u64 (ppr_observed_slot row) "pump_swap_pools.observed_slot";
  Ok {| pp_network := network; pp_pool_address := pool_address; pp_base_mint := ppr_base_mint row;
        pp_quote_mint := ppr_quote_mint row; pp_observed_slot := observed_slot;
        pp_observed_signature := ppr_observed_signature row |}.
Definition load_pump_swap_pool (network : Network) (pool_address : string)
    : transaction_of PoolTable (option StoredPumpSwapPool) :=
  _ ← st_lift (require_non_empty pool_address "PumpSwap pool_address");
  row ← read_state (fun t : PoolTable => t !! (network_name network, pool_address));
  st_lift (map_transpose (pool_from_row network pool_address) row).
Definition load_pump_swap_pools (network : Network) : transaction_of PoolTable (list StoredPumpSwapPool) :=
  rows ← read_state (fun t : PoolTable =>
    sort_by (fun p q => cmp p.1.2 q.1.2)
      (List.filter (fun p => String.eqb p.1.1 (network_name network)) (map_to_list t)));
  st_lift (mapM (fun p => pool_from_row network p.1.2 p.2) rows).

(** The [WHERE] of the [DO UPDATE]. *)
Definition same_pool_not_older (stored excluded : PumpSwapPoolRow) : bool :=
  String.eqb (ppr_base_mint stored) (ppr_base_mint excluded) &&
  String.eqb (ppr_quote_mint stored) (ppr_quote_mint excluded) &&
  (ppr_observed_slot stored <=? ppr_observed_slot excluded).
Definition upsert_pool_row (k : string * string) (row : PumpSwapPoolRow) : transaction_of PoolTable bool :=
  fun t =>
  match t !! k with
  | Some stored => if same_pool_not_older stored row then (Ok true, <[k := row]> t) else (Ok false, t)
  | None => (Ok true, <[k := row]> t)
  end.
(** What follows an upsert that stored nothing; [others]: what other clients do
    between the two statements. *)
Definition existing_pool_answer (others : PoolTable -> PoolTable) (p : StoredPumpSwapPool)
    : transaction_of PoolTable bool :=
  _ ← modify_state others;
  existing ← load_pump_swap_pool (pp_network p) (pp_pool_address p);
  match existing with
  | Some existing =>
      if negb (String.eqb (pp_base_mint existing) (pp_base_mint p)) ||
         negb (String.eqb (pp_quote_mint existing) (pp_quote_mint p))
      then st_fail (PePumpSwapPoolIdentityConflict (pp_pool_address p))
      else mret false
  | None => mret false
  end.
Definition upsert_pump_swap_pool (others : PoolTable -> PoolTable) (p : StoredPumpSwapPool)
    : transaction_of PoolTable bool :=
  _ ← st_lift (validate_pool p);
  observed_slot ← st_lift (to_i64 (pp_observed_slot p) "PumpSwap observed_slot");
  updated ← upsert_pool_row (network_name (pp_network p), pp_pool_address p)
    {| ppr_base_mint := pp_base_mint p; ppr_quote_mint := pp_quote_mint p;
       ppr_observed_slot := observed_slot; ppr_observed_signature := pp_observed_signature p |};
  if updated : bool then mret true else existing_pool_answer others p.

(** ** [markets.rs]
    The columns of [chain_observations] the query looks at. *)
Record ObservationColumns := {
  oc_network : string; oc_source_program : string; oc_mint : option string; oc_event_kind : string;
}.
Definition terminal_kind (event_kind : string) : bool :=
  String.eqb event_kind "COMPLETE" || String.eqb event_kind "COMPLETE_PUMP_AMM_MIGRATION".
Definition terminates (network mint : string) (o : ObservationColumns) : bool :=
  String.eqb (oc_network o) network && String.eqb (oc_source_program o) "PUMP" &&
  bool_decide (oc_mint o = Some mint) && terminal_kind (oc_event_kind o).
Definition retained_market {J} (observations : list ObservationColumns) (network : Network)
    (p : string * TokenRow J) : bool :=
  String.eqb (tk_network p.2) (network_name network) &&
  negb (String.eqb (tk_venue p.2) "PUMP_BONDING_CURVE" &&
        (terminal_kind (tk_event_kind p.2) || existsb (terminates (tk_network p.2) p.1) observations)).
Definition load_discovery_markets {J} (observations : list ObservationColumns) (network : Network)
    (tokens : gmap string (TokenRow J)) : persistence (list MarketIdentity) :=
  mapM (fun p : string * TokenRow J =>
          venue ← parse_venue (tk_venue p.2);
          Ok {| mi_network := network; mi_mint := p.1; mi_venue := venue;
                mi_market_address := tk_market_address p.2; mi_quote_mint := tk_quote_mint p.2 |})
    (sort_by (fun p q => cmp p.1 q.1) (List.filter (retained_market observations network) (map_to_list tokens))).

(** ** [discovery_windows.rs]
    The ids of active windows in the order of their closes. *)
Definition window_ids {J} (wanted : WindowIdentityRow J -> bool) (tables : Store J) : list Z :=
  (sort_by (fun p q : Z * WindowRow J => cmp (wi_closes_at_unix_ms (ow_identity p.2), p.1) (wi_closes_at_unix_ms (ow_identity q.2), q.1))
     (List.filter (fun p => String.eqb (wi_status (ow_identity p.2)) "ACTIVE" && wanted (ow_identity p.2))
        (map_to_list (so_windows tables)))).*1.
Definition load_active_discovery_window_ids {J} (collector_run_id : option string) (tables : Store J) : list Z :=
  window_ids (fun window => match collector_run_id with
                            | None => true
                            | Some run => String.eqb (wi_collector_run_id window) run
                            end) tables.
Definition load_interrupted_discovery_window_ids {J} (current_collector_run_id : string) (tables : Store J)
    : persistence (list Z) :=
  if is_empty (trim current_collector_run_id) then Err (PeEmptyField "current_collector_run_id")
  else Ok (window_ids (fun window => negb (String.eqb (wi_collector_run_id window) current_collector_run_id)) tables).

(** ** [quarantine.rs] *)
Definition quarantine_key (k : ObservationKey) (slot : Z) : string * string * Z * string * Z * Z :=
  (network_name (ok_network k), source_program_name (ok_program k), slot, signature (coordinate k),
   instruction_index (coordinate k), event_index (coordinate k)).
(** The columns of an insertion and of the update that replaces it. *)
Definition insert_quarantine (now : Z) (transaction_index : option Z) (r : IntakeQuarantineRecord)
    : QuarantineRow := {|
  qu_transaction_index := transaction_index; qu_decoder_version := iq_decoder_version r;
  qu_reason_code := iq_reason_code r; qu_reason_detail := iq_reason_detail r;
  qu_evidence_base64 := iq_evidence_base64 r; qu_occurrences := 1;
  qu_first_seen_unix_ms := now; qu_last_seen_unix_ms := now |}.
Definition repeat_quarantine (stored excluded : QuarantineRow) : QuarantineRow := {|
  qu_transaction_index :=
    match qu_transaction_index excluded with
    | Some index => Some index
    | None => qu_transaction_index stored
    end;
  qu_decoder_version := qu_decoder_version excluded; qu_reason_code := qu_reason_code excluded;
  qu_reason_detail := qu_reason_detail excluded; qu_evidence_base64 := qu_evidence_base64 excluded;
  qu_occurrences := qu_occurrences stored + 1;
  qu_first_seen_unix_ms := qu_first_seen_unix_ms stored;
  qu_last_seen_unix_ms := qu_last_seen_unix_ms excluded |}.
Definition upsert_quarantine (k : string * string * Z * string * Z * Z) (row : QuarantineRow)
    : transaction_of QuarantineTable Z := fun t =>
  match t !! k with
  | Some stored =>
      if in_sintb 64 (qu_occurrences stored + 1) then
        (Ok (qu_occurrences stored + 1), <[k := repeat_quarantine stored row]> t)
      else (Err (PeDatabase out_of_range), t)
  | None => (Ok 1, <[k := row]> t)
  end.
Definition record_intake_quarantine {B64 : Base64} (now : Z) (r : IntakeQuarantineRecord)
    : transaction_of QuarantineTable Z :=
  _ ← st_lift (validate_record r);
  slot ← st_lift (to_i64 (slot (coordinate (iq_key r))) "quarantine slot");
  transaction_index ← st_lift (map_transpose (fun value => to_i64 value "quarantine transaction_index")
    (transaction_index (coordinate (iq_key r))));
  occurrences ← upsert_quarantine (quarantine_key (iq_key r) slot) (insert_quarantine now transaction_index r);
  st_lift (to_u64 occurrences "intake_quarantine.occurrences").

Definition stored_record (k : string * string * Z * string * Z * Z) (row : QuarantineRow)
    : persistence StoredIntakeQuarantine :=
  let '(network, source_program, slot, signature, instruction_index, event_index) := k in
  network ← parse_network network;
  program ← parse_source_program source_program;
  slot ← to_u64 slot "intake_quarantine.slot";
  transaction_index ← map_transpose (fun value => to_u64 value "intake_quarantine.transaction_index")
    (qu_transaction_index row);
  instruction_index ← ok_or (try_from_u 16 instruction_index)
    (PeInvalidStoredValue "intake_quarantine.instruction_index" (dec instruction_index));
  event_index ← ok_or (try_from_u 16 event_index)
    (PeInvalidStoredValue "intake_quarantine.event_index" (dec event_index));
  occurrences ← to_u64 (qu_occurrences row) "intake_quarantine.occurrences";
  Ok {| siq_record := {|
          iq_key := {| ok_network := network; ok_program := program; coordinate := {|
            slot := slot; transaction_index := transaction_index; signature := signature;
            instruction_index := instruction_index; event_index := event_index |} |};
          iq_decoder_version := qu_decoder_version row; iq_reason_code := qu_reason_code row;
          iq_reason_detail := qu_reason_detail row; iq_evidence_base64 := qu_evidence_base64 row |};
        siq_occurrences := occurrences; siq_first_seen_unix_ms := qu_first_seen_unix_ms row;
        siq_last_seen_unix_ms := qu_last_seen_unix_ms row |}.
Definition load_intake_quarantine (k : ObservationKey)
    : transaction_of QuarantineTable (option StoredIntakeQuarantine) :=
  _ ← st_lift (require_non_empty (signature (coordinate k)) "quarantine signature");
  slot ← st_lift (to_i64 (slot (coordinate k)) "quarantine slot");
  row ← read_state (fun t : QuarantineTable => t !! quarantine_key k slot);
  st_lift (map_transpose (stored_record (quarantine_key k slot)) row).

(** ** [screening.rs] *)
Fixpoint validate_rules (rules : list RuleResult) : persistence unit :=
  match rules with
  | [] => Ok tt
  | rule :: rules =>
      _ ← require_non_empty (rule_id rule) "rule_id";
      _ ← require_non_empty (rule_version rule) "rule_version";
      _ ← require_non_empty (reason_code rule) "reason_code";
      validate_rules rules
  end.
Definition no_rules (rules : list RuleResult) : bool := match rules with [] => true | _ => false end.
Definition expected_decision (rules : list RuleResult) : AssessmentDecision :=
  if has_decision Reject rules then Reject
  else if has_decision Unknown rules || no_rules rules then Unknown
  else Pass.
Definition validate_screening_run (run : ScreeningRun) : persistence unit :=
  _ ← require_non_empty (sr_mint run) "screening mint";
  _ ← require_non_empty (sr_market_address run) "screening market_address";
  _ ← require_non_empty (sr_ruleset_version run) "ruleset_version";
  _ ← validate_rules (sr_rules run);
  _ ← guard_err (bool_decide (sr_decision run = Pass) && no_rules (sr_rules run)) PeEmptyPassingRules;
  guard_err (negb (bool_decide (expected_decision (sr_rules run) = sr_decision run)))
    PeScreeningDecisionMismatch.

Section Screening.
(** [serde_json] of the run. *)
Context {J : Type} `{EqDecision J} (to_value : ScreeningRun -> result JE J).
Abbreviation ScreeningM := (transaction_of (ScreeningTables J)).

Definition screening_row (run : ScreeningRun) (observed_slot : option Z) (record : J) : ScreeningRow J := {|
  sw_observation_work_id := sr_observation_work_id run; sw_mint := sr_mint run;
  sw_venue := venue_name (sr_venue run); sw_market_address := sr_market_address run;
  sw_ruleset_version := sr_ruleset_version run; sw_decision := assessment_decision_name (sr_decision run);
  sw_risk_score := sr_risk_score run; sw_opportunity_score := sr_opportunity_score run;
  sw_observed_slot := observed_slot; sw_screening_record := record |}.
Definition find_run (work_id : Z) (t : ScreeningTables J) : option (Z * ScreeningRow J) :=
  find (fun p => bool_decide (sw_observation_work_id p.2 = Some work_id)) (map_to_list (st_runs t)).
(** [ON CONFLICT (observation_work_id) .. DO NOTHING]. *)
Definition insert_run (row : ScreeningRow J) : ScreeningM (option Z) := fun t =>
  let id := st_next_id t in
  let t := {| st_next_id := id + 1; st_runs := st_runs t; st_rules := st_rules t |} in
  if in_sintb 64 id then
    match work_id ← sw_observation_work_id row; find_run work_id t with
    | Some _ => (Ok None, t)
    | None => (Ok (Some id), {| st_next_id := id + 1; st_runs := <[id := row]> (st_runs t); st_rules := st_rules t |})
    end
  else (Err (PeDatabase out_of_range), t).
Definition insert_rule_row (run_id : Z) (rule_id : string) (row : RuleRow) : ScreeningM unit := fun t =>
  match st_rules t !! (run_id, rule_id) with
  | Some _ => (Err (PeDatabase unique_violation), t)
  | None => (Ok tt, {| st_next_id := st_next_id t; st_runs := st_runs t;
                       st_rules := <[(run_id, rule_id) := row]> (st_rules t) |})
  end.
Definition insert_rule (run_id : Z) (rule : RuleResult) : ScreeningM unit :=
  rule_slot ← st_lift (map_transpose (fun slot => to_i64 slot "rule observed_slot") (observed_slot rule));
  insert_rule_row run_id (rule_id rule) {|
    rr_rule_version := rule_version rule; rr_decision := assessment_decision_name (decision rule);
    rr_reason_code := reason_code rule; rr_evidence_reference := evidence_reference rule;
    rr_observed_slot := rule_slot |}.
Fixpoint insert_rules (run_id : Z) (rules : list RuleResult) : ScreeningM unit :=
  match rules with
  | [] => mret tt
  | rule :: rules => _ ← insert_rule run_id rule; insert_rules run_id rules
  end.
Definition existing_run (run : ScreeningRun) (record : J) : ScreeningM Z :=
  work_id ← st_lift (ok_or (sr_observation_work_id run)
    (PeInvalidStoredValue "screening_runs.observation_work_id" "NULL conflict"));
  existing ← read_state (find_run work_id);
  '(id, row) ← st_lift (ok_or existing (PeDatabase row_not_found));
  if bool_decide (sw_screening_record row = record) then mret id
  else st_fail (PeScreeningRunConflict work_id).
(** A failed transaction keeps nothing but its place in the sequence. *)
Definition screening_transaction {A} (m : ScreeningM A) : ScreeningM A := fun t =>
  match m t with
  | (Ok a, t') => (Ok a, t')
  | (Err e, t') => (Err e, {| st_next_id := st_next_id t'; st_runs := st_runs t; st_rules := st_rules t |})
  end.
Definition save_screening_run (run : ScreeningRun) : ScreeningM Z :=
  _ ← st_lift (validate_screening_run run);
  observed_slot ← st_lift (map_transpose (fun slot => to_i64 slot "screening observed_slot")
    (sr_observed_slot run));
  screening_record ← st_lift (map_err PeSerialization (to_value run));
  screening_transaction (
    inserted_id ← insert_run (screening_row run observed_slot screening_record);
    match inserted_id with
    | Some run_id => _ ← insert_rules run_id (sr_rules run); mret run_id
    | None => existing_run run screening_record
    end).
End Screening.
End Registers.

(** ** Checkpoints never regress *)
Section CheckpointHistory.
Context {XE JE : Type}.
Abbreviation row_of := (checkpoint_row (XE:=XE) (JE:=JE)).
Abbreviation load := (load_recovery_checkpoint (XE:=XE) (JE:=JE)).
Abbreviation save := (save_recovery_checkpoint (XE:=XE) (JE:=JE)).

Definition save_all (cs : list StoredCheckpoint) (t : CheckpointTable) : CheckpointTable :=
  fold_left (fun t c => (save c t).2) cs t.

Definition key_of (c : StoredCheckpoint) := checkpoint_key (sc_network c) (sc_source_program c) (sc_checkpoint_kind c).
Definition position (c : StoredCheckpoint) : CheckpointRow := {|
  ck_last_slot := sc_last_slot c; ck_last_transaction_index := sc_last_transaction_index c;
  ck_last_signature := sc_last_signature c |}.
(** Its [u64] fields. *)
Definition checkpoint_typed (c : StoredCheckpoint) : Prop :=
  in_uint 64 (sc_last_slot c) /\ from_option (in_uint 64) True (sc_last_transaction_index c).
(** The checks of a save pass. *)
Definition savable (c : StoredCheckpoint) : Prop := row_of c = Ok (position c).

Lemma map_transpose_id (f : Z -> result (PersistenceError XE JE) Z) o o' :
  (forall z z', f z = Ok z' -> z' = z) -> map_transpose f o = Ok o' -> o' = o.
Proof.
  intros Hf. destruct o as [z|]; simpl; [|by intros [= <-]].
  destruct (f z) as [z'|e] eqn:Ef; simpl; [|done]. intros [= <-]. f_equal. by apply Hf.
Qed.
Lemma to_i64_eq field z z' : to_i64 (XE:=XE) (JE:=JE) z field = Ok z' -> z' = z.
Proof. unfold to_i64. intros H. apply ok_or_Ok, try_from_s_Some in H. by destruct H. Qed.
Lemma to_u64_typed field z : in_uint 64 z -> to_u64 (XE:=XE) (JE:=JE) z field = Ok z.
Proof. intros H. unfold to_u64. by rewrite (proj2 (try_from_u_Some 64 z z)). Qed.
Lemma map_to_u64_typed field o : from_option (in_uint 64) True o ->
  map_transpose (fun z => to_u64 (XE:=XE) (JE:=JE) z field) o = Ok o.
Proof. destruct o as [z|]; [|done]. intros H. simpl in *. by rewrite to_u64_typed. Qed.

Lemma checkpoint_row_Ok c row : row_of c = Ok row -> row = position c.
Proof.
  unfold checkpoint_row. intros H. simp_ok.
  match goal with H : to_i64 _ _ = _ |- _ => apply to_i64_eq in H as -> end.
  match goal with H : map_transpose _ _ = _ |- _ => apply map_transpose_id in H as -> end;
    [by subst|intros z z'; apply to_i64_eq].
Qed.

Lemma advances_not a b c : advances a b = true -> advances a c = false -> advances b c = false.
Proof.
  unfold advances. destruct a as [s [i|] g], b as [s' [j|] g'], c as [s'' [k|] g'']; cbn;
    rewrite ?orb_true_iff, ?orb_false_iff, ?andb_true_iff, ?andb_false_iff, ?Z.ltb_lt, ?Z.ltb_ge, ?Z.eqb_eq, ?Z.eqb_neq;
    lia.
Qed.

(** What a key holds once [seen] was saved. *)
Definition holds_best (seen : list StoredCheckpoint) k (o : option CheckpointRow) : Prop :=
  (forall c, c ∈ seen -> key_of c = k -> savable c ->
     match o with Some best => advances best (position c) = false | None => False end) /\
  (forall best, o = Some best -> exists c, c ∈ seen /\ key_of c = k /\ savable c /\ best = position c).

Lemma save_cases c t :
  savable c /\ save c t = upsert_checkpoint (key_of c) (position c) t \/ ~ savable c /\ (save c t).2 = t.
Proof.
  unfold save_recovery_checkpoint, savable. rewrite bind_eq. simpl.
  destruct (row_of c) as [row|e] eqn:Er; [left|by right].
  by rewrite (checkpoint_row_Ok _ _ Er).
Qed.

Lemma advances_irrefl a : advances a a = false.
Proof. unfold advances. rewrite Z.ltb_irrefl, Z.eqb_refl. destruct (ck_last_transaction_index a); cbn; [|done]. apply Z.ltb_irrefl. Qed.

Lemma upsert_at (c : StoredCheckpoint) k (t : CheckpointTable) :
  (upsert_checkpoint (XE:=XE) (JE:=JE) (key_of c) (position c) t).2 !! k =
  if decide (key_of c = k)
  then match t !! k with
       | Some stored => if advances stored (position c) then Some (position c) else Some stored
       | None => Some (position c)
       end
  else t !! k.
Proof.
  unfold upsert_checkpoint. case_decide as Hk.
  - subst k. destruct (t !! key_of c) as [stored|] eqn:Ek; [destruct (advances stored (position c))|]; simpl;
      [apply lookup_insert_eq|done|apply lookup_insert_eq].
  - destruct (t !! key_of c) as [stored|]; [destruct (advances stored (position c))|]; simpl;
      [by apply lookup_insert_ne|done|by apply lookup_insert_ne].
Qed.

Lemma save_holds_best seen k c t :
  holds_best seen k (t !! k) -> holds_best (seen ++ [c]) k ((save c t).2 !! k).
Proof.
  intros [Hall Hbest]. destruct (save_cases c t) as [[Hs ->]|[Hs ->]].
  - rewrite upsert_at. case_decide as Hk; [|split].
    + destruct (t !! k) as [stored|]; [destruct (advances stored (position c)) eqn:Ea|]; split.
      * intros c' [Hin| ->%list_elem_of_singleton]%elem_of_app Hk' Hs'; [|apply advances_irrefl].
        by eapply advances_not, Hall.
      * intros best [= <-]. exists c. by rewrite elem_of_app, list_elem_of_singleton; auto.
      * intros c' [Hin| ->%list_elem_of_singleton]%elem_of_app Hk' Hs'; [by apply Hall|done].
      * intros best Hb. destruct (Hbest _ Hb) as (c' & Hin & ?). exists c'. by rewrite elem_of_app; auto.
      * intros c' [Hin| ->%list_elem_of_singleton]%elem_of_app Hk' Hs'; [by destruct (Hall c')|apply advances_irrefl].
      * intros best [= <-]. exists c. by rewrite elem_of_app, list_elem_of_singleton; auto.
    + intros c' [Hin| ->%list_elem_of_singleton]%elem_of_app Hk' Hs'; [by apply Hall|done].
    + intros best Hb. destruct (Hbest _ Hb) as (c' & Hin & ?). exists c'. by rewrite elem_of_app; auto.
  - split.
    + intros c' [Hin| ->%list_elem_of_singleton]%elem_of_app Hk' Hs'; [by apply Hall|done].
    + intros best Hb. destruct (Hbest _ Hb) as (c' & Hin & ?). exists c'. by rewrite elem_of_app; auto.
Qed.

Lemma save_all_snoc cs c t : save_all (cs ++ [c]) t = (save c (save_all cs t)).2.
Proof. unfold save_all. by rewrite fold_left_app. Qed.

Lemma save_all_holds_best cs k : holds_best cs k (save_all cs ∅ !! k).
Proof.
  induction cs as [|c cs IH] using rev_ind; [|rewrite save_all_snoc; by apply save_holds_best].
  split; [intros c Hc; by apply elem_of_nil in Hc|]. intros best Hb.
  by apply (lookup_empty_Some (M:=gmap (string * string * string)) k best) in Hb.
Qed.

Lemma advances_trans a b c : advances a b = true -> advances b c = true -> advances a c = true.
Proof.
  unfold advances. destruct a as [s [i|] g], b as [s' [j|] g'], c as [s'' [k|] g'']; cbn;
    rewrite ?orb_true_iff, ?andb_true_iff, ?Z.ltb_lt, ?Z.eqb_eq; lia.
Qed.

Lemma save_all_advances cs k stored t : t !! k = Some stored ->
  exists later, save_all cs t !! k = Some later /\ (later = stored \/ advances stored later = true).
Proof.
  intros Hk. induction cs as [|c cs (later & Hl & Ha)] using rev_ind; [exists stored; by auto|].
  rewrite save_all_snoc. destruct (save_cases c (save_all cs t)) as [[Hs ->]|[Hs ->]]; [|by exists later].
  rewrite upsert_at, Hl. case_decide; [|by exists later].
  destruct (advances later (position c)) eqn:E; [|by exists later].
  exists (position c). split; [done|]. right. destruct Ha as [->|Ha]; [done|by eapply advances_trans].
Qed.

Lemma key_of_inj network source_program kind c :
  key_of c = checkpoint_key network source_program kind ->
  sc_network c = network /\ sc_source_program c = source_program /\ sc_checkpoint_kind c = kind.
Proof.
  unfold key_of, checkpoint_key. intros [= Hn Hp Hk]. split; [|split; [|done]].
  - by destruct (sc_network c), network.
  - by destruct (sc_source_program c), source_program.
Qed.

Lemma load_at network source_program kind t o :
  is_empty (trim kind) = false -> t !! checkpoint_key network source_program kind = position <$> o ->
  from_option (fun c => checkpoint_typed c /\ key_of c = checkpoint_key network source_program kind) True o ->
  load network source_program kind t = (Ok o, t).
Proof.
  intros Hne Ht Ho. unfold load_recovery_checkpoint, require_non_empty. rewrite Hne.
  rewrite bind_eq. cbv beta iota delta [st_lift guard_err]. rewrite bind_eq. cbv beta iota delta [read_state].
  rewrite Ht. destruct o as [c|]; [|done]. simpl in *. destruct Ho as [[Hs Hi] Hk].
  apply key_of_inj in Hk as (<- & <- & <-).
  rewrite to_u64_typed by done. cbn. rewrite map_to_u64_typed by done. by destruct c.
Qed.

(** Whatever is saved in whatever order, the checkpoint of a network,
    program and kind is the best of the valid ones saved for it: it is one of
    them, none of them is at a newer slot, and none of them is later in its slot
    where both indexes are known.  A save answers whether it advances the
    checkpoint, and later saves only move it forward. *)
Theorem checkpoint_is_the_best_saved before after network program kind :
  Forall checkpoint_typed (before ++ after) -> is_empty (trim kind) = false ->
  let t := save_all before ∅ in
  let offered c := key_of c = checkpoint_key network program kind /\ savable c in
  exists stored, load network program kind t = (Ok stored, t) /\
    (forall c, offered c ->
       (save c t).1 = Ok (from_option (fun s => advances (position s) (position c)) true stored)) /\
    match stored with
    | None => forall c, c ∈ before -> ~ offered c
    | Some s =>
        s ∈ before /\ offered s /\
        (forall c, c ∈ before -> offered c -> advances (position s) (position c) = false) /\
        exists s', load network program kind (save_all after t) = (Ok (Some s'), save_all after t) /\
          (s' = s \/ advances (position s) (position s') = true)
    end.
Proof.
  intros Hty Hne t offered. set (k := checkpoint_key network program kind) in *.
  destruct (save_all_holds_best before k) as [Hall Hbest]. fold t in Hall, Hbest.
  destruct (t !! k) as [best|] eqn:Ek.
  - destruct (Hbest _ eq_refl) as (s & Hin & Hk & Hs & ->). exists (Some s). split; [|split].
    + apply load_at; [done|exact Ek|]. split; [|done]. rewrite Forall_forall in Hty. apply Hty, elem_of_app. by left.
    + intros c [Hck Hc]. destruct (save_cases c t) as [[_ ->]|[? _]]; [|done]. unfold upsert_checkpoint.
      rewrite Hck. fold k. rewrite Ek. simpl. by destruct (advances (position s) (position c)).
    + split; [done|]. split; [by split|]. split; [intros c ? []; by apply Hall|].
      destruct (save_all_advances after k _ _ Ek) as (later & Hl & Ha).
      assert (save_all after t = save_all (before ++ after) ∅) as Happ by (unfold t, save_all; by rewrite fold_left_app).
      destruct (save_all_holds_best (before ++ after) k) as [_ Hb']. rewrite <- Happ in Hb'.
      destruct (Hb' _ Hl) as (s' & Hin' & Hk' & Hs' & ->). exists s'. split.
      * apply load_at; [done|exact Hl|]. split; [|done]. rewrite Forall_forall in Hty. by apply Hty.
      * destruct Ha as [Ha|Ha]; [left|by right]. apply key_of_inj in Hk as (? & ? & ?), Hk' as (? & ? & ?).
        destruct s, s'; unfold position in Ha; cbn in *. injection Ha as -> -> ->. by subst.
  - exists None. split; [|split].
    + apply load_at; [done|exact Ek|done].
    + intros c [Hck Hc]. destruct (save_cases c t) as [[_ ->]|[? _]]; [|done]. unfold upsert_checkpoint.
      rewrite Hck. fold k. by rewrite Ek.
    + intros c Hin [Hk Hs]. by apply (Hall c).
Qed.
End CheckpointHistory.

(** ** Gaps stay until they are resolved *)
Section GapHistory.
Context {XE JE : Type} (out_of_range : XE) (debug_values : option Z * option Z * option string -> string).
Abbreviation record_gap := (record_collection_gap (JE:=JE) out_of_range).
Abbreviation resolve_gap := (resolve_collection_gap (XE:=XE) (JE:=JE)).
Abbreviation load_active := (load_active_collection_gaps (XE:=XE) (JE:=JE) debug_values).

Inductive GapOp :=
| RecordGap (g : NewCollectionGap)
| ResolveGap (now gap_id : Z) (through : CollectionPosition).
Definition gap_step (op : GapOp) (t : GapTable) : GapTable :=
  match op with
  | RecordGap g => (record_gap g t).2
  | ResolveGap now id through => (resolve_gap now id through t).2
  end.
Definition run_gaps (ops : list GapOp) (t : GapTable) : GapTable := fold_left (fun t op => gap_step op t) ops t.
Definition no_gaps : GapTable := {| gt_next_id := 1; gt_rows := ∅ |}.

(** Whether an operation answers that it resolved the gap. *)
Definition resolves (id : Z) (op : GapOp) (t : GapTable) : bool :=
  match op with
  | ResolveGap now id' through =>
      (id' =? id) && match (resolve_gap now id' through t).1 with Ok true => true | _ => false end
  | RecordGap _ => false
  end.
Fixpoint resolved_during (id : Z) (t : GapTable) (ops : list GapOp) : bool :=
  match ops with
  | [] => false
  | op :: ops => resolves id op t || resolved_during id (gap_step op t) ops
  end.

(** The [u64] fields of a position. *)
Definition position_typed (p : CollectionPosition) : Prop :=
  in_uint 64 (po_slot p) /\ from_option (in_uint 64) True (po_transaction_index p).
Definition gap_op_typed (op : GapOp) : Prop :=
  match op with
  | RecordGap g => position_typed (ng_prior_checkpoint g)
  | ResolveGap _ _ through => position_typed through
  end.
Definition gap_identity (g : NewCollectionGap) : GapIdentity := {|
  gi_network := network_name (ng_network g); gi_source_program := source_program_name (ng_source_program g);
  gi_reason_code := ng_reason_code g; gi_prior_checkpoint_slot := po_slot (ng_prior_checkpoint g);
  gi_prior_checkpoint_signature := po_signature (ng_prior_checkpoint g) |}.

(** A row that loads: its resolution is complete or absent, and not before the
    checkpoint. *)
Record gap_row_wf (row : CollectionGapRow) : Prop := {
  gw_network : exists n, gi_network (gr_identity row) = network_name n;
  gw_program : exists p, gi_source_program (gr_identity row) = source_program_name p;
  gw_slot : in_uint 64 (gi_prior_checkpoint_slot (gr_identity row));
  gw_index : from_option (in_uint 64) True (gr_prior_checkpoint_transaction_index row);
  gw_resolution :
    if active row then gr_resolved_through_transaction_index row = None /\ gr_resolved_through_signature row = None
    else exists through, position_typed through /\
      gr_resolved_through_slot row = Some (po_slot through) /\
      gr_resolved_through_transaction_index row = po_transaction_index through /\
      gr_resolved_through_signature row = Some (po_signature through) /\
      position_precedes through (gi_prior_checkpoint_slot (gr_identity row))
        (gr_prior_checkpoint_transaction_index row) = false;
}.
Record gaps_wf (t : GapTable) : Prop := {
  gw_ids : forall id row, gt_rows t !! id = Some row -> id < gt_next_id t;
  gw_rows : forall id row, gt_rows t !! id = Some row -> gap_row_wf row;
  gw_unique : forall i j r s, gt_rows t !! i = Some r -> gt_rows t !! j = Some s ->
    active r = true -> active s = true -> gr_identity r = gr_identity s -> i = j;
}.

Lemma find_active_Some identity t id row :
  find_active identity t = Some (id, row) ->
  gt_rows t !! id = Some row /\ active row = true /\ gr_identity row = identity.
Proof.
  intros [Hin Hc]%find_some. apply andb_true_iff in Hc as [Ha Hi%bool_decide_eq_true].
  by apply list_elem_of_In, elem_of_map_to_list in Hin.
Qed.
Lemma find_active_None identity t id row :
  find_active identity t = None -> gt_rows t !! id = Some row -> active row = true -> gr_identity row <> identity.
Proof.
  intros Hf Hin Ha Hi. apply elem_of_map_to_list, list_elem_of_In in Hin.
  apply (find_none _ _ Hf) in Hin. simpl in Hin. by rewrite Ha, bool_decide_eq_true_2 in Hin.
Qed.

(** What the two operations do. *)
Definition bump (t : GapTable) : GapTable := {| gt_next_id := gt_next_id t + 1; gt_rows := gt_rows t |}.
Lemma record_inv g t : exists o, record_gap g t = o /\
  ((o.2 = t /\ exists e, o.1 = Err e) \/
   exists row, new_gap_row (XE:=XE) (JE:=JE) g = Ok row /\
     match find_active (gr_identity row) t with
     | Some (id, stored) => o = (Ok id, set_gap id (merge_gap stored row) (bump t))
     | None => o = (Ok (gt_next_id t), set_gap (gt_next_id t) row (bump t))
     end).
Proof.
  eexists. split; [done|]. unfold record_collection_gap. rewrite bind_eq. cbv beta iota delta [st_lift].
  destruct (new_gap_row g) as [row|e]; [|left; by eauto]. unfold upsert_gap.
  destruct (in_sintb 64 (gt_next_id t)); [|left; by eauto]. right. exists row. split; [done|].
  change (find_active (gr_identity row) {| gt_next_id := gt_next_id t + 1; gt_rows := gt_rows t |})
    with (find_active (gr_identity row) t).
  by destruct (find_active (gr_identity row) t) as [[id stored]|].
Qed.

Lemma new_gap_row_Ok g row : new_gap_row (XE:=XE) (JE:=JE) g = Ok row ->
  gr_identity row = gap_identity g /\
  gr_prior_checkpoint_transaction_index row = po_transaction_index (ng_prior_checkpoint g) /\
  gr_detected_at_unix_ms row = ng_detected_at_unix_ms g /\ active row = true /\
  gr_resolved_through_transaction_index row = None /\ gr_resolved_through_signature row = None.
Proof.
  unfold new_gap_row. intros H. simp_ok.
  match goal with H : to_i64 _ _ = _ |- _ => apply to_i64_eq in H as -> end.
  match goal with H : map_transpose _ _ = _ |- _ => apply map_transpose_id in H as -> end;
    [by subst row|intros z z'; apply to_i64_eq].
Qed.

Lemma to_u64_eq field z z' : to_u64 (XE:=XE) (JE:=JE) z field = Ok z' -> z' = z.
Proof. unfold to_u64. intros H. apply ok_or_Ok, try_from_u_Some in H. by destruct H. Qed.
Lemma active_gap_Some id t row : active_gap id t = Some row <-> gt_rows t !! id = Some row /\ active row = true.
Proof.
  unfold active_gap. destruct (gt_rows t !! id) as [r|]; simpl; [|by split; [|intros [? ?]]].
  destruct (active r) eqn:E; split; [by intros [= <-]|by intros [[= <-] _]|done|intros [[= <-] ?]; congruence].
Qed.

(** Runs the checks before the next write; the failing ones end the goal. *)
Ltac run_check :=
  rewrite bind_eq; cbv beta iota delta [st_lift read_state];
  match goal with
  | |- context [match ?r with Ok _ => _ | Err _ => _ end] =>
      lazymatch r with
      | Ok _ => fail
      | _ => let E := fresh "Ev" in destruct r as [?|?] eqn:E; [|by left]
      end
  end.
Lemma resolve_inv now id through t :
  ((resolve_gap now id through t).2 = t /\ (resolve_gap now id through t).1 <> Ok true) \/
  exists row, gt_rows t !! id = Some row /\ active row = true /\
    position_precedes through (gi_prior_checkpoint_slot (gr_identity row))
      (gr_prior_checkpoint_transaction_index row) = false /\
    resolve_gap now id through t =
      (Ok true, set_gap id (resolve_row (po_slot through) (po_transaction_index through) (po_signature through)
                              now row) t).
Proof.
  unfold resolve_collection_gap. run_check. unfold transaction. rewrite bind_eq. cbv beta iota delta [read_state].
  destruct (active_gap id t) as [row|] eqn:Erow; [|by left]. pose proof Erow as [Hrow Ha]%active_gap_Some.
  run_check. run_check.
  match goal with H : to_u64 _ _ = _ |- _ => apply to_u64_eq in H as -> end.
  match goal with H : map_transpose _ _ = _ |- _ => apply map_transpose_id in H as -> end;
    [|intros z z'; apply to_u64_eq].
  destruct (position_precedes _ _ _) eqn:Ep; [by left|]. run_check. run_check.
  match goal with H : to_i64 _ _ = _ |- _ => apply to_i64_eq in H as -> end.
  match goal with H : map_transpose _ _ = _ |- _ => apply map_transpose_id in H as -> end;
    [|intros z z'; apply to_i64_eq].
  right. exists row. split; [done|]. split; [done|]. split; [done|].
  rewrite bind_eq. unfold update_resolution. by rewrite Erow.
Qed.

Lemma bump_wf t : gaps_wf t -> gaps_wf (bump t).
Proof. intros [Hids Hrows Hu]. split; simpl; [|done|done]. intros id row H. apply Hids in H. lia. Qed.
Lemma set_gap_wf id row t :
  gaps_wf t -> id < gt_next_id t -> gap_row_wf row ->
  (active row = true -> forall j s, gt_rows t !! j = Some s -> j <> id -> active s = true ->
     gr_identity s <> gr_identity row) ->
  gaps_wf (set_gap id row t).
Proof.
  intros [Hids Hrows Hu] Hid Hw Hne. split; simpl.
  - intros i r [[<- _]|[_ H]]%lookup_insert_Some; [done|]. by eapply Hids.
  - intros i r [[_ <-]|[_ H]]%lookup_insert_Some; [done|]. by eapply Hrows.
  - intros i j r s [[<- <-]|[Hi H]]%lookup_insert_Some [[<- <-]|[Hj H']]%lookup_insert_Some Hr Hs He; [done| | |].
    + by destruct (Hne Hr j s H').
    + by destruct (Hne Hs i r H).
    + by eapply Hu.
Qed.

Lemma new_gap_row_wf g row :
  position_typed (ng_prior_checkpoint g) -> new_gap_row (XE:=XE) (JE:=JE) g = Ok row -> gap_row_wf row.
Proof.
  intros [Hs Hi] (He & Hx & _ & Ha & Hr & Hg)%new_gap_row_Ok.
  split; rewrite ?He, ?Hx, ?Ha; simpl; [by eexists|by eexists|done|done|done].
Qed.
Lemma merge_gap_wf stored row :
  gap_row_wf stored -> active stored = true -> gap_row_wf row -> gap_row_wf (merge_gap stored row).
Proof.
  intros [Hn Hp Hs Hi Hr] Ha [_ _ _ Hi' _]. change (active stored) with (active (merge_gap stored row)) in Ha, Hr.
  rewrite Ha in Hr. split; [done|done|done| |by rewrite Ha].
  simpl. by destruct (gr_prior_checkpoint_transaction_index stored).
Qed.
Lemma resolve_row_wf through now row :
  gap_row_wf row -> position_typed through ->
  position_precedes through (gi_prior_checkpoint_slot (gr_identity row))
    (gr_prior_checkpoint_transaction_index row) = false ->
  gap_row_wf (resolve_row (po_slot through) (po_transaction_index through) (po_signature through) now row).
Proof. intros [Hn Hp Hs Hi _] Ht Hpre. split; [done..|]. simpl. by exists through. Qed.

Lemma gap_step_wf op t : gap_op_typed op -> gaps_wf t -> gaps_wf (gap_step op t).
Proof.
  intros Hty Hwf. destruct op as [g|now id through]; simpl in *.
  - destruct (record_inv g t) as (o & -> & [[-> _]|(row & Hrow & Ho)]); [done|].
    pose proof (new_gap_row_wf _ _ Hty Hrow) as Hw.
    destruct (find_active _ t) as [[id stored]|] eqn:Ef; subst o; simpl.
    + apply find_active_Some in Ef as (Hin & Ha & He). apply set_gap_wf; [by apply bump_wf|..]; simpl.
      * pose proof (gw_ids _ Hwf _ _ Hin). lia.
      * apply merge_gap_wf; [by eapply gw_rows|done|done].
      * intros _ j s Hj Hne Hs Heq. apply Hne. by eapply gw_unique.
    + apply set_gap_wf; [by apply bump_wf|simpl; lia|done|]. intros _ j s Hj _ Hs. by eapply find_active_None.
  - destruct (resolve_inv now id through t) as [[-> _]|(row & Hin & Ha & Hp & ->)]; [done|]. simpl.
    apply set_gap_wf; [done|by eapply gw_ids| |done]. apply resolve_row_wf; [by eapply gw_rows|done|done].
Qed.

(** What becomes of a row. *)
Record gap_follows (row row' : CollectionGapRow) : Prop := {
  gf_identity : gr_identity row' = gr_identity row;
  gf_detected : gr_detected_at_unix_ms row' <= gr_detected_at_unix_ms row;
  gf_resolved : active row = false -> row' = row;
}.
#[local] Instance gap_follows_refl : Reflexive gap_follows.
Proof. intros row. split; [done|lia|done]. Qed.
#[local] Instance gap_follows_trans : Transitive gap_follows.
Proof.
  intros a b c [Hi Hd Hr] [Hi' Hd' Hr']. split; [by rewrite Hi'|lia|].
  intros Ha. specialize (Hr Ha). subst b. by apply Hr'.
Qed.

Lemma gap_step_follows op t id row :
  gt_rows t !! id = Some row -> id < gt_next_id t ->
  exists row', gt_rows (gap_step op t) !! id = Some row' /\ gap_follows row row' /\
    active row' = active row && negb (resolves id op t).
Proof.
  intros Hin Hlt. assert (forall b : bool, active row = active row && negb b <-> (b = true -> active row = false)) as Hkeep.
  { intros b. destruct (active row), b; naive_solver. }
  destruct op as [g|now i through]; simpl.
  - destruct (record_inv g t) as (o & -> & [[-> _]|(r & _ & Ho)]); [exists row; by rewrite andb_true_r|].
    destruct (find_active _ t) as [[i stored]|] eqn:Ef; subst o; simpl; rewrite andb_true_r.
    + apply find_active_Some in Ef as (Hi & Ha & _). destruct (decide (i = id)) as [->|Hne].
      * assert (stored = row) as -> by congruence. rewrite lookup_insert_eq. eexists. split; [done|]. split; [|done].
        split; [done|simpl; lia|congruence].
      * rewrite lookup_insert_ne by done. by exists row.
    + rewrite lookup_insert_ne by lia. by exists row.
  - destruct (resolve_inv now i through t) as [[-> Hno]|(r & Hi & Ha & _ & ->)].
    + exists row. split; [done|]. split; [done|]. apply Hkeep. intros [_ H]%andb_true_iff.
      destruct (resolve_gap now i through t).1 as [[]|]; done.
    + simpl. rewrite andb_true_r. destruct (Z.eqb_spec i id) as [->|Hne].
      * assert (r = row) as -> by congruence. rewrite lookup_insert_eq. eexists. split; [done|].
        rewrite andb_false_r. split; [|done]. split; [done|simpl; lia|congruence].
      * rewrite lookup_insert_ne by done. exists row. by rewrite andb_true_r.
Qed.

Lemma gap_step_next op t : gt_next_id t <= gt_next_id (gap_step op t).
Proof.
  destruct op as [g|now i through]; simpl.
  - destruct (record_inv g t) as (o & -> & [[-> _]|(r & _ & Ho)]); [done|].
    destruct (find_active _ t) as [[i stored]|]; subst o; simpl; lia.
  - destruct (resolve_inv now i through t) as [[-> Hno]|(r & Hi & Ha & _ & ->)]; simpl; lia.
Qed.

Lemma run_gaps_wf ops t : Forall gap_op_typed ops -> gaps_wf t -> gaps_wf (run_gaps ops t).
Proof.
  unfold run_gaps. intros Hty. revert t. induction Hty as [|op ops Hop _ IH]; intros t Hwf; simpl; [done|].
  by apply IH, gap_step_wf.
Qed.
Lemma no_gaps_wf : gaps_wf no_gaps.
Proof. by split. Qed.

Lemma run_gaps_follows ops t id row :
  gt_rows t !! id = Some row -> id < gt_next_id t ->
  exists row', gt_rows (run_gaps ops t) !! id = Some row' /\ gap_follows row row' /\
    active row' = active row && negb (resolved_during id t ops).
Proof.
  unfold run_gaps. revert t row. induction ops as [|op ops IH]; intros t row Hin Hlt; simpl.
  - exists row. by rewrite andb_true_r.
  - destruct (gap_step_follows op t id row Hin Hlt) as (r & Hr & Hf & Ha).
    destruct (IH (gap_step op t) r Hr) as (r' & Hr' & Hf' & Ha'); [pose proof (gap_step_next op t); lia|].
    exists r'. split; [done|]. split; [by etrans|]. by rewrite Ha', Ha, negb_orb, andb_assoc.
Qed.

(** A gap just recorded is active under the answered id. *)
Lemma record_gap_at g t id t' :
  gaps_wf t -> record_gap g t = (Ok id, t') ->
  exists row, gt_rows t' !! id = Some row /\ id < gt_next_id t' /\ active row = true /\
    gr_identity row = gap_identity g /\ gr_detected_at_unix_ms row <= ng_detected_at_unix_ms g.
Proof.
  intros Hwf Hrec. destruct (record_inv g t) as (o & Ho & H). rewrite Hrec in Ho. subst o.
  destruct H as [[_ [e He]]|(row & Hrow & H)]; [done|]. apply new_gap_row_Ok in Hrow as (He & _ & Hd & Ha & _).
  destruct (find_active _ t) as [[i stored]|] eqn:Ef; injection H as -> ->; simpl; rewrite lookup_insert_eq;
    eexists; (split; [done|]).
  - apply find_active_Some in Ef as (Hi & Has & Hid). pose proof (gw_ids _ Hwf _ _ Hi).
    split; [lia|]. split; [done|]. split; simpl; [congruence|lia].
  - split; [lia|]. split; [done|]. split; [done|lia].
Qed.

(** Recording the same gap again finds the active one. *)
Lemma record_gap_again g t id row id' t' :
  gaps_wf t -> gt_rows t !! id = Some row -> gr_identity row = gap_identity g ->
  record_gap g t = (Ok id', t') -> (id' = id <-> active row = true).
Proof.
  intros Hwf Hin Hid Hrec. destruct (record_inv g t) as (o & Ho & H). rewrite Hrec in Ho. subst o.
  destruct H as [[_ [e He]]|(r & Hrow & H)]; [done|]. apply new_gap_row_Ok in Hrow as (He & _).
  destruct (find_active _ t) as [[i stored]|] eqn:Ef; injection H as -> _.
  - apply find_active_Some in Ef as (Hi & Ha & Hs). split; [intros ->; congruence|].
    intros Har. eapply (gw_unique _ Hwf); eauto. congruence.
  - pose proof (gw_ids _ Hwf _ _ Hin). split; [lia|]. intros Ha.
    destruct (find_active_None _ _ _ _ Ef Hin Ha). congruence.
Qed.

(** ** Loading *)
Lemma parse_source_program_name p :
  parse_source_program (XE:=XE) (JE:=JE) (source_program_name p) = Ok p.
Proof. by destruct p. Qed.
Lemma mapM_total {A B E} (f : A -> result E B) (l : list A) :
  (forall x, x ∈ l -> exists y, f x = Ok y) -> exists ys, mapM f l = Ok ys /\ Forall2 (fun x y => f x = Ok y) l ys.
Proof.
  induction l as [|x l IH]; intros H; [by exists []|].
  destruct (H x) as [y Hy]; [by left|]. destruct IH as (ys & Hm & Hf); [intros z Hz; apply H; by right|].
  exists (y :: ys). split; [|by constructor]. change (mapM f (x :: l)) with (y ← f x; k ← mapM f l; mret (y :: k)).
  by rewrite Hy, Hm.
Qed.

Lemma map_gap_wf id row : gap_row_wf row -> active row = true ->
  exists c, map_gap (XE:=XE) (JE:=JE) debug_values (id, row) = Ok c /\ cg_gap_id c = id /\
    network_name (cg_network c) = gi_network (gr_identity row) /\
    source_program_name (cg_source_program c) = gi_source_program (gr_identity row) /\
    cg_reason_code c = gi_reason_code (gr_identity row) /\
    po_slot (cg_prior_checkpoint c) = gi_prior_checkpoint_slot (gr_identity row) /\
    po_signature (cg_prior_checkpoint c) = gi_prior_checkpoint_signature (gr_identity row) /\
    cg_detected_at_unix_ms c = gr_detected_at_unix_ms row /\ cg_resolved_through c = None.
Proof.
  intros [[n Hn] [p Hp] Hs Hi Hr] Ha. rewrite Ha in Hr. destruct Hr as [Hri Hrs].
  apply bool_decide_eq_true in Ha. unfold map_gap, map_resolution. rewrite Ha, Hri, Hrs. simpl.
  rewrite Hn, parse_network_name. simpl. rewrite Hp, parse_source_program_name. simpl.
  rewrite to_u64_typed, map_to_u64_typed by done. simpl. eexists. split; [done|]. done.
Qed.

Lemma active_rows_elem network source_program t p :
  p ∈ active_rows network source_program t <->
  gt_rows t !! p.1 = Some p.2 /\ active p.2 = true /\
  gi_network (gr_identity p.2) = network_name network /\
  gi_source_program (gr_identity p.2) = source_program_name source_program.
Proof.
  destruct p as [id row]. unfold active_rows. rewrite list_elem_of_In, filter_In, <- list_elem_of_In, elem_of_map_to_list.
  cbn [fst snd]. rewrite !andb_true_iff, !String.eqb_eq. naive_solver.
Qed.

Lemma load_active_wf network source_program t :
  gaps_wf t -> exists gaps, load_active network source_program t = (Ok gaps, t) /\
    NoDup (cg_gap_id <$> gaps) /\
    forall id row, gt_rows t !! id = Some row -> active row = true ->
      gi_network (gr_identity row) = network_name network ->
      gi_source_program (gr_identity row) = source_program_name source_program ->
      exists c, c ∈ gaps /\ map_gap (XE:=XE) (JE:=JE) debug_values (id, row) = Ok c.
Proof.
  intros Hwf. set (rows := sort_by (fun p q : Z * CollectionGapRow =>
    cmp (gr_detected_at_unix_ms p.2, p.1) (gr_detected_at_unix_ms q.2, q.1)) (active_rows network source_program t)).
  destruct (mapM_total (map_gap (XE:=XE) (JE:=JE) debug_values) rows) as (gaps & Hm & Hrel).
  { intros [id row] Hin. unfold rows in Hin. rewrite elem_of_sort_by, active_rows_elem in Hin. cbn in Hin.
    destruct Hin as (Hin & Ha & _). destruct (map_gap_wf id row) as (c & Hc & _); [by eapply gw_rows|done|by exists c]. }
  exists gaps. split; [|split].
  - unfold load_active_collection_gaps. rewrite bind_eq. cbv beta iota delta [read_state st_lift]. fold rows. by rewrite Hm.
  - assert (cg_gap_id <$> gaps = rows.*1) as ->.
    { clear Hm. induction Hrel as [|[id row] c l l' Hc _ IH]; [done|]. rewrite !fmap_cons, IH. f_equal.
      unfold map_gap in Hc. simp_ok. by subst c. }
    unfold rows. rewrite sort_by_perm. unfold active_rows.
    eapply sublist_NoDup; [|apply fmap_sublist, filter_sublist]. apply NoDup_fst_map_to_list.
  - intros id row Hin Ha Hn Hp.
    assert ((id, row) ∈ rows) as Hr by (unfold rows; rewrite elem_of_sort_by, active_rows_elem; done).
    apply list_elem_of_lookup in Hr as [i Hi]. destruct (Forall2_lookup_l _ _ _ _ _ Hrel Hi) as (c & Hc & Hmap).
    exists c. split; [by eapply list_elem_of_lookup_2|done].
Qed.

(** C39: a reported gap is active, and listed once among the active gaps of its
    network and program with its checkpoint and a detection time no later than
    reported, until an operation answers that it resolved it; from then on it
    keeps a resolution that does not lie before its checkpoint.  Reporting the
    same gap again answers the same id exactly while it is active. *)
Theorem gaps_stay_until_resolved before g id t later :
  Forall gap_op_typed (before ++ RecordGap g :: later) ->
  record_gap g (run_gaps before no_gaps) = (Ok id, t) ->
  let t' := run_gaps later t in
  exists row, gt_rows t' !! id = Some row /\ gr_identity row = gap_identity g /\
    active row = negb (resolved_during id t later) /\
    (if active row then
       exists gaps c, load_active (ng_network g) (ng_source_program g) t' = (Ok gaps, t') /\
         NoDup (cg_gap_id <$> gaps) /\ c ∈ gaps /\ cg_gap_id c = id /\ cg_reason_code c = ng_reason_code g /\
         po_slot (cg_prior_checkpoint c) = po_slot (ng_prior_checkpoint g) /\
         po_signature (cg_prior_checkpoint c) = po_signature (ng_prior_checkpoint g) /\
         cg_detected_at_unix_ms c <= ng_detected_at_unix_ms g /\ cg_resolved_through c = None
     else
       exists through, map_resolution (XE:=XE) (JE:=JE) debug_values row = Ok (Some through) /\
         position_precedes through (po_slot (ng_prior_checkpoint g))
           (gr_prior_checkpoint_transaction_index row) = false) /\
    forall g' id' t'', gap_identity g' = gap_identity g -> record_gap g' t' = (Ok id', t'') ->
      (id' = id <-> active row = true).
Proof.
  intros [Hb [Hg Hl]%Forall_cons]%Forall_app Hrec t'.
  pose proof (run_gaps_wf _ _ Hb no_gaps_wf) as Hwf0.
  destruct (record_gap_at _ _ _ _ Hwf0 Hrec) as (r & Hr & Hlt & Ha & Hid & Hd).
  assert (gaps_wf t) as Hwf by (pose proof (gap_step_wf (RecordGap g) _ Hg Hwf0) as H; simpl in H; by rewrite Hrec in H).
  destruct (run_gaps_follows later t id r Hr Hlt) as (row & Hrow & [Hi Hdet _] & Hact). fold t' in Hrow.
  pose proof (run_gaps_wf later t Hl Hwf : gaps_wf t') as Hwf'.
  assert (gr_identity row = gap_identity g) as Hig by congruence. pose proof (gw_rows _ Hwf' _ _ Hrow) as Hw.
  exists row. split; [done|]. split; [done|]. split; [by rewrite Hact, Ha|]. split.
  - destruct (active row) eqn:Ear.
    + destruct (load_active_wf (ng_network g) (ng_source_program g) t' Hwf') as (gaps & Hload & Hnd & Hin).
      destruct (Hin id row) as (c & Hc & Hm); [done|done|by rewrite Hig|by rewrite Hig|].
      destruct (map_gap_wf id row Hw Ear) as (c' & Hc' & H1 & _ & _ & H2 & H3 & H4 & H5 & H6).
      assert (c' = c) as -> by congruence. exists gaps, c. rewrite Hig in *.
      do 4 (split; [done|]). split; [done|]. split; [done|]. split; [done|]. split; [lia|done].
    + destruct Hw as [_ _ _ _ Hres]. rewrite Ear in Hres. destruct Hres as (th & [Hs Hx] & H1 & H2 & H3 & H4).
      exists th. rewrite Hig in H4. split; [|done]. unfold map_resolution. rewrite H1, H2, H3.
      destruct (po_transaction_index th) eqn:Ex; rewrite to_u64_typed by done; cbn [mbind result_bind];
        (rewrite map_to_u64_typed by done); simpl; rewrite <- ?Ex; by destruct th.
  - intros g' id' t'' Hg' Hrec'. eapply record_gap_again; [done..| |done]. congruence.
Qed.
End GapHistory.

(** ** The mints of a pool never change *)
Section PoolIdentity.
Context {XE JE : Type}.
Abbreviation upsert := (upsert_pump_swap_pool (XE:=XE) (JE:=JE)).

Definition pools_typed (t : PoolTable) : Prop := forall k row, t !! k = Some row -> in_uint 64 (ppr_observed_slot row).
Definition pools_grow (t t' : PoolTable) : Prop := forall k row, t !! k = Some row ->
  exists row', t' !! k = Some row' /\ ppr_base_mint row' = ppr_base_mint row /\
    ppr_quote_mint row' = ppr_quote_mint row /\ ppr_observed_slot row <= ppr_observed_slot row'.
Definition pool_row (p : StoredPumpSwapPool) : PumpSwapPoolRow := {|
  ppr_base_mint := pp_base_mint p; ppr_quote_mint := pp_quote_mint p;
  ppr_observed_slot := pp_observed_slot p; ppr_observed_signature := pp_observed_signature p |}.
Definition pool_key (p : StoredPumpSwapPool) : string * string := (network_name (pp_network p), pp_pool_address p).
Definition other_mints (p : StoredPumpSwapPool) (row : PumpSwapPoolRow) : bool :=
  negb (String.eqb (ppr_base_mint row) (pp_base_mint p)) || negb (String.eqb (ppr_quote_mint row) (pp_quote_mint p)).
(** The answer of an upsert that passes its checks. *)
Definition pool_answer (p : StoredPumpSwapPool) (stored : option PumpSwapPoolRow)
    : result (PersistenceError XE JE) bool :=
  match stored with
  | None => Ok true
  | Some row =>
      if other_mints p row then Err (PePumpSwapPoolIdentityConflict (pp_pool_address p))
      else Ok (ppr_observed_slot row <=? pp_observed_slot p)
  end.

Lemma pools_grow_refl t : pools_grow t t.
Proof. intros k row H. exists row. split; [done|]. split; [done|]. split; [done|lia]. Qed.

Lemma load_pool_typed (p : StoredPumpSwapPool) t row :
  pools_typed t -> validate_pool (XE:=XE) (JE:=JE) p = Ok tt -> t !! pool_key p = Some row ->
  load_pump_swap_pool (XE:=XE) (JE:=JE) (pp_network p) (pp_pool_address p) t =
    (Ok (Some {| pp_network := pp_network p; pp_pool_address := pp_pool_address p;
       pp_base_mint := ppr_base_mint row; pp_quote_mint := ppr_quote_mint row;
       pp_observed_slot := ppr_observed_slot row; pp_observed_signature := ppr_observed_signature row |}), t).
Proof.
  intros Hty Hv Hrow. unfold validate_pool in Hv. simp_ok. unfold load_pump_swap_pool.
  rewrite bind_eq. cbv beta iota delta [st_lift].
  match goal with H : require_non_empty (pp_pool_address p) _ = _ |- _ => rewrite H end.
  rewrite bind_eq. cbv beta iota delta [read_state]. unfold pool_key in Hrow. rewrite Hrow.
  simpl. unfold pool_from_row. rewrite to_u64_typed by (by eapply Hty). done.
Qed.

Section Others.
Context (others : PoolTable -> PoolTable).
Hypothesis others_upsert : forall u, pools_typed u -> pools_typed (others u) /\ pools_grow u (others u).

Lemma existing_pool_answer_eq p t row :
  pools_typed t -> validate_pool (XE:=XE) (JE:=JE) p = Ok tt -> t !! pool_key p = Some row ->
  existing_pool_answer (XE:=XE) (JE:=JE) others p t =
    (if other_mints p row then Err (PePumpSwapPoolIdentityConflict (pp_pool_address p)) else Ok false, others t).
Proof.
  intros Hty Hv Hrow. destruct (others_upsert t Hty) as [Hty' Hgrow].
  destruct (Hgrow _ _ Hrow) as (row' & Hrow' & Hb & Hq & _).
  unfold existing_pool_answer. rewrite bind_eq. cbv beta iota delta [modify_state]. rewrite bind_eq.
  rewrite (load_pool_typed p (others t) row' Hty' Hv Hrow'). cbn [pp_base_mint pp_quote_mint].
  unfold other_mints. rewrite Hb, Hq. by destruct (_ || _).
Qed.

Lemma insert_pool_grow p t :
  (forall row, t !! pool_key p = Some row -> same_pool_not_older row (pool_row p) = true) ->
  in_uint 64 (pp_observed_slot p) -> pools_typed t ->
  pools_typed (<[pool_key p := pool_row p]> t) /\ pools_grow t (<[pool_key p := pool_row p]> t).
Proof.
  intros Hsame Hslot Hty. split.
  - intros k row [[_ <-]|[_ H]]%lookup_insert_Some; [done|by eapply Hty].
  - intros k row H. destruct (decide (pool_key p = k)) as [<-|Hne].
    + exists (pool_row p). split; [apply lookup_insert_eq|]. apply Hsame in H.
      apply andb_true_iff in H as [[Hb%String.eqb_eq Hq%String.eqb_eq]%andb_true_iff Hle%Z.leb_le]. done.
    + exists row. split; [by apply lookup_insert_Some; right|]. split; [done|]. split; [done|lia].
Qed.

(** C40: whatever other clients do between the statements of an upsert, as long as
    they only use this one, an upsert of a valid pool answers by what it found:
    the first sighting fixes the mints of the address for good, different mints
    are the conflict error, and otherwise the answer is whether the sighting was
    not older than the stored one, which it then replaces. *)
Theorem pool_identity_is_permanent p t :
  in_uint 64 (pp_observed_slot p) -> pools_typed t ->
  let '(answer, t') := upsert others p t in
  pools_typed t' /\ pools_grow t t' /\
  (validate_pool (XE:=XE) (JE:=JE) p = Ok tt -> in_sint 64 (pp_observed_slot p) ->
     answer = pool_answer p (t !! pool_key p) /\ (answer = Ok true -> t' !! pool_key p = Some (pool_row p))).
Proof.
  intros Hslot Hty.
  unfold upsert_pump_swap_pool. rewrite bind_eq. cbv beta iota delta [st_lift].
  destruct (validate_pool p) as [[]|e] eqn:Ev; [|by split; [done|split; [apply pools_grow_refl|]]].
  rewrite bind_eq. cbv beta iota. destruct (to_i64 _ _) as [s|e] eqn:Es.
  2:{ split; [done|]. split; [apply pools_grow_refl|]. intros _ Hs. unfold to_i64 in Es.
      by rewrite (proj2 (try_from_s_Some 64 _ _) (conj eq_refl Hs)) in Es. }
  apply to_i64_eq in Es as ->. fold (pool_row p) (pool_key p). rewrite bind_eq. unfold upsert_pool_row.
  destruct (t !! pool_key p) as [row|] eqn:Ek; [destruct (same_pool_not_older row (pool_row p)) eqn:Es|].
  - cbn [mret stateful_ret]. destruct (insert_pool_grow p t) as [H1 H2]; [by intros r [= <-]%(eq_trans (eq_sym Ek))|done..|].
    split; [done|]. split; [done|]. intros _ _. split; [|intros _; apply lookup_insert_eq].
    unfold same_pool_not_older in Es. cbn in Es. unfold pool_answer, other_mints.
    apply andb_true_iff in Es as [[-> ->]%andb_true_iff ->]. done.
  - rewrite (existing_pool_answer_eq p t row) by done. destruct (others_upsert t Hty) as [H1 H2].
    split; [done|]. split; [done|]. intros _ _. unfold pool_answer. unfold same_pool_not_older in Es. cbn in Es.
    unfold other_mints. destruct (String.eqb _ _), (String.eqb _ _); cbn in *; rewrite ?Es; done.
  - cbn [mret stateful_ret]. destruct (insert_pool_grow p t) as [H1 H2]; [intros r; by rewrite Ek|done..|].
    split; [done|]. split; [done|]. intros _ _. split; [done|intros _; apply lookup_insert_eq].
Qed.
End Others.
End PoolIdentity.

(** ** Occurrences count the reports *)
Section QuarantineHistory.
Context {XE JE : Type} (out_of_range : XE) {B64 : Base64}.
Abbreviation record_ := (record_intake_quarantine (JE:=JE) out_of_range).

Definition record_all (rs : list (Z * IntakeQuarantineRecord)) (t : QuarantineTable) : QuarantineTable :=
  fold_left (fun t p => (record_ p.1 p.2 t).2) rs t.
(** A record that passes the checks and fits the columns. *)
Definition recordable (r : IntakeQuarantineRecord) : Prop :=
  validate_record (XE:=XE) (JE:=JE) r = Ok tt /\ in_sint 64 (slot (coordinate (iq_key r))) /\
  from_option (in_sint 64) True (transaction_index (coordinate (iq_key r))).
Definition record_key (r : IntakeQuarantineRecord) := quarantine_key (iq_key r) (slot (coordinate (iq_key r))).
Definition reports (k : string * string * Z * string * Z * Z) (rs : list (Z * IntakeQuarantineRecord)) :=
  List.filter (fun p => bool_decide (record_key p.2 = k)) rs.
Definition evidence_of (r : IntakeQuarantineRecord) :=
  (iq_decoder_version r, iq_reason_code r, iq_reason_detail r, iq_evidence_base64 r).
Definition row_evidence (q : QuarantineRow) :=
  (qu_decoder_version q, qu_reason_code q, qu_reason_detail q, qu_evidence_base64 q).

(** The row the reports of a key leave. *)
Definition summarizes (rs : list (Z * IntakeQuarantineRecord)) (o : option QuarantineRow) : Prop :=
  match head rs, last rs, o with
  | None, _, None => True
  | Some (first_now, _), Some (last_now, r), Some row =>
      qu_occurrences row = Z.of_nat (length rs) /\ row_evidence row = evidence_of r /\
      qu_first_seen_unix_ms row = first_now /\ qu_last_seen_unix_ms row = last_now
  | _, _, _ => False
  end.

Lemma record_eq now r t : recordable r ->
  (record_ now r t).2 =
    (upsert_quarantine (XE:=XE) (JE:=JE) out_of_range (record_key r)
      (insert_quarantine now (transaction_index (coordinate (iq_key r))) r) t).2.
Proof.
  intros (Hv & Hs & Hi). unfold record_intake_quarantine. rewrite bind_eq. cbv beta iota delta [st_lift]. rewrite Hv.
  rewrite bind_eq. cbv beta iota. unfold to_i64 at 1. rewrite (proj2 (try_from_s_Some 64 _ _) (conj eq_refl Hs)).
  simpl ok_or. cbv beta iota. rewrite bind_eq.
  assert (map_transpose (fun value => to_i64 (XE:=XE) (JE:=JE) value "quarantine transaction_index")
    (transaction_index (coordinate (iq_key r))) = Ok (transaction_index (coordinate (iq_key r)))) as ->.
  { destruct (transaction_index _) as [z|]; [|done]. simpl in *. unfold to_i64.
    by rewrite (proj2 (try_from_s_Some 64 _ _) (conj eq_refl Hi)). }
  rewrite bind_eq. fold (record_key r). by destruct (upsert_quarantine _ _ _ t) as [[n|e] t'].
Qed.
Lemma upsert_quarantine_at k k' row (t : QuarantineTable) :
  from_option (fun s => in_sint 64 (qu_occurrences s + 1)) True (t !! k') ->
  (upsert_quarantine (XE:=XE) (JE:=JE) out_of_range k' row t).2 !! k =
    if decide (k' = k) then Some (from_option (fun s => repeat_quarantine s row) row (t !! k')) else t !! k.
Proof.
  intros Hocc. unfold upsert_quarantine. destruct (t !! k') as [s|]; simpl in *.
  - apply in_sintb_iff in Hocc. rewrite Hocc. simpl.
    case_decide as Hk; [subst k; apply lookup_insert_eq|by apply lookup_insert_ne].
  - case_decide as Hk; [subst k; apply lookup_insert_eq|by apply lookup_insert_ne].
Qed.


(** The reports of a coordinate, [transaction_index] aside, are one row: its
    count is their number, its evidence and last time those of the latest, its
    first time that of the earliest. *)
Theorem occurrences_count_reports rs k :
  Forall (fun p => recordable p.2) rs -> Z.of_nat (length rs) <= i64_max ->
  summarizes (reports k rs) (record_all rs ∅ !! k).
Proof.
  unfold record_all. intros Hrs. revert k. induction rs as [|[now r] rs IH] using rev_ind; intros k Hlen; [exact I|].
  apply Forall_app in Hrs as [Hrs [Hr _]%Forall_cons]. rewrite length_app in Hlen. simpl in Hlen.
  assert (forall k, summarizes (reports k rs) (record_all rs ∅ !! k)) as Hsum by (intros k'; apply IH; [done|lia]).
  rewrite fold_left_app. fold (record_all rs ∅). cbn [fold_left fst snd]. rewrite record_eq by done.
  rewrite upsert_quarantine_at.
  - unfold reports. rewrite List.filter_app. cbn [List.filter snd]. specialize (Hsum k). unfold reports in Hsum.
    case_decide as Hk; [|by rewrite bool_decide_eq_false_2, app_nil_r].
    rewrite bool_decide_eq_true_2, Hk by done. unfold summarizes in *. rewrite last_snoc.
    destruct (record_all rs ∅ !! k) as [stored|]; destruct (List.filter _ rs) as [|[first_now fr] ks'];
      [done| |done|by cbn [head] in Hsum; destruct (last _) as [[]|]].
    cbn [head app] in *. destruct (last _) as [[last_now lr]|]; [|done]. destruct Hsum as (Hn & _ & Hf & _).
    cbn. rewrite length_app. simpl in *. split; [lia|done].
  - specialize (Hsum (record_key r)). unfold summarizes in Hsum.
    destruct (record_all rs ∅ !! record_key r) as [stored|]; [|done].
    destruct (head _) as [[]|]; [|done]. destruct (last _) as [[]|]; [|done]. destruct Hsum as [Hn _].
    assert (length (reports (record_key r) rs) <= length rs)%nat by apply length_filter_le. simpl. unfold in_sint. int_lia.
Qed.
End QuarantineHistory.

(** ** Screening audits are immutable *)
Section ScreeningHistory.
Context {XE JE : Type} (out_of_range unique_violation row_not_found : XE).
Context {J : Type} `{EqDecision J} (to_value : ScreeningRun -> result JE J).
Abbreviation save := (save_screening_run out_of_range unique_violation row_not_found to_value).

Record runs_wf (t : ScreeningTables J) : Prop := {
  rw_ids : forall id row, st_runs t !! id = Some row -> id < st_next_id t;
  rw_rules : forall id rule row, st_rules t !! (id, rule) = Some row -> id < st_next_id t;
  rw_unique : forall i j r s w, st_runs t !! i = Some r -> st_runs t !! j = Some s ->
    sw_observation_work_id r = Some w -> sw_observation_work_id s = Some w -> i = j;
}.

Lemma find_run_Some w (t : ScreeningTables J) id row :
  find_run w t = Some (id, row) -> st_runs t !! id = Some row /\ sw_observation_work_id row = Some w.
Proof.
  intros [Hin Hw%bool_decide_eq_true]%find_some. by apply list_elem_of_In, elem_of_map_to_list in Hin.
Qed.
Lemma find_run_None w (t : ScreeningTables J) id row :
  find_run w t = None -> st_runs t !! id = Some row -> sw_observation_work_id row <> Some w.
Proof.
  intros Hf Hin Hw. apply elem_of_map_to_list, list_elem_of_In in Hin. apply (find_none _ _ Hf) in Hin.
  by rewrite bool_decide_eq_true_2 in Hin.
Qed.

Lemma insert_rules_inv run_id rules (t : ScreeningTables J) :
  let '(_, t') := insert_rules (XE:=XE) (JE:=JE) unique_violation run_id rules t in
  st_next_id t' = st_next_id t /\ st_runs t' = st_runs t /\ st_rules t ⊆ st_rules t' /\
  forall id rule row, st_rules t' !! (id, rule) = Some row -> st_rules t !! (id, rule) = Some row \/ id = run_id.
Proof.
  revert t. induction rules as [|rule rules IH]; intros t; simpl; [by split; [done|split; [done|split; [done|by left]]]|].
  rewrite bind_eq. unfold insert_rule. rewrite bind_eq. cbv beta iota delta [st_lift].
  destruct (map_transpose _ _) as [s|e]; [|by split; [done|split; [done|split; [done|by left]]]].
  unfold insert_rule_row. destruct (st_rules t !! (run_id, rule_id rule)) eqn:Ek;
    [by split; [done|split; [done|split; [done|by left]]]|].
  set (t1 := {| st_rules := <[_ := _]> _ |}). specialize (IH t1).
  destruct (insert_rules _ _ rules t1) as [o t']. destruct IH as (H1 & H2 & H3 & H4).
  split; [done|]. split; [done|]. split.
  - etrans; [by apply insert_subseteq|exact H3].
  - intros id r row Hrow. destruct (H4 _ _ _ Hrow) as [H|H]; [|by right].
    unfold t1 in H. simpl in H. apply lookup_insert_Some in H as [[[= <- _] _]|[_ H]]; [by right|by left].
Qed.

(** What a save does to the tables, whatever it answers. *)
Definition saved_as (run : ScreeningRun) (t : ScreeningTables J) (id : Z) : Prop :=
  exists row, st_runs t !! id = Some row /\ sw_observation_work_id row = sr_observation_work_id run /\
    to_value run = Ok (sw_screening_record row).

Definition next_run (t : ScreeningTables J) : ScreeningTables J :=
  {| st_next_id := st_next_id t + 1; st_runs := st_runs t; st_rules := st_rules t |}.
Definition with_run (row : ScreeningRow J) (t : ScreeningTables J) : ScreeningTables J :=
  {| st_next_id := st_next_id t + 1; st_runs := <[st_next_id t := row]> (st_runs t); st_rules := st_rules t |}.

Lemma next_run_wf t : runs_wf t -> runs_wf (next_run t).
Proof.
  intros [Hi Hr Hu]. split; simpl; [intros id row H; apply Hi in H; lia|intros id rule row H; apply Hr in H; lia|done].
Qed.
Lemma with_run_wf row t :
  runs_wf t -> (forall w, sw_observation_work_id row = Some w -> find_run w t = None) ->
  runs_wf (with_run row t) /\ st_runs t ⊆ st_runs (with_run row t).
Proof.
  intros [Hi Hr Hu] Hnew. assert (st_runs t !! st_next_id t = None) as Hfresh.
  { destruct (st_runs t !! st_next_id t) as [r|] eqn:E; [|done]. apply Hi in E. lia. }
  split; [|by apply insert_subseteq]. split; simpl.
  - intros id r [[<- _]|[_ H%Hi]]%lookup_insert_Some; lia.
  - intros id rule r H%Hr. lia.
  - intros i j r s w [[<- <-]|[_ H]]%lookup_insert_Some [[<- <-]|[_ H']]%lookup_insert_Some Hr' Hs; [done| | |].
    + by destruct (find_run_None _ _ _ _ (Hnew _ Hr') H').
    + by destruct (find_run_None _ _ _ _ (Hnew _ Hs) H).
    + by eapply Hu.
Qed.

Lemma insert_run_inv row t :
  let o := (w ← sw_observation_work_id row; find_run w t) in
  insert_run (XE:=XE) (JE:=JE) out_of_range row t =
    if in_sintb 64 (st_next_id t) then
      match o with Some _ => (Ok None, next_run t) | None => (Ok (Some (st_next_id t)), with_run row t) end
    else (Err (PeDatabase out_of_range), next_run t).
Proof.
  unfold insert_run. destruct (in_sintb _ _); [|done]. cbn zeta.
  destruct (sw_observation_work_id row) as [w|]; [|done]. simpl.
  change (find_run w {| st_next_id := _ |}) with (find_run w t). by destruct (find_run w t).
Qed.

(** The body of the transaction. *)
Definition save_body (run : ScreeningRun) (observed : option Z) (record : J) : stateful (ScreeningTables J) (PersistenceError XE JE) Z :=
  inserted_id ← insert_run out_of_range (screening_row run observed record);
  match inserted_id with
  | Some run_id => _ ← insert_rules unique_violation run_id (sr_rules run); mret run_id
  | None => existing_run row_not_found run record
  end.
Lemma save_body_eq run t observed v :
  validate_screening_run (XE:=XE) (JE:=JE) run = Ok tt ->
  map_transpose (fun slot => to_i64 (XE:=XE) (JE:=JE) slot "screening observed_slot") (sr_observed_slot run) = Ok observed ->
  to_value run = Ok v -> save run t = screening_transaction (save_body run observed v) t.
Proof.
  intros Hv Hs Hj. unfold save_screening_run. rewrite bind_eq. cbv beta iota delta [st_lift]. rewrite Hv.
  rewrite bind_eq. cbv beta iota. rewrite Hs. rewrite bind_eq. cbv beta iota. by rewrite Hj.
Qed.

Lemma existing_run_inv run (v : J) t id :
  existing_run (XE:=XE) (JE:=JE) row_not_found run v t = (Ok id, t) ->
  exists w row, sr_observation_work_id run = Some w /\ find_run w t = Some (id, row) /\ sw_screening_record row = v.
Proof.
  unfold existing_run. rewrite bind_eq. cbv beta iota delta [st_lift].
  destruct (sr_observation_work_id run) as [w|]; [|done]. simpl ok_or. cbv iota.
  rewrite bind_eq. cbv beta iota delta [read_state]. rewrite bind_eq. cbv beta iota.
  destruct (find_run w t) as [[i row]|] eqn:E; [|done]. simpl ok_or. cbv beta iota.
  case_bool_decide as Hr; [|done]. intros [= ->]. by exists w, row.
Qed.
Lemma existing_run_state run (v : J) t : (existing_run (XE:=XE) (JE:=JE) row_not_found run v t).2 = t.
Proof.
  unfold existing_run. rewrite bind_eq. cbv beta iota delta [st_lift].
  destruct (sr_observation_work_id run) as [w|]; [|done]. simpl ok_or. cbv iota.
  rewrite bind_eq. cbv beta iota delta [read_state]. rewrite bind_eq. cbv beta iota.
  destruct (find_run w t) as [[i row]|]; [|done]. simpl ok_or. cbv beta iota. by case_bool_decide.
Qed.

Lemma save_body_keeps run observed v t :
  runs_wf t -> to_value run = Ok v ->
  let '(answer, t') := screening_transaction (save_body run observed v) t in
  runs_wf t' /\ st_runs t ⊆ st_runs t' /\ st_rules t ⊆ st_rules t' /\
  (forall id, answer = Ok id -> saved_as run t' id).
Proof.
  intros Hwf Hv. unfold screening_transaction, save_body. rewrite bind_eq, insert_run_inv.
  pose proof (next_run_wf t Hwf) as Hnext.
  destruct (in_sintb 64 (st_next_id t)); [|done].
  destruct (_ ≫= _) as [p|] eqn:Efind.
  - destruct (existing_run row_not_found run v (next_run t)) as [o t1] eqn:Eex.
    pose proof (existing_run_state run v (next_run t)) as Hst. rewrite Eex in Hst. simpl in Hst. subst t1.
    destruct o as [id|e]; [|done]. split; [done|]. split; [done|]. split; [done|]. intros i [= <-].
    apply existing_run_inv in Eex as (w & row & Hw & Hf & Hr). apply find_run_Some in Hf as [Hf Hrw].
    exists row. split; [done|]. split; [congruence|]. by rewrite Hr.
  - set (row := screening_row run observed v) in *. destruct (with_run_wf row t Hwf) as [Hw1 Hsub].
    { intros w Hw. by rewrite Hw in Efind. }
    rewrite bind_eq. pose proof (insert_rules_inv (st_next_id t) (sr_rules run) (with_run row t)) as Hins.
    destruct (insert_rules _ _ _ _) as [[[]|e] t'].
    + destruct Hins as (H1 & H2 & H3 & H4). cbn [mret stateful_ret]. rewrite H2. split; [|split; [done|split; [done|]]].
      * destruct Hw1 as [Hi Hr Hu]. split; rewrite ?H1, ?H2; [done| |done].
        intros id rule r [H| ->]%H4; [by eapply Hr|simpl; lia].
      * intros id [= <-]. exists row. rewrite H2. split; [apply lookup_insert_eq|done].
    + destruct Hins as (-> & _). done.
Qed.

(** A save keeps every stored run and rule, and the run of the id it answers is
    stored with the JSON of the input.  In any later state of the tables a valid
    run for the same work item is answered with that id when its JSON is the
    same, and refused as a conflict otherwise. *)
Theorem screening_runs_are_immutable run t :
  runs_wf t ->
  let '(answer, t') := save run t in
  runs_wf t' /\ st_runs t ⊆ st_runs t' /\ st_rules t ⊆ st_rules t' /\
  forall id, answer = Ok id -> saved_as run t' id /\
    forall later w run' v, runs_wf later -> st_runs t' ⊆ st_runs later -> in_sint 64 (st_next_id later) ->
      sr_observation_work_id run = Some w -> sr_observation_work_id run' = Some w ->
      validate_screening_run (XE:=XE) (JE:=JE) run' = Ok tt -> from_option (in_sint 64) True (sr_observed_slot run') ->
      to_value run' = Ok v ->
      (save run' later).1 =
        if bool_decide (result_ok (to_value run) = Some v) then Ok id else Err (PeScreeningRunConflict w).
Proof.
  intros Hwf. destruct (save run t) as [answer t'] eqn:Esave.
  assert (runs_wf t' /\ st_runs t ⊆ st_runs t' /\ st_rules t ⊆ st_rules t' /\
    (forall id, answer = Ok id -> saved_as run t' id)) as (H1 & H2 & H3 & H4).
  { unfold save_screening_run in Esave. rewrite bind_eq in Esave. cbv beta iota delta [st_lift] in Esave.
    destruct (validate_screening_run run) as [[]|e] eqn:Ev; [|by injection Esave as <- <-].
    rewrite bind_eq in Esave. cbv beta iota in Esave.
    destruct (map_transpose _ _) as [observed|e] eqn:Es; [|by injection Esave as <- <-].
    rewrite bind_eq in Esave. cbv beta iota in Esave.
    destruct (to_value run) as [v|e] eqn:Ej; [|by injection Esave as <- <-]. simpl map_err in Esave. cbv iota in Esave.
    pose proof (save_body_keeps run observed v t Hwf Ej) as H. unfold save_body in H. by rewrite Esave in H. }
  split; [done|]. split; [done|]. split; [done|]. intros id Ha. specialize (H4 id Ha). split; [done|].
  destruct H4 as (row & Hrow & Hrw & Hj). intros later w run' v Hlw Hsub Hnext Hw Hw' Hv' Hs' Hj'.
  assert (map_transpose (fun slot => to_i64 (XE:=XE) (JE:=JE) slot "screening observed_slot") (sr_observed_slot run')
    = Ok (sr_observed_slot run')) as Hslot.
  { destruct (sr_observed_slot run') as [z|]; [|done]. simpl in *. unfold to_i64.
    by rewrite (proj2 (try_from_s_Some 64 _ _) (conj eq_refl Hs')). }
  rewrite (save_body_eq run' later _ v Hv' Hslot Hj'). unfold screening_transaction, save_body.
  rewrite bind_eq, insert_run_inv. apply in_sintb_iff in Hnext. rewrite Hnext. cbn [screening_row sw_observation_work_id].
  rewrite Hw'. simpl. pose proof (lookup_weaken _ _ _ _ Hrow Hsub) as Hlater.
  destruct (find_run w later) as [[i r]|] eqn:Ef; [|by destruct (find_run_None _ _ _ _ Ef Hlater); congruence].
  pose proof (find_run_Some _ _ _ _ Ef) as [Hi Hiw]. assert (i = id) as ->.
  { eapply (rw_unique _ Hlw); eauto. congruence. }
  assert (r = row) as -> by congruence.
  unfold existing_run. rewrite bind_eq. cbv beta iota delta [st_lift]. rewrite Hw'. simpl ok_or. cbv beta iota.
  rewrite bind_eq. cbv beta iota delta [read_state]. rewrite bind_eq. cbv beta iota.
  change (find_run w (next_run later)) with (find_run w later). rewrite Ef. simpl ok_or. cbv beta iota. rewrite Hj.
  destruct (decide (sw_screening_record row = v)) as [He|He].
  - rewrite !bool_decide_eq_true_2; [done|by rewrite He|done].
  - rewrite !bool_decide_eq_false_2; [done|intros [= ?]; done|done].
Qed.
End ScreeningHistory.

(** ** Sample registers *)
Definition sample_checkpoint (slot : Z) (index : option Z) : StoredCheckpoint := {|
  sc_network := SolanaMainnet; sc_source_program := Pump; sc_checkpoint_kind := "COLLECTOR";
  sc_last_slot := slot; sc_last_transaction_index := index; sc_last_signature := "signature" |}.
Definition sample_gap (index : option Z) : NewCollectionGap := {|
  ng_network := SolanaMainnet; ng_source_program := Pump; ng_reason_code := "SIGNATURE_LIMIT";
  ng_prior_checkpoint := {| po_slot := 10; po_transaction_index := index; po_signature := "prior" |};
  ng_detected_at_unix_ms := 5000; ng_details := "recovery stopped before the checkpoint" |}.
Definition sample_resolution (slot : Z) : CollectionPosition :=
  {| po_slot := slot; po_transaction_index := None; po_signature := "resolved" |}.

(** Saves in an order that a late worker scrambles. *)
Lemma checkpoint_is_the_best_saved_witness :
  let before := [sample_checkpoint 5 (Some 3); sample_checkpoint 4 None; sample_checkpoint 7 (Some 1); sample_checkpoint 7 None] in
  let after := [sample_checkpoint 7 (Some 4)] in
  exists stored, load_recovery_checkpoint (XE:=unit) (JE:=unit) SolanaMainnet Pump "COLLECTOR" (save_all (XE:=unit) (JE:=unit) before ∅)
    = (Ok stored, save_all (XE:=unit) (JE:=unit) before ∅).
Proof.
  intros before after.
  assert (Forall checkpoint_typed (before ++ after)) as Hty.
  { repeat constructor; simpl; unfold in_uint; vm_compute; done. }
  destruct (checkpoint_is_the_best_saved (XE:=unit) (JE:=unit) before after SolanaMainnet Pump "COLLECTOR" Hty eq_refl)
    as (stored & Hload & _). exists stored. exact Hload.
Defined.

(** A gap reported twice with another operation between, then resolved. *)
Lemma gaps_stay_until_resolved_witness :
  let debug := fun _ : option Z * option Z * option string => EmptyString in
  let later := [RecordGap (sample_gap (Some 2)); ResolveGap 9000 2 (sample_resolution 12);
                ResolveGap 9500 1 (sample_resolution 12)] in
  exists t row, record_collection_gap (XE:=unit) (JE:=unit) tt (sample_gap None) no_gaps = (Ok 1, t) /\
    gt_rows (run_gaps (XE:=unit) (JE:=unit) tt later t) !! 1 = Some row /\ active row = false.
Proof.
  intros debug later. exists (record_collection_gap (XE:=unit) (JE:=unit) tt (sample_gap None) no_gaps).2.
  assert (record_collection_gap (XE:=unit) (JE:=unit) tt (sample_gap None) no_gaps =
    (Ok 1, (record_collection_gap (XE:=unit) (JE:=unit) tt (sample_gap None) no_gaps).2)) as Hrec by reflexivity.
  destruct (gaps_stay_until_resolved (XE:=unit) (JE:=unit) tt debug [] (sample_gap None) 1
    (record_collection_gap (XE:=unit) (JE:=unit) tt (sample_gap None) no_gaps).2 later) as (row & Hrow & _ & Ha & _);
    [|exact Hrec|].
  - repeat constructor; simpl; unfold in_uint; vm_compute; done.
  - exists row. split; [exact Hrec|]. split; [exact Hrow|]. rewrite Ha. vm_compute. reflexivity.
Defined.

(** Three sightings and an impostor. *)
Definition sample_pool (quote : string) (slot : Z) : StoredPumpSwapPool := {|
  pp_network := SolanaMainnet; pp_pool_address := "pool"; pp_base_mint := "base"; pp_quote_mint := quote;
  pp_observed_slot := slot; pp_observed_signature := "signature" |}.
Lemma pool_identity_is_permanent_witness :
  let t : PoolTable := {[ ("SOLANA_MAINNET", "pool") := pool_row (sample_pool "quote" 10) ]} in
  let upsert p := (upsert_pump_swap_pool (XE:=unit) (JE:=unit) id p t).1 in
  upsert (sample_pool "other" 20) = Err (PePumpSwapPoolIdentityConflict "pool") /\
  upsert (sample_pool "quote" 9) = Ok false /\ upsert (sample_pool "quote" 10) = Ok true.
Proof.
  intros t upsert.
  assert (forall p, in_uint 64 (pp_observed_slot p) -> in_sint 64 (pp_observed_slot p) ->
    validate_pool (XE:=unit) (JE:=unit) p = Ok tt -> upsert p = pool_answer p (t !! pool_key p)) as Hanswer.
  { intros p Hu Hs Hv. pose proof (pool_identity_is_permanent (XE:=unit) (JE:=unit) id) as H.
    specialize (H (fun u Hu => conj Hu (pools_grow_refl u)) p t Hu). unfold upsert.
    destruct (upsert_pump_swap_pool id p t) as [answer t']. simpl. apply H; [|done..].
    intros k row Hr. apply (lookup_singleton_Some (M:=gmap (string * string))) in Hr as [_ <-]. by vm_compute. }
  rewrite !Hanswer; by vm_compute.
Defined.
